(* ===== verification/_CoqProject ===== *)
-Q . S2P
Prelude.v
GoText.v
Hints.v
Encoding.v
Utf8.v
Literals.v
Layout.v
Conn.v
Packets.v
PacketSpec.v
GoTime.v
DateTime.v
Rows.v
Stmt.v
Collations.v
Dsn.v
Handshake.v
HandshakeSpec.v
Listener.v
ListenerSpec.v
Topology.v
Database.v
Group.v
Executors.v
DatabaseSpec.v
Isolation.v
ExecutorsSpec.v
GroupSpec.v
ExecutorsMem.v
PlanText.v
Crypto.v
CryptoFilter.v
Plans.v
ShardingExecutor.v
ShardingSpec.v
PlanSpec.v
SqlText.v
AuditLog.v
Undo.v
UndoSpec.v
UndoRestore.v
UndoMem.v
TableMeta.v
Values.v
Condition.v
Sharding.v
Shard.v
ConditionParse.v
Unary.v
Merge.v
Optimizer.v
ShardingConfig.v
SchemaPlans.v
Script.v
QueryPlan.v
Uuid.v
Segment.v
Breaker.v
Session.v
Etcd.v
Store.v
StoreSpec.v
Watch.v
RequestContext.v
TxManager.v
DtFilter.v
DtSpec.v
DtMem.v
DtStore.v
HttpFilter.v
HttpSpec.v
