(* ===== verification/Prelude.v ===== *)
(** * DBPack: a verification development

    DBPack is a database proxy in Go: it speaks the MySQL protocol to its
    clients, routes statements to sharded tables, and runs distributed
    transactions (AT and TCC branches) whose state is kept in etcd.  This
    library models the parts that carry that logic and proves what makes them
    correct; where the code falls short the limit is a theorem too.

    ** How the parts interact

    Bytes arrive on a connection, are cut into packets ([Conn]) and packets are
    read into commands, columns, rows and errors ([Packets], [Rows], [Stmt]).
    The WHERE clause of a statement is parsed into a condition, the condition
    is evaluated by a sharding algorithm to table indexes, and the topology
    routes those to databases ([ConditionParse], [Shard], [Optimizer]); what
    the databases answer is merged ([QueryPlan], [Merge]).  In a distributed
    transaction the filter of AT branches reads the rows a statement changes
    before and after it, registers a branch with their keys as row locks, and
    writes an undo log next to the change ([DtFilter]).  The transaction
    manager stores sessions, branches and locks in etcd ([TxManager], [Store])
    and finishes branches from two work queues; rolling a branch back runs the
    undo log ([Undo]).  Ids come from the id generators; the circuit breaker
    guards an executor.

    A client connects and authenticates ([Handshake]); the listener serves its
    commands ([Listener]) and hands statements to an executor ([Executors],
    [ShardingExecutor]), which keeps the transaction of each client and sends
    requests over the connections of data sources ([Database]) that groups
    pick ([Group]); plans are executed in the transaction of the client or in
    their own ([Plans]).

    ** Files

    Shared.
    - Prelude: outcomes of Go code ([res]: value, error, panic), machine
      widths ([i64], [u64]), list and Z lemmas, tactics and hint databases.
    - GoText: strconv and strings functions ([ParseInt], [FormatInt], [Split],
      [Contains], [EqualFold], ...).
    - GoTime: the calendar of package time that the code uses.

    The MySQL protocol.
    - Encoding: pkg/misc/encoding.go and the length-encoded integers of
      pkg/misc/utils.go, on byte lists with Go's slice bounds.
    - Utf8: runes and their encoding, as package unicode/utf8 has them.
    - Literals: the escaping of pkg/misc/escape.go and utils.go, and string
      literals as third_party/parser writes and reads them.
    - Layout: packets as sequences of fields; one lemma reads back what was
      written for every packet that is such a sequence.
    - Conn: pkg/mysql/conn.go, packet headers, sequence numbers and the
      splitting of packets of 2^24 - 1 bytes and more; the pool of buffers is
      the class [BufPool].
    - Packets: the OK, error, end-of-file, column and prepare packets, written
      by pkg/mysql/conn.go and read by pkg/packet and pkg/driver; PacketSpec
      holds what is read back, the type codes included.
    - DateTime: the dates and times of the text and the binary protocol
      (pkg/misc/utils.go).
    - Rows: values of rows in both protocols (pkg/mysql/conn.go rows,
      pkg/mysql/rows.go, pkg/packet), and the loop that reads a result set.
    - Stmt: executing prepared statements, parameters and long data.
    - SqlText: the texts of statements the code composes, and their arguments.
    - Collations: pkg/constant/collations.go.
    - Dsn: pkg/driver/dsn.go, the registries of TLS configurations
      (pkg/misc/utils.go) and of public keys (pkg/driver/auth.go).
    - Handshake: the packets of the connection phase, written and read by
      pkg/listener/mysql.go and pkg/driver, and the password check of
      pkg/driver/auth.go; HandshakeSpec shows that both sides agree.
    - Listener: the commands of pkg/listener/mysql.go over the executor
      interface; ListenerSpec what a client reads back.

    Executing statements.
    - Hints: pkg/misc/hint.go.
    - Database: pkg/sql/db.go and tx.go, the pools of
      third_party/pools/resource_pool.go and the flags of
      pkg/proto/context.go.  The world holds the data sources, a heap of
      transactions, the state of the databases and a trace of the requests
      sent on every connection; the databases are the class [Backend].  An
      operation returns, waits or panics.
    - Group: pkg/group/group.go and the weights of pkg/config/db.go.
    - Executors: pkg/executor/single_db.go, read_write_splitting.go, misc.go.
    - PlanText: the statements the plans of pkg/plan generate.
    - Plans: Execute of those plans, pkg/group/transaction.go.
    - ShardingExecutor: pkg/executor/sharding.go.
    - Crypto: pkg/misc/crypto.go, the modes of operation around a block cipher
      (class [AES]); CryptoFilter: pkg/filter/crypto/filter.go and what it
      leaves encrypted.
    - AuditLog: the audit log and the rate limiter (pkg/filter/audit_log,
      pkg/filter/rate), the labels of statements (pkg/misc/ast.go).
    - SchemaPlans: SHOW and index statements (pkg/optimize,
      pkg/plan/show_tables.go) with the table name as a shared cell.
    - DatabaseSpec: the invariant of pools and transactions; Isolation: who
      may use which connection; ExecutorsSpec, GroupSpec, ShardingSpec and
      PlanSpec: what executors, groups and plans promise; ExecutorsMem:
      concrete runs.

    Routing.
    - Topology: pkg/topo/topo.go.
    - Values: interface values, misc.Compare and misc.IsZero
      (pkg/misc/other.go), the operators of third_party/parser/opcode.
    - Condition: pkg/cond/condition.go and the table index slices of
      pkg/cond/shard.go.  Complex conditions are nodes of a heap, because
      [And] and [Or] append to their receiver in place and share operands.
    - Sharding: NumberMod and NumberRange (pkg/cond/algo_number_mod.go,
      algo_number_range.go) and the interface [ShardingAlgorithm]; the class
      [SoundAlgorithm] states what the evaluator needs of an algorithm, and
      both algorithms are shown to meet it.  Map iteration order is the class
      [MapOrder].
    - Shard: pkg/cond/shard.go, the evaluation of conditions to table indexes;
      the unstable sort is the class [KeySort].
    - ConditionParse: the parser of WHERE clauses in pkg/cond/condition.go;
      the function evaluators are the record [evaluators].
    - Unary: misc.ComputeUnary at every integer width, and the conditions with
      negative bounds.
    - Merge: pkg/plan/result.go, the merging of the row sets of several
      databases; [sort.Sort] is the class [UnstableSort].
    - Optimizer: pkg/optimize, the planning of SELECT, UPDATE, DELETE and
      INSERT on sharded tables.
    - ShardingConfig: the words and tables of pkg/config/db.go and the
      construction of a sharding executor (pkg/executor/sharding.go).
    - Script: pkg/function/function.go and js_func.go, expressions as scripts
      and the compiled scripts of a runtime; the engine is the class
      [JsEngine].
    - QueryPlan: pkg/plan/query.go, LIMIT and the execution over several
      databases.

    Distributed transactions.
    - Undo: the undo log manager and executors (pkg/dt/undolog), table records
      and their comparison (pkg/dt/schema), the codec of undo logs.
    - UndoSpec: the codec restores an undo log.
    - UndoRestore: the classes [ServerView] and [UndoServer] of the database an
      undo runs on, and what undoing a history of statements does; UndoMem is
      a database in memory that meets them.
    - TableMeta: pkg/meta/table_meta_cache.go, the metadata of tables.
    - DtFilter: pkg/filter/dt (MySQL) with its image executors; DtSpec what it
      does for every answer of the database ([BranchServer]) and of the
      transaction manager ([Coordinator]), DtMem a database that meets it.
    - Session: the protobuf code of GlobalSession and BranchSession in
      pkg/dt/api/api.pb.go; the class [Codec] is what the store needs of it.
    - Etcd: the etcd client calls, their effect on a revision, the class
      [EtcdServer] of servers (stale serializable reads, failing calls), and
      programs over the calls, run alone or interleaved with other clients.
    - Store: the methods of pkg/dt/storage/etcd/etcd.go as such programs, the
      row keys of pkg/misc/misc.go and ids of pkg/misc/xid.go.
    - StoreSpec: the effect of the store's operations on the key space.
    - Watch: the watch channels of the store (etcd.go, event.go), three
      goroutines over two buffered channels as a step relation, and the loop
      of the transaction manager behind them.
    - RequestContext: pkg/dt/context.go over a JSON interface.
    - TxManager: pkg/dt/transaction_manger.go.
    - DtStore: the filter of AT branches with the manager and the store, on a
      database beside the key space.
    - HttpFilter: the transaction filter for HTTP requests
      (pkg/filter/dt/filter_http.go, filter_http_transaction.go) and the
      request handler of pkg/listener/http.go; HttpSpec how a transaction over
      HTTP ends, and that a TCC request is replayed.

    Others.
    - Uuid: pkg/misc/uuid (id_worker.go, snowflake.go).
    - Segment: pkg/misc/uuid/segment.go, the worker call by call over a database
      of transactions with row locks (class [Segment.Database]), several workers
      interleaved.
    - Breaker: pkg/filter/breaker/breaker.go, with its timers and the loads
      made before the lock as a step relation.

    ** What the theorems show

    Transactions.  A registration that reports success took effect at one
    revision at which its transaction was open, with every row lock it asked
    for free or its own, whatever other clients do; it succeeds exactly when
    the rows are lockable.  Commit and rollback of an open transaction, run
    alone and with no id that extends another, move its session and branches in
    one revision and touch nothing else but, for commit, the locks; run alone, a
    transaction is decided once.  The queue handlers finish AT and TCC branches
    and remove sessions with no branch left.  Interleavings of commit and
    rollback, locks and branches found by prefix (so that a commit moves the
    branches of a longer id), a failed listing and dead branches are shown to
    break these guarantees.

    AT branches. Around an UPDATE, a DELETE or a prepared INSERT the filter
    leaves, if the branch is registered, an undo log that describes exactly the
    rows the statement changed, and nothing if it is not; with the store, an
    UPDATE or DELETE is registered exactly when no row is locked by another
    transaction. Running the undo logs of a branch restores the rows it found,
    in every table it touched, whatever the number of statements (the server
    returns the rows of a list of keys in an order that depends on the keys
    only, [keyOrder]); rows changed since by someone else make the undo refuse.
    The undo runs in a local transaction, which is taken as isolated, and values
    are those the text protocol presents without loss. A registration is
    repeated as often as configured while the lock is busy; composed with the
    store, a conflict is never reported as busy and so never repeated.

    Watching.  Under any interleaving of its goroutines a watch loses, doubles
    and reorders nothing before it is stopped, and every run delivers all
    changes although both channels are bounded; so the second phase of a
    transaction reaches the queue with every registered branch.  After an error
    of the server the watch hangs, and a watch that ends makes its receiver
    panic.

    Routing.  Parsing a WHERE clause in disjunctive normal form over columns,
    literals, parameters and minus signs yields a condition true on exactly the
    rows the clause selects; [And] and [Or]
    compute the conjunction and disjunction of unshared operands; evaluating
    such a condition with a sound algorithm returns the table of every stored
    row it selects; NumberMod and NumberRange are sound on stated domains; an
    accepted topology maps every index to a table of a database.  Composed:
    SELECT, UPDATE and DELETE plans cover the database and table of every
    stored row the clause selects, and a row that was inserted is covered by
    every SELECT whose clause it satisfies, for clauses of the executable fragment
    [plain_clause] (disjunctions of conjunctions of comparisons, other than <>, with
    integers, at most two of the alternatives single comparisons);
    all this follows from a configuration that is accepted, if it names each
    index once.  The shapes that panic or lose rows
    are stated as such.

    Results. ORDER BY and LIMIT over several databases deliver exactly the
    requested slice of all rows in order although each database is asked for a
    prefix of each of its tables only, if databases order rows as the merge
    does; without ORDER BY, LIMIT is the slice of the unlimited merge. Empty
    answers, numbers of the text protocol, text counts and constantly false
    clauses are shown to break the merge.

    Codecs. The wire integers and strings, the packets the proxy exchanges with
    clients and databases, packets of any length through their framing, the rows
    of both protocols, the undo logs and the two session messages are restored
    by their readers; decoding of sessions neither panics nor runs on, on any
    input (a slice out of range would panic in the model). A string literal the
    proxy writes is read back by the parser, with backslashes doubled when
    sql_mode disables escapes, and a data source name built by its grammar is
    parsed into the parts it was built of.

    Expressions and metadata.  The script of an expression is the text of its
    tree; evaluation does not depend on what was compiled before as long as no
    two scripts have the same hash; padding ends unless the padding is empty.
    Of a composite primary key only the first column is fetched, so that the
    guard against such keys never fires, and the cache confuses tables of the
    same name in two schemas.

    Clients. A client that authenticates with the right password reaches the
    command loop and reads back the results its executor returns, for text and
    prepared statements; every command leaves the connection ready for the next
    one. Whatever clients do, in any order, the transaction of a client runs on
    a connection on which nobody else has sent anything since it was started,
    for all three executors and, when tables are sharded, in every group; when
    the client leaves, it is rolled back and the connection is free. A write
    plan outside of a transaction is one transaction on one connection and,
    without connection filters, all the databases see of it. Writes of a
    splitting executor, as text or prepared, reach running masters, weights are
    honoured exactly. A second BEGIN, a failing write and the shared name of
    index statements are shown to break what they should keep.

    HTTP and encryption. A transaction over HTTP is committed when the backend
    answers with status 200 and rolled back otherwise; the second phase of a TCC
    branch posts the query, the headers and the body of the request that
    registered it. The encryption modes are restored by their decryption, and a
    row of string literals inserted through the encrypting filter is read back
    in clear; unquoted numbers, which are not encrypted, a failed begin, a
    missing header and the later rows of a prepared INSERT are shown to go
    wrong. The audit log can be read back as long as no field has a line break,
    and forged with one that has.

    Ids and breaker.  Ids of the package generator are unique per node and
    disjoint between nodes, ids of segment workers unique under any
    interleaving of the calls of their transactions, lost answers included, with
    the row present and positive steps; the breaker's counters, states and
    timers satisfy their invariant in every reachable state.

    ** Fuel

    [Cond_And] and [Cond_Or] recurse on the structure of heap nodes: operands
    are disjunctions of conjunctions, three levels, and fuel 3 is proved to be
    enough ([And_correct], [Or_correct]); the evaluation of such a condition
    needs 2. The merge loops output a row or end a result per turn and get the
    number of rows and results; enough is part of their theorems. Varints end
    after 10 bytes, as in the code. The field loops of [Unmarshal] and [skipApi]
    consume a byte per turn and get the length of the input as fuel; running out
    is an error of its own, and [Unmarshal_total] shows it is never met. The
    loops that read packets ([drainLoop], [readRows]) consume a header per turn
    and get the length of the stream; the loops over a text ([Escape],
    [scanString], the script and duration loops) get its length; [padLoop] gets
    fuel and [padding_ends] says how much is enough; the loop that sends long
    data gets the length of the argument, enough when a packet holds more than
    its header.

    ** Assumptions

    Code outside the repository appears as interfaces with an instance each:
    etcd ([EtcdServer], instance [mem_server]), the database of a branch
    ([MySQL], [ServerView], [UndoServer], [BranchServer], instance in UndoMem
    and DtMem), encoding/json ([Json]), gogo/protobuf ([Protobuf]),
    encoding/binary on streams ([BigEndianIO]), go-cmp ([GoCmp]), fmt
    ([Printer]), sync.Pool ([BufPool]), sort ([KeySort], [UnstableSort]), map
    order ([MapOrder]), mathutil ([MathUtil]), the services of the transaction
    manager ([services]) and what the filter asks of it ([Coordinator]), the
    databases behind executors ([Backend], instances [accepting] and
    [refusing]), the coordinator of writes over several databases ([GlobalTx]),
    SHA and RSA ([Crypto]), the SQL parser ([Parser]) and the executor behind a
    listener ([Executor]), AES ([AES]), fasthttp ([FastHttp]), the manager as
    the HTTP filter sees it ([HttpManager]) and the JavaScript engine
    ([JsEngine], instance [echo]). Parameters of a section are what [Unmarshal]
    leaves behind when it fails ([partial]), the conversions of floats
    ([ParseFloat], [toUint64], [toInt64]), strconv's table of printable runes
    ([printable]), the rounding of fractional durations ([fraction]) and the
    time zones ([LoadLocation]).

    What the models leave out of these: an etcd transaction takes any number of
    operations (a server refuses more than its configured maximum, 128);
    goroutines that a plan starts per database run one after the other
    ([queryAll]); requests that a connection filter sends are part of the
    database's state and not of [trace], so theorems about what was sent say
    whether filters are configured.

    ** Not modelled

    Leader election, the work queues, idle timeouts of pools and signals:
    library calls and goroutines around the operations modelled here. The bodies
    of the JavaScript functions: texts for an engine outside of the repository.
    The HTTP API, the metrics filter, configuration and start-up: input and
    output around the components. The generated SQL parser. *)
From Stdlib Require Import ZArith Lia List Permutation.
From stdpp Require Import base gmap strings list.

Local Open Scope Z_scope.

(** ** Outcomes of Go code

    A Go function returning [(T, error)] yields [Ok] or [Err]; an operation
    that makes the goroutine panic (nil dereference, failed type assertion,
    index or slice bounds out of range) yields [Panic].  Errors carry their
    message. *)
Inductive res (A : Type) : Type :=
| Ok (a : A)
| Err (msg : string)
| Panic.
Arguments Ok {A} a.
Arguments Err {A} msg.
Arguments Panic {A}.

#[export] Instance res_ret : MRet res := @Ok.
#[export] Instance res_bind : MBind res :=
  fun A B f m => match m with Ok a => f a | Err e => Err e | Panic => Panic end.
#[export] Instance res_fmap : FMap res :=
  fun A B f m => match m with Ok a => Ok (f a) | Err e => Err e | Panic => Panic end.

Definition is_ok {A} (m : res A) : bool :=
  match m with Ok _ => true | _ => false end.

Definition from_option {A} (e : res A) (o : option A) : res A :=
  match o with Some a => Ok a | None => e end.

Lemma bind_Ok {A B} (m : res A) (f : A -> res B) b :
  m ≫= f = Ok b <-> exists a, m = Ok a /\ f a = Ok b.
Proof.
  split; [destruct m; cbn; intros; [eauto | done | done] | by intros (a & -> & ?)].
Qed.

Lemma Ok_bind {A B} (a : A) (f : A -> res B) : Ok a ≫= f = f a.
Proof. reflexivity. Qed.

Lemma bind_assoc {A B C} (m : res A) (f : A -> res B) (g : B -> res C) :
  (m ≫= f) ≫= g = m ≫= (fun a => f a ≫= g).
Proof. by destruct m. Qed.

(** Run a fallible body over a list, left to right, stopping at the first
    failure: the shape of every Go loop with an early error return. *)
Fixpoint mapM_res {A B} (f : A -> res B) (l : list A) : res (list B) :=
  match l with
  | [] => Ok []
  | x :: l' => y ← f x; ys ← mapM_res f l'; Ok (y :: ys)
  end.

Lemma mapM_res_Ok {A B} (f : A -> res B) l ys :
  mapM_res f l = Ok ys <-> Forall2 (fun x y => f x = Ok y) l ys.
Proof.
  revert ys; induction l as [|x l IH]; intros ys; cbn.
  - split; [intros [= <-]; constructor | by inversion 1].
  - split.
    + intros (y & Hy & (zs & Hzs & [= <-])%bind_Ok)%bind_Ok.
      constructor; [done | by apply IH].
    + inversion 1 as [|? y ? zs Hy Hzs]; subst. rewrite Hy. cbn.
      apply IH in Hzs as ->. done.
Qed.

(** ** Machine integers: values are [Z], every wrapping operation is explicit *)
Definition two8 : Z := 256.
Definition two63 : Z := 9223372036854775808.
Definition two64 : Z := 18446744073709551616.

Definition u8 (z : Z) : Z := z mod two8.
Definition u64 (z : Z) : Z := z mod two64.
Definition i64 (z : Z) : Z := (z + two63) mod two64 - two63.
Definition i32 (z : Z) : Z := (z + 2147483648) mod 4294967296 - 2147483648.

Definition in_i64 (z : Z) : Prop := - two63 <= z < two63.
Definition in_u64 (z : Z) : Prop := 0 <= z < two64.
Definition in_i32 (z : Z) : Prop := -2147483648 <= z < 2147483648.

#[export] Instance in_i64_dec z : Decision (in_i64 z).
Proof. unfold in_i64. apply _. Defined.
#[export] Instance in_u64_dec z : Decision (in_u64 z).
Proof. unfold in_u64. apply _. Defined.

Ltac unfold_width := unfold in_i64, in_u64, in_i32, i32, i64, u64, u8, two63, two64, two8 in *.

(** Linear arithmetic after unfolding the widths and turning [/] and [mod]
    into their defining equations. *)
Ltac width_lia := unfold_width; Z.to_euclidean_division_equations; lia.

Lemma i64_id z : in_i64 z -> i64 z = z.
Proof. intros H. unfold_width. rewrite Z.mod_small; lia. Qed.

Lemma u64_id z : in_u64 z -> u64 z = z.
Proof. intros H. unfold_width. apply Z.mod_small; lia. Qed.

Lemma i64_range z : in_i64 (i64 z).
Proof. width_lia. Qed.

Lemma u64_range z : in_u64 (u64 z).
Proof. width_lia. Qed.

Lemma i64_u64 z : in_i64 z -> i64 (u64 z) = z.
Proof. width_lia. Qed.

(** ** Bit fields *)

(** A value below a shift joins a multiple of it without carries. *)
Lemma lor_fields hi lo k : 0 <= k -> 0 <= lo < 2 ^ k -> Z.lor (hi * 2 ^ k) lo = hi * 2 ^ k + lo.
Proof.
  intros Hk Hlo. assert (Hd : Z.land (hi * 2 ^ k) lo = 0).
  { apply Z.bits_inj'. intros n Hn. rewrite Z.land_spec, Z.bits_0.
    destruct (Z.ltb_spec n k).
    - rewrite Z.mul_pow2_bits_low by lia. done.
    - destruct (Z.eq_dec lo 0) as [->|]; [by rewrite Z.bits_0, andb_false_r|].
      rewrite (Z.bits_above_log2 lo n), andb_false_r; [done | lia |].
      apply Z.log2_lt_pow2; [lia|]. pose proof (Z.pow_le_mono_r 2 k n). lia. }
  pose proof (Z.add_lor_land (hi * 2 ^ k) lo). lia.
Qed.

(** ** Iteration order of Go maps

    [for k, v := range m] visits the entries of [m] in an unspecified order
    that may differ between two loops.  A map that is iterated is an
    association list with distinct keys, and every loop site [n] visits it in
    the order [visit n], an arbitrary permutation. *)
Class MapOrder := {
  visit : nat -> forall {A : Type}, list A -> list A;
  visit_perm : forall n A (l : list A), Permutation (visit n l) l }.

#[export] Instance insertion_order : MapOrder | 100 := {
  visit := fun _ A l => l;
  visit_perm := fun _ A l => Permutation_refl l }.

Lemma visit_In `{MapOrder} n {A} (l : list A) x : In x (visit n l) <-> In x l.
Proof.
  split; apply Permutation_in; [|symmetry]; apply visit_perm.
Qed.

(** ** Hints and tactics shared by the components *)
Create HintDb dbpack.
#[export] Hint Resolve i64_range u64_range visit_perm : dbpack.
Create Rewrite HintDb dbpack.
#[export] Hint Rewrite @visit_In : dbpack.

(** Case analysis on the boolean comparisons on [Z] in the goal. *)
Ltac zcases :=
  repeat match goal with
  | |- context [?a <? ?b] => destruct (Z.ltb_spec a b)
  | |- context [?a <=? ?b] => destruct (Z.leb_spec a b)
  | |- context [?a =? ?b] => destruct (Z.eqb_spec a b)
  | |- context [?a >? ?b] => rewrite (Z.gtb_ltb a b)
  | |- context [?a >=? ?b] => rewrite (Z.geb_leb a b)
  end.

(** The same on hypotheses. *)
Ltac zbool :=
  repeat match goal with
  | H : context [?a >? ?b] |- _ => rewrite (Z.gtb_ltb a b) in H
  | H : context [?a >=? ?b] |- _ => rewrite (Z.geb_leb a b) in H
  | H : (_ && _)%bool = true |- _ => apply andb_prop in H; destruct H
  | H : (?a <? ?b) = true |- _ => apply Z.ltb_lt in H
  | H : (?a <? ?b) = false |- _ => apply Z.ltb_ge in H
  | H : (?a <=? ?b) = true |- _ => apply Z.leb_le in H
  | H : (?a <=? ?b) = false |- _ => apply Z.leb_gt in H
  | H : (?a =? ?b) = true |- _ => apply Z.eqb_eq in H
  | H : (?a =? ?b) = false |- _ => apply Z.eqb_neq in H
  | H : negb _ = true |- _ => apply negb_true_iff in H
  | H : negb _ = false |- _ => apply negb_false_iff in H
  end.

(** ** Integer intervals as lists: the counting loops of the source *)

(** [for i := lo; i < hi; i++] collecting [i]. *)
Definition upto (lo hi : Z) : list Z :=
  map (fun k => lo + Z.of_nat k) (seq 0 (Z.to_nat (hi - lo))).

(** [for i := hi; i >= 0; i--] collecting [i]. *)
Definition downfrom (hi : Z) : list Z := rev (upto 0 (hi + 1)).

Lemma upto_In lo hi x : In x (upto lo hi) <-> lo <= x < hi.
Proof.
  unfold upto. rewrite in_map_iff. split.
  - intros (k & <- & Hk%in_seq). lia.
  - intros H. exists (Z.to_nat (x - lo)). rewrite in_seq. lia.
Qed.

Lemma downfrom_In hi x : In x (downfrom hi) <-> 0 <= x <= hi.
Proof. unfold downfrom. rewrite <- in_rev, upto_In. lia. Qed.

Lemma upto_length lo hi : Z.of_nat (length (upto lo hi)) = Z.max 0 (hi - lo).
Proof. unfold upto. rewrite length_map, length_seq. lia. Qed.

Lemma upto_NoDup lo hi : NoDup (upto lo hi).
Proof.
  assert (Inj (=) (=) (fun k => lo + Z.of_nat k)) by (intros a b; lia).
  unfold upto. apply (NoDup_fmap_2 (fun k => lo + Z.of_nat k)), NoDup_seq.
Qed.

#[export] Hint Rewrite upto_In downfrom_In : dbpack.
