(* ===== verification/GoText.v ===== *)
(** * Go strings: the parts of [strconv], [strings] and [fmt] the program uses

    Strings are byte strings.  [FormatInt] is the decimal rendering behind
    [%d] and [%v], [ParseInt] is [strconv.ParseInt(s, 10, 64)] with both its
    value and its error (callers that drop the error observe the value), and
    [Split], [Index], [LastIndex], [Contains], [HasSuffix], [TrimSuffix] and
    [EqualFold] are the functions of package [strings]; [EqualFold] folds the
    ASCII letters only. *)
From Stdlib Require Import ZArith Lia List Ascii String.
From stdpp Require Import base strings list.
From S2P Require Import Prelude.

Local Open Scope Z_scope.

Definition chr (c : ascii) : Z := Z.of_N (N_of_ascii c).
Definition ascii_of_Z (z : Z) : ascii := ascii_of_N (Z.to_N z).

Lemma chr_ascii z : 0 <= z < 256 -> chr (ascii_of_Z z) = z.
Proof.
  intros H. unfold chr, ascii_of_Z. rewrite N_ascii_embedding; lia.
Qed.

Lemma chr_range c : 0 <= chr c < 256.
Proof. unfold chr. pose proof (N_ascii_bounded c). lia. Qed.

(** ** Decimal rendering *)
Definition digit (d : Z) : ascii := ascii_of_Z (48 + d).

Fixpoint digits (fuel : nat) (n : Z) (acc : string) : string :=
  match fuel with
  | O => acc
  | S f =>
    let acc' := String (digit (n mod 10)) acc in
    if n <? 10 then acc' else digits f (n / 10) acc'
  end.

Definition FormatUint (n : Z) : string :=
  digits (S (Z.to_nat (Z.log2 n))) n EmptyString.

Definition FormatInt (z : Z) : string :=
  if z <? 0 then String "-" (FormatUint (- z)) else FormatUint z.

(** ** [strconv.ParseInt(s, 10, 64)] *)
Definition errSyntax : string := "invalid syntax".
Definition errRange : string := "value out of range".

(** The loop of [strconv.ParseUint] for base 10 and 64 bits. *)
Fixpoint parseUintLoop (s : string) (n : Z) : Z * option string :=
  match s with
  | EmptyString => (n, None)
  | String c s' =>
    let d := chr c - 48 in
    if (d <? 0) || (9 <? d) then (0, Some errSyntax)
    else if two64 <=? n * 10 + d then (two64 - 1, Some errRange)
    else parseUintLoop s' (n * 10 + d)
  end.

Definition ParseUint (s : string) : Z * option string :=
  match s with
  | EmptyString => (0, Some errSyntax)
  | _ => parseUintLoop s 0
  end.

Definition ParseInt (s : string) : Z * option string :=
  match s with
  | EmptyString => (0, Some errSyntax)
  | String c s' =>
    let neg := (chr c =? 45) in
    let body := if (chr c =? 43) || neg then s' else s in
    match ParseUint body with
    | (un, err) =>
      if bool_decide (err = Some errSyntax) then (0, Some errSyntax)
      else if negb neg && (two63 <=? un) then (two63 - 1, Some errRange)
      else if neg && (two63 <? un) then (- two63, Some errRange)
      else (if neg then - un else un, None)
    end
  end.

(** The call with its error checked: [Err] carries the error. *)
Definition ParseInt_err (s : string) : res Z :=
  match ParseInt s with
  | (n, None) => Ok n
  | (_, Some e) => Err e
  end.

(** [strconv.Atoi] agrees with [ParseInt(s, 10, 0)] converted to [int], which
    has 64 bits here. *)
Definition Atoi (s : string) : res Z := ParseInt_err s.

(** ** Package [strings] *)
Fixpoint HasPrefix (s p : string) : bool :=
  match p, s with
  | EmptyString, _ => true
  | String a p', String b s' => Ascii.eqb a b && HasPrefix s' p'
  | String _ _, EmptyString => false
  end.

Fixpoint list_of (s : string) : list ascii :=
  match s with EmptyString => [] | String c s' => c :: list_of s' end.

Fixpoint of_list (l : list ascii) : string :=
  match l with [] => EmptyString | c :: l' => String c (of_list l') end.

(** Go strings and byte slices convert to each other byte by byte. *)
Definition bytes_of (s : string) : list Z := map chr (list_of s).
Definition string_of (b : list Z) : string := of_list (map ascii_of_Z b).

(** A string ending in the one-byte suffix [c]. *)
Definition HasSuffix1 (s : string) (c : ascii) : bool :=
  match last (list_of s) with Some d => Ascii.eqb d c | None => false end.

Definition TrimSuffix1 (s : string) (c : ascii) : string :=
  if HasSuffix1 s c then of_list (removelast (list_of s)) else s.

(** [strings.Split(s, sep)] for a one-byte separator: always at least one
    piece. *)
Fixpoint Split (s : string) (sep : ascii) : list string :=
  match s with
  | EmptyString => [EmptyString]
  | String c s' =>
    if Ascii.eqb c sep then EmptyString :: Split s' sep
    else match Split s' sep with
         | [] => [String c EmptyString]
         | p :: ps => String c p :: ps
         end
  end.

(** [strings.Index(s, sep)] for a one-byte [sep], as the two halves around
    it; [None] when the index is negative. *)
Fixpoint cut_first (s : string) (sep : ascii) : option (string * string) :=
  match s with
  | EmptyString => None
  | String c s' =>
    if Ascii.eqb c sep then Some (EmptyString, s')
    else match cut_first s' sep with
         | Some (a, b) => Some (String c a, b)
         | None => None
         end
  end.

(** The same around the last occurrence, as [strings.LastIndex] finds it. *)
Fixpoint cut_last (s : string) (sep : ascii) : option (string * string) :=
  match s with
  | EmptyString => None
  | String c s' =>
    match cut_last s' sep with
    | Some (a, b) => Some (String c a, b)
    | None => if Ascii.eqb c sep then Some (EmptyString, s') else None
    end
  end.

Fixpoint Contains (s sub : string) : bool :=
  HasPrefix s sub ||
  match s with EmptyString => false | String _ s' => Contains s' sub end.

Definition fold_ascii (c : ascii) : Z :=
  let n := chr c in if (65 <=? n) && (n <=? 90) then n + 32 else n.

(** [strings.ToLower] on ASCII. *)
Definition ToLower (s : string) : string := of_list (map (fun c => ascii_of_Z (fold_ascii c)) (list_of s)).

Fixpoint EqualFold (s t : string) : bool :=
  match s, t with
  | EmptyString, EmptyString => true
  | String a s', String b t' => (fold_ascii a =? fold_ascii b) && EqualFold s' t'
  | _, _ => false
  end.

(** [strings.Compare(a, b) == -1]. *)
Definition str_less (a b : string) : bool :=
  match String.compare a b with Lt => true | _ => false end.

(** ** Rendering and parsing are inverse *)
Lemma chr_digit d : 0 <= d < 10 -> chr (digit d) = 48 + d.
Proof. intros H. apply chr_ascii. lia. Qed.

Lemma parseUintLoop_digits fuel n acc :
  0 <= n < 2 ^ Z.of_nat fuel -> n < two64 ->
  parseUintLoop (digits fuel n acc) 0 = parseUintLoop acc n.
Proof.
  revert n acc; induction fuel as [|f IH]; intros n acc Hf Hn.
  - cbn. f_equal. change (2 ^ Z.of_nat 0) with 1 in Hf. lia.
  - pose proof (Z.mod_pos_bound n 10 ltac:(lia)).
    rewrite Nat2Z.inj_succ, Z.pow_succ_r in Hf by lia.
    assert (Hstep : forall m, m * 10 + n mod 10 = n ->
      parseUintLoop (String (digit (n mod 10)) acc) m = parseUintLoop acc n).
    { intros m Hm. cbn [parseUintLoop]. rewrite chr_digit by lia.
      replace (48 + n mod 10 - 48) with (n mod 10) by lia. rewrite Hm.
      zcases; try lia. done. }
    cbn [digits]. zcases.
    + apply Hstep. rewrite Z.mod_small; lia.
    + rewrite IH.
      * apply Hstep. rewrite (Z.div_mod n 10) at 3 by lia. lia.
      * split; [apply Z.div_pos; lia | apply Z.div_lt_upper_bound; lia].
      * apply Z.div_lt_upper_bound; lia.
Qed.

Lemma digits_S f n acc :
  digits (S f) n acc =
    let acc' := String (digit (n mod 10)) acc in
    if n <? 10 then acc' else digits f (n / 10) acc'.
Proof. done. Qed.

Lemma digits_cons fuel n acc :
  exists d s, 0 <= d < 10 /\ digits (S fuel) n acc = String (digit d) s.
Proof.
  revert n acc; induction fuel as [|f IH]; intros n acc;
    pose proof (Z.mod_pos_bound n 10 ltac:(lia)); rewrite digits_S; cbv zeta;
    destruct (n <? 10); eauto.
Qed.

Lemma FormatUint_cons n :
  exists d s, 0 <= d < 10 /\ FormatUint n = String (digit d) s.
Proof. apply digits_cons. Qed.

Lemma ParseUint_FormatUint n : 0 <= n < two64 -> ParseUint (FormatUint n) = (n, None).
Proof.
  intros H. destruct (FormatUint_cons n) as (d & s & Hd & E).
  unfold ParseUint. rewrite E, <- E. unfold FormatUint.
  rewrite parseUintLoop_digits; [done | | lia].
  rewrite Nat2Z.inj_succ, Z2Nat.id by apply Z.log2_nonneg.
  destruct (Z.eq_dec n 0) as [->|]; [done|].
  pose proof (Z.log2_spec n ltac:(lia)). lia.
Qed.

Lemma ParseInt_FormatInt z : in_i64 z -> ParseInt (FormatInt z) = (z, None).
Proof.
  intros H. unfold FormatInt. zcases.
  - unfold ParseInt. change (chr "-") with 45. cbn [Z.eqb orb Pos.eqb].
    rewrite ParseUint_FormatUint by (unfold_width; lia). cbn [bool_decide decide_rel].
    rewrite bool_decide_false by done. cbn [negb andb]. zcases; [unfold_width; lia|].
    f_equal; lia.
  - destruct (FormatUint_cons z) as (d & s & Hd & E).
    unfold ParseInt. rewrite E, <- E, chr_digit by lia.
    rewrite (proj2 (Z.eqb_neq (48 + d) 45)), (proj2 (Z.eqb_neq (48 + d) 43)) by lia.
    cbn [orb]. rewrite ParseUint_FormatUint by (unfold_width; lia).
    rewrite bool_decide_false by done. cbn [negb andb]. zcases; [unfold_width; lia|].
    done.
Qed.

Lemma parseUintLoop_range s n v :
  0 <= n < two64 -> parseUintLoop s n = (v, None) -> 0 <= v < two64.
Proof.
  revert n; induction s as [|c s IH]; intros n Hn; cbn.
  - by intros [= <-].
  - zcases; cbn; try done. apply IH. lia.
Qed.

Lemma parseUintLoop_value_range s n v e :
  0 <= n < two64 -> parseUintLoop s n = (v, e) -> 0 <= v < two64.
Proof.
  revert n; induction s as [|c s IH]; intros n Hn; cbn.
  - by intros [= <- <-].
  - zcases; cbn; try (intros [= <- <-]; unfold two64; lia). apply IH. lia.
Qed.

(** Whatever the input, the value is a 64-bit integer. *)
Lemma ParseInt_range s : in_i64 (fst (ParseInt s)).
Proof.
  destruct s as [|c s]; [unfold_width; cbn; lia|]. unfold ParseInt.
  set (body := if _ || _ then s else String c s).
  destruct (ParseUint body) as [un err] eqn:E.
  assert (0 <= un < two64).
  { unfold ParseUint in E. destruct body; [injection E as <- <-; unfold two64; lia|].
    eapply parseUintLoop_value_range; [|exact E]. unfold two64; lia. }
  case_bool_decide; [unfold_width; cbn; lia|].
  destruct (chr c =? 45); cbn; zcases; unfold_width; cbn; lia.
Qed.

Lemma ParseInt_err_range s n : ParseInt_err s = Ok n -> in_i64 n.
Proof.
  unfold ParseInt_err. pose proof (ParseInt_range s) as H.
  destruct (ParseInt s) as [m [e|]]; [done|]. by intros [= <-].
Qed.

Lemma ParseInt_err_FormatInt z : in_i64 z -> ParseInt_err (FormatInt z) = Ok z.
Proof. intros H. unfold ParseInt_err. by rewrite ParseInt_FormatInt. Qed.

Lemma EqualFold_refl s : EqualFold s s = true.
Proof. induction s as [|c s IH]; cbn; [done|]. by rewrite Z.eqb_refl. Qed.

#[export] Hint Rewrite ParseInt_err_FormatInt using done : dbpack.

Lemma string_of_bytes_of s : string_of (bytes_of s) = s.
Proof.
  unfold string_of, bytes_of. rewrite map_map. induction s as [|c s IH]; [done|]. cbn. rewrite IH.
  f_equal. unfold ascii_of_Z, chr. rewrite N2Z.id. apply Ascii.ascii_N_embedding.
Qed.

(** ** Concatenation *)
Lemma str_assoc (a b c : string) : ((a +:+ b) +:+ c = a +:+ (b +:+ c))%string.
Proof. induction a as [|x a IH]; [done|]. exact (f_equal (String x) IH). Qed.
Lemma str_nil_r (a : string) : (a +:+ EmptyString = a)%string.
Proof. induction a as [|x a IH]; [done|]. exact (f_equal (String x) IH). Qed.

(** ** Cutting composed texts *)
Definition hasChar (c : ascii) (s : string) : bool := match cut_first s c with Some _ => true | None => false end.
Lemma append_cons c a b : String c a +:+ b = String c (a +:+ b).
Proof. done. Qed.
Lemma hasChar_cons d c s : hasChar d (String c s) = Ascii.eqb c d || hasChar d s.
Proof. unfold hasChar. cbn [cut_first]. destruct (Ascii.eqb c d); [done|]. by destruct (cut_first s d) as [[]|]. Qed.
Lemma hasChar_app d a b : hasChar d (a +:+ b) = hasChar d a || hasChar d b.
Proof. induction a as [|c a IH]; [done|]. rewrite append_cons, !hasChar_cons, IH. by rewrite orb_assoc. Qed.
Lemma cut_first_none d s : hasChar d s = false -> cut_first s d = None.
Proof. unfold hasChar. by destruct (cut_first s d). Qed.
Lemma cut_last_none d s : hasChar d s = false -> cut_last s d = None.
Proof.
  induction s as [|c s IH]; [done|]. rewrite hasChar_cons. intros [Hc Hs]%orb_false_iff. cbn [cut_last]. rewrite IH by done. by rewrite Hc.
Qed.
Lemma cut_first_app d a b : hasChar d a = false -> cut_first (a +:+ String d b) d = Some (a, b).
Proof.
  induction a as [|c a IH]; [intros _; change (EmptyString +:+ String d b) with (String d b); cbn [cut_first]; by rewrite Ascii.eqb_refl|].
  rewrite hasChar_cons. intros [Hc Hs]%orb_false_iff.
  rewrite append_cons. cbn [cut_first]. by rewrite Hc, IH.
Qed.
Lemma cut_last_app d a b : hasChar d b = false -> cut_last (a +:+ String d b) d = Some (a, b).
Proof.
  intros Hb. induction a as [|c a IH]; [|rewrite append_cons; cbn [cut_last]; by rewrite IH].
  change (EmptyString +:+ String d b) with (String d b). cbn [cut_last]. rewrite cut_last_none by done. by rewrite Ascii.eqb_refl.
Qed.
Lemma list_of_append a b : list_of (a +:+ b) = list_of a ++ list_of b.
Proof. induction a as [|c a IH]; [done|]. rewrite append_cons. cbn. by rewrite IH. Qed.
Lemma of_list_of s : of_list (list_of s) = s.
Proof. induction s as [|c s IH]; [done|]. cbn. by rewrite IH. Qed.
Lemma suffix_app a d : HasSuffix1 (a +:+ String d EmptyString) d = true /\ TrimSuffix1 (a +:+ String d EmptyString) d = a.
Proof.
  assert (Hs : HasSuffix1 (a +:+ String d EmptyString) d = true).
  { unfold HasSuffix1. rewrite list_of_append. cbn [list_of]. rewrite last_snoc. apply Ascii.eqb_refl. }
  split; [done|]. unfold TrimSuffix1. rewrite Hs, list_of_append. cbn [list_of]. rewrite removelast_last. apply of_list_of.
Qed.
Lemma Split_one d s : hasChar d s = false -> Split s d = [s].
Proof.
  induction s as [|c s IH]; [done|]. rewrite hasChar_cons. intros [Hc Hs]%orb_false_iff. cbn [Split]. rewrite Hc, IH by done. done.
Qed.
Lemma Split_app d a b : hasChar d a = false -> Split (a +:+ String d b) d = a :: Split b d.
Proof.
  induction a as [|c a IH]; [intros _; change (EmptyString +:+ String d b) with (String d b); cbn [Split]; by rewrite Ascii.eqb_refl|].
  rewrite hasChar_cons. intros [Hc Hs]%orb_false_iff. rewrite append_cons. cbn [Split]. rewrite Hc, IH by done. done.
Qed.
