(* ===== verification/Hints.v ===== *)
(** * Optimizer hints of a statement: [pkg/misc/hint.go]

    A client passes the id of its global transaction, the wish for a global
    lock, a data source or a trace parent as hints of a statement; names are
    compared without case. *)
From Stdlib Require Import List.
From stdpp Require Import base strings.
From S2P Require Import Prelude GoText.

(** [HintData] is asserted to be a string; [None] is any other type. *)
Record hint := mkHint { HintName : string; HintData : option string }.

Definition XIDHint : string := "XID".
Definition GlobalLockHint : string := "GlobalLock".
Definition UseDBHint : string := "UseDB".
Definition TraceParentHint : string := "TraceParent".

(** The data of the first hint of a name. *)
Fixpoint hintNamed (name : string) (hints : list hint) : res (option string) :=
  match hints with
  | [] => Ok None
  | h :: hints' =>
    if EqualFold (HintName h) name
    then match HintData h with Some d => Ok (Some d) | None => Panic end
    else hintNamed name hints'
  end.

Definition HasXIDHint : list hint -> res (option string) := hintNamed XIDHint.
Definition HasUseDBHint : list hint -> res (option string) := hintNamed UseDBHint.
Definition HasTraceParentHint : list hint -> res (option string) := hintNamed TraceParentHint.
Definition HasGlobalLockHint (hints : list hint) : bool :=
  existsb (fun h => EqualFold (HintName h) GlobalLockHint) hints.
Definition NewXIDHint (xid : string) : hint := mkHint XIDHint (Some xid).
