(* ===== verification/Encoding.v ===== *)
(** * The MySQL wire encoding: [pkg/misc/encoding.go] and the length-encoded
    integers of [pkg/misc/utils.go]

    A buffer is a list of bytes, each a [Z] in [0, 256).  A writer stores at a
    position and returns the next one; storing outside the buffer panics.  A
    reader returns [Some (value, next position)], or [None] for the Go result
    whose [ok] flag is false; slicing out of range panics.  Positions are Go
    [int]s and wrap at 64 bits. *)
From Stdlib Require Import ZArith Lia List.
From stdpp Require Import base list.
From S2P Require Import Prelude.

Local Open Scope Z_scope.

Abbreviation bytes := (list Z).

Definition is_byte (b : Z) : Prop := 0 <= b < 256.

(** ** Buffers *)
Definition len {A} (l : list A) : Z := Z.of_nat (length l).

Definition get (data : bytes) (pos : Z) : res Z :=
  if 0 <=? pos then from_option Panic (data !! Z.to_nat pos) else Panic.

Definition set (data : bytes) (pos v : Z) : res bytes :=
  if (0 <=? pos) && (pos <? len data) then Ok (<[Z.to_nat pos := v]> data) else Panic.

(** [data[lo:hi]] where the caller keeps [hi] within the length. *)
Definition slice (data : bytes) (lo hi : Z) : res bytes :=
  if (0 <=? lo) && (lo <=? hi) && (hi <=? len data)
  then Ok (take (Z.to_nat (hi - lo)) (drop (Z.to_nat lo) data))
  else Panic.

(** Successive stores [data[pos] = b0], [data[pos+1] = b1], ... *)
Fixpoint storeAll (data : bytes) (pos : Z) (bs : list Z) : res bytes :=
  match bs with
  | [] => Ok data
  | b :: bs' => d ← set data pos b; storeAll d (pos + 1) bs'
  end.

(** [byte(v >> 8k), byte(v >> 8(k+1)), ...], [n] of them. *)
Fixpoint le_from (k : Z) (n : nat) (v : Z) : bytes :=
  match n with
  | O => []
  | S n' => u8 (Z.shiftr v (8 * k)) :: le_from (k + 1) n' v
  end.

(** [uint64(b0)<<8k | uint64(b1)<<8(k+1) | ...]. *)
Fixpoint unle_from (k : Z) (bs : bytes) : Z :=
  match bs with
  | [] => 0
  | b :: bs' => Z.lor (Z.shiftl b (8 * k)) (unle_from (k + 1) bs')
  end.

Definition le (n : nat) (v : Z) : bytes := le_from 0 n v.
Definition unle (bs : bytes) : Z := unle_from 0 bs.

(** ** Writers *)
Definition LenEncIntSize (i : Z) : Z :=
  if i <? 251 then 1
  else if i <? 2 ^ 16 then 3
  else if i <? 2 ^ 24 then 4
  else 9.

Definition WriteLenEncInt (data : bytes) (pos i : Z) : res (bytes * Z) :=
  if i <? 251 then d ← storeAll data pos [u8 i]; Ok (d, pos + 1)
  else if i <? 2 ^ 16 then d ← storeAll data pos (252 :: le 2 i); Ok (d, pos + 3)
  else if i <? 2 ^ 24 then d ← storeAll data pos (253 :: le 3 i); Ok (d, pos + 4)
  else d ← storeAll data pos (254 :: le 8 i); Ok (d, pos + 9).

Definition LenNullString (value : bytes) : Z := len value + 1.
Definition LenEOFString (value : bytes) : Z := len value.

(** [copy(data[pos:], value)]: copies as much as fits and returns the count. *)
Definition copyAt (data : bytes) (pos : Z) (value : bytes) : res (bytes * Z) :=
  if (0 <=? pos) && (pos <=? len data) then
    let n := Z.to_nat (Z.min (len data - pos) (len value)) in
    Ok (take (Z.to_nat pos) data ++ take n value ++ drop (Z.to_nat pos + n) data,
        Z.of_nat n)
  else Panic.

Definition WriteNullString (data : bytes) (pos : Z) (value : bytes) : res (bytes * Z) :=
  '(d, n) ← copyAt data pos value;
  d' ← set d (pos + n) 0;
  Ok (d', pos + n + 1).

Definition WriteEOFString (data : bytes) (pos : Z) (value : bytes) : res (bytes * Z) :=
  '(d, n) ← copyAt data pos value;
  Ok (d, pos + n).

Definition WriteByte (data : bytes) (pos value : Z) : res (bytes * Z) :=
  d ← set data pos value; Ok (d, pos + 1).

Definition WriteUint16 (data : bytes) (pos value : Z) : res (bytes * Z) :=
  d ← storeAll data pos (le 2 value); Ok (d, pos + 2).

Definition WriteUint32 (data : bytes) (pos value : Z) : res (bytes * Z) :=
  d ← storeAll data pos (le 4 value); Ok (d, pos + 4).

Definition WriteUint64 (data : bytes) (pos value : Z) : res (bytes * Z) :=
  d ← storeAll data pos (le 8 value); Ok (d, pos + 8).

Definition LenEncStringSize (value : bytes) : Z :=
  LenEncIntSize (len value) + len value.

Definition WriteLenEncString (data : bytes) (pos : Z) (value : bytes) : res (bytes * Z) :=
  '(d, p) ← WriteLenEncInt data pos (u64 (len value));
  WriteEOFString d p value.

Definition WriteZeroes (data : bytes) (pos n : Z) : res (bytes * Z) :=
  d ← storeAll data pos (replicate (Z.to_nat n) 0); Ok (d, pos + n).

(** ** Readers *)
Abbreviation reader A := (res (option (A * Z))).

Definition ReadByte (data : bytes) (pos : Z) : reader Z :=
  if len data <=? pos then Ok None
  else b ← get data pos; Ok (Some (b, pos + 1)).

Definition ReadBytes (data : bytes) (pos size : Z) : reader bytes :=
  if len data <=? i64 (pos + size - 1) then Ok None
  else s ← slice data pos (i64 (pos + size)); Ok (Some (s, i64 (pos + size))).

(** The copy made by [ReadBytesCopy]: [make([]byte, size)] panics on a
    negative size. *)
Definition ReadBytesCopy (data : bytes) (pos size : Z) : reader bytes :=
  if len data <=? i64 (pos + size - 1) then Ok None
  else if size <? 0 then Panic
  else s ← slice data pos (i64 (pos + size)); Ok (Some (s, i64 (pos + size))).

Fixpoint IndexByte (l : bytes) (b : Z) : option nat :=
  match l with
  | [] => None
  | x :: l' => if x =? b then Some O else S <$> IndexByte l' b
  end.

Definition ReadNullString (data : bytes) (pos : Z) : reader bytes :=
  rest ← slice data pos (len data);
  match IndexByte rest 0 with
  | None => Ok None
  | Some e => Ok (Some (take e rest, pos + Z.of_nat e + 1))
  end.

Definition ReadEOFString (data : bytes) (pos : Z) : reader bytes :=
  rest ← slice data pos (len data);
  Ok (Some (rest, len data - pos)).

(** The shared shape of the fixed-width readers. *)
Definition readUint (n : Z) (data : bytes) (pos : Z) : reader Z :=
  if len data <=? pos + (n - 1) then Ok None
  else s ← slice data pos (pos + n); Ok (Some (unle s, pos + n)).

Definition ReadUint16 := readUint 2.
Definition ReadUint32 := readUint 4.
Definition ReadUint64 := readUint 8.

(** The bytes after the marker of a length-encoded integer. *)
Definition readTail (n : Z) (data : bytes) (pos : Z) : reader Z :=
  if len data <=? pos + n then Ok None
  else s ← slice data (pos + 1) (pos + 1 + n); Ok (Some (unle s, pos + 1 + n)).

Definition ReadLenEncInt (data : bytes) (pos : Z) : reader Z :=
  if len data <=? pos then Ok None
  else
    b ← get data pos;
    if b =? 252 then readTail 2 data pos
    else if b =? 253 then readTail 3 data pos
    else if b =? 254 then readTail 8 data pos
    else Ok (Some (b, pos + 1)).

Definition ReadLenEncStringAsBytes (data : bytes) (pos : Z) : reader bytes :=
  r ← ReadLenEncInt data pos;
  match r with
  | None => Ok None
  | Some (size, p) =>
    let s := i64 size in
    if len data <=? i64 (p + s - 1) then Ok None
    else sl ← slice data p (i64 (p + s)); Ok (Some (sl, i64 (p + s)))
  end.

(** [string(data[pos:pos+s])] copies the same bytes. *)
Definition ReadLenEncString := ReadLenEncStringAsBytes.

Definition ReadLenEncStringAsBytesCopy (data : bytes) (pos : Z) : reader bytes :=
  r ← ReadLenEncInt data pos;
  match r with
  | None => Ok None
  | Some (size, p) =>
    let s := i64 size in
    if len data <=? i64 (p + s - 1) then Ok None
    else if two63 <=? size then Panic
    else sl ← slice data p (i64 (p + s)); Ok (Some (sl, i64 (p + s)))
  end.

Definition SkipLenEncString (data : bytes) (pos : Z) : res (option Z) :=
  r ← ReadLenEncInt data pos;
  match r with
  | None => Ok None
  | Some (size, p) =>
    let s := i64 size in
    if len data <=? i64 (p + s - 1) then Ok None else Ok (Some (i64 (p + s)))
  end.

(** ** The driver's own codec ([utils.go]) *)
Definition AppendLengthEncodedInteger (b : bytes) (n : Z) : bytes :=
  if n <=? 250 then b ++ [u8 n]
  else if n <=? 65535 then b ++ 252 :: le 2 n
  else if n <=? 16777215 then b ++ 253 :: le 3 n
  else b ++ 254 :: le 8 n.

(** Value, NULL flag, bytes read; indexing past the end panics. *)
Definition ReadLengthEncodedInteger (b : bytes) : res (Z * bool * Z) :=
  match b with
  | [] => Ok (0, true, 1)
  | b0 :: _ =>
    if b0 =? 251 then Ok (0, true, 1)
    else if b0 =? 252 then s ← slice b 1 3; Ok (unle s, false, 3)
    else if b0 =? 253 then s ← slice b 1 4; Ok (unle s, false, 4)
    else if b0 =? 254 then s ← slice b 1 9; Ok (unle s, false, 9)
    else Ok (b0, false, 1)
  end.

Definition Uint64ToBytes (n : Z) : bytes := le 8 n.

(** ** Lemmas *)
Lemma testbit_u8 v i : 0 <= i -> Z.testbit (u8 v) i = (i <? 8) && Z.testbit v i.
Proof.
  intros Hi. unfold u8, two8. change 256 with (2 ^ 8). zcases.
  - by rewrite Z.mod_pow2_bits_low by lia.
  - by rewrite Z.mod_pow2_bits_high by lia.
Qed.

Lemma testbit_unle_le k n v i :
  0 <= k -> 0 <= i ->
  Z.testbit (unle_from k (le_from k n v)) i =
    (8 * k <=? i) && (i <? 8 * (k + Z.of_nat n)) && Z.testbit v i.
Proof.
  revert k; induction n as [|n IH]; intros k Hk Hi; cbn [le_from unle_from].
  - rewrite Z.bits_0. zcases; cbn; try done. lia.
  - rewrite Z.lor_spec, IH, Z.shiftl_spec by lia.
    destruct (Z.leb_spec (8 * k) i).
    + rewrite testbit_u8, Z.shiftr_spec by lia.
      replace (i - 8 * k + 8 * k) with i by lia.
      zcases; cbn; try done; try lia; by rewrite ?orb_false_r.
    + rewrite Z.testbit_neg_r by lia. zcases; cbn; try done; lia.
Qed.

Lemma unle_le n v : unle (le n v) = v mod 2 ^ (8 * Z.of_nat n).
Proof.
  apply Z.bits_inj'. intros i Hi. unfold unle, le.
  rewrite testbit_unle_le by lia.
  zcases; cbn [andb]; try lia.
  - by rewrite Z.mod_pow2_bits_low by lia.
  - by rewrite Z.mod_pow2_bits_high by lia.
Qed.

Lemma length_le_from k n v : length (le_from k n v) = n.
Proof. revert k; induction n; intros k; cbn; auto. Qed.

Lemma le_from_bytes k n v : Forall is_byte (le_from k n v).
Proof.
  revert k; induction n; intros k; cbn; constructor; auto.
  unfold is_byte, u8, two8. apply Z.mod_pos_bound. lia.
Qed.

Lemma len_app {A} (a b : list A) : len (a ++ b) = len a + len b.
Proof. unfold len. rewrite length_app. lia. Qed.

Lemma len_nonneg {A} (l : list A) : 0 <= len l.
Proof. unfold len. lia. Qed.

(** The buffer with [bs] stored at [pos]. *)
Definition splice (data : bytes) (pos : Z) (bs : bytes) : bytes :=
  take (Z.to_nat pos) data ++ bs ++ drop (Z.to_nat pos + length bs) data.

Lemma splice_len data pos bs :
  0 <= pos -> pos + len bs <= len data -> len (splice data pos bs) = len data.
Proof.
  intros ? ?. unfold splice, len in *.
  rewrite !length_app, length_take, length_drop. lia.
Qed.

Lemma set_splice data pos v :
  0 <= pos < len data -> set data pos v = Ok (splice data pos [v]).
Proof.
  intros H. unfold set, splice, len in *. zcases; cbn; try lia.
  f_equal. rewrite insert_take_drop by lia. cbn.
  by replace (Z.to_nat pos + 1)%nat with (S (Z.to_nat pos)) by lia.
Qed.

Lemma splice_splice data pos a b :
  0 <= pos -> pos + len a + len b <= len data ->
  splice (splice data pos a) (pos + len a) b = splice data pos (a ++ b).
Proof.
  intros ? ?. unfold splice, len in *.
  rewrite !app_assoc. 
  rewrite (take_app_length' _ (drop _ _)) by (rewrite length_app, length_take; lia).
  rewrite (drop_app_ge _ (drop _ _)) by (rewrite length_app, length_take; lia).
  rewrite drop_drop, !length_app, length_take.
  do 2 f_equal. lia.
Qed.

Lemma storeAll_splice data pos bs :
  0 <= pos -> pos + len bs <= len data ->
  storeAll data pos bs = Ok (splice data pos bs).
Proof.
  revert data pos; induction bs as [|b bs IH]; intros data pos Hp Hl.
  - cbn. unfold splice. cbn. by rewrite Nat.add_0_r, take_drop.
  - pose proof (len_nonneg bs). change (len (b :: bs)) with (len ([b] ++ bs)) in Hl.
    rewrite len_app in Hl. change (len [b]) with 1 in Hl.
    cbn [storeAll]. rewrite set_splice by lia. cbn [mbind res_bind].
    rewrite IH by (rewrite ?splice_len; change (len [b]) with 1; lia).
    f_equal. apply (splice_splice data pos [b] bs); change (len [b]) with 1; lia.
Qed.

Lemma copyAt_splice data pos v :
  0 <= pos -> pos + len v <= len data ->
  copyAt data pos v = Ok (splice data pos v, len v).
Proof.
  intros ? ?. unfold copyAt, splice, len in *. zcases; cbn; try lia.
  rewrite Z.min_r by lia. rewrite Nat2Z.id, firstn_all. done.
Qed.

Lemma slice_splice data pos bs :
  0 <= pos -> pos + len bs <= len data ->
  slice (splice data pos bs) pos (pos + len bs) = Ok bs.
Proof.
  intros ? ?. unfold slice. rewrite splice_len by done. unfold splice, len in *.
  zcases; cbn; try lia. f_equal.
  rewrite drop_app_ge by (rewrite length_take; lia).
  rewrite length_take.
  replace (Z.to_nat pos - _)%nat with 0%nat by lia. rewrite drop_0.
  by rewrite take_app_length' by lia.
Qed.

(** Slicing a stored prefix/suffix: the slice of a sub-range of the stored bytes. *)
Lemma slice_splice_app data pos a b c :
  0 <= pos -> pos + len (a ++ b ++ c) <= len data ->
  slice (splice data pos (a ++ b ++ c)) (pos + len a) (pos + len a + len b) = Ok b.
Proof.
  intros ? Hl. rewrite !len_app in Hl.
  pose proof (len_nonneg a). pose proof (len_nonneg b). pose proof (len_nonneg c).
  unfold slice. rewrite splice_len by (rewrite ?len_app; lia).
  zcases; cbn; try lia. f_equal. unfold splice, len in *.
  rewrite drop_app_ge by (rewrite length_take; lia).
  rewrite length_take, <- !app_assoc.
  rewrite drop_app_ge by lia.
  replace (Z.to_nat _ - _ - _)%nat with 0%nat by lia. rewrite drop_0.
  by rewrite take_app_length' by lia.
Qed.

Lemma get_splice data pos b bs :
  0 <= pos -> pos + len (b :: bs) <= len data ->
  get (splice data pos (b :: bs)) pos = Ok b.
Proof.
  intros ? ?. unfold get, splice, len in *. zcases; [|lia].
  rewrite lookup_app_r by (rewrite length_take; lia).
  rewrite length_take. replace (Z.to_nat pos - _)%nat with 0%nat by lia. done.
Qed.

Lemma le_length n v : len (le n v) = Z.of_nat n.
Proof. unfold len, le. by rewrite length_le_from. Qed.

Lemma unle_le_small n v : 0 <= v < 2 ^ (8 * Z.of_nat n) -> unle (le n v) = v.
Proof. intros H. rewrite unle_le. by apply Z.mod_small. Qed.

(** The bytes both codecs produce for a length-encoded integer. *)
Definition lenenc (i : Z) : bytes :=
  if i <? 251 then [u8 i]
  else if i <? 2 ^ 16 then 252 :: le 2 i
  else if i <? 2 ^ 24 then 253 :: le 3 i
  else 254 :: le 8 i.

Lemma lenenc_len i : len (lenenc i) = LenEncIntSize i.
Proof. unfold lenenc, LenEncIntSize. by repeat case_match. Qed.

Lemma LenEncIntSize_pos i : 1 <= LenEncIntSize i <= 9.
Proof. unfold LenEncIntSize. zcases; lia. Qed.

Lemma WriteLenEncInt_lenenc data pos i :
  WriteLenEncInt data pos i =
    (d ← storeAll data pos (lenenc i); Ok (d, pos + LenEncIntSize i)).
Proof. unfold WriteLenEncInt, lenenc, LenEncIntSize. by repeat case_match. Qed.

Lemma WriteLenEncInt_splice data pos i :
  0 <= pos -> pos + LenEncIntSize i <= len data ->
  WriteLenEncInt data pos i = Ok (splice data pos (lenenc i), pos + LenEncIntSize i).
Proof.
  intros ? ?. rewrite WriteLenEncInt_lenenc, storeAll_splice; [done.. |].
  by rewrite lenenc_len.
Qed.

Lemma readTail_splice data pos n m v rest :
  0 <= pos -> pos + len (m :: le n v ++ rest) <= len data ->
  0 <= v < 2 ^ (8 * Z.of_nat n) ->
  readTail (Z.of_nat n) (splice data pos (m :: le n v ++ rest)) pos =
    Ok (Some (v, pos + 1 + Z.of_nat n)).
Proof.
  intros Hp Hl Hv. unfold readTail. rewrite splice_len by done.
  pose proof (len_nonneg rest).
  assert (Hl' : len (m :: le n v ++ rest) = 1 + Z.of_nat n + len rest).
  { change (m :: le n v ++ rest) with ([m] ++ le n v ++ rest).
    rewrite !len_app, le_length. change (len [m]) with 1. lia. }
  destruct (Z.leb_spec (len data) (pos + Z.of_nat n)); [lia|].
  pose proof (slice_splice_app data pos [m] (le n v) rest Hp Hl) as E.
  rewrite le_length in E. change (len [m]) with 1 in E.
  cbn [app] in E. rewrite E. cbn. by rewrite unle_le_small.
Qed.

Lemma ReadLenEncInt_splice data pos i rest :
  in_u64 i -> 0 <= pos -> pos + len (lenenc i ++ rest) <= len data ->
  ReadLenEncInt (splice data pos (lenenc i ++ rest)) pos =
    Ok (Some (i, pos + LenEncIntSize i)).
Proof.
  intros Hi Hp Hl. pose proof (len_nonneg rest).
  pose proof (LenEncIntSize_pos i) as Hs.
  assert (Hl' := Hl). rewrite len_app, lenenc_len in Hl'.
  unfold ReadLenEncInt. rewrite splice_len by done.
  destruct (Z.leb_spec (len data) pos); [lia|].
  unfold lenenc, LenEncIntSize in *. unfold in_u64, two64 in Hi.
  destruct (Z.ltb_spec i 251); [|destruct (Z.ltb_spec i (2 ^ 16)); [|destruct (Z.ltb_spec i (2 ^ 24))]];
    cbn [app] in *; rewrite get_splice by done; cbn [mbind res_bind].
  - unfold u8, two8. rewrite Z.mod_small by lia. zcases; try lia. done.
  - replace (pos + 3) with (pos + 1 + Z.of_nat 2) by lia.
    apply (readTail_splice data pos 2 252 i rest); [done.. | lia].
  - replace (pos + 4) with (pos + 1 + Z.of_nat 3) by lia.
    apply (readTail_splice data pos 3 253 i rest); [done.. | lia].
  - replace (pos + 9) with (pos + 1 + Z.of_nat 8) by lia.
    apply (readTail_splice data pos 8 254 i rest); [done.. | lia].
Qed.

Lemma len_singleton {A} (x : A) : len [x] = 1.
Proof. done. Qed.

(** Buffer arithmetic once lengths of encodings are computed. *)
Ltac len_lia :=
  rewrite ?splice_len by (rewrite ?len_app, ?lenenc_len, ?le_length, ?len_singleton; lia);
  rewrite ?len_app, ?lenenc_len, ?le_length, ?len_singleton; lia.

(** Writing a 64-bit integer with [WriteLenEncInt] into a buffer with room
    for [LenEncIntSize] bytes succeeds, advances by exactly that size, changes
    only those bytes, and [ReadLenEncInt] at the same position returns the
    integer and the same next position. *)
Theorem lenenc_int_roundtrip data pos i :
  in_u64 i -> 0 <= pos -> pos + LenEncIntSize i <= len data ->
  exists data',
    WriteLenEncInt data pos i = Ok (data', pos + LenEncIntSize i) /\
    len data' = len data /\
    take (Z.to_nat pos) data' = take (Z.to_nat pos) data /\
    drop (Z.to_nat (pos + LenEncIntSize i)) data' =
      drop (Z.to_nat (pos + LenEncIntSize i)) data /\
    ReadLenEncInt data' pos = Ok (Some (i, pos + LenEncIntSize i)).
Proof.
  intros Hi Hp Hl. exists (splice data pos (lenenc i)).
  pose proof (lenenc_len i) as E. pose proof (LenEncIntSize_pos i).
  split; [by apply WriteLenEncInt_splice|].
  split; [apply splice_len; lia|].
  split; [|split].
  - unfold splice. apply take_app_length'. rewrite length_take. unfold len in *. lia.
  - unfold splice. rewrite app_assoc. unfold len in *.
    rewrite drop_app_ge by (rewrite length_app, length_take; lia).
    rewrite length_app, length_take, drop_drop. f_equal. lia.
  - pose proof (ReadLenEncInt_splice data pos i [] Hi Hp) as R.
    rewrite app_nil_r in R. apply R. lia.
Qed.

Lemma lenenc_int_roundtrip_witness :
  exists d, WriteLenEncInt (replicate 12 7) 2 70000 = Ok (d, 6) /\
            ReadLenEncInt d 2 = Ok (Some (70000, 6)).
Proof.
  destruct (lenenc_int_roundtrip (replicate 12 7) 2 70000) as (d & W & _ & _ & _ & R);
    [unfold_width; lia | lia | vm_compute; congruence | exists d; split; [exact W | exact R]].
Defined.

(** A string written with [WriteLenEncString] where
    [LenEncStringSize] bytes are free is read back by [ReadLenEncString], with
    the same next position, from a buffer of any length a Go slice can have. *)
Theorem lenenc_string_roundtrip data pos s :
  0 <= pos -> pos + LenEncStringSize s <= len data -> len data < two63 ->
  exists data',
    WriteLenEncString data pos s = Ok (data', pos + LenEncStringSize s) /\
    ReadLenEncString data' pos = Ok (Some (s, pos + LenEncStringSize s)).
Proof.
  intros Hp Hl Hd. unfold LenEncStringSize in *. pose proof (len_nonneg s).
  pose proof (LenEncIntSize_pos (len s)).
  assert (Hu : in_u64 (len s)) by (unfold_width; lia).
  exists (splice data pos (lenenc (len s) ++ s)). unfold WriteLenEncString.
  rewrite (u64_id _ Hu), WriteLenEncInt_splice by lia. cbn [mbind res_bind].
  unfold WriteEOFString.
  rewrite copyAt_splice by len_lia. cbn [mbind res_bind].
  replace (splice (splice _ _ _) _ s) with (splice data pos (lenenc (len s) ++ s))
    by (rewrite <- lenenc_len; symmetry; apply splice_splice; len_lia).
  split; [do 2 f_equal; lia|].
  unfold ReadLenEncString, ReadLenEncStringAsBytes.
  rewrite ReadLenEncInt_splice by (done || len_lia).
  cbn [mbind res_bind]. rewrite splice_len by len_lia.
  rewrite !i64_id by (rewrite ?i64_id; unfold_width; lia).
  destruct (Z.leb_spec (len data) (pos + LenEncIntSize (len s) + len s - 1)); [lia|].
  pose proof (slice_splice_app data pos (lenenc (len s)) s [] Hp) as E.
  rewrite !app_nil_r, !len_app, !lenenc_len in E. rewrite E by lia.
  cbn. do 3 f_equal. lia.
Qed.

Lemma lenenc_string_roundtrip_witness :
  exists d, WriteLenEncString (replicate 9 1) 1 [104; 105] = Ok (d, 4) /\
            ReadLenEncString d 1 = Ok (Some ([104; 105], 4)).
Proof.
  apply (lenenc_string_roundtrip (replicate 9 1) 1 [104; 105]);
    [lia | vm_compute; congruence | vm_compute; reflexivity].
Defined.

Lemma readUint_splice n data pos v :
  (0 < n)%nat -> 0 <= pos -> pos + Z.of_nat n <= len data ->
  readUint (Z.of_nat n) (splice data pos (le n v)) pos =
    Ok (Some (v mod 2 ^ (8 * Z.of_nat n), pos + Z.of_nat n)).
Proof.
  intros Hn Hp Hl. unfold readUint. rewrite splice_len by len_lia.
  destruct (Z.leb_spec (len data) (pos + (Z.of_nat n - 1))); [lia|].
  pose proof (slice_splice data pos (le n v) Hp) as E. rewrite le_length in E.
  rewrite E by lia. cbn. by rewrite unle_le.
Qed.

(** The fixed-width writers and readers are inverse: a 16-, 32- or 64-bit
    value stored where it fits is read back, with the same next position. *)
Theorem fixed_width_roundtrip data pos v :
  0 <= pos -> 0 <= v ->
  (pos + 2 <= len data -> v < 2 ^ 16 -> exists d,
     WriteUint16 data pos v = Ok (d, pos + 2) /\ ReadUint16 d pos = Ok (Some (v, pos + 2))) /\
  (pos + 4 <= len data -> v < 2 ^ 32 -> exists d,
     WriteUint32 data pos v = Ok (d, pos + 4) /\ ReadUint32 d pos = Ok (Some (v, pos + 4))) /\
  (pos + 8 <= len data -> v < 2 ^ 64 -> exists d,
     WriteUint64 data pos v = Ok (d, pos + 8) /\ ReadUint64 d pos = Ok (Some (v, pos + 8))).
Proof.
  intros Hp Hv.
  unfold WriteUint16, WriteUint32, WriteUint64, ReadUint16, ReadUint32, ReadUint64.
  split_and!; intros Hl Hb.
  - exists (splice data pos (le 2 v)). rewrite storeAll_splice by len_lia.
    split; [done|]. change 2 with (Z.of_nat 2) at 1.
    rewrite readUint_splice by lia. by rewrite Z.mod_small by lia.
  - exists (splice data pos (le 4 v)). rewrite storeAll_splice by len_lia.
    split; [done|]. change 4 with (Z.of_nat 4) at 1.
    rewrite readUint_splice by lia. by rewrite Z.mod_small by lia.
  - exists (splice data pos (le 8 v)). rewrite storeAll_splice by len_lia.
    split; [done|]. change 8 with (Z.of_nat 8) at 1.
    rewrite readUint_splice by lia. by rewrite Z.mod_small by lia.
Qed.

Lemma fixed_width_roundtrip_witness :
  exists d, WriteUint32 (replicate 8 0) 3 305419896 = Ok (d, 7) /\
            ReadUint32 d 3 = Ok (Some (305419896, 7)).
Proof.
  apply (fixed_width_roundtrip (replicate 8 0) 3 305419896);
    [lia | lia | vm_compute; congruence | lia].
Defined.

Lemma IndexByte_app v rest b :
  ~ In b v -> IndexByte (v ++ b :: rest) b = Some (length v).
Proof.
  induction v as [|x v IH]; cbn; intros H.
  - by rewrite Z.eqb_refl.
  - destruct (Z.eqb_spec x b); [tauto|]. by rewrite IH by tauto.
Qed.

(** A string without a zero byte survives [WriteNullString] followed by
    [ReadNullString], and both agree on the next position. *)
Theorem null_string_roundtrip data pos v :
  0 <= pos -> pos + LenNullString v <= len data -> ~ In 0 v ->
  exists data',
    WriteNullString data pos v = Ok (data', pos + LenNullString v) /\
    ReadNullString data' pos = Ok (Some (v, pos + LenNullString v)).
Proof.
  unfold LenNullString. intros Hp Hl Hz. pose proof (len_nonneg v).
  exists (splice data pos (v ++ [0])). unfold WriteNullString.
  rewrite copyAt_splice by lia. cbn [mbind res_bind].
  rewrite set_splice by len_lia. cbn [mbind res_bind].
  rewrite splice_splice by len_lia.
  split; [do 2 f_equal; lia|].
  unfold ReadNullString, slice.
  rewrite splice_len by len_lia.
  zcases; cbn [andb]; try lia. cbn [mbind res_bind].
  unfold splice. rewrite drop_app_length' by (rewrite length_take; unfold len in *; lia).
  rewrite <- app_assoc. cbn [app].
  rewrite (firstn_all2 (v ++ _))
    by (rewrite length_app; cbn; rewrite length_drop, length_app; cbn; unfold len in *; lia).
  rewrite IndexByte_app by done.
  rewrite take_app_length. do 3 f_equal. unfold len. lia.
Qed.

Lemma null_string_roundtrip_witness :
  exists d, WriteNullString (replicate 6 9) 1 [97; 98] = Ok (d, 4) /\
            ReadNullString d 1 = Ok (Some ([97; 98], 4)).
Proof.
  apply (null_string_roundtrip (replicate 6 9) 1 [97; 98]);
    [lia | vm_compute; congruence | intros [|[|[]]]; discriminate].
Defined.

Lemma unle_from_bound k bs :
  0 <= k -> Forall is_byte bs -> 0 <= unle_from k bs < 2 ^ (8 * (k + len bs)).
Proof.
  revert k; induction bs as [|b bs IH]; intros k Hk Hb; cbn [unle_from].
  - split; [lia|]. apply Z.pow_pos_nonneg; unfold len; cbn; lia.
  - inversion Hb as [|? ? Hb1 Hb2]; subst. specialize (IH (k + 1) ltac:(lia) Hb2).
    assert (El : len (b :: bs) = 1 + len bs) by (unfold len; cbn [length]; lia).
    rewrite El. replace (k + (1 + len bs)) with (k + 1 + len bs) by lia.
    assert (Hs : 0 <= Z.shiftl b (8 * k) < 2 ^ (8 * (k + 1 + len bs))).
    { rewrite Z.shiftl_mul_pow2 by lia. unfold is_byte in Hb1.
      split; [apply Z.mul_nonneg_nonneg; lia|].
      apply Z.lt_le_trans with (2 ^ (8 * (k + 1))).
      - replace (8 * (k + 1)) with (8 + 8 * k) by lia.
        rewrite Z.pow_add_r by lia. apply Z.mul_lt_mono_pos_r; lia.
      - apply Z.pow_le_mono_r; pose proof (len_nonneg bs); lia. }
    destruct (Z.eq_dec (Z.lor (Z.shiftl b (8 * k)) (unle_from (k + 1) bs)) 0) as [E|E].
    { rewrite E. split; [lia|]. apply Z.pow_pos_nonneg; pose proof (len_nonneg bs); lia. }
    assert (0 <= Z.lor (Z.shiftl b (8 * k)) (unle_from (k + 1) bs))
      by (apply Z.lor_nonneg; lia).
    split; [done|]. apply Z.log2_lt_pow2; [lia|].
    rewrite Z.log2_lor by lia. pose proof (len_nonneg bs).
    apply Z.max_lub_lt.
    all: match goal with |- Z.log2 ?x < _ =>
      destruct (Z.eq_dec x 0) as [->|]; [cbn; lia | apply Z.log2_lt_pow2; lia] end.
Qed.

Lemma slice_bytes data lo hi s :
  Forall is_byte data -> slice data lo hi = Ok s ->
  Forall is_byte s /\ len s = hi - lo /\ 0 <= lo <= hi /\ hi <= len data.
Proof.
  intros Hb. unfold slice. zcases; cbn; try done. intros [= <-].
  split; [by apply Forall_take, Forall_drop|].
  unfold len in *. rewrite length_take, length_drop. lia.
Qed.

Lemma readTail_spec n data pos :
  0 <= pos -> 0 <= n <= 8 -> Forall is_byte data ->
  exists r, readTail n data pos = Ok r /\
    forall v p, r = Some (v, p) -> pos < p <= len data /\ in_u64 v.
Proof.
  intros Hp Hn Hb. unfold readTail.
  destruct (Z.leb_spec (len data) (pos + n)); [eexists; split; [done|]; done|].
  destruct (slice data (pos + 1) (pos + 1 + n)) as [s| |] eqn:E.
  - eexists; split; [done|]. intros v p [= <- <-].
    apply slice_bytes in E as (Hs & Hl & _ & _); [|done].
    pose proof (unle_from_bound 0 s ltac:(lia) Hs) as B. split; [lia|].
    unfold in_u64, unle. rewrite Hl in B.
    assert (2 ^ (8 * (0 + (pos + 1 + n - (pos + 1)))) <= 2 ^ 64)
      by (apply Z.pow_le_mono_r; lia). unfold two64. lia.
  - unfold slice in E. by destruct (_ && _).
  - unfold slice in E. revert E. zcases; cbn; done || lia.
Qed.

Lemma ReadLenEncInt_spec data pos :
  0 <= pos -> Forall is_byte data ->
  exists r, ReadLenEncInt data pos = Ok r /\
    forall v p, r = Some (v, p) -> pos < p <= len data /\ in_u64 v.
Proof.
  intros Hp Hb. unfold ReadLenEncInt.
  destruct (Z.leb_spec (len data) pos); [eexists; split; [done|]; done|].
  unfold get. destruct (Z.leb_spec 0 pos); [|lia].
  destruct (data !! Z.to_nat pos) as [b|] eqn:E; cbn [from_option mbind res_bind].
  2: { apply lookup_ge_None in E. unfold len in *. lia. }
  assert (is_byte b) by (eapply Forall_lookup_1; eauto).
  zcases; try (apply readTail_spec; lia || done).
  eexists; split; [done|]. intros v p [= <- <-]. unfold is_byte in *.
  unfold_width. lia.
Qed.

(** On a buffer of bytes and a non-negative position [ReadLenEncInt] never
    panics; when it succeeds, the value is a 64-bit integer and the next
    position is after [pos] and within the buffer. *)
Theorem ReadLenEncInt_safe data pos :
  0 <= pos -> Forall is_byte data ->
  ReadLenEncInt data pos = Ok None \/
  exists v p, ReadLenEncInt data pos = Ok (Some (v, p)) /\
              pos < p <= len data /\ in_u64 v.
Proof.
  intros Hp Hb. destruct (ReadLenEncInt_spec data pos Hp Hb) as (r & -> & Hr).
  destruct r as [[v p]|]; [right | by left]. exists v, p. split; [done | by apply Hr].
Qed.

Lemma ReadLenEncInt_safe_witness :
  ReadLenEncInt [9; 253; 1; 2; 3] 1 = Ok None \/
  exists v p, ReadLenEncInt [9; 253; 1; 2; 3] 1 = Ok (Some (v, p)) /\
              1 < p <= len [9; 253; 1; 2; 3] /\ in_u64 v.
Proof.
  apply ReadLenEncInt_safe; [lia | repeat constructor; unfold is_byte; lia].
Defined.

(** [ReadLenEncString] panics exactly when the decoded length, added to the
    position of the string, exceeds the [int] range: the bounds check is done
    on the wrapped sum, so such a length passes it and the slice expression
    fails.  Every shorter length is accepted or rejected without a panic. *)
Theorem ReadLenEncString_panics_iff data pos :
  0 <= pos -> Forall is_byte data -> len data < two63 ->
  ReadLenEncString data pos = Panic <->
  exists size p, ReadLenEncInt data pos = Ok (Some (size, p)) /\ two63 < p + size.
Proof.
  intros Hp Hb Hl. unfold ReadLenEncString, ReadLenEncStringAsBytes.
  destruct (ReadLenEncInt_spec data pos Hp Hb) as (r & -> & Hr).
  cbn [mbind res_bind]. destruct r as [[size p]|].
  2: { split; [done | by intros (? & ? & ? & ?)]. }
  destruct (Hr size p eq_refl) as [Hpp Hs]. clear Hr. unfold in_u64 in Hs.
  assert (E : two63 < p + size <->
    (len data <=? i64 (p + i64 size - 1)) = false /\ slice data p (i64 (p + i64 size)) = Panic).
  { unfold slice. rewrite Z.leb_gt.
    assert (i64 size = if size <? two63 then size else size - two64) as ->
      by (zcases; width_lia).
    destruct (Z.ltb_spec size two63).
    - destruct (Z.leb_spec (p + size) two63).
      + assert (i64 (p + size - 1) = p + size - 1) as -> by (apply i64_id; unfold_width; lia).
        split; [lia|]. intros [H1 H2]. exfalso. revert H2.
        rewrite i64_id by (unfold_width; lia). zcases; cbn; done || lia.
      + split; [|lia]. intros _.
        assert (i64 (p + size - 1) = p + size - 1 - two64) as -> by width_lia.
        assert (i64 (p + size) = p + size - two64) as -> by width_lia.
        unfold_width. zcases; cbn; lia || (split; [lia | done]).
    - split; [|unfold_width; lia]. intros _.
      assert (i64 (p + (size - two64) - 1) = p + size - two64 - 1) as -> by width_lia.
      assert (i64 (p + (size - two64)) = p + size - two64) as -> by width_lia.
      unfold_width. zcases; cbn; lia || (split; [lia | done]). }
  split.
  - intros H. exists size, p. split; [done|]. apply E.
    destruct (len data <=? _); [done|]. split; [done|].
    by destruct (slice _ _ _).
  - intros (? & ? & [= <- <-] & H). apply E in H as [-> ->]. done.
Qed.

Lemma ReadLenEncString_panics_witness :
  ReadLenEncString (254 :: replicate 8 255) 0 = Panic.
Proof.
  apply ReadLenEncString_panics_iff.
  - lia.
  - repeat constructor; unfold is_byte; lia.
  - vm_compute; reflexivity.
  - exists (two64 - 1), 9. split; [vm_compute; reflexivity | vm_compute; reflexivity].
Defined.

(** [SkipLenEncString] moves exactly where [ReadLenEncString] does, and
    fails when it fails, on every buffer on which the latter does not panic. *)
Theorem SkipLenEncString_agrees data pos :
  ReadLenEncString data pos <> Panic ->
  SkipLenEncString data pos = fmap (M := res) (fmap (M := option) snd) (ReadLenEncString data pos).
Proof.
  unfold ReadLenEncString, ReadLenEncStringAsBytes, SkipLenEncString.
  destruct (ReadLenEncInt data pos) as [[[size p]|]| |]; cbn [mbind res_bind]; try done.
  destruct (len data <=? _); [done|].
  destruct (slice _ _ _) eqn:E; cbn; [done | | done].
  unfold slice in E. by destruct (_ && _).
Qed.

Lemma SkipLenEncString_agrees_witness :
  SkipLenEncString [7; 2; 104; 105; 0] 1 = Ok (Some 4).
Proof.
  rewrite SkipLenEncString_agrees; [reflexivity | vm_compute; discriminate].
Defined.

(** [ReadEOFString] returns the rest of the buffer, and as "next position"
    the number of bytes left rather than the end of the buffer: the two agree
    only when reading starts at position 0. *)
Theorem ReadEOFString_next data pos :
  0 <= pos <= len data ->
  exists rest next, ReadEOFString data pos = Ok (Some (rest, next)) /\
    rest = drop (Z.to_nat pos) data /\ next = len rest /\
    (next = len data <-> pos = 0).
Proof.
  intros Hp. unfold ReadEOFString, slice. zcases; cbn [andb]; try lia.
  cbn [mbind res_bind]. rewrite firstn_all2 by (rewrite length_drop; unfold len in *; lia).
  do 2 eexists. split; [done|]. split; [done|].
  split; [unfold len in *; rewrite length_drop; lia | lia].
Qed.

Lemma ReadEOFString_next_witness :
  exists rest next, ReadEOFString [1; 2; 3; 4] 3 = Ok (Some (rest, next)) /\
    rest = [4] /\ next = len rest /\ (next = len [1; 2; 3; 4] <-> 3 = 0).
Proof. apply (ReadEOFString_next [1; 2; 3; 4] 3). vm_compute; split; congruence. Defined.

Lemma AppendLengthEncodedInteger_lenenc b n :
  AppendLengthEncodedInteger b n = b ++ lenenc n.
Proof.
  unfold AppendLengthEncodedInteger, lenenc.
  destruct (Z.leb_spec n 250), (Z.ltb_spec n 251); try lia; [done|].
  destruct (Z.leb_spec n 65535), (Z.ltb_spec n (2 ^ 16)); try lia; [done|].
  destruct (Z.leb_spec n 16777215), (Z.ltb_spec n (2 ^ 24)); try lia; done.
Qed.

Lemma slice_cons_app m a rest hi :
  hi = 1 + len a -> slice (m :: a ++ rest) 1 hi = Ok a.
Proof.
  intros ->. pose proof (len_nonneg a). pose proof (len_nonneg rest).
  unfold slice. assert (E : len (m :: a ++ rest) = 1 + len a + len rest).
  { change (m :: a ++ rest) with ([m] ++ a ++ rest). len_lia. }
  rewrite E. zcases; cbn [andb]; try lia. f_equal.
  change (Z.to_nat 1) with 1%nat. cbn [drop skipn].
  apply take_app_length'. unfold len. lia.
Qed.

(** The codec of the database driver ([utils.go]) and the one of the
    protocol layer ([encoding.go]) agree: [WriteLenEncInt] stores exactly the
    bytes [AppendLengthEncodedInteger] appends, and [ReadLengthEncodedInteger]
    decodes them, followed by anything, to the value, not NULL, and the size. *)
Theorem driver_codec_agrees n b rest data pos :
  in_u64 n ->
  AppendLengthEncodedInteger b n = b ++ AppendLengthEncodedInteger [] n /\
  WriteLenEncInt data pos n =
    (d ← storeAll data pos (AppendLengthEncodedInteger [] n); Ok (d, pos + LenEncIntSize n)) /\
  ReadLengthEncodedInteger (AppendLengthEncodedInteger [] n ++ rest) =
    Ok (n, false, LenEncIntSize n).
Proof.
  intros Hn. rewrite !AppendLengthEncodedInteger_lenenc. split; [done|].
  split; [apply WriteLenEncInt_lenenc|].
  unfold lenenc, LenEncIntSize, in_u64, two64 in *.
  destruct (Z.ltb_spec n 251); [|destruct (Z.ltb_spec n (2 ^ 16)); [|destruct (Z.ltb_spec n (2 ^ 24))]];
    cbn [app ReadLengthEncodedInteger].
  - unfold u8, two8. rewrite Z.mod_small by lia. zcases; try lia. done.
  - cbn [Z.eqb Pos.eqb]. rewrite slice_cons_app by len_lia.
    cbn [mbind res_bind]. by rewrite unle_le_small by lia.
  - cbn [Z.eqb Pos.eqb]. rewrite slice_cons_app by len_lia.
    cbn [mbind res_bind]. by rewrite unle_le_small by lia.
  - cbn [Z.eqb Pos.eqb]. rewrite slice_cons_app by len_lia.
    cbn [mbind res_bind]. by rewrite unle_le_small by lia.
Qed.

Lemma driver_codec_agrees_witness :
  ReadLengthEncodedInteger (AppendLengthEncodedInteger [] 66000 ++ [5]) = Ok (66000, false, 4).
Proof. apply (driver_codec_agrees 66000 [] [5] [] 0). unfold_width; lia. Defined.

(** ** Any countable type as bytes, for instances of outside codecs *)
Fixpoint bits (p : positive) : bytes :=
  match p with xH => [2] | xO p' => 0 :: bits p' | xI p' => 1 :: bits p' end.
Fixpoint unbits (b : bytes) : positive :=
  match b with 0 :: b' => xO (unbits b') | 1 :: b' => xI (unbits b') | _ => xH end.
Lemma unbits_bits p : unbits (bits p) = p.
Proof. induction p as [p IH|p IH|]; cbn; by rewrite ?IH. Qed.
