(* ===== verification/Utf8.v ===== *)
(** * UTF-8: [DecodeRuneInString] and [EncodeRune] of package [unicode/utf8]

    Both sides are those of Go: invalid input decodes to the replacement
    character with size 1, and a number that is no scalar value is encoded as the
    replacement character.  On scalar values decoding reads back what was
    encoded, and what decodes with a size above 1 is the encoding of its rune. *)
From Stdlib Require Import ZArith Lia List.
From stdpp Require Import base list.
From S2P Require Import Prelude Encoding.

Local Open Scope Z_scope.

Definition RuneError : Z := 65533.
Definition RuneSelf : Z := 128.

Definition within (lo hi b : Z) : bool := (lo <=? b) && (b <=? hi).

(** A continuation byte. *)
Definition isCont (b : Z) : bool := within 128 191 b.

(** The accept ranges of the second byte. *)
Definition second3 (b0 b1 : Z) : bool :=
  if b0 =? 224 then within 160 191 b1 else if b0 =? 237 then within 128 159 b1 else isCont b1.
Definition second4 (b0 b1 : Z) : bool :=
  if b0 =? 240 then within 144 191 b1 else if b0 =? 244 then within 128 143 b1 else isCont b1.

Definition decodeRune (s : bytes) : Z * nat :=
  match s with
  | [] => (RuneError, 0%nat)
  | b0 :: s1 =>
    if b0 <? RuneSelf then (b0, 1%nat)
    else if within 194 223 b0 then
      match s1 with
      | b1 :: _ => if isCont b1 then ((b0 - 192) * 64 + (b1 - 128), 2%nat) else (RuneError, 1%nat)
      | _ => (RuneError, 1%nat)
      end
    else if within 224 239 b0 then
      match s1 with
      | b1 :: b2 :: _ =>
        if second3 b0 b1 && isCont b2 then ((b0 - 224) * 4096 + (b1 - 128) * 64 + (b2 - 128), 3%nat) else (RuneError, 1%nat)
      | _ => (RuneError, 1%nat)
      end
    else if within 240 244 b0 then
      match s1 with
      | b1 :: b2 :: b3 :: _ =>
        if second4 b0 b1 && isCont b2 && isCont b3
        then ((b0 - 240) * 262144 + (b1 - 128) * 4096 + (b2 - 128) * 64 + (b3 - 128), 4%nat) else (RuneError, 1%nat)
      | _ => (RuneError, 1%nat)
      end
    else (RuneError, 1%nat)
  end.

Definition isScalar (r : Z) : bool := within 0 1114111 r && negb (within 55296 57343 r).

Definition encode3 (r : Z) : bytes := [224 + r / 4096; 128 + (r / 64) mod 64; 128 + r mod 64].
Definition encodeRune (r : Z) : bytes :=
  if negb (isScalar r) then encode3 RuneError
  else if r <? 128 then [r]
  else if r <? 2048 then [192 + r / 64; 128 + r mod 64]
  else if r <? 65536 then encode3 r
  else [240 + r / 262144; 128 + (r / 4096) mod 64; 128 + (r / 64) mod 64; 128 + r mod 64].

(** Splits the conditions of the decoder and of the encoder. *)
Ltac rune_cases :=
  repeat match goal with
  | |- context[if ?c then _ else _] => destruct c eqn:?
  | H : context[if ?c then _ else _] |- _ => destruct c eqn:?
  end; zbool.

Lemma within_spec lo hi b : within lo hi b = true <-> lo <= b <= hi.
Proof. unfold within. rewrite andb_true_iff, !Z.leb_le. lia. Qed.

Lemma within_true lo hi b : lo <= b <= hi -> within lo hi b = true.
Proof. apply within_spec. Qed.
Lemma within_false lo hi b : b < lo \/ hi < b -> within lo hi b = false.
Proof. intros Hb. destruct (within lo hi b) eqn:E; [apply within_spec in E; lia|done]. Qed.

(** Decides the ranges and comparisons of a goal whose bytes are bounded. *)
Ltac range_tac :=
  repeat first
  [ rewrite within_true by (Z.to_euclidean_division_equations; lia)
  | rewrite within_false by (Z.to_euclidean_division_equations; lia)
  | rewrite (proj2 (Z.ltb_lt _ _)) by (Z.to_euclidean_division_equations; lia)
  | rewrite (proj2 (Z.ltb_ge _ _)) by (Z.to_euclidean_division_equations; lia) ].

Lemma scalar_range r : isScalar r = true <-> 0 <= r <= 1114111 /\ ~ (55296 <= r <= 57343).
Proof.
  unfold isScalar. rewrite andb_true_iff, negb_true_iff, within_spec. destruct (within 55296 57343 r) eqn:E.
  - apply within_spec in E. split; [by intros [_ ?]|lia].
  - split; [|tauto]. intros [Hr _]. split; [done|]. intros Hw%within_spec. congruence.
Qed.

Lemma second3_encoded r : isScalar r = true -> 2048 <= r < 65536 -> second3 (224 + r / 4096) (128 + (r / 64) mod 64) = true.
Proof.
  intros [_ Hs]%scalar_range Hr. unfold second3, isCont.
  destruct (Z.eqb_spec (224 + r / 4096) 224); [apply within_true; Z.to_euclidean_division_equations; lia|].
  destruct (Z.eqb_spec (224 + r / 4096) 237); apply within_true; Z.to_euclidean_division_equations; lia.
Qed.
Lemma second4_encoded r : 65536 <= r <= 1114111 -> second4 (240 + r / 262144) (128 + (r / 4096) mod 64) = true.
Proof.
  intros Hr. unfold second4, isCont.
  destruct (Z.eqb_spec (240 + r / 262144) 240); [apply within_true; Z.to_euclidean_division_equations; lia|].
  destruct (Z.eqb_spec (240 + r / 262144) 244); apply within_true; Z.to_euclidean_division_equations; lia.
Qed.
Lemma isCont_mod x : isCont (128 + x mod 64) = true.
Proof. apply within_true. Z.to_euclidean_division_equations; lia. Qed.

Lemma encode_decode_rune r rest : isScalar r = true ->
  decodeRune (encodeRune r ++ rest) = (r, length (encodeRune r)).
Proof.
  intros Hs. pose proof (proj1 (scalar_range r) Hs) as [Hr _]. unfold encodeRune. rewrite Hs. cbn [negb].
  destruct (Z.ltb_spec r 128); [cbn [app decodeRune length]; unfold RuneSelf; by range_tac|].
  destruct (Z.ltb_spec r 2048).
  { cbn [app decodeRune length]. unfold RuneSelf. range_tac. rewrite isCont_mod. f_equal. Z.to_euclidean_division_equations; lia. }
  destruct (Z.ltb_spec r 65536).
  { unfold encode3. cbn [app decodeRune length]. unfold RuneSelf. range_tac. rewrite second3_encoded, isCont_mod by first [done | lia]. cbn [andb].
    f_equal. Z.to_euclidean_division_equations; lia. }
  cbn [app decodeRune length]. unfold RuneSelf. range_tac. rewrite second4_encoded, !isCont_mod by lia. cbn [andb].
  f_equal. Z.to_euclidean_division_equations; lia.
Qed.

Lemma decodeRune_size s : s <> [] -> (1 <= snd (decodeRune s) <= length s)%nat.
Proof.
  destruct s as [|b0 [|b1 [|b2 [|b3 s]]]]; [done|..]; intros _; cbn [decodeRune];
    repeat match goal with |- context[if ?c then _ else _] => destruct c end; cbn; lia.
Qed.

(** What decodes as more than one byte is the encoding of its rune. *)
Lemma decode_encode_rune s r w : decodeRune s = (r, w) -> (1 < w)%nat ->
  isScalar r = true /\ 128 <= r /\ encodeRune r = take w s.
Proof.
  intros Hd Hw. destruct s as [|b0 s1]; cbn [decodeRune] in Hd; [injection Hd as _ <-; lia|].
  destruct (b0 <? RuneSelf); [injection Hd as _ <-; lia|].
  destruct (within 194 223 b0) eqn:E2.
  { destruct s1 as [|b1 s1]; [injection Hd as _ <-; lia|]. destruct (isCont b1) eqn:E3; [|injection Hd as _ <-; lia].
    apply within_spec in E2, E3. injection Hd as <- <-.
    assert (Hs : isScalar ((b0 - 192) * 64 + (b1 - 128)) = true) by (apply scalar_range; lia).
    split_and!; [done|lia|]. unfold encodeRune. rewrite Hs. cbn [negb]. range_tac. cbn [take].
    f_equal; [|f_equal]; Z.to_euclidean_division_equations; lia. }
  destruct (within 224 239 b0) eqn:E3.
  { destruct s1 as [|b1 [|b2 s1]]; try (injection Hd as _ <-; lia). destruct (second3 b0 b1 && isCont b2) eqn:E4; [|injection Hd as _ <-; lia].
    apply andb_true_iff in E4 as [E4 E5]. apply within_spec in E3, E5. injection Hd as <- <-.
    set (r := (b0 - 224) * 4096 + (b1 - 128) * 64 + (b2 - 128)).
    assert (Hb : 128 <= b1 <= 191 /\ 2048 <= r < 65536 /\ ~ (55296 <= r <= 57343)).
    { unfold second3 in E4. subst r. destruct (Z.eqb_spec b0 224); [apply within_spec in E4; lia|].
      destruct (Z.eqb_spec b0 237); apply within_spec in E4; lia. }
    assert (Hs : isScalar r = true) by (apply scalar_range; lia).
    split_and!; [done|lia|]. unfold encodeRune. rewrite Hs. cbn [negb]. range_tac. cbn [take]. unfold encode3. subst r.
    f_equal; [|f_equal; [|f_equal]]; Z.to_euclidean_division_equations; lia. }
  destruct (within 240 244 b0) eqn:E4; [|injection Hd as _ <-; lia].
  destruct s1 as [|b1 [|b2 [|b3 s1]]]; try (injection Hd as _ <-; lia).
  destruct (second4 b0 b1 && isCont b2 && isCont b3) eqn:E5; [|injection Hd as _ <-; lia].
  apply andb_true_iff in E5 as [E5 E7]. apply andb_true_iff in E5 as [E5 E6]. apply within_spec in E4, E6, E7. injection Hd as <- <-.
  set (r := (b0 - 240) * 262144 + (b1 - 128) * 4096 + (b2 - 128) * 64 + (b3 - 128)).
  assert (Hb : 128 <= b1 <= 191 /\ 65536 <= r <= 1114111).
  { unfold second4 in E5. subst r. destruct (Z.eqb_spec b0 240); [apply within_spec in E5; lia|].
    destruct (Z.eqb_spec b0 244); apply within_spec in E5; lia. }
  assert (Hs : isScalar r = true) by (apply scalar_range; lia).
  split_and!; [done|lia|]. unfold encodeRune. rewrite Hs. cbn [negb]. range_tac. cbn [take]. subst r.
  f_equal; [|f_equal; [|f_equal; [|f_equal]]]; Z.to_euclidean_division_equations; lia.
Qed.

(** A rune of one byte that is not below 128 is an error. *)
Lemma decodeRune_one b s r : decodeRune (b :: s) = (r, 1%nat) -> (b < 128 /\ r = b) \/ (128 <= b /\ r = RuneError).
Proof.
  cbn [decodeRune]. unfold RuneSelf. destruct (Z.ltb_spec b 128); [intros [= <-]; by left|].
  destruct s as [|b1 [|b2 [|b3 s]]];
    repeat match goal with |- context[if ?c then _ else _] => destruct c end; intros [= <-]; by right.
Qed.
Lemma decodeRune_ascii b s : b < 128 -> decodeRune (b :: s) = (b, 1%nat).
Proof. intros Hb. cbn [decodeRune]. unfold RuneSelf. by rewrite (proj2 (Z.ltb_lt b 128) Hb). Qed.

(** The bytes of a rune above 127 are above 127. *)
Lemma encodeRune_high r : 128 <= r -> Forall (fun b => 128 <= b < 256) (encodeRune r).
Proof.
  intros Hr. unfold encodeRune. destruct (isScalar r) eqn:Hs; [apply scalar_range in Hs|cbn [negb]; change (encode3 RuneError) with [239; 191; 189]; repeat constructor; lia]. cbn [negb].
  rewrite (proj2 (Z.ltb_ge r 128)) by lia. unfold encode3.
  destruct (Z.ltb_spec r 2048); [|destruct (Z.ltb_spec r 65536)]; repeat constructor; Z.to_euclidean_division_equations; lia.
Qed.
Lemma encodeRune_ascii r : 0 <= r < 128 -> encodeRune r = [r].
Proof.
  intros Hr. unfold encodeRune. rewrite (proj2 (scalar_range r)) by lia. cbn [negb]. by rewrite (proj2 (Z.ltb_lt r 128)) by lia.
Qed.
Lemma encodeRune_ne r : encodeRune r <> [].
Proof. unfold encodeRune, encode3. repeat match goal with |- context[if ?c then _ else _] => destruct c end; done. Qed.
