(* ===== verification/Literals.v ===== *)
(** * String literals: [pkg/misc/escape.go], the escaping functions of
    [pkg/misc/utils.go], and how the SQL parser writes and reads a literal
    ([third_party/parser/format/format.go], [third_party/parser/lexer.go],
    [third_party/types/parser_driver/value_expr.go])

    Texts are byte strings.  One lemma, [scan_escaped], says which ways of
    escaping a literal the lexer undoes; the functions are instances of it. *)
From Stdlib Require Import ZArith Lia List.
From stdpp Require Import base list strings.
From S2P Require Import Prelude GoText Encoding Utf8.

Local Open Scope Z_scope.

(** ** [misc.Escape] and [misc.Unescape] *)
Definition EscapeSingleQuote : Z := 1.
Definition EscapeDoubleQuote : Z := 2.
Definition EscapeLike : Z := 3.
Definition flagged (flag f : Z) : bool := negb (Z.land flag f =? 0).

(** What is written for the rune [r]; [next] is the rune after it. *)
Definition escapeRune (flag r next : Z) : bytes :=
  if r =? 10 then bytes_of "\n"
  else if r =? 8 then bytes_of "\b"
  else if r =? 9 then bytes_of "\t"
  else if r =? 13 then bytes_of "\r"
  else if r =? 92 then
    let isLikeEscape := flagged flag EscapeLike && ((next =? 37) || (next =? 95)) in
    92 :: (if isLikeEscape then [] else [92])
  else if r =? 39 then (if flagged flag EscapeSingleQuote then [92] else []) ++ [39]
  else if r =? 34 then (if flagged flag EscapeDoubleQuote then [92] else []) ++ [34]
  else encodeRune r.

(** The loop takes one rune per turn: the length of the input is enough fuel. *)
Fixpoint escapeLoop (fuel : nat) (flag : Z) (input : bytes) : bytes :=
  match fuel, input with
  | S fuel', _ :: _ =>
    let '(r, size) := decodeRune input in
    let input' := drop size input in
    escapeRune flag r (fst (decodeRune input')) ++ escapeLoop fuel' flag input'
  | _, _ => []
  end.
Definition Escape (input : bytes) (flag : Z) : bytes := escapeLoop (length input) flag input.

Definition unescapeRune (ignores : list Z) (r : Z) : bytes :=
  if r =? 98 then [8] else if r =? 110 then [10] else if r =? 116 then [9] else if r =? 114 then [13]
  else if r =? 118 then [11] else if r =? 34 then [34] else if r =? 39 then [39]
  else (if existsb (Z.eqb r) ignores then [92] else []) ++ encodeRune r.

Fixpoint unescapeLoop (fuel : nat) (ignores : list Z) (escape : bool) (s : bytes) : bytes :=
  match fuel, s with
  | S fuel', _ :: _ =>
    let '(r, size) := decodeRune s in
    let s' := drop size s in
    if r =? 92 then (if escape then [92] else []) ++ unescapeLoop fuel' ignores (negb escape) s'
    else if escape then unescapeRune ignores r ++ unescapeLoop fuel' ignores false s'
    else encodeRune r ++ unescapeLoop fuel' ignores false s'
  | _, _ => []
  end.
Definition Unescape (s : bytes) (ignores : list Z) : bytes :=
  if existsb (Z.eqb 92) s then unescapeLoop (length s) ignores false s else s.

(** ** [escapeBytesBackslash] and its kin: a buffer is grown and filled by index *)

(** [spare]: the bytes behind the buffer that its array holds. *)
Definition reserveBuffer (buf spare : bytes) (appendSize : nat) : bytes :=
  buf ++ (if (length spare <? appendSize)%nat then replicate appendSize 0 else take appendSize spare).

Definition writeAt (buf : bytes) (pos : nat) (b : Z) : res bytes :=
  if (pos <? length buf)%nat then Ok (<[pos := b]> buf) else Panic.

Fixpoint fillEscaped (code : Z -> option (Z * Z)) (v buf : bytes) (pos : nat) : res bytes :=
  match v with
  | [] => Ok (take pos buf)
  | c :: v' =>
    match code c with
    | Some (a, b) => buf ← writeAt buf pos a; buf ← writeAt buf (pos + 1) b; fillEscaped code v' buf (pos + 2)
    | None => buf ← writeAt buf pos c; fillEscaped code v' buf (pos + 1)
    end
  end.

Definition backslashCode (c : Z) : option (Z * Z) :=
  if c =? 0 then Some (92, 48) else if c =? 10 then Some (92, 110) else if c =? 13 then Some (92, 114)
  else if c =? 26 then Some (92, 90) else if c =? 39 then Some (92, 39) else if c =? 34 then Some (92, 34)
  else if c =? 92 then Some (92, 92) else None.
Definition quoteCode (c : Z) : option (Z * Z) := if c =? 39 then Some (39, 39) else None.

Definition escapeBytesBackslash (spare buf v : bytes) : res bytes :=
  fillEscaped backslashCode v (reserveBuffer buf spare (length v * 2)) (length buf).
Definition escapeStringBackslash (spare buf : bytes) (v : string) : res bytes :=
  fillEscaped backslashCode (bytes_of v) (reserveBuffer buf spare (length (bytes_of v) * 2)) (length buf).
Definition escapeBytesQuotes (spare buf v : bytes) : res bytes :=
  fillEscaped quoteCode v (reserveBuffer buf spare (length v * 2)) (length buf).
Definition escapeStringQuotes (spare buf : bytes) (v : string) : res bytes :=
  fillEscaped quoteCode (bytes_of v) (reserveBuffer buf spare (length (bytes_of v) * 2)) (length buf).

(** ** [EscapeSql] *)
Definition encodeRef (c : Z) : option Z :=
  if c =? 0 then Some 48 else if c =? 39 then Some 39 else if c =? 34 then Some 34 else if c =? 8 then Some 98
  else if c =? 10 then Some 110 else if c =? 13 then Some 114 else if c =? 9 then Some 116
  else if c =? 26 then Some 90 else if c =? 92 then Some 92 else None.
(** The table is looked up with the low byte of the rune. *)
Fixpoint escapeSqlLoop (fuel : nat) (sql : bytes) : bytes :=
  match fuel, sql with
  | S fuel', _ :: _ =>
    let '(r, width) := decodeRune sql in
    match encodeRef (u8 r) with
    | None => take width sql
    | Some c => [92; c]
    end ++ escapeSqlLoop fuel' (drop width sql)
  | _, _ => []
  end.
Definition EscapeSql (sql : bytes) : bytes := escapeSqlLoop (length sql) sql.

(** ** The parser: writing a literal *)

(** [strings.Replace] of one character by two. *)
Definition replace1 (c : Z) (by_ : bytes) (s : bytes) : bytes := s ≫= (fun b => if b =? c then by_ else [b]).

(** [RestoreCtx.WriteString] with the flags of [constant.DBPackRestoreFormat]:
    single quotes, and no escaping of backslashes. *)
Definition WriteString (str : bytes) : bytes := [39] ++ replace1 39 [39; 39] str ++ [39].

(** [ValueExpr.Restore] of a string in the default character set, and of bytes. *)
Definition restoreString (s : bytes) : bytes := WriteString (replace1 92 [92; 92] s).
Definition restoreBytes (s : bytes) : bytes := WriteString s.

(** ** The parser: reading a literal *)

(** [reader.peek]: the rune and its width; at the end the width is the last one. *)
Definition peek (rest : bytes) (w : nat) : Z * nat :=
  match rest with
  | [] => (RuneError, w)
  | b :: _ =>
    if b <? 128 then (b, 1%nat)
    else let '(v, w) := decodeRune rest in
      if (v =? RuneError) && (w =? 1)%nat then (b, 1%nat) else (v, w)
  end.

(** [lazyBuf]: the value read so far is the raw text unless a buffer is in use. *)
Definition setUseBuf (buf : option bytes) (str : bytes) : option bytes :=
  match buf with None => Some str | Some b => Some b end.
Definition writeRune (buf : option bytes) (r : Z) (w : nat) : option bytes :=
  match buf with
  | None => None
  | Some b => Some (b ++ if (1 <? w)%nat then encodeRune r else [u8 r])
  end.
Definition lazyData (raw : bytes) (buf : option bytes) : bytes :=
  match buf with Some b => b | None => raw end.

(** The character an escape stands for, and whether the backslash is kept. *)
Definition handleEscape (ch : Z) : Z * bool :=
  if ch =? 110 then (10, false) else if ch =? 48 then (0, false) else if ch =? 98 then (8, false)
  else if ch =? 90 then (26, false) else if ch =? 114 then (13, false) else if ch =? 116 then (9, false)
  else (ch, (ch =? 37) || (ch =? 95)).

(** The loop of [scanString]: [raw] is the text since the opening quote, [ch0] and
    [w] what [peek] last saw.  [None] is the illegal token. *)
Fixpoint scanLoop (fuel : nat) (noBackslash : bool) (ending : Z) (raw : bytes) (buf : option bytes)
    (ch0 : Z) (w : nat) (rest : bytes) : option (bytes * bytes) :=
  match fuel, rest with
  | S fuel', _ :: _ =>
    let continue_ raw buf ch w rest :=
      let buf := writeRune buf ch w in
      match rest with
      | [] => None
      | _ =>
        let rest' := drop w rest in
        let '(ch', w') := peek rest' w in
        scanLoop fuel' noBackslash ending (raw ++ take w rest) buf ch' w' rest'
      end in
    if ch0 =? ending then
      let rest1 := drop w rest in
      let '(ch1, w1) := peek rest1 w in
      if negb (ch1 =? ending) then Some (lazyData raw buf, rest1)
      else continue_ (raw ++ take w rest) (setUseBuf buf raw) ch0 w1 rest1
    else if (ch0 =? 92) && negb noBackslash then
      let rest1 := drop w rest in
      let '(ch1, w1) := peek rest1 w in
      let '(ch, keep) := handleEscape ch1 in
      let buf := lazyData raw buf ++ (if (keep : bool) then [92] else []) in
      continue_ (raw ++ take w rest) (Some buf) ch w1 rest1
    else continue_ raw buf ch0 w rest
  | _, _ => None
  end.

Definition scanString (noBackslash : bool) (text : bytes) : option (bytes * bytes) :=
  match text with
  | [] => None
  | ending :: rest =>
    let '(ch0, w) := peek rest 1 in
    scanLoop (length rest) noBackslash ending [] None ch0 w rest
  end.

Example scan_like : scanString false (bytes_of "'a\%b\'c''d' x") = Some (bytes_of "a\%b'c'd", bytes_of " x").
Proof. vm_compute. reflexivity. Qed.
Example escape_sql_damages : EscapeSql (encodeRune 295) = bytes_of "\'".
Proof. vm_compute. reflexivity. Qed.

(** ** What the lexer undoes *)
Definition escaped (code : Z -> option (Z * Z)) (v : bytes) : bytes :=
  v ≫= (fun c => match code c with Some (a, b) => [a; b] | None => [c] end).

(** [code] doubles the quote or puts a backslash in front of a letter that stands
    for the character, and leaves no quote or backslash alone. *)
Definition undone (noBackslash : bool) (ending : Z) (code : Z -> option (Z * Z)) : Prop :=
  forall c, is_byte c ->
    match code c with
    | Some (a, b) =>
      (a = ending /\ b = ending /\ c = ending) \/
      (noBackslash = false /\ a = 92 /\ 0 <= b < 128 /\ handleEscape b = (c, false) /\ c < 128)
    | None => c <> ending /\ (noBackslash = false -> c <> 92)
    end.

Lemma peek_ascii b rest w : b < 128 -> peek (b :: rest) w = (b, 1%nat).
Proof. intros Hb. unfold peek. by rewrite (proj2 (Z.ltb_lt b 128) Hb). Qed.
Lemma peek_one b rest w : snd (peek (b :: rest) w) = 1%nat -> fst (peek (b :: rest) w) = b.
Proof.
  unfold peek. destruct (b <? 128) eqn:Eb; [done|]. destruct (decodeRune (b :: rest)) as [r n] eqn:E.
  destruct ((r =? RuneError) && (n =? 1)%nat) eqn:Ee; [done|]. cbn. intros ->.
  apply decodeRune_one in E as [[? _]|[_ ->]]; zbool; [lia|]. done.
Qed.
(** A rune of several bytes is spelled by bytes above 127, and is written as they are. *)
Lemma peek_many rest w : (1 < snd (peek rest w))%nat -> rest <> [] ->
  (snd (peek rest w) <= length rest)%nat /\ 128 <= fst (peek rest w) /\
  encodeRune (fst (peek rest w)) = take (snd (peek rest w)) rest /\ Forall (fun b => 128 <= b < 256) (take (snd (peek rest w)) rest).
Proof.
  intros Hw Hr. destruct rest as [|b rest]; [done|]. unfold peek in *. destruct (b <? 128); [cbn in Hw; lia|].
  pose proof (decodeRune_size (b :: rest) Hr) as Hs.
  destruct (decodeRune (b :: rest)) as [r n] eqn:E. destruct ((r =? RuneError) && (n =? 1)%nat); [cbn in Hw; lia|]. cbn [fst snd] in *.
  apply decode_encode_rune in E as (_ & H128 & E); [|done]. rewrite <- E. split_and!; [lia|done|done|by apply encodeRune_high].
Qed.

(** Bytes above 127 in an escaped text are those of the text. *)
Lemma escaped_high code noBackslash ending v tail n :
  undone noBackslash ending code -> 0 <= ending < 128 -> Forall is_byte v -> (forall b t, tail = b :: t -> b < 128) ->
  (n <= length (escaped code v ++ tail))%nat -> Forall (fun b => 128 <= b < 256) (take n (escaped code v ++ tail)) ->
  (n <= length v)%nat /\ take n (escaped code v ++ tail) = take n v /\
  drop n (escaped code v ++ tail) = escaped code (drop n v) ++ tail.
Proof.
  intros Hu He Hv Ht. revert v Hv. induction n as [|n IH]; intros v Hv Hn HF; [rewrite !drop_0; cbn; split_and!; [lia|done|done]|].
  destruct Hv as [|c v Hc Hv].
  { cbn [escaped mbind list_bind app] in *. destruct tail as [|b tail]; [cbn in Hn; lia|].
    cbn in HF. inversion HF as [|? ? Hb _]; subst. specialize (Ht b tail eq_refl). lia. }
  pose proof (Hu c Hc) as Huc. unfold escaped in *. cbn [mbind list_bind] in *.
  destruct (code c) as [[a b]|].
  - exfalso. cbn [app take] in HF. inversion HF as [|? ? Ha _]; subst. destruct Huc as [(-> & _)|(_ & -> & _)]; lia.
  - cbn [app take drop length] in *. inversion HF as [|? ? _ HF']; subst.
    destruct (IH v Hv) as (? & E1 & E2); [lia|done|]. rewrite E1. split_and!; [lia|done|exact E2].
Qed.

Lemma peek_width b rest w ch n : peek (b :: rest) w = (ch, n) ->
  (n = 1%nat /\ ch = b) \/ ((1 < n)%nat /\ 128 <= ch).
Proof.
  intros Hp. destruct (Nat.eq_dec n 1%nat) as [->|Hn].
  - left. split; [done|]. pose proof (peek_one b rest w) as Hone. rewrite Hp in Hone. by rewrite <- Hone.
  - right. assert (H1 : (1 < n)%nat).
    { pose proof (decodeRune_size (b :: rest) ltac:(done)) as Hs. unfold peek in Hp. destruct (b <? 128); [by injection Hp as _ <-|].
      destruct (decodeRune (b :: rest)) as [r m]. destruct ((r =? RuneError) && (m =? 1)%nat); injection Hp as _ <-; [done|]. cbn in Hs. lia. }
    split; [done|]. pose proof (peek_many (b :: rest) w) as Hm. rewrite Hp in Hm. by destruct Hm as (_ & Hc & _).
Qed.
Lemma peek_arg rest w w' : rest <> [] -> peek rest w = peek rest w'.
Proof. by destruct rest. Qed.
Lemma peek_not ending rest w ch n : 0 <= ending < 128 -> (forall b t, rest = b :: t -> b <> ending) ->
  peek rest w = (ch, n) -> ch <> ending.
Proof.
  intros He Hr Hp. destruct rest as [|b rest]; [injection Hp as <- _; unfold RuneError; lia|]. specialize (Hr b rest eq_refl).
  apply peek_width in Hp as [[_ ->]|[_ ?]]; [done|lia].
Qed.
Lemma u8_byte c : is_byte c -> u8 c = c.
Proof. unfold is_byte, u8, two8. intros Hc. by rewrite Z.mod_small. Qed.

(** The loop at the beginning of a turn. *)
Definition resume (fuel : nat) (noBackslash : bool) (ending : Z) (raw : bytes) (buf : option bytes) (rest : bytes) : option (bytes * bytes) :=
  let '(ch, w) := peek rest 1 in scanLoop fuel noBackslash ending raw buf ch w rest.

(** One character of the text is taken. *)
Ltac one :=
  repeat match goal with
  | |- context[drop 1 (?x :: ?l)] => change (drop 1 (x :: l)) with l
  | |- context[take 1 (?x :: ?l)] => change (take 1 (x :: l)) with [x]
  end.

Section scan.
Context (noBackslash : bool) (ending : Z) (code : Z -> option (Z * Z)).
Hypothesis code_undone : undone noBackslash ending code.
Hypothesis ending_quote : 0 <= ending < 128.
Hypothesis not_backslash : ending <> 92.

Lemma resume_end f raw buf rest : (forall b t, rest = b :: t -> b <> ending) ->
  resume (S f) noBackslash ending raw buf (ending :: rest) = Some (lazyData raw buf, rest).
Proof.
  intros Hr. unfold resume. rewrite peek_ascii by lia. cbn [scanLoop]. one. rewrite Z.eqb_refl.
  destruct (peek rest 1) as [ch1 n1] eqn:Hp1. pose proof (peek_not ending rest 1 ch1 n1 ending_quote Hr Hp1) as Hne.
  by rewrite (proj2 (Z.eqb_neq _ _) Hne).
Qed.
Lemma resume_double f raw buf T : T <> [] ->
  resume (S f) noBackslash ending raw buf (ending :: ending :: T) = resume f noBackslash ending (raw ++ [ending] ++ [ending]) (Some (lazyData raw buf ++ [ending])) T.
Proof.
  intros HT. unfold resume at 1. rewrite peek_ascii by lia. cbn [scanLoop]. one. rewrite Z.eqb_refl, peek_ascii, Z.eqb_refl by lia.
  cbn [negb]. one. unfold resume. rewrite <- app_assoc.
  assert (Ew : writeRune (setUseBuf buf raw) ending 1 = Some (lazyData raw buf ++ [u8 ending])) by (by destruct buf).
  by rewrite Ew, u8_byte by (unfold is_byte; lia).
Qed.
Lemma resume_backslash f raw buf b c T : noBackslash = false -> 0 <= b < 128 -> handleEscape b = (c, false) -> is_byte c -> T <> [] ->
  resume (S f) noBackslash ending raw buf (92 :: b :: T) = resume f noBackslash ending (raw ++ [92] ++ [b]) (Some (lazyData raw buf ++ [c])) T.
Proof.
  intros Hn Hb He Hc HT. unfold resume at 1. rewrite peek_ascii by lia. cbn [scanLoop]. one.
  rewrite (proj2 (Z.eqb_neq 92 ending)), Z.eqb_refl by lia. rewrite Hn. cbn [andb negb]. rewrite peek_ascii, He by lia.
  one. unfold resume. change (writeRune (Some (lazyData raw buf ++ [])) c 1) with (Some ((lazyData raw buf ++ []) ++ [u8 c])).
  by rewrite <- !app_assoc, u8_byte by done.
Qed.
Lemma resume_plain f raw buf txt ch n : peek txt 1 = (ch, n) -> txt <> [] -> drop n txt <> [] -> Forall is_byte (take 1 txt) ->
  ch <> ending -> (noBackslash = false -> ch <> 92) ->
  exists buf', lazyData (raw ++ take n txt) buf' = lazyData raw buf ++ take n txt /\
    resume (S f) noBackslash ending raw buf txt = resume f noBackslash ending (raw ++ take n txt) buf' (drop n txt).
Proof.
  intros Hp Ht Hd Hby Hq Hb. exists (writeRune buf ch n). destruct txt as [|b txt]; [done|]. split.
  - destruct buf as [bf|]; [|done]. cbn [writeRune lazyData]. f_equal. pose proof (peek_width _ _ _ _ _ Hp) as [[-> ->]|[Hn _]].
    + one. inversion Hby; subst. change (1 <? 1)%nat with false. cbv iota. by rewrite u8_byte.
    + rewrite (proj2 (Nat.ltb_lt 1 n) Hn). pose proof (peek_many (b :: txt) 1) as Hm. rewrite Hp in Hm. cbn [fst snd] in Hm.
      by destruct Hm as (_ & _ & ? & _).
  - unfold resume at 1. rewrite Hp. cbn [scanLoop]. rewrite (proj2 (Z.eqb_neq ch ending)) by done.
    assert (Eb : (ch =? 92) && negb noBackslash = false)
      by (destruct noBackslash; [by rewrite andb_false_r|]; by rewrite (proj2 (Z.eqb_neq ch 92)) by auto).
    rewrite Eb. unfold resume. by rewrite (peek_arg (drop n (b :: txt)) n 1).
Qed.

Lemma escaped_cons c v : escaped code (c :: v) = match code c with Some (a, b) => [a; b] | None => [c] end ++ escaped code v.
Proof. done. Qed.

(** A character that is not escaped begins a rune of [n] such characters. *)
Lemma peek_escaped c v rest ch n : code c = None -> Forall is_byte (c :: v) ->
  peek (escaped code (c :: v) ++ ending :: rest) 1 = (ch, n) ->
  ch <> ending /\ (noBackslash = false -> ch <> 92) /\ (1 <= n <= length (c :: v))%nat /\
  take n (escaped code (c :: v) ++ ending :: rest) = take n (c :: v) /\
  drop n (escaped code (c :: v) ++ ending :: rest) = escaped code (drop n (c :: v)) ++ ending :: rest.
Proof.
  intros Ec Hv Hp. pose proof (Forall_inv Hv) as Hc. pose proof (code_undone c Hc) as Hu. rewrite Ec in Hu. destruct Hu as [Hq Hb].
  rewrite escaped_cons, Ec in *. cbn [app] in *. pose proof (peek_width _ _ _ _ _ Hp) as [[-> ->]|[Hn Hch]].
  { cbn [take drop length]. rewrite !take_0, drop_0. split_and!; try done; lia. }
  pose proof (peek_many (c :: escaped code v ++ ending :: rest) 1) as Hm. rewrite Hp in Hm. cbn [fst snd] in Hm.
  destruct Hm as (Hlen & _ & _ & Hhigh); [done|done|].
  destruct (escaped_high code noBackslash ending (c :: v) (ending :: rest) n) as (Hnv & Etake & Edrop); try done;
    try (rewrite escaped_cons, Ec; cbn [app]; done).
  { intros ? ? [= <- _]. lia. }
  rewrite escaped_cons, Ec in Etake, Edrop. cbn [app] in Etake, Edrop. split_and!; [lia|lia|lia|done|done|done].
Qed.

(** The lexer reads back what was escaped, up to the quote that ends it. *)
Lemma resume_escaped k : forall v raw buf rest fuel,
  (length v <= k)%nat -> Forall is_byte v -> (forall b t, rest = b :: t -> b <> ending) ->
  (length v < fuel)%nat ->
  resume fuel noBackslash ending raw buf (escaped code v ++ ending :: rest) = Some (lazyData raw buf ++ v, rest).
Proof.
  assert (HT : forall v rest, escaped code v ++ ending :: rest <> []) by (intros v rest E; by apply app_eq_nil in E as [_ ?]).
  induction k as [|k IH]; intros v raw buf rest fuel Hk Hv Hr Hf; (destruct fuel as [|fuel]; [lia|]);
    (destruct v as [|c v]; [rewrite app_nil_r; by apply resume_end|]); cbn [length] in Hk, Hf; [lia|].
  pose proof (Forall_inv Hv) as Hc. pose proof (Forall_inv_tail Hv) as Hv'. pose proof (code_undone c Hc) as Hu.
  destruct (code c) as [[a b]|] eqn:Ec.
  - rewrite escaped_cons, Ec, <- app_assoc. cbn [app]. destruct Hu as [(-> & -> & ->)|(Hnb & -> & Hb & He & _)].
    + rewrite resume_double, IH by (done || lia). cbn [lazyData]. by rewrite <- app_assoc.
    + erewrite resume_backslash, IH by (done || lia). cbn [lazyData]. by rewrite <- app_assoc.
  - destruct (peek (escaped code (c :: v) ++ ending :: rest) 1) as [ch n] eqn:Hp.
    destruct (peek_escaped c v rest ch n Ec Hv Hp) as (Hq & Hb & Hn & Et & Ed).
    destruct (resume_plain fuel raw buf _ ch n Hp) as (buf' & El & ->); [apply HT|rewrite Ed; apply HT| |done|done|].
    { rewrite escaped_cons, Ec. cbn [app]. one. constructor; [exact Hc|constructor]. }
    rewrite Ed, Et in *. rewrite IH; [|rewrite length_drop; cbn [length]; lia|by apply Forall_drop|done|rewrite length_drop; cbn [length] in *; lia].
    rewrite El, <- app_assoc, take_drop. done.
Qed.

Lemma escaped_length v : (length v <= length (escaped code v))%nat.
Proof. induction v as [|c v IH]; [done|]. rewrite escaped_cons, length_app. cbn [length]. destruct (code c) as [[]|]; cbn [length]; lia. Qed.
Lemma scanString_escaped v rest : Forall is_byte v -> (forall b t, rest = b :: t -> b <> ending) ->
  scanString noBackslash (ending :: escaped code v ++ ending :: rest) = Some (v, rest).
Proof.
  intros Hv Hr. pose proof (escaped_length v) as Hl. pose proof (resume_escaped (length v) v [] None rest) as Hs.
  unfold scanString. unfold resume in Hs. apply Hs; [done|done|done|]. rewrite length_app. cbn. lia.
Qed.
End scan.

(** ** Filling the buffer *)
Lemma writeAt_app pre x post b : writeAt (pre ++ x :: post) (length pre) b = Ok (pre ++ b :: post).
Proof.
  unfold writeAt. rewrite (proj2 (Nat.ltb_lt _ _)) by (rewrite length_app; cbn; lia).
  by rewrite insert_app_r_alt, Nat.sub_diag by done.
Qed.
(** With two bytes of room for each character no write is out of range, whatever
    the buffer held. *)
Lemma fillEscaped_room code v pre room : (2 * length v <= length room)%nat ->
  fillEscaped code v (pre ++ room) (length pre) = Ok (pre ++ escaped code v).
Proof.
  revert pre room. induction v as [|c v IH]; intros pre room Hl; cbn [fillEscaped].
  { unfold escaped. cbn. rewrite app_nil_r. by rewrite take_app_length. }
  destruct room as [|x [|y room]]; cbn [length] in Hl; [lia|lia|].
  rewrite escaped_cons. destruct (code c) as [[a b]|].
  - rewrite writeAt_app. cbn [mbind res_bind].
    pose proof (writeAt_app (pre ++ [a]) y room b) as Ew. rewrite length_app, <- !app_assoc in Ew. cbn [app length] in Ew. rewrite Ew. cbn [mbind res_bind].
    pose proof (IH (pre ++ [a; b]) room ltac:(lia)) as E. rewrite length_app, <- !app_assoc in E. exact E.
  - rewrite writeAt_app. cbn [mbind res_bind].
    pose proof (IH (pre ++ [c]) (y :: room) ltac:(cbn [length]; lia)) as E. rewrite length_app, <- !app_assoc in E. exact E.
Qed.
Lemma reserved buf spare n : exists room, reserveBuffer buf spare n = buf ++ room /\ (n <= length room)%nat.
Proof.
  unfold reserveBuffer. eexists. split; [reflexivity|]. destruct (Nat.ltb_spec (length spare) n); [rewrite length_replicate; lia|].
  rewrite length_take. lia.
Qed.
Lemma fill_reserved code spare buf v :
  fillEscaped code v (reserveBuffer buf spare (length v * 2)) (length buf) = Ok (buf ++ escaped code v).
Proof. destruct (reserved buf spare (length v * 2)) as (room & -> & Hl). apply fillEscaped_room. lia. Qed.

(** ** The ways of escaping *)
Lemma backslash_undone ending : ending = 39 \/ ending = 34 -> undone false ending backslashCode.
Proof.
  intros He c Hc. unfold backslashCode, is_byte in *.
  repeat match goal with |- context[?a =? ?b] => destruct (Z.eqb_spec a b) end; subst;
    try (right; split_and!; [done|done|lia|lia|reflexivity|lia]). split; [lia|done].
Qed.
Lemma quotes_undone : undone true 39 quoteCode.
Proof. intros c Hc. unfold quoteCode. destruct (Z.eqb_spec c 39); [by left|done]. Qed.

(** [ValueExpr.Restore] doubles both characters. *)
Definition restoreCode (c : Z) : option (Z * Z) := if c =? 92 then Some (92, 92) else quoteCode c.
Lemma restore_undone : undone false 39 restoreCode.
Proof.
  intros c Hc. unfold restoreCode, quoteCode. destruct (Z.eqb_spec c 92) as [->|]; [right; repeat split; lia|].
  destruct (Z.eqb_spec c 39); [by left|done].
Qed.
Lemma restoreString_escaped s : restoreString s = 39 :: escaped restoreCode s ++ [39].
Proof.
  unfold restoreString, WriteString, replace1, escaped. cbn [app]. do 2 f_equal.
  induction s as [|c s IH]; [done|]. cbn [mbind list_bind] in *. rewrite bind_app. f_equal; [|exact IH].
  unfold restoreCode, quoteCode. destruct (Z.eqb_spec c 92) as [->|]; [done|]. cbn [mbind list_bind]. by destruct (c =? 39).
Qed.

(** ** [Escape] and [Unescape] on runes *)
Definition utf8 (rs : list Z) : bytes := rs ≫= encodeRune.
Definition scalars (rs : list Z) : Prop := Forall (fun r => isScalar r = true) rs.

Definition escapeRunes (flag r next : Z) : list Z :=
  if r =? 10 then [92; 110] else if r =? 8 then [92; 98] else if r =? 9 then [92; 116] else if r =? 13 then [92; 114]
  else if r =? 92 then 92 :: (if flagged flag EscapeLike && ((next =? 37) || (next =? 95)) then [] else [92])
  else if r =? 39 then (if flagged flag EscapeSingleQuote then [92] else []) ++ [39]
  else if r =? 34 then (if flagged flag EscapeDoubleQuote then [92] else []) ++ [34]
  else [r].
Fixpoint escapeText (flag : Z) (rs : list Z) : list Z :=
  match rs with
  | [] => []
  | r :: rs' => escapeRunes flag r (default RuneError (head rs')) ++ escapeText flag rs'
  end.
Fixpoint unescapeText (ignores : list Z) (escape : bool) (rs : list Z) : list Z :=
  match rs with
  | [] => []
  | r :: rs' =>
    if r =? 92 then (if escape then [92] else []) ++ unescapeText ignores (negb escape) rs'
    else if escape then
      (if r =? 98 then [8] else if r =? 110 then [10] else if r =? 116 then [9] else if r =? 114 then [13]
       else if r =? 118 then [11] else (if (r =? 34) || (r =? 39) then [] else if existsb (Z.eqb r) ignores then [92] else []) ++ [r])
      ++ unescapeText ignores false rs'
    else r :: unescapeText ignores false rs'
  end.

Lemma utf8_cons r rs : utf8 (r :: rs) = encodeRune r ++ utf8 rs.
Proof. done. Qed.
Lemma utf8_app a b : utf8 (a ++ b) = utf8 a ++ utf8 b.
Proof. apply bind_app. Qed.
Lemma decode_utf8 r rs : isScalar r = true -> decodeRune (utf8 (r :: rs)) = (r, length (encodeRune r)) /\
  drop (length (encodeRune r)) (utf8 (r :: rs)) = utf8 rs.
Proof. intros Hr. rewrite utf8_cons, encode_decode_rune by done. by rewrite drop_app_length. Qed.
Lemma utf8_first rs : scalars rs -> fst (decodeRune (utf8 rs)) = default RuneError (head rs).
Proof. intros [|r rs' Hr Hs]; [done|]. by rewrite (proj1 (decode_utf8 r rs' Hr)). Qed.
Lemma utf8_shape r rs : exists b t, utf8 (r :: rs) = b :: t /\ (length (utf8 rs) <= length t)%nat.
Proof.
  rewrite utf8_cons. pose proof (encodeRune_ne r). destruct (encodeRune r) as [|b l]; [done|].
  exists b, (l ++ utf8 rs). split; [done|]. rewrite length_app. lia.
Qed.

Lemma escapeLoop_utf8 flag rs fuel : scalars rs -> (length (utf8 rs) <= fuel)%nat ->
  escapeLoop fuel flag (utf8 rs) = utf8 (escapeText flag rs).
Proof.
  intros Hs. revert fuel. induction Hs as [|r rs Hr Hs IH]; intros fuel Hf; [by destruct fuel|].
  destruct (utf8_shape r rs) as (b & t & E & Hl). rewrite E in Hf. cbn [length] in Hf. destruct fuel as [|fuel]; [lia|].
  destruct (decode_utf8 r rs Hr) as [Ed Er]. cbn [escapeLoop]. rewrite E in *. rewrite Ed, Er, (utf8_first rs Hs), IH by lia.
  cbn [escapeText]. rewrite utf8_app. f_equal. unfold escapeRune, escapeRunes.
  repeat match goal with |- context[if ?c then _ else _] => destruct c end; try reflexivity. cbn. by rewrite app_nil_r.
Qed.
Lemma unescapeLoop_utf8 ignores rs fuel e : scalars rs -> (length (utf8 rs) <= fuel)%nat ->
  unescapeLoop fuel ignores e (utf8 rs) = utf8 (unescapeText ignores e rs).
Proof.
  intros Hs. revert fuel e. induction Hs as [|r rs Hr Hs IH]; intros fuel e Hf; [by destruct fuel|].
  destruct (utf8_shape r rs) as (b & t & E & Hl). rewrite E in Hf. cbn [length] in Hf. destruct fuel as [|fuel]; [lia|].
  destruct (decode_utf8 r rs Hr) as [Ed Er]. cbn [unescapeLoop]. rewrite E in *. rewrite Ed, Er, !IH by lia. cbn [unescapeText].
  destruct (r =? 92); [rewrite utf8_app; by destruct e|]. destruct e; [|by rewrite utf8_cons]. rewrite utf8_app. f_equal. unfold unescapeRune.
  repeat match goal with |- context[?c =? ?d] => destruct (Z.eqb_spec c d); subst end; try reflexivity. cbn [orb].
  destruct (existsb _ _); cbn; by rewrite app_nil_r.
Qed.

(** Unescaping with the LIKE characters kept undoes escaping. *)
Lemma unescape_escape_text flag rs : unescapeText [37; 95] false (escapeText flag rs) = rs.
Proof.
  induction rs as [|r rs IH]; [done|]. cbn [escapeText]. unfold escapeRunes.
  destruct (Z.eqb_spec r 10) as [->|]; [cbn; by rewrite IH|]. destruct (Z.eqb_spec r 8) as [->|]; [cbn; by rewrite IH|].
  destruct (Z.eqb_spec r 9) as [->|]; [cbn; by rewrite IH|]. destruct (Z.eqb_spec r 13) as [->|]; [cbn; by rewrite IH|].
  destruct (Z.eqb_spec r 92) as [->|].
  - destruct (flagged flag EscapeLike && _) eqn:El; [|cbn; by rewrite IH].
    destruct rs as [|r2 rs]; [by destruct (flagged flag EscapeLike)|]. change (default RuneError (head (r2 :: rs))) with r2 in El |- *.
    apply andb_true_iff in El as [_ El]. apply orb_true_iff in El as [->%Z.eqb_eq| ->%Z.eqb_eq];
      cbn in IH |- *; injection IH as IH; by rewrite IH.
  - destruct (Z.eqb_spec r 39) as [->|]; [destruct (flagged flag EscapeSingleQuote); cbn; by rewrite IH|].
    destruct (Z.eqb_spec r 34) as [->|]; [destruct (flagged flag EscapeDoubleQuote); cbn; by rewrite IH|].
    cbn [app unescapeText]. rewrite (proj2 (Z.eqb_neq r 92)) by done. by rewrite IH.
Qed.
Lemma escapeText_scalars flag rs : scalars rs -> scalars (escapeText flag rs).
Proof.
  intros Hs. induction Hs as [|r rs Hr Hs IH]; [constructor|]. cbn [escapeText]. apply Forall_app. split; [|exact IH]. unfold escapeRunes.
  repeat match goal with |- context[if ?c then _ else _] => destruct c end; repeat (constructor; [done|]); constructor.
Qed.
Lemma unescape_plain ignores rs : ~ In 92 rs -> unescapeText ignores false rs = rs.
Proof.
  induction rs as [|r rs IH]; [done|]. cbn [In unescapeText]. intros Hn. rewrite (proj2 (Z.eqb_neq r 92)) by tauto. rewrite IH by tauto. done.
Qed.
Lemma utf8_backslash rs : In 92 rs -> existsb (Z.eqb 92) (utf8 rs) = true.
Proof.
  intros Hin. apply existsb_exists. exists 92. split; [|done]. unfold utf8. apply list_elem_of_In, list_elem_of_bind.
  exists 92. split; [|by apply list_elem_of_In]. change (encodeRune 92) with [92]. by apply list_elem_of_singleton.
Qed.

(** Escaping is undone: whatever quotes are escaped, [Unescape] with the two
    characters of LIKE patterns kept gives back any text in UTF-8 that [Escape]
    was given. *)
Theorem escape_roundtrip flag rs : scalars rs -> Unescape (Escape (utf8 rs) flag) [37; 95] = utf8 rs.
Proof.
  intros Hs. unfold Escape. rewrite escapeLoop_utf8 by done. unfold Unescape. pose proof (escapeText_scalars flag rs Hs) as Ht.
  destruct (existsb _ _) eqn:Eb; [rewrite unescapeLoop_utf8 by done; by rewrite unescape_escape_text|].
  f_equal. rewrite <- (unescape_escape_text flag rs) at 2. symmetry. apply unescape_plain. intros Hin%utf8_backslash. congruence.
Qed.
Lemma escape_roundtrip_witness :
  Unescape (Escape (utf8 [20320; 39; 92; 37; 10]) EscapeSingleQuote) [37; 95] = utf8 [20320; 39; 92; 37; 10].
Proof. apply escape_roundtrip. repeat (constructor; [reflexivity|]); constructor. Defined.

(** The flags are numbered 1, 2, 3 and tested as bits: the flag for quotes turns
    the treatment of LIKE patterns on, and the backslash of [\%] is lost. *)
Example quote_flag_is_like_flag : Unescape (Escape (bytes_of "\%") EscapeSingleQuote) [] = bytes_of "%".
Proof. vm_compute. reflexivity. Qed.

Lemma restoreString_quotes s : restoreString s = 39 :: escaped quoteCode (replace1 92 [92; 92] s) ++ [39].
Proof.
  unfold restoreString, WriteString, replace1 at 1, escaped. cbn [app]. do 2 f_equal.
  induction (replace1 92 [92; 92] s) as [|c t IH]; [done|]. cbn [mbind list_bind] in *. rewrite IH. f_equal.
  unfold quoteCode. destruct (Z.eqb_spec c 39); [by subst | done].
Qed.

Lemma doubled_bytes s : Forall is_byte s -> Forall is_byte (replace1 92 [92; 92] s).
Proof.
  induction 1 as [|c s Hc Hs IH]; [constructor|]. unfold replace1 in *. cbn [mbind list_bind]. apply Forall_app. split; [|exact IH].
  destruct (c =? 92); [|by apply Forall_singleton].
  apply Forall_cons. split; [unfold is_byte; lia|]. apply Forall_singleton. unfold is_byte. lia.
Qed.

(** Doubling lengthens a string unless it has no backslash. *)
Lemma doubled_same s : replace1 92 [92; 92] s = s <-> 92 ∉ s.
Proof.
  assert (Hlen : forall t : bytes, len t <= len (replace1 92 [92; 92] t)).
  { induction t as [|c t IH]; [done|]. unfold replace1 in *. cbn [mbind list_bind]. rewrite len_app. unfold len in *. destruct (c =? 92); cbn [length]; lia. }
  induction s as [|c s IH]; [split; [intros _; apply not_elem_of_nil | done]|].
  rewrite not_elem_of_cons, <- IH. unfold replace1 in *. cbn [mbind list_bind].
  destruct (Z.eqb_spec c 92) as [->|Hne]; cbn [app].
  - split; [|by intros [? _]]. intros E. apply (f_equal len) in E. specialize (Hlen s). unfold len in *. cbn [length] in E. lia.
  - split; [by intros [= E] | by intros [_ ->]].
Qed.

(** C40: What the text [ValueExpr.Restore] writes for a string value (in the
    default character set, or with the flags of the proxy, so that no
    introducer precedes it) means to the parser's lexer, for every string of
    bytes, followed by any text that does not begin with a quote (a following
    quote would be read as part of the literal).  Without NO_BACKSLASH_ESCAPES
    in the sql_mode the lexer reads exactly that string, and stops right after
    the closing quote; values cannot leave their literal.  Under
    NO_BACKSLASH_ESCAPES it also stops there, but since [Restore] doubles
    backslashes whatever the sql_mode, it reads the string with every backslash
    doubled: the value is kept exactly when it has no backslash. *)
Theorem restored_literal_read s rest : Forall is_byte s -> (forall b t, rest = b :: t -> b <> 39) ->
  scanString false (restoreString s ++ rest) = Some (s, rest) /\
  scanString true (restoreString s ++ rest) = Some (s ≫= (fun c => if c =? 92 then [92; 92] else [c]), rest) /\
  (scanString true (restoreString s ++ rest) = Some (s, rest) <-> 92 ∉ s).
Proof.
  intros Hs Hr.
  assert (Ht : scanString true (restoreString s ++ rest) = Some (replace1 92 [92; 92] s, rest)).
  { rewrite restoreString_quotes. cbn [app]. rewrite <- app_assoc. cbn [app].
    apply scanString_escaped; [apply quotes_undone | lia | lia | by apply doubled_bytes | done]. }
  split; [|split; [exact Ht|]].
  - rewrite restoreString_escaped. cbn [app]. rewrite <- app_assoc. cbn [app].
    apply scanString_escaped; [apply restore_undone|lia|lia|done|done].
  - rewrite Ht, <- doubled_same. split; congruence.
Qed.
Lemma restored_literal_read_witness :
  scanString false (restoreString (bytes_of "O'Neil\ %_") ++ bytes_of ", 2)") = Some (bytes_of "O'Neil\ %_", bytes_of ", 2)") /\
  scanString true (restoreString (bytes_of "O'Neil\ %_") ++ bytes_of ", 2)") = Some (bytes_of "O'Neil\\ %_", bytes_of ", 2)").
Proof.
  destruct (restored_literal_read (bytes_of "O'Neil\ %_") (bytes_of ", 2)")) as (H1 & H2 & _);
    [apply (bool_decide_unpack _); vm_compute; reflexivity | intros b t [= <- _]; discriminate | split; [exact H1 | exact H2]].
Defined.

(** Bytes are written without doubling the backslashes: this literal never ends. *)
Example restored_bytes_open : scanString false (restoreBytes (bytes_of "a\") ++ bytes_of ")") = None.
Proof. vm_compute. reflexivity. Qed.

(** Values cannot leave their quotes: what [escapeBytesBackslash] appends to a
    buffer, whatever its array held before, is read by the lexer between two
    single or double quotes as the value, and so is what [escapeBytesQuotes]
    appends when backslashes do not escape; neither writes out of its buffer. *)
Theorem escaped_value_read spare buf v rest quote : Forall is_byte v ->
  (quote = 39 \/ quote = 34) -> (forall b t, rest = b :: t -> b <> quote) ->
  (exists t, escapeBytesBackslash spare buf v = Ok (buf ++ t) /\
     scanString false (quote :: t ++ quote :: rest) = Some (v, rest)) /\
  (quote = 39 -> exists t, escapeBytesQuotes spare buf v = Ok (buf ++ t) /\
     scanString true (quote :: t ++ quote :: rest) = Some (v, rest)).
Proof.
  intros Hv Hq Hr. split; [|intros ->]; eexists; (split; [apply fill_reserved|]);
    (apply scanString_escaped; [|lia|lia|done|done]); [by apply backslash_undone|apply quotes_undone].
Qed.
Lemma escaped_value_read_witness :
  exists t, escapeBytesBackslash [7; 7; 7] (bytes_of "x=") (bytes_of "' OR 1=1") = Ok (bytes_of "x=" ++ t) /\
    scanString false (39 :: t ++ [39]) = Some (bytes_of "' OR 1=1", []).
Proof.
  apply (escaped_value_read [7; 7; 7] (bytes_of "x=") (bytes_of "' OR 1=1") [] 39);
    [apply (bool_decide_unpack _); vm_compute; reflexivity|by left|discriminate].
Defined.
