(* ===== verification/Layout.v ===== *)
(** * Packet layouts: what the writers of [pkg/misc/encoding.go] store and what
    its readers return, as interfaces

    A packet is built by a sequence of writers, each storing at a position and
    returning the next one, and taken apart by a sequence of readers.
    [Writes w e] says that [w] stores exactly the bytes [e]; [Reads r e v] says
    that [r] at the start of the bytes [e], wherever they stand in a buffer,
    returns [v] and the position after them.  The packets of the other files
    are proved against these two classes only. *)
From Stdlib Require Import ZArith Lia List.
From stdpp Require Import base list.
From S2P Require Import Prelude Encoding.

Local Open Scope Z_scope.

Definition writer : Type := bytes -> Z -> res (bytes * Z).

(** [pos = w1(data, pos); pos = w2(data, pos); ...] *)
Fixpoint writeAll (ws : list writer) : writer := fun data pos =>
  match ws with
  | [] => Ok (data, pos)
  | w :: ws' => '(d, p) ← w data pos; writeAll ws' d p
  end.

Class Writes (w : writer) (e : bytes) : Prop :=
  writes : forall data pos, 0 <= pos -> pos + len e <= len data ->
    w data pos = Ok (splice data pos e, pos + len e).

Class Reads {A} (r : bytes -> Z -> reader A) (e : bytes) (v : A) : Prop :=
  reads : forall pre post, len (pre ++ e ++ post) < two63 ->
    r (pre ++ e ++ post) (len pre) = Ok (Some (v, len pre + len e)).

(** ** Sequences of writers *)
Lemma splice_nil data pos : splice data pos [] = data.
Proof. unfold splice. cbn. by rewrite Nat.add_0_r, take_drop. Qed.

#[export] Instance Writes_nil : Writes (writeAll []) [].
Proof. intros data pos Hp Hl. cbn. rewrite splice_nil, Z.add_0_r. done. Qed.

#[export] Instance Writes_cons w ws e es :
  Writes w e -> Writes (writeAll ws) es -> Writes (writeAll (w :: ws)) (e ++ es).
Proof.
  intros Hw Hws data pos Hp Hl. rewrite len_app in *. pose proof (len_nonneg e).
  pose proof (len_nonneg es). cbn [writeAll].
  rewrite Hw by lia. cbn [mbind res_bind].
  rewrite Hws by (rewrite ?splice_len; lia).
  rewrite splice_splice by lia. do 2 f_equal. lia.
Qed.

(** Writing a layout into a buffer of exactly its length fills the buffer. *)
Lemma Writes_fill w e data :
  Writes w e -> len data = len e -> w data 0 = Ok (e, len e).
Proof.
  intros Hw Hl. rewrite Hw by lia. do 2 f_equal.
  unfold splice, len in *. cbn [Z.to_nat take app plus]. rewrite drop_ge by lia. apply app_nil_r.
Qed.

(** ** The writers *)
#[export] Instance Writes_Byte v : Writes (fun d p => WriteByte d p v) [v].
Proof.
  intros data pos Hp Hl. change (len [v]) with 1 in *. unfold WriteByte.
  rewrite set_splice by lia. done.
Qed.

Lemma Writes_store n bs :
  len bs = n -> Writes (fun d p => d' ← storeAll d p bs; Ok (d', p + n)) bs.
Proof. intros <- data pos Hp Hl. rewrite storeAll_splice by done. done. Qed.

#[export] Instance Writes_Uint16 v : Writes (fun d p => WriteUint16 d p v) (le 2 v).
Proof. apply (Writes_store 2); apply le_length. Qed.
#[export] Instance Writes_Uint32 v : Writes (fun d p => WriteUint32 d p v) (le 4 v).
Proof. apply (Writes_store 4); apply le_length. Qed.
#[export] Instance Writes_Uint64 v : Writes (fun d p => WriteUint64 d p v) (le 8 v).
Proof. apply (Writes_store 8); apply le_length. Qed.

#[export] Instance Writes_Zeroes n :
  Writes (fun d p => WriteZeroes d p (Z.of_nat n)) (replicate n 0).
Proof.
  intros data pos Hp Hl. unfold WriteZeroes. rewrite Nat2Z.id.
  rewrite storeAll_splice by done. cbn. do 2 f_equal. unfold len. by rewrite length_replicate.
Qed.

#[export] Instance Writes_LenEncInt v : Writes (fun d p => WriteLenEncInt d p v) (lenenc v).
Proof.
  intros data pos Hp Hl. rewrite lenenc_len in *. by apply WriteLenEncInt_splice.
Qed.

#[export] Instance Writes_EOFString s : Writes (fun d p => WriteEOFString d p s) s.
Proof. intros data pos Hp Hl. unfold WriteEOFString. by rewrite copyAt_splice. Qed.

#[export] Instance Writes_NullString s : Writes (fun d p => WriteNullString d p s) (s ++ [0]).
Proof.
  intros data pos Hp Hl. rewrite len_app in *. change (len [0]) with 1 in *.
  pose proof (len_nonneg s). unfold WriteNullString.
  rewrite copyAt_splice by lia. cbn [mbind res_bind].
  rewrite set_splice by (rewrite splice_len; lia). cbn [mbind res_bind].
  rewrite splice_splice by (change (len [0]) with 1; lia). do 2 f_equal. lia.
Qed.

(** The encoding of a length-encoded string. *)
Definition lenencString (s : bytes) : bytes := lenenc (len s) ++ s.

Lemma lenencString_len s : len (lenencString s) = LenEncStringSize s.
Proof. unfold lenencString. by rewrite len_app, lenenc_len. Qed.

Lemma Writes_LenEncString s :
  len s < two63 -> Writes (fun d p => WriteLenEncString d p s) (lenencString s).
Proof.
  intros Hs. pose proof (len_nonneg s). unfold WriteLenEncString.
  rewrite u64_id by (unfold_width; lia). intros data pos Hp Hl.
  unfold lenencString in *. rewrite len_app in *. pose proof (len_nonneg (lenenc (len s))).
  rewrite (writes (w := fun d p => WriteLenEncInt d p (len s))) by lia.
  cbn [mbind res_bind].
  rewrite (writes (w := fun d p => WriteEOFString d p s)) by (rewrite ?splice_len; lia).
  rewrite splice_splice by lia. do 2 f_equal. lia.
Qed.
#[export] Hint Extern 1 (Writes (fun d p => WriteLenEncString d p _) _) =>
  apply Writes_LenEncString; (assumption || lia) : typeclass_instances.

(** [pos += copy(data[pos:], s)] *)
Definition writeCopy (s : bytes) : writer := fun data pos =>
  '(d, n) ← copyAt data pos s; Ok (d, pos + n).

#[export] Instance Writes_copy s : Writes (writeCopy s) s.
Proof. intros data pos Hp Hl. unfold writeCopy. by rewrite copyAt_splice. Qed.

(** ** The readers *)
Lemma app_splice pre e post : pre ++ e ++ post = splice (pre ++ e ++ post) (len pre) e.
Proof.
  unfold splice, len. rewrite Nat2Z.id. rewrite take_app_length. do 2 f_equal.
  rewrite drop_app_ge by lia. rewrite drop_app_ge by lia.
  by replace (length pre + length e - length pre - length e)%nat with O by lia.
Qed.

Lemma app3_room (pre e post : bytes) :
  0 <= len pre /\ len pre + len e <= len (pre ++ e ++ post).
Proof.
  pose proof (len_nonneg pre); pose proof (len_nonneg post). rewrite !len_app. lia.
Qed.

(** Reading at a splice is enough. *)
Lemma Reads_splice {A} (r : bytes -> Z -> reader A) e v :
  (forall data pos, 0 <= pos -> pos + len e <= len data -> len data < two63 ->
     r (splice data pos e) pos = Ok (Some (v, pos + len e))) ->
  Reads r e v.
Proof.
  intros H pre post Hlen. destruct (app3_room pre e post).
  rewrite (app_splice pre e post) at 1. by apply H.
Qed.

#[export] Instance Reads_Byte v : Reads ReadByte [v] v.
Proof.
  apply Reads_splice. intros data pos Hp Hl _. change (len [v]) with 1 in *. unfold ReadByte.
  rewrite splice_len by done. destruct (Z.leb_spec (len data) pos); [lia|].
  by rewrite get_splice.
Qed.

Lemma Reads_uint n v :
  (0 < n)%nat -> 0 <= v < 2 ^ (8 * Z.of_nat n) -> Reads (readUint (Z.of_nat n)) (le n v) v.
Proof.
  intros Hn Hv. apply Reads_splice. intros data pos Hp Hl _. rewrite le_length in *.
  rewrite readUint_splice by done. by rewrite Z.mod_small.
Qed.

Lemma Reads_Uint16 v : 0 <= v < 65536 -> Reads ReadUint16 (le 2 v) v.
Proof. intros; apply (Reads_uint 2); [lia | done]. Qed.
Lemma Reads_Uint32 v : 0 <= v < 4294967296 -> Reads ReadUint32 (le 4 v) v.
Proof. intros; apply (Reads_uint 4); [lia | done]. Qed.
Lemma Reads_Uint64 v : in_u64 v -> Reads ReadUint64 (le 8 v) v.
Proof. intros; apply (Reads_uint 8); [lia | done]. Qed.

Lemma Reads_LenEncInt v : in_u64 v -> Reads ReadLenEncInt (lenenc v) v.
Proof.
  intros Hv. apply Reads_splice. intros data pos Hp Hl _. rewrite lenenc_len in *.
  pose proof (ReadLenEncInt_splice data pos v [] Hv Hp) as R.
  rewrite app_nil_r, lenenc_len in R. by apply R.
Qed.

(** A slice of the middle of a buffer. *)
Lemma slice_mid pre e post : slice (pre ++ e ++ post) (len pre) (len pre + len e) = Ok e.
Proof.
  destruct (app3_room pre e post). rewrite (app_splice pre e post) at 1. by apply slice_splice.
Qed.

#[export] Instance Reads_LenEncString s : Reads ReadLenEncString (lenencString s) s.
Proof.
  intros pre post Hlen. pose proof (len_nonneg s); pose proof (len_nonneg pre).
  pose proof (len_nonneg post). unfold lenencString in *. rewrite <- app_assoc in *.
  pose proof (len_nonneg (lenenc (len s))).
  assert (Hu : len pre + len (lenenc (len s)) + len s + len post < two63)
    by (rewrite !len_app in Hlen; lia).
  unfold ReadLenEncString, ReadLenEncStringAsBytes.
  rewrite (reads (Reads := Reads_LenEncInt (len s) ltac:(unfold_width; lia))) by done.
  cbn [mbind res_bind]. rewrite !i64_id by (rewrite ?i64_id; unfold_width; lia).
  destruct (Z.leb_spec (len (pre ++ lenenc (len s) ++ s ++ post))
              (len pre + len (lenenc (len s)) + len s - 1)) as [H'|_].
  { rewrite !len_app in H'. lia. }
  pose proof (slice_mid (pre ++ lenenc (len s)) s post) as E.
  rewrite <- app_assoc, len_app in E. rewrite E. cbn. rewrite len_app. do 3 f_equal. lia.
Qed.

Lemma Reads_Bytes n s : len s = n -> Reads (fun d p => ReadBytes d p n) s s.
Proof.
  intros <- pre post Hlen. pose proof (len_nonneg s); pose proof (len_nonneg pre).
  pose proof (len_nonneg post). unfold ReadBytes.
  assert (len pre + len s + len post < two63) by (rewrite !len_app in Hlen; lia).
  rewrite !i64_id by (unfold_width; lia).
  destruct (Z.leb_spec (len (pre ++ s ++ post)) (len pre + len s - 1)) as [H'|_].
  { rewrite !len_app in H'. lia. }
  by rewrite slice_mid.
Qed.

Lemma Reads_NullString s : ~ In 0 s -> Reads ReadNullString (s ++ [0]) s.
Proof.
  intros Hs pre post Hlen. unfold ReadNullString.
  assert (Hsl : slice (pre ++ (s ++ [0]) ++ post) (len pre) (len (pre ++ (s ++ [0]) ++ post)) =
                Ok ((s ++ [0]) ++ post)).
  { pose proof (slice_mid pre ((s ++ [0]) ++ post) []) as E.
    rewrite app_nil_r in E. by rewrite !len_app in *. }
  rewrite Hsl. cbn [mbind res_bind]. rewrite <- app_assoc. cbn [app].
  rewrite IndexByte_app by done. rewrite take_app_length.
  do 3 f_equal. rewrite len_app. unfold len. cbn. lia.
Qed.
