(* ===== verification/Conn.v ===== *)
(** * MySQL connections: [pkg/mysql/conn.go]

    A connection keeps the sequence number of the next packet, the bytes of
    the peer that were not read yet, the bytes it sent, the buffered writer
    and the ephemeral buffer with its policy.  Operations run in the monad
    [M]: they return a value, an error or a panic, and the connection they
    leave behind in each of these cases, because deferred calls and callers
    that recover see it.

    Reads past the end of the stream fail with io.EOF or an unexpected EOF, as
    [io.ReadFull] does; [accepts] is the number of further [Write] calls the
    network takes before it fails, [broken] what [connCheck] reports.  The
    direct reads of the handshake happen before anything was buffered, so one
    stream serves both readers.  Deadlines do not change what is transferred
    and are left out. *)
From Stdlib Require Import ZArith Lia List.
From stdpp Require Import base list strings.
From S2P Require Import Prelude Encoding.

Local Open Scope Z_scope.

Definition MaxPacketSize : Z := 16777215.
Definition connBufferSize : Z := 16384.
Definition ServerStatusAutocommit : Z := 2.

Inductive ephemeral := ephemeralUnused | ephemeralWrite | ephemeralRead.

(** [bufio.Writer]: what is buffered and the sticky error. *)
Record bufWriter := mkWriter { buf : bytes; werr : option string }.

Record conn := mk {
  sequence : Z;
  rd : bytes;
  wr : bytes;
  accepts : nat;
  broken : option string;
  bufferedWriter : option bufWriter;
  policy : ephemeral;
  buffer : option bytes;
  statusFlags : Z }.

Definition NewConn (stream : bytes) (n : nat) : conn :=
  mk 0 stream [] n None None ephemeralUnused None ServerStatusAutocommit.

Definition set_sequence s c := mk s (rd c) (wr c) (accepts c) (broken c) (bufferedWriter c) (policy c) (buffer c) (statusFlags c).
Definition set_rd r c := mk (sequence c) r (wr c) (accepts c) (broken c) (bufferedWriter c) (policy c) (buffer c) (statusFlags c).
Definition set_wr w n c := mk (sequence c) (rd c) w n (broken c) (bufferedWriter c) (policy c) (buffer c) (statusFlags c).
Definition set_writer w c := mk (sequence c) (rd c) (wr c) (accepts c) (broken c) w (policy c) (buffer c) (statusFlags c).
Definition set_ephemeral p b c := mk (sequence c) (rd c) (wr c) (accepts c) (broken c) (bufferedWriter c) p b (statusFlags c).

(** ** The monad of connection operations *)
Definition M (A : Type) : Type := conn -> res A * conn.

#[export] Instance M_ret : MRet M := fun A a c => (Ok a, c).
#[export] Instance M_bind : MBind M := fun A B f m c =>
  match m c with
  | (Ok a, c') => f a c'
  | (Err e, c') => (Err e, c')
  | (Panic, c') => (Panic, c')
  end.

Definition raise {A} (e : string) : M A := fun c => (Err e, c).
Definition panic {A} : M A := fun c => (Panic, c).
Definition lift {A} (r : res A) : M A := fun c => (r, c).
Definition gets {A} (f : conn -> A) : M A := fun c => (Ok (f c), c).
Definition modify (f : conn -> conn) : M unit := fun c => (Ok tt, f c).

(** Replace the error of [m]: [errors.Wrapf], [NewSQLError(..., err)]. *)
Definition wrapErr {A} (f : string -> string) (m : M A) : M A := fun c =>
  match m c with (Err e, c') => (Err (f e), c') | rc => rc end.

(** [defer d; m]: [d] runs whatever [m] did; a panic of [d] replaces the
    result of [m]. *)
Definition deferred {A} (d : M unit) (m : M A) : M A := fun c =>
  let '(r, c') := m c in
  match d c' with
  | (Panic, c'') => (Panic, c'')
  | (_, c'') => (r, c'')
  end.

(** ** Reading *)
Definition io_EOF : string := "EOF".
Definition io_ErrUnexpectedEOF : string := "unexpected EOF".

(** [io.ReadFull] of [n] bytes. *)
Definition ReadFull (n : nat) : M bytes := fun c =>
  if (n <=? length (rd c))%nat then (Ok (take n (rd c)), set_rd (drop n (rd c)) c)
  else (Err (match rd c with [] => io_EOF | _ => io_ErrUnexpectedEOF end), set_rd [] c).

Definition ResetSequence : M unit := modify (set_sequence 0).

Definition readHeaderFrom : M Z :=
  header ← wrapErr (fun e => if (e =? io_EOF)%string then e
                             else "io.ReadFull(header size) failed: " +:+ e)
             (ReadFull 4);
  seq ← gets sequence;
  match header with
  | [h0; h1; h2; s] =>
    if s =? seq then
      _ ← modify (set_sequence (u8 (seq + 1)));
      mret (unle [h0; h1; h2])
    else raise "invalid Sequence"
  | _ => panic
  end.

Definition readBody (length : Z) : M bytes :=
  wrapErr (fun e => "io.ReadFull(packet body) failed: " +:+ e) (ReadFull (Z.to_nat length)).

Definition ReadOnePacket : M bytes :=
  length ← readHeaderFrom;
  if length =? 0 then mret [] else readBody length.

(** The loop that reads the continuation packets; every turn takes four bytes
    at least off the stream. *)
Fixpoint readMore (fuel : nat) (data : bytes) : M bytes :=
  match fuel with
  | O => panic
  | S f =>
    next ← ReadOnePacket;
    if len next =? 0 then mret data
    else
      let data' := data ++ next in
      if len next <? MaxPacketSize then mret data' else readMore f data'
  end.

Definition readContinuation (data : bytes) : M bytes := fun c =>
  readMore (S (length (rd c))) data c.

Definition ReadPacket : M bytes :=
  data ← ReadOnePacket;
  if len data <? MaxPacketSize then mret data else readContinuation data.

Definition ReadEphemeralPacket : M bytes :=
  p ← gets policy;
  match p with
  | ephemeralUnused =>
    length ← readHeaderFrom;
    _ ← modify (fun c => set_ephemeral ephemeralRead (buffer c) c);
    if length =? 0 then mret []
    else if length <? MaxPacketSize then
      (* The buffer of the pool is taken before the body is read into it. *)
      _ ← modify (set_ephemeral ephemeralRead (Some []));
      data ← readBody length;
      _ ← modify (set_ephemeral ephemeralRead (Some data));
      mret data
    else
      data ← readBody length;
      readContinuation data
  | _ => panic
  end.

Definition ReadEphemeralPacketDirect : M bytes :=
  p ← gets policy;
  match p with
  | ephemeralUnused =>
    length ← readHeaderFrom;
    _ ← modify (fun c => set_ephemeral ephemeralRead (buffer c) c);
    if length =? 0 then mret []
    else if length <? MaxPacketSize then
      _ ← modify (set_ephemeral ephemeralRead (Some []));
      data ← readBody length;
      _ ← modify (set_ephemeral ephemeralRead (Some data));
      mret data
    else raise "ReadEphemeralPacketDirect doesn't support more than one packet"
  | _ => panic
  end.

Definition RecycleReadPacket : M unit :=
  p ← gets policy;
  match p with
  | ephemeralRead => modify (set_ephemeral ephemeralUnused None)
  | _ => panic
  end.

(** ** Writing *)

(** [net.Conn.Write]. *)
Definition netWrite (p : bytes) : M unit := fun c =>
  match accepts c with
  | O => (Err "write: broken pipe", c)
  | S n => (Ok tt, set_wr (wr c ++ p) n c)
  end.

(** [bufio.Writer.Flush]. *)
Definition flush : M unit := fun c =>
  match bufferedWriter c with
  | None => (Ok tt, c)
  | Some w =>
    match werr w with
    | Some e => (Err e, c)
    | None =>
      match buf w with
      | [] => (Ok tt, c)
      | b =>
        match netWrite b c with
        | (Ok _, c') => (Ok tt, set_writer (Some (mkWriter [] None)) c')
        | (Err e, c') => (Err e, set_writer (Some (mkWriter b (Some e))) c')
        | (Panic, c') => (Panic, c')
        end
      end
    end
  end.

(** A write of the buffered writer past its empty buffer keeps the error. *)
Definition bypass (p : bytes) : M unit := fun c =>
  match netWrite p c with
  | (Err e, c') => (Err e, set_writer (Some (mkWriter [] (Some e))) c')
  | rc => rc
  end.

(** [bufio.Writer.Write] past the room of the buffer: an empty buffer is
    bypassed, otherwise it is filled and flushed and the rest goes to the
    network or the buffer. *)
Definition bufWriteLarge (w : bufWriter) (p : bytes) : M unit :=
  match buf w with
  | [] => bypass p
  | _ =>
    let n := Z.to_nat (connBufferSize - len (buf w)) in
    _ ← modify (set_writer (Some (mkWriter (buf w ++ take n p) None)));
    _ ← flush;
    let rest := drop n p in
    if connBufferSize <? len rest then bypass rest
    else modify (set_writer (Some (mkWriter rest None)))
  end.

(** [w.Write(p)] for the writer [getWriter] returned. *)
Definition write (p : bytes) : M unit := fun c =>
  match bufferedWriter c with
  | None => netWrite p c
  | Some w =>
    match werr w with
    | Some e => (Err e, c)
    | None =>
      if len (buf w) + len p <=? connBufferSize
      then (Ok tt, set_writer (Some (mkWriter (buf w ++ p) None)) c)
      else bufWriteLarge w p c
    end
  end.

Definition StartWriterBuffering : M unit := modify (set_writer (Some (mkWriter [] None))).

Definition EndWriterBuffering : M unit := fun c =>
  match bufferedWriter c with
  | None => (Ok tt, c)
  | Some _ => let '(r, c') := flush c in (r, set_writer None c')
  end.

(** The flush timer fires: errors of the flush are dropped. *)
Definition flushTimer : M unit := fun c => let '(_, c') := flush c in (Ok tt, c').

(** [connCheck(c.conn)] *)
Definition connCheck : M unit := fun c =>
  match broken c with Some e => (Err e, c) | None => (Ok tt, c) end.

Definition header (length seq : Z) : bytes := le 3 length ++ [seq].

Definition writeHeader (what : string) (length : Z) : M unit :=
  seq ← gets sequence;
  wrapErr (fun e => what +:+ e) (write (header length seq)).

Definition nextSequence : M unit := modify (fun c => set_sequence (u8 (sequence c + 1)) c).

(** The loop of [WritePacket]; [data] is what is left from [index] on. *)
Fixpoint writeChunks (fuel : nat) (data : bytes) : M unit :=
  match fuel with
  | O => panic
  | S f =>
    let packetLength := Z.min (len data) MaxPacketSize in
    _ ← writeHeader "Write(header) failed: " packetLength;
    _ ← wrapErr (fun e => "Write(packet) failed: " +:+ e) (write (take (Z.to_nat packetLength) data));
    _ ← nextSequence;
    if len data - packetLength =? 0 then
      if packetLength =? MaxPacketSize then
        _ ← writeHeader "Write(empty header) failed: " 0;
        nextSequence
      else mret tt
    else writeChunks f (drop (Z.to_nat packetLength) data)
  end.

Definition WritePacket (data : bytes) : M unit :=
  _ ← connCheck;
  writeChunks (S (length data)) data.

(** [bufPool.Get(length)] hands out a recycled buffer: its content, [stale],
    is whatever was left there. *)
Definition StartEphemeralPacket (stale : bytes) : M bytes :=
  p ← gets policy;
  match p with
  | ephemeralUnused =>
    _ ← modify (set_ephemeral ephemeralWrite (Some stale));
    mret stale
  | _ => panic
  end.

Definition RecycleWritePacket : M unit :=
  p ← gets policy;
  match p with
  | ephemeralWrite => modify (set_ephemeral ephemeralUnused None)
  | _ => panic
  end.

Definition WriteEphemeralPacket : M unit :=
  deferred RecycleWritePacket
    (p ← gets policy;
     match p with
     | ephemeralWrite =>
       b ← gets buffer;
       match b with
       | Some data => wrapErr (fun e => "conn: " +:+ e) (WritePacket data)
       | None => panic
       end
     | _ => panic
     end).

(** The stores of the caller into the slice [StartEphemeralPacket] returned go
    to the ephemeral buffer. *)
Definition fillBuffer (data : bytes) : M unit := modify (set_ephemeral ephemeralWrite (Some data)).

(** ** The framing of packets *)

(** What the protocol puts on the wire for a payload, starting at a sequence
    number: full packets of [MaxPacketSize] bytes and a shorter last one,
    possibly empty; and the sequence number afterwards. *)
Inductive framed : Z -> bytes -> bytes -> Z -> Prop :=
| framed_last seq data :
    len data < MaxPacketSize ->
    framed seq data (header (len data) seq ++ data) (u8 (seq + 1))
| framed_more seq chunk data out seq' :
    len chunk = MaxPacketSize ->
    framed (u8 (seq + 1)) data out seq' ->
    framed seq (chunk ++ data) (header MaxPacketSize seq ++ chunk ++ out) seq'.

(** Everything handed to the network or to the buffered writer, in order. *)
Definition sent (c : conn) : bytes :=
  wr c ++ match bufferedWriter c with Some w => buf w | None => [] end.

(** What a write leaves alone. *)
Definition same_reader (c c' : conn) : Prop :=
  rd c' = rd c /\ policy c' = policy c /\ buffer c' = buffer c /\
  statusFlags c' = statusFlags c /\ broken c' = broken c.

Lemma same_reader_refl c : same_reader c c.
Proof. done. Qed.
Lemma same_reader_trans a b c : same_reader a b -> same_reader b c -> same_reader a c.
Proof. unfold same_reader. intuition congruence. Qed.
#[export] Hint Resolve same_reader_refl : dbpack.

Lemma bind_M_Ok {A B} (m : M A) (f : A -> M B) c b c' :
  (m ≫= f) c = (Ok b, c') <-> exists a c1, m c = (Ok a, c1) /\ f a c1 = (Ok b, c').
Proof.
  unfold mbind, M_bind. split.
  - destruct (m c) as [[a|e|] c1]; [eauto | done | done].
  - by intros (a & c1 & -> & ?).
Qed.

Lemma bind_M_run {A B} (m : M A) (f : A -> M B) c a c1 :
  m c = (Ok a, c1) -> (m ≫= f) c = f a c1.
Proof. unfold mbind, M_bind. by intros ->. Qed.

Lemma wrapErr_Ok {A} f (m : M A) c a c' :
  wrapErr f m c = (Ok a, c') <-> m c = (Ok a, c').
Proof. unfold wrapErr. destruct (m c) as [[?|?|] ?]; split; congruence. Qed.

Lemma netWrite_sent p c c' :
  netWrite p c = (Ok tt, c') ->
  wr c' = wr c ++ p /\ bufferedWriter c' = bufferedWriter c /\
  sequence c' = sequence c /\ same_reader c c'.
Proof. unfold netWrite. destruct (accepts c); [done|]. by intros [= <-]. Qed.

Lemma flush_sent c c' :
  flush c = (Ok tt, c') ->
  sent c' = sent c /\ sequence c' = sequence c /\ same_reader c c' /\
  match bufferedWriter c with
  | None => bufferedWriter c' = None
  | Some _ => bufferedWriter c' = Some (mkWriter [] None)
  end.
Proof.
  unfold flush, sent. destruct (bufferedWriter c) as [[b [e|]]|] eqn:Hw; cbn; try done.
  - destruct b as [|z b]; [intros [= <-]; by rewrite Hw|].
    destruct (netWrite (z :: b) c) as [[[]|e|] c1] eqn:E; [|done..].
    apply netWrite_sent in E as (Ewr & _ & Es & Er). intros [= <-]. cbn.
    rewrite Ewr, app_nil_r. done.
  - intros [= <-]. by rewrite Hw.
Qed.

Lemma bypass_sent p c c' :
  bypass p c = (Ok tt, c') ->
  wr c' = wr c ++ p /\ bufferedWriter c' = bufferedWriter c /\
  sequence c' = sequence c /\ same_reader c c'.
Proof.
  unfold bypass. destruct (netWrite p c) as [[[]|e|] c1] eqn:E; [|done..].
  intros [= <-]. by apply netWrite_sent.
Qed.

(** A successful write hands over exactly its bytes, buffered or not. *)
Lemma write_sent p c c' :
  write p c = (Ok tt, c') ->
  sent c' = sent c ++ p /\ sequence c' = sequence c /\ same_reader c c'.
Proof.
  unfold write, sent. destruct (bufferedWriter c) as [[b [e|]]|] eqn:Hw; cbn; try done.
  - destruct (_ <=? _) eqn:Hfit; [intros [= <-]; cbn; by rewrite app_assoc|].
    unfold bufWriteLarge. cbn. destruct b as [|z b].
    + intros (E & Eb & Es & Er)%bypass_sent. rewrite E, Eb, Hw. cbn. by rewrite !app_nil_r.
    + set (n := Z.to_nat _).
      intros (? & c1 & [= <- <-] & (? & c2 & E & H)%bind_M_Ok)%bind_M_Ok.
      destruct x. apply flush_sent in E as (E & Es & Er & Hb). cbn in Hb, Es.
      unfold sent in E. rewrite Hb in E. cbn in E. rewrite app_nil_r in E.
      destruct (connBufferSize <? _).
      * apply bypass_sent in H as (E' & Eb' & Es' & Er'). rewrite E', E, Eb', Hb. cbn.
        change (z :: b ++ take n p) with ((z :: b) ++ take n p).
        rewrite app_nil_r, <- !app_assoc, take_drop.
        split; [done|]. split; [congruence | by eapply same_reader_trans].
      * injection H as <-. cbn. rewrite E.
        change (z :: b ++ take n p) with ((z :: b) ++ take n p).
        by rewrite <- !app_assoc, take_drop.
  - intros (E & Eb & Es & Er)%netWrite_sent. rewrite E, Eb, Hw. by rewrite !app_nil_r.
Qed.

Lemma write_bind_Ok p (k : M unit) f c c' :
  (_ ← wrapErr f (write p); k) c = (Ok tt, c') ->
  exists c1, k c1 = (Ok tt, c') /\
    sent c1 = sent c ++ p /\ sequence c1 = sequence c /\ same_reader c c1.
Proof.
  intros ([] & c1 & Hw%wrapErr_Ok & Hk)%bind_M_Ok. exists c1. by apply write_sent in Hw.
Qed.

Lemma writeHeader_bind_Ok what n (k : M unit) c c' :
  (_ ← writeHeader what n; k) c = (Ok tt, c') ->
  exists c1, k c1 = (Ok tt, c') /\
    sent c1 = sent c ++ header n (sequence c) /\ sequence c1 = sequence c /\ same_reader c c1.
Proof.
  intros ([] & c1 & Hw & Hk)%bind_M_Ok. exists c1.
  apply bind_M_Ok in Hw as (s & c2 & [= <- <-] & Hw%wrapErr_Ok). by apply write_sent in Hw.
Qed.

Lemma nextSequence_bind (k : M unit) c :
  (_ ← nextSequence; k) c = k (set_sequence (u8 (sequence c + 1)) c).
Proof. done. Qed.

Lemma sent_set_sequence s c : sent (set_sequence s c) = sent c.
Proof. done. Qed.

Lemma len_drop {A} n (l : list A) : 0 <= n <= len l -> len (drop (Z.to_nat n) l) = len l - n.
Proof. intros H. unfold len in *. rewrite length_drop. lia. Qed.
Lemma len_take {A} n (l : list A) : 0 <= n <= len l -> len (take (Z.to_nat n) l) = n.
Proof. intros H. unfold len in *. rewrite length_take. lia. Qed.

Lemma MaxPacketSize_pos : 0 < MaxPacketSize < 2 ^ 24.
Proof. done. Qed.

(** The chunks written are the framing of the payload. *)
Lemma writeChunks_framed fuel data c c' :
  (length data < fuel)%nat -> writeChunks fuel data c = (Ok tt, c') ->
  exists out, framed (sequence c) data out (sequence c') /\
    sent c' = sent c ++ out /\ same_reader c c'.
Proof.
  pose proof MaxPacketSize_pos as HM.
  revert data c; induction fuel as [|f IH]; intros data c Hf; [lia|].
  cbn [writeChunks]. set (k := Z.min _ _). pose proof (len_nonneg data) as Hd.
  intros (c1 & (c2 & H & E2 & Es2 & Er2)%write_bind_Ok & E1 & Es1 & Er1)%writeHeader_bind_Ok.
  rewrite nextSequence_bind in H. rewrite Es2, Es1 in H.
  pose proof (same_reader_trans _ _ _ Er1 Er2) as Er. rewrite E1 in E2.
  destruct (Z.eqb_spec (len data - k) 0) as [Hk|Hk].
  - replace (take (Z.to_nat k) data) with data in E2
      by (symmetry; apply take_ge; unfold len in *; lia).
    destruct (Z.eqb_spec k MaxPacketSize) as [Ek|Ek].
    + apply writeHeader_bind_Ok in H as (c3 & [= <-] & E3 & Es3 & Er3).
      exists (header MaxPacketSize (sequence c) ++ data ++ header 0 (u8 (sequence c + 1)) ++ []).
      split; [|split].
      * rewrite <- (app_nil_r data) at 1. cbn [sequence set_sequence].
        rewrite Es3. apply framed_more; [lia|]. by apply framed_last.
      * rewrite sent_set_sequence, E3, sent_set_sequence, E2, Ek. cbn [sequence set_sequence].
        by rewrite app_nil_r, <- !app_assoc.
      * eapply same_reader_trans; [exact Er | exact Er3].
    + injection H as <-. exists (header (len data) (sequence c) ++ data).
      split; [apply framed_last; lia|]. replace (len data) with k by lia.
      split; [by rewrite sent_set_sequence, E2, <- app_assoc | exact Er].
  - assert (Ek : k = MaxPacketSize) by lia.
    apply IH in H as (out & Hout & Eo & Er').
    + exists (header MaxPacketSize (sequence c) ++ take (Z.to_nat k) data ++ out).
      cbn [sequence set_sequence] in Hout. split; [|split].
      * rewrite <- (take_drop (Z.to_nat k) data) at 1.
        apply framed_more; [rewrite len_take; lia | done].
      * rewrite Eo, sent_set_sequence, E2, Ek. by rewrite <- !app_assoc.
      * eapply same_reader_trans; [exact Er | exact Er'].
    + rewrite length_drop. unfold len in *. lia.
Qed.

(** ** Reading what was framed *)
Lemma ReadFull_app n a rest c :
  rd c = a ++ rest -> length a = n -> ReadFull n c = (Ok a, set_rd rest c).
Proof.
  intros E <-. unfold ReadFull. rewrite E, length_app.
  destruct (Nat.leb_spec (length a) (length a + length rest)); [|lia].
  by rewrite take_app_length, drop_app_length.
Qed.

Lemma readHeader_framed n c rest :
  0 <= n < 2 ^ 24 -> rd c = header n (sequence c) ++ rest ->
  readHeaderFrom c = (Ok n, set_rd rest (set_sequence (u8 (sequence c + 1)) c)).
Proof.
  intros Hn E. unfold readHeaderFrom.
  erewrite bind_M_run; [|apply wrapErr_Ok, (ReadFull_app 4); [exact E | done]].
  erewrite bind_M_run by reflexivity. cbn [sequence set_rd].
  unfold header at 1, le. cbn [le_from app].
  rewrite Z.eqb_refl. erewrite bind_M_run by reflexivity.
  change [_; _; _] with (le 3 n). rewrite unle_le_small by (change (Z.of_nat 3) with 3; lia).
  done.
Qed.

Lemma readBody_framed n c body rest :
  len body = n -> rd c = body ++ rest -> readBody n c = (Ok body, set_rd rest c).
Proof.
  intros <- E. apply wrapErr_Ok, ReadFull_app; [exact E | unfold len; lia].
Qed.

Lemma ReadOnePacket_framed c body rest :
  len body < 2 ^ 24 -> rd c = header (len body) (sequence c) ++ body ++ rest ->
  ReadOnePacket c = (Ok body, set_rd rest (set_sequence (u8 (sequence c + 1)) c)).
Proof.
  intros Hn E. pose proof (len_nonneg body). unfold ReadOnePacket.
  erewrite bind_M_run by (apply readHeader_framed; [|exact E]; lia).
  destruct (Z.eqb_spec (len body) 0) as [H0|H0].
  - destruct body; [done | unfold len in H0; cbn in H0; lia].
  - by rewrite (readBody_framed _ _ body rest).
Qed.

Lemma framed_length seq data out seq' : framed seq data out seq' -> (4 <= length out)%nat.
Proof. destruct 1; rewrite !length_app; cbn; lia. Qed.

Lemma readMore_framed seq data out seq' :
  framed seq data out seq' ->
  forall fuel acc c rest, (length out <= fuel)%nat ->
    sequence c = seq -> rd c = out ++ rest ->
    readMore fuel acc c = (Ok (acc ++ data), set_rd rest (set_sequence seq' c)).
Proof.
  pose proof MaxPacketSize_pos as HM.
  induction 1 as [seq data Hd|seq chunk data out seq' Hc Hf IH]; intros [|f] acc c rest Hfuel Hs E;
    try (rewrite !length_app in Hfuel; cbn in Hfuel; lia);
    cbn [readMore]; subst seq; rewrite <- ?app_assoc in E.
  - erewrite bind_M_run by (apply ReadOnePacket_framed; [|exact E]; lia).
    destruct (Z.eqb_spec (len data) 0) as [H0|H0].
    + destruct data; [by rewrite app_nil_r | unfold len in H0; cbn in H0; lia].
    + destruct (Z.ltb_spec (len data) MaxPacketSize); [done | lia].
  - rewrite <- Hc in E.
    erewrite bind_M_run by (apply ReadOnePacket_framed; [|exact E]; lia).
    destruct (Z.eqb_spec (len chunk) 0); [lia|].
    destruct (Z.ltb_spec (len chunk) MaxPacketSize); [lia|].
    rewrite (IH f (acc ++ chunk) _ rest); [by rewrite <- app_assoc | | done | done].
    rewrite !length_app in Hfuel. cbn in Hfuel. lia.
Qed.

Lemma ReadPacket_framed seq data out seq' c rest :
  framed seq data out seq' -> sequence c = seq -> rd c = out ++ rest ->
  ReadPacket c = (Ok data, set_rd rest (set_sequence seq' c)).
Proof.
  pose proof MaxPacketSize_pos as HM. intros Hf Hs E. unfold ReadPacket.
  destruct Hf as [seq data Hd|seq chunk data out seq' Hc Hf]; subst seq; rewrite <- ?app_assoc in E.
  - erewrite bind_M_run by (apply ReadOnePacket_framed; [|exact E]; lia).
    destruct (Z.ltb_spec (len data) MaxPacketSize); [done | lia].
  - rewrite <- Hc in E.
    erewrite bind_M_run by (apply ReadOnePacket_framed; [|exact E]; lia).
    destruct (Z.ltb_spec (len chunk) MaxPacketSize); [lia|].
    unfold readContinuation. cbn [rd set_rd].
    by rewrite (readMore_framed _ _ _ _ Hf _ _ _ rest); [|rewrite length_app; lia|..].
Qed.

(** [ReadEphemeralPacket] returns what [ReadPacket] returns. *)
Lemma ReadEphemeral_framed seq data out seq' c rest :
  framed seq data out seq' -> sequence c = seq -> rd c = out ++ rest ->
  policy c = ephemeralUnused -> buffer c = None ->
  exists b, ReadEphemeralPacket c =
    (Ok data, set_ephemeral ephemeralRead b (set_rd rest (set_sequence seq' c))).
Proof.
  pose proof MaxPacketSize_pos as HM. intros Hf Hs E Hp Hb. unfold ReadEphemeralPacket.
  erewrite bind_M_run by reflexivity. rewrite Hp.
  destruct Hf as [seq data Hd|seq chunk data out seq' Hc Hf]; subst seq; rewrite <- ?app_assoc in E.
  - pose proof (len_nonneg data).
    erewrite bind_M_run by (apply readHeader_framed; [|exact E]; lia).
    erewrite bind_M_run by reflexivity.
    destruct (Z.eqb_spec (len data) 0) as [H0|H0].
    + destruct data; [by eexists | unfold len in H0; cbn in H0; lia].
    + destruct (Z.ltb_spec (len data) MaxPacketSize); [|lia].
      erewrite bind_M_run by reflexivity.
      erewrite bind_M_run by (apply (readBody_framed _ _ data rest); done).
      by eexists.
  - erewrite bind_M_run by (apply readHeader_framed; [|exact E]; lia).
    erewrite bind_M_run by reflexivity.
    destruct (Z.eqb_spec MaxPacketSize 0); [lia|].
    destruct (Z.ltb_spec MaxPacketSize MaxPacketSize); [lia|].
    erewrite bind_M_run by (apply (readBody_framed _ _ chunk (out ++ rest)); done).
    unfold readContinuation. cbn [rd set_rd set_ephemeral].
    rewrite (readMore_framed _ _ _ _ Hf _ _ _ rest); [|rewrite length_app; lia | done | done].
    by eexists.
Qed.

(** ** When writing succeeds *)
Definition writerOk (c : conn) : Prop :=
  match bufferedWriter c with Some w => werr w = None | None => True end.

Lemma netWrite_ok p c :
  (1 <= accepts c)%nat ->
  exists c', netWrite p c = (Ok tt, c') /\ (accepts c - 1 <= accepts c')%nat /\
    bufferedWriter c' = bufferedWriter c.
Proof.
  intros H. unfold netWrite. destruct (accepts c) as [|n]; [lia|].
  eexists; split; [done|]. cbn. split; [lia | done].
Qed.

Lemma bypass_ok p c :
  (1 <= accepts c)%nat ->
  exists c', bypass p c = (Ok tt, c') /\ (accepts c - 1 <= accepts c')%nat /\
    bufferedWriter c' = bufferedWriter c.
Proof.
  intros H. unfold bypass. destruct (netWrite_ok p c H) as (c' & -> & ? & ?). by exists c'.
Qed.

Lemma flush_ok c :
  writerOk c -> (1 <= accepts c)%nat ->
  exists c', flush c = (Ok tt, c') /\ (accepts c - 1 <= accepts c')%nat /\ writerOk c'.
Proof.
  unfold writerOk, flush. destruct (bufferedWriter c) as [[b e]|] eqn:Hw; cbn; intros He Ha.
  - subst e. destruct b as [|z b].
    + exists c. rewrite Hw. split_and!; [done | lia | done].
    + destruct (netWrite_ok (z :: b) c Ha) as (c1 & -> & H1 & _). eexists. split_and!; [done | done | done].
  - exists c. rewrite Hw. split_and!; [done | lia | done].
Qed.

Lemma write_ok p c :
  writerOk c -> (2 <= accepts c)%nat ->
  exists c', write p c = (Ok tt, c') /\ (accepts c - 2 <= accepts c')%nat /\ writerOk c'.
Proof.
  unfold write. intros Hok Ha. destruct (bufferedWriter c) as [[b e]|] eqn:Hw.
  - assert (e = None) as -> by (unfold writerOk in Hok; by rewrite Hw in Hok). cbn [buf werr].
    destruct (_ <=? _).
    { eexists. split_and!; [done | cbn; lia | done]. }
    unfold bufWriteLarge. cbn [buf]. destruct b as [|z b].
    + destruct (bypass_ok p c) as (c1 & -> & H1 & Hb); [lia|].
      exists c1. split_and!; [done | lia |]. unfold writerOk. by rewrite Hb, Hw.
    + set (b1 := mkWriter ((z :: b) ++ _) None).
      destruct (flush_ok (set_writer (Some b1) c)) as (c1 & E1 & H1 & Hok1); [done | cbn; lia |].
      erewrite bind_M_run by reflexivity. erewrite bind_M_run by exact E1. cbn in H1.
      destruct (_ <? _).
      * destruct (bypass_ok (drop (Z.to_nat (connBufferSize - len (z :: b))) p) c1)
          as (c2 & E2 & H2 & Hb); [lia|].
        exists c2. rewrite E2. split_and!; [done | lia |]. unfold writerOk. by rewrite Hb.
      * eexists. split_and!; [done | cbn; lia | done].
  - destruct (netWrite_ok p c) as (c1 & -> & H1 & Hb); [lia|].
    exists c1. split_and!; [done | lia |]. unfold writerOk. by rewrite Hb, Hw.
Qed.

Lemma writeHeader_run what n c c' :
  write (header n (sequence c)) c = (Ok tt, c') -> writeHeader what n c = (Ok tt, c').
Proof. intros E. unfold writeHeader. erewrite bind_M_run by reflexivity. by apply wrapErr_Ok. Qed.

(** Some number of network writes is enough for a packet: six per chunk. *)
Lemma writeChunks_ok fuel data c :
  (length data < fuel)%nat -> writerOk c ->
  6 * (len data / MaxPacketSize + 1) <= Z.of_nat (accepts c) ->
  exists c', writeChunks fuel data c = (Ok tt, c') /\ writerOk c' /\
    Z.of_nat (accepts c) - 6 * (len data / MaxPacketSize + 1) <= Z.of_nat (accepts c').
Proof.
  pose proof MaxPacketSize_pos as HM.
  revert data c; induction fuel as [|f IH]; intros data c Hf Hok Ha; [lia|].
  cbn [writeChunks]. set (k := Z.min _ _). pose proof (len_nonneg data) as Hd.
  assert (0 <= len data / MaxPacketSize) by (apply Z.div_pos; lia).
  destruct (write_ok (header k (sequence c)) c) as (c1 & E1 & A1 & O1); [done | lia |].
  destruct (write_ok (take (Z.to_nat k) data) c1) as (c2 & E2 & A2 & O2); [done | lia |].
  erewrite bind_M_run by (by apply writeHeader_run).
  erewrite bind_M_run by (by apply wrapErr_Ok). rewrite nextSequence_bind.
  set (c3 := set_sequence _ c2). assert (O3 : writerOk c3) by done.
  assert (A3 : accepts c3 = accepts c2) by done.
  destruct (Z.eqb_spec (len data - k) 0) as [Hk|Hk].
  - destruct (k =? MaxPacketSize); [|eexists; split_and!; [done..|lia]].
    destruct (write_ok (header 0 (sequence c3)) c3) as (c4 & E4 & A4 & O4); [done | lia |].
    erewrite bind_M_run by (by apply writeHeader_run).
    eexists. split_and!; [done | done |].
    assert (E5 : accepts (set_sequence (u8 (sequence c4 + 1)) c4) = accepts c4) by done.
    rewrite E5. lia.
  - assert (Ek : k = MaxPacketSize) by lia.
    assert (Ediv : len (drop (Z.to_nat k) data) / MaxPacketSize = len data / MaxPacketSize - 1).
    { rewrite len_drop by lia.
      replace (len data - k) with (len data + (-1) * MaxPacketSize) by lia.
      rewrite Z.div_add by lia. lia. }
    destruct (IH (drop (Z.to_nat k) data) c3) as (c4 & E4 & O4 & A4);
      [rewrite length_drop; unfold len in *; lia | done | lia |].
    exists c4. split_and!; [done | done | lia].
Qed.

(** C28: A packet of any size that [WritePacket] sends on a live connection,
    buffered or not, is read back by [ReadPacket] at the peer: the same
    payload, the rest of the stream untouched, and both sides at the same
    sequence number, also when the payload is cut into several packets or its
    length is a multiple of the maximal packet size. *)
Theorem WritePacket_ReadPacket data c :
  broken c = None -> writerOk c ->
  6 * (len data / MaxPacketSize + 1) <= Z.of_nat (accepts c) ->
  exists c' out,
    WritePacket data c = (Ok tt, c') /\ sent c' = sent c ++ out /\ same_reader c c' /\
    forall peer rest,
      sequence peer = sequence c -> rd peer = out ++ rest ->
      ReadPacket peer = (Ok data, set_rd rest (set_sequence (sequence c') peer)).
Proof.
  intros Hb Hok Ha. destruct (writeChunks_ok (S (length data)) data c) as (c' & E & _); [lia | done..|].
  destruct (writeChunks_framed _ _ _ _ (Nat.lt_succ_diag_r _) E) as (out & Hf & Es & Er).
  exists c', out. split_and!; [|done..|].
  - unfold WritePacket. erewrite bind_M_run by (unfold connCheck; by rewrite Hb). done.
  - intros peer rest. by apply ReadPacket_framed.
Qed.

Lemma WritePacket_ReadPacket_witness :
  exists c' out,
    WritePacket [1; 2; 3] (NewConn [] 6) = (Ok tt, c') /\ out = [3; 0; 0; 0; 1; 2; 3] /\
    ReadPacket (NewConn (out ++ [9]) 0) = (Ok [1; 2; 3], set_rd [9] (set_sequence 1 (NewConn [] 0))).
Proof.
  destruct (WritePacket_ReadPacket [1; 2; 3] (NewConn [] 6)) as (c' & out & W & S & _ & R);
    [done | done | vm_compute; congruence |].
  vm_compute in W. injection W as <-. vm_compute in S. subst out.
  do 2 eexists. split; [vm_compute; reflexivity|]. split; [reflexivity|].
  apply (R (NewConn ([3; 0; 0; 0; 1; 2; 3] ++ [9]) 0) [9]); reflexivity.
Defined.

(** ** Buffered writing *)

(** What the goroutines of a connection do while it is buffered: writes of the
    handler, and the flush timer at any time. *)
Inductive event := EWrite (p : bytes) | ETimer.

Fixpoint runEvents (es : list event) : M unit :=
  match es with
  | [] => mret tt
  | EWrite p :: es' => _ ← write p; runEvents es'
  | ETimer :: es' => _ ← flushTimer; runEvents es'
  end.

Definition written (e : event) : bytes := match e with EWrite p => p | ETimer => [] end.

Lemma flushTimer_sent c c' r : flushTimer c = (r, c') -> sent c' = sent c.
Proof.
  unfold flushTimer. destruct (flush c) as [q c1] eqn:E. intros [= _ <-].
  destruct q as [[]|e|]; [by apply flush_sent in E as (? & _) | |].
  all: unfold flush in E; destruct (bufferedWriter c) as [[b [e'|]]|] eqn:Hw; cbn in E; try congruence.
  all: destruct b as [|z b]; [congruence|]; unfold netWrite in E.
  all: destruct (accepts c); cbn in E; try congruence.
  injection E as <- <-. unfold sent. by rewrite Hw.
Qed.

(** While writes are buffered, nothing is lost, repeated or reordered: after
    any interleaving of writes and flush timers, ending the buffering
    successfully leaves exactly the written bytes on the wire, in order. *)
Theorem buffered_writes_in_order es c c1 c2 :
  runEvents es c = (Ok tt, c1) -> EndWriterBuffering c1 = (Ok tt, c2) ->
  wr c2 = sent c ++ concat (written <$> es) /\ bufferedWriter c2 = None.
Proof.
  intros Hrun Hend.
  assert (Hs : sent c1 = sent c ++ concat (written <$> es)).
  { clear Hend. revert c Hrun. induction es as [|[p|] es IH]; intros c Hrun; cbn in *.
    - injection Hrun as ->. by rewrite app_nil_r.
    - apply bind_M_Ok in Hrun as ([] & c3 & (E & _)%write_sent & H). rewrite (IH _ H), E.
      by rewrite app_assoc.
    - apply bind_M_Ok in Hrun as ([] & c3 & E%flushTimer_sent & H). by rewrite (IH _ H), E. }
  unfold EndWriterBuffering in Hend. rewrite <- Hs.
  destruct (bufferedWriter c1) as [w|] eqn:Hw.
  - destruct (flush c1) as [[[]|?|] c3] eqn:E; [|done..].
    apply flush_sent in E as (E & _ & _ & Hb). rewrite Hw in Hb. injection Hend as <-.
    split; [|done]. rewrite <- E. unfold sent. rewrite Hb. cbn. by rewrite app_nil_r.
  - injection Hend as <-. split; [|done]. unfold sent. rewrite Hw. by rewrite app_nil_r.
Qed.
