(* ===== verification/Packets.v ===== *)
(** * Packets of the MySQL protocol: the packet writers of
    [pkg/mysql/conn.go], the packet parsers of [pkg/packet/mysql.go], the
    column types of [pkg/constant/type.go] and the readers of
    [pkg/driver/client.go]

    Go strings on the wire are byte lists.  Ephemeral buffers come from a pool
    ([BufPool]) that promises their length, not their content. *)
From Stdlib Require Import ZArith Lia List.
From stdpp Require Import base list strings.
From S2P Require Import Prelude GoText Encoding Layout Conn.

Local Open Scope Z_scope.

Class BufPool := {
  Get : Z -> bytes;
  Get_len : forall n, 0 <= n -> len (Get n) = n }.

#[export] Instance zero_pool : BufPool | 100 := {
  Get n := replicate (Z.to_nat n) 0;
  Get_len n Hn := ltac:(unfold len; rewrite length_replicate; lia) }.

(** ** Column types *)
Definition UnsignedFlag : Z := 32.
Definition BinaryFlag : Z := 128.

Definition FieldTypeDecimal : Z := 0.
Definition FieldTypeTiny : Z := 1.
Definition FieldTypeShort : Z := 2.
Definition FieldTypeLong : Z := 3.
Definition FieldTypeFloat : Z := 4.
Definition FieldTypeDouble : Z := 5.
Definition FieldTypeNULL : Z := 6.
Definition FieldTypeTimestamp : Z := 7.
Definition FieldTypeLongLong : Z := 8.
Definition FieldTypeInt24 : Z := 9.
Definition FieldTypeDate : Z := 10.
Definition FieldTypeTime : Z := 11.
Definition FieldTypeDateTime : Z := 12.
Definition FieldTypeYear : Z := 13.
Definition FieldTypeNewDate : Z := 14.
Definition FieldTypeVarChar : Z := 15.
Definition FieldTypeBit : Z := 16.
Definition FieldTypeUint8 : Z := 133.
Definition FieldTypeUint16 : Z := 134.
Definition FieldTypeUint24 : Z := 135.
Definition FieldTypeUint32 : Z := 136.
Definition FieldTypeUint64 : Z := 137.
Definition FieldTypeJSON : Z := 245.
Definition FieldTypeNewDecimal : Z := 246.
Definition FieldTypeEnum : Z := 247.
Definition FieldTypeSet : Z := 248.
Definition FieldTypeTinyBLOB : Z := 249.
Definition FieldTypeMediumBLOB : Z := 250.
Definition FieldTypeLongBLOB : Z := 251.
Definition FieldTypeBLOB : Z := 252.
Definition FieldTypeVarString : Z := 253.
Definition FieldTypeString : Z := 254.
Definition FieldTypeGeometry : Z := 255.

(** The map [mysqlToType]: a code up to 16, or from 245 on, is its own type
    except for 246; 17 to 19 are the types with fractional seconds. *)
Definition mysqlToType (t : Z) : option Z :=
  if (0 <=? t) && (t <=? 16) then Some t
  else if t =? 17 then Some FieldTypeTimestamp
  else if t =? 18 then Some FieldTypeDateTime
  else if t =? 19 then Some FieldTypeTime
  else if t =? 246 then Some FieldTypeDecimal
  else if (245 <=? t) && (t <=? 255) then Some t
  else None.

Definition hasFlag (flags f : Z) : bool := negb (Z.land flags f =? 0).

Definition modifyType (typ flags : Z) : Z :=
  if typ =? FieldTypeTiny then if hasFlag flags UnsignedFlag then FieldTypeUint8 else FieldTypeTiny
  else if typ =? FieldTypeShort then if hasFlag flags UnsignedFlag then FieldTypeUint16 else FieldTypeShort
  else if typ =? FieldTypeLong then if hasFlag flags UnsignedFlag then FieldTypeUint32 else FieldTypeLong
  else if typ =? FieldTypeLongLong then if hasFlag flags UnsignedFlag then FieldTypeUint64 else FieldTypeLongLong
  else if typ =? FieldTypeInt24 then if hasFlag flags UnsignedFlag then FieldTypeUint24 else FieldTypeInt24
  else typ.

Definition MySQLToType (mysqlType flags : Z) : res Z :=
  match mysqlToType mysqlType with
  | Some r => Ok (modifyType r flags)
  | None => Err ("unsupported type: " +:+ FormatInt mysqlType)
  end.

(** The map [typeToMySQL]; a missing key yields the zero value. *)
Definition TypeToMySQL (typ : Z) : Z * Z :=
  if typ =? FieldTypeUint8 then (1, UnsignedFlag)
  else if typ =? FieldTypeUint16 then (2, UnsignedFlag)
  else if typ =? FieldTypeUint32 then (3, UnsignedFlag)
  else if typ =? FieldTypeUint64 then (8, UnsignedFlag)
  else if typ =? FieldTypeUint24 then (9, UnsignedFlag)
  else if typ =? FieldTypeDecimal then (246, 0)
  else if (typ =? FieldTypeNewDecimal) || (typ =? FieldTypeVarChar) || (typ =? FieldTypeNewDate) then (0, 0)
  else if (typ =? FieldTypeNULL) || (typ =? FieldTypeDate) || (typ =? FieldTypeTime)
       || (typ =? FieldTypeDateTime) then (typ, BinaryFlag)
  else if (typ =? FieldTypeYear) || (typ =? FieldTypeBit) then (typ, UnsignedFlag)
  else if (1 <=? typ) && (typ <=? 16) || (245 <=? typ) && (typ <=? 255) then (typ, 0)
  else (0, 0).

Record Field := mkField {
  Table : bytes; OrgTable : bytes; Database : bytes; Name : bytes; OrgName : bytes;
  Flags : Z; FieldType : Z; Decimals : Z; CharSet : Z; ColumnLength : Z;
  DefaultValueLength : Z; DefaultValue : option bytes }.

Definition zeroField : Field := mkField [] [] [] [] [] 0 0 0 0 0 0 None.

(** ** SQL errors *)
Record SQLError := mkError { Num : Z; State : bytes; Message : bytes }.

Definition SSUnknownSQLState : bytes := bytes_of "HY000".
Definition CRServerLost : Z := 2013.
Definition CRMalformedPacket : Z := 2027.
Definition CRUnknownError : Z := 2000.

Definition NewSQLError (number : Z) (sqlState message : bytes) : SQLError :=
  mkError number (match sqlState with [] => SSUnknownSQLState | _ => sqlState end) message.

(** [SQLError.Error] of an error without a query. *)
Definition SQLError_Error (se : SQLError) : string :=
  string_of (Message se) +:+ " (errno " +:+ FormatInt (Num se) +:+ ") (sqlstate " +:+
  string_of (State se) +:+ ")".

Definition raiseSQL {A} (se : SQLError) : M A := raise (SQLError_Error se).
Definition serverLost {A} (m : M A) : M A :=
  wrapErr (fun e => SQLError_Error (NewSQLError CRServerLost SSUnknownSQLState (bytes_of e))) m.
Definition CRServerGone : Z := 2006.
Definition serverGone {A} (m : M A) : M A :=
  wrapErr (fun e => SQLError_Error (NewSQLError CRServerGone SSUnknownSQLState (bytes_of e))) m.
Definition malformed {A} (what : string) : M A :=
  raiseSQL (NewSQLError CRMalformedPacket SSUnknownSQLState (bytes_of what)).

(** ** Packet writers *)
Definition OKPacket : Z := 0.
Definition EOFPacket : Z := 254.
Definition ErrPacket : Z := 255.
Definition NullValue : Z := 251.
Definition CapabilityClientDeprecateEOF : Z := 16777216.
Definition ServerMoreResultsExists : Z := 8.

Section packets.
Context `{BufPool}.

(** [data := c.StartEphemeralPacket(length)], the writers from position 0, and
    [c.WriteEphemeralPacket()]. *)
Definition sendPacket (length : Z) (ws : list writer) : M unit :=
  data ← StartEphemeralPacket (Get length);
  '(d, pos) ← lift (writeAll ws data 0);
  _ ← fillBuffer d;
  WriteEphemeralPacket.

(** The same with the check that the buffer was filled exactly. *)
Definition sendChecked (length : Z) (ws : list writer) (msg : string) : M unit :=
  data ← StartEphemeralPacket (Get length);
  '(d, pos) ← lift (writeAll ws data 0);
  _ ← fillBuffer d;
  if negb (pos =? len d) then raise msg else WriteEphemeralPacket.

Definition sendColumnCount (count : Z) : M unit :=
  sendPacket (LenEncIntSize count) [fun d p => WriteLenEncInt d p count].

Definition writeColumnDefinition (field : Field) : M unit :=
  let length := 4 + LenEncStringSize (Database field) + LenEncStringSize (Table field) +
    LenEncStringSize (OrgTable field) + LenEncStringSize (Name field) +
    LenEncStringSize (OrgName field) + 1 + 2 + 4 + 1 + 2 + 1 + 2 in
  let '(typ, flags0) := TypeToMySQL (FieldType field) in
  let flags := if negb (Flags field =? 0) then Flags field else flags0 in
  sendChecked length
    [ fun d p => WriteLenEncString d p (bytes_of "def");
      fun d p => WriteLenEncString d p (Database field);
      fun d p => WriteLenEncString d p (Table field);
      fun d p => WriteLenEncString d p (OrgTable field);
      fun d p => WriteLenEncString d p (Name field);
      fun d p => WriteLenEncString d p (OrgName field);
      fun d p => WriteByte d p 12;
      fun d p => WriteUint16 d p (CharSet field);
      fun d p => WriteUint32 d p (ColumnLength field);
      fun d p => WriteByte d p (u8 typ);
      fun d p => WriteUint16 d p (flags mod 65536);
      fun d p => WriteByte d p (Decimals field);
      fun d p => WriteUint16 d p 0 ]
    "packing of column definition used a different number of bytes".

Definition WriteEOFPacket (flags warnings : Z) : M unit :=
  sendPacket 5
    [ fun d p => WriteByte d p EOFPacket;
      fun d p => WriteUint16 d p warnings;
      fun d p => WriteUint16 d p flags ].

(** [WriteOKPacket] and [WriteOKPacketWithEOFHeader] differ in the header. *)
Definition okPacket (hd affectedRows lastInsertID flags warnings : Z) : M unit :=
  sendPacket (1 + LenEncIntSize affectedRows + LenEncIntSize lastInsertID + 2 + 2)
    [ fun d p => WriteByte d p hd;
      fun d p => WriteLenEncInt d p affectedRows;
      fun d p => WriteLenEncInt d p lastInsertID;
      fun d p => WriteUint16 d p flags;
      fun d p => WriteUint16 d p warnings ].

Definition WriteOKPacket := okPacket OKPacket.
Definition WriteOKPacketWithEOFHeader := okPacket EOFPacket.

Definition WriteErrorPacket (errorCode : Z) (sqlState errorMessage : bytes) : M unit :=
  data ← StartEphemeralPacket (Get (1 + 2 + 1 + 5 + len errorMessage));
  '(d, pos) ← lift (writeAll [ fun d p => WriteByte d p ErrPacket;
                               fun d p => WriteUint16 d p errorCode;
                               fun d p => WriteByte d p 35 ] data 0);
  _ ← fillBuffer d;
  let sqlState := match sqlState with [] => SSUnknownSQLState | _ => sqlState end in
  if negb (len sqlState =? 5) then panic
  else
    '(d, pos) ← lift (writeAll [ fun d p => WriteEOFString d p sqlState;
                                 fun d p => WriteEOFString d p errorMessage ] d pos);
    _ ← fillBuffer d;
    WriteEphemeralPacket.

Definition ERUnknownError : Z := 1105.

(** The errors of the executors: SQL errors and others. *)
Inductive goError := SQLErr (se : SQLError) | OtherErr (msg : bytes).

Definition WriteErrorPacketFromError (err : goError) : M unit :=
  match err with
  | SQLErr se => WriteErrorPacket (Num se mod 65536) (State se) (Message se)
  | OtherErr msg => WriteErrorPacket ERUnknownError SSUnknownSQLState (bytes_of "unknown error: " ++ msg)
  end.

Fixpoint eachM {A} (f : A -> M unit) (l : list A) : M unit :=
  match l with
  | [] => mret tt
  | x :: l' => _ ← f x; eachM f l'
  end.

Definition deprecateEOF (capabilities : Z) : bool := hasFlag capabilities CapabilityClientDeprecateEOF.

Definition WriteFields (capabilities : Z) (fields : list Field) : M unit :=
  _ ← sendColumnCount (len fields);
  _ ← eachM writeColumnDefinition fields;
  if negb (deprecateEOF capabilities)
  then flags ← gets statusFlags; WriteEOFPacket flags 0
  else mret tt.

Definition WriteEndResult (capabilities : Z) (more : bool) (affectedRows lastInsertID warnings : Z) : M unit :=
  flags ← gets statusFlags;
  let flags := if more then Z.lor flags ServerMoreResultsExists else flags in
  if negb (deprecateEOF capabilities) then WriteEOFPacket flags warnings
  else WriteOKPacketWithEOFHeader affectedRows lastInsertID flags warnings.

(** [WriteBinaryRows] forwards the payloads of the rows as they are. *)
Definition WriteBinaryRows (rows : list bytes) : M unit := eachM WritePacket rows.

Definition WritePrepare (capabilities statementID paramsCount : Z) : M unit :=
  _ ← sendPacket 12
    [ fun d p => WriteByte d p 0;
      fun d p => WriteUint32 d p statementID;
      fun d p => WriteUint16 d p 0;
      fun d p => WriteUint16 d p paramsCount;
      fun d p => WriteByte d p 0;
      fun d p => WriteUint16 d p 0 ];
  if 0 <? paramsCount then
    _ ← eachM writeColumnDefinition
      (replicate (Z.to_nat paramsCount)
        (mkField [] [] [] (bytes_of "?") [] BinaryFlag FieldTypeString 0 63 0 0 None));
    if negb (deprecateEOF capabilities)
    then flags ← gets statusFlags; WriteEOFPacket flags 0
    else mret tt
  else mret tt.

(** The commands of the client ([driver/client.go]). *)
Definition command (code : Z) (text : bytes) : M unit :=
  _ ← ResetSequence;
  serverGone (sendPacket (len text + 1) [fun d p => WriteByte d p code; writeCopy text]).

Definition WriteComInitDB (db : bytes) := command 2 db.
Definition WriteComQuit := command 1 [].
Definition WriteComQuery (query : bytes) := command 3 query.
Definition WriteComPrepare (query : bytes) := command 22 query.

Definition WriteComSetOption (operation : Z) : M unit :=
  _ ← ResetSequence;
  serverGone (sendPacket (16 + 1) [fun d p => WriteByte d p 27; fun d p => WriteUint16 d p operation]).

Definition WriteComFieldList (table wildcard : bytes) : M unit :=
  _ ← ResetSequence;
  sendPacket (1 + LenNullString table + LenNullString wildcard)
    [ fun d p => WriteByte d p 4; fun d p => WriteNullString d p table;
      fun d p => WriteNullString d p wildcard ].
End packets.

(** ** Packet parsers ([pkg/packet/mysql.go]) *)

(** [data[0] == EOFPacket && len(data) < 9]: an empty packet panics. *)
Definition IsEOFPacket (data : bytes) : res bool :=
  b ← get data 0; Ok ((b =? EOFPacket) && (len data <? 9)).

Definition IsErrorPacket (data : bytes) : res bool :=
  b ← get data 0; Ok (b =? ErrPacket).

Definition ParseEOFPacket (data : bytes) : res (Z * bool) :=
  w ← ReadUint16 data 1;
  let warnings := match w with Some (v, _) => v | None => 0 end in
  s ← ReadUint16 data 3;
  match s with
  | None => Err "invalid EOF packet statusFlags"
  | Some (statusFlags, _) => Ok (warnings, hasFlag statusFlags ServerMoreResultsExists)
  end.

(** A reader whose [ok] flag is checked. *)
Definition need {A} (err : string) (r : reader A) : res (A * Z) :=
  x ← r; match x with Some v => Ok v | None => Err err end.

Definition ParseOKPacket (data : bytes) : res (Z * Z * Z * Z) :=
  '(affectedRows, pos) ← need "invalid OK packet affectedRows" (ReadLenEncInt data 1);
  '(lastInsertID, pos) ← need "invalid OK packet lastInsertID" (ReadLenEncInt data pos);
  '(statusFlags, pos) ← need "invalid OK packet statusFlags" (ReadUint16 data pos);
  '(warnings, _) ← need "invalid OK packet warnings" (ReadUint16 data pos);
  Ok (affectedRows, lastInsertID, statusFlags, warnings).

Definition ParseErrorPacket (data : bytes) : res SQLError :=
  c ← ReadUint16 data 1;
  match c with
  | None => Ok (NewSQLError CRUnknownError SSUnknownSQLState (bytes_of "invalid error packet code"))
  | Some (code, pos) =>
    s ← ReadBytes data (pos + 1) 5;
    match s with
    | None => Ok (NewSQLError CRUnknownError SSUnknownSQLState (bytes_of "invalid error packet sqlState"))
    | Some (sqlState, pos) =>
      msg ← slice data pos (len data);
      Ok (NewSQLError code sqlState msg)
    end
  end.

Definition parseAndRaise {A} (data : bytes) : M A :=
  se ← lift (ParseErrorPacket data); raiseSQL se.

(** ** Readers of the client ([driver/client.go]) *)

(** [pos, ok = misc.SkipLenEncString(...)] with the check of [ok]. *)
Definition skipM (what : string) (data : bytes) (pos : Z) : M Z :=
  r ← lift (SkipLenEncString data pos);
  match r with Some p => mret p | None => malformed what end.

Definition readM {A} (what : string) (r : reader A) : M (A * Z) :=
  x ← lift r;
  match x with Some v => mret v | None => malformed what end.

Definition columnEOF : string := io_EOF.

(** The body of [ReadColumnDefinition] on the packet read. *)
Definition parseColumnDefinition (colDef : bytes) : M Field :=
  eof ← lift (IsEOFPacket colDef);
  if (eof : bool) then raise columnEOF else
  pos ← skipM "skipping col catalog failed" colDef 0;
  '(database, pos) ← readM "extracting col schema failed" (ReadLenEncString colDef pos);
  '(table, pos) ← readM "extracting col table failed" (ReadLenEncString colDef pos);
  '(orgTable, pos) ← readM "extracting col org_table failed" (ReadLenEncString colDef pos);
  '(name, pos) ← readM "extracting col name failed" (ReadLenEncString colDef pos);
  '(orgName, pos) ← readM "extracting col org_name failed" (ReadLenEncString colDef pos);
  let pos := pos + 1 in
  '(characterSet, pos) ← readM "extracting col characterSet failed" (ReadUint16 colDef pos);
  '(columnLength, pos) ← readM "extracting col columnLength failed" (ReadUint32 colDef pos);
  '(t, pos) ← readM "extracting col type failed" (ReadByte colDef pos);
  '(flags, pos) ← readM "extracting col flags failed" (ReadUint16 colDef pos);
  match MySQLToType t flags with
  | Err e => malformed e
  | Panic => panic
  | Ok fieldType =>
    '(decimals, pos) ← readM "extracting col decimals failed" (ReadByte colDef pos);
    if pos + 8 <? len colDef then
      '(defLen, pos) ← readM "extracting col default value failed" (ReadUint64 colDef pos);
      if len colDef <? i64 (pos + i64 defLen) then malformed "extracting col default value failed"
      else
        def ← lift (slice colDef pos (i64 (pos + i64 defLen)));
        mret (mkField table orgTable database name orgName flags fieldType decimals characterSet
                columnLength defLen (Some def))
    else
      mret (mkField table orgTable database name orgName flags fieldType decimals characterSet
              columnLength 0 None)
  end.

Definition ReadColumnDefinition : M Field :=
  colDef ← serverLost ReadEphemeralPacket;
  deferred RecycleReadPacket (parseColumnDefinition colDef).

(** [ReadColumnDefinitionType] fills in the type only. *)
Definition parseColumnDefinitionType (colDef : bytes) : M Field :=
  pos ← skipM "skipping col catalog failed" colDef 0;
  pos ← skipM "skipping col schema failed" colDef pos;
  pos ← skipM "skipping col table failed" colDef pos;
  pos ← skipM "skipping col org_table failed" colDef pos;
  pos ← skipM "skipping col name failed" colDef pos;
  pos ← skipM "skipping col org_name failed" colDef pos;
  let pos := pos + 1 in
  '(_, pos) ← readM "extracting col characterSet failed" (ReadUint16 colDef pos);
  '(_, pos) ← readM "extracting col columnLength failed" (ReadUint32 colDef pos);
  '(t, pos) ← readM "extracting col type failed" (ReadByte colDef pos);
  '(flags, _) ← readM "extracting col flags failed" (ReadUint16 colDef pos);
  match MySQLToType t flags with
  | Err e => malformed e
  | Panic => panic
  | Ok fieldType => mret (mkField [] [] [] [] [] 0 fieldType 0 0 0 0 None)
  end.

Definition ReadColumnDefinitionType : M Field :=
  colDef ← serverLost ReadEphemeralPacket;
  deferred RecycleReadPacket (parseColumnDefinitionType colDef).

(** The response to a query: affected rows, last insert id, number of columns,
    more results, warnings. *)
Definition parseComQueryResponse (data : bytes) : M (Z * Z * Z * bool * Z) :=
  match data with
  | [] => malformed "invalid empty COM_QUERY response packet"
  | b :: _ =>
    if b =? OKPacket then
      '(affectedRows, lastInsertID, status, warnings) ← lift (ParseOKPacket data);
      mret (affectedRows, lastInsertID, 0, hasFlag status ServerMoreResultsExists, warnings)
    else if b =? ErrPacket then parseAndRaise data
    else if b =? 251 then raise "not implemented"
    else
      '(n, pos) ← readM "cannot get column number" (ReadLenEncInt data 0);
      if negb (pos =? len data) then malformed "extra Content in COM_QUERY response"
      else mret (0, 0, i64 n, false, 0)
  end.

Definition ReadComQueryResponse : M (Z * Z * Z * bool * Z) :=
  data ← serverLost ReadEphemeralPacket;
  deferred RecycleReadPacket (parseComQueryResponse data).

(** [DrainResults]: every turn takes a packet off the stream. *)
Fixpoint drainLoop (fuel : nat) : M unit :=
  match fuel with
  | O => panic
  | S f =>
    data ← serverLost ReadEphemeralPacket;
    eof ← lift (IsEOFPacket data);
    if (eof : bool) then RecycleReadPacket
    else
      err ← lift (IsErrorPacket data);
      if (err : bool) then deferred RecycleReadPacket (parseAndRaise data)
      else _ ← RecycleReadPacket; drainLoop f
  end.

Definition DrainResults : M unit := fun c => drainLoop (S (length (rd c))) c.

Record Result := mkResult {
  Fields : option (list Field); AffectedRows : Z; InsertId : Z; RowData : list bytes }.

Fixpoint repeatM {A} (n : nat) (m : M A) : M (list A) :=
  match n with
  | O => mret []
  | S n' => x ← m; xs ← repeatM n' m; mret (x :: xs)
  end.

(** Rows until an EOF packet, or an OK packet with the EOF type code. *)
Fixpoint readRows (fuel : nat) (deprecated : bool) (rows : list bytes) : M (list bytes * bool * Z) :=
  match fuel with
  | O => panic
  | S f =>
    data ← ReadPacket;
    eof ← lift (IsEOFPacket data);
    if (eof : bool) then
      if negb deprecated then
        '(warnings, more) ← lift (ParseEOFPacket data);
        mret (rows, more, warnings)
      else
        '(_, _, statusFlags, warnings) ← lift (ParseOKPacket data);
        mret (rows, hasFlag statusFlags ServerMoreResultsExists, warnings)
    else
      err ← lift (IsErrorPacket data);
      if (err : bool) then parseAndRaise data else readRows f deprecated (rows ++ [data])
  end.

Definition readAllRows (deprecated : bool) : M (list bytes * bool * Z) := fun c =>
  readRows (S (length (rd c))) deprecated [] c.

(** The EOF packet after the column definitions. *)
Definition readFieldsEOF : M unit :=
  data ← serverLost ReadEphemeralPacket;
  eof ← lift (IsEOFPacket data);
  if (eof : bool) then RecycleReadPacket
  else
    err ← lift (IsErrorPacket data);
    if (err : bool) then deferred RecycleReadPacket (parseAndRaise data)
    else deferred RecycleReadPacket (raise "unexpected packet after fields").

Definition ReadQueryResult (capabilities : Z) (wantFields : bool) : M (Result * bool * Z) :=
  '(affectedRows, lastInsertID, colNumber, more, warnings) ← ReadComQueryResponse;
  if colNumber =? 0 then mret (mkResult None affectedRows lastInsertID [], more, warnings)
  else if colNumber <? 0 then panic  (* make([]*mysql.Field, colNumber) *)
  else
    fields ← repeatM (Z.to_nat colNumber)
               (if wantFields then ReadColumnDefinition else ReadColumnDefinitionType);
    _ ← (if negb (deprecateEOF capabilities) then readFieldsEOF else mret tt);
    '(rows, more, warnings) ← readAllRows (deprecateEOF capabilities);
    mret (mkResult (if wantFields then Some fields else None) (len rows) lastInsertID rows, more, warnings).
