(* ===== verification/PacketSpec.v ===== *)
(** * What packets mean: sending and receiving sequences of payloads

    [Sends fl m ps a] says that [m], on a connection with status flags [fl] that
    is not in the middle of a packet, sends exactly the payloads [ps] and returns
    [a]; [Receives m ps v] that [m]
    consumes the payloads [ps] and returns [v].  A server that sends and a
    client that receives the same payloads therefore agree; the theorems below
    instantiate this for result sets, OK, EOF and error packets. *)
From Stdlib Require Import ZArith Lia List.
From stdpp Require Import base list strings.
From S2P Require Import Prelude GoText Encoding Layout Conn Packets.

Local Open Scope Z_scope.

(** ** Sequences of packets *)
Inductive framedAll : Z -> list bytes -> bytes -> Z -> Prop :=
| framedAll_nil seq : framedAll seq [] [] seq
| framedAll_cons seq p ps out1 out2 seq1 seq2 :
    framed seq p out1 seq1 -> framedAll seq1 ps out2 seq2 ->
    framedAll seq (p :: ps) (out1 ++ out2) seq2.

Lemma framedAll_app seq ps qs out1 out2 seq1 seq2 :
  framedAll seq ps out1 seq1 -> framedAll seq1 qs out2 seq2 ->
  framedAll seq (ps ++ qs) (out1 ++ out2) seq2.
Proof.
  induction 1 as [|seq p ps o1 o2 s1 s2 Hp Hps IH]; intros Hq; [done|].
  cbn. rewrite <- app_assoc. econstructor; [exact Hp | by apply IH].
Qed.

Lemma framedAll_app_inv seq ps qs out seq2 :
  framedAll seq (ps ++ qs) out seq2 ->
  exists out1 out2 seq1, out = out1 ++ out2 /\
    framedAll seq ps out1 seq1 /\ framedAll seq1 qs out2 seq2.
Proof.
  revert seq out; induction ps as [|p ps IH]; intros seq out Hf; cbn in Hf.
  - exists [], out, seq. split_and!; [done | constructor | done].
  - inversion Hf as [|? ? ? o1 o2 s1 ? Hp Hps]; subst.
    apply IH in Hps as (o3 & o4 & s3 & -> & H3 & H4).
    exists (o1 ++ o3), o4, s3. split_and!; [by rewrite app_assoc | by econstructor | done].
Qed.

Lemma framedAll_one seq p out seq' : framedAll seq [p] out seq' <-> framed seq p out seq'.
Proof.
  split.
  - inversion 1 as [|? ? ? o1 o2 s1 ? Hp Hps]; subst. inversion Hps; subst. by rewrite app_nil_r.
  - intros Hf. rewrite <- (app_nil_r out). econstructor; [exact Hf | constructor].
Qed.

(** ** Sending *)
Definition cost (ps : list bytes) : Z :=
  foldr (fun p n => 6 * (len p / MaxPacketSize + 1) + n) 0 ps.

Lemma cost_app ps qs : cost (ps ++ qs) = cost ps + cost qs.
Proof. induction ps as [|p ps IH]; cbn [app cost foldr]; [done|]. unfold cost in *. lia. Qed.

Lemma cost_nonneg ps : 0 <= cost ps.
Proof.
  induction ps as [|p ps IH]; cbn; [done|]. pose proof (len_nonneg p).
  pose proof MaxPacketSize_pos.
  assert (0 <= len p / MaxPacketSize) by (apply Z.div_pos; lia). unfold cost in IH. lia.
Qed.

(** A connection between packets, with [n] network writes to go. *)
Record live (n : Z) (c : conn) : Prop := {
  live_check : broken c = None;
  live_writer : writerOk c;
  live_policy : policy c = ephemeralUnused;
  live_buffer : buffer c = None;
  live_accepts : n <= Z.of_nat (accepts c) }.

Definition Sends {A} (fl : Z) (m : M A) (ps : list bytes) (a : A) : Prop :=
  forall c n, statusFlags c = fl -> 0 <= n -> live (cost ps + n) c ->
    exists c' out, m c = (Ok a, c') /\ framedAll (sequence c) ps out (sequence c') /\
      sent c' = sent c ++ out /\ live n c' /\ rd c' = rd c /\ statusFlags c' = statusFlags c.

Lemma live_weaken n m c : live n c -> m <= n -> live m c.
Proof. intros [? ? ? ? ?] ?. split; try done. lia. Qed.

Lemma Sends_ret {A} fl (a : A) : Sends fl (mret a) [] a.
Proof.
  intros c n Hfl Hn Hl. exists c, []. split_and!; [done | constructor | by rewrite app_nil_r | done..].
Qed.

Lemma Sends_bind {A B} fl (m : M A) (f : A -> M B) ps qs a b :
  Sends fl m ps a -> Sends fl (f a) qs b -> Sends fl (m ≫= f) (ps ++ qs) b.
Proof.
  intros Hm Hf c n Hfl Hn Hl. pose proof (cost_nonneg qs). rewrite cost_app, <- Z.add_assoc in Hl.
  destruct (Hm c (cost qs + n) Hfl ltac:(lia) Hl) as (c1 & o1 & E1 & F1 & S1 & L1 & R1 & G1).
  destruct (Hf c1 n ltac:(congruence) Hn L1) as (c2 & o2 & E2 & F2 & S2 & L2 & R2 & G2).
  exists c2, (o1 ++ o2). split_and!; [by erewrite bind_M_run | by eapply framedAll_app | | done | congruence..].
  by rewrite S2, S1, app_assoc.
Qed.

(** The status flags can be read between packets. *)
Lemma Sends_gets {B} fl (f : Z -> M B) qs b :
  Sends fl (f fl) qs b -> Sends fl (gets statusFlags ≫= f) qs b.
Proof. intros Hf c n <- Hn Hl. erewrite bind_M_run by reflexivity. by apply Hf. Qed.

Lemma WritePacket_sends n data c :
  broken c = None -> writerOk c -> 0 <= n -> cost [data] + n <= Z.of_nat (accepts c) ->
  exists c' out, WritePacket data c = (Ok tt, c') /\ framed (sequence c) data out (sequence c') /\
    sent c' = sent c ++ out /\ same_reader c c' /\ writerOk c' /\ n <= Z.of_nat (accepts c').
Proof.
  intros Hb Hw Hn Ha. cbn in Ha. pose proof (len_nonneg data).
  destruct (writeChunks_ok (S (length data)) data c) as (c' & E & Hw' & Ha');
    [lia | done | lia |].
  destruct (writeChunks_framed _ _ _ _ (Nat.lt_succ_diag_r _) E) as (out & Hf & Hs & Hr).
  exists c', out. split_and!; try done; [|lia].
  unfold WritePacket. by erewrite bind_M_run by (unfold connCheck; by rewrite Hb).
Qed.

Lemma Sends_WritePacket fl p : Sends fl (WritePacket p) [p] tt.
Proof.
  intros c n Hfl Hn [Hb Hw Hp Hbuf Ha].
  destruct (WritePacket_sends n p c Hb Hw Hn Ha)
    as (c1 & out & E & Hf & Hs & (R & P & B & F & K) & Hw1 & Ha1).
  exists c1, out. split_and!; try done; [by apply framedAll_one|]. split; try done; congruence.
Qed.

(** Writing the ephemeral buffer sends it and ends the packet. *)
Lemma WriteEphemeralPacket_sends n data c :
  broken c = None -> writerOk c -> 0 <= n -> cost [data] + n <= Z.of_nat (accepts c) ->
  policy c = ephemeralWrite -> buffer c = Some data ->
  exists c' out, WriteEphemeralPacket c = (Ok tt, c') /\
    framed (sequence c) data out (sequence c') /\ sent c' = sent c ++ out /\ live n c' /\
    rd c' = rd c /\ statusFlags c' = statusFlags c.
Proof.
  intros Hb Hw Hn Ha Hp Hbuf.
  destruct (WritePacket_sends n data c Hb Hw Hn Ha)
    as (c1 & out & E & Hf & Hs & (R & P & B & F & K) & Hw1 & Ha1).
  exists (set_ephemeral ephemeralUnused None c1), out.
  split_and!; [|done | done | | done | done].
  - unfold WriteEphemeralPacket, deferred.
    erewrite bind_M_run by reflexivity. rewrite Hp.
    erewrite bind_M_run by reflexivity. rewrite Hbuf.
    replace (wrapErr _ (WritePacket data) c) with (Ok tt, c1) by (symmetry; by apply wrapErr_Ok).
    unfold RecycleWritePacket. erewrite bind_M_run by reflexivity. by rewrite P, Hp.
  - split; try done. cbn. congruence.
Qed.

Section sends.
Context `{BufPool}.

Lemma StartEphemeral_run stale c :
  policy c = ephemeralUnused ->
  StartEphemeralPacket stale c = (Ok stale, set_ephemeral ephemeralWrite (Some stale) c).
Proof. intros Hp. unfold StartEphemeralPacket. erewrite bind_M_run by reflexivity. by rewrite Hp. Qed.

Lemma sendPacket_sends fl length ws e :
  Writes (writeAll ws) e -> len e = length -> Sends fl (sendPacket length ws) [e] tt.
Proof.
  intros Hw Hl c n Hfl Hn [Hb Hwo Hp Hbuf Ha]. unfold sendPacket.
  erewrite bind_M_run by (by apply StartEphemeral_run).
  erewrite bind_M_run.
  2:{ unfold lift. rewrite (Writes_fill _ e); [reflexivity | done |].
      rewrite Get_len; [done | rewrite <- Hl; apply len_nonneg]. }
  cbn beta iota. erewrite bind_M_run by reflexivity.
  destruct (WriteEphemeralPacket_sends n e
              (set_ephemeral ephemeralWrite (Some e) (set_ephemeral ephemeralWrite (Some (Get length)) c)))
    as (c' & out & E & Hf & Hs & Hl' & R & F); [done..|].
  exists c', out. split_and!; try done. by apply framedAll_one.
Qed.

Lemma sendChecked_sends fl length ws msg e :
  Writes (writeAll ws) e -> len e = length -> Sends fl (sendChecked length ws msg) [e] tt.
Proof.
  intros Hw Hl c n Hfl Hn Hlive.
  destruct (sendPacket_sends fl length ws e Hw Hl c n Hfl Hn Hlive) as (c' & out & E & Hrest).
  exists c', out. split; [|exact Hrest]. destruct Hlive as [_ _ Hp _ _].
  unfold sendPacket, sendChecked in *.
  erewrite bind_M_run in E by (by apply StartEphemeral_run).
  erewrite bind_M_run by (by apply StartEphemeral_run).
  assert (HW : lift (writeAll ws (Get length) 0) (set_ephemeral ephemeralWrite (Some (Get length)) c)
               = (Ok (e, len e), set_ephemeral ephemeralWrite (Some (Get length)) c)).
  { unfold lift. rewrite (Writes_fill _ e); [reflexivity | done |].
    rewrite Get_len; [done | rewrite <- Hl; apply len_nonneg]. }
  rewrite (bind_M_run _ _ _ _ _ HW) in E. rewrite (bind_M_run _ _ _ _ _ HW). cbn beta iota in *.
  erewrite bind_M_run in E by reflexivity. erewrite bind_M_run by reflexivity.
  by rewrite Z.eqb_refl.
Qed.

Lemma Sends_eachM {A} fl (f : A -> M unit) g l :
  (forall x, In x l -> Sends fl (f x) [g x] tt) -> Sends fl (eachM f l) (g <$> l) tt.
Proof.
  induction l as [|x l IH]; intros Hall; cbn [eachM].
  - apply Sends_ret.
  - change (g <$> x :: l) with ([g x] ++ (g <$> l)).
    apply (Sends_bind _ _ _ _ _ tt); [apply Hall; by left | apply IH; intros; apply Hall; by right].
Qed.
End sends.

(** ** Receiving *)
Definition incoming (c : conn) (ps : list bytes) (rest : bytes) (seq' : Z) : Prop :=
  exists out, framedAll (sequence c) ps out seq' /\ rd c = out ++ rest.

Definition Receives {A} (m : M A) (ps : list bytes) (v : A) : Prop :=
  forall c rest seq', policy c = ephemeralUnused -> buffer c = None ->
    incoming c ps rest seq' -> m c = (Ok v, set_rd rest (set_sequence seq' c)).

Lemma Receives_pure {A} (m : M A) v : (forall c, m c = (Ok v, c)) -> Receives m [] v.
Proof.
  intros Hm c rest seq' _ _ (out & Hf & E). inversion Hf; subst. cbn in E.
  rewrite Hm. f_equal. destruct c. cbn in *. by subst.
Qed.

Lemma Receives_ret {A} (v : A) : Receives (mret v) [] v.
Proof. by apply Receives_pure. Qed.

Lemma Receives_bind {A B} (m : M A) (f : A -> M B) ps qs a b :
  Receives m ps a -> Receives (f a) qs b -> Receives (m ≫= f) (ps ++ qs) b.
Proof.
  intros Hm Hf c rest seq' Hp Hb (out & Hall & E).
  apply framedAll_app_inv in Hall as (o1 & o2 & s1 & -> & F1 & F2). rewrite <- app_assoc in E.
  erewrite bind_M_run by (apply (Hm c (o2 ++ rest) s1 Hp Hb); by exists o1).
  rewrite (Hf _ rest seq'); [done | done | done |]. by exists o2.
Qed.

Lemma Receives_ReadPacket p : Receives ReadPacket [p] p.
Proof.
  intros c rest seq' Hp Hb (out & Hf%framedAll_one & E). by eapply ReadPacket_framed.
Qed.

Lemma set_ephemeral_restore c r s :
  policy c = ephemeralUnused -> buffer c = None ->
  set_ephemeral ephemeralUnused None (set_rd r (set_sequence s c)) =
  set_rd r (set_sequence s c).
Proof. destruct c; cbn. by intros -> ->. Qed.

Lemma RecycleRead_run b c :
  RecycleReadPacket (set_ephemeral ephemeralRead b c) = (Ok tt, set_ephemeral ephemeralUnused None c).
Proof. done. Qed.

(** An ephemeral packet whose content is handled without touching the
    connection, and recycled. *)
Lemma Receives_ephemeral {A} (handle : bytes -> M A) p v :
  (forall c, handle p c = (Ok v, c)) ->
  Receives (data ← serverLost ReadEphemeralPacket; deferred RecycleReadPacket (handle data)) [p] v.
Proof.
  intros Hh c rest seq' Hp Hb (out & Hf%framedAll_one & E).
  destruct (ReadEphemeral_framed _ _ _ _ c rest Hf eq_refl E Hp Hb) as (b & ER).
  erewrite bind_M_run by (by apply wrapErr_Ok). unfold deferred. rewrite Hh, RecycleRead_run.
  by rewrite set_ephemeral_restore.
Qed.

Lemma Receives_repeatM {A} (m : M A) g vs :
  (forall v, In v vs -> Receives m [g v] v) -> Receives (repeatM (length vs) m) (g <$> vs) vs.
Proof.
  induction vs as [|v vs IH]; intros Hall; cbn [repeatM length].
  - apply Receives_ret.
  - change (g <$> v :: vs) with ([g v] ++ (g <$> vs)).
    apply (Receives_bind _ _ _ _ v); [apply Hall; by left|].
    rewrite <- (app_nil_r (g <$> vs)).
    apply (Receives_bind _ _ _ _ vs); [apply IH; intros; apply Hall; by right | apply Receives_ret].
Qed.

(** Sent packets are received: the two sides agree on payloads, sequence
    numbers and the rest of the stream. *)
Lemma Sends_Receives {A B} fl (m : M A) (r : M B) ps a b c n peer rest :
  Sends fl m ps a -> Receives r ps b -> statusFlags c = fl -> 0 <= n -> live (cost ps + n) c ->
  policy peer = ephemeralUnused -> buffer peer = None -> sequence peer = sequence c ->
  exists c' out, m c = (Ok a, c') /\ sent c' = sent c ++ out /\ live n c' /\
    (rd peer = out ++ rest ->
     r peer = (Ok b, set_rd rest (set_sequence (sequence c') peer))).
Proof.
  intros Hs Hr Hfl Hn Hl Hp Hb Hq. destruct (Hs c n Hfl Hn Hl) as (c' & out & E & Hf & Hsent & Hl' & _).
  exists c', out. split_and!; [done..|]. intros HE. apply Hr; [done | done |].
  exists out. by rewrite Hq.
Qed.

(** ** Reading a payload field by field *)
Lemma reads_at {A} (r : bytes -> Z -> reader A) data pos pre e post v :
  Reads r e v -> data = pre ++ e ++ post -> pos = len pre -> len data < two63 ->
  r data pos = Ok (Some (v, len (pre ++ e))).
Proof. intros Hr -> -> Hl. rewrite Hr by done. by rewrite len_app. Qed.

Lemma readM_at {A B} what (r : bytes -> Z -> reader A) data pos pre e post v (k : A * Z -> M B) c :
  Reads r e v -> data = pre ++ e ++ post -> pos = len pre -> len data < two63 ->
  (readM what (r data pos) ≫= k) c = k (v, len (pre ++ e)) c.
Proof.
  intros Hr Hd Hp Hl. unfold readM. rewrite (reads_at r data pos pre e post v) by done. done.
Qed.

Lemma skipM_at {B} what data pos pre s post (k : Z -> M B) c :
  data = pre ++ lenencString s ++ post -> pos = len pre -> len data < two63 ->
  (skipM what data pos ≫= k) c = k (len (pre ++ lenencString s)) c.
Proof.
  intros -> -> Hl. unfold skipM. pose proof (Reads_LenEncString s pre post Hl) as R.
  unfold ReadLenEncString, ReadLenEncStringAsBytes in R. unfold SkipLenEncString.
  destruct (ReadLenEncInt _ _) as [[[size p]|]|e|]; cbn [mbind res_bind] in *; try done.
  destruct (_ <=? _); [done|].
  destruct (slice _ _ _); cbn [mbind res_bind] in R; try done. injection R as _ E.
  unfold lift. cbn. by rewrite E, len_app.
Qed.

Lemma need_at {A B} err (r : bytes -> Z -> reader A) data pos pre e post v (k : A * Z -> res B) :
  Reads r e v -> data = pre ++ e ++ post -> pos = len pre -> len data < two63 ->
  (need err (r data pos) ≫= k) = k (v, len (pre ++ e)).
Proof.
  intros Hr Hd Hp Hl. unfold need. by rewrite (reads_at r data pos pre e post v) by done.
Qed.

Create HintDb reads.
#[export] Hint Resolve Reads_Byte Reads_LenEncString Reads_Uint16 Reads_Uint32 Reads_Uint64
  Reads_LenEncInt : reads.

(** One step along [Hd : data = pre ++ e ++ post]; afterwards the prefix of
    [Hd] includes [e]. *)
Ltac along lem Hd :=
  match type of Hd with
  | ?data = ?pre ++ ?e ++ ?post =>
    erewrite (lem _ _ _ _ data _ pre e post);
      [ cbn beta iota; rewrite (app_assoc pre e post) in Hd
      | solve [eauto with reads] | exact Hd | reflexivity | assumption ]
  end.

(** ** Type codes *)
Definition columnTypes : list Z :=
  upto 0 17 ++ [FieldTypeUint8; FieldTypeUint16; FieldTypeUint24; FieldTypeUint32; FieldTypeUint64] ++
  upto 245 256.

(** The flags a column definition goes out with. *)
Definition effectiveFlags (f : Field) : Z :=
  if negb (Flags f =? 0) then Flags f else snd (TypeToMySQL (FieldType f)).

Definition type_restored (t : Z) : bool :=
  let '(code, flags) := TypeToMySQL t in
  match MySQLToType code flags with
  | Ok r => r =? (if (t =? FieldTypeVarChar) || (t =? FieldTypeNewDate) || (t =? FieldTypeNewDecimal)
                  then FieldTypeDecimal else t)
  | _ => false
  end.

(** Sending the type of a column and reading it back gives the same type for
    every type but three: VARCHAR, NEWDATE and NEWDECIMAL are not in the table
    of the writer and arrive as DECIMAL. *)
Theorem type_roundtrip t :
  In t columnTypes ->
  let '(code, flags) := TypeToMySQL t in
  MySQLToType code flags =
    Ok (if (t =? FieldTypeVarChar) || (t =? FieldTypeNewDate) || (t =? FieldTypeNewDecimal)
        then FieldTypeDecimal else t).
Proof.
  intros Hin. assert (Hall : forallb type_restored columnTypes = true) by (vm_compute; reflexivity).
  rewrite forallb_forall in Hall. specialize (Hall t Hin). unfold type_restored in Hall.
  destruct (TypeToMySQL t) as [code flags].
  destruct (MySQLToType code flags) as [r| |]; [|done..]. zbool. congruence.
Qed.

Lemma type_roundtrip_witness :
  MySQLToType 3 32 = Ok FieldTypeUint32 /\ MySQLToType 0 0 = Ok FieldTypeDecimal.
Proof.
  split; [exact (type_roundtrip FieldTypeUint32 ltac:(vm_compute; tauto)) |
          exact (type_roundtrip FieldTypeVarChar ltac:(vm_compute; tauto))].
Defined.

(** ** Column definitions *)
Definition colDefBytes (f : Field) : bytes :=
  lenencString (bytes_of "def") ++ lenencString (Database f) ++ lenencString (Table f) ++
  lenencString (OrgTable f) ++ lenencString (Name f) ++ lenencString (OrgName f) ++
  [12] ++ le 2 (CharSet f) ++ le 4 (ColumnLength f) ++
  [u8 (fst (TypeToMySQL (FieldType f)))] ++ le 2 (effectiveFlags f mod 65536) ++
  [Decimals f] ++ le 2 0 ++ [].

(** A column the protocol can carry: fields within their width, strings that
    fit a packet together, and a type that agrees with the flags. *)
Record wireField (f : Field) : Prop := {
  wf_size : len (colDefBytes f) < two63;
  wf_charset : 0 <= CharSet f < 65536;
  wf_collen : 0 <= ColumnLength f < 4294967296;
  wf_flags : 0 <= Flags f < 65536;
  wf_default : DefaultValueLength f = 0 /\ DefaultValue f = None;
  wf_type : MySQLToType (u8 (fst (TypeToMySQL (FieldType f)))) (effectiveFlags f) = Ok (FieldType f) }.

Definition withFlags (fl : Z) (f : Field) : Field :=
  mkField (Table f) (OrgTable f) (Database f) (Name f) (OrgName f) fl (FieldType f) (Decimals f)
    (CharSet f) (ColumnLength f) (DefaultValueLength f) (DefaultValue f).

Lemma TypeToMySQL_flags t : 0 <= snd (TypeToMySQL t) < 65536.
Proof. unfold TypeToMySQL. repeat case_match; cbn; unfold UnsignedFlag, BinaryFlag; lia. Qed.

Lemma effectiveFlags_range f : 0 <= Flags f < 65536 -> 0 <= effectiveFlags f < 65536.
Proof. unfold effectiveFlags. destruct (negb _); [done | intros; apply TypeToMySQL_flags]. Qed.

Lemma colDefBytes_len f :
  len (colDefBytes f) =
    4 + LenEncStringSize (Database f) + LenEncStringSize (Table f) + LenEncStringSize (OrgTable f) +
    LenEncStringSize (Name f) + LenEncStringSize (OrgName f) + 1 + 2 + 4 + 1 + 2 + 1 + 2.
Proof.
  unfold colDefBytes. rewrite !len_app, !lenencString_len, !le_length, !len_singleton.
  change (LenEncStringSize (bytes_of "def")) with 4. change (len []) with 0. lia.
Qed.

Lemma writeColumnDefinition_sends `{BufPool} fl f :
  wireField f -> Sends fl (writeColumnDefinition f) [colDefBytes f] tt.
Proof.
  intros Hf. pose proof (wf_size f Hf) as Hs. rewrite colDefBytes_len in Hs.
  unfold LenEncStringSize in Hs.
  pose proof (LenEncIntSize_pos (len (Database f))); pose proof (LenEncIntSize_pos (len (Table f))).
  pose proof (LenEncIntSize_pos (len (OrgTable f))); pose proof (LenEncIntSize_pos (len (Name f))).
  pose proof (LenEncIntSize_pos (len (OrgName f))).
  pose proof (len_nonneg (Database f)); pose proof (len_nonneg (Table f)).
  pose proof (len_nonneg (OrgTable f)); pose proof (len_nonneg (Name f)).
  pose proof (len_nonneg (OrgName f)).
  unfold writeColumnDefinition, colDefBytes, effectiveFlags.
  destruct (TypeToMySQL (FieldType f)) as [typ flags0]; cbn [fst snd].
  apply sendChecked_sends.
  - repeat (apply Writes_cons; [first [apply Writes_LenEncString; first [lia | vm_compute; reflexivity] | apply _]|]).
    apply Writes_nil.
  - fold (effectiveFlags f). rewrite !len_app, !lenencString_len, !le_length, !len_singleton.
    unfold LenEncStringSize. change (len (bytes_of "def")) with 3. change (LenEncIntSize 3) with 1.
    change (len []) with 0. lia.
Qed.

Lemma parseColumnDefinition_bytes f c :
  wireField f -> parseColumnDefinition (colDefBytes f) c = (Ok (withFlags (effectiveFlags f) f), c).
Proof.
  intros [Hs Hcs Hcl Hfl [Hd0 Hd] Ht]. pose proof (effectiveFlags_range f Hfl) as Hef.
  unfold parseColumnDefinition. rewrite bind_M_run with (a := false) (c1 := c) by done.
  cbn iota. remember (colDefBytes f) as data eqn:Hdata.
  assert (Hl : data = [] ++ lenencString (bytes_of "def") ++ lenencString (Database f) ++
    lenencString (Table f) ++ lenencString (OrgTable f) ++ lenencString (Name f) ++
    lenencString (OrgName f) ++ [12] ++ le 2 (CharSet f) ++ le 4 (ColumnLength f) ++
    [u8 (fst (TypeToMySQL (FieldType f)))] ++ le 2 (effectiveFlags f) ++ [Decimals f] ++ le 2 0 ++ []).
  { subst data. unfold colDefBytes. cbn [app]. by rewrite (Z.mod_small (effectiveFlags f)). }
  erewrite skipM_at; [|exact Hl | done | done]. rewrite (app_assoc []) in Hl.
  do 5 along @readM_at Hl.
  match type of Hl with _ = ?pre ++ [12] ++ ?post =>
    replace (len pre + 1) with (len (pre ++ [12])) by (by rewrite len_app);
    rewrite (app_assoc pre) in Hl end.
  do 4 along @readM_at Hl.
  rewrite Ht. along @readM_at Hl.
  match type of Hl with _ = ?pre ++ ?post =>
    assert (Hlen : len data = len pre + 2) by (rewrite Hl, !(len_app _ (le 2 0 ++ [])); done) end.
  match goal with |- context [?a + 8 <? len data] =>
    destruct (Z.ltb_spec (a + 8) (len data)); [lia|] end.
  unfold withFlags, mret, M_ret. by rewrite Hd0, Hd.
Qed.

Lemma ReadColumnDefinition_receives f :
  wireField f -> Receives ReadColumnDefinition [colDefBytes f] (withFlags (effectiveFlags f) f).
Proof. intros Hf. apply Receives_ephemeral. intros c. by apply parseColumnDefinition_bytes. Qed.

(** ** OK, EOF and error packets *)
Definition okBytes (hd affectedRows lastInsertID flags warnings : Z) : bytes :=
  [hd] ++ lenenc affectedRows ++ lenenc lastInsertID ++ le 2 flags ++ le 2 warnings ++ [].

Definition eofBytes (flags warnings : Z) : bytes :=
  [EOFPacket] ++ le 2 warnings ++ le 2 flags ++ [].

Definition errBytes (se : SQLError) : bytes :=
  ([ErrPacket] ++ le 2 (Num se) ++ [35] ++ []) ++ State se ++ Message se ++ [].

Lemma okBytes_len hd a l f w :
  len (okBytes hd a l f w) = 1 + LenEncIntSize a + LenEncIntSize l + 2 + 2.
Proof.
  unfold okBytes. rewrite !len_app, !lenenc_len, !le_length, !len_singleton.
  change (len []) with 0. lia.
Qed.

Lemma okPacket_sends `{BufPool} fl hd a l f w :
  Sends fl (okPacket hd a l f w) [okBytes hd a l f w] tt.
Proof.
  apply sendPacket_sends; [|apply okBytes_len].
  unfold okBytes. repeat (apply Writes_cons; [apply _|]). apply Writes_nil.
Qed.

Lemma WriteEOFPacket_sends `{BufPool} fl f w : Sends fl (WriteEOFPacket f w) [eofBytes f w] tt.
Proof.
  apply sendPacket_sends; [|done].
  unfold eofBytes. repeat (apply Writes_cons; [apply _|]). apply Writes_nil.
Qed.

Lemma okBytes_short hd a l f w : len (okBytes hd a l f w) < two63.
Proof.
  rewrite okBytes_len. pose proof (LenEncIntSize_pos a); pose proof (LenEncIntSize_pos l).
  unfold_width. lia.
Qed.

Lemma ParseOKPacket_bytes hd a l f w :
  in_u64 a -> in_u64 l -> 0 <= f < 65536 -> 0 <= w < 65536 ->
  ParseOKPacket (okBytes hd a l f w) = Ok (a, l, f, w).
Proof.
  intros Ha Hl Hf Hw. pose proof (okBytes_short hd a l f w) as Hs. unfold ParseOKPacket.
  assert (Hd : okBytes hd a l f w = [hd] ++ lenenc a ++ lenenc l ++ le 2 f ++ le 2 w ++ []) by done.
  remember (okBytes hd a l f w) as data. do 4 along @need_at Hd. done.
Qed.

Lemma ParseEOFPacket_bytes f w :
  0 <= f < 65536 -> 0 <= w < 65536 ->
  ParseEOFPacket (eofBytes f w) = Ok (w, hasFlag f ServerMoreResultsExists).
Proof.
  intros Hf Hw. unfold ParseEOFPacket, eofBytes.
  rewrite (reads_at ReadUint16 _ 1 [EOFPacket] (le 2 w) (le 2 f ++ []) w);
    [|by apply Reads_Uint16 | done | done | done].
  cbn [mbind res_bind].
  rewrite (reads_at ReadUint16 _ 3 ([EOFPacket] ++ le 2 w) (le 2 f) [] f);
    [done | by apply Reads_Uint16 | done | done | done].
Qed.

(** The numbers of a statement without rows survive the protocol: what
    [WriteOKPacket] sends, [ParseOKPacket] of the client returns, for all 64-bit
    row counts and ids, and likewise for the OK packet with an EOF header that
    ends a result set; the reader leaves nothing of the packet behind. *)
Theorem ok_packet_roundtrip `{BufPool} hd affectedRows lastInsertID flags warnings c n :
  in_u64 affectedRows -> in_u64 lastInsertID -> 0 <= flags < 65536 -> 0 <= warnings < 65536 ->
  0 <= n -> live (cost [okBytes hd affectedRows lastInsertID flags warnings] + n) c ->
  exists c' out, okPacket hd affectedRows lastInsertID flags warnings c = (Ok tt, c') /\
    sent c' = sent c ++ out /\ live n c' /\
    forall peer rest, sequence peer = sequence c -> rd peer = out ++ rest ->
      exists data peer', ReadPacket peer = (Ok data, peer') /\ rd peer' = rest /\
        sequence peer' = sequence c' /\
        ParseOKPacket data = Ok (affectedRows, lastInsertID, flags, warnings).
Proof.
  intros Ha Hl Hf Hw Hn Hlive.
  destruct (okPacket_sends (statusFlags c) hd affectedRows lastInsertID flags warnings c n eq_refl Hn Hlive)
    as (c' & out & E & Hfr%framedAll_one & Hs & Hl' & _).
  exists c', out. split_and!; [done..|]. intros peer rest Hq Hr.
  rewrite <- Hq in Hfr. rewrite (ReadPacket_framed _ _ _ _ peer rest Hfr eq_refl Hr).
  do 2 eexists. split_and!; [done..|]. by apply ParseOKPacket_bytes.
Qed.

Lemma ok_packet_roundtrip_witness :
  exists c' out, okPacket OKPacket 300 7 2 1 (NewConn [] 6) = (Ok tt, c') /\
    out = [9; 0; 0; 0; 0; 252; 44; 1; 7; 2; 0; 1; 0] /\
    exists data peer', ReadPacket (NewConn (out ++ [5]) 0) = (Ok data, peer') /\ rd peer' = [5] /\
      ParseOKPacket data = Ok (300, 7, 2, 1).
Proof.
  destruct (ok_packet_roundtrip OKPacket 300 7 2 1 (NewConn [] 6) 0) as (c' & out & E & S & _ & R);
    [vm_compute; intuition congruence.. | lia | lia | lia | split; try done; vm_compute; congruence |].
  vm_compute in E. injection E as <-. vm_compute in S. subst out.
  do 2 eexists. split; [vm_compute; reflexivity|]. split; [reflexivity|].
  destruct (R (NewConn ([9; 0; 0; 0; 0; 252; 44; 1; 7; 2; 0; 1; 0] ++ [5]) 0) [5] eq_refl eq_refl)
    as (data & peer' & ? & ? & _ & ?). by exists data, peer'.
Defined.

Lemma errBytes_len se : len (State se) = 5 -> len (errBytes se) = 1 + 2 + 1 + 5 + len (Message se).
Proof.
  intros H5. unfold errBytes. rewrite !len_app, !le_length, !len_singleton, H5.
  change (len []) with 0. lia.
Qed.

(** Rewrite the writers of the goal with the layout [e] they store. *)
Ltac layout e :=
  lazymatch goal with |- context [writeAll ?ws ?d ?p] =>
    let W := fresh in
    assert (W : Writes (writeAll ws) e)
      by (unfold e; repeat (apply Writes_cons; [apply _|]); apply Writes_nil);
    rewrite (W d p); clear W
  end.

Lemma WriteErrorPacket_sends `{BufPool} fl se :
  len (State se) = 5 -> 0 <= Num se < 65536 ->
  Sends fl (WriteErrorPacketFromError (SQLErr se)) [errBytes se] tt.
Proof.
  intros H5 Hnum c n Hfl Hn [Hb Hwo Hp Hbuf Ha]. cbn [WriteErrorPacketFromError].
  rewrite Z.mod_small by lia. unfold WriteErrorPacket.
  set (pre := [ErrPacket] ++ le 2 (Num se) ++ [35] ++ []).
  set (post := State se ++ Message se ++ []).
  assert (Epre : len pre = 4) by done.
  assert (Epost : len post = 5 + len (Message se))
    by (unfold post; rewrite !len_app; change (len []) with 0; lia).
  pose proof (len_nonneg (Message se)).
  set (b := Get _). assert (Hlen : len b = 9 + len (Message se)) by (unfold b; rewrite Get_len; lia).
  erewrite bind_M_run by (by apply StartEphemeral_run).
  erewrite bind_M_run.
  2:{ unfold lift. layout pre; [done | lia | lia]. }
  cbn beta iota. erewrite bind_M_run by reflexivity.
  assert (Hst : match State se with [] => SSUnknownSQLState | _ => State se end = State se)
    by (by destruct (State se)).
  rewrite Hst, H5. change (negb (5 =? 5)) with false. cbn iota.
  erewrite bind_M_run.
  2:{ unfold lift. layout post; [done | lia | rewrite splice_len; lia]. }
  cbn beta iota. erewrite bind_M_run by reflexivity.
  assert (Ebuf : splice (splice b 0 pre) (0 + len pre) post = errBytes se).
  { rewrite splice_splice by lia. unfold splice. cbn [Z.to_nat take app plus].
    rewrite drop_ge; [|rewrite length_app; unfold len in *; lia]. by rewrite app_nil_r. }
  rewrite Ebuf.
  destruct (WriteEphemeralPacket_sends n (errBytes se) (set_ephemeral ephemeralWrite (Some (errBytes se)) c))
    as (c' & out & E & Hf & Hs & Hl' & R & F); [done..|].
  exists c', out. split_and!; try done. by apply framedAll_one.
Qed.

Lemma ParseErrorPacket_bytes se :
  len (State se) = 5 -> 0 <= Num se < 65536 -> len (Message se) < two63 - 9 ->
  ParseErrorPacket (errBytes se) = Ok se.
Proof.
  intros H5 Hnum Hm. unfold ParseErrorPacket. pose proof (len_nonneg (Message se)).
  assert (Hs : len (errBytes se) < two63) by (rewrite errBytes_len by done; lia).
  remember (errBytes se) as data eqn:Hdata.
  assert (Hd : data = [ErrPacket] ++ le 2 (Num se) ++ [35] ++ State se ++ Message se ++ []).
  { subst data. unfold errBytes. rewrite app_nil_r. by rewrite <- !app_assoc. }
  rewrite (reads_at ReadUint16 data 1 [ErrPacket] (le 2 (Num se)) ([35] ++ State se ++ Message se ++ []) (Num se));
    [|by apply Reads_Uint16 | done | done | done].
  cbn [mbind res_bind].
  rewrite (reads_at (fun d p => ReadBytes d p 5) data _ ([ErrPacket] ++ le 2 (Num se) ++ [35]) (State se)
             (Message se ++ []) (State se)); [|by apply Reads_Bytes | by rewrite <- !app_assoc | done | done].
  cbn [mbind res_bind].
  pose proof (slice_mid ([ErrPacket] ++ le 2 (Num se) ++ [35] ++ State se) (Message se) []) as Esl.
  rewrite app_nil_r in Esl.
  replace (len (([ErrPacket] ++ le 2 (Num se) ++ [35]) ++ State se))
    with (len ([ErrPacket] ++ le 2 (Num se) ++ [35] ++ State se)) by (by rewrite <- !app_assoc).
  replace (len data) with (len ([ErrPacket] ++ le 2 (Num se) ++ [35] ++ State se) + len (Message se))
    by (rewrite Hd, !len_app; change (len []) with 0; lia).
  rewrite Hd, app_nil_r. rewrite <- !app_assoc in Esl. rewrite Esl.
  cbn. unfold NewSQLError. destruct se as [num [|x st] msg]; done.
Qed.

(** ** Result sets *)

(** A payload the reader of rows takes for a row. *)
Definition isRow (p : bytes) : Prop :=
  match p with
  | [] => False
  | b :: _ => b <> ErrPacket /\ (b = EOFPacket -> 9 <= len p)
  end.

(** The packets of a result set. *)
Definition endBytes (capabilities flags warnings : Z) : bytes :=
  if deprecateEOF capabilities then okBytes EOFPacket 0 0 flags warnings else eofBytes flags warnings.

Definition resultSet (capabilities flags : Z) (fields : list Field) (rows : list bytes) (warnings : Z)
  : list bytes :=
  [lenenc (len fields)] ++ (colDefBytes <$> fields) ++
  (if deprecateEOF capabilities then [] else [eofBytes flags 0]) ++
  rows ++ [endBytes capabilities flags warnings].

Lemma IsEOFPacket_row p : isRow p -> IsEOFPacket p = Ok false /\ IsErrorPacket p = Ok false.
Proof.
  destruct p as [|b p]; [done|]. intros [Hb Hl]. unfold IsEOFPacket, IsErrorPacket.
  change (get (b :: p) 0) with (@Ok Z b). cbn [mbind res_bind].
  destruct (Z.eqb_spec b ErrPacket); [done|]. split; [|done].
  destruct (Z.eqb_spec b EOFPacket) as [Hb'|]; [|done]. specialize (Hl Hb').
  destruct (Z.ltb_spec (len (b :: p)) 9) as [?|?]; [lia | done].
Qed.

Lemma IsEOFPacket_end cap flags w : IsEOFPacket (endBytes cap flags w) = Ok true.
Proof. unfold endBytes. by destruct (deprecateEOF cap). Qed.

Lemma readRows_receives cap flags rows warnings acc fuel :
  Forall isRow rows -> 0 <= flags < 65536 -> 0 <= warnings < 65536 -> (length rows < fuel)%nat ->
  Receives (readRows fuel (deprecateEOF cap) acc) (rows ++ [endBytes cap flags warnings])
    (acc ++ rows, hasFlag flags ServerMoreResultsExists, warnings).
Proof.
  intros Hrows Hf Hw. revert acc fuel.
  induction Hrows as [|p rows Hp Hrows IH]; intros acc [|fuel] Hfuel; cbn in Hfuel; try lia; cbn [readRows].
  - cbn [app]. rewrite app_nil_r.
    apply (Receives_bind _ _ [_] [] (endBytes cap flags warnings)); [apply Receives_ReadPacket|].
    apply Receives_pure. intros c.
    erewrite bind_M_run by (unfold lift; by rewrite IsEOFPacket_end). cbn iota.
    unfold endBytes, lift. destruct (deprecateEOF cap); cbn [negb].
    + by erewrite bind_M_run by (by rewrite ParseOKPacket_bytes).
    + by erewrite bind_M_run by (by rewrite ParseEOFPacket_bytes).
  - cbn [app]. apply (Receives_bind _ _ [p] _ p); [apply Receives_ReadPacket|].
    destruct (IsEOFPacket_row p Hp) as [He Hr].
    intros c rest seq' Hpol Hbuf Hin.
    erewrite bind_M_run by (unfold lift; by rewrite He). cbn iota.
    erewrite bind_M_run by (unfold lift; by rewrite Hr). cbn iota.
    rewrite (IH (acc ++ [p]) fuel ltac:(lia) c rest seq' Hpol Hbuf Hin). by rewrite <- app_assoc.
Qed.

Lemma readAllRows_receives cap flags rows warnings :
  Forall isRow rows -> 0 <= flags < 65536 -> 0 <= warnings < 65536 ->
  Receives (readAllRows (deprecateEOF cap)) (rows ++ [endBytes cap flags warnings])
    (rows, hasFlag flags ServerMoreResultsExists, warnings).
Proof.
  intros Hrows Hf Hw c rest seq' Hp Hb Hin. unfold readAllRows.
  apply (readRows_receives cap flags rows warnings [] (S (length (rd c))) Hrows Hf Hw); try done.
  destruct Hin as (out & Hfr & ->).
  assert (length (rows ++ [endBytes cap flags warnings]) <= length out)%nat.
  { clear -Hfr. induction Hfr as [|? ? ? ? ? ? ? Hp Hps IH]; cbn; [lia|].
    rewrite length_app. apply framed_length in Hp. lia. }
  rewrite length_app in H |- *. lia.
Qed.

Lemma readFieldsEOF_receives flags w : Receives readFieldsEOF [eofBytes flags w] tt.
Proof.
  intros c rest seq' Hp Hb (out & Hf%framedAll_one & E).
  destruct (ReadEphemeral_framed _ _ _ _ c rest Hf eq_refl E Hp Hb) as (b & ER).
  unfold readFieldsEOF. erewrite bind_M_run by (by apply wrapErr_Ok).
  erewrite bind_M_run by reflexivity. cbn iota. rewrite RecycleRead_run.
  by rewrite set_ephemeral_restore.
Qed.

Lemma columnCount_receives n :
  0 < n < two63 -> Receives ReadComQueryResponse [lenenc n] (0, 0, n, false, 0).
Proof.
  intros Hn. apply Receives_ephemeral. intros c.
  assert (Hu : in_u64 n) by (unfold_width; lia).
  pose proof (Reads_LenEncInt n Hu [] []) as R. cbn [app] in R. rewrite app_nil_r, lenenc_len in R.
  pose proof (LenEncIntSize_pos n).
  change (len []) with 0 in R. specialize (R ltac:(unfold_width; lia)).
  assert (Hhd : exists b tl, lenenc n = b :: tl /\ b <> OKPacket /\ b <> ErrPacket /\ b <> 251).
  { unfold lenenc, OKPacket, ErrPacket.
    destruct (Z.ltb_spec n 251).
    - do 2 eexists. split; [reflexivity|]. unfold u8, two8. rewrite Z.mod_small by lia. lia.
    - destruct (n <? 2 ^ 16); [|destruct (n <? 2 ^ 24)];
        do 2 eexists; (split; [reflexivity|]); lia. }
  destruct Hhd as (b & tl & Eb & H1 & H2 & H3). unfold parseComQueryResponse.
  rewrite Eb in *. destruct (Z.eqb_spec b OKPacket); [done|].
  destruct (Z.eqb_spec b ErrPacket); [done|]. destruct (Z.eqb_spec b 251); [done|].
  erewrite bind_M_run.
  2:{ unfold readM, lift. rewrite R. by erewrite bind_M_run by reflexivity. }
  cbn iota. rewrite <- Eb, lenenc_len, Z.add_0_l, Z.eqb_refl. cbn.
  unfold mret, M_ret. by rewrite i64_id by (unfold_width; lia).
Qed.

Lemma ReadQueryResult_receives cap flags fields rows warnings :
  fields <> [] -> len fields < two63 -> Forall wireField fields -> Forall isRow rows ->
  0 <= flags < 65536 -> 0 <= warnings < 65536 ->
  Receives (ReadQueryResult cap true) (resultSet cap flags fields rows warnings)
    (mkResult (Some ((fun f => withFlags (effectiveFlags f) f) <$> fields)) (len rows) 0 rows,
     hasFlag flags ServerMoreResultsExists, warnings).
Proof.
  intros Hne Hlen Hfields Hrows Hf Hw.
  assert (Hpos : 0 < len fields) by (destruct fields; [done | unfold len; cbn; lia]).
  unfold ReadQueryResult, resultSet.
  apply (Receives_bind _ _ _ _ (0, 0, len fields, false, 0)); [by apply columnCount_receives|].
  cbn beta iota. destruct (Z.eqb_spec (len fields) 0); [lia|].
  destruct (Z.ltb_spec (len fields) 0); [lia|].
  set (g := fun f => withFlags (effectiveFlags f) f).
  apply (Receives_bind _ _ _ _ (g <$> fields)).
  { replace (Z.to_nat (len fields)) with (length (g <$> fields))
      by (rewrite length_fmap; unfold len; lia).
    clear -Hfields. induction Hfields as [|f fs Hf Hfs IH]; cbn [repeatM length]; [apply Receives_ret|].
    change (colDefBytes <$> f :: fs) with ([colDefBytes f] ++ (colDefBytes <$> fs)).
    apply (Receives_bind _ _ _ _ (g f)); [by apply ReadColumnDefinition_receives|].
    rewrite <- (app_nil_r (colDefBytes <$> fs)).
    apply (Receives_bind _ _ _ _ (g <$> fs)); [exact IH | apply Receives_ret]. }
  apply (Receives_bind _ _ _ _ tt).
  { destruct (deprecateEOF cap); cbn [negb]; [apply Receives_ret | apply readFieldsEOF_receives]. }
  rewrite <- (app_nil_r (rows ++ _)).
  apply (Receives_bind _ _ _ _ (rows, hasFlag flags ServerMoreResultsExists, warnings));
    [by apply readAllRows_receives | apply Receives_ret].
Qed.

(** The server's side: fields, rows that go out as packets, end of result. *)
Lemma resultSet_sends `{BufPool} fl cap fields (sendRows : M unit) rows warnings :
  fields <> [] -> Forall wireField fields -> Sends fl sendRows rows tt ->
  Sends fl (_ ← WriteFields cap fields; _ ← sendRows; WriteEndResult cap false 0 0 warnings)
    (resultSet cap fl fields rows warnings) tt.
Proof.
  intros Hne Hfields Hrows. unfold resultSet, WriteFields.
  set (A := [lenenc _]). set (B := colDefBytes <$> fields). set (C := if deprecateEOF cap then _ else _).
  replace (A ++ B ++ C ++ rows ++ [endBytes cap fl warnings])
    with ((A ++ B ++ C) ++ rows ++ [endBytes cap fl warnings]) by (by rewrite <- !app_assoc).
  apply (Sends_bind _ _ _ _ _ tt); [|apply (Sends_bind _ _ _ _ _ tt); [exact Hrows|]].
  - apply (Sends_bind _ _ _ _ _ tt).
    { apply sendPacket_sends; [|apply lenenc_len]. rewrite <- (app_nil_r (lenenc _)).
      apply Writes_cons; [apply _ | apply Writes_nil]. }
    apply (Sends_bind _ _ _ _ _ tt).
    { apply Sends_eachM. intros f Hin. apply writeColumnDefinition_sends.
      rewrite List.Forall_forall in Hfields. by apply Hfields. }
    unfold C. destruct (deprecateEOF cap); cbn [negb]; [apply Sends_ret|].
    apply Sends_gets, WriteEOFPacket_sends.
  - unfold WriteEndResult, endBytes. apply Sends_gets.
    destruct (deprecateEOF cap); cbn [negb]; [apply okPacket_sends | apply WriteEOFPacket_sends].
Qed.

(** A result set arrives as it was sent.  For every list of well-formed
    columns and every sequence of row payloads, what the server writes with
    [WriteFields], the rows and [WriteEndResult] is read by the client's
    [ReadQueryResult] as the same columns and the same rows in the same order,
    with the warnings, whether or not EOF packets are deprecated; no byte of
    the stream after it is touched and both sides agree on the sequence
    number. *)
Theorem result_set_roundtrip `{BufPool} cap fields sendRows rows warnings c n peer :
  fields <> [] -> len fields < two63 -> Forall wireField fields -> Forall isRow rows ->
  Sends (statusFlags c) sendRows rows tt ->
  0 <= statusFlags c < 65536 -> 0 <= warnings < 65536 -> 0 <= n ->
  live (cost (resultSet cap (statusFlags c) fields rows warnings) + n) c ->
  policy peer = ephemeralUnused -> buffer peer = None -> sequence peer = sequence c ->
  exists c' out,
    (_ ← WriteFields cap fields; _ ← sendRows; WriteEndResult cap false 0 0 warnings) c = (Ok tt, c') /\
    sent c' = sent c ++ out /\ live n c' /\
    forall rest, rd peer = out ++ rest ->
      ReadQueryResult cap true peer =
        (Ok (mkResult (Some ((fun f => withFlags (effectiveFlags f) f) <$> fields)) (len rows) 0 rows,
             hasFlag (statusFlags c) ServerMoreResultsExists, warnings),
         set_rd rest (set_sequence (sequence c') peer)).
Proof.
  intros Hne Hlen Hfields Hrows Hsend Hfl Hw Hn Hlive Hp Hb Hq.
  pose proof (resultSet_sends (statusFlags c) cap fields sendRows rows warnings Hne Hfields Hsend) as HS.
  pose proof (ReadQueryResult_receives cap (statusFlags c) fields rows warnings Hne Hlen Hfields Hrows Hfl Hw) as HR.
  destruct (HS c n eq_refl Hn Hlive) as (c' & out & E & Hfr & Hs & Hl & _).
  exists c', out. split_and!; [done..|]. intros rest Hrd. apply HR; [done | done |].
  exists out. by rewrite Hq.
Qed.

Lemma Sends_WriteBinaryRows fl rows : Sends fl (WriteBinaryRows rows) rows tt.
Proof.
  pose proof (Sends_eachM fl WritePacket id rows) as HS.
  rewrite list_fmap_id in HS. apply HS. intros. apply Sends_WritePacket.
Qed.

Definition sampleField : Field :=
  mkField (bytes_of "t") (bytes_of "t") (bytes_of "db") (bytes_of "id") (bytes_of "id") 33 FieldTypeUint32
    0 63 11 0 None.

Lemma sampleField_wire : wireField sampleField.
Proof. split; vm_compute; intuition congruence. Qed.

Lemma result_set_roundtrip_witness :
  exists c' out,
    (_ ← WriteFields 0 [sampleField]; _ ← WriteBinaryRows [[0; 0; 5; 0; 0; 0]];
     WriteEndResult 0 false 0 0 3) (NewConn [] 30) = (Ok tt, c') /\ sent c' = out /\
    ReadQueryResult 0 true (NewConn (out ++ [1]) 0) =
      (Ok (mkResult (Some [sampleField]) 1 0 [[0; 0; 5; 0; 0; 0]], false, 3),
       set_rd [1] (set_sequence (sequence c') (NewConn (out ++ [1]) 0))).
Proof.
  set (c := NewConn [] 30).
  assert (Hlive : live (cost (resultSet 0 (statusFlags c) [sampleField] [[0; 0; 5; 0; 0; 0]] 3) + 0) c)
    by (split; try done; vm_compute; congruence).
  pose proof (fun peer => result_set_roundtrip 0 [sampleField] (WriteBinaryRows [[0; 0; 5; 0; 0; 0]])
    [[0; 0; 5; 0; 0; 0]] 3 c 0 peer ltac:(done) ltac:(done)
    ltac:(repeat constructor; apply sampleField_wire) ltac:(repeat constructor; done)
    (Sends_WriteBinaryRows _ _) ltac:(done) ltac:(done) ltac:(done) Hlive) as HR.
  destruct (HR (NewConn [] 0)) as (c' & out & E & S & _ & _); [done..|].
  exists c', out. split; [exact E|]. split; [exact S|].
  destruct (HR (NewConn (out ++ [1]) 0)) as (c2 & out2 & E2 & S2 & _ & R2); [done..|].
  rewrite E in E2. injection E2 as <-. rewrite S in S2. apply app_inv_head in S2 as <-.
  exact (R2 [1] eq_refl).
Defined.

(** An SQL error reaches the client unchanged: number, state and message of
    the error the server sends are the ones [ParseErrorPacket] of the client
    returns, for every five-byte state and message. *)
Theorem error_packet_roundtrip `{BufPool} se c n :
  len (State se) = 5 -> 0 <= Num se < 65536 -> len (Message se) < two63 - 9 ->
  0 <= n -> live (cost [errBytes se] + n) c ->
  exists c' out, WriteErrorPacketFromError (SQLErr se) c = (Ok tt, c') /\
    sent c' = sent c ++ out /\ live n c' /\
    forall peer rest, sequence peer = sequence c -> rd peer = out ++ rest ->
      exists data peer', ReadPacket peer = (Ok data, peer') /\ rd peer' = rest /\
        IsErrorPacket data = Ok true /\ ParseErrorPacket data = Ok se.
Proof.
  intros H5 Hnum Hm Hn Hlive.
  destruct (WriteErrorPacket_sends (statusFlags c) se H5 Hnum c n eq_refl Hn Hlive)
    as (c' & out & E & Hfr%framedAll_one & Hs & Hl' & _).
  exists c', out. split_and!; [done..|]. intros peer rest Hq Hr.
  rewrite <- Hq in Hfr. rewrite (ReadPacket_framed _ _ _ _ peer rest Hfr eq_refl Hr).
  do 2 eexists. split_and!; [done | done | done |]. by apply ParseErrorPacket_bytes.
Qed.

Definition sampleError : SQLError := mkError 1045 (bytes_of "28000") (bytes_of "denied").

Lemma error_packet_roundtrip_witness :
  exists c' out, WriteErrorPacketFromError (SQLErr sampleError) (NewConn [] 6) = (Ok tt, c') /\
    exists data peer', ReadPacket (NewConn out 0) = (Ok data, peer') /\ ParseErrorPacket data = Ok sampleError.
Proof.
  destruct (error_packet_roundtrip sampleError (NewConn [] 6) 0) as (c' & out & E & _ & _ & R);
    [done | done | done | done | split; try done; vm_compute; congruence |].
  exists c', out. split; [exact E|].
  destruct (R (NewConn out 0) [] eq_refl) as (data & peer' & ? & _ & _ & ?);
    [symmetry; apply app_nil_r | by exists data, peer'].
Defined.

(** A column the proxy decodes from a backend goes out to the client with the
    same type, whatever the type code and flags were, except for VARCHAR and
    NEWDATE columns, which the client gets as DECIMAL. *)
Theorem proxied_type code flags t :
  0 <= code < 256 -> MySQLToType code flags = Ok t ->
  let out := if negb (flags =? 0) then flags else snd (TypeToMySQL t) in
  MySQLToType (u8 (fst (TypeToMySQL t))) out =
    Ok (if (t =? FieldTypeVarChar) || (t =? FieldTypeNewDate) then FieldTypeDecimal else t).
Proof.
  intros Hc Ht. cbn zeta.
  assert (Hin : In code (upto 0 256)) by (by apply upto_In).
  unfold MySQLToType in Ht. destruct (mysqlToType code) as [r|] eqn:Er; [|done].
  assert (Hr : In r (upto 0 17 ++ [245] ++ upto 247 256)).
  { assert (Hall : forallb (fun c => match mysqlToType c with
        | Some r => existsb (Z.eqb r) (upto 0 17 ++ [245] ++ upto 247 256) | None => true end)
        (upto 0 256) = true) by (vm_compute; reflexivity).
    rewrite forallb_forall in Hall. specialize (Hall code Hin). rewrite Er in Hall.
    apply existsb_exists in Hall as (x & Hx & ->%Z.eqb_eq). done. }
  injection Ht as <-. unfold modifyType, hasFlag.
  destruct (Z.eqb_spec flags 0) as [->|Hf0].
  - cbn [negb]. change (negb (Z.land 0 UnsignedFlag =? 0)) with false. cbn iota.
    vm_compute in Hr. decompose sum Hr; subst; try done; vm_compute; reflexivity.
  - cbn [negb]. destruct (negb (Z.land flags UnsignedFlag =? 0)) eqn:Hu.
    all: vm_compute in Hr; decompose sum Hr; subst; try done;
      unfold MySQLToType, modifyType, hasFlag; cbn; rewrite ?Hu; try reflexivity.
Qed.

Lemma proxied_type_witness : MySQLToType (u8 (fst (TypeToMySQL FieldTypeVarChar))) 1 = Ok FieldTypeDecimal.
Proof. exact (proxied_type 15 1 FieldTypeVarChar ltac:(lia) eq_refl). Defined.
