(* ===== verification/GoTime.v ===== *)
(** * Go's [time.Time], as far as the program uses it

    A time is its civil fields; the location is one fixed zone, taken as UTC.
    [Date] is [time.Date]: it normalizes fields outside their usual ranges by
    carrying into the next larger one, over the proleptic Gregorian calendar. *)
From Stdlib Require Import ZArith Lia.
From stdpp Require Import base decidable tactics.
From S2P Require Import Prelude.

Local Open Scope Z_scope.

Record time := mkTime {
  Year : Z; Month : Z; Day : Z; Hour : Z; Minute : Z; Second : Z; Nanosecond : Z }.

#[export] Instance time_eq_dec : EqDecision time.
Proof. solve_decision. Defined.

(** The zero value [time.Time{}]. *)
Definition zeroTime : time := mkTime 1 1 1 0 0 0 0.
Definition IsZero (t : time) : bool := bool_decide (t = zeroTime).

(** ** Days and dates

    Days are counted from 0000-03-01; years start in March, so that the leap
    day comes last. *)
Definition daysBefore (y m d : Z) : Z :=
  let y' := if m <=? 2 then y - 1 else y in
  let era := y' / 400 in
  let yoe := y' mod 400 in
  let mp := (m + 9) mod 12 in
  let doy := (153 * mp + 2) / 5 + d - 1 in
  era * 146097 + (yoe * 365 + yoe / 4 - yoe / 100 + doy).

Definition civil (days : Z) : Z * Z * Z :=
  let era := days / 146097 in
  let doe := days mod 146097 in
  let yoe := (doe - doe / 1460 + doe / 36524 - doe / 146096) / 365 in
  let doy := doe - (365 * yoe + yoe / 4 - yoe / 100) in
  let mp := (5 * doy + 2) / 153 in
  let d := doy - (153 * mp + 2) / 5 + 1 in
  let m := if mp <? 10 then mp + 3 else mp - 9 in
  (yoe + era * 400 + (if m <=? 2 then 1 else 0), m, d).

Definition Date (year month day hour min sec nsec : Z) : time :=
  let m := month - 1 in
  let y := year + m / 12 in
  let m := m mod 12 + 1 in
  let sec := sec + nsec / 1000000000 in
  let nsec := nsec mod 1000000000 in
  let min := min + sec / 60 in
  let sec := sec mod 60 in
  let hour := hour + min / 60 in
  let min := min mod 60 in
  let day := day + hour / 24 in
  let hour := hour mod 24 in
  let '(yy, mm, dd) := civil (daysBefore y m 1 + (day - 1)) in
  mkTime yy mm dd hour min sec nsec.

(** ** Valid times *)
Definition leapYear (y : Z) : bool :=
  (y mod 4 =? 0) && (negb (y mod 100 =? 0) || (y mod 400 =? 0)).

Definition daysIn (y m : Z) : Z :=
  if m =? 2 then if leapYear y then 29 else 28
  else if (m =? 4) || (m =? 6) || (m =? 9) || (m =? 11) then 30 else 31.

Definition valid (t : time) : Prop :=
  1 <= Month t <= 12 /\ 1 <= Day t <= daysIn (Year t) (Month t) /\ 0 <= Hour t < 24 /\
  0 <= Minute t < 60 /\ 0 <= Second t < 60 /\ 0 <= Nanosecond t < 1000000000.

(** The year of the era is recovered from the day of the era. *)
Lemma yoe_recovered yoe doy :
  0 <= yoe < 400 -> 0 <= doy <= 365 ->
  (doy = 365 -> (yoe + 1) mod 4 = 0 /\ ((yoe + 1) mod 100 <> 0 \/ (yoe + 1) mod 400 = 0)) ->
  let doe := yoe * 365 + yoe / 4 - yoe / 100 + doy in
  0 <= doe < 146097 /\ (doe - doe / 1460 + doe / 36524 - doe / 146096) / 365 = yoe.
Proof.
  intros Hy Hd Hleap doe. subst doe. destruct (Z.eq_dec doy 365) as [->|Hne].
  - destruct (Hleap eq_refl) as [H4 H100]. clear Hleap. split.
    all: Z.to_euclidean_division_equations; lia.
  - clear Hleap. split; Z.to_euclidean_division_equations; lia.
Qed.

Definition yday (m d : Z) : Z := (153 * ((m + 9) mod 12) + 2) / 5 + d - 1.

Lemma month_cases m : 1 <= m <= 12 ->
  m = 1 \/ m = 2 \/ m = 3 \/ m = 4 \/ m = 5 \/ m = 6 \/ m = 7 \/ m = 8 \/ m = 9 \/ m = 10 \/ m = 11 \/ m = 12.
Proof. lia. Qed.

Lemma daysIn_bound y m d :
  1 <= d <= daysIn y m ->
  1 <= d <= 31 /\ (m = 2 -> d <= if leapYear y then 29 else 28) /\
  (m = 4 \/ m = 6 \/ m = 9 \/ m = 11 -> d <= 30).
Proof.
  unfold daysIn. intros Hd. destruct (Z.eqb_spec m 2); [destruct (leapYear y); lia|].
  destruct (Z.eqb_spec m 4), (Z.eqb_spec m 6), (Z.eqb_spec m 9), (Z.eqb_spec m 11); cbn in Hd; lia.
Qed.

(** The constant part of [yday] for the month at hand. *)
Ltac eval_month :=
  repeat match goal with
  | |- context [(153 * ((?m + 9) mod 12) + 2) / 5] =>
    let v := eval vm_compute in ((153 * ((m + 9) mod 12) + 2) / 5) in
    change ((153 * ((m + 9) mod 12) + 2) / 5) with v
  end.

Lemma yday_range y m d :
  1 <= m <= 12 -> 1 <= d <= daysIn y m ->
  0 <= yday m d <= 365 /\ (yday m d = 365 -> m = 2 /\ leapYear y = true).
Proof.
  intros Hm (Hd & H2 & H30)%daysIn_bound. unfold yday.
  pose proof (month_cases m Hm) as Hc. decompose sum Hc; subst m; eval_month;
    destruct (leapYear y); split; try lia; intros; split; try done; lia.
Qed.

Lemma month_recovered y m d :
  1 <= m <= 12 -> 1 <= d <= daysIn y m ->
  let mp := (5 * yday m d + 2) / 153 in
  yday m d - (153 * mp + 2) / 5 + 1 = d /\ (if mp <? 10 then mp + 3 else mp - 9) = m.
Proof.
  intros Hm (Hd & H2 & H30)%daysIn_bound mp. subst mp. unfold yday.
  assert (H29 : m = 2 -> d <= 29) by (intros E; specialize (H2 E); destruct (leapYear y); lia).
  clear H2. pose proof (month_cases m Hm) as Hc.
  decompose sum Hc; subst m; eval_month;
    match goal with |- context [(5 * (?k + d - 1) + 2) / 153] =>
      let e := constr:((5 * (k + d - 1) + 2) / 153) in
      let v := eval vm_compute in ((5 * k + 2) / 153) in
      replace e with v by (apply Z.div_unique_pos with (5 * (k + d - 1) + 2 - 153 * v); lia)
    end; (split; [|reflexivity]);
    match goal with |- context [(153 * ?v + 2) / 5] =>
      let w := eval vm_compute in ((153 * v + 2) / 5) in change ((153 * v + 2) / 5) with w
    end; lia.
Qed.

Lemma civil_daysBefore y m d :
  1 <= m <= 12 -> 1 <= d <= daysIn y m -> civil (daysBefore y m d) = (y, m, d).
Proof.
  intros Hm Hd. unfold civil, daysBefore. fold (yday m d).
  set (y' := if m <=? 2 then y - 1 else y). set (yoe := y' mod 400).
  assert (Hyoe : 0 <= yoe < 400) by (apply Z.mod_pos_bound; lia).
  destruct (yday_range y m d Hm Hd) as [Hr Hleap].
  destruct (yoe_recovered yoe (yday m d) Hyoe Hr) as [Hdoe Hback].
  { intros H365. destruct (Hleap H365) as [-> Hl]. unfold leapYear in Hl.
    subst yoe y'. cbn. zbool. apply orb_true_iff in H0. rewrite negb_true_iff in H0.
    Z.to_euclidean_division_equations. lia. }
  set (doe := yoe * 365 + yoe / 4 - yoe / 100 + yday m d) in *.
  replace ((y' / 400 * 146097 + doe) / 146097) with (y' / 400)
    by (apply Z.div_unique_pos with doe; lia).
  replace ((y' / 400 * 146097 + doe) mod 146097) with doe
    by (apply Z.mod_unique_pos with (y' / 400); lia).
  cbn zeta in Hback. rewrite Hback.
  replace (doe - (365 * yoe + yoe / 4 - yoe / 100)) with (yday m d) by (unfold doe; lia).
  destruct (month_recovered y m d Hm Hd) as [-> ->].
  do 2 f_equal. unfold yoe, y'. destruct (m <=? 2); Z.to_euclidean_division_equations; lia.
Qed.

(** [time.Date] of a valid date and time is that date and time. *)
Lemma Date_valid t :
  valid t -> Date (Year t) (Month t) (Day t) (Hour t) (Minute t) (Second t) (Nanosecond t) = t.
Proof.
  destruct t as [y mo d h mi s ns]. intros (Hm & Hd & Hh & Hmi & Hs & Hns).
  cbn [Year Month Day Hour Minute Second Nanosecond] in *. unfold Date.
  rewrite (Z.div_small ns), (Z.mod_small ns), Z.add_0_r by lia.
  rewrite (Z.div_small s), (Z.mod_small s), Z.add_0_r by lia.
  rewrite (Z.div_small mi), (Z.mod_small mi), Z.add_0_r by lia.
  rewrite (Z.div_small h), (Z.mod_small h), Z.add_0_r by lia.
  rewrite (Z.div_small (mo - 1)), (Z.mod_small (mo - 1)) by lia.
  replace (y + 0) with y by lia. replace (mo - 1 + 1) with mo by lia.
  replace (daysBefore y mo 1 + (d - 1)) with (daysBefore y mo d) by (unfold daysBefore; lia).
  by rewrite civil_daysBefore.
Qed.
