(* ===== verification/DateTime.v ===== *)
(** * Dates and times on the wire: the time and number functions of
    [pkg/misc/utils.go]

    Text dates are byte strings; a lookup outside the digit tables and an index
    outside a slice panic.  The location argument is dropped (see [GoTime]). *)
From Stdlib Require Import ZArith Lia List.
From stdpp Require Import base list strings.
From S2P Require Import Prelude GoText Encoding GoTime.

Local Open Scope Z_scope.

(** ** Text to time *)
Definition bToi (b : Z) : res Z :=
  if (b <? 48) || (57 <? b) then Err "not [0-9]" else Ok (b - 48).

(** [year, n := 0, 1000; year += v * n; n = n / 10] over four digits. *)
Fixpoint yearLoop (i : Z) (k : nat) (b : bytes) (year n : Z) : res Z :=
  match k with
  | O => Ok year
  | S k' =>
    x ← get b i; v ← bToi x;
    yearLoop (i + 1) k' b (year + v * n) (n / 10)
  end.

Definition parseByteYear (b : bytes) : res Z := yearLoop 0 4 b 0 1000.

Definition parseByte2Digits (b1 b2 : Z) : res Z :=
  d1 ← bToi b1; d2 ← bToi b2; Ok (d1 * 10 + d2).

(** [ns += v * digit; digit /= 10] over the fraction. *)
Fixpoint nanoLoop (b : bytes) (ns digit : Z) : res Z :=
  match b with
  | [] => Ok ns
  | x :: b' => v ← bToi x; nanoLoop b' (ns + v * digit) (digit / 10)
  end.

Definition parseByteNanoSec (b : bytes) : res Z := ns ← nanoLoop b 0 100000; Ok (ns * 1000).

Definition base : bytes := bytes_of "0000-00-00 00:00:00.000000".

(** [if b[i] != c { return error }] *)
Definition expectAt (b : bytes) (i c : Z) : res unit :=
  x ← get b i; if x =? c then Ok tt else Err "bad value for field".

Definition digits2At (b : bytes) (i : Z) : res Z :=
  x ← get b i; y ← get b (i + 1); parseByte2Digits x y.

(** The part of [ParseDateTime] after the date: the clock and the fraction. *)
Definition parseClock (b : bytes) (year month day : Z) : res time :=
  _ ← expectAt b 10 32;
  hour ← digits2At b 11;
  _ ← expectAt b 13 58;
  min ← digits2At b 14;
  _ ← expectAt b 16 58;
  sec ← digits2At b 17;
  if len b =? 19 then Ok (Date year month day hour min sec 0) else
  _ ← expectAt b 19 46;
  rest ← slice b 20 (len b);
  nsec ← parseByteNanoSec rest;
  Ok (Date year month day hour min sec nsec).

Definition ParseDateTime (b : bytes) : res time :=
  if bool_decide (len b ∈ [10; 19; 21; 22; 23; 24; 25; 26]) then
    if bool_decide (b = take (length b) base) then Ok zeroTime else
    year ← parseByteYear b;
    let year := if year <=? 0 then 1 else year in
    _ ← expectAt b 4 45;
    m ← digits2At b 5;
    let month := if m <=? 0 then 1 else m in
    _ ← expectAt b 7 45;
    day ← digits2At b 8;
    let day := if day <=? 0 then 1 else day in
    if len b =? 10 then Ok (Date year month day 0 0 0 0) else parseClock b year month day
  else Err "invalid time bytes".

Definition ParseBinaryDateTime (num : Z) (data : bytes) : res time :=
  if num =? 0 then Ok zeroTime
  else if num =? 4 then
    y ← slice data 0 2; mo ← get data 2; d ← get data 3;
    Ok (Date (unle y) mo d 0 0 0 0)
  else if num =? 7 then
    y ← slice data 0 2; mo ← get data 2; d ← get data 3;
    h ← get data 4; mi ← get data 5; s ← get data 6;
    Ok (Date (unle y) mo d h mi s 0)
  else if num =? 11 then
    y ← slice data 0 2; mo ← get data 2; d ← get data 3;
    h ← get data 4; mi ← get data 5; s ← get data 6; us ← slice data 7 11;
    Ok (Date (unle y) mo d h mi s (unle us * 1000))
  else Err ("invalid DATETIME packet length " +:+ FormatInt num).

(** ** Time to text *)
Definition digits01 : string :=
  "0123456789012345678901234567890123456789012345678901234567890123456789012345678901234567890123456789".
Definition digits10 : string :=
  "0000000000111111111122222222223333333333444444444455555555556666666666777777777788888888889999999999".

Definition digit01 (i : Z) : res Z := get (bytes_of digits01) i.
Definition digit10 (i : Z) : res Z := get (bytes_of digits10) i.

(** [digits10[p], digits01[p]] *)
Definition pair2 (p : Z) : res bytes := a ← digit10 p; b ← digit01 p; Ok [a; b].

(** [for n > 0 && localBuf[n-1] == '0' { n-- }] *)
Fixpoint trimZeros (rev : bytes) : bytes :=
  match rev with
  | 48 :: r => trimZeros r
  | _ => rev
  end.

Definition AppendDateTime (buf : bytes) (t : time) : res bytes :=
  let year := Year t in
  if (year <? 1) || (9999 <? year) then
    Err ("year is not in the range [1, 9999]: " +:+ FormatInt year)
  else
    y100 ← pair2 (year / 100); y1 ← pair2 (year mod 100);
    mo ← pair2 (Month t); d ← pair2 (Day t);
    let date := y100 ++ y1 ++ [45] ++ mo ++ [45] ++ d in
    if (Hour t =? 0) && (Minute t =? 0) && (Second t =? 0) && (Nanosecond t =? 0) then Ok (buf ++ date)
    else
      h ← pair2 (Hour t); mi ← pair2 (Minute t); s ← pair2 (Second t);
      let stamp := date ++ [32] ++ h ++ [58] ++ mi ++ [58] ++ s in
      if Nanosecond t =? 0 then Ok (buf ++ stamp)
      else
        let nsec := Nanosecond t in
        n1 ← digit01 (nsec / 100000000);
        n2 ← pair2 (nsec / 1000000 mod 100);
        n3 ← pair2 (nsec / 10000 mod 100);
        n4 ← pair2 (nsec / 100 mod 100);
        n5 ← pair2 (nsec mod 100);
        let local := stamp ++ [46] ++ [n1] ++ n2 ++ n3 ++ n4 ++ n5 in
        Ok (buf ++ rev (trimZeros (rev local))).

(** The microseconds of [appendMicroSecs], cut to [decimals] digits. *)
Definition appendMicroSecs (dst src : bytes) (decimals : Z) : res bytes :=
  if decimals <=? 0 then Ok dst
  else if len src =? 0 then
    z ← slice (bytes_of ".000000") 0 (decimals + 1); Ok (dst ++ z)
  else
    us ← slice src 0 4;
    let microsecs := unle us in
    let p1 := u8 (microsecs / 10000) in
    let microsecs := (microsecs - 10000 * p1) mod 4294967296 in
    let p2 := u8 (microsecs / 100) in
    let microsecs := (microsecs - 100 * p2) mod 4294967296 in
    let p3 := u8 microsecs in
    if decimals =? 1 then a ← digit10 p1; Ok (dst ++ [46; a])
    else if decimals =? 2 then a ← pair2 p1; Ok (dst ++ [46] ++ a)
    else if decimals =? 3 then a ← pair2 p1; b ← digit10 p2; Ok (dst ++ [46] ++ a ++ [b])
    else if decimals =? 4 then a ← pair2 p1; b ← pair2 p2; Ok (dst ++ [46] ++ a ++ b)
    else if decimals =? 5 then a ← pair2 p1; b ← pair2 p2; c ← digit10 p3; Ok (dst ++ [46] ++ a ++ b ++ [c])
    else a ← pair2 p1; b ← pair2 p2; c ← pair2 p3; Ok (dst ++ [46] ++ a ++ b ++ c).

Definition zeroDateTime : bytes := base.

Definition FormatBinaryDateTime (src : bytes) (length : Z) : res bytes :=
  if len src =? 0 then slice zeroDateTime 0 length
  else if negb (bool_decide (length ∈ [10; 19; 21; 22; 23; 24; 25; 26])) then Err "illegal DATETIME length"
  else if negb (bool_decide (len src ∈ [4; 7; 11])) then Err "illegal DATETIME packet length"
  else
    y ← slice src 0 2;
    let year := unle y in
    let pt := year / 100 in
    a ← pair2 pt; b ← pair2 (u8 (year - 100 * pt));
    p2 ← get src 2; p3 ← get src 3;
    mo ← pair2 p2; d ← pair2 p3;
    let dst := a ++ b ++ [45] ++ mo ++ [45] ++ d in
    if length =? 10 then Ok dst
    else if len src =? 4 then z ← slice zeroDateTime 10 length; Ok (dst ++ z)
    else
      p1 ← get src 4;
      src ← slice src 5 (len src);
      p2 ← get src 0; p3 ← get src 1;
      h ← pair2 p1; mi ← pair2 p2; s ← pair2 p3;
      rest ← slice src 2 (len src);
      appendMicroSecs (dst ++ [32] ++ h ++ [58] ++ mi ++ [58] ++ s) rest (length - 20).

Definition FormatBinaryTime (src : bytes) (length : Z) : res bytes :=
  if len src =? 0 then slice zeroDateTime 11 (u8 (11 + length))
  else if negb (bool_decide (length ∈ [8; 10; 11; 12; 13; 14; 15])) then Err "illegal TIME length"
  else if negb (bool_decide (len src ∈ [8; 12])) then Err "invalid TIME packet length"
  else
    s0 ← get src 0;
    let dst := if s0 =? 1 then [45] else [] in
    ds ← slice src 1 5; h5 ← get src 5;
    let hours := unle ds * 24 + h5 in
    hh ← (if 100 <=? hours then Ok (bytes_of (FormatInt hours)) else pair2 hours);
    min ← get src 6; sec ← get src 7;
    mi ← pair2 min; s ← pair2 sec;
    rest ← slice src 8 (len src);
    appendMicroSecs (dst ++ hh ++ [58] ++ mi ++ [58] ++ s) rest (length - 9).

(** ** Numbers *)

(** The digit loop of [Uint64ToString], filling a 20-byte array from the end;
    running off the array panics. *)
Fixpoint u64Loop (room : nat) (n : Z) (acc : bytes) : res bytes :=
  match room with
  | O => Panic
  | S r =>
    if 10 <=? n then u64Loop r (n / 10) (u8 (n - n / 10 * 10) + 48 :: acc)
    else Ok (u8 n + 48 :: acc)
  end.

Definition Uint64ToString (n : Z) : res bytes := u64Loop 20 n [].

(** [val *= 10; val += int(b[i] - 0x30)] with the subtraction on bytes. *)
Definition StringToInt (b : bytes) : Z :=
  fold_left (fun val x => i64 (i64 (val * 10) + u8 (x - 48))) b 0.

Definition ReadBool (input : string) : bool * bool :=
  if bool_decide (input ∈ ["1"; "true"; "TRUE"; "True"]%string) then (true, true)
  else if bool_decide (input ∈ ["0"; "false"; "FALSE"; "False"]%string) then (false, true)
  else (false, false).

(** ** Digits *)
Definition q2 (p : Z) : bytes := [48 + p / 10; 48 + p mod 10].

Lemma digit_tables i : 0 <= i < 100 -> digit10 i = Ok (48 + i / 10) /\ digit01 i = Ok (48 + i mod 10).
Proof.
  intros Hi. assert (Hin : In i (upto 0 100)) by (by apply upto_In).
  assert (Hall : forallb (fun i => match digit10 i, digit01 i with
    | Ok a, Ok b => (a =? 48 + i / 10) && (b =? 48 + i mod 10) | _, _ => false end) (upto 0 100) = true)
    by (vm_compute; reflexivity).
  rewrite forallb_forall in Hall. specialize (Hall i Hin).
  destruct (digit10 i), (digit01 i); try done. zbool. by subst.
Qed.

Lemma pair2_q2 p : 0 <= p < 100 -> pair2 p = Ok (q2 p).
Proof. intros Hp. unfold pair2. by destruct (digit_tables p Hp) as [-> ->]. Qed.

Lemma bToi_digit d : 0 <= d <= 9 -> bToi (48 + d) = Ok d.
Proof.
  intros Hd. unfold bToi. destruct (Z.ltb_spec (48 + d) 48), (Z.ltb_spec 57 (48 + d)); cbn; try lia.
  f_equal. lia.
Qed.

Lemma digit_bounds p : 0 <= p < 100 -> 0 <= p / 10 <= 9 /\ 0 <= p mod 10 <= 9.
Proof. intros Hp. Z.to_euclidean_division_equations; lia. Qed.

Lemma parseByte2Digits_q2 p : 0 <= p < 100 -> parseByte2Digits (48 + p / 10) (48 + p mod 10) = Ok p.
Proof.
  intros Hp. destruct (digit_bounds p Hp). unfold parseByte2Digits. rewrite !bToi_digit by lia.
  cbn. f_equal. Z.to_euclidean_division_equations; lia.
Qed.

(** The text of a date, and of a date with a time of day. *)
Definition dateText (t : time) : bytes :=
  q2 (Year t / 100) ++ q2 (Year t mod 100) ++ [45] ++ q2 (Month t) ++ [45] ++ q2 (Day t).
Definition clockText (t : time) : bytes :=
  q2 (Hour t) ++ [58] ++ q2 (Minute t) ++ [58] ++ q2 (Second t).

(** A time a DATETIME column can hold. *)
Definition storable (t : time) : Prop := valid t /\ 1 <= Year t <= 9999.

Lemma storable_bounds t :
  storable t ->
  0 <= Year t / 100 < 100 /\ 0 <= Year t mod 100 < 100 /\ 0 <= Month t < 100 /\ 0 <= Day t < 100 /\
  0 <= Hour t < 100 /\ 0 <= Minute t < 100 /\ 0 <= Second t < 100.
Proof.
  intros [(Hm & Hd & Hh & Hmi & Hs & Hns) Hy].
  apply daysIn_bound in Hd as (Hd & _). split; [|split; [apply Z.mod_pos_bound; lia | lia]].
  Z.to_euclidean_division_equations; lia.
Qed.

Lemma parseByteYear_digits a b c d v1 v2 v3 v4 rest :
  bToi a = Ok v1 -> bToi b = Ok v2 -> bToi c = Ok v3 -> bToi d = Ok v4 ->
  parseByteYear (a :: b :: c :: d :: rest) = Ok (v1 * 1000 + v2 * 100 + v3 * 10 + v4).
Proof.
  intros E1 E2 E3 E4. unfold parseByteYear. cbn [yearLoop]. set (l := a :: _).
  change (get l 0) with (@Ok Z a). change (get l (0 + 1)) with (@Ok Z b).
  change (get l (0 + 1 + 1)) with (@Ok Z c). change (get l (0 + 1 + 1 + 1)) with (@Ok Z d).
  rewrite !Ok_bind, E1, !Ok_bind, E2, !Ok_bind, E3, !Ok_bind, E4, !Ok_bind. f_equal.
  change (1000 / 10) with 100. change (100 / 10) with 10. change (10 / 10) with 1. lia.
Qed.

Lemma parseByteYear_text y rest :
  1 <= y <= 9999 -> parseByteYear (q2 (y / 100) ++ q2 (y mod 100) ++ rest) = Ok y.
Proof.
  intros Hy. assert (H1 : 0 <= y / 100 < 100) by (Z.to_euclidean_division_equations; lia).
  assert (H2 : 0 <= y mod 100 < 100) by (apply Z.mod_pos_bound; lia).
  destruct (digit_bounds _ H1), (digit_bounds _ H2). unfold q2. cbn [app].
  erewrite parseByteYear_digits by (apply bToi_digit; lia).
  f_equal. Z.to_euclidean_division_equations; lia.
Qed.

Lemma dateText_not_zero t rest k :
  1 <= Year t <= 9999 -> dateText t ++ rest <> take k base.
Proof.
  intros Hy E. assert (Hp : take 4 (dateText t ++ rest) `prefix_of` base).
  { rewrite E. exists (drop (Nat.min 4 k) base). rewrite take_take. by rewrite take_drop. }
  unfold dateText, q2 in Hp. cbn [app take] in Hp. change base with (48 :: 48 :: 48 :: 48 :: drop 4 base) in Hp.
  repeat apply prefix_cons_inv_2 in Hp as Hp'. clear Hp'.
  destruct Hp as [tl Htl]. injection Htl as H1 H2 H3 H4.
  Z.to_euclidean_division_equations. lia.
Qed.

(** Parsing a date, followed by a clock, followed by a fraction. *)
Lemma ParseDateTime_date t rest :
  storable t -> len (dateText t ++ rest) ∈ [10; 19; 21; 22; 23; 24; 25; 26] ->
  ParseDateTime (dateText t ++ rest) =
    if len (dateText t ++ rest) =? 10 then Ok (Date (Year t) (Month t) (Day t) 0 0 0 0)
    else parseClock (dateText t ++ rest) (Year t) (Month t) (Day t).
Proof.
  intros Ht Hlen. destruct (storable_bounds t Ht) as (B1 & B2 & B3 & B4 & _).
  destruct Ht as [(Hm & Hd & _) Hy]. unfold ParseDateTime.
  rewrite bool_decide_eq_true_2 by done. cbn iota.
  rewrite bool_decide_eq_false_2 by (by apply dateText_not_zero). cbn iota.
  set (b := dateText t ++ rest).
  replace (parseByteYear b) with (@Ok Z (Year t))
    by (symmetry; unfold b, dateText; rewrite <- !app_assoc; by apply parseByteYear_text).
  change (expectAt b 4 45) with (Ok tt). change (expectAt b 7 45) with (Ok tt).
  change (digits2At b 5) with (parseByte2Digits (48 + Month t / 10) (48 + Month t mod 10)).
  change (digits2At b 8) with (parseByte2Digits (48 + Day t / 10) (48 + Day t mod 10)).
  rewrite !parseByte2Digits_q2 by done. rewrite !Ok_bind.
  destruct (Z.leb_spec (Year t) 0); [lia|]. destruct (Z.leb_spec (Month t) 0); [lia|].
  destruct (Z.leb_spec (Day t) 0); [lia|]. done.
Qed.

Lemma parseClock_text t rest y m d :
  storable t ->
  let b := dateText t ++ [32] ++ clockText t ++ rest in
  parseClock b y m d =
    if len b =? 19 then Ok (Date y m d (Hour t) (Minute t) (Second t) 0)
    else
      _ ← expectAt b 19 46;
      f ← slice b 20 (len b);
      nsec ← parseByteNanoSec f;
      Ok (Date y m d (Hour t) (Minute t) (Second t) nsec).
Proof.
  intros Ht b. destruct (storable_bounds t Ht) as (_ & _ & _ & _ & B5 & B6 & B7).
  unfold parseClock. change (expectAt b 10 32) with (Ok tt). change (expectAt b 13 58) with (Ok tt).
  change (expectAt b 16 58) with (Ok tt).
  change (digits2At b 11) with (parseByte2Digits (48 + Hour t / 10) (48 + Hour t mod 10)).
  change (digits2At b 14) with (parseByte2Digits (48 + Minute t / 10) (48 + Minute t mod 10)).
  change (digits2At b 17) with (parseByte2Digits (48 + Second t / 10) (48 + Second t mod 10)).
  rewrite !parseByte2Digits_q2 by done. by rewrite !Ok_bind.
Qed.

Lemma slice_drop (b : bytes) n : 0 <= n <= len b -> slice b n (len b) = Ok (drop (Z.to_nat n) b).
Proof.
  intros Hn. unfold slice. destruct (Z.leb_spec 0 n), (Z.leb_spec n (len b)), (Z.leb_spec (len b) (len b));
    cbn; try lia. f_equal. apply take_ge. rewrite length_drop. unfold len in *. lia.
Qed.

(** ** Fractions of a second *)
Lemma trimZeros_cons x r : trimZeros (x :: r) = if x =? 48 then trimZeros r else x :: r.
Proof.
  destruct (Z.eqb_spec x 48) as [->|H]; [done|]. cbn.
  repeat (case_match; try done).
Qed.

(** Trailing zeros of a fraction do not count. *)
Lemma nanoLoop_app a b ns digit :
  nanoLoop (a ++ b) ns digit =
    (r ← nanoLoop a ns digit; nanoLoop b r (Nat.iter (length a) (fun d => d / 10) digit)).
Proof.
  revert ns digit; induction a as [|x a IH]; intros ns digit; [done|].
  cbn [app nanoLoop length]. destruct (bToi x); [|done..]. cbn [mbind res_bind].
  rewrite IH. destruct (nanoLoop a _ _); [|done..]. cbn [mbind res_bind].
  by rewrite Nat.iter_succ_r.
Qed.

Lemma nanoLoop_zeros k ns digit : nanoLoop (replicate k 48) ns digit = Ok ns.
Proof.
  revert ns digit; induction k as [|k IH]; intros ns digit; [done|]. cbn [replicate nanoLoop].
  change (bToi 48) with (@Ok Z 0). rewrite Ok_bind, IH. f_equal. lia.
Qed.

Lemma trimZeros_spec r : exists k, r = replicate k 48 ++ trimZeros r /\ (trimZeros r = [] \/ exists x q, trimZeros r = x :: q /\ x <> 48).
Proof.
  induction r as [|x r (k & E & H)]; [by exists O; eauto|]. rewrite trimZeros_cons.
  destruct (Z.eqb_spec x 48) as [->|Hx].
  - exists (S k). cbn. split; [by rewrite <- E | done].
  - exists O. split; [done | eauto].
Qed.

Definition trimmed (l : bytes) : bytes := rev (trimZeros (rev l)).

Lemma trimmed_spec l : exists k, l = trimmed l ++ replicate k 48.
Proof.
  destruct (trimZeros_spec (rev l)) as (k & E & _). exists k. unfold trimmed.
  transitivity (rev (rev l)); [by rewrite rev_involutive|].
  rewrite E at 1. rewrite rev_app_distr. f_equal. clear.
  induction k as [|k IH]; [done|]. cbn. by rewrite IH, <- replicate_cons_app.
Qed.

Lemma nanoLoop_trimmed l ns digit : nanoLoop (trimmed l) ns digit = nanoLoop l ns digit.
Proof.
  destruct (trimmed_spec l) as (k & E). rewrite E at 2. rewrite nanoLoop_app.
  destruct (nanoLoop (trimmed l) ns digit); [|done..]. cbn [mbind res_bind]. by rewrite nanoLoop_zeros.
Qed.

Lemma trimmed_app a l : trimmed l <> [] -> trimmed (a ++ l) = a ++ trimmed l.
Proof.
  unfold trimmed. rewrite rev_app_distr. intros Hne.
  assert (H : trimZeros (rev l ++ rev a) = trimZeros (rev l) ++ rev a).
  { assert (Hne' : trimZeros (rev l) <> []) by (intros E; by rewrite E in Hne). clear Hne.
    induction (rev l) as [|x r IH]; [done|]. cbn [app]. rewrite !trimZeros_cons in *.
    destruct (x =? 48); [by apply IH | done]. }
  by rewrite H, rev_app_distr, rev_involutive.
Qed.

(** The nine digits of a nanosecond count. *)
Definition nanoDigits (n : Z) : bytes :=
  [48 + (n / 100000000) mod 10] ++ q2 (n / 1000000 mod 100) ++ q2 (n / 10000 mod 100) ++
  q2 (n / 100 mod 100) ++ q2 (n mod 100).

Lemma nanoLoop_digits n :
  0 <= n < 1000000000 -> nanoLoop (nanoDigits n) 0 100000 = Ok (n / 1000).
Proof.
  intros Hn. unfold nanoDigits, q2. cbn [app nanoLoop].
  rewrite !bToi_digit by (Z.to_euclidean_division_equations; lia). cbn [mbind res_bind].
  change (100000 / 10) with 10000. change (10000 / 10) with 1000. change (1000 / 10) with 100.
  change (100 / 10) with 10. change (10 / 10) with 1. change (1 / 10) with 0. change (0 / 10) with 0.
  f_equal. Z.to_euclidean_division_equations; lia.
Qed.

(** A count of whole microseconds has at most six digits after trimming. *)
Lemma trimmed_length n :
  0 < n < 1000000000 ->
  1 <= len (trimmed (nanoDigits n)) <= 9 /\
  (n mod 1000 = 0 <-> len (trimmed (nanoDigits n)) <= 6).
Proof.
  intros Hn. unfold trimmed, nanoDigits, q2. cbn [app rev].
  repeat (rewrite trimZeros_cons; match goal with |- context [?x =? 48] => destruct (Z.eqb_spec x 48) end;
    [|cbn [rev app]; unfold len; cbn [length];
      split; [lia|]; Z.to_euclidean_division_equations; lia]).
  exfalso. Z.to_euclidean_division_equations; lia.
Qed.

Lemma AppendDateTime_text buf t :
  storable t ->
  AppendDateTime buf t = Ok (buf ++ dateText t ++
    if (Hour t =? 0) && (Minute t =? 0) && (Second t =? 0) && (Nanosecond t =? 0) then []
    else [32] ++ clockText t ++
      if Nanosecond t =? 0 then [] else [46] ++ trimmed (nanoDigits (Nanosecond t))).
Proof.
  intros Ht. destruct (storable_bounds t Ht) as (B1 & B2 & B3 & B4 & B5 & B6 & B7).
  destruct Ht as [(_ & _ & _ & _ & _ & Hns) Hy]. unfold AppendDateTime.
  destruct (Z.ltb_spec (Year t) 1); [lia|]. destruct (Z.ltb_spec 9999 (Year t)); [lia|]. cbn [orb].
  rewrite (pair2_q2 (Year t / 100)), (pair2_q2 (Year t mod 100)), (pair2_q2 (Month t)),
    (pair2_q2 (Day t)), (pair2_q2 (Hour t)), (pair2_q2 (Minute t)), (pair2_q2 (Second t)) by done.
  rewrite !Ok_bind.
  destruct (_ && _) eqn:Hz; [by rewrite app_nil_r|].
  destruct (Z.eqb_spec (Nanosecond t) 0) as [N0|N0].
  { unfold dateText, clockText. by rewrite <- !app_assoc. }
  set (n := Nanosecond t) in *.
  assert (N1 : 0 <= n / 100000000 < 10) by (Z.to_euclidean_division_equations; lia).
  rewrite !pair2_q2 by (apply Z.mod_pos_bound; lia).
  destruct (digit_tables (n / 100000000) ltac:(lia)) as [_ ->]. rewrite !Ok_bind.
  do 2 f_equal.
  assert (Hne : trimmed (nanoDigits n) <> []).
  { intros E. pose proof (trimmed_length n ltac:(lia)) as [H1 _]. rewrite E in H1. change (len []) with 0 in H1. lia. }
  transitivity (trimmed ((dateText t ++ [32] ++ clockText t ++ [46]) ++ nanoDigits n)).
  { reflexivity. }
  rewrite trimmed_app by done. by rewrite <- !app_assoc.
Qed.

(** Writing a time as text and parsing the text gives the time back for
    every time a DATETIME column can hold, with or without a time of day or a
    fraction, as long as the fraction is whole microseconds; a finer fraction
    yields a text that [ParseDateTime] rejects. *)
Theorem datetime_text_roundtrip t :
  storable t ->
  exists b, AppendDateTime [] t = Ok b /\
    ParseDateTime b = if Nanosecond t mod 1000 =? 0 then Ok t else Err "invalid time bytes".
Proof.
  intros Ht. rewrite AppendDateTime_text by done. eexists; split; [reflexivity|]. cbn [app].
  assert (Hv := Ht). destruct Hv as [Hv Hy]. assert (Hns := Hv). destruct Hns as (_ & _ & _ & _ & _ & Hns).
  pose proof (Date_valid t Hv) as HD.
  assert (Hd : len (dateText t) = 10) by done.
  assert (Hc : len (clockText t) = 8) by done.
  destruct ((Hour t =? 0) && (Minute t =? 0) && (Second t =? 0) && (Nanosecond t =? 0)) eqn:Hz.
  - apply andb_prop in Hz as [[[Hh%Z.eqb_eq Hmi%Z.eqb_eq]%andb_prop Hs%Z.eqb_eq]%andb_prop N0%Z.eqb_eq].
    rewrite ParseDateTime_date by (done || (rewrite app_nil_r, Hd; by left)).
    rewrite app_nil_r, Hd, N0. cbn [Z.eqb Pos.eqb].
    rewrite Hh, Hmi, Hs, N0 in HD. exact (f_equal Ok HD).
  - destruct (Z.eqb_spec (Nanosecond t) 0) as [N0|N0].
    + rewrite N0 in HD |- *. set (rest := [32] ++ clockText t ++ []).
      change (ParseDateTime (dateText t ++ rest) = Ok t).
      assert (Hl : len (dateText t ++ rest) = 19) by done.
      rewrite ParseDateTime_date by (done || (rewrite Hl; right; by left)).
      rewrite Hl. cbn [Z.eqb Pos.eqb]. unfold rest at 1. rewrite parseClock_text by done.
      change (len (dateText t ++ [32] ++ clockText t ++ [])) with 19. cbn [Z.eqb Pos.eqb].
      exact (f_equal Ok HD).
    + destruct (trimmed_length (Nanosecond t) ltac:(lia)) as [Hlen Hiff].
      set (f := trimmed _) in *. set (rest := [32] ++ clockText t ++ [46] ++ f).
      assert (Hl : len (dateText t ++ rest) = 20 + len f).
      { unfold rest. rewrite !len_app, Hd, Hc. change (len [32]) with 1. change (len [46]) with 1. lia. }
      change (ParseDateTime (dateText t ++ rest) =
        if Nanosecond t mod 1000 =? 0 then Ok t else Err "invalid time bytes").
      destruct (Z.eqb_spec (Nanosecond t mod 1000) 0) as [Hm|Hm].
      * assert (Hin : len (dateText t ++ rest) ∈ [10; 19; 21; 22; 23; 24; 25; 26]).
        { rewrite Hl. apply Hiff in Hm. apply list_elem_of_In. cbn [In]. lia. }
        rewrite ParseDateTime_date by done. rewrite Hl. destruct (Z.eqb_spec (20 + len f) 10); [lia|].
        unfold rest at 1. rewrite parseClock_text by done. fold rest. rewrite Hl.
        destruct (Z.eqb_spec (20 + len f) 19); [lia|].
        change (expectAt (dateText t ++ rest) 19 46) with (Ok tt). rewrite Ok_bind, <- Hl.
        rewrite slice_drop by lia. change (drop (Z.to_nat 20) (dateText t ++ rest)) with f.
        rewrite Ok_bind. unfold parseByteNanoSec, f. rewrite nanoLoop_trimmed, nanoLoop_digits by done.
        rewrite !Ok_bind. replace (Nanosecond t / 1000 * 1000) with (Nanosecond t)
          by (Z.to_euclidean_division_equations; lia).
        exact (f_equal Ok HD).
      * unfold ParseDateTime. rewrite bool_decide_eq_false_2; [done|]. rewrite Hl.
        intros Hin%list_elem_of_In. assert (~ len f <= 6) by (rewrite <- Hiff; done). cbn [In] in Hin. lia.
Qed.

Lemma datetime_text_roundtrip_witness :
  let t := mkTime 2022 2 28 10 0 9 120000 in
  AppendDateTime [] t = Ok (bytes_of "2022-02-28 10:00:09.00012") /\
  ParseDateTime (bytes_of "2022-02-28 10:00:09.00012") = Ok t.
Proof.
  intros t. destruct (datetime_text_roundtrip t) as (b & E & P);
    [split; [repeat split; vm_compute; congruence | cbn; lia]|].
  vm_compute in E. injection E as <-. split; [reflexivity | exact P].
Defined.

(** ** The binary form *)
Definition binaryTime (t : time) : bytes :=
  le 2 (Year t) ++ [Month t; Day t; Hour t; Minute t; Second t] ++ le 4 (Nanosecond t / 1000).

Definition microDigits (us : Z) : bytes := q2 (us / 10000) ++ q2 (us / 100 mod 100) ++ q2 (us mod 100).

Lemma appendMicroSecs_six dst us :
  0 <= us < 1000000 -> appendMicroSecs dst (le 4 us) 6 = Ok (dst ++ [46] ++ microDigits us).
Proof.
  intros Hus. unfold appendMicroSecs. change (len (le 4 us)) with 4.
  change (slice (le 4 us) 0 4) with (@Ok bytes (le 4 us)).
  change (6 <=? 0) with false. change (4 =? 0) with false. cbn iota. rewrite Ok_bind.
  rewrite unle_le_small by (change (8 * Z.of_nat 4) with 32; lia).
  assert (E1 : u8 (us / 10000) = us / 10000)
    by (unfold u8, two8; apply Z.mod_small; Z.to_euclidean_division_equations; lia).
  rewrite E1.
  assert (E2 : (us - 10000 * (us / 10000)) mod 4294967296 = us mod 10000)
    by (Z.to_euclidean_division_equations; lia).
  rewrite E2.
  assert (E3 : u8 (us mod 10000 / 100) = us / 100 mod 100)
    by (unfold u8, two8; Z.to_euclidean_division_equations; lia).
  rewrite E3.
  assert (E4 : u8 ((us mod 10000 - 100 * (us / 100 mod 100)) mod 4294967296) = us mod 100)
    by (unfold u8, two8; Z.to_euclidean_division_equations; lia).
  rewrite E4. change (6 =? 1) with false. change (6 =? 2) with false. change (6 =? 3) with false.
  change (6 =? 4) with false. change (6 =? 5) with false. cbn iota.
  rewrite (pair2_q2 (us / 10000)) by (Z.to_euclidean_division_equations; lia).
  rewrite (pair2_q2 (us / 100 mod 100)), (pair2_q2 (us mod 100)) by (apply Z.mod_pos_bound; lia).
  by rewrite !Ok_bind.
Qed.

Lemma FormatBinary_text t :
  storable t ->
  FormatBinaryDateTime (binaryTime t) 26 =
    Ok (dateText t ++ [32] ++ clockText t ++ [46] ++ microDigits (Nanosecond t / 1000)).
Proof.
  intros Ht. destruct (storable_bounds t Ht) as (B1 & B2 & B3 & B4 & B5 & B6 & B7).
  destruct Ht as [(_ & _ & _ & _ & _ & Hns) Hy]. unfold FormatBinaryDateTime. set (src := binaryTime t).
  change (len src =? 0) with false. change (len src =? 4) with false.
  change (negb (bool_decide (26 ∈ [10; 19; 21; 22; 23; 24; 25; 26]))) with false.
  change (negb (bool_decide (len src ∈ [4; 7; 11]))) with false. cbn iota.
  change (slice src 0 2) with (@Ok bytes (le 2 (Year t))). rewrite Ok_bind.
  rewrite unle_le_small by (change (8 * Z.of_nat 2) with 16; lia).
  replace (u8 (Year t - 100 * (Year t / 100))) with (Year t mod 100)
    by (unfold u8, two8; Z.to_euclidean_division_equations; lia).
  change (get src 2) with (@Ok Z (Month t)). change (get src 3) with (@Ok Z (Day t)).
  change (get src 4) with (@Ok Z (Hour t)).
  change (slice src 5 (len src)) with (@Ok bytes ([Minute t; Second t] ++ le 4 (Nanosecond t / 1000))).
  change (26 =? 10) with false. cbn iota.
  rewrite (pair2_q2 (Year t / 100)), (pair2_q2 (Year t mod 100)) by done. cbn [mbind res_bind].
  rewrite (pair2_q2 (Month t)), (pair2_q2 (Day t)) by done. cbn [mbind res_bind]. set (tl := [Minute t; Second t] ++ _).
  change (get tl 0) with (@Ok Z (Minute t)). change (get tl 1) with (@Ok Z (Second t)). cbn [mbind res_bind].
  rewrite (pair2_q2 (Hour t)), (pair2_q2 (Minute t)), (pair2_q2 (Second t)) by done. cbn [mbind res_bind].
  change (slice tl 2 (len tl)) with (@Ok bytes (le 4 (Nanosecond t / 1000))). rewrite Ok_bind.
  change (26 - 20) with 6. rewrite appendMicroSecs_six by (Z.to_euclidean_division_equations; lia).
  unfold dateText, clockText. by rewrite <- !app_assoc.
Qed.

(** The two ways from the binary form of a time agree: decoding it directly
    and rendering it as text that is then parsed both give the time, for every
    storable time in whole microseconds. *)
Theorem binary_datetime_paths_agree t :
  storable t -> Nanosecond t mod 1000 = 0 ->
  ParseBinaryDateTime 11 (binaryTime t) = Ok t /\
  exists b, FormatBinaryDateTime (binaryTime t) 26 = Ok b /\
    ParseDateTime b = Ok t.
Proof.
  intros Ht Hm. assert (Hv := Ht). destruct Hv as [Hv Hy]. pose proof (Date_valid t Hv) as HD.
  assert (Hns := Hv). destruct Hns as (_ & _ & _ & _ & _ & Hns).
  assert (Hus : 0 <= Nanosecond t / 1000 < 1000000) by (Z.to_euclidean_division_equations; lia).
  assert (Hback : Nanosecond t / 1000 * 1000 = Nanosecond t) by (Z.to_euclidean_division_equations; lia).
  split.
  - unfold ParseBinaryDateTime. set (src := binaryTime t).
    change (slice src 0 2) with (@Ok bytes (le 2 (Year t))). change (get src 2) with (@Ok Z (Month t)).
    change (get src 3) with (@Ok Z (Day t)). change (get src 4) with (@Ok Z (Hour t)).
    change (get src 5) with (@Ok Z (Minute t)). change (get src 6) with (@Ok Z (Second t)).
    change (slice src 7 11) with (@Ok bytes (le 4 (Nanosecond t / 1000))).
    change (11 =? 0) with false. change (11 =? 4) with false. change (11 =? 7) with false.
    change (11 =? 11) with true. cbn iota. rewrite !Ok_bind.
    rewrite !unle_le_small by (first [change (8 * Z.of_nat 2) with 16 | change (8 * Z.of_nat 4) with 32]; lia).
    rewrite Hback. exact (f_equal Ok HD).
  - rewrite FormatBinary_text by done. eexists; split; [reflexivity|].
    set (f := microDigits (Nanosecond t / 1000)). set (rest := [32] ++ clockText t ++ [46] ++ f).
    assert (Hl : len (dateText t ++ rest) = 26) by done.
    rewrite ParseDateTime_date by (done || (rewrite Hl; apply list_elem_of_In; cbn [In]; lia)).
    rewrite Hl. cbn [Z.eqb Pos.eqb]. unfold rest at 1. rewrite parseClock_text by done. fold rest.
    rewrite Hl. cbn [Z.eqb Pos.eqb]. change (expectAt (dateText t ++ rest) 19 46) with (Ok tt).
    rewrite Ok_bind, <- Hl, slice_drop by lia.
    change (drop (Z.to_nat 20) (dateText t ++ rest)) with f. rewrite Ok_bind.
    unfold parseByteNanoSec, f, microDigits, q2. cbn [app nanoLoop].
    rewrite !bToi_digit by (Z.to_euclidean_division_equations; lia). cbn [mbind res_bind].
    change (100000 / 10) with 10000. change (10000 / 10) with 1000. change (1000 / 10) with 100.
    change (100 / 10) with 10. change (10 / 10) with 1.
    match goal with |- Ok (Date _ _ _ _ _ _ ?n) = _ => replace n with (Nanosecond t) end;
      [exact (f_equal Ok HD) | Z.to_euclidean_division_equations; lia].
Qed.

Lemma binary_datetime_paths_agree_witness :
  let t := mkTime 2024 2 29 23 59 58 7000 in
  ParseBinaryDateTime 11 (binaryTime t) = Ok t /\
  exists b, FormatBinaryDateTime (binaryTime t) 26 = Ok b /\ ParseDateTime b = Ok t.
Proof.
  intros t. apply (binary_datetime_paths_agree t); [|reflexivity].
  split; [repeat split; vm_compute; congruence | cbn; lia].
Defined.

(** ** Decimal numbers *)
Lemma u64Loop_digits r f n acc :
  0 <= n < 10 ^ Z.of_nat (S r) -> n < 2 ^ Z.of_nat (S f) ->
  u64Loop (S r) n (bytes_of acc) = Ok (bytes_of (digits (S f) n acc)).
Proof.
  revert f n acc; induction r as [|r IH]; intros f n acc Hn Hf; rewrite digits_S; cbv zeta.
  - destruct (Z.ltb_spec n 10); [|change (10 ^ Z.of_nat 1) with 10 in Hn; lia].
    cbn -[bytes_of]. destruct (Z.leb_spec 10 n); [lia|]. unfold u8, two8. rewrite !Z.mod_small by lia.
    f_equal. unfold bytes_of. cbn. rewrite chr_digit by lia. f_equal. lia.
  - cbn [u64Loop]. destruct (Z.leb_spec 10 n) as [H10|H10], (Z.ltb_spec n 10); try lia.
    + replace (u8 (n - n / 10 * 10) + 48 :: bytes_of acc)
        with (bytes_of (String (digit (n mod 10)) acc)).
      2:{ unfold bytes_of. cbn. pose proof (Z.mod_pos_bound n 10 ltac:(lia)).
          rewrite chr_digit by lia. f_equal. unfold u8, two8. Z.to_euclidean_division_equations; lia. }
      destruct f as [|f]; [change (2 ^ Z.of_nat 1) with 2 in Hf; lia|].
      apply IH.
      * split; [apply Z.div_pos; lia|]. apply Z.div_lt_upper_bound; [lia|].
        rewrite (Nat2Z.inj_succ (S r)), Z.pow_succ_r in Hn by lia. lia.
      * apply Z.div_lt_upper_bound; [lia|].
        rewrite (Nat2Z.inj_succ (S f)), Z.pow_succ_r in Hf by lia. lia.
    + unfold u8, two8. rewrite !Z.mod_small by lia. f_equal. unfold bytes_of. cbn.
      rewrite chr_digit by lia. f_equal. lia.
Qed.

(** The hand-written rendering of unsigned integers agrees with strconv on all
    64-bit values and never runs out of its 20-byte array. *)
Theorem Uint64ToString_FormatUint n :
  in_u64 n -> Uint64ToString n = Ok (bytes_of (FormatUint n)).
Proof.
  intros Hn. unfold Uint64ToString, FormatUint. change (@nil Z) with (bytes_of EmptyString).
  apply (u64Loop_digits 19).
  - unfold_width. change (10 ^ Z.of_nat 20) with 100000000000000000000. lia.
  - destruct (Z.eq_dec n 0) as [->|H0]; [done|]. unfold_width.
    rewrite Nat2Z.inj_succ, Z2Nat.id by apply Z.log2_nonneg.
    apply Z.log2_spec. lia.
Qed.

Lemma Uint64ToString_FormatUint_witness : Uint64ToString 18446744073709551615 = Ok (bytes_of "18446744073709551615").
Proof. apply (Uint64ToString_FormatUint 18446744073709551615). unfold_width. lia. Defined.
