(* ===== verification/Rows.v ===== *)
(** * Rows of the text and of the binary protocol: decoding
    ([pkg/mysql/rows.go]), the values of columns and their encoding
    ([BinaryVal2MySQL] of [pkg/packet/mysql.go]), and the writers of rows in
    [pkg/mysql/conn.go]

    A row keeps the payload of its packet; [Decode] turns it into values once
    and remembers that it did.  The proxy decodes every row it got from a
    database and writes the values to the client, so a row reaches the client
    unchanged only when writing inverts decoding: [text_row_passes] and
    [binary_row_passes] state for which rows it does, [datetime_row_fails] and
    [time_row_corrupted] what happens to the others. *)
From Stdlib Require Import ZArith Lia List.
From stdpp Require Import base list strings.
From S2P Require Import Prelude GoText Encoding Layout Conn Packets PacketSpec GoTime DateTime.

Local Open Scope Z_scope.

(** ** Values *)

(** The dynamic types a column value can have.  Floating-point numbers are
    their bit patterns, which is all the code moves. *)
Inductive goValue :=
| GNil
| GInt64 (z : Z)
| GUint64 (z : Z)
| GFloat32 (bits : Z)
| GFloat64 (bits : Z)
| GBool (b : bool)
| GString (s : bytes)
| GBytes (s : bytes)
| GTime (t : time).

Record Value := mkValue { Typ : Z; VFlags : Z; VLen : Z; Val : goValue; Raw : bytes }.

Definition i8 (z : Z) : Z := (z + 128) mod 256 - 128.
Definition i16 (z : Z) : Z := (z + 32768) mod 65536 - 32768.

(** ** Length-encoded strings of the driver *)

(** The string, whether it is NULL, the bytes read, and whether the input ended
    ([io.EOF]). *)
Definition ReadLengthEncodedString (b : bytes) : res (bytes * bool * Z * bool) :=
  '(num, isNull, n) ← ReadLengthEncodedInteger b;
  if num <? 1 then s ← slice b n n; Ok (s, isNull, n, false)
  else
    let n := i64 (n + i64 num) in
    if n <=? len b then s ← slice b (i64 (n - i64 num)) n; Ok (s, false, n, false)
    else Ok ([], false, n, true).

Definition SkipLengthEncodedString (b : bytes) : res (Z * bool) :=
  '(num, _, n) ← ReadLengthEncodedInteger b;
  if num <? 1 then Ok (n, false)
  else let n := i64 (n + i64 num) in Ok (n, negb (n <=? len b)).

(** ** Rows *)
Record row := mkRow {
  Content : bytes; Columns : list Field; decoded : bool; Values : list (option Value) }.

Definition newRow (content : bytes) (fields : list Field) : row := mkRow content fields false [].

(** The caching around both decoders: the flag is set before decoding, so a
    row that could not be decoded yields no value and no error afterwards. *)
Definition decodeOnce (decode : list Field -> bytes -> res (list (option Value))) (r : row) :
    res (list (option Value)) * row :=
  if decoded r then (Ok (Values r), r)
  else
    match decode (Columns r) (Content r) with
    | Ok vs => (Ok vs, mkRow (Content r) (Columns r) true vs)
    | Err e => (Err e, mkRow (Content r) (Columns r) true [])
    | Panic => (Panic, mkRow (Content r) (Columns r) true [])
    end.

(** *** Text rows *)
Definition isDateType (typ : Z) : bool :=
  (typ =? FieldTypeTimestamp) || (typ =? FieldTypeDateTime) ||
  (typ =? FieldTypeDate) || (typ =? FieldTypeNewDate).

Fixpoint textCells (cols : list Field) (content : bytes) (pos : Z) : res (list (option Value)) :=
  match cols with
  | [] => Ok []
  | field :: cols' =>
    rest ← slice content pos (len content);
    '(val, isNull, n, eof) ← ReadLengthEncodedString rest;
    if (eof : bool) then Err io_EOF
    else
      v ← (if (isNull : bool) then Ok GNil
           else if isDateType (FieldType field) then t ← ParseDateTime val; Ok (GTime t)
           else Ok (GBytes val));
      vs ← textCells cols' content (pos + n);
      Ok (Some (mkValue (FieldType field) (Flags field) n v val) :: vs)
  end.

Definition TextRow_Decode : row -> res (list (option Value)) * row :=
  decodeOnce (fun cols content => textCells cols content 0).

(** *** Binary rows *)

(** A value of [n] bytes; [raw] is the length of the slice kept in [Raw]. *)
Definition fixedCell (field : Field) (n raw : Z) (conv : Z -> res goValue) (content : bytes) (pos : Z) :
    res (option Value * Z) :=
  s ← slice content pos (pos + n);
  v ← conv (unle s);
  r ← slice content pos (pos + raw);
  Ok (Some (mkValue (FieldType field) (Flags field) n v r), pos + n).

Definition stringCell (field : Field) (content : bytes) (pos : Z) : res (option Value * Z) :=
  rest ← slice content pos (len content);
  '(val, isNull, n, eof) ← ReadLengthEncodedString rest;
  raw ← slice content pos (i64 (pos + n));
  if (eof : bool) then Err io_EOF
  else Ok (Some (mkValue (FieldType field) (Flags field) n
                   (if (isNull : bool) then GNil else GBytes val) raw), pos + n).

Definition fractionLength (whole decimals : Z) : res Z :=
  if (decimals =? 0) || (decimals =? 31) then Ok whole
  else if (1 <=? decimals) && (decimals <=? 6) then Ok (whole + 1 + decimals)
  else Err ("protocol error, illegal decimals architecture.Value " +:+ FormatInt decimals).

Definition temporalCell (field : Field) (content : bytes) (pos : Z) : res (option Value * Z) :=
  rest ← slice content pos (len content);
  '(num, isNull, n) ← ReadLengthEncodedInteger rest;
  let pos := pos + n in
  if (isNull : bool) then Ok (None, pos)
  else
    let cell v raw := Some (mkValue (FieldType field) (Flags field) (i64 num) v raw) in
    if FieldType field =? FieldTypeTime then
      dstLen ← fractionLength 8 (Decimals field);
      src ← slice content pos (i64 (pos + i64 num));
      raw ← slice content pos (pos + n);
      val ← FormatBinaryTime src dstLen;
      Ok (cell (GBytes val) raw, pos + i64 num)
    else
      tail ← slice content pos (len content);
      match ParseBinaryDateTime num tail with
      | Ok t => raw ← slice content pos (pos + n); Ok (cell (GTime t) raw, pos + i64 num)
      | Panic => Panic
      | Err _ =>
        dstlen ← (if FieldType field =? FieldTypeDate then Ok 10
                  else fractionLength 19 (Decimals field));
        src ← slice content pos (i64 (pos + i64 num));
        raw ← slice content pos (pos + n);
        val ← FormatBinaryDateTime src dstlen;
        Ok (cell (GBytes val) raw, pos + i64 num)
      end.

Definition isStringType (typ : Z) : bool :=
  existsb (Z.eqb typ)
    [FieldTypeDecimal; FieldTypeNewDecimal; FieldTypeVarChar; FieldTypeBit; FieldTypeEnum; FieldTypeSet;
     FieldTypeTinyBLOB; FieldTypeMediumBLOB; FieldTypeLongBLOB; FieldTypeBLOB; FieldTypeVarString;
     FieldTypeString; FieldTypeGeometry; FieldTypeJSON].

Definition binaryCell (field : Field) (content : bytes) (pos : Z) : res (option Value * Z) :=
  let typ := FieldType field in
  if typ =? FieldTypeNULL then Ok (Some (mkValue typ (Flags field) 1 GNil []), pos)
  else if typ =? FieldTypeTiny then fixedCell field 1 1 (fun v => Ok (GInt64 (i8 v))) content pos
  else if typ =? FieldTypeUint8 then fixedCell field 1 1 (fun v => Ok (GInt64 v)) content pos
  else if (typ =? FieldTypeShort) || (typ =? FieldTypeYear)
  then fixedCell field 2 1 (fun v => Ok (GInt64 (i16 v))) content pos
  else if typ =? FieldTypeUint16 then fixedCell field 2 1 (fun v => Ok (GInt64 v)) content pos
  else if (typ =? FieldTypeInt24) || (typ =? FieldTypeLong)
  then fixedCell field 4 4 (fun v => Ok (GInt64 (i32 v))) content pos
  else if (typ =? FieldTypeUint24) || (typ =? FieldTypeUint32)
  then fixedCell field 4 4 (fun v => Ok (GInt64 v)) content pos
  else if typ =? FieldTypeLongLong then fixedCell field 8 8 (fun v => Ok (GInt64 (i64 v))) content pos
  else if typ =? FieldTypeUint64 then
    fixedCell field 8 8 (fun v =>
      if 9223372036854775807 <? v then s ← Uint64ToString v; Ok (GBytes s) else Ok (GInt64 v)) content pos
  else if typ =? FieldTypeFloat then fixedCell field 4 4 (fun v => Ok (GFloat32 v)) content pos
  else if typ =? FieldTypeDouble then fixedCell field 8 8 (fun v => Ok (GFloat64 v)) content pos
  else if isStringType typ then stringCell field content pos
  else if isDateType typ || (typ =? FieldTypeTime) then temporalCell field content pos
  else Err ("unknown field type " +:+ FormatInt typ).

(** [((nullMask[(i+2)>>3] >> uint((i+2)&7)) & 1) == 1] *)
Definition isNullBit (nullMask : bytes) (i : Z) : res bool :=
  b ← get nullMask ((i + 2) / 8); Ok (Z.testbit b ((i + 2) mod 8)).

Fixpoint binaryCells (cols : list Field) (nullMask content : bytes) (i pos : Z) :
    res (list (option Value)) :=
  match cols with
  | [] => Ok []
  | field :: cols' =>
    null ← isNullBit nullMask i;
    '(v, pos') ← (if (null : bool) then Ok (None, pos) else binaryCell field content pos);
    vs ← binaryCells cols' nullMask content (i + 1) pos';
    Ok (v :: vs)
  end.

Definition nullBitMapLen (cols : Z) : Z := (cols + 7 + 2) / 8.

Definition decodeBinary (cols : list Field) (content : bytes) : res (list (option Value)) :=
  b ← get content 0;
  if negb (b =? OKPacket) then Err (SQLError_Error (NewSQLError CRMalformedPacket SSUnknownSQLState
                                      (bytes_of "read binary row failed")))
  else
    let pos := 1 + nullBitMapLen (len cols) in
    nullMask ← slice content 1 pos;
    binaryCells cols nullMask content 0 pos.

Definition BinaryRow_Decode : row -> res (list (option Value)) * row := decodeOnce decodeBinary.

(** ** Writing values *)

(** [out := make([]byte, n)] filled with the low bytes of a number. *)
Definition fixedOut (n : nat) (v : Z) : res bytes := Ok (le n v).

Definition asInt64 (v : goValue) : res Z := match v with GInt64 z => Ok z | _ => Panic end.
Definition asBytes (v : goValue) : res bytes := match v with GBytes b => Ok b | _ => Panic end.

Definition dateBytes (t : time) : bytes := le 2 (Year t) ++ [u8 (Month t); u8 (Day t)].
Definition clockBytes (t : time) : bytes := [u8 (Hour t); u8 (Minute t); u8 (Second t)].

(** [microSecond := val.Nanosecond() / int(time.Millisecond)] *)
Definition microSecond (t : time) : Z := Nanosecond t / 1000000.

Definition midnight (t : time) : bool := (Hour t =? 0) && (Minute t =? 0) && (Second t =? 0).

Definition timeOut (t : time) : bytes :=
  if midnight t && (microSecond t =? 0) then [4] ++ dateBytes t
  else if microSecond t =? 0 then [7] ++ dateBytes t ++ clockBytes t
  else [11] ++ dateBytes t ++ clockBytes t ++ le 4 (microSecond t).

(** [make([]byte, 1+v.Len)]: the length, then as much of [Raw] as fits. *)
Definition rawOut (v : Value) : res bytes :=
  if VLen v <? 0 then Panic
  else Ok (u8 (VLen v) :: take (Z.to_nat (VLen v)) (Raw v) ++
           replicate (Z.to_nat (VLen v) - length (Raw v)) 0).

(** [strconv.ParseUint(fmt.Sprintf("%s", v.Val), 10, 64)] on a byte slice; the
    values that are no byte slice print with a percent sign and do not parse. *)
Definition parseUint64 (v : goValue) : res Z :=
  match v with
  | GBytes b | GString b =>
    match ParseUint (string_of b) with
    | (n, None) => Ok n
    | (_, Some e) => Err e
    end
  | _ => Err errSyntax
  end.

Definition BinaryVal2MySQL (v : Value) : res bytes :=
  let typ := Typ v in
  if typ =? FieldTypeNULL then Ok []
  else if (typ =? FieldTypeTiny) || (typ =? FieldTypeUint8) then z ← asInt64 (Val v); fixedOut 1 z
  else if (typ =? FieldTypeUint16) || (typ =? FieldTypeShort) || (typ =? FieldTypeYear)
  then z ← asInt64 (Val v); fixedOut 2 z
  else if (typ =? FieldTypeUint24) || (typ =? FieldTypeUint32) || (typ =? FieldTypeInt24) || (typ =? FieldTypeLong)
  then z ← asInt64 (Val v); fixedOut 4 z
  else if typ =? FieldTypeFloat then match Val v with GFloat32 bits => fixedOut 4 bits | _ => Panic end
  else if typ =? FieldTypeUint64 then
    match Val v with
    | GInt64 z => fixedOut 8 z
    | w => n ← parseUint64 w; fixedOut 8 n
    end
  else if typ =? FieldTypeLongLong then z ← asInt64 (Val v); fixedOut 8 z
  else if typ =? FieldTypeDouble then match Val v with GFloat64 bits => fixedOut 8 bits | _ => Panic end
  else if (typ =? FieldTypeTimestamp) || (typ =? FieldTypeDate) || (typ =? FieldTypeDateTime) then
    match Val v with
    | GNil => Ok [0]
    | GBytes _ => rawOut v
    | GTime t => Ok (timeOut t)
    | _ => Ok []
    end
  else if typ =? FieldTypeTime then
    match Val v with
    | GNil => Ok [0]
    | GBytes _ => rawOut v
    | _ => Ok []
    end
  else if isStringType typ then s ← asBytes (Val v); Ok (lenencString s)
  else Ok (Raw v).

Definition BinaryVal2MySQLLen (v : Value) : res Z :=
  let typ := Typ v in
  if typ =? FieldTypeNULL then Ok 0
  else if (typ =? FieldTypeTiny) || (typ =? FieldTypeUint8) then Ok 1
  else if (typ =? FieldTypeUint16) || (typ =? FieldTypeShort) || (typ =? FieldTypeYear) then Ok 2
  else if (typ =? FieldTypeUint24) || (typ =? FieldTypeUint32) || (typ =? FieldTypeInt24) ||
          (typ =? FieldTypeLong) || (typ =? FieldTypeFloat) then Ok 4
  else if (typ =? FieldTypeUint64) || (typ =? FieldTypeLongLong) || (typ =? FieldTypeDouble) then Ok 8
  else if (typ =? FieldTypeTimestamp) || (typ =? FieldTypeDate) || (typ =? FieldTypeDateTime) then
    match Val v with
    | GNil => Ok 1
    | GBytes _ => Ok (VLen v + 1)
    | GTime t => Ok (if midnight t && (Nanosecond t =? 0) then 5 else if midnight t then 8 else 12)
    | _ => Ok 0
    end
  else if typ =? FieldTypeTime then
    match Val v with
    | GNil => Ok 1
    | GBytes _ => Ok (VLen v + 1)
    | _ => Ok 0
    end
  else if isStringType typ then s ← asBytes (Val v); Ok (LenEncIntSize (len s) + len s)
  else Ok (len (Raw v)).

(** ** Writing rows *)
Section writers.
Context `{BufPool}.

(** A packet of [length] bytes built in place, checked to be full, and sent. *)
Definition sendBuilt (length : Z) (build : bytes -> M (bytes * Z)) (msg : string) : M unit :=
  data ← StartEphemeralPacket (Get length);
  '(d, pos) ← build data;
  _ ← fillBuffer d;
  if negb (pos =? length) then raise msg else WriteEphemeralPacket.

(** What goes out for a value of a text row: nothing for NULL. *)
Definition textBytes (v : option Value) : option bytes :=
  match v with
  | None => None
  | Some val =>
    match Val val with
    | GNil => None
    | GBytes value => Some value
    | _ => Some (Raw val)
    end
  end.

Definition textSize (v : option Value) : Z :=
  match textBytes v with None => 1 | Some s => LenEncIntSize (len s) + len s end.

Definition textWriters (v : option Value) : list writer :=
  match textBytes v with
  | None => [fun d p => WriteByte d p NullValue]
  | Some s => [fun d p => WriteLenEncInt d p (len s); writeCopy s]
  end.

Definition writeTextRow (row : list (option Value)) : M unit :=
  let length := foldr (fun v n => textSize v + n) 0 row in
  sendBuilt length (fun data => lift (writeAll (row ≫= textWriters) data 0))
    "packet row: got a different number of bytes than expected".

Definition isNullValue (v : option Value) : bool :=
  match v with None => true | Some val => match Val val with GNil => true | _ => false end end.

Fixpoint binaryLength (row : list (option Value)) : res Z :=
  match row with
  | [] => Ok 0
  | v :: row' =>
    l ← match v with
        | Some val => if isNullValue v then Ok 0 else BinaryVal2MySQLLen val
        | None => Ok 0
        end;
    n ← binaryLength row';
    Ok (l + n)
  end.

(** [data[bytePos] |= 1 << uint(bitPos)] *)
Definition setBit (data : bytes) (pos bit : Z) : res bytes :=
  b ← get data pos; set data pos (Z.lor b (Z.shiftl 1 bit)).

(** The loop over the values; on an error of a value the packet is recycled. *)
Fixpoint binaryValues (row : list (option Value)) (i : Z) (data : bytes) (pos : Z) : M (bytes * Z) :=
  match row with
  | [] => mret (data, pos)
  | v :: row' =>
    '(d, p) ← match v with
              | Some val =>
                if isNullValue v
                then d ← lift (setBit data ((i + 2) / 8 + 1) ((i + 2) mod 8)); mret (d, pos)
                else
                  match BinaryVal2MySQL val with
                  | Ok out => lift (writeCopy out data pos)
                  | Err e => _ ← fillBuffer data; _ ← RecycleWritePacket;
                             raise ("internal value to MySQL value error: " +:+ e)
                  | Panic => panic
                  end
              | None => d ← lift (setBit data ((i + 2) / 8 + 1) ((i + 2) mod 8)); mret (d, pos)
              end;
    binaryValues row' (i + 1) d p
  end.

Definition writeBinaryRow (fields : list Field) (row : list (option Value)) : M unit :=
  let nbits := nullBitMapLen (len fields) in
  l ← lift (binaryLength row);
  sendBuilt (l + nbits + 1)
    (fun data =>
       '(d, pos) ← lift (writeAll ((fun d p => WriteByte d p 0) ::
                                   replicate (Z.to_nat nbits) (fun d p => WriteByte d p 0)) data 0);
       binaryValues row 0 d pos)
    "internal error packet row: got a different number of bytes than expected".

(** [WriteRows] dispatches on the kind of row and writes the values decoded
    before: a row that was not decoded goes out without any value. *)
Inductive anyRow := ATextRow (r : row) | ABinaryRow (r : row).

Definition WriteRows (fields : list Field) (rows : list anyRow) : M unit :=
  eachM (fun r => match r with
                  | ATextRow t => writeTextRow (Values t)
                  | ABinaryRow b => writeBinaryRow fields (Values b)
                  end) rows.

(** [WriteTextRows] decodes as it writes. *)
Definition Decode (r : anyRow) : res (list (option Value)) :=
  match r with
  | ATextRow t => (TextRow_Decode t).1
  | ABinaryRow b => (BinaryRow_Decode b).1
  end.

Definition WriteTextRows (rows : list anyRow) : M unit :=
  eachM (fun r => values ← lift (Decode r); writeTextRow values) rows.
End writers.

(** [decodeResult] of [pkg/executor/misc.go]: decode every row in place. *)
Definition decodeRow (r : anyRow) : res anyRow :=
  match r with
  | ATextRow t => match TextRow_Decode t with (Ok _, t') => Ok (ATextRow t') | (Err e, _) => Err e | (Panic, _) => Panic end
  | ABinaryRow b => match BinaryRow_Decode b with (Ok _, b') => Ok (ABinaryRow b') | (Err e, _) => Err e | (Panic, _) => Panic end
  end.

Definition decodeResult (rows : list anyRow) : res (list anyRow) := mapM_res decodeRow rows.

(** ** Decoding and writing text rows *)
Lemma sendBuilt_sends `{BufPool} fl length build msg e :
  len e = length ->
  (forall data c, len data = length -> build data c = (Ok (e, length), c)) ->
  Sends fl (sendBuilt length build msg) [e] tt.
Proof.
  intros Hl Hbuild c n Hfl Hn [Hb Hwo Hp Hbuf Ha]. unfold sendBuilt.
  erewrite bind_M_run by (by apply StartEphemeral_run).
  erewrite bind_M_run.
  2:{ apply Hbuild. apply Get_len. rewrite <- Hl. apply len_nonneg. }
  cbn beta iota. erewrite bind_M_run by reflexivity. rewrite Z.eqb_refl. cbn [negb].
  destruct (WriteEphemeralPacket_sends n e
              (set_ephemeral ephemeralWrite (Some e) (set_ephemeral ephemeralWrite (Some (Get length)) c)))
    as (c' & out & E & Hf & Hs & Hl' & R & F); [done..|].
  exists c', out. split_and!; try done. by apply framedAll_one.
Qed.

Lemma lenenc_read n rest :
  in_u64 n -> ReadLengthEncodedInteger (lenenc n ++ rest) = Ok (n, false, len (lenenc n)).
Proof.
  intros Hn. destruct (driver_codec_agrees n [] rest [] 0 Hn) as (_ & _ & R).
  by rewrite AppendLengthEncodedInteger_lenenc, <- lenenc_len in R.
Qed.

Lemma slice_empty (b : bytes) n : 0 <= n <= len b -> slice b n n = Ok [].
Proof. intros Hn. unfold slice. zcases; try lia. cbn. by rewrite Z.sub_diag. Qed.

Lemma ReadLengthEncodedString_lenenc s rest :
  len (lenencString s ++ rest) < two63 ->
  ReadLengthEncodedString (lenencString s ++ rest) = Ok (s, false, len (lenencString s), false).
Proof.
  intros Hlen. unfold lenencString in *. rewrite <- !app_assoc, !len_app in *.
  pose proof (len_nonneg s); pose proof (len_nonneg rest); pose proof (len_nonneg (lenenc (len s))).
  unfold ReadLengthEncodedString. rewrite lenenc_read by (unfold_width; lia). cbn [mbind res_bind].
  destruct (Z.ltb_spec (len s) 1) as [Hs|Hs].
  - destruct s as [|x s]; [|unfold len in Hs; cbn in Hs; lia].
    rewrite slice_empty by (rewrite !len_app; lia). cbn. do 3 f_equal.
  - rewrite !i64_id by (rewrite ?i64_id; unfold_width; lia).
    destruct (Z.leb_spec (len (lenenc (len s)) + len s) (len (lenenc (len s) ++ s ++ rest))) as [_|Hgt];
      [|rewrite !len_app in Hgt; lia].
    replace (len (lenenc (len s)) + len s - len s) with (len (lenenc (len s))) by lia.
    by rewrite slice_mid.
Qed.

Lemma ReadLengthEncodedString_null rest : ReadLengthEncodedString (251 :: rest) = Ok ([], true, 1, false).
Proof.
  unfold ReadLengthEncodedString. cbn -[slice]. rewrite slice_empty; [done|].
  unfold len. cbn [length]. lia.
Qed.

(** The wire format of a row of the text protocol. *)
Definition textCell (c : option bytes) : bytes :=
  match c with None => [NullValue] | Some s => lenencString s end.
Definition textRowBytes (cells : list (option bytes)) : bytes := cells ≫= textCell.

(** The dates among the cells are dates. *)
Definition datesParse (cols : list Field) (cells : list (option bytes)) : Prop :=
  Forall2 (fun f c => match c with
                      | Some s => isDateType (FieldType f) = true -> is_ok (ParseDateTime s) = true
                      | None => True
                      end) cols cells.

Lemma slice_suffix pre post : slice (pre ++ post) (len pre) (len (pre ++ post)) = Ok post.
Proof. pose proof (slice_mid pre post []) as E. by rewrite app_nil_r, <- len_app in E. Qed.

Lemma textCells_decode cols cells pre post :
  datesParse cols cells -> len (pre ++ textRowBytes cells ++ post) < two63 ->
  exists vs, textCells cols (pre ++ textRowBytes cells ++ post) (len pre) = Ok vs /\
    textBytes <$> vs = cells.
Proof.
  intros Hd. revert pre; induction Hd as [|f c cols cells Hfc Hd IH]; intros pre Hlen.
  { by exists []. }
  assert (El : textRowBytes (c :: cells) = textCell c ++ textRowBytes cells) by done.
  rewrite El, <- !app_assoc in *. cbn [textCells]. rewrite slice_suffix. cbn [mbind res_bind].
  assert (IH' : exists vs, textCells cols (pre ++ textCell c ++ textRowBytes cells ++ post)
                  (len pre + len (textCell c)) = Ok vs /\ textBytes <$> vs = cells).
  { rewrite (app_assoc pre), <- len_app. apply IH. by rewrite <- app_assoc. }
  destruct IH' as (vs & Evs & Hvs). destruct c as [s|]; cbn [textCell] in *.
  - rewrite ReadLengthEncodedString_lenenc.
    2:{ pose proof (len_nonneg pre). rewrite !len_app in *. lia. }
    cbn [mbind res_bind]. destruct (isDateType (FieldType f)) eqn:Et.
    + specialize (Hfc eq_refl). destruct (ParseDateTime s) as [t| |]; [|done..].
      cbn [mbind res_bind]. rewrite Evs. cbn. eexists; split; [done|]. cbn. by rewrite Hvs.
    + cbn [mbind res_bind]. rewrite Evs. cbn. eexists; split; [done|]. cbn. by rewrite Hvs.
  - cbn [app] in *. rewrite ReadLengthEncodedString_null. cbn [mbind res_bind].
    change (len [NullValue]) with 1 in Evs. rewrite Evs. cbn. eexists; split; [done|]. cbn. by rewrite Hvs.
Qed.

Lemma textWriters_writes row :
  Writes (writeAll (row ≫= textWriters)) (textRowBytes (textBytes <$> row)).
Proof.
  induction row as [|v row IH]; cbn [mbind list_bind]; [apply Writes_nil|].
  cbn [fmap list_fmap]. change (textRowBytes (textBytes v :: (textBytes <$> row)))
    with (textCell (textBytes v) ++ textRowBytes (textBytes <$> row)).
  unfold textWriters at 1. destruct (textBytes v) as [s|]; cbn [app textCell].
  - unfold lenencString. rewrite <- app_assoc. apply Writes_cons; [apply _|]. apply Writes_cons; [apply _|exact IH].
  - apply (Writes_cons _ _ [NullValue]); [apply _ | exact IH].
Qed.

Lemma textRow_length row :
  len (textRowBytes (textBytes <$> row)) = foldr (fun v n => textSize v + n) 0 row.
Proof.
  induction row as [|v row IH]; [done|]. cbn [foldr fmap list_fmap].
  change (textRowBytes (textBytes v :: (textBytes <$> row)))
    with (textCell (textBytes v) ++ textRowBytes (textBytes <$> row)).
  rewrite len_app, IH. unfold textSize, textCell. destruct (textBytes v); [|done].
  by rewrite lenencString_len.
Qed.

Lemma writeTextRow_sends `{BufPool} fl row :
  Sends fl (writeTextRow row) [textRowBytes (textBytes <$> row)] tt.
Proof.
  apply sendBuilt_sends; [apply textRow_length|].
  intros data c Hl. unfold lift. rewrite <- textRow_length.
  rewrite (Writes_fill _ (textRowBytes (textBytes <$> row))); [done | apply textWriters_writes |].
  by rewrite textRow_length.
Qed.

(** ** Decoding and writing binary rows *)

(** Only the low bytes of a number are stored. *)
Lemma le_from_mod k n v m :
  0 <= k -> 8 * (k + Z.of_nat n) <= m -> le_from k n (v mod 2 ^ m) = le_from k n v.
Proof.
  revert k; induction n as [|n IH]; intros k Hk Hm; cbn [le_from]; [done|].
  rewrite IH by lia. f_equal. unfold u8, two8. change 256 with (2 ^ 8).
  apply Z.bits_inj'. intros i Hi. destruct (Z.ltb_spec i 8).
  - rewrite !Z.mod_pow2_bits_low, !Z.shiftr_spec by lia. by rewrite Z.mod_pow2_bits_low by lia.
  - by rewrite !Z.mod_pow2_bits_high by lia.
Qed.

Lemma le_congr n v w : v mod 2 ^ (8 * Z.of_nat n) = w mod 2 ^ (8 * Z.of_nat n) -> le n v = le n w.
Proof.
  intros E. unfold le. rewrite <- (le_from_mod 0 n v (8 * Z.of_nat n)) by lia.
  rewrite E. apply le_from_mod; lia.
Qed.

(** The bit of a bitmap. *)
Definition bitAt (bm : bytes) (j : Z) : bool := Z.testbit (nth (Z.to_nat (j / 8)) bm 0) (j mod 8).

Definition withBit (bm : bytes) (j : Z) : bytes :=
  <[Z.to_nat (j / 8) := Z.lor (nth (Z.to_nat (j / 8)) bm 0) (Z.shiftl 1 (j mod 8))]> bm.

Fixpoint withBits (nulls : list bool) (j : Z) (bm : bytes) : bytes :=
  match nulls with
  | [] => bm
  | b :: nulls' => withBits nulls' (j + 1) (if b then withBit bm j else bm)
  end.

Lemma withBit_len bm j : len (withBit bm j) = len bm.
Proof. unfold withBit, len. by rewrite length_insert. Qed.

Lemma withBits_len nulls j bm : len (withBits nulls j bm) = len bm.
Proof.
  revert j bm; induction nulls as [|b nulls IH]; intros j bm; cbn; [done|].
  rewrite IH. destruct b; [apply withBit_len | done].
Qed.

Lemma nth_insert (bm : bytes) k v i :
  (k < length bm)%nat -> nth i (<[k:=v]> bm) 0 = if decide (i = k) then v else nth i bm 0.
Proof.
  intros Hk. rewrite !nth_lookup. case_decide as Hd; [subst; by rewrite list_lookup_insert_eq|].
  by rewrite list_lookup_insert_ne.
Qed.

Lemma bitAt_withBit bm j k :
  0 <= j < 8 * len bm -> 0 <= k -> bitAt (withBit bm j) k = (k =? j) || bitAt bm k.
Proof.
  intros Hj Hk. unfold bitAt, withBit.
  assert (Hlt : (Z.to_nat (j / 8) < length bm)%nat).
  { unfold len in Hj. assert (j / 8 < Z.of_nat (length bm)) by (apply Z.div_lt_upper_bound; lia).
    assert (0 <= j / 8) by (apply Z.div_pos; lia). lia. }
  rewrite nth_insert by done.
  assert (0 <= k / 8) by (apply Z.div_pos; lia). assert (0 <= j / 8) by (apply Z.div_pos; lia).
  pose proof (Z.mod_pos_bound k 8 ltac:(lia)); pose proof (Z.mod_pos_bound j 8 ltac:(lia)).
  pose proof (Z.div_mod k 8 ltac:(lia)); pose proof (Z.div_mod j 8 ltac:(lia)).
  case_decide as Hd.
  - assert (Ed : k / 8 = j / 8) by lia. rewrite Ed, Z.lor_spec, Z.shiftl_spec by lia.
    destruct (Z.eqb_spec k j) as [->|Hne].
    + by rewrite Z.sub_diag, orb_true_r.
    + rewrite orb_false_l. replace (Z.testbit 1 _) with false; [by rewrite orb_false_r|].
      symmetry. destruct (Z.ltb_spec (k mod 8 - j mod 8) 0); [by apply Z.testbit_neg_r|].
      change 1 with (2 ^ 0). apply Z.pow2_bits_false. lia.
  - destruct (Z.eqb_spec k j) as [->|Hne]; done.
Qed.

Lemma bitAt_withBits nulls j bm k :
  0 <= j -> j + len nulls <= 8 * len bm -> 0 <= k ->
  bitAt (withBits nulls j bm) k = bitAt bm k || ((j <=? k) && nth (Z.to_nat (k - j)) nulls false).
Proof.
  revert j bm; induction nulls as [|b nulls IH]; intros j bm Hj Hl Hk; cbn [withBits].
  { destruct (Z.to_nat (k - j)); cbn; by rewrite andb_false_r, orb_false_r. }
  assert (Hl' : len (b :: nulls) = 1 + len nulls) by (unfold len; cbn [length]; lia).
  rewrite IH by (destruct b; rewrite ?withBit_len; lia).
  assert (Hb : bitAt (if b then withBit bm j else bm) k = bitAt bm k || ((k =? j) && b)).
  { destruct b; [rewrite bitAt_withBit by (pose proof (len_nonneg nulls); lia); by rewrite andb_true_r, orb_comm |
                 by rewrite andb_false_r, orb_false_r]. }
  rewrite Hb. destruct (Z.leb_spec j k), (Z.leb_spec (j + 1) k); try lia.
  - destruct (Z.eqb_spec k j); [lia|]. cbn. rewrite orb_false_r.
    by replace (Z.to_nat (k - j)) with (S (Z.to_nat (k - (j + 1)))) by lia.
  - assert (k = j) as -> by lia. rewrite Z.eqb_refl, Z.sub_diag. cbn. by rewrite orb_false_r.
  - destruct (Z.eqb_spec k j); [lia|]. cbn. by rewrite !orb_false_r.
Qed.

(** The wire format of a row of the binary protocol. *)
Definition isNone {A} (o : option A) : bool := match o with None => true | Some _ => false end.
Definition rowBitmap (cells : list (option bytes)) : bytes :=
  withBits (isNone <$> cells) 2 (replicate (Z.to_nat (nullBitMapLen (len cells))) 0).
Definition rowValues (cells : list (option bytes)) : bytes :=
  cells ≫= (fun c => match c with None => [] | Some e => e end).
Definition binaryRowBytes (cells : list (option bytes)) : bytes :=
  [OKPacket] ++ rowBitmap cells ++ rowValues cells.

(** The bytes a value of a type may have: fixed widths for numbers, a
    length-encoded string for the string-like types.  Temporal types are left
    out. *)
Definition fixedWidth (typ : Z) : option nat :=
  if (typ =? FieldTypeTiny) || (typ =? FieldTypeUint8) then Some 1%nat
  else if (typ =? FieldTypeShort) || (typ =? FieldTypeYear) || (typ =? FieldTypeUint16) then Some 2%nat
  else if (typ =? FieldTypeInt24) || (typ =? FieldTypeLong) || (typ =? FieldTypeUint24) ||
          (typ =? FieldTypeUint32) || (typ =? FieldTypeFloat) then Some 4%nat
  else if (typ =? FieldTypeLongLong) || (typ =? FieldTypeUint64) || (typ =? FieldTypeDouble) then Some 8%nat
  else None.

Definition wireValue (typ : Z) (e : bytes) : Prop :=
  match fixedWidth typ with
  | Some n => exists v, 0 <= v < 2 ^ (8 * Z.of_nat n) /\ e = le n v
  | None => isStringType typ = true /\ exists s, e = lenencString s
  end.

Lemma binaryLen_bitmap cells : len (rowBitmap cells) = nullBitMapLen (len cells).
Proof.
  unfold rowBitmap. rewrite withBits_len. unfold len at 1. rewrite length_replicate.
  unfold nullBitMapLen. pose proof (len_nonneg cells). rewrite Z2Nat.id; [done|]. apply Z.div_pos; lia.
Qed.

(** The bits of a bitmap built from zeros. *)
Lemma mask_bit nulls j n i b :
  nulls !! i = Some b -> 0 <= j -> j + len nulls <= 8 * Z.of_nat n ->
  exists byte, get (withBits nulls j (replicate n 0)) ((Z.of_nat i + j) / 8) = Ok byte /\
    Z.testbit byte ((Z.of_nat i + j) mod 8) = b.
Proof.
  intros Hi Hj Hn. pose proof (lookup_lt_Some _ _ _ Hi) as Hlt. set (k := Z.of_nat i + j).
  set (mask := withBits nulls j (replicate n 0)).
  assert (Hlen : len mask = Z.of_nat n) by (unfold mask; rewrite withBits_len; unfold len; by rewrite length_replicate).
  assert (Hk : 0 <= k / 8 < len mask).
  { rewrite Hlen. unfold len in Hn. subst k. Z.to_euclidean_division_equations; lia. }
  exists (nth (Z.to_nat (k / 8)) mask 0). split.
  { unfold get, len in *. zcases; try lia. rewrite nth_lookup.
    destruct (lookup_lt_is_Some_2 mask (Z.to_nat (k / 8))) as [x Hx]; [lia|]. by rewrite Hx. }
  change (bitAt mask k = b). unfold mask.
  rewrite bitAt_withBits by (unfold len in *; rewrite ?length_replicate; lia).
  replace (Z.to_nat (k - j)) with i by (subst k; lia).
  rewrite nth_lookup, Hi. cbn. destruct (Z.leb_spec j k); [|subst k; lia].
  unfold bitAt. rewrite nth_lookup, lookup_replicate_2 by lia. cbn. by rewrite Z.testbit_0_l.
Qed.

Lemma isNullBit_row cells i c :
  cells !! i = Some c -> isNullBit (rowBitmap cells) (Z.of_nat i) = Ok (isNone c).
Proof.
  intros Hi. destruct (mask_bit (isNone <$> cells) 2 (Z.to_nat (nullBitMapLen (len cells))) i (isNone c))
    as (b & Hg & Ht); [by rewrite list_lookup_fmap, Hi | lia | |].
  - unfold len. rewrite length_fmap. unfold nullBitMapLen. Z.to_euclidean_division_equations; lia.
  - unfold isNullBit, rowBitmap. rewrite Hg. cbn. by rewrite Ht.
Qed.

(** What decoding a cell must give for the row to pass: a value that is
    written as the bytes it was read from. *)
Definition writtenAs (v : Value) (e : bytes) : Prop :=
  isNullValue (Some v) = false /\ BinaryVal2MySQL v = Ok e /\ BinaryVal2MySQLLen v = Ok (len e).

Lemma fixedCell_run f n raw conv v g pre post :
  0 <= v < 2 ^ (8 * Z.of_nat n) -> conv v = Ok g -> 0 <= raw <= Z.of_nat n ->
  exists r, fixedCell f (Z.of_nat n) raw conv (pre ++ le n v ++ post) (len pre) =
    Ok (Some (mkValue (FieldType f) (Flags f) (Z.of_nat n) g r), len pre + Z.of_nat n).
Proof.
  intros Hv Hc Hr. unfold fixedCell.
  pose proof (slice_mid pre (le n v) post) as S1. rewrite le_length in S1. rewrite S1.
  cbn [mbind res_bind]. rewrite unle_le_small by done. rewrite Hc. cbn [mbind res_bind].
  rewrite <- (take_drop (Z.to_nat raw) (le n v)), <- app_assoc.
  pose proof (slice_mid pre (take (Z.to_nat raw) (le n v)) (drop (Z.to_nat raw) (le n v) ++ post)) as S2.
  assert (Hlen : len (take (Z.to_nat raw) (le n v)) = raw).
  { pose proof (le_length n v). unfold len in *. rewrite length_take. lia. }
  rewrite Hlen in S2. rewrite S2. cbn. eauto.
Qed.

Lemma uint64_text v :
  in_u64 v -> exists s, Uint64ToString v = Ok s /\ parseUint64 (GBytes s) = Ok v.
Proof.
  intros Hv. exists (bytes_of (FormatUint v)). split; [by apply Uint64ToString_FormatUint|].
  unfold parseUint64. rewrite string_of_bytes_of. by rewrite ParseUint_FormatUint by apply Hv.
Qed.

Lemma stringCell_run f s pre post :
  len (pre ++ lenencString s ++ post) < two63 ->
  stringCell f (pre ++ lenencString s ++ post) (len pre) =
    Ok (Some (mkValue (FieldType f) (Flags f) (len (lenencString s)) (GBytes s) (lenencString s)),
        len pre + len (lenencString s)).
Proof.
  intros Hlen. pose proof (len_nonneg pre). pose proof (len_nonneg (lenencString s)).
  pose proof (len_nonneg post). unfold stringCell. rewrite slice_suffix. cbn [mbind res_bind].
  rewrite !len_app in Hlen.
  rewrite ReadLengthEncodedString_lenenc by (rewrite len_app; lia). cbn [mbind res_bind].
  rewrite i64_id by (unfold_width; lia). by rewrite slice_mid.
Qed.

Lemma binaryCell_fixed f n v pre post conv raw g :
  binaryCell f = fixedCell f (Z.of_nat n) raw conv -> conv v = Ok g ->
  0 <= v < 2 ^ (8 * Z.of_nat n) -> 0 <= raw <= Z.of_nat n ->
  (forall r, writtenAs (mkValue (FieldType f) (Flags f) (Z.of_nat n) g r) (le n v)) ->
  exists w, binaryCell f (pre ++ le n v ++ post) (len pre) = Ok (Some w, len pre + len (le n v)) /\
    writtenAs w (le n v).
Proof.
  intros Hb Hc Hv Hr Hw. rewrite Hb, le_length.
  destruct (fixedCell_run f n raw conv v g pre post Hv Hc Hr) as (r & E). eauto.
Qed.

(** Which values of the two wide types are rendered as text. *)
Lemma binaryCell_uint64 f v pre post :
  FieldType f = FieldTypeUint64 -> in_u64 v ->
  exists w, binaryCell f (pre ++ le 8 v ++ post) (len pre) = Ok (Some w, len pre + len (le 8 v)) /\
    writtenAs w (le 8 v).
Proof.
  intros Et Hv. destruct (Z.ltb_spec 9223372036854775807 v) as [Hbig|Hsmall].
  - destruct (uint64_text v Hv) as (s & Es & Ep).
    eapply (binaryCell_fixed f 8 v _ _ _ 8 (GBytes s)); [unfold binaryCell; rewrite Et; reflexivity | | exact Hv | lia |].
    + cbv beta. destruct (Z.ltb_spec 9223372036854775807 v); [|lia]. by rewrite Es.
    + intros r. unfold writtenAs, BinaryVal2MySQL, BinaryVal2MySQLLen. rewrite Et, le_length. cbn -[le parseUint64].
      by rewrite Ep.
  - eapply (binaryCell_fixed f 8 v _ _ _ 8 (GInt64 v)); [unfold binaryCell; rewrite Et; reflexivity | | exact Hv | lia |].
    + cbv beta. destruct (Z.ltb_spec 9223372036854775807 v); [lia|]. done.
    + intros r. unfold writtenAs, BinaryVal2MySQL, BinaryVal2MySQLLen. by rewrite Et, le_length.
Qed.

Lemma string_dispatch f :
  isStringType (FieldType f) = true ->
  binaryCell f = stringCell f /\
  forall n s r, writtenAs (mkValue (FieldType f) (Flags f) n (GBytes s) r) (lenencString s).
Proof.
  intros Hs. unfold isStringType in Hs. apply existsb_exists in Hs as (t & Ht & E%Z.eqb_eq).
  unfold binaryCell, writtenAs, BinaryVal2MySQL, BinaryVal2MySQLLen. cbn [Typ Val]. rewrite E.
  cbn in Ht; repeat destruct Ht as [<-|Ht]; try done;
    (split; [done|]); intros n s r; (split_and!; [done | done |]);
    cbn; f_equal; symmetry; apply lenencString_len.
Qed.

Lemma binaryCell_wire f e pre post :
  wireValue (FieldType f) e -> len (pre ++ e ++ post) < two63 ->
  exists v, binaryCell f (pre ++ e ++ post) (len pre) = Ok (Some v, len pre + len e) /\ writtenAs v e.
Proof.
  intros He Hlen. unfold wireValue in He. destruct (fixedWidth (FieldType f)) as [n|] eqn:Ew.
  - destruct He as (v & Hv & ->). unfold fixedWidth in Ew.
    repeat match type of Ew with
    | (if ?b then _ else _) = _ => destruct b eqn:?; [|]
    | Some _ = Some _ => injection Ew as <-
    | None = Some _ => discriminate
    end.
    all: repeat match goal with
      | H : (_ || _)%bool = true |- _ => apply orb_prop in H as [H|H]
      | H : (FieldType _ =? _) = true |- _ => apply Z.eqb_eq in H
      end.
    all: try (by apply binaryCell_uint64).
    all: eapply binaryCell_fixed;
      [ unfold binaryCell; match goal with H : FieldType _ = _ |- _ => rewrite H end; reflexivity
      | reflexivity | exact Hv | lia |].
    all: intros r; unfold writtenAs, BinaryVal2MySQL, BinaryVal2MySQLLen;
      match goal with H : FieldType _ = _ |- _ => rewrite H end; rewrite le_length;
      split_and!; [done | | done]; cbn [Typ Val].
    all: cbn -[le]; unfold fixedOut; f_equal; apply le_congr.
    all: cbn in Hv |- *; unfold i8, i16, i32, i64, two63, two64 in *.
    all: Z.to_euclidean_division_equations; lia.
  - destruct He as (Hs & s & ->). destruct (string_dispatch f Hs) as [Hb Hw].
    eexists. rewrite Hb, stringCell_run by done. split; [done|]. apply Hw.
Qed.

(** *** Whole rows *)
Definition wireRow (cols : list Field) (cells : list (option bytes)) : Prop :=
  Forall2 (fun f c => match c with Some e => wireValue (FieldType f) e | None => True end) cols cells.

Definition cellOut (v : option Value) (c : option bytes) : Prop :=
  match v, c with
  | None, None => True
  | Some w, Some e => writtenAs w e
  | _, _ => False
  end.

Lemma rowValues_cons c cells :
  rowValues (c :: cells) = match c with None => [] | Some e => e end ++ rowValues cells.
Proof. done. Qed.

Lemma binaryCells_decode all cols cells i pre post :
  wireRow cols cells -> drop i all = cells -> len (pre ++ rowValues cells ++ post) < two63 ->
  exists vs, binaryCells cols (rowBitmap all) (pre ++ rowValues cells ++ post) (Z.of_nat i) (len pre) = Ok vs /\
    Forall2 cellOut vs cells.
Proof.
  intros Hw. revert i pre. induction Hw as [|f c cols cells Hc Hw IH]; intros i pre Hd Hlen.
  { by exists []. }
  rewrite rowValues_cons, <- !app_assoc in *. cbn [binaryCells].
  assert (Hi : all !! i = Some c).
  { rewrite <- (Nat.add_0_r i), <- lookup_drop, Hd. done. }
  rewrite (isNullBit_row all i c Hi). cbn [mbind res_bind].
  assert (Hd' : drop (S i) all = cells) by (rewrite <- Nat.add_1_r, <- drop_drop, Hd; done).
  replace (Z.of_nat i + 1) with (Z.of_nat (S i)) by lia.
  destruct c as [e|]; cbn [isNone].
  - destruct (binaryCell_wire f e pre (rowValues cells ++ post) Hc Hlen) as (w & -> & Hout).
    cbn [mbind res_bind]. rewrite <- len_app.
    destruct (IH (S i) (pre ++ e) Hd') as (vs & E & Hvs); [by rewrite <- app_assoc|].
    rewrite <- app_assoc in E. rewrite E. cbn. eexists; split; [done|]. by constructor.
  - cbn [mbind res_bind app]. destruct (IH (S i) pre Hd' Hlen) as (vs & E & Hvs).
    rewrite E. cbn. eexists; split; [done|]. by constructor.
Qed.

Lemma setBit_bitmap bm rest k :
  0 <= k -> k / 8 < len bm ->
  setBit (0 :: bm ++ rest) (k / 8 + 1) (k mod 8) = Ok (0 :: withBit bm k ++ rest).
Proof.
  intros Hk Hl. assert (0 <= k / 8) by (apply Z.div_pos; lia). unfold setBit, get, set, withBit.
  assert (Hlen : len (0 :: bm ++ rest) = 1 + len bm + len rest).
  { unfold len. cbn [length]. rewrite length_app. lia. }
  pose proof (len_nonneg rest). rewrite Hlen. unfold len in *. zcases; try lia. cbn [andb].
  replace (Z.to_nat (k / 8 + 1)) with (S (Z.to_nat (k / 8))) by lia.
  destruct (lookup_lt_is_Some_2 bm (Z.to_nat (k / 8))) as [x Hx]; [lia|].
  assert (Hx' : (0 :: bm ++ rest) !! S (Z.to_nat (k / 8)) = Some x) by (by apply lookup_app_l_Some).
  rewrite Hx', nth_lookup, Hx. cbn. do 2 f_equal. apply insert_app_l. lia.
Qed.

Lemma writeCopy_run out pre rest :
  len out <= len rest ->
  writeCopy out (pre ++ rest) (len pre) = Ok (pre ++ out ++ drop (length out) rest, len pre + len out).
Proof.
  intros Hl. pose proof (len_nonneg pre). rewrite (writes (w := writeCopy out)) by (rewrite ?len_app; lia).
  do 2 f_equal. unfold splice, len. rewrite Nat2Z.id, take_app_length. do 2 f_equal.
  rewrite drop_app_ge by lia. f_equal. lia.
Qed.

Lemma binaryValues_run vs cells i bm vals rest c :
  Forall2 cellOut vs cells -> 0 <= i -> i + 2 + len cells <= 8 * len bm ->
  len (rowValues cells) <= len rest ->
  binaryValues vs i (0 :: bm ++ vals ++ rest) (1 + len bm + len vals) c =
    (Ok (0 :: withBits (isNone <$> cells) (i + 2) bm ++ vals ++ rowValues cells ++
           drop (length (rowValues cells)) rest,
         1 + len bm + len vals + len (rowValues cells)), c).
Proof.
  intros Hv. revert i bm vals rest. induction Hv as [|v w vs cells Hvw Hv IH]; intros i bm vals rest Hi Hb Hr.
  { cbn. rewrite drop_0. change (len (rowValues [])) with 0. by rewrite Z.add_0_r. }
  assert (Hlc : len (w :: cells) = 1 + len cells) by (unfold len; cbn [length]; lia).
  pose proof (len_nonneg cells). cbn [binaryValues fmap list_fmap withBits].
  rewrite rowValues_cons in *. replace (i + 2 + 1) with (i + 1 + 2) by lia.
  destruct v as [v|], w as [e|]; cbn [cellOut] in Hvw; try done; cbn [isNone].
  - destruct Hvw as (Hn & Ho & _). rewrite Hn, Ho, len_app in *.
    pose proof (len_nonneg e). pose proof (len_nonneg (rowValues cells)).
    assert (E : writeCopy e (0 :: bm ++ vals ++ rest) (1 + len bm + len vals) =
                Ok (0 :: bm ++ (vals ++ e) ++ drop (length e) rest, 1 + len bm + len (vals ++ e))).
    { pose proof (writeCopy_run e (0 :: bm ++ vals) rest ltac:(lia)) as W.
      cbn [app] in W. rewrite <- !app_assoc in W.
      replace (len (0 :: bm ++ vals)) with (1 + len bm + len vals) in W
        by (unfold len; cbn [length]; rewrite length_app; lia).
      rewrite W, len_app, <- app_assoc. do 2 f_equal. lia. }
    erewrite bind_M_run by (unfold lift; rewrite E; reflexivity). cbn beta iota.
    rewrite IH by (rewrite ?len_app; unfold len in *; rewrite ?length_drop; lia).
    rewrite drop_drop, !len_app, !length_app. cbn [app]. rewrite <- !app_assoc.
    do 3 f_equal; lia.
  - cbn [app] in *. erewrite bind_M_run.
    2:{ erewrite bind_M_run by (unfold lift; rewrite setBit_bitmap by
          (try apply Z.div_lt_upper_bound; lia); reflexivity). reflexivity. }
    cbn beta iota. rewrite <- (withBit_len bm (i + 2)).
    rewrite IH by (rewrite ?withBit_len; lia). by rewrite withBit_len.
Qed.

Lemma binaryLength_run vs cells :
  Forall2 cellOut vs cells -> binaryLength vs = Ok (len (rowValues cells)).
Proof.
  induction 1 as [|v w vs cells Hvw Hv IH]; [done|]. rewrite rowValues_cons. cbn [binaryLength].
  destruct v as [v|], w as [e|]; cbn [cellOut] in Hvw; try done.
  - destruct Hvw as (Hn & _ & Hl). rewrite Hn, Hl, IH. cbn. by rewrite len_app.
  - cbn. by rewrite IH.
Qed.

Lemma zeroes_run n data :
  len data = 1 + Z.of_nat n + len (drop (S n) data) ->
  writeAll ((fun d p => WriteByte d p 0) :: replicate n (fun d p => WriteByte d p 0)) data 0 =
    Ok (0 :: replicate n 0 ++ drop (S n) data, 1 + Z.of_nat n).
Proof.
  intros Hl. assert (W : forall m, Writes (writeAll (replicate m (fun d p => WriteByte d p 0))) (replicate m 0)).
  { intros m. induction m as [|m IH]; [apply Writes_nil|]. apply (Writes_cons _ _ [0]); [apply _ | exact IH]. }
  assert (W1 : Writes (writeAll ((fun d p => WriteByte d p 0) :: replicate n (fun d p => WriteByte d p 0)))
                 ([0] ++ replicate n 0)) by (apply Writes_cons; [apply _ | apply W]).
  assert (Hlen : len ([0] ++ replicate n 0) = 1 + Z.of_nat n).
  { unfold len. rewrite length_app, length_replicate. cbn. lia. }
  rewrite W1 by (rewrite ?Hlen; pose proof (len_nonneg (drop (S n) data)); lia). rewrite Hlen.
  unfold splice. cbn. by rewrite length_replicate.
Qed.

Lemma writeBinaryRow_sends `{BufPool} fl fields vs cells :
  Forall2 cellOut vs cells -> length fields = length cells ->
  Sends fl (writeBinaryRow fields vs) [binaryRowBytes cells] tt.
Proof.
  intros Hv Hf c n Hfl Hn Hl. unfold writeBinaryRow.
  erewrite bind_M_run by (unfold lift; by rewrite (binaryLength_run vs cells Hv)).
  assert (Hlf : len fields = len cells) by (unfold len; lia). rewrite Hlf.
  pose proof (binaryLen_bitmap cells) as Hbm.
  assert (Hnb : 0 <= nullBitMapLen (len cells)) by (rewrite <- Hbm; apply len_nonneg).
  revert c n Hfl Hn Hl. change (Sends fl (sendBuilt (len (rowValues cells) + nullBitMapLen (len cells) + 1)
    (fun data => '(d, pos) ← lift (writeAll ((fun d p => WriteByte d p 0) ::
       replicate (Z.to_nat (nullBitMapLen (len cells))) (fun d p => WriteByte d p 0)) data 0);
       binaryValues vs 0 d pos)
    "internal error packet row: got a different number of bytes than expected") [binaryRowBytes cells] tt).
  apply sendBuilt_sends.
  { unfold binaryRowBytes. rewrite !len_app, Hbm. change (len [OKPacket]) with 1. lia. }
  intros data c Hd. set (nb := Z.to_nat (nullBitMapLen (len cells))) in *.
  pose proof (len_nonneg (rowValues cells)).
  assert (Hrest : len (drop (S nb) data) = len (rowValues cells)).
  { subst nb. unfold len in *. rewrite length_drop. lia. }
  erewrite bind_M_run.
  2:{ unfold lift. rewrite zeroes_run; [reflexivity|]. rewrite Hrest, Hd. subst nb. lia. }
  cbn beta iota.
  assert (Hz : len (replicate nb 0) = Z.of_nat nb) by (unfold len; by rewrite length_replicate).
  pose proof (binaryValues_run vs cells 0 (replicate nb 0) [] (drop (S nb) data) c Hv ltac:(lia)) as R.
  rewrite Hz in R. change (len []) with 0 in R. rewrite Z.add_0_r in R. cbn [app] in R. rewrite R.
  - rewrite drop_ge by (unfold len in Hrest; lia). rewrite app_nil_r.
    do 3 f_equal. unfold binaryRowBytes, rowBitmap. fold nb. lia.
  - subst nb. unfold nullBitMapLen in *. rewrite Z2Nat.id by done.
    pose proof (len_nonneg cells). Z.to_euclidean_division_equations; lia.
  - lia.
Qed.

(** ** Rows pass through the proxy *)
Inductive protocol := TextProtocol | BinaryProtocol.

(** A row payload as a database sends it for these columns. *)
Definition rowPayload (k : protocol) (cols : list Field) (p : bytes) : Prop :=
  len p < two63 /\
  match k with
  | TextProtocol => exists cells, p = textRowBytes cells /\ datesParse cols cells
  | BinaryProtocol => exists cells, p = binaryRowBytes cells /\ wireRow cols cells
  end.

(** [ParseRow] *)
Definition ParseRow (k : protocol) (fields : list Field) (data : bytes) : anyRow :=
  match k with
  | TextProtocol => ATextRow (newRow data fields)
  | BinaryProtocol => ABinaryRow (newRow data fields)
  end.

Definition writeRow `{BufPool} (fields : list Field) (r : anyRow) : M unit :=
  match r with
  | ATextRow t => writeTextRow (Values t)
  | ABinaryRow b => writeBinaryRow fields (Values b)
  end.

Lemma text_row_passes `{BufPool} fl cols p :
  rowPayload TextProtocol cols p ->
  exists r, decodeRow (ParseRow TextProtocol cols p) = Ok r /\ Sends fl (writeRow cols r) [p] tt.
Proof.
  intros (Hlen & cells & -> & Hd).
  destruct (textCells_decode cols cells [] [] Hd) as (vs & E & Hvs); [by rewrite app_nil_r|].
  rewrite app_nil_r in E. cbn [app] in E. change (len []) with 0 in E.
  unfold decodeRow, TextRow_Decode, decodeOnce, ParseRow, newRow. cbn [decoded Columns Content].
  rewrite E. eexists; split; [reflexivity|]. cbn [writeRow Values]. rewrite <- Hvs.
  apply writeTextRow_sends.
Qed.

Lemma decodeBinary_run cols cells :
  wireRow cols cells -> len (binaryRowBytes cells) < two63 ->
  exists vs, decodeBinary cols (binaryRowBytes cells) = Ok vs /\ Forall2 cellOut vs cells.
Proof.
  intros Hw Hlen. unfold decodeBinary.
  assert (Hl : len cols = len cells) by (unfold len; by rewrite (Forall2_length _ _ _ Hw)).
  change (get (binaryRowBytes cells) 0) with (@Ok Z OKPacket). cbn [mbind res_bind].
  change (negb (OKPacket =? OKPacket)) with false. cbn iota. rewrite Hl, <- binaryLen_bitmap.
  unfold binaryRowBytes. pose proof (slice_mid [OKPacket] (rowBitmap cells) (rowValues cells)) as S.
  change (len [OKPacket]) with 1 in S. rewrite S. cbn [mbind res_bind].
  destruct (binaryCells_decode cells cols cells 0 ([OKPacket] ++ rowBitmap cells) [])
    as (vs & E & Hvs); [done | done | by rewrite app_nil_r, <- app_assoc|].
  rewrite app_nil_r, <- app_assoc, len_app in E. change (len [OKPacket]) with 1 in E. eauto.
Qed.

Lemma binary_row_passes `{BufPool} fl cols p :
  rowPayload BinaryProtocol cols p ->
  exists r, decodeRow (ParseRow BinaryProtocol cols p) = Ok r /\ Sends fl (writeRow cols r) [p] tt.
Proof.
  intros (Hlen & cells & -> & Hw). destruct (decodeBinary_run cols cells Hw Hlen) as (vs & E & Hvs).
  unfold decodeRow, BinaryRow_Decode, decodeOnce, ParseRow, newRow. cbn [decoded Columns Content].
  rewrite E. eexists; split; [reflexivity|]. cbn [writeRow Values].
  apply writeBinaryRow_sends; [done|]. by rewrite (Forall2_length _ _ _ Hw).
Qed.

Lemma row_passes `{BufPool} fl k cols p :
  rowPayload k cols p ->
  exists r, decodeRow (ParseRow k cols p) = Ok r /\ Sends fl (writeRow cols r) [p] tt.
Proof. destruct k; [apply text_row_passes | apply binary_row_passes]. Qed.

Lemma rows_pass `{BufPool} fl k cols payloads :
  Forall (rowPayload k cols) payloads ->
  exists rows, decodeResult (ParseRow k cols <$> payloads) = Ok rows /\
    Sends fl (WriteRows cols rows) payloads tt.
Proof.
  unfold decodeResult, WriteRows. induction 1 as [|p payloads Hp Hps IH]; cbn [fmap list_fmap mapM_res].
  { exists []. split; [done|]. apply Sends_ret. }
  destruct (row_passes fl k cols p Hp) as (r & -> & Hr). destruct IH as (rows & -> & Hrows).
  exists (r :: rows). split; [done|]. cbn [eachM].
  apply (Sends_bind fl _ _ [p] payloads tt); [by destruct r | exact Hrows].
Qed.

Lemma rowPayload_isRow k cols p : cols <> [] -> rowPayload k cols p -> isRow p.
Proof.
  intros Hne (Hlen & Hp). destruct k; destruct Hp as (cells & -> & Hc).
  - destruct Hc as [|f c cols' cells Hfc Hc]; [done|].
    change (textRowBytes (c :: cells)) with (textCell c ++ textRowBytes cells) in *.
    destruct c as [s|]; cbn [textCell] in *; [|split; [done | by intros]].
    pose proof (len_nonneg s); pose proof (len_nonneg (textRowBytes cells)).
    clear Hlen. unfold lenencString, lenenc.
    destruct (Z.ltb_spec (len s) 251);
      [|destruct (Z.ltb_spec (len s) (2 ^ 16)); [|destruct (Z.ltb_spec (len s) (2 ^ 24))]];
      cbn [app isRow].
    + unfold u8, two8. rewrite Z.mod_small by lia. split; [unfold ErrPacket | unfold EOFPacket]; lia.
    + done.
    + done.
    + split; [done|]. intros _. pose proof (le_length 8 (len s)) as Hle.
      unfold len in *. cbn [length]. rewrite !length_app. lia.
  - by split.
Qed.

(** ** The proxy between a database and a client *)

(** The columns as [ReadColumnDefinition] leaves them. *)
Definition readField (f : Field) : Field := withFlags (effectiveFlags f) f.

Lemma effectiveFlags_read f : effectiveFlags (readField f) = effectiveFlags f.
Proof.
  unfold effectiveFlags at 1, readField. cbn [Flags FieldType withFlags].
  destruct (Z.eqb_spec (effectiveFlags f) 0) as [E|E]; cbn [negb]; [|done]. rewrite E.
  revert E. unfold effectiveFlags. destruct (Z.eqb_spec (Flags f) 0); cbn [negb]; [done | lia].
Qed.

Lemma colDefBytes_read f : colDefBytes (readField f) = colDefBytes f.
Proof. unfold colDefBytes. by rewrite effectiveFlags_read. Qed.

Lemma wireField_read f : wireField f -> wireField (readField f).
Proof.
  intros [Hs Hc Hl Hf Hd Ht].
  split; rewrite ?colDefBytes_read, ?effectiveFlags_read; try done. cbn. by apply effectiveFlags_range.
Qed.

Lemma rowPayload_read k fields p : rowPayload k (readField <$> fields) p <-> rowPayload k fields p.
Proof.
  unfold rowPayload, datesParse, wireRow. destruct k; split; intros (Hl & cells & -> & Hc);
    (split; [done|]); exists cells; (split; [done|]);
    rewrite ?Forall2_fmap_l in *; exact Hc.
Qed.

Lemma resultSet_read cap fl fields rows w :
  resultSet cap fl (readField <$> fields) rows w = resultSet cap fl fields rows w.
Proof.
  unfold resultSet, len. rewrite length_fmap, <- list_fmap_compose.
  replace (colDefBytes ∘ readField <$> fields) with (colDefBytes <$> fields); [done|].
  apply list_fmap_ext. intros i f _. symmetry. apply colDefBytes_read.
Qed.

(** C11: The proxy hands on a result as it got it.  Whatever a database sends as
    the answer to a query of either protocol (well-formed columns, row payloads
    with columns of every type but the temporal ones of the binary protocol),
    the driver reads completely, every row decodes, and [WriteFields],
    [WriteRows] and [WriteEndResult] send the client the same column
    definitions and, byte for byte, the same rows in the same order, whether or
    not each side deprecates EOF packets. *)
Theorem query_relayed `{BufPool} k capBackend capClient fields payloads warnings backendFlags fl :
  fields <> [] -> len fields < two63 -> Forall wireField fields ->
  Forall (rowPayload k fields) payloads ->
  0 <= backendFlags < 65536 -> 0 <= warnings < 65536 ->
  exists result more rows,
    Receives (ReadQueryResult capBackend true) (resultSet capBackend backendFlags fields payloads warnings)
      (result, more, warnings) /\
    Fields result = Some (readField <$> fields) /\
    decodeResult (ParseRow k (readField <$> fields) <$> RowData result) = Ok rows /\
    Sends fl (_ ← WriteFields capClient (readField <$> fields); _ ← WriteRows (readField <$> fields) rows;
              WriteEndResult capClient false 0 0 warnings)
      (resultSet capClient fl fields payloads warnings) tt.
Proof.
  intros Hne Hlen Hf Hp Hbf Hw.
  assert (Hp' : Forall (rowPayload k (readField <$> fields)) payloads)
    by (eapply Forall_impl; [exact Hp | intros p; by apply rowPayload_read]).
  destruct (rows_pass fl k (readField <$> fields) payloads Hp') as (rows & E & Hs).
  exists (mkResult (Some (readField <$> fields)) (len payloads) 0 payloads),
    (hasFlag backendFlags ServerMoreResultsExists), rows.
  split_and!; [|reflexivity | exact E |].
  - apply ReadQueryResult_receives; try done.
    eapply Forall_impl; [exact Hp | intros p; by apply rowPayload_isRow].
  - rewrite <- resultSet_read. apply resultSet_sends; [by destruct fields | | exact Hs].
    apply Forall_fmap. eapply Forall_impl; [exact Hf | exact wireField_read].
Qed.

Definition nameField : Field :=
  mkField (bytes_of "t") (bytes_of "t") (bytes_of "db") (bytes_of "name") (bytes_of "name") 0 FieldTypeVarString
    0 33 255 0 None.

Lemma nameField_wire : wireField nameField.
Proof. split; vm_compute; intuition congruence. Qed.

Lemma query_relayed_witness :
  exists result more rows,
    Receives (ReadQueryResult 0 true)
      (resultSet 0 2 [sampleField; nameField] [binaryRowBytes [Some (le 4 7); None]] 0) (result, more, 0) /\
    Fields result = Some (readField <$> [sampleField; nameField]) /\
    decodeResult (ParseRow BinaryProtocol (readField <$> [sampleField; nameField]) <$> RowData result) = Ok rows /\
    Sends 2 (_ ← WriteFields 0 (readField <$> [sampleField; nameField]);
             _ ← WriteRows (readField <$> [sampleField; nameField]) rows; WriteEndResult 0 false 0 0 0)
      (resultSet 0 2 [sampleField; nameField] [binaryRowBytes [Some (le 4 7); None]] 0) tt.
Proof.
  apply (query_relayed BinaryProtocol 0 0 [sampleField; nameField] [binaryRowBytes [Some (le 4 7); None]] 0 2 2).
  - done.
  - done.
  - constructor; [apply sampleField_wire | constructor; [apply nameField_wire | constructor]].
  - constructor; [|constructor]. split; [done|]. exists [Some (le 4 7); None]. split; [done|].
    constructor; [|constructor; [done | constructor]]. exists 7. split; [cbn; lia | done].
  - lia.
  - lia.
Defined.

(** ** Temporal columns of the binary protocol *)

(** The payload of a row with one DATETIME in whole seconds. *)
Definition datetimeRow (t : time) : bytes :=
  [0; 0; 7] ++ le 2 (Year t) ++ [Month t; Day t; Hour t; Minute t; Second t].

Lemma datetimeRow_decodes f t :
  FieldType f = FieldTypeDateTime -> storable t -> Nanosecond t = 0 ->
  decodeBinary [f] (datetimeRow t) =
    Ok [Some (mkValue FieldTypeDateTime (Flags f) 7 (GTime t) (take 1 (le 2 (Year t))))].
Proof.
  intros Hf [Hv Hy] Hns. pose proof (Date_valid t Hv) as HD. unfold decodeBinary.
  change (get (datetimeRow t) 0) with (@Ok Z 0). change (slice (datetimeRow t) 1 (1 + nullBitMapLen (len [f])))
    with (@Ok bytes [0]). cbn [mbind res_bind Z.eqb negb OKPacket binaryCells].
  change (isNullBit [0] 0) with (Ok false). cbn [mbind res_bind]. unfold binaryCell. rewrite Hf.
  change (temporalCell f) with (temporalCell f). cbn -[temporalCell datetimeRow].
  unfold temporalCell. set (src := le 2 (Year t) ++ [Month t; Day t; Hour t; Minute t; Second t]).
  change (slice (datetimeRow t) (1 + nullBitMapLen (len [f])) (len (datetimeRow t))) with (@Ok bytes (7 :: src)).
  rewrite Ok_bind. change (ReadLengthEncodedInteger (7 :: src)) with (@Ok (Z * bool * Z) (7, false, 1)).
  rewrite Ok_bind. cbn beta iota zeta. rewrite Hf. change (FieldTypeDateTime =? FieldTypeTime) with false. cbn iota.
  change (slice (datetimeRow t) (1 + nullBitMapLen (len [f]) + 1) (len (datetimeRow t))) with (@Ok bytes src).
  rewrite Ok_bind.
  assert (E : ParseBinaryDateTime 7 src = Ok t).
  { unfold ParseBinaryDateTime. change (7 =? 0) with false. change (7 =? 4) with false.
    change (7 =? 7) with true. cbn iota.
    change (slice src 0 2) with (@Ok bytes (le 2 (Year t))). change (get src 2) with (@Ok Z (Month t)).
    change (get src 3) with (@Ok Z (Day t)). change (get src 4) with (@Ok Z (Hour t)).
    change (get src 5) with (@Ok Z (Minute t)). change (get src 6) with (@Ok Z (Second t)).
    rewrite !Ok_bind. rewrite unle_le_small by (change (8 * Z.of_nat 2) with 16; lia).
    rewrite Hns in HD. exact (f_equal Ok HD). }
  rewrite E. change (slice (datetimeRow t) (1 + nullBitMapLen (len [f]) + 1)
                      (1 + nullBitMapLen (len [f]) + 1 + 1)) with (@Ok bytes (take 1 (le 2 (Year t)))).
  reflexivity.
Qed.

(** A prepared SELECT of a DATETIME with a time of day fails in the proxy:
    the row decodes, but [BinaryVal2MySQLLen] counts 12 bytes where
    [BinaryVal2MySQL] writes 8, so [writeBinaryRows] reports an internal error;
    the packet it started is never released, and the next packet on the
    connection, such as the one that would report the error, panics. *)
Theorem datetime_row_fails `{BufPool} f t c :
  FieldType f = FieldTypeDateTime -> storable t -> Nanosecond t = 0 -> midnight t = false ->
  policy c = ephemeralUnused ->
  exists r e c', decodeRow (ParseRow BinaryProtocol [f] (datetimeRow t)) = Ok r /\
    writeRow [f] r c = (Err e, c') /\
    forall err, WriteErrorPacketFromError err c' = (Panic, c').
Proof.
  intros Hf Ht Hns Hmid Hp.
  unfold decodeRow, BinaryRow_Decode, decodeOnce, ParseRow, newRow. cbn [decoded Columns Content].
  rewrite (datetimeRow_decodes f t) by done.
  set (v := mkValue _ _ _ _ _). eexists _, _, _. split; [reflexivity|]. cbn [writeRow Values].
  assert (Hl : binaryLength [Some v] = Ok 12).
  { cbn. unfold BinaryVal2MySQLLen. cbn. by rewrite Hmid. }
  assert (Ho : BinaryVal2MySQL v = Ok (7 :: dateBytes t ++ clockBytes t)).
  { unfold BinaryVal2MySQL. cbn. unfold timeOut, microSecond. by rewrite Hmid, Hns. }
  split.
  - unfold writeBinaryRow. erewrite bind_M_run by (unfold lift; by rewrite Hl).
    unfold sendBuilt. erewrite bind_M_run by (by apply StartEphemeral_run).
    assert (Hd : len (Get 14) = 14) by (apply Get_len; lia).
    erewrite bind_M_run.
    2:{ erewrite bind_M_run.
        2:{ unfold lift. change (Z.to_nat (nullBitMapLen (len [f]))) with 1%nat.
            change (12 + nullBitMapLen (len [f]) + 1) with 14.
            rewrite zeroes_run; [reflexivity|]. unfold len in *. rewrite length_drop. lia. }
        cbn beta iota. cbn [binaryValues isNullValue Val v]. rewrite Ho.
        erewrite bind_M_run.
        2:{ unfold lift. pose proof (writeCopy_run (7 :: dateBytes t ++ clockBytes t) [0; 0] (drop 2 (Get 14))) as W.
            cbn [app] in W. change (len [0; 0]) with (1 + Z.of_nat 1) in W. cbn [replicate app]. rewrite W; [reflexivity|].
            unfold len in *. rewrite length_drop. cbn. lia. }
        cbn beta iota. reflexivity. }
    cbn beta iota. erewrite bind_M_run by reflexivity. reflexivity.
  - intros err. unfold WriteErrorPacketFromError, WriteErrorPacket, StartEphemeralPacket.
    by destruct err.
Qed.

Definition createdField : Field :=
  mkField (bytes_of "t") (bytes_of "t") (bytes_of "db") (bytes_of "created") (bytes_of "created") 0
    FieldTypeDateTime 0 63 19 0 None.

Lemma datetime_row_fails_witness :
  exists r e c', decodeRow (ParseRow BinaryProtocol [createdField]
      (datetimeRow (mkTime 2022 6 1 12 30 0 0))) = Ok r /\
    writeRow [createdField] r (NewConn [] 10) = (Err e, c') /\
    forall err, WriteErrorPacketFromError err c' = (Panic, c').
Proof.
  apply (datetime_row_fails createdField (mkTime 2022 6 1 12 30 0 0) (NewConn [] 10)); try reflexivity.
  split; [repeat split; vm_compute; congruence | cbn; lia].
Defined.

(** A TIME column keeps its length and loses its content: [Raw] holds as many
    bytes as the length prefix, one, so the client of 12:34:56 reads zeros. *)
Theorem time_row_corrupted :
  let f := mkField [] [] [] (bytes_of "at") [] 0 FieldTypeTime 0 63 10 0 None in
  let payload := binaryRowBytes [Some [8; 0; 0; 0; 0; 0; 12; 34; 56]] in
  exists r, decodeRow (ParseRow BinaryProtocol [f] payload) = Ok r /\
    Sends 2 (writeRow [f] r) [binaryRowBytes [Some [8; 0; 0; 0; 0; 0; 0; 0; 0]]] tt.
Proof.
  intros f payload. set (v := mkValue FieldTypeTime 0 8 (GBytes (bytes_of "12:34:56")) [0]).
  exists (ABinaryRow (mkRow payload [f] true [Some v])). split; [vm_compute; reflexivity|].
  apply writeBinaryRow_sends; [|done]. constructor; [|constructor]. repeat split; reflexivity.
Qed.

(** A row that could not be decoded reports its error once: the next [Decode]
    returns no values and no error. *)
Theorem failed_decode_forgotten decode r e :
  decoded r = false -> decode (Columns r) (Content r) = Err e ->
  exists r', decodeOnce decode r = (Err e, r') /\ decodeOnce decode r' = (Ok [], r').
Proof. intros Hd He. unfold decodeOnce at 1. rewrite Hd, He. by eexists. Qed.
