(* ===== verification/Stmt.v ===== *)
(** * Prepared statements: the driver's side ([pkg/driver/statement.go] and the
    methods of [pkg/driver/client.go] on statements) and the server's parser of
    COM_STMT_EXECUTE ([ParseComStmtExecute], [ParseStmtArgs] of
    [pkg/packet/mysql.go])

    The arguments of an execution travel as a bitmap of NULLs, a list of types
    and the values.  [execute_args_roundtrip] shows what the server binds for
    the arguments the driver was given; [prepare_roundtrip] that the driver
    understands the server's answer to COM_STMT_PREPARE. *)
From Stdlib Require Import ZArith Lia List.
From stdpp Require Import base gmap list strings.
From S2P Require Import Prelude GoText Encoding Layout Conn Packets PacketSpec GoTime DateTime Rows.

Local Open Scope Z_scope.

(** ** Arguments of an execution, server side *)

(** Continue with the value and position of a reader, or give up ([!ok]). *)
Definition andThen {A B} (r : reader A) (k : A -> Z -> reader B) : reader B :=
  o ← r; match o with Some (v, pos) => k v pos | None => Ok None end.

Definition convertOk {A B} (f : A -> B) (r : reader A) : reader B :=
  andThen r (fun v pos => Ok (Some (f v, pos))).

(** [strconv.Itoa] and [fmt.Sprintf("%06d", ...)] as bytes. *)
Definition itoa (z : Z) : bytes := bytes_of (FormatInt z).
Definition sixDigits (z : Z) : bytes :=
  let s := itoa z in replicate (6 - length s) 48 ++ s.

Definition colon : bytes := [58].
Definition dash : bytes := [45].

Definition ParseDateArg (data : bytes) (pos : Z) : reader goValue :=
  andThen (ReadByte data pos) (fun size pos =>
    if size =? 0 then Ok (Some (GBytes [32], pos))
    else if (size =? 11) || (size =? 7) then
      andThen (ReadUint16 data pos) (fun year pos =>
      andThen (ReadByte data pos) (fun month pos =>
      andThen (ReadByte data pos) (fun day pos =>
      andThen (ReadByte data pos) (fun hour pos =>
      andThen (ReadByte data pos) (fun minute pos =>
      andThen (ReadByte data pos) (fun second pos =>
        let val := itoa year ++ dash ++ itoa month ++ dash ++ itoa day ++ [32] ++
                   itoa hour ++ colon ++ itoa minute ++ colon ++ itoa second in
        if size =? 11 then
          andThen (ReadUint32 data pos) (fun microSecond pos =>
            Ok (Some (GBytes (val ++ [46] ++ sixDigits microSecond), pos)))
        else Ok (Some (GBytes val, pos))))))))
    else if size =? 4 then
      andThen (ReadUint16 data pos) (fun year pos =>
      andThen (ReadByte data pos) (fun month pos =>
      andThen (ReadByte data pos) (fun day pos =>
        Ok (Some (GBytes (itoa year ++ dash ++ itoa month ++ dash ++ itoa day), pos)))))
    else Ok None).

Definition ParseTimeArg (data : bytes) (pos : Z) : reader goValue :=
  andThen (ReadByte data pos) (fun size pos =>
    if size =? 0 then Ok (Some (GBytes (bytes_of "00:00:00"), pos))
    else if (size =? 12) || (size =? 8) then
      andThen (ReadByte data pos) (fun isNegative pos =>
      andThen (ReadUint32 data pos) (fun days pos =>
      andThen (ReadByte data pos) (fun hour pos =>
      andThen (ReadByte data pos) (fun minute pos =>
      andThen (ReadByte data pos) (fun second pos =>
        let hours := (hour + days * 24) mod 4294967296 in
        let val := (if isNegative =? 1 then dash else []) ++
                   itoa hours ++ colon ++ itoa minute ++ colon ++ itoa second in
        if size =? 12 then
          andThen (ReadUint32 data pos) (fun microSecond pos =>
            Ok (Some (GBytes (val ++ [46] ++ sixDigits microSecond), pos)))
        else Ok (Some (GBytes val, pos)))))))
    else Ok None).

Definition ParseStmtArgs (data : bytes) (typ pos : Z) : reader goValue :=
  if typ =? FieldTypeNULL then Ok (Some (GNil, pos))
  else if (typ =? FieldTypeTiny) || (typ =? FieldTypeUint8)
  then convertOk (fun v => GInt64 (i8 v)) (ReadByte data pos)
  else if (typ =? FieldTypeUint16) || (typ =? FieldTypeShort) || (typ =? FieldTypeYear)
  then convertOk (fun v => GInt64 (i16 v)) (ReadUint16 data pos)
  else if (typ =? FieldTypeUint24) || (typ =? FieldTypeUint32)
  then convertOk GInt64 (ReadUint32 data pos)
  else if (typ =? FieldTypeInt24) || (typ =? FieldTypeLong)
  then convertOk (fun v => GInt64 (i32 v)) (ReadUint32 data pos)
  else if typ =? FieldTypeFloat then convertOk GFloat32 (ReadUint32 data pos)
  else if typ =? FieldTypeUint64 then convertOk GUint64 (ReadUint64 data pos)
  else if typ =? FieldTypeLongLong then convertOk (fun v => GInt64 (i64 v)) (ReadUint64 data pos)
  else if typ =? FieldTypeDouble then convertOk GFloat64 (ReadUint64 data pos)
  else if (typ =? FieldTypeTimestamp) || (typ =? FieldTypeDate) || (typ =? FieldTypeDateTime)
  then ParseDateArg data pos
  else if typ =? FieldTypeTime then ParseTimeArg data pos
  else if isStringType typ then convertOk GBytes (ReadLenEncStringAsBytesCopy data pos)
  else Ok None.

(** ** COM_STMT_EXECUTE, server side *)
Record Stmt := mkStmt {
  StatementID : Z; SqlText : bytes; ParamsCount : Z; ParamsType : list Z;
  BindVars : gmap string goValue }.

Definition set_types (ts : list Z) (s : Stmt) : Stmt :=
  mkStmt (StatementID s) (SqlText s) (ParamsCount s) ts (BindVars s).
Definition set_vars (vs : gmap string goValue) (s : Stmt) : Stmt :=
  mkStmt (StatementID s) (SqlText s) (ParamsCount s) (ParamsType s) vs.

Definition CRCommandsOutOfSync : Z := 2014.

(** The errors of [ParseComStmtExecute] are SQL errors; they carry their message
    here, which determines the number. *)
Definition stmtError {A} (msg : string) : res A := Err msg.
Definition stmtNotFound : string := "statement ID is not found from record".
Definition stmtSQLError (msg : string) : SQLError :=
  NewSQLError (if (msg =? stmtNotFound)%string then CRCommandsOutOfSync else CRMalformedPacket)
    SSUnknownSQLState (bytes_of msg).

Definition parameterID (i : Z) : string := "v" +:+ FormatInt (i + 1).

(** The types of the parameters; what was read before a failure stays. *)
Fixpoint parseTypes (n : nat) (i : nat) (payload : bytes) (pos : Z) (types : list Z) : list Z * res Z :=
  match n with
  | O => (types, Ok pos)
  | S n' =>
    match ReadByte payload pos with
    | Ok (Some (mysqlType, pos)) =>
      match ReadByte payload pos with
      | Ok (Some (flags, pos)) =>
        match MySQLToType mysqlType flags with
        | Ok valType => parseTypes n' (S i) payload pos (<[i := valType]> types)
        | _ => (types, stmtError "MySQLToType failed")
        end
      | Ok None => (types, stmtError "reading parameter flags failed")
      | _ => (types, Panic)
      end
    | Ok None => (types, stmtError "reading parameter type failed")
    | _ => (types, Panic)
    end
  end.

(** The values; a variable that is already bound (long data) is skipped. *)
Fixpoint parseValues (types : list Z) (i : Z) (payload bitMap : bytes) (pos : Z)
    (vars : gmap string goValue) : gmap string goValue * res unit :=
  match types with
  | [] => (vars, Ok tt)
  | typ :: types' =>
    let bound := match vars !! parameterID i with Some GNil | None => false | Some _ => true end in
    if bound then parseValues types' (i + 1) payload bitMap pos vars
    else
      match get bitMap (i / 8) with
      | Ok b =>
        match (if Z.testbit b (i mod 8) then ParseStmtArgs [] FieldTypeNULL pos
               else ParseStmtArgs payload typ pos) with
        | Ok (Some (val, pos')) =>
          parseValues types' (i + 1) payload bitMap pos' (<[parameterID i := val]> vars)
        | Ok None => (vars, stmtError "decoding parameter value failed")
        | Err e => (vars, Err e)
        | Panic => (vars, Panic)
        end
      | _ => (vars, Panic)
      end
  end.

(** From the NULL bitmap on, for a statement with its payload. *)
Definition bindStmt (s : Stmt) (payload : bytes) (pos : Z) : Stmt * res unit :=
  match (if 0 <? ParamsCount s
         then ReadBytes payload pos (((ParamsCount s + 7) mod 65536) / 8)
         else Ok (Some ([], pos))) with
  | Ok (Some (bitMap, pos)) =>
    match ReadByte payload pos with
    | Ok bound =>
      let '(flag, pos) := match bound with Some (f, p) => (f, p) | None => (0, 0) end in
      let '(types, r) :=
        if flag =? 1 then parseTypes (Z.to_nat (ParamsCount s)) 0 payload pos (ParamsType s)
        else (ParamsType s, Ok pos) in
      let s := set_types types s in
      match r with
      | Ok pos =>
        let '(vars, r) := parseValues types 0 payload bitMap pos (BindVars s) in
        (set_vars vars s, r)
      | Err e => (s, Err e)
      | Panic => (s, Panic)
      end
    | _ => (s, Panic)
    end
  | Ok None => (s, stmtError "reading NULL-bitmap failed")
  | _ => (s, Panic)
  end.

(** The statement id (0 before it is known to exist), the cursor type or the
    error, and the statements, of which the executed one is updated in place. *)
Definition ParseComStmtExecute (stmts : gmap Z Stmt) (data : bytes) : Z * res Z * gmap Z Stmt :=
  match slice data 1 (len data) with
  | Ok payload =>
    match ReadUint32 payload 0 with
    | Ok (Some (stmtID, pos)) =>
      match stmts !! stmtID with
      | None => (0, stmtError stmtNotFound, stmts)
      | Some prepare =>
        match ReadByte payload pos with
        | Ok (Some (cursorType, pos)) =>
          match ReadUint32 payload pos with
          | Ok (Some (iterCount, pos)) =>
            if negb (iterCount =? 1)
            then (stmtID, stmtError "iteration count is not equal to 1", stmts)
            else
              let '(prepare', r) := bindStmt prepare payload pos in
              (stmtID, r ≫= (fun _ => Ok cursorType), <[stmtID := prepare']> stmts)
          | Ok None => (stmtID, stmtError "reading iteration count failed", stmts)
          | _ => (stmtID, Panic, stmts)
          end
        | Ok None => (stmtID, stmtError "reading cursor type flags failed", stmts)
        | _ => (stmtID, Panic, stmts)
        end
      end
    | Ok None => (0, stmtError "reading statement ID failed", stmts)
    | _ => (0, Panic, stmts)
    end
  | _ => (0, Panic, stmts)
  end.

(** ** COM_STMT_EXECUTE, driver side *)

(** A single-precision number widened to double precision, on bit patterns. *)
Definition widen (bits : Z) : Z :=
  let sign := bits / 2 ^ 31 in
  let e := (bits / 2 ^ 23) mod 256 in
  let m := bits mod 2 ^ 23 in
  if e =? 255 then sign * 2 ^ 63 + 2047 * 2 ^ 52 + m * 2 ^ 29
  else if negb (e =? 0) then sign * 2 ^ 63 + (e + 896) * 2 ^ 52 + m * 2 ^ 29
  else if m =? 0 then sign * 2 ^ 63
  else let k := Z.log2 m in sign * 2 ^ 63 + (k + 874) * 2 ^ 52 + (m - 2 ^ k) * 2 ^ (52 - k).

(** [driver.DefaultParameterConverter.ConvertValue] on the dynamic types of
    arguments. *)
Definition ConvertValue (v : goValue) : res goValue :=
  match v with
  | GUint64 n => if two63 <=? n then Err "uint64 values with high bit set are not supported" else Ok (GInt64 n)
  | GFloat32 bits => Ok (GFloat64 (widen bits))
  | _ => Ok v
  end.

Section statements.
Context `{BufPool}.
(** The connection's [conf.MaxAllowedPacket] and [conf.Loc]. *)
Variable MaxAllowedPacket : Z.
Variable inLoc : time -> time.

Record BackendStatement := mkBackendStatement { id : Z; paramCount : Z }.

(** The header in bytes 4 to 10 of the buffer. *)
Definition longDataHeader (stmt : BackendStatement) (paramID : Z) : bytes :=
  [24] ++ le 4 (id stmt) ++ le 2 paramID.

Fixpoint longDataLoop (fuel : nat) (stmt : BackendStatement) (paramID : Z) (data : bytes) (argLen pktLen : Z) : M unit :=
  match fuel with
  | O => mret tt
  | S fuel' =>
    if 0 <? argLen then
      let pktLen := if 7 + argLen <? MaxAllowedPacket - 1 then 7 + argLen else pktLen in
      _ ← ResetSequence;
      data ← lift (storeAll data 4 (longDataHeader stmt paramID));
      packet ← lift (slice data 0 (4 + pktLen));
      _ ← WritePacket packet;
      data ← lift (slice data (pktLen - 7) (len data));
      longDataLoop fuel' stmt paramID data (argLen - (pktLen - 7)) pktLen
    else ResetSequence
  end.

Definition writeCommandLongData (stmt : BackendStatement) (paramID : Z) (arg : bytes) : M unit :=
  longDataLoop (S (length arg)) stmt paramID (replicate 11 0 ++ arg) (len arg) (MaxAllowedPacket - 1).

(** The threshold above which an argument travels as long data. *)
Definition longDataSize (stmt : BackendStatement) : Z :=
  Z.max 64 (Z.quot MaxAllowedPacket (paramCount stmt + 1)).

(** What is built while the arguments are visited: the NULL bitmap, the type
    codes and the values. *)
Record execBuf := mkBuf { nullMask : bytes; paramTypes : bytes; paramValues : bytes }.

(** [nullMask[i/8] |= 1 << (uint(i) & 7)] *)
Definition nullArg (i : Z) (b : execBuf) : M execBuf :=
  m ← lift (setBit (nullMask b) (i / 8) (i mod 8));
  mret (mkBuf m (paramTypes b ++ [FieldTypeNULL; 0]) (paramValues b)).

Definition typedArg (typ flag : Z) (value : bytes) (b : execBuf) : execBuf :=
  mkBuf (nullMask b) (paramTypes b ++ [typ; flag]) (paramValues b ++ value).

Definition stringArg (stmt : BackendStatement) (i : Z) (v : bytes) (b : execBuf) : M execBuf :=
  if len v <? longDataSize stmt
  then mret (typedArg FieldTypeString 0 (AppendLengthEncodedInteger [] (len v) ++ v) b)
  else _ ← writeCommandLongData stmt i v; mret (typedArg FieldTypeString 0 [] b).

Definition timeText (t : time) : res bytes :=
  if GoTime.IsZero t then Ok (bytes_of "0000-00-00") else AppendDateTime [] (inLoc t).

Definition execArg (stmt : BackendStatement) (i : Z) (arg : goValue) (b : execBuf) : M execBuf :=
  match arg with
  | GNil => nullArg i b
  | GInt64 v => mret (typedArg FieldTypeLongLong 0 (le 8 v) b)
  | GUint64 v => mret (typedArg FieldTypeLongLong 128 (le 8 v) b)
  | GFloat64 bits => mret (typedArg FieldTypeDouble 0 (le 8 bits) b)
  | GBool v => mret (typedArg FieldTypeTiny 0 [if v then 1 else 0] b)
  | GBytes v | GString v => stringArg stmt i v b
  | GTime t =>
    v ← lift (timeText t);
    mret (typedArg FieldTypeString 0 (AppendLengthEncodedInteger [] (len v) ++ v) b)
  | GFloat32 _ => raise "cannot convert type: float32"
  end.

Fixpoint execArgsLoop (stmt : BackendStatement) (i : Z) (args : list goValue) (b : execBuf) : M execBuf :=
  match args with
  | [] => mret b
  | arg :: args' => b' ← execArg stmt i arg b; execArgsLoop stmt (i + 1) args' b'
  end.

(** Command, statement id, no cursor, one iteration. *)
Definition executeHeader (stmt : BackendStatement) : bytes := [23] ++ le 4 (id stmt) ++ [0] ++ le 4 1.

Definition writeExecutePacket (stmt : BackendStatement) (args : list goValue) : M unit :=
  if negb (len args =? paramCount stmt) then raise "argument count mismatch"
  else
    _ ← ResetSequence;
    _ ← StartEphemeralPacket (Get (match args with [] => 14 | _ => MaxPacketSize end));
    deferred RecycleWritePacket
      (match args with
       | [] => WritePacket (executeHeader stmt)
       | _ =>
         b ← execArgsLoop stmt 0 args
               (mkBuf (replicate (Z.to_nat ((len args + 7) / 8)) 0) [] []);
         WritePacket (executeHeader stmt ++ nullMask b ++ [1] ++ paramTypes b ++ paramValues b)
       end).

Definition convertArgs (args : list goValue) : M (list goValue) :=
  lift (match mapM_res ConvertValue args with
        | Err e => Err ("sql: converting argument type: " +:+ e)
        | r => r
        end).

Definition execArgs (stmt : BackendStatement) (args : list goValue) : M (Result * Z) :=
  nargs ← convertArgs args;
  _ ← writeExecutePacket stmt nargs;
  '(affectedRows, lastInsertID, colNumber, _, warnings) ← ReadComQueryResponse;
  _ ← (if 0 <? colNumber then _ ← DrainResults; DrainResults else mret tt);
  mret (mkResult None affectedRows lastInsertID [], warnings).

Definition queryArgs (capabilities : Z) (stmt : BackendStatement) (args : list goValue) : M (Result * Z) :=
  nargs ← convertArgs args;
  _ ← writeExecutePacket stmt nargs;
  '(result, _, warnings) ← ReadQueryResult capabilities true;
  mret (result, warnings).

(** *** Preparing *)
Definition parsePrepareResult (data : bytes) : res (BackendStatement * Z) :=
  b ← get data 0;
  if negb (b =? OKPacket) then
    se ← ParseErrorPacket data; Err (SQLError_Error se)
  else
    sid ← slice data 1 5;
    columnCount ← slice data 5 7;
    params ← slice data 7 9;
    Ok (mkBackendStatement (unle sid) (unle params), unle columnCount).

Definition readPrepareResultPacket : M (BackendStatement * Z) :=
  data ← serverLost ReadEphemeralPacket;
  deferred RecycleReadPacket (lift (parsePrepareResult data)).

Definition readPrepared : M BackendStatement :=
  '(stmt, columnCount) ← readPrepareResultPacket;
  _ ← (if 0 <? paramCount stmt then DrainResults else mret tt);
  _ ← (if 0 <? columnCount then DrainResults else mret tt);
  mret stmt.

Definition prepare (query : bytes) : M BackendStatement :=
  _ ← WriteComPrepare query;
  readPrepared.

Definition PrepareExecuteArgs (query : bytes) (args : list goValue) : M (Result * Z) :=
  stmt ← prepare query; execArgs stmt args.

Definition PrepareQueryArgs (capabilities : Z) (query : bytes) (args : list goValue) : M (Result * Z) :=
  stmt ← prepare query; queryArgs capabilities stmt args.

(** *** Forwarding the client's packet with the statement id of the backend *)

(** [args[1] = byte(stmt.id); ...] *)
Definition patchId (stmt : BackendStatement) (args : bytes) : res bytes := storeAll args 1 (le 4 (id stmt)).

Definition readResultOK : M unit :=
  data ← ReadPacket;
  b ← lift (get data 0);
  if b =? OKPacket then _ ← lift (ParseOKPacket data); mret tt
  else parseAndRaise data.

Definition WriteComStmtClose (statementID : Z) : M unit :=
  _ ← ResetSequence;
  _ ← serverGone (sendPacket (4 + 1) [fun d p => WriteByte d p 25; fun d p => WriteUint32 d p statementID]);
  readResultOK.

Definition logErr (m : M unit) : M unit := fun c =>
  match m c with (Err _, c') => (Ok tt, c') | rc => rc end.

Definition exec (stmt : BackendStatement) (args : bytes) : M (Result * Z) :=
  deferred (logErr (WriteComStmtClose (id stmt)))
    (args ← lift (patchId stmt args);
     _ ← ResetSequence;
     _ ← WritePacket args;
     _ ← RecycleWritePacket;
     '(affectedRows, lastInsertID, colNumber, _, warnings) ← ReadComQueryResponse;
     _ ← (if 0 <? colNumber then _ ← DrainResults; DrainResults else mret tt);
     mret (mkResult None affectedRows lastInsertID [], warnings)).

Definition query (capabilities : Z) (stmt : BackendStatement) (args : bytes) : M (Result * Z) :=
  args ← lift (patchId stmt args);
  _ ← ResetSequence;
  _ ← WritePacket args;
  '(result, _, warnings) ← ReadQueryResult capabilities true;
  mret (result, warnings).

Definition PrepareExecute (q args : bytes) : M (Result * Z) := stmt ← prepare q; exec stmt args.
Definition PrepareQuery (capabilities : Z) (q args : bytes) : M (Result * Z) :=
  stmt ← prepare q; query capabilities stmt args.

(** *** The other commands of the driver *)
Definition Ping : M unit :=
  _ ← ResetSequence;
  _ ← serverGone (sendPacket 1 [fun d p => WriteByte d p 14]);
  readResultOK.

Definition ExecuteMulti (capabilities : Z) (q : bytes) (wantFields : bool) : M (Result * bool) :=
  _ ← WriteComQuery q;
  '(result, more, _) ← ReadQueryResult capabilities wantFields;
  mret (result, more).

Definition Execute (capabilities : Z) (q : bytes) (wantFields : bool) : M Result :=
  '(result, _) ← ExecuteMulti capabilities q wantFields; mret result.

Definition ExecuteWithWarningCount (capabilities : Z) (q : bytes) (wantFields : bool) : M (Result * Z) :=
  _ ← WriteComQuery q;
  '(result, _, warnings) ← ReadQueryResult capabilities wantFields;
  mret (result, warnings).
End statements.

(** ** The answer to COM_STMT_PREPARE *)
Lemma framedAll_length seq ps out seq' :
  framedAll seq ps out seq' -> (length ps <= length out)%nat.
Proof.
  induction 1 as [|? ? ? ? ? ? ? Hp Hps IH]; cbn; [lia|].
  rewrite length_app. apply framed_length in Hp. lia.
Qed.

Lemma drainLoop_receives rows flags w fuel :
  Forall isRow rows -> (length rows < fuel)%nat ->
  Receives (drainLoop fuel) (rows ++ [eofBytes flags w]) tt.
Proof.
  intros Hrows. revert fuel.
  induction Hrows as [|p rows Hp Hrows IH]; intros [|fuel] Hfuel; cbn in Hfuel; try lia; cbn [app drainLoop].
  - intros c rest seq' Hp Hb (out & Hf%framedAll_one & E).
    destruct (ReadEphemeral_framed _ _ _ _ c rest Hf eq_refl E Hp Hb) as (b & ER).
    erewrite bind_M_run by (by apply wrapErr_Ok).
    erewrite bind_M_run by reflexivity. cbn iota. rewrite RecycleRead_run.
    by rewrite set_ephemeral_restore.
  - intros c rest seq' Hpol Hbuf (out & Hf & E).
    inversion Hf as [|? ? ? o1 o2 s1 ? H1 H2]; subst. rewrite <- app_assoc in E.
    destruct (ReadEphemeral_framed _ _ _ _ c (o2 ++ rest) H1 eq_refl E Hpol Hbuf) as (b & ER).
    destruct (IsEOFPacket_row p Hp) as [He Hr].
    erewrite bind_M_run by (by apply wrapErr_Ok).
    erewrite bind_M_run by (unfold lift; by rewrite He). cbn iota.
    erewrite bind_M_run by (unfold lift; by rewrite Hr). cbn iota.
    erewrite bind_M_run by (by rewrite RecycleRead_run). rewrite set_ephemeral_restore by done.
    rewrite (IH fuel ltac:(lia) _ rest seq'); [done | done | done |]. by exists o2.
Qed.

Lemma DrainResults_receives rows flags w :
  Forall isRow rows -> Receives DrainResults (rows ++ [eofBytes flags w]) tt.
Proof.
  intros Hrows c rest seq' Hp Hb Hin. unfold DrainResults.
  apply (drainLoop_receives rows flags w); try done. destruct Hin as (out & Hfr & ->).
  apply framedAll_length in Hfr. rewrite length_app in *. cbn in Hfr. lia.
Qed.

(** The packets of the answer. *)
Definition paramField : Field :=
  mkField [] [] [] (bytes_of "?") [] BinaryFlag FieldTypeString 0 63 0 0 None.

Definition preparedBytes (statementID paramsCount : Z) : bytes :=
  [0] ++ le 4 statementID ++ le 2 0 ++ le 2 paramsCount ++ [0] ++ le 2 0 ++ [].

Definition preparedPackets (fl statementID : Z) (params : nat) : list bytes :=
  [preparedBytes statementID (Z.of_nat params)] ++
  match params with
  | O => []
  | _ => replicate params (colDefBytes paramField) ++ [eofBytes fl 0]
  end.

Lemma paramField_wire : wireField paramField.
Proof. split; vm_compute; intuition congruence. Qed.

Lemma WritePrepare_sends `{BufPool} fl cap statementID params :
  deprecateEOF cap = false ->
  Sends fl (WritePrepare cap statementID (Z.of_nat params)) (preparedPackets fl statementID params) tt.
Proof.
  intros Hcap. unfold WritePrepare, preparedPackets.
  apply (Sends_bind _ _ _ _ _ tt).
  { apply sendPacket_sends; [|done]. unfold preparedBytes. repeat (apply Writes_cons; [apply _|]). apply Writes_nil. }
  destruct params as [|params]; [apply Sends_ret|].
  destruct (Z.ltb_spec 0 (Z.of_nat (S params))); [|lia]. rewrite Nat2Z.id.
  apply (Sends_bind _ _ _ _ _ tt).
  - rewrite <- (fmap_replicate colDefBytes). apply Sends_eachM. intros f Hin.
    apply list_elem_of_In, elem_of_replicate in Hin as [-> _].
    apply writeColumnDefinition_sends, paramField_wire.
  - rewrite Hcap. cbn [negb]. apply Sends_gets, WriteEOFPacket_sends.
Qed.

Lemma parsePrepareResult_bytes statementID params :
  0 <= statementID < 4294967296 -> 0 <= params < 65536 ->
  parsePrepareResult (preparedBytes statementID params) = Ok (mkBackendStatement statementID params, 0).
Proof.
  intros Hs Hp. unfold parsePrepareResult. set (data := preparedBytes statementID params).
  change (get data 0) with (@Ok Z 0). change (slice data 1 5) with (@Ok bytes (le 4 statementID)).
  change (slice data 5 7) with (@Ok bytes (le 2 0)). change (slice data 7 9) with (@Ok bytes (le 2 params)).
  cbn [mbind res_bind]. change (negb (0 =? OKPacket)) with false. cbn iota.
  rewrite !unle_le_small by (first [change (2 ^ _) with 4294967296 | change (2 ^ _) with 65536]; lia). done.
Qed.

(** Preparing through the proxy: when EOF packets are in use, the driver
    reads the answer [WritePrepare] sends to COM_STMT_PREPARE completely, the
    definitions of all parameters included, and takes from it the statement id
    and the number of parameters the server gave. *)
Theorem prepare_roundtrip `{BufPool} fl cap statementID params :
  deprecateEOF cap = false -> 0 <= statementID < 4294967296 -> Z.of_nat params < 65536 ->
  Sends fl (WritePrepare cap statementID (Z.of_nat params)) (preparedPackets fl statementID params) tt /\
  Receives readPrepared (preparedPackets fl statementID params)
    (mkBackendStatement statementID (Z.of_nat params)).
Proof.
  intros Hcap Hs Hp. split; [by apply WritePrepare_sends|]. unfold readPrepared, preparedPackets.
  apply (Receives_bind _ _ _ _ (mkBackendStatement statementID (Z.of_nat params), 0)).
  { apply Receives_ephemeral. intros c. unfold lift. by rewrite parsePrepareResult_bytes by lia. }
  cbn beta iota. cbn [paramCount]. change (0 <? 0) with false. cbn iota.
  destruct params as [|params].
  - cbn. apply Receives_pure. done.
  - destruct (Z.ltb_spec 0 (Z.of_nat (S params))); [|lia]. cbn iota.
    rewrite <- (app_nil_r (replicate _ _ ++ _)). apply (Receives_bind _ _ _ _ tt).
    + apply DrainResults_receives. apply Forall_replicate. split; done.
    + apply Receives_pure. done.
Qed.

Lemma prepare_roundtrip_witness :
  Sends 2 (WritePrepare 0 5 2) (preparedPackets 2 5 2) tt /\
  Receives readPrepared (preparedPackets 2 5 2) (mkBackendStatement 5 2).
Proof. apply (prepare_roundtrip 2 0 5 2); [reflexivity | lia | cbn; lia]. Defined.

(** With EOF packets deprecated the answer ends after the definitions, and the
    driver, which goes on reading, finds the stream empty. *)
Theorem prepare_deprecated_starves c :
  policy c = ephemeralUnused -> buffer c = None -> sequence c = 0 ->
  rd c = header 12 0 ++ preparedBytes 1 1 ++
         header (len (colDefBytes paramField)) 1 ++ colDefBytes paramField ->
  exists e c', readPrepared c = (Err e, c').
Proof.
  destruct c as [sq r w a br bw po bu sf]. cbn. intros -> -> -> ->.
  vm_compute. eauto.
Qed.

(** ** Arguments arrive *)
Section arguments.
Variable MaxAllowedPacket : Z.
Variable inLoc : time -> time.

(** The type the server reads, the bytes of the value, and what it binds. *)
Definition argType (a : goValue) : Z :=
  match a with
  | GNil => FieldTypeNULL
  | GInt64 _ | GUint64 _ => FieldTypeLongLong
  | GFloat64 _ => FieldTypeDouble
  | GBool _ => FieldTypeTiny
  | _ => FieldTypeString
  end.

Definition argCode (a : goValue) : bytes :=
  [argType a; match a with GUint64 _ => 128 | _ => 0 end].

Definition argText (a : goValue) : bytes :=
  match a with
  | GBytes s | GString s => s
  | GTime t => match timeText inLoc t with Ok s => s | _ => [] end
  | _ => []
  end.

Definition argBytes (a : goValue) : bytes :=
  match a with
  | GNil => []
  | GInt64 v | GUint64 v | GFloat64 v => le 8 v
  | GBool v => [if v then 1 else 0]
  | _ => lenencString (argText a)
  end.

Definition boundArg (a : goValue) : goValue :=
  match a with
  | GUint64 v => GInt64 (i64 v)
  | GBool v => GInt64 (if v then 1 else 0)
  | GBytes _ | GString _ | GTime _ => GBytes (argText a)
  | _ => a
  end.

(** Arguments the driver accepts and sends within the packet. *)
Definition sendable (stmt : BackendStatement) (a : goValue) : Prop :=
  match a with
  | GNil | GBool _ => True
  | GInt64 v => in_i64 v
  | GUint64 v | GFloat64 v => in_u64 v
  | GBytes s | GString s => len s < longDataSize MaxAllowedPacket stmt
  | GTime t => is_ok (timeText inLoc t) = true
  | GFloat32 _ => False
  end.

Definition isNil (a : goValue) : bool := match a with GNil => true | _ => false end.

Lemma setBit_withBit bm k :
  0 <= k -> k / 8 < len bm -> setBit bm (k / 8) (k mod 8) = Ok (withBit bm k).
Proof.
  intros Hk Hl. assert (0 <= k / 8) by (apply Z.div_pos; lia). unfold setBit, get, set, withBit, len in *.
  zcases; try lia. cbn [andb].
  destruct (lookup_lt_is_Some_2 bm (Z.to_nat (k / 8))) as [x Hx]; [lia|].
  by rewrite nth_lookup, Hx.
Qed.

Lemma execArgsLoop_run stmt args i b c :
  Forall (sendable stmt) args -> 0 <= i -> i + len args <= 8 * len (nullMask b) ->
  execArgsLoop MaxAllowedPacket inLoc stmt i args b c =
    (Ok (mkBuf (withBits (isNil <$> args) i (nullMask b)) (paramTypes b ++ (args ≫= argCode))
           (paramValues b ++ (args ≫= argBytes))), c).
Proof.
  intros Hall. revert i b. induction Hall as [|a args Ha Hall IH]; intros i b Hi Hb; cbn [execArgsLoop].
  { cbn. rewrite !app_nil_r. by destruct b. }
  assert (Hlen : len (a :: args) = 1 + len args) by (unfold len; cbn [length]; lia).
  pose proof (len_nonneg args).
  assert (Hstep : execArg MaxAllowedPacket inLoc stmt i a b c =
    (Ok (mkBuf (if isNil a then withBit (nullMask b) i else nullMask b) (paramTypes b ++ argCode a)
           (paramValues b ++ argBytes a)), c)).
  { destruct a as [|v|v|v|v|v|s|s|t]; cbn [execArg isNil sendable] in *; try done.
    - unfold nullArg. erewrite bind_M_run.
      2:{ unfold lift. rewrite setBit_withBit by (try apply Z.div_lt_upper_bound; lia). reflexivity. }
      cbn [argBytes]. by rewrite app_nil_r.
    - unfold stringArg. destruct (Z.ltb_spec (len s) (longDataSize MaxAllowedPacket stmt)); [|lia].
      unfold typedArg. by rewrite AppendLengthEncodedInteger_lenenc.
    - unfold stringArg. destruct (Z.ltb_spec (len s) (longDataSize MaxAllowedPacket stmt)); [|lia].
      unfold typedArg. by rewrite AppendLengthEncodedInteger_lenenc.
    - cbn [argBytes argText]. destruct (timeText inLoc t) as [s| |]; [|done..].
      erewrite bind_M_run by reflexivity. unfold typedArg. by rewrite AppendLengthEncodedInteger_lenenc. }
  erewrite bind_M_run by exact Hstep.
  rewrite IH by (cbn [nullMask]; destruct (isNil a); rewrite ?withBit_len; lia).
  cbn [nullMask paramTypes paramValues mbind list_bind fmap list_fmap withBits]. by rewrite <- !app_assoc.
Qed.

(** *** The types *)
Lemma MySQLToType_arg a : MySQLToType (argType a) (match a with GUint64 _ => 128 | _ => 0 end) = Ok (argType a).
Proof. by destruct a. Qed.

Lemma parseTypes_run args seen rest data pre post :
  data = pre ++ (args ≫= argCode) ++ post -> len data < two63 -> length rest = length args ->
  parseTypes (length args) (length seen) data (len pre) (seen ++ rest) =
    (seen ++ (argType <$> args), Ok (len (pre ++ (args ≫= argCode)))).
Proof.
  revert seen rest pre. induction args as [|a args IH]; intros seen rest pre Hd Hlen Hr; cbn [parseTypes length].
  { destruct rest; [|done]. cbn. by rewrite !app_nil_r. }
  destruct rest as [|x rest]; [done|]. cbn in Hr. injection Hr as Hr.
  change ((a :: args) ≫= argCode) with (argCode a ++ (args ≫= argCode)) in *.
  unfold argCode at 1 in Hd.
  set (fl := match a with GUint64 _ => 128 | _ => 0 end) in *.
  change ([argType a; fl] ++ (args ≫= argCode)) with ([argType a] ++ [fl] ++ (args ≫= argCode)) in Hd.
  rewrite <- !app_assoc in Hd.
  rewrite (reads_at ReadByte _ _ _ _ _ _ (Reads_Byte _) Hd eq_refl Hlen). rewrite app_assoc in Hd.
  rewrite (reads_at ReadByte _ _ _ _ _ _ (Reads_Byte _) Hd eq_refl Hlen). rewrite app_assoc in Hd.
  unfold fl. rewrite MySQLToType_arg. fold fl.
  rewrite insert_app_r_alt by lia. rewrite Nat.sub_diag. cbn [insert list_insert].
  rewrite (app_assoc seen [argType a] rest : seen ++ argType a :: rest = _).
  replace (S (length seen)) with (length (seen ++ [argType a])) by (rewrite length_app; cbn; lia).
  rewrite (IH (seen ++ [argType a]) rest _ Hd Hlen Hr). cbn [fmap list_fmap].
  unfold argCode at 2. fold fl. by rewrite <- !app_assoc.
Qed.

(** *** The values *)
#[local] Instance Reads_LenEncStringCopy s : Reads ReadLenEncStringAsBytesCopy (lenencString s) s.
Proof.
  intros pre post Hlen. pose proof (Reads_LenEncString s pre post Hlen) as R.
  unfold ReadLenEncString, ReadLenEncStringAsBytes in R. unfold ReadLenEncStringAsBytesCopy.
  pose proof (len_nonneg s). pose proof (len_nonneg pre). pose proof (len_nonneg post).
  pose proof (len_nonneg (lenenc (len s))). unfold lenencString in *. rewrite <- !app_assoc in *.
  rewrite (reads (Reads := Reads_LenEncInt (len s) ltac:(rewrite !len_app in Hlen; unfold_width; lia))) in * by done.
  cbn [mbind res_bind] in *. destruct (_ <=? _); [done|].
  destruct (Z.leb_spec two63 (len s)) as [Hbig|_]; [rewrite !len_app in Hlen; lia | exact R].
Qed.

Lemma Reads_convert {A B} (f : A -> B) r e v :
  Reads r e v -> Reads (fun d p => convertOk f (r d p)) e (f v).
Proof. intros Hr pre post Hlen. unfold convertOk, andThen. by rewrite Hr. Qed.

Lemma Reads_arg stmt a :
  sendable stmt a -> isNil a = false ->
  Reads (fun d p => ParseStmtArgs d (argType a) p) (argBytes a) (boundArg a).
Proof.
  intros Ha Hn. destruct a as [|v|v|v|v|v|s|s|t]; try done; cbn [argType argBytes boundArg sendable] in *.
  - pose proof (Reads_convert (fun v => GInt64 (i64 v)) ReadUint64 (le 8 (u64 v)) (u64 v)
      (Reads_Uint64 (u64 v) (u64_range v))) as R.
    rewrite (le_congr 8 (u64 v) v) in R.
    2:{ unfold u64, two64. change (2 ^ (8 * Z.of_nat 8)) with 18446744073709551616. apply Z.mod_mod. lia. }
    rewrite i64_u64 in R by done. exact R.
  - exact (Reads_convert (fun v => GInt64 (i64 v)) ReadUint64 (le 8 v) v (Reads_Uint64 v Ha)).
  - exact (Reads_convert GFloat64 ReadUint64 (le 8 v) v (Reads_Uint64 v Ha)).
  - destruct v; [exact (Reads_convert (fun v => GInt64 (i8 v)) ReadByte [1] 1 (Reads_Byte 1)) |
                 exact (Reads_convert (fun v => GInt64 (i8 v)) ReadByte [0] 0 (Reads_Byte 0))].
  - exact (Reads_convert GBytes ReadLenEncStringAsBytesCopy _ _ (Reads_LenEncStringCopy s)).
  - exact (Reads_convert GBytes ReadLenEncStringAsBytesCopy _ _ (Reads_LenEncStringCopy s)).
  - exact (Reads_convert GBytes ReadLenEncStringAsBytesCopy _ _ (Reads_LenEncStringCopy _)).
Qed.

Lemma parameterID_inj i j : in_i64 (i + 1) -> in_i64 (j + 1) -> parameterID i = parameterID j -> i = j.
Proof.
  intros Hi Hj E. unfold parameterID in E. cbn in E. injection E as E.
  change (FormatInt (i + 1) = FormatInt (j + 1)) in E.
  pose proof (ParseInt_FormatInt _ Hi) as Pi. pose proof (ParseInt_FormatInt _ Hj) as Pj.
  rewrite E in Pi. rewrite Pi in Pj. injection Pj. lia.
Qed.

Lemma parseValues_run stmt all args i data bitMap pre post vars :
  Forall (sendable stmt) args -> data = pre ++ (args ≫= argBytes) ++ post -> len data < two63 ->
  len all < 65536 -> drop i all = args ->
  (forall j a, all !! j = Some a -> (exists b, get bitMap (Z.of_nat j / 8) = Ok b /\
     Z.testbit b (Z.of_nat j mod 8) = isNil a)) ->
  (forall j, Z.of_nat i <= j < 65536 -> vars !! parameterID j = None) ->
  exists vars', parseValues (argType <$> args) (Z.of_nat i) data bitMap (len pre) vars = (vars', Ok tt) /\
    (forall j a, all !! j = Some a -> (i <= j)%nat -> vars' !! parameterID (Z.of_nat j) = Some (boundArg a)) /\
    (forall j, 0 <= j < Z.of_nat i -> vars' !! parameterID j = vars !! parameterID j).
Proof.
  intros Hall. revert i pre vars. induction Hall as [|a args Ha Hall IH];
    intros i pre vars Hd Hlen Hal Hdrop Hbits Hvars; cbn [fmap list_fmap parseValues].
  { exists vars. split_and!; [done | | done]. intros j a Hj Hij.
    apply lookup_lt_Some in Hj. apply (f_equal length) in Hdrop. rewrite length_drop in Hdrop. cbn in Hdrop. lia. }
  assert (Hi : all !! i = Some a) by (rewrite <- (Nat.add_0_r i), <- lookup_drop, Hdrop; done).
  assert (Hil : Z.of_nat i < 65536) by (apply lookup_lt_Some in Hi; unfold len in Hal; lia).
  assert (Hdrop' : drop (S i) all = args) by (rewrite <- Nat.add_1_r, <- drop_drop, Hdrop; done).
  rewrite Hvars by lia. cbn iota. destruct (Hbits i a Hi) as (b & Hg & Ht). rewrite Hg, Ht.
  change ((a :: args) ≫= argBytes) with (argBytes a ++ (args ≫= argBytes)) in Hd. rewrite <- app_assoc in Hd.
  assert (Hread : (if isNil a then ParseStmtArgs [] FieldTypeNULL (len pre) else ParseStmtArgs data (argType a) (len pre))
                  = Ok (Some (boundArg a, len (pre ++ argBytes a)))).
  { destruct (isNil a) eqn:Hn.
    - destruct a; try done. cbn [argBytes]. by rewrite app_nil_r.
    - exact (reads_at _ _ _ _ _ _ _ (Reads_arg stmt a Ha Hn) Hd eq_refl Hlen). }
  rewrite Hread. rewrite app_assoc in Hd.
  replace (Z.of_nat i + 1) with (Z.of_nat (S i)) by lia.
  assert (Hpn : forall j k, 0 <= j < 65536 -> 0 <= k < 65536 -> j <> k -> parameterID j <> parameterID k).
  { intros j k Hj Hk Hne E. apply Hne. apply parameterID_inj; [unfold_width; lia.. | done]. }
  destruct (IH (S i) _ (<[parameterID (Z.of_nat i) := boundArg a]> vars) Hd Hlen Hal Hdrop' Hbits)
    as (vars' & E & Hnew & Hold).
  { intros j Hj. rewrite lookup_insert_ne by (apply Hpn; lia). apply Hvars. lia. }
  exists vars'. split_and!; [exact E | |].
  - intros j a' Hj Hij. destruct (decide (j = i)) as [->|Hne]; [|apply Hnew; [done | lia]].
    rewrite Hi in Hj. injection Hj as <-. rewrite Hold by lia. by rewrite lookup_insert_eq.
  - intros j Hj. rewrite Hold by lia. by rewrite lookup_insert_ne by (apply Hpn; lia).
Qed.

(** *** The whole packet *)
Definition argMask (args : list goValue) : bytes :=
  withBits (isNil <$> args) 0 (replicate (Z.to_nat ((len args + 7) / 8)) 0).

Definition executePayload (stmt : BackendStatement) (args : list goValue) : bytes :=
  executeHeader stmt ++ argMask args ++ [1] ++ (args ≫= argCode) ++ (args ≫= argBytes).

Lemma argMask_len args : len (argMask args) = (len args + 7) / 8.
Proof.
  unfold argMask. rewrite withBits_len. unfold len at 1. rewrite length_replicate.
  pose proof (len_nonneg args). rewrite Z2Nat.id; [done|]. apply Z.div_pos; lia.
Qed.

Lemma argMask_bits args j a :
  args !! j = Some a ->
  exists b, get (argMask args) (Z.of_nat j / 8) = Ok b /\ Z.testbit b (Z.of_nat j mod 8) = isNil a.
Proof.
  intros Hj. rewrite <- (Z.add_0_r (Z.of_nat j)). apply mask_bit; [by rewrite list_lookup_fmap, Hj | lia |].
  unfold len. rewrite length_fmap. Z.to_euclidean_division_equations; lia.
Qed.

(** The server binds the arguments of a packet. *)
Lemma bindStmt_run stmt s args pre data :
  Forall (sendable stmt) args -> len args < 65528 -> args <> [] -> ParamsCount s = len args ->
  length (ParamsType s) = length args -> BindVars s = ∅ ->
  data = pre ++ argMask args ++ [1] ++ (args ≫= argCode) ++ (args ≫= argBytes) -> len data < two63 ->
  exists vars, bindStmt s data (len pre) = (set_vars vars (set_types (argType <$> args) s), Ok tt) /\
    forall j a, args !! j = Some a -> vars !! parameterID (Z.of_nat j) = Some (boundArg a).
Proof.
  intros Hall Hn Hne Hc Ht Hv Hd Hlen. unfold bindStmt. rewrite Hc.
  assert (Hpos : 0 < len args) by (destruct args; [done | unfold len; cbn; lia]).
  destruct (Z.ltb_spec 0 (len args)); [|lia]. rewrite Z.mod_small by lia.
  rewrite (reads_at _ _ _ _ _ _ _ (Reads_Bytes _ _ (argMask_len args)) Hd eq_refl Hlen).
  rewrite (app_assoc pre) in Hd. cbn iota.
  rewrite (reads_at ReadByte _ _ _ _ _ _ (Reads_Byte _) Hd eq_refl Hlen). cbn iota.
  rewrite (app_assoc (pre ++ _)) in Hd. change (1 =? 1) with true. cbn iota.
  unfold len at 1. rewrite Nat2Z.id.
  pose proof (parseTypes_run args [] (ParamsType s) data _ _ Hd Hlen Ht) as HT. cbn [app length] in HT. rewrite HT.
  cbn beta iota zeta. cbn [BindVars set_types]. rewrite Hv. rewrite (app_assoc _ (args ≫= argCode)) in Hd.
  rewrite <- (app_nil_r (args ≫= argBytes)) in Hd.
  destruct (parseValues_run stmt args args 0 data (argMask args) _ [] ∅ Hall Hd Hlen ltac:(lia) eq_refl
              (argMask_bits args)) as (vars & E & Hnew & _); [intros; apply lookup_empty|].
  change (Z.of_nat 0) with 0 in E. rewrite E. exists vars. split; [done|]. intros j a Hj. apply Hnew; [done | lia].
Qed.

Lemma ParseExecute_run stmt s stmts args :
  Forall (sendable stmt) args -> args <> [] -> len args < 65528 ->
  0 <= id stmt < 4294967296 -> stmts !! id stmt = Some s ->
  ParamsCount s = len args -> length (ParamsType s) = length args -> BindVars s = ∅ ->
  len (executePayload stmt args) < two63 ->
  exists vars, ParseComStmtExecute stmts (executePayload stmt args) =
      (id stmt, Ok 0, <[id stmt := set_vars vars (set_types (argType <$> args) s)]> stmts) /\
    forall j a, args !! j = Some a -> vars !! parameterID (Z.of_nat j) = Some (boundArg a).
Proof.
  intros Hall Hne Hsmall Hid Hs Hpc Hpt Hbv Hlen. unfold ParseComStmtExecute.
  set (payload := le 4 (id stmt) ++ [0] ++ le 4 1 ++ argMask args ++ [1] ++ (args ≫= argCode) ++ (args ≫= argBytes)).
  assert (Hd : executePayload stmt args = [23] ++ payload).
  { unfold executePayload, executeHeader, payload. by rewrite <- !app_assoc. }
  rewrite Hd in *. pose proof (slice_suffix [23] payload) as S. change (len [23]) with 1 in S. rewrite S.
  assert (Hpl : len payload < two63) by (rewrite len_app in Hlen; change (len [23]) with 1 in Hlen; lia).
  assert (Hp : payload = [] ++ le 4 (id stmt) ++ [0] ++ le 4 1 ++ argMask args ++ [1] ++ (args ≫= argCode) ++ (args ≫= argBytes)) by done.
  pose proof (reads_at ReadUint32 payload 0 _ _ _ _ (Reads_Uint32 _ Hid) Hp eq_refl Hpl) as R0.
  rewrite R0. rewrite app_assoc in Hp. rewrite Hs.
  rewrite (reads_at ReadByte _ _ _ _ _ _ (Reads_Byte _) Hp eq_refl Hpl). rewrite app_assoc in Hp.
  rewrite (reads_at ReadUint32 _ _ _ _ _ _ (Reads_Uint32 1 ltac:(lia)) Hp eq_refl Hpl). rewrite app_assoc in Hp.
  change (negb (1 =? 1)) with false. cbn iota.
  destruct (bindStmt_run stmt s args _ payload Hall Hsmall Hne Hpc Hpt Hbv Hp Hpl) as (vars & E & HV).
  rewrite E. by exists vars.
Qed.

Lemma writeExecute_run `{BufPool} stmt args c n :
  Forall (sendable stmt) args -> args <> [] -> len args = paramCount stmt ->
  0 <= n -> live (cost [executePayload stmt args] + n) c ->
  exists c' out, writeExecutePacket MaxAllowedPacket inLoc stmt args c = (Ok tt, c') /\
    framed 0 (executePayload stmt args) out (sequence c') /\ sent c' = sent c ++ out /\ live n c' /\
    rd c' = rd c.
Proof.
  intros Hall Hne Hcount Hn [Hb Hw Hp Hbuf Ha]. unfold writeExecutePacket.
  rewrite Hcount, Z.eqb_refl. cbn [negb]. erewrite bind_M_run by reflexivity.
  erewrite bind_M_run by (by apply StartEphemeral_run).
  set (c1 := set_ephemeral _ _ _). unfold deferred.
  assert (Hrun : (match args with
       | [] => WritePacket (executeHeader stmt)
       | _ :: _ => b ← execArgsLoop MaxAllowedPacket inLoc stmt 0 args
               (mkBuf (replicate (Z.to_nat ((len args + 7) / 8)) 0) [] []);
         WritePacket (executeHeader stmt ++ nullMask b ++ [1] ++ paramTypes b ++ paramValues b)
       end) c1 = WritePacket (executePayload stmt args) c1).
  { destruct args as [|a args']; [done|]. erewrite bind_M_run.
    2:{ apply execArgsLoop_run; [done | lia |]. cbn [nullMask]. pose proof (len_nonneg (a :: args')).
        unfold len at 2. rewrite length_replicate. Z.to_euclidean_division_equations; lia. }
    done. }
  rewrite <- Hcount in *. rewrite Hrun.
  destruct (WritePacket_sends n (executePayload stmt args) c1)
    as (c2 & out & E & Hf & Hs & (R & P & B & F & K) & Hw2 & Ha2); [done..|].
  rewrite E. exists (set_ephemeral ephemeralUnused None c2), out. split_and!; [| done | done | | exact R].
  - unfold RecycleWritePacket. erewrite bind_M_run by reflexivity. by rewrite P.
  - split; try done. cbn. by rewrite K.
Qed.

(** Arguments of a prepared statement arrive.  The packet
    [writeExecutePacket] sends for any list of arguments that fit it is parsed
    by [ParseComStmtExecute] into the parameters v1, v2, ... of the statement:
    integers, floating-point numbers and NULLs are bound as they were given,
    booleans as 0 and 1, strings and byte slices as bytes, times as their
    text; an unsigned integer is bound as the signed number with the same
    bits. *)
Theorem execute_args_roundtrip `{BufPool} stmt s stmts args c n :
  Forall (sendable stmt) args -> args <> [] -> len args = paramCount stmt -> len args < 65528 ->
  0 <= id stmt < 4294967296 -> stmts !! id stmt = Some s ->
  ParamsCount s = len args -> length (ParamsType s) = length args -> BindVars s = ∅ ->
  len (executePayload stmt args) < two63 ->
  0 <= n -> live (cost [executePayload stmt args] + n) c ->
  exists c' out vars,
    writeExecutePacket MaxAllowedPacket inLoc stmt args c = (Ok tt, c') /\
    framed 0 (executePayload stmt args) out (sequence c') /\ sent c' = sent c ++ out /\ live n c' /\
    ParseComStmtExecute stmts (executePayload stmt args) =
      (id stmt, Ok 0, <[id stmt := set_vars vars (set_types (argType <$> args) s)]> stmts) /\
    forall j a, args !! j = Some a -> vars !! parameterID (Z.of_nat j) = Some (boundArg a).
Proof.
  intros Hall Hne Hcount Hsmall Hid Hs Hpc Hpt Hbv Hlen Hn Hlive.
  destruct (ParseExecute_run stmt s stmts args) as (vars & HP & HV); try done.
  destruct (writeExecute_run stmt args c n) as (c' & out & E & Hf & Hsent & Hl & _); try done.
  exists c', out, vars. done.
Qed.
End arguments.

Definition stmtOf (n : nat) : Stmt := mkStmt 7 [] (Z.of_nat n) (replicate n 0) ∅.

Lemma execute_args_roundtrip_witness :
  let stmt := mkBackendStatement 7 3 in
  let args := [GInt64 (-5); GNil; GString (bytes_of "abc")] in
  exists c' out vars,
    writeExecutePacket 4194304 (fun t => t) stmt args (NewConn [] 20) = (Ok tt, c') /\
    framed 0 (executePayload (fun t => t) stmt args) out (sequence c') /\
    sent c' = sent (NewConn [] 20) ++ out /\ live 0 c' /\
    ParseComStmtExecute {[7 := stmtOf 3]} (executePayload (fun t => t) stmt args) =
      (7, Ok 0, <[7 := set_vars vars (set_types (argType <$> args) (stmtOf 3))]> {[7 := stmtOf 3]}) /\
    forall j a, args !! j = Some a -> vars !! parameterID (Z.of_nat j) = Some (boundArg (fun t => t) a).
Proof.
  intros stmt args.
  apply (execute_args_roundtrip 4194304 (fun t => t) stmt (stmtOf 3) {[7 := stmtOf 3]} args (NewConn [] 20) 0).
  - constructor; [cbn; unfold_width; lia | constructor; [done | constructor; [|constructor]]].
    vm_compute. reflexivity.
  - done.
  - reflexivity.
  - vm_compute. reflexivity.
  - cbn. lia.
  - apply lookup_singleton_eq.
  - reflexivity.
  - reflexivity.
  - reflexivity.
  - vm_compute. reflexivity.
  - lia.
  - by split.
Defined.

(** Executing a statement by forwarding the client's packet releases a write
    packet that was never started: once the packet is out, [exec] panics. *)
Theorem exec_panics `{BufPool} stmt args c :
  5 <= len args -> live (cost [args]) c -> fst (exec stmt args c) = Panic.
Proof.
  intros Hl [Hb Hw Hp Hbuf Ha]. unfold exec, deferred.
  set (body := mbind _ _). assert (Hbody : fst (body c) = Panic).
  { unfold body. erewrite bind_M_run.
    2:{ unfold lift, patchId. rewrite storeAll_splice by (rewrite ?le_length; lia). reflexivity. }
    erewrite bind_M_run by reflexivity.
    set (args' := splice _ _ _).
    assert (Hl' : len args' = len args) by (apply splice_len; rewrite ?le_length; lia).
    destruct (WritePacket_sends 0 args' (set_sequence 0 c))
      as (c2 & out & E & Hf & Hs & (R & P & B & F & K) & Hw2 & Ha2); [done | done | lia | |].
    { cbn in *. rewrite Hl'. lia. }
    erewrite bind_M_run by exact E. unfold RecycleWritePacket at 1.
    cbn. unfold mbind, M_bind, gets. cbn. cbn in P. rewrite Hp in P. by rewrite P. }
  destruct (body c) as [r c']. cbn in Hbody. subst r.
  by destruct (logErr _ c') as [[]].
Qed.
