(* ===== verification/Collations.v ===== *)
(** * Collations ([pkg/constant/collations.go])

    The names the driver accepts and the number each has in the handshake, which
    has one byte for it. *)
From Stdlib Require Import ZArith Lia List.
From stdpp Require Import base list strings.
From S2P Require Import Prelude.

Local Open Scope Z_scope.

Definition DefaultCollation : string := "utf8mb4_general_ci".
Definition BinaryCollation : string := "binary".

Definition Collations : list (string * Z) := [
  ("big5_chinese_ci", 1); ("latin2_czech_cs", 2); ("dec8_swedish_ci", 3);
  ("cp850_general_ci", 4); ("latin1_german1_ci", 5); ("hp8_english_ci", 6);
  ("koi8r_general_ci", 7); ("latin1_swedish_ci", 8); ("latin2_general_ci", 9);
  ("swe7_swedish_ci", 10); ("ascii_general_ci", 11); ("ujis_japanese_ci", 12);
  ("sjis_japanese_ci", 13); ("cp1251_bulgarian_ci", 14); ("latin1_danish_ci", 15);
  ("hebrew_general_ci", 16); ("tis620_thai_ci", 18); ("euckr_korean_ci", 19);
  ("latin7_estonian_cs", 20); ("latin2_hungarian_ci", 21); ("koi8u_general_ci", 22);
  ("cp1251_ukrainian_ci", 23); ("gb2312_chinese_ci", 24); ("greek_general_ci", 25);
  ("cp1250_general_ci", 26); ("latin2_croatian_ci", 27); ("gbk_chinese_ci", 28);
  ("cp1257_lithuanian_ci", 29); ("latin5_turkish_ci", 30); ("latin1_german2_ci", 31);
  ("armscii8_general_ci", 32); ("utf8_general_ci", 33); ("cp1250_czech_cs", 34);
  ("cp866_general_ci", 36); ("keybcs2_general_ci", 37); ("macce_general_ci", 38);
  ("macroman_general_ci", 39); ("cp852_general_ci", 40); ("latin7_general_ci", 41);
  ("latin7_general_cs", 42); ("macce_bin", 43); ("cp1250_croatian_ci", 44);
  ("utf8mb4_general_ci", 45); ("utf8mb4_bin", 46); ("latin1_bin", 47); ("latin1_general_ci", 48);
  ("latin1_general_cs", 49); ("cp1251_bin", 50); ("cp1251_general_ci", 51);
  ("cp1251_general_cs", 52); ("macroman_bin", 53); ("cp1256_general_ci", 57); ("cp1257_bin", 58);
  ("cp1257_general_ci", 59); ("binary", 63); ("armscii8_bin", 64); ("ascii_bin", 65);
  ("cp1250_bin", 66); ("cp1256_bin", 67); ("cp866_bin", 68); ("dec8_bin", 69); ("greek_bin", 70);
  ("hebrew_bin", 71); ("hp8_bin", 72); ("keybcs2_bin", 73); ("koi8r_bin", 74); ("koi8u_bin", 75);
  ("utf8_tolower_ci", 76); ("latin2_bin", 77); ("latin5_bin", 78); ("latin7_bin", 79);
  ("cp850_bin", 80); ("cp852_bin", 81); ("swe7_bin", 82); ("utf8_bin", 83); ("big5_bin", 84);
  ("euckr_bin", 85); ("gb2312_bin", 86); ("gbk_bin", 87); ("sjis_bin", 88); ("tis620_bin", 89);
  ("ujis_bin", 91); ("geostd8_general_ci", 92); ("geostd8_bin", 93); ("latin1_spanish_ci", 94);
  ("cp932_japanese_ci", 95); ("cp932_bin", 96); ("eucjpms_japanese_ci", 97); ("eucjpms_bin", 98);
  ("cp1250_polish_ci", 99); ("utf8_unicode_ci", 192); ("utf8_icelandic_ci", 193);
  ("utf8_latvian_ci", 194); ("utf8_romanian_ci", 195); ("utf8_slovenian_ci", 196);
  ("utf8_polish_ci", 197); ("utf8_estonian_ci", 198); ("utf8_spanish_ci", 199);
  ("utf8_swedish_ci", 200); ("utf8_turkish_ci", 201); ("utf8_czech_ci", 202);
  ("utf8_danish_ci", 203); ("utf8_lithuanian_ci", 204); ("utf8_slovak_ci", 205);
  ("utf8_spanish2_ci", 206); ("utf8_roman_ci", 207); ("utf8_persian_ci", 208);
  ("utf8_esperanto_ci", 209); ("utf8_hungarian_ci", 210); ("utf8_sinhala_ci", 211);
  ("utf8_german2_ci", 212); ("utf8_croatian_ci", 213); ("utf8_unicode_520_ci", 214);
  ("utf8_vietnamese_ci", 215); ("utf8_general_mysql500_ci", 223); ("utf8mb4_unicode_ci", 224);
  ("utf8mb4_icelandic_ci", 225); ("utf8mb4_latvian_ci", 226); ("utf8mb4_romanian_ci", 227);
  ("utf8mb4_slovenian_ci", 228); ("utf8mb4_polish_ci", 229); ("utf8mb4_estonian_ci", 230);
  ("utf8mb4_spanish_ci", 231); ("utf8mb4_swedish_ci", 232); ("utf8mb4_turkish_ci", 233);
  ("utf8mb4_czech_ci", 234); ("utf8mb4_danish_ci", 235); ("utf8mb4_lithuanian_ci", 236);
  ("utf8mb4_slovak_ci", 237); ("utf8mb4_spanish2_ci", 238); ("utf8mb4_roman_ci", 239);
  ("utf8mb4_persian_ci", 240); ("utf8mb4_esperanto_ci", 241); ("utf8mb4_hungarian_ci", 242);
  ("utf8mb4_sinhala_ci", 243); ("utf8mb4_german2_ci", 244); ("utf8mb4_croatian_ci", 245);
  ("utf8mb4_unicode_520_ci", 246); ("utf8mb4_vietnamese_ci", 247); ("gb18030_chinese_ci", 248);
  ("gb18030_bin", 249); ("gb18030_unicode_520_ci", 250); ("utf8mb4_0900_ai_ci", 255)].

Definition UnsafeCollations : list string := [
  "big5_chinese_ci"; "sjis_japanese_ci"; "gbk_chinese_ci"; "big5_bin"; "gb2312_bin"; "gbk_bin";
  "sjis_bin"; "cp932_japanese_ci"; "cp932_bin"; "gb18030_chinese_ci"; "gb18030_bin";
  "gb18030_unicode_520_ci"].

(** [Collations[name]]: a name that is not in the map yields 0. *)
Definition collationID (name : string) : Z :=
  match find (fun e => (fst e =? name)%string) Collations with
  | Some (_, n) => n
  | None => 0
  end.

Definition isCollation (name : string) : bool :=
  existsb (fun e => (fst e =? name)%string) Collations.

Definition isUnsafeCollation (name : string) : bool :=
  existsb (fun c => (c =? name)%string) UnsafeCollations.

(** Every number fits the byte of the handshake. *)
Lemma collationID_byte name : 0 <= collationID name < 256.
Proof.
  unfold collationID. destruct (find _ _) as [[s n]|] eqn:E; [|lia].
  apply find_some in E as [E _].
  assert (Hall : forallb (fun e => (0 <=? snd e) && (snd e <? 256)) Collations = true)
    by (vm_compute; reflexivity).
  rewrite forallb_forall in Hall. specialize (Hall _ E). cbn in Hall.
  apply andb_true_iff in Hall as [?%Z.leb_le ?%Z.ltb_lt]. lia.
Qed.

(** Two accepted names with the same number are the same name. *)
Lemma collationID_inj a b :
  isCollation a = true -> isCollation b = true -> collationID a = collationID b -> a = b.
Proof.
  assert (Hnd : bool_decide (NoDup (map snd Collations)) = true) by (vm_compute; reflexivity).
  apply bool_decide_eq_true in Hnd.
  assert (Hfind : forall x, isCollation x = true -> In (x, collationID x) Collations).
  { intros x Hx. unfold isCollation in Hx. apply existsb_exists in Hx as ([s n] & Hin & Hs).
    unfold collationID. destruct (find _ _) as [[s' n']|] eqn:E.
    - apply find_some in E as [E Hs']. cbn in Hs'. apply String.eqb_eq in Hs' as ->. done.
    - pose proof (find_none _ _ E _ Hin). congruence. }
  intros Ha Hb E. apply Hfind in Ha, Hb. rewrite E in Ha.
  apply list_elem_of_In, list_elem_of_lookup in Ha as [i Hi].
  apply list_elem_of_In, list_elem_of_lookup in Hb as [j Hj].
  assert (i = j) as ->.
  { eapply (NoDup_lookup (map snd Collations)); [done | |].
    - change (map snd Collations) with (snd <$> Collations). by rewrite list_lookup_fmap, Hi.
    - change (map snd Collations) with (snd <$> Collations). by rewrite list_lookup_fmap, Hj. }
  congruence.
Qed.
