(* ===== verification/Dsn.v ===== *)
(** * Data source names: [pkg/driver/dsn.go], the registries of TLS configurations
    ([pkg/misc/utils.go]) and of public keys ([pkg/driver/auth.go])

    [ParseDSN] reads
    [[user[:password]@][net[(addr)]]/dbname[?param1=value1&paramN=valueN]].  The
    parts of packages [net], [net/url] and [time] it uses are modelled first;
    locations are the class [Locations]. *)
From Stdlib Require Import ZArith Lia List Ascii.
From stdpp Require Import base gmap list strings.
From S2P Require Import Prelude GoText Encoding DateTime Collations.

Local Open Scope Z_scope.

(** ** [net.SplitHostPort] and [net.JoinHostPort] *)
Definition addrError (why addr : string) : string := "address " +:+ addr +:+ ": " +:+ why.

(** [hostport[j:]] may not hold an opening and [hostport[k:]] no closing bracket. *)
Definition splitBrackets (hostport afterOpen afterClose host port : string) : res (string * string) :=
  if hasChar "[" afterOpen then Err (addrError "unexpected '[' in address" hostport)
  else if hasChar "]" afterClose then Err (addrError "unexpected ']' in address" hostport)
  else Ok (host, port).
Definition SplitHostPort (hostport : string) : res (string * string) :=
  match cut_last hostport ":" with
  | None => Err (addrError "missing port in address" hostport)
  | Some (host, port) =>
    match hostport with
    | String "[" afterOpen =>
      match cut_first afterOpen "]" with
      | None => Err (addrError "missing ']' in address" hostport)
      | Some (inner, afterClose) =>
        match afterClose with
        | EmptyString => Err (addrError "missing port in address" hostport)
        | String ":" rest =>
          if hasChar ":" rest then Err (addrError "too many colons in address" hostport)
          else splitBrackets hostport afterOpen afterClose inner port
        | _ => Err (addrError "missing port in address" hostport)
        end
      end
    | _ =>
      if hasChar ":" host then Err (addrError "too many colons in address" hostport)
      else splitBrackets hostport hostport hostport host port
    end
  end.
Definition JoinHostPort (host port : string) : string :=
  if hasChar ":" host then "[" +:+ host +:+ "]:" +:+ port else host +:+ ":" +:+ port.

(** ** [url.QueryUnescape] *)
Definition unhex (c : ascii) : option Z :=
  let n := chr c in
  if (48 <=? n) && (n <=? 57) then Some (n - 48)
  else if (97 <=? n) && (n <=? 102) then Some (n - 87)
  else if (65 <=? n) && (n <=? 70) then Some (n - 55)
  else None.
Definition dquoted (s : string) : string := string_of [34] +:+ s +:+ string_of [34].
Definition escapeError (s : string) : string := "invalid URL escape " +:+ dquoted (of_list (take 3 (list_of s))).
Fixpoint QueryUnescape (s : string) : res string :=
  match s with
  | EmptyString => Ok EmptyString
  | String "%" s1 =>
    match s1 with
    | String a (String b s') =>
      match unhex a, unhex b with
      | Some x, Some y => t ← QueryUnescape s'; Ok (String (ascii_of_Z (x * 16 + y)) t)
      | _, _ => Err (escapeError s)
      end
    | _ => Err (escapeError s)
    end
  | String "+" s' => t ← QueryUnescape s'; Ok (String " " t)
  | String c s' => t ← QueryUnescape s'; Ok (String c t)
  end.

(** ** [time.ParseDuration], in nanoseconds *)
Definition isDigit (c : ascii) : bool := (48 <=? chr c) && (chr c <=? 57).

(** The digits at the front and the rest; [None] on overflow. *)
Fixpoint leadingInt (s : string) (x : Z) : option (Z * string) :=
  match s with
  | String c s' =>
    if isDigit c then
      if two63 / 10 <? x then None
      else let y := x * 10 + (chr c - 48) in if two63 <? y then None else leadingInt s' y
    else Some (x, s)
  | EmptyString => Some (x, s)
  end.
(** Digits that do not fit are passed over; the value, its scale and the rest. *)
Fixpoint leadingFraction (s : string) (x scale : Z) (overflow : bool) : Z * Z * string :=
  match s with
  | String c s' =>
    if isDigit c then
      if overflow || ((two63 - 1) / 10 <? x) then leadingFraction s' x scale true
      else let y := x * 10 + (chr c - 48) in
        if two63 <? y then leadingFraction s' x scale true else leadingFraction s' y (scale * 10) false
    else (x, scale, s)
  | EmptyString => (x, scale, s)
  end.
(** The characters up to a point or a digit, and the rest. *)
Fixpoint unitPrefix (s : string) : string * string :=
  match s with
  | String c s' => if Ascii.eqb c "." || isDigit c then (EmptyString, s) else let '(u, r) := unitPrefix s' in (String c u, r)
  | EmptyString => (EmptyString, s)
  end.
Definition unitMap (u : string) : option Z :=
  if String.eqb u "ns" then Some 1
  else if String.eqb u "us" || String.eqb u (string_of [194; 181; 115]) || String.eqb u (string_of [206; 188; 115]) then Some 1000
  else if String.eqb u "ms" then Some 1000000 else if String.eqb u "s" then Some 1000000000
  else if String.eqb u "m" then Some 60000000000 else if String.eqb u "h" then Some 3600000000000 else None.

Section duration.
(** [uint64(float64(f) * (float64(unit) / scale))] *)
Context (fraction : Z -> Z -> Z -> Z).

Definition invalidDuration (orig : string) : string := "time: invalid duration " +:+ dquoted orig.

(** Each turn takes a number and its unit: the length of the text is enough fuel. *)
Fixpoint durationLoop (fuel : nat) (orig s : string) (d : Z) : res Z :=
  match fuel, s with
  | S fuel', String c _ =>
    if negb (Ascii.eqb c "." || isDigit c) then Err (invalidDuration orig)
    else
      match leadingInt s 0 with
      | None => Err (invalidDuration orig)
      | Some (v, s1) =>
        let pre := negb (Nat.eqb (String.length s) (String.length s1)) in
        let '(f, scale, post, s2) :=
          match s1 with
          | String "." s1' => let '(f, scale, s2) := leadingFraction s1' 0 1 false in
            (f, scale, negb (Nat.eqb (String.length s1') (String.length s2)), s2)
          | _ => (0, 1, false, s1)
          end in
        if negb pre && negb post then Err (invalidDuration orig)
        else
          let '(u, s3) := unitPrefix s2 in
          if String.eqb u EmptyString then Err ("time: missing unit in duration " +:+ dquoted orig)
          else match unitMap u with
          | None => Err ("time: unknown unit " +:+ dquoted u +:+ " in duration " +:+ dquoted orig)
          | Some unit_ =>
            if two63 / unit_ <? v then Err (invalidDuration orig)
            else
              let v := v * unit_ in
              let v := if 0 <? f then v + fraction f unit_ scale else v in
              if two63 <? v then Err (invalidDuration orig)
              else let d := u64 (d + v) in
                if two63 <? d then Err (invalidDuration orig) else durationLoop fuel' orig s3 d
          end
      end
  | _, _ => Ok d
  end.
Definition ParseDuration (orig : string) : res Z :=
  let '(neg, s) := match orig with String "-" s => (true, s) | String "+" s => (false, s) | _ => (false, orig) end in
  if String.eqb s "0" then Ok 0
  else if String.eqb s EmptyString then Err (invalidDuration orig)
  else
    d ← durationLoop (String.length s) orig s 0;
    if (neg : bool) then Ok (- d) else if two63 - 1 <? d then Err (invalidDuration orig) else Ok d.
End duration.

Example duration_sum : ParseDuration (fun _ _ _ => 0) "1h30s" = Ok 3630000000000.
Proof. vm_compute. reflexivity. Qed.

(** ** Registries *)
Record tlsConfig := mkTLS { ServerName : string; InsecureSkipVerify : bool }.

Definition reservedTLS (key : string) : bool :=
  snd (ReadBool key) || String.eqb (ToLower key) "skip-verify" || String.eqb (ToLower key) "preferred".
Definition RegisterTLSConfig (key : string) (config : tlsConfig) (registry : gmap string tlsConfig) : res (gmap string tlsConfig) :=
  if reservedTLS key then Err ("key '" +:+ key +:+ "' is reserved") else Ok (<[key := config]> registry).
Definition DeregisterTLSConfig (key : string) (registry : gmap string tlsConfig) : gmap string tlsConfig := delete key registry.
Definition GetTLSConfigClone (key : string) (registry : gmap string tlsConfig) : option tlsConfig := registry !! key.

(** A public key is its modulus and exponent. *)
Definition publicKey : Type := Z * Z.
Definition RegisterServerPubKey (name : string) (key : publicKey) (registry : gmap string publicKey) : gmap string publicKey := <[name := key]> registry.
Definition DeregisterServerPubKey (name : string) (registry : gmap string publicKey) : gmap string publicKey := delete name registry.
Definition getServerPubKey (name : string) (registry : gmap string publicKey) : option publicKey := registry !! name.

(** ** [Config] *)
Inductive flag :=
| AllowAllFiles | AllowCleartextPasswords | AllowNativePasswords | AllowOldPasswords | CheckConnLiveness | ClientFoundRows
| ColumnsWithAlias | InterpolateParams | MultiStatements | ParseTime | RejectReadOnly | DisableClientDeprecateEOF.
#[export] Instance flag_eq_dec : EqDecision flag.
Proof. solve_decision. Defined.

(** What parameters set. *)
Record settings := mkSettings {
  Params : gmap string string; Collation : string; Loc : string; MaxAllowedPacket : Z; ServerPubKey : string; TLSConfig : string;
  Timeout : Z; ReadTimeout : Z; WriteTimeout : Z; flags : flag -> bool }.
Record Config := mkConfig {
  User : string; Passwd : string; Net : string; Addr : string; DBName : string;
  connSettings : settings; tls : option tlsConfig; pubKey : option publicKey }.

Definition DefaultCollation : string := "utf8mb4_general_ci".
Definition DefaultMaxAllowedPacket : Z := 4194304.
Definition defaultFlag (f : flag) : bool :=
  match f with AllowNativePasswords | CheckConnLiveness | DisableClientDeprecateEOF => true | _ => false end.
Definition NewConfig : Config :=
  mkConfig EmptyString EmptyString EmptyString EmptyString EmptyString
    (mkSettings ∅ DefaultCollation "UTC" DefaultMaxAllowedPacket EmptyString EmptyString 0 0 0 defaultFlag) None None.

(** The copies [Clone] makes have the value of what they copy. *)
Definition Clone (cfg : Config) : Config :=
  mkConfig (User cfg) (Passwd cfg) (Net cfg) (Addr cfg) (DBName cfg) (connSettings cfg) (tls cfg) (pubKey cfg).

Definition flagParam (name : string) : option flag :=
  let is_ n := String.eqb name n in
  if is_ "allowAllFiles" then Some AllowAllFiles else if is_ "allowCleartextPasswords" then Some AllowCleartextPasswords
  else if is_ "allowNativePasswords" then Some AllowNativePasswords else if is_ "allowOldPasswords" then Some AllowOldPasswords
  else if is_ "checkConnLiveness" then Some CheckConnLiveness else if is_ "clientFoundRows" then Some ClientFoundRows
  else if is_ "columnsWithAlias" then Some ColumnsWithAlias else if is_ "interpolateParams" then Some InterpolateParams
  else if is_ "multiStatements" then Some MultiStatements else if is_ "parseTime" then Some ParseTime
  else if is_ "rejectReadOnly" then Some RejectReadOnly else if is_ "disableClientDeprecateEOF" then Some DisableClientDeprecateEOF
  else None.
Definition setFlag (f : flag) (b : bool) (c : settings) : settings :=
  mkSettings (Params c) (Collation c) (Loc c) (MaxAllowedPacket c) (ServerPubKey c) (TLSConfig c) (Timeout c) (ReadTimeout c) (WriteTimeout c)
    (fun g => if decide (g = f) then b else flags c g).
(** The parameters with a text. *)
Definition setTexts (collation loc pub tlsName : string) (c : settings) : settings :=
  mkSettings (Params c) collation loc (MaxAllowedPacket c) pub tlsName (Timeout c) (ReadTimeout c) (WriteTimeout c) (flags c).
(** The parameters with a number. *)
Definition setNumbers (packet timeout read write : Z) (c : settings) : settings :=
  mkSettings (Params c) (Collation c) (Loc c) packet (ServerPubKey c) (TLSConfig c) timeout read write (flags c).
Definition setParam (k v : string) (c : settings) : settings :=
  mkSettings (<[k := v]> (Params c)) (Collation c) (Loc c) (MaxAllowedPacket c) (ServerPubKey c) (TLSConfig c) (Timeout c) (ReadTimeout c) (WriteTimeout c) (flags c).

Section parse.
Context (fraction : Z -> Z -> Z -> Z) (LoadLocation : string -> res string).

(** The error of [m] with [text] in front. *)
Definition prefixError {A} (text : string) (m : res A) : res A :=
  match m with Err e => Err (text +:+ e) | r => r end.

(** The value of [tls]: a boolean, one of two words, or the name of a configuration. *)
Definition tlsValue (value : string) : res string :=
  match ReadBool value with
  | (b, true) => Ok (if (b : bool) then "true" else "false")
  | (_, false) =>
    let vl := ToLower value in
    if String.eqb vl "skip-verify" || String.eqb vl "preferred" then Ok vl
    else prefixError "invalid value for TLS config name: " (QueryUnescape value)
  end%string.

Definition parseDSNParam (c : settings) (name value : string) : res settings :=
  let is_ n := String.eqb name n in
  match flagParam name with
  | Some f =>
    match ReadBool value with
    | (b, true) => Ok (setFlag f b c)
    | _ => Err ("invalid bool value: " +:+ value)
    end
  | None =>
    if is_ "collation" then Ok (setTexts value (Loc c) (ServerPubKey c) (TLSConfig c) c)
    else if is_ "compress" then Err "compression not implemented yet"
    else if is_ "loc" then v ← QueryUnescape value; l ← LoadLocation v; Ok (setTexts (Collation c) l (ServerPubKey c) (TLSConfig c) c)
    else if is_ "readTimeout" then d ← ParseDuration fraction value; Ok (setNumbers (MaxAllowedPacket c) (Timeout c) d (WriteTimeout c) c)
    else if is_ "serverPubKey" then
      n ← prefixError "invalid value for server pub key name: " (QueryUnescape value); Ok (setTexts (Collation c) (Loc c) n (TLSConfig c) c)
    else if is_ "strict" then Panic
    else if is_ "timeout" then d ← ParseDuration fraction value; Ok (setNumbers (MaxAllowedPacket c) d (ReadTimeout c) (WriteTimeout c) c)
    else if is_ "tls" then t ← tlsValue value; Ok (setTexts (Collation c) (Loc c) (ServerPubKey c) t c)
    else if is_ "writeTimeout" then d ← ParseDuration fraction value; Ok (setNumbers (MaxAllowedPacket c) (Timeout c) (ReadTimeout c) d c)
    else if is_ "maxAllowedPacket" then n ← Atoi value; Ok (setNumbers n (Timeout c) (ReadTimeout c) (WriteTimeout c) c)
    else v ← QueryUnescape value; Ok (setParam name v c)
  end.

(** A piece without [=] is passed over. *)
Fixpoint paramLoop (c : settings) (pieces : list string) : res settings :=
  match pieces with
  | [] => Ok c
  | v :: pieces' =>
    c' ← (match cut_first v "=" with Some (name, value) => parseDSNParam c name value | None => Ok c end);
    paramLoop c' pieces'
  end.
Definition parseDSNParams (c : settings) (params : string) : res settings := paramLoop c (Split params "&").

Definition ensureHavePort (addr : string) : string :=
  match SplitHostPort addr with Ok _ => addr | _ => JoinHostPort addr "3306" end.

Definition defaultAddr (net addr : string) : res string :=
  if String.eqb addr EmptyString then
    if String.eqb net "tcp" then Ok "127.0.0.1:3306"
    else if String.eqb net "unix" then Ok "/tmp/mysql.sock"
    else Err ("default addr for network '" +:+ net +:+ "' unknown")
  else Ok (if String.eqb net "tcp" then ensureHavePort addr else addr).

(** The server name of a configuration that verifies is the host. *)
Definition withServerName (addr : string) (t : option tlsConfig) : option tlsConfig :=
  match t with
  | Some c =>
    if String.eqb (ServerName c) EmptyString && negb (InsecureSkipVerify c) then
      match SplitHostPort addr with Ok (host, _) => Some (mkTLS host (InsecureSkipVerify c)) | _ => t end
    else t
  | None => None
  end.
Definition tlsOf (tlsRegistry : gmap string tlsConfig) (cfg : Config) : res (option tlsConfig) :=
  let name := TLSConfig (connSettings cfg) in
  if String.eqb name "false" || String.eqb name EmptyString then Ok (tls cfg)
  else if String.eqb name "true" then Ok (Some (mkTLS EmptyString false))
  else if String.eqb name "skip-verify" || String.eqb name "preferred" then Ok (Some (mkTLS EmptyString true))
  else match GetTLSConfigClone name tlsRegistry with
       | Some c => Ok (Some c)
       | None => Err ("invalid value / unknown config name: " +:+ name)
       end.

Definition normalize (tlsRegistry : gmap string tlsConfig) (keyRegistry : gmap string publicKey) (cfg : Config) : res Config :=
  let s := connSettings cfg in
  if flags s InterpolateParams && isUnsafeCollation (Collation s)
  then Err "invalid DSN: interpolateParams can not be used with unsafe collations"
  else
    let net := if String.eqb (Net cfg) EmptyString then "tcp"%string else Net cfg in
    addr ← defaultAddr net (Addr cfg);
    t ← tlsOf tlsRegistry cfg;
    let t := withServerName addr t in
    key ← (if String.eqb (ServerPubKey s) EmptyString then Ok (pubKey cfg)
           else match getServerPubKey (ServerPubKey s) keyRegistry with
                | Some k => Ok (Some k)
                | None => Err ("invalid value / unknown server pub key name: " +:+ ServerPubKey s)
                end);
    Ok (mkConfig (User cfg) (Passwd cfg) net addr (DBName cfg) s t key).

(** [username[:password]] *)
Definition parseUser (cred : string) : string * string :=
  match cut_first cred ":" with Some (user, passwd) => (user, passwd) | None => (cred, EmptyString) end.
(** [protocol[(address)]] *)
Definition parseNet (text : string) : res (string * string) :=
  match cut_first text "(" with
  | None => Ok (text, EmptyString)
  | Some (net, rest) =>
    if HasSuffix1 rest ")" then Ok (net, TrimSuffix1 rest ")")
    else if hasChar ")" rest then Err "invalid DSN: did you forget to escape a param value?"
    else Err "invalid DSN: network address not terminated (missing closing brace)"
  end.
(** Everything in front of the last slash: user, password, network, address. *)
Definition parseLeft (front : string) : res (string * string * string * string) :=
  let '(user, passwd, netaddr) :=
    match cut_last front "@" with
    | Some (cred, netaddr) => let '(user, passwd) := parseUser cred in (user, passwd, netaddr)
    | None => (EmptyString, EmptyString, front)
    end in
  '(net, addr) ← parseNet netaddr;
  Ok (user, passwd, net, addr).
(** [dbname[?params]] *)
Definition parseRight (s : settings) (back : string) : res (string * settings) :=
  match cut_first back "?" with
  | Some (db, params) => s' ← parseDSNParams s params; Ok (db, s')
  | None => Ok (back, s)
  end.

Definition ParseDSN (tlsRegistry : gmap string tlsConfig) (keyRegistry : gmap string publicKey) (dsn : string) : res Config :=
  let cfg := NewConfig in
  match cut_last dsn "/" with
  | None =>
    if String.eqb dsn EmptyString then normalize tlsRegistry keyRegistry cfg
    else Err "invalid DSN: missing the slash separating the database name"
  | Some (front, back) =>
    '(user, passwd, net, addr) ← parseLeft front;
    '(db, s) ← parseRight (connSettings cfg) back;
    normalize tlsRegistry keyRegistry (mkConfig user passwd net addr db s None None)
  end.
End parse.

(** ** Escaped values: [url.QueryEscape] *)
Definition unreserved (n : Z) : bool :=
  ((97 <=? n) && (n <=? 122)) || ((65 <=? n) && (n <=? 90)) || ((48 <=? n) && (n <=? 57)) || (n =? 45) || (n =? 46) || (n =? 95) || (n =? 126).
Definition upperHex (d : Z) : ascii := ascii_of_Z (if d <? 10 then 48 + d else 55 + d).
Fixpoint QueryEscape (s : string) : string :=
  match s with
  | EmptyString => EmptyString
  | String c s' =>
    let n := chr c in
    if unreserved n then String c (QueryEscape s')
    else if n =? 32 then String "+" (QueryEscape s')
    else String "%" (String (upperHex (n / 16)) (String (upperHex (n mod 16)) (QueryEscape s')))
  end.

Lemma unhex_upperHex d : 0 <= d < 16 -> unhex (upperHex d) = Some d.
Proof.
  intros Hd. unfold unhex, upperHex. destruct (Z.ltb_spec d 10); rewrite chr_ascii by lia; zcases; cbn; try lia; f_equal; lia.
Qed.
Lemma ascii_of_chr c : ascii_of_Z (chr c) = c.
Proof. unfold ascii_of_Z, chr. rewrite N2Z.id. apply ascii_N_embedding. Qed.
Lemma QueryUnescape_plain c s : c <> "%"%char -> c <> "+"%char -> QueryUnescape (String c s) = (t ← QueryUnescape s; Ok (String c t)).
Proof. intros H1 H2. destruct c as [[] [] [] [] [] [] [] []]; try reflexivity; first [by destruct H1 | by destruct H2]. Qed.
Lemma query_roundtrip s : QueryUnescape (QueryEscape s) = Ok s.
Proof.
  induction s as [|c s IH]; [done|]. cbn [QueryEscape]. destruct (unreserved (chr c)) eqn:Eu.
  - rewrite QueryUnescape_plain, IH; [done| |]; intros ->; by vm_compute in Eu.
  - destruct (Z.eqb_spec (chr c) 32) as [Ec|Ec].
    + cbn [QueryUnescape]. rewrite IH. cbn. rewrite <- (ascii_of_chr c), Ec. reflexivity.
    + pose proof (chr_range c) as Hc. cbn [QueryUnescape]. rewrite !unhex_upperHex by (Z.to_euclidean_division_equations; lia). rewrite IH. cbn.
      rewrite <- (ascii_of_chr c) at 3. do 3 f_equal. Z.to_euclidean_division_equations; lia.
Qed.

(** ** Data source names as documented *)
Definition paramText (kv : string * string) : string := fst kv +:+ String "=" (QueryEscape (snd kv)).
Fixpoint paramsText (l : list (string * string)) : string :=
  match l with
  | [] => EmptyString
  | [kv] => paramText kv
  | kv :: l' => paramText kv +:+ String "&" (paramsText l')
  end.
Definition userText (user passwd : string) : string :=
  if String.eqb user EmptyString && String.eqb passwd EmptyString then EmptyString
  else user +:+ (if String.eqb passwd EmptyString then EmptyString else String ":" passwd) +:+ "@".
Definition netText (net addr : string) : string :=
  net +:+ (if String.eqb addr EmptyString then EmptyString else String "(" (addr +:+ ")")).
Definition backText (db : string) (params : list (string * string)) : string :=
  db +:+ match params with [] => EmptyString | _ => String "?" (paramsText params) end.
Definition formatDSN (user passwd net addr db : string) (params : list (string * string)) : string :=
  userText user passwd +:+ netText net addr +:+ String "/" (backText db params).

(** The names [parseDSNParams] knows. *)
Definition knownParams : list string :=
  ["allowAllFiles"; "allowCleartextPasswords"; "allowNativePasswords"; "allowOldPasswords"; "checkConnLiveness"; "clientFoundRows";
   "columnsWithAlias"; "interpolateParams"; "multiStatements"; "parseTime"; "rejectReadOnly"; "disableClientDeprecateEOF";
   "collation"; "compress"; "loc"; "readTimeout"; "serverPubKey"; "strict"; "timeout"; "tls"; "writeTimeout"; "maxAllowedPacket"]%string.
Definition freeName (name : string) : Prop :=
  ~ In name knownParams /\ hasChar "=" name = false /\ hasChar "&" name = false /\ hasChar "/" name = false.

(** What becomes of the address of a data source name. *)
Definition plain (t : string) : Prop := hasChar ":" t = false /\ hasChar "[" t = false /\ hasChar "]" t = false.

Record addressRead (net addr result : string) : Prop := {
  read_default_tcp : net = "tcp"%string -> addr = EmptyString -> result = "127.0.0.1:3306"%string;
  read_default_unix : net = "unix"%string -> addr = EmptyString -> result = "/tmp/mysql.sock"%string;
  read_other : net <> "tcp"%string -> addr <> EmptyString -> result = addr;
  read_host_port : forall host port, net = "tcp"%string -> plain host -> plain port ->
    addr = host +:+ String ":" port -> result = addr;
  read_bracketed : forall host port, net = "tcp"%string -> hasChar "[" host = false -> hasChar "]" host = false ->
    plain port -> addr = String "[" (host +:+ String "]" (String ":" port)) -> result = addr;
  read_host : net = "tcp"%string -> addr <> EmptyString -> hasChar ":" addr = false ->
    result = addr +:+ ":3306";
  read_ipv6 : forall a b, net = "tcp"%string -> addr = a +:+ String ":" b ->
    hasChar ":" a = true -> hasChar ":" b = false -> hasChar "[" addr = false ->
    result = "[" +:+ addr +:+ "]:3306" }.

(** The branch of [SplitHostPort] for text that does not start with a bracket. *)
Lemma SplitHostPort_unbracketed a b : hasChar ":" b = false -> hasChar "[" a = false ->
  SplitHostPort (a +:+ String ":" b) =
    if hasChar ":" a then Err (addrError "too many colons in address" (a +:+ String ":" b))
    else splitBrackets (a +:+ String ":" b) (a +:+ String ":" b) (a +:+ String ":" b) a b.
Proof.
  intros Hb Ho. unfold SplitHostPort. rewrite cut_last_app by done.
  destruct a as [|x a]; [done|]. rewrite hasChar_cons in Ho. apply orb_false_iff in Ho as [Ho _].
  apply Ascii.eqb_neq in Ho. change (String x a +:+ String ":" b) with (String x (a +:+ String ":" b)).
  destruct x as [[] [] [] [] [] [] [] []]; try reflexivity. by destruct Ho.
Qed.

Lemma SplitHostPort_plain host port : plain host -> plain port ->
  SplitHostPort (host +:+ String ":" port) = Ok (host, port).
Proof.
  intros (Hh & Ho & Hc) (Hp & Hpo & Hpc). rewrite SplitHostPort_unbracketed, Hh by done.
  unfold splitBrackets. by rewrite !hasChar_app, Ho, Hc, !hasChar_cons, Hpo, Hpc.
Qed.

Lemma SplitHostPort_bracketed host port :
  hasChar "[" host = false -> hasChar "]" host = false -> plain port ->
  SplitHostPort (String "[" (host +:+ String "]" (String ":" port))) = Ok (host, port).
Proof.
  intros Ho Hc (Hp & Hpo & Hpc). unfold SplitHostPort.
  change (String "[" (host +:+ String "]" (String ":" port))) with (String "[" host +:+ ("]" +:+ String ":" port)).
  rewrite <- str_assoc, cut_last_app by done.
  change ((String "[" host +:+ "]") +:+ String ":" port) with (String "[" ((host +:+ "]") +:+ String ":" port)).
  cbv iota. rewrite str_assoc. change ("]" +:+ String ":" port) with (String "]" (String ":" port)).
  rewrite cut_first_app by done. rewrite Hp. unfold splitBrackets.
  rewrite hasChar_app, Ho, !hasChar_cons, Hpo, Hpc. reflexivity.
Qed.

Lemma SplitHostPort_no_colon addr : hasChar ":" addr = false -> exists e, SplitHostPort addr = Err e.
Proof. intros H. unfold SplitHostPort. rewrite cut_last_none by done. eauto. Qed.

Lemma str_eqb_ne a : a <> EmptyString -> String.eqb a EmptyString = false.
Proof. intros H. by apply String.eqb_neq. Qed.

Lemma defaultAddr_read net addr result : defaultAddr net addr = Ok result -> addressRead net addr result.
Proof.
  unfold defaultAddr. intros H. constructor.
  - intros -> ->. by injection H as <-.
  - intros -> ->. by injection H as <-.
  - intros Hn Ha. rewrite str_eqb_ne in H by done. apply String.eqb_neq in Hn. rewrite Hn in H. by injection H.
  - intros host port -> Hh Hp ->. rewrite str_eqb_ne in H by (by destruct host).
    unfold ensureHavePort in H. rewrite SplitHostPort_plain in H by done. by injection H.
  - intros host port -> Ho Hc Hp ->. unfold ensureHavePort in H. rewrite SplitHostPort_bracketed in H by done.
    by injection H.
  - intros -> Ha Hc. rewrite str_eqb_ne in H by done. unfold ensureHavePort in H.
    destruct (SplitHostPort_no_colon addr Hc) as (e & He). rewrite He in H. injection H as <-. unfold JoinHostPort. by rewrite Hc.
  - intros a b -> -> Ha Hb Ho. rewrite str_eqb_ne in H by (by destruct a). unfold ensureHavePort in H.
    rewrite SplitHostPort_unbracketed, Ha in H; [|done|rewrite hasChar_app in Ho; by apply orb_false_iff in Ho as [? _]].
    injection H as <-. unfold JoinHostPort. rewrite hasChar_app, Ha. done.
Qed.

Section format.
Context (fraction : Z -> Z -> Z -> Z) (LoadLocation : string -> res string).

Lemma parseDSNParam_free c name value : ~ In name knownParams ->
  parseDSNParam fraction LoadLocation c name value = (v ← QueryUnescape value; Ok (setParam name v c)).
Proof.
  intros Hn. assert (He : forall k, In k knownParams -> String.eqb name k = false) by (intros k Hk; apply String.eqb_neq; by intros ->).
  assert (Hf : flagParam name = None) by (unfold flagParam; repeat (rewrite He by (cbn; tauto)); done).
  unfold parseDSNParam. rewrite Hf. repeat (rewrite He by (cbn; tauto)). done.
Qed.
Lemma QueryEscape_clean d s : In d ["/"; "&"; "="; "?"]%char -> hasChar d (QueryEscape s) = false.
Proof.
  intros Hd. induction s as [|c s IH]; [done|]. cbn [QueryEscape].
  assert (Hu : forall x, unreserved (chr x) = true -> Ascii.eqb x d = false).
  { intros x Hx. apply Ascii.eqb_neq. intros ->. cbn in Hd. destruct Hd as [<-|[<-|[<-|[<-|[]]]]]; by vm_compute in Hx. }
  assert (Hh : forall k, 0 <= k < 16 -> Ascii.eqb (upperHex k) d = false).
  { intros k Hk. apply Hu. unfold upperHex, unreserved. destruct (Z.ltb_spec k 10); rewrite chr_ascii by lia; zcases; cbn; lia. }
  pose proof (chr_range c) as Hc.
  destruct (unreserved (chr c)) eqn:Eu; [by rewrite hasChar_cons, Hu, IH|].
  destruct (chr c =? 32); rewrite !hasChar_cons, ?IH, ?Hh by (Z.to_euclidean_division_equations; lia); cbn in Hd;
    destruct Hd as [<-|[<-|[<-|[<-|[]]]]]; reflexivity.
Qed.
Lemma paramText_clean d kv : In d ["/"; "&"]%char -> freeName (fst kv) -> hasChar d (paramText kv) = false.
Proof.
  intros Hd (_ & _ & Ha & Hs). unfold paramText. rewrite hasChar_app, hasChar_cons, QueryEscape_clean by (cbn in *; tauto).
  cbn in Hd. destruct Hd as [<-|[<-|[]]]; by rewrite ?Ha, ?Hs.
Qed.
Lemma paramsText_slash l : Forall (fun kv => freeName (fst kv)) l -> hasChar "/" (paramsText l) = false.
Proof.
  intros Hl. induction Hl as [|kv l Hk Hl IH]; [done|]. pose proof (paramText_clean "/" kv ltac:(cbn; tauto) Hk) as Hc.
  cbn [paramsText]. destruct l; [done|]. by rewrite hasChar_app, Hc, hasChar_cons.
Qed.
Lemma Split_params l : l <> [] -> Forall (fun kv => freeName (fst kv)) l -> Split (paramsText l) "&" = paramText <$> l.
Proof.
  intros Hne Hl. induction Hl as [|kv l Hk Hl IH]; [done|]. pose proof (paramText_clean "&" kv ltac:(cbn; tauto) Hk) as Hc.
  cbn [paramsText]. destruct l as [|kv' l]; [by rewrite Split_one|]. by rewrite Split_app, IH.
Qed.
Lemma paramLoop_free l c : Forall (fun kv => freeName (fst kv)) l ->
  paramLoop fraction LoadLocation c (paramText <$> l) = Ok (foldl (fun c kv => setParam (fst kv) (snd kv) c) c l).
Proof.
  intros Hl. revert c. induction Hl as [|kv l (Hn & He & _) Hl IH]; intros c; [done|]. cbn [fmap list_fmap paramLoop foldl].
  assert (Ec : cut_first (paramText kv) "=" = Some (fst kv, QueryEscape (snd kv))) by (by apply cut_first_app). rewrite Ec, parseDSNParam_free, query_roundtrip by done. cbn [mbind res_bind]. apply IH.
Qed.
Lemma setParams_fold l c : foldl (fun c kv => setParam (fst kv) (snd kv) c) c l =
  mkSettings (foldl (fun m kv => <[fst kv := snd kv]> m) (Params c) l) (Collation c) (Loc c) (MaxAllowedPacket c) (ServerPubKey c)
    (TLSConfig c) (Timeout c) (ReadTimeout c) (WriteTimeout c) (flags c).
Proof. revert c. induction l as [|kv l IH]; intros c; [by destruct c|]. cbn [foldl]. by rewrite IH. Qed.

Lemma parseRight_text s db params : hasChar "?" db = false -> Forall (fun kv => freeName (fst kv)) params ->
  parseRight fraction LoadLocation s (backText db params) = Ok (db, foldl (fun c kv => setParam (fst kv) (snd kv) c) s params).
Proof.
  intros Hdb Hp. unfold parseRight, backText. destruct params as [|kv params].
  - rewrite str_nil_r, cut_first_none by done. done.
  - cbv iota. rewrite cut_first_app by done. unfold parseDSNParams. rewrite Split_params, paramLoop_free by done. done.
Qed.
Lemma parseNet_text net addr : hasChar "(" net = false -> parseNet (netText net addr) = Ok (net, addr).
Proof.
  intros Hn. unfold parseNet, netText. destruct (String.eqb_spec addr EmptyString) as [->|].
  - rewrite str_nil_r, cut_first_none by done. done.
  - rewrite cut_first_app by done. destruct (suffix_app addr ")") as [-> ->]. done.
Qed.
Lemma parseLeft_text user passwd net addr :
  hasChar ":" user = false -> hasChar "@" net = false -> hasChar "@" addr = false -> hasChar "(" net = false ->
  parseLeft (userText user passwd +:+ netText net addr) = Ok (user, passwd, net, addr).
Proof.
  intros Hu Hn Ha Hp. assert (Hna : hasChar "@" (netText net addr) = false).
  { unfold netText. rewrite hasChar_app, Hn. destruct (String.eqb addr EmptyString); [done|]. rewrite hasChar_cons, hasChar_app, Ha. done. }
  unfold parseLeft, userText. destruct (String.eqb_spec user EmptyString) as [->|]; destruct (String.eqb_spec passwd EmptyString) as [->|]; cbn [andb].
  1: change (EmptyString +:+ netText net addr) with (netText net addr); rewrite cut_last_none, parseNet_text by done; done.
  all: rewrite !str_assoc; change ("@" +:+ netText net addr) with (String "@" (netText net addr)).
  all: rewrite <- ?str_assoc, cut_last_app by done; unfold parseUser; rewrite ?str_nil_r, ?cut_first_app, ?cut_first_none by done; by rewrite parseNet_text.
Qed.

(** C31: Data source names mean what their grammar says.  A name is composed of
    a user without a colon, any password (every separator included), a network
    without at-sign and parenthesis, an address without at-sign, a database
    without slash and question mark, and parameters whose names the driver does
    not know, with their values escaped.  It is parsed into exactly these
    parts: the network is ["tcp"] when empty; an empty address, for which the
    network must be empty, ["tcp"] or ["unix"], becomes ["127.0.0.1:3306"] or
    ["/tmp/mysql.sock"]; an address that is not of a TCP network is kept; of a
    TCP network, [host:port] and [[host]:port] are kept, a host without colon
    gets [:3306] and a bare IPv6 address brackets and [:3306] (the theorem says
    nothing about other bracketed addresses); the parameters are those given, a
    later one of the same name winning; every flag has its default, and there
    is no TLS configuration and no server key. *)
Theorem dsn_read tlsRegistry keyRegistry user passwd net addr db params :
  hasChar ":" user = false -> hasChar "@" net = false -> hasChar "(" net = false -> hasChar "@" addr = false ->
  hasChar "/" db = false -> hasChar "?" db = false -> Forall (fun kv => freeName (fst kv)) params ->
  (addr <> EmptyString \/ net = EmptyString \/ net = "tcp"%string \/ net = "unix"%string) ->
  exists cfg, ParseDSN fraction LoadLocation tlsRegistry keyRegistry (formatDSN user passwd net addr db params) = Ok cfg /\
    User cfg = user /\ Passwd cfg = passwd /\ DBName cfg = db /\
    Net cfg = (if String.eqb net EmptyString then "tcp"%string else net) /\
    addressRead (Net cfg) addr (Addr cfg) /\
    Params (connSettings cfg) = foldl (fun m kv => <[fst kv := snd kv]> m) ∅ params /\
    flags (connSettings cfg) = defaultFlag /\ tls cfg = None /\ pubKey cfg = None.
Proof.
  intros Hu Hn Hp Ha Hs Hq Hpar Hdef.
  assert (Hb : hasChar "/" (backText db params) = false).
  { unfold backText. rewrite hasChar_app, Hs. destruct params as [|kv params]; [done|]. rewrite hasChar_cons, paramsText_slash by done. done. }
  unfold ParseDSN, formatDSN. rewrite <- str_assoc, cut_last_app by done. rewrite parseLeft_text by done. cbn [mbind res_bind].
  rewrite parseRight_text by done. cbn [mbind res_bind]. rewrite setParams_fold. unfold normalize. cbn [connSettings Net Addr flags defaultFlag andb].
  set (net' := if String.eqb net EmptyString then "tcp"%string else net).
  assert (Hd : exists addr', defaultAddr net' addr = Ok addr').
  { unfold defaultAddr. destruct (String.eqb_spec addr EmptyString) as [->|]; [|by eauto]. subst net'.
    destruct Hdef as [Hd|[->|[->| ->]]]; [done|cbn; by eauto..]. }
  destruct Hd as (addr' & Hd). rewrite Hd. eexists. split; [reflexivity|]. cbn. split_and!; try done.
  by apply defaultAddr_read.
Qed.
End format.

Definition anyLocation (name : string) : res string := Ok name.
Lemma dsn_read_witness :
  exists cfg, ParseDSN (fun _ _ _ => 0) anyLocation ∅ ∅ (formatDSN "root" "p:@/?w" "tcp" "10.0.0.1" "shop" [("tx_isolation", "'READ COMMITTED'")]%string) = Ok cfg /\
    User cfg = "root"%string /\ Passwd cfg = "p:@/?w"%string /\ Addr cfg = "10.0.0.1:3306"%string /\ DBName cfg = "shop"%string.
Proof.
  destruct (dsn_read (fun _ _ _ => 0) anyLocation ∅ ∅ "root" "p:@/?w" "tcp" "10.0.0.1" "shop" [("tx_isolation", "'READ COMMITTED'")]%string)
    as (cfg & Hc & Hu & Hp & Hd & Hn & Ha & _); try reflexivity.
  - constructor; [|constructor]. split_and!; try reflexivity. cbn. intuition discriminate.
  - right. right. by left.
  - exists cfg. split_and!; [exact Hc|done|done| |done]. rewrite Hn in Ha.
    by apply (read_host _ _ _ Ha).
Defined.

(** A slash that is not escaped in a parameter moves the database name there. *)
Example slash_in_parameter :
  ParseDSN (fun _ _ _ => 0) anyLocation ∅ ∅ "root@tcp(db:3306)/shop?loc=Asia/Shanghai" =
  Err "invalid DSN: did you forget to escape a param value?"%string.
Proof. vm_compute. reflexivity. Qed.
(** A removed parameter panics. *)
Example strict_panics : ParseDSN (fun _ _ _ => 0) anyLocation ∅ ∅ "/shop?strict=true" = Panic.
Proof. vm_compute. reflexivity. Qed.
