(* ===== verification/Handshake.v ===== *)
(** * The connection phase: [pkg/listener/mysql.go] (server side),
    [pkg/driver/client.go] and [pkg/driver/auth.go] (client side)

    The server greets with a salt and its capabilities, the client answers with
    its user, database and a scramble of the password, the server compares and
    answers OK or an error; a database may ask the client to switch to another
    method.  Hash functions, RSA and PEM are the class [Crypto]; bytes of the
    random generator are arguments.

    A Go slice can be resliced and appended to up to its capacity, and the salt
    is a slice into the greeting: [goSlice] keeps the bytes up to the capacity. *)
From Stdlib Require Import ZArith Lia List.
From stdpp Require Import base gmap list strings.
From S2P Require Import Prelude GoText Encoding Layout Conn Packets PacketSpec GoTime DateTime Rows Stmt Collations.

Local Open Scope Z_scope.

(** ** Constants *)
Definition ProtocolVersion : Z := 10.
Definition MysqlNativePassword : bytes := bytes_of "mysql_native_password".
Definition CharacterSetUtf8 : Z := 33.
Definition CapabilityClientLongPassword : Z := 1.
Definition CapabilityClientFoundRows : Z := Z.shiftl 1 1.
Definition CapabilityClientLongFlag : Z := Z.shiftl 1 2.
Definition CapabilityClientConnectWithDB : Z := Z.shiftl 1 3.
Definition CapabilityClientProtocol41 : Z := Z.shiftl 1 9.
Definition CapabilityClientSSL : Z := Z.shiftl 1 11.
Definition CapabilityClientTransactions : Z := Z.shiftl 1 13.
Definition CapabilityClientSecureConnection : Z := Z.shiftl 1 15.
Definition CapabilityClientMultiStatements : Z := Z.shiftl 1 16.
Definition CapabilityClientMultiResults : Z := Z.shiftl 1 17.
Definition CapabilityClientPluginAuth : Z := Z.shiftl 1 19.
Definition CapabilityClientConnAttr : Z := Z.shiftl 1 20.
Definition CapabilityClientPluginAuthLenencClientData : Z := Z.shiftl 1 21.

Definition CRVersionError : Z := 2007.
Definition CRServerHandshakeErr : Z := 2012.
Definition ERAccessDeniedError : Z := 1045.
Definition SSAccessDeniedError : bytes := bytes_of "28000".
Definition ErrMalformedPkt : string := "malformed packet".
Definition ErrUnknownPlugin : string := "this authentication plugin is not supported".

Definition orAll (flags : list Z) : Z := foldr Z.lor 0 flags.

(** ** Passwords *)
Class Crypto := {
  sha1 : bytes -> bytes;
  sha1_len : forall b, len (sha1 b) = 20;
  sha256 : bytes -> bytes;
  sha256_len : forall b, len (sha256 b) = 32;
  rsaKey : Type;
  (** rsa.EncryptOAEP *)
  encryptOAEP : rsaKey -> bytes -> res bytes;
  (** pem.Decode: the bytes of the first block *)
  pemDecode : bytes -> option bytes;
  (** x509.ParsePKIXPublicKey; [None] is a key of another kind *)
  parsePKIX : bytes -> res (option rsaKey) }.

Definition xorBytes (a b : bytes) : bytes := zip_with Z.lxor a b.

Definition u32 (z : Z) : Z := z mod 4294967296.

(** The generator of the method before 4.1. *)
Record myRnd := mkRnd { seed1 : Z; seed2 : Z }.
Definition myRndMaxVal : Z := 1073741823.

Definition newMyRnd (s1 s2 : Z) : myRnd := mkRnd (s1 mod myRndMaxVal) (s2 mod myRndMaxVal).

Definition NextByte (r : myRnd) : Z * myRnd :=
  let s1 := u32 (u32 (seed1 r * 3) + seed2 r) mod myRndMaxVal in
  let s2 := u32 (s1 + seed2 r + 33) mod myRndMaxVal in
  (u8 (s1 * 31 / myRndMaxVal), mkRnd s1 s2).

Fixpoint pwHashLoop (password : bytes) (r0 r1 add : Z) : Z * Z :=
  match password with
  | [] => (r0, r1)
  | c :: rest =>
    if (c =? 32) || (c =? 9) then pwHashLoop rest r0 r1 add
    else
      let r0' := Z.lxor r0 (u32 (u32 (u32 (Z.land r0 63 + add) * c) + u32 (Z.shiftl r0 8))) in
      let r1' := u32 (r1 + Z.lxor (u32 (Z.shiftl r1 8)) r0') in
      pwHashLoop rest r0' r1' (u32 (add + c))
  end.

Definition pwHash (password : bytes) : Z * Z :=
  let '(r0, r1) := pwHashLoop password 1345345333 305419889 7 in
  (Z.land r0 2147483647, Z.land r1 2147483647).

Fixpoint nextBytes (n : nat) (r : myRnd) : bytes * myRnd :=
  match n with
  | O => ([], r)
  | S n' => let '(b, r1) := NextByte r in let '(bs, r2) := nextBytes n' r1 in (u8 (b + 64) :: bs, r2)
  end.

Definition scrambleOldPassword (scramble password : bytes) : bytes :=
  let '(p0, p1) := pwHash password in
  let '(s0, s1) := pwHash (take 8 scramble) in
  let '(out, r) := nextBytes 8 (newMyRnd (Z.lxor p0 s0) (Z.lxor p1 s1)) in
  let mask := fst (NextByte r) in
  map (fun b => Z.lxor b mask) out.

Section crypto.
Context `{Crypto}.

Definition scramblePassword (scramble password : bytes) : bytes :=
  match password with
  | [] => []
  | _ =>
    let stage1 := sha1 password in
    let hash := sha1 stage1 in
    xorBytes (sha1 (scramble ++ hash)) stage1
  end.

(** The listener has a copy of its own. *)
Definition serverScramblePassword (scramble password : bytes) : bytes :=
  match password with
  | [] => []
  | _ =>
    let stage1 := sha1 password in
    let hash := sha1 stage1 in
    xorBytes (sha1 (scramble ++ hash)) stage1
  end.

Definition scrambleSHA256Password (scramble password : bytes) : bytes :=
  match password with
  | [] => []
  | _ =>
    let message1 := sha256 password in
    let message1Hash := sha256 message1 in
    xorBytes message1 (sha256 (message1Hash ++ scramble))
  end.

(** [plain[i] ^= seed[i % len(seed)]]: an empty seed divides by zero. *)
Definition maskPlain (plain seed : bytes) : res bytes :=
  match seed with
  | [] => Panic
  | _ => Ok (imap (fun i b => Z.lxor b (nth (i mod length seed) seed 0)) plain)
  end.

Definition encryptPassword (password seed : bytes) (pub : rsaKey) : res bytes :=
  plain ← maskPlain (password ++ [0]) seed;
  encryptOAEP pub plain.

(** *** Slices with a capacity *)
Record goSlice := mkSlice { backing : bytes; slen : nat }.
Definition content (s : goSlice) : bytes := take (slen s) (backing s).

(** [s[:n]] *)
Definition reslice (s : goSlice) (n : nat) : res bytes :=
  if (n <=? length (backing s))%nat then Ok (take n (backing s)) else Panic.

(** [copy(dst, src)] *)
Definition copyInto (dst : goSlice) (src : bytes) : goSlice :=
  let src' := take (slen dst) src in
  mkSlice (src' ++ drop (length src') (backing dst)) (slen dst).

Record Config := mkConfig {
  User : bytes; Passwd : bytes; DBName : bytes; Collation : string; Net : string;
  tls : bool; pubKey : option rsaKey; ClientFoundRows : bool; DisableClientDeprecateEOF : bool }.

Definition auth (conf : Config) (authData : goSlice) (plugin : bytes) : res bytes :=
  if bool_decide (plugin = bytes_of "caching_sha2_password")
  then Ok (scrambleSHA256Password (content authData) (Passwd conf))
  else if bool_decide (plugin = bytes_of "mysql_old_password")
  then d ← reslice authData 8; Ok (scrambleOldPassword d (Passwd conf) ++ [0])
  else if bool_decide (plugin = bytes_of "mysql_clear_password")
  then Ok (Passwd conf ++ [0])
  else if bool_decide (plugin = MysqlNativePassword)
  then d ← reslice authData 20; Ok (scramblePassword d (Passwd conf))
  else if bool_decide (plugin = bytes_of "sha256_password")
  then Ok [1]
  else Err ErrUnknownPlugin.

(** *** The answer to the handshake response *)

(** Authentication data ([None] is nil) and the name of another plugin. *)
Definition parseAuthResult (data : bytes) : M (option goSlice * bytes) :=
  b ← lift (get data 0);
  if b =? OKPacket then _ ← lift (ParseOKPacket data); mret (None, [])
  else if b =? 1 then
    d ← lift (slice data 1 (len data)); mret (Some (mkSlice d (length d)), [])
  else if b =? EOFPacket then
    if len data =? 1 then mret (None, bytes_of "mysql_old_password")
    else
      match IndexByte data 0 with
      | None => raise ErrMalformedPkt
      | Some i =>
        plugin ← lift (slice data 1 (Z.of_nat i));
        d ← lift (slice data (Z.of_nat i + 1) (len data));
        mret (Some (mkSlice d (length d)), plugin)
      end
  else parseAndRaise data.

Definition readAuthResult : M (option goSlice * bytes) :=
  data ← ReadPacket; parseAuthResult data.

Definition readResultOK : M unit :=
  data ← ReadPacket;
  b ← lift (get data 0);
  if b =? OKPacket then _ ← lift (ParseOKPacket data); mret tt else parseAndRaise data.

Definition writeAuthSwitchPacket (authData : bytes) : M unit := WritePacket authData.

Definition sendEncryptedPassword (conf : Config) (seed : bytes) (pub : rsaKey) : M unit :=
  enc ← lift (encryptPassword (Passwd conf) seed pub);
  writeAuthSwitchPacket enc.

(** [pub.( *rsa.PublicKey)] *)
Definition asRSA (k : option rsaKey) : res rsaKey := match k with Some k => Ok k | None => Panic end.

(** [cachingSha2PasswordRequestPublicKey] and the server's answer. *)
Definition requestPublicKey : M rsaKey :=
  _ ← WritePacket [2];
  data ← ReadPacket;
  d ← lift (slice data 1 (len data));
  match pemDecode d with
  | None => raise "No Pem Content found"
  | Some block => k ← lift (parsePKIX block); lift (asRSA k)
  end.

Definition fullAuthentication (conf : Config) (oldAuthData : bytes) : M unit :=
  _ ← (if tls conf || (Net conf =? "unix")%string
       then writeAuthSwitchPacket (Passwd conf ++ [0])
       else
         pub ← (match pubKey conf with Some k => mret k | None => requestPublicKey end);
         sendEncryptedPassword conf oldAuthData pub);
  readResultOK.

(** The second half of [handleAuthResult], after a possible switch. *)
Definition finishAuth (conf : Config) (oldAuthData plugin : bytes) (authData : option goSlice) : M unit :=
  let data := match authData with Some d => content d | None => [] end in
  if bool_decide (plugin = bytes_of "caching_sha2_password") then
    match data with
    | [] => mret tt
    | [b] => if b =? 3 then readResultOK
             else if b =? 4 then fullAuthentication conf oldAuthData
             else raise ErrMalformedPkt
    | _ => raise ErrMalformedPkt
    end
  else if bool_decide (plugin = bytes_of "sha256_password") then
    match data with
    | [] => mret tt
    | _ =>
      match pemDecode data with
      | None => panic  (* block.Bytes of a nil block *)
      | Some block =>
        k ← lift (parsePKIX block);
        pub ← lift (asRSA k);
        _ ← sendEncryptedPassword conf oldAuthData pub;
        readResultOK
      end
    end
  else mret tt.

Definition handleAuthResult (conf : Config) (oldAuthData : goSlice) (plugin : bytes) : M unit :=
  '(authData, newPlugin) ← readAuthResult;
  if bool_decide (newPlugin = []) then finishAuth conf (content oldAuthData) plugin authData
  else
    let '(authData, oldAuthData) :=
      match authData with
      | None => (oldAuthData, oldAuthData)
      | Some d => (d, copyInto oldAuthData (content d))
      end in
    authResp ← lift (auth conf authData newPlugin);
    _ ← writeAuthSwitchPacket authResp;
    '(authData, again) ← readAuthResult;
    if negb (bool_decide (again = [])) then raise ErrMalformedPkt
    else finishAuth conf (content oldAuthData) newPlugin authData.
End crypto.

(** ** The greeting *)
Definition HasSuffix (s suffix : string) : bool :=
  let a := rev (bytes_of s) in let b := rev (bytes_of suffix) in
  bool_decide (take (length b) a = b).

(** [StartEphemeralPacket], the writers, the check of the length, and
    [WriteEphemeralPacket] with the error it reports replaced. *)
Definition sendOr `{BufPool} (length : Z) (ws : list writer) (msg : string) (f : string -> string) : M unit :=
  data ← StartEphemeralPacket (Get length);
  '(d, pos) ← lift (writeAll ws data 0);
  _ ← fillBuffer d;
  if negb (pos =? len d) then raise msg else wrapErr f WriteEphemeralPacket.

Definition serverCapabilities : Z := orAll
  [ CapabilityClientLongPassword; CapabilityClientFoundRows; CapabilityClientLongFlag;
    CapabilityClientConnectWithDB; CapabilityClientProtocol41; CapabilityClientTransactions;
    CapabilityClientSecureConnection; CapabilityClientMultiStatements; CapabilityClientMultiResults;
    CapabilityClientPluginAuth; CapabilityClientPluginAuthLenencClientData;
    CapabilityClientDeprecateEOF; CapabilityClientConnAttr ].

(** [salt] has 20 bytes; [salt[:8]] and [salt[8:]] panic on a shorter one. *)
Definition writeHandshakeV10 `{BufPool} (ServerVersion : bytes) (connectionID : Z) (enableTLS : bool)
    (salt : bytes) : M unit :=
  let capabilities :=
    if enableTLS then Z.lor serverCapabilities CapabilityClientSSL else serverCapabilities in
  let length := 1 + LenNullString ServerVersion + 4 + 8 + 1 + 2 + 1 + 2 + 2 + 1 + 10 + 13 +
    LenNullString MysqlNativePassword in
  salt1 ← lift (slice salt 0 8);
  salt2 ← lift (slice salt 8 (len salt));
  sendOr length
    [ fun d p => WriteByte d p ProtocolVersion;
      fun d p => WriteNullString d p ServerVersion;
      fun d p => WriteUint32 d p connectionID;
      writeCopy salt1;
      fun d p => WriteByte d p 0;
      fun d p => WriteUint16 d p (capabilities mod 65536);
      fun d p => WriteByte d p CharacterSetUtf8;
      fun d p => WriteUint16 d p ServerStatusAutocommit;
      fun d p => WriteUint16 d p (Z.shiftr capabilities 16 mod 65536);
      fun d p => WriteByte d p 21;
      fun d p => WriteZeroes d p (Z.of_nat 10);
      writeCopy salt2;
      fun d p => WriteByte d p 0;
      fun d p => WriteNullString d p MysqlNativePassword ]
    "error building Handshake packet"
    (fun e => if HasSuffix e "write: connection reset by peer" || HasSuffix e "write: broken pipe"
              then io_EOF else e).

(** What the client learns: the results of [parseInitialHandshakePacket] and
    the fields it sets. *)
Record greeting := mkGreeting {
  gCapabilities : Z; gSalt : goSlice; gPlugin : bytes;
  gServerVersion : bytes; gConnectionID : Z; gCharacterSet : option Z }.

Definition sqlErr (number : Z) (what : string) : string :=
  SQLError_Error (NewSQLError number SSUnknownSQLState (bytes_of ("parseInitialHandshakePacket: " +:+ what))).

(** From the second part of the salt on.  [append] writes behind the first
    part, in the packet itself, over bytes that were read already. *)
Definition parsePart2 (data : bytes) (saltPos pos capabilities authPluginDataLength : Z) :
    res (bytes * goSlice * Z) :=
  if hasFlag capabilities CapabilityClientSecureConnection then
    let l := Z.min 13 (authPluginDataLength - 8) in
    '(part2, pos) ← need (sqlErr CRMalformedPacket "packet has no auth-plugin-Content-part-2")
                      (ReadBytes data pos l);
    last ← get part2 (l - 1);
    if negb (last =? 0)
    then Err (sqlErr CRMalformedPacket "auth-plugin-Content-part-2 is not 0 terminated")
    else
      part2 ← slice part2 0 (l - 1);
      let data := splice data (saltPos + 8) part2 in
      Ok (data, mkSlice (drop (Z.to_nat saltPos) data) (8 + length part2), pos)
  else Ok (data, mkSlice (drop (Z.to_nat saltPos) data) 8, pos).

Definition parsePluginName (data : bytes) (pos capabilities : Z) : res bytes :=
  if hasFlag capabilities CapabilityClientPluginAuth then
    r ← ReadNullString data pos;
    match r with
    | Some (name, _) => Ok name
    | None => slice data pos (len data - 1)
    end
  else Ok MysqlNativePassword.

Definition parseInitialHandshakePacket (data : bytes) : res greeting :=
  '(pver, pos) ← need (sqlErr CRVersionError "packet has no protocol version") (ReadByte data 0);
  if pver =? ErrPacket then
    Err (SQLError_Error (NewSQLError CRServerHandshakeErr SSUnknownSQLState
           (bytes_of "immediate error from server")))
  else if negb (pver =? ProtocolVersion) then
    Err (SQLError_Error (NewSQLError CRVersionError SSUnknownSQLState (bytes_of "bad protocol version")))
  else
  '(serverVersion, pos) ← need (sqlErr CRMalformedPacket "packet has no server version") (ReadNullString data pos);
  '(connectionID, pos) ← need (sqlErr CRMalformedPacket "packet has no connection id") (ReadUint32 data pos);
  let saltPos := pos in
  '(_, pos) ← need (sqlErr CRMalformedPacket "packet has no auth-plugin-Content-part-1") (ReadBytes data pos 8);
  '(_, pos) ← need (sqlErr CRMalformedPacket "packet has no filler") (ReadByte data pos);
  '(capLower, pos) ← need (sqlErr CRMalformedPacket "packet has no capability flags (lower 2 bytes)") (ReadUint16 data pos);
  if pos =? len data then
    Ok (mkGreeting capLower (mkSlice (drop (Z.to_nat saltPos) data) 8) [] serverVersion connectionID None)
  else
  '(characterSet, pos) ← need (sqlErr CRMalformedPacket "packet has no character set") (ReadByte data pos);
  '(_, pos) ← need (sqlErr CRMalformedPacket "packet has no status flags") (ReadUint16 data pos);
  '(capUpper, pos) ← need (sqlErr CRMalformedPacket "packet has no capability flags (upper 2 bytes)") (ReadUint16 data pos);
  let capabilities := u32 (capLower + Z.shiftl capUpper 16) in
  '(n, pos) ← need (sqlErr CRMalformedPacket "packet has no length of auth-plugin-Content") (ReadByte data pos);
  let authPluginDataLength := if hasFlag capabilities CapabilityClientPluginAuth then n else 0 in
  let pos := pos + 10 in
  '(data, salt, pos) ← parsePart2 data saltPos pos capabilities authPluginDataLength;
  name ← parsePluginName data pos capabilities;
  Ok (mkGreeting capabilities salt name serverVersion connectionID (Some characterSet)).

(** ** The response *)
Section response.
Context `{BufPool} `{Crypto}.

Definition responseFlags (conf : Config) (connCapabilities : Z) : Z :=
  let flags := orAll
    [ CapabilityClientLongPassword; CapabilityClientLongFlag; CapabilityClientProtocol41;
      CapabilityClientTransactions; CapabilityClientSecureConnection; CapabilityClientMultiStatements;
      CapabilityClientMultiResults; CapabilityClientPluginAuth;
      CapabilityClientPluginAuthLenencClientData;
      Z.land connCapabilities CapabilityClientDeprecateEOF ] in
  if ClientFoundRows conf then Z.lor flags CapabilityClientFoundRows else flags.

(** [connCapabilities] is the field of the connection, [capabilities] what the
    server announced. *)
Definition writeHandshakeResponse41 (conf : Config) (connCapabilities capabilities : Z)
    (scrambledPassword plugin : bytes) : M unit :=
  let flags := responseFlags conf connCapabilities in
  let withDB := negb (bool_decide (DBName conf = [])) &&
                hasFlag capabilities CapabilityClientConnectWithDB in
  let lenenc := hasFlag capabilities CapabilityClientPluginAuthLenencClientData in
  let flags := if withDB then Z.lor flags CapabilityClientConnectWithDB else flags in
  let length := 4 + 4 + 1 + 23 + LenNullString (User conf) + len scrambledPassword + 21 + 1 +
    (if withDB then LenNullString (DBName conf) else 0) +
    (if lenenc then LenEncIntSize (len scrambledPassword) else 1) in
  sendOr length
    ([ fun d p => WriteUint32 d p flags;
       fun d p => WriteZeroes d p (Z.of_nat 4);
       fun d p => WriteByte d p (u8 (collationID (Collation conf)));
       fun d p => WriteZeroes d p (Z.of_nat 23);
       fun d p => WriteNullString d p (User conf);
       (if lenenc then fun d p => WriteLenEncInt d p (len scrambledPassword)
        else fun d p => WriteByte d p (u8 (len scrambledPassword)));
       writeCopy scrambledPassword ] ++
     (if withDB then [fun d p => WriteNullString d p (DBName conf)] else []) ++
     [ fun d p => WriteNullString d p plugin ])
    (SQLError_Error (NewSQLError CRMalformedPacket SSUnknownSQLState
       (bytes_of "writeHandshakeResponse41: packed a different number of bytes")))
    (fun e => SQLError_Error (NewSQLError CRServerLost SSUnknownSQLState
                (bytes_of ("cannot send HandshakeResponse41: " +:+ e)))).

(** Up to the answer of the server. *)
Definition clientGreet (conf : Config) : M (greeting * Z) :=
  data ← wrapErr (fun e => SQLError_Error (NewSQLError CRServerLost []
                    (bytes_of ("initial packet read failed: " +:+ e)))) ReadPacket;
  g ← lift (parseInitialHandshakePacket data);
  let capabilities := if DisableClientDeprecateEOF conf then 0
                      else Z.land (gCapabilities g) CapabilityClientDeprecateEOF in
  authResp ← lift (auth conf (gSalt g) (gPlugin g));
  _ ← writeHandshakeResponse41 conf capabilities (gCapabilities g) authResp (gPlugin g);
  mret (g, capabilities).

(** [ReadPacket] takes no ephemeral buffer, so [RecycleReadPacket] panics. *)
Definition initDB (conf : Config) : M unit :=
  _ ← WriteComInitDB (DBName conf);
  response ← (fun c => let '(r, c1) := ReadPacket c in
                       match RecycleReadPacket c1 with
                       | (Ok _, c2) => (r, c2)
                       | (_, c2) => (Panic, c2)
                       end);
  b ← lift (get response 0);
  if b =? OKPacket then mret tt
  else if b =? ErrPacket then parseAndRaise response
  else raiseSQL (NewSQLError CRServerHandshakeErr SSUnknownSQLState
         (bytes_of "initial server response is asking for more information, not implemented yet")).

Definition clientHandshake (conf : Config) : M (greeting * Z) :=
  '(g, capabilities) ← clientGreet conf;
  _ ← handleAuthResult conf (gSalt g) (gPlugin g);
  _ ← (if negb (hasFlag (gCapabilities g) CapabilityClientConnectWithDB) &&
          negb (bool_decide (DBName conf = []))
       then initDB conf else mret tt);
  mret (g, capabilities).
End response.

(** ** The server's side *)

(** The fields of [MysqlListener] that connections read and write.  There is
    one listener for all connections of a port. *)
Record Listener := mkListener {
  connectionID : Z; capabilities : Z; characterSet : Z; schemaName : bytes;
  statementID : Z; stmts : gmap Z Stmt }.

Definition set_connectionID v l := mkListener v (capabilities l) (characterSet l) (schemaName l) (statementID l) (stmts l).
Definition set_capabilities v l := mkListener (connectionID l) v (characterSet l) (schemaName l) (statementID l) (stmts l).
Definition set_characterSet v l := mkListener (connectionID l) (capabilities l) v (schemaName l) (statementID l) (stmts l).
Definition set_schemaName v l := mkListener (connectionID l) (capabilities l) (characterSet l) v (statementID l) (stmts l).
Definition set_statementID v l := mkListener (connectionID l) (capabilities l) (characterSet l) (schemaName l) v (stmts l).
Definition set_stmts v l := mkListener (connectionID l) (capabilities l) (characterSet l) (schemaName l) (statementID l) v.

Definition NewListener : Listener := mkListener 0 0 0 [] 0 ∅.

(** [Listen]: every accepted connection gets the next number. *)
Definition Listen (l : Listener) : Z * Listener :=
  let id := u32 (connectionID l + 1) in (id, set_connectionID id l).

(** Code that can fail and changes a state as it goes. *)
Definition ST (S A : Type) : Type := S -> res A * S.
#[export] Typeclasses Opaque ST.
#[export] Instance ST_ret S : MRet (ST S) := fun A a s => (Ok a, s).
#[export] Instance ST_bind S : MBind (ST S) := fun A B f m s =>
  match m s with
  | (Ok a, s') => f a s'
  | (Err e, s') => (Err e, s')
  | (Panic, s') => (Panic, s')
  end.
Definition liftST {S A} (r : res A) : ST S A := fun s => (r, s).
Definition updateST {S} (f : S -> S) : ST S unit := fun s => (Ok tt, f s).

(** *** Connection attributes: every turn consumes two bytes at least. *)
Fixpoint connAttrsLoop (fuel : nat) (data : bytes) (pos attrLen attrLenRead : Z)
    (attrs : gmap bytes bytes) : res (gmap bytes bytes * Z) :=
  match fuel with
  | O => Panic
  | S fuel' =>
    if attrLenRead <? attrLen then
      '(keyLen, pos) ← need "parseClientHandshakePacket: can't read connection attribute key length" (ReadByte data pos);
      '(key, pos) ← need "parseClientHandshakePacket: can't read connection attribute key" (ReadBytesCopy data pos keyLen);
      '(valLen, pos) ← need "parseClientHandshakePacket: can't read connection attribute value length" (ReadByte data pos);
      '(val, pos) ← need "parseClientHandshakePacket: can't read connection attribute value" (ReadBytesCopy data pos valLen);
      connAttrsLoop fuel' data pos attrLen (u64 (u64 (attrLenRead + u64 (keyLen + 1)) + u64 (valLen + 1)))
        (<[key := val]> attrs)
    else Ok (attrs, pos)
  end.

Definition parseConnAttrs (data : bytes) (pos : Z) : res (gmap bytes bytes * Z) :=
  '(attrLen, pos) ← need "parseClientHandshakePacket: can't read connection attributes variable length" (ReadLenEncInt data pos);
  connAttrsLoop (S (length data)) data pos attrLen 0 ∅.

(** *** The response of the client *)
Definition cannotRead (what : string) : string := "parseClientHandshakePacket: can't read " +:+ what.

Definition parseAuthResponse (clientFlags : Z) (data : bytes) (pos : Z) : res (bytes * Z) :=
  if hasFlag clientFlags CapabilityClientPluginAuthLenencClientData then
    '(l, pos) ← need (cannotRead "auth-response variable length") (ReadLenEncInt data pos);
    need (cannotRead "auth-response") (ReadBytesCopy data pos (i64 l))
  else if hasFlag clientFlags CapabilityClientSecureConnection then
    '(l, pos) ← need (cannotRead "auth-response length") (ReadByte data pos);
    need (cannotRead "auth-response") (ReadBytesCopy data pos l)
  else need (cannotRead "auth-response") (ReadNullString data pos).

(** User, authentication method, authentication response. *)
Definition parseClientHandshakePacket (firstTime : bool) (data : bytes) : ST Listener (bytes * bytes * bytes) :=
  '(clientFlags, pos) ← liftST (need (cannotRead "client flags") (ReadUint32 data 0));
  if negb (hasFlag clientFlags CapabilityClientProtocol41)
  then liftST (Err "parseClientHandshakePacket: only support protocol 4.1")
  else
  _ ← updateST (fun l => if firstTime
        then set_capabilities (Z.land clientFlags (Z.lor CapabilityClientDeprecateEOF CapabilityClientFoundRows)) l
        else l);
  _ ← updateST (fun l => if hasFlag clientFlags CapabilityClientMultiStatements
        then set_capabilities (Z.lor (capabilities l) CapabilityClientMultiStatements) l
        else l);
  '(_, pos) ← liftST (need (cannotRead "maxPacketSize") (ReadUint32 data pos));
  '(characterSet, pos) ← liftST (need (cannotRead "characterSet") (ReadByte data pos));
  _ ← updateST (set_characterSet characterSet);
  let pos := pos + 23 in
  '(username, pos) ← liftST (need (cannotRead "username") (ReadNullString data pos));
  '(authResponse, pos) ← liftST (parseAuthResponse clientFlags data pos);
  pos ← (if hasFlag clientFlags CapabilityClientConnectWithDB then
           '(dbname, pos) ← liftST (need (cannotRead "dbname") (ReadNullString data pos));
           _ ← updateST (set_schemaName dbname);
           mret pos
         else mret pos);
  '(authMethod, pos) ← (if hasFlag clientFlags CapabilityClientPluginAuth
                        then liftST (need (cannotRead "authMethod") (ReadNullString data pos))
                        else mret (MysqlNativePassword, pos));
  let authMethod := match authMethod with [] => MysqlNativePassword | _ => authMethod end in
  _ ← (if hasFlag clientFlags CapabilityClientConnAttr
       then liftST (match parseConnAttrs data pos with Panic => Panic | _ => Ok tt end)
       else mret tt);
  mret (username, authMethod, authResponse).

Section server.
Context `{BufPool} `{Crypto}.

Record MysqlConfig := mkMysqlConfig { Users : gmap bytes bytes; ServerVersion : bytes }.

Definition accessDenied (user : bytes) : goError :=
  SQLErr (NewSQLError ERAccessDeniedError SSAccessDeniedError
            (bytes_of "Access denied for user '" ++ user ++ bytes_of "'")).

Definition ValidateHash (conf : MysqlConfig) (user salt authResponse : bytes) : option goError :=
  match Users conf !! user with
  | None => Some (accessDenied user)
  | Some password =>
    if bool_decide (authResponse = serverScramblePassword salt password) then None
    else Some (accessDenied user)
  end.

(** [salt[i] &= 0x7f], and a zero or a dollar sign is incremented. *)
Definition saltByte (b : Z) : Z :=
  let b := Z.land b 127 in
  if (b =? 0) || (b =? 36) then u8 (b + 1) else b.

(** [random] are the 20 bytes [rand.Read] delivers, or its error. *)
Definition newSalt (random : res bytes) : res bytes := map saltByte <$> random.

(** The listener's state and a connection. *)
Definition world : Type := Listener * conn.
Definition onConn {A} (m : M A) : ST world A := fun '(l, c) => let '(r, c') := m c in (r, (l, c')).
Definition onListener {A} (m : ST Listener A) : ST world A := fun '(l, c) => let '(r, l') := m l in (r, (l', c)).

(** An operation whose error is handled: the error as a value. *)
Definition attempt {S A} (m : ST S A) : ST S (A + goError) := fun s =>
  match m s with
  | (Ok a, s') => (Ok (inl a), s')
  | (Err e, s') => (Ok (inr (OtherErr (bytes_of e))), s')
  | (Panic, s') => (Panic, s')
  end.

(** The user, or the error that is reported to the client.  The buffer of the
    response goes back to the pool before it is parsed; [recycled] is what it
    holds by then. *)
Definition handshake (conf : MysqlConfig) (connectionID : Z) (random : res bytes)
    (recycled : bytes -> bytes) : ST world (bytes + goError) :=
  salt ← attempt (liftST (newSalt random));
  match salt with
  | inr e => mret (inr e)
  | inl salt =>
    w ← attempt (onConn (writeHandshakeV10 (ServerVersion conf) connectionID false salt));
    match w with
    | inr e => mret (inr e)
    | inl _ =>
      r ← attempt (onConn ReadEphemeralPacketDirect);
      match r with
      | inr e => mret (inr e)
      | inl response =>
        _ ← onConn RecycleReadPacket;
        p ← attempt (onListener (parseClientHandshakePacket true (recycled response)));
        match p with
        | inr e => mret (inr e)
        | inl (user, _, authResponse) =>
          match ValidateHash conf user salt authResponse with
          | Some e => mret (inr e)
          | None => mret (inl user)
          end
        end
      end
    end
  end.

(** The start of [handle]: the user of an accepted connection, or [None] when
    the connection is given up. *)
Definition accept (conf : MysqlConfig) (connectionID : Z) (random : res bytes)
    (recycled : bytes -> bytes) : ST world (option bytes) :=
  h ← handshake conf connectionID random recycled;
  match h with
  | inr e => _ ← attempt (onConn (WriteErrorPacketFromError e)); mret None
  | inl user =>
    w ← attempt (onConn (flags ← gets statusFlags; WriteOKPacket 0 0 flags 0));
    match w with inr _ => mret None | inl _ => mret (Some user) end
  end.
End server.
