(* ===== verification/HandshakeSpec.v ===== *)
(** * What the connection phase guarantees

    The greeting and the response are read as they were written
    ([greeting_roundtrip], [response_roundtrip]); composed over the framing of
    packets, a driver and a listener that talk to each other agree on whether
    the connection is accepted ([handshake_agrees]). *)
From Stdlib Require Import ZArith Lia List.
From stdpp Require Import base gmap list strings.
From S2P Require Import Prelude GoText Encoding Layout Conn Packets PacketSpec GoTime DateTime Rows Stmt Collations Handshake.

Local Open Scope Z_scope.

(** ** Framing *)
Lemma framed_det seq data out seq' :
  framed seq data out seq' -> forall out2 seq2, framed seq data out2 seq2 -> out = out2 /\ seq' = seq2.
Proof.
  pose proof MaxPacketSize_pos as HM.
  induction 1 as [seq data Hd|seq chunk data out seq' Hc Hf IH]; intros out2 seq2 H2.
  - inversion H2 as [|? chunk2 data2 o2 ? Hc2 Hf2]; subst; [done|].
    rewrite len_app in Hd. pose proof (len_nonneg data2). lia.
  - inversion H2 as [? ? Hd2|? chunk2 data2 o2 ? Hc2 Hf2 E1 E2]; subst.
    + rewrite len_app in Hd2. pose proof (len_nonneg data). lia.
    + apply app_inj_1 in E2 as [-> ->]; [|unfold len in *; lia].
      by apply IH in Hf2 as [-> ->].
Qed.

Lemma framed_exists seq data : exists out seq', framed seq data out seq'.
Proof.
  set (n := Z.to_nat (cost [data])).
  pose proof (cost_nonneg [data]).
  destruct (WritePacket_sends 0 data (set_sequence seq (NewConn [] n))) as (c' & out & _ & Hf & _);
    [done | done | lia | unfold n; cbn [accepts set_sequence NewConn]; lia |].
  by exists out, (sequence c').
Qed.

Lemma framedAll_det1 seq p out seq' out2 seq2 :
  framed seq p out seq' -> framedAll seq [p] out2 seq2 -> out2 = out /\ seq2 = seq'.
Proof.
  intros H1 H2%framedAll_one. destruct (framed_det _ _ _ _ H1 _ _ H2) as [-> ->]. done.
Qed.

(** The direct read of the handshake takes one packet. *)
Lemma ReadDirect_framed data out seq' c rest :
  framed (sequence c) data out seq' -> len data < MaxPacketSize -> rd c = out ++ rest ->
  policy c = ephemeralUnused -> buffer c = None ->
  exists c1, ReadEphemeralPacketDirect c = (Ok data, c1) /\
    RecycleReadPacket c1 = (Ok tt, set_rd rest (set_sequence seq' c)).
Proof.
  pose proof MaxPacketSize_pos as HM. intros Hf Hd E Hp Hb.
  inversion Hf as [? ? Hd'|? chunk data2 o2 ? Hc2 Hf2]; subst.
  2:{ rewrite len_app in Hd. pose proof (len_nonneg data2). lia. }
  rewrite <- app_assoc in E. pose proof (len_nonneg data).
  assert (R : exists b, ReadEphemeralPacketDirect c =
    (Ok data, set_ephemeral ephemeralRead b (set_rd rest (set_sequence (u8 (sequence c + 1)) c)))).
  { unfold ReadEphemeralPacketDirect. erewrite bind_M_run by reflexivity. rewrite Hp.
    erewrite bind_M_run by (apply readHeader_framed; [|exact E]; lia).
    erewrite bind_M_run by reflexivity.
    destruct (Z.eqb_spec (len data) 0) as [H0|H0].
    + destruct data; [by eexists | unfold len in H0; cbn in H0; lia].
    + destruct (Z.ltb_spec (len data) MaxPacketSize); [|lia].
      erewrite bind_M_run by reflexivity.
      erewrite bind_M_run by (apply (readBody_framed _ _ data rest); done).
      by eexists. }
  destruct R as (b & R). eexists. split; [exact R|]. rewrite RecycleRead_run.
  by rewrite set_ephemeral_restore.
Qed.

(** ** The two packets *)
Lemma sendOr_sends `{BufPool} fl length ws msg f e :
  Writes (writeAll ws) e -> len e = length -> Sends fl (sendOr length ws msg f) [e] tt.
Proof.
  intros Hw Hl c n Hfl Hn Hlive.
  destruct (sendChecked_sends fl length ws msg e Hw Hl c n Hfl Hn Hlive) as (c' & out & E & Hrest).
  exists c', out. split; [|exact Hrest]. unfold sendChecked, sendOr in *.
  apply bind_M_Ok in E as (d & c1 & E1 & E). rewrite (bind_M_run _ _ _ _ _ E1).
  apply bind_M_Ok in E as ([d2 p2] & c2 & E2 & E). rewrite (bind_M_run _ _ _ _ _ E2).
  apply bind_M_Ok in E as ([] & c3 & E3 & E). rewrite (bind_M_run _ _ _ _ _ E3).
  destruct (negb _); [done|]. by apply wrapErr_Ok.
Qed.

Lemma splice_mid pre old new post :
  len old = len new -> splice (pre ++ old ++ post) (len pre) new = pre ++ new ++ post.
Proof.
  intros Hl. unfold splice, len in *. rewrite Nat2Z.id, take_app_length. do 2 f_equal.
  rewrite drop_app_ge by lia. rewrite drop_app_ge by lia.
  by replace (length pre + length new - length pre - length old)%nat with O by lia.
Qed.

Definition greetBytes (version : bytes) (connectionID : Z) (salt : bytes) : bytes :=
  [ProtocolVersion] ++ (version ++ [0]) ++ le 4 connectionID ++ take 8 salt ++ [0] ++
  le 2 (serverCapabilities mod 65536) ++ [CharacterSetUtf8] ++ le 2 ServerStatusAutocommit ++
  le 2 (Z.shiftr serverCapabilities 16 mod 65536) ++ [21] ++ replicate 10 0 ++ drop 8 salt ++ [0] ++
  (MysqlNativePassword ++ [0]) ++ [].

Lemma greetBytes_len version connectionID salt :
  len salt = 20 -> len (greetBytes version connectionID salt) = len version + 68.
Proof.
  intros Hs. unfold greetBytes. rewrite !len_app, !le_length, !len_singleton.
  replace (len (take 8 salt)) with 8 by (unfold len in *; rewrite length_take; lia).
  replace (len (drop 8 salt)) with 12 by (unfold len in *; rewrite length_drop; lia).
  change (len (replicate 10 0)) with 10. change (len MysqlNativePassword) with 21.
  change (len []) with 0. lia.
Qed.

Lemma greet_sends `{BufPool} fl version connectionID salt :
  len salt = 20 ->
  Sends fl (writeHandshakeV10 version connectionID false salt) [greetBytes version connectionID salt] tt.
Proof.
  intros Hs. unfold writeHandshakeV10. cbn iota.
  assert (S1 : slice salt 0 8 = Ok (take 8 salt)).
  { unfold slice, len in *. destruct (_ && _) eqn:E; [done|]. zbool. lia. }
  assert (S2 : slice salt 8 (len salt) = Ok (drop 8 salt)).
  { unfold slice. destruct (_ && _) eqn:E; [|zbool; lia].
    f_equal. apply take_ge. unfold len in *. rewrite length_drop. lia. }
  rewrite S1, S2. intros c n. do 2 (rewrite (bind_M_run _ _ _ _ c) by reflexivity). revert c n.
  apply sendOr_sends.
  - unfold greetBytes. repeat (apply Writes_cons; [apply _|]). apply Writes_nil.
  - rewrite greetBytes_len by done. unfold LenNullString.
    change (len MysqlNativePassword) with 21. lia.
Qed.

(** The second part of the salt is appended behind the first one, inside the
    packet; what it overwrites was read before. *)
Lemma parsePart2_greeting data A B C salt :
  data = A ++ take 8 salt ++ B ++ (drop 8 salt ++ [0]) ++ C ->
  len salt = 20 -> len B = 19 -> len data < two63 ->
  parsePart2 data (len A) (len A + 27) serverCapabilities 21 =
    Ok (A ++ salt ++ drop 12 B ++ (drop 8 salt ++ [0]) ++ C,
        mkSlice (salt ++ drop 12 B ++ (drop 8 salt ++ [0]) ++ C) 20, len A + 40).
Proof.
  intros Hd Hs HB Hl. unfold parsePart2.
  change (hasFlag serverCapabilities CapabilityClientSecureConnection) with true. cbn iota.
  change (Z.min 13 (21 - 8)) with 13.
  assert (L8 : len (take 8 salt) = 8) by (unfold len in *; rewrite length_take; lia).
  assert (L12 : len (drop 8 salt) = 12) by (unfold len in *; rewrite length_drop; lia).
  assert (Hp : len A + 27 = len (A ++ take 8 salt ++ B)) by (rewrite !len_app; lia).
  rewrite (need_at _ (fun d p => ReadBytes d p 13) data (len A + 27) (A ++ take 8 salt ++ B)
             (drop 8 salt ++ [0]) C (drop 8 salt ++ [0]));
    [ | apply Reads_Bytes; rewrite len_app, L12; done | by rewrite Hd, <- !app_assoc | done | done].
  cbn beta iota. change (13 - 1) with 12.
  assert (G : get (drop 8 salt ++ [0]) 12 = Ok 0).
  { unfold get. cbn [Z.leb Z.compare]. rewrite lookup_app_r by (unfold len in L12; lia).
    by replace (Z.to_nat 12 - length (drop 8 salt))%nat with O by (unfold len in L12; lia). }
  rewrite G. cbn [mbind res_bind]. cbn [negb Z.eqb].
  assert (S12 : slice (drop 8 salt ++ [0]) 0 12 = Ok (drop 8 salt)).
  { unfold slice. destruct (_ && _) eqn:E; [|rewrite len_app, len_singleton in E; zbool; lia].
    f_equal. change (Z.to_nat 0) with O. rewrite drop_0. change (Z.to_nat (12 - 0)) with 12%nat.
    rewrite take_app_le by (unfold len in L12; lia).
    apply take_ge. unfold len in L12; lia. }
  rewrite S12. cbn [mbind res_bind].
  assert (Hsp : splice data (len A + 8) (drop 8 salt) =
                A ++ salt ++ drop 12 B ++ (drop 8 salt ++ [0]) ++ C).
  { replace (len A + 8) with (len (A ++ take 8 salt)) by (rewrite len_app; lia).
    replace data with ((A ++ take 8 salt) ++ take 12 B ++ drop 12 B ++ (drop 8 salt ++ [0]) ++ C)
      by (rewrite Hd, (app_assoc (take 12 B)), take_drop; by rewrite <- !app_assoc).
    rewrite splice_mid by (rewrite L12; unfold len in *; rewrite length_take; lia).
    rewrite <- (app_assoc A), (app_assoc (take 8 salt)), take_drop. done. }
  rewrite Hsp. replace (8 + length (drop 8 salt))%nat with 20%nat by (unfold len in L12; lia).
  replace (len ((A ++ take 8 salt ++ B) ++ drop 8 salt ++ [0])) with (len A + 40)
    by (rewrite !len_app, L12, len_singleton; lia).
  replace (Z.to_nat (len A)) with (length A) by (unfold len; lia). by rewrite drop_app_length.
Qed.

Lemma len_more (pre : bytes) b post : len pre <> len (pre ++ [b] ++ post).
Proof. rewrite !len_app, len_singleton. pose proof (len_nonneg post). lia. Qed.

#[local] Hint Resolve Reads_NullString : reads.

Lemma parse_greeting version connectionID salt :
  ~ In 0 version -> len version < two63 - 68 -> 0 <= connectionID < 4294967296 -> len salt = 20 ->
  exists tail,
  parseInitialHandshakePacket (greetBytes version connectionID salt) =
    Ok (mkGreeting serverCapabilities (mkSlice (salt ++ tail) 20) MysqlNativePassword version connectionID
          (Some CharacterSetUtf8)).
Proof.
  intros Hv Hlv Hid Hs. pose proof (greetBytes_len version connectionID salt Hs) as Hlen.
  assert (Hl : len (greetBytes version connectionID salt) < two63) by lia.
  unfold parseInitialHandshakePacket. remember (greetBytes version connectionID salt) as data eqn:Hd.
  unfold greetBytes in Hd.
  set (B := [0] ++ le 2 (serverCapabilities mod 65536) ++ [CharacterSetUtf8] ++ le 2 ServerStatusAutocommit ++
            le 2 (Z.shiftr serverCapabilities 16 mod 65536) ++ [21] ++ replicate 10 0).
  set (A := [ProtocolVersion] ++ (version ++ [0]) ++ le 4 connectionID).
  assert (HB : data = A ++ take 8 salt ++ B ++ (drop 8 salt ++ [0]) ++ (MysqlNativePassword ++ [0]) ++ [])
    by (rewrite Hd; unfold A, B; by rewrite <- !app_assoc).
  rewrite <- (app_nil_l ([ProtocolVersion] ++ _)) in Hd.
  assert (HlB : len B = 19) by reflexivity. clearbody B.
  assert (R1 : 0 <= serverCapabilities mod 65536 < 65536) by (apply Z.mod_pos_bound; lia).
  assert (R2 : 0 <= Z.shiftr serverCapabilities 16 mod 65536 < 65536) by (apply Z.mod_pos_bound; lia).
  assert (R3 : 0 <= ServerStatusAutocommit < 65536) by done.
  assert (R8 : Reads (fun d p => ReadBytes d p 8) (take 8 salt) (take 8 salt))
    by (apply Reads_Bytes; unfold len in *; rewrite length_take; lia).
  along @need_at Hd. change (ProtocolVersion =? ErrPacket) with false.
  change (negb (ProtocolVersion =? ProtocolVersion)) with false. cbn iota.
  do 2 along @need_at Hd.
  assert (HA : (([] ++ [ProtocolVersion]) ++ version ++ [0]) ++ le 4 connectionID = A)
    by (unfold A; by rewrite <- !app_assoc).
  rewrite HA in Hd |- *.
  match type of Hd with _ = ?pre ++ ?e ++ ?post =>
    rewrite (need_at _ (fun d p => ReadBytes d p 8) data (len A) pre e post e) by done; rewrite (app_assoc pre) in Hd end.
  cbn beta iota. do 2 along @need_at Hd.
  match goal with |- context [?a =? len data] => destruct (Z.eqb_spec a (len data)) as [Hx|_] end.
  { exfalso. rewrite Hd in Hx. by apply len_more in Hx. }
  do 4 along @need_at Hd.
  change (hasFlag _ CapabilityClientPluginAuth) with true. cbn iota.
  match goal with |- context [parsePart2 data (len A) ?p ?cap ?n] =>
    change cap with serverCapabilities; change n with 21; replace p with (len A + 27) end.
  2:{ rewrite !len_app, !le_length, !len_singleton. unfold len in *. rewrite length_take. lia. }
  erewrite parsePart2_greeting by (done || exact HB).
  cbn [mbind res_bind]. unfold parsePluginName.
  change (hasFlag serverCapabilities CapabilityClientPluginAuth) with true. cbn iota.
  erewrite (reads_at ReadNullString _ _ (A ++ salt ++ drop 12 B ++ drop 8 salt ++ [0]) (MysqlNativePassword ++ [0]) []);
    [ | apply Reads_NullString; vm_compute; intuition congruence | by rewrite <- !app_assoc | | ].
  - cbn [mbind res_bind]. eexists. f_equal.
  - rewrite !len_app, len_singleton. unfold len in *. rewrite !length_drop. lia.
  - rewrite HB in Hl. rewrite !len_app in *. unfold len in *. rewrite !length_drop, length_take in *.
    lia.
Qed.

(** *** The response *)
Section response.
Context `{BufPool} `{Crypto}.

Definition withDB (conf : Config) (announced : Z) : bool :=
  negb (bool_decide (DBName conf = [])) && hasFlag announced CapabilityClientConnectWithDB.

Definition clientFlags (conf : Config) (connCap announced : Z) : Z :=
  if withDB conf announced then Z.lor (responseFlags conf connCap) CapabilityClientConnectWithDB
  else responseFlags conf connCap.

Definition authBytes (announced : Z) (authResp : bytes) : bytes :=
  if hasFlag announced CapabilityClientPluginAuthLenencClientData then lenenc (len authResp)
  else [u8 (len authResp)].

Definition respBytes (conf : Config) (connCap announced : Z) (authResp plugin : bytes) : bytes :=
  le 4 (clientFlags conf connCap announced) ++ replicate 4 0 ++ [u8 (collationID (Collation conf))] ++
  replicate 23 0 ++ (User conf ++ [0]) ++ authBytes announced authResp ++ authResp ++
  (if withDB conf announced then (DBName conf ++ [0]) ++ (plugin ++ [0]) ++ []
   else (plugin ++ [0]) ++ []).

(** The names of the two methods the driver can answer the greeting with have
    21 bytes, the number the packet reserves. *)
Lemma response_sends fl conf connCap announced authResp plugin :
  len plugin = 21 ->
  Sends fl (writeHandshakeResponse41 conf connCap announced authResp plugin)
    [respBytes conf connCap announced authResp plugin] tt.
Proof.
  intros Hp. unfold writeHandshakeResponse41. fold (withDB conf announced).
  apply sendOr_sends.
  - unfold respBytes, authBytes, clientFlags.
    destruct (withDB conf announced), (hasFlag announced _);
      match goal with |- Writes (writeAll ?ws) _ => let ws' := eval cbn [app] in ws in change ws with ws' end;
      repeat (apply Writes_cons; [apply _|]); apply Writes_nil.
  - unfold respBytes, authBytes, LenNullString.
    destruct (withDB conf announced), (hasFlag announced _);
      rewrite !len_app, ?lenenc_len, !le_length, !len_singleton;
      change (len (replicate 4 0)) with 4; change (len (replicate 23 0)) with 23;
      change (len []) with 0; lia.
Qed.

Lemma land_bit x k : 0 <= k -> Z.land x (2 ^ k) = 0 \/ Z.land x (2 ^ k) = 2 ^ k.
Proof.
  intros Hk. destruct (Z.testbit x k) eqn:E; [right | left]; apply Z.bits_inj'; intros n Hn;
    rewrite Z.land_spec, ?Z.bits_0, Z.pow2_bits_eqb by done;
    destruct (Z.eqb_spec k n) as [->|]; by rewrite ?E, ?andb_false_r.
Qed.

Lemma clientFlags_spec conf connCap announced :
  let f := clientFlags conf connCap announced in
  0 <= f < 4294967296 /\ hasFlag f CapabilityClientProtocol41 = true /\
  hasFlag f CapabilityClientMultiStatements = true /\
  hasFlag f CapabilityClientPluginAuthLenencClientData = true /\
  hasFlag f CapabilityClientConnectWithDB = withDB conf announced /\
  hasFlag f CapabilityClientPluginAuth = true /\ hasFlag f CapabilityClientConnAttr = false /\
  Z.land f (Z.lor CapabilityClientDeprecateEOF CapabilityClientFoundRows) =
    Z.lor (Z.land connCap CapabilityClientDeprecateEOF)
      (if ClientFoundRows conf then CapabilityClientFoundRows else 0).
Proof.
  unfold clientFlags, responseFlags.
  destruct (land_bit connCap 24) as [E|E]; [done|..]; change (2 ^ 24) with CapabilityClientDeprecateEOF in E;
    rewrite E; destruct (withDB conf announced), (ClientFoundRows conf); vm_compute; intuition congruence.
Qed.

Lemma need_ST_at {S A B} err (r : bytes -> Z -> reader A) data pos pre e post v (k : A * Z -> ST S B) s :
  Reads r e v -> data = pre ++ e ++ post -> pos = len pre -> len data < two63 ->
  (liftST (need err (r data pos)) ≫= k) s = k (v, len (pre ++ e)) s.
Proof.
  intros Hr Hd Hp Hl. unfold need. rewrite (reads_at r data pos pre e post v) by done. done.
Qed.

Lemma Reads_BytesCopy n s : len s = n -> Reads (fun d p => ReadBytesCopy d p n) s s.
Proof.
  intros <- pre post Hlen. pose proof (Reads_Bytes (len s) s eq_refl pre post Hlen) as R.
  unfold ReadBytes, ReadBytesCopy in *. pose proof (len_nonneg s).
  destruct (_ <=? _); [done|]. destruct (Z.ltb_spec (len s) 0); [lia | done].
Qed.

Lemma ST_run {S A B} (m : ST S A) (k : A -> ST S B) s a s1 :
  m s = (Ok a, s1) -> (m ≫= k) s = k a s1.
Proof. intros E. unfold mbind, ST_bind. by rewrite E. Qed.

Lemma parseAuthResponse_at flags announced data authResp pre post pos :
  hasFlag flags CapabilityClientPluginAuthLenencClientData = true -> len authResp < 251 ->
  data = pre ++ authBytes announced authResp ++ authResp ++ post -> pos = len pre -> len data < two63 ->
  parseAuthResponse flags data pos = Ok (authResp, len ((pre ++ authBytes announced authResp) ++ authResp)).
Proof.
  intros Hf Ha Hd -> Hl. pose proof (len_nonneg authResp). unfold parseAuthResponse. rewrite Hf.
  assert (Hb : authBytes announced authResp = lenenc (len authResp)).
  { unfold authBytes. destruct (hasFlag announced _); [done|]. unfold lenenc.
    by destruct (Z.ltb_spec (len authResp) 251); [|lia]. }
  rewrite Hb in *. assert (in_u64 (len authResp)) by (unfold_width; lia).
  along @need_at Hd. rewrite i64_id by (unfold_width; lia).
  unfold need. rewrite (reads_at (fun d p => ReadBytesCopy d p (len authResp)) data _ (pre ++ lenenc (len authResp)) authResp post authResp);
    [done | by apply Reads_BytesCopy | exact Hd | done | done].
Qed.

(** What the listener remembers of a response. *)
Definition afterResponse (conf : Config) (connCap announced : Z) (l : Listener) : Listener :=
  let caps := Z.lor (Z.lor (Z.land connCap CapabilityClientDeprecateEOF)
                (if ClientFoundRows conf then CapabilityClientFoundRows else 0))
                CapabilityClientMultiStatements in
  let l := set_characterSet (collationID (Collation conf)) (set_capabilities caps l) in
  if withDB conf announced then set_schemaName (DBName conf) l else l.

#[local] Hint Resolve Reads_NullString : reads.

Lemma parse_response conf connCap announced authResp plugin l :
  ~ In 0 (User conf) -> ~ In 0 (DBName conf) -> ~ In 0 plugin -> plugin <> [] -> len authResp < 251 ->
  len (respBytes conf connCap announced authResp plugin) < two63 ->
  parseClientHandshakePacket true (respBytes conf connCap announced authResp plugin) l =
    (Ok (User conf, plugin, authResp), afterResponse conf connCap announced l).
Proof.
  intros Hu Hdb Hp Hpne Ha Hl. pose proof (len_nonneg authResp).
  unfold parseClientHandshakePacket.
  remember (respBytes conf connCap announced authResp plugin) as data eqn:Hd.
  unfold respBytes in Hd.
  destruct (clientFlags_spec conf connCap announced) as (Rf & F1 & F2 & F3 & F4 & F5 & F6 & F7).
  rewrite <- (app_nil_l (le 4 _ ++ _)) in Hd.
  along (@need_ST_at Listener) Hd. rewrite F1. cbn [negb]. cbn iota.
  erewrite ST_run by reflexivity. erewrite ST_run by reflexivity. rewrite F2, F7. cbn iota.
  assert (R4 : Reads ReadUint32 (replicate 4 0) 0) by (apply (Reads_Uint32 0); done).
  along (@need_ST_at Listener) Hd. along (@need_ST_at Listener) Hd.
  erewrite ST_run by reflexivity.
  rewrite (app_assoc _ (replicate 23 0)) in Hd.
  match goal with |- context [len ?pre + 23] =>
    replace (len pre + 23) with (len (pre ++ replicate 23 0)) by (by rewrite !len_app) end.
  along (@need_ST_at Listener) Hd.
  erewrite ST_run.
  2:{ unfold liftST. erewrite parseAuthResponse_at; [reflexivity | done | done | exact Hd | done | done]. }
  cbn beta iota. rewrite !(app_assoc _ (authBytes announced authResp)), (app_assoc _ authResp) in Hd.
  rewrite F4, F5, F6. unfold afterResponse.
  unfold u8, two8. rewrite Z.mod_small by apply collationID_byte.
  destruct (withDB conf announced).
  - erewrite ST_run. 2:{ along (@need_ST_at Listener) Hd. erewrite ST_run by reflexivity. reflexivity. }
    rewrite (app_assoc _ (DBName conf ++ [0])) in Hd. along (@need_ST_at Listener) Hd. erewrite ST_run by reflexivity. 
    destruct plugin; [done|]. reflexivity.
  - erewrite ST_run by reflexivity.
    along (@need_ST_at Listener) Hd. erewrite ST_run by reflexivity. 
    destruct plugin; [done|]. reflexivity.
Qed.

(** ** Driver and listener together *)

(** The sizes that keep every packet of the handshake in one frame. *)
Record plainConf (conf : Config) (sconf : MysqlConfig) : Prop := {
  pc_user : ~ In 0 (User conf); pc_db : ~ In 0 (DBName conf); pc_version : ~ In 0 (ServerVersion sconf);
  pc_userLen : len (User conf) < 65536; pc_dbLen : len (DBName conf) < 65536;
  pc_versionLen : len (ServerVersion sconf) < 65536 }.

(** A connection at the start of the handshake, good for [n] more writes. *)
Definition fresh (n : Z) (c : conn) : Prop := live n c /\ sequence c = 0.

Definition accepted (conf : Config) (sconf : MysqlConfig) (salt : bytes) : bool :=
  match Users sconf !! User conf with
  | Some password => bool_decide (scramblePassword salt (Passwd conf) = serverScramblePassword salt password)
  | None => false
  end.

Lemma scramblePassword_len salt password : len (scramblePassword salt password) <= 20.
Proof.
  unfold scramblePassword. destruct password as [|b p]; [done|].
  unfold xorBytes, len. rewrite length_zip_with.
  pose proof (sha1_len (b :: p)). unfold len in *. lia.
Qed.

Lemma saltLen rnd : len rnd = 20 -> len (map saltByte rnd) = 20.
Proof. unfold len. by rewrite length_map. Qed.

(** The payloads the two sides exchange. *)
Definition greetOf (sconf : MysqlConfig) (connectionID : Z) (salt : bytes) : bytes :=
  greetBytes (ServerVersion sconf) connectionID salt.
Definition connCapOf (conf : Config) : Z :=
  if DisableClientDeprecateEOF conf then 0 else Z.land serverCapabilities CapabilityClientDeprecateEOF.
Definition respOf (conf : Config) (salt : bytes) : bytes :=
  respBytes conf (connCapOf conf) serverCapabilities (scramblePassword salt (Passwd conf)) MysqlNativePassword.
Definition deniedErr (conf : Config) : SQLError :=
  mkError ERAccessDeniedError SSAccessDeniedError
    (bytes_of "Access denied for user '" ++ User conf ++ bytes_of "'").
Definition answerOf (conf : Config) (sconf : MysqlConfig) (salt : bytes) (flags : Z) : bytes :=
  if accepted conf sconf salt then okBytes OKPacket 0 0 flags 0 else errBytes (deniedErr conf).

Lemma respOf_len conf sconf salt : plainConf conf sconf -> len (respOf conf salt) < 200000.
Proof.
  intros [? ? ? ? ? ?]. unfold respOf, respBytes, authBytes.
  pose proof (scramblePassword_len salt (Passwd conf)).
  pose proof (LenEncIntSize_pos (len (scramblePassword salt (Passwd conf)))).
  destruct (withDB conf _), (hasFlag serverCapabilities _);
      rewrite !len_app, ?lenenc_len, !le_length, !len_singleton;
      change (len (replicate 4 0)) with 4; change (len (replicate 23 0)) with 23;
      change (len MysqlNativePassword) with 21; change (len []) with 0; lia.
Qed.

Lemma short_cost p : len p < MaxPacketSize -> cost [p] = 6.
Proof. intros Hp. pose proof (len_nonneg p). cbn [cost foldr]. rewrite Z.div_small by lia. done. Qed.

(** One step of a program whose outcome is known. *)
Ltac st_step E := rewrite (ST_run _ _ _ _ _ E); cbn beta iota.

Lemma attempt_run {S A} (m : ST S A) s a s' : m s = (Ok a, s') -> attempt m s = (Ok (inl a), s').
Proof. intros E. unfold attempt. by rewrite E. Qed.

Lemma onConn_run {A} (m : M A) l c r c' : m c = (r, c') -> onConn m (l, c) = (r, (l, c')).
Proof. intros E. unfold onConn. by rewrite E. Qed.

Lemma onListener_run {A} (m : ST Listener A) l c r l' : m l = (r, l') -> onListener m (l, c) = (r, (l', c)).
Proof. intros E. unfold onListener. by rewrite E. Qed.

Lemma live_moved n c r s : live n c -> live n (set_rd r (set_sequence s c)).
Proof. intros [? ? ? ? ?]. by split. Qed.

(** The answer of the server goes out in one packet. *)
Lemma answer_sends conf sconf salt fl :
  plainConf conf sconf ->
  Sends fl (if accepted conf sconf salt
            then (flags ← gets statusFlags; WriteOKPacket 0 0 flags 0)
            else WriteErrorPacketFromError (accessDenied (User conf))) [answerOf conf sconf salt fl] tt.
Proof.
  intros Hc. unfold answerOf. destruct (accepted conf sconf salt).
  - apply Sends_gets, okPacket_sends.
  - apply (WriteErrorPacket_sends fl (deniedErr conf)); vm_compute; intuition congruence.
Qed.

Lemma answer_short conf sconf salt fl : plainConf conf sconf -> len (answerOf conf sconf salt fl) < MaxPacketSize.
Proof.
  intros Hc. unfold answerOf. destruct (accepted conf sconf salt).
  - rewrite okBytes_len. vm_compute. congruence.
  - rewrite errBytes_len by done. cbn [Message deniedErr]. rewrite !len_app.
    pose proof (pc_userLen _ _ Hc). change (len (bytes_of "Access denied for user '")) with 24.
    change (len (bytes_of "'")) with 1. unfold MaxPacketSize. lia.
Qed.

Lemma accept_run conf sconf connectionID rnd l cs o1 s1 o2 s2 o3 s3 rest :
  plainConf conf sconf -> len rnd = 20 ->
  let salt := map saltByte rnd in
  live 12 cs -> framed (sequence cs) (greetOf sconf connectionID salt) o1 s1 ->
  framed s1 (respOf conf salt) o2 s2 -> framed s2 (answerOf conf sconf salt (statusFlags cs)) o3 s3 ->
  rd cs = o2 ++ rest ->
  exists cs', accept sconf connectionID (Ok rnd) (fun b => b) (l, cs) =
      (Ok (if accepted conf sconf salt then Some (User conf) else None),
       (afterResponse conf (connCapOf conf) serverCapabilities l, cs')) /\
    sent cs' = sent cs ++ o1 ++ o3 /\ rd cs' = rest /\ live 0 cs'.
Proof.
  intros Hc Hr salt Hl F1 F2 F3 Hrd. pose proof MaxPacketSize_pos.
  assert (Hsalt : len salt = 20) by (by apply saltLen).
  assert (L1 : len (greetOf sconf connectionID salt) < MaxPacketSize).
  { unfold greetOf. rewrite greetBytes_len by done. pose proof (pc_versionLen _ _ Hc). unfold MaxPacketSize. lia. }
  destruct (greet_sends (statusFlags cs) (ServerVersion sconf) connectionID salt Hsalt cs 6 eq_refl ltac:(lia))
    as (c1 & out & E1 & G1 & S1 & V1 & R1 & SF1).
  { fold (greetOf sconf connectionID salt). rewrite short_cost by done. done. }
  destruct (framedAll_det1 _ _ _ _ _ _ F1 G1) as [-> Q1]. rewrite <- Q1 in F2.
  pose proof (respOf_len conf sconf salt Hc) as L2.
  destruct (ReadDirect_framed _ _ _ c1 rest F2) as (c2 & E2 & E3);
    [unfold MaxPacketSize; lia | congruence | apply V1 | apply V1 |].
  set (c3 := set_rd rest (set_sequence s2 c1)) in *.
  assert (V3 : live 6 c3) by (by apply live_moved).
  destruct (answer_sends conf sconf salt (statusFlags cs) Hc c3 0 SF1 ltac:(lia))
    as (c4 & out & E4 & G4 & S4 & V4 & R4 & SF4).
  { rewrite short_cost by (by apply answer_short). done. }
  destruct (framedAll_det1 _ _ _ _ _ _ F3 G4) as [-> Q4].
  exists c4. split_and!; [|rewrite S4, app_assoc, <- S1; done | by rewrite R4 | done].
  pose proof (parse_response conf (connCapOf conf) serverCapabilities
    (scramblePassword salt (Passwd conf)) MysqlNativePassword l (pc_user _ _ Hc) (pc_db _ _ Hc)
    ltac:(vm_compute; intuition congruence) ltac:(done)
    ltac:(pose proof (scramblePassword_len salt (Passwd conf)); lia)
    ltac:(change (len (respOf conf salt) < two63); unfold two63; lia)) as EP.
  set (l' := afterResponse _ _ _ _) in *.
  assert (EH : handshake sconf connectionID (Ok rnd) (fun b => b) (l, cs) =
    (Ok (if accepted conf sconf salt then inl (User conf) else inr (accessDenied (User conf))), (l', c3))).
  { unfold handshake.
    erewrite ST_run by (apply attempt_run; reflexivity). cbn beta iota. fold salt.
    st_step (attempt_run _ _ _ _ (onConn_run _ l _ _ _ E1)).
    st_step (attempt_run _ _ _ _ (onConn_run _ l _ _ _ E2)).
    st_step (onConn_run _ l _ _ _ E3).
    st_step (attempt_run _ _ _ _ (onListener_run _ l c3 _ _ EP)).
    unfold ValidateHash, accepted. destruct (Users sconf !! User conf); [|done].
    by destruct (bool_decide _). }
  unfold accept. rewrite (ST_run _ _ _ _ _ EH). destruct (accepted conf sconf salt).
  all: st_step (attempt_run _ _ _ _ (onConn_run _ l' _ _ _ E4)); done.
Qed.

(** What the driver makes of the server's answer. *)
Lemma handleAuth_answer conf sconf salt fl slice c out seq' rest :
  plainConf conf sconf -> 0 <= fl < 65536 ->
  framed (sequence c) (answerOf conf sconf salt fl) out seq' -> rd c = out ++ rest ->
  handleAuthResult conf slice MysqlNativePassword c =
    (if accepted conf sconf salt then Ok tt else Err (SQLError_Error (deniedErr conf)),
     set_rd rest (set_sequence seq' c)).
Proof.
  intros Hc Hfl Hf Hrd. unfold handleAuthResult, readAuthResult.
  pose proof (ReadPacket_framed _ _ _ _ c rest Hf eq_refl Hrd) as ER.
  unfold mbind at 1, M_bind at 1. rewrite (bind_M_run _ _ _ _ _ ER).
  set (c1 := set_rd rest _). unfold answerOf, parseAuthResult.
  destruct (accepted conf sconf salt).
  - erewrite bind_M_run by reflexivity. change (OKPacket =? OKPacket) with true. cbn iota.
    erewrite bind_M_run by (unfold lift; rewrite ParseOKPacket_bytes by (done || lia); reflexivity).
    done.
  - erewrite bind_M_run by reflexivity. cbn -[parseAndRaise errBytes].
    unfold parseAndRaise. erewrite bind_M_run; [reflexivity|]. unfold lift.
    rewrite ParseErrorPacket_bytes; [done | done | vm_compute; intuition congruence |].
    cbn [Message deniedErr]. rewrite !len_app. pose proof (pc_userLen _ _ Hc).
    change (len (bytes_of "Access denied for user '")) with 24. change (len (bytes_of "'")) with 1.
    unfold two63. lia.
Qed.

Lemma client_run conf sconf connectionID rnd fl cc o1 s1 o2 s2 o3 s3 rest :
  plainConf conf sconf -> len rnd = 20 -> 0 <= connectionID < 4294967296 -> 0 <= fl < 65536 ->
  let salt := map saltByte rnd in
  live 6 cc -> framed (sequence cc) (greetOf sconf connectionID salt) o1 s1 ->
  framed s1 (respOf conf salt) o2 s2 -> framed s2 (answerOf conf sconf salt fl) o3 s3 ->
  rd cc = o1 ++ o3 ++ rest ->
  exists cc' g, clientHandshake conf cc =
      (if accepted conf sconf salt then Ok (g, connCapOf conf) else Err (SQLError_Error (deniedErr conf)), cc') /\
    sent cc' = sent cc ++ o2 /\ rd cc' = rest /\ live 0 cc' /\
    gServerVersion g = ServerVersion sconf /\ gConnectionID g = connectionID /\
    gCapabilities g = serverCapabilities.
Proof.
  intros Hc Hr Hid Hfl salt Hl F1 F2 F3 Hrd.
  assert (Hsalt : len salt = 20) by (by apply saltLen).
  destruct (parse_greeting (ServerVersion sconf) connectionID salt) as (tail & EP);
    [apply Hc | pose proof (pc_versionLen _ _ Hc); unfold two63; lia | done | done |].
  set (g := mkGreeting _ _ _ _ _ _) in EP. fold (greetOf sconf connectionID salt) in EP.
  pose proof (ReadPacket_framed _ _ _ _ cc _ F1 eq_refl Hrd) as E1.
  set (c1 := set_rd (o3 ++ rest) (set_sequence s1 cc)) in *.
  assert (L2 : len (respOf conf salt) < MaxPacketSize)
    by (pose proof (respOf_len conf sconf salt Hc); unfold MaxPacketSize; lia).
  destruct (response_sends (statusFlags cc) conf (connCapOf conf) serverCapabilities
      (scramblePassword salt (Passwd conf)) MysqlNativePassword eq_refl c1 0 eq_refl ltac:(lia))
    as (c2 & out & E2 & G2 & S2 & V2 & R2 & SF2).
  { fold (respOf conf salt). rewrite short_cost by done. by apply live_moved. }
  destruct (framedAll_det1 _ _ _ _ _ _ F2 G2) as [-> Q2]. rewrite <- Q2 in F3.
  pose proof (handleAuth_answer conf sconf salt fl (gSalt g) c2 o3 s3 rest Hc Hfl F3 R2) as E3.
  exists (set_rd rest (set_sequence s3 c2)), g. split_and!; [|done | done | by apply live_moved | done..].
  assert (EG : clientGreet conf cc = (Ok (g, connCapOf conf), c2)).
  { unfold clientGreet. erewrite bind_M_run by (apply wrapErr_Ok, E1).
    erewrite bind_M_run by (unfold lift; rewrite EP; reflexivity).
    erewrite bind_M_run.
    2:{ unfold lift, auth. cbn [gSalt gPlugin g].
        rewrite !bool_decide_false by (vm_compute; congruence). rewrite bool_decide_true by done.
        unfold reslice. cbn [backing].
        destruct (Nat.leb_spec 20 (length (salt ++ tail))) as [_|HX];
          [|rewrite length_app in HX; unfold len in Hsalt; lia].
        rewrite take_app_le by (unfold len in Hsalt; lia).
        rewrite take_ge by (unfold len in Hsalt; lia). reflexivity. }
    erewrite bind_M_run by exact E2. done. }
  unfold clientHandshake. rewrite (bind_M_run _ _ _ _ _ EG). cbn beta iota.
  change (gPlugin g) with MysqlNativePassword. unfold mbind at 1, M_bind at 1. rewrite E3.
  by destruct (accepted conf sconf salt).
Qed.

(** C13: Driver and listener agree on who may connect.  When a driver connects to a
    listener, both finish the handshake on the bytes the other one sends: the
    listener accepts exactly if the user is known and the scramble of the
    driver's password equals the scramble of the configured one, in particular
    whenever the passwords are equal; the driver then reports success, with the
    server's version and connection id, and otherwise the access-denied error.
    The listener has the driver's database and character set. *)
Theorem handshake_agrees conf sconf connectionID rnd l cs cc :
  plainConf conf sconf -> len rnd = 20 -> 0 <= connectionID < 4294967296 ->
  0 <= statusFlags cs < 65536 -> fresh 12 cs -> fresh 6 cc ->
  let salt := map saltByte rnd in
  exists c2s s2c cs' cc' g,
    accept sconf connectionID (Ok rnd) (fun b => b) (l, set_rd c2s cs) =
      (Ok (if accepted conf sconf salt then Some (User conf) else None),
       (afterResponse conf (connCapOf conf) serverCapabilities l, cs')) /\
    sent cs' = sent cs ++ s2c /\ rd cs' = [] /\
    clientHandshake conf (set_rd s2c cc) =
      (if accepted conf sconf salt then Ok (g, connCapOf conf)
       else Err (SQLError_Error (deniedErr conf)), cc') /\
    sent cc' = sent cc ++ c2s /\ rd cc' = [] /\
    gServerVersion g = ServerVersion sconf /\ gConnectionID g = connectionID /\
    (Users sconf !! User conf = Some (Passwd conf) -> accepted conf sconf salt = true).
Proof.
  intros Hc Hr Hid Hfl [Vs Qs] [Vc Qc] salt.
  destruct (framed_exists 0 (greetOf sconf connectionID salt)) as (o1 & s1 & F1).
  destruct (framed_exists s1 (respOf conf salt)) as (o2 & s2 & F2).
  destruct (framed_exists s2 (answerOf conf sconf salt (statusFlags cs))) as (o3 & s3 & F3).
  destruct (accept_run conf sconf connectionID rnd l (set_rd o2 cs) o1 s1 o2 s2 o3 s3 [])
    as (cs' & EA & SA & RA & _); [done | done | by destruct Vs; split | cbn; by rewrite Qs | done | done |
    by rewrite app_nil_r |].
  destruct (client_run conf sconf connectionID rnd (statusFlags cs) (set_rd (o1 ++ o3) cc) o1 s1 o2 s2 o3 s3 [])
    as (cc' & g & EC & SC & RC & _ & G1 & G2 & _); [done | done | done | done | by destruct Vc; split |
    cbn; by rewrite Qc | done | done | by rewrite app_nil_r |].
  exists o2, (o1 ++ o3), cs', cc', g. split_and!; [done..|].
  intros HU. unfold accepted. rewrite HU. by apply bool_decide_true.
Qed.
End response.

(** ** An instance: hashes that add the bytes up *)
Definition checksum (n : nat) (b : bytes) : bytes := replicate n (u8 (foldr Z.add 0 b)).

Definition toy_crypto : Crypto := {|
  sha1 := checksum 20; sha1_len b := ltac:(unfold checksum, len; by rewrite length_replicate);
  sha256 := checksum 32; sha256_len b := ltac:(unfold checksum, len; by rewrite length_replicate);
  rsaKey := unit; encryptOAEP _ b := Ok b; pemDecode _ := None; parsePKIX _ := Ok None |}.

Definition sampleConf : @Config toy_crypto :=
  @mkConfig toy_crypto (bytes_of "root") (bytes_of "secret") (bytes_of "orders") DefaultCollation "tcp" false None
    false false.
Definition sampleServer : MysqlConfig :=
  mkMysqlConfig {[ bytes_of "root" := bytes_of "secret" ]} (bytes_of "8.0.27").

Lemma sample_plain : @plainConf toy_crypto sampleConf sampleServer.
Proof. split; vm_compute; intuition congruence. Qed.

Lemma fresh_NewConn n : fresh (Z.of_nat n) (NewConn [] n).
Proof. by split. Qed.

Lemma handshake_agrees_witness :
  exists c2s s2c cs' cc' g,
    @accept zero_pool toy_crypto sampleServer 7 (Ok (replicate 20 164)) (fun b => b)
      (NewListener, set_rd c2s (NewConn [] 12)) =
      (Ok (Some (bytes_of "root")),
       (mkListener 0 16842752 45 (bytes_of "orders") 0 ∅, cs')) /\
    @clientHandshake zero_pool toy_crypto sampleConf (set_rd s2c (NewConn [] 6)) = (Ok (g, 16777216), cc') /\
    gConnectionID g = 7.
Proof.
  destruct (@handshake_agrees zero_pool toy_crypto sampleConf sampleServer 7 (replicate 20 164) NewListener
    (NewConn [] 12) (NewConn [] 6) sample_plain eq_refl ltac:(lia) ltac:(vm_compute; intuition congruence)
    (fresh_NewConn 12) (fresh_NewConn 6)) as (c2s & s2c & cs' & cc' & g & EA & _ & _ & EC & _ & _ & _ & EI & HA).
  rewrite HA in EA, EC by (vm_compute; reflexivity).
  exists c2s, s2c, cs', cc', g. split; [exact EA|]. split; [exact EC | exact EI].
Defined.

(** ** The salt *)

(** A salt is 20 bytes of ASCII without NUL or a dollar sign, whatever the
    random bytes are, so it survives as a NUL-terminated string. *)
Theorem newSalt_legal rnd salt :
  newSalt (Ok rnd) = Ok salt -> Forall is_byte rnd ->
  length salt = length rnd /\ Forall (fun b => 0 < b < 128 /\ b <> 36) salt.
Proof.
  intros [= <-] Hb. split; [apply length_map|]. induction Hb as [|b rnd Hb _ IH]; cbn; [done|].
  constructor; [|exact IH]. unfold saltByte. change 127 with (Z.ones 7). rewrite Z.land_ones by lia.
  change (2 ^ 7) with 128. pose proof (Z.mod_pos_bound b 128 ltac:(lia)).
  destruct (Z.eqb_spec (b mod 128) 0) as [->|]; [done|]. cbn [orb].
  destruct (Z.eqb_spec (b mod 128) 36) as [->|]; [done|]. lia.
Qed.

Lemma newSalt_legal_witness :
  newSalt (Ok [0; 36; 128; 200]) = Ok [1; 37; 1; 72] /\
  Forall (fun b => 0 < b < 128 /\ b <> 36) [1; 37; 1; 72].
Proof.
  split; [reflexivity|].
  exact (proj2 (newSalt_legal [0; 36; 128; 200] [1; 37; 1; 72] eq_refl
           ltac:(repeat constructor; vm_compute; congruence))).
Defined.

(** ** The scramble of the method before 4.1 *)
Definition seeded (r : myRnd) : Prop := 0 <= seed1 r < myRndMaxVal /\ 0 <= seed2 r < myRndMaxVal.

(** The generator stays below its modulus and no 32-bit operation of it wraps. *)
Lemma NextByte_seeded r b r' :
  seeded r -> NextByte r = (b, r') ->
  seeded r' /\ 0 <= b <= 30 /\
  seed1 r' = (seed1 r * 3 + seed2 r) mod myRndMaxVal /\ seed2 r' = (seed1 r' + seed2 r + 33) mod myRndMaxVal.
Proof.
  unfold seeded, NextByte, u32, u8, two8, myRndMaxVal. intros [? ?] [= <- <-]. cbn [seed1 seed2].
  rewrite (Z.mod_small (seed1 r * 3) 4294967296) by lia.
  rewrite (Z.mod_small (seed1 r * 3 + seed2 r) 4294967296) by lia.
  set (s1 := (seed1 r * 3 + seed2 r) mod 1073741823).
  assert (0 <= s1 < 1073741823) by (apply Z.mod_pos_bound; lia).
  rewrite (Z.mod_small (s1 + seed2 r + 33) 4294967296) by lia.
  assert (0 <= s1 * 31 / 1073741823 <= 30).
  { split; [apply Z.div_pos; lia|]. assert (s1 * 31 / 1073741823 < 31) by (apply Z.div_lt_upper_bound; lia). lia. }
  rewrite (Z.mod_small _ 256) by lia. split_and!; try lia; try done; apply Z.mod_pos_bound; lia.
Qed.

Lemma nextBytes_range n : forall r bs r', seeded r -> nextBytes n r = (bs, r') ->
  seeded r' /\ length bs = n /\ Forall (fun b => 64 <= b <= 94) bs.
Proof.
  induction n as [|n IH]; cbn [nextBytes]; intros r bs r' Hs E.
  - injection E as <- <-. split_and!; [apply Hs.. | done | done].
  - destruct (NextByte r) as [b r1] eqn:E1. destruct (nextBytes n r1) as [bs1 r2] eqn:E2.
    injection E as <- <-. destruct (NextByte_seeded _ _ _ Hs E1) as (Hs1 & Hb & _).
    destruct (IH _ _ _ Hs1 E2) as (? & <- & ?). split_and!; [apply H.. | done |].
    constructor; [|done]. unfold u8, two8. rewrite Z.mod_small by lia. lia.
Qed.

Lemma newMyRnd_seeded a b : seeded (newMyRnd a b).
Proof. unfold seeded, newMyRnd, myRndMaxVal. split; apply Z.mod_pos_bound; lia. Qed.

(** The scramble of the old method is eight bytes between 64 and 95, whatever
    salt and password are, so the NUL the driver appends ends it. *)
Theorem scrambleOldPassword_range scramble password :
  let out := scrambleOldPassword scramble password in
  length out = 8%nat /\ Forall (fun b => 64 <= b <= 95) out.
Proof.
  cbn zeta. unfold scrambleOldPassword. destruct (pwHash password) as [p0 p1].
  destruct (pwHash (take 8 scramble)) as [s0 s1].
  destruct (nextBytes 8 _) as [out r] eqn:E.
  destruct (nextBytes_range _ _ _ _ (newMyRnd_seeded _ _) E) as (Hr & Hlen & Hout).
  destruct (NextByte r) as [mask r'] eqn:EM. destruct (NextByte_seeded _ _ _ Hr EM) as (_ & Hm & _).
  cbn [fst]. split; [by rewrite length_map|].
  assert (Hall : forallb (fun m => forallb (fun b => (64 <=? Z.lxor b m) && (Z.lxor b m <=? 95))
            (upto 64 95)) (upto 0 31) = true) by (vm_compute; reflexivity).
  rewrite forallb_forall in Hall. specialize (Hall mask ltac:(apply upto_In; lia)).
  rewrite forallb_forall in Hall. rewrite List.Forall_forall. intros x (b & <- & Hb)%in_map_iff.
  rewrite List.Forall_forall in Hout. specialize (Hall b ltac:(apply upto_In; specialize (Hout b Hb); lia)).
  zbool. lia.
Qed.

(** ** Connection attributes *)
Lemma ReadByte_at data pos :
  0 <= pos -> ReadByte data pos = Ok None \/ exists b, ReadByte data pos = Ok (Some (b, pos + 1)) /\
    pos < len data /\ In b data.
Proof.
  intros Hp. unfold ReadByte. destruct (Z.leb_spec (len data) pos); [by left|]. right.
  unfold get. destruct (Z.leb_spec 0 pos); [|lia].
  destruct (data !! Z.to_nat pos) as [b|] eqn:E.
  - exists b. split_and!; [done | done |]. apply list_elem_of_In. by eapply list_elem_of_lookup_2.
  - apply lookup_ge_None in E. unfold len in *. lia.
Qed.

Lemma ReadBytesCopy_at data pos n :
  0 <= pos <= len data -> 0 <= n < 256 -> len data < two63 - 256 ->
  ReadBytesCopy data pos n = Ok None \/ exists s, ReadBytesCopy data pos n = Ok (Some (s, pos + n)) /\
    pos + n <= len data.
Proof.
  intros Hp Hn Hl. unfold ReadBytesCopy. rewrite !i64_id by (unfold in_i64; unfold two63 in *; lia).
  destruct (Z.leb_spec (len data) (pos + n - 1)); [by left|]. right.
  destruct (Z.ltb_spec n 0); [lia|]. unfold slice.
  destruct (_ && _) eqn:E; [|zbool; lia]. eexists. split; [done | lia].
Qed.

(** The loop over the attributes ends within its fuel and never panics. *)
Lemma connAttrsLoop_safe data : Forall is_byte data -> len data < two63 - 256 ->
  forall fuel pos attrLen attrLenRead attrs,
  0 <= pos <= len data -> (Z.to_nat (len data - pos) < fuel)%nat ->
  connAttrsLoop fuel data pos attrLen attrLenRead attrs <> Panic.
Proof.
  intros Hb Hl. assert (Hbyte : forall b, In b data -> 0 <= b < 256).
  { intros b Hin. rewrite List.Forall_forall in Hb. by apply Hb. }
  induction fuel as [|fuel IH]; intros pos attrLen attrLenRead attrs Hp Hf; [lia|].
  cbn [connAttrsLoop]. destruct (_ <? _); [|done]. unfold need.
  destruct (ReadByte_at data pos) as [->|(k & -> & Hk & Ik)]; [lia | done |]. cbn [mbind res_bind].
  destruct (ReadBytesCopy_at data (pos + 1) k) as [->|(key & -> & Hk2)]; [lia | auto | done | done |].
  cbn [mbind res_bind].
  specialize (Hbyte k Ik) as Hk3.
  destruct (ReadByte_at data (pos + 1 + k)) as [->|(v & -> & Hv & Iv)]; [lia | done |]. cbn [mbind res_bind].
  destruct (ReadBytesCopy_at data (pos + 1 + k + 1) v) as [->|(val & -> & Hv2)]; [lia | auto | done | done |].
  cbn [mbind res_bind]. specialize (Hbyte v Iv). apply IH; lia.
Qed.

(** Connection attributes from the network are read without panic and without
    running on: whatever bytes follow, [parseConnAttrs] returns attributes or an
    error. *)
Theorem parseConnAttrs_safe data pos :
  Forall is_byte data -> len data < two63 - 256 -> 0 <= pos <= len data -> parseConnAttrs data pos <> Panic.
Proof.
  intros Hb Hl Hp. unfold parseConnAttrs, need.
  destruct (ReadLenEncInt_spec data pos ltac:(lia) Hb) as ([[v p]|] & -> & Hr); [|done].
  cbn [mbind res_bind]. destruct (Hr v p eq_refl). apply connAttrsLoop_safe; [done | done | lia |].
  unfold len in *. lia.
Qed.

Lemma parseConnAttrs_safe_witness :
  parseConnAttrs [6; 1; 97; 1; 98; 0; 0] 0 <> Panic /\
  parseConnAttrs [6; 1; 97; 1; 98; 0; 0] 0 = Ok ({[ [97] := [98]; [] := [] ]}, 7).
Proof.
  split; [|vm_compute; reflexivity].
  apply (parseConnAttrs_safe [6; 1; 97; 1; 98; 0; 0] 0); [|vm_compute; congruence | vm_compute; intuition congruence].
  repeat constructor; vm_compute; congruence.
Defined.

(** ** Short responses *)

(** The reserved bytes are skipped without a look at the length: a response
    that ends inside them panics instead of being refused.  The connection is
    closed without an answer. *)
Theorem short_response_panics data l flags :
  Forall is_byte data -> 9 <= len data < 32 -> ReadUint32 data 0 = Ok (Some (flags, 4)) ->
  hasFlag flags CapabilityClientProtocol41 = true ->
  fst (parseClientHandshakePacket true data l) = Panic.
Proof.
  intros Hb Hlen Hf Hflag. unfold parseClientHandshakePacket, need. rewrite Hf.
  erewrite ST_run by reflexivity. cbn beta iota. rewrite Hflag. cbn [negb]. cbn iota.
  erewrite ST_run by reflexivity. erewrite ST_run by reflexivity.
  assert (R4 : exists v, ReadUint32 data 4 = Ok (Some (v, 8))).
  { unfold ReadUint32, readUint. destruct (Z.leb_spec (len data) (4 + (4 - 1))); [lia|].
    unfold slice. destruct (_ && _) eqn:E; [by eexists | zbool; lia]. }
  destruct R4 as (v & ->). erewrite ST_run by reflexivity. cbn beta iota.
  destruct (ReadByte_at data 8 ltac:(lia)) as [E|(b & E & _)].
  { unfold ReadByte in E. destruct (Z.leb_spec (len data) 8); [lia|]. by destruct (get data 8). }
  rewrite E. erewrite ST_run by reflexivity. cbn beta iota. erewrite ST_run by reflexivity.
  unfold ReadNullString, slice. destruct (_ && _) eqn:EB; [zbool; lia | done].
Qed.

Lemma short_response_panics_witness :
  fst (parseClientHandshakePacket true ([0; 2; 0; 0] ++ replicate 8 0) NewListener) = Panic.
Proof.
  apply (short_response_panics ([0; 2; 0; 0] ++ replicate 8 0) NewListener 512);
    [repeat constructor; vm_compute; congruence | vm_compute; intuition congruence | reflexivity | reflexivity].
Defined.

(** ** Databases of servers without CLIENT_CONNECT_WITH_DB *)

(** Reading does not touch the ephemeral buffer. *)
Definition keepsPolicy {A} (m : M A) : Prop := forall c, policy (snd (m c)) = policy c.

Lemma keepsPolicy_bind {A B} (m : M A) (f : A -> M B) :
  keepsPolicy m -> (forall a, keepsPolicy (f a)) -> keepsPolicy (m ≫= f).
Proof.
  intros Hm Hf c. specialize (Hm c). unfold mbind, M_bind.
  destruct (m c) as [[a|e|] c1]; cbn [snd] in Hm |- *; [by rewrite Hf | exact Hm | exact Hm].
Qed.

Lemma keepsPolicy_wrap {A} f (m : M A) : keepsPolicy m -> keepsPolicy (wrapErr f m).
Proof. intros Hm c. specialize (Hm c). unfold wrapErr. by destruct (m c) as [[a|e|] c1]. Qed.

Lemma ReadFull_keeps n : keepsPolicy (ReadFull n).
Proof. intros c. unfold ReadFull. by destruct (_ <=? _)%nat. Qed.

Lemma ReadOnePacket_keeps : keepsPolicy ReadOnePacket.
Proof.
  unfold ReadOnePacket, readHeaderFrom, readBody.
  repeat (apply keepsPolicy_bind; [|intros]); repeat case_match;
    try (apply keepsPolicy_wrap, ReadFull_keeps); try (by intros c).
Qed.

Lemma readMore_keeps fuel : forall data, keepsPolicy (readMore fuel data).
Proof.
  induction fuel as [|f IH]; intros data; cbn [readMore]; [by intros c|].
  apply keepsPolicy_bind; [apply ReadOnePacket_keeps|]. intros next.
  repeat case_match; try (by intros c). apply IH.
Qed.

Lemma ReadPacket_keeps : keepsPolicy ReadPacket.
Proof.
  apply keepsPolicy_bind; [apply ReadOnePacket_keeps|]. intros data.
  case_match; [by intros c|]. intros c. apply readMore_keeps.
Qed.

(** A command of the driver is its code and its text. *)
Lemma command_sends `{BufPool} fl code text :
  Sends fl (serverGone (sendPacket (len text + 1) [fun d p => WriteByte d p code; writeCopy text]))
    [code :: text] tt.
Proof.
  assert (HS : Sends fl (sendPacket (len text + 1) [fun d p => WriteByte d p code; writeCopy text])
                 [[code] ++ text ++ []] tt).
  { apply sendPacket_sends; [repeat (apply Writes_cons; [apply _|]); apply Writes_nil|].
    rewrite !len_app, len_singleton. change (len []) with 0. lia. }
  rewrite app_nil_r in HS. intros c n Hfl Hn Hl.
  destruct (HS c n Hfl Hn Hl) as (c' & out & E & Hr). exists c', out. split; [by apply wrapErr_Ok | done].
Qed.

(** Selecting the database after the handshake never succeeds: the response is
    read by [ReadPacket], which takes no ephemeral buffer, and
    [RecycleReadPacket] panics on it, whatever the server answers. *)
Theorem init_db_panics `{BufPool} `{Crypto} conf c :
  live (cost [2 :: DBName conf]) c -> len (DBName conf) < two63 -> exists c', initDB conf c = (Panic, c').
Proof.
  intros Hl Hlen. unfold initDB, WriteComInitDB, command.
  destruct (command_sends (statusFlags c) 2 (DBName conf) (set_sequence 0 c) 0 eq_refl ltac:(lia)) as (c1 & out & E & _ & _ & V & _).
  { rewrite Z.add_0_r. by destruct Hl; split. }
  erewrite bind_M_run.
  2:{ erewrite bind_M_run by reflexivity. exact E. }
  pose proof (ReadPacket_keeps c1) as HP. destruct (ReadPacket c1) as [r c2] eqn:ER. cbn [snd] in HP.
  rewrite (live_policy _ _ V) in HP. unfold mbind, M_bind. rewrite ER. unfold RecycleReadPacket.
  erewrite bind_M_run by reflexivity. rewrite HP. by exists c2.
Qed.

Lemma init_db_panics_witness :
  exists c', @initDB zero_pool toy_crypto sampleConf (NewConn (okBytes 0 0 0 2 0) 6) = (Panic, c').
Proof.
  apply (@init_db_panics zero_pool toy_crypto sampleConf (NewConn (okBytes 0 0 0 2 0) 6));
    [split; try done; vm_compute; congruence | vm_compute; reflexivity].
Defined.

(** ** Switching the method *)
Definition switchRequest (plugin salt : bytes) : bytes := [EOFPacket] ++ (plugin ++ [0]) ++ salt ++ [0].

Lemma IndexByte_switch plugin salt :
  ~ In 0 plugin -> IndexByte (switchRequest plugin salt) 0 = Some (S (length plugin)).
Proof.
  intros Hp. unfold switchRequest. change ([EOFPacket] ++ ?x) with (EOFPacket :: x).
  cbn [IndexByte]. change (EOFPacket =? 0) with false. cbn iota.
  rewrite <- app_assoc. change ([0] ++ ?x) with (0 :: x). by rewrite IndexByte_app.
Qed.

Lemma parseAuthResult_switch `{Crypto} plugin salt c :
  ~ In 0 plugin ->
  parseAuthResult (switchRequest plugin salt) c =
    (Ok (Some (mkSlice (salt ++ [0]) (S (length salt))), plugin), c).
Proof.
  intros Hp. unfold parseAuthResult. erewrite bind_M_run by reflexivity.
  change (EOFPacket =? OKPacket) with false. change (EOFPacket =? 1) with false.
  change (EOFPacket =? EOFPacket) with true. cbn iota.
  pose proof (len_nonneg plugin); pose proof (len_nonneg salt).
  assert (HL : len (switchRequest plugin salt) = 3 + len plugin + len salt)
    by (unfold switchRequest; rewrite !len_app, !len_singleton; lia).
  destruct (Z.eqb_spec (len (switchRequest plugin salt)) 1); [lia|].
  rewrite IndexByte_switch by done.
  pose proof (slice_mid [EOFPacket] plugin ([0] ++ salt ++ [0])) as S1.
  pose proof (slice_mid ([EOFPacket] ++ plugin ++ [0]) (salt ++ [0]) []) as S2.
  rewrite app_nil_r in S2. rewrite !len_app, !len_singleton in S2. rewrite len_singleton in S1.
  assert (E : switchRequest plugin salt = [EOFPacket] ++ plugin ++ [0] ++ salt ++ [0])
    by (unfold switchRequest; by rewrite <- app_assoc).
  erewrite bind_M_run.
  2:{ unfold lift. rewrite E. replace (Z.of_nat (S (length plugin))) with (1 + len plugin) by (unfold len; lia).
      rewrite S1. reflexivity. }
  erewrite bind_M_run.
  2:{ unfold lift. rewrite HL, E.
      replace (Z.of_nat (S (length plugin)) + 1) with (1 + (len plugin + 1)) by (unfold len; lia).
      replace (3 + len plugin + len salt) with (1 + (len plugin + 1) + (len salt + 1)) by lia.
      rewrite <- !app_assoc in S2. rewrite S2. reflexivity. }
  unfold mret, M_ret. rewrite length_app. cbn [length]. by rewrite Nat.add_1_r.
Qed.

(** A server may ask for another method once, with a new salt.  Asked for
    mysql_native_password the driver answers with the scramble of the new salt,
    and for caching_sha2_password with a scramble of the salt {e and} the NUL
    that ends it in the request, a byte the parser of the greeting strips. *)
Theorem auth_switch `{Crypto} conf old plugin0 native salt c out seq' rest n :
  let plugin := if native : bool then MysqlNativePassword else bytes_of "caching_sha2_password" in
  let answer := if native then scramblePassword salt (Passwd conf)
                else scrambleSHA256Password (salt ++ [0]) (Passwd conf) in
  len salt = 20 -> 0 <= n -> live (cost [answer] + n) c ->
  framed (sequence c) (switchRequest plugin salt) out seq' -> rd c = out ++ rest ->
  exists c1 o1, framed seq' answer o1 (sequence c1) /\ sent c1 = sent c ++ o1 /\ rd c1 = rest /\ live n c1 /\
    handleAuthResult conf old plugin0 c =
      (_r ← readAuthResult;
       if negb (bool_decide (snd _r = [])) then raise ErrMalformedPkt
       else finishAuth conf (content (copyInto old (salt ++ [0]))) plugin (fst _r)) c1.
Proof.
  intros plugin answer Hs Hn Hl Hf Hrd.
  assert (Hp : ~ In 0 plugin) by (unfold plugin; destruct native; vm_compute; intuition congruence).
  pose proof (ReadPacket_framed _ _ _ _ c rest Hf eq_refl Hrd) as ER.
  set (c0 := set_rd rest (set_sequence seq' c)) in *.
  destruct (Sends_WritePacket (statusFlags c) answer c0 n eq_refl Hn) as (c1 & o1 & E1 & G1 & S1 & V1 & R1 & _).
  { by apply live_moved. }
  exists c1, o1. split_and!; [by apply framedAll_one | done | done | done |].
  assert (EQ : readAuthResult c = (Ok (Some (mkSlice (salt ++ [0]) (S (length salt))), plugin), c0)).
  { unfold readAuthResult. rewrite (bind_M_run _ _ _ _ _ ER). by apply parseAuthResult_switch. }
  unfold handleAuthResult. rewrite (bind_M_run _ _ _ _ _ EQ).
  cbn beta iota. rewrite bool_decide_false by (unfold plugin; by destruct native).
  assert (Ec : content (mkSlice (salt ++ [0]) (S (length salt))) = salt ++ [0]).
  { unfold content. cbn [slen backing]. apply take_ge. rewrite length_app. cbn. lia. }
  rewrite Ec.
  assert (EA : auth conf (mkSlice (salt ++ [0]) (S (length salt))) plugin = Ok answer).
  { unfold auth, plugin, answer. destruct native.
    - rewrite !bool_decide_false by (vm_compute; congruence). rewrite bool_decide_true by done.
      unfold reslice. cbn [backing]. unfold len in Hs.
      destruct (Nat.leb_spec 20 (length (salt ++ [0]))) as [_|HX]; [|rewrite length_app in HX; lia].
      rewrite take_app_le by lia. by rewrite take_ge by lia.
    - rewrite bool_decide_true by done. by rewrite Ec. }
  erewrite bind_M_run by (unfold lift; by rewrite EA).
  rewrite (bind_M_run _ _ _ _ _ E1).
  unfold mbind, M_bind. destruct (readAuthResult c1) as [[[d p]|e|] c2]; done.
Qed.

(** ** The buffer of the response *)

(** The response is parsed after its buffer went back to the pool.  A buffer
    that was handed out and filled with zeros in between is refused, whatever
    the client had sent. *)
Theorem recycled_response_refused (data : bytes) l :
  4 <= len data < two63 ->
  parseClientHandshakePacket true (replicate (length data) 0) l =
    (Err "parseClientHandshakePacket: only support protocol 4.1", l).
Proof.
  intros [Hl Hm]. unfold parseClientHandshakePacket, need.
  assert (E : replicate (length data) 0 = [] ++ le 4 0 ++ replicate (length data - 4) 0).
  { unfold len in Hl. change (le 4 0) with (replicate 4 0). cbn [app]. rewrite <- replicate_add. f_equal. lia. }
  assert (R : ReadUint32 (replicate (length data) 0) 0 = Ok (Some (0, 4))).
  { rewrite E. apply (Reads_Uint32 0 ltac:(lia) []). rewrite <- E. unfold len in *.
    by rewrite length_replicate. }
  by rewrite R.
Qed.

Lemma recycled_response_refused_witness :
  parseClientHandshakePacket true [0; 0; 0; 0; 0] NewListener =
    (Err "parseClientHandshakePacket: only support protocol 4.1", NewListener).
Proof. apply (recycled_response_refused [1; 2; 3; 4; 5] NewListener). vm_compute. intuition congruence. Defined.
