(* ===== verification/Listener.v ===== *)
(** * Commands of a client: [ExecuteCommand] and the loop of [handle] in
    [pkg/listener/mysql.go]

    A command runs on the state of the listener, which all connections share,
    the connection it came from and the executor.  The executor is the class
    [Executor] of [proto.Executor]'s methods, the SQL parser the class [Parser].
    An error of [ExecuteCommand] ends the connection; errors an executor
    reports are answered with an error packet. *)
From Stdlib Require Import ZArith Lia List.
From stdpp Require Import base gmap list strings.
From S2P Require Import Prelude GoText Encoding Layout Conn Packets PacketSpec GoTime DateTime Rows Stmt Collations Handshake.

Local Open Scope Z_scope.

Definition ServerStatusInTrans : Z := 1.
Definition ERUnknownComError : Z := 1047.
Definition SSUnknownComError : bytes := bytes_of "08S01".

Definition ComQuit : Z := 1.
Definition ComInitDB : Z := 2.
Definition ComQuery : Z := 3.
Definition ComFieldList : Z := 4.
Definition ComPing : Z := 14.
Definition ComPrepare : Z := 22.
Definition ComStmtExecute : Z := 23.
Definition ComStmtSendLongData : Z := 24.
Definition ComStmtClose : Z := 25.
Definition ComStmtReset : Z := 26.
Definition ComSetOption : Z := 27.
Definition ComResetConnection : Z := 31.

(** What [handle] puts into the context of a command. *)
Record context := mkContext {
  ctxConnection : Z; ctxUser : bytes; ctxRemote : bytes; ctxSchema : bytes }.

(** A [*mysql.Result]. *)
Record queryResult := mkQueryResult {
  resFields : list Field; resAffected : Z; resInsertId : Z; resRows : list anyRow }.

Class Parser := {
  (** [parser.New().ParseOneStmt] and the visit of the parameters *)
  StmtNode : Type;
  ParseOneStmt : bytes -> res StmtNode }.

Section executor.
Context `{Parser}.

Class Executor (S : Type) := {
  ConnectionClose : Z -> S -> S;
  ExecuteUseDB : context -> bytes -> S -> option string * S;
  ExecutorComQuery : context -> StmtNode -> bytes -> S -> (option queryResult * Z + goError) * S;
  ExecutorComStmtExecute : context -> Stmt -> S -> (option queryResult * Z + goError) * S;
  ExecuteFieldList : context -> bytes -> bytes -> S -> (list Field + goError) * S;
  InLocalTransaction : Z -> S -> bool }.

Context `{BufPool} {X : Type} `{Executor X}.

(** Listener, connection and executor. *)
Definition server : Type := Listener * conn * X.

Definition net {A} (m : M A) : ST server A := fun '(l, c, x) => let '(r, c') := m c in (r, (l, c', x)).
Definition getL {A} (f : Listener -> A) : ST server A := fun '(l, c, x) => (Ok (f l), (l, c, x)).
Definition putL (f : Listener -> Listener) : ST server unit := fun '(l, c, x) => (Ok tt, (f l, c, x)).
Definition exec {A} (f : X -> A * X) : ST server A := fun '(l, c, x) => let '(a, x') := f x in (Ok a, (l, c, x')).
Definition fail {A} (e : string) : ST server A := fun s => (Err e, s).
Definition crash {A} : ST server A := fun s => (Panic, s).

(** [defer d; m]: a panic of [m] is not caught here, and a panic of [d]
    replaces the result. *)
Definition finally {A} (d : ST server unit) (m : ST server A) : ST server A := fun s =>
  let '(r, s') := m s in
  match d s' with
  | (Panic, s'') => (Panic, s'')
  | (_, s'') => (r, s'')
  end.

Definition writeOK (affected insertID flags warnings : Z) : ST server unit :=
  net (WriteOKPacket affected insertID flags warnings).

(** [WriteOKPacket(0, 0, c.StatusFlags(), 0)] *)
Definition plainOK : ST server unit := net (flags ← gets statusFlags; WriteOKPacket 0 0 flags 0).

(** The flags of an OK packet: [ServerStatusInTrans] in a local transaction. *)
Definition okFlags (ctx : context) : ST server Z := fun '(l, c, x) =>
  (Ok (if InLocalTransaction (ctxConnection ctx) x then Z.lor (statusFlags c) ServerStatusInTrans
       else statusFlags c), (l, c, x)).

(** The answer to a query or an execution. *)
Definition writeResult (ctx : context) (result : option queryResult) (warn : Z) : ST server unit :=
  let endResult := cap ← getL capabilities; net (WriteEndResult cap false 0 0 warn) in
  match result with
  | Some rlt =>
    match resFields rlt with
    | [] => flag ← okFlags ctx; writeOK (resAffected rlt) (resInsertId rlt) flag warn
    | fields =>
      cap ← getL capabilities;
      _ ← net (WriteFields cap fields);
      _ ← net (WriteRows fields (resRows rlt));
      endResult
    end
  | None => endResult
  end.

Definition answer (ctx : context) (r : option queryResult * Z + goError) : ST server unit :=
  match r with
  | inr e => net (WriteErrorPacketFromError e)
  | inl (result, warn) => writeResult ctx result warn
  end.

(** [c.StartWriterBuffering(); defer c.EndWriterBuffering()] around a body. *)
Definition buffered {A} (m : ST server A) : ST server A :=
  _ ← net StartWriterBuffering;
  finally (net EndWriterBuffering) m.

Definition rest (data : bytes) : ST server bytes := liftST (slice data 1 (len data)).

Definition handleQuery (ctx : context) (data : bytes) : ST server unit :=
  buffered (
    query ← rest data;
    _ ← net RecycleReadPacket;
    match ParseOneStmt query with
    | Err e => net (WriteErrorPacketFromError (OtherErr (bytes_of e)))
    | Panic => crash
    | Ok stmt => r ← exec (ExecutorComQuery ctx stmt query); answer ctx r
    end).

(** A new field list has length zero, so storing the first field panics. *)
Definition handleFieldList (ctx : context) (data : bytes) : ST server unit :=
  match IndexByte data 0 with
  | None => crash  (* data[0:-1] *)
  | Some index =>
    table ← liftST (slice data 0 (Z.of_nat index));
    wildcard ← liftST (slice data (Z.of_nat index + 1) (len data));
    _ ← net RecycleReadPacket;
    r ← exec (ExecuteFieldList ctx table wildcard);
    fields ← (match r with
              | inr e => _ ← net (WriteErrorPacketFromError e); mret []
              | inl fields => mret fields
              end);
    match fields with
    | [] => cap ← getL capabilities; net (WriteFields cap [])
    | _ => crash
    end
  end.

(** [strings.Count(query, "?")] *)
Definition countMarks (query : bytes) : Z := len (filter (fun b => b = 63) query).

(** [l.statementID.Inc()] and [l.statementID.Load()] are two atomic steps. *)
Definition incStatementID : ST server unit := putL (fun l => set_statementID (u32 (statementID l + 1)) l).

Definition storeStmt (query : bytes) : ST server unit :=
  id ← getL statementID;
  match ParseOneStmt query with
  | Err e => _ ← net (WriteErrorPacketFromError (OtherErr (bytes_of e))); crash  (* act.Accept on nil *)
  | Panic => crash
  | Ok _ =>
    let paramsCount := countMarks query mod 65536 in
    let stmt := mkStmt id query paramsCount (replicate (Z.to_nat paramsCount) 0) ∅ in
    _ ← putL (fun l => set_stmts (<[id := stmt]> (stmts l)) l);
    cap ← getL capabilities;
    net (WritePrepare cap id paramsCount)
  end.

Definition handlePrepare (data : bytes) : ST server unit :=
  query ← rest data;
  _ ← net RecycleReadPacket;
  _ ← incStatementID;
  storeStmt query.

(** A statement that is gone makes the type assertion panic. *)
Definition needStmt (id : Z) : ST server Stmt :=
  ss ← getL stmts;
  match ss !! id with Some s => mret s | None => crash end.

Definition resetVars (id : Z) : ST server unit :=
  s ← needStmt id;
  putL (fun l => set_stmts (<[id := set_vars ∅ s]> (stmts l)) l).

Definition handleExecute (ctx : context) (data : bytes) : ST server unit :=
  buffered (
    ss ← getL stmts;
    let '(stmtID, r, ss') := ParseComStmtExecute ss data in
    _ ← putL (set_stmts ss');
    match r with
    | Panic => crash
    | _ =>
      _ ← net RecycleReadPacket;
      finally (if negb (stmtID =? 0) then resetVars stmtID else mret tt)
        (match r with
         | Ok _ =>
           stmt ← needStmt stmtID;
           r ← exec (ExecutorComStmtExecute ctx stmt);
           answer ctx r
         | Err e => net (WriteErrorPacketFromError (SQLErr (stmtSQLError e)))
         | Panic => crash
         end)
    end).

(** [l.stmts.Load(stmtID)] with an [int] where the keys are [uint32]: no entry
    is ever found. *)
Definition handleSendLongData (data : bytes) : ST server unit :=
  if len data <? 6 then fail ErrMalformedPkt
  else
    id ← liftST (slice data 0 4);
    fail ("statement not found, statement id: " +:+ FormatInt (unle id)).

Definition unknownCom : ST server unit :=
  net (WriteErrorPacket ERUnknownComError SSUnknownComError (bytes_of "error handling packet")).

Definition handleSetOption (data : bytes) : ST server unit :=
  op ← liftST (ReadUint16 data 1);
  _ ← net RecycleReadPacket;
  match op with
  | Some (operation, _) =>
    _ ← (if operation =? 0
         then putL (fun l => set_capabilities (Z.lor (capabilities l) CapabilityClientMultiStatements) l)
         else if operation =? 1
         then putL (fun l => set_capabilities (Z.ldiff (capabilities l) CapabilityClientMultiStatements) l)
         else unknownCom);
    cap ← getL capabilities;
    net (WriteEndResult cap false 0 0 0)
  | None => unknownCom
  end.

Definition ExecuteCommand (ctx : context) (data : bytes) : ST server unit :=
  commandType ← liftST (get data 0);
  if commandType =? ComQuit then
    _ ← net RecycleReadPacket;
    _ ← exec (fun x => (tt, ConnectionClose (ctxConnection ctx) x));
    fail "ComQuit"
  else if commandType =? ComInitDB then
    db ← rest data;
    _ ← net RecycleReadPacket;
    _ ← putL (set_schemaName db);
    err ← exec (ExecuteUseDB ctx db);
    match err with Some e => fail e | None => plainOK end
  else if commandType =? ComQuery then handleQuery ctx data
  else if commandType =? ComPing then _ ← net RecycleReadPacket; plainOK
  else if commandType =? ComFieldList then handleFieldList ctx data
  else if commandType =? ComPrepare then handlePrepare data
  else if commandType =? ComStmtExecute then handleExecute ctx data
  else if commandType =? ComStmtClose then
    id ← liftST (ReadUint32 data 1);
    _ ← net RecycleReadPacket;
    match id with
    | Some (stmtID, _) => putL (fun l => set_stmts (delete stmtID (stmts l)) l)
    | None => mret tt
    end
  else if commandType =? ComStmtSendLongData then handleSendLongData data
  else if commandType =? ComStmtReset then
    id ← liftST (ReadUint32 data 1);
    _ ← net RecycleReadPacket;
    _ ← (match id with Some (stmtID, _) => resetVars stmtID | None => mret tt end);
    plainOK
  else if commandType =? ComSetOption then handleSetOption data
  else if commandType =? ComResetConnection then _ ← net RecycleReadPacket; plainOK
  else mret tt.

(** One turn of the loop of [handle]. *)
Definition serveOne (connID : Z) (user remote : bytes) : ST server unit :=
  _ ← net ResetSequence;
  data ← (fun '(l, c, x) =>
            match ReadEphemeralPacket c with
            | (Err e, c') => (* c.RecycleReadPacket(); return *)
              let '(r, c'') := RecycleReadPacket c' in
              (match r with Panic => Panic | _ => Err e end, (l, c'', x))
            | (r, c') => (r, (l, c', x))
            end);
  schema ← getL schemaName;
  ExecuteCommand (mkContext connID user remote schema) data.

(** The turns until an error or a panic: every turn consumes a packet. *)
Fixpoint serve (fuel : nat) (connID : Z) (user remote : bytes) : ST server unit :=
  match fuel with
  | O => fun s => (Ok tt, s)
  | S f => _ ← serveOne connID user remote; serve f connID user remote
  end.

(** The deferred end of [handle]: recover, close, and tell the executor, with
    the number of the connection accepted last. *)
Definition finish : ST server unit := fun '(l, c, x) =>
  (Ok tt, (l, c, ConnectionClose (connectionID l) x)).

Definition handleConn (fuel : nat) (connID : Z) (user remote : bytes) : ST server unit := fun s =>
  let '(_, s') := serve fuel connID user remote s in finish s'.
End executor.
