(* ===== verification/ListenerSpec.v ===== *)
(** * What the command loop guarantees

    [Answers] says what a command sends back and how it changes listener and
    executor; [served] composes it with the framing of packets, so that a
    client's request and the loop of [handle] meet on the network.  Queries are
    the instance [query_served].  The invariants of the statement table and of
    the connection between commands follow, then the commands that break. *)
From Stdlib Require Import ZArith Lia List.
From stdpp Require Import base gmap list strings.
From S2P Require Import Prelude GoText Encoding Layout Conn Packets PacketSpec GoTime DateTime Rows Stmt Collations Handshake HandshakeSpec Listener.

Local Open Scope Z_scope.

Section listener.
Context `{BufPool} `{Parser} {X : Type} `{!Executor X}.

(** A connection between commands: nothing buffered, [n] writes to go. *)
Definition idle (n : Z) (c : conn) : Prop := live n c /\ bufferedWriter c = None.

Definition Answers (ctx : context) (data : bytes) (fl : Z) (l : Listener) (x : X) (ps : list bytes)
    (l' : Listener) (x' : X) : Prop :=
  forall c b n, statusFlags c = fl -> 0 <= n -> idle (cost ps + 1 + n) c ->
    exists c' out,
      ExecuteCommand ctx data (l, set_ephemeral ephemeralRead b c, x) = (Ok tt, (l', c', x')) /\
      framedAll (sequence c) ps out (sequence c') /\ wr c' = wr c ++ out /\ idle n c' /\
      rd c' = rd c /\ statusFlags c' = fl.

Lemma net_run {A} (m : M A) l c x r c' : m c = (r, c') -> net (X := X) m (l, c, x) = (r, (l, c', x)).
Proof. intros E. unfold net. by rewrite E. Qed.

Lemma recycle_run l b c x :
  live 0 c -> net (X := X) RecycleReadPacket (l, set_ephemeral ephemeralRead b c, x) = (Ok tt, (l, c, x)).
Proof.
  intros Hl. apply net_run. rewrite RecycleRead_run. f_equal.
  destruct Hl as [_ _ Hp Hb _]. destruct c; cbn in *. by subst.
Qed.

(** What is sent without a buffered writer is on the network. *)
Lemma sent_idle c : bufferedWriter c = None -> sent c = wr c.
Proof. intros E. unfold sent. rewrite E. apply app_nil_r. Qed.

(** A network write that succeeds leaves the buffered writer alone. *)
Lemma unbuffered_sends fl (m : M unit) ps c n :
  Sends fl m ps tt -> statusFlags c = fl -> 0 <= n -> idle (cost ps + n) c ->
  (forall c1 c2, m c1 = (Ok tt, c2) -> bufferedWriter c1 = None -> bufferedWriter c2 = None) ->
  exists c' out, m c = (Ok tt, c') /\ framedAll (sequence c) ps out (sequence c') /\
    wr c' = wr c ++ out /\ idle n c' /\ rd c' = rd c /\ statusFlags c' = fl.
Proof.
  intros HS Hfl Hn [Hl Hw] Hb. destruct (HS c n Hfl Hn Hl) as (c' & out & E & F & S & V & R & SF).
  pose proof (Hb _ _ E Hw) as Hw'. exists c', out.
  split_and!; [done | done | | done | done | congruence].
  rewrite <- (sent_idle c' Hw'), <- (sent_idle c Hw). done.
Qed.

(** The body of a buffered command: what it sends reaches the network when the
    writer is flushed at the end. *)
Lemma buffered_run fl l x l' x' (body : ST (server (X := X)) unit) ps c b n :
  (forall c0, statusFlags c0 = fl -> sequence c0 = sequence c -> sent c0 = wr c -> rd c0 = rd c ->
     live (cost ps + 1 + n) c0 ->
     exists c1 out, body (l, set_ephemeral ephemeralRead b c0, x) = (Ok tt, (l', c1, x')) /\
       framedAll (sequence c) ps out (sequence c1) /\ sent c1 = wr c ++ out /\ live (1 + n) c1 /\
       rd c1 = rd c /\ statusFlags c1 = fl) ->
  statusFlags c = fl -> 0 <= n -> idle (cost ps + 1 + n) c ->
  exists c' out, buffered body (l, set_ephemeral ephemeralRead b c, x) = (Ok tt, (l', c', x')) /\
    framedAll (sequence c) ps out (sequence c') /\ wr c' = wr c ++ out /\ idle n c' /\
    rd c' = rd c /\ statusFlags c' = fl.
Proof.
  intros Hbody Hfl Hn [Hl Hw].
  destruct (Hbody (set_writer (Some (mkWriter [] None)) c)) as (c1 & out & E & F & S & V & R & SF);
    [done | done | | done | by destruct Hl; split |].
  { unfold sent. cbn. apply app_nil_r. }
  unfold buffered. erewrite ST_run by (by apply net_run).
  change (set_writer (Some (mkWriter [] None)) (set_ephemeral ephemeralRead b c))
    with (set_ephemeral ephemeralRead b (set_writer (Some (mkWriter [] None)) c)).
  unfold finally. rewrite E.
  assert (EF : exists c2, EndWriterBuffering c1 = (Ok tt, c2) /\ wr c2 = sent c1 /\ idle n c2 /\
             sequence c2 = sequence c1 /\ rd c2 = rd c1 /\ statusFlags c2 = statusFlags c1).
  { destruct V as [Vb Vw Vp Vbuf Va]. unfold EndWriterBuffering, flush, sent, writerOk in *.
    destruct (bufferedWriter c1) as [[bf e]|] eqn:EW; cbn [buf werr] in *.
    - subst e. destruct bf as [|z bf].
      + eexists. split_and!; [done | cbn; by rewrite app_nil_r | split; [split; try done; cbn; lia | done] | done..].
      + unfold netWrite. destruct (accepts c1) as [|k] eqn:EA; [lia|].
        eexists. split_and!; [done | done | split; [split; try done; cbn; lia | done] | done..].
    - exists c1. split_and!; [done | by rewrite app_nil_r | split; [split; try done; unfold writerOk; [by rewrite EW | lia] | done] | done..]. }
  destruct EF as (c2 & E2 & W2 & I2 & Q2 & R2 & SF2).
  exists c2, out. rewrite (net_run _ _ _ _ _ _ E2). split_and!; [done | by rewrite Q2 | by rewrite W2 | done | congruence..].
Qed.

(** ** A request and its answer *)

(** [send] is a request with the payload [data], the first packet of an exchange. *)
Definition Requests (send : M unit) (data : bytes) : Prop :=
  forall c n, 0 <= n -> live (cost [data] + n) c ->
    exists c' out, send c = (Ok tt, c') /\ framed 0 data out (sequence c') /\
      sent c' = sent c ++ out /\ live n c' /\ rd c' = rd c.

Lemma command_requests code text : Requests (command code text) (code :: text).
Proof.
  intros c n Hn Hl. destruct (command_sends (statusFlags c) code text (set_sequence 0 c) n eq_refl Hn)
    as (c' & out & E & F%framedAll_one & S & V & R & _); [by destruct Hl; split|].
  by exists c', out.
Qed.

(** The loop reads the request, and what it answers is what the client reads:
    both sides finish, on the bytes the other one sent. *)
Lemma served connID user remote data fl l x ps l' x' (send : M unit) {A} (recv : M A) v cs cc n :
  Answers (mkContext connID user remote (schemaName l)) data fl l x ps l' x' ->
  Requests send data -> Receives recv ps v ->
  statusFlags cs = fl -> 0 <= n -> idle (cost ps + 1 + n) cs -> live (cost [data] + n) cc ->
  exists c2s s2c cs' cc',
    serveOne connID user remote (l, set_rd c2s cs, x) = (Ok tt, (l', cs', x')) /\
    wr cs' = wr cs ++ s2c /\ rd cs' = [] /\ idle n cs' /\
    (_ ← send; recv) (set_rd s2c cc) = (Ok v, cc') /\
    sent cc' = sent cc ++ c2s /\ rd cc' = [] /\ live n cc'.
Proof.
  intros HA HW HR Hfl Hn [Vs Ws] Vc.
  destruct (framed_exists 0 data) as (o1 & s1 & F1).
  (* The server. *)
  set (c0 := set_sequence 0 (set_rd o1 cs)).
  assert (L0 : live (cost ps + 1 + n) c0) by (by destruct Vs; split).
  destruct (ReadEphemeral_framed _ _ _ _ c0 [] F1 eq_refl (eq_sym (app_nil_r o1)))
    as (b & E1); [apply L0 | apply L0 |].
  set (c1 := set_rd [] (set_sequence s1 c0)) in *.
  destruct (HA c1 b n) as (cs' & out & E2 & F2 & W2 & I2 & R2 & SF2);
    [done | done | split; [by apply live_moved | done] |].
  (* The client. *)
  destruct (HW (set_rd out cc) n Hn) as (p1 & o2 & E3 & F3 & S3 & V3 & R3); [by destruct Vc; split|].
  destruct (framed_det _ _ _ _ F1 _ _ F3) as [<- Q3].
  exists o1, out, cs', (set_rd [] (set_sequence (sequence cs') p1)).
  split_and!; [|done | done | done | | done | done | by apply live_moved].
  - unfold serveOne. erewrite ST_run by (by apply net_run). fold c0.
    erewrite ST_run by (rewrite E1; reflexivity).
    erewrite ST_run by reflexivity. exact E2.
  - erewrite bind_M_run by exact E3.
    apply HR; [apply V3 | apply V3 |]. exists out.
    split; [by rewrite <- Q3 | by rewrite R3, app_nil_r].
Qed.

(** The result of a query, sent as a whole. *)
Definition resultPayloads (cap fl : Z) (rlt : queryResult) (payloads : list bytes) (warn : Z) : list bytes :=
  resultSet cap fl (resFields rlt) payloads warn.

Lemma writeResult_run ctx rlt warn payloads fl l x c n :
  resFields rlt <> [] -> Forall wireField (resFields rlt) ->
  Sends fl (WriteRows (resFields rlt) (resRows rlt)) payloads tt ->
  statusFlags c = fl -> 0 <= n ->
  live (cost (resultPayloads (capabilities l) fl rlt payloads warn) + n) c ->
  exists c1 out, writeResult ctx (Some rlt) warn (l, c, x) = (Ok tt, (l, c1, x)) /\
    framedAll (sequence c) (resultPayloads (capabilities l) fl rlt payloads warn) out (sequence c1) /\
    sent c1 = sent c ++ out /\ live n c1 /\ rd c1 = rd c /\ statusFlags c1 = statusFlags c.
Proof.
  intros Hne Hf HS Hfl Hn Hl. unfold writeResult, resultPayloads in *.
  destruct (resFields rlt) as [|f fs]; [done|].
  destruct (resultSet_sends fl (capabilities l) (f :: fs) (WriteRows (f :: fs) (resRows rlt)) payloads warn
              Hne Hf HS c n Hfl Hn Hl) as (c1 & out & E & F & S & V & R & SF).
  exists c1, out. split_and!; try done.
  erewrite ST_run by reflexivity.
  apply bind_M_Ok in E as ([] & c2 & E1 & E). apply bind_M_Ok in E as ([] & c3 & E2 & E3).
  erewrite ST_run by (by apply net_run). erewrite ST_run by (by apply net_run).
  erewrite ST_run by reflexivity. by apply net_run.
Qed.

Lemma rest_run code text s : rest (X := X) (code :: text) s = (Ok text, s).
Proof.
  unfold rest, liftST. change (code :: text) with ([code] ++ text).
  pose proof (slice_mid [code] text []) as E. rewrite app_nil_r in E.
  rewrite len_app, len_singleton in *. by rewrite E.
Qed.

Lemma query_answers ctx query stmt fl l x rlt payloads warn x' :
  ParseOneStmt query = Ok stmt ->
  ExecutorComQuery ctx stmt query x = (inl (Some rlt, warn), x') ->
  resFields rlt <> [] -> Forall wireField (resFields rlt) ->
  Sends fl (WriteRows (resFields rlt) (resRows rlt)) payloads tt ->
  Answers ctx (ComQuery :: query) fl l x (resultPayloads (capabilities l) fl rlt payloads warn) l x'.
Proof.
  intros HP HX Hne Hf HS c b n Hfl Hn Hi.
  change (ExecuteCommand ctx (ComQuery :: query)) with (handleQuery ctx (ComQuery :: query)).
  unfold handleQuery. eapply buffered_run; [|done | done | done].
  intros c0 Hfl0 Hq Hs Hr Hl0. rewrite (ST_run _ _ _ _ _ (rest_run _ _ _)).
  erewrite ST_run by (apply recycle_run; eapply live_weaken; [exact Hl0|];
    pose proof (cost_nonneg (resultPayloads (capabilities l) fl rlt payloads warn)); lia).
  rewrite HP. erewrite ST_run by (unfold exec; rewrite HX; reflexivity).
  destruct (writeResult_run ctx rlt warn payloads fl l x' c0 (1 + n)) as (c1 & out & E & F & S & V & R & SF);
    [done | done | done | done | lia | eapply live_weaken; [exact Hl0 | lia] |].
  exists c1, out. split_and!; [done | by rewrite <- Hq | by rewrite S, Hs | done | congruence | congruence].
Qed.

(** C12: A query through the proxy.  The driver's COM_QUERY reaches the executor with
    the text the client sent, the connection's number and user, and whatever
    columns and rows the executor returns, the client's [ReadQueryResult]
    yields; the answer is on the network when the loop turns to the next
    command, and the connection is ready for it. *)
Theorem query_served connID user remote query stmt l x rlt payloads warn x' cs cc n :
  ParseOneStmt query = Ok stmt ->
  ExecutorComQuery (mkContext connID user remote (schemaName l)) stmt query x =
    (inl (Some rlt, warn), x') ->
  resFields rlt <> [] -> len (resFields rlt) < two63 -> Forall wireField (resFields rlt) ->
  Forall isRow payloads ->
  Sends (statusFlags cs) (WriteRows (resFields rlt) (resRows rlt)) payloads tt ->
  0 <= statusFlags cs < 65536 -> 0 <= warn < 65536 -> 0 <= n ->
  idle (cost (resultPayloads (capabilities l) (statusFlags cs) rlt payloads warn) + 1 + n) cs ->
  live (cost [ComQuery :: query] + n) cc ->
  exists c2s s2c cs' cc',
    serveOne connID user remote (l, set_rd c2s cs, x) = (Ok tt, (l, cs', x')) /\
    wr cs' = wr cs ++ s2c /\ rd cs' = [] /\ idle n cs' /\
    (_ ← WriteComQuery query; ReadQueryResult (capabilities l) true) (set_rd s2c cc) =
      (Ok (mkResult (Some (readField <$> resFields rlt)) (len payloads) 0 payloads,
           hasFlag (statusFlags cs) ServerMoreResultsExists, warn), cc') /\
    sent cc' = sent cc ++ c2s /\ rd cc' = [] /\ live n cc'.
Proof.
  intros HP HX Hne Hlen Hf Hrow HS Hfl Hw Hn Hi Hc.
  pose proof (query_answers _ query stmt (statusFlags cs) l x rlt payloads warn x' HP HX Hne Hf HS) as HA.
  pose proof (ReadQueryResult_receives (capabilities l) (statusFlags cs) (resFields rlt) payloads warn
                Hne Hlen Hf Hrow Hfl Hw) as HR.
  exact (served _ _ _ _ _ _ _ _ _ _ _ _ _ cs cc n HA (command_requests _ _) HR eq_refl Hn Hi Hc).
Qed.

(** ** Between commands *)

(** [m] leaves no ephemeral buffer behind when it succeeds; [ready m] assumes
    there was none before. *)
Definition ends {A} (m : M A) : Prop := forall c a c', m c = (Ok a, c') -> policy c' = ephemeralUnused.
Definition ready {A} (m : M A) : Prop := forall c a c', m c = (Ok a, c') ->
  policy c = ephemeralUnused -> policy c' = ephemeralUnused.

Lemma ends_ready {A} (m : M A) : ends m -> ready m.
Proof. intros Hm c a c' E _. by eapply Hm. Qed.

Lemma ends_bind {A B} (m : M A) (f : A -> M B) : (forall a, ends (f a)) -> ends (m ≫= f).
Proof. intros Hf c b c' (a & c1 & _ & E)%bind_M_Ok. by eapply Hf. Qed.

Lemma ready_bind {A B} (m : M A) (f : A -> M B) : ready m -> (forall a, ready (f a)) -> ready (m ≫= f).
Proof. intros Hm Hf c b c' (a & c1 & E1 & E2)%bind_M_Ok Hp. eapply Hf; [exact E2 | by eapply Hm]. Qed.

Lemma ready_keeps {A} (m : M A) : keepsPolicy m -> ready m.
Proof. intros Hm c a c' E Hp. specialize (Hm c). rewrite E in Hm. cbn in Hm. congruence. Qed.

Lemma WriteEphemeral_ends : ends WriteEphemeralPacket.
Proof.
  intros c a c' E. unfold WriteEphemeralPacket, deferred in E.
  match type of E with context [?m c] => destruct (m c) as [r c1] end. unfold RecycleWritePacket in E.
  unfold mbind, M_bind, gets in E. destruct (policy c1) eqn:EP; cbn in E; try done.
  destruct r; try done. by injection E as _ <-.
Qed.

Lemma sendPacket_ends n ws : ends (sendPacket n ws).
Proof. unfold sendPacket. repeat (apply ends_bind; intros; try case_match). apply WriteEphemeral_ends. Qed.

Lemma raise_ends {A} e : ends (raise (A := A) e).
Proof. by intros c a c'. Qed.

Lemma sendChecked_ends n ws msg : ends (sendChecked n ws msg).
Proof.
  unfold sendChecked. repeat (apply ends_bind; intros; try case_match).
  all: first [apply raise_ends | apply WriteEphemeral_ends].
Qed.

Lemma sendBuilt_ends n build msg : ends (sendBuilt n build msg).
Proof.
  unfold sendBuilt. repeat (apply ends_bind; intros; try case_match).
  all: first [apply raise_ends | apply WriteEphemeral_ends].
Qed.

Lemma WriteErrorPacket_ends code st msg : ends (WriteErrorPacket code st msg).
Proof.
  unfold WriteErrorPacket. apply ends_bind; intros d. apply ends_bind; intros [d1 p1].
  apply ends_bind; intros _. destruct (negb _); [by intros ? ? ?|].
  apply ends_bind; intros [d2 p2]. apply ends_bind; intros _. apply WriteEphemeral_ends.
Qed.

Lemma eachM_ready {A} (f : A -> M unit) l : (forall a, ready (f a)) -> ready (eachM f l).
Proof.
  intros Hf. induction l as [|a l IH]; cbn [eachM]; [by intros ? ? ? [= _ <-]|].
  apply ready_bind; [apply Hf | intros _; exact IH].
Qed.

Lemma ret_ready {A} (a : A) : ready (mret a).
Proof. by intros ? ? ? [= _ <-]. Qed.
Lemma gets_ready {A} (f : conn -> A) : ready (gets f).
Proof. by intros ? ? ? [= _ <-]. Qed.
Lemma lift_ready {A} (r : res A) : ready (lift r).
Proof. by intros ? ? ? [= _ <-]. Qed.

Create HintDb ready.
#[local] Hint Resolve ends_ready sendPacket_ends sendChecked_ends sendBuilt_ends WriteErrorPacket_ends
  eachM_ready ret_ready gets_ready lift_ready : ready.
#[local] Hint Extern 2 (ready (_ ≫= _)) => apply ready_bind; [|intros] : ready.
#[local] Hint Extern 3 (ready (if _ then _ else _)) => case_match : ready.
#[local] Hint Extern 3 (ready (match _ with _ => _ end)) => case_match : ready.

Lemma WriteFields_ready cap fields : ready (WriteFields cap fields).
Proof.
  unfold WriteFields, sendColumnCount, WriteEOFPacket. apply ready_bind; [eauto with ready | intros _].
  apply ready_bind; [|intros _; eauto with ready]. apply eachM_ready. intros f.
  unfold writeColumnDefinition. destruct (TypeToMySQL _). eauto with ready.
Qed.

Lemma WriteEndResult_ready cap more a i w : ready (WriteEndResult cap more a i w).
Proof. unfold WriteEndResult, WriteEOFPacket, WriteOKPacketWithEOFHeader, okPacket. eauto with ready. Qed.

Lemma WriteRows_ready fields rows : ready (WriteRows fields rows).
Proof.
  unfold WriteRows. apply eachM_ready. intros []; unfold writeTextRow, writeBinaryRow; eauto with ready.
Qed.

Lemma WritePrepare_ready cap id n : ready (WritePrepare cap id n).
Proof.
  unfold WritePrepare, WriteEOFPacket. apply ready_bind; [eauto with ready | intros _].
  case_match; [|eauto with ready]. apply ready_bind; [|intros _; eauto with ready].
  apply eachM_ready. intros f. unfold writeColumnDefinition. destruct (TypeToMySQL _). eauto with ready.
Qed.

Lemma WriteError_ready e : ready (WriteErrorPacketFromError e).
Proof. destruct e; cbn; eauto with ready. Qed.
#[local] Hint Resolve WriteFields_ready WriteEndResult_ready WriteRows_ready WritePrepare_ready
  WriteError_ready : ready.

(** *** The same for code on the server's state *)
Definition pol (s : server (X := X)) : ephemeral := policy (snd (fst s)).

Definition readyS {A} (m : ST server A) : Prop := forall s a s', m s = (Ok a, s') ->
  pol s = ephemeralUnused -> pol s' = ephemeralUnused.

Lemma ST_Ok {S A B} (m : ST S A) (f : A -> ST S B) s b s' :
  (m ≫= f) s = (Ok b, s') -> exists a s1, m s = (Ok a, s1) /\ f a s1 = (Ok b, s').
Proof. unfold mbind, ST_bind. destruct (m s) as [[a| |] s1]; [eauto | done | done]. Qed.

Lemma readyS_bind {A B} (m : ST server A) (f : A -> ST server B) :
  readyS m -> (forall a, readyS (f a)) -> readyS (m ≫= f).
Proof. intros Hm Hf s b s' (a & s1 & E1 & E2)%ST_Ok Hp. eapply Hf; [exact E2 | by eapply Hm]. Qed.

Lemma readyS_net {A} (m : M A) : ready m -> readyS (net m).
Proof.
  intros Hm [[l c] x] a s' E Hp. unfold net in E. destruct (m c) as [r c'] eqn:EM.
  injection E as -> <-. by eapply Hm.
Qed.

Lemma readyS_ret {A} (a : A) : readyS (mret a).
Proof. by intros s ? s' [= _ <-]. Qed.
Lemma readyS_getL {A} (f : Listener -> A) : readyS (getL f).
Proof. by intros [[l c] x] ? s' [= _ <-]. Qed.
Lemma readyS_putL f : readyS (putL f).
Proof. by intros [[l c] x] ? s' [= <- <-]. Qed.
Lemma readyS_exec {A} (f : X -> A * X) : readyS (exec f).
Proof. intros [[l c] x] ? s' E. unfold exec in E. destruct (f x). by injection E as _ <-. Qed.
Lemma readyS_fail {A} e : readyS (fail (A := A) e).
Proof. by intros s. Qed.
Lemma readyS_crash {A} : readyS (crash (A := A)).
Proof. by intros s. Qed.
Lemma readyS_lift {A} (r : res A) : readyS (liftST r).
Proof. by intros s ? s' [= _ <-]. Qed.
Lemma readyS_okFlags ctx : readyS (okFlags ctx).
Proof. by intros [[l c] x] ? s' [= _ <-]. Qed.
#[local] Hint Resolve readyS_net readyS_ret readyS_getL readyS_putL readyS_exec readyS_fail readyS_crash
  readyS_lift readyS_okFlags : ready.

(** Take a program apart along its binds and matches. *)
Ltac ready := repeat first
  [ solve [eauto with ready] | apply readyS_bind; [|intros] | apply readyS_net | apply ready_bind; [|intros]
  | case_match ].

Lemma answer_ready ctx r : readyS (answer ctx r).
Proof.
  unfold answer, writeResult, writeOK, WriteOKPacket, okPacket. ready.
Qed.
#[local] Hint Resolve answer_ready : ready.

(** From a packet that was read to no packet at all. *)
Definition clears {A} (m : ST server A) : Prop := forall s a s', m s = (Ok a, s') ->
  pol s = ephemeralRead -> pol s' = ephemeralUnused.

(** Code that does not touch the connection's buffer. *)
Definition quiet {A} (m : ST (server (X := X)) A) : Prop := forall s, pol (snd (m s)) = pol s.

Lemma clears_bind {A B} (m : ST server A) (f : A -> ST server B) :
  clears m -> (forall a, readyS (f a)) -> clears (m ≫= f).
Proof. intros Hm Hf s b s' (a & s1 & E1 & E2)%ST_Ok Hp. eapply Hf; [exact E2 | by eapply Hm]. Qed.

Lemma quiet_clears {A B} (m : ST server A) (f : A -> ST server B) :
  quiet m -> (forall a, clears (f a)) -> clears (m ≫= f).
Proof.
  intros Hm Hf s b s' (a & s1 & E1 & E2)%ST_Ok Hp. eapply Hf; [exact E2|].
  specialize (Hm s). rewrite E1 in Hm. cbn in Hm. congruence.
Qed.

Lemma clears_recycle : clears (net RecycleReadPacket).
Proof.
  intros [[l c] x] a s' E Hp. unfold net, RecycleReadPacket, mbind, M_bind, gets in E.
  unfold pol in Hp. cbn in Hp. rewrite Hp in E. by injection E as _ <-.
Qed.

Lemma quiet_lift {A} (r : res A) : quiet (liftST r).
Proof. by intros s. Qed.
Lemma quiet_getL {A} (f : Listener -> A) : quiet (getL f).
Proof. by intros [[l c] x]. Qed.
Lemma quiet_putL f : quiet (putL f).
Proof. by intros [[l c] x]. Qed.
Lemma quiet_start : quiet (net StartWriterBuffering).
Proof. by intros [[l c] x]. Qed.

Lemma flush_keeps : keepsPolicy flush.
Proof.
  intros c. unfold flush, netWrite. repeat case_match; try done; by simplify_eq.
Qed.

Lemma finally_quiet {A} (d : ST server unit) (m : ST server A) : quiet d -> clears m -> clears (finally d m).
Proof.
  intros Hd Hm s a s' E Hp. unfold finally in E. destruct (m s) as [r s1] eqn:EM.
  specialize (Hd s1). destruct (d s1) as [rd s2]. cbn in Hd.
  destruct rd; [| |done]; injection E as -> <-; rewrite Hd; by eapply Hm.
Qed.

Lemma finally_ready {A} (d : ST server unit) (m : ST server A) : quiet d -> readyS m -> readyS (finally d m).
Proof.
  intros Hd Hm s a s' E Hp. unfold finally in E. destruct (m s) as [r s1] eqn:EM.
  specialize (Hd s1). destruct (d s1) as [rd s2]. cbn in Hd.
  destruct rd; [| |done]; injection E as -> <-; rewrite Hd; by eapply Hm.
Qed.

Lemma quiet_end : quiet (net EndWriterBuffering).
Proof.
  intros [[l c] x]. unfold net, EndWriterBuffering, pol. destruct (bufferedWriter c) eqn:E; [|done].
  pose proof (flush_keeps c). destruct (flush c). cbn in *. done.
Qed.

Lemma buffered_clears {A} (m : ST server A) : clears m -> clears (buffered m).
Proof.
  intros Hm. apply quiet_clears; [apply quiet_start|]. intros _. apply finally_quiet; [apply quiet_end | done].
Qed.

Lemma quiet_resetVars id : quiet (resetVars id).
Proof. intros [[l c] x]. unfold resetVars, needStmt, mbind, ST_bind. cbn. by destruct (stmts l !! id). Qed.

Lemma readyS_quiet {A} (m : ST server A) : quiet m -> readyS m.
Proof. intros Hm s a s' E Hp. specialize (Hm s). rewrite E in Hm. cbn in Hm. congruence. Qed.
Lemma readyS_needStmt id : readyS (needStmt id).
Proof. unfold needStmt. ready. Qed.
#[local] Hint Resolve readyS_needStmt quiet_resetVars readyS_quiet quiet_lift quiet_getL quiet_putL clears_recycle : ready.

Lemma plainOK_ready : readyS plainOK.
Proof. unfold plainOK, WriteOKPacket, okPacket. ready. Qed.
#[local] Hint Resolve plainOK_ready : ready.

(** The recycling of the request, then the rest. *)
Ltac clear_request := repeat first
  [ apply clears_bind; [apply clears_recycle | intros; ready]
  | apply quiet_clears; [solve [eauto with ready] | intros] ].

Lemma handleQuery_clears ctx data : clears (handleQuery ctx data).
Proof.
  apply buffered_clears. unfold rest. clear_request.
Qed.

Lemma handleFieldList_clears ctx data : clears (handleFieldList ctx data).
Proof.
  unfold handleFieldList. destruct (IndexByte data 0); [|by intros s]. clear_request.
Qed.

Lemma handlePrepare_clears data : clears (handlePrepare data).
Proof.
  unfold handlePrepare, rest, incStatementID, storeStmt. clear_request.
Qed.

Lemma handleExecute_clears ctx data : clears (handleExecute ctx data).
Proof.
  apply buffered_clears. apply quiet_clears; [apply quiet_getL|]. intros ss.
  destruct (ParseComStmtExecute ss data) as [[id r] ss'].
  apply quiet_clears; [apply quiet_putL|]. intros _.
  destruct r as [v|e|]; [| |by intros s].
  all: apply clears_bind; [apply clears_recycle | intros _]; apply finally_ready;
    [case_match; [apply quiet_resetVars | by intros s] | ready].
Qed.

Lemma unknownCom_ready : readyS unknownCom.
Proof. unfold unknownCom. ready. Qed.
#[local] Hint Resolve unknownCom_ready : ready.

Lemma handleSetOption_clears data : clears (handleSetOption data).
Proof. unfold handleSetOption. clear_request. Qed.

(** The commands [ExecuteCommand] knows. *)
Definition commands : list Z :=
  [ComQuit; ComInitDB; ComQuery; ComPing; ComFieldList; ComPrepare; ComStmtExecute; ComStmtClose;
   ComStmtSendLongData; ComStmtReset; ComSetOption; ComResetConnection].

(** C24: A command that is answered leaves the connection ready for the next packet:
    when [ExecuteCommand] returns without an error, the buffer of the request
    has been released and no packet is under construction, for every command it
    knows and whatever parser and executor do.  Otherwise the read of the next
    command would panic. *)
Theorem command_leaves_ready ctx data l c x l' c' x' code text :
  data = code :: text -> In code commands -> policy c = ephemeralRead ->
  ExecuteCommand ctx data (l, c, x) = (Ok tt, (l', c', x')) -> policy c' = ephemeralUnused.
Proof.
  intros -> Hin Hp E. unfold ExecuteCommand in E. erewrite ST_run in E by reflexivity.
  match type of E with ?m _ = _ => assert (HC : clears m); [|exact (HC _ _ _ E Hp)] end.
  repeat match goal with
  | |- clears (if code =? ?k then _ else _) => destruct (Z.eqb_spec code k) as [->|?]
  end.
  - clear_request.
  - unfold rest. clear_request.
  - apply handleQuery_clears.
  - clear_request.
  - apply handleFieldList_clears.
  - apply handlePrepare_clears.
  - apply handleExecute_clears.
  - clear_request.
  - unfold handleSendLongData. case_match; [by intros s|].
    apply quiet_clears; [apply quiet_lift | intros ? s; done].
  - clear_request.
  - apply handleSetOption_clears.
  - clear_request.
  - exfalso. unfold commands in Hin. cbn [In] in Hin. intuition congruence.
Qed.

(** A command it does not know is skipped without releasing the request: the
    turn of the loop succeeds, nothing is answered, and the next turn panics
    before it reads anything. *)
Theorem unknown_command_ends ctx code text l c x :
  ~ In code commands -> policy c = ephemeralRead ->
  ExecuteCommand ctx (code :: text) (l, c, x) = (Ok tt, (l, c, x)) /\
  forall connID user remote, fst (serveOne connID user remote (l, c, x)) = Panic.
Proof.
  intros Hin Hp. split.
  - unfold ExecuteCommand. erewrite ST_run by reflexivity.
    repeat match goal with
    | |- context [if code =? ?k then _ else _] =>
      destruct (Z.eqb_spec code k) as [->|?]; [exfalso; apply Hin; unfold commands; cbn [In]; tauto|]
    end. done.
  - intros connID user remote. unfold serveOne. erewrite ST_run by reflexivity.
    unfold mbind, ST_bind. unfold ReadEphemeralPacket.
    erewrite bind_M_run by reflexivity. cbn [policy set_sequence]. by rewrite Hp.
Qed.

(** ** The table of prepared statements *)
Record wfStmt (id : Z) (s : Stmt) : Prop := {
  ws_id : StatementID s = id;
  ws_count : 0 <= ParamsCount s < 65536;
  ws_types : length (ParamsType s) = Z.to_nat (ParamsCount s) }.

Definition stmtsOk (l : Listener) : Prop :=
  map_Forall wfStmt (stmts l) /\ 0 <= statementID l < 4294967296.

Lemma parseTypes_length n : forall i payload pos types types' r,
  parseTypes n i payload pos types = (types', r) -> length types' = length types.
Proof.
  induction n as [|n IH]; intros i payload pos types types' r E; cbn [parseTypes] in E; [by simplify_eq|].
  repeat case_match; simplify_eq; try done. apply IH in E. by rewrite length_insert in E.
Qed.

Lemma bindStmt_wf id s payload pos s' r : bindStmt s payload pos = (s', r) -> wfStmt id s -> wfStmt id s'.
Proof.
  unfold bindStmt. intros E [Hid Hc Ht].
  repeat case_match; simplify_eq; try done; split; cbn; try done.
  all: match goal with
       | H : parseTypes _ _ _ _ _ = _ |- _ => apply parseTypes_length in H; congruence
       | _ => done
       end.
Qed.

Lemma ParseComStmtExecute_wf ss data id r ss' :
  ParseComStmtExecute ss data = (id, r, ss') -> map_Forall wfStmt ss -> map_Forall wfStmt ss'.
Proof.
  unfold ParseComStmtExecute. intros E Hw.
  repeat case_match; simplify_eq; try done.
  apply map_Forall_insert_2; [|done]. eapply bindStmt_wf; [done|]. by eapply Hw.
Qed.

(** Code that keeps the table well-formed, whatever its outcome. *)
Definition keepsS {A} (m : ST (server (X := X)) A) : Prop :=
  forall l c x r l' c' x', m (l, c, x) = (r, (l', c', x')) -> stmtsOk l -> stmtsOk l'.

Lemma keepsS_bind {A B} (m : ST server A) (f : A -> ST server B) :
  keepsS m -> (forall a, keepsS (f a)) -> keepsS (m ≫= f).
Proof.
  intros Hm Hf l c x r l' c' x' E Hl. unfold mbind, ST_bind in E.
  destruct (m (l, c, x)) as [[a|e|] [[l1 c1] x1]] eqn:EM; [eapply Hf; [exact E|] | simplify_eq | simplify_eq].
  all: by eapply Hm.
Qed.

Lemma keepsS_net {A} (m : M A) : keepsS (net m).
Proof. intros l c x r l' c' x' E. unfold net in E. destruct (m c). by simplify_eq. Qed.
Lemma keepsS_exec {A} (f : X -> A * X) : keepsS (exec f).
Proof. intros l c x r l' c' x' E. unfold exec in E. destruct (f x). by simplify_eq. Qed.
Lemma keepsS_putL f : (forall l, stmtsOk l -> stmtsOk (f l)) -> keepsS (putL f).
Proof. intros Hf l c x r l' c' x' E Hl. unfold putL in E. simplify_eq. by apply Hf. Qed.
Lemma keepsS_pure {A} (m : ST server A) : (forall s, snd (m s) = s) -> keepsS m.
Proof. intros Hm l c x r l' c' x' E. specialize (Hm (l, c, x)). rewrite E in Hm. by simplify_eq/=. Qed.
Lemma keepsS_finally {A} d (m : ST server A) : keepsS d -> keepsS m -> keepsS (finally d m).
Proof.
  intros Hd Hm l c x r l' c' x' E Hl. unfold finally in E.
  destruct (m (l, c, x)) as [r1 [[l1 c1] x1]] eqn:EM. destruct (d (l1, c1, x1)) as [r2 [[l2 c2] x2]] eqn:ED.
  assert (stmtsOk l2) by (eapply Hd; [exact ED | by eapply Hm]). by destruct r2; simplify_eq.
Qed.

Lemma keepsS_ret {A} (a : A) : keepsS (mret a).
Proof. by apply keepsS_pure. Qed.
Lemma keepsS_lift {A} (r : res A) : keepsS (liftST r).
Proof. by apply keepsS_pure. Qed.
Lemma keepsS_getL {A} (f : Listener -> A) : keepsS (getL f).
Proof. by apply keepsS_pure; intros [[l c] x]. Qed.
Lemma keepsS_fail {A} e : keepsS (fail (A := A) e).
Proof. by apply keepsS_pure. Qed.
Lemma keepsS_crash {A} : keepsS (crash (A := A)).
Proof. by apply keepsS_pure. Qed.
Lemma keepsS_okFlags ctx : keepsS (okFlags ctx).
Proof. by apply keepsS_pure; intros [[l c] x]. Qed.
Create HintDb keeps.
#[local] Hint Resolve keepsS_net keepsS_exec keepsS_ret keepsS_lift keepsS_getL keepsS_fail keepsS_crash
  keepsS_okFlags : keeps.

Ltac keeps := repeat first
  [ solve [eauto with keeps] | apply keepsS_bind; [|intros] | apply keepsS_finally
  | apply keepsS_putL; solve [by intros ? []] | case_match ].

Lemma keepsS_answer ctx r : keepsS (answer ctx r).
Proof. unfold answer, writeResult, writeOK. keeps. Qed.
Lemma keepsS_storeStmt query : keepsS (storeStmt query).
Proof.
  unfold storeStmt. apply keepsS_bind; [keeps|]. intros id. case_match; [|keeps..].
  apply keepsS_bind; [|intros; keeps]. apply keepsS_putL. intros l [Hl Hid]. split; [|done].
  apply map_Forall_insert_2; [|done].
  assert (0 <= countMarks query mod 65536 < 65536) by (apply Z.mod_pos_bound; lia).
  by split; [done | done | apply length_replicate].
Qed.

Lemma keepsS_resetVars id : keepsS (resetVars id).
Proof.
  intros l c x r l' c' x' E [Hl Hid]. unfold resetVars, needStmt, getL, putL, mbind, ST_bind in E.
  destruct (stmts l !! id) as [s|] eqn:Es; cbn in E; simplify_eq; [|done]. split; [|done].
  apply map_Forall_insert_2; [|done]. destruct (Hl _ _ Es). by split.
Qed.

Lemma keepsS_execute ctx data : keepsS (handleExecute ctx data).
Proof.
  unfold handleExecute, buffered. apply keepsS_bind; [keeps|]. intros _. apply keepsS_finally; [keeps|].
  intros l c x r l' c' x' E Hl. erewrite ST_run in E by reflexivity.
  destruct (ParseComStmtExecute (stmts l) data) as [[id r1] ss'] eqn:EP.
  erewrite ST_run in E by reflexivity.
  assert (Hl' : stmtsOk (set_stmts ss' l)) by (destruct Hl; split; [by eapply ParseComStmtExecute_wf | done]).
  revert E Hl'. match goal with |- ?m _ = _ -> _ => assert (K : keepsS m); [|by apply K] end.
  destruct r1; [| |keeps].
  all: apply keepsS_bind; [keeps|]; intros _; apply keepsS_finally;
    [case_match; [apply keepsS_resetVars | keeps] | unfold needStmt; keeps; apply keepsS_answer].
Qed.

Lemma keepsS_inc : keepsS incStatementID.
Proof.
  apply keepsS_putL. intros l [Hl Hid]. split; [done|]. cbn. apply Z.mod_pos_bound. lia.
Qed.

#[local] Hint Resolve keepsS_answer keepsS_storeStmt keepsS_resetVars keepsS_inc keepsS_execute : keeps.

Lemma stmtsOk_command ctx data l c x r l' c' x' :
  stmtsOk l -> ExecuteCommand ctx data (l, c, x) = (r, (l', c', x')) -> stmtsOk l'.
Proof.
  intros Hl E. revert E Hl. assert (K : keepsS (ExecuteCommand ctx data)); [|apply K]. clear.
  unfold ExecuteCommand. apply keepsS_bind; [keeps|]. intros code.
  repeat match goal with |- keepsS (if _ then _ else _) => case_match end.
  all: unfold handleQuery, buffered, rest, handleFieldList, handlePrepare, handleSendLongData,
         handleSetOption, unknownCom, plainOK; keeps.
  apply keepsS_putL. intros l [Hl Hid]. split; [by apply map_Forall_delete | done].
Qed.

(** ** Preparing *)

(** What [ExecuteCommand] calls for a command. *)
Lemma run_prepare ctx query s :
  ExecuteCommand (X := X) ctx (ComPrepare :: query) s = handlePrepare (ComPrepare :: query) s.
Proof. done. Qed.
Lemma run_fieldList ctx text s :
  ExecuteCommand ctx (ComFieldList :: text) s = handleFieldList ctx (ComFieldList :: text) s.
Proof. done. Qed.
Lemma run_longData ctx text s :
  ExecuteCommand (X := X) ctx (ComStmtSendLongData :: text) s = handleSendLongData (ComStmtSendLongData :: text) s.
Proof. done. Qed.

(** The entry a preparation adds. *)
Definition prepared (id : Z) (query : bytes) : Stmt :=
  let n := countMarks query mod 65536 in mkStmt id query n (replicate (Z.to_nat n) 0) ∅.

(** Writes without a buffered writer go to the network, and none is set up. *)
Definition unbuffered {A} (m : M A) : Prop :=
  forall c, bufferedWriter c = None -> bufferedWriter (snd (m c)) = None.

Lemma unbuffered_bind {A B} (m : M A) (f : A -> M B) :
  unbuffered m -> (forall a, unbuffered (f a)) -> unbuffered (m ≫= f).
Proof.
  intros Hm Hf c Hc. specialize (Hm c Hc). unfold mbind, M_bind.
  destruct (m c) as [[a|e|] c1]; [by apply Hf | exact Hm | exact Hm].
Qed.
Lemma unbuffered_wrap {A} f (m : M A) : unbuffered m -> unbuffered (wrapErr f m).
Proof. intros Hm c Hc. specialize (Hm c Hc). unfold wrapErr. by destruct (m c) as [[a|e|] c1]. Qed.
Lemma unbuffered_deferred {A} d (m : M A) : unbuffered d -> unbuffered m -> unbuffered (deferred d m).
Proof.
  intros Hd Hm c Hc. specialize (Hm c Hc). unfold deferred. destruct (m c) as [r c1]. specialize (Hd c1 Hm).
  destruct (d c1) as [[u|e|] c2]; by destruct r.
Qed.
Lemma unbuffered_write p : unbuffered (write p).
Proof. intros c Hc. unfold write, netWrite. rewrite Hc. by destruct (accepts c). Qed.
Lemma unbuffered_same {A} (m : M A) : (forall c, bufferedWriter (snd (m c)) = bufferedWriter c) -> unbuffered m.
Proof. intros Hm c Hc. by rewrite Hm. Qed.

Ltac unbuf := repeat lazymatch goal with
  | |- unbuffered (write _) => apply unbuffered_write
  | |- unbuffered (deferred _ _) => apply unbuffered_deferred
  | |- unbuffered (wrapErr _ _) => apply unbuffered_wrap
  | |- unbuffered (mbind _ _) => apply unbuffered_bind; [|intros ?]
  | |- unbuffered (match _ with _ => _ end) => case_match
  | |- unbuffered _ => apply unbuffered_same; reflexivity
  end.

Lemma unbuffered_header what n : unbuffered (writeHeader what n).
Proof. unfold writeHeader. unbuf. Qed.
Lemma unbuffered_chunks fuel : forall data, unbuffered (writeChunks fuel data).
Proof.
  induction fuel as [|f IH]; intros data; cbn [writeChunks]; [by apply unbuffered_same|].
  repeat (apply unbuffered_bind; [|intros ?]); try apply unbuffered_header; unbuf; [apply unbuffered_header | apply IH].
Qed.
Lemma unbuffered_check : unbuffered connCheck.
Proof. intros c Hc. unfold connCheck. by destruct (broken c). Qed.
Lemma unbuffered_ephemeral : unbuffered WriteEphemeralPacket.
Proof.
  unfold WriteEphemeralPacket, RecycleWritePacket, WritePacket. unbuf; [apply unbuffered_check | apply unbuffered_chunks].
Qed.
Lemma unbuffered_send length ws : unbuffered (sendPacket length ws).
Proof. unfold sendPacket, StartEphemeralPacket, fillBuffer. unbuf. apply unbuffered_ephemeral. Qed.
Lemma unbuffered_sendChecked length ws msg : unbuffered (sendChecked length ws msg).
Proof. unfold sendChecked, StartEphemeralPacket, fillBuffer. unbuf. apply unbuffered_ephemeral. Qed.
Lemma unbuffered_eachM {A} (f : A -> M unit) xs : (forall a, unbuffered (f a)) -> unbuffered (eachM f xs).
Proof. intros Hf. induction xs as [|a xs IH]; cbn [eachM]; [by apply unbuffered_same|]. by apply unbuffered_bind. Qed.
Lemma unbuffered_prepare cap id n : unbuffered (WritePrepare cap id n).
Proof.
  unfold WritePrepare, WriteEOFPacket. apply unbuffered_bind; [apply unbuffered_send|]. intros _.
  case_match; [|by apply unbuffered_same]. apply unbuffered_bind.
  - apply unbuffered_eachM. intros f. unfold writeColumnDefinition. destruct (TypeToMySQL _). apply unbuffered_sendChecked.
  - intros _. case_match; [|by apply unbuffered_same]. unbuf. apply unbuffered_send.
Qed.

(** The listener after a preparation. *)
Definition preparedIn (query : bytes) (l : Listener) : Listener :=
  let id := u32 (statementID l + 1) in
  set_stmts (<[id := prepared id query]> (stmts l)) (set_statementID id l).

Lemma prepare_answers ctx query stmt fl l x :
  ParseOneStmt query = Ok stmt -> deprecateEOF (capabilities l) = false ->
  Answers ctx (ComPrepare :: query) fl l x
    (preparedPackets fl (u32 (statementID l + 1)) (Z.to_nat (countMarks query mod 65536))) (preparedIn query l) x.
Proof.
  intros HP Hcap c b n Hfl Hn [Hl Hw]. set (id := u32 (statementID l + 1)) in *. set (k := countMarks query mod 65536) in *.
  assert (Hk : 0 <= k < 65536) by (apply Z.mod_pos_bound; lia).
  rewrite run_prepare. unfold handlePrepare. erewrite ST_run by apply rest_run.
  erewrite ST_run by (apply recycle_run; eapply live_weaken; [exact Hl|];
    pose proof (cost_nonneg (preparedPackets fl id (Z.to_nat k))); lia).
  erewrite ST_run by reflexivity. unfold storeStmt. erewrite ST_run by reflexivity. rewrite HP.
  erewrite ST_run by reflexivity. erewrite ST_run by reflexivity.
  pose proof (WritePrepare_sends fl (capabilities l) id (Z.to_nat k) Hcap) as HS. rewrite Z2Nat.id in HS by lia.
  destruct (unbuffered_sends fl (WritePrepare (capabilities l) id k) _ c n HS Hfl Hn) as (c' & out & E & F & W & I & R & SF).
  - split; [|done]. eapply live_weaken; [exact Hl | lia].
  - intros c1 c2 E Hb. pose proof (unbuffered_prepare (capabilities l) id k c1 Hb) as U. by rewrite E in U.
  - exists c', out. split_and!; try done. by apply net_run.
Qed.


(** Preparing alone gives an id that no statement of the table has, as long as
    fewer than 2^32 statements were prepared, and leaves the others alone. *)
Theorem prepare_fresh ctx query stmt l c b x r l' c' x' :
  ParseOneStmt query = Ok stmt -> stmtsOk l -> statementID l < 4294967295 ->
  (forall id, is_Some (stmts l !! id) -> id <= statementID l) -> live 0 c ->
  ExecuteCommand ctx (ComPrepare :: query) (l, set_ephemeral ephemeralRead b c, x) = (r, (l', c', x')) ->
  let id := statementID l + 1 in
  stmts l !! id = None /\ stmts l' = <[id := prepared id query]> (stmts l) /\ x' = x /\
  (forall id, is_Some (stmts l' !! id) -> id <= statementID l').
Proof.
  intros HP [Hw Hid] Hmax Hbound Hl E id. rewrite run_prepare in E. unfold handlePrepare in E.
  erewrite ST_run in E by apply rest_run.
  erewrite ST_run in E by (by apply recycle_run). erewrite ST_run in E by reflexivity.
  unfold storeStmt in E. erewrite ST_run in E by reflexivity. rewrite HP in E.
  erewrite ST_run in E by reflexivity. erewrite ST_run in E by reflexivity.
  unfold net in E. match type of E with context [WritePrepare ?a ?b ?d c] => destruct (WritePrepare a b d c) end.
  injection E as _ <- _ <-. cbn [stmts set_stmts statementID set_statementID].
  replace (u32 (statementID l + 1)) with id by (unfold id, u32; rewrite Z.mod_small; lia).
  assert (Hnone : stmts l !! id = None).
  { destruct (stmts l !! id) eqn:Es; [|done].
    specialize (Hbound id ltac:(by rewrite Es)). unfold id in Hbound. lia. }
  split_and!; [done | done | done |]. intros id' Hs.
  destruct (decide (id' = id)) as [->|Hne]; [lia|]. rewrite lookup_insert_ne in Hs by done.
  specialize (Hbound id' Hs). unfold id. lia.
Qed.

(** Two connections that prepare at the same time can get the same id: the
    counter is incremented and then read again, and both may read it after
    both increments.  The second statement then replaces the first one, and
    the first client executes the text of the second. *)
Theorem prepare_ids_collide query1 query2 s1 s2 l c1 c2 x x1 :
  ParseOneStmt query1 = Ok s1 -> ParseOneStmt query2 = Ok s2 ->
  let l0 := set_statementID (u32 (u32 (statementID l + 1) + 1)) l in
  incStatementID (X := X) (l, c1, x) = (Ok tt, (set_statementID (u32 (statementID l + 1)) l, c1, x)) /\
  incStatementID (X := X) (set_statementID (u32 (statementID l + 1)) l, c2, x) = (Ok tt, (l0, c2, x)) /\
  (forall r l1 c1', storeStmt query1 (l0, c1, x) = (r, (l1, c1', x1)) ->
   forall r2 l2 c2' x2, storeStmt query2 (l1, c2, x1) = (r2, (l2, c2', x2)) ->
     let id := statementID l0 in
     stmts l1 !! id = Some (prepared id query1) /\ stmts l2 !! id = Some (prepared id query2)).
Proof.
  intros HP1 HP2 l0. split; [done|]. split; [done|]. intros r l1 c1' E1 r2 l2 c2' x2 E2 id.
  unfold storeStmt in E1, E2. rewrite HP1 in E1. rewrite HP2 in E2.
  unfold mbind, ST_bind, getL, putL, net in E1, E2.
  destruct (WritePrepare _ _ _ c1) in E1. injection E1 as _ <- _ <-.
  destruct (WritePrepare _ _ _ c2) in E2. injection E2 as _ <- _ _.
  split; [apply lookup_insert_eq | apply lookup_insert_eq].
Qed.

(** A syntax error in a statement to prepare ends the connection: the error is
    reported, and then the missing syntax tree is visited. *)
Theorem prepare_error_panics ctx query e l c b x :
  ParseOneStmt query = Err e -> live 0 c ->
  fst (ExecuteCommand ctx (ComPrepare :: query) (l, set_ephemeral ephemeralRead b c, x)) <> Ok tt.
Proof.
  intros HP Hl. rewrite run_prepare. unfold handlePrepare.
  erewrite ST_run by apply rest_run.
  erewrite ST_run by (by apply recycle_run). erewrite ST_run by reflexivity.
  unfold storeStmt. erewrite ST_run by reflexivity. rewrite HP.
  unfold mbind, ST_bind, net. by destruct (WriteErrorPacketFromError _ c) as [[]].
Qed.

(** Parameters sent as long data never arrive: the statement is looked up under
    a key of another type (and an id read one byte too early), so the command
    fails and the connection ends, for every statement. *)
Theorem long_data_refused ctx text l c x :
  exists e, ExecuteCommand ctx (ComStmtSendLongData :: text) (l, c, x) = (Err e, (l, c, x)).
Proof.
  rewrite run_longData. unfold handleSendLongData. destruct (Z.ltb_spec (len (ComStmtSendLongData :: text)) 6); [by eexists|].
  unfold slice. destruct (_ && _) eqn:E; [by eexists | zbool; lia].
Qed.

(** COM_FIELD_LIST of a table with fields panics: the fields are stored into a
    slice of length zero. *)
Theorem field_list_panics ctx table wildcard l c b x fields x' :
  ~ In 0 table -> live 0 c ->
  ExecuteFieldList ctx (ComFieldList :: table) wildcard x = (inl fields, x') -> fields <> [] ->
  fst (ExecuteCommand ctx (ComFieldList :: table ++ [0] ++ wildcard) (l, set_ephemeral ephemeralRead b c, x)) = Panic.
Proof.
  intros Ht Hl HX Hne. rewrite run_fieldList. unfold handleFieldList.
  change (ComFieldList :: table ++ [0] ++ wildcard) with ((ComFieldList :: table) ++ 0 :: wildcard).
  rewrite IndexByte_app by (cbn; intros [?|?]; [done | contradiction]).
  set (i := Z.of_nat (length (ComFieldList :: table))).
  assert (S1 : slice ((ComFieldList :: table) ++ 0 :: wildcard) 0 i = Ok (ComFieldList :: table))
    by exact (slice_mid [] (ComFieldList :: table) (0 :: wildcard)).
  assert (S2 : slice ((ComFieldList :: table) ++ 0 :: wildcard) (i + 1)
                 (len ((ComFieldList :: table) ++ 0 :: wildcard)) = Ok wildcard).
  { pose proof (slice_mid ((ComFieldList :: table) ++ [0]) wildcard []) as S. rewrite app_nil_r in S.
    rewrite <- app_assoc in S. rewrite <- S. unfold len, i. rewrite !length_app. cbn [length]. f_equal; lia. }
  erewrite ST_run by (unfold liftST; rewrite S1; reflexivity).
  erewrite ST_run by (unfold liftST; rewrite S2; reflexivity).
  erewrite ST_run by (by apply recycle_run).
  erewrite ST_run by (unfold exec; rewrite HX; reflexivity).
  erewrite ST_run by reflexivity. by destruct fields.
Qed.

(** ** Connections and the shared state *)

(** Selecting a database selects it for every connection of the listener: the
    next command of any other one runs in it. *)
Theorem schema_shared ctx db l c b x x' n :
  ExecuteUseDB ctx db x = (None, x') -> 0 <= n ->
  idle (cost [okBytes OKPacket 0 0 (statusFlags c) 0] + n) c ->
  exists c', ExecuteCommand ctx (ComInitDB :: db) (l, set_ephemeral ephemeralRead b c, x) =
      (Ok tt, (set_schemaName db l, c', x')) /\
    forall connID user remote other data r c1, ReadEphemeralPacket (set_sequence 0 other) = (Ok data, c1) ->
      serveOne connID user remote (set_schemaName db l, other, x') = r ->
      r = ExecuteCommand (mkContext connID user remote db) data (set_schemaName db l, c1, x').
Proof.
  intros HX Hn [Hl Hw].
  destruct (okPacket_sends (statusFlags c) OKPacket 0 0 (statusFlags c) 0 c n eq_refl Hn Hl) as (c' & out & E & _).
  exists c'. split.
  - unfold ExecuteCommand. erewrite ST_run by reflexivity. cbn iota beta.
    change (ComInitDB =? ComQuit) with false. change (ComInitDB =? ComInitDB) with true. cbn iota.
    erewrite ST_run by apply rest_run.
    erewrite ST_run by (apply recycle_run; eapply live_weaken; [exact Hl|];
      pose proof (cost_nonneg [okBytes OKPacket 0 0 (statusFlags c) 0]); lia).
    erewrite ST_run by reflexivity. erewrite ST_run by (unfold exec; rewrite HX; reflexivity).
    unfold plainOK. apply net_run. by erewrite bind_M_run by reflexivity.
  - intros connID user remote other data r c1 ER <-. unfold serveOne.
    erewrite ST_run by reflexivity. erewrite ST_run by (rewrite ER; reflexivity).
    by erewrite ST_run by reflexivity.
Qed.

(** Ending a connection tells the executor to close the connection that was
    accepted last, whichever it is: after COM_QUIT of connection [connID] both
    that one and the latest one are closed, and the local transaction of the
    latest client is rolled back. *)
Theorem quit_closes_latest fuel connID user remote l cs x out seq' text :
  live 0 cs -> framed 0 (ComQuit :: text) out seq' -> rd cs = out ->
  exists cs', handleConn (S fuel) connID user remote (l, cs, x) =
    (Ok tt, (l, cs', ConnectionClose (connectionID l) (ConnectionClose connID x))).
Proof.
  intros Hl Hf Hrd. set (c0 := set_sequence 0 cs).
  destruct (ReadEphemeral_framed _ _ _ _ c0 [] Hf eq_refl) as (b & E);
    [cbn; by rewrite app_nil_r | apply Hl | apply Hl |].
  set (c1 := set_rd [] (set_sequence seq' c0)) in *.
  exists c1. unfold handleConn. cbn [serve]. unfold mbind at 1, ST_bind at 1.
  assert (ES : serveOne connID user remote (l, cs, x) =
    (Err "ComQuit", (l, c1, ConnectionClose connID x))).
  { unfold serveOne. erewrite ST_run by reflexivity. fold c0. erewrite ST_run by (rewrite E; reflexivity).
    erewrite ST_run by reflexivity. unfold ExecuteCommand. erewrite ST_run by reflexivity.
    change (ComQuit =? ComQuit) with true. cbn iota.
    erewrite ST_run by (apply recycle_run, live_moved; by destruct Hl; split).
    by erewrite ST_run by reflexivity. }
  by rewrite ES.
Qed.

(** A client that just goes away makes the loop panic: nothing of a request was
    read, and there is no buffer to release.  The panic is recovered by
    [handle]. *)
Theorem disconnect_panics connID user remote l cs x :
  policy cs = ephemeralUnused -> rd cs = [] -> fst (serveOne connID user remote (l, cs, x)) = Panic.
Proof.
  intros Hp Hr. unfold serveOne. erewrite ST_run by reflexivity. unfold mbind at 1, ST_bind at 1.
  assert (E : ReadEphemeralPacket (set_sequence 0 cs) = (Err io_EOF, set_rd [] (set_sequence 0 cs))).
  { unfold ReadEphemeralPacket. erewrite bind_M_run by reflexivity. cbn [policy set_sequence]. rewrite Hp.
    unfold readHeaderFrom, mbind, M_bind, wrapErr, ReadFull. cbn [rd set_sequence]. by rewrite Hr. }
  rewrite E. unfold RecycleReadPacket. erewrite bind_M_run by reflexivity.
  cbn [policy set_sequence set_rd]. by rewrite Hp.
Qed.

(** ** Executing *)
Lemma execute_answers ctx data id cur s ss' fl l x rlt payloads warn x' :
  data <> [] -> hd 0 data = ComStmtExecute ->
  ParseComStmtExecute (stmts l) data = (id, Ok cur, ss') -> id <> 0 -> ss' !! id = Some s ->
  ExecutorComStmtExecute ctx s x = (inl (Some rlt, warn), x') ->
  resFields rlt <> [] -> Forall wireField (resFields rlt) ->
  Sends fl (WriteRows (resFields rlt) (resRows rlt)) payloads tt ->
  Answers ctx data fl l x (resultPayloads (capabilities l) fl rlt payloads warn)
    (set_stmts (<[id := set_vars ∅ s]> ss') l) x'.
Proof.
  intros Hd Hh HP Hid Hs HX Hne Hf HS c b n Hfl Hn Hi.
  destruct data as [|code text]; [done|]. cbn in Hh. subst code.
  change (ExecuteCommand ctx (ComStmtExecute :: text)) with (handleExecute ctx (ComStmtExecute :: text)).
  unfold handleExecute. eapply buffered_run; [|done | done | done].
  intros c0 Hfl0 Hq Hs0 Hr Hl0.
  erewrite ST_run by reflexivity. rewrite HP. erewrite ST_run by reflexivity.
  erewrite ST_run by (apply recycle_run; eapply live_weaken; [exact Hl0|];
    pose proof (cost_nonneg (resultPayloads (capabilities l) fl rlt payloads warn)); lia).
  destruct (writeResult_run ctx rlt warn payloads fl (set_stmts ss' l) x' c0 (1 + n)) as (c1 & out & E & F & S & V & R & SF);
    [done | done | done | done | lia | eapply live_weaken; [exact Hl0 | cbn; lia] |].
  exists c1, out. split_and!; [|by rewrite <- Hq | by rewrite S, Hs0 | done | congruence | congruence].
  unfold finally. destruct (Z.eqb_spec id 0); [done|]. cbn [negb].
  erewrite ST_run by (unfold needStmt; erewrite ST_run by reflexivity; cbn; rewrite Hs; reflexivity).
  erewrite ST_run by (unfold exec; rewrite HX; reflexivity). cbn [answer]. rewrite E.
  unfold resetVars. erewrite ST_run by (unfold needStmt; erewrite ST_run by reflexivity; cbn; rewrite Hs; reflexivity).
  done.
Qed.

(** C14: A prepared statement executed through the proxy.  The driver sends
    between 1 and 65527 arguments, as many as the statement it prepared and the
    listener's entry of that id have parameters, all of them of kinds the driver
    accepts and small enough to travel in the packet ([sendable]), and no
    parameter is bound yet.  They are bound in their order, as the protocol
    carries them ([boundArg]): NULL, int64 and float64 unchanged; a uint64 as
    the int64 of its bits, from 2^63 on negative; a bool as 0 or 1; a string as
    its bytes and a time as its text.  An executor that answers the statement
    so bound with columns and rows is called with it, the driver reads exactly
    these columns and rows, and afterwards the statement keeps the types of the
    arguments but no bound values; both connections are ready again. *)
Theorem execute_served MaxAllowedPacket inLoc stmt s args connID user remote l x rlt payloads warn x' cs cc n :
  Forall (sendable MaxAllowedPacket inLoc stmt) args -> args <> [] -> len args = paramCount stmt ->
  len args < 65528 -> 0 < id stmt < 4294967296 -> stmts l !! id stmt = Some s ->
  ParamsCount s = len args -> length (ParamsType s) = length args -> BindVars s = ∅ ->
  len (executePayload inLoc stmt args) < two63 ->
  (forall vars, (forall j a, args !! j = Some a -> vars !! parameterID (Z.of_nat j) = Some (boundArg inLoc a)) ->
     ExecutorComStmtExecute (mkContext connID user remote (schemaName l))
       (set_vars vars (set_types (argType <$> args) s)) x = (inl (Some rlt, warn), x')) ->
  resFields rlt <> [] -> len (resFields rlt) < two63 -> Forall wireField (resFields rlt) ->
  Forall isRow payloads ->
  Sends (statusFlags cs) (WriteRows (resFields rlt) (resRows rlt)) payloads tt ->
  0 <= statusFlags cs < 65536 -> 0 <= warn < 65536 -> 0 <= n ->
  idle (cost (resultPayloads (capabilities l) (statusFlags cs) rlt payloads warn) + 1 + n) cs ->
  live (cost [executePayload inLoc stmt args] + n) cc ->
  exists c2s s2c cs' cc',
    serveOne connID user remote (l, set_rd c2s cs, x) =
      (Ok tt, (set_stmts (<[id stmt := set_types (argType <$> args) s]> (stmts l)) l, cs', x')) /\
    wr cs' = wr cs ++ s2c /\ rd cs' = [] /\ idle n cs' /\
    (_ ← writeExecutePacket MaxAllowedPacket inLoc stmt args; ReadQueryResult (capabilities l) true) (set_rd s2c cc) =
      (Ok (mkResult (Some (readField <$> resFields rlt)) (len payloads) 0 payloads,
           hasFlag (statusFlags cs) ServerMoreResultsExists, warn), cc') /\
    sent cc' = sent cc ++ c2s /\ rd cc' = [] /\ live n cc'.
Proof.
  intros Hall Hne Hcount Hsmall Hid Hs Hpc Hpt Hbv Hlen HX Hf0 Hflen Hf Hrow HS Hfl Hw Hn Hi Hc.
  destruct (ParseExecute_run MaxAllowedPacket inLoc stmt s (stmts l) args) as (vars & HP & HV); try done; [lia|].
  pose proof (execute_answers (mkContext connID user remote (schemaName l)) (executePayload inLoc stmt args)
    (id stmt) 0 _ _ (statusFlags cs) l x rlt payloads warn x' ltac:(done) ltac:(done) HP ltac:(lia)
    (lookup_insert_eq _ _ _) (HX vars HV) Hf0 Hf HS) as HA.
  rewrite insert_insert_eq in HA.
  replace (set_vars ∅ (set_vars vars (set_types (argType <$> args) s))) with (set_types (argType <$> args) s) in HA
    by (destruct s; cbn in *; by subst).
  assert (HQ : Requests (writeExecutePacket MaxAllowedPacket inLoc stmt args) (executePayload inLoc stmt args)).
  { intros c k Hk Hl. by apply writeExecute_run. }
  pose proof (ReadQueryResult_receives (capabilities l) (statusFlags cs) (resFields rlt) payloads warn
                Hf0 Hflen Hf Hrow Hfl Hw) as HR.
  exact (served _ _ _ _ _ _ _ _ _ _ _ _ _ cs cc n HA HQ HR eq_refl Hn Hi Hc).
Qed.
End listener.

(** ** An executor for the examples

    Its state is the list of connections with an open local transaction; every
    query returns one row with one text column.  The parser takes everything
    but the empty statement. *)
Definition sampleRow : anyRow :=
  match decodeRow (ParseRow TextProtocol [nameField] [1; 97]) with Ok r => r | _ => ATextRow (newRow [] []) end.

Definition sampleResult : queryResult := mkQueryResult [nameField] 0 0 [sampleRow].

#[export] Instance sampleParser : Parser := {
  StmtNode := unit;
  ParseOneStmt q := match q with [] => Err "syntax error" | _ => Ok tt end }.

#[export] Instance sampleExecutor : Executor (list Z) := {
  ConnectionClose id := List.filter (fun i => negb (i =? id));
  ExecuteUseDB _ _ x := (None, x);
  ExecutorComQuery _ _ _ x := (inl (Some sampleResult, 0), x);
  ExecutorComStmtExecute _ _ x := (inl (Some sampleResult, 0), x);
  ExecuteFieldList _ _ _ x := (inl [nameField], x);
  InLocalTransaction id x := existsb (Z.eqb id) x }.

Lemma sampleRow_sends fl : Sends fl (WriteRows [nameField] [sampleRow]) [[1; 97]] tt.
Proof.
  destruct (rows_pass fl TextProtocol [nameField] [[1; 97]]) as (rows & E & HS).
  { constructor; [|constructor]. split; [vm_compute; reflexivity|]. exists [Some [97]]. split; [done|].
    constructor; [vm_compute; intuition congruence | constructor]. }
  assert (EV : decodeResult (ParseRow TextProtocol [nameField] <$> [[1; 97]]) = Ok [sampleRow])
    by (vm_compute; reflexivity).
  rewrite EV in E. injection E as <-. exact HS.
Qed.

Definition sampleListener : Listener := mkListener 2 0 45 (bytes_of "orders") 7 {[7 := stmtOf 1]}.

Lemma idle_NewConn n : idle (Z.of_nat n) (NewConn [] n).
Proof. by split. Qed.

Lemma query_served_witness :
  exists c2s s2c cs' cc',
    serveOne 1 [] [] (sampleListener, set_rd c2s (NewConn [] 61), [2]) =
      (Ok tt, (sampleListener, cs', [2])) /\
    wr cs' = wr (NewConn [] 61) ++ s2c /\ rd cs' = [] /\ idle 0 cs' /\
    (_ ← WriteComQuery (bytes_of "select name from t"); ReadQueryResult 0 true) (set_rd s2c (NewConn [] 6)) =
      (Ok (mkResult (Some [nameField]) 1 0 [[1; 97]], false, 0), cc') /\
    sent cc' = sent (NewConn [] 6) ++ c2s /\ rd cc' = [] /\ live 0 cc'.
Proof.
  apply (@query_served zero_pool sampleParser (list Z) sampleExecutor 1 [] [] (bytes_of "select name from t") tt sampleListener [2] sampleResult [[1; 97]] 0 [2]
           (NewConn [] 61) (NewConn [] 6) 0).
  - reflexivity.
  - reflexivity.
  - done.
  - done.
  - constructor; [apply nameField_wire | constructor].
  - repeat constructor; vm_compute; congruence.
  - apply sampleRow_sends.
  - vm_compute; intuition congruence.
  - lia.
  - lia.
  - split; [split; try done; vm_compute; congruence | done].
  - split; try done; vm_compute; congruence.
Defined.

Lemma execute_served_witness :
  exists c2s s2c cs' cc',
    serveOne 1 [] [] (sampleListener, set_rd c2s (NewConn [] 61), [2]) =
      (Ok tt, (set_stmts (<[7 := set_types [FieldTypeLongLong] (stmtOf 1)]> {[7 := stmtOf 1]}) sampleListener, cs', [2])) /\
    wr cs' = wr (NewConn [] 61) ++ s2c /\ rd cs' = [] /\ idle 0 cs' /\
    (_ ← writeExecutePacket 4194304 (fun t => t) (mkBackendStatement 7 1) [GInt64 (-5)];
     ReadQueryResult 0 true) (set_rd s2c (NewConn [] 6)) =
      (Ok (mkResult (Some [nameField]) 1 0 [[1; 97]], false, 0), cc') /\
    sent cc' = sent (NewConn [] 6) ++ c2s /\ rd cc' = [] /\ live 0 cc'.
Proof.
  apply (@execute_served zero_pool sampleParser (list Z) sampleExecutor 4194304 (fun t => t) (mkBackendStatement 7 1) (stmtOf 1) [GInt64 (-5)] 1 [] []
           sampleListener [2] sampleResult [[1; 97]] 0 [2] (NewConn [] 61) (NewConn [] 6) 0).
  - constructor; [cbn; unfold_width; lia | constructor].
  - done.
  - reflexivity.
  - vm_compute. reflexivity.
  - cbn. lia.
  - apply lookup_singleton_eq.
  - reflexivity.
  - reflexivity.
  - reflexivity.
  - vm_compute. reflexivity.
  - intros. reflexivity.
  - done.
  - done.
  - constructor; [apply nameField_wire | constructor].
  - repeat constructor; vm_compute; congruence.
  - apply sampleRow_sends.
  - vm_compute; intuition congruence.
  - lia.
  - lia.
  - split; [split; try done; vm_compute; congruence | done].
  - split; try done; vm_compute; congruence.
Defined.

Lemma command_leaves_ready_witness :
  exists l' c' x', ExecuteCommand (mkContext 1 [] [] []) [ComPing] (sampleListener, set_ephemeral ephemeralRead None (NewConn [] 6), [2]) =
    (Ok tt, (l', c', x')) /\ policy c' = ephemeralUnused.
Proof.
  destruct (ExecuteCommand (mkContext 1 [] [] []) [ComPing]
    (sampleListener, set_ephemeral ephemeralRead None (NewConn [] 6), [2])) as [r [[l' c'] x']] eqn:E.
  assert (Hr : r = Ok tt) by (apply (f_equal fst) in E; vm_compute in E; by rewrite <- E).
  subst r. exists l', c', x'. split; [reflexivity|].
  apply (command_leaves_ready (mkContext 1 [] [] []) [ComPing] sampleListener
    (set_ephemeral ephemeralRead None (NewConn [] 6)) [2] l' c' x' ComPing []);
    [reflexivity | vm_compute; tauto | reflexivity | exact E].
Defined.

Lemma sample_stmtsOk : stmtsOk sampleListener.
Proof.
  split; [|cbn; lia]. apply map_Forall_singleton. split; [done | cbn; lia | done].
Qed.


(** Connections 1 and 2 are open, 2 in a transaction; 1 quits. *)
Lemma quit_closes_latest_witness :
  exists cs', handleConn 1 1 [] [] (sampleListener, NewConn [1; 0; 0; 0; 1] 0, [2]) =
    (Ok tt, (sampleListener, cs', [])).
Proof.
  destruct (quit_closes_latest 0 1 [] [] sampleListener (NewConn [1; 0; 0; 0; 1] 0) [2] [1; 0; 0; 0; 1] 1 [])
    as (cs' & E);
    [by split | exact (framed_last 0 [ComQuit] ltac:(vm_compute; reflexivity)) | reflexivity |].
  exists cs'. exact E.
Defined.
