(* ===== verification/Topology.v ===== *)
(** * Table topology: [pkg/topo/topo.go]

    [ParseTopology] turns the configured map "database index -> table range"
    into the lookup tables the sharding code routes with.  [Max] is
    [mathutil.Max] of a third-party package and is a parameter. *)
From Stdlib Require Import ZArith Lia List Ascii String Permutation.
From stdpp Require Import base gmap strings list.
From S2P Require Import Prelude GoText.

Local Open Scope Z_scope.

Class MathUtil := {
  Max : Z -> Z -> Z;
  Max_spec : forall a b, Max a b = Z.max a b }.

#[export] Instance MathUtil_max : MathUtil | 100 :=
  { Max := Z.max; Max_spec := fun _ _ => eq_refl }.

Record Topology := mkTopology {
  DBName : string;
  TableName : string;
  DBs : gmap string (list string);
  Tables : gmap string string;
  TableIndexMap : gmap Z string;
  TableSlice : list Z;
  TableSliceLen : Z }.

Definition isDigit (c : ascii) : bool := (48 <=? chr c) && (chr c <=? 57).

Definition allDigits (s : string) : bool := forallb isDigit (list_of s).

(** [misc.IsNumeric]: the empty string or a match of [^[0-9]+$]. *)
Definition IsNumeric (s : string) : bool := allDigits s.

(** [topologyRegexp.FindStringSubmatch]: the two groups of [^(\d+)-(\d+)$]. *)
Definition topologyMatch (s : string) : option (string * string) :=
  match cut_first s "-" with
  | Some (a, b) =>
    if negb (String.eqb a "") && allDigits a && (negb (String.eqb b "") && allDigits b)
    then Some (a, b) else None
  | None => None
  end.

(** [fmt.Sprintf("%s_%d", name, i)]. *)
Definition indexed (name : string) (i : Z) : string :=
  (name +:+ "_" +:+ FormatInt i)%string.

(** The table indexes one topology entry names, in the order the loops visit
    them. *)
Definition entryIndexes (tp : string) : res (list Z) :=
  if IsNumeric tp then
    index ← Atoi tp;
    Ok [index]
  else
    match topologyMatch tp with
    | None => Err "incorrect topology format"
    | Some (p1, p2) =>
      begin ← Atoi p1;
      end_ ← Atoi p2;
      if end_ <=? begin
      then Err "incorrect topology, begin index must be less than end index"
      else Ok (upto begin (end_ + 1))
    end.

(** The local variables of [ParseTopology]. *)
Record acc := mkAcc {
  dbs : gmap string (list string);
  tables : gmap string string;
  tableIndexMap : gmap Z string;
  tableIndexSlice : list Z;
  max : Z }.

Section parse.
Context `{MathUtil}.

(** One iteration of the inner loop body (both branches share it). *)
Definition addTable (tableName realDB : string) (s : acc * list string) (index : Z)
  : acc * list string :=
  let '(a, tableSlice) := s in
  let realTable := indexed tableName index in
  (mkAcc (dbs a) (<[realTable := realDB]> (tables a))
     (<[index := realTable]> (tableIndexMap a)) (tableIndexSlice a ++ [index])
     (Max (max a) index),
   tableSlice ++ [realTable]).

Definition addDB (dbName tableName : string) (a : acc) (i : Z) (idxs : list Z) : acc :=
  let realDB := indexed dbName i in
  let '(a', tableSlice) := fold_left (addTable tableName realDB) idxs (a, []) in
  mkAcc (<[realDB := tableSlice]> (dbs a')) (tables a') (tableIndexMap a')
    (tableIndexSlice a') (max a').

(** The outer loop, [k] entries from [i]. *)
Fixpoint parseEntries (dbName tableName : string) (topology : gmap Z string)
    (a : acc) (i : Z) (k : nat) : res acc :=
  match k with
  | O => Ok a
  | S k' =>
    let tp := default ""%string (topology !! i) in
    if String.eqb tp "" then Err "incorrect topology format"
    else
      idxs ← entryIndexes tp;
      parseEntries dbName tableName topology (addDB dbName tableName a i idxs) (i + 1) k'
  end.

Definition ParseTopology (dbName tableName : string) (topology : gmap Z string)
  : res Topology :=
  a ← parseEntries dbName tableName topology (mkAcc ∅ ∅ ∅ [] 0) 0 (size topology);
  if negb (max a =? Z.of_nat (length (tableIndexSlice a)) - 1)
  then Err ("table index must from 0 to " +:+
            FormatInt (Z.of_nat (length (tableIndexSlice a)) - 1))%string
  else Ok (mkTopology dbName tableName (dbs a) (tables a) (tableIndexMap a)
             (tableIndexSlice a) (Z.of_nat (length (tableIndexSlice a)))).

End parse.

(** ** Rendered names are injective in the index *)
Lemma FormatInt_inj a b : in_i64 a -> in_i64 b -> FormatInt a = FormatInt b -> a = b.
Proof.
  intros Ha Hb E. apply ParseInt_err_FormatInt in Ha, Hb.
  rewrite E in Ha. congruence.
Qed.

Lemma append_inj_l s a b : (s +:+ a = s +:+ b -> a = b)%string.
Proof. induction s; cbn; [done|]. intros [=]. auto. Qed.

Lemma indexed_inj name a b :
  in_i64 a -> in_i64 b -> indexed name a = indexed name b -> a = b.
Proof.
  unfold indexed. intros Ha Hb E%append_inj_l%append_inj_l. by apply FormatInt_inj.
Qed.

(** ** The invariant of the lookup tables *)
Section invariant.
Context `{MathUtil}.

(** Every registered index is non-negative and bounded by [max], its table
    name is recorded, and the database recorded for that table either lists
    the table or is the one being filled ([cur]). *)
Definition acc_inv (tableName : string) (cur : option (string * list string)) (a : acc) : Prop :=
  0 <= max a /\
  (In (max a) (tableIndexSlice a) \/ max a = 0) /\
  forall idx, In idx (tableIndexSlice a) ->
    0 <= idx <= max a /\ in_i64 idx /\
    tableIndexMap a !! idx = Some (indexed tableName idx) /\
    exists db, tables a !! indexed tableName idx = Some db /\
      match cur with
      | Some (realDB, ts) =>
        (db = realDB /\ In (indexed tableName idx) ts) \/
        (db <> realDB /\ exists l, dbs a !! db = Some l /\ In (indexed tableName idx) l)
      | None => exists l, dbs a !! db = Some l /\ In (indexed tableName idx) l
      end.

Lemma addTable_inv tableName realDB a ts idx :
  0 <= idx -> in_i64 idx ->
  acc_inv tableName (Some (realDB, ts)) a ->
  let '(a', ts') := addTable tableName realDB (a, ts) idx in
  acc_inv tableName (Some (realDB, ts')) a' /\ dbs a' = dbs a /\
  tableIndexSlice a' = tableIndexSlice a ++ [idx].
Proof.
  intros H0 Hr (Hm & Hmax & Hinv). cbn. split; [|done].
  unfold acc_inv. cbn. rewrite Max_spec. split_and!; [lia | |].
  - rewrite in_app_iff. cbn. destruct Hmax as [?|?].
    + destruct (Z.max_spec (max a) idx) as [[? ->]|[? ->]]; auto.
    + destruct (Z.max_spec (max a) idx) as [[? ->]|[? ->]]; [auto | by right].
  - intros j [Hj|[<-|[]]]%in_app_iff.
    + destruct (Hinv j Hj) as (Hb & Hj64 & Hmap & db & Hdb & Hcur).
      split; [lia|]. split; [done|].
      destruct (decide (idx = j)) as [->|Hne].
      * rewrite lookup_insert_eq. split; [done|]. exists realDB. rewrite lookup_insert_eq.
        split; [done|]. left. split; [done|]. apply in_app_iff; cbn; auto.
      * rewrite lookup_insert_ne by done. split; [done|].
        rewrite lookup_insert_ne by (intros E%indexed_inj; done).
        exists db. split; [done|]. destruct Hcur as [[? ?]|?]; [left | by right].
        split; [done | apply in_app_iff; auto].
    + split; [lia|]. split; [done|]. rewrite lookup_insert_eq. split; [done|].
      exists realDB. rewrite lookup_insert_eq. split; [done|]. left. split; [done|].
      apply in_app_iff; cbn; auto.
Qed.

Lemma addTables_inv tableName realDB idxs a ts :
  Forall (fun i => 0 <= i /\ in_i64 i) idxs ->
  acc_inv tableName (Some (realDB, ts)) a ->
  let '(a', ts') := fold_left (addTable tableName realDB) idxs (a, ts) in
  acc_inv tableName (Some (realDB, ts')) a' /\ dbs a' = dbs a /\
  tableIndexSlice a' = tableIndexSlice a ++ idxs.
Proof.
  revert a ts; induction idxs as [|i idxs IH]; intros a ts Hf Hinv; cbn [fold_left].
  - by rewrite app_nil_r.
  - inversion Hf as [|? ? [Hi0 Hi] Hf']; subst.
    pose proof (addTable_inv tableName realDB a ts i Hi0 Hi Hinv) as Hstep.
    destruct (addTable tableName realDB (a, ts) i) as [a1 ts1].
    destruct Hstep as (Hinv1 & Hd1 & Hs1). specialize (IH a1 ts1 Hf' Hinv1).
    destruct (fold_left _ _ _) as [a2 ts2]. destruct IH as (? & Hd2 & Hs2).
    split; [done|]. rewrite Hd2, Hd1, Hs2, Hs1, <- app_assoc. done.
Qed.

(** The databases registered so far are those of the entries before [i]. *)
Definition dbs_below (dbName : string) (i : Z) (a : acc) : Prop :=
  forall k, is_Some (dbs a !! k) -> exists j, 0 <= j < i /\ k = indexed dbName j.

Lemma addDB_inv dbName tableName a i idxs :
  0 <= i -> in_i64 i -> Forall (fun j => 0 <= j /\ in_i64 j) idxs ->
  acc_inv tableName None a -> dbs_below dbName i a ->
  acc_inv tableName None (addDB dbName tableName a i idxs) /\
  dbs_below dbName (i + 1) (addDB dbName tableName a i idxs) /\
  tableIndexSlice (addDB dbName tableName a i idxs) = tableIndexSlice a ++ idxs.
Proof.
  intros Hi Hi64 Hf Hinv Hbelow. set (realDB := indexed dbName i).
  assert (Hfresh : forall db l, dbs a !! db = Some l -> db <> realDB).
  { intros db l Hdb ->. destruct (Hbelow realDB) as (j & Hj & E); [by eexists|].
    apply indexed_inj in E; [lia | done | unfold_width; lia]. }
  assert (Hstart : acc_inv tableName (Some (realDB, [])) a).
  { destruct Hinv as (Hm & Hx & Hall). split; [done|]. split; [done|].
    intros idx Hidx. destruct (Hall idx Hidx) as (? & ? & ? & db & ? & l & Hl & Hin).
    do 3 (split; [done|]). exists db. split; [done|]. right. split; [eauto | eauto]. }
  unfold addDB. fold realDB.
  pose proof (addTables_inv tableName realDB idxs a [] Hf Hstart) as Hstep.
  destruct (fold_left _ _ _) as [a' ts]. destruct Hstep as ((Hm & Hx & Hall) & Hd & Hs).
  split_and!; cbn; [| |done].
  - split; [done|]. split; [done|]. cbn. intros idx Hidx.
    destruct (Hall idx Hidx) as (? & ? & ? & db & ? & Hcur). do 3 (split; [done|]).
    exists db. split; [done|]. destruct Hcur as [[-> Hin]|(Hne & l & Hl & Hin)].
    + exists ts. by rewrite lookup_insert_eq.
    + exists l. by rewrite lookup_insert_ne.
  - intros k. cbn. destruct (decide (realDB = k)) as [<-|Hne].
    + intros _. exists i. split; [lia | done].
    + rewrite lookup_insert_ne by done. rewrite Hd. intros Hk.
      destruct (Hbelow k Hk) as (j & ? & ?). exists j. split; [lia | done].
Qed.

Lemma allDigits_nonneg s n : allDigits s = true -> Atoi s = Ok n -> 0 <= n.
Proof.
  destruct s as [|c s]; [done|]. unfold allDigits. cbn [list_of forallb].
  intros [Hc _]%andb_prop. unfold isDigit in Hc. zbool.
  unfold Atoi, ParseInt_err, ParseInt.
  rewrite (proj2 (Z.eqb_neq (chr c) 45)), (proj2 (Z.eqb_neq (chr c) 43)) by lia.
  cbn [orb]. destruct (ParseUint (String c s)) as [un err] eqn:E.
  assert (0 <= un < two64).
  { eapply parseUintLoop_value_range; [|exact E]. unfold two64; lia. }
  case_bool_decide; [done|]. cbn. zcases; cbn; intros [= <-]; lia.
Qed.

Lemma entryIndexes_range tp idxs :
  entryIndexes tp = Ok idxs -> Forall (fun j => 0 <= j /\ in_i64 j) idxs.
Proof.
  unfold entryIndexes, IsNumeric. destruct (allDigits tp) eqn:Ed.
  - intros (n & Hn & [= <-])%bind_Ok. constructor; [|constructor].
    split; [by eapply allDigits_nonneg | by eapply ParseInt_err_range].
  - unfold topologyMatch. destruct (cut_first tp "-") as [[p1 p2]|]; [|done].
    destruct (negb (String.eqb p1 "") && _) eqn:E1; cbn [andb]; [|done].
    destruct (negb (String.eqb p2 "") && _) eqn:E2; [|done].
    intros (b & Hb & (e & He & Hcmp)%bind_Ok)%bind_Ok.
    destruct (Z.leb_spec e b); [done|]. injection Hcmp as <-.
    apply andb_prop in E1 as [_ E1]. apply andb_prop in E2 as [_ E2].
    pose proof (allDigits_nonneg _ _ E1 Hb). apply ParseInt_err_range in Hb, He.
    apply List.Forall_forall. intros j Hj%upto_In. unfold_width. lia.
Qed.

Lemma parseEntries_inv dbName tableName topology a i k a' :
  0 <= i -> i + Z.of_nat k < two63 ->
  acc_inv tableName None a -> dbs_below dbName i a ->
  parseEntries dbName tableName topology a i k = Ok a' -> acc_inv tableName None a'.
Proof.
  revert a i; induction k as [|k IH]; intros a i Hi Hk Hinv Hb; cbn [parseEntries].
  - by intros [= <-].
  - destruct (String.eqb _ ""); [done|]. intros (idxs & Hidx & Hrest)%bind_Ok.
    apply entryIndexes_range in Hidx.
    destruct (addDB_inv dbName tableName a i idxs) as (? & ? & _);
      [done | unfold_width; lia | done.. |].
    eapply IH; [| |done|done|done]; lia.
Qed.
End invariant.

(** What the routing code relies on. *)
Definition topology_ok (t : Topology) : Prop :=
  TableSliceLen t = Z.of_nat (length (TableSlice t)) /\
  forall idx, In idx (TableSlice t) ->
    0 <= idx < TableSliceLen t /\
    TableIndexMap t !! idx = Some (indexed (TableName t) idx) /\
    exists db l, Tables t !! indexed (TableName t) idx = Some db /\
      DBs t !! db = Some l /\ In (indexed (TableName t) idx) l.

Lemma ParseTopology_inv `{MathUtil} dbName tableName topology t :
  Z.of_nat (size topology) < two63 ->
  ParseTopology dbName tableName topology = Ok t -> topology_ok t.
Proof.
  intros Hs (a & Ha & Hmax)%bind_Ok.
  apply parseEntries_inv in Ha; [| lia | lia | | ].
  - destruct Ha as (_ & _ & Hall).
    destruct (Z.eqb_spec (max a) (Z.of_nat (length (tableIndexSlice a)) - 1)) as [E|]; [|done].
    injection Hmax as <-. split; [done|]. cbn. intros idx Hidx.
    destruct (Hall idx Hidx) as (? & ? & ? & db & ? & l & ? & ?).
    split; [lia|]. split; [done|]. by exists db, l.
  - split; [cbn; lia|]. split; [by right|]. by intros ? [].
  - intros k [? Hk]. cbn [dbs] in Hk. by rewrite lookup_empty in Hk.
Qed.

(** A list of [n] distinct integers of [0, n) is a permutation of it. *)
Lemma NoDup_range_perm (l : list Z) :
  NoDup l -> (forall x, In x l -> 0 <= x < Z.of_nat (length l)) ->
  Permutation l (upto 0 (Z.of_nat (length l))).
Proof.
  intros Hnd Hr. apply NoDup_Permutation_bis.
  - by apply NoDup_ListNoDup.
  - apply Nat2Z.inj_le. rewrite upto_length. lia.
  - intros x Hx. apply upto_In, Hr, Hx.
Qed.

(** When [ParseTopology] accepts a configuration, every table index it
    lists is in range, has its table name recorded, and the table is recorded
    in a database that lists it. *)
Theorem ParseTopology_tables `{MathUtil} dbName tableName topology t :
  Z.of_nat (size topology) < two63 ->
  ParseTopology dbName tableName topology = Ok t ->
  TableSliceLen t = Z.of_nat (length (TableSlice t)) /\
  forall idx, In idx (TableSlice t) ->
    0 <= idx < TableSliceLen t /\
    TableIndexMap t !! idx = Some (indexed (TableName t) idx) /\
    exists db l, Tables t !! indexed (TableName t) idx = Some db /\
      DBs t !! db = Some l /\ In (indexed (TableName t) idx) l.
Proof. apply ParseTopology_inv. Qed.

(** A configuration of two databases and five tables. *)
Definition sample_config : gmap Z string := {[ 0 := "0-2"; 1 := "3-4" ]}%string.

Lemma ParseTopology_tables_witness :
  exists t, ParseTopology "school" "student" sample_config = Ok t /\
    TableSliceLen t = Z.of_nat (length (TableSlice t)).
Proof.
  eexists; split; [vm_compute; reflexivity|].
  apply (ParseTopology_tables "school" "student" sample_config);
    [vm_compute; reflexivity | vm_compute; reflexivity].
Defined.

(** When the accepted entries name no table twice, the tables are exactly
    those numbered [0 .. n-1], so every residue modulo [n] has its table. *)
Theorem ParseTopology_covers `{MathUtil} dbName tableName topology t :
  Z.of_nat (size topology) < two63 ->
  ParseTopology dbName tableName topology = Ok t -> NoDup (TableSlice t) ->
  Permutation (TableSlice t) (upto 0 (TableSliceLen t)).
Proof.
  intros Hs Hp Hnd. apply ParseTopology_inv in Hp as [E Hall]; [|done].
  rewrite E in *. apply NoDup_range_perm; [done|]. intros x Hx. by apply Hall.
Qed.

Lemma ParseTopology_covers_witness :
  exists t, ParseTopology "school" "student" sample_config = Ok t /\
    Permutation (TableSlice t) (upto 0 (TableSliceLen t)).
Proof.
  eexists; split; [vm_compute; reflexivity|].
  apply (ParseTopology_covers "school" "student" sample_config);
    [vm_compute; reflexivity | vm_compute; reflexivity |
     apply (bool_decide_unpack _); vm_compute; exact I].
Defined.

(** The check on the largest index does not exclude an index named twice:
    two databases that both claim table 1 are accepted, and table 0 exists in
    no database. *)
Theorem ParseTopology_duplicate_accepted :
  exists t, ParseTopology "db" "t" {[ 0 := "1"; 1 := "1" ]}%string = Ok t /\
    TableSlice t = [1; 1] /\ TableSliceLen t = 2 /\ TableIndexMap t !! 0 = None.
Proof. eexists. split; [vm_compute; reflexivity|]. done. Qed.
