(* ===== verification/Database.v ===== *)
(** * Data sources, their connection pools and local transactions:
    [pkg/sql/db.go], [pkg/sql/tx.go], [pkg/proto/context.go],
    [third_party/pools/resource_pool.go]

    A data source hands out connections of a pool.  A statement takes one and
    gives it back; a transaction keeps one until it ends.  Transactions are
    shared objects: executors keep references to them, so they live in a heap
    and [Close] changes what every reference sees.

    What a database answers is the class [Backend].  [trace] records which
    client's request was sent on which connection.  An operation returns, waits
    for ever (an empty pool, as long as no other goroutine gives a connection
    back) or panics; errors of the code are values it returns. *)
From Stdlib Require Import ZArith Lia List.
From stdpp Require Import base gmap list strings.
From S2P Require Import Prelude GoText Encoding Layout Conn Packets PacketSpec GoTime DateTime Rows Stmt Collations Handshake Listener.

Local Open Scope Z_scope.

(** ** Contexts *)
Definition flagMaster : Z := 1.
Definition flagSlave : Z := 2.

(** The values of a [context.Context] the data sources look at. *)
Record dbContext := mkDbContext { connectionOf : Z; flagOf : Z }.

Definition WithMaster (ctx : dbContext) : dbContext := mkDbContext (connectionOf ctx) (Z.lor flagMaster (flagOf ctx)).
Definition WithSlave (ctx : dbContext) : dbContext := mkDbContext (connectionOf ctx) (Z.lor flagSlave (flagOf ctx)).
Definition IsMaster (ctx : dbContext) : bool := negb (Z.land (flagOf ctx) flagMaster =? 0).
Definition IsSlave (ctx : dbContext) : bool := negb (Z.land (flagOf ctx) flagSlave =? 0).
(** [context.Background()] *)
Definition Background : dbContext := mkDbContext 0 0.
(** [proto.WithConnectionID] on a context without flags, as the listener makes it. *)
Definition clientContext (connectionID : Z) : dbContext := mkDbContext connectionID 0.

(** ** Outcomes *)
Inductive outcome (A : Type) := Returns (a : A) | Waits | Panics.
Arguments Returns {A} a.
Arguments Waits {A}.
Arguments Panics {A}.

(** A connection to a database: the data source it belongs to and a number. *)
Definition backend : Type := string * nat.

Inductive request :=
| Execute (sql : bytes)
| PrepareArgs (sql : bytes) (args : list goValue)
| Ping
| InitDB (schema : bytes)
| FieldList (table wildcard : bytes)
| Disconnect.

(** A result with its warnings, or an error. *)
Definition reply : Type := option queryResult * Z + goError.

Class Backend (B : Type) := {
  (** the factory of a pool: [Some] is its error *)
  dial : string -> B -> option goError * B;
  (** [Execute], [ExecuteWithWarningCount], [PrepareQueryArgs], [Ping] and
      [WriteComInitDB] of a [BackendConnection] *)
  perform : backend -> dbContext -> request -> B -> reply * B;
  (** [WriteComFieldList] and [ReadColumnDefinitions] *)
  fieldsOf : backend -> bytes -> bytes -> B -> (list Field + goError) * B;
  (** [StmtNode.Text()] of a prepared statement *)
  textOf : Stmt -> bytes }.

(** ** Pools *)
Module Pool.
Record t := mk {
  capacity : Z; maxCap : Z;
  (** the channel: [None] is an empty wrapper *)
  resources : list (option backend);
  available : Z; inUse : Z; active : Z; exhausted : Z;
  (** the channel has been closed *)
  done : bool }.

Definition set_resources rs p := mk (capacity p) (maxCap p) rs (available p) (inUse p) (active p) (exhausted p) (done p).
Definition set_capacity c p := mk c (maxCap p) (resources p) (available p) (inUse p) (active p) (exhausted p) (done p).
Definition set_available n p := mk (capacity p) (maxCap p) (resources p) n (inUse p) (active p) (exhausted p) (done p).
Definition set_inUse n p := mk (capacity p) (maxCap p) (resources p) (available p) n (active p) (exhausted p) (done p).
Definition set_active n p := mk (capacity p) (maxCap p) (resources p) (available p) (inUse p) n (exhausted p) (done p).
Definition set_exhausted n p := mk (capacity p) (maxCap p) (resources p) (available p) (inUse p) (active p) n (done p).
Definition set_done b p := mk (capacity p) (maxCap p) (resources p) (available p) (inUse p) (active p) (exhausted p) b.

Definition NewResourcePool (capacity maxCap : Z) : outcome t :=
  if (capacity <=? 0) || (maxCap <=? 0) || (capacity >? maxCap) then Panics
  else Returns (mk capacity maxCap (replicate (Z.to_nat capacity) None) capacity 0 0 0 false).

(** [close(resources)] was reached, which happens at capacity 0 only. *)
Definition IsClosed (p : t) : bool := capacity p =? 0.

(** The counters of a connection handed out. *)
Definition take (p : t) : t :=
  let p := set_available (available p - 1) p in
  let p := if available p <=? 0 then set_exhausted (exhausted p + 1) p else p in
  set_inUse (inUse p + 1) p.

(** [Put] of a connection: sending on a full or a closed channel panics. *)
Definition Put (r : backend) (p : t) : option t :=
  if done p || (maxCap p <=? len (resources p)) then None
  else
    let p := set_resources (resources p ++ [Some r]) p in
    let p := set_inUse (inUse p - 1) p in
    Some (set_available (available p + 1) p).

(** The wrappers [SetCapacity] removes: as many as it asks for if there are. *)
Definition remove (n : nat) (p : t) : t :=
  let gone := firstn n (resources p) in
  let live := len (List.filter (fun w => match w with Some _ => true | None => false end) gone) in
  set_active (active p - live) (set_available (available p - len gone) (set_resources (skipn n (resources p)) p)).

Definition SetCapacity (n : Z) (p : t) : outcome (option string) * t :=
  if (n <? 0) || (n >? maxCap p) then (Returns (Some "capacity is out of range"%string), p)
  else if capacity p =? 0 then (Returns (Some "resource pool is closed"%string), p)
  else if capacity p =? n then (Returns None, p)
  else
    let old := capacity p in
    let p := set_capacity n p in
    if n <? old then
      let missing := Z.to_nat (old - n) in
      if bool_decide (length (resources p) < missing)%nat then (Waits, remove missing p)
      else
        let p := remove missing p in
        (Returns None, if n =? 0 then set_done true p else p)
    else
      let more := Z.to_nat (n - old) in
      (Returns None, set_available (available p + (n - old)) (set_resources (resources p ++ replicate more None) p)).
End Pool.

(** ** The state *)
Definition Unknown : Z := 0.
Definition Running : Z := 1.

Section state.
Context {B : Type} `{Backend B}.

(** Filters of a connection; what they do to the database is part of [B]. *)
Definition preFilter : Type := dbContext -> backend -> B -> option goError * B.
Definition postFilter : Type := dbContext -> option queryResult -> backend -> B -> option goError * B.

Record DB := mkDB {
  name : string; status : Z; pingTimesForChangeStatus : Z; pool : Pool.t;
  isMaster : bool; masterName : string; writeWeight : Z; readWeight : Z;
  connectionPreFilters : list preFilter; connectionPostFilters : list postFilter;
  inflightRequests : Z; pingCount : Z }.

Definition set_pool p d := mkDB (name d) (status d) (pingTimesForChangeStatus d) p (isMaster d) (masterName d)
  (writeWeight d) (readWeight d) (connectionPreFilters d) (connectionPostFilters d) (inflightRequests d) (pingCount d).
Definition set_inflight n d := mkDB (name d) (status d) (pingTimesForChangeStatus d) (pool d) (isMaster d) (masterName d)
  (writeWeight d) (readWeight d) (connectionPreFilters d) (connectionPostFilters d) n (pingCount d).
Definition set_ping st n d := mkDB (name d) st (pingTimesForChangeStatus d) (pool d) (isMaster d) (masterName d)
  (writeWeight d) (readWeight d) (connectionPreFilters d) (connectionPostFilters d) (inflightRequests d) n.
Definition set_weights ww rw d := mkDB (name d) (status d) (pingTimesForChangeStatus d) (pool d) (isMaster d) (masterName d)
  ww rw (connectionPreFilters d) (connectionPostFilters d) (inflightRequests d) (pingCount d).

(** A transaction; [Close] clears the references to data source and connection. *)
Record Tx := mkTx { closed : bool; txDB : option string; txConn : option backend }.

Record World := mkWorld {
  (** the data sources of [resource.GetDBManager], by name *)
  dbs : gmap string DB;
  txs : gmap nat Tx; nextTx : nat; nextConn : nat;
  peer : B;
  (** what was sent to the databases: connection, client and request *)
  trace : list (backend * Z * request) }.

Definition set_dbs x w := mkWorld x (txs w) (nextTx w) (nextConn w) (peer w) (trace w).
Definition set_txs x w := mkWorld (dbs w) x (nextTx w) (nextConn w) (peer w) (trace w).
Definition set_nextTx x w := mkWorld (dbs w) (txs w) x (nextConn w) (peer w) (trace w).
Definition set_nextConn x w := mkWorld (dbs w) (txs w) (nextTx w) x (peer w) (trace w).
Definition set_peer x w := mkWorld (dbs w) (txs w) (nextTx w) (nextConn w) x (trace w).
Definition set_trace x w := mkWorld (dbs w) (txs w) (nextTx w) (nextConn w) (peer w) x.

(** ** Operations on the state *)
Definition DM (A : Type) : Type := World -> outcome A * World.
#[global] Typeclasses Opaque DM.
#[global] Instance DM_ret : MRet DM := fun A a w => (Returns a, w).
#[global] Instance DM_bind : MBind DM := fun A C f m w =>
  match m w with
  | (Returns a, w') => f a w'
  | (Waits, w') => (Waits, w')
  | (Panics, w') => (Panics, w')
  end.

Definition wait {A} : DM A := fun w => (Waits, w).
Definition panic {A} : DM A := fun w => (Panics, w).
Definition ended {A} (r : outcome A) : DM A := fun w => (r, w).
Definition read {A} (f : World -> A) : DM A := fun w => (Returns (f w), w).
Definition modify (f : World -> World) : DM unit := fun w => (Returns tt, f w).
Definition onPeer {A} (f : B -> A * B) : DM A := fun w => let '(a, b) := f (peer w) in (Returns a, set_peer b w).

(** [defer d; m]: deferred calls run on a panic too; one that waits or panics
    itself decides the outcome. *)
Definition deferring {A} (d : DM unit) (m : DM A) : DM A := fun w =>
  match m w with
  | (Waits, w') => (Waits, w')
  | (r, w') => match d w' with
               | (Returns _, w'') => (r, w'')
               | (Waits, w'') => (Waits, w'')
               | (Panics, w'') => (Panics, w'')
               end
  end.

(** A method call on the data source [d]: a nil data source panics. *)
Definition getDB (d : string) : DM DB := fun w =>
  match dbs w !! d with Some db => (Returns db, w) | None => (Panics, w) end.
Definition putDB (d : string) (db : DB) : DM unit := modify (fun w => set_dbs (<[d := db]> (dbs w)) w).

(** A request of a client on a connection. *)
Definition logRequest (conn : backend) (ctx : dbContext) (r : request) : DM unit :=
  modify (fun w => set_trace (trace w ++ [(conn, connectionOf ctx, r)]) w).
Definition sendRequest (conn : backend) (ctx : dbContext) (r : request) : DM reply :=
  _ ← logRequest conn ctx r; onPeer (perform conn ctx r).

(** [Get]: the head of the channel, connected first if the wrapper is empty; a
    failed connection leaves an empty wrapper behind. *)
Definition poolGet (d : string) : DM (backend + goError) :=
  db ← getDB d;
  match Pool.resources (pool db) with
  | [] => if Pool.done (pool db) then mret (inr (OtherErr (bytes_of "resource pool is closed"))) else wait
  | Some conn :: rs =>
    _ ← putDB d (set_pool (Pool.take (Pool.set_resources rs (pool db))) db);
    mret (inl conn)
  | None :: rs =>
    err ← onPeer (dial d);
    match err with
    | Some e => _ ← putDB d (set_pool (Pool.set_resources (rs ++ [None]) (pool db)) db); mret (inr e)
    | None =>
      n ← read nextConn;
      _ ← modify (set_nextConn (S n));
      let p := Pool.set_resources rs (pool db) in
      _ ← putDB d (set_pool (Pool.take (Pool.set_active (Pool.active p + 1) p)) db);
      mret (inl (d, n))
    end
  end.

Definition poolPut (d : string) (conn : backend) : DM unit :=
  db ← getDB d;
  match Pool.Put conn (pool db) with
  | Some p => putDB d (set_pool p db)
  | None => panic
  end.

(** ** Connection filters *)
Fixpoint doConnectionPreFilter (fs : list preFilter) (ctx : dbContext) (conn : backend) : DM (option goError) :=
  match fs with
  | [] => mret None
  | f :: fs' => err ← onPeer (f ctx conn);
    match err with Some e => mret (Some e) | None => doConnectionPreFilter fs' ctx conn end
  end.
Fixpoint doConnectionPostFilter (fs : list postFilter) (ctx : dbContext) (result : option queryResult)
    (conn : backend) : DM (option goError) :=
  match fs with
  | [] => mret None
  | f :: fs' => err ← onPeer (f ctx result conn);
    match err with Some e => mret (Some e) | None => doConnectionPostFilter fs' ctx result conn end
  end.

(** [inflightRequests.Inc(); defer inflightRequests.Dec()] *)
Definition addInflight (n : Z) (d : string) : DM unit :=
  db ← getDB d; putDB d (set_inflight (inflightRequests db + n) db).
Definition inflight {A} (d : string) (m : DM A) : DM A :=
  _ ← addInflight 1 d; deferring (addInflight (-1) d) m.

(** [Get], [defer Put] around a body. *)
Definition withConn {A} (d : string) (body : backend -> DM (A + goError)) : DM (A + goError) :=
  r ← poolGet d;
  match r with
  | inr e => mret (inr e)
  | inl conn => deferring (poolPut d conn) (body conn)
  end.

(** A request between the pre- and the post-filters of its data source. *)
Definition filtered (d : string) (ctx : dbContext) (conn : backend) (r : request) : DM reply :=
  db ← getDB d;
  err ← doConnectionPreFilter (connectionPreFilters db) ctx conn;
  match err with
  | Some e => mret (inr e)
  | None =>
    rep ← sendRequest conn ctx r;
    match rep with
    | inr e => mret (inr e)
    | inl (result, warn) =>
      err ← doConnectionPostFilter (connectionPostFilters db) ctx result conn;
      match err with
      | Some e => mret (inr e)
      | None => mret (inl (result, warn))
      end
    end
  end.

(** The arguments [v1], [v2], ... of a prepared statement; a missing one is nil. *)
Definition stmtArgs (stmt : Stmt) : list goValue :=
  (fun i => default GNil (BindVars stmt !! parameterID (Z.of_nat i))) <$> seq 0 (size (BindVars stmt)).

(** ** Data sources *)
Definition NewDB (nm master : string) (pingTimes : Z) (p : Pool.t) : DB :=
  mkDB nm Running pingTimes p (bool_decide (master = ""%string)) master 0 0 [] [] 0 0.

Definition SetWriteWeight (weight : Z) (db : DB) : DB :=
  if isMaster db then set_weights weight (readWeight db) db else db.
Definition SetReadWeight (weight : Z) (db : DB) : DB := set_weights (writeWeight db) weight db.

Definition DB_SetCapacity (d : string) (n : Z) : DM (option string) :=
  db ← getDB d;
  let '(r, p) := Pool.SetCapacity n (pool db) in
  _ ← putDB d (set_pool p db);
  ended r.

(** [for db.inflightRequests.Load() == 0 { db.pool.Close() }] *)
Fixpoint DB_Close (fuel : nat) (d : string) : DM unit :=
  match fuel with
  | O => wait
  | S fuel' =>
    db ← getDB d;
    if inflightRequests db =? 0 then _ ← DB_SetCapacity d 0; DB_Close fuel' d else mret tt
  end.

(** [conn.Ping] *)
Definition connPing (conn : backend) : DM (unit + goError) :=
  rep ← sendRequest conn Background Ping;
  mret (match rep with inl _ => inl tt | inr e => inr e end).

(** [Ping] and [CheckAlive] *)
Definition DB_Ping (d : string) : DM (unit + goError) := withConn d connPing.

(** What a ping does to counter and status. *)
Definition countPing (failed : bool) (db : DB) : option DB :=
  let n := if Bool.eqb (status db =? Running) failed then i64 (pingCount db + 1) else i64 (pingCount db - 1) in
  if pingTimesForChangeStatus db =? 0 then None  (* integer divide by zero *)
  else if Z.rem n (pingTimesForChangeStatus db) =? 0 then
    Some (set_ping (if 0 <? n then Z.land (Z.lxor (status db) 255) 1 else status db) 0 db)
  else Some (set_ping (status db) n db).

(** [_ping]: the deferred function runs after the connection is back. *)
Definition DB_ping (d : string) : DM (unit + goError) :=
  r ← DB_Ping d;
  db ← getDB d;
  match countPing (match r with inl _ => false | inr _ => true end) db with
  | Some db' => _ ← putDB d db'; mret r
  | None => panic
  end.

(** COM_INIT_DB is only written; its answer stays unread. *)
Definition DB_UseDB (d : string) (ctx : dbContext) (schema : bytes) : DM (unit + goError) :=
  inflight d (withConn d (fun conn =>
    rep ← sendRequest conn ctx (InitDB schema);
    mret (match rep with inl _ => inl tt | inr e => inr e end))).

(** The result has length zero, so the first field is stored out of range. *)
Definition DB_ExecuteFieldList (d : string) (ctx : dbContext) (table wildcard : bytes) : DM (list Field + goError) :=
  inflight d (withConn d (fun conn =>
    _ ← logRequest conn ctx (FieldList table wildcard);
    r ← onPeer (fieldsOf conn table wildcard);
    match r with
    | inr e => mret (inr e)
    | inl [] => mret (inl [])
    | inl (_ :: _) => panic
    end)).

Definition DB_Query (d : string) (ctx : dbContext) (query : bytes) : DM reply :=
  inflight d (withConn d (fun conn => filtered d ctx conn (Execute query))).
Definition DB_QueryDirectly (d : string) (query : bytes) : DM reply :=
  inflight d (withConn d (fun conn => sendRequest conn Background (Execute query))).
Definition DB_ExecuteStmt (d : string) (ctx : dbContext) (stmt : Stmt) : DM reply :=
  inflight d (withConn d (fun conn => filtered d ctx conn (PrepareArgs (textOf stmt) (stmtArgs stmt)))).
Definition DB_ExecuteSql (d : string) (ctx : dbContext) (sql : bytes) (args : list goValue) : DM reply :=
  inflight d (withConn d (fun conn => filtered d ctx conn (PrepareArgs sql args))).
Definition DB_ExecuteSqlDirectly (d : string) (sql : bytes) (args : list goValue) : DM reply :=
  inflight d (withConn d (fun conn => sendRequest conn Background (PrepareArgs sql args))).

(** A new transaction object. *)
Definition newTx (d : string) (conn : backend) : DM nat :=
  t ← read nextTx;
  _ ← modify (fun w => set_nextTx (S t) (set_txs (<[t := mkTx false (Some d) (Some conn)]> (txs w)) w));
  mret t.

(** [XAStart] with its statement, [Begin] with [START TRANSACTION]: the
    connection is kept when the statement succeeds. *)
Definition XAStart (d : string) (ctx : dbContext) (sql : bytes) : DM (nat * option queryResult + goError) :=
  r ← poolGet d;
  match r with
  | inr e => mret (inr e)
  | inl conn =>
    rep ← sendRequest conn ctx (Execute sql);
    match rep with
    | inr e => _ ← poolPut d conn; mret (inr e)
    | inl (result, _) => t ← newTx d conn; mret (inl (t, result))
    end
  end.
Definition StartTransaction : bytes := bytes_of "START TRANSACTION".
Definition Begin (d : string) (ctx : dbContext) : DM (nat * option queryResult + goError) :=
  XAStart d ctx StartTransaction.

(** ** Transactions *)
Definition getTx (t : nat) : DM Tx := fun w =>
  match txs w !! t with Some tx => (Returns tx, w) | None => (Panics, w) end.

(** [tx.db] of a closed transaction is nil, and reading its name panics. *)
Definition txSource (t : nat) : DM (string * backend) :=
  tx ← getTx t;
  match txDB tx, txConn tx with
  | Some d, Some conn => mret (d, conn)
  | _, _ => panic
  end.

Definition Tx_Query (t : nat) (ctx : dbContext) (query : bytes) : DM reply :=
  '(d, conn) ← txSource t; inflight d (filtered d ctx conn (Execute query)).
Definition Tx_QueryDirectly (t : nat) (query : bytes) : DM reply :=
  '(d, conn) ← txSource t; inflight d (sendRequest conn Background (Execute query)).
Definition Tx_ExecuteStmt (t : nat) (ctx : dbContext) (stmt : Stmt) : DM reply :=
  '(d, conn) ← txSource t; inflight d (filtered d ctx conn (PrepareArgs (textOf stmt) (stmtArgs stmt))).
Definition Tx_ExecuteSql (t : nat) (ctx : dbContext) (sql : bytes) (args : list goValue) : DM reply :=
  '(d, conn) ← txSource t; inflight d (filtered d ctx conn (PrepareArgs sql args)).
Definition Tx_ExecuteSqlDirectly (t : nat) (sql : bytes) (args : list goValue) : DM reply :=
  '(d, conn) ← txSource t; inflight d (sendRequest conn Background (PrepareArgs sql args)).

Definition Tx_Close (t : nat) : DM unit :=
  modify (fun w => set_txs (<[t := mkTx true None None]> (txs w)) w).

Definition ErrTransactionClosed : goError := OtherErr (bytes_of "transaction closed").
Definition ErrInvalidConn : goError := OtherErr (bytes_of "invalid connection").

(** The guards of the statements that end or shape a transaction; [onClosed]
    is what they return for one that has ended. *)
Definition guarded (t : nat) (onClosed : option queryResult + goError)
    (body : string -> backend -> DM (option queryResult + goError)) : DM (option queryResult + goError) :=
  tx ← getTx t;
  '(d, conn) ← txSource t;
  if closed tx then mret onClosed
  else
    db ← getDB d;
    if Pool.IsClosed (pool db) then mret (inr ErrInvalidConn) else body d conn.

(** [conn.Execute] without its warnings. *)
Definition executeTx (conn : backend) (ctx : dbContext) (sql : bytes) : DM (option queryResult + goError) :=
  rep ← sendRequest conn ctx (Execute sql);
  mret (match rep with inl (result, _) => inl result | inr e => inr e end).

(** The statement that ends the transaction, then [Put] and [Close], whatever
    the database answers. *)
Definition endWith (t : nat) (ctx : dbContext) (sql : bytes) (d : string) (conn : backend) :
    DM (option queryResult + goError) :=
  r ← executeTx conn ctx sql;
  _ ← poolPut d conn;
  _ ← Tx_Close t;
  mret r.

Definition Tx_Commit (t : nat) (ctx : dbContext) : DM (option queryResult + goError) :=
  guarded t (inr ErrTransactionClosed) (endWith t ctx (bytes_of "COMMIT")).
(** [savepoint] is empty for a statement without one and for the nil statement
    of [ConnectionClose]. *)
Definition Tx_Rollback (t : nat) (ctx : dbContext) (savepoint : bytes) : DM (option queryResult + goError) :=
  guarded t (inr ErrTransactionClosed) (fun d conn =>
    match savepoint with
    | [] => endWith t ctx (bytes_of "ROLLBACK") d conn
    | _ => executeTx conn ctx (bytes_of "ROLLBACK TO " ++ savepoint)
    end).
Definition Tx_XAPrepare (t : nat) (ctx : dbContext) (sql : bytes) : DM (option queryResult + goError) :=
  guarded t (inl None) (endWith t ctx sql).
Definition Tx_ReleaseSavepoint (t : nat) (ctx : dbContext) (savepoint : bytes) : DM (option queryResult + goError) :=
  guarded t (inl None) (fun d conn => executeTx conn ctx (bytes_of "RELEASE SAVEPOINT " ++ savepoint)).
End state.
