(* ===== verification/Group.v ===== *)
(** * Groups of data sources: [pkg/group/group.go], with the references of
    [pkg/config/db.go]

    A group has masters and slaves and picks one of the running ones for a
    statement by its load-balancing algorithm.  The random source of
    [rand.Intn] is an argument: any value, of which [Intn] takes the remainder.
    Data sources are named; a group shares them with the rest of the proxy. *)
From Stdlib Require Import ZArith Lia List Ascii String.
From stdpp Require Import base gmap list strings.
From S2P Require Import Prelude GoText Encoding Layout Conn Packets PacketSpec GoTime DateTime Rows Stmt Collations Handshake Listener Topology Database.

Local Open Scope Z_scope.

(** ** References to data sources *)
Definition Random : Z := 0.
Definition RoundRobin : Z := 1.
Definition RandomWeight : Z := 2.

(** [unmarshalText] of the algorithm. *)
Definition unmarshalAlgorithm (alg : string) : option Z :=
  if EqualFold alg "Random" then Some Random
  else if EqualFold alg "RoundRobin" then Some RoundRobin
  else if EqualFold alg "RandomWeight" then Some RandomWeight
  else None.

Record DataSourceRef := mkRef { refName : string; Weight : string }.

(** The two groups of [^r([\d]+)w([\d]+)$]. *)
Definition weightMatch (s : string) : option (string * string) :=
  match s with
  | String "r" rest =>
    match cut_first rest "w" with
    | Some (a, b) =>
      if negb (String.eqb a "") && allDigits a && (negb (String.eqb b "") && allDigits b)
      then Some (a, b) else None
    | None => None
    end
  | _ => None
  end.

(** Read and write weight. *)
Definition ParseWeight (r : DataSourceRef) : res (Z * Z) :=
  match weightMatch (Weight r) with
  | None => Err "datasource reference weight invalid"
  | Some (p1, p2) =>
    match Atoi p1 with
    | Ok rw =>
      match Atoi p2 with
      | Ok ww => Ok (rw, ww)
      | _ => Err "cast write weight for datasource reference failed"
      end
    | _ => Err "cast read weight for datasource reference failed"
    end
  end.

(** ** Groups *)
Record DBGroup := mkGroup {
  groupName : string; masters : list string; slaves : list string; algorithm : Z;
  writeCounter : Z; readCounter : Z }.

Definition set_members ms ss g := mkGroup (groupName g) ms ss (algorithm g) (writeCounter g) (readCounter g).
Definition set_counters wc rc g := mkGroup (groupName g) (masters g) (slaves g) (algorithm g) wc rc.

(** [rand.Intn]: a value of the source reduced to the range. *)
Definition Intn (random n : Z) : option Z := if n <=? 0 then None else Some (random mod n).

(** Weights and their sum, in the order of the data sources. *)
Definition total (weights : list Z) : Z := fold_left (fun t x => i64 (t + x)) weights 0.

(** The loop over cumulated weights. *)
Fixpoint choose {A} (index weightSum : Z) (dbs : list A) (weights : list Z) : option A :=
  match dbs, weights with
  | db :: dbs', x :: weights' =>
    if (weightSum <=? index) && (index <? i64 (weightSum + x)) then Some db
    else choose index (i64 (weightSum + x)) dbs' weights'
  | _, _ => None
  end.

Section group.
Context {B : Type} `{Backend B}.
Implicit Types w : World (B := B).

Definition isRunning w (d : string) : bool :=
  match dbs w !! d with Some db => status db =? Running | None => false end.
Definition weightOf (f : DB (B := B) -> Z) w (d : string) : Z := match dbs w !! d with Some db => f db | None => 0 end.

Definition getAvailableMasters (g : DBGroup) w : list string := List.filter (isRunning w) (masters g).
Definition getAvailableSlaves (g : DBGroup) w : list string := List.filter (isRunning w) (slaves g).

(** [dbs[index]] *)
Definition nth_db (l : list string) (index : Z) : outcome (option string) :=
  if index <? 0 then Panics
  else match l !! Z.to_nat index with Some d => Returns (Some d) | None => Panics end.

Definition randomMaster (rnd : Z) (g : DBGroup) w : outcome (option string) :=
  let dbs := getAvailableMasters g w in
  if len dbs =? 1 then nth_db dbs 0
  else match Intn rnd (len dbs) with Some index => nth_db dbs index | None => Panics end.

Definition roundRobinMaster (g : DBGroup) w : outcome (option string) * DBGroup :=
  let dbs := getAvailableMasters g w in
  if len dbs =? 1 then (nth_db dbs 0, g)
  else if len dbs =? 0 then (Panics, g)  (* integer divide by zero *)
  else (nth_db dbs (Z.rem (writeCounter g) (len dbs)), set_counters (i64 (writeCounter g + 1)) (readCounter g) g).

Definition randomWeightMaster (rnd : Z) (g : DBGroup) w : outcome (option string) :=
  let dbs := getAvailableMasters g w in
  let weights := weightOf writeWeight w <$> dbs in
  if len dbs =? 1 then nth_db dbs 0
  else match Intn rnd (total weights) with
       | None => Panics
       | Some index => Returns (choose index 0 dbs weights)
       end.

Definition random (rnd : Z) (g : DBGroup) (ctx : dbContext) w : outcome (option string) :=
  if IsSlave ctx then
    let slaves := getAvailableSlaves g w in
    if len slaves =? 0 then randomMaster rnd g w
    else if len slaves =? 1 then nth_db slaves 0
    else match Intn rnd (len slaves) with Some index => nth_db slaves index | None => Panics end
  else randomMaster rnd g w.

(** The counter of reads is reduced by the number of masters. *)
Definition roundRobin (g : DBGroup) (ctx : dbContext) w : outcome (option string) * DBGroup :=
  if IsSlave ctx then
    let slaves := getAvailableSlaves g w in
    if len slaves =? 0 then roundRobinMaster g w
    else if len slaves =? 1 then (nth_db slaves 0, g)
    else if len (masters g) =? 0 then (Panics, g)  (* integer divide by zero *)
    else (nth_db slaves (Z.rem (readCounter g) (len (masters g))),
          set_counters (writeCounter g) (i64 (readCounter g + 1)) g)
  else roundRobinMaster g w.

(** Two values of the random source: the loop falls through to the masters when
    no weight matches. *)
Definition randomWeight (rnd rnd' : Z) (g : DBGroup) (ctx : dbContext) w : outcome (option string) :=
  if IsSlave ctx then
    let slaves := getAvailableSlaves g w in
    let dbs := getAvailableMasters g w ++ slaves in
    let weights := weightOf readWeight w <$> dbs in
    if len dbs =? 1 then nth_db slaves 0
    else match Intn rnd (total weights) with
         | None => Panics
         | Some index =>
           match choose index 0 dbs weights with
           | Some d => Returns (Some d)
           | None => randomWeightMaster rnd' g w
           end
         end
  else randomWeightMaster rnd' g w.

(** [None] is the nil data source. *)
Definition pick (rnd rnd' : Z) (g : DBGroup) (ctx : dbContext) w : outcome (option string) * DBGroup :=
  if algorithm g =? Random then (random rnd g ctx w, g)
  else if algorithm g =? RoundRobin then roundRobin g ctx w
  else if algorithm g =? RandomWeight then (randomWeight rnd rnd' g ctx w, g)
  else (Returns None, g).

(** ** Operations *)

(** A registered reference sets the weights of its data source. *)
Definition addRef (g : DBGroup) (r : DataSourceRef) : DM (B := B) (DBGroup + string) :=
  match ParseWeight r with
  | Err e => mret (inr e)
  | Panic => panic
  | Ok (rw, ww) =>
    db ← getDB (refName r);
    _ ← putDB (refName r) (SetReadWeight rw (SetWriteWeight ww db));
    mret (inl (if isMaster db then set_members (masters g ++ [refName r]) (slaves g) g
               else set_members (masters g) (slaves g ++ [refName r]) g))
  end.
Fixpoint addRefs (refs : list DataSourceRef) (g : DBGroup) : DM (B := B) (DBGroup + string) :=
  match refs with
  | [] => mret (inl g)
  | r :: refs' =>
    x ← addRef g r;
    match x with inl g' => addRefs refs' g' | inr e => mret (inr e) end
  end.
Definition NewDBGroup (nm : string) (alg : Z) (refs : list DataSourceRef) : DM (B := B) (DBGroup + string) :=
  addRefs refs (mkGroup nm [] [] alg 0 0).

(** [AddDB] appends a slave once per master it follows. *)
Definition AddDB (d : string) (db : DB (B := B)) (g : DBGroup) : DBGroup :=
  if isMaster db then set_members (masters g ++ [d]) (slaves g) g
  else set_members (masters g)
         (slaves g ++ ((fun _ => d) <$> List.filter (fun m => EqualFold m (masterName db)) (masters g))) g.
Definition RemoveDB (nm : string) (g : DBGroup) : DBGroup :=
  let keep := List.filter (fun d => negb (EqualFold d nm)) in
  set_members (keep (masters g)) (keep (slaves g)) g.

(** Begin and XAStart on the first running master. *)
Definition firstMaster {A} (g : DBGroup) (m : string -> DM (B := B) A) : DM (B := B) A :=
  dbs ← read (getAvailableMasters g);
  match dbs with d :: _ => m d | [] => panic end.
Definition Group_Begin (g : DBGroup) (ctx : dbContext) : DM (B := B) (nat * option queryResult + goError) :=
  firstMaster g (fun d => Begin d ctx).
Definition Group_XAStart (g : DBGroup) (ctx : dbContext) (sql : bytes) : DM (B := B) (nat * option queryResult + goError) :=
  firstMaster g (fun d => XAStart d ctx sql).

(** A statement on the data source the group picks; the group changes its
    counters. *)
Definition onPicked {A} (rnd rnd' : Z) (g : DBGroup) (ctx : dbContext) (m : string -> DM (B := B) A) :
    DM (B := B) (A * DBGroup) :=
  x ← read (pick rnd rnd' g ctx);
  d ← ended (fst x);
  match d with
  | Some d => a ← m d; mret (a, snd x)
  | None => panic
  end.
(** [Query] and [Execute] *)
Definition Group_Query (rnd rnd' : Z) (g : DBGroup) (ctx : dbContext) (query : bytes) : DM (B := B) (reply * DBGroup) :=
  onPicked rnd rnd' g ctx (fun d => DB_Query d ctx query).
(** [PrepareQuery] and [PrepareExecute] *)
Definition Group_PrepareQuery (rnd rnd' : Z) (g : DBGroup) (ctx : dbContext) (query : bytes) (args : list goValue) :
    DM (B := B) (reply * DBGroup) :=
  onPicked rnd rnd' g ctx (fun d => DB_ExecuteSql d ctx query args).
Definition Group_PrepareExecuteStmt (rnd rnd' : Z) (g : DBGroup) (ctx : dbContext) (stmt : Stmt) :
    DM (B := B) (reply * DBGroup) :=
  onPicked rnd rnd' g ctx (fun d => DB_ExecuteStmt d ctx stmt).

(** A goroutine, run at once: the caller does not wait for it, and a panic in it
    ends the process. *)
Definition spawn {A} (m : DM (B := B) A) : DM (B := B) unit := fun w =>
  match m w with
  | (Panics, w') => (Panics, w')
  | (_, w') => (Returns tt, w')
  end.
(** The goroutines of [QueryAll], one after the other in some order; their
    errors are logged. *)
Fixpoint queryEach (ds : list string) (ctx : dbContext) (query : bytes) : DM (B := B) unit :=
  match ds with
  | [] => mret tt
  | d :: ds' => _ ← spawn (DB_Query d ctx query); queryEach ds' ctx query
  end.
Definition emptyResult : queryResult := mkQueryResult [] 0 0 [].
Definition Group_QueryAll (order : list string -> list string) (g : DBGroup) (ctx : dbContext) (query : bytes) :
    DM (B := B) reply :=
  _ ← queryEach (order (masters g ++ slaves g)) ctx query;
  mret (inl (Some emptyResult, 0)).
End group.
