(* ===== verification/Executors.v ===== *)
(** * Executors of a single data source and of a group with read-write
    splitting: [pkg/executor/single_db.go], [pkg/executor/read_write_splitting.go],
    [pkg/executor/misc.go]

    An executor keeps the open local transaction of every client connection in
    [localTransactionMap]; statements of a client in a transaction run on the
    transaction's connection, others on a connection of a pool.

    Statements appear as the nodes the executors tell apart.  Restoring the text
    of a node is the argument [restore]. *)
From Stdlib Require Import ZArith Lia List.
From stdpp Require Import base gmap list strings.
From S2P Require Import Prelude GoText Hints Encoding Layout Conn Packets PacketSpec GoTime DateTime Rows Stmt Collations Handshake Listener Topology Database Group.

Local Open Scope Z_scope.

(** ** Statements *)
Inductive setValue :=
| ValueExpr (v : goValue)
| ColumnNameExpr (nm : string)
| OtherExpr.

Inductive queryNode :=
| SetStmt (variables : list (string * setValue))
| BeginStmt
| CommitStmt
| RollbackStmt (savepoint : bytes)
| ReleaseSavepointStmt (nm : bytes)
| XAStartStmt
| XAPrepareStmt
| InsertStmt
| DeleteStmt
| UpdateStmt
| SelectStmt (hints : list hint)
| OtherStmt.

(** [SET autocommit = 0] and [SET autocommit = off] *)
Definition shouldStartTransaction (variables : list (string * setValue)) : bool :=
  match variables with
  | [(nm, value)] =>
    EqualFold nm "autocommit" &&
    match value with
    | ValueExpr (GInt64 0) => true
    | ColumnNameExpr c => EqualFold c "off"
    | _ => false
    end
  | _ => false
  end.

Definition errorText (s : string) : goError := OtherErr (bytes_of s).
Definition noTransaction : goError := errorText "there is no transaction".

Section executors.
Context {B : Type} `{Backend B}.
(** [stmt.Restore] *)
Context (restore : queryNode -> bytes + goError).
(** State of the executor besides its transactions: nothing for a single data
    source, the group for read-write splitting. *)
Context {G : Type}.

Record executor := mkExecutor { world : World (B := B); localTransactionMap : gmap Z nat; group : G }.
Definition set_world x e := mkExecutor x (localTransactionMap e) (group e).
Definition set_transactions x e := mkExecutor (world e) x (group e).
Definition set_group x e := mkExecutor (world e) (localTransactionMap e) x.

Definition DBPreFilter : Type := dbContext -> B -> option goError * B.
Definition DBPostFilter : Type := dbContext -> option queryResult -> option goError -> B -> option goError * B.

Record executorConf := mkExecutorConf {
  PreFilters : list DBPreFilter; PostFilters : list DBPostFilter; dataSource : string }.

Definition EM (A : Type) : Type := executor -> outcome A * executor.
#[global] Typeclasses Opaque EM.
#[global] Instance EM_ret : MRet EM := fun A a e => (Returns a, e).
#[global] Instance EM_bind : MBind EM := fun A C f m e =>
  match m e with
  | (Returns a, e') => f a e'
  | (Waits, e') => (Waits, e')
  | (Panics, e') => (Panics, e')
  end.
Definition inWorld {A} (m : DM (B := B) A) : EM A := fun e =>
  let '(r, w) := m (world e) in (r, set_world w e).

Definition Load (connectionID : Z) : EM (option nat) := fun e => (Returns (localTransactionMap e !! connectionID), e).
Definition Store (connectionID : Z) (t : nat) : EM unit := fun e =>
  (Returns tt, set_transactions (<[connectionID := t]> (localTransactionMap e)) e).
Definition Delete (connectionID : Z) : EM unit := fun e =>
  (Returns tt, set_transactions (delete connectionID (localTransactionMap e)) e).

(** [defer Delete(connectionID)] around a body *)
Definition deletingAfter {A} (connectionID : Z) (m : EM A) : EM A := fun e =>
  match m e with
  | (Waits, e') => (Waits, e')
  | (r, e') => (r, snd (Delete connectionID e'))
  end.

(** ** Filters *)
Fixpoint doPreFilter (fs : list DBPreFilter) (ctx : dbContext) : EM (option goError) :=
  match fs with
  | [] => mret None
  | f :: fs' => err ← inWorld (onPeer (f ctx));
    match err with Some e => mret (Some e) | None => doPreFilter fs' ctx end
  end.
(** Each filter is given the error of the statement; one that succeeds does not
    clear it. *)
Fixpoint doPostFilter (fs : list DBPostFilter) (ctx : dbContext) (result : option queryResult)
    (err : option goError) : EM (option goError) :=
  match fs with
  | [] => mret err
  | f :: fs' => e ← inWorld (onPeer (f ctx result err));
    match e with Some e => mret (Some e) | None => doPostFilter fs' ctx result err end
  end.

(** [decodeResult] on a whole result *)
Definition decoded (result : option queryResult) : res (option queryResult) :=
  match result with
  | None => Ok None
  | Some r =>
    rows ← decodeResult (resRows r);
    Ok (Some (mkQueryResult (resFields r) (resAffected r) (resInsertId r) rows))
  end.

(** The deferred function of the two commands. *)
Definition conclude (conf : executorConf) (ctx : dbContext) (rep : reply) : EM reply :=
  let post result err warn :=
    e ← doPostFilter (PostFilters conf) ctx result err;
    mret (match e with Some e => inr e | None => inl (result, warn) end) in
  match rep with
  | inr e => post None (Some e) 0
  | inl (result, warn) =>
    match decoded result with
    | Ok result => post result None warn
    | Err e => post None (Some (errorText e)) warn
    | Panic => inWorld panic
    end
  end.

(** Pre-filters, the body, and the deferred function, on a panic too. *)
Definition withFilters (conf : executorConf) (ctx : dbContext) (body : EM reply) : EM reply :=
  err ← doPreFilter (PreFilters conf) ctx;
  match err with
  | Some e => mret (inr e)
  | None => (fun e =>
      match body e with
      | (Returns rep, e') => conclude conf ctx rep e'
      | (Waits, e') => (Waits, e')
      | (Panics, e') => match conclude conf ctx (inl (None, 0)) e' with
                        | (Waits, e'') => (Waits, e'')
                        | (_, e'') => (Panics, e'')
                        end
      end) : EM reply
  end.

(** ** What both executors do with transactions *)

(** [result, 0, err] *)
Definition withoutWarnings (r : option queryResult + goError) : reply :=
  match r with inl result => inl (result, 0) | inr e => inr e end.

(** BEGIN and XA START: the new transaction replaces the client's old one. *)
Definition begins (connectionID : Z) (begin : DM (B := B) (nat * option queryResult + goError)) : EM reply :=
  r ← inWorld begin;
  match r with
  | inr e => mret (inr e)
  | inl (t, result) => _ ← Store connectionID t; mret (inl (result, 0))
  end.

(** A statement that needs the client's transaction. *)
Definition inTransaction (connectionID : Z) (m : nat -> EM reply) : EM reply :=
  txi ← Load connectionID;
  match txi with
  | None => mret (inr noTransaction)
  | Some t => m t
  end.

(** On the client's transaction if it has one, else [other]. *)
Definition inTransactionOr (connectionID : Z) (m : nat -> DM (B := B) reply) (other : EM reply) : EM reply :=
  txi ← Load connectionID;
  match txi with
  | Some t => inWorld (m t)
  | None => other
  end.

Definition commits (connectionID : Z) (ctx : dbContext) : EM reply :=
  inTransaction connectionID (fun t =>
    deletingAfter connectionID (r ← inWorld (Tx_Commit t ctx); mret (withoutWarnings r))).
Definition rollsBack (connectionID : Z) (ctx : dbContext) (savepoint : bytes) : EM reply :=
  inTransaction connectionID (fun t =>
    let m := r ← inWorld (Tx_Rollback t ctx savepoint); mret (withoutWarnings r) in
    match savepoint with [] => deletingAfter connectionID m | _ => m end).
Definition releases (connectionID : Z) (ctx : dbContext) (savepoint : bytes) : EM reply :=
  inTransaction connectionID (fun t =>
    r ← inWorld (Tx_ReleaseSavepoint t ctx savepoint); mret (withoutWarnings r)).
Definition prepares (connectionID : Z) (ctx : dbContext) (sqlText : bytes) : EM reply :=
  inTransaction connectionID (fun t =>
    deletingAfter connectionID (r ← inWorld (Tx_XAPrepare t ctx sqlText); mret (withoutWarnings r))).

Definition InLocalTransaction (connectionID : Z) (e : executor) : bool :=
  bool_decide (is_Some (localTransactionMap e !! connectionID)).

(** The transaction of a client that goes away is rolled back. *)
Definition ConnectionClose (connectionID : Z) : EM unit :=
  txi ← Load connectionID;
  match txi with
  | None => mret tt
  | Some t => _ ← inWorld (Tx_Rollback t (clientContext connectionID) []); Delete connectionID
  end.

(** ** A single data source *)
Definition sdbSwitch (conf : executorConf) (ctx : dbContext) (node : queryNode) (sqlText sql : bytes) : EM reply :=
  let connectionID := connectionOf ctx in
  let d := dataSource conf in
  match node with
  | SetStmt variables =>
    if shouldStartTransaction variables then begins connectionID (Begin d ctx)
    else inTransactionOr connectionID (fun t => Tx_Query t ctx sqlText) (inWorld (DB_Query d ctx sqlText))
  | BeginStmt => begins connectionID (Begin d ctx)
  | CommitStmt => commits connectionID ctx
  | RollbackStmt savepoint => rollsBack connectionID ctx savepoint
  | ReleaseSavepointStmt nm => releases connectionID ctx nm
  | XAStartStmt => begins connectionID (XAStart d ctx sqlText)
  | XAPrepareStmt => prepares connectionID ctx sqlText
  | _ => inTransactionOr connectionID (fun t => Tx_Query t ctx sql) (inWorld (DB_Query d ctx sql))
  end.

Definition SDB_ExecutorComQuery (conf : executorConf) (ctx : dbContext) (node : queryNode) (sqlText : bytes) : EM reply :=
  withFilters conf ctx
    match restore node with
    | inr e => mret (inr e)
    | inl sql => sdbSwitch conf ctx node sqlText sql
    end.

Definition SDB_ExecutorComStmtExecute (conf : executorConf) (ctx : dbContext) (stmt : Stmt) : EM reply :=
  withFilters conf ctx
    (inTransactionOr (connectionOf ctx) (fun t => Tx_ExecuteStmt t ctx stmt)
      (inWorld (DB_ExecuteStmt (dataSource conf) ctx stmt))).

Definition SDB_ExecuteUseDB (conf : executorConf) (ctx : dbContext) (schema : bytes) : EM (unit + goError) :=
  inWorld (DB_UseDB (dataSource conf) ctx schema).
Definition SDB_ExecuteFieldList (conf : executorConf) (ctx : dbContext) (table wildcard : bytes) : EM (list Field + goError) :=
  inWorld (DB_ExecuteFieldList (dataSource conf) ctx table wildcard).
End executors.
Arguments executor B : clear implicits.
Arguments executor B {G}.

(** ** Read-write splitting *)
Section splitting.
Context {B : Type} `{Backend B}.
Context (restore : queryNode -> bytes + goError).
(** The statement kinds of a prepared statement *)
Context (nodeOf : Stmt -> queryNode).
(** Values of the random source, and the order of the goroutines of [QueryAll] *)
Context (rnd rnd' : Z) (order : list string -> list string).

Definition REM : Type -> Type := EM (B := B) (G := DBGroup).

Definition onGroup {A} (m : DBGroup -> DM (B := B) (A * DBGroup)) : REM A := fun e =>
  match m (group e) (world e) with
  | (Returns (a, g), w) => (Returns a, set_group g (set_world w e))
  | (Waits, w) => (Waits, set_world w e)
  | (Panics, w) => (Panics, set_world w e)
  end.
Definition readGroup {A} (m : DBGroup -> DM (B := B) A) : REM A := fun e => inWorld (m (group e)) e.

(** A read: on the data source a hint names, if it exists, else on one the
    group picks. *)
Definition readsFrom (hints : list hint) (onDB : string -> DM (B := B) reply)
    (onPick : DBGroup -> DM (B := B) (reply * DBGroup)) : REM reply := fun e =>
  match HasUseDBHint hints with
  | Ok (Some dsName) =>
    match dbs (world e) !! dsName with
    | None => onGroup onPick e
    | Some _ => inWorld (onDB dsName) e
    end
  | Ok None => onGroup onPick e
  | _ => (Panics, e)
  end.

Definition rwsSwitch (ctx : dbContext) (node : queryNode) (sqlText newSql : bytes) : REM reply :=
  let connectionID := connectionOf ctx in
  let inTx := inTransactionOr connectionID (fun t => Tx_Query t ctx newSql) in
  match node with
  | SetStmt variables =>
    if shouldStartTransaction variables then
      (fun e => begins connectionID (Group_Begin (group e) ctx) e)
    else inTransactionOr connectionID (fun t => Tx_Query t ctx sqlText)
           (readGroup (fun g => Group_QueryAll order g ctx sqlText))
  | BeginStmt => fun e => begins connectionID (Group_Begin (group e) ctx) e
  | CommitStmt => commits connectionID ctx
  | RollbackStmt savepoint => rollsBack connectionID ctx savepoint
  | ReleaseSavepointStmt nm => releases connectionID ctx nm
  | XAStartStmt => fun e => begins connectionID (Group_XAStart (group e) ctx sqlText) e
  | XAPrepareStmt => prepares connectionID ctx sqlText
  | InsertStmt | DeleteStmt | UpdateStmt =>
    inTx (onGroup (fun g => Group_Query rnd rnd' g (WithMaster ctx) newSql))
  | SelectStmt hints =>
    inTx (readsFrom hints (fun d => DB_Query d (WithSlave ctx) newSql)
                          (fun g => Group_Query rnd rnd' g (WithSlave ctx) newSql))
  | OtherStmt => inTx (onGroup (fun g => Group_Query rnd rnd' g (WithSlave ctx) newSql))
  end.

Definition RWS_ExecutorComQuery (conf : executorConf) (ctx : dbContext) (node : queryNode) (sqlText : bytes) : REM reply :=
  withFilters conf ctx
    match restore node with
    | inr e => mret (inr e)
    | inl newSql => rwsSwitch ctx node sqlText newSql
    end.

Definition RWS_ExecutorComStmtExecute (conf : executorConf) (ctx : dbContext) (stmt : Stmt) : REM reply :=
  withFilters conf ctx
    (inTransactionOr (connectionOf ctx) (fun t => Tx_ExecuteStmt t ctx stmt)
      match nodeOf stmt with
      | InsertStmt | DeleteStmt | UpdateStmt =>
        onGroup (fun g => Group_PrepareExecuteStmt rnd rnd' g (WithMaster ctx) stmt)
      | SelectStmt hints =>
        readsFrom hints (fun d => DB_ExecuteStmt d (WithSlave ctx) stmt)
                        (fun g => Group_PrepareExecuteStmt rnd rnd' g (WithSlave ctx) stmt)
      | _ => mret (inr (errorText "unsupported statement"))
      end).

Definition RWS_ConnectionClose (connectionID : Z) : REM unit := ConnectionClose connectionID.
Definition RWS_InLocalTransaction (connectionID : Z) (e : executor B (G := DBGroup)) : bool :=
  InLocalTransaction connectionID e.
Definition RWS_ExecuteUseDB (schema : bytes) : REM (unit + goError) :=
  mret (inr (errorText "unimplemented COM_INIT_DB in read write splitting mode")).
Definition RWS_ExecuteFieldList (table wildcard : bytes) : REM (list Field + goError) :=
  mret (inr (errorText "unimplemented COM_FIELD_LIST in read write splitting mode")).
End splitting.
