(* ===== verification/DatabaseSpec.v ===== *)
(** * Connections are owned: the invariant of pools and transactions

    Every connection of a data source is idle in its pool or taken, by one
    transaction or one statement, and never both; [wf held] is the invariant
    when exactly the connections [held] are taken.  Operations that give back
    what they take are [neutral]: they may use connections of their own or free
    ones, and nobody else's. *)
From Stdlib Require Import ZArith Lia List.
From stdpp Require Import base gmap list strings fin_sets.
From S2P Require Import Prelude GoText Encoding Layout Conn Packets PacketSpec GoTime DateTime Rows Stmt Collations Handshake Listener Topology Database.

Local Open Scope Z_scope.

Lemma len_cons {A} (x : A) l : len (x :: l) = 1 + len l.
Proof. unfold len. cbn [length]. lia. Qed.

(** The connections in the channel of a pool. *)
Definition idle (p : Pool.t) : list backend := omap (fun w => w) (Pool.resources p).

(** The taken connections of a data source. *)
Definition taken (d : string) (held : gset backend) : gset backend := filter (fun k => k.1 = d) held.

Record poolOk (held : gset backend) (next : nat) (d : string) (p : Pool.t) : Prop := {
  po_open : Pool.done p = false;
  po_cap : 0 < Pool.capacity p <= Pool.maxCap p;
  po_nodup : NoDup (idle p);
  po_idle : Forall (fun k => k.1 = d /\ (k.2 < next)%nat /\ k ∉ held) (idle p);
  po_count : len (Pool.resources p) + Z.of_nat (size (taken d held)) = Pool.capacity p;
  po_available : Pool.available p = len (Pool.resources p);
  po_inUse : Pool.inUse p = Z.of_nat (size (taken d held)) }.

Section spec.
Context {B : Type} `{Backend B}.
Implicit Types w : World (B := B).

(** A transaction that has not ended holds its connection. *)
Definition openTx (k : backend) : Tx := mkTx false (Some k.1) (Some k).
Definition endedTx : Tx := mkTx true None None.
Lemma openTx_inj k k' : openTx k = openTx k' -> k = k'.
Proof. unfold openTx. congruence. Qed.

Record wf (held : gset backend) w : Prop := {
  wf_txs : map_Forall (fun t tx => tx = endedTx \/ exists k, tx = openTx k /\ k ∈ held) (txs w);
  wf_inj : forall t1 t2 k, txs w !! t1 = Some (openTx k) -> txs w !! t2 = Some (openTx k) -> t1 = t2;
  wf_pools : map_Forall (fun d db => poolOk held (nextConn w) d (pool db)) (dbs w);
  wf_held : forall k, k ∈ held -> (k.2 < nextConn w)%nat /\ is_Some (dbs w !! k.1);
  wf_next : forall t, (nextTx w <= t)%nat -> txs w !! t = None }.

(** ** Taking and giving back *)
Lemma taken_add_same k held : k ∉ held -> size (taken k.1 ({[k]} ∪ held)) = S (size (taken k.1 held)).
Proof.
  intros Hk. assert (taken k.1 ({[k]} ∪ held) = {[k]} ∪ taken k.1 held) as -> by (unfold taken; set_solver).
  rewrite size_union by (unfold taken; set_solver). by rewrite size_singleton.
Qed.
Lemma taken_add_other k held d : k.1 <> d -> taken d ({[k]} ∪ held) = taken d held.
Proof. intros Hk. unfold taken. set_solver. Qed.

Lemma poolOk_add_other k held next d p :
  k.1 <> d -> poolOk held next d p -> poolOk ({[k]} ∪ held) next d p.
Proof.
  intros Hk []. split; rewrite ?taken_add_other; try done.
  eapply Forall_impl; [done|]. cbn. intros k' (<- & ? & ?). split_and!; [done..|].
  intros [->%elem_of_singleton|]%elem_of_union; done.
Qed.
Lemma poolOk_del_other k held next d p :
  k.1 <> d -> k ∉ held -> poolOk ({[k]} ∪ held) next d p -> poolOk held next d p.
Proof.
  intros Hk Hn [Ho Hc Hd Hi Hl Ha Hu]. rewrite (taken_add_other k held d) in Hl, Hu by done.
  split; try done. eapply Forall_impl; [done|]. cbn. set_solver.
Qed.
Lemma poolOk_next held next next' d p : (next <= next')%nat -> poolOk held next d p -> poolOk held next' d p.
Proof. intros ? []. split; try done. eapply Forall_impl; [done|]. cbn. intuition lia. Qed.

Lemma take_resources p : Pool.resources (Pool.take p) = Pool.resources p.
Proof. unfold Pool.take. cbn. by case_match. Qed.
Lemma take_fields p : Pool.capacity (Pool.take p) = Pool.capacity p /\ Pool.maxCap (Pool.take p) = Pool.maxCap p /\
  Pool.done (Pool.take p) = Pool.done p /\ Pool.available (Pool.take p) = Pool.available p - 1 /\
  Pool.inUse (Pool.take p) = Pool.inUse p + 1.
Proof. unfold Pool.take. cbn. by case_match. Qed.

Lemma poolOk_take held next k p p' rs :
  poolOk held next k.1 p -> Pool.resources p = Some k :: rs ->
  p' = Pool.take (Pool.set_resources rs p) -> poolOk ({[k]} ∪ held) next k.1 p'.
Proof.
  intros [Ho Hc Hn Hi Hl Ha Hu] E ->. destruct (take_fields (Pool.set_resources rs p)) as (E1 & E2 & E3 & E4 & E5).
  unfold idle in *. rewrite E in Hn, Hi. cbn in Hn, Hi.
  apply NoDup_cons in Hn as [Hk Hn]. apply Forall_cons in Hi as [(_ & Hlt & Hnot) Hi].
  rewrite E, len_cons in Hl, Ha. cbn in E1, E2, E3, E4, E5.
  split; unfold idle; rewrite ?take_resources; cbn; rewrite ?E1, ?E2, ?E3, ?E4, ?E5, ?taken_add_same; cbn; try done; try lia.
  rewrite List.Forall_forall in *. intros k' Hin. specialize (Hi k' Hin) as (? & ? & ?). split_and!; [done..|].
  intros [->%elem_of_singleton|]%elem_of_union; [|done]. apply Hk. by apply list_elem_of_In.
Qed.

Lemma poolOk_dial held next d p p' rs :
  poolOk held next d p -> Pool.resources p = None :: rs -> ((d, next) : backend) ∉ held ->
  p' = Pool.take (Pool.set_active (Pool.active p + 1) (Pool.set_resources rs p)) ->
  poolOk ({[(d, next)]} ∪ held) (S next) d p'.
Proof.
  intros [Ho Hc Hn Hi Hl Ha Hu] E Hnot ->.
  destruct (take_fields (Pool.set_active (Pool.active p + 1) (Pool.set_resources rs p))) as (E1 & E2 & E3 & E4 & E5).
  unfold idle in *. rewrite E in Hn, Hi. cbn in Hn, Hi.
  rewrite E, len_cons in Hl, Ha. cbn in E1, E2, E3, E4, E5.
  pose proof (taken_add_same (d, next) held Hnot) as Ht. cbn in Ht.
  split; unfold idle; rewrite ?take_resources; cbn; rewrite ?E1, ?E2, ?E3, ?E4, ?E5, ?Ht; cbn; try done; try lia.
  rewrite List.Forall_forall in *. intros k' Hin. specialize (Hi k' Hin) as (? & ? & ?). split_and!; [done|lia|].
  intros [->%elem_of_singleton|]%elem_of_union; [cbn in *; lia | done].
Qed.

Lemma omap_snoc_some {A} (l : list (option A)) x : omap (fun w : option A => w) (l ++ [Some x]) = omap (fun w : option A => w) l ++ [x].
Proof. by rewrite omap_app. Qed.

Lemma poolOk_put held next k p :
  poolOk ({[k]} ∪ held) next k.1 p -> k ∉ held -> (k.2 < next)%nat ->
  exists p', Pool.Put k p = Some p' /\ poolOk held next k.1 p' /\ k ∈ idle p'.
Proof.
  intros [Ho Hc Hn Hi Hl Ha Hu] Hk Hlt. rewrite (taken_add_same k held Hk) in Hl, Hu.
  unfold Pool.Put. rewrite Ho. cbn [orb]. destruct (Z.leb_spec (Pool.maxCap p) (len (Pool.resources p))); [lia|].
  eexists. split; [done|]. unfold idle in *. split.
  2:{ cbn. rewrite omap_snoc_some. set_solver. }
  split; unfold idle; cbn; rewrite ?omap_snoc_some, ?len_app, ?len_cons; change (len (@nil (option backend))) with 0; try done; try lia.
  - apply NoDup_app. split_and!; [done | | apply NoDup_singleton].
    intros x Hx ->%list_elem_of_singleton. rewrite List.Forall_forall in Hi.
    apply list_elem_of_In in Hx. destruct (Hi k Hx) as (_ & _ & Hbad). set_solver.
  - apply Forall_app. split; [|by repeat constructor].
    eapply Forall_impl; [done|]. cbn. set_solver.
Qed.

(** ** The state under [Get] and [Put] *)
Ltac keep_wf := match goal with W : wf _ _ |- _ => destruct W as [Htx Hinj Hpool Hheld Hnext] end.

Lemma wf_put_db held w d db db' :
  dbs w !! d = Some db -> pool db' = pool db -> wf held w -> wf held (set_dbs (<[d := db']> (dbs w)) w).
Proof.
  intros Hd Hp W. keep_wf. split; cbn; try done.
  - apply map_Forall_insert_2; [rewrite Hp; by apply (Hpool d db) | done].
  - intros k Hk. destruct (Hheld k Hk) as [? ?]. split; [done|].
    destruct (decide (d = k.1)) as [<-|]; [by rewrite lookup_insert_eq | by rewrite lookup_insert_ne].
Qed.

Lemma wf_set_peer held w b : wf held w -> wf held (set_peer b w).
Proof. intros []. by split. Qed.
Lemma wf_set_trace held w tr : wf held w -> wf held (set_trace tr w).
Proof. intros []. by split. Qed.

(** A connection is taken: the pool of its data source changes from [p] to [p']. *)
Lemma wf_take held w k db p' n :
  wf held w -> k ∉ held -> dbs w !! k.1 = Some db -> (nextConn w <= n)%nat -> (k.2 < n)%nat ->
  poolOk ({[k]} ∪ held) n k.1 p' ->
  wf ({[k]} ∪ held) (set_dbs (<[k.1 := set_pool p' db]> (dbs w)) (set_nextConn n w)).
Proof.
  intros W Hk Hd Hn Hlt Hp. keep_wf. split; cbn; try done.
  - eapply map_Forall_impl; [done|]. cbn. set_solver.
  - apply map_Forall_lookup. intros d' db' Hl. destruct (decide (k.1 = d')) as [<-|Hne].
    + rewrite lookup_insert_eq in Hl. by injection Hl as <-.
    + rewrite lookup_insert_ne in Hl by done. apply poolOk_add_other; [done|].
      apply (poolOk_next held (nextConn w)); [done|]. exact (Hpool _ _ Hl).
  - intros k' [->%elem_of_singleton|Hin]%elem_of_union.
    + split; [done|]. by rewrite lookup_insert_eq.
    + destruct (Hheld k' Hin) as [? ?]. split; [lia|].
      destruct (decide (k.1 = k'.1)) as [<-|]; [by rewrite lookup_insert_eq | by rewrite lookup_insert_ne].
Qed.

Lemma poolGet_spec held w d r w' :
  wf held w -> poolGet d w = (r, w') ->
  txs w' = txs w /\ trace w' = trace w /\ nextTx w' = nextTx w /\
  match r with
  | Returns (inl k) => k.1 = d /\ (k ∉ held) /\ wf ({[k]} ∪ held) w'
  | _ => wf held w'
  end.
Proof.
  intros W. unfold poolGet, getDB. unfold mbind at 1, DM_bind at 1.
  destruct (dbs w !! d) as [db|] eqn:Ed; [|by intros [= <- <-]].
  pose proof (wf_pools _ _ W _ _ Ed) as Hp. cbn in Hp.
  destruct (Pool.resources (pool db)) as [|[k|] rs] eqn:Er.
  - rewrite (po_open _ _ _ _ Hp). by intros [= <- <-].
  - intros [= <- <-]. cbn.
    assert (Hk : k.1 = d /\ (k.2 < nextConn w)%nat /\ (k ∉ held)).
    { pose proof (po_idle _ _ _ _ Hp) as Hi. unfold idle in Hi. rewrite Er in Hi. by inversion Hi. }
    destruct Hk as (<- & ? & ?). split_and!; try done.
    change (wf ({[k]} ∪ held) (set_dbs (<[k.1 := set_pool (Pool.take (Pool.set_resources rs (pool db))) db]> (dbs w))
              (set_nextConn (nextConn w) w))).
    apply wf_take; try done. by eapply poolOk_take.
  - unfold onPeer. unfold mbind at 1, DM_bind at 1. destruct (dial d (peer w)) as [[e|] b]; intros [= <- <-]; cbn.
    + split_and!; try done.
      set (w1 := set_peer b w). assert (W1 : wf held w1) by by apply wf_set_peer.
      keep_wf. split; cbn; try done.
      * apply map_Forall_insert_2; [|done]. destruct Hp as [Ho Hc Hn Hi Hl Ha Hu]. unfold idle in *. rewrite Er in *.
        rewrite len_cons in Hl, Ha.
        split; unfold idle; cbn; rewrite ?omap_app, ?len_app, ?len_singleton; cbn; rewrite ?app_nil_r; try done; lia.
      * intros k Hk. destruct (Hheld k Hk) as [? ?]. split; [done|]. cbn in *.
        destruct (decide (d = k.1)) as [<-|]; [by rewrite lookup_insert_eq | by rewrite lookup_insert_ne].
    + assert (Hnot : ((d, nextConn w) : backend) ∉ held).
      { intros [Hlt _]%(wf_held _ _ W). cbn in Hlt. lia. }
      split_and!; try done.
      apply (wf_take held (set_peer b w) (d, nextConn w) db _ (S (nextConn w))); cbn; try done; try lia.
      * by apply wf_set_peer.
      * by eapply poolOk_dial.
Qed.

(** The connection is back in the pool of its data source. *)
Definition returned (k : backend) w : Prop := exists db, dbs w !! k.1 = Some db /\ k ∈ idle (pool db).

(** No transaction has the connection. *)
Definition unowned (k : backend) w : Prop := forall t, txs w !! t <> Some (openTx k).

Lemma free_unowned held k w : wf held w -> k ∉ held -> unowned k w.
Proof. intros W Hk t Ht. destruct (wf_txs _ _ W t _ Ht) as [[=]|(k' & ->%openTx_inj & Hin)]. done. Qed.

Lemma poolPut_spec held w k :
  wf ({[k]} ∪ held) w -> k ∉ held -> unowned k w ->
  exists w', poolPut k.1 k w = (Returns tt, w') /\ wf held w' /\ txs w' = txs w /\ trace w' = trace w /\ nextTx w' = nextTx w /\
    returned k w'.
Proof.
  intros W Hk Hu. destruct (wf_held _ _ W k) as [Hlt [db Hd]]; [set_solver|].
  destruct (poolOk_put held (nextConn w) k (pool db)) as (p' & EP & HP & HI);
    [exact (wf_pools _ _ W _ _ Hd) | done | done |].
  unfold poolPut, getDB. unfold mbind, DM_bind. rewrite Hd, EP. eexists. split; [done|]. cbn. split_and!; try done.
  2:{ exists (set_pool p' db). cbn. by rewrite lookup_insert_eq. }
  keep_wf. split; cbn; try done.
  - apply map_Forall_lookup. intros t tx Ht. destruct (Htx t tx Ht) as [->|(k' & -> & Hin)]; [by left|].
    right. exists k'. split; [done|]. apply elem_of_union in Hin as [->%elem_of_singleton|]; [|done].
    by destruct (Hu t).
  - apply map_Forall_lookup. intros d' db' Hl. destruct (decide (k.1 = d')) as [<-|Hne].
    + rewrite lookup_insert_eq in Hl. injection Hl as <-. done.
    + rewrite lookup_insert_ne in Hl by done. eapply poolOk_del_other; [done..|]. exact (Hpool _ _ Hl).
  - intros k' Hin. destruct (Hheld k') as [? ?]; [set_solver|]. split; [done|].
    destruct (decide (k.1 = k'.1)) as [<-|]; [by rewrite lookup_insert_eq | by rewrite lookup_insert_ne].
Qed.

(** ** Neutral operations *)

(** What was sent from [w] to [w']: requests of client [c] on its own
    connections [own], and requests on connections nobody held. *)
Definition sent (held own : gset backend) (c : Z) w w' : Prop :=
  exists es, trace w' = trace w ++ es /\
    Forall (fun e : backend * Z * request => (e.1.1 ∉ held) \/ (e.1.1 ∈ own /\ e.1.2 = c)) es.

Lemma sent_refl held own c w w' : trace w' = trace w -> sent held own c w w'.
Proof. exists []. by rewrite app_nil_r. Qed.
Lemma sent_trans held own c w1 w2 w3 : sent held own c w1 w2 -> sent held own c w2 w3 -> sent held own c w1 w3.
Proof.
  intros (es1 & E1 & F1) (es2 & E2 & F2). exists (es1 ++ es2). rewrite E2, E1, app_assoc. split; [done|]. by apply Forall_app.
Qed.

(** [prompt]: the operation does not wait. *)
Definition neutral (prompt : bool) (own : gset backend) (c : Z) {A} (m : DM (B := B) A) : Prop := forall held w,
  wf held w -> own ⊆ held ->
  wf held (m w).2 /\ txs (m w).2 = txs w /\ nextTx (m w).2 = nextTx w /\ sent held own c w (m w).2 /\
  (prompt = true -> (m w).1 <> Waits).

Lemma neutral_still p own c {A} (m : DM A) :
  (forall held w, wf held w -> wf held (m w).2) ->
  (forall w, txs (m w).2 = txs w /\ nextTx (m w).2 = nextTx w /\ trace (m w).2 = trace w /\ (m w).1 <> Waits) -> neutral p own c m.
Proof. intros Hw Hs held w W _. destruct (Hs w) as (? & ? & ? & ?). split_and!; [by apply Hw | done | done | by apply sent_refl | done]. Qed.

Lemma neutral_ret p own c {A} (a : A) : neutral p own c (mret a).
Proof. by apply neutral_still. Qed.
Lemma neutral_panic p own c {A} : neutral p own c (panic (A := A)).
Proof. by apply neutral_still. Qed.
Lemma neutral_getDB p own c d : neutral p own c (getDB d).
Proof. apply neutral_still; intros; unfold getDB; by case_match. Qed.
Lemma neutral_getTx p own c t : neutral p own c (getTx t).
Proof. apply neutral_still; intros; unfold getTx; by case_match. Qed.
Lemma neutral_onPeer p own c {A} (f : B -> A * B) : neutral p own c (onPeer f).
Proof. apply neutral_still; intros; unfold onPeer; case_match; [by apply wf_set_peer | done]. Qed.

Lemma neutral_bind p own c {A C} (m : DM A) (f : A -> DM C) :
  neutral p own c m -> (forall a, neutral p own c (f a)) -> neutral p own c (m ≫= f).
Proof.
  intros Hm Hf held w W Ho. destruct (Hm held w W Ho) as (W1 & T1 & N1 & S1 & P1). unfold mbind, DM_bind.
  destruct (m w) as [[a| |] w1]; cbn in *; [|split_and!; try done; intros E; by destruct (P1 E)..].
  destruct (Hf a held w1 W1 Ho) as (W2 & T2 & N2 & S2 & P2).
  split_and!; [done | congruence | congruence | by eapply sent_trans | done].
Qed.

Lemma neutral_deferring p own c {A} (d : DM unit) (m : DM A) :
  neutral p own c d -> neutral p own c m -> neutral p own c (deferring d m).
Proof.
  intros Hd Hm held w W Ho. destruct (Hm held w W Ho) as (W1 & T1 & N1 & S1 & P1). unfold deferring.
  destruct (m w) as [r w1]. cbn in *. destruct (Hd held w1 W1 Ho) as (W2 & T2 & N2 & S2 & P2).
  assert (T3 : txs (d w1).2 = txs w) by congruence. assert (N3 : nextTx (d w1).2 = nextTx w) by congruence.
  pose proof (sent_trans _ _ _ _ _ _ S1 S2) as S3.
  destruct r; destruct (d w1) as [[| |] w2]; cbn in *; split_and!; try done; intros E;
    first [by destruct (P1 E) | by destruct (P2 E)].
Qed.

Lemma neutral_logRequest p own c conn ctx r :
  conn ∈ own -> connectionOf ctx = c -> neutral p own c (logRequest conn ctx r).
Proof.
  intros Hin Hc held w W Ho. cbn. split_and!; [by apply wf_set_trace | done | done | | done].
  eexists. split; [done|]. constructor; [by right | constructor].
Qed.

Lemma neutral_sendRequest p own c conn ctx r :
  conn ∈ own -> connectionOf ctx = c -> neutral p own c (sendRequest conn ctx r).
Proof.
  intros. unfold sendRequest. apply neutral_bind; [by apply neutral_logRequest | intros; apply neutral_onPeer].
Qed.

Lemma neutral_addInflight p own c n d : neutral p own c (addInflight n d).
Proof.
  apply neutral_still; intros; unfold addInflight, getDB, mbind, DM_bind;
    destruct (dbs w !! d) eqn:E; cbn; try done. by eapply wf_put_db.
Qed.

Create HintDb neutral.
#[local] Hint Resolve neutral_ret neutral_panic neutral_getDB neutral_getTx neutral_onPeer neutral_addInflight
  neutral_logRequest neutral_sendRequest : neutral.
#[local] Hint Extern 1 (_ ∈ {[_]}) => apply elem_of_singleton_2; reflexivity : neutral.

Ltac neutral := repeat first
  [ solve [eauto with neutral]
  | match goal with
    | |- forall _, _ => intro
    | |- neutral _ _ _ (mbind _ _) => apply neutral_bind
    | |- neutral _ _ _ (match ?x with _ => _ end) => destruct x
    end ].

Lemma neutral_inflight p own c {A} d (m : DM A) : neutral p own c m -> neutral p own c (inflight d m).
Proof. intros. unfold inflight. neutral. apply neutral_deferring; [neutral | done]. Qed.

Lemma neutral_preFilter p own c fs ctx conn : neutral p own c (doConnectionPreFilter fs ctx conn).
Proof. induction fs; cbn [doConnectionPreFilter]; neutral. Qed.
Lemma neutral_postFilter p own c fs ctx result conn : neutral p own c (doConnectionPostFilter fs ctx result conn).
Proof. induction fs; cbn [doConnectionPostFilter]; neutral. Qed.
#[local] Hint Resolve neutral_inflight neutral_preFilter neutral_postFilter : neutral.

Lemma neutral_filtered p own c d ctx conn r :
  conn ∈ own -> connectionOf ctx = c -> neutral p own c (filtered d ctx conn r).
Proof. intros. unfold filtered. neutral. Qed.
#[local] Hint Resolve neutral_filtered : neutral.

(** A body that uses the connection it is given. *)
Lemma neutral_withConn own c c' {A} d (body : backend -> DM (A + goError)) :
  (forall conn, neutral true {[conn]} c' (body conn)) -> neutral false own c (withConn d body).
Proof.
  intros Hb held w W Ho. unfold withConn, mbind, DM_bind. destruct (poolGet d w) as [r w1] eqn:E.
  destruct (poolGet_spec _ _ _ _ _ W E) as (T1 & R1 & N1 & P1).
  destruct r as [[k|e]| |]; cbn; try (split_and!; [done..|by apply sent_refl|done]).
  destruct P1 as (<- & Hk & W1). destruct (Hb k ({[k]} ∪ held) w1 W1) as (W2 & T2 & N2 & (es & R2 & F2) & P2); [set_solver|].
  unfold deferring. destruct (body k w1) as [r w2]. cbn in *.
  assert (Hun : unowned k w2).
  { intros t. rewrite T2, T1. by apply (free_unowned held). }
  destruct (poolPut_spec held w2 k W2 Hk Hun) as (w3 & E3 & W3 & T3 & R3 & N3 & HB3).
  assert (Hes : Forall (fun e : backend * Z * request => (e.1.1 ∉ held) \/ (e.1.1 ∈ own /\ e.1.2 = c)) es).
  { eapply Forall_impl; [exact F2|]. cbn. intros [[k' x] y] [Hx|[Hx _]]; cbn in *; left; set_solver. }
  assert (HS : sent held own c w w3) by (exists es; split; [congruence | done]).
  rewrite E3. specialize (P2 eq_refl). destruct r as [a| |]; cbn in *; [|done|]; split_and!; try done; congruence.
Qed.

(** Statements outside of transactions leave every transaction alone. *)
Lemma neutral_DB_Query own c d ctx query : neutral false own c (DB_Query d ctx query).
Proof. apply neutral_inflight, (neutral_withConn _ _ (connectionOf ctx)). neutral. Qed.
Lemma neutral_DB_ExecuteStmt own c d ctx stmt : neutral false own c (DB_ExecuteStmt d ctx stmt).
Proof. apply neutral_inflight, (neutral_withConn _ _ (connectionOf ctx)). neutral. Qed.
Lemma neutral_DB_ExecuteSql own c d ctx sql args : neutral false own c (DB_ExecuteSql d ctx sql args).
Proof. apply neutral_inflight, (neutral_withConn _ _ (connectionOf ctx)). neutral. Qed.
Lemma neutral_DB_UseDB own c d ctx schema : neutral false own c (DB_UseDB d ctx schema).
Proof. apply neutral_inflight, (neutral_withConn _ _ (connectionOf ctx)). neutral. Qed.
Lemma neutral_DB_ExecuteFieldList own c d ctx table wildcard :
  neutral false own c (DB_ExecuteFieldList d ctx table wildcard).
Proof. apply neutral_inflight, (neutral_withConn _ _ (connectionOf ctx)). neutral. Qed.
Lemma neutral_DB_Ping own c d : neutral false own c (DB_Ping d).
Proof. apply (neutral_withConn _ _ (connectionOf Background)). unfold connPing. neutral. Qed.

Lemma countPing_pool f db db' : countPing (B := B) f db = Some db' -> pool db' = pool db.
Proof. unfold countPing. intros E. repeat case_match; simplify_eq; done. Qed.

(** A turn of the health check leaves pools and transactions alone. *)
Lemma neutral_ping own c d : neutral false own c (DB_ping d).
Proof.
  unfold DB_ping. apply neutral_bind; [apply neutral_DB_Ping|]. intros r.
  apply neutral_still; intros; unfold getDB, mbind, DM_bind; destruct (dbs w !! d) as [db|] eqn:E; try done;
    destruct (countPing _ db) as [db'|] eqn:EC; try done; cbn.
  eapply wf_put_db; [done | by eapply countPing_pool | done].
Qed.

(** ** Transactions *)

Lemma txSource_open t k w : txs w !! t = Some (openTx k) -> txSource t w = (Returns (k.1, k), w).
Proof. intros E. unfold txSource, getTx, mbind, DM_bind. by rewrite E. Qed.

(** Statements in a transaction use its connection. *)
Lemma inTx_run {A} t k w (f : string -> backend -> DM A) :
  txs w !! t = Some (openTx k) -> ('(d, conn) ← txSource t; f d conn) w = f k.1 k w.
Proof. intros E. unfold mbind, DM_bind. by rewrite (txSource_open t k w E). Qed.

Lemma guarded_run held t k w x body :
  wf held w -> txs w !! t = Some (openTx k) -> guarded t x body w = body k.1 k w.
Proof.
  intros W E. destruct (wf_txs _ _ W _ _ E) as [[=]|(k' & ->%openTx_inj & Hin)].
  destruct (wf_held _ _ W _ Hin) as [_ [db Hd]]. pose proof (po_cap _ _ _ _ (wf_pools _ _ W _ _ Hd)) as Hc.
  unfold guarded, getTx, getDB, mbind, DM_bind. rewrite E, (txSource_open t k' w E). cbn. rewrite Hd.
  unfold Pool.IsClosed. destruct (Z.eqb_spec (Pool.capacity (pool db)) 0); [lia | done].
Qed.

(** What a statement of a transaction that is open does. *)
Lemma inTx_neutral t k w held (ctx : dbContext) {A} (m : DM A) (f : string -> backend -> DM A) :
  wf held w -> txs w !! t = Some (openTx k) -> m w = f k.1 k w ->
  neutral true {[k]} (connectionOf ctx) (f k.1 k) ->
  wf held (m w).2 /\ txs (m w).2 = txs w /\ nextTx (m w).2 = nextTx w /\
  sent held {[k]} (connectionOf ctx) w (m w).2 /\ (m w).1 <> Waits.
Proof.
  intros W E Em Hf. rewrite Em. destruct (wf_txs _ _ W _ _ E) as [[=]|(k' & ->%openTx_inj & Hin)].
  destruct (Hf held w W) as (? & ? & ? & ? & Hp); [set_solver|]. split_and!; [done..|by apply Hp].
Qed.

Lemma neutral_executeTx k ctx sql : neutral true {[k]} (connectionOf ctx) (executeTx k ctx sql).
Proof. unfold executeTx. neutral. Qed.

(** Starting a transaction takes a connection nobody held. *)
Lemma XAStart_spec held w d ctx sql r w' :
  wf held w -> XAStart d ctx sql w = (r, w') ->
  match r with
  | Returns (inl (t, _)) => exists k, k.1 = d /\ (k ∉ held) /\ wf ({[k]} ∪ held) w' /\
      txs w !! t = None /\ txs w' = <[t := openTx k]> (txs w) /\
      trace w' = trace w ++ [(k, connectionOf ctx, Execute sql)]
  | _ => wf held w' /\ txs w' = txs w /\ sent held ∅ (connectionOf ctx) w w'
  end.
Proof.
  intros W. unfold XAStart. unfold mbind at 1, DM_bind at 1. destruct (poolGet d w) as [r0 w1] eqn:E.
  destruct (poolGet_spec _ _ _ _ _ W E) as (T1 & R1 & N1 & P1).
  destruct r0 as [[k|e]| |]; [|by intros [= <- <-]; split_and!; [done..|by apply sent_refl]..].
  destruct P1 as (<- & Hk & W1). unfold mbind at 1, DM_bind at 1.
  destruct (neutral_sendRequest true {[k]} (connectionOf ctx) k ctx (Execute sql)) with (w := w1) (held := {[k]} ∪ held)
    as (W2 & T2 & N2 & _ & _); [set_solver | done | done | set_solver |].
  assert (R2 : trace (sendRequest k ctx (Execute sql) w1).2 = trace w1 ++ [(k, connectionOf ctx, Execute sql)])
    by (unfold sendRequest, mbind, DM_bind, onPeer; cbn; by case_match).
  destruct (sendRequest k ctx (Execute sql) w1) as [[rep| |] w2] eqn:ES; cbn in *;
    [|unfold sendRequest, mbind, DM_bind, onPeer in ES; cbn in ES; by case_match..].
  destruct rep as [[result warn]|e].
  - intros [= <- <-]. exists k. cbn. rewrite N2, N1.
    assert (Hnew : txs w !! nextTx w = None) by (apply (wf_next _ _ W); lia).
    split_and!; try done; [|by rewrite T2, T1 | by rewrite R2, R1].
    pose proof (free_unowned _ _ _ W Hk) as Hu. clear W W1. keep_wf. split; cbn; rewrite ?T2, ?T1; try done.
    + apply map_Forall_insert_2; [right; exists k; split; [done | set_solver]|]. by rewrite T2, T1 in Htx.
    + intros t1 t2 k'. destruct (decide (t1 = nextTx w)) as [->|H1], (decide (t2 = nextTx w)) as [->|H2];
        rewrite ?lookup_insert_eq, ?lookup_insert_ne by done; try done.
      * intros [= _ <-] Ht. by destruct (Hu t2).
      * intros Ht [= _ <-]. by destruct (Hu t1).
      * rewrite T2, T1 in Hinj. apply Hinj.
    + intros t Ht. rewrite lookup_insert_ne by lia. rewrite <- T1, <- T2. apply Hnext. lia.
  - intros Hp. unfold mbind, DM_bind in Hp.
    destruct (poolPut_spec held w2 k W2 Hk) as (w3 & E3 & W3 & T3 & R3 & N3 & HB3).
    { intros t. rewrite T2, T1. by apply (free_unowned held). }
    rewrite E3 in Hp. injection Hp as <- <-. split_and!; [done | congruence |].
    exists [(k, connectionOf ctx, Execute sql)]. split; [by rewrite R3, R2, R1|].
    constructor; [left; exact Hk | constructor].
Qed.

Lemma poolPut_txs d k w x : poolPut d k (set_txs x w) = let '(r, w') := poolPut d k w in (r, set_txs x w').
Proof.
  unfold poolPut, getDB, mbind, DM_bind. cbn. destruct (dbs w !! d) as [db|]; [|done]. by destruct (Pool.Put k (pool db)).
Qed.

Lemma poolPut_keeps d k w : txs (poolPut d k w).2 = txs w.
Proof.
  unfold poolPut, getDB, mbind, DM_bind. destruct (dbs w !! d) as [db|]; [|done]. by destruct (Pool.Put k (pool db)).
Qed.

(** Ending a transaction returns its connection. *)
Lemma endWith_spec held w t k ctx sql :
  wf held w -> txs w !! t = Some (openTx k) ->
  exists r w', endWith t ctx sql k.1 k w = (Returns r, w') /\ wf (held ∖ {[k]}) w' /\
    txs w' = <[t := endedTx]> (txs w) /\ trace w' = trace w ++ [(k, connectionOf ctx, Execute sql)] /\ returned k w'.
Proof.
  intros W E. destruct (wf_txs _ _ W _ _ E) as [[=]|(k' & ->%openTx_inj & Hin)].
  destruct (neutral_executeTx k' ctx sql held w W) as (W1 & T1 & N1 & _ & P1); [set_solver|].
  assert (R1 : trace (executeTx k' ctx sql w).2 = trace w ++ [(k', connectionOf ctx, Execute sql)]).
  { unfold executeTx, sendRequest, mbind, DM_bind, onPeer. cbn. by repeat case_match; simplify_eq. }
  assert (ER : exists r, (executeTx k' ctx sql w).1 = Returns r).
  { unfold executeTx, sendRequest, mbind, DM_bind, onPeer. cbn. repeat case_match; simplify_eq; eauto. }
  destruct ER as [r ER]. destruct (executeTx k' ctx sql w) as [o w1] eqn:EX. cbn in *. subst o.
  set (x := <[t := endedTx]> (txs w)).
  assert (Hwf : wf ({[k']} ∪ (held ∖ {[k']})) (set_txs x w1)).
  { replace ({[k']} ∪ (held ∖ {[k']})) with held by (apply leibniz_equiv; intros y; destruct (decide (y = k')); set_solver).
    clear W. keep_wf. rewrite T1 in *. split; cbn; try done.
    - apply map_Forall_insert_2; [by left | done].
    - intros t1 t2 k. unfold x. destruct (decide (t1 = t)) as [->|], (decide (t2 = t)) as [->|];
        rewrite ?lookup_insert_eq, ?lookup_insert_ne by done; try done. apply Hinj.
    - intros t' Ht. unfold x. rewrite lookup_insert_ne; [by apply Hnext|].
      intros <-. rewrite (Hnext t Ht) in E. done. }
  destruct (poolPut_spec (held ∖ {[k']}) (set_txs x w1) k' Hwf) as (w3 & E3 & W3 & T3 & R3 & N3 & HB3); [set_solver| |].
  { intros t'. cbn. unfold x. destruct (decide (t' = t)) as [->|]; [by rewrite lookup_insert_eq|].
    rewrite lookup_insert_ne by done. intros Ht. by apply (wf_inj _ _ W t' t k') in Ht. }
  rewrite poolPut_txs in E3. destruct (poolPut k'.1 k' w1) as [o w2] eqn:EP. injection E3 as -> <-.
  unfold endWith, mbind, DM_bind. rewrite EX, EP. eexists _, _. split; [done|]. cbn in *.
  assert (ET : txs w2 = txs w1) by (rewrite <- (poolPut_keeps k'.1 k' w1), EP; done).
  rewrite ET, T1. split_and!; [done | done | congruence | done].
Qed.

(** ** The health check *)

(** [k] pings in a row that contradict the status. *)
Fixpoint adversePings (k : nat) (db : DB (B := B)) : option DB :=
  match k with
  | O => Some db
  | S k' => db' ← adversePings k' db; countPing (status db' =? Running) db'
  end.

Definition flipped (st : Z) : Z := Z.land (Z.lxor st 255) 1.

Lemma countPing_adverse (db : DB (B := B)) :
  0 < pingTimesForChangeStatus db < two63 -> - pingTimesForChangeStatus db < pingCount db < pingTimesForChangeStatus db ->
  countPing (status db =? Running) db =
    Some (if pingCount db + 1 =? pingTimesForChangeStatus db then set_ping (flipped (status db)) 0 db
          else set_ping (status db) (pingCount db + 1) db).
Proof.
  intros Hn Hc. unfold countPing. rewrite Bool.eqb_reflx. rewrite i64_id by (unfold in_i64, two63 in *; lia).
  destruct (Z.eqb_spec (pingTimesForChangeStatus db) 0); [lia|].
  destruct (Z.eqb_spec (pingCount db + 1) (pingTimesForChangeStatus db)) as [E|E].
  - rewrite E, Z.rem_same by lia. cbn. destruct (Z.ltb_spec 0 (pingTimesForChangeStatus db)); [done | lia].
  - destruct (Z.eqb_spec (pingCount db + 1) 0) as [E0|E0].
    + rewrite E0, Z.rem_0_l by lia. done.
    + destruct (Z.eqb_spec (Z.rem (pingCount db + 1) (pingTimesForChangeStatus db)) 0) as [Er|]; [|done].
      apply Z.rem_divide in Er as [q Hq]; [|lia]. exfalso.
      assert (q = 0 \/ q <= -1 \/ 1 <= q) as [->|[?|?]] by lia; nia.
Qed.

(** Data sources change between running and not running after as many adverse
    pings as it takes the counter to reach the configured number, and not
    before; the counter stays below that number on either side.  A data source
    that was well for long starts from the other end, so it takes up to twice
    the number. *)
Theorem ping_flips (db : DB (B := B)) k :
  0 < pingTimesForChangeStatus db < two63 -> - pingTimesForChangeStatus db < pingCount db < pingTimesForChangeStatus db ->
  Z.of_nat k <= pingTimesForChangeStatus db - pingCount db ->
  adversePings k db =
    Some (if Z.of_nat k =? pingTimesForChangeStatus db - pingCount db then set_ping (flipped (status db)) 0 db
          else set_ping (status db) (pingCount db + Z.of_nat k) db).
Proof.
  intros Hn Hc. induction k as [|k IH]; intros Hk.
  - cbn [adversePings]. change (Z.of_nat 0) with 0. destruct (Z.eqb_spec 0 (pingTimesForChangeStatus db - pingCount db)); [lia|].
    rewrite Z.add_0_r. by destruct db.
  - cbn [adversePings]. rewrite IH by lia. destruct (Z.eqb_spec (Z.of_nat k) (pingTimesForChangeStatus db - pingCount db)); [lia|].
    cbn [mbind option_bind]. rewrite countPing_adverse by (cbn [set_ping pingTimesForChangeStatus pingCount]; lia).
    cbn [set_ping pingTimesForChangeStatus pingCount status].
    destruct (Z.eqb_spec (pingCount db + Z.of_nat k + 1) (pingTimesForChangeStatus db)),
      (Z.eqb_spec (Z.of_nat (S k)) (pingTimesForChangeStatus db - pingCount db)); try lia;
      unfold set_ping; cbn; do 2 f_equal; lia || done.
Qed.

(** ** Operations that do not end well *)

(** [Close] of a data source without running requests never returns. *)
Lemma DB_Close_spins fuel d w db :
  dbs w !! d = Some db -> inflightRequests db = 0 -> (DB_Close fuel d w).1 = Waits.
Proof.
  revert w db. induction fuel as [|fuel IH]; intros w db Hd Hi; [done|]. cbn [DB_Close].
  unfold mbind at 1, DM_bind at 1. unfold getDB at 1. rewrite Hd, Hi. cbn [Z.eqb].
  unfold DB_SetCapacity. unfold mbind, DM_bind. unfold getDB. rewrite Hd.
  destruct (Pool.SetCapacity 0 (pool db)) as [[r| |] p'] eqn:E; cbn.
  - eapply IH; [cbn; by rewrite lookup_insert_eq | done].
  - done.
  - unfold Pool.SetCapacity in E. repeat case_match; simplify_eq.
Qed.

(** Ending a transaction twice panics: the data source is read before the check. *)
Lemma ended_commit_panics t w ctx :
  txs w !! t = Some endedTx -> (Tx_Commit t ctx w).1 = Panics /\ (Tx_Rollback t ctx [] w).1 = Panics.
Proof.
  intros E. unfold Tx_Commit, Tx_Rollback, guarded, txSource, getTx, mbind, DM_bind. by rewrite !E.
Qed.

(** COM_FIELD_LIST on a table that has columns panics. *)
Lemma DB_ExecuteFieldList_panics held d ctx table wildcard w w' f fs :
  wf held w -> DB_ExecuteFieldList d ctx table wildcard w = (Returns (inl (f :: fs)), w') -> False.
Proof.
  intros _ E. unfold DB_ExecuteFieldList, inflight, withConn, deferring, mbind, DM_bind, onPeer, panic, mret, DM_ret in E.
  repeat case_match; simplify_eq.
Qed.
End spec.
