(* ===== verification/Isolation.v ===== *)
(** * Who may use which connection

    [isolatedW] is the invariant of a world in which owners have transactions:
    every transaction an owner has is open on a connection on which, since it
    was started, only requests of the owner's client were sent, and no two
    owners share one.  Owners are an arbitrary type with a client each, so that
    the executors that keep one transaction per client and those that keep one
    per client and group share the lemmas.  [L] are transactions that are open
    and belong to nobody. *)
From Stdlib Require Import ZArith Lia List.
From stdpp Require Import base gmap list strings.
From S2P Require Import Prelude GoText Encoding Layout Conn Packets PacketSpec GoTime DateTime Rows Stmt Collations Handshake Listener Topology Database DatabaseSpec.

Local Open Scope Z_scope.

(** The connection was taken by a statement of client [c], and only [c] has used
    it since. *)
Definition owned (c : Z) (k : backend) (tr : list (backend * Z * request)) : Prop :=
  exists pre sql post, tr = pre ++ (k, c, Execute sql) :: post /\
    Forall (fun e : backend * Z * request => e.1.1 = k -> e.1.2 = c) post.

Lemma owned_app c k tr es :
  owned c k tr -> Forall (fun e : backend * Z * request => e.1.1 = k -> e.1.2 = c) es -> owned c k (tr ++ es).
Proof.
  intros (pre & sql & post & -> & F) Fes. exists pre, sql, (post ++ es). rewrite <- app_assoc.
  split; [done | by apply Forall_app].
Qed.
Lemma owned_start c k tr sql : owned c k (tr ++ [(k, c, Execute sql)]).
Proof. by exists tr, sql, []. Qed.

Section isolation.
Context {B : Type} `{Backend B} {K : Type} (clientOf : K -> Z).
Implicit Types (w : World (B := B)) (owner : K -> nat -> Prop) (L : nat -> backend -> Prop).

Lemma owned_sent held own c c' k w w' :
  owned c k (trace w) -> k ∈ held -> sent held own c' w w' -> (k ∈ own -> c = c') -> owned c k (trace w').
Proof.
  intros Ho Hk (es & -> & F) Hc. apply owned_app; [done|]. eapply Forall_impl; [exact F|].
  cbn. intros x [Hx|[Hx ->]] <-; [done | symmetry; by apply Hc].
Qed.

(** Client [c] has the open transaction [t] on connection [k]. *)
Record clientTx w (c : Z) (t : nat) (k : backend) : Prop := {
  ct_open : txs w !! t = Some (openTx k);
  ct_owned : owned c k (trace w) }.

Record isolatedW L (held : gset backend) owner w : Prop := {
  is_leaked : forall t k, L t k -> txs w !! t = Some (openTx k) /\ (forall o, ~ owner o t);
  is_wf : wf held w;
  is_clients : forall o t, owner o t -> exists k, clientTx w (clientOf o) t k;
  is_inj : forall o1 o2 t, owner o1 t -> owner o2 t -> o1 = o2 }.

Lemma clientTx_held held w c t k : wf held w -> clientTx w c t k -> k ∈ held.
Proof. intros W []. by destruct (wf_txs _ _ W _ _ ct_open0) as [[=]|(k' & ->%openTx_inj & ?)]. Qed.

Lemma isolatedW_sub L held owner owner' w :
  isolatedW L held owner w -> (forall o t, owner' o t -> owner o t) -> isolatedW L held owner' w.
Proof.
  intros [Hl W Hc Hi] Hs. split; [|done|by eauto|by eauto].
  intros t k [E1 E2]%Hl. split; [done|]. intros o Ho. by apply (E2 o), Hs.
Qed.

(** The world changes as by an operation of client [c] that uses connections
    [own] and free ones. *)
Lemma isolatedW_sent L held own c owner w w' :
  isolatedW L held owner w -> wf held w' -> txs w' = txs w -> sent held own c w w' ->
  (forall o t k, owner o t -> clientTx w (clientOf o) t k -> k ∈ own -> clientOf o = c) ->
  isolatedW L held owner w'.
Proof.
  intros [Hl W Hc Hi] W' T S Ho. split; [by rewrite T | done | | done].
  intros o t Ht. destruct (Hc o t Ht) as (k & Hk). exists k. split; [rewrite T; apply Hk|].
  eapply owned_sent; [apply Hk | exact (clientTx_held _ _ _ _ _ W Hk) | exact S |].
  intros Hin. by eapply Ho.
Qed.

(** On a connection that an owner of the client has, or that no owner has. *)
Lemma isolatedW_own L held c owner w w' t k :
  isolatedW L held owner w -> wf held w' -> txs w' = txs w -> sent held {[k]} c w w' ->
  txs w !! t = Some (openTx k) -> (forall o, owner o t -> clientOf o = c) ->
  isolatedW L held owner w'.
Proof.
  intros Hi W' T S Ht Ho. eapply isolatedW_sent; [done..|].
  intros o t' k' Ht' Hk' ->%elem_of_singleton. apply Ho.
  assert (t' = t) as <- by (eapply (wf_inj _ _ (is_wf _ _ _ _ Hi)); [apply Hk' | done]). done.
Qed.

(** A transaction is started. *)
Lemma isolatedW_start L held owner owner' w w' t k c sql :
  isolatedW L held owner w -> (k ∉ held) -> wf ({[k]} ∪ held) w' -> txs w !! t = None ->
  txs w' = <[t := openTx k]> (txs w) -> trace w' = trace w ++ [(k, c, Execute sql)] ->
  (forall o t', owner' o t' -> owner o t' \/ (t' = t /\ clientOf o = c)) ->
  (forall o1 o2, owner' o1 t -> owner' o2 t -> o1 = o2) ->
  isolatedW L ({[k]} ∪ held) owner' w'.
Proof.
  intros [Hl W Hcl Hi] Hk W' Hnew T R Ho Hinj.
  assert (Hnone : forall o, ~ owner o t) by (intros o Hot; destruct (Hcl o t Hot) as (k' & [E1 _]); congruence).
  split; [| done | |].
  - intros t' k' [E1 E2]%Hl. rewrite T, lookup_insert_ne by (intros ->; congruence). split; [done|].
    intros o [Hot|[-> _]]%Ho; [by apply (E2 o) | congruence].
  - intros o t' [Hot|[-> Hc]]%Ho.
    + destruct (Hcl o t' Hot) as (k' & Hk'). exists k'.
      pose proof (clientTx_held _ _ _ _ _ W Hk') as Hin. destruct Hk' as [E1 E2].
      split; [rewrite T, lookup_insert_ne; [done|]; congruence|].
      rewrite R. apply owned_app; [done|]. constructor; [|constructor]. cbn. intros ->. done.
    + exists k. split; [by rewrite T, lookup_insert_eq|]. rewrite R, Hc. apply owned_start.
  - intros o1 o2 t' H1 H2. destruct (decide (t' = t)) as [->|Hne]; [by apply Hinj|].
    destruct (Ho _ _ H1) as [H1'|[? _]], (Ho _ _ H2) as [H2'|[? _]]; try done. by eapply Hi.
Qed.

(** A transaction ends. *)
Lemma isolatedW_end L held owner owner' w w' t k c sql :
  isolatedW L held owner w -> txs w !! t = Some (openTx k) -> wf (held ∖ {[k]}) w' ->
  txs w' = <[t := endedTx]> (txs w) -> trace w' = trace w ++ [(k, c, Execute sql)] ->
  (forall k', ~ L t k') -> (forall o t', owner' o t' -> owner o t' /\ t' <> t) ->
  isolatedW L (held ∖ {[k]}) owner' w'.
Proof.
  intros [Hl W Hcl Hi] Hk W' T R HL Ho. split; [| done | |].
  - intros t' k' HLt. destruct (Hl t' k' HLt) as [E1 E2].
    rewrite T, lookup_insert_ne by (intros <-; by apply (HL k')). split; [done|].
    intros o [Hot _]%Ho. by apply (E2 o).
  - intros o t' [Hot Hne]%Ho. destruct (Hcl o t' Hot) as (k' & Hk'). exists k'.
    split; [rewrite T, lookup_insert_ne by done; apply Hk'|].
    rewrite R. apply owned_app; [apply Hk'|]. constructor; [|constructor]. cbn. intros ->.
    destruct Hne. eapply (wf_inj _ _ W); [apply Hk' | done].
  - intros o1 o2 t' [H1 _]%Ho [H2 _]%Ho. by eapply Hi.
Qed.
End isolation.
Arguments is_leaked {B K clientOf L held owner w} _.
Arguments is_wf {B K clientOf L held owner w} _.
Arguments is_clients {B K clientOf L held owner w} _.
Arguments is_inj {B K clientOf L held owner w} _.
