(* ===== verification/ExecutorsSpec.v ===== *)
(** * Executors keep clients apart

    The invariant of an executor: every client with a transaction has one of its
    own that is still open, on a connection that is in no pool and in no other
    transaction, and since the transaction was started only requests of that
    client were sent on the connection.  Every command of every client keeps it,
    whatever it returns. *)
From Stdlib Require Import ZArith Lia List.
From stdpp Require Import base gmap list strings.
From S2P Require Import Prelude GoText Hints Encoding Layout Conn Packets PacketSpec GoTime DateTime Rows Stmt Collations Handshake Listener Topology Database Group Executors DatabaseSpec Isolation.

Local Open Scope Z_scope.

Section isolation.
Context {B : Type} `{Backend B} {G : Type}.
Implicit Types e : executor B (G := G).
(** Transactions that are open but belong to no client any more. *)
Context (L : nat -> backend -> Prop).

(** The owners are the clients, by [localTransactionMap]. *)
Definition ownerIn e (c : Z) (t : nat) : Prop := localTransactionMap e !! c = Some t.
Definition isolatedIn (held : gset backend) e : Prop :=
  isolatedW (fun c => c) L held (ownerIn e) (world e).

Definition isolated e : Prop := exists held, isolatedIn held e.

Definition keepsIsolated {A} (m : EM (B := B) (G := G) A) : Prop := forall e, isolated e -> isolated (m e).2.

Lemma isolated_world held own c e w' :
  isolatedIn held e -> wf held w' -> txs w' = txs (world e) -> sent held own c (world e) w' ->
  (forall c' t k, localTransactionMap e !! c' = Some t -> clientTx (world e) c' t k -> k ∈ own -> c' = c) ->
  isolatedIn held (set_world w' e).
Proof. intros He W T S Ho. eapply (isolatedW_sent (fun c => c)); eauto. Qed.

Lemma keeps_ret {A} (a : A) : keepsIsolated (mret a).
Proof. by intros e. Qed.
Lemma keeps_bind {A C} (m : EM A) (f : A -> EM C) :
  keepsIsolated m -> (forall a, keepsIsolated (f a)) -> keepsIsolated (m ≫= f).
Proof.
  intros Hm Hf e He. specialize (Hm e He). unfold mbind, EM_bind.
  destruct (m e) as [[a| |] e']; cbn in *; [by apply Hf | done | done].
Qed.
Lemma keeps_Load c : keepsIsolated (Load c).
Proof. by intros e. Qed.

(** Operations that use free connections only. *)
Lemma keeps_neutral {A} p c (m : DM A) : neutral p ∅ c m -> keepsIsolated (inWorld m).
Proof.
  intros Hm e (held & He). unfold inWorld. destruct (Hm held (world e) (is_wf He)) as (W & T & _ & S & _); [set_solver|].
  destruct (m (world e)) as [r w']. cbn in *. exists held. eapply isolated_world; [done..|set_solver].
Qed.

Lemma keeps_preFilter fs ctx : keepsIsolated (doPreFilter fs ctx).
Proof.
  induction fs; cbn [doPreFilter]; [apply keeps_ret|]. apply keeps_bind.
  - apply (keeps_neutral true 0), neutral_onPeer.
  - intros [|]; [apply keeps_ret | done].
Qed.
Lemma keeps_postFilter fs ctx result err : keepsIsolated (doPostFilter fs ctx result err).
Proof.
  induction fs; cbn [doPostFilter]; [apply keeps_ret|]. apply keeps_bind.
  - apply (keeps_neutral true 0), neutral_onPeer.
  - intros [|]; [apply keeps_ret | done].
Qed.
Lemma keeps_conclude conf ctx rep : keepsIsolated (conclude conf ctx rep).
Proof.
  unfold conclude. destruct rep as [[result warn]|]; [case_match|]; try (apply keeps_bind; [apply keeps_postFilter | intros; apply keeps_ret]).
  apply (keeps_neutral true 0), neutral_panic.
Qed.

Lemma keeps_withFilters conf ctx body : keepsIsolated body -> keepsIsolated (withFilters conf ctx body).
Proof.
  intros Hb. unfold withFilters. apply keeps_bind; [apply keeps_preFilter|]. intros [err|]; [apply keeps_ret|].
  intros e He. specialize (Hb e He). destruct (body e) as [[rep| |] e']; cbn [fst snd] in *.
  - by apply keeps_conclude.
  - done.
  - pose proof (keeps_conclude conf ctx (inl (None, 0)) e' Hb) as Hc.
    destruct (conclude conf ctx (inl (None, 0)) e') as [[| |] e'']; exact Hc.
Qed.

(** A statement of client [c] in its transaction. *)
Lemma keeps_inTx c t ctx {A} e (m : DM (B := B) A) (f : string -> backend -> DM A) :
  isolated e -> localTransactionMap e !! c = Some t -> connectionOf ctx = c ->
  (forall held k, wf held (world e) -> txs (world e) !! t = Some (openTx k) -> m (world e) = f k.1 k (world e)) ->
  (forall k, neutral true {[k]} (connectionOf ctx) (f k.1 k)) ->
  isolated (inWorld m e).2.
Proof.
  intros (held & He) Ht Hc Hm Hf. destruct (is_clients He c t Ht) as (k & Hk).
  destruct (inTx_neutral t k (world e) held ctx m f) as (W & T & _ & S & _);
    [apply He | apply Hk | eapply Hm; [apply He | apply Hk] | apply Hf |].
  unfold inWorld. destruct (m (world e)) as [r w']. cbn in *. exists held.
  eapply isolated_world; [done..|]. intros c' t' k' Ht' Hk' ->%elem_of_singleton.
  assert (t' = t) as -> by (eapply (wf_inj _ _ (is_wf He)); [apply Hk' | apply Hk]).
  subst c. by eapply (is_inj He).
Qed.

Lemma keeps_inTransactionOr c ctx m other (f : nat -> string -> backend -> DM reply) :
  connectionOf ctx = c -> keepsIsolated other ->
  (forall t held w k, wf held w -> txs w !! t = Some (openTx k) -> m t w = f t k.1 k w) ->
  (forall t k, neutral true {[k]} (connectionOf ctx) (f t k.1 k)) ->
  keepsIsolated (inTransactionOr c m other).
Proof.
  intros Hc Ho Hm Hf e He. unfold inTransactionOr, mbind, EM_bind. cbn.
  destruct (localTransactionMap e !! c) as [t|] eqn:Et; [|by apply Ho].
  eapply (keeps_inTx c t ctx e (m t) (f t)); eauto.
Qed.

Lemma keeps_request c ctx r other :
  connectionOf ctx = c -> keepsIsolated other ->
  keepsIsolated (inTransactionOr c (fun t => '(d, conn) ← txSource t; inflight d (filtered d ctx conn r)) other).
Proof.
  intros Hc Ho. pose (f := fun d conn => inflight d (filtered d ctx conn r)).
  apply (keeps_inTransactionOr c ctx _ other (fun _ => f)); [done | done | intros t held w k _; apply (inTx_run t k w f) |].
  intros. apply neutral_inflight, neutral_filtered; [set_solver | done].
Qed.
Lemma keeps_query c ctx query other :
  connectionOf ctx = c -> keepsIsolated other ->
  keepsIsolated (inTransactionOr c (fun t => Tx_Query t ctx query) other).
Proof. apply keeps_request. Qed.
Lemma keeps_stmt c ctx stmt other :
  connectionOf ctx = c -> keepsIsolated other ->
  keepsIsolated (inTransactionOr c (fun t => Tx_ExecuteStmt t ctx stmt) other).
Proof. apply keeps_request. Qed.

(** A new transaction, stored for its client. *)
Lemma keeps_begins c d ctx sql : connectionOf ctx = c -> keepsIsolated (begins c (XAStart d ctx sql)).
Proof.
  intros Hc e (held & He). unfold begins, mbind, EM_bind, inWorld.
  destruct (XAStart d ctx sql (world e)) as [r w'] eqn:E.
  pose proof (XAStart_spec held (world e) d ctx sql r w' (is_wf He) E) as HX.
  destruct r as [[[t result]|err]| |];
    [|destruct HX as (W & T & S); exists held; eapply isolated_world; [done..|set_solver]..].
  destruct HX as (k & <- & Hk & W & Hnew & T & R). exists ({[k]} ∪ held). rewrite Hc in R.
  assert (Hnone : forall c', ownerIn e c' t -> False).
  { intros c' Ho. destruct (is_clients He c' t Ho) as (k' & [E1 _]). congruence. }
  eapply (isolatedW_start (fun c => c)); [exact He | done..| |]; unfold ownerIn; cbn.
  - intros c' t'. destruct (decide (c' = c)) as [->|Hne].
    + rewrite lookup_insert_eq. intros [= <-]. by right.
    + rewrite lookup_insert_ne by done. by left.
  - assert (Hlk : forall c', <[c:=t]> (localTransactionMap e) !! c' = Some t -> c' = c).
    { intros c' Hc'. destruct (decide (c' = c)) as [->|Hne]; [done|]. rewrite lookup_insert_ne in Hc' by done.
      by destruct (Hnone c'). }
    intros c1 c2 ->%Hlk ->%Hlk. done.
Qed.

(** A transaction that ends, with its entry. *)
Lemma keeps_ends c t ctx sql e held r w' :
  isolatedIn held e -> localTransactionMap e !! c = Some t ->
  (forall k, txs (world e) !! t = Some (openTx k) -> endWith t ctx sql k.1 k (world e) = (r, w')) ->
  connectionOf ctx = c ->
  (exists a, r = Returns a) /\ isolated (set_transactions (delete c (localTransactionMap e)) (set_world w' e)).
Proof.
  intros He Ht HE Hc. destruct (is_clients He c t Ht) as (k & Hk).
  destruct (endWith_spec held (world e) t k ctx sql (is_wf He) (ct_open _ _ _ _ Hk)) as (r' & w2 & E & W2 & T & R & _).
  rewrite (HE k (ct_open _ _ _ _ Hk)) in E. injection E as -> ->. split; [by eexists|].
  exists (held ∖ {[k]}). eapply (isolatedW_end (fun c => c)); [exact He | apply Hk | done..| |].
  - intros k' [_ HL]%(is_leaked He). by apply (HL c).
  - unfold ownerIn. cbn. intros c' t' [Hne Ht']%lookup_delete_Some. split; [done|]. intros ->.
    apply Hne. by eapply (is_inj He).
Qed.

Lemma keeps_ending c ctx sql (m : nat -> DM (option queryResult + goError)) :
  connectionOf ctx = c ->
  (forall t held w k, wf held w -> txs w !! t = Some (openTx k) -> m t w = endWith t ctx sql k.1 k w) ->
  keepsIsolated (inTransaction c (fun t => deletingAfter c (r ← inWorld (m t); mret (withoutWarnings r)))).
Proof.
  intros Hc Hm e (held & He). unfold inTransaction, mbind, EM_bind. cbn.
  destruct (localTransactionMap e !! c) as [t|] eqn:Et; [|by exists held].
  unfold deletingAfter, inWorld. destruct (m t (world e)) as [r w'] eqn:E.
  destruct (keeps_ends c t ctx sql e held r w') as [[a ->] Hi]; [done..| |done|exact Hi].
  intros k Hk. rewrite <- E. symmetry. by eapply Hm; [apply He|].
Qed.

Lemma keeps_commits c ctx : connectionOf ctx = c -> keepsIsolated (commits c ctx).
Proof. intros. eapply keeps_ending; [done|]. intros. by eapply guarded_run. Qed.
Lemma keeps_prepares c ctx sql : connectionOf ctx = c -> keepsIsolated (prepares c ctx sql).
Proof. intros. eapply keeps_ending; [done|]. intros. by eapply guarded_run. Qed.

(** Statements that shape the transaction without ending it. *)
Lemma keeps_shaping c ctx sql (m : nat -> DM (option queryResult + goError)) :
  connectionOf ctx = c ->
  (forall t held w k, wf held w -> txs w !! t = Some (openTx k) -> m t w = executeTx k ctx sql w) ->
  keepsIsolated (inTransaction c (fun t => r ← inWorld (m t); mret (withoutWarnings r))).
Proof.
  intros Hc Hm e He. unfold inTransaction, mbind, EM_bind. cbn.
  destruct (localTransactionMap e !! c) as [t|] eqn:Et; [|done].
  assert (Hk : isolated (inWorld (m t) e).2).
  { eapply (keeps_inTx c t ctx e (m t) (fun _ conn => executeTx conn ctx sql)); eauto using neutral_executeTx. }
  destruct (inWorld (m t) e) as [[| |] e']; done.
Qed.
Lemma keeps_releases c ctx nm : connectionOf ctx = c -> keepsIsolated (releases c ctx nm).
Proof. intros. eapply keeps_shaping; [done|]. intros. unfold Tx_ReleaseSavepoint. by erewrite guarded_run. Qed.
Lemma keeps_rollsBack c ctx savepoint : connectionOf ctx = c -> keepsIsolated (rollsBack c ctx savepoint).
Proof.
  intros. unfold rollsBack. destruct savepoint as [|x sp].
  - eapply keeps_ending; [done|]. intros. by eapply guarded_run.
  - eapply keeps_shaping; [done|]. intros. unfold Tx_Rollback. by erewrite guarded_run.
Qed.

Lemma keeps_close c : keepsIsolated (ConnectionClose c).
Proof.
  intros e (held & He). unfold ConnectionClose, mbind, EM_bind. cbn.
  destruct (localTransactionMap e !! c) as [t|] eqn:Et; [|by exists held].
  unfold inWorld. destruct (Tx_Rollback t (clientContext c) [] (world e)) as [r w'] eqn:E.
  destruct (keeps_ends c t (clientContext c) (bytes_of "ROLLBACK") e held r w') as [[a ->] Hi]; [done..| |done|exact Hi].
  intros k Hk. rewrite <- E. symmetry. by eapply guarded_run; [apply He|].
Qed.

(** ** The commands *)
Lemma keeps_DB_Query d ctx query : keepsIsolated (inWorld (DB_Query d ctx query)).
Proof. apply (keeps_neutral false 0), neutral_DB_Query. Qed.
Lemma keeps_DB_ExecuteStmt d ctx stmt : keepsIsolated (inWorld (DB_ExecuteStmt d ctx stmt)).
Proof. apply (keeps_neutral false 0), neutral_DB_ExecuteStmt. Qed.
End isolation.

Section commands.
Context {B : Type} `{Backend B}.
Context (restore : queryNode -> bytes + goError) (nodeOf : Stmt -> queryNode).
Context (L : nat -> backend -> Prop).

Lemma keeps_SDB {G} conf ctx node sqlText : keepsIsolated L (SDB_ExecutorComQuery (G := G) restore conf ctx node sqlText).
Proof.
  apply keeps_withFilters. destruct (restore node) as [sql|]; [|apply keeps_ret].
  unfold sdbSwitch. destruct node;
    [ destruct (shouldStartTransaction variables); [by apply keeps_begins|] | by apply keeps_begins | by apply keeps_commits
    | by apply keeps_rollsBack | by apply keeps_releases | by apply keeps_begins | by apply keeps_prepares | ..];
    (apply keeps_query; [done | apply keeps_DB_Query]).
Qed.
Lemma keeps_SDB_execute {G} conf ctx stmt : keepsIsolated L (SDB_ExecutorComStmtExecute (G := G) conf ctx stmt).
Proof. apply keeps_withFilters, keeps_stmt; [done | apply keeps_DB_ExecuteStmt]. Qed.

(** *** Groups *)
Lemma neutral_read p own c {A} (f : World (B := B) -> A) : neutral p own c (read f).
Proof. by apply neutral_still. Qed.
Lemma neutral_ended own c {A} (r : outcome A) : neutral (B := B) false own c (ended r).
Proof. intros held w W _. split_and!; try done. by apply sent_refl. Qed.
Lemma neutral_spawn own c {A} (m : DM (B := B) A) : neutral false own c m -> neutral false own c (spawn m).
Proof.
  intros Hm held w W Ho. destruct (Hm held w W Ho) as (? & ? & ? & ? & _). unfold spawn.
  destruct (m w) as [[| |] w']; by split_and!.
Qed.
Lemma neutral_queryEach own c ds ctx query : neutral (B := B) false own c (queryEach ds ctx query).
Proof.
  induction ds; cbn [queryEach]; [apply neutral_ret|].
  apply neutral_bind; [apply neutral_spawn, neutral_DB_Query | done].
Qed.

Lemma keeps_onGroup c {A} (m : DBGroup -> DM (B := B) (A * DBGroup)) :
  (forall g, neutral false ∅ c (m g)) -> keepsIsolated L (onGroup m).
Proof.
  intros Hm e He. pose proof (keeps_neutral L false c (m (group e)) (Hm _) e He) as (held & [Hl W Hc Hi]).
  unfold inWorld, onGroup in *. destruct (m (group e) (world e)) as [[[a g]| |] w']; exists held; by split.
Qed.
Lemma keeps_onPicked rnd rnd' ctx (m : string -> DM (B := B) reply) :
  (forall d, neutral false ∅ 0 (m d)) -> keepsIsolated L (onGroup (fun g => onPicked rnd rnd' g ctx m)).
Proof.
  intros Hm. apply (keeps_onGroup 0). intros g. unfold onPicked. apply neutral_bind; [apply neutral_read|]. intros x.
  apply neutral_bind; [apply neutral_ended|]. intros [d|]; [|apply neutral_panic].
  apply neutral_bind; [apply Hm | intros; apply neutral_ret].
Qed.
Lemma keeps_readsFrom hints onDB onPick :
  (forall d, neutral (B := B) false ∅ 0 (onDB d)) -> keepsIsolated L (onGroup onPick) ->
  keepsIsolated L (readsFrom hints onDB onPick).
Proof.
  intros Hd Hp e He. unfold readsFrom. repeat case_match; try (by apply Hp); try done.
  by apply (keeps_neutral L false 0).
Qed.
Lemma keeps_group_begins c ctx sql :
  connectionOf ctx = c -> keepsIsolated L (fun e => begins c (Group_XAStart (group e) ctx sql) e).
Proof.
  intros Hc e He. pose proof (fun d => keeps_begins L c d ctx sql Hc e He) as Hb.
  unfold Group_XAStart, firstMaster, begins, inWorld, read in *. unfold mbind, EM_bind, DM_bind in *.
  destruct (getAvailableMasters (group e) (world e)) as [|d ds]; [|apply Hb].
  cbn. destruct He as (held & []). exists held. by split.
Qed.

Lemma keeps_RWS rnd rnd' order conf ctx node sqlText :
  keepsIsolated L (RWS_ExecutorComQuery restore rnd rnd' order conf ctx node sqlText).
Proof.
  apply keeps_withFilters. destruct (restore node) as [sql|]; [|apply keeps_ret].
  assert (HP : forall ctx', keepsIsolated L (onGroup (fun g => Group_Query rnd rnd' g ctx' sql)))
    by (intros; apply keeps_onPicked; intros; apply neutral_DB_Query).
  unfold rwsSwitch. destruct node;
    [ destruct (shouldStartTransaction variables); [by apply keeps_group_begins|] | by apply keeps_group_begins
    | by apply keeps_commits | by apply keeps_rollsBack | by apply keeps_releases | by apply keeps_group_begins
    | by apply keeps_prepares | ..]; (apply keeps_query; [done|]); try apply HP.
  - intros e He. unfold readGroup. apply (keeps_neutral L false 0); [|done]. unfold Group_QueryAll.
    apply neutral_bind; [apply neutral_queryEach | intros; apply neutral_ret].
  - apply keeps_readsFrom; [intros; apply neutral_DB_Query | apply HP].
Qed.
Lemma keeps_RWS_execute rnd rnd' conf ctx stmt :
  keepsIsolated L (RWS_ExecutorComStmtExecute nodeOf rnd rnd' conf ctx stmt).
Proof.
  assert (HP : forall ctx', keepsIsolated L (onGroup (fun g => Group_PrepareExecuteStmt rnd rnd' g ctx' stmt)))
    by (intros; apply keeps_onPicked; intros; apply neutral_DB_ExecuteStmt).
  apply keeps_withFilters, keeps_stmt; [done|]. destruct (nodeOf stmt); try apply keeps_ret; try apply HP.
  apply keeps_readsFrom; [intros; apply neutral_DB_ExecuteStmt | apply HP].
Qed.
End commands.

(** ** Runs *)

(** A command of a client, its departure, or a turn of a health check. *)
Inductive clientCommand :=
| CQuery (c : Z) (node : queryNode) (sqlText : bytes)
| CExecute (c : Z) (stmt : Stmt)
| CUseDB (c : Z) (schema : bytes)
| CFieldList (c : Z) (table wildcard : bytes)
| CClose (c : Z)
| CPing (d : string).

Section runs.
Context {B : Type} `{Backend B}.
Context (restore : queryNode -> bytes + goError) (nodeOf : Stmt -> queryNode) (conf : executorConf (B := B)).

(** What a command does to the executor, whatever it returns. *)
Definition SDB_after (cmd : clientCommand) (e : executor B (G := unit)) : executor B :=
  match cmd with
  | CQuery c node sqlText => (SDB_ExecutorComQuery restore conf (clientContext c) node sqlText e).2
  | CExecute c stmt => (SDB_ExecutorComStmtExecute conf (clientContext c) stmt e).2
  | CUseDB c schema => (SDB_ExecuteUseDB conf (clientContext c) schema e).2
  | CFieldList c table wildcard => (SDB_ExecuteFieldList conf (clientContext c) table wildcard e).2
  | CClose c => (ConnectionClose c e).2
  | CPing d => (inWorld (DB_ping d) e).2
  end.
Definition RWS_after (rnd rnd' : Z) (order : list string -> list string) (cmd : clientCommand)
    (e : executor B (G := DBGroup)) : executor B :=
  match cmd with
  | CQuery c node sqlText => (RWS_ExecutorComQuery restore rnd rnd' order conf (clientContext c) node sqlText e).2
  | CExecute c stmt => (RWS_ExecutorComStmtExecute nodeOf rnd rnd' conf (clientContext c) stmt e).2
  | CUseDB c schema => (RWS_ExecuteUseDB schema e).2
  | CFieldList c table wildcard => (RWS_ExecuteFieldList table wildcard e).2
  | CClose c => (RWS_ConnectionClose c e).2
  | CPing d => (inWorld (DB_ping d) e).2
  end.

Inductive SDB_reachable (e0 : executor B (G := unit)) : executor B -> Prop :=
| SDB_start : SDB_reachable e0 e0
| SDB_step e cmd : SDB_reachable e0 e -> SDB_reachable e0 (SDB_after cmd e).
Inductive RWS_reachable (e0 : executor B (G := DBGroup)) : executor B -> Prop :=
| RWS_start : RWS_reachable e0 e0
| RWS_step e rnd rnd' order cmd : RWS_reachable e0 e -> RWS_reachable e0 (RWS_after rnd rnd' order cmd e).

Lemma SDB_after_isolated L cmd e : isolated L e -> isolated L (SDB_after cmd e).
Proof.
  intros He. destruct cmd; cbn [SDB_after].
  - by apply keeps_SDB.
  - by apply keeps_SDB_execute.
  - by apply (keeps_neutral L false 0), He; apply neutral_DB_UseDB.
  - by apply (keeps_neutral L false 0), He; apply neutral_DB_ExecuteFieldList.
  - by apply keeps_close.
  - by apply (keeps_neutral L false 0), He; apply neutral_ping.
Qed.
Lemma RWS_after_isolated L rnd rnd' order cmd e : isolated L e -> isolated L (RWS_after rnd rnd' order cmd e).
Proof.
  intros He. destruct cmd; cbn [RWS_after].
  - by apply keeps_RWS.
  - by apply keeps_RWS_execute.
  - done.
  - done.
  - by apply keeps_close.
  - by apply (keeps_neutral L false 0), He; apply neutral_ping.
Qed.
Lemma SDB_reachable_isolated L e0 e : isolated L e0 -> SDB_reachable e0 e -> isolated L e.
Proof. intros H0. induction 1; [done | by apply SDB_after_isolated]. Qed.
Lemma RWS_reachable_isolated L e0 e : isolated L e0 -> RWS_reachable e0 e -> isolated L e.
Proof. intros H0. induction 1; [done | by apply RWS_after_isolated]. Qed.

(** The data sources as they are registered: new pools, no transactions. *)
Definition freshWorld (w : World (B := B)) : Prop :=
  txs w = ∅ /\ trace w = [] /\
  map_Forall (fun _ db => exists cap maxCap, Pool.NewResourcePool cap maxCap = Returns (pool db)) (dbs w).

Definition noLeaks : nat -> backend -> Prop := fun _ _ => False.

Lemma fresh_isolatedIn {G} w (g : G) : freshWorld w -> isolatedIn noLeaks ∅ (mkExecutor w ∅ g).
Proof.
  intros (Ht & Hr & Hp). split; unfold ownerIn; cbn; [done | | |]; [|intros ? ?; by rewrite lookup_empty..].
  split; rewrite ?Ht; try done.
  eapply map_Forall_impl; [exact Hp|]. cbn. intros d db (cap & maxCap & E). unfold Pool.NewResourcePool in E.
  destruct ((cap <=? 0) || (maxCap <=? 0) || (cap >? maxCap)) eqn:EC; [done|]. injection E as <-.
  apply orb_false_elim in EC as [[E1 E2]%orb_false_elim E3]. zbool.
  assert (EI : omap (fun w : option backend => w) (replicate (Z.to_nat cap) None) = [])
    by (clear; induction (Z.to_nat cap) as [|n IH]; [done | exact IH]).
  assert (ES : size (taken d ∅) = 0%nat) by (assert (taken d ∅ = ∅) as -> by (unfold taken; set_solver); done).
  split; unfold idle; cbn; rewrite ?EI, ?ES; try done; try lia; try constructor.
  - unfold len. rewrite length_replicate. lia.
  - unfold len. rewrite length_replicate. lia.
Qed.

Lemma fresh_isolated {G} w (g : G) : freshWorld w -> isolated noLeaks (mkExecutor w ∅ g).
Proof. intros Hw. exists ∅. by apply fresh_isolatedIn. Qed.

(** What the invariant says of a client's transaction. *)
Definition exclusive {G} (e : executor B (G := G)) (c : Z) (k : backend) : Prop :=
  owned c k (trace (world e)) /\
  (forall d db, dbs (world e) !! d = Some db -> k ∉ idle (pool db)) /\
  (forall c' t', localTransactionMap e !! c' = Some t' -> c' <> c -> txs (world e) !! t' <> Some (openTx k)).

Lemma isolated_exclusive {G} L (e : executor B (G := G)) c t :
  isolated L e -> localTransactionMap e !! c = Some t ->
  exists k, txs (world e) !! t = Some (openTx k) /\ exclusive e c k.
Proof.
  intros (held & He) Ht. destruct (is_clients He c t Ht) as (k & Hk). exists k. split; [apply Hk|].
  pose proof (clientTx_held _ _ _ _ _ (is_wf He) Hk) as Hin. split_and!; [apply Hk | |].
  - intros d db Hd Hidle. pose proof (po_idle _ _ _ _ (wf_pools _ _ (is_wf He) d db Hd)) as Hf.
    rewrite List.Forall_forall in Hf. apply list_elem_of_In in Hidle. destruct (Hf k Hidle) as (_ & _ & Hn). done.
  - intros c' t' Ht' Hne Ho. apply Hne.
    assert (t' = t) as -> by (eapply (wf_inj _ _ (is_wf He)); [exact Ho | apply Hk]).
    by eapply (is_inj He).
Qed.

(** C17: Clients are kept apart.  Whatever clients of an executor with a single data
    source do, in any order: a client with a local transaction has it open on a
    connection on which, since the statement that started it, only requests of
    this client were sent; the connection is in no pool, so no statement outside
    of the transaction gets it, and no other client's transaction has it. *)
Theorem transactions_isolated w0 e c t :
  freshWorld w0 -> SDB_reachable (mkExecutor w0 ∅ tt) e -> localTransactionMap e !! c = Some t ->
  exists k, txs (world e) !! t = Some (openTx k) /\ exclusive e c k.
Proof.
  intros H0 Hr. apply (isolated_exclusive noLeaks). eapply SDB_reachable_isolated; [|exact Hr]. by apply fresh_isolated.
Qed.

(** The same of an executor with read-write splitting, whatever its group picks. *)
Theorem splitting_isolated w0 g e c t :
  freshWorld w0 -> RWS_reachable (mkExecutor w0 ∅ g) e -> localTransactionMap e !! c = Some t ->
  exists k, txs (world e) !! t = Some (openTx k) /\ exclusive e c k.
Proof.
  intros H0 Hr. apply (isolated_exclusive noLeaks). eapply RWS_reachable_isolated; [|exact Hr]. by apply fresh_isolated.
Qed.

(** ** Ending a transaction *)

(** A client that goes away has its transaction rolled back on the connection it
    ran on, which is then free again, and has no transaction any more; this holds
    whatever the database answers. *)
Theorem close_rolls_back w0 e c t :
  freshWorld w0 -> SDB_reachable (mkExecutor w0 ∅ tt) e -> localTransactionMap e !! c = Some t ->
  exists k e', txs (world e) !! t = Some (openTx k) /\ ConnectionClose c e = (Returns tt, e') /\
    trace (world e') = trace (world e) ++ [(k, c, Execute (bytes_of "ROLLBACK"))] /\
    txs (world e') = <[t := endedTx]> (txs (world e)) /\ returned k (world e') /\
    localTransactionMap e' = delete c (localTransactionMap e).
Proof.
  intros H0 Hr Ht.
  destruct (SDB_reachable_isolated noLeaks _ _ (fresh_isolated w0 tt H0) Hr) as (held & He).
  destruct (is_clients He c t Ht) as (k & Hk).
  destruct (endWith_spec held (world e) t k (clientContext c) (bytes_of "ROLLBACK") (is_wf He) (ct_open _ _ _ _ Hk))
    as (r & w' & E & W & T & R & HB).
  exists k, (set_transactions (delete c (localTransactionMap e)) (set_world w' e)). split; [apply Hk|].
  split; [|by split_and!]. unfold ConnectionClose, mbind, EM_bind. cbn. rewrite Ht. unfold inWorld, Tx_Rollback.
  rewrite (guarded_run held t k) by (exact (is_wf He) || exact (ct_open _ _ _ _ Hk)). by rewrite E.
Qed.

(** ** Leaks *)

(** An open transaction that no client refers to stays so for ever: nothing
    rolls it back, and its connection does not return to the pool. *)
Lemma leaked_for_ever e e' t k :
  isolated noLeaks e -> txs (world e) !! t = Some (openTx k) -> (forall c, localTransactionMap e !! c <> Some t) ->
  SDB_reachable e e' ->
  txs (world e') !! t = Some (openTx k) /\ (forall c, localTransactionMap e' !! c <> Some t) /\
  (forall d db, dbs (world e') !! d = Some db -> k ∉ idle (pool db)).
Proof.
  intros (held & [_ W Hc Hi]) Ht Hn Hr.
  assert (Hl : isolated (fun t' k' => t' = t /\ k' = k) e) by (exists held; split; [by intros t' k' [-> ->] | done..]).
  destruct (SDB_reachable_isolated _ _ _ Hl Hr) as (held' & [Hl' W' _ _]).
  destruct (Hl' t k) as [E1 E2]; [done|]. split_and!; [done..|].
  intros d db Hd Hidle. destruct (wf_txs _ _ W' _ _ E1) as [[=]|(k' & ->%openTx_inj & Hin)].
  pose proof (po_idle _ _ _ _ (wf_pools _ _ W' d db Hd)) as Hf. rewrite List.Forall_forall in Hf.
  apply list_elem_of_In in Hidle. by destruct (Hf k' Hidle) as (_ & _ & ?).
Qed.

(** What an operation of client [c] leaves alone. *)
Definition frames {A G} (c : Z) (m : EM (B := B) (G := G) A) : Prop := forall e, isolated noLeaks e ->
  (forall t tx, txs (world e) !! t = Some tx -> txs (world (m e).2) !! t = Some tx) /\
  (forall c', c' <> c -> localTransactionMap (m e).2 !! c' = localTransactionMap e !! c').

Lemma frames_bind {A C G} c (m : EM (G := G) A) (f : A -> EM C) :
  keepsIsolated noLeaks m -> frames c m -> (forall a, frames c (f a)) -> frames c (m ≫= f).
Proof.
  intros Hk Hm Hf e He. destruct (Hm e He) as [E1 E2]. specialize (Hk e He). unfold mbind, EM_bind.
  destruct (m e) as [[a| |] e']; cbn [fst snd] in *; [|done..]. destruct (Hf a e' Hk) as [E3 E4].
  split; [eauto|]. intros c' Hc'. rewrite E4, E2; done.
Qed.
Lemma frames_ret {A G} c (a : A) : frames (G := G) c (mret a).
Proof. by intros e. Qed.
Lemma frames_neutral {A G} p c c' (m : DM (B := B) A) : neutral p ∅ c' m -> frames (G := G) c (inWorld m).
Proof.
  intros Hm e (held & He). destruct (Hm held (world e) (is_wf He)) as (W & T & _); [set_solver|].
  unfold inWorld. destruct (m (world e)) as [r w']. cbn in *. by rewrite T.
Qed.
Lemma frames_preFilter {G} c fs ctx : frames (G := G) c (doPreFilter fs ctx).
Proof.
  induction fs; cbn [doPreFilter]; [apply frames_ret|]. apply frames_bind.
  - apply (keeps_neutral noLeaks true 0), neutral_onPeer.
  - apply (frames_neutral true c 0), neutral_onPeer.
  - intros [|]; [apply frames_ret | done].
Qed.
Lemma frames_postFilter {G} c fs ctx result err : frames (G := G) c (doPostFilter fs ctx result err).
Proof.
  induction fs; cbn [doPostFilter]; [apply frames_ret|]. apply frames_bind.
  - apply (keeps_neutral noLeaks true 0), neutral_onPeer.
  - apply (frames_neutral true c 0), neutral_onPeer.
  - intros [|]; [apply frames_ret | done].
Qed.
Lemma frames_conclude {G} c (cf : executorConf) ctx rep : frames (G := G) c (conclude cf ctx rep).
Proof.
  unfold conclude. destruct rep as [[result warn]|]; [case_match|];
    try (apply frames_bind; [apply keeps_postFilter | apply frames_postFilter | intros; apply frames_ret]).
  apply (frames_neutral true c 0), neutral_panic.
Qed.
Lemma frames_withFilters {G} c (cf : executorConf) ctx body :
  keepsIsolated noLeaks body -> frames (G := G) c body -> frames c (withFilters cf ctx body).
Proof.
  intros Hk Hb. unfold withFilters. apply frames_bind; [apply keeps_preFilter | apply frames_preFilter|].
  intros [err|]; [apply frames_ret|]. intros e He. specialize (Hk e He). destruct (Hb e He) as [E1 E2].
  destruct (body e) as [[rep| |] e']; cbn [fst snd] in *; [|done|].
  - destruct (frames_conclude c cf ctx rep e' Hk) as [E3 E4]. split; [eauto|]. intros c' Hc'. by rewrite E4, E2.
  - destruct (frames_conclude c cf ctx (inl (None, 0)) e' Hk) as [E3 E4].
    destruct (conclude cf ctx (inl (None, 0)) e') as [[| |] e'']; cbn [fst snd] in *;
      (split; [eauto|]; intros c' Hc'; by rewrite E4, E2).
Qed.
Lemma frames_begins {G} c d ctx sql : connectionOf ctx = c -> frames (G := G) c (begins c (XAStart d ctx sql)).
Proof.
  intros Hc e (held & He). unfold begins, mbind, EM_bind, inWorld.
  destruct (XAStart d ctx sql (world e)) as [r w'] eqn:E.
  pose proof (XAStart_spec held (world e) d ctx sql r w' (is_wf He) E) as HX.
  destruct r as [[[t result]|err]| |]; cbn; [|destruct HX as (_ & -> & _); done..].
  destruct HX as (k & _ & _ & _ & Hnew & -> & _). split.
  - intros t' tx Ht. rewrite lookup_insert_ne; [done | congruence].
  - intros c' Hne. by rewrite lookup_insert_ne.
Qed.

(** A second BEGIN leaks.  When a client in a transaction starts another one,
    the first one is forgotten: nobody can end it any more, its connection never
    returns to the pool, and its locks stay, whatever the clients do later. *)
Theorem second_begin_leaks w0 e c sqlText t k e' e'' :
  freshWorld w0 -> SDB_reachable (mkExecutor w0 ∅ tt) e ->
  localTransactionMap e !! c = Some t -> txs (world e) !! t = Some (openTx k) ->
  e' = SDB_after (CQuery c BeginStmt sqlText) e -> localTransactionMap e' !! c <> Some t ->
  SDB_reachable e' e'' ->
  txs (world e'') !! t = Some (openTx k) /\ (forall c', localTransactionMap e'' !! c' <> Some t) /\
  (forall d db, dbs (world e'') !! d = Some db -> k ∉ idle (pool db)).
Proof.
  intros H0 Hr Ht Hk He' Hne Hr'.
  pose proof (SDB_reachable_isolated noLeaks _ _ (fresh_isolated w0 tt H0) Hr) as Hiso.
  assert (HF : frames (G := unit) c (SDB_ExecutorComQuery restore conf (clientContext c) BeginStmt sqlText)).
  { apply frames_withFilters; destruct (restore BeginStmt);
      [by apply keeps_begins | apply keeps_ret | by apply frames_begins | apply frames_ret]. }
  destruct (HF e Hiso) as [E1 E2]. subst e'.
  apply (leaked_for_ever (SDB_after (CQuery c BeginStmt sqlText) e)); [|by apply E1| |exact Hr'].
  - by apply SDB_after_isolated.
  - intros c'. destruct (decide (c' = c)) as [->|Hc']; [done|]. cbn. rewrite E2 by done. intros Ht'.
    destruct Hiso as (held & He). by destruct (Hc' (is_inj He c' c t Ht' Ht)).
Qed.

(** When transactions hold all connections of a data source, leaked ones
    included, a statement outside of them waits. *)
Lemma exhausted_waits held w d db ctx query :
  wf held w -> dbs w !! d = Some db -> Z.of_nat (size (taken d held)) = Pool.capacity (pool db) ->
  (DB_Query d ctx query w).1 = Waits /\ (Begin d ctx w).1 = Waits.
Proof.
  intros W Hd Hs. pose proof (wf_pools _ _ W d db Hd) as Hp. cbn in Hp.
  assert (Hr : Pool.resources (pool db) = []).
  { pose proof (po_count _ _ _ _ Hp). destruct (Pool.resources (pool db)); [done|]. unfold len in *. cbn [length] in *. lia. }
  assert (HG : forall w', dbs w' !! d = Some db \/ dbs w' !! d = Some (set_inflight (inflightRequests db + 1) db) ->
            poolGet d w' = (Waits, w')).
  { intros w' Hw'. unfold poolGet, getDB, mbind, DM_bind. destruct Hw' as [-> | ->]; cbn; rewrite Hr, (po_open _ _ _ _ Hp); done. }
  split.
  - unfold DB_Query, inflight, addInflight. unfold mbind at 1, DM_bind at 1. unfold getDB at 1. unfold mbind at 1, DM_bind at 1.
    rewrite Hd. cbn. unfold deferring, withConn, mbind, DM_bind. rewrite HG; [done|]. right. cbn. by rewrite lookup_insert_eq.
  - unfold Begin, XAStart, mbind, DM_bind. rewrite HG; [done | by left].
Qed.
End runs.
