(* ===== verification/GroupSpec.v ===== *)
(** * What groups promise: load balancing and the route of writes

    Writes go to running masters only; round robin visits the running masters
    in turn; the weighted choice gives each data source its share.  Reads by
    round robin index the slaves by the number of masters, which is stated as
    it is. *)
From Stdlib Require Import ZArith Lia List Permutation.
From stdpp Require Import base gmap list strings.
From S2P Require Import Prelude GoText Hints Encoding Layout Conn Packets PacketSpec GoTime DateTime Rows Stmt Collations Handshake Listener Topology Database Group Executors DatabaseSpec ExecutorsSpec.

Local Open Scope Z_scope.

(** ** Weights *)

(** The weights of [d] added up. *)
Fixpoint weightFor (d : string) (ds : list string) (weights : list Z) : Z :=
  match ds, weights with
  | d' :: ds', x :: weights' => (if bool_decide (d' = d) then x else 0) + weightFor d ds' weights'
  | _, _ => 0
  end.
Definition sumZ (l : list Z) : Z := foldr Z.add 0 l.
Lemma sumZ_cons x l : sumZ (x :: l) = x + sumZ l.
Proof. done. Qed.

Lemma sumZ_nonneg l : Forall (Z.le 0) l -> 0 <= sumZ l.
Proof. unfold sumZ. induction 1; cbn; lia. Qed.

Lemma total_from t l : Forall (Z.le 0) l -> 0 <= t -> t + sumZ l < two63 ->
  fold_left (fun t x => i64 (t + x)) l t = t + sumZ l.
Proof.
  intros Hl. revert t. induction Hl as [|x l Hx Hl IH]; intros t Ht Hb; cbn [fold_left]; rewrite ?sumZ_cons in *; [unfold sumZ; cbn; lia|].
  pose proof (sumZ_nonneg l Hl). rewrite i64_id by (unfold in_i64, two63 in *; lia). rewrite IH; lia.
Qed.
Lemma total_sum l : Forall (Z.le 0) l -> sumZ l < two63 -> total l = sumZ l.
Proof. intros. unfold total. rewrite total_from; [lia | done | lia | lia]. Qed.

(** How many values of an interval the loop maps to [d]. *)
Definition hits (d : string) (s : Z) (ds : list string) (weights : list Z) (values : list Z) : nat :=
  length (List.filter (fun i => bool_decide (choose i s ds weights = Some d)) values).

Lemma map_seq {A} (f : nat -> A) s n : map f (seq s n) = map (fun k => f (s + k)%nat) (seq 0 n).
Proof.
  revert s f. induction n as [|n IH]; intros s f; [done|]. cbn. f_equal; [by rewrite Nat.add_0_r|].
  rewrite IH, (IH 1%nat). apply map_ext. intros. f_equal. lia.
Qed.
Lemma upto_split a b c : a <= b <= c -> upto a c = upto a b ++ upto b c.
Proof.
  intros. unfold upto. replace (Z.to_nat (c - a)) with (Z.to_nat (b - a) + Z.to_nat (c - b))%nat by lia.
  rewrite seq_app, map_app. f_equal. rewrite map_seq. apply map_ext. intros. lia.
Qed.

Lemma hits_app d s ds weights l1 l2 : hits d s ds weights (l1 ++ l2) = (hits d s ds weights l1 + hits d s ds weights l2)%nat.
Proof. unfold hits. by rewrite List.filter_app, length_app. Qed.

Lemma hits_ext d s ds weights s' ds' weights' l :
  (forall i, In i l -> choose i s ds weights = choose i s' ds' weights') -> hits d s ds weights l = hits d s' ds' weights' l.
Proof.
  intros Hl. unfold hits. f_equal. apply List.filter_ext_in. intros i Hi. by rewrite (Hl i Hi).
Qed.

Lemma hits_all d s ds weights l d' :
  (forall i, In i l -> choose i s ds weights = Some d') -> hits d s ds weights l = if bool_decide (d' = d) then length l else 0%nat.
Proof.
  intros Hl. unfold hits. induction l as [|i l IH]; cbn; [by case_match|].
  rewrite (Hl i) by (by left). specialize (IH (fun j Hj => Hl j (or_intror Hj))).
  case_bool_decide; case_bool_decide; simplify_eq; cbn; rewrite ?IH; congruence.
Qed.

Lemma choose_hits d ds weights s :
  length weights = length ds -> Forall (Z.le 0) weights -> 0 <= s -> s + sumZ weights < two63 ->
  Z.of_nat (hits d s ds weights (upto s (s + sumZ weights))) = weightFor d ds weights.
Proof.
  revert weights s. induction ds as [|d' ds IH]; intros [|x weights] s Hlen Hw Hs Hb; try done.
  - change (sumZ []) with 0. unfold upto. by rewrite Z.add_0_r, Z.sub_diag.
  - apply Forall_cons in Hw as [Hx Hw]. pose proof (sumZ_nonneg weights Hw) as Hn. rewrite sumZ_cons in *.
    rewrite (upto_split s (s + x)) by lia. rewrite hits_app, Nat2Z.inj_add.
    assert (Ex : i64 (s + x) = s + x) by (apply i64_id; unfold in_i64, two63 in *; lia).
    rewrite (hits_all d s (d' :: ds) (x :: weights) (upto s (s + x)) d').
    2:{ intros i [Hi1 Hi2]%upto_In. cbn. rewrite Ex. destruct (Z.leb_spec s i); [|lia].
        destruct (Z.ltb_spec i (s + x)); [done | lia]. }
    rewrite (hits_ext d s (d' :: ds) (x :: weights) (s + x) ds weights).
    2:{ intros i [Hi1 Hi2]%upto_In. cbn. rewrite Ex. destruct (Z.ltb_spec i (s + x)); [lia|]. by rewrite andb_false_r. }
    rewrite Z.add_assoc. rewrite IH by (cbn in *; lia || done).
    cbn. pose proof (upto_length s (s + x)). case_bool_decide; lia.
Qed.

Lemma choose_total (ds : list string) weights s i :
  length weights = length ds -> Forall (Z.le 0) weights -> 0 <= s -> s + sumZ weights < two63 ->
  s <= i < s + sumZ weights -> exists d, choose i s ds weights = Some d /\ In d ds.
Proof.
  revert weights s. induction ds as [|d' ds IH]; intros [|x weights] s Hlen Hw Hs Hb Hi; try done.
  { change (sumZ []) with 0 in Hi. lia. }
  apply Forall_cons in Hw as [Hx Hw]. pose proof (sumZ_nonneg weights Hw) as Hn. rewrite sumZ_cons in *. cbn.
  rewrite i64_id by (unfold in_i64, two63 in *; lia). destruct (Z.leb_spec s i); [|lia].
  destruct (Z.ltb_spec i (s + x)); cbn; [by exists d'; auto|].
  destruct (IH weights (s + x)) as (d & E & Hin); [cbn in *; lia | done | lia.. |]. exists d. auto.
Qed.

Lemma choose_In {ds : list string} {weights s i d} : choose i s ds weights = Some d -> In d ds.
Proof.
  revert weights s. induction ds as [|d' ds IH]; intros [|x weights] s; cbn; try done.
  case_match; [intros [= ->]; by left | intros E; right; eauto].
Qed.

Lemma count_ext {A} (f g : A -> bool) l : (forall x, In x l -> f x = g x) -> length (List.filter f l) = length (List.filter g l).
Proof. intros Hl. f_equal. by apply List.filter_ext_in. Qed.

Lemma bool_decide_iff P Q `{Decision P, Decision Q} : (P <-> Q) -> bool_decide P = bool_decide Q.
Proof. intros HPQ. apply bool_decide_ext, HPQ. Qed.

#[export] Instance outcome_eq_dec {A} `{EqDecision A} : EqDecision (outcome A).
Proof. solve_decision. Defined.

Section picks.
Context {B : Type} `{Backend B}.
Implicit Types (w : World (B := B)) (g : DBGroup).

Lemma Intn_in r n : 0 <= r < n -> Intn r n = Some r.
Proof. intros. unfold Intn. destruct (Z.leb_spec n 0); [lia|]. by rewrite Z.mod_small. Qed.

(** The values of the random source that make a write go to [d], and those that
    make a read go to it, are as many as its weight of that kind: the weighted
    algorithm gives every data source its share of the total. *)
Theorem weighted_share g w ctx r' d :
  let ms := getAvailableMasters g w in
  let all := ms ++ getAvailableSlaves g w in
  let ws := weightOf writeWeight w <$> ms in
  let rs := weightOf readWeight w <$> all in
  len ms <> 1 -> len all <> 1 -> IsSlave ctx = true ->
  Forall (Z.le 0) ws -> sumZ ws < two63 -> Forall (Z.le 0) rs -> sumZ rs < two63 ->
  Z.of_nat (length (List.filter (fun r => bool_decide (randomWeightMaster r g w = Returns (Some d)))
    (upto 0 (sumZ ws)))) = weightFor d ms ws /\
  Z.of_nat (length (List.filter (fun r => bool_decide (randomWeight r r' g ctx w = Returns (Some d)))
    (upto 0 (sumZ rs)))) = weightFor d all rs.
Proof.
  intros ms all ws rs Hm Ha Hs Hw Hwb Hr Hrb. split.
  - rewrite <- (choose_hits d ms ws 0); [|by unfold ws; rewrite length_fmap | done | lia | done].
    unfold hits. f_equal. apply count_ext. intros r Hin%upto_In. apply bool_decide_iff.
    unfold randomWeightMaster. fold ms ws. destruct (Z.eqb_spec (len ms) 1); [done|].
    rewrite total_sum, Intn_in by done. split; congruence.
  - rewrite <- (choose_hits d all rs 0); [|by unfold rs; rewrite length_fmap | done | lia | done].
    unfold hits. f_equal. apply count_ext. intros r Hin%upto_In. apply bool_decide_iff.
    unfold randomWeight. rewrite Hs. fold ms all rs. destruct (Z.eqb_spec (len all) 1); [done|].
    rewrite total_sum, Intn_in by done.
    destruct (choose_total all rs 0 r) as (d' & E & _); [by unfold rs; rewrite length_fmap | done | lia | done | done |].
    rewrite E. split; congruence.
Qed.

(** ** Who is picked *)
Lemma available_In l w d : In d (List.filter (isRunning w) l) -> In d l /\ isRunning w d = true.
Proof. apply filter_In. Qed.

Lemma nth_db_In l i d : nth_db l i = Returns (Some d) -> In d l.
Proof.
  unfold nth_db. case_match; [done|]. case_match; [|done]. intros [= <-].
  apply list_elem_of_In. by eapply list_elem_of_lookup_2.
Qed.

Lemma master_picked g w d r :
  randomMaster r g w = Returns (Some d) \/ (roundRobinMaster g w).1 = Returns (Some d) \/
  randomWeightMaster r g w = Returns (Some d) -> In d (getAvailableMasters g w).
Proof.
  unfold randomMaster, roundRobinMaster, randomWeightMaster. intros [E|[E|E]]; repeat case_match; try done;
    try (by eapply nth_db_In). injection E as E. by eapply choose_In.
Qed.

(** Writes go to running masters, reads to running masters or slaves. *)
Lemma pick_running r r' g ctx w d :
  (pick r r' g ctx w).1 = Returns (Some d) ->
  isRunning w d = true /\ (In d (masters g) \/ (IsSlave ctx = true /\ In d (slaves g))).
Proof.
  intros E.
  assert (Hin : In d (getAvailableMasters g w) \/ (IsSlave ctx = true /\ In d (getAvailableSlaves g w))).
  { unfold pick, random, roundRobin, randomWeight in E. revert E.
    repeat case_match; intros E; cbn [fst snd] in E; try done;
      try (left; eapply (master_picked _ _ _ r); by eauto); try (left; eapply (master_picked _ _ _ r'); by eauto);
      try (right; split; [done|]; by eapply nth_db_In).
    injection E as ->. match goal with E : choose _ _ _ _ = Some _ |- _ => apply choose_In, in_app_iff in E as [|] end; auto. }
  destruct Hin as [[? ?]%available_In|[? [? ?]%available_In]]; auto.
Qed.

(** ** Round robin *)
Fixpoint roundRobinPicks (n : nat) g w : list (outcome (option string)) :=
  match n with
  | O => []
  | S n' => let '(d, g') := roundRobinMaster g w in d :: roundRobinPicks n' g' w
  end.

Lemma rotate_lookup {A} (l : list A) m i :
  (m < length l)%nat -> (i < length l)%nat -> (drop m l ++ take m l) !! i = l !! ((m + i) mod length l)%nat.
Proof.
  intros Hm Hi. destruct (decide (i < length l - m)%nat) as [Hlt|Hge].
  - rewrite lookup_app_l by (rewrite length_drop; lia). rewrite lookup_drop. f_equal. symmetry. apply Nat.mod_small. lia.
  - rewrite lookup_app_r by (rewrite length_drop; lia). rewrite length_drop, lookup_take_lt by lia. f_equal.
    replace (m + i)%nat with (i - (length l - m) + 1 * length l)%nat by lia.
    rewrite Nat.Div0.mod_add. symmetry. apply Nat.mod_small. lia.
Qed.

Lemma roundRobinPicks_lookup n g w (i : nat) :
  let dbs := getAvailableMasters g w in
  1 < len dbs -> 0 <= writeCounter g -> writeCounter g + Z.of_nat n < two63 -> (i < n)%nat ->
  roundRobinPicks n g w !! i =
    (fun d => Returns (Some d)) <$> dbs !! Z.to_nat ((writeCounter g + Z.of_nat i) mod len dbs).
Proof.
  intros dbs Hl. revert g i dbs Hl. induction n as [|n IH]; intros g i dbs Hl Hc Hb Hi; [lia|].
  cbn [roundRobinPicks]. unfold roundRobinMaster. fold dbs.
  destruct (Z.eqb_spec (len dbs) 1); [lia|]. destruct (Z.eqb_spec (len dbs) 0); [lia|]. cbn iota beta zeta.
  destruct i as [|i].
  - cbn. rewrite Z.add_0_r, Z.rem_mod_nonneg by lia. unfold nth_db.
    pose proof (Z.mod_pos_bound (writeCounter g) (len dbs)).
    destruct (Z.ltb_spec (writeCounter g mod len dbs) 0); [lia|].
    destruct (dbs !! Z.to_nat (writeCounter g mod len dbs)) eqn:E; [done|].
    apply lookup_ge_None in E. unfold len in *. lia.
  - change (getAvailableMasters g w) with (getAvailableMasters (set_counters (i64 (writeCounter g + 1)) (readCounter g) g) w) in dbs.
    cbn [lookup list_lookup]. rewrite IH; cbn; rewrite ?i64_id by (unfold in_i64, two63 in *; lia); try done; try lia.
    f_equal. f_equal. f_equal. f_equal. lia.
Qed.

(** Writes by round robin are fair: of as many picks in a row as there are
    running masters, each of them gets exactly one. *)
Theorem round_robin_fair g w :
  let dbs := getAvailableMasters g w in
  1 < len dbs -> 0 <= writeCounter g -> writeCounter g + len dbs < two63 ->
  Permutation (roundRobinPicks (length dbs) g w) ((fun d => Returns (Some d)) <$> dbs).
Proof.
  intros dbs Hl Hc Hb. set (m := Z.to_nat (writeCounter g mod len dbs)).
  pose proof (Z.mod_pos_bound (writeCounter g) (len dbs) ltac:(lia)) as Hm.
  assert (Hmlt : (m < length dbs)%nat) by (unfold m, len in *; lia).
  assert (E : roundRobinPicks (length dbs) g w = (fun d => Returns (Some d)) <$> (drop m dbs ++ take m dbs)).
  { apply list_eq. intros i. destruct (decide (i < length dbs)%nat) as [Hi|Hi].
    - rewrite (roundRobinPicks_lookup (length dbs)) by (unfold len in *; first [done | lia]). fold dbs.
      rewrite list_lookup_fmap, rotate_lookup by done. do 2 f_equal. unfold m, len.
      rewrite <- (Nat2Z.id ((Z.to_nat (writeCounter g mod Z.of_nat (length dbs)) + i) mod length dbs)). f_equal.
      rewrite Nat2Z.inj_mod, Nat2Z.inj_add, Z2Nat.id by (unfold len in *; lia). by rewrite Z.add_mod_idemp_l by lia.
    - rewrite !lookup_ge_None_2; [done | rewrite length_fmap, length_app, length_drop, length_take; lia |].
      clear -Hi. assert (Hlen : forall n g', length (roundRobinPicks n g' w) = n).
      { induction n as [|n IH]; intros g'; [done|]. cbn. destruct (roundRobinMaster g' w). cbn. by rewrite IH. }
      rewrite Hlen. lia. }
  rewrite E. apply fmap_Permutation. rewrite (Permutation_app_comm (drop m dbs)). by rewrite take_drop.
Qed.

(** ** Reads by round robin *)

(** The counter of reads is reduced by the number of masters: with one master
    and several running slaves every read goes to the first running slave. *)
Lemma round_robin_reads_first g w ctx m s1 s2 ss :
  IsSlave ctx = true -> masters g = [m] -> getAvailableSlaves g w = s1 :: s2 :: ss ->
  (roundRobin g ctx w).1 = Returns (Some s1).
Proof.
  intros Hs Hm Hg. unfold roundRobin. rewrite Hs, Hg, Hm.
  destruct (Z.eqb_spec (len (s1 :: s2 :: ss)) 0) as [E|]; [unfold len in E; cbn [length] in E; lia|].
  destruct (Z.eqb_spec (len (s1 :: s2 :: ss)) 1) as [E|]; [unfold len in E; cbn [length] in E; lia|].
  cbn. by rewrite Z.rem_1_r.
Qed.

(** With more masters than running slaves a read panics once the counter gets
    past the slaves. *)
Lemma round_robin_reads_panic g w ctx :
  IsSlave ctx = true -> 1 < len (getAvailableSlaves g w) < len (masters g) ->
  readCounter g = len (getAvailableSlaves g w) -> (roundRobin g ctx w).1 = Panics.
Proof.
  intros Hs Hl Hr. unfold roundRobin. rewrite Hs.
  destruct (Z.eqb_spec (len (getAvailableSlaves g w)) 0); [lia|].
  destruct (Z.eqb_spec (len (getAvailableSlaves g w)) 1); [lia|].
  destruct (Z.eqb_spec (len (masters g)) 0); [lia|]. cbn [fst]. rewrite Hr, Z.rem_small by lia.
  unfold nth_db. destruct (Z.ltb_spec (len (getAvailableSlaves g w)) 0); [lia|].
  rewrite lookup_ge_None_2; [done|]. unfold len. lia.
Qed.

(** A read by weights on a group whose only running data source is a master
    panics: the slaves are indexed. *)
Lemma weighted_read_panics r r' g w ctx m :
  IsSlave ctx = true -> getAvailableMasters g w = [m] -> getAvailableSlaves g w = [] ->
  randomWeight r r' g ctx w = Panics.
Proof. intros Hs Hm Hl. unfold randomWeight. by rewrite Hs, Hm, Hl. Qed.

(** ** Where requests go *)

(** The connections an operation sends requests on. *)
Definition talks (P : backend -> Prop) {A} (m : DM (B := B) A) : Prop := forall w,
  exists es, trace (m w).2 = trace w ++ es /\ Forall (fun e : backend * Z * request => P e.1.1) es.

Lemma talks_silent P {A} (m : DM A) : (forall w, trace (m w).2 = trace w) -> talks P m.
Proof. intros Hm w. exists []. by rewrite app_nil_r. Qed.
Lemma talks_bind P {A C} (m : DM A) (f : A -> DM C) : talks P m -> (forall a, talks P (f a)) -> talks P (m ≫= f).
Proof.
  intros Hm Hf w. destruct (Hm w) as (es & E & F). unfold mbind, DM_bind.
  destruct (m w) as [[a| |] w1]; cbn in *; [|by exists es..]. destruct (Hf a w1) as (es' & E' & F').
  exists (es ++ es'). rewrite E', E, app_assoc. split; [done | by apply Forall_app].
Qed.
Lemma talks_deferring P {A} d (m : DM A) : talks P d -> talks P m -> talks P (deferring d m).
Proof.
  intros Hd Hm w. destruct (Hm w) as (es & E & F). unfold deferring.
  destruct (m w) as [r w1]. cbn in E. destruct (Hd w1) as (es' & E' & F').
  destruct r; [destruct (d w1) as [[| |] w2] | by exists es | destruct (d w1) as [[| |] w2]]; cbn in *;
    (exists (es ++ es'); rewrite E', E, app_assoc; split; [done | by apply Forall_app]).
Qed.
Lemma talks_ret P {A} (a : A) : talks P (mret a).
Proof. by apply talks_silent. Qed.
Lemma talks_onPeer P {A} (f : B -> A * B) : talks P (onPeer f).
Proof. apply talks_silent. intros w. unfold onPeer. by case_match. Qed.
Lemma talks_getDB P d : talks P (getDB d).
Proof. apply talks_silent. intros w. unfold getDB. by case_match. Qed.
Lemma talks_addInflight P n d : talks P (addInflight n d).
Proof. apply talks_bind; [apply talks_getDB | intros; by apply talks_silent]. Qed.
Lemma talks_poolPut P d k : talks P (poolPut d k).
Proof. apply talks_bind; [apply talks_getDB | intros; case_match; by apply talks_silent]. Qed.
Lemma talks_sendRequest (P : backend -> Prop) k ctx r : P k -> talks P (sendRequest k ctx r).
Proof.
  intros Hk. apply talks_bind; [|intros; apply talks_onPeer]. intros w. eexists. split; [done|]. by repeat constructor.
Qed.
Lemma talks_preFilter P fs ctx k : talks P (doConnectionPreFilter fs ctx k).
Proof.
  induction fs; cbn [doConnectionPreFilter]; [apply talks_ret|]. apply talks_bind; [apply talks_onPeer|].
  intros [|]; [apply talks_ret | done].
Qed.
Lemma talks_postFilter P fs ctx res k : talks P (doConnectionPostFilter fs ctx res k).
Proof.
  induction fs; cbn [doConnectionPostFilter]; [apply talks_ret|]. apply talks_bind; [apply talks_onPeer|].
  intros [|]; [apply talks_ret | done].
Qed.
Lemma talks_filtered (P : backend -> Prop) d ctx k r : P k -> talks P (filtered d ctx k r).
Proof.
  intros Hk. apply talks_bind; [apply talks_getDB|]. intros db. apply talks_bind; [apply talks_preFilter|].
  intros [|]; [apply talks_ret|]. apply talks_bind; [by apply talks_sendRequest|].
  intros [[result warn]|]; [|apply talks_ret]. apply talks_bind; [apply talks_postFilter|].
  intros [|]; apply talks_ret.
Qed.

(** A request on a data source, with the connection filters around it. *)
Definition requests (d : string) (ctx : dbContext) (r : request) : DM reply :=
  inflight d (withConn d (fun conn => filtered d ctx conn r)).

(** It is sent on a connection of the data source. *)
Lemma requests_talks held w d ctx r :
  wf held w -> exists es, trace (requests d ctx r w).2 = trace w ++ es /\
    Forall (fun e : backend * Z * request => e.1.1.1 = d) es.
Proof.
  intros W. unfold requests, inflight. unfold mbind, DM_bind.
  destruct (neutral_addInflight false ∅ 0 1 d held w W) as (W1 & _); [set_solver|].
  destruct (talks_addInflight (fun k => k.1 = d) 1 d w) as (es & E & F).
  destruct (addInflight 1 d w) as [[u| |] w1]; cbn in *; [|by exists es..].
  unfold deferring. destruct (talks_addInflight (fun k => k.1 = d) (-1) d (withConn d (fun conn => filtered d ctx conn r) w1).2)
    as (es2 & E2 & F2).
  assert (HW : exists es1, trace (withConn d (fun conn => filtered d ctx conn r) w1).2 = trace w1 ++ es1 /\
    Forall (fun e : backend * Z * request => e.1.1.1 = d) es1).
  { unfold withConn, mbind, DM_bind. destruct (poolGet d w1) as [g w2] eqn:EG.
    destruct (poolGet_spec _ _ _ _ _ W1 EG) as (_ & R1 & _ & P1).
    destruct g as [[k|e]| |]; cbn; try (exists []; rewrite app_nil_r; split; [done | constructor]).
    destruct P1 as (<- & _). rewrite <- R1.
    apply (talks_deferring (fun k' => k'.1 = k.1)); [apply talks_poolPut | by apply talks_filtered]. }
  destruct HW as (es1 & E1 & F1).
  destruct (withConn d (fun conn => filtered d ctx conn r) w1) as [o w2]. cbn in *.
  destruct (addInflight (-1) d w2) as [[| |] w3]; cbn in *; destruct o; cbn;
    first [ exists (es ++ es1 ++ es2); rewrite E2, E1, E, !app_assoc; split; [done | by repeat apply Forall_app_2]
          | exists (es ++ es1); rewrite E1, E, !app_assoc; split; [done | by apply Forall_app_2] ].
Qed.
End picks.

Section writes.
Context {B : Type} `{Backend B}.
Context (restore : queryNode -> bytes + goError) (nodeOf : Stmt -> queryNode) (conf : executorConf (B := B)).
Implicit Types e : executor B (G := DBGroup).

(** Filters change nothing but what is outside of the proxy. *)
Definition outside e e' : Prop := exists b, e' = set_world (set_peer b (world e)) e.
Lemma outside_refl e : outside e e.
Proof. exists (peer (world e)). by destruct e as [[] ? ?]. Qed.
Lemma outside_trans e1 e2 e3 : outside e1 e2 -> outside e2 e3 -> outside e1 e3.
Proof. intros (b & ->) (b' & ->). by exists b'. Qed.
Lemma outside_onPeer {A} (f : B -> A * B) e : outside e (inWorld (onPeer f) e).2.
Proof. unfold inWorld, onPeer. destruct (f (peer (world e))) as [a b]. by exists b. Qed.

Lemma doPreFilter_outside fs ctx e : outside e (doPreFilter fs ctx e).2.
Proof.
  revert e. induction fs as [|f fs IH]; intros e; cbn [doPreFilter]; [apply outside_refl|]. unfold mbind, EM_bind.
  pose proof (outside_onPeer (f ctx) e) as Ho. destruct (inWorld (onPeer (f ctx)) e) as [[[a|]| |] e']; cbn in *;
    [done | eapply outside_trans; [done | apply IH] | done | done].
Qed.
Lemma doPostFilter_outside fs ctx result err e : outside e (doPostFilter fs ctx result err e).2.
Proof.
  revert e. induction fs as [|f fs IH]; intros e; cbn [doPostFilter]; [apply outside_refl|]. unfold mbind, EM_bind.
  pose proof (outside_onPeer (f ctx result err) e) as Ho.
  destruct (inWorld (onPeer (f ctx result err)) e) as [[[a|]| |] e']; cbn in *;
    [done | eapply outside_trans; [done | apply IH] | done | done].
Qed.
Lemma conclude_outside ctx rep e : outside e (conclude conf ctx rep e).2.
Proof.
  assert (HP : forall result err (k : option goError -> reply),
    outside e ((x ← doPostFilter (PostFilters conf) ctx result err; mret (k x)) e).2).
  { intros result err k. unfold mbind, EM_bind. pose proof (doPostFilter_outside (PostFilters conf) ctx result err e).
    by destruct (doPostFilter (PostFilters conf) ctx result err e) as [[| |] e']. }
  unfold conclude. destruct rep as [[result warn]|x]; [destruct (decoded result)|]; try apply HP.
  exists (peer (world e)). by destruct e as [[] ? ?].
Qed.

(** What is sent by a command with filters is what its body sends. *)
Lemma withFilters_trace ctx body e (P : backend -> Prop) :
  (forall e', outside e e' -> exists es, trace (world (body e').2) = trace (world e') ++ es /\
     Forall (fun x : backend * Z * request => P x.1.1) es) ->
  exists es, trace (world (withFilters conf ctx body e).2) = trace (world e) ++ es /\
    Forall (fun x : backend * Z * request => P x.1.1) es.
Proof.
  intros Hb. unfold withFilters. unfold mbind, EM_bind.
  pose proof (doPreFilter_outside (PreFilters conf) ctx e) as Ho.
  destruct (doPreFilter (PreFilters conf) ctx e) as [[[x|]| |] e1]; cbn [fst snd] in *;
    try (exists []; rewrite app_nil_r; destruct Ho as (b & ->); by split).
  destruct (Hb e1 Ho) as (es & E & F). exists es. split; [|done]. destruct Ho as (b & ->). cbn in E. rewrite <- E.
  destruct (body _) as [[rep| |] e2]; cbn [fst snd].
  - destruct (conclude_outside ctx rep e2) as (b' & ->). done.
  - done.
  - destruct (conclude_outside ctx (inl (None, 0)) e2) as (b' & E').
    destruct (conclude conf ctx (inl (None, 0)) e2) as [[| |] e3]; cbn [fst snd] in *; by subst e3.
Qed.

(** A request on the data source the group picks. *)
Lemma onGroup_trace held r r' ctx req e :
  wf held (world e) ->
  exists es, trace (world (onGroup (fun g => onPicked r r' g ctx (fun d => requests d ctx req)) e).2) = trace (world e) ++ es /\
    Forall (fun x : backend * Z * request => (pick r r' (group e) ctx (world e)).1 = Returns (Some x.1.1.1)) es.
Proof.
  intros W. unfold onGroup, onPicked. unfold read at 1, ended. unfold mbind at 1, DM_bind at 1.
  unfold mbind at 1, DM_bind at 1. destruct (pick r r' (group e) ctx (world e)) as [[[d|]| |] g'] eqn:EP; cbn [fst snd];
    try (exists []; rewrite app_nil_r; by split).
  destruct (requests_talks held (world e) d ctx req W) as (es & E & F). exists es.
  unfold mbind, DM_bind. split; [by destruct (requests d ctx req (world e)) as [[| |] w']|].
  eapply Forall_impl; [exact F|]. cbn. intros x <-. done.
Qed.

Lemma onGroup_master held r r' c req e b :
  wf held (world e) ->
  exists es, trace (world (onGroup (fun g => onPicked r r' g (WithMaster (clientContext c)) (fun d => requests d (WithMaster (clientContext c)) req))
      (set_world (set_peer b (world e)) e)).2) = trace (world e) ++ es /\
    Forall (fun x : backend * Z * request => In x.1.1.1 (masters (group e)) /\ isRunning (world e) x.1.1.1 = true) es.
Proof.
  intros W. destruct (onGroup_trace held r r' (WithMaster (clientContext c)) req (set_world (set_peer b (world e)) e))
    as (es & E & F); [by apply wf_set_peer|].
  exists es. split; [exact E|]. eapply Forall_impl; [exact F|]. cbn. intros x Hp.
  apply pick_running in Hp as [Hrun [Hin|[Hbad _]]]; [by split | done].
Qed.

(** The commands of client [c] that write: an INSERT, a DELETE or an UPDATE, as
    text or as a prepared statement. *)
Definition writes (c : Z) (cmd : clientCommand) : Prop :=
  match cmd with
  | CQuery c' node _ => c' = c /\ In node [InsertStmt; DeleteStmt; UpdateStmt]
  | CExecute c' stmt => c' = c /\ In (nodeOf stmt) [InsertStmt; DeleteStmt; UpdateStmt]
  | _ => False
  end.

(** C22: Writes never reach a slave.  The requests that an INSERT, a DELETE or an
    UPDATE of a client outside of a transaction makes the read-write-splitting
    executor send, be it the text of a COM_QUERY or a prepared statement of
    COM_STMT_EXECUTE, go over connections of a master of the group that is up,
    in every state the executor reaches from its start, whatever the algorithm,
    its counters and the random source are, and whatever the statement returns.
    (Requests that connection filters make themselves, on the connection they
    are given, are not recorded.) *)
Theorem writes_reach_masters w0 g e c cmd r r' order :
  freshWorld w0 -> RWS_reachable restore nodeOf conf (mkExecutor w0 ∅ g) e ->
  localTransactionMap e !! c = None -> writes c cmd ->
  exists es, trace (world (RWS_after restore nodeOf conf r r' order cmd e)) = trace (world e) ++ es /\
    Forall (fun x : backend * Z * request => In x.1.1.1 (masters (group e)) /\ isRunning (world e) x.1.1.1 = true) es.
Proof.
  intros H0 Hr Hc Hn. destruct (RWS_reachable_isolated restore nodeOf conf noLeaks _ _ (fresh_isolated w0 g H0) Hr) as (held & He).
  destruct cmd as [c' node sqlText|c' stmt| | | |]; try done; destruct Hn as [-> Hn]; cbn [RWS_after].
  - unfold RWS_ExecutorComQuery.
    apply (withFilters_trace _ _ _ (fun k => In k.1 (masters (group e)) /\ isRunning (world e) k.1 = true)).
    intros e' (b & ->). destruct (restore node) as [sql|]; [|by exists []; rewrite app_nil_r].
    assert (ES : rwsSwitch r r' order (clientContext c) node sqlText sql (set_world (set_peer b (world e)) e) =
      onGroup (fun g => Group_Query r r' g (WithMaster (clientContext c)) sql) (set_world (set_peer b (world e)) e)).
    { destruct Hn as [<-|[<-|[<-|[]]]]; unfold rwsSwitch, inTransactionOr, mbind, EM_bind; cbn; by rewrite Hc. }
    rewrite ES. exact (onGroup_master held r r' c (Execute sql) e b ltac:(apply He)).
  - unfold RWS_ExecutorComStmtExecute.
    apply (withFilters_trace _ _ _ (fun k => In k.1 (masters (group e)) /\ isRunning (world e) k.1 = true)).
    intros e' (b & ->).
    assert (ES : forall m, inTransactionOr (connectionOf (clientContext c)) (fun t => Tx_ExecuteStmt t (clientContext c) stmt) m
        (set_world (set_peer b (world e)) e) = m (set_world (set_peer b (world e)) e)).
    { intros m. unfold inTransactionOr, mbind, EM_bind. cbn. by rewrite Hc. }
    rewrite ES. pose proof (onGroup_master held r r' c (PrepareArgs (textOf stmt) (stmtArgs stmt)) e b ltac:(apply He)) as HM.
    destruct Hn as [<-|[<-|[<-|[]]]]; exact HM.
Qed.

(** A statement that is neither DML nor SELECT, a CREATE TABLE say, is sent to a
    slave when there is one that is up. *)
Theorem ddl_reaches_slaves w0 g e c sqlText r r' order :
  freshWorld w0 -> RWS_reachable restore nodeOf conf (mkExecutor w0 ∅ g) e ->
  localTransactionMap e !! c = None -> algorithm (group e) = Random -> getAvailableSlaves (group e) (world e) <> [] ->
  exists es, trace (world (RWS_after restore nodeOf conf r r' order (CQuery c OtherStmt sqlText) e)) = trace (world e) ++ es /\
    Forall (fun x : backend * Z * request => In x.1.1.1 (slaves (group e))) es.
Proof.
  intros H0 Hr Hc Ha Hs. destruct (RWS_reachable_isolated restore nodeOf conf noLeaks _ _ (fresh_isolated w0 g H0) Hr) as (held & He).
  cbn [RWS_after]. unfold RWS_ExecutorComQuery.
  apply (withFilters_trace _ _ _ (fun k => In k.1 (slaves (group e)))).
  intros e' (b & ->). destruct (restore OtherStmt) as [sql|]; [|by exists []; rewrite app_nil_r].
  assert (ES : rwsSwitch r r' order (clientContext c) OtherStmt sqlText sql (set_world (set_peer b (world e)) e) =
    onGroup (fun g => Group_Query r r' g (WithSlave (clientContext c)) sql) (set_world (set_peer b (world e)) e)).
  { unfold rwsSwitch, inTransactionOr, mbind, EM_bind. cbn. by rewrite Hc. }
  rewrite ES. destruct (onGroup_trace held r r' (WithSlave (clientContext c)) (Execute sql) (set_world (set_peer b (world e)) e))
    as (es & E & F); [apply wf_set_peer, He|].
  exists es. split; [exact E|]. eapply Forall_impl; [exact F|]. cbn. intros x Hp.
  unfold pick in Hp. rewrite Ha in Hp. cbn [Z.eqb Random fst] in Hp. unfold random in Hp.
  change (IsSlave (WithSlave (clientContext c))) with true in Hp. cbn iota in Hp.
  change (getAvailableSlaves (group e) (set_peer b (world e))) with (getAvailableSlaves (group e) (world e)) in Hp.
  destruct (getAvailableSlaves (group e) (world e)) as [|s ss] eqn:Es; [done|].
  assert (Hin : In x.1.1.1 (s :: ss)).
  { destruct (Z.eqb_spec (len (s :: ss)) 0) as [E0|]; [unfold len in E0; cbn [length] in E0; lia|].
    repeat case_match; try done; by eapply nth_db_In. }
  rewrite <- Es in Hin. by apply available_In in Hin as [? _].
Qed.
End writes.
