(* ===== verification/ExecutorsMem.v ===== *)
(** * A database that accepts everything, and runs of the executors on it

    The instance shows that the class [Backend] can be met and that the theorems
    about executors and groups apply to concrete runs. *)
From Stdlib Require Import ZArith Lia List Permutation.
From stdpp Require Import base gmap list strings.
From S2P Require Import Prelude GoText Hints Encoding Layout Conn Packets PacketSpec GoTime DateTime Rows Stmt Collations Handshake Listener Topology Database Group Executors DatabaseSpec ExecutorsSpec GroupSpec.

Local Open Scope Z_scope.

#[export] Instance accepting : Backend unit := {
  dial _ b := (None, b);
  perform _ _ _ b := (inl (Some emptyResult, 0), b);
  fieldsOf _ _ _ b := (inl [], b);
  textOf := SqlText }.

Definition sampleRestore (node : queryNode) : bytes + goError := inl (bytes_of "select 1").
Definition sampleConf : executorConf (B := unit) := mkExecutorConf [] [] "ds".
Definition samplePool (n : Z) : Pool.t := Pool.mk n n (replicate (Z.to_nat n) None) n 0 0 0 false.
Definition sampleDB (nm master : string) (rw ww : Z) : DB (B := unit) :=
  set_weights ww rw (NewDB nm master 3 (samplePool 2)).

(** One data source with two connections. *)
Definition oneDB : World (B := unit) := mkWorld {[ "ds"%string := sampleDB "ds" "" 1 1 ]} ∅ 0 0 tt [].
(** Two masters and a slave. *)
Definition threeDBs : World (B := unit) :=
  mkWorld (<[ "m1"%string := sampleDB "m1" "" 1 2 ]> (<[ "m2"%string := sampleDB "m2" "" 1 3 ]>
    {[ "s1"%string := sampleDB "s1" "m1" 5 0 ]})) ∅ 0 0 tt [].
Definition sampleGroup (alg : Z) : DBGroup := mkGroup "g" ["m1"; "m2"]%string ["s1"]%string alg 0 0.

Lemma samplePool_fresh : Pool.NewResourcePool 2 2 = Returns (samplePool 2).
Proof. reflexivity. Qed.
Lemma oneDB_fresh : freshWorld oneDB.
Proof. split_and!; [done..|]. apply map_Forall_singleton. exists 2, 2. reflexivity. Qed.
Lemma threeDBs_fresh : freshWorld threeDBs.
Proof.
  split_and!; [done..|]. repeat apply map_Forall_insert_2; [by exists 2, 2.. | apply map_Forall_empty].
Qed.

Definition idleExecutor : executor unit := mkExecutor oneDB ∅ tt.
Definition afterBegin : executor unit := SDB_after sampleRestore sampleConf (CQuery 7 BeginStmt []) idleExecutor.
Definition afterSecond : executor unit := SDB_after sampleRestore sampleConf (CQuery 7 BeginStmt []) afterBegin.
Definition afterCommit : executor unit := SDB_after sampleRestore sampleConf (CQuery 7 CommitStmt []) afterSecond.

Lemma afterBegin_reachable : SDB_reachable sampleRestore sampleConf idleExecutor afterBegin.
Proof. apply SDB_step, SDB_start. Qed.
Lemma afterBegin_client : localTransactionMap afterBegin !! 7 = Some 0%nat.
Proof. reflexivity. Qed.

Lemma transactions_isolated_witness :
  localTransactionMap afterBegin !! 7 = Some 0%nat /\
  exists k, txs (world afterBegin) !! 0%nat = Some (openTx k) /\ exclusive afterBegin 7 k.
Proof.
  split; [reflexivity|].
  apply (transactions_isolated sampleRestore sampleConf oneDB afterBegin 7 0%nat).
  - apply oneDB_fresh.
  - apply afterBegin_reachable.
  - reflexivity.
Defined.

Definition splitting0 : executor unit := mkExecutor threeDBs ∅ (sampleGroup RoundRobin).
Definition splitting1 : executor unit :=
  RWS_after sampleRestore (fun _ => OtherStmt) sampleConf 0 0 (fun l => l) (CQuery 7 BeginStmt []) splitting0.

Lemma splitting_isolated_witness :
  localTransactionMap splitting1 !! 7 = Some 0%nat /\
  exists k, txs (world splitting1) !! 0%nat = Some (openTx k) /\ exclusive splitting1 7 k.
Proof.
  split; [reflexivity|].
  apply (splitting_isolated sampleRestore (fun _ => OtherStmt) sampleConf threeDBs (sampleGroup RoundRobin) splitting1 7 0%nat).
  - apply threeDBs_fresh.
  - apply RWS_step, RWS_start.
  - reflexivity.
Defined.

Lemma close_rolls_back_witness :
  exists k e', txs (world afterBegin) !! 0%nat = Some (openTx k) /\ ConnectionClose 7 afterBegin = (Returns tt, e') /\
    trace (world e') = trace (world afterBegin) ++ [(k, 7, Execute (bytes_of "ROLLBACK"))] /\
    txs (world e') = <[0%nat := endedTx]> (txs (world afterBegin)) /\ returned k (world e') /\
    localTransactionMap e' = delete 7 (localTransactionMap afterBegin).
Proof.
  apply (close_rolls_back sampleRestore sampleConf oneDB afterBegin 7 0%nat).
  - apply oneDB_fresh.
  - apply afterBegin_reachable.
  - reflexivity.
Defined.

Lemma second_begin_leaks_witness :
  localTransactionMap afterSecond !! 7 = Some 1%nat /\
  txs (world afterCommit) !! 0%nat = Some (openTx ("ds"%string, 0%nat)) /\
  (forall c', localTransactionMap afterCommit !! c' <> Some 0%nat) /\
  (forall d db, dbs (world afterCommit) !! d = Some db -> ("ds"%string, 0%nat) ∉ idle (pool db)).
Proof.
  split; [reflexivity|].
  apply (second_begin_leaks sampleRestore sampleConf oneDB afterBegin 7 [] 0%nat ("ds"%string, 0%nat) afterSecond afterCommit).
  - apply oneDB_fresh.
  - apply afterBegin_reachable.
  - reflexivity.
  - reflexivity.
  - reflexivity.
  - vm_compute. congruence.
  - apply SDB_step, SDB_start.
Defined.

Lemma weighted_share_witness :
  Z.of_nat (length (List.filter (fun r => bool_decide (randomWeightMaster r (sampleGroup RandomWeight) threeDBs = Returns (Some "m2"%string)))
    (upto 0 5))) = 3 /\
  Z.of_nat (length (List.filter (fun r => bool_decide (randomWeight r 0 (sampleGroup RandomWeight) (WithSlave (clientContext 7)) threeDBs
    = Returns (Some "m2"%string))) (upto 0 7))) = 1.
Proof.
  apply (weighted_share (sampleGroup RandomWeight) threeDBs (WithSlave (clientContext 7)) 0 "m2").
  - vm_compute. congruence.
  - vm_compute. congruence.
  - reflexivity.
  - vm_compute. repeat constructor; congruence.
  - reflexivity.
  - vm_compute. repeat constructor; congruence.
  - reflexivity.
Defined.

Lemma round_robin_fair_witness :
  Permutation (roundRobinPicks 2 (sampleGroup RoundRobin) threeDBs) [Returns (Some "m1"%string); Returns (Some "m2"%string)].
Proof.
  apply (round_robin_fair (sampleGroup RoundRobin) threeDBs).
  - reflexivity.
  - vm_compute. congruence.
  - reflexivity.
Defined.

Definition insertCmd : clientCommand := CQuery 8 InsertStmt (bytes_of "insert").

(** A prepared INSERT of client 8. *)
Definition preparedInsert : Stmt := mkStmt 1 (bytes_of "insert into t values (?)") 1 [FieldTypeLongLong] {[ "v1"%string := GInt64 5 ]}.

Lemma writes_reach_masters_witness :
  (exists es, trace (world (RWS_after sampleRestore (fun _ => InsertStmt) sampleConf 3 0 (fun l => l) insertCmd splitting1)) =
      trace (world splitting1) ++ es /\
    Forall (fun x : backend * Z * request => In x.1.1.1 ["m1"; "m2"]%string /\ isRunning (world splitting1) x.1.1.1 = true) es) /\
  (exists es, trace (world (RWS_after sampleRestore (fun _ => InsertStmt) sampleConf 3 0 (fun l => l) (CExecute 8 preparedInsert) splitting1)) =
      trace (world splitting1) ++ es /\
    Forall (fun x : backend * Z * request => In x.1.1.1 ["m1"; "m2"]%string /\ isRunning (world splitting1) x.1.1.1 = true) es) /\
  trace (world (RWS_after sampleRestore (fun _ => InsertStmt) sampleConf 3 0 (fun l => l) (CExecute 8 preparedInsert) splitting1)) <>
    trace (world splitting1).
Proof.
  split; [|split; [|vm_compute; discriminate]].
  - apply (writes_reach_masters sampleRestore (fun _ => InsertStmt) sampleConf threeDBs (sampleGroup RoundRobin) splitting1 8 insertCmd 3 0 (fun l => l)).
    + apply threeDBs_fresh.
    + change splitting1 with (RWS_after sampleRestore (fun _ => InsertStmt) sampleConf 0 0 (fun l => l) (CQuery 7 BeginStmt []) splitting0).
      apply RWS_step, RWS_start.
    + reflexivity.
    + split; [reflexivity | by left].
  - apply (writes_reach_masters sampleRestore (fun _ => InsertStmt) sampleConf threeDBs (sampleGroup RoundRobin) splitting1 8
      (CExecute 8 preparedInsert) 3 0 (fun l => l)).
    + apply threeDBs_fresh.
    + change splitting1 with (RWS_after sampleRestore (fun _ => InsertStmt) sampleConf 0 0 (fun l => l) (CQuery 7 BeginStmt []) splitting0).
      apply RWS_step, RWS_start.
    + reflexivity.
    + split; [reflexivity | by left].
Defined.

Lemma ddl_reaches_slaves_witness :
  exists es, trace (world (RWS_after sampleRestore (fun _ => OtherStmt) sampleConf 0 0 (fun l => l) (CQuery 8 OtherStmt [])
      (mkExecutor threeDBs ∅ (sampleGroup Random)))) = [] ++ es /\
    Forall (fun x : backend * Z * request => In x.1.1.1 ["s1"]%string) es.
Proof.
  apply (ddl_reaches_slaves sampleRestore (fun _ => OtherStmt) sampleConf threeDBs (sampleGroup Random)
    (mkExecutor threeDBs ∅ (sampleGroup Random)) 8 [] 0 0 (fun l => l)).
  - apply threeDBs_fresh.
  - apply RWS_start.
  - reflexivity.
  - reflexivity.
  - vm_compute. congruence.
Defined.

Lemma ping_flips_witness :
  adversePings 3 (sampleDB "ds" "" 1 1) = Some (set_ping Unknown 0 (sampleDB "ds" "" 1 1)).
Proof.
  apply (ping_flips (sampleDB "ds" "" 1 1) 3).
  - vm_compute. split; congruence.
  - vm_compute. split; congruence.
  - vm_compute. congruence.
Defined.
