(* ===== verification/PlanText.v ===== *)
(** * The statements plans send: [generate] of the plans in [pkg/plan]

    A plan rewrites its statement for a physical table.  The parts of a
    statement the parser restores are taken as their restored texts, an error of
    restoring as [Err]. *)
From Stdlib Require Import ZArith Lia List Ascii String.
From stdpp Require Import base list strings.
From S2P Require Import Prelude GoText Hints.

Local Open Scope string_scope.

(** The text of a restored part; parts a statement may lack are [None]. *)
Definition part : Type := res string.

(** The writer of [strings.Builder] and [RestoreCtx]: texts one after the other,
    the first error ends. *)
Fixpoint texts (ps : list part) : part :=
  match ps with
  | [] => Ok ""
  | p :: ps' => s ← p; s' ← texts ps'; Ok (s +:+ s')
  end.
Definition optional (before : string) (p : option part) : part :=
  match p with Some p => texts [Ok before; p] | None => Ok "" end.
(** Items with a separator before each but the first. *)
Definition separated (sep : string) (ps : list part) : part :=
  match ps with
  | [] => Ok ""
  | p :: ps' => texts (p :: concat ((fun q => [Ok sep; q]) <$> ps'))
  end.

Section generate.
(** [Restore] of a hint. *)
Context (restoreHint : hint -> part).

Definition hintsText (hints : list hint) : part :=
  match hints with
  | [] => Ok ""
  | _ => texts [Ok "/*+ "; separated " " (restoreHint <$> hints); Ok "*/ "]
  end.

(** ** UPDATE *)
Record updateText := mkUpdateText {
  UList : list (part * part); UWhere : option part; UOrder : option part; ULimit : option part }.

Definition assignmentText (a : part * part) : part := texts [fst a; Ok "="; snd a].

(** The LIMIT of the statement is not written. *)
Definition UpdatePlan_generate (u : updateText) (hints : list hint) (table : string) : part :=
  texts [Ok "UPDATE "; hintsText hints; Ok table; Ok " SET "; separated ", " (assignmentText <$> UList u);
         optional " WHERE " (UWhere u); optional " " (UOrder u)].

(** ** DELETE *)
Record deleteText := mkDeleteText { DWhere : option part; DOrder : option part; DLimit : option part }.

(** ORDER BY is written twice, LIMIT not at all. *)
Definition DeletePlan_generate (d : deleteText) (hints : list hint) (table : string) : part :=
  texts [Ok "DELETE "; hintsText hints; Ok "FROM "; Ok table; optional " WHERE " (DWhere d);
         optional " " (DOrder d); optional " " (DOrder d)].

(** ** INSERT *)
Definition rowText (row : list part) : part := texts [Ok "("; separated "," row; Ok ")"].

(** Commas after every column but the last; [lists] is nil for an INSERT without
    VALUES. *)
Definition InsertPlan_generate (table : string) (columns : list string) (lists : option (list (list part))) : part :=
  texts [Ok "INSERT "; Ok "INTO "; Ok table; Ok "("; separated "," (Ok <$> columns); Ok ")";
         match lists with
         | Some rows => texts [Ok " VALUES "; separated "," (rowText <$> rows)]
         | None => Ok ""
         end].

(** ** SELECT *)
Record selectText := mkSelectText {
  SKind : string; SDistinct : bool; SExplicitAll : bool; SFields : option (list part);
  (** the restored FROM clause, whether it is a join, and the alias of its table *)
  SFrom : part; SJoin : bool; SAlias : string;
  SWhere : option part; SGroupBy : option part; SHaving : option part; SOrderBy : option part }.

Definition quoted (s : string) : string := "`" +:+ s +:+ "`".

(** [handleFrom]: a join ends the process. *)
Definition handleFrom (table : string) (s : selectText) : part :=
  if SJoin s then Panic
  else Ok (quoted table +:+ (if String.eqb (SAlias s) "" then "" else " AS " +:+ quoted (SAlias s))).

(** [limit] is the sum of offset and count. *)
Definition generateSelect (table : string) (s : selectText) (limit : option Z) : part :=
  texts [Ok (SKind s); Ok " ";
         Ok (if SDistinct s then "DISTINCT " else if SExplicitAll s then "ALL " else "");
         match SFields s with Some fs => separated "," fs | None => Ok "" end;
         (if String.eqb table "" then SFrom s else texts [Ok " FROM "; handleFrom table s]);
         optional " WHERE " (SWhere s); optional " " (SGroupBy s); optional " " (SHaving s); optional " " (SOrderBy s);
         match limit with Some n => Ok (" LIMIT " +:+ FormatInt n) | None => Ok "" end].

(** A plan of one database: the tables are united and, unless the statement
    orders or aggregates its rows, ordered by the primary key. *)
Definition QueryPlan_generate (tables : list string) (pk : string) (s : selectText) (limit : option Z)
    (aggregates : bool) : part :=
  match tables with
  | [] => generateSelect "" s limit
  | [t] => generateSelect t s limit
  | _ =>
    texts [Ok "SELECT * FROM (";
           separated " UNION ALL " ((fun t => texts [Ok "("; generateSelect t s limit; Ok ")"]) <$> tables);
           Ok ") t ";
           match SOrderBy s with
           | Some o => o
           | None => Ok (if aggregates then "" else "ORDER BY `" +:+ pk +:+ "` ASC")
           end]
  end.
End generate.

(** ** What the statements say *)

(** A DELETE with ORDER BY is sent with the clause twice, which no server
    parses. *)
Lemma delete_orders_twice restoreHint w o limit table :
  DeletePlan_generate restoreHint (mkDeleteText (Some (Ok w)) (Some (Ok o)) limit) [] table =
    Ok ("DELETE " +:+ ("" +:+ ("FROM " +:+ (table +:+ ((" WHERE " +:+ (w +:+ "")) +:+ ((" " +:+ (o +:+ "")) +:+
        ((" " +:+ (o +:+ "")) +:+ ""))))))).
Proof. reflexivity. Qed.

(** The LIMIT of an UPDATE or a DELETE has no effect on what is sent. *)
Lemma write_limit_ignored restoreHint u d l hints table :
  UpdatePlan_generate restoreHint u hints table =
    UpdatePlan_generate restoreHint (mkUpdateText (UList u) (UWhere u) (UOrder u) l) hints table /\
  DeletePlan_generate restoreHint d hints table =
    DeletePlan_generate restoreHint (mkDeleteText (DWhere d) (DOrder d) l) hints table.
Proof. done. Qed.

(** On one database and one table, LIMIT 10, 5 is sent as LIMIT 15, and the rows
    are returned as they come. *)
Example limit_of_one_table :
  QueryPlan_generate ["t_1"] "id" (mkSelectText "SELECT" false false (Some [Ok "*"]) (Ok "") false "" None None None None)
    (Some 15%Z) false = Ok "SELECT * FROM `t_1` LIMIT 15".
Proof. reflexivity. Qed.

(** Over two tables the limit is that of each table, not of their union. *)
Example limit_of_two_tables :
  QueryPlan_generate ["t_1"; "t_2"] "id"
    (mkSelectText "SELECT" false false (Some [Ok "*"]) (Ok "") false "" None None None None) (Some 5%Z) false =
  Ok "SELECT * FROM ((SELECT * FROM `t_1` LIMIT 5) UNION ALL (SELECT * FROM `t_2` LIMIT 5)) t ORDER BY `id` ASC".
Proof. reflexivity. Qed.
