(* ===== verification/Crypto.v ===== *)
(** * Encryption of column values: [pkg/misc/crypto.go], encoding/hex

    AES is the class [AES]: a permutation of blocks of 16 bytes per key, and its
    GCM mode.  The other modes of crypto/cipher are defined over blocks.  What a
    call cannot accept panics, as the library does. *)
From Stdlib Require Import ZArith Lia List.
From stdpp Require Import base gmap list strings.
From S2P Require Import Prelude GoText Encoding.

Local Open Scope Z_scope.

Definition BlockSize : Z := 16.

Class AES := {
  encryptBlock : bytes -> bytes -> bytes;
  decryptBlock : bytes -> bytes -> bytes;
  encryptBlock_len : forall key b, length b = 16%nat -> length (encryptBlock key b) = 16%nat;
  encryptBlock_byte : forall key b, Forall is_byte b -> Forall is_byte (encryptBlock key b);
  decrypt_encrypt : forall key b, length b = 16%nat -> Forall is_byte b -> decryptBlock key (encryptBlock key b) = b;
  (** [cipher.NewGCM]: key, nonce, text *)
  gcmSeal : bytes -> bytes -> bytes -> bytes;
  gcmOpen : bytes -> bytes -> bytes -> res bytes;
  gcmSeal_byte : forall key iv b, Forall is_byte b -> Forall is_byte (gcmSeal key iv b);
  gcm_open_seal : forall key iv b, gcmOpen key iv (gcmSeal key iv b) = Ok b;
  (** what is shorter than the tag does not open *)
  gcm_open_short : forall key iv b, (length b < 16)%nat -> exists e, gcmOpen key iv b = Err e }.

(** [aes.NewCipher] *)
Definition NewCipher (key : bytes) : res unit :=
  if (len key =? 16) || (len key =? 24) || (len key =? 32) then Ok tt
  else Err ("crypto/aes: invalid key size " +:+ FormatInt (len key))%string.

Section crypto.
Context `{AES}.

(** ** GCM: a nonce that is not of 12 bytes panics *)
Definition AesEncryptGCM (origData key iv : bytes) : res bytes :=
  _ ← NewCipher key; if len iv =? 12 then Ok (gcmSeal key iv origData) else Panic.
Definition AesDecryptGCM (encrypted key iv : bytes) : res bytes :=
  _ ← NewCipher key; if len iv =? 12 then gcmOpen key iv encrypted else Panic.

(** ** CBC *)
Definition xorBytes (a b : bytes) : bytes := zip_with Z.lxor a b.

(** Blocks of 16 bytes, the last one shorter if need be. *)
Fixpoint blocksOf (fuel : nat) (b : bytes) : list bytes :=
  match fuel, b with
  | S fuel', _ :: _ => take 16 b :: blocksOf fuel' (drop 16 b)
  | _, _ => []
  end.
Definition blocks (b : bytes) : list bytes := blocksOf (length b) b.

Fixpoint cbcEncrypt (key prev : bytes) (bs : list bytes) : list bytes :=
  match bs with
  | [] => []
  | b :: bs' => let c := encryptBlock key (xorBytes b prev) in c :: cbcEncrypt key c bs'
  end.
Fixpoint cbcDecrypt (key prev : bytes) (bs : list bytes) : list bytes :=
  match bs with
  | [] => []
  | c :: bs' => xorBytes (decryptBlock key c) prev :: cbcDecrypt key c bs'
  end.
(** [NewCBCEncrypter] or [NewCBCDecrypter], then [CryptBlocks] *)
Definition cryptBlocks (mode : bytes -> list bytes -> list bytes) (iv src : bytes) : res bytes :=
  if (len iv =? BlockSize) && (len src mod BlockSize =? 0) then Ok (concat (mode iv (blocks src))) else Panic.

Definition pkcs7Padding (text : bytes) : bytes :=
  let padding := BlockSize - len text mod BlockSize in
  text ++ replicate (Z.to_nat padding) padding.
Definition pkcs7UnPadding (text : bytes) : res bytes :=
  let length := len text in
  unPadding ← get text (length - 1);
  slice text 0 (length - unPadding).

Definition AesEncryptCBC (origData key iv : bytes) : res bytes :=
  _ ← NewCipher key; cryptBlocks (cbcEncrypt key) iv (pkcs7Padding origData).
Definition AesDecryptCBC (encrypted key iv : bytes) : res bytes :=
  _ ← NewCipher key; decrypted ← cryptBlocks (cbcDecrypt key) iv encrypted; pkcs7UnPadding decrypted.

(** ** ECB *)

(** The loops over [bs] and [be], which fill the output from its start. *)
Fixpoint ecbLoop (f : bytes -> bytes) (more : Z -> bool) (src : bytes) (fuel : nat) (bs : Z) (out : bytes) : res bytes :=
  match fuel with
  | O => Ok out
  | S fuel' =>
    if more bs then b ← slice src bs (bs + BlockSize); ecbLoop f more src fuel' (bs + BlockSize) (out ++ f b)
    else Ok out
  end.

(** The key folded to 16 bytes by exclusive or. *)
Fixpoint foldKey (genKey rest : bytes) (fuel : nat) : bytes :=
  match fuel, rest with
  | S fuel', _ :: _ =>
    let chunk := take 16 rest in
    foldKey (xorBytes chunk (take (length chunk) genKey) ++ drop (length chunk) genKey) (drop 16 rest) fuel'
  | _, _ => genKey
  end.
Definition generateKey (key : bytes) : bytes :=
  let genKey := take 16 key ++ replicate (16 - length key) 0 in
  foldKey genKey (drop 16 key) (length key).

Definition ecbPlain (origData : bytes) : bytes :=
  let length := (len origData + BlockSize) / BlockSize in
  let pad := length * BlockSize - len origData in
  origData ++ replicate (Z.to_nat pad) (u8 pad).

Definition AesEncryptECB (origData key : bytes) : res bytes :=
  let k := generateKey key in
  _ ← NewCipher k;
  let plain := ecbPlain origData in
  ecbLoop (encryptBlock k) (fun bs => bs <=? len origData) plain (S (length plain)) 0 [].

Definition AesDecryptECB (encrypted key : bytes) : res bytes :=
  let k := generateKey key in
  _ ← NewCipher k;
  decrypted ← ecbLoop (decryptBlock k) (fun bs => bs <? len encrypted) encrypted (S (length encrypted)) 0 [];
  if 0 <? len decrypted then
    pad ← get decrypted (len decrypted - 1);
    slice decrypted 0 (len decrypted - pad)
  else slice decrypted 0 0.

(** ** CFB *)
Fixpoint cfbEncrypt (key prev : bytes) (bs : list bytes) : list bytes :=
  match bs with
  | [] => []
  | b :: bs' => let c := xorBytes b (encryptBlock key prev) in c :: cfbEncrypt key c bs'
  end.
Fixpoint cfbDecrypt (key prev : bytes) (bs : list bytes) : list bytes :=
  match bs with
  | [] => []
  | c :: bs' => xorBytes c (encryptBlock key prev) :: cfbDecrypt key c bs'
  end.

(** [iv] is what the random source yields. *)
Definition AesEncryptCFB (origData key : bytes) (iv : res bytes) : res bytes :=
  _ ← NewCipher key;
  iv ← iv;
  Ok (iv ++ concat (cfbEncrypt key iv (blocks origData))).
Definition AesDecryptCFB (encrypted key : bytes) : res bytes :=
  _ ← NewCipher key;
  if len encrypted <? BlockSize then Err "ciphertext too short"
  else
    iv ← slice encrypted 0 BlockSize;
    rest ← slice encrypted BlockSize (len encrypted);
    Ok (concat (cfbDecrypt key iv (blocks rest))).
End crypto.

(** ** encoding/hex *)
Definition hexDigit (n : Z) : Z := if n <? 10 then 48 + n else 87 + n.
Definition fromHexChar (c : Z) : option Z :=
  if (48 <=? c) && (c <=? 57) then Some (c - 48)
  else if (97 <=? c) && (c <=? 102) then Some (c - 97 + 10)
  else if (65 <=? c) && (c <=? 70) then Some (c - 65 + 10)
  else None.

(** [EncodeToString] *)
Fixpoint hexEncode (b : bytes) : bytes :=
  match b with
  | [] => []
  | x :: b' => hexDigit (x / 16) :: hexDigit (x mod 16) :: hexEncode b'
  end.

(** [Decode(dst, src)]: the bytes written, also when the text is not hexadecimal
    or has an odd length, which is an error. *)
Fixpoint hexDecode (src : bytes) : bytes * bool :=
  match src with
  | [] => ([], true)
  | [_] => ([], false)
  | a :: b :: src' =>
    match fromHexChar a, fromHexChar b with
    | Some x, Some y => let '(out, ok) := hexDecode src' in (Z.lor (x * 16) y :: out, ok)
    | _, _ => ([], false)
    end
  end.

(** ** Decryption undoes encryption *)
Lemma lxor_byte a b : is_byte a -> is_byte b -> is_byte (Z.lxor a b).
Proof.
  unfold is_byte. intros Ha Hb. destruct (Z.eq_dec (Z.lxor a b) 0) as [->|Hne]; [lia|].
  assert (0 <= Z.lxor a b) by (apply Z.lxor_nonneg; lia). split; [done|].
  apply Z.log2_lt_pow2 with (b := 8); [lia|].
  assert (Hlog : forall x, 0 <= x < 256 -> Z.log2 x < 8).
  { intros x Hx. destruct (Z.eq_dec x 0) as [->|]; [done|]. apply Z.log2_lt_pow2; lia. }
  eapply Z.le_lt_trans; [apply Z.log2_lxor; lia|]. apply Z.max_lub_lt; by apply Hlog.
Qed.
Lemma xorBytes_byte a b : Forall is_byte a -> Forall is_byte b -> Forall is_byte (xorBytes a b).
Proof.
  intros Ha. revert b. induction Ha as [|x a Hx Ha IH]; intros [|y b] Hb; try (by constructor).
  inversion Hb; subst. constructor; [by apply lxor_byte | by apply IH].
Qed.
Lemma xorBytes_cancel a b : (length a <= length b)%nat -> xorBytes (xorBytes a b) b = a.
Proof.
  revert b. induction a as [|x a IH]; intros [|y b] Hl; cbn in *; try done; [lia|].
  f_equal; [|apply IH; lia]. by rewrite Z.lxor_assoc, Z.lxor_nilpotent, Z.lxor_0_r.
Qed.
Lemma xorBytes_len a b : (length a <= length b)%nat -> length (xorBytes a b) = length a.
Proof. intros Hl. unfold xorBytes. rewrite length_zip_with. lia. Qed.

Lemma blocksOf_spec fuel b : (length b <= fuel)%nat ->
  concat (blocksOf fuel b) = b /\ Forall (fun x : bytes => (length x <= 16)%nat) (blocksOf fuel b) /\
  (Forall is_byte b -> Forall (Forall is_byte) (blocksOf fuel b)).
Proof.
  revert b. induction fuel as [|fuel IH]; intros b Hl.
  { destruct b; [|cbn in Hl; lia]. by repeat constructor. }
  destruct b as [|x b]; [by repeat constructor|]. cbn [blocksOf].
  destruct (IH (drop 16 (x :: b))) as (E & F & Fb); [rewrite length_drop; cbn in *; lia|]. split_and!.
  - cbn [concat]. by rewrite E, take_drop.
  - constructor; [rewrite length_take; lia | done].
  - intros Hb. constructor; [by apply Forall_take | by apply Fb, Forall_drop].
Qed.

(** Texts made of full blocks. *)
Definition full (bs : list bytes) : Prop := Forall (fun b : bytes => length b = 16%nat) bs.
Lemma blocksOf_concat fuel bs tail :
  full bs -> (length tail < 16)%nat -> (length (concat bs ++ tail) <= fuel)%nat ->
  blocksOf fuel (concat bs ++ tail) = bs ++ (if decide (tail = []) then [] else [tail]).
Proof.
  intros Hf Ht. revert fuel. induction Hf as [|b bs Hb Hf IH]; intros fuel Hl; cbn [concat app] in *.
  - destruct fuel as [|fuel]; [destruct tail; [done | cbn in Hl; lia]|]. destruct tail as [|x tail]; [done|].
    cbn [blocksOf]. rewrite take_ge, drop_ge by lia. by destruct fuel.
  - rewrite <- app_assoc in *. destruct fuel as [|fuel]; [rewrite length_app in Hl; lia|].
    destruct b as [|x b]; [done|]. cbn [blocksOf app]. change (x :: b ++ concat bs ++ tail) with ((x :: b) ++ concat bs ++ tail).
    rewrite take_app_length', drop_app_length' by done. f_equal. apply IH. rewrite length_app in Hl. cbn in *. lia.
Qed.
Lemma full_blocks b : len b mod 16 = 0 -> full (blocks b).
Proof.
  intros Hm. unfold blocks. remember (length b) as n eqn:En. assert (Hl : (length b <= n)%nat) by lia. clear En.
  revert b Hm Hl. induction n as [|n IH]; intros b Hm Hl; [constructor|]. destruct b as [|x b]; [constructor|].
  cbn [blocksOf]. set (y := x :: b) in *. assert (Hy : (0 < length y)%nat) by (unfold y; cbn; lia). clearbody y.
  unfold len in *. assert (16 <= length y)%nat.
  { destruct (decide (16 <= length y)%nat); [done|]. rewrite Z.mod_small in Hm by lia. lia. }
  constructor; [rewrite length_take; lia|]. apply IH; [|rewrite length_drop; lia].
  rewrite length_drop, Nat2Z.inj_sub by lia. rewrite Zminus_mod, Hm. done.
Qed.
Lemma full_len bs : full bs -> length (concat bs) = (16 * length bs)%nat.
Proof. induction 1 as [|b bs Hb Hf IH]; cbn; [done|]. rewrite length_app, Hb, IH. lia. Qed.
Lemma blocks_full bs : full bs -> blocks (concat bs) = bs.
Proof.
  intros Hf. unfold blocks. pose proof (blocksOf_concat (length (concat bs)) bs [] Hf) as E.
  rewrite !app_nil_r in E. cbn in E. apply E; lia.
Qed.

Section roundtrips.
Context `{AES}.

Lemma cbc_blocks key iv bs :
  length iv = 16%nat -> Forall is_byte iv -> full bs -> Forall (Forall is_byte) bs ->
  full (cbcEncrypt key iv bs) /\ cbcDecrypt key iv (cbcEncrypt key iv bs) = bs.
Proof.
  intros Hl Hv Hf. revert iv Hl Hv. induction Hf as [|b bs Hb Hf IH]; intros iv Hl Hv HB; [by split; [constructor|]|].
  inversion HB as [|? ? Hbb HBs]; subst. cbn [cbcEncrypt cbcDecrypt].
  assert (Hx : length (xorBytes b iv) = 16%nat) by (rewrite xorBytes_len; lia).
  assert (Hxb : Forall is_byte (xorBytes b iv)) by (by apply xorBytes_byte).
  destruct (IH (encryptBlock key (xorBytes b iv))) as (E1 & E2); [by apply encryptBlock_len | by apply encryptBlock_byte | done |].
  split; [constructor; [by apply encryptBlock_len | done]|].
  by rewrite decrypt_encrypt, xorBytes_cancel, E2 by (done || lia).
Qed.

Lemma padding_range (text : bytes) : 1 <= BlockSize - len text mod BlockSize <= 16.
Proof. unfold BlockSize. pose proof (Z.mod_pos_bound (len text) 16). lia. Qed.
Lemma pkcs7Padding_len text : len (pkcs7Padding text) = len text + (BlockSize - len text mod BlockSize).
Proof.
  pose proof (padding_range text). unfold pkcs7Padding. unfold len in *. rewrite length_app, length_replicate. lia.
Qed.
Lemma pkcs7_full text : len (pkcs7Padding text) mod BlockSize = 0.
Proof.
  rewrite pkcs7Padding_len. unfold BlockSize.
  replace (len text + (16 - len text mod 16)) with (16 * (len text / 16) + 1 * 16)
    by (pose proof (Z.div_mod (len text) 16); lia).
  rewrite Z_mod_plus_full, Z.mul_comm. apply Z_mod_mult.
Qed.
(** The last byte of a padded text is the length of the padding. *)
Lemma unpad text p : 1 <= p -> let padded := text ++ replicate (Z.to_nat p) p in
  get padded (len padded - 1) = Ok p /\ slice padded 0 (len padded - p) = Ok text.
Proof.
  intros Hp padded.
  assert (El : len padded = len text + p) by (unfold padded, len; rewrite length_app, length_replicate; lia).
  pose proof (len_nonneg text). split.
  - unfold get. rewrite El. destruct (Z.leb_spec 0 (len text + p - 1)); [|lia]. unfold padded.
    rewrite lookup_app_r by (unfold len in *; lia). rewrite lookup_replicate_2; [done|]. unfold len in *; lia.
  - unfold slice. rewrite El. destruct (Z.leb_spec 0 (len text + p - p)); [|lia].
    destruct (Z.leb_spec (len text + p - p) (len text + p)); [|lia]. cbn [andb Z.leb Z.to_nat].
    replace (Z.to_nat (len text + p - p - 0)) with (length text) by (unfold len; lia). unfold padded.
    change (Z.to_nat 0) with 0%nat. by rewrite drop_0, take_app_length.
Qed.

(** CBC: with a key of a proper size and a block as initial vector, decrypting
    returns the text. *)
Theorem cbc_roundtrip text key iv :
  NewCipher key = Ok tt -> len iv = BlockSize -> Forall is_byte iv -> Forall is_byte text ->
  exists encrypted, AesEncryptCBC text key iv = Ok encrypted /\ AesDecryptCBC encrypted key iv = Ok text.
Proof.
  intros Hk Hiv Hvb Htb. unfold AesEncryptCBC, AesDecryptCBC. rewrite Hk. cbn [mbind res_bind].
  assert (Hl : length iv = 16%nat) by (unfold len, BlockSize in Hiv; lia).
  set (plain := pkcs7Padding text).
  assert (Hpb : Forall is_byte plain).
  { apply Forall_app; split; [done|]. apply Forall_replicate. pose proof (padding_range text). unfold is_byte. lia. }
  pose proof (full_blocks plain (pkcs7_full text)) as Hf.
  destruct (blocksOf_spec (length plain) plain) as (E & _ & Hbb); [lia|]. specialize (Hbb Hpb). fold (blocks plain) in E, Hbb.
  destruct (cbc_blocks key iv (blocks plain) Hl Hvb Hf Hbb) as (Hce & Hcd).
  assert (Hpm : len plain mod BlockSize = 0) by apply pkcs7_full.
  unfold cryptBlocks. rewrite Hiv, Hpm. cbn [andb Z.eqb BlockSize Pos.eqb]. eexists. split; [reflexivity|].
  assert (Hm : len (concat (cbcEncrypt key iv (blocks plain))) mod 16 = 0).
  { unfold len. rewrite full_len by done. rewrite Nat2Z.inj_mul, Z.mul_comm. apply Z_mod_mult. }
  unfold BlockSize. rewrite Hm. cbn [mbind res_bind andb Z.eqb]. rewrite blocks_full, Hcd, E by done.
  unfold pkcs7UnPadding. pose proof (padding_range text).
  destruct (unpad text (BlockSize - len text mod BlockSize)) as (E1 & E2); [lia|].
  unfold plain, pkcs7Padding. cbv zeta in E1, E2 |- *. rewrite E1. cbn [mbind res_bind]. exact E2.
Qed.

(** *** ECB *)
Lemma ecbLoop_blocks f more bs pre out fuel :
  full bs -> (length bs < fuel)%nat -> (forall i, (i < length bs)%nat -> more (len (A := Z) pre + 16 * Z.of_nat i) = true) ->
  more (len pre + 16 * Z.of_nat (length bs)) = false ->
  ecbLoop f more (pre ++ concat bs) fuel (len pre) out = Ok (out ++ concat (f <$> bs)).
Proof.
  intros Hf. revert pre out fuel. induction Hf as [|b bs Hb Hf IH]; intros pre out fuel Hfuel Hm Hend;
    (destruct fuel as [|fuel]; [lia|]); cbn [ecbLoop].
  - cbn in Hend. rewrite Z.add_0_r in Hend. rewrite Hend. cbn. by rewrite app_nil_r.
  - pose proof (Hm 0%nat ltac:(cbn; lia)) as H0. change (16 * Z.of_nat 0) with 0 in H0. rewrite Z.add_0_r in H0. rewrite H0.
    assert (Hs : slice (pre ++ concat (b :: bs)) (len pre) (len pre + BlockSize) = Ok b).
    { unfold slice, BlockSize. cbn [concat]. pose proof (len_nonneg pre).
      assert (El : len (pre ++ b ++ concat bs) = len pre + 16 + len (concat bs)) by (unfold len; rewrite !length_app, Hb; lia).
      pose proof (len_nonneg (concat bs)).
      destruct (Z.leb_spec 0 (len pre)); [|lia]. destruct (Z.leb_spec (len pre) (len pre + 16)); [|lia].
      destruct (Z.leb_spec (len pre + 16) (len (pre ++ b ++ concat bs))); [|lia]. cbn [andb].
      replace (Z.to_nat (len pre + 16 - len pre)) with 16%nat by lia. replace (Z.to_nat (len pre)) with (length pre) by (unfold len; lia).
      by rewrite drop_app_length, take_app_length'. }
    rewrite Hs. cbn [mbind res_bind].
    replace (len pre + BlockSize) with (len (pre ++ b)) by (unfold len, BlockSize; rewrite length_app, Hb; lia).
    cbn [concat]. rewrite app_assoc, IH.
    + cbn. by rewrite <- app_assoc.
    + cbn in Hfuel. lia.
    + intros i Hi. pose proof (Hm (S i) ltac:(cbn; lia)) as H1. unfold len in *. rewrite length_app, Hb.
      rewrite <- H1. f_equal. lia.
    + rewrite <- Hend. f_equal. unfold len. rewrite length_app, Hb. cbn [length]. lia.
Qed.
Lemma ecbLoop_all f more bs :
  full bs -> (forall i, (i < length bs)%nat -> more (16 * Z.of_nat i) = true) -> more (16 * Z.of_nat (length bs)) = false ->
  ecbLoop f more (concat bs) (S (length (concat bs))) 0 [] = Ok (concat (f <$> bs)).
Proof.
  intros Hf Hm Hend. pose proof (ecbLoop_blocks f more bs [] [] (S (length (concat bs))) Hf) as E. apply E.
  - rewrite full_len by done. lia.
  - exact Hm.
  - exact Hend.
Qed.

Lemma foldKey_len fuel genKey rest : length genKey = 16%nat -> length (foldKey genKey rest fuel) = 16%nat.
Proof.
  revert genKey rest. induction fuel as [|fuel IH]; intros genKey rest Hl; [done|]. destruct rest as [|x rest]; [done|].
  cbn [foldKey]. apply IH. set (chunk := take 16 (x :: rest)).
  assert (length chunk <= 16)%nat by (unfold chunk; rewrite length_take; lia).
  rewrite length_app, xorBytes_len, length_drop by (rewrite length_take; lia). lia.
Qed.
(** A key of any length becomes one of 16 bytes. *)
Lemma generateKey_ok key : NewCipher (generateKey key) = Ok tt.
Proof.
  unfold NewCipher. replace (len (generateKey key)) with 16; [done|]. unfold len, generateKey.
  rewrite foldKey_len; [done|]. rewrite length_app, length_take, length_replicate. lia.
Qed.

(** ECB: whatever the key, decrypting returns the text. *)
Theorem ecb_roundtrip text key :
  Forall is_byte text ->
  exists encrypted, AesEncryptECB text key = Ok encrypted /\ AesDecryptECB encrypted key = Ok text.
Proof.
  intros Htb. unfold AesEncryptECB, AesDecryptECB. rewrite generateKey_ok. cbn [mbind res_bind].
  set (k := generateKey key). set (plain := ecbPlain text).
  pose proof (len_nonneg text) as Hnn.
  set (q := (len text + 16) / 16).
  assert (Hq : 16 * q = len text + 16 - len text mod 16).
  { unfold q. replace (len text + 16) with (len text + 1 * 16) by lia. rewrite Z_div_plus by lia.
    pose proof (Z.div_mod (len text) 16). lia. }
  pose proof (Z.mod_pos_bound (len text) 16 ltac:(lia)) as Hmod.
  assert (Hpad : u8 (q * 16 - len text) = q * 16 - len text) by (unfold u8, two8; apply Z.mod_small; lia).
  assert (Hpl : plain = text ++ replicate (Z.to_nat (q * 16 - len text)) (q * 16 - len text)).
  { unfold plain, ecbPlain, BlockSize. fold q. by rewrite Hpad. }
  assert (Hlen : len plain = 16 * q).
  { rewrite Hpl. unfold len in *. rewrite length_app, length_replicate. lia. }
  assert (Hpb : Forall is_byte plain).
  { rewrite Hpl. apply Forall_app; split; [done|]. apply Forall_replicate. unfold is_byte. lia. }
  assert (Hf : full (blocks plain)) by (apply full_blocks; rewrite Hlen, Z.mul_comm; apply Z_mod_mult).
  destruct (blocksOf_spec (length plain) plain) as (E & _ & Hbb); [lia|]. specialize (Hbb Hpb). fold (blocks plain) in E, Hbb.
  assert (Hn : Z.of_nat (length (blocks plain)) = q).
  { pose proof (full_len _ Hf) as El. rewrite E in El. unfold len in Hlen. lia. }
  pose proof (ecbLoop_all (encryptBlock k) (fun bs => bs <=? len text) (blocks plain) Hf) as HE. rewrite E in HE.
  eexists. split.
  - apply HE; cbv beta.
    + intros i Hi. apply Z.leb_le. lia.
    + apply Z.leb_gt. lia.
  - set (enc := encryptBlock k <$> blocks plain).
    assert (Hfe : full enc) by (apply Forall_fmap; eapply Forall_impl; [exact Hf|]; intros b; apply encryptBlock_len).
    assert (Hne : length enc = length (blocks plain)) by apply length_fmap.
    assert (Hlenc : len (concat enc) = 16 * q) by (unfold len; rewrite full_len by done; lia).
    rewrite ecbLoop_all; [|done| |]; [|intros i Hi; apply Z.ltb_lt; lia | apply Z.ltb_ge; lia].
    cbn [mbind res_bind].
    assert (Hd : decryptBlock k <$> enc = blocks plain).
    { unfold enc. rewrite <- list_fmap_compose. rewrite <- (list_fmap_id (blocks plain)) at 2. apply list_fmap_ext.
      intros i b Hb. cbn. apply decrypt_encrypt; [by eapply Forall_lookup_1 in Hb; [|exact Hf] | by eapply Forall_lookup_1 in Hb; [|exact Hbb]]. }
    rewrite Hd, E. rewrite Hlen. destruct (Z.ltb_spec 0 (16 * q)); [|lia].
    destruct (unpad text (q * 16 - len text)) as (E1 & E2); [lia|]. rewrite <- Hpl in E1, E2. cbv zeta in E1, E2.
    rewrite Hlen in E1, E2. rewrite E1. cbn [mbind res_bind]. exact E2.
Qed.

(** *** CFB *)
Lemma cfb_blocks key iv bs tail :
  length iv = 16%nat -> full bs -> (length tail < 16)%nat ->
  let tl := if decide (tail = []) then [] else [tail] in
  exists bs' tail', cfbEncrypt key iv (bs ++ tl) = bs' ++ (if decide (tail' = []) then [] else [tail']) /\ full bs' /\
    length tail' = length tail /\ cfbDecrypt key iv (bs' ++ (if decide (tail' = []) then [] else [tail'])) = bs ++ tl.
Proof.
  intros Hl Hf Ht tl. revert iv Hl. induction Hf as [|b bs Hb Hf IH]; intros iv Hl.
  - exists [], (xorBytes tail (encryptBlock key iv)). pose proof (encryptBlock_len key iv Hl) as He.
    assert (Hx : length (xorBytes tail (encryptBlock key iv)) = length tail) by (apply xorBytes_len; lia).
    unfold tl. destruct (decide (tail = [])) as [->|Hne].
    + cbn. by repeat constructor.
    + rewrite decide_False by (intros E; rewrite E in Hx; cbn in Hx; destruct tail; done). cbn.
      split_and!; [done | constructor | done |]. by rewrite xorBytes_cancel by lia.
  - pose proof (encryptBlock_len key iv Hl) as He.
    assert (Hx : length (xorBytes b (encryptBlock key iv)) = 16%nat) by (rewrite xorBytes_len; lia).
    destruct (IH (xorBytes b (encryptBlock key iv)) Hx) as (bs' & tail' & E1 & F & Et & E2).
    exists (xorBytes b (encryptBlock key iv) :: bs'), tail'. cbn [app cfbEncrypt cfbDecrypt]. rewrite E1, E2.
    split_and!; [done | by constructor | done |]. by rewrite xorBytes_cancel by lia.
Qed.

Lemma split_blocks (b : bytes) : exists bs tail, b = concat bs ++ tail /\ full bs /\ (length tail < 16)%nat.
Proof.
  remember (length b) as n eqn:En. assert (Hl : (length b <= n)%nat) by lia. clear En. revert b Hl.
  induction n as [|n IH]; intros b Hl.
  { exists [], b. split_and!; [done | constructor | lia]. }
  destruct (decide (length b < 16)%nat); [by exists [], b; split_and!; [|constructor|]|].
  destruct (IH (drop 16 b)) as (bs & tail & E & F & Ht); [rewrite length_drop; lia|].
  exists (take 16 b :: bs), tail. cbn [concat]. rewrite <- app_assoc, <- E, take_drop.
  split_and!; [done | constructor; [rewrite length_take; lia | done] | done].
Qed.
Lemma blocks_tail bs tail : full bs -> (length tail < 16)%nat ->
  blocks (concat bs ++ tail) = bs ++ (if decide (tail = []) then [] else [tail]).
Proof. intros Hf Ht. unfold blocks. by apply blocksOf_concat. Qed.
Lemma concat_tail bs (tail : bytes) : concat (bs ++ (if decide (tail = []) then [] else [tail])) = concat bs ++ tail.
Proof. rewrite concat_app. f_equal. destruct (decide (tail = [])) as [->|]; [done | apply app_nil_r]. Qed.

(** CFB: whatever initial vector was drawn, decrypting returns the text. *)
Theorem cfb_roundtrip text key iv :
  NewCipher key = Ok tt -> len iv = BlockSize ->
  exists encrypted, AesEncryptCFB text key (Ok iv) = Ok encrypted /\ AesDecryptCFB encrypted key = Ok text.
Proof.
  intros Hk Hiv. unfold AesEncryptCFB, AesDecryptCFB. rewrite Hk. cbn [mbind res_bind].
  assert (Hl : length iv = 16%nat) by (unfold len, BlockSize in Hiv; lia).
  destruct (split_blocks text) as (bs & tail & -> & Hf & Ht). rewrite blocks_tail by done.
  destruct (cfb_blocks key iv bs tail Hl Hf Ht) as (bs' & tail' & E1 & F & Et & E2). cbv zeta in E1, E2. rewrite E1, concat_tail.
  eexists. split; [reflexivity|].
  assert (El : len (iv ++ concat bs' ++ tail') = 16 + len (concat bs' ++ tail')).
  { unfold len. rewrite (length_app iv), Hl. lia. }
  pose proof (len_nonneg (concat bs' ++ tail')). unfold BlockSize.
  destruct (Z.ltb_spec (len (iv ++ concat bs' ++ tail')) 16); [lia|].
  assert (S1 : slice (iv ++ concat bs' ++ tail') 0 16 = Ok iv).
  { unfold slice. destruct (Z.leb_spec 16 (len (iv ++ concat bs' ++ tail'))); [|lia]. cbn [Z.leb andb].
    change (Z.to_nat (16 - 0)) with 16%nat. change (Z.to_nat 0) with 0%nat. rewrite drop_0, take_app_length' by done. done. }
  assert (S2 : slice (iv ++ concat bs' ++ tail') 16 (len (iv ++ concat bs' ++ tail')) = Ok (concat bs' ++ tail')).
  { unfold slice. rewrite Z.leb_refl. destruct (Z.leb_spec 16 (len (iv ++ concat bs' ++ tail'))); [|lia]. cbn [Z.leb andb].
    change (Z.to_nat 16) with 16%nat. rewrite drop_app_length' by done. rewrite take_ge; [done|]. rewrite El. unfold len. lia. }
  rewrite S1. cbn [mbind res_bind]. rewrite S2. cbn [mbind res_bind].
  rewrite blocks_tail by (done || lia). by rewrite E2, concat_tail.
Qed.
End roundtrips.

(** *** Hexadecimal *)
Lemma fromHexChar_digit n : 0 <= n < 16 -> fromHexChar (hexDigit n) = Some n.
Proof. intros Hn. unfold fromHexChar, hexDigit. zcases; f_equal; lia. Qed.
Lemma nibbles x : is_byte x -> Z.lor (x / 16 * 16) (x mod 16) = x.
Proof.
  intros Hx. change 16 with (2 ^ 4). rewrite <- Z.shiftl_mul_pow2, <- Z.shiftr_div_pow2, <- Z.land_ones by lia.
  apply Z.bits_inj'. intros i Hi. rewrite Z.lor_spec.
  rewrite Z.shiftl_spec by done. destruct (Z.ltb_spec i 4).
  - rewrite Z.testbit_neg_r by lia. rewrite Z.land_spec, Z.ones_spec_low by lia. by rewrite andb_true_r.
  - rewrite Z.shiftr_spec by lia. rewrite Z.land_spec, Z.ones_spec_high by lia. rewrite andb_false_r, orb_false_r.
    f_equal. lia.
Qed.
Lemma hex_roundtrip b : Forall is_byte b -> hexDecode (hexEncode b) = (b, true).
Proof.
  induction 1 as [|x b Hx Hb IH]; [done|]. cbn [hexEncode hexDecode]. unfold is_byte in Hx.
  assert (0 <= x / 16 < 16) by (split; [apply Z.div_pos | apply Z.div_lt_upper_bound]; lia).
  pose proof (Z.mod_pos_bound x 16 ltac:(lia)). rewrite !fromHexChar_digit by lia.
  rewrite IH. by rewrite nibbles.
Qed.

(** ** What is not a ciphertext *)

(** Removing a padding that is longer than the text panics. *)
Lemma unpadding_panics text p : len text + 1 < p -> pkcs7UnPadding (text ++ [p]) = Panic.
Proof.
  intros Hp. unfold pkcs7UnPadding. pose proof (len_nonneg text).
  assert (El : len (text ++ [p]) = len text + 1) by (unfold len; rewrite length_app; cbn; lia).
  assert (E1 : get (text ++ [p]) (len (text ++ [p]) - 1) = Ok p).
  { unfold get. rewrite El. destruct (Z.leb_spec 0 (len text + 1 - 1)); [|lia].
    replace (Z.to_nat (len text + 1 - 1)) with (length text + 0)%nat by (unfold len; lia). by rewrite lookup_app_r, Nat.add_sub_swap, Nat.sub_diag by lia. }
  rewrite E1. cbn [mbind res_bind]. unfold slice. rewrite El. destruct (Z.leb_spec 0 (len text + 1 - p)); [lia|]. done.
Qed.

(** ** An instance *)

(** Blocks reversed; a seal of 16 zero bytes. *)
Definition sealBytes (key iv b : bytes) : bytes := rev b ++ replicate 16 0.
Definition openBytes (key iv b : bytes) : res bytes :=
  if bool_decide (16 <= length b)%nat && bool_decide (drop (length b - 16) b = replicate 16 0)
  then Ok (rev (take (length b - 16) b)) else Err "cipher: message authentication failed".
Lemma openBytes_seal key iv b : openBytes key iv (sealBytes key iv b) = Ok b.
Proof.
  unfold openBytes, sealBytes. rewrite length_app, length_replicate, length_rev.
  replace (length b + 16 - 16)%nat with (length b) by lia. rewrite bool_decide_true by lia.
  rewrite drop_app_length', take_app_length' by (by rewrite length_rev). rewrite bool_decide_true by done. cbn.
  by rewrite rev_involutive.
Qed.
Lemma openBytes_short key iv b : (length b < 16)%nat -> exists e, openBytes key iv b = Err e.
Proof. intros Hl. unfold openBytes. rewrite bool_decide_false by lia. by eexists. Qed.
#[export] Instance reversing : AES | 100 := {
  encryptBlock _ b := rev b; decryptBlock _ b := rev b;
  encryptBlock_len _ b Hb := eq_trans (length_rev b) Hb;
  encryptBlock_byte _ b Hb := Forall_rev Hb;
  decrypt_encrypt _ b _ _ := rev_involutive b;
  gcmSeal := sealBytes; gcmOpen := openBytes;
  gcmSeal_byte key iv b Hb := proj2 (Forall_app _ _ _) (conj (Forall_rev Hb) (Forall_replicate _ 16 0 (conj (Z.le_refl 0) eq_refl)));
  gcm_open_seal := openBytes_seal; gcm_open_short := openBytes_short }.

Definition sampleKey : bytes := replicate 16 7.
Lemma cbc_roundtrip_witness :
  exists encrypted, AesEncryptCBC [1; 2; 3] sampleKey (replicate 16 9) = Ok encrypted /\
    AesDecryptCBC encrypted sampleKey (replicate 16 9) = Ok [1; 2; 3].
Proof.
  apply (cbc_roundtrip [1; 2; 3] sampleKey (replicate 16 9)); [reflexivity | reflexivity | |];
    repeat constructor; unfold is_byte; lia.
Defined.
Lemma ecb_roundtrip_witness :
  exists encrypted, AesEncryptECB [1; 2; 3] [5] = Ok encrypted /\ AesDecryptECB encrypted [5] = Ok [1; 2; 3].
Proof. apply (ecb_roundtrip [1; 2; 3] [5]). repeat constructor; unfold is_byte; lia. Defined.
Lemma cfb_roundtrip_witness :
  exists encrypted, AesEncryptCFB [1; 2; 3] sampleKey (Ok (replicate 16 9)) = Ok encrypted /\
    AesDecryptCFB encrypted sampleKey = Ok [1; 2; 3].
Proof. apply (cfb_roundtrip [1; 2; 3] sampleKey (replicate 16 9)); reflexivity. Defined.
