(* ===== verification/CryptoFilter.v ===== *)
(** * The filter that encrypts columns: [pkg/filter/crypto/filter.go]

    Before a statement the configured columns of an INSERT or UPDATE are
    encrypted in place, in the statement or in the arguments of a prepared one;
    after a SELECT the columns of the result are decrypted in place. *)
From Stdlib Require Import ZArith Lia List.
From stdpp Require Import base gmap list strings.
From S2P Require Import Prelude GoText Encoding Layout Conn Packets PacketSpec GoTime DateTime Rows Stmt Collations Handshake Listener PlanText Crypto.

Local Open Scope Z_scope.

Definition aesIV : bytes := bytes_of "greatdbpack!".

Record ColumnCrypto := mkColumnCrypto { cryptoTable : string; cryptoColumns : list string; AesKey : string }.

(** The value of a literal by its kind: strings, bytes and binary literals keep
    their bytes in the field [b] of the [Datum]; numbers (with their text here),
    decimals and NULL have none. *)
Inductive datum := KindNull | KindNumber (text : bytes) | KindString (b : bytes) | KindBytes (b : bytes) | KindBinaryLiteral (b : bytes).

Definition GetBytes (d : datum) : bytes :=
  match d with
  | KindString b | KindBytes b | KindBinaryLiteral b => b
  | KindNull | KindNumber _ => []
  end.

(** An expression of a statement: a value or anything else. *)
Inductive exprNode := ValueExpr (d : datum) | OtherExpr.

(** [c = e] in an UPDATE: the name of the column, its qualified name in lower case
    ([ColumnName.String]) and the expression. *)
Record assignment := mkAssignment { assignName : string; assignString : string; assignExpr : exprNode }.

(** [table] is the restored name; the columns of an INSERT and the FROM clause of a
    SELECT may be missing. *)
Inductive cryptoStmt :=
| CInsert (table : part) (columns : option (list string)) (lists : list (list exprNode))
| CUpdate (table : part) (assignments : list assignment)
| CSelect (from : option part)
| COtherStmt.

Record columnIndex := mkColumnIndex { indexColumn : string; Index : nat }.

Section filter.
Context `{AES} (configs : list ColumnCrypto).

Definition checkTable (table : part) : res (option ColumnCrypto) :=
  tableName ← table;
  Ok (List.find (fun config => EqualFold (cryptoTable config) tableName) configs).

Definition contains (s : list string) (str : string) : bool := existsb (fun v => EqualFold v str) s.

(** The columns to encrypt with their positions. *)
Fixpoint indexesFrom (i : nat) (config : ColumnCrypto) (columns : list string) : list columnIndex :=
  match columns with
  | [] => []
  | column :: columns' =>
    if contains (cryptoColumns config) column then mkColumnIndex column i :: indexesFrom (S i) config columns'
    else indexesFrom (S i) config columns'
  end.
Definition retrieveNeedEncryptionInsertColumns (columns : option (list string)) (config : ColumnCrypto) : res (list columnIndex) :=
  match columns with
  | None => Err "The column to be inserted must be specified"
  | Some columns => Ok (indexesFrom 0 config columns)
  end.
Definition retrieveNeedEncryptionUpdateColumns (assignments : list assignment) (config : ColumnCrypto) : list columnIndex :=
  indexesFrom 0 config (assignName <$> assignments).
(** A column without a name is passed over. *)
Definition retrieveNeedDecryptionSelectColumns (fields : list Field) (config : ColumnCrypto) : list columnIndex :=
  List.filter (fun c => negb (String.eqb (indexColumn c) EmptyString)) (indexesFrom 0 config (string_of ∘ Name <$> fields)).

(** [misc.AesEncryptGCM], then [hex.EncodeToString] *)
Definition encryptHex (config : ColumnCrypto) (column : string) (value : bytes) : res bytes :=
  match AesEncryptGCM value (bytes_of (AesKey config)) aesIV with
  | Ok encoded => Ok (hexEncode encoded)
  | Err e => Err ("Encryption of " +:+ column +:+ " failed: " +:+ e)%string
  | Panic => Panic
  end.

(** ** Statements of COM_QUERY *)

(** [if len(value) != 0] on what [GetBytes] returns, then [SetBytes]. *)
Definition encryptExpr (config : ColumnCrypto) (column : string) (arg : exprNode) : res exprNode :=
  match arg with
  | OtherExpr => Ok arg
  | ValueExpr d =>
    match GetBytes d with
    | [] => Ok arg
    | value => val ← encryptHex config column value; Ok (ValueExpr (KindBytes val))
    end
  end.

(** [values[column.Index]] *)
Definition encryptAt (config : ColumnCrypto) (values : list exprNode) (column : columnIndex) : res (list exprNode) :=
  arg ← from_option Panic (values !! Index column);
  arg' ← encryptExpr config (indexColumn column) arg;
  Ok (<[Index column := arg']> values).
Fixpoint encryptRow (config : ColumnCrypto) (columns : list columnIndex) (values : list exprNode) : res (list exprNode) :=
  match columns with
  | [] => Ok values
  | column :: columns' => values' ← encryptAt config values column; encryptRow config columns' values'
  end.
Definition encryptInsertValues (columns : list columnIndex) (config : ColumnCrypto) (valueList : list (list exprNode)) :
    res (list (list exprNode)) := mapM_res (encryptRow config columns) valueList.

Definition encryptAssignment (config : ColumnCrypto) (a : assignment) : res assignment :=
  if contains (cryptoColumns config) (assignName a) then
    arg ← encryptExpr config (assignString a) (assignExpr a);
    Ok (mkAssignment (assignName a) (assignString a) arg)
  else Ok a.
Definition encryptUpdateValues (assignments : list assignment) (config : ColumnCrypto) : res (list assignment) :=
  mapM_res (encryptAssignment config) assignments.

(** ** Arguments of COM_STMT_EXECUTE *)
Definition encryptBindVar (config : ColumnCrypto) (args : gmap string goValue) (column : columnIndex) : res (gmap string goValue) :=
  let id := parameterID (Z.of_nat (Index column)) in
  match args !! id with
  | Some (GString arg) => val ← encryptHex config (indexColumn column) arg; Ok (<[id := GString val]> args)
  | Some (GBytes arg) => val ← encryptHex config (indexColumn column) arg; Ok (<[id := GBytes val]> args)
  | _ => Ok args
  end.
Fixpoint encryptBindVars (columns : list columnIndex) (config : ColumnCrypto) (args : gmap string goValue) : res (gmap string goValue) :=
  match columns with
  | [] => Ok args
  | column :: columns' => args' ← encryptBindVar config args column; encryptBindVars columns' config args'
  end.

(** ** [PreHandle] *)
Definition preQuery (stmt : cryptoStmt) : res cryptoStmt :=
  match stmt with
  | CInsert table columns lists =>
    config ← checkTable table;
    match config with
    | None => Ok stmt
    | Some config =>
      indexes ← retrieveNeedEncryptionInsertColumns columns config;
      lists' ← (match indexes with [] => Ok lists | _ => encryptInsertValues indexes config lists end);
      Ok (CInsert table columns lists')
    end
  | CUpdate table assignments =>
    config ← checkTable table;
    match config with
    | None => Ok stmt
    | Some config => assignments' ← encryptUpdateValues assignments config; Ok (CUpdate table assignments')
    end
  | _ => Ok stmt
  end.

Definition preExecute (stmt : cryptoStmt) (vars : gmap string goValue) : res (gmap string goValue) :=
  match stmt with
  | CInsert table columns _ =>
    config ← checkTable table;
    match config with
    | None => Ok vars
    | Some config =>
      indexes ← retrieveNeedEncryptionInsertColumns columns config;
      encryptBindVars indexes config vars
    end
  | CUpdate table assignments =>
    config ← checkTable table;
    match config with
    | None => Ok vars
    | Some config => encryptBindVars (retrieveNeedEncryptionUpdateColumns assignments config) config vars
    end
  | _ => Ok vars
  end.

(** ** [PostHandle] *)

(** [hex.Decode(v, v)] leaves what it has decoded in front of the value, and only
    a value that then decrypts is replaced. *)
Definition decryptBytes (config : ColumnCrypto) (v : bytes) : res bytes :=
  let '(out, ok) := hexDecode v in
  let overwritten := out ++ drop (length out) v in
  if (ok : bool) then
    match AesDecryptGCM out (bytes_of (AesKey config)) aesIV with
    | Ok plain => Ok plain
    | Err _ => Ok overwritten
    | Panic => Panic
    end
  else Ok overwritten.

(** [r.Values[column.Index]]: a missing cell panics. *)
Definition decryptCell (config : ColumnCrypto) (values : list (option Value)) (column : columnIndex) : res (list (option Value)) :=
  cell ← from_option Panic (values !! Index column);
  match cell with
  | None => Ok values
  | Some v =>
    match Val v with
    | GBytes b =>
      b' ← decryptBytes config b;
      Ok (<[Index column := Some (mkValue (Typ v) (VFlags v) (VLen v) (GBytes b') (Raw v))]> values)
    | _ => Ok values
    end
  end.
Fixpoint decryptCells (config : ColumnCrypto) (columns : list columnIndex) (values : list (option Value)) : res (list (option Value)) :=
  match columns with
  | [] => Ok values
  | column :: columns' => values' ← decryptCell config values column; decryptCells config columns' values'
  end.
Definition decryptRow (config : ColumnCrypto) (columns : list columnIndex) (r : anyRow) : res anyRow :=
  let on t := values ← decryptCells config columns (Values t); Ok (mkRow (Content t) (Columns t) (decoded t) values) in
  match r with
  | ATextRow t => t' ← on t; Ok (ATextRow t')
  | ABinaryRow t => t' ← on t; Ok (ABinaryRow t')
  end.
Definition decryptDecodedResult (r : queryResult) (config : ColumnCrypto) (columns : list columnIndex) : res queryResult :=
  rows ← mapM_res (decryptRow config columns) (resRows r);
  Ok (mkQueryResult (resFields r) (resAffected r) (resInsertId r) rows).

(** Both commands; an error about the table is only logged. *)
Definition PostHandle (stmt : cryptoStmt) (result : option queryResult) (err : option string) : res (option queryResult) :=
  match err with
  | Some e => Err e
  | None =>
    match stmt, result with
    | CSelect from, Some r =>
      match resRows r with
      | [] => Ok result
      | _ =>
        match checkTable (default Panic from) with
        | Ok (Some config) =>
          match retrieveNeedDecryptionSelectColumns (resFields r) config with
          | [] => Ok result
          | columns => r' ← decryptDecodedResult r config columns; Ok (Some r')
          end
        | Panic => Panic
        | _ => Ok result
        end
      end
    | _, _ => Ok result
    end
  end.
End filter.

(** ** What was written is read back *)
Section spec.
Context `{AES} (configs : list ColumnCrypto) (config : ColumnCrypto).
Hypothesis key_ok : NewCipher (bytes_of (AesKey config)) = Ok tt.

(** The literal that is sent on for a string literal, and its bytes. *)
Definition sentOn (column : string) (value : bytes) : datum :=
  if contains (cryptoColumns config) column
  then match value with [] => KindString [] | _ => KindBytes (hexEncode (gcmSeal (bytes_of (AesKey config)) aesIV value)) end
  else KindString value.
Definition stored (column : string) (value : bytes) : bytes := GetBytes (sentOn column value).

Lemma encryptHex_seal column value :
  encryptHex config column value = Ok (hexEncode (gcmSeal (bytes_of (AesKey config)) aesIV value)).
Proof. unfold encryptHex, AesEncryptGCM. rewrite key_ok. done. Qed.
Lemma encryptExpr_stored column value :
  contains (cryptoColumns config) column = true ->
  encryptExpr config column (ValueExpr (KindString value)) = Ok (ValueExpr (sentOn column value)).
Proof.
  intros Hc. unfold sentOn. rewrite Hc. destruct value; [done|]. unfold encryptExpr. cbn [GetBytes]. by rewrite encryptHex_seal.
Qed.

Lemma decrypt_stored column value :
  contains (cryptoColumns config) column = true -> Forall is_byte value ->
  decryptBytes config (stored column value) = Ok value.
Proof.
  intros Hc Hb. unfold stored, sentOn. rewrite Hc. unfold decryptBytes. destruct value as [|x value]; cbn [GetBytes].
  - change (hexDecode []) with (@nil Z, true). cbv iota beta zeta. unfold AesDecryptGCM. rewrite key_ok. cbn [mbind res_bind]. change (len aesIV =? 12) with true. cbv iota.
    destruct (gcm_open_short (bytes_of (AesKey config)) aesIV []) as (e & ->); [cbn; lia|]. done.
  - rewrite hex_roundtrip by (by apply gcmSeal_byte). unfold AesDecryptGCM. rewrite key_ok. cbn [mbind res_bind].
    change (len aesIV =? 12) with true. cbv iota. by rewrite gcm_open_seal.
Qed.

Lemma encryptRow_stored cols vs pre :
  length cols = length vs ->
  encryptRow config (indexesFrom (length pre) config cols) (pre ++ (ValueExpr ∘ KindString <$> vs)) =
  Ok (pre ++ (ValueExpr <$> zip_with sentOn cols vs)).
Proof.
  revert vs pre. induction cols as [|c cols IH]; intros [|v vs] pre Hl; try done. cbn [indexesFrom fmap list_fmap zip_with].
  pose proof (IH vs (pre ++ [ValueExpr (sentOn c v)]) ltac:(cbn in Hl; lia)) as E.
  rewrite length_app, Nat.add_1_r, <- !app_assoc in E. cbn [app] in E.
  destruct (contains (cryptoColumns config) c) eqn:Ec.
  - cbn [encryptRow]. unfold encryptAt. cbn [Index indexColumn]. rewrite list_lookup_middle by done. cbn [from_option mbind res_bind].
    change ((ValueExpr ∘ KindString) v) with (ValueExpr (KindString v)). rewrite encryptExpr_stored by done. cbn [mbind res_bind].
    rewrite insert_app_r_alt, Nat.sub_diag by done. cbn [insert list_insert]. exact E.
  - unfold sentOn in E |- * at 1. rewrite Ec in E |- *. exact E.
Qed.

(** A cell that holds bytes. *)
Definition cellOf (meta : Z * Z * Z * bytes) (b : bytes) : option Value :=
  let '(typ, flags, n, raw) := meta in Some (mkValue typ flags n (GBytes b) raw).

Lemma decryptCells_stored cols vs metas pre :
  length cols = length vs -> length metas = length vs -> Forall (Forall is_byte) vs ->
  decryptCells config (indexesFrom (length pre) config cols) (pre ++ zip_with cellOf metas (zip_with stored cols vs)) =
  Ok (pre ++ zip_with cellOf metas vs).
Proof.
  revert vs metas pre. induction cols as [|c cols IH]; intros [|v vs] [|m metas] pre Hl Hm HB; try done.
  inversion HB as [|? ? Hv HBs]; subst. cbn [indexesFrom zip_with].
  pose proof (IH vs metas (pre ++ [cellOf m v]) ltac:(cbn in Hl; lia) ltac:(cbn in Hm; lia) HBs) as E.
  rewrite length_app, Nat.add_1_r, <- !app_assoc in E. cbn [app] in E.
  destruct (contains (cryptoColumns config) c) eqn:Ec.
  - cbn [decryptCells]. unfold decryptCell. cbn [Index]. rewrite list_lookup_middle by done. cbn [from_option mbind res_bind].
    destruct m as [[[typ fl] n] raw]. cbn [cellOf Val Typ VFlags VLen Raw] in *. rewrite decrypt_stored by done. cbn [mbind res_bind].
    rewrite insert_app_r_alt, Nat.sub_diag by done. cbn [insert list_insert]. exact E.
  - unfold stored at 1, sentOn. rewrite Ec. exact E.
Qed.

Lemma indexes_named cols i :
  Forall (fun c => c <> EmptyString) cols ->
  List.filter (fun c => negb (String.eqb (indexColumn c) EmptyString)) (indexesFrom i config cols) = indexesFrom i config cols.
Proof.
  intros Hc. revert i. induction Hc as [|c cols Hn Hc IH]; intros i; [done|]. cbn [indexesFrom].
  destruct (contains (cryptoColumns config) c); [|apply IH]. cbn [List.filter indexColumn].
  destruct (String.eqb_spec c EmptyString); [done|]. cbn [negb]. by rewrite IH.
Qed.
Lemma decryptRow_none r : decryptRow config [] r = Ok r.
Proof. destruct r as [[content cols d vs]|[content cols d vs]]; reflexivity. Qed.

(** C29: Clients see clear values, for rows of quoted string literals.  The table
    is one that is configured, with a key AES accepts (16, 24 or 32 bytes), the
    INSERT names its columns and gives a string literal for each.  Then
    [PreHandle] of COM_QUERY replaces each literal that is not empty in a
    configured column by the hexadecimal text of its AES-GCM ciphertext, and
    leaves empty strings and the other columns as they are.  When a SELECT of
    these columns returns the bytes that were sent on, in the text or in the
    binary protocol, [PostHandle] gives the client the row it inserted.  Of
    values without quotes nothing of this holds: [numbers_in_clear]. *)
Theorem insert_select_clear table cols (vs : list bytes) fields metas content columns dec (binary : bool) :
  checkTable configs table = Ok (Some config) -> Forall (fun c => c <> EmptyString) cols ->
  length cols = length vs -> length metas = length vs -> Forall (Forall is_byte) vs ->
  fields = (fun c => mkField [] [] [] (bytes_of c) [] 0 FieldTypeVarString 0 0 0 0 None) <$> cols ->
  let row values := (if binary then ABinaryRow else ATextRow) (mkRow content columns dec (zip_with cellOf metas values)) in
  exists sent,
    preQuery configs (CInsert table (Some cols) [ValueExpr ∘ KindString <$> vs]) =
      Ok (CInsert table (Some cols) [ValueExpr <$> sent]) /\
    (forall i c v, cols !! i = Some c -> vs !! i = Some v ->
       sent !! i = Some (if contains (cryptoColumns config) c && negb (bool_decide (v = []))
                         then KindBytes (hexEncode (gcmSeal (bytes_of (AesKey config)) aesIV v)) else KindString v)) /\
    PostHandle configs (CSelect (Some table)) (Some (mkQueryResult fields 0 0 [row (GetBytes <$> sent)])) None =
      Ok (Some (mkQueryResult fields 0 0 [row vs])).
Proof.
  intros Ht Hc Hl Hm HB Hf row. exists (zip_with sentOn cols vs). split_and!.
  - unfold preQuery. rewrite Ht. cbn [mbind res_bind retrieveNeedEncryptionInsertColumns].
    assert (E : encryptInsertValues (indexesFrom 0 config cols) config [ValueExpr ∘ KindString <$> vs] =
      Ok [ValueExpr <$> zip_with sentOn cols vs]).
    { unfold encryptInsertValues. cbn [mapM_res]. pose proof (encryptRow_stored cols vs [] Hl) as E. cbn [length app] in E.
      by rewrite E. }
    destruct (indexesFrom 0 config cols) as [|ix ixs] eqn:Ei; [|by rewrite E]. cbn [mbind res_bind].
    cbn [encryptInsertValues mapM_res encryptRow mbind res_bind] in E. injection E as E. by rewrite E.
  - intros i c v Hi Hv. rewrite lookup_zip_with, Hi, Hv. cbn. f_equal. unfold sentOn.
    destruct (contains _ c); [|done]. by destruct v.
  - assert (Es : GetBytes <$> zip_with sentOn cols vs = zip_with stored cols vs) by (clear; revert vs; induction cols as [|c cols IH]; intros [|v vs]; cbn; [done..|]; by rewrite <- IH).
    rewrite Es. unfold PostHandle. cbn [resRows]. change (default Panic (Some table)) with table. rewrite Ht. cbn [resFields].
    assert (En : string_of ∘ Name <$> fields = cols).
    { rewrite Hf, <- list_fmap_compose. rewrite <- (list_fmap_id cols) at 2. apply list_fmap_ext. intros i c _. apply string_of_bytes_of. }
    assert (EC : retrieveNeedDecryptionSelectColumns fields config = indexesFrom 0 config cols).
    { unfold retrieveNeedDecryptionSelectColumns. rewrite En. by apply indexes_named. }
    rewrite EC.
    assert (ER : decryptRow config (indexesFrom 0 config cols) (row (zip_with stored cols vs)) = Ok (row vs)).
    { pose proof (decryptCells_stored cols vs metas [] Hl Hm HB) as E. cbn [length app] in E.
      unfold row. destruct binary; cbn [decryptRow Values Content Columns decoded]; rewrite E; reflexivity. }
    destruct (indexesFrom 0 config cols) as [|ix ixs] eqn:Ei.
    + rewrite decryptRow_none in ER. injection ER as ->. done.
    + unfold decryptDecodedResult. cbn [resRows mapM_res]. by rewrite ER.
Qed.

Lemma indexesFrom_range configx cols i c : In c (indexesFrom i configx cols) -> (i <= Index c < i + length cols)%nat.
Proof.
  revert i. induction cols as [|x cols IH]; intros i; cbn [indexesFrom length]; [done|].
  destruct (contains (cryptoColumns configx) x).
  - intros [<-|Hin%IH]; cbn [Index]; lia.
  - intros Hin%IH. lia.
Qed.

(** Literals without bytes are passed over. *)
Lemma encryptRow_empty columns (ds : list datum) :
  Forall (fun d => GetBytes d = []) ds -> Forall (fun c => (Index c < length ds)%nat) columns ->
  encryptRow config columns (ValueExpr <$> ds) = Ok (ValueExpr <$> ds).
Proof.
  intros Hd Hc. induction Hc as [|c columns Hi Hc IH]; [done|]. cbn [encryptRow]. unfold encryptAt.
  destruct (lookup_lt_is_Some_2 ds (Index c) Hi) as (d & Ed). rewrite list_lookup_fmap, Ed. cbn.
  rewrite (Forall_lookup_1 _ _ _ _ Hd Ed). cbn. rewrite list_insert_id by (by rewrite list_lookup_fmap, Ed). exact IH.
Qed.

Lemma hexDecode_length v : (2 * length (fst (hexDecode v)) <= length v)%nat.
Proof.
  enough (Hn : forall n (u : bytes), (length u <= n)%nat -> (2 * length (fst (hexDecode u)) <= length u)%nat) by (by apply (Hn (length v))).
  induction n as [|n IH]; intros [|a [|b u]] Hu; cbn in *; try lia.
  destruct (fromHexChar a), (fromHexChar b); cbn; try lia. specialize (IH u ltac:(lia)).
  destruct (hexDecode u); cbn in *. lia.
Qed.

(** What the SELECT makes of a value that is too short to be a ciphertext: the
    bytes [hex.Decode] could decode are written over its beginning. *)
Lemma decrypt_short v : len v < 32 ->
  decryptBytes config v = Ok (fst (hexDecode v) ++ drop (length (fst (hexDecode v))) v).
Proof.
  intros Hv. unfold decryptBytes. pose proof (hexDecode_length v) as Hl. unfold len in Hv.
  destruct (hexDecode v) as [out ok]. cbn [fst] in *. destruct ok; [|done].
  unfold AesDecryptGCM. rewrite key_ok. cbn [mbind res_bind]. change (len aesIV =? 12) with true. cbv iota.
  destruct (gcm_open_short (bytes_of (AesKey config)) aesIV out) as (e & ->); [lia | done].
Qed.

(** A value without quotes in a configured column goes out in clear, and the
    SELECT damages it: an INSERT of numbers and NULLs is sent on unchanged, and
    of a text of less than 32 bytes that comes back from the database, the
    pairs of hexadecimal digits at its beginning are decoded in place. *)
Theorem numbers_in_clear table cols (ds : list datum) v :
  checkTable configs table = Ok (Some config) -> length cols = length ds ->
  Forall (fun d => GetBytes d = []) ds -> len v < 32 ->
  preQuery configs (CInsert table (Some cols) [ValueExpr <$> ds]) = Ok (CInsert table (Some cols) [ValueExpr <$> ds]) /\
  decryptBytes config v = Ok (fst (hexDecode v) ++ drop (length (fst (hexDecode v))) v).
Proof.
  intros Ht Hl Hd Hv. split; [|by apply decrypt_short]. unfold preQuery. rewrite Ht. cbn [mbind res_bind retrieveNeedEncryptionInsertColumns].
  assert (E : encryptInsertValues (indexesFrom 0 config cols) config [ValueExpr <$> ds] = Ok [ValueExpr <$> ds]).
  { unfold encryptInsertValues. cbn [mapM_res]. rewrite encryptRow_empty; [done | done|].
    apply List.Forall_forall. intros c Hc%indexesFrom_range. lia. }
  destruct (indexesFrom 0 config cols) as [|ix ixs]; [done | by rewrite E].
Qed.

(** ** What is not encrypted *)
Lemma encryptBindVars_other (configx : ColumnCrypto) columns vars vars' id :
  encryptBindVars columns configx vars = Ok vars' -> (forall c, In c columns -> parameterID (Z.of_nat (Index c)) <> id) ->
  vars' !! id = vars !! id.
Proof.
  revert vars. induction columns as [|c columns IH]; intros vars; cbn [encryptBindVars]; [by intros [= <-]|].
  destruct (encryptBindVar configx vars c) as [vars1| |] eqn:E; cbn [mbind res_bind]; try done. intros Hr Hid.
  rewrite (IH vars1 Hr) by (intros; apply Hid; by right).
  pose proof (Hid c (or_introl eq_refl)) as Hc. unfold encryptBindVar in E.
  destruct (vars !! parameterID (Z.of_nat (Index c))) as [[]|]; try (by injection E as <-);
    destruct (encryptHex configx (indexColumn c) s); cbn in E; try done; injection E as <-; by rewrite lookup_insert_ne.
Qed.
End spec.

(** The second row goes out in clear: of a prepared INSERT with several rows only
    the arguments of the first row are encrypted; those of the others reach the
    database as the client sent them. *)
Theorem later_rows_in_clear `{AES} configs table cols lists vars vars' i :
  preExecute configs (CInsert table (Some cols) lists) vars = Ok vars' ->
  (length cols <= i)%nat -> Z.of_nat i + 1 < two63 ->
  vars' !! parameterID (Z.of_nat i) = vars !! parameterID (Z.of_nat i).
Proof.
  unfold preExecute. destruct (checkTable configs table) as [[config|]| |]; cbn [mbind res_bind]; try done; [|by intros [= <-]].
  cbn [retrieveNeedEncryptionInsertColumns mbind res_bind]. intros Hr Hi Hmax. eapply encryptBindVars_other; [exact Hr|].
  intros c Hc%indexesFrom_range Heq. apply parameterID_inj in Heq; unfold in_i64 in *; lia.
Qed.

(** ** Examples *)
Definition phones : list ColumnCrypto := [mkColumnCrypto "user" ["phone"] "0123456789abcdef"].
Definition twoRows : gmap string goValue :=
  {[ "v1" := GString (bytes_of "ann"); "v2" := GString (bytes_of "123");
     "v3" := GString (bytes_of "bob"); "v4" := GString (bytes_of "456") ]}.

Lemma insert_select_clear_witness :
  let config := mkColumnCrypto "user" ["phone"] "0123456789abcdef" in
  let fields := (fun c => mkField [] [] [] (bytes_of c) [] 0 FieldTypeVarString 0 0 0 0 None) <$> ["name"; "phone"] in
  let row values := ATextRow (mkRow [] [] true (zip_with cellOf [(FieldTypeVarString, 0, 0, []); (FieldTypeVarString, 0, 0, [])] values)) in
  NewCipher (bytes_of (AesKey config)) = Ok tt /\
  exists sent, preQuery (H := reversing) phones (CInsert (Ok "User"%string) (Some ["name"; "phone"])
      [ValueExpr ∘ KindString <$> [bytes_of "ann"; bytes_of "123"]]) =
      Ok (CInsert (Ok "User"%string) (Some ["name"; "phone"]) [ValueExpr <$> sent]) /\
    GetBytes <$> sent !! 1%nat <> Some (bytes_of "123") /\
    PostHandle (H := reversing) phones (CSelect (Some (Ok "User"%string))) (Some (mkQueryResult fields 0 0 [row (GetBytes <$> sent)])) None =
      Ok (Some (mkQueryResult fields 0 0 [row [bytes_of "ann"; bytes_of "123"]])).
Proof.
  intros config fields row. split; [reflexivity|].
  destruct (insert_select_clear (H := reversing) phones config eq_refl
    (Ok "User"%string) ["name"; "phone"] [bytes_of "ann"; bytes_of "123"] fields
    [(FieldTypeVarString, 0, 0, []); (FieldTypeVarString, 0, 0, [])] [] [] true false) as (sent & Hq & Hs & Hp);
    [reflexivity|apply (bool_decide_unpack _); reflexivity|reflexivity|reflexivity|
     apply (bool_decide_unpack _); vm_compute; reflexivity|reflexivity|].
  exists sent. split; [exact Hq|]. split; [|exact Hp].
  rewrite (Hs 1%nat "phone"%string (bytes_of "123") eq_refl eq_refl). vm_compute. discriminate.
Defined.

Lemma numbers_in_clear_witness :
  preQuery (H := reversing) phones (CInsert (Ok "user"%string) (Some ["name"; "phone"]) [ValueExpr <$> [KindNull; KindNumber (bytes_of "13812345678")]]) =
    Ok (CInsert (Ok "user"%string) (Some ["name"; "phone"]) [ValueExpr <$> [KindNull; KindNumber (bytes_of "13812345678")]]) /\
  decryptBytes (H := reversing) (mkColumnCrypto "user" ["phone"] "0123456789abcdef") (bytes_of "13812345678") =
    Ok ([19; 129; 35; 69; 103] ++ bytes_of "345678").
Proof.
  destruct (numbers_in_clear (H := reversing) phones (mkColumnCrypto "user" ["phone"] "0123456789abcdef") eq_refl
    (Ok "user"%string) ["name"; "phone"] [KindNull; KindNumber (bytes_of "13812345678")] (bytes_of "13812345678")) as [H1 H2];
    [reflexivity | reflexivity | repeat constructor | reflexivity | split; [exact H1 | exact H2]].
Defined.

Lemma later_rows_in_clear_witness :
  exists vars', preExecute (H := reversing) phones (CInsert (Ok "user"%string) (Some ["name"; "phone"]) []) twoRows = Ok vars' /\
    vars' !! "v4" = Some (GString (bytes_of "456")) /\ vars' !! "v2" <> Some (GString (bytes_of "123")).
Proof.
  eexists. split; [vm_compute; reflexivity|]. split.
  - etransitivity; [|reflexivity]. change ("v4"%string) with (parameterID (Z.of_nat 3)).
    eapply (later_rows_in_clear (H := reversing) phones (Ok "user"%string) ["name"; "phone"] [] twoRows).
    + vm_compute; reflexivity.
    + cbn; lia.
    + reflexivity.
  - vm_compute. discriminate.
Defined.

(** A value that was stored before the column was configured and that looks like
    hexadecimal is damaged on the way out: its first bytes are overwritten by what
    they decode to. *)
Example plain_value_damaged config : decryptBytes (H := reversing) config (bytes_of "12345") = Ok ([18; 52] ++ bytes_of "345").
Proof. vm_compute. reflexivity. Qed.

(** [SELECT 1] with rows: the missing FROM clause is dereferenced. *)
Lemma select_without_from_panics `{AES} configs r : resRows r <> [] ->
  PostHandle configs (CSelect None) (Some r) None = Panic.
Proof. intros Hr. unfold PostHandle. by destruct (resRows r). Qed.
