(* ===== verification/Plans.v ===== *)
(** * Execution of plans and transactions over groups: [pkg/plan],
    [pkg/group/transaction.go]

    A transaction of a sharding executor has a local transaction per group it
    has touched, begun on first use.  Plans outside of a transaction begin and
    commit their own; a write over several databases runs under a global
    transaction of the coordinator.

    Goroutines run one after the other in the order the argument [order] gives.
    The parser that checks generated statements is the argument [parses]. *)
From Stdlib Require Import ZArith Lia List.
From stdpp Require Import base gmap list strings.
From S2P Require Import Prelude GoText Hints Encoding Layout Conn Packets PacketSpec GoTime DateTime Rows Stmt Collations Handshake Listener Topology Database Group Executors PlanText.

Local Open Scope Z_scope.

(** The transaction manager as the plans use it ([dt.GetTransactionManager]). *)
Class GlobalTx (B : Type) := {
  globalBegin : string -> Z -> B -> (string + goError) * B;
  globalCommit : string -> B -> option goError * B;
  globalRollback : string -> B -> option goError * B }.

(** [txs] is nil after [Close]. *)
Record ComplexTx := mkComplexTx { complexClosed : bool; children : option (gmap string nat) }.

Record shards := mkShards { groups : gmap string DBGroup; complexTxs : gmap nat ComplexTx; nextComplex : nat }.

Definition asGoError {A} (r : res A) : outcome (A + goError) :=
  match r with Ok a => Returns (inl a) | Err e => Returns (inr (errorText e)) | Panic => Panics end.

Section plans.
Context {B : Type} `{Backend B} `{GlobalTx B}.
Context (restoreHint : hint -> part) (parses : bytes -> option goError).
Context (rnd rnd' : Z).

Definition SEM : Type -> Type := EM (B := B) (G := shards).

Definition getShards {A} (f : shards -> A) : SEM A := fun e => (Returns (f (group e)), e).
Definition setShards (f : shards -> shards) : SEM unit := fun e => (Returns tt, set_group (f (group e)) e).

(** A call on the group of a plan; a plan without one panics. *)
Definition onShard {A} (g : string) (m : DBGroup -> DM (B := B) (A * DBGroup)) : SEM A :=
  gs ← getShards groups;
  match gs !! g with
  | None => inWorld panic
  | Some gr =>
    x ← inWorld (m gr);
    _ ← setShards (fun s => mkShards (<[g := snd x]> (groups s)) (complexTxs s) (nextComplex s));
    mret (fst x)
  end.
(** [Begin] of a group, which changes no counter. *)
Definition shardBegin (g : string) (ctx : dbContext) : SEM (nat * option queryResult + goError) :=
  onShard g (fun gr => r ← Group_Begin gr ctx; mret (r, gr)).

(** ** Transactions over groups *)
Definition NewComplexTx : SEM nat :=
  x ← getShards nextComplex;
  _ ← setShards (fun s => mkShards (groups s) (<[x := mkComplexTx false (Some ∅)]> (complexTxs s)) (S x));
  mret x.

Definition getComplex (x : nat) : SEM ComplexTx :=
  xs ← getShards complexTxs;
  match xs !! x with Some tx => mret tx | None => inWorld panic end.
Definition putComplex (x : nat) (tx : ComplexTx) : SEM unit :=
  setShards (fun s => mkShards (groups s) (<[x := tx]> (complexTxs s)) (nextComplex s)).

(** The local transaction of a group; storing it in a nil map panics. *)
Definition Complex_Begin (x : nat) (g : string) (ctx : dbContext) : SEM (nat + goError) :=
  tx ← getComplex x;
  match (cs ← children tx; cs !! g) with
  | Some t => mret (inl t)
  | None =>
    r ← shardBegin g (WithMaster ctx);
    match r with
    | inr e => mret (inr e)
    | inl (t, _) =>
      match children tx with
      | None => inWorld panic
      | Some cs => _ ← putComplex x (mkComplexTx (complexClosed tx) (Some (<[g := t]> cs))); mret (inl t)
      end
    end
  end.

Definition Complex_Close (x : nat) : SEM unit := putComplex x (mkComplexTx true None).

(** The goroutines over the children: all of them run, the first error is kept. *)
Fixpoint endEach (m : nat -> DM (B := B) (option queryResult + goError)) (ts : list nat) : DM (B := B) (option goError) :=
  match ts with
  | [] => mret None
  | t :: ts' =>
    r ← m t;
    rest ← endEach m ts';
    mret (match r with inr e => Some e | inl _ => rest end)
  end.

Definition Complex_end (order : list nat -> list nat) (x : nat) (m : nat -> DM (B := B) (option queryResult + goError)) :
    SEM (option queryResult + goError) :=
  tx ← getComplex x;
  if complexClosed tx then mret (inr ErrTransactionClosed)
  else
    err ← inWorld (endEach m (order (match children tx with Some cs => (map_to_list cs).*2 | None => [] end)));
    _ ← Complex_Close x;
    mret (match err with Some e => inr e | None => inl (Some emptyResult) end).
Definition Complex_Commit (order : list nat -> list nat) (x : nat) (ctx : dbContext) : SEM (option queryResult + goError) :=
  Complex_end order x (fun t => Tx_Commit t ctx).
Definition Complex_Rollback (order : list nat -> list nat) (x : nat) (ctx : dbContext) : SEM (option queryResult + goError) :=
  Complex_end order x (fun t => Tx_Rollback t ctx []).

(** ** Writes on one database *)

(** What a write plan keeps over its tables: the last result, the affected rows
    and the warnings. *)
Definition progress : Type := option queryResult * Z * Z.

(** A result that is nil panics when asked for its rows. *)
Definition addResult (acc : progress) (rep : option queryResult * Z) : outcome progress :=
  let '(_, affected, warnings) := acc in
  match rep with
  | (None, _) => Panics
  | (Some r, warn) => Returns (Some r, u64 (affected + resAffected r), (warnings + warn) mod 65536)
  end.

Definition runCommand (cmd : Z) (t : nat) (ctx : dbContext) (sql : bytes) (args : list goValue) :
    DM (B := B) (option reply) :=
  if cmd =? ComQuery then rep ← Tx_Query t ctx sql; mret (Some rep)
  else if cmd =? ComStmtExecute then rep ← Tx_ExecuteSql t ctx sql args; mret (Some rep)
  else mret None.

Fixpoint writeTables (generate : string -> part) (cmd : Z) (t : nat) (ctx : dbContext) (args : list goValue)
    (tables : list string) (acc : progress) : DM (B := B) (progress + goError) :=
  match tables with
  | [] => mret (inl acc)
  | table :: tables' =>
    text ← ended (asGoError (generate table));
    match text with
    | inr e => mret (inr e)
    | inl sql =>
      match parses (bytes_of sql) with
      | Some e => mret (inr e)
      | None =>
        rep ← runCommand cmd t ctx (bytes_of sql) args;
        match rep with
        | None => writeTables generate cmd t ctx args tables' acc
        | Some (inr e) => mret (inr e)
        | Some (inl x) => acc' ← ended (addResult acc x); writeTables generate cmd t ctx args tables' acc'
        end
      end
    end
  end.

(** The last result, with the rows of all tables; none panics. *)
Definition writeResultOf (acc : progress) : outcome reply :=
  match acc with
  | (None, _, _) => Panics
  | (Some r, affected, warnings) =>
    Returns (inl (Some (mkQueryResult (resFields r) affected (resInsertId r) (resRows r)), warnings))
  end.

Record writePlan := mkWritePlan {
  planGroup : string; planTables : list string; planText : list hint -> string -> part; planArgs : list goValue }.
Definition UpdatePlan (g : string) (tables : list string) (u : updateText) (args : list goValue) : writePlan :=
  mkWritePlan g tables (UpdatePlan_generate restoreHint u) args.
Definition DeletePlan (g : string) (tables : list string) (d : deleteText) (args : list goValue) : writePlan :=
  mkWritePlan g tables (DeletePlan_generate restoreHint d) args.

(** [Execute] of the two plans.  [inTx] is the transaction of the context; outside
    of one the plan begins its own, which a failure leaves as it is. *)
Definition WritePlan_Execute (p : writePlan) (hints : list hint) (inTx : option nat) (cmd : Z) (ctx : dbContext) : SEM reply :=
  began ← (match inTx with
           | Some x => Complex_Begin x (planGroup p) ctx
           | None =>
             r ← shardBegin (planGroup p) ctx;
             mret (match r with inl (t, _) => inl t | inr e => inr e end)
           end);
  match began with
  | inr e => mret (inr e)
  | inl t =>
    r ← inWorld (writeTables (planText p hints) cmd t ctx (planArgs p) (planTables p) (None, 0, 0));
    match r with
    | inr e => mret (inr e)
    | inl acc =>
      match inTx with
      | Some _ => inWorld (ended (writeResultOf acc))
      | None =>
        c ← inWorld (Tx_Commit t ctx);
        match c with
        | inr e => mret (inr e)
        | inl _ => inWorld (ended (writeResultOf acc))
        end
      end
    end
  end.

Definition UpdatePlan_Execute (g : string) (tables : list string) (u : updateText) (args : list goValue) :
    list hint -> option nat -> Z -> dbContext -> SEM reply := WritePlan_Execute (UpdatePlan g tables u args).
Definition DeletePlan_Execute (g : string) (tables : list string) (d : deleteText) (args : list goValue) :
    list hint -> option nat -> Z -> dbContext -> SEM reply := WritePlan_Execute (DeletePlan g tables d args).

(** ** Writes on several databases *)
Fixpoint writeEach (ps : list writePlan) (hints : list hint) (inTx : option nat) (cmd : Z) (ctx : dbContext)
    (affected warnings : Z) : SEM reply :=
  match ps with
  | [] => mret (inl (Some (mkQueryResult [] affected 0 []), warnings))
  | p :: ps' =>
    rep ← WritePlan_Execute p hints inTx cmd ctx;
    match rep with
    | inr e => mret (inr e)
    | inl (None, _) => inWorld panic
    | inl (Some r, warn) =>
      writeEach ps' hints inTx cmd ctx (u64 (affected + resAffected r)) ((warnings + warn) mod 65536)
    end
  end.

(** The deferred end of the global transaction: its errors are logged. *)
Definition globalEnd (xid : string) (rep : reply) : DM (B := B) unit :=
  _ ← onPeer (match rep with inr _ => globalRollback xid | inl _ => globalCommit xid end);
  mret tt.

(** [MultiUpdatePlan] and [MultiDeletePlan]: [verb] starts the name of the global
    transaction.  [timeout] is nil when the variable has another type.  On a
    panic the deferred function sees no error and commits. *)
Definition MultiWrite_Execute (verb table : string) (stmtHints : list hint) (ps : list writePlan) (timeout : option Z)
    (inTx : option nat) (cmd : Z) (ctx : dbContext) : SEM reply :=
  match inTx with
  | Some _ => writeEach ps [] inTx cmd ctx 0 0
  | None =>
    has ← inWorld (ended (asGoError (HasXIDHint stmtHints)));
    match has with
    | inr e => mret (inr e)
    | inl (Some _) => writeEach ps [] None cmd ctx 0 0
    | inl None =>
      match timeout with
      | None => mret (inr (errorText "transaction timeout must be of type int32"))
      | Some timeout =>
        r ← inWorld (onPeer (globalBegin (verb +:+ "_" +:+ table)%string timeout));
        match r with
        | inr e => mret (inr e)
        | inl xid => (fun e =>
            match writeEach ps [NewXIDHint xid] None cmd ctx 0 0 e with
            | (Returns rep, e') =>
              match inWorld (globalEnd xid rep) e' with
              | (Returns _, e'') => (Returns rep, e'')
              | (Waits, e'') => (Waits, e'')
              | (Panics, e'') => (Panics, e'')
              end
            | (Waits, e') => (Waits, e')
            | (Panics, e') => (Panics, snd (inWorld (globalEnd xid (inl (None, 0))) e'))
            end) : SEM reply
        end
      end
    end
  end.

Definition MultiUpdatePlan_Execute : string -> list hint -> list writePlan -> option Z -> option nat -> Z -> dbContext -> SEM reply :=
  MultiWrite_Execute "UPDATE".
Definition MultiDeletePlan_Execute : string -> list hint -> list writePlan -> option Z -> option nat -> Z -> dbContext -> SEM reply :=
  MultiWrite_Execute "DELETE".

(** ** Other plans *)

(** A statement of a group, in the transaction of the context or on a data source
    the group picks; other commands return nothing. *)
Definition onGroupOrTx (g : string) (sql : bytes) (args : list goValue) (inTx : option nat) (cmd : Z) (ctx : dbContext) : SEM reply :=
  match inTx with
  | Some x =>
    t ← Complex_Begin x g ctx;
    match t with
    | inr e => mret (inr e)
    | inl t => rep ← inWorld (runCommand cmd t ctx sql args); mret (default (inl (None, 0)) rep)
    end
  | None =>
    if cmd =? ComQuery then onShard g (fun gr => Group_Query rnd rnd' gr ctx sql)
    else if cmd =? ComStmtExecute then onShard g (fun gr => Group_PrepareQuery rnd rnd' gr ctx sql args)
    else mret (inl (None, 0))
  end.

(** [QueryOnSingleDBPlan] and [InsertPlan], which differ in the text. *)
Definition SinglePlan_Execute (g : string) (text : part) (args : list goValue) (inTx : option nat) (cmd : Z) (ctx : dbContext) :
    SEM reply :=
  sql ← inWorld (ended (asGoError text));
  match sql with
  | inr e => mret (inr e)
  | inl sql => onGroupOrTx g (bytes_of sql) args inTx cmd ctx
  end.

Definition QueryOnSingleDBPlan_Execute (g : string) (tables : list string) (pk : string) (sel : selectText) (limit : option Z)
    (aggregates : bool) (args : list goValue) : option nat -> Z -> dbContext -> SEM reply :=
  SinglePlan_Execute g (QueryPlan_generate tables pk sel limit aggregates) args.
Definition InsertPlan_Execute (g table : string) (columns : list string) (lists : option (list (list part))) (args : list goValue) :
    option nat -> Z -> dbContext -> SEM reply :=
  SinglePlan_Execute g (InsertPlan_generate table columns lists) args.

(** [DirectQueryPlan]: always on the group, in a transaction or not. *)
Definition DirectPlan_Execute (g : string) (text : part) (args : list goValue) (cmd : Z) (ctx : dbContext) : SEM reply :=
  SinglePlan_Execute g text args None cmd ctx.

(** [MultiDirectlyQueryPlan]: only the last result counts. *)
Fixpoint MultiDirect_Execute (ps : list (string * part * list goValue)) (cmd : Z) (ctx : dbContext) (last : reply) : SEM reply :=
  match ps with
  | [] => mret last
  | (g, text, args) :: ps' =>
    rep ← DirectPlan_Execute g text args cmd ctx;
    MultiDirect_Execute ps' cmd ctx rep
  end.

(** The goroutines of [QueryOnMultiDBPlan] and their results; the merge is the
    argument [merge] (QueryPlan). *)
Fixpoint queryAll (ps : list (string * part * list goValue)) (inTx : option nat) (cmd : Z) (ctx : dbContext) :
    SEM (list (string * reply)) :=
  match ps with
  | [] => mret []
  | (g, text, args) :: ps' =>
    rep ← SinglePlan_Execute g text args inTx cmd ctx;
    reps ← queryAll ps' inTx cmd ctx;
    mret ((g, rep) :: reps)
  end.
Definition MultiQuery_Execute (ps : list (string * part * list goValue)) (merge : list (string * (option queryResult * Z)) -> outcome reply)
    (inTx : option nat) (cmd : Z) (ctx : dbContext) : SEM reply :=
  reps ← queryAll ps inTx cmd ctx;
  (fix results (l : list (string * reply)) acc : SEM reply :=
     match l with
     | [] => inWorld (ended (merge (rev acc)))
     | (g, inr e) :: _ => mret (inr e)
     | (g, inl x) :: l' => results l' ((g, x) :: acc)
     end) reps [].
End plans.
