(* ===== verification/ShardingExecutor.v ===== *)
(** * The sharding executor: [pkg/executor/sharding.go]

    A client's transaction is a transaction over groups; statements are planned
    by the optimizer and the plans executed in it or on their own.  The plan of a
    statement is the argument [optimize], the result of [Optimize] for the
    statement and its arguments (see Optimizer). *)
From Stdlib Require Import ZArith Lia List.
From stdpp Require Import base gmap list strings.
From S2P Require Import Prelude GoText Hints Encoding Layout Conn Packets PacketSpec GoTime DateTime Rows Stmt Collations Handshake Listener Topology Database Group Executors PlanText Plans.

Local Open Scope Z_scope.

(** The plans of [pkg/plan]. *)
Inductive shardPlan :=
| QueryOnSingleDBPlan (g : string) (text : part) (args : list goValue)
| QueryOnMultiDBPlan (ps : list (string * part * list goValue)) (merge : list (string * (option queryResult * Z)) -> outcome reply)
| InsertPlan (g : string) (text : part) (args : list goValue)
| SingleWritePlan (p : writePlan)
| MultiWritePlan (verb table : string) (stmtHints : list hint) (ps : list writePlan)
| DirectQueryPlan (g : string) (text : part) (args : list goValue)
| MultiDirectlyQueryPlan (ps : list (string * part * list goValue)).

(** What the executor tells apart. *)
Inductive shardNode :=
| ShardSet (variables : list (string * setValue))
| ShardShowServer  (** SHOW ENGINES, DATABASES, CREATE DATABASE *)
| ShardShow
| ShardBegin
| ShardCommit
| ShardRollback (savepoint : bytes)
| ShardSelect (firstIsVariable : bool)
| ShardOther.

Section sharding.
Context {B : Type} `{Backend B} `{GlobalTx B}.
Context (restoreHint : hint -> part) (parses : bytes -> option goError).
Context (rnd rnd' : Z) (order : list nat -> list nat) (queryOrder : list string -> list string).
(** The groups in the order of the configuration, and the timeout of it. *)
Context (executorNames : list string) (transactionTimeout : Z).
Context (optimize : shardNode -> list goValue -> shardPlan + goError).

Definition executePlan (p : shardPlan) (inTx : option nat) (cmd : Z) (ctx : dbContext) : SEM (B := B) reply :=
  match p with
  | QueryOnSingleDBPlan g text args => SinglePlan_Execute rnd rnd' g text args inTx cmd ctx
  | QueryOnMultiDBPlan ps merge => MultiQuery_Execute rnd rnd' ps merge inTx cmd ctx
  | InsertPlan g text args => SinglePlan_Execute rnd rnd' g text args inTx cmd ctx
  | SingleWritePlan p => WritePlan_Execute parses p [] inTx cmd ctx
  | MultiWritePlan verb table hints ps => MultiWrite_Execute parses verb table hints ps (Some transactionTimeout) inTx cmd ctx
  | DirectQueryPlan g text args => DirectPlan_Execute rnd rnd' g text args cmd ctx
  | MultiDirectlyQueryPlan ps => MultiDirect_Execute rnd rnd' ps cmd ctx (inl (None, 0))
  end.

(** [optimizer.Optimize], then [plan.Execute]; also [Query] and [Execute] of a
    transaction over groups. *)
Definition planned (node : shardNode) (args : list goValue) (inTx : option nat) (cmd : Z) (ctx : dbContext) : SEM (B := B) reply :=
  match optimize node args with
  | inr e => mret (inr e)
  | inl p => executePlan p inTx cmd ctx
  end.

(** [executors[0].Query] *)
Definition firstGroup (ctx : dbContext) (sql : bytes) : SEM (B := B) reply :=
  match executorNames with
  | [] => inWorld panic
  | g :: _ => onShard g (fun gr => Group_Query rnd rnd' gr ctx sql)
  end.

(** The goroutines that send a SET to every group. *)
Fixpoint setEach (gs : list string) (ctx : dbContext) (sql : bytes) : SEM (B := B) unit :=
  match gs with
  | [] => mret tt
  | g :: gs' =>
    _ ← onShard g (fun gr => _ ← spawn (Group_QueryAll queryOrder gr ctx sql); mret (tt, gr));
    setEach gs' ctx sql
  end.

Definition beginsComplex (connectionID : Z) : SEM (B := B) unit :=
  x ← NewComplexTx; Store connectionID x.

Definition inComplexOr (node : shardNode) (args : list goValue) (cmd : Z) (ctx : dbContext) : SEM (B := B) reply :=
  txi ← Load (connectionOf ctx);
  planned node args txi cmd ctx.

Definition shdSwitch (ctx : dbContext) (node : shardNode) (sql : bytes) : SEM (B := B) reply :=
  let connectionID := connectionOf ctx in
  let empty : reply := inl (Some emptyResult, 0) in
  match node with
  | ShardSet variables =>
    _ ← (if shouldStartTransaction variables then beginsComplex connectionID else setEach executorNames ctx sql);
    mret empty
  | ShardShowServer => firstGroup ctx sql
  | ShardShow => planned node [] None ComQuery ctx
  | ShardBegin => _ ← beginsComplex connectionID; mret empty
  | ShardCommit =>
    inTransaction connectionID (fun x =>
      deletingAfter connectionID (r ← Complex_Commit order x ctx; mret (withoutWarnings r)))
  | ShardRollback _ =>
    inTransaction connectionID (fun x =>
      deletingAfter connectionID (r ← Complex_Rollback order x ctx; mret (withoutWarnings r)))
  | ShardSelect true => firstGroup ctx sql
  | ShardSelect false | ShardOther => inComplexOr node [] ComQuery ctx
  end.

Definition SHD_ExecutorComQuery (conf : executorConf (B := B)) (ctx : dbContext) (node : shardNode) (sql : bytes) :
    SEM (B := B) reply :=
  withFilters conf ctx (shdSwitch ctx node sql).

Definition SHD_ExecutorComStmtExecute (conf : executorConf (B := B)) (ctx : dbContext) (node : shardNode) (stmt : Stmt) :
    SEM (B := B) reply :=
  withFilters conf ctx (inComplexOr node (stmtArgs stmt) ComStmtExecute ctx).

Definition SHD_InLocalTransaction (connectionID : Z) (e : executor B (G := shards)) : bool :=
  InLocalTransaction connectionID e.
Definition SHD_ExecuteUseDB (schema : bytes) : SEM (B := B) (unit + goError) :=
  mret (inr (errorText "unimplemented COM_INIT_DB in read write splitting mode")).
Definition SHD_ExecuteFieldList (table wildcard : bytes) : SEM (B := B) (list Field + goError) :=
  mret (inr (errorText "unimplemented COM_FIELD_LIST in read write splitting mode")).

Definition SHD_ConnectionClose (connectionID : Z) : SEM (B := B) unit :=
  txi ← Load connectionID;
  match txi with
  | None => mret tt
  | Some x => _ ← Complex_Rollback order x (clientContext connectionID); Delete connectionID
  end.
End sharding.
