(* ===== verification/ShardingSpec.v ===== *)
(** * What plans and transactions over groups promise

    The clients of a sharding executor are kept apart as those of the other
    executors: the local transactions of a client's transaction, one per group,
    are its own.  A write outside of a transaction commits on one connection and
    returns it; one that fails leaves its transaction open for ever. *)
From Stdlib Require Import ZArith Lia List.
From stdpp Require Import base gmap list strings.
From S2P Require Import Prelude GoText Hints Encoding Layout Conn Packets PacketSpec GoTime DateTime Rows Stmt Collations Handshake Listener Topology Database Group Executors DatabaseSpec Isolation ExecutorsSpec PlanText Plans ShardingExecutor.

Local Open Scope Z_scope.

Section spec.
Context {B : Type} `{Backend B} `{GlobalTx B}.
Context (L : nat -> backend -> Prop).

Implicit Types e : executor B (G := shards).

(** The local transaction [t] of group [g] in the transaction of client [c]. *)
Definition childOf e (o : Z * string) (t : nat) : Prop :=
  exists x cs, localTransactionMap e !! o.1 = Some x /\
    complexTxs (group e) !! x = Some (mkComplexTx false (Some cs)) /\ cs !! o.2 = Some t.

Record isoS (held : gset backend) e : Prop := {
  so_world : isolatedW fst L held (childOf e) (world e);
  so_open : forall c x, localTransactionMap e !! c = Some x ->
    exists cs, complexTxs (group e) !! x = Some (mkComplexTx false (Some cs));
  so_inj : forall c1 c2 x, localTransactionMap e !! c1 = Some x -> localTransactionMap e !! c2 = Some x -> c1 = c2;
  so_next : forall x, (nextComplex (group e) <= x)%nat -> complexTxs (group e) !! x = None }.
Definition isolatedS e : Prop := exists held, isoS held e.
Definition keepsS {A} (m : SEM (B := B) A) : Prop := forall e, isolatedS e -> isolatedS (m e).2.

(** States with the same transactions of clients. *)
Definition sameOwners e e' : Prop :=
  localTransactionMap e' = localTransactionMap e /\ complexTxs (group e') = complexTxs (group e) /\
  nextComplex (group e') = nextComplex (group e).
Lemma sameOwners_refl e : sameOwners e e.
Proof. done. Qed.
Lemma sameOwners_trans e1 e2 e3 : sameOwners e1 e2 -> sameOwners e2 e3 -> sameOwners e1 e3.
Proof. intros (? & ? & ?) (? & ? & ?). split_and!; congruence. Qed.
Lemma sameOwners_child e e' o t : sameOwners e e' -> childOf e' o t <-> childOf e o t.
Proof. intros (E1 & E2 & _). unfold childOf. by rewrite E1, E2. Qed.

Lemma isoS_same held e e' :
  sameOwners e e' -> isoS held e -> isolatedW fst L held (childOf e) (world e') -> isoS held e'.
Proof.
  intros Hs [_ Ho Hi Hn] W. destruct Hs as (E1 & E2 & E3). split.
  - eapply isolatedW_sub; [done|]. intros o t. by apply sameOwners_child.
  - by rewrite E1, E2.
  - by rewrite E1.
  - by rewrite E2, E3.
Qed.

Lemma keepsShards_ret {A} (a : A) : keepsS (mret a).
Proof. by intros e. Qed.
Lemma keepsShards_bind {A C} (m : SEM A) (f : A -> SEM C) : keepsS m -> (forall a, keepsS (f a)) -> keepsS (m ≫= f).
Proof.
  intros Hm Hf e He. specialize (Hm e He). unfold mbind, EM_bind.
  destruct (m e) as [[a| |] e']; cbn [fst snd] in *; [by apply Hf | done | done].
Qed.

(** Operations that use free connections only. *)
Lemma keepsS_neutral {A} p c (m : DM A) : neutral p ∅ c m -> keepsS (inWorld m).
Proof.
  intros Hm e (held & He). unfold inWorld.
  destruct (Hm held (world e) (is_wf (so_world _ _ He))) as (W & T & _ & S & _); [set_solver|].
  destruct (m (world e)) as [r w']. cbn in *. exists held. eapply isoS_same; [|exact He|]; [done|].
  eapply isolatedW_sent; [apply He | done..|set_solver].
Qed.
Lemma keepsS_panic {A} : keepsS (A := A) (inWorld panic).
Proof. apply (keepsS_neutral true 0), neutral_panic. Qed.
Lemma keepsS_ended {A} (r : outcome A) : keepsS (inWorld (ended r)).
Proof. apply (keepsS_neutral false 0), neutral_ended. Qed.

Lemma keepsS_preFilter fs ctx : keepsS (doPreFilter fs ctx).
Proof.
  induction fs; cbn [doPreFilter]; [apply keepsShards_ret|]. apply keepsShards_bind.
  - apply (keepsS_neutral true 0), neutral_onPeer.
  - intros [|]; [apply keepsShards_ret | done].
Qed.
Lemma keepsS_postFilter fs ctx result err : keepsS (doPostFilter fs ctx result err).
Proof.
  induction fs; cbn [doPostFilter]; [apply keepsShards_ret|]. apply keepsShards_bind.
  - apply (keepsS_neutral true 0), neutral_onPeer.
  - intros [|]; [apply keepsShards_ret | done].
Qed.
Lemma keepsS_conclude conf ctx rep : keepsS (conclude conf ctx rep).
Proof.
  unfold conclude. destruct rep as [[result warn]|]; [case_match|];
    try (apply keepsShards_bind; [apply keepsS_postFilter | intros; apply keepsShards_ret]). apply keepsS_panic.
Qed.
Lemma keepsS_withFilters conf ctx body : keepsS body -> keepsS (withFilters conf ctx body).
Proof.
  intros Hb. unfold withFilters. apply keepsShards_bind; [apply keepsS_preFilter|]. intros [err|]; [apply keepsShards_ret|].
  intros e He. specialize (Hb e He). destruct (body e) as [[rep| |] e']; cbn [fst snd] in *.
  - by apply keepsS_conclude.
  - done.
  - pose proof (keepsS_conclude conf ctx (inl (None, 0)) e' Hb) as Hc.
    destruct (conclude conf ctx (inl (None, 0)) e') as [[| |] e'']; exact Hc.
Qed.

(** ** Calls on groups *)

(** What [onShard] does to the world and the owners. *)
Lemma onShard_run {A} g (m : DBGroup -> DM (B := B) (A * DBGroup)) e :
  sameOwners e (onShard g m e).2 /\
  ((onShard g m e).1 = Panics /\ world (onShard g m e).2 = world e \/
   exists gr, groups (group e) !! g = Some gr /\ world (onShard g m e).2 = (m gr (world e)).2 /\
     (onShard g m e).1 = match (m gr (world e)).1 with Returns x => Returns (fst x) | Waits => Waits | Panics => Panics end).
Proof.
  unfold onShard, getShards, mbind, EM_bind. destruct (groups (group e) !! g) as [gr|]; [|split; [done | by left]].
  unfold inWorld, setShards. destruct (m gr (world e)) as [[x| |] w'] eqn:E; cbn; (split; [done|]); right; exists gr; by rewrite E.
Qed.

Lemma keepsS_onShard {A} g (m : DBGroup -> DM (B := B) (A * DBGroup)) :
  (forall gr, neutral false ∅ 0 (m gr)) -> keepsS (onShard g m).
Proof.
  intros Hm e (held & He). destruct (onShard_run g m e) as (Hs & [[_ Hw]|(gr & _ & Hw & _)]).
  - exists held. eapply isoS_same; [done..|]. rewrite Hw. apply He.
  - exists held. eapply isoS_same; [done..|]. rewrite Hw.
    destruct (Hm gr held (world e) (is_wf (so_world _ _ He))) as (W & T & _ & S & _); [set_solver|].
    eapply isolatedW_sent; [apply He | done..|set_solver].
Qed.

Lemma neutral_onPicked r r' g ctx (m : string -> DM (B := B) reply) :
  (forall d, neutral false ∅ 0 (m d)) -> neutral false ∅ 0 (onPicked r r' g ctx m).
Proof.
  intros Hm. unfold onPicked. apply neutral_bind; [apply neutral_read|]. intros x.
  apply neutral_bind; [apply neutral_ended|]. intros [d|]; [|apply neutral_panic].
  apply neutral_bind; [apply Hm | intros; apply neutral_ret].
Qed.
Lemma neutral_Group_Query r r' g ctx q : neutral (B := B) false ∅ 0 (Group_Query r r' g ctx q).
Proof. apply neutral_onPicked. intros. apply neutral_DB_Query. Qed.
Lemma neutral_Group_PrepareQuery r r' g ctx q args : neutral (B := B) false ∅ 0 (Group_PrepareQuery r r' g ctx q args).
Proof. apply neutral_onPicked. intros. apply neutral_DB_ExecuteSql. Qed.

(** [Begin] of a group: a transaction was started on a free connection, or nothing
    happened to those there are. *)
Definition startedOr (held : gset backend) (c : Z) (r : outcome (nat * option queryResult + goError)) (w w' : World (B := B)) : Prop :=
  match r with
  | Returns (inl (t, _)) => exists k, (k ∉ held) /\ wf ({[k]} ∪ held) w' /\ txs w !! t = None /\
      txs w' = <[t := openTx k]> (txs w) /\ trace w' = trace w ++ [(k, c, Execute StartTransaction)]
  | _ => wf held w' /\ txs w' = txs w /\ sent held ∅ c w w'
  end.

Lemma Group_Begin_spec held gr ctx w :
  wf held w -> startedOr held (connectionOf ctx) (Group_Begin gr ctx w).1 w (Group_Begin gr ctx w).2.
Proof.
  intros W. unfold Group_Begin, firstMaster, read, mbind, DM_bind.
  destruct (getAvailableMasters gr w) as [|d ds]; cbn [fst snd].
  { split_and!; [done..|]. by apply sent_refl. }
  unfold Begin. destruct (XAStart d ctx _ w) as [r w'] eqn:EX.
  pose proof (XAStart_spec held w d ctx _ r w' W EX) as HX. clear EX.
  destruct r as [[[t result]|err]| |]; cbn [fst snd startedOr]; try done.
  destruct HX as (k & _ & ? & ? & ? & ? & ?). by exists k.
Qed.

Lemma shardBegin_spec g ctx held e :
  isoS held e -> sameOwners e (shardBegin g ctx e).2 /\
  startedOr held (connectionOf ctx) (shardBegin g ctx e).1 (world e) (world (shardBegin g ctx e).2).
Proof.
  intros He. unfold shardBegin.
  destruct (onShard_run g (fun gr => r ← Group_Begin gr ctx; mret (r, gr)) e) as (Hs & [[E Hw]|(gr & _ & Hw & E)]);
    (split; [done|]); rewrite E, Hw.
  - split_and!; [apply He | done | by apply sent_refl].
  - pose proof (Group_Begin_spec held gr ctx (world e) (is_wf (so_world _ _ He))) as HG.
    unfold mbind, DM_bind. destruct (Group_Begin gr ctx (world e)) as [[r| |] w']; exact HG.
Qed.

(** ** Statements in a local transaction *)

(** Only the connection of transaction [t] and free ones are used. *)
Definition onTx (c : Z) (t : nat) {A} (m : DM (B := B) A) : Prop := forall held w k,
  wf held w -> txs w !! t = Some (openTx k) ->
  wf held (m w).2 /\ txs (m w).2 = txs w /\ sent held {[k]} c w (m w).2.

Lemma onTx_still c t {A} (m : DM (B := B) A) : (forall w, (m w).2 = w) -> onTx c t m.
Proof. intros Hm held w k W _. rewrite Hm. split_and!; [done..|by apply sent_refl]. Qed.
Lemma onTx_ret c t {A} (a : A) : onTx c t (mret a).
Proof. by apply onTx_still. Qed.
Lemma onTx_ended c t {A} (r : outcome A) : onTx c t (ended r).
Proof. by apply onTx_still. Qed.
Lemma onTx_bind c t {A C} (m : DM A) (f : A -> DM C) : onTx c t m -> (forall a, onTx c t (f a)) -> onTx c t (m ≫= f).
Proof.
  intros Hm Hf held w k W E. destruct (Hm held w k W E) as (W1 & T1 & S1). unfold mbind, DM_bind.
  destruct (m w) as [[a| |] w1]; cbn [fst snd] in *; try done.
  destruct (Hf a held w1 k W1) as (W2 & T2 & S2); [by rewrite T1|].
  split_and!; [done | congruence | by eapply sent_trans].
Qed.
Lemma onTx_request t ctx r :
  onTx (connectionOf ctx) t ('(d, conn) ← txSource t; inflight d (filtered d ctx conn r)).
Proof.
  intros held w k W E.
  destruct (inTx_neutral t k w held ctx ('(d, conn) ← txSource t; inflight d (filtered d ctx conn r))
    (fun d conn => inflight d (filtered d ctx conn r))) as (? & ? & _ & ? & _); [done..|exact (inTx_run t k w (fun d conn => inflight d (filtered d ctx conn r)) E)| |done].
  apply neutral_inflight, neutral_filtered; [set_solver | done].
Qed.
Lemma onTx_runCommand cmd t ctx sql args : onTx (connectionOf ctx) t (runCommand cmd t ctx sql args).
Proof.
  unfold runCommand. do 2 (case_match; [apply onTx_bind; [apply onTx_request | intros; apply onTx_ret]|]).
  apply onTx_ret.
Qed.
Lemma onTx_writeTables parses gen cmd t ctx args tables acc :
  onTx (connectionOf ctx) t (writeTables parses gen cmd t ctx args tables acc).
Proof.
  revert acc. induction tables as [|tb tables IH]; intros acc; cbn [writeTables]; [apply onTx_ret|].
  apply onTx_bind; [apply onTx_ended|]. intros [sql|]; [|apply onTx_ret].
  case_match; [apply onTx_ret|]. apply onTx_bind; [apply onTx_runCommand|].
  intros [[x|]|]; [|apply onTx_ret | apply IH]. apply onTx_bind; [apply onTx_ended | done].
Qed.

Lemma inWorld_run {A} (m : DM (B := B) A) e : (inWorld m e).1 = (m (world e)).1 /\
  world (inWorld m e).2 = (m (world e)).2 /\ sameOwners e (inWorld m e).2.
Proof. unfold inWorld. by destruct (m (world e)). Qed.

Lemma isoS_onTx held e c t k {A} (m : DM (B := B) A) :
  isoS held e -> txs (world e) !! t = Some (openTx k) -> (forall o, childOf e o t -> o.1 = c) -> onTx c t m ->
  isoS held (inWorld m e).2 /\ txs (world (inWorld m e).2) = txs (world e) /\ sameOwners e (inWorld m e).2.
Proof.
  intros He Ht Ho Hm. destruct (inWorld_run m e) as (_ & Hw & Hs).
  destruct (Hm held (world e) k (is_wf (so_world _ _ He)) Ht) as (W & T & S). rewrite Hw. split_and!; [|done..].
  eapply isoS_same; [done..|]. rewrite Hw. eapply isolatedW_own; [apply He | done..].
Qed.

(** *** The local transaction of a group *)
Lemma children_insert e x c g t :
  localTransactionMap e !! c = Some x -> (forall c', localTransactionMap e !! c' = Some x -> c' = c) ->
  forall cs, complexTxs (group e) !! x = Some (mkComplexTx false (Some cs)) -> cs !! g = None ->
  forall e', localTransactionMap e' = localTransactionMap e ->
    complexTxs (group e') = <[x := mkComplexTx false (Some (<[g := t]> cs))]> (complexTxs (group e)) ->
  forall o t', childOf e' o t' <-> childOf e o t' \/ (o = (c, g) /\ t' = t).
Proof.
  intros Hc Hinj cs Hx Hg e' EL EX o t'. unfold childOf. rewrite EL, EX. split.
  - intros (x' & cs' & Hl & Hx' & Ht). destruct (decide (x' = x)) as [->|Hne].
    + rewrite lookup_insert_eq in Hx'. simplify_eq. destruct (decide (o.2 = g)) as [Eg|Hng].
      * rewrite Eg, lookup_insert_eq in Ht. simplify_eq. right. destruct o as [c' g']. cbn in *. by rewrite (Hinj c' Hl).
      * rewrite lookup_insert_ne in Ht by done. left. by exists x, cs.
    + rewrite lookup_insert_ne in Hx' by done. left. by exists x', cs'.
  - intros [(x' & cs' & Hl & Hx' & Ht)|[-> ->]].
    + destruct (decide (x' = x)) as [->|Hne].
      * simplify_eq. exists x, (<[g := t]> cs). rewrite lookup_insert_eq. split_and!; [done..|].
        rewrite lookup_insert_ne; [done|]. congruence.
      * exists x', cs'. by rewrite lookup_insert_ne.
    + exists x, (<[g := t]> cs). by rewrite !lookup_insert_eq.
Qed.

(** The client's local transaction of the group, begun if there is none. *)
Lemma Complex_Begin_spec x g ctx held e :
  isoS held e -> localTransactionMap e !! connectionOf ctx = Some x ->
  localTransactionMap (Complex_Begin x g ctx e).2 = localTransactionMap e /\
  (exists held', isoS held' (Complex_Begin x g ctx e).2) /\
  (forall t, (Complex_Begin x g ctx e).1 = Returns (inl t) -> childOf (Complex_Begin x g ctx e).2 (connectionOf ctx, g) t).
Proof.
  intros He Hc. destruct (so_open _ _ He _ _ Hc) as (cs & Hx).
  unfold Complex_Begin, getComplex, getShards, mbind, EM_bind. rewrite Hx.
  unfold mret, EM_ret, mbind, option_bind. cbn [children complexClosed]. destruct (cs !! g) as [t|] eqn:Eg.
  { split_and!; [done | by exists held |]. intros t' [= <-]. by exists x, cs. }
  destruct (shardBegin_spec g (WithMaster ctx) held e He) as (Hs & HB).
  destruct (shardBegin g (WithMaster ctx) e) as [r e']. cbn [fst snd] in *.
  destruct r as [[[t result]|err]| |]; cbn [fst snd startedOr] in *;
    try (split_and!; [apply Hs | | done]; destruct HB as (W & T & S); exists held;
         eapply isoS_same; [done..|]; eapply isolatedW_sent; [apply He | done..|set_solver]).
  destruct HB as (k & Hk & W & Hnew & T & R). pose proof Hs as (EL & EX & EN).
  unfold putComplex, setShards. cbn [fst snd complexClosed].
  set (e2 := set_group _ e').
  assert (Hch : forall o t', childOf e2 o t' <-> childOf e o t' \/ (o = (connectionOf ctx, g) /\ t' = t)).
  { eapply children_insert; [done | | done..|cbn; by rewrite EX]. intros c' Hc'. by eapply (so_inj _ _ He). }
  split_and!; [done | | intros t' [= <-]; apply Hch; by right].
  assert (Hno : forall o, ~ childOf e o t).
  { intros o Ho. destruct (is_clients (so_world _ _ He) o t Ho) as (k' & [E1 _]). congruence. }
  exists ({[k]} ∪ held). split.
  - change (world e2) with (world e').
    eapply isolatedW_start; [apply He | done..| |].
    + intros o t' [?|[-> ->]]%Hch; [by left | by right].
    + intros o1 o2 [H1|[-> _]]%Hch [H2|[-> _]]%Hch; try done; by destruct (Hno _ ltac:(eassumption)).
  - intros c' x'. change (localTransactionMap e2) with (localTransactionMap e'). rewrite EL. intros Hl.
    destruct (so_open _ _ He _ _ Hl) as (cs' & Hx'). cbn. rewrite EX. destruct (decide (x' = x)) as [->|Hne].
    + rewrite lookup_insert_eq. by eexists.
    + rewrite lookup_insert_ne by done. by eexists.
  - change (localTransactionMap e2) with (localTransactionMap e'). rewrite EL. apply He.
  - cbn. rewrite EX, EN. intros x' Hx'. rewrite lookup_insert_ne; [by apply He|].
    intros <-. by rewrite (so_next _ _ He x Hx') in Hx.
Qed.

(** ** Plans

    [keepsIn]: what a plan does for client [c], in the transaction [inTx] of the
    client or in none. *)
Definition keepsIn (c : Z) (inTx : option nat) {A} (m : SEM (B := B) A) : Prop := forall e,
  isolatedS e -> (forall x, inTx = Some x -> localTransactionMap e !! c = Some x) ->
  isolatedS (m e).2 /\ localTransactionMap (m e).2 = localTransactionMap e.

Lemma keepsIn_ret c i {A} (a : A) : keepsIn c i (mret a).
Proof. by intros e. Qed.
Lemma keepsIn_bind c i {A C} (m : SEM A) (f : A -> SEM C) :
  keepsIn c i m -> (forall a, keepsIn c i (f a)) -> keepsIn c i (m ≫= f).
Proof.
  intros Hm Hf e He Hi. destruct (Hm e He Hi) as (H1 & E1). unfold mbind, EM_bind.
  destruct (m e) as [[a| |] e']; cbn [fst snd] in *; try done.
  destruct (Hf a e' H1) as (H2 & E2); [by rewrite E1|]. split; [done | congruence].
Qed.
Lemma keepsIn_neutral c i {A} p c' (m : DM (B := B) A) : neutral p ∅ c' m -> keepsIn c i (inWorld m).
Proof. intros Hm e He _. split; [by eapply keepsS_neutral|]. apply (inWorld_run m e). Qed.
Lemma keepsIn_ended c i {A} (r : outcome A) : keepsIn c i (inWorld (ended r)).
Proof. apply (keepsIn_neutral c i false 0), neutral_ended. Qed.
Lemma keepsIn_panic c i {A} : keepsIn c i (inWorld (panic (A := A))).
Proof. apply (keepsIn_neutral c i true 0), neutral_panic. Qed.
Lemma keepsIn_onShard c i {A} g (m : DBGroup -> DM (B := B) (A * DBGroup)) :
  (forall gr, neutral false ∅ 0 (m gr)) -> keepsIn c i (onShard g m).
Proof. intros Hm e He _. split; [by apply keepsS_onShard|]. apply (onShard_run g m e). Qed.

(** In the local transaction of a group. *)
Lemma keepsIn_child ctx x g {A} (f : nat -> DM (B := B) A) (k : A -> SEM reply) :
  (forall t, onTx (connectionOf ctx) t (f t)) -> (forall a, keepsIn (connectionOf ctx) (Some x) (k a)) ->
  keepsIn (connectionOf ctx) (Some x) (t ← Complex_Begin x g ctx;
    match t with inr err => mret (inr err) | inl t => r ← inWorld (f t); k r end).
Proof.
  intros Hf Hk e (held & He) Hi. destruct (Complex_Begin_spec x g ctx held e He (Hi x eq_refl)) as (EL & (held' & He') & Ht).
  unfold mbind, EM_bind. destruct (Complex_Begin x g ctx e) as [[[t|err]| |] e']; cbn [fst snd] in *;
    try (split; [by eexists | done]).
  destruct (is_clients (so_world _ _ He') _ _ (Ht t eq_refl)) as (kk & [Hopen _]).
  destruct (isoS_onTx held' e' (connectionOf ctx) t kk (f t)) as (He2 & _ & (EL2 & _)); [done | done | | apply Hf |].
  { intros o Ho. by rewrite (is_inj (so_world _ _ He') _ _ _ Ho (Ht t eq_refl)). }
  destruct (inWorld (f t) e') as [[a| |] e2]; cbn [fst snd] in *;
    try (split; [by eexists | congruence]).
  destruct (Hk a e2) as (H3 & E3); [by eexists | rewrite EL2, EL; exact Hi | split; [done | by rewrite E3, EL2, EL]].
Qed.

Lemma keepsIn_onGroupOrTx r r' g sql args i cmd ctx :
  keepsIn (connectionOf ctx) i (onGroupOrTx (B := B) r r' g sql args i cmd ctx).
Proof.
  unfold onGroupOrTx. destruct i as [x|].
  - apply keepsIn_child; [intros; apply onTx_runCommand | intros; apply keepsIn_ret].
  - case_match; [|case_match; [|apply keepsIn_ret]]; apply keepsIn_onShard; intros;
      [apply neutral_Group_Query | apply neutral_Group_PrepareQuery].
Qed.
Lemma keepsIn_SinglePlan r r' g text args i cmd ctx :
  keepsIn (connectionOf ctx) i (SinglePlan_Execute (B := B) r r' g text args i cmd ctx).
Proof.
  unfold SinglePlan_Execute. apply keepsIn_bind; [apply keepsIn_ended|].
  intros [sql|]; [apply keepsIn_onGroupOrTx | apply keepsIn_ret].
Qed.
Lemma keepsIn_weaken c i {A} (m : SEM (B := B) A) : keepsIn c None m -> keepsIn c i m.
Proof. intros Hm e He _. by apply Hm. Qed.

(** *** The transaction of a write plan *)
Lemma isoS_started held e e' c t o :
  isoS held e -> sameOwners e e' -> startedOr held c (Returns (inl (t, o))) (world e) (world e') ->
  exists k, (k ∉ held) /\ isoS ({[k]} ∪ held) e' /\ txs (world e') !! t = Some (openTx k) /\
    (forall o, ~ childOf e' o t) /\ (forall k', ~ L t k') /\
    trace (world e') = trace (world e) ++ [(k, c, Execute StartTransaction)].
Proof.
  intros He Hs (k & Hk & W & Hnew & T & R). exists k.
  assert (Hno : forall o, ~ childOf e o t).
  { intros o' Ho. destruct (is_clients (so_world _ _ He) o' t Ho) as (k' & [E1 _]). congruence. }
  assert (HI : isolatedW fst L ({[k]} ∪ held) (childOf e) (world e')).
  { eapply isolatedW_start; [apply He | done..| by left |]. intros o1 o2 H1. by destruct (Hno o1). }
  split_and!; [done | | by rewrite T, lookup_insert_eq | | | done].
  - destruct He as [_ Ho Hi Hn]. destruct Hs as (E1 & E2 & E3). split.
    + eapply isolatedW_sub; [exact HI|]. intros o' t'. by apply sameOwners_child.
    + by rewrite E1, E2.
    + by rewrite E1.
    + by rewrite E2, E3.
  - intros o' Ho. apply (Hno o'). by apply (sameOwners_child e e').
  - intros k' [E1 _]%(is_leaked (so_world _ _ He)). congruence.
Qed.

(** Commit of a transaction that is nobody's. *)
Lemma isoS_committed held e ctx t k :
  isoS held e -> txs (world e) !! t = Some (openTx k) -> (forall o, ~ childOf e o t) -> (forall k', ~ L t k') ->
  exists r, (inWorld (Tx_Commit t ctx) e).1 = Returns r /\
    isoS (held ∖ {[k]}) (inWorld (Tx_Commit t ctx) e).2 /\ sameOwners e (inWorld (Tx_Commit t ctx) e).2 /\
    trace (world (inWorld (Tx_Commit t ctx) e).2) = trace (world e) ++ [(k, connectionOf ctx, Execute (bytes_of "COMMIT"))] /\
    returned k (world (inWorld (Tx_Commit t ctx) e).2) /\
    txs (world (inWorld (Tx_Commit t ctx) e).2) = <[t := endedTx]> (txs (world e)).
Proof.
  intros He Ht Hno HL.
  destruct (endWith_spec held (world e) t k ctx (bytes_of "COMMIT") (is_wf (so_world _ _ He)) Ht) as (r & w' & E & W & T & R & HB).
  assert (EC : inWorld (Tx_Commit t ctx) e = (Returns r, set_world w' e)).
  { unfold inWorld, Tx_Commit. by rewrite (guarded_run held t k), E by (exact (is_wf (so_world _ _ He)) || exact Ht). }
  rewrite EC. exists r. split_and!; try done. cbn [fst snd].
  assert (HI : isolatedW fst L (held ∖ {[k]}) (childOf e) w').
  { eapply isolatedW_end; [apply He | done..|]. intros o t' Ho. split; [done|]. intros ->. by destruct (Hno o). }
  destruct He as [_ Ho Hi Hn]. by split.
Qed.

Lemma keepsIn_WritePlan parses p hints i cmd ctx :
  keepsIn (connectionOf ctx) i (WritePlan_Execute (B := B) parses p hints i cmd ctx).
Proof.
  destruct i as [x|].
  { unfold WritePlan_Execute. apply keepsIn_child; [intros; apply onTx_writeTables|].
    intros [acc|]; [apply keepsIn_ended | apply keepsIn_ret]. }
  intros e (held & He) _. unfold WritePlan_Execute, mbind, EM_bind.
  destruct (shardBegin_spec (planGroup p) ctx held e He) as (Hs & HB).
  destruct (shardBegin (planGroup p) ctx e) as [r e1]. cbn [fst snd] in *.
  assert (Hfail : (forall t o, r <> Returns (inl (t, o))) -> isolatedS e1 /\ localTransactionMap e1 = localTransactionMap e).
  { intros Hr. split; [|apply Hs]. exists held. eapply isoS_same; [done..|].
    destruct r as [[[t o]|]| |]; [by destruct (Hr t o)|..]; destruct HB as (W & T & S);
      (eapply isolatedW_sent; [apply He | done..|set_solver]). }
  destruct r as [[[t o]|err]| |]; try (by apply Hfail). clear Hfail.
  destruct (isoS_started held e e1 _ t o He Hs HB) as (k & Hk & He1 & Ht & Hno & HL & _).
  destruct (isoS_onTx ({[k]} ∪ held) e1 (connectionOf ctx) t k
    (writeTables parses (planText p hints) cmd t ctx (planArgs p) (planTables p) (None, 0, 0))) as (He2 & T2 & Hs2);
    [done | done | by intros o' ?%Hno | apply onTx_writeTables |].
  pose proof (sameOwners_trans _ _ _ Hs Hs2) as Hs3. cbn [fst snd mret EM_ret].
  destruct (inWorld (writeTables _ _ _ _ _ _ _ _) e1) as [[[acc|]| |] e2]; cbn [fst snd] in *;
    try (split; [by eexists | apply Hs3]).
  destruct (isoS_committed _ e2 ctx t k He2) as (r & Hr & He4 & Hs4 & _); [by rewrite T2 | | done |].
  { intros o' Ho. apply (Hno o'). by apply (sameOwners_child e1 e2). }
  pose proof (sameOwners_trans _ _ _ Hs3 Hs4) as Hs5.
  destruct (inWorld (Tx_Commit t ctx) e2) as [r' e3]. cbn [fst snd] in *. subst r'.
  destruct r as [v|err]; [|split; [by eexists | apply Hs5]].
  destruct (keepsIn_ended (connectionOf ctx) None (writeResultOf acc) e3) as (H6 & E6); [by eexists | done |].
  split; [done|]. rewrite E6. apply Hs5.
Qed.

(** *** Plans over several databases *)
Lemma keepsIn_writeEach parses ps hints i cmd ctx a w :
  keepsIn (connectionOf ctx) i (writeEach (B := B) parses ps hints i cmd ctx a w).
Proof.
  revert a w. induction ps as [|p ps IH]; intros a w; cbn [writeEach]; [apply keepsIn_ret|].
  apply keepsIn_bind; [apply keepsIn_WritePlan|]. intros [[[r|] warn]|]; [apply IH | apply keepsIn_panic | apply keepsIn_ret].
Qed.
Lemma neutral_globalEnd c xid rep : neutral true ∅ c (globalEnd (B := B) xid rep).
Proof. unfold globalEnd. apply neutral_bind; [apply neutral_onPeer | intros; apply neutral_ret]. Qed.
Lemma keepsIn_MultiWrite parses verb table sh ps timeout i cmd ctx :
  keepsIn (connectionOf ctx) i (MultiWrite_Execute (B := B) parses verb table sh ps timeout i cmd ctx).
Proof.
  unfold MultiWrite_Execute. destruct i as [x|]; [apply keepsIn_writeEach|].
  apply keepsIn_bind; [apply keepsIn_ended|].
  intros [[?|]|]; [apply keepsIn_writeEach | destruct timeout; [|apply keepsIn_ret] | apply keepsIn_ret].
  apply keepsIn_bind; [apply (keepsIn_neutral _ _ true 0), neutral_onPeer|].
  intros [xid|]; [|apply keepsIn_ret]. intros e He Hi.
  destruct (keepsIn_writeEach parses ps [NewXIDHint xid] None cmd ctx 0 0 e He Hi) as (H1 & E1).
  destruct (writeEach _ _ _ _ _ _ _ _ e) as [o e1]. cbn [fst snd] in *.
  assert (HE : forall rep, isolatedS (inWorld (globalEnd xid rep) e1).2 /\
    localTransactionMap (inWorld (globalEnd xid rep) e1).2 = localTransactionMap e).
  { intros rep. rewrite <- E1. apply (keepsIn_neutral (connectionOf ctx) None true 0); [apply neutral_globalEnd | done | done]. }
  destruct o as [rep| |]; [|done | apply HE].
  specialize (HE rep). destruct (inWorld (globalEnd xid rep) e1) as [[| |] e2]; exact HE.
Qed.

Lemma keepsIn_queryAll r r' ps i cmd ctx : keepsIn (connectionOf ctx) i (queryAll (B := B) r r' ps i cmd ctx).
Proof.
  induction ps as [|[[g text] args] ps IH]; cbn [queryAll]; [apply keepsIn_ret|].
  apply keepsIn_bind; [apply keepsIn_SinglePlan|]. intros rep.
  apply keepsIn_bind; [apply IH | intros; apply keepsIn_ret].
Qed.
Lemma keepsIn_MultiQuery r r' ps merge i cmd ctx :
  keepsIn (connectionOf ctx) i (MultiQuery_Execute (B := B) r r' ps merge i cmd ctx).
Proof.
  unfold MultiQuery_Execute. apply keepsIn_bind; [apply keepsIn_queryAll|]. intros reps.
  generalize (@nil (string * (option queryResult * Z))).
  induction reps as [|[g [x|err]] reps IH]; intros acc; [apply keepsIn_ended | apply IH | apply keepsIn_ret].
Qed.
Lemma keepsIn_MultiDirect r r' ps i cmd ctx last :
  keepsIn (connectionOf ctx) i (MultiDirect_Execute (B := B) r r' ps cmd ctx last).
Proof.
  revert last. induction ps as [|[[g text] args] ps IH]; intros last; cbn [MultiDirect_Execute]; [apply keepsIn_ret|].
  apply keepsIn_bind; [apply keepsIn_weaken, keepsIn_SinglePlan | done].
Qed.

(** ** Ending a transaction over groups *)

(** The goroutines that end the children of a client's transaction: each ends
    with one statement on its connection. *)
Lemma endEach_spec c ctx sql m ts : connectionOf ctx = c ->
  (forall t held w k, wf held w -> txs w !! t = Some (openTx k) -> m t w = endWith t ctx sql k.1 k w) ->
  NoDup ts -> forall held (owner : Z * string -> nat -> Prop) w,
  isolatedW (B := B) fst L held owner w -> (forall t, t ∈ ts -> exists o, owner o t /\ o.1 = c) ->
  exists r held', (endEach m ts w).1 = Returns r /\
    isolatedW fst L held' (fun o t => owner o t /\ t ∉ ts) (endEach m ts w).2 /\
    (forall t, t ∈ ts -> txs (endEach m ts w).2 !! t = Some endedTx) /\
    (forall t, t ∉ ts -> txs (endEach m ts w).2 !! t = txs w !! t).
Proof.
  intros Hc Hm. induction 1 as [|t ts Hnin Hnd IH]; intros held owner w Hi Ho; cbn [endEach].
  { exists None, held. split_and!; [done| |by intros t ?%elem_of_nil|done]. eapply isolatedW_sub; [done|]. by intros o t []. }
  destruct (Ho t) as (o & Hot & Hoc); [set_solver|]. destruct (is_clients Hi o t Hot) as (k & Hk).
  destruct (endWith_spec held w t k ctx sql (is_wf Hi) (ct_open _ _ _ _ Hk)) as (r1 & w1 & E & W & T & R & _).
  unfold mbind, DM_bind. rewrite (Hm t held w k (is_wf Hi) (ct_open _ _ _ _ Hk)), E.
  destruct (IH (held ∖ {[k]}) (fun o t' => owner o t' /\ t' <> t) w1) as (r2 & held' & Hr & Hi' & He1 & He2).
  { eapply isolatedW_end; [exact Hi | apply Hk | done | done | done | | done]. intros k' [_ HL]%(is_leaked Hi). by apply (HL o). }
  { intros t' Ht'. destruct (Ho t') as (o' & ? & ?); [set_solver|]. exists o'. split_and!; [done | | done]. by intros ->. }
  destruct (endEach m ts w1) as [o2 w2]. cbn [fst snd] in *. subst o2. eexists _, held'. split_and!; [done|..].
  - eapply isolatedW_sub; [exact Hi'|]. intros o' t' [Ho' Hn]. split_and!; [done|..]; set_solver.
  - intros t' [->|Ht']%elem_of_cons; [|by apply He1]. rewrite He2, T by done. apply lookup_insert_eq.
  - intros t' Hn. rewrite He2, T by set_solver. apply lookup_insert_ne. set_solver.
Qed.

Lemma children_list held e c x cs :
  isoS held e -> localTransactionMap e !! c = Some x -> complexTxs (group e) !! x = Some (mkComplexTx false (Some cs)) ->
  NoDup (map_to_list cs).*2 /\ forall t, t ∈ (map_to_list cs).*2 <-> exists g, childOf e (c, g) t.
Proof.
  intros He Hc Hx.
  assert (Hin : forall g t, (g, t) ∈ map_to_list cs <-> childOf e (c, g) t).
  { intros g t. rewrite elem_of_map_to_list. split; [by exists x, cs|].
    intros (x' & cs' & Hl & Hx' & Ht). cbn in *. congruence. }
  split.
  - apply NoDup_fmap_2_strong; [|apply NoDup_map_to_list]. intros [g1 t1] [g2 t2] H1%Hin H2%Hin Ht. cbn in Ht. subst t2.
    pose proof (is_inj (so_world _ _ He) _ _ _ H1 H2). congruence.
  - intros t. rewrite list_elem_of_fmap. split.
    + intros ([g t'] & -> & Hg%Hin). by exists g.
    + intros (g & Hg%Hin). by exists (g, t).
Qed.

Lemma Complex_end_spec order x m ctx sql c held e :
  (forall l, order l ≡ₚ l) -> connectionOf ctx = c ->
  (forall t held w k, wf held w -> txs w !! t = Some (openTx k) -> m t w = endWith t ctx sql k.1 k w) ->
  isoS held e -> localTransactionMap e !! c = Some x ->
  exists r e', Complex_end (B := B) order x m e = (Returns r, e') /\ localTransactionMap e' = localTransactionMap e /\
    isolatedS (set_transactions (delete c (localTransactionMap e')) e') /\
    (forall g t, childOf e (c, g) t -> txs (world e') !! t = Some endedTx).
Proof.
  intros Hperm Hctx Hm He Hc. destruct (so_open _ _ He _ _ Hc) as (cs & Hx).
  destruct (children_list held e c x cs He Hc Hx) as (Hnd & Hin).
  set (ts := order (map_to_list cs).*2).
  assert (Hts : forall t, t ∈ ts <-> exists g, childOf e (c, g) t) by (intros t; unfold ts; by rewrite Hperm).
  destruct (endEach_spec c ctx sql m ts Hctx Hm) with (held := held) (owner := childOf e) (w := world e)
    as (r & held' & Hr & Hi & He1 & _); [unfold ts; by rewrite Hperm | apply He | |].
  { intros t (g & Hg)%Hts. by exists (c, g). }
  unfold Complex_end, getComplex, getShards, mbind, EM_bind. rewrite Hx. unfold mret, EM_ret. cbn [children complexClosed].
  fold ts. unfold inWorld. destruct (endEach m ts (world e)) as [o w1]. cbn [fst snd] in *. subst o.
  eexists _, _. split; [reflexivity|]. split; [done|]. split.
  - exists held'. unfold set_transactions, set_group, set_world. cbn.
    split; cbn.
    + eapply isolatedW_sub; [exact Hi|]. intros [c' g] t (x' & cs' & Hl & Hx' & Ht). cbn in *.
      apply lookup_delete_Some in Hl as [Hne Hl].
      assert (x' <> x) by (intros ->; apply Hne; by eapply (so_inj _ _ He)).
      rewrite lookup_insert_ne in Hx' by done.
      assert (Hch : childOf e (c', g) t) by (by exists x', cs'). split; [done|].
      intros (g' & Hg)%Hts. pose proof (is_inj (so_world _ _ He) _ _ _ Hch Hg). congruence.
    + intros c' x' [Hne Hl]%lookup_delete_Some. destruct (so_open _ _ He _ _ Hl) as (cs' & Hx').
      exists cs'. rewrite lookup_insert_ne; [done|]. intros <-. apply Hne. by eapply (so_inj _ _ He).
    + intros c1 c2 x' [_ H1]%lookup_delete_Some [_ H2]%lookup_delete_Some. by eapply (so_inj _ _ He).
    + intros x' Hx'. rewrite lookup_insert_ne; [by apply He|]. intros <-. by rewrite (so_next _ _ He x Hx') in Hx.
  - intros g t Hg. apply He1, Hts. by exists g.
Qed.

Lemma keepsS_ending order m ctx sql c :
  (forall l, order l ≡ₚ l) -> connectionOf ctx = c ->
  (forall t held w k, wf held w -> txs w !! t = Some (openTx k) -> m t w = endWith t ctx sql k.1 k w) ->
  keepsS (inTransaction c (fun x => deletingAfter c (r ← Complex_end (B := B) order x m; mret (withoutWarnings r)))).
Proof.
  intros Hperm Hctx Hm e (held & He). unfold inTransaction, mbind, EM_bind. cbn.
  destruct (localTransactionMap e !! c) as [x|] eqn:Hc; [|by exists held].
  destruct (Complex_end_spec order x m ctx sql c held e) as (r & e' & E & EL & Hi & _); [done..|].
  unfold deletingAfter. rewrite E. exact Hi.
Qed.

Lemma keepsS_beginsComplex c : keepsS (beginsComplex (B := B) c).
Proof.
  intros e (held & He). exists held. set (n := nextComplex (group e)).
  assert (E : (beginsComplex c e).2 = mkExecutor (world e) (<[c := n]> (localTransactionMap e))
    (mkShards (groups (group e)) (<[n := mkComplexTx false (Some ∅)]> (complexTxs (group e))) (S n))) by (by destruct e).
  rewrite E. clear E. subst n.
  assert (Hn : complexTxs (group e) !! nextComplex (group e) = None) by (by apply He).
  assert (Hne : forall c' x, localTransactionMap e !! c' = Some x -> x <> nextComplex (group e)).
  { intros c' x Hl ->. destruct (so_open _ _ He _ _ Hl) as (cs & Hx). congruence. }
  split; cbn.
  - eapply isolatedW_sub; [apply He|]. intros [c' g] t (x & cs & Hl & Hx & Ht).
    cbn [fst snd localTransactionMap group complexTxs] in *. destruct (decide (c' = c)) as [->|Hc].
    + rewrite lookup_insert_eq in Hl. injection Hl as <-. rewrite lookup_insert_eq in Hx. by injection Hx as <-.
    + rewrite lookup_insert_ne in Hl by done. rewrite lookup_insert_ne in Hx by (symmetry; by eapply Hne). by exists x, cs.
  - intros c' x Hl. destruct (decide (c' = c)) as [->|Hc].
    + rewrite lookup_insert_eq in Hl. injection Hl as <-. rewrite lookup_insert_eq. by eexists.
    + rewrite lookup_insert_ne in Hl by done. rewrite lookup_insert_ne by (symmetry; by eapply Hne). by apply He in Hl.
  - intros c1 c2 x. destruct (decide (c1 = c)) as [->|H1], (decide (c2 = c)) as [->|H2]; try done;
      rewrite ?lookup_insert_eq, ?lookup_insert_ne by done; intros E1 E2; simplify_eq; try (by destruct (Hne _ _ ltac:(eassumption))).
    by eapply (so_inj _ _ He).
  - intros x Hx. rewrite lookup_insert_ne by lia. apply He. lia.
Qed.
End spec.

(** ** Runs of the sharding executor *)
Inductive shardCommand :=
| SQuery (c : Z) (node : shardNode) (sql : bytes)
| SExecute (c : Z) (node : shardNode) (stmt : Stmt)
| SClose (c : Z)
| SPing (d : string).

Section runs.
Context {B : Type} `{Backend B} `{GlobalTx B}.
Context (parses : bytes -> option goError) (conf : executorConf (B := B)).
Context (executorNames : list string) (transactionTimeout : Z).
Implicit Types e : executor B (G := shards).

(** What the environment chooses: the picks of groups, the order of goroutines
    and the plans, which depend on the statement. *)
Record choices := mkChoices {
  pick1 : Z; pick2 : Z; endOrder : list nat -> list nat; queryOrderOf : list string -> list string;
  planOf : shardNode -> list goValue -> shardPlan + goError;
  endOrder_perm : forall l, endOrder l ≡ₚ l }.

Definition SHD_after (o : choices) (cmd : shardCommand) e : executor B :=
  match cmd with
  | SQuery c node sql => (SHD_ExecutorComQuery parses (pick1 o) (pick2 o) (endOrder o) (queryOrderOf o)
      executorNames transactionTimeout (planOf o) conf (clientContext c) node sql e).2
  | SExecute c node stmt => (SHD_ExecutorComStmtExecute parses (pick1 o) (pick2 o)
      transactionTimeout (planOf o) conf (clientContext c) node stmt e).2
  | SClose c => (SHD_ConnectionClose (endOrder o) c e).2
  | SPing d => (inWorld (DB_ping d) e).2
  end.

Inductive SHD_reachable e0 : executor B -> Prop :=
| SHD_start : SHD_reachable e0 e0
| SHD_step e o cmd : SHD_reachable e0 e -> SHD_reachable e0 (SHD_after o cmd e).

Context (L : nat -> backend -> Prop).

Lemma keepsIn_executePlan r r' p i cmd ctx :
  keepsIn L (connectionOf ctx) i (executePlan parses r r' transactionTimeout p i cmd ctx).
Proof.
  destruct p; cbn [executePlan]; auto using keepsIn_SinglePlan, keepsIn_MultiQuery, keepsIn_WritePlan, keepsIn_MultiWrite,
    keepsIn_MultiDirect.
  unfold DirectPlan_Execute. apply keepsIn_weaken, keepsIn_SinglePlan.
Qed.
Lemma keepsIn_planned r r' opt node args i cmd ctx :
  keepsIn L (connectionOf ctx) i (planned parses r r' transactionTimeout opt node args i cmd ctx).
Proof. unfold planned. destruct (opt node args); [apply keepsIn_executePlan | apply keepsIn_ret]. Qed.
Lemma keepsS_in c {A} (m : SEM (B := B) A) : keepsIn L c None m -> keepsS L m.
Proof. intros Hm e He. by apply Hm. Qed.
Lemma keepsS_inComplexOr r r' opt node args cmd ctx :
  keepsS L (inComplexOr parses r r' transactionTimeout opt node args cmd ctx).
Proof.
  intros e He. unfold inComplexOr, mbind, EM_bind. cbn. apply keepsIn_planned; [done|]. by intros x ->.
Qed.
Lemma keepsS_firstGroup r r' ctx sql : keepsS L (firstGroup r r' executorNames ctx sql).
Proof.
  unfold firstGroup. destruct executorNames; [apply keepsS_panic|]. apply keepsS_onShard. intros. apply neutral_Group_Query.
Qed.
Lemma keepsS_setEach q gs ctx sql : keepsS L (setEach q gs ctx sql).
Proof.
  induction gs as [|g gs IH]; cbn [setEach]; [apply keepsShards_ret|]. apply keepsShards_bind; [|done].
  apply keepsS_onShard. intros gr. apply neutral_bind; [|intros; apply neutral_ret]. apply neutral_spawn.
  unfold Group_QueryAll. apply neutral_bind; [apply neutral_queryEach | intros; apply neutral_ret].
Qed.

Lemma keepsS_query r r' order q opt ctx node sql : (forall l, order l ≡ₚ l) ->
  keepsS L (SHD_ExecutorComQuery parses r r' order q executorNames transactionTimeout opt conf ctx node sql).
Proof.
  intros Hperm. apply keepsS_withFilters. unfold shdSwitch. destruct node as [vs| | | | |sp|[|]|];
    try (apply keepsS_firstGroup); try (apply keepsS_inComplexOr).
  - apply keepsShards_bind; [|intros; apply keepsShards_ret].
    destruct (shouldStartTransaction vs); [apply keepsS_beginsComplex | apply keepsS_setEach].
  - apply (keepsS_in (connectionOf ctx)), keepsIn_planned.
  - apply keepsShards_bind; [apply keepsS_beginsComplex | intros; apply keepsShards_ret].
  - eapply keepsS_ending; [done..|]. intros. by eapply guarded_run.
  - eapply keepsS_ending; [done..|]. intros. by eapply guarded_run.
Qed.

Lemma SHD_close_spec o held c x e :
  isoS L held e -> localTransactionMap e !! c = Some x ->
  exists e', SHD_ConnectionClose (endOrder o) c e = (Returns tt, e') /\ isolatedS L e' /\
    localTransactionMap e' = delete c (localTransactionMap e) /\
    (forall g t, childOf e (c, g) t -> txs (world e') !! t = Some endedTx).
Proof.
  intros He Hc.
  destruct (Complex_end_spec L (endOrder o) x (fun t => Tx_Rollback t (clientContext c) []) (clientContext c)
    (bytes_of "ROLLBACK") c held e) as (r & e' & E & EL & Hi & Hend);
    [apply endOrder_perm | done | intros; by eapply guarded_run | done..|].
  eexists. split; [unfold SHD_ConnectionClose, mbind, EM_bind; cbn; rewrite Hc; unfold Complex_Rollback; rewrite E; reflexivity|].
  split_and!; [done | cbn; by rewrite EL | done].
Qed.

Lemma SHD_after_isolated o cmd e : isolatedS L e -> isolatedS L (SHD_after o cmd e).
Proof.
  intros He. destruct cmd; cbn [SHD_after].
  - apply keepsS_query; [apply endOrder_perm | done].
  - apply keepsS_withFilters; [apply keepsS_inComplexOr | done].
  - destruct He as (held & He). destruct (localTransactionMap e !! c) as [x|] eqn:Hc.
    + destruct (SHD_close_spec o held c x e He Hc) as (e' & E & Hi & _). by rewrite E.
    + unfold SHD_ConnectionClose, mbind, EM_bind. cbn. rewrite Hc. by exists held.
  - by apply (keepsS_neutral L false 0), He; apply neutral_ping.
Qed.
Lemma SHD_reachable_isolated e0 e : isolatedS L e0 -> SHD_reachable e0 e -> isolatedS L e.
Proof. intros H1. induction 1; [done | by apply SHD_after_isolated]. Qed.
End runs.
