(* ===== verification/PlanSpec.v ===== *)
(** * Transactions and writes over groups

    Clients of a sharding executor are kept apart, group by group; a write plan
    outside of a transaction is one transaction on one connection; a write that
    fails there leaves its transaction open for ever.  Witnesses run the executor
    on a database that accepts everything. *)
From Stdlib Require Import ZArith Lia List.
From stdpp Require Import base gmap list strings.
From S2P Require Import Prelude GoText Hints Encoding Layout Conn Packets PacketSpec GoTime DateTime Rows Stmt Collations Handshake Listener Topology Database Group Executors DatabaseSpec Isolation ExecutorsSpec GroupSpec ExecutorsMem PlanText Plans ShardingExecutor ShardingSpec.

Local Open Scope Z_scope.

(** ** What is sent *)
Section logged.
Context {B : Type} `{Backend B}.

(** If [m] returns, what it returns and the requests it has sent satisfy [Q]. *)
Definition logged {A} (Q : A -> list (backend * Z * request) -> Prop) (m : DM (B := B) A) : Prop := forall w,
  match (m w).1 with Returns a => exists es, trace (m w).2 = trace w ++ es /\ Q a es | _ => True end.

Lemma logged_silent {A} (Q : A -> list (backend * Z * request) -> Prop) (m : DM A) :
  (forall w, trace (m w).2 = trace w) -> (forall a, Q a []) -> logged Q m.
Proof. intros Hm HQ w. specialize (Hm w). destruct (m w) as [[a| |] w']; cbn in *; [|done..]. exists []. by rewrite app_nil_r. Qed.
Lemma logged_ret {A} (Q : A -> list (backend * Z * request) -> Prop) (a : A) : Q a [] -> logged Q (mret a).
Proof. intros HQ w. exists []. by rewrite app_nil_r. Qed.
Lemma logged_bind {A C} (Q1 : A -> list (backend * Z * request) -> Prop) (Q2 : C -> list (backend * Z * request) -> Prop)
    (m : DM A) (f : A -> DM C) :
  logged Q1 m -> (forall a es, Q1 a es -> logged (fun b es' => Q2 b (es ++ es')) (f a)) -> logged Q2 (m ≫= f).
Proof.
  intros Hm Hf w. specialize (Hm w). unfold mbind, DM_bind. destruct (m w) as [[a| |] w1]; cbn [fst snd] in *; [|done..].
  destruct Hm as (es & E & HQ). specialize (Hf a es HQ w1). destruct (f a w1) as [[b| |] w2]; cbn [fst snd] in *; [|done..].
  destruct Hf as (es' & E' & HQ'). exists (es ++ es'). by rewrite E', E, app_assoc.
Qed.
Lemma logged_weaken {A} (Q Q' : A -> list (backend * Z * request) -> Prop) (m : DM A) :
  logged Q m -> (forall a es, Q a es -> Q' a es) -> logged Q' m.
Proof. intros Hm HQ w. specialize (Hm w). destruct (m w) as [[a| |] w']; cbn in *; [|done..]. naive_solver. Qed.

Definition silentQ {A} : A -> list (backend * Z * request) -> Prop := fun _ es => es = [].
Lemma logged_onPeer {A} (f : B -> A * B) : logged silentQ (onPeer f).
Proof. apply logged_silent; [|done]. intros w. unfold onPeer. by case_match. Qed.
Lemma logged_getDB d : logged silentQ (getDB d).
Proof. apply logged_silent; [|done]. intros w. unfold getDB. by case_match. Qed.
Lemma logged_ended {A} (r : outcome A) : logged silentQ (ended r).
Proof. by apply logged_silent. Qed.
Lemma logged_preFilter fs ctx k : logged silentQ (doConnectionPreFilter fs ctx k).
Proof.
  induction fs; cbn [doConnectionPreFilter]; [by apply logged_ret|]. eapply logged_bind; [apply logged_onPeer|].
  intros [|] es ->; [by apply logged_ret | exact IHfs].
Qed.
Lemma logged_postFilter fs ctx res k : logged silentQ (doConnectionPostFilter fs ctx res k).
Proof.
  induction fs; cbn [doConnectionPostFilter]; [by apply logged_ret|]. eapply logged_bind; [apply logged_onPeer|].
  intros [|] es ->; [by apply logged_ret | exact IHfs].
Qed.

(** An answer means that the request was sent, once. *)
Definition answered (e : backend * Z * request) (rep : reply) (es : list (backend * Z * request)) : Prop :=
  match rep with inl _ => es = [e] | inr _ => True end.

Lemma logged_filtered d ctx k r : logged (answered (k, connectionOf ctx, r)) (filtered d ctx k r).
Proof.
  unfold filtered. eapply logged_bind; [apply logged_getDB|]. intros db es ->.
  eapply logged_bind; [apply logged_preFilter|]. intros [|] es ->; [by apply logged_ret|].
  eapply (logged_bind (fun _ es => es = [(k, connectionOf ctx, r)])).
  { unfold sendRequest. eapply (logged_bind (fun _ es => es = [(k, connectionOf ctx, r)])).
    - intros w. by eexists.
    - intros _ es ->. eapply logged_weaken; [apply logged_onPeer|]. by intros ? ? ->. }
  intros [[result warn]|] es ->; [|by apply logged_ret]. eapply logged_bind; [apply logged_postFilter|].
  intros [|] es ->; by apply logged_ret.
Qed.
Lemma addInflight_trace n d w : trace (addInflight (B := B) n d w).2 = trace w.
Proof. unfold addInflight, getDB, putDB, modify, mbind, DM_bind. by destruct (dbs w !! d). Qed.
Lemma logged_inflight {A} (Q : A -> list (backend * Z * request) -> Prop) d m : logged Q m -> logged Q (inflight d m).
Proof.
  intros Hm w. unfold inflight, mbind, DM_bind. pose proof (addInflight_trace 1 d w) as E1.
  destruct (addInflight 1 d w) as [[[]| |] w1]; cbn [fst snd] in *; [|done..]. unfold deferring. specialize (Hm w1).
  destruct (m w1) as [[y| |] w2]; cbn [fst snd] in *; [|done|by destruct (addInflight (-1) d w2) as [[| |] ?]].
  pose proof (addInflight_trace (-1) d w2) as E3. destruct (addInflight (-1) d w2) as [[| |] w3]; cbn [fst snd] in *; [|done..].
  rewrite E3, <- E1. exact Hm.
Qed.
End logged.

(** ** What the databases see *)
Section honest.
Context {B : Type} `{Backend B} `{GlobalTx B}.
Implicit Types w : World (B := B).

(** No data source has filters on its connections. *)
Definition nofilters w : Prop :=
  map_Forall (fun _ db => connectionPreFilters db = [] /\ connectionPostFilters db = []) (dbs w).

(** The databases go from [b] to [b'] by the requests [es], in this order, by new
    connections, and by nothing else. *)
Inductive evolves : B -> list (backend * Z * request) -> B -> Prop :=
| ev_nil b : evolves b [] b
| ev_dial d b es b' : evolves (dial d b).2 es b' -> evolves b es b'
| ev_request k ctx r b es b' : evolves (perform k ctx r b).2 es b' -> evolves b ((k, connectionOf ctx, r) :: es) b'.

Lemma evolves_app b1 es1 b2 es2 b3 : evolves b1 es1 b2 -> evolves b2 es2 b3 -> evolves b1 (es1 ++ es2) b3.
Proof.
  induction 1 as [b|d b es b' H1 IH|k ctx r b es b' H1 IH]; intros H2; [done | by apply (ev_dial d), IH | by apply ev_request, IH].
Qed.

(** Between [w] and [w'] the databases have seen what the trace has more. *)
Definition sawTrace w w' : Prop :=
  exists es, trace w' = trace w ++ es /\ evolves (peer w) es (peer w') /\ nofilters w'.

Lemma sawTrace_trans w1 w2 w3 : sawTrace w1 w2 -> sawTrace w2 w3 -> sawTrace w1 w3.
Proof.
  intros (es1 & E1 & V1 & _) (es2 & E2 & V2 & F2). exists (es1 ++ es2).
  split_and!; [by rewrite E2, E1, app_assoc | by eapply evolves_app | done].
Qed.
Lemma sawTrace_still w w' : trace w' = trace w -> peer w' = peer w -> nofilters w' -> sawTrace w w'.
Proof. intros Et Ep F. exists []. rewrite app_nil_r, Ep. split_and!; [done | apply ev_nil | done]. Qed.

(** [m] sends to the databases what it writes in the trace. *)
Definition honest {A} (m : DM (B := B) A) : Prop := forall w, nofilters w -> sawTrace w (m w).2.
Definition honestE {A} (m : SEM (B := B) A) : Prop := forall e, nofilters (world e) -> sawTrace (world e) (world (m e).2).

Lemma sawTrace_filters w w' : sawTrace w w' -> nofilters w'.
Proof. by intros (? & _ & _ & ?). Qed.

Lemma honest_bind {A C} (m : DM A) (f : A -> DM C) : honest m -> (forall a, honest (f a)) -> honest (m ≫= f).
Proof.
  intros Hm Hf w F. specialize (Hm w F). unfold mbind, DM_bind. destruct (m w) as [[a| |] w1]; [|done..].
  eapply sawTrace_trans; [done|]. by apply Hf, (sawTrace_filters w).
Qed.
Lemma honest_deferring {A} d (m : DM A) : honest d -> honest m -> honest (deferring d m).
Proof.
  intros Hd Hm w F. specialize (Hm w F). unfold deferring. destruct (m w) as [r w1]. cbn in Hm.
  specialize (Hd w1 (sawTrace_filters _ _ Hm)). pose proof (sawTrace_trans _ _ _ Hm Hd) as Ht.
  destruct r; [|done|]; by destruct (d w1) as [[] w2].
Qed.
Lemma honest_still {A} (m : DM A) :
  (forall w, dbs (m w).2 = dbs w /\ trace (m w).2 = trace w /\ peer (m w).2 = peer w) -> honest m.
Proof. intros Hm w F. destruct (Hm w) as (Ed & Et & Ep). apply sawTrace_still; [done..|]. unfold nofilters. by rewrite Ed. Qed.
Lemma honest_ret {A} (a : A) : honest (mret a).
Proof. by apply honest_still. Qed.
Lemma honest_panic {A} : honest (panic (A := A)).
Proof. by apply honest_still. Qed.
Lemma honest_wait {A} : honest (wait (A := A)).
Proof. by apply honest_still. Qed.
Lemma honest_ended {A} (r : outcome A) : honest (ended r).
Proof. by apply honest_still. Qed.
Lemma honest_read {A} (f : World -> A) : honest (read f).
Proof. by apply honest_still. Qed.
Lemma honest_getDB d : honest (getDB d).
Proof. apply honest_still. intros w. unfold getDB. by case_match. Qed.
Lemma honest_getTx t : honest (getTx t).
Proof. apply honest_still. intros w. unfold getTx. by case_match. Qed.

Lemma honest_sendRequest k ctx r : honest (sendRequest k ctx r).
Proof.
  intros w F. unfold sendRequest, logRequest, modify, onPeer, mbind, DM_bind. cbn.
  destruct (perform k ctx r (peer w)) as [rep b] eqn:E. exists [(k, connectionOf ctx, r)]. cbn. split_and!; [done| |done].
  apply ev_request. rewrite E. apply ev_nil.
Qed.
Lemma honest_dial d : honest (onPeer (dial d)).
Proof.
  intros w F. unfold onPeer. destruct (dial d (peer w)) as [r b] eqn:E. exists []. cbn. rewrite app_nil_r. split_and!; [done| |done].
  apply (ev_dial d). rewrite E. apply ev_nil.
Qed.

(** Storing a data source with the filters it had. *)
Lemma honest_update {A} d (f : DB -> DM A) :
  (forall db, connectionPreFilters db = [] /\ connectionPostFilters db = [] -> honest (f db)) -> honest (db ← getDB d; f db).
Proof.
  intros Hf w F. unfold getDB, mbind, DM_bind. destruct (dbs w !! d) as [db|] eqn:Ed; [|by apply sawTrace_still].
  apply Hf; [exact (F d db Ed) | done].
Qed.
Lemma honest_putDB d db : connectionPreFilters db = [] /\ connectionPostFilters db = [] -> honest (putDB d db).
Proof. intros Hdb w F. apply sawTrace_still; [done..|]. by apply map_Forall_insert_2. Qed.

Create HintDb honest.
Hint Resolve honest_ret honest_panic honest_wait honest_ended honest_read honest_getDB honest_getTx honest_sendRequest honest_dial
  honest_putDB : honest.
(** Along the program: binds, choices, and the operations of the database [honest]. *)
Ltac honestly := repeat first
  [ solve [eauto with honest]
  | apply honest_update; intros
  | apply honest_bind; [|intros]
  | case_match ].

Lemma honest_poolGet d : honest (poolGet d).
Proof. unfold poolGet. honestly. by apply honest_still. Qed.
Lemma honest_poolPut d k : honest (poolPut d k).
Proof. unfold poolPut. honestly. Qed.
Lemma honest_newTx d k : honest (newTx d k).
Proof. unfold newTx. honestly. by apply honest_still. Qed.
Lemma honest_Tx_Close t : honest (Tx_Close t).
Proof. by apply honest_still. Qed.
Lemma honest_inflight {A} d (m : DM A) : honest m -> honest (inflight d m).
Proof. intros Hm. unfold inflight, addInflight. apply honest_bind; [honestly|]. intros _. apply honest_deferring; [honestly | done]. Qed.
Hint Resolve honest_poolGet honest_poolPut honest_newTx honest_Tx_Close : honest.

Lemma honest_filtered d ctx k r : honest (filtered d ctx k r).
Proof. unfold filtered. apply honest_update. intros db [-> ->]. cbn [doConnectionPreFilter doConnectionPostFilter]. honestly. Qed.
Lemma honest_txSource t : honest (txSource t).
Proof. unfold txSource. honestly. Qed.
Hint Resolve honest_filtered honest_txSource honest_inflight : honest.

Lemma honest_Group_Begin g ctx : honest (Group_Begin g ctx).
Proof. unfold Group_Begin, firstMaster, Begin, XAStart. honestly. Qed.
Lemma honest_runCommand cmd t ctx sql args : honest (runCommand cmd t ctx sql args).
Proof. unfold runCommand, Tx_Query, Tx_ExecuteSql. honestly. Qed.
Lemma honest_Tx_Commit t ctx : honest (Tx_Commit t ctx).
Proof. unfold Tx_Commit, guarded, endWith, executeTx. honestly. Qed.
Hint Resolve honest_Group_Begin honest_runCommand honest_Tx_Commit : honest.
Lemma honest_writeTables parses gen cmd t ctx args tables acc : honest (writeTables parses gen cmd t ctx args tables acc).
Proof. revert acc. induction tables; intros acc; cbn [writeTables]; honestly. Qed.

Lemma honestE_bind {A C} (m : SEM A) (f : A -> SEM C) : honestE m -> (forall a, honestE (f a)) -> honestE (m ≫= f).
Proof.
  intros Hm Hf e F. specialize (Hm e F). unfold mbind, EM_bind. destruct (m e) as [[a| |] e1]; [|done..].
  eapply sawTrace_trans; [done|]. by apply Hf, (sawTrace_filters (world e)).
Qed.
Lemma honestE_still {A} (m : SEM A) : (forall e, world (m e).2 = world e) -> honestE m.
Proof. intros Hm e F. rewrite Hm. by apply sawTrace_still. Qed.
Lemma honestE_inWorld {A} (m : DM A) : honest m -> honestE (inWorld m).
Proof. intros Hm e F. unfold inWorld. specialize (Hm (world e) F). by destruct (m (world e)). Qed.

Lemma honestE_shardBegin g ctx : honestE (shardBegin g ctx).
Proof.
  unfold shardBegin, onShard. apply honestE_bind; [by apply honestE_still|]. intros gs. case_match; [|apply honestE_inWorld; honestly].
  apply honestE_bind; [apply honestE_inWorld; honestly|]. intros x. apply honestE_bind; [by apply honestE_still|]. by intros; apply honestE_still.
Qed.

(** A write plan outside of a transaction talks to the databases only in the trace. *)
Lemma honestE_WritePlan parses p hints cmd ctx : honestE (WritePlan_Execute parses p hints None cmd ctx).
Proof.
  unfold WritePlan_Execute. apply honestE_bind.
  { apply honestE_bind; [apply honestE_shardBegin|]. intros; by apply honestE_still. }
  intros [t|]; [|by apply honestE_still]. apply honestE_bind; [apply honestE_inWorld, honest_writeTables|].
  intros [acc|]; [|by apply honestE_still]. apply honestE_bind; [apply honestE_inWorld; honestly|].
  intros [|]; [apply honestE_inWorld; honestly | by apply honestE_still].
Qed.
End honest.

(** The request of a command. *)
Definition commandRequest (cmd : Z) (sql : bytes) (args : list goValue) : request :=
  if cmd =? ComQuery then Execute sql else PrepareArgs sql args.

Section writes.
Context {B : Type} `{Backend B} `{GlobalTx B}.
Context (parses : bytes -> option goError).

Lemma runCommand_sends cmd t k ctx sql args held w x :
  cmd = ComQuery \/ cmd = ComStmtExecute -> wf held w -> txs w !! t = Some (openTx k) ->
  (runCommand (B := B) cmd t ctx sql args w).1 = Returns (Some (inl x)) ->
  trace (runCommand (B := B) cmd t ctx sql args w).2 = trace w ++ [(k, connectionOf ctx, commandRequest cmd sql args)].
Proof.
  intros Hcmd W Ht. unfold runCommand, commandRequest.
  assert (HR : forall r, (('(d, conn) ← txSource t; inflight d (filtered d ctx conn r)) ≫= (fun rep : reply => mret (Some rep))) w
    = (inflight k.1 (filtered k.1 ctx k r) ≫= (fun rep : reply => mret (Some rep))) w).
  { intros r. unfold mbind at 1 3, DM_bind at 1 3.
    by rewrite (inTx_run t k w (fun d conn => inflight d (filtered d ctx conn r)) Ht). }
  assert (HL : forall r, ((inflight k.1 (filtered k.1 ctx k r) ≫= (fun rep : reply => mret (Some rep))) w).1 = Returns (Some (inl x)) ->
    trace ((inflight k.1 (filtered k.1 ctx k r) ≫= (fun rep : reply => mret (Some rep))) w).2 = trace w ++ [(k, connectionOf ctx, r)]).
  { intros r. pose proof (logged_inflight _ k.1 _ (logged_filtered k.1 ctx k r) w) as HF. unfold mbind, DM_bind.
    destruct (inflight k.1 (filtered k.1 ctx k r) w) as [[rep| |] w']; cbn in *; [|done..].
    intros [= ->]. destruct HF as (es & E & HF). cbn in HF. by subst es. }
  destruct (cmd =? ComQuery) eqn:E1.
  - unfold Tx_Query. rewrite HR. apply HL.
  - destruct (cmd =? ComStmtExecute) eqn:E2; [unfold Tx_ExecuteSql; rewrite HR; apply HL|].
    apply Z.eqb_neq in E1, E2. by destruct Hcmd.
Qed.

Lemma runCommand_replies cmd t ctx sql args w :
  cmd = ComQuery \/ cmd = ComStmtExecute -> (runCommand (B := B) cmd t ctx sql args w).1 <> Returns None.
Proof.
  intros Hcmd. unfold runCommand. destruct (cmd =? ComQuery) eqn:E1.
  - unfold mbind, DM_bind. destruct (Tx_Query t ctx sql w) as [[| |] w']; by intros [=].
  - destruct (cmd =? ComStmtExecute) eqn:E2; [|apply Z.eqb_neq in E1, E2; by destruct Hcmd].
    unfold mbind, DM_bind. destruct (Tx_ExecuteSql t ctx sql args w) as [[| |] w']; by intros [=].
Qed.

(** The tables of a write that succeeds: every text was generated and accepted by
    the parser, and was sent once, in the order of the tables. *)
Lemma writeTables_sends gen cmd t k ctx args held tables acc w acc' :
  cmd = ComQuery \/ cmd = ComStmtExecute -> wf held w -> txs w !! t = Some (openTx k) ->
  (writeTables (B := B) parses gen cmd t ctx args tables acc w).1 = Returns (inl acc') ->
  exists sqls, Forall2 (fun tb sql => gen tb = Ok sql /\ parses (bytes_of sql) = None) tables sqls /\
    trace (writeTables (B := B) parses gen cmd t ctx args tables acc w).2
    = trace w ++ map (fun sql => (k, connectionOf ctx, commandRequest cmd (bytes_of sql) args)) sqls.
Proof.
  intros Hcmd. revert acc w. induction tables as [|tb tables IH]; intros acc w W Ht; cbn [writeTables].
  { intros _. exists []. cbn. by rewrite app_nil_r. }
  unfold mbind, DM_bind, ended. destruct (gen tb) as [sql|e|] eqn:Eg; cbn [asGoError]; [|done..].
  destruct (parses (bytes_of sql)) eqn:Ep; [done|].
  pose proof (onTx_runCommand cmd t ctx (bytes_of sql) args held w k W Ht) as (W1 & T1 & _).
  pose proof (runCommand_sends cmd t k ctx (bytes_of sql) args held w) as HS.
  destruct (runCommand cmd t ctx (bytes_of sql) args w) as [[[[x|]|]| |] w1] eqn:ER; cbn [fst snd] in *; try done.
  2: { exfalso. by apply (runCommand_replies cmd t ctx (bytes_of sql) args w Hcmd); rewrite ER. }
  specialize (HS x Hcmd W Ht eq_refl).
  destruct (addResult acc x) as [acc1| |]; [|done..]. intros HR.
  destruct (IH acc1 w1 W1 ltac:(by rewrite T1) HR) as (sqls & F & E). exists (sql :: sqls). split; [by constructor|].
  rewrite E, HS, <- app_assoc. done.
Qed.

(** What is in the trace, with connection filters or without. *)
Lemma write_plan_traced L p hints cmd ctx held e r warn :
  isoS L held e -> cmd = ComQuery \/ cmd = ComStmtExecute ->
  (WritePlan_Execute (B := B) parses p hints None cmd ctx e).1 = Returns (inl (r, warn)) ->
  let e' := (WritePlan_Execute (B := B) parses p hints None cmd ctx e).2 in
  exists k sqls, (k ∉ held) /\
    Forall2 (fun tb sql => planText p hints tb = Ok sql) (planTables p) sqls /\
    trace (world e') = trace (world e)
      ++ (k, connectionOf ctx, Execute StartTransaction)
      :: map (fun sql => (k, connectionOf ctx, commandRequest cmd (bytes_of sql) (planArgs p))) sqls
      ++ [(k, connectionOf ctx, Execute (bytes_of "COMMIT"))] /\
    returned k (world e') /\
    (forall t tx, txs (world e) !! t = Some tx -> txs (world e') !! t = Some tx).
Proof.
  intros He Hcmd. unfold WritePlan_Execute, mbind, EM_bind.
  destruct (shardBegin_spec L (planGroup p) ctx held e He) as (Hs & HB).
  destruct (shardBegin (planGroup p) ctx e) as [r1 e1]. cbn [fst snd] in *.
  destruct r1 as [[[t o]|err]| |]; try done. cbn [mret EM_ret].
  destruct (isoS_started L held e e1 _ t o He Hs HB) as (k & Hk & He1 & Ht & Hno & HL & R1).
  destruct HB as (k1 & _ & _ & Hnew & T1 & _).
  set (m := writeTables parses (planText p hints) cmd t ctx (planArgs p) (planTables p) (None, 0, 0)).
  destruct (isoS_onTx L ({[k]} ∪ held) e1 (connectionOf ctx) t k m) as (He2 & T2 & Hs2);
    [done | done | by intros o' ?%Hno | apply onTx_writeTables |].
  pose proof (writeTables_sends (planText p hints) cmd t k ctx (planArgs p) ({[k]} ∪ held) (planTables p) (None, 0, 0) (world e1)) as HS.
  destruct (inWorld_run m e1) as (Er & Ew & _). fold m in HS. rewrite <- Er, <- Ew in HS. clear Er Ew.
  destruct (inWorld m e1) as [[[acc|]| |] e2]; cbn [fst snd] in *; try done.
  destruct (HS acc Hcmd (is_wf (so_world _ _ _ He1)) Ht eq_refl) as (sqls & F & R2).
  destruct (isoS_committed L _ e2 ctx t k He2) as (rc & Hr & He4 & Hs4 & R4 & HB4 & T4); [by rewrite T2 | | done |].
  { intros o' Ho. apply (Hno o'). by apply (sameOwners_child e1 e2). }
  destruct (inWorld (Tx_Commit t ctx) e2) as [r' e3]. cbn [fst snd] in *. subst r'.
  destruct rc as [v|err]; [|done]. unfold inWorld, ended. cbn [fst snd]. intros _. exists k, sqls. split_and!.
  - done.
  - eapply Forall2_impl; [exact F|]. by intros ? ? [? _].
  - cbn. rewrite R4, R2, R1, <- !app_assoc. done.
  - exact HB4.
  - intros t' tx Htx. cbn. rewrite T4, T2. rewrite lookup_insert_ne by congruence.
    rewrite T1, lookup_insert_ne by congruence. done.
Qed.

(** C19: A write outside of a transaction is one, on databases without connection
    filters (those of [nofilters]; a filter such as the one of distributed
    transactions sends requests of its own on the connection).  When [UpdatePlan]
    or [DeletePlan] is executed outside of a transaction, for COM_QUERY or
    COM_STMT_EXECUTE, and returns a result, there is one connection, taken by
    nobody, on which were sent, in this order: START TRANSACTION, the statement of
    each table, COMMIT.  This is what the databases saw ([evolves]: they went from
    their state before to their state after by these requests, one after the
    other, and by the opening of connections, and by nothing else).  The
    connection is back in its pool, and no other transaction was touched. *)
Theorem write_plan_commits L p hints cmd ctx held e r warn :
  isoS L held e -> nofilters (world e) -> cmd = ComQuery \/ cmd = ComStmtExecute ->
  (WritePlan_Execute (B := B) parses p hints None cmd ctx e).1 = Returns (inl (r, warn)) ->
  let e' := (WritePlan_Execute (B := B) parses p hints None cmd ctx e).2 in
  exists k sqls, (k ∉ held) /\
    Forall2 (fun tb sql => planText p hints tb = Ok sql) (planTables p) sqls /\
    let sends := (k, connectionOf ctx, Execute StartTransaction)
      :: map (fun sql => (k, connectionOf ctx, commandRequest cmd (bytes_of sql) (planArgs p))) sqls
      ++ [(k, connectionOf ctx, Execute (bytes_of "COMMIT"))] in
    trace (world e') = trace (world e) ++ sends /\
    evolves (peer (world e)) sends (peer (world e')) /\
    returned k (world e') /\
    (forall t tx, txs (world e) !! t = Some tx -> txs (world e') !! t = Some tx).
Proof.
  intros He F Hcmd Hr. destruct (write_plan_traced L p hints cmd ctx held e r warn He Hcmd Hr) as (k & sqls & Hk & Hs & Et & Hret & Htx).
  destruct (honestE_WritePlan parses p hints cmd ctx e F) as (es & Et' & Hev & _). rewrite Et in Et'. apply app_inv_head in Et' as <-.
  by exists k, sqls.
Qed.
End writes.

(** ** Runs *)
Section runs.
Context {B : Type} `{Backend B} `{GlobalTx B}.
Context (parses : bytes -> option goError) (conf : executorConf (B := B)).
Context (executorNames : list string) (transactionTimeout : Z).
Implicit Types e : executor B (G := shards).

Lemma fresh_isoS w gs : freshWorld (B := B) w -> isoS noLeaks ∅ (mkExecutor w ∅ (mkShards gs ∅ 0)).
Proof.
  intros Hw. destruct (fresh_isolatedIn w tt Hw) as [Hl W _ _].
  assert (Hno : forall o t, ~ childOf (mkExecutor w ∅ (mkShards gs ∅ 0)) o t).
  { intros o t (x & cs & Hl' & _). cbn [localTransactionMap] in Hl'. by rewrite lookup_empty in Hl'. }
  split; [split; [done | done | by intros o t ?%Hno | by intros o1 o2 t ?%Hno] | ..]; cbn; intros; by rewrite ?lookup_empty in *.
Qed.

Lemma fresh_isolatedS w gs : freshWorld (B := B) w -> isolatedS noLeaks (mkExecutor w ∅ (mkShards gs ∅ 0)).
Proof. intros Hw. exists ∅. by apply fresh_isoS. Qed.

(** C18: The clients of a sharding executor are kept apart.  Whatever clients do, in
    any order, with whatever plans and picks: the local transaction of a client
    in a group is open on a connection on which, since it was started, only
    requests of this client were sent; the connection is in no pool, and no other
    client has it, nor has the client in another group. *)
Theorem sharding_isolated w0 gs e c g t :
  freshWorld w0 ->
  SHD_reachable parses conf executorNames transactionTimeout (mkExecutor w0 ∅ (mkShards gs ∅ 0)) e ->
  childOf e (c, g) t ->
  exists k, txs (world e) !! t = Some (openTx k) /\ owned c k (trace (world e)) /\
    (forall d db, dbs (world e) !! d = Some db -> k ∉ idle (pool db)) /\
    (forall c' g' t', childOf e (c', g') t' -> txs (world e) !! t' = Some (openTx k) -> c' = c /\ g' = g).
Proof.
  intros H1 Hr Hch.
  destruct (SHD_reachable_isolated _ _ _ _ _ _ _ (fresh_isolatedS w0 gs H1) Hr) as (held & He).
  destruct (is_clients (so_world _ _ _ He) _ _ Hch) as (k & Hk).
  pose proof (clientTx_held _ _ _ _ _ (is_wf (so_world _ _ _ He)) Hk) as Hin.
  exists k. split_and!; [apply Hk | apply Hk | |].
  - intros d db Hd Hidle. pose proof (po_idle _ _ _ _ (wf_pools _ _ (is_wf (so_world _ _ _ He)) d db Hd)) as Hf.
    rewrite List.Forall_forall in Hf. apply list_elem_of_In in Hidle. by destruct (Hf k Hidle) as (_ & _ & ?).
  - intros c' g' t' Hch' Ht'.
    assert (t' = t) as -> by (eapply (wf_inj _ _ (is_wf (so_world _ _ _ He))); [exact Ht' | apply Hk]).
    pose proof (is_inj (so_world _ _ _ He) _ _ _ Hch Hch'). by simplify_eq.
Qed.

(** A client of a sharding executor that goes away: its local transactions in all
    groups have ended, and it has no transaction any more. *)
Theorem sharding_close_ends w0 gs e o c x :
  freshWorld w0 ->
  SHD_reachable parses conf executorNames transactionTimeout (mkExecutor w0 ∅ (mkShards gs ∅ 0)) e ->
  localTransactionMap e !! c = Some x ->
  exists e', SHD_ConnectionClose (endOrder o) c e = (Returns tt, e') /\
    localTransactionMap e' = delete c (localTransactionMap e) /\
    (forall g t, childOf e (c, g) t -> txs (world e') !! t = Some endedTx).
Proof.
  intros H1 Hr Hc.
  destruct (SHD_reachable_isolated _ _ _ _ _ _ _ (fresh_isolatedS w0 gs H1) Hr) as (held & He).
  destruct (SHD_close_spec noLeaks o held c x e He Hc) as (e' & E & _ & ? & ?). by exists e'.
Qed.

(** A transaction nobody refers to, as a leak. *)
Lemma isoS_leak held e t k :
  isoS noLeaks held e -> txs (world e) !! t = Some (openTx k) -> (forall o, ~ childOf e o t) ->
  isoS (fun t' k' => t' = t /\ k' = k) held e.
Proof. intros [[Hl W Hc Hi] Ho Hinj Hn] Ht Hno. split; [split; [by intros t' k' [-> ->] | done..] | done..]. Qed.

(** A write that fails leaks.  When the statement of a write plan fails outside of
    a transaction, the plan returns the error and the transaction it began stays
    open: whatever clients do later, it is never ended, no client refers to it and
    its connection is in no pool. *)
Theorem failed_write_leaks w0 gs e p cmd ctx t o e1 err w2 :
  freshWorld w0 ->
  SHD_reachable parses conf executorNames transactionTimeout (mkExecutor w0 ∅ (mkShards gs ∅ 0)) e ->
  shardBegin (planGroup p) ctx e = (Returns (inl (t, o)), e1) ->
  writeTables parses (planText p []) cmd t ctx (planArgs p) (planTables p) (None, 0, 0) (world e1) = (Returns (inr err), w2) ->
  let run := WritePlan_Execute parses p [] None cmd ctx e in
  run.1 = Returns (inr err) /\
  exists k, forall e', SHD_reachable parses conf executorNames transactionTimeout run.2 e' ->
    txs (world e') !! t = Some (openTx k) /\ (forall c g, ~ childOf e' (c, g) t) /\
    (forall d db, dbs (world e') !! d = Some db -> k ∉ idle (pool db)).
Proof.
  intros H1 Hr EB EW run.
  destruct (SHD_reachable_isolated _ _ _ _ _ _ _ (fresh_isolatedS w0 gs H1) Hr) as (held & He).
  destruct (shardBegin_spec noLeaks (planGroup p) ctx held e He) as (Hs & HB). rewrite EB in Hs, HB. cbn [fst snd] in *.
  destruct (isoS_started noLeaks held e e1 _ t o He Hs HB) as (k & Hk & He1 & Ht & Hno & _).
  destruct (isoS_onTx noLeaks _ e1 (connectionOf ctx) t k
    (writeTables parses (planText p []) cmd t ctx (planArgs p) (planTables p) (None, 0, 0)) He1 Ht) as (He2 & T2 & Hs2);
    [by intros o' ?%Hno | apply onTx_writeTables |].
  assert (ER : run = (Returns (inr err), set_world w2 e1)).
  { unfold run, WritePlan_Execute, mbind, EM_bind. rewrite EB. cbn [mret EM_ret]. unfold inWorld. by rewrite EW. }
  unfold inWorld in He2, T2, Hs2. rewrite EW in He2, T2, Hs2. cbn [fst snd] in *. rewrite ER. split; [done|].
  exists k. intros e' Hr'.
  assert (HL : isolatedS (fun t' k' => t' = t /\ k' = k) (set_world w2 e1)).
  { eexists. apply isoS_leak; [exact He2 | by rewrite T2 |]. intros o' Ho. apply (Hno o'). by apply (sameOwners_child e1 (set_world w2 e1)). }
  destruct (SHD_reachable_isolated _ _ _ _ _ _ _ HL Hr') as (held' & He').
  destruct (is_leaked (so_world _ _ _ He') t k) as [E1 E2]; [done|]. split_and!; [done | by intros; apply E2 |].
  pose proof (is_wf (so_world _ _ _ He')) as W'.
  intros d db Hd Hidle. destruct (wf_txs _ _ W' _ _ E1) as [[=]|(k' & ->%openTx_inj & Hin)].
  pose proof (po_idle _ _ _ _ (wf_pools _ _ W' d db Hd)) as Hf. rewrite List.Forall_forall in Hf.
  apply list_elem_of_In in Hidle. by destruct (Hf k' Hidle) as (_ & _ & ?).
Qed.

(** A panic while writing commits: when a write over several databases panics, the
    deferred function of the plan sees no error and commits the global
    transaction. *)
Lemma panicking_write_commits verb table ps timeout cmd ctx e xid b e2 :
  globalBegin (verb +:+ "_" +:+ table)%string timeout (peer (world e)) = (inl xid, b) ->
  writeEach parses ps [NewXIDHint xid] None cmd ctx 0 0 (set_world (set_peer b (world e)) e) = (Panics, e2) ->
  (MultiWrite_Execute parses verb table [] ps (Some timeout) None cmd ctx e).1 = Panics /\
  peer (world (MultiWrite_Execute parses verb table [] ps (Some timeout) None cmd ctx e).2)
    = snd (globalCommit xid (peer (world e2))).
Proof.
  intros EB EW.
  assert (ER : MultiWrite_Execute parses verb table [] ps (Some timeout) None cmd ctx e
    = (Panics, (inWorld (globalEnd xid (inl (None, 0))) e2).2)).
  { assert (EH : inWorld (ended (asGoError (HasXIDHint []))) e = (Returns (inl None), e)) by (by destruct e).
    unfold MultiWrite_Execute, mbind, EM_bind. rewrite EH.
    assert (EP : inWorld (onPeer (globalBegin (verb +:+ "_" +:+ table)%string timeout)) e
      = (Returns (inl xid), set_world (set_peer b (world e)) e)) by (unfold inWorld, onPeer; by rewrite EB).
    by rewrite EP, EW. }
  rewrite ER. split; [done|]. unfold inWorld, globalEnd, mbind, DM_bind, onPeer. cbn [fst snd].
  by destruct (globalCommit xid (peer (world e2))).
Qed.
End runs.

(** ** Concrete runs *)
#[export] Instance noCoordinator : GlobalTx unit := {
  globalBegin _ _ b := (inl "xid"%string, b); globalCommit _ b := (None, b); globalRollback _ b := (None, b) }.

Definition sampleShards : shards :=
  mkShards (<[ "g1"%string := mkGroup "g1" ["m1"%string] ["s1"%string] 0 0 0 ]> {[ "g2"%string := mkGroup "g2" ["m2"%string] [] 0 0 0 ]}) ∅ 0.
Definition samplePlan : writePlan :=
  mkWritePlan "g1" ["t_1"; "t_2"]%string (fun _ tb => Ok ("DELETE FROM " +:+ tb)%string) [].
Definition parsesAll : bytes -> option goError := fun _ => None.
Definition sampleChoices : choices :=
  mkChoices 0 0 (fun l => l) (fun l => l) (fun _ _ => inl (SingleWritePlan samplePlan)) (fun l => reflexivity l).
Definition shardsIdle : executor unit := mkExecutor threeDBs ∅ sampleShards.
Definition shardStep (cmd : shardCommand) (e : executor unit) : executor unit :=
  SHD_after parsesAll sampleConf ["g1"; "g2"]%string 60000 sampleChoices cmd e.
Definition shardsBegun : executor unit := shardStep (SQuery 7 ShardBegin []) shardsIdle.
Definition shardsWritten : executor unit := shardStep (SQuery 7 ShardOther []) shardsBegun.

Lemma shardsWritten_reachable :
  SHD_reachable parsesAll sampleConf ["g1"; "g2"]%string 60000 shardsIdle shardsWritten.
Proof. apply SHD_step, SHD_step, SHD_start. Qed.
Lemma shardsWritten_child : childOf shardsWritten (7, "g1"%string) 0%nat.
Proof. exists 0%nat, {[ "g1"%string := 0%nat ]}. split_and!; by vm_compute. Qed.

Lemma sharding_isolated_witness :
  exists k, txs (world shardsWritten) !! 0%nat = Some (openTx k) /\ owned 7 k (trace (world shardsWritten)) /\
    (forall d db, dbs (world shardsWritten) !! d = Some db -> k ∉ idle (pool db)) /\
    (forall c' g' t', childOf shardsWritten (c', g') t' -> txs (world shardsWritten) !! t' = Some (openTx k) ->
      c' = 7 /\ g' = "g1"%string).
Proof.
  apply (sharding_isolated parsesAll sampleConf ["g1"; "g2"]%string 60000 threeDBs (groups sampleShards)).
  - apply threeDBs_fresh.
  - apply shardsWritten_reachable.
  - apply shardsWritten_child.
Defined.

Lemma sharding_close_ends_witness :
  exists e', SHD_ConnectionClose (endOrder sampleChoices) 7 shardsWritten = (Returns tt, e') /\
    localTransactionMap e' = delete 7 (localTransactionMap shardsWritten) /\
    (forall g t, childOf shardsWritten (7, g) t -> txs (world e') !! t = Some endedTx).
Proof.
  apply (sharding_close_ends parsesAll sampleConf ["g1"; "g2"]%string 60000 threeDBs (groups sampleShards) shardsWritten sampleChoices 7 0%nat).
  - apply threeDBs_fresh.
  - apply shardsWritten_reachable.
  - reflexivity.
Defined.

Lemma write_plan_commits_witness :
  let e' := (WritePlan_Execute parsesAll samplePlan [] None ComQuery (clientContext 8) shardsIdle).2 in
  exists k sqls, (k ∉ (∅ : gset backend)) /\
    Forall2 (fun tb sql => planText samplePlan [] tb = Ok sql) (planTables samplePlan) sqls /\
    let sends := (k, connectionOf (clientContext 8), Execute StartTransaction)
      :: map (fun sql => (k, connectionOf (clientContext 8), commandRequest ComQuery (bytes_of sql) (planArgs samplePlan))) sqls
      ++ [(k, connectionOf (clientContext 8), Execute (bytes_of "COMMIT"))] in
    trace (world e') = trace (world shardsIdle) ++ sends /\
    evolves (peer (world shardsIdle)) sends (peer (world e')) /\
    returned k (world e') /\
    (forall t tx, txs (world shardsIdle) !! t = Some tx -> txs (world e') !! t = Some tx).
Proof.
  apply (write_plan_commits parsesAll noLeaks samplePlan [] ComQuery (clientContext 8) ∅ shardsIdle (Some emptyResult) 0).
  - apply (fresh_isoS threeDBs (groups sampleShards)), threeDBs_fresh.
  - apply map_Forall_to_list. repeat constructor.
  - by left.
  - vm_compute. reflexivity.
Defined.

(** A database that refuses everything but the start of a transaction. *)
#[export] Instance refusing : Backend Z := {
  dial _ b := (None, b);
  perform _ _ r b :=
    match r with
    | Execute sql => if bool_decide (sql = StartTransaction) then (inl (Some emptyResult, 0), b) else (inr (errorText "refused"), b)
    | _ => (inr (errorText "refused"), b)
    end;
  fieldsOf _ _ _ b := (inl [], b);
  textOf := SqlText }.
#[export] Instance noCoordinator' : GlobalTx Z := {
  globalBegin _ _ b := (inl "xid"%string, b); globalCommit _ b := (None, b); globalRollback _ b := (None, b) }.
Definition refusingDB : World (B := Z) :=
  mkWorld {[ "m1"%string := set_weights 1 1 (NewDB "m1" "" 3 (samplePool 2)) ]} ∅ 0 0 0 [].
Definition refusingIdle : executor Z := mkExecutor refusingDB ∅ sampleShards.
Lemma refusingDB_fresh : freshWorld refusingDB.
Proof. split_and!; [done..|]. apply map_Forall_singleton. exists 2, 2. reflexivity. Qed.

Lemma failed_write_leaks_witness :
  let run := WritePlan_Execute parsesAll samplePlan [] None ComQuery (clientContext 8) refusingIdle in
  run.1 = Returns (inr (errorText "refused")) /\
  exists k, forall e', SHD_reachable parsesAll (mkExecutorConf [] [] "") ["g1"]%string 60000 run.2 e' ->
    txs (world e') !! 0%nat = Some (openTx k) /\ (forall c g, ~ childOf e' (c, g) 0%nat) /\
    (forall d db, dbs (world e') !! d = Some db -> k ∉ idle (pool db)).
Proof.
  set (began := shardBegin "g1" (clientContext 8) refusingIdle).
  set (wrote := writeTables parsesAll (planText samplePlan []) ComQuery 0 (clientContext 8) [] ["t_1"; "t_2"]%string (None, 0, 0) (world began.2)).
  apply (failed_write_leaks parsesAll (mkExecutorConf [] [] "") ["g1"]%string 60000 refusingDB (groups sampleShards) refusingIdle
    samplePlan ComQuery (clientContext 8) 0%nat (Some emptyResult) began.2 (errorText "refused") wrote.2).
  - apply refusingDB_fresh.
  - apply SHD_start.
  - vm_compute. reflexivity.
  - vm_compute. reflexivity.
Defined.
