(* ===== verification/SqlText.v ===== *)
(** * SQL text: reserved words ([pkg/misc/keyword.go]) and the parameter lists
    of [pkg/misc/sql.go]

    The statements the proxy sends on its own account are assembled from
    strings.  Identifiers that are reserved words are quoted; lists of
    parameters are rendered with separators. *)
From Stdlib Require Import ZArith Lia List Ascii String.
From stdpp Require Import base list strings.
From S2P Require Import Prelude GoText Encoding GoTime DateTime Rows.

Local Open Scope Z_scope.

(** ** Reserved words *)
Definition MySQLKeyword : list string :=
  ["ACCESSIBLE"; "ADD"; "ALL"; "ALTER"; "ANALYZE"; "AND"; "ARRAY"; "AS"; "ASC"; "ASENSITIVE";
   "BEFORE"; "BETWEEN"; "BIGINT"; "BINARY"; "BLOB"; "BOTH"; "BY"; "CALL"; "CASCADE"; "CASE"; "CHANGE";
   "CHAR"; "CHARACTER"; "CHECK"; "COLLATE"; "COLUMN"; "CONDITION"; "CONSTRAINT"; "CONTINUE";
   "CONVERT"; "CREATE"; "CROSS"; "CUBE"; "CUME_DIST"; "CURRENT_DATE"; "CURRENT_TIME";
   "CURRENT_TIMESTAMP"; "CURRENT_USER"; "CURSOR"; "DATABASE"; "DATABASES"; "DAY_HOUR";
   "DAY_MICROSECOND"; "DAY_MINUTE"; "DAY_SECOND"; "DEC"; "DECIMAL"; "DECLARE"; "DEFAULT"; "DELAYED";
   "DELETE"; "DENSE_RANK"; "DESC"; "DESCRIBE"; "DETERMINISTIC"; "DISTINCT"; "DISTINCTROW"; "DIV";
   "DOUBLE"; "DROP"; "DUAL"; "EACH"; "ELSE"; "ELSEIF"; "EMPTY"; "ENCLOSED"; "ESCAPED"; "EXCEPT";
   "EXISTS"; "EXIT"; "EXPLAIN"; "FALSE"; "FETCH"; "FIRST_VALUE"; "FLOAT"; "FLOAT4"; "FLOAT8"; "FOR";
   "FORCE"; "FOREIGN"; "FROM"; "FULLTEXT"; "FUNCTION"; "GENERATED"; "GET"; "GRANT"; "GROUP";
   "GROUPING"; "GROUPS"; "HAVING"; "HIGH_PRIORITY"; "HOUR_MICROSECOND"; "HOUR_MINUTE"; "HOUR_SECOND";
   "IF"; "IGNORE"; "IN"; "INDEX"; "INFILE"; "INNER"; "INOUT"; "INSENSITIVE"; "INSERT"; "INT"; "INT1";
   "INT2"; "INT3"; "INT4"; "INT8"; "INTEGER"; "INTERVAL"; "INTO"; "IO_AFTER_GTIDS"; "IO_BEFORE_GTIDS";
   "IS"; "ITERATE"; "JOIN"; "JSON_TABLE"; "KEY"; "KEYS"; "KILL"; "LAG"; "LAST_VALUE"; "LATERAL";
   "LEAD"; "LEADING"; "LEAVE"; "LEFT"; "LIKE"; "LIMIT"; "LINEAR"; "LINES"; "LOAD"; "LOCALTIME";
   "LOCALTIMESTAMP"; "LOCK"; "LONG"; "LONGBLOB"; "LONGTEXT"; "LOOP"; "LOW_PRIORITY"; "MASTER_BIND";
   "MASTER_SSL_VERIFY_SERVER_CERT"; "MATCH"; "MAXVALUE"; "MEDIUMBLOB"; "MEDIUMINT"; "MEDIUMTEXT";
   "MEMBER"; "MIDDLEINT"; "MINUTE_MICROSECOND"; "MINUTE_SECOND"; "MOD"; "MODIFIES"; "NATURAL"; "NOT";
   "NO_WRITE_TO_BINLOG"; "NTH_VALUE"; "NTILE"; "NULL"; "NUMERIC"; "OF"; "ON"; "OPTIMIZE";
   "OPTIMIZER_COSTS"; "OPTION"; "OPTIONALLY"; "OR"; "ORDER"; "OUT"; "OUTER"; "OUTFILE"; "OVER";
   "PARTITION"; "PERCENT_RANK"; "PRECISION"; "PRIMARY"; "PROCEDURE"; "PURGE"; "RANGE"; "RANK"; "READ";
   "READS"; "READ_WRITE"; "REAL"; "RECURSIVE"; "REFERENCES"; "REGEXP"; "RELEASE"; "RENAME"; "REPEAT";
   "REPLACE"; "REQUIRE"; "RESIGNAL"; "RESTRICT"; "RETURN"; "REVOKE"; "RIGHT"; "RLIKE"; "ROW"; "ROWS";
   "ROW_NUMBER"; "SCHEMA"; "SCHEMAS"; "SECOND_MICROSECOND"; "SELECT"; "SENSITIVE"; "SEPARATOR"; "SET";
   "SHOW"; "SIGNAL"; "SMALLINT"; "SPATIAL"; "SPECIFIC"; "SQL"; "SQLEXCEPTION"; "SQLSTATE";
   "SQLWARNING"; "SQL_BIG_RESULT"; "SQL_CALC_FOUND_ROWS"; "SQL_SMALL_RESULT"; "SSL"; "STARTING";
   "STORED"; "STRAIGHT_JOIN"; "SYSTEM"; "TABLE"; "TERMINATED"; "THEN"; "TINYBLOB"; "TINYINT";
   "TINYTEXT"; "TO"; "TRAILING"; "TRIGGER"; "TRUE"; "UNDO"; "UNION"; "UNIQUE"; "UNLOCK"; "UNSIGNED";
   "UPDATE"; "USAGE"; "USE"; "USING"; "UTC_DATE"; "UTC_TIME"; "UTC_TIMESTAMP"; "VALUES"; "VARBINARY";
   "VARCHAR"; "VARCHARACTER"; "VARYING"; "VIRTUAL"; "WHEN"; "WHERE"; "WHILE"; "WINDOW"; "WITH";
   "WRITE"; "XOR"; "YEAR_MONTH"; "ZEROFILL"]%string.

(** [strings.ToUpper], as far as it can yield a reserved word: ASCII letters,
    and the two letters outside ASCII whose upper case is one, the dotless i
    (bytes C4 B1) and the long s (C5 BF). *)
Fixpoint ToUpper (s : string) : string :=
  match s with
  | EmptyString => EmptyString
  | String c s' =>
    match s' with
    | String d s'' =>
      if (chr c =? 196) && (chr d =? 177) then String "I" (ToUpper s'')
      else if (chr c =? 197) && (chr d =? 191) then String "S" (ToUpper s'')
      else String (if (97 <=? chr c) && (chr c <=? 122) then ascii_of_Z (chr c - 32) else c) (ToUpper s')
    | EmptyString => String (if (97 <=? chr c) && (chr c <=? 122) then ascii_of_Z (chr c - 32) else c) EmptyString
    end
  end.

Definition isKeyword (s : string) : bool := existsb (String.eqb s) MySQLKeyword.

Definition Check (fieldOrTableName : string) : bool :=
  isKeyword fieldOrTableName || isKeyword (ToUpper fieldOrTableName).

Definition quoted (s : string) : string := "`" +:+ s +:+ "`".

Definition CheckAndReplace (fieldOrTableName : string) : string :=
  if Check fieldOrTableName then quoted fieldOrTableName else fieldOrTableName.

(** ** Lists with separators *)

(** The loops [for i, x := range xs { write(x); if i < len(xs)-1 { write(sep) } }]. *)
Fixpoint sepBy (sep : string) (xs : list string) : string :=
  match xs with
  | [] => ""
  | [x] => x
  | x :: xs' => x +:+ sep +:+ sepBy sep xs'
  end.

(** The column list of the image queries: names separated by commas, and a
    blank after the last. *)
Definition columnList (columns : list string) : string :=
  match columns with [] => "" | _ => sepBy "," (CheckAndReplace <$> columns) +:+ " " end.

Definition MysqlAppendInParam (size : nat) : string := "(" +:+ sepBy "," (replicate size "?") +:+ ")".

Definition PgsqlAppendInParam (size : nat) : string :=
  "(" +:+ sepBy "," ((fun i => "$" +:+ FormatInt (Z.of_nat i + 1)) <$> seq 0 size) +:+ ")".

(** [fmt.Sprintf("%v", val)] of the values that are no string and no bytes;
    floating-point numbers and times print in formats not modelled here. *)
Class Printer := { print : goValue -> string }.

Definition Sprintv `{Printer} (v : goValue) : string :=
  match v with
  | GNil => "<nil>"
  | GInt64 z | GUint64 z => FormatInt z
  | GBool b => if b then "true" else "false"
  | GString s | GBytes s => string_of s
  | _ => print v
  end.

Definition MysqlAppendInParamWithValue `{Printer} (values : list goValue) : string :=
  "(" +:+ sepBy "," ((fun v => match v with
    | GString val => if HasPrefix (string_of val) "'" then string_of val else "'" +:+ string_of val +:+ "'"
    | GBytes val => "'" +:+ string_of val +:+ "'"
    | _ => Sprintv v
    end) <$> values) +:+ ")".
