(* ===== verification/AuditLog.v ===== *)
(** * The audit log and the rate limiter: [pkg/filter/audit_log/filter.go], [pkg/filter/rate/limiter.go]
    and [GetStmtLabel] of [pkg/misc/ast.go]

    The audit filter writes a line for every statement, before it is executed or after; the log
    file is the text written so far.  The rate limiter takes from the limiter of the kind of a
    statement; what taking waits for is not modelled. *)
From Stdlib Require Import ZArith Lia List Ascii.
From stdpp Require Import base gmap list strings.
From S2P Require Import Prelude GoText Encoding Packets Rows SqlText Stmt Database.

Local Open Scope Z_scope.

(** ** Statements, as far as the filters tell them apart *)
Inductive StmtNode :=
| AlterTableStmt | AnalyzeTableStmt | BeginStmt | ChangeStmt | CommitStmt | CreateDatabaseStmt | CreateIndexStmt | CreateTableStmt
| CreateViewStmt | CreateUserStmt | DeleteStmt | DropDatabaseStmt | DropIndexStmt | DropTableStmt (IsView : bool)
| ExplainStmt (ofShow Analyze : bool) | InsertStmt (IsReplace : bool) | LoadDataStmt | RollbackStmt | SelectStmt | SetStmt | SetPwdStmt
| ShowStmt | TruncateTableStmt | UpdateStmt | GrantStmt | RevokeStmt | DeallocateStmt | ExecuteStmt | PrepareStmt | UseStmt
| CreateBindingStmt | IndexAdviseStmt | DropBindingStmt | TraceStmt | ShutdownStmt | OtherStmt.

Definition GetStmtLabel (stmtNode : StmtNode) : string :=
  match stmtNode with
  | AlterTableStmt => "AlterTable" | AnalyzeTableStmt => "AnalyzeTable" | BeginStmt => "Begin" | ChangeStmt => "Change"
  | CommitStmt => "Commit" | CreateDatabaseStmt => "CreateDatabase" | CreateIndexStmt => "CreateIndex" | CreateTableStmt => "CreateTable"
  | CreateViewStmt => "CreateView" | CreateUserStmt => "CreateUser" | DeleteStmt => "Delete" | DropDatabaseStmt => "DropDatabase"
  | DropIndexStmt => "DropIndex" | DropTableStmt IsView => if IsView then "DropView" else "DropTable"
  | ExplainStmt ofShow Analyze => if ofShow then "DescTable" else if Analyze then "ExplainAnalyzeSQL" else "ExplainSQL"
  | InsertStmt IsReplace => if IsReplace then "Replace" else "Insert"
  | LoadDataStmt => "LoadData" | RollbackStmt => "Rollback" | SelectStmt => "Select" | SetStmt | SetPwdStmt => "Set" | ShowStmt => "Show"
  | TruncateTableStmt => "TruncateTable" | UpdateStmt => "Update" | GrantStmt => "Grant" | RevokeStmt => "Revoke"
  | DeallocateStmt => "Deallocate" | ExecuteStmt => "Execute" | PrepareStmt => "Prepare" | UseStmt => "Use"
  | CreateBindingStmt => "CreateBinding" | IndexAdviseStmt => "IndexAdvise" | DropBindingStmt => "DropBinding" | TraceStmt => "Trace"
  | ShutdownStmt => "Shutdown" | OtherStmt => "Unrecognized"
  end%string.

(** ** What a filter reads from the context of a statement *)
Inductive command :=
| ComQuery (stmt : StmtNode)
(** the prepared statement and its parameters; [None] is a nil statement *)
| ComStmtExecute (stmt : option (StmtNode * gmap string goValue))
| ComOther.
Record context := mkContext { userName : string; remoteAddr : string; connectionID : Z; commandType : command; sqlText : string }.

(** ** The audit log *)
Section audit.
Context `{Printer}.

Definition argText (param : goValue) : string :=
  match param with
  | GBytes s | GString s => "'" +:+ string_of s +:+ "'"
  | GNil => "NULL"
  | _ => "'" +:+ Sprintv param +:+ "'"
  end.
Definition argsText (BindVars : gmap string goValue) : string :=
  sepBy " " ((fun i => argText (default GNil (BindVars !! parameterID (Z.of_nat i)))) <$> seq 0 (size BindVars)).
(** The name of the command, the statement and its arguments; other commands are not recorded.
    The statement of a prepared one is read without a check. *)
Definition described (c : command) : res (option (string * StmtNode * string)) :=
  match c with
  | ComQuery stmt => Ok (Some ("COM_QUERY", stmt, "[]"))
  | ComStmtExecute (Some (stmt, vars)) => Ok (Some ("COM_STMT_EXECUTE", stmt, "[" +:+ argsText vars +:+ "]"))
  | ComStmtExecute None => Panic
  | ComOther => Ok None
  end%string.

Definition newline : ascii := ascii_of_N 10.
(** The line of a statement, with its line break. *)
Definition fields (now user addr : string) (conn : Z) (cmd label sql args affected : string) : string :=
  now +:+ "," +:+ user +:+ "," +:+ addr +:+ "," +:+ FormatInt conn +:+ "," +:+ cmd +:+ "," +:+ label +:+ "," +:+ sql +:+ "," +:+ args +:+ "," +:+ affected.
Definition auditLine (now user addr : string) (conn : Z) (cmd : string) (stmt : StmtNode) (sql args affected : string) : string :=
  fields now user addr conn cmd (ToUpper (GetStmtLabel stmt)) sql args affected +:+ String newline EmptyString.

(** [Write] of the log file appends, or fails. *)
Context (writeError : option string).
Definition writeLog (line : string) (log : string) : res string :=
  match writeError with Some e => Err e | None => Ok (log +:+ line) end.

Definition PreHandle (recordBefore : bool) (now : string) (ctx : context) (log : string) : res string :=
  if negb recordBefore then Ok log
  else
    d ← described (commandType ctx);
    match d with
    | None => Ok log
    | Some (cmd, stmt, args) =>
      writeLog (auditLine now (userName ctx) (remoteAddr ctx) (connectionID ctx) cmd stmt (sqlText ctx) args "0") log
    end.
(** [RowsAffected] of the result: a nil result panics. *)
Definition PostHandle (recordBefore : bool) (now : string) (ctx : context) (affected : res Z) (log : string) : res string :=
  if recordBefore then Ok log
  else
    d ← described (commandType ctx);
    match d with
    | None => Ok log
    | Some (cmd, stmt, args) =>
      n ← affected;
      writeLog (auditLine now (userName ctx) (remoteAddr ctx) (connectionID ctx) cmd stmt (sqlText ctx) args (FormatInt n)) log
    end.
End audit.

(** ** The rate limiter *)
Inductive limiter := InsertLimiter | UpdateLimiter | DeleteLimiter | SelectLimiter.
#[export] Instance limiter_eq_dec : EqDecision limiter.
Proof. solve_decision. Defined.
Record LimiterFilterConfig := mkLimits { InsertLimit : Z; UpdateLimit : Z; DeleteLimit : Z; SelectLimit : Z }.
(** The limiters [NewFilter] makes: none for a limit of zero. *)
Definition configured (conf : LimiterFilterConfig) (l : limiter) : bool :=
  negb ((match l with InsertLimiter => InsertLimit conf | UpdateLimiter => UpdateLimit conf | DeleteLimiter => DeleteLimit conf
         | SelectLimiter => SelectLimit conf end) =? 0).
Definition limiterOf (stmt : StmtNode) : option limiter :=
  match stmt with
  | InsertStmt _ => Some InsertLimiter
  | UpdateStmt => Some UpdateLimiter
  | DeleteStmt => Some DeleteLimiter
  | SelectStmt => Some SelectLimiter
  | _ => None
  end.
Definition takeOf (conf : LimiterFilterConfig) (stmt : StmtNode) : list limiter :=
  match limiterOf stmt with Some l => if configured conf l then [l] else [] | None => [] end.
(** The limiters a statement takes from. *)
Definition rate_PreHandle (conf : LimiterFilterConfig) (c : command) : res (list limiter) :=
  match c with
  | ComQuery stmt => Ok (takeOf conf stmt)
  | ComStmtExecute None => Err "prepare stmt should not be nil"
  | ComStmtExecute (Some (stmt, _)) => Ok (takeOf conf stmt)
  | ComOther => Ok []
  end.

(** ** Reading the log *)
Record entry := mkEntry {
  eNow : string; eUser : string; eAddr : string; eConn : Z; eStmt : StmtNode; eSql : string; eAffected : Z }.
(** The line of a statement of the text protocol, without its line break. *)
Definition entryText (e : entry) : string :=
  fields (eNow e) (eUser e) (eAddr e) (eConn e) "COM_QUERY" (ToUpper (GetStmtLabel (eStmt e))) (eSql e) "[]" (FormatInt (eAffected e)).
Definition entryLine (e : entry) : string := entryText e +:+ String newline EmptyString.
Fixpoint logOf (es : list entry) : string :=
  match es with [] => EmptyString | e :: es' => entryLine e +:+ logOf es' end.

(** What a line says: six fields from the front, two from the end, and the statement between them. *)
Definition readLine (line : string) : option (list string * string * string) :=
  '(now, r) ← cut_first line ","; '(user, r) ← cut_first r ","; '(addr, r) ← cut_first r ",";
  '(conn, r) ← cut_first r ","; '(cmd, r) ← cut_first r ","; '(label, r) ← cut_first r ",";
  '(r, affected) ← cut_last r ","; '(sql, args) ← cut_last r ",";
  Some ([now; user; addr; conn; cmd; label], sql, affected).

(** A character that is neither a digit nor a minus sign is in no number. *)
Definition notNumeric (d : ascii) : bool := negb ((48 <=? chr d) && (chr d <=? 57)) && negb (Ascii.eqb d "-").
Lemma digits_free d fuel n acc : notNumeric d = true -> hasChar d acc = false -> hasChar d (digits fuel n acc) = false.
Proof.
  intros Hd. revert n acc. induction fuel as [|f IH]; intros n acc Ha; [done|]. cbn [digits].
  assert (hasChar d (String (digit (n mod 10)) acc) = false) as Hs.
  { rewrite hasChar_cons, Ha, orb_false_r. apply Ascii.eqb_neq. intros <-.
    pose proof (Z.mod_pos_bound n 10 ltac:(lia)). unfold notNumeric in Hd. rewrite chr_digit in Hd by lia. zbool. lia. }
  destruct (n <? 10); [done | by apply IH].
Qed.
Lemma FormatInt_free d z : notNumeric d = true -> hasChar d (FormatInt z) = false.
Proof.
  intros Hd. unfold FormatInt, FormatUint. destruct (z <? 0); [|by apply digits_free]. rewrite hasChar_cons.
  rewrite digits_free, orb_false_r by done. apply Ascii.eqb_neq. intros <-. by vm_compute in Hd.
Qed.
Lemma label_free d stmt : d = ","%char \/ d = newline -> hasChar d (ToUpper (GetStmtLabel stmt)) = false.
Proof. intros [-> | ->]; destruct stmt as [| | | | | | | | | | | | |[]|[] []|[]| | | | | | | | | | | | | | | | | | | |]; by vm_compute. Qed.

(** The fields of an entry that come from outside keep to their columns and lines. *)
Record plain (e : entry) : Prop := {
  plain_now : hasChar "," (eNow e) = false /\ hasChar newline (eNow e) = false;
  plain_user : hasChar "," (eUser e) = false /\ hasChar newline (eUser e) = false;
  plain_addr : hasChar "," (eAddr e) = false /\ hasChar newline (eAddr e) = false;
  plain_sql : hasChar newline (eSql e) = false }.

Lemma comma_app a b : a +:+ "," +:+ b = a +:+ String "," b.
Proof. done. Qed.
Lemma readLine_entry e : plain e ->
  readLine (entryText e) =
  Some ([eNow e; eUser e; eAddr e; FormatInt (eConn e); "COM_QUERY"; ToUpper (GetStmtLabel (eStmt e))]%string, eSql e, FormatInt (eAffected e)).
Proof.
  intros [[Hn _] [Hu _] [Ha _] _]. unfold readLine, entryText, fields.
  rewrite !comma_app. rewrite (cut_first_app "," _ _ Hn). cbn [mbind option_bind].
  rewrite (cut_first_app "," _ _ Hu). cbn [mbind option_bind]. rewrite (cut_first_app "," _ _ Ha). cbn [mbind option_bind].
  rewrite (cut_first_app "," (FormatInt (eConn e))) by by apply FormatInt_free. cbn [mbind option_bind].
  rewrite (cut_first_app "," "COM_QUERY") by done. cbn [mbind option_bind].
  rewrite (cut_first_app ",") by (apply label_free; by left). cbn [mbind option_bind].
  change (eSql e +:+ String "," ("[]" +:+ String "," (FormatInt (eAffected e))))
    with (eSql e +:+ (String "," "[]") +:+ String "," (FormatInt (eAffected e))).
  rewrite <- str_assoc, (cut_last_app ",") by by apply FormatInt_free. cbn [mbind option_bind].
  by rewrite (cut_last_app ",").
Qed.
Lemma entry_newline e : plain e -> hasChar newline (entryText e) = false.
Proof.
  intros [[_ Hn] [_ Hu] [_ Ha] Hs]. unfold entryText, fields. rewrite !hasChar_app.
  rewrite Hn, Hu, Ha, Hs, !FormatInt_free, label_free by (done || by right). done.
Qed.

(** The audit log can be read back.  When the user names, addresses and times have no comma and
    no field has a line break, cutting the log at its line breaks and each line at its first six
    and its last two commas gives back the statements that were executed, in order, with their
    users, addresses, connections, kinds, full texts and affected rows, whatever commas the
    statements have. *)
Theorem audit_log_read es :
  Forall plain es ->
  readLine <$> Split (logOf es) newline =
  ((fun e => Some ([eNow e; eUser e; eAddr e; FormatInt (eConn e); "COM_QUERY"; ToUpper (GetStmtLabel (eStmt e))]%string,
                   eSql e, FormatInt (eAffected e))) <$> es) ++ [None].
Proof.
  induction 1 as [|e es He _ IH]; [done|]. cbn [logOf]. unfold entryLine. rewrite str_assoc.
  change (String newline EmptyString +:+ logOf es) with (String newline (logOf es)).
  rewrite Split_app by by apply entry_newline. cbn [fmap list_fmap app]. by rewrite IH, readLine_entry.
Qed.

(** The line of an entry up to its statement. *)
Definition head (e : entry) : string :=
  eNow e +:+ "," +:+ eUser e +:+ "," +:+ eAddr e +:+ "," +:+ FormatInt (eConn e) +:+ ",COM_QUERY," +:+ ToUpper (GetStmtLabel (eStmt e)) +:+ "," +:+ eSql e.
Definition forgery (opening : string) (e : entry) : string :=
  opening +:+ ",[],0" +:+ String newline EmptyString +:+ head e.

(** The audit log can be forged.  Statements are written with their line breaks: for every entry
    [e] there is a statement text, which starts with any [opening], such as that of a comment, such
    that one execution of it leaves the log as two would: one of the opening, and [e] itself, by
    whatever user, address and connection, which was never executed. *)
Theorem audit_log_forged `{Printer} now user addr conn stmt opening e log :
  PostHandle None false now (mkContext user addr conn (ComQuery stmt) (forgery opening e)) (Ok (eAffected e)) log =
  Ok (log +:+ logOf [mkEntry now user addr conn stmt opening 0; e]).
Proof.
  cbn. f_equal. f_equal. unfold auditLine, entryLine, entryText, fields, forgery, head. cbn [eNow eUser eAddr eConn eStmt eSql eAffected logOf].
  rewrite str_nil_r. change (FormatInt 0) with "0"%string.
  change ",COM_QUERY,"%string with ("," +:+ "COM_QUERY" +:+ ",")%string. change ",[],0"%string with ("," +:+ "[]" +:+ "," +:+ "0")%string.
  by rewrite !str_assoc.
Qed.

(** ** Statements that fail *)

(** A statement that the database refuses is not recorded by a filter that records after the
    execution: whatever post-filters the data source has, none of them is called. *)
Lemma failed_statement_unaudited {B : Type} `{Backend B} d ctx conn r (w : World) db e b' :
  dbs w !! d = Some db -> connectionPreFilters db = [] -> perform conn ctx r (peer w) = (inr e, b') ->
  filtered d ctx conn r w = (Returns (inr e), set_peer b' (set_trace (trace w ++ [(conn, connectionOf ctx, r)]) w)).
Proof.
  intros Hd Hp Hr. unfold filtered, getDB, sendRequest, logRequest, onPeer, modify, mbind, DM_bind.
  rewrite Hd, Hp. cbn. by rewrite Hr.
Qed.

(** ** Counting *)
Definition countOf (l : limiter) (ls : list limiter) : nat := length (List.filter (fun x => bool_decide (x = l)) ls).
Fixpoint takes (conf : LimiterFilterConfig) (cs : list command) : list limiter :=
  match cs with [] => [] | c :: cs' => match rate_PreHandle conf c with Ok ls => ls ++ takes conf cs' | _ => takes conf cs' end end.
Definition kindOf (c : command) : option limiter :=
  match c with ComQuery stmt => limiterOf stmt | ComStmtExecute (Some (stmt, _)) => limiterOf stmt | _ => None end.
(** A configured limiter is asked once for every statement of its kind, in either protocol; one
    that is not configured never. *)
Lemma takes_count conf l cs :
  countOf l (takes conf cs) =
  if configured conf l then length (List.filter (fun c => bool_decide (kindOf c = Some l)) cs) else 0%nat.
Proof.
  assert (Ht : forall stmt, countOf l (takeOf conf stmt) = if configured conf l && bool_decide (limiterOf stmt = Some l) then 1%nat else 0%nat).
  { intros stmt. unfold takeOf, countOf. destruct (limiterOf stmt) as [k|]; [|by rewrite andb_false_r].
    destruct (decide (k = l)) as [->|Hne].
    - rewrite (bool_decide_eq_true_2 (Some l = Some l)), andb_true_r by done. destruct (configured conf l); cbn; [|done].
      by rewrite bool_decide_eq_true_2.
    - rewrite (bool_decide_eq_false_2 (Some k = Some l)), andb_false_r by congruence. destruct (configured conf k); cbn; [|done].
      by rewrite bool_decide_eq_false_2. }
  induction cs as [|c cs IH]; [by destruct (configured conf l)|].
  assert (Ha : forall stmt ls, countOf l (takeOf conf stmt ++ ls) = (countOf l (takeOf conf stmt) + countOf l ls)%nat)
    by (intros stmt ls; unfold countOf; by rewrite List.filter_app, length_app).
  destruct c as [stmt|[[stmt vars]|]|]; cbn [takes rate_PreHandle List.filter kindOf].
  - rewrite Ha, Ht, IH. by destruct (configured conf l), (bool_decide _).
  - rewrite Ha, Ht, IH. by destruct (configured conf l), (bool_decide _).
  - exact IH.
  - exact IH.
Qed.

(** ** Examples *)
Definition alice : entry := mkEntry "2022-06-01 10:00:00" "alice" "10.0.0.1:4711" 7 UpdateStmt "update t set a=1, b=2" 3.
Lemma alice_plain : plain alice.
Proof. by constructor. Qed.
Lemma audit_log_read_witness :
  readLine <$> Split (logOf [alice]) newline =
  [Some (["2022-06-01 10:00:00"; "alice"; "10.0.0.1:4711"; "7"; "COM_QUERY"; "UPDATE"], "update t set a=1, b=2", "3"); None]%string.
Proof. apply (audit_log_read [alice]). constructor; [exact alice_plain | constructor]. Defined.
