(* ===== verification/Undo.v ===== *)
(** * Undo logs: table records ([pkg/dt/schema]), their encoding
    ([pkg/dt/undolog]), the executor that reverts a statement
    ([pkg/dt/mysql_undo_executor.go]) and the manager of the undo_log table
    ([pkg/dt/mysql_undo_log_manager.go])

    A statement of an AT branch is logged with the images of its rows before
    and after it.  [Undo] reads the logs of a transaction, newest first,
    compares the rows with the after image and writes the before image back.

    The database is the class [MySQL]: the calls of [proto.DB], [proto.Tx] and
    [proto.Connection] the code makes, each of which may fail.  The packages
    google.golang.org/protobuf, byteio and go-cmp are the classes [Protobuf],
    [BigEndianIO] and [GoCmp]. *)
From Stdlib Require Import ZArith Lia List.
From stdpp Require Import base gmap list strings.
From S2P Require Import Prelude GoText Encoding Packets GoTime DateTime Rows SqlText.

Local Open Scope Z_scope.

#[export] Instance time_eq_dec : EqDecision time.
Proof. solve_decision. Defined.
#[export] Instance goValue_eq_dec : EqDecision goValue.
Proof. solve_decision. Defined.

(** ** Table records *)
Inductive KeyType := NullKey | PrimaryKey.

#[export] Instance KeyType_eq_dec : EqDecision KeyType.
Proof. solve_decision. Defined.

Module schema.
Record Field := mkField { Name : string; FKeyType : KeyType; Type_ : Z; Value : goValue }.
Definition Row : Type := list Field.

Record ColumnMeta := mkColumn { ColumnName : string; DataType : Z }.
Inductive IndexType := IndexTypePrimary | IndexTypeNormal | IndexTypeUnique | IndexTypeFullText.
Record IndexMeta := mkIndex { Values : list ColumnMeta; IType : IndexType }.

Record TableMeta := mkMeta {
  SchemaName : string; TableName : string; Columns : list string;
  AllColumns : gmap string ColumnMeta; AllIndexes : list IndexMeta }.

Record TableRecords := mkRecords { Meta : TableMeta; RTableName : string; Rows : list Row }.
End schema.
Import schema.

#[export] Instance Field_eq_dec : EqDecision schema.Field.
Proof. solve_decision. Defined.
#[export] Instance ColumnMeta_eq_dec : EqDecision ColumnMeta.
Proof. solve_decision. Defined.
#[export] Instance IndexType_eq_dec : EqDecision IndexType.
Proof. solve_decision. Defined.
#[export] Instance IndexMeta_eq_dec : EqDecision IndexMeta.
Proof. solve_decision. Defined.
#[export] Instance TableMeta_eq_dec : EqDecision TableMeta.
Proof. solve_decision. Defined.
#[export] Instance TableRecords_eq_dec : EqDecision TableRecords.
Proof. solve_decision. Defined.

Definition isPrimary (f : schema.Field) : bool :=
  match FKeyType f with PrimaryKey => true | NullKey => false end.

(** [log.Panicf] on more than one key. *)
Definition PrimaryKeys (row : Row) : res (list schema.Field) :=
  let fields := List.filter isPrimary row in
  if (1 <? length fields)%nat then Panic else Ok fields.

Definition NonPrimaryKeys (row : Row) : list schema.Field := List.filter (fun f => negb (isPrimary f)) row.

(** [row.PrimaryKeys()[0]] *)
Definition primaryKey (row : Row) : res schema.Field :=
  fields ← PrimaryKeys row; match fields with [] => Panic | f :: _ => Ok f end.

(** The names of the primary key columns, each once. *)
Definition GetPrimaryKeyMap (meta : TableMeta) : res (list string) :=
  let pk := remove_dups (ColumnName <$> (List.filter (fun i => bool_decide (IType i = IndexTypePrimary)) (AllIndexes meta) ≫= schema.Values)) in
  match pk with [_] => Ok pk | _ => Panic end.

Definition GetPKName (meta : TableMeta) : res string :=
  pk ← GetPrimaryKeyMap meta; match pk with [] => Panic | k :: _ => Ok k end.

Definition pkFieldsOf (pk : string) (rows : list Row) : list schema.Field :=
  rows ≫= (fun row => match List.find (fun f => EqualFold (Name f) pk) row with
                      | Some f => [f]
                      | None => []
                      end).

Definition PKFields (records : TableRecords) : res (list schema.Field) :=
  pk ← GetPKName (Meta records); Ok (pkFieldsOf pk (Rows records)).

Definition BuildLockKey `{Printer} (records : option TableRecords) : res string :=
  match records with
  | None => Ok ""%string
  | Some r =>
    match Rows r with
    | [] => Ok ""%string
    | _ =>
      fields ← PKFields r;
      Ok (RTableName r +:+ ":" +:+ sepBy "," ((fun f => Sprintv (Value f)) <$> fields))
    end
  end.

(** A result of the driver: the column names and, per row, what [Decode]
    returns. *)
Record queryResult := mkQueryResult { FieldNames : list string; ResultRows : list (res (list (option goValue))) }.

(** The fields of a row; [values[i]] beyond the decoded values panics. *)
Fixpoint buildFields (meta : TableMeta) (pk : string) (names : list string) (values : list (option goValue)) : res Row :=
  match names with
  | [] => Ok []
  | name :: names' =>
    match values with
    | [] => Panic
    | v :: values' =>
      rest ← buildFields meta pk names' values';
      Ok (mkField name (if EqualFold name pk then PrimaryKey else NullKey)
            (match AllColumns meta !! name with Some c => DataType c | None => 0 end)
            (match v with Some x => x | None => GNil end) :: rest)
    end
  end.

(** Rows up to the first that does not decode. *)
Fixpoint buildRows (meta : TableMeta) (pk : res string) (names : list string)
    (rows : list (res (list (option goValue)))) : res (list Row) :=
  match rows with
  | [] => Ok []
  | Ok values :: rows' =>
    row ← (match names with [] => Ok [] | _ => k ← pk; buildFields meta k names values end);
    rest ← buildRows meta pk names rows';
    Ok (row :: rest)
  | Err _ :: _ => Ok []
  | Panic :: _ => Panic
  end.

Definition BuildTableRecords (meta : TableMeta) (result : queryResult) : res (option TableRecords) :=
  rs ← buildRows meta (GetPKName meta) (FieldNames result) (ResultRows result);
  Ok (match rs with [] => None | _ => Some (mkRecords meta (TableName meta) rs) end).

(** ** Undo logs *)
Inductive SQLType := SQLType_INSERT | SQLType_UPDATE | SQLType_DELETE | SQLType_Other (code : Z).

#[export] Instance SQLType_eq_dec : EqDecision SQLType.
Proof. solve_decision. Defined.

Definition SQLType_code (t : SQLType) : Z :=
  match t with SQLType_INSERT => 1 | SQLType_UPDATE => 2 | SQLType_DELETE => 3 | SQLType_Other c => c end.
(** [constant.SQLType(b)], a byte. *)
Definition SQLType_of (c : Z) : SQLType :=
  let c := u8 c in
  if c =? 1 then SQLType_INSERT else if c =? 2 then SQLType_UPDATE
  else if c =? 3 then SQLType_DELETE else SQLType_Other c.

Record SqlUndoLog := mkUndoLog {
  IsBinary : bool; SqlType : SQLType; LSchemaName : string; LTableName : string; LockKey : string;
  BeforeImage : option TableRecords; AfterImage : option TableRecords }.

Definition setMeta (meta : TableMeta) (r : TableRecords) : TableRecords :=
  mkRecords meta (RTableName r) (Rows r).

Definition SetTableMeta (l : SqlUndoLog) (meta : TableMeta) : SqlUndoLog :=
  mkUndoLog (IsBinary l) (SqlType l) (LSchemaName l) (LTableName l) (LockKey l)
    (setMeta meta <$> BeforeImage l) (setMeta meta <$> AfterImage l).

Definition GetUndoRows (l : SqlUndoLog) : option TableRecords :=
  match SqlType l with
  | SQLType_UPDATE | SQLType_DELETE => BeforeImage l
  | SQLType_INSERT => AfterImage l
  | SQLType_Other _ => None
  end.

Definition BuildUndoItem (isBinary : bool) (sqlType : SQLType) (schemaName tableName lockKey : string)
    (beforeImage afterImage : option TableRecords) : SqlUndoLog :=
  mkUndoLog isBinary sqlType schemaName tableName lockKey beforeImage afterImage.

(** ** The encoding of undo logs *)
Record PbField := mkPbField { PName : string; PKeyType : Z; PType : Z; PValue : option bytes }.
Record PbTableRecords := mkPbRecords { PTableName : string; PRows : list (list PbField) }.
Record PbSqlUndoLog := mkPbLog {
  PIsBinary : bool; PSqlType : Z; PSchemaName : string; PLTableName : string; PLockKey : string;
  PBefore : option PbTableRecords; PAfter : option PbTableRecords }.

Class BigEndianIO := {
  WriteInt : nat -> Z -> bytes;
  ReadInt : nat -> bytes -> Z;
  ReadInt_WriteInt : forall n v, 0 <= v < 2 ^ (8 * Z.of_nat n) -> ReadInt n (WriteInt n v) = v }.

(** [Marshal] may refuse a message (strings that are no UTF-8); a field that
    is absent and one that is empty have the same encoding. *)
Definition faithful (m : PbSqlUndoLog) : Prop :=
  forall r fs f, PBefore m = Some r \/ PAfter m = Some r -> In fs (PRows r) -> In f fs -> PValue f <> Some [].

Class Protobuf := {
  Marshal : PbSqlUndoLog -> res bytes;
  Unmarshal : bytes -> res PbSqlUndoLog;
  Unmarshal_Marshal : forall m b, faithful m -> Marshal m = Ok b -> Unmarshal b = Ok m }.

Section codec.
Context `{BigEndianIO, Protobuf}.

(** [v.In(loc).AppendFormat(b, constant.TimeFormat)] in the zone of the
    value. *)
Definition formatTime (t : time) : bytes :=
  dateText t ++ [32] ++ clockText t ++
  (if Nanosecond t / 1000 =? 0 then [] else [46] ++ trimmed (microDigits (Nanosecond t / 1000))).

Definition fieldBytes (v : goValue) : res (option bytes) :=
  match v with
  | GNil => Ok None
  | GInt64 z => Ok (Some (FieldTypeLongLong :: WriteInt 8 (u64 z)))
  | GFloat32 bits => Ok (Some (FieldTypeFloat :: WriteInt 4 bits))
  | GFloat64 bits => Ok (Some (FieldTypeDouble :: WriteInt 8 bits))
  | GString s | GBytes s => Ok (Some (FieldTypeString :: s))
  | GTime t => Ok (Some (FieldTypeTime :: (if GoTime.IsZero t then bytes_of "0000-00-00" else formatTime t)))
  | _ => Panic
  end.

Definition keyCode (k : KeyType) : Z := match k with NullKey => 0 | PrimaryKey => 1 end.

Definition convertField (field : schema.Field) : res PbField :=
  v ← fieldBytes (Value field);
  Ok (mkPbField (Name field) (keyCode (FKeyType field)) (Type_ field) v).

Definition fieldValue (value : option bytes) : res goValue :=
  match value with
  | None => Ok GNil
  | Some [] => Ok GNil
  | Some (valueType :: rest) =>
    if valueType =? FieldTypeLongLong then Ok (GInt64 (i64 (ReadInt 8 rest)))
    else if valueType =? FieldTypeFloat then Ok (GFloat32 (ReadInt 4 rest))
    else if valueType =? FieldTypeDouble then Ok (GFloat64 (ReadInt 8 rest))
    else if valueType =? FieldTypeString then Ok (GBytes rest)
    else if valueType =? FieldTypeTime then
      match ParseDateTime rest with Ok t => Ok (GTime t) | _ => Panic end
    else Ok GNil
  end.

Definition convertPbField (pbField : PbField) : res schema.Field :=
  v ← fieldValue (PValue pbField);
  Ok (mkField (PName pbField) (if u8 (PKeyType pbField) =? 1 then PrimaryKey else NullKey) (PType pbField) v).

Definition convertRow (row : Row) : res (list PbField) := mapM_res convertField row.
Definition convertPbRow (row : list PbField) : res Row := mapM_res convertPbField row.

Definition convertTableRecords (records : TableRecords) : res PbTableRecords :=
  rows ← mapM_res convertRow (Rows records); Ok (mkPbRecords (RTableName records) rows).

Definition zeroMeta : TableMeta := mkMeta "" "" [] ∅ [].

Definition convertPbTableRecords (pb : PbTableRecords) : res TableRecords :=
  rows ← mapM_res convertPbRow (PRows pb); Ok (mkRecords zeroMeta (PTableName pb) rows).

Definition optM {A B} (f : A -> res B) (o : option A) : res (option B) :=
  match o with None => Ok None | Some a => b ← f a; Ok (Some b) end.

Definition convertSqlUndoLog (l : SqlUndoLog) : res PbSqlUndoLog :=
  b ← optM convertTableRecords (BeforeImage l);
  a ← optM convertTableRecords (AfterImage l);
  Ok (mkPbLog (IsBinary l) (SQLType_code (SqlType l)) (LSchemaName l) (LTableName l) (LockKey l) b a).

Definition convertPbSqlUndoLog (pb : PbSqlUndoLog) : res SqlUndoLog :=
  b ← optM convertPbTableRecords (PBefore pb);
  a ← optM convertPbTableRecords (PAfter pb);
  Ok (mkUndoLog (PIsBinary pb) (SQLType_of (PSqlType pb)) (PSchemaName pb) (PLTableName pb) (PLockKey pb) b a).

(** Errors of the library end in [log.Panic]. *)
Definition orPanic {A} (r : res A) : res A := match r with Ok a => Ok a | _ => Panic end.

Definition EncodeSqlUndoLog (l : SqlUndoLog) : res bytes :=
  pb ← convertSqlUndoLog l; orPanic (Marshal pb).

Definition DecodeSqlUndoLog (data : bytes) : res SqlUndoLog :=
  pb ← orPanic (Unmarshal data); convertPbSqlUndoLog pb.
End codec.

(** ** Equality of records *)

(** Floating-point numbers compare as numbers: zeros are equal, NaNs are not. *)
Definition floatEq (bits : Z) (a b : Z) : bool :=
  let mant := if bits =? 64 then 52 else 23 in
  let nan x := (((x / 2 ^ mant) mod 2 ^ (bits - 1 - mant) =? 2 ^ (bits - 1 - mant) - 1) && negb (x mod 2 ^ mant =? 0)) in
  negb (nan a) && negb (nan b) && ((a =? b) || ((a mod 2 ^ (bits - 1) =? 0) && (b mod 2 ^ (bits - 1) =? 0))).

Definition valueEq (a b : goValue) : bool :=
  match a, b with
  | GFloat32 x, GFloat32 y => floatEq 32 x y
  | GFloat64 x, GFloat64 y => floatEq 64 x y
  | _, _ => bool_decide (a = b)
  end.

Definition fieldEq (f g : schema.Field) : bool :=
  bool_decide (Name f = Name g) && bool_decide (FKeyType f = FKeyType g) &&
  (Type_ f =? Type_ g) && valueEq (Value f) (Value g).

Fixpoint listEq {A} (eq : A -> A -> bool) (l k : list A) : bool :=
  match l, k with
  | [], [] => true
  | x :: l', y :: k' => eq x y && listEq eq l' k'
  | _, _ => false
  end.

Definition recordsEq (a b : option TableRecords) : bool :=
  match a, b with
  | None, None => true
  | Some r, Some q =>
    bool_decide (Meta r = Meta q) && bool_decide (RTableName r = RTableName q) &&
    listEq (listEq fieldEq) (Rows r) (Rows q)
  | _, _ => false
  end.

(** [cmp.Equal]: pointers by what they point to, structures field by field,
    slices element by element. *)
Class GoCmp := {
  Equal : option TableRecords -> option TableRecords -> bool;
  Equal_rules : forall a b, Equal a b = recordsEq a b }.

#[export] Instance go_cmp : GoCmp | 100 := {
  Equal := recordsEq;
  Equal_rules a b := eq_refl }.

(** ** The database *)
Class MySQL (S : Type) := {
  (** [proto.DB] *)
  db_Begin : S -> res unit * S;
  db_ExecuteSqlDirectly : string -> list goValue -> S -> res queryResult * S;
  (** [proto.Tx] *)
  tx_ExecuteSql : string -> list goValue -> S -> res queryResult * S;
  tx_ExecuteSqlDirectly : string -> list goValue -> S -> res queryResult * S;
  tx_QueryDirectly : string -> S -> res queryResult * S;
  tx_Commit : S -> res unit * S;
  tx_Rollback : S -> res unit * S;
  (** the connection of a local transaction *)
  conn_PrepareExecuteArgs : string -> list goValue -> S -> res queryResult * S;
  conn_PrepareQueryArgs : string -> list goValue -> S -> res queryResult * S;
  conn_Query : string -> S -> res queryResult * S;
  (** the cache of table metadata: schema and table *)
  GetTableMeta : string -> string -> S -> res TableMeta * S }.

Definition SM (S A : Type) : Type := S -> res A * S.
#[export] Instance SM_ret S : MRet (SM S) := fun A a s => (Ok a, s).
#[export] Instance SM_bind S : MBind (SM S) := fun A B f m s =>
  match m s with (Ok a, s') => f a s' | (Err e, s') => (Err e, s') | (Panic, s') => (Panic, s') end.

Definition sfail {S A} (e : string) : SM S A := fun s => (Err e, s).
Definition spanic {S A} : SM S A := fun s => (Panic, s).

Lemma bind_SM_run {S A B} (m : SM S A) (f : A -> SM S B) s a s' :
  m s = (Ok a, s') -> (m ≫= f) s = f a s'.
Proof. intros E. unfold mbind, SM_bind. by rewrite E. Qed.

(** ** The undo executor *)
Definition InsertSql (table columns values : string) : string :=
  "INSERT INTO " +:+ table +:+ " (" +:+ columns +:+ ") VALUES (" +:+ values +:+ ")".
Definition DeleteSql (table pk : string) : string :=
  "DELETE FROM " +:+ table +:+ " WHERE `" +:+ pk +:+ "` = ?".
Definition UpdateSql (table columns pk : string) : string :=
  "UPDATE " +:+ table +:+ " SET " +:+ columns +:+ " WHERE `" +:+ pk +:+ "` = ?".
Definition SelectSql (columns table pk list : string) : string :=
  "SELECT " +:+ columns +:+ " FROM " +:+ table +:+ " WHERE `" +:+ pk +:+ "` IN " +:+ list.

(** [undoLog.BeforeImage.Rows], which panics on a nil image. *)
Definition rowsOf (image : option TableRecords) : res (list Row) :=
  match image with Some r => Ok (Rows r) | None => Panic end.

Definition BuildDeleteUndoSql (l : SqlUndoLog) : res string :=
  rows ← rowsOf (BeforeImage l);
  match rows with
  | [] => Ok ""%string
  | row :: _ =>
    pkField ← primaryKey row;
    let fields := NonPrimaryKeys row ++ [pkField] in
    Ok (InsertSql (LTableName l) (sepBy ", " ((fun f => quoted (Name f)) <$> fields))
          (sepBy ", " ((fun _ => "?"%string) <$> fields)))
  end.

Definition BuildInsertUndoSql (l : SqlUndoLog) : res string :=
  rows ← rowsOf (AfterImage l);
  match rows with
  | [] => Ok ""%string
  | row :: _ => pkField ← primaryKey row; Ok (DeleteSql (LTableName l) (Name pkField))
  end.

Definition BuildUpdateUndoSql (l : SqlUndoLog) : res string :=
  rows ← rowsOf (BeforeImage l);
  match rows with
  | [] => Ok ""%string
  | row :: _ =>
    pkField ← primaryKey row;
    Ok (UpdateSql (LTableName l) (sepBy ", " ((fun f => quoted (Name f) +:+ " = ?") <$> NonPrimaryKeys row)) (Name pkField))
  end.

(** The statement and the rows it runs for. *)
Definition undoStatement (l : SqlUndoLog) : res (string * list Row) :=
  match SqlType l with
  | SQLType_INSERT => sql ← BuildInsertUndoSql l; rows ← rowsOf (AfterImage l); Ok (sql, rows)
  | SQLType_DELETE => sql ← BuildDeleteUndoSql l; rows ← rowsOf (BeforeImage l); Ok (sql, rows)
  | SQLType_UPDATE => sql ← BuildUpdateUndoSql l; rows ← rowsOf (BeforeImage l); Ok (sql, rows)
  | SQLType_Other _ => Panic
  end.

(** The arguments for a row: the other columns unless the row is deleted, then
    the value of the (last) key column. *)
Definition undoArgs (t : SQLType) (row : Row) : list goValue :=
  (if bool_decide (t = SQLType_INSERT) then [] else Value <$> NonPrimaryKeys row) ++
  [match last (List.filter isPrimary row) with Some f => Value f | None => GNil end].

Definition buildCurrentRecordsForPrepareSql (meta : TableMeta) (pk : string) (pkValues : list goValue) : string :=
  SelectSql (columnList (schema.Columns meta)) (TableName meta) pk (MysqlAppendInParam (length pkValues)).

(** [fmt.Sprintf("'%s'", pk)]: a value that is no string or byte slice prints
    with its type. *)
Definition quotedValue `{Printer} (v : goValue) : string :=
  match v with
  | GString s | GBytes s => "'" +:+ string_of s +:+ "'"
  | GInt64 z => "'%!s(int64=" +:+ FormatInt z +:+ ")'"
  | GUint64 z => "'%!s(uint64=" +:+ FormatInt z +:+ ")'"
  | GBool b => "'%!s(bool=" +:+ (if b then "true" else "false") +:+ ")'"
  | GNil => "'%!s(<nil>)'"
  | _ => "'" +:+ print v +:+ "'"
  end.

Definition buildCurrentRecordsForQuerySql `{Printer} (meta : TableMeta) (pk : string) (pkValues : list goValue) : string :=
  SelectSql (columnList (schema.Columns meta)) (TableName meta) pk
    ("(" +:+ sepBy "," (quotedValue <$> pkValues) +:+ ")").

Section executor.
Context `{Printer} `{GoCmp} {S : Type} `{MySQL S}.

Definition slift {A} (r : res A) : SM S A := fun s => (r, s).

Definition queryCurrentRecords (l : SqlUndoLog) : SM S (option TableRecords) :=
  match GetUndoRows l with
  | None => spanic
  | Some undoRecords =>
    let meta := Meta undoRecords in
    pkName ← slift (GetPKName meta);
    pkFields ← slift (PKFields undoRecords);
    match pkFields with
    | [] => mret None
    | _ =>
      let pkValues := Value <$> pkFields in
      result ← (if IsBinary l
                then tx_ExecuteSqlDirectly (buildCurrentRecordsForPrepareSql meta pkName pkValues) pkValues
                else tx_QueryDirectly (buildCurrentRecordsForQuerySql meta pkName pkValues));
      slift (BuildTableRecords meta result)
    end
  end.

Definition dirty : string := "Has dirty records when undo.".

Definition dataValidationAndGoOn (l : SqlUndoLog) : SM S bool :=
  match BeforeImage l, AfterImage l with
  | Some _, None => mret true
  | _, _ =>
    if Equal (BeforeImage l) (AfterImage l) then mret false
    else
      current ← queryCurrentRecords l;
      if Equal (AfterImage l) current then mret true
      else if Equal (BeforeImage l) current then mret false
      else match AfterImage l with None => spanic | Some _ => sfail dirty end
  end.

Fixpoint executeRows (sql : string) (t : SQLType) (rows : list Row) : SM S unit :=
  match rows with
  | [] => mret tt
  | row :: rows' => _ ← tx_ExecuteSql sql (undoArgs t row); executeRows sql t rows'
  end.

Definition Execute (l : SqlUndoLog) : SM S unit :=
  goOn ← dataValidationAndGoOn l;
  if (goOn : bool) then
    '(undoSql, undoRows) ← slift (undoStatement l);
    if String.eqb undoSql "" then mret tt
    else executeRows undoSql (SqlType l) (rev undoRows)
  else mret tt.

(** ** The undo log manager *)
Definition DeleteUndoLogByIDSql : string := "DELETE FROM undo_log WHERE id = ?".
Definition DeleteUndoLogByXIDSql : string := "DELETE FROM undo_log WHERE xid = ?".
Definition DeleteUndoLogByCreateSql : string := "DELETE FROM undo_log WHERE log_created <= ? LIMIT ?".
Definition nl : string := String (Ascii.ascii_of_nat 10) EmptyString.
Definition tab : string := String (Ascii.ascii_of_nat 9) EmptyString.
Definition InsertUndoLogSql : string :=
  "INSERT INTO undo_log (xid, branch_id, context, rollback_info, log_status, log_created," +:+ nl +:+ tab +:+ tab +:+
  "log_modified) VALUES (?, ?, ?, ?, ?, now(), now())".
Definition SelectUndoLogSql : string :=
  "SELECT branch_id, context, rollback_info, log_status FROM undo_log" +:+ nl +:+
  "       WHERE xid = ? ORDER BY id DESC FOR UPDATE".

Definition StateNormal : Z := 0.
Definition StateGlobalFinished : Z := 1.

Context `{BigEndianIO, Protobuf}.

(** What a log row tells: the state and the log. *)
Inductive logRow := Finished | Log (l : SqlUndoLog).

(** The type assertions on the columns of a row. *)
Definition readLogRow (values : list (option goValue)) : res logRow :=
  match values with
  | Some (GInt64 _) :: _ :: Some (GBytes rollbackInfo) :: Some (GInt64 state) :: _ =>
    if negb (u8 state =? StateNormal) then Ok Finished
    else l ← DecodeSqlUndoLog rollbackInfo; Ok (Log l)
  | _ => Panic
  end.

(** The logs read before a row that does not decode; [None] when a finished
    transaction is found. *)
Fixpoint readLogs (rows : list (res (list (option goValue)))) : res (option (list SqlUndoLog)) :=
  match rows with
  | [] => Ok (Some [])
  | Ok values :: rows' =>
    r ← readLogRow values;
    match r with
    | Finished => Ok None
    | Log l => rest ← readLogs rows'; Ok (option_map (cons l) rest)
    end
  | Err _ :: _ => Ok (Some [])
  | Panic :: _ => Panic
  end.

(** [exists] is set as soon as the first row decodes. *)
Definition anyRow (rows : list (res (list (option goValue)))) : bool :=
  match rows with Ok _ :: _ => true | _ => false end.

(** [Undo] returns the lock keys together with the error. *)
Definition failing (lockKeys : list string) (e : string) : SM S (list string * option string) :=
  fun s => match tx_Rollback s with
           | (Ok _, s') => (Ok (lockKeys, Some e), s')
           | (Err e', s') => (Ok (lockKeys, Some e'), s')
           | (Panic, s') => (Panic, s')
           end.

Definition undoOne (l : SqlUndoLog) : SM S unit :=
  meta ← GetTableMeta (LSchemaName l) (LTableName l);
  Execute (SetTableMeta l meta).

Fixpoint undoLogs (logs : list SqlUndoLog) (lockKeys : list string) (k : list string -> SM S (list string * option string)) :
    SM S (list string * option string) :=
  match logs with
  | [] => k lockKeys
  | l :: logs' => fun s =>
    match undoOne l s with
    | (Ok _, s') => undoLogs logs' (lockKeys ++ [LockKey l]) k s'
    | (Err e, s') => failing lockKeys e s'
    | (Panic, s') => (Panic, s')
    end
  end.

Definition commitUndo (lockKeys : list string) : SM S (list string * option string) := fun s =>
  match tx_Commit s with
  | (Ok _, s') => (Ok (lockKeys, None), s')
  | (Err e, s') => (Ok (lockKeys, Some e), s')
  | (Panic, s') => (Panic, s')
  end.

Definition finishUndo (exists_ : bool) (xid : bytes) (lockKeys : list string) : SM S (list string * option string) := fun s =>
  if exists_ then
    match tx_ExecuteSqlDirectly DeleteUndoLogByXIDSql [GString xid] s with
    | (Ok _, s') => commitUndo lockKeys s'
    | (Err e, s') => failing lockKeys e s'
    | (Panic, s') => (Panic, s')
    end
  else commitUndo lockKeys s.

Definition Undo (xid : bytes) : SM S (list string * option string) := fun s =>
  match db_Begin s with
  | (Ok _, s) =>
    match tx_ExecuteSqlDirectly SelectUndoLogSql [GString xid] s with
    | (Ok result, s) =>
      match readLogs (ResultRows result) with
      | Ok None => (Ok ([], None), s)
      | Ok (Some logs) => undoLogs logs [] (finishUndo (anyRow (ResultRows result)) xid) s
      | _ => (Panic, s)
      end
    | (Err e, s) => (Ok ([], Some e), s)
    | (Panic, s) => (Panic, s)
    end
  | (Err e, s) => (Ok ([], Some e), s)
  | (Panic, s) => (Panic, s)
  end.

Definition DeleteUndoLogByID (id : Z) : SM S unit :=
  _ ← db_ExecuteSqlDirectly DeleteUndoLogByIDSql [GInt64 id]; mret tt.
Definition DeleteUndoLogByXID (xid : bytes) : SM S unit :=
  _ ← db_ExecuteSqlDirectly DeleteUndoLogByXIDSql [GString xid]; mret tt.
Definition DeleteUndoLogByLogCreated (logCreated : time) (limitRows : Z) : SM S unit :=
  _ ← db_ExecuteSqlDirectly DeleteUndoLogByCreateSql [GTime logCreated; GInt64 limitRows]; mret tt.

Definition buildContext (serializer : string) : string := "serializer=" +:+ serializer.

(** [context[10:]] *)
Definition getSerializer (context : string) : res string :=
  b ← slice (bytes_of context) 10 (len (bytes_of context)); Ok (string_of b).

Definition insertUndoLog (xid : bytes) (branchID : Z) (rollbackCtx : string) (content : bytes) (state : Z) : SM S unit :=
  _ ← conn_PrepareExecuteArgs InsertUndoLogSql
        [GString xid; GInt64 branchID; GString (bytes_of rollbackCtx); GBytes content; GInt64 state];
  mret tt.

Definition insertLog (state : Z) (xid : bytes) (branchID : Z) (l : SqlUndoLog) : SM S unit :=
  content ← slift (EncodeSqlUndoLog l);
  insertUndoLog xid branchID (buildContext "protobuf") content state.

Definition InsertUndoLogWithNormal := insertLog StateNormal.
Definition InsertUndoLogWithGlobalFinished := insertLog StateGlobalFinished.
End executor.
