(* ===== verification/UndoRestore.v ===== *)
(** * Undoing a transaction restores its rows

    The database is a finite map from table and primary key to the other
    columns of a row, next to the rows of undo_log.  The class [UndoServer]
    states how a MySQL server answers the statements of the undo executor.
    [Logged] relates the undo log of a statement to the rows before and after
    it, [History] a transaction to its logs while other transactions change
    the rows it has not touched.  [undo_restores]: [Undo] puts every row of the
    transaction back and leaves the others alone.  [undo_refuses_dirty]: rows
    changed behind the transaction's back stop the undo without a trace. *)
From Stdlib Require Import ZArith Lia List.
From stdpp Require Import base gmap list strings sorting.
From S2P Require Import Prelude GoText Encoding Packets GoTime DateTime Rows SqlText Undo UndoSpec.
Import schema.

Local Open Scope Z_scope.

(** ** Values as keys of maps *)
Definition goValue_code (v : goValue) : Z * list Z :=
  match v with
  | GNil => (0, [])
  | GInt64 z => (1, [z])
  | GUint64 z => (2, [z])
  | GFloat32 z => (3, [z])
  | GFloat64 z => (4, [z])
  | GBool b => (5, [if b then 1 else 0])
  | GString s => (6, s)
  | GBytes s => (7, s)
  | GTime t => (8, [Year t; Month t; Day t; Hour t; Minute t; Second t; Nanosecond t])
  end.

Definition goValue_decode (c : Z * list Z) : option goValue :=
  match c with
  | (0, _) => Some GNil
  | (1, [z]) => Some (GInt64 z)
  | (2, [z]) => Some (GUint64 z)
  | (3, [z]) => Some (GFloat32 z)
  | (4, [z]) => Some (GFloat64 z)
  | (5, [z]) => Some (GBool (z =? 1))
  | (6, s) => Some (GString s)
  | (7, s) => Some (GBytes s)
  | (8, [y; m; d; h; mi; s; ns]) => Some (GTime (mkTime y m d h mi s ns))
  | _ => None
  end.

#[export] Instance goValue_countable : Countable goValue.
Proof. apply (inj_countable goValue_code goValue_decode). intros [| | | | |[]| | |[]]; reflexivity. Defined.

(** ** Tables *)
Abbreviation rowMap := (gmap (string * goValue) (list goValue)) (only parsing).

(** A row of undo_log; the list of them is ordered by id. *)
Record logEntry := mkEntry { EXid : bytes; EBranch : Z; EInfo : bytes; EStatus : Z }.

Record database := mkDatabase { rows : rowMap; undo_log : list logEntry }.

(** The columns that are not the key. *)
Definition others (meta : TableMeta) (pk : string) : list string :=
  List.filter (fun c => negb (EqualFold c pk)) (schema.Columns meta).

(** One key column, spelled as in the index, and other columns beside it. *)
Definition keyed (meta : TableMeta) (pk : string) : Prop :=
  GetPKName meta = Ok pk /\
  List.filter (fun c => EqualFold c pk) (schema.Columns meta) = [pk] /\
  others meta pk <> [].

(** The values of all columns, in the order of the columns. *)
Fixpoint assemble (pk : string) (cols : list string) (k : goValue) (vs : list goValue) : list goValue :=
  match cols with
  | [] => []
  | c :: cols' =>
    if EqualFold c pk then k :: assemble pk cols' k vs
    else default GNil (head vs) :: assemble pk cols' k (tail vs)
  end.

Definition fieldOf (meta : TableMeta) (pk c : string) (v : goValue) : schema.Field :=
  mkField c (if EqualFold c pk then PrimaryKey else NullKey)
    (match AllColumns meta !! c with Some m => DataType m | None => 0 end) v.

Definition imageRow (meta : TableMeta) (pk : string) (k : goValue) (vs : list goValue) : Row :=
  zip_with (fieldOf meta pk) (schema.Columns meta) (assemble pk (schema.Columns meta) k vs).

Lemma assemble_length pk cols k vs : length (assemble pk cols k vs) = length cols.
Proof. revert vs. induction cols as [|c cols IH]; intros vs; cbn; [done|]. destruct (EqualFold c pk); cbn; by rewrite IH. Qed.

Lemma buildFields_run meta pk cols cells :
  length cols = length cells ->
  buildFields meta pk cols cells = Ok (zip_with (fieldOf meta pk) cols (default GNil <$> cells)).
Proof.
  revert cells. induction cols as [|c cols IH]; intros [|v cells] Hl; try done. cbn [buildFields].
  injection Hl as Hl. rewrite (IH cells Hl), Ok_bind. by destruct v.
Qed.

Section layout.
Context (meta : TableMeta) (pk : string).

Lemma filter_primary cs k vs :
  List.filter isPrimary (zip_with (fieldOf meta pk) cs (assemble pk cs k vs)) =
  (fun c => fieldOf meta pk c k) <$> List.filter (fun c => EqualFold c pk) cs.
Proof.
  revert vs. induction cs as [|c cs IH]; intros vs; [done|]. cbn [assemble List.filter].
  destruct (EqualFold c pk) eqn:E; cbn [zip_with List.filter]; unfold isPrimary at 1; cbn [fieldOf FKeyType]; rewrite E.
  - cbn [fmap list_fmap]. f_equal. apply IH.
  - apply IH.
Qed.

Lemma filter_others cs k vs :
  length vs = length (List.filter (fun c => negb (EqualFold c pk)) cs) ->
  List.filter (fun f => negb (isPrimary f)) (zip_with (fieldOf meta pk) cs (assemble pk cs k vs)) =
  zip_with (fieldOf meta pk) (List.filter (fun c => negb (EqualFold c pk)) cs) vs.
Proof.
  revert vs. induction cs as [|c cs IH]; intros vs Hl; [done|]. cbn [assemble List.filter] in *.
  destruct (EqualFold c pk) eqn:E; cbn [negb] in *; cbn [zip_with List.filter]; unfold isPrimary at 1;
    cbn [fieldOf FKeyType]; rewrite E; cbn [negb].
  - by apply IH.
  - destruct vs as [|v vs]; cbn [length] in Hl; [done|]. cbn [head tail default zip_with]. f_equal. apply IH. lia.
Qed.

Lemma find_primary cs k vs c0 rest :
  List.filter (fun c => EqualFold c pk) cs = c0 :: rest ->
  List.find (fun f => EqualFold (Name f) pk) (zip_with (fieldOf meta pk) cs (assemble pk cs k vs)) =
  Some (fieldOf meta pk c0 k).
Proof.
  revert vs. induction cs as [|c cs IH]; intros vs Hf; [done|]. cbn [assemble List.filter] in *.
  destruct (EqualFold c pk) eqn:E; cbn [zip_with List.find fieldOf Name]; rewrite E; [by simplify_eq | by apply IH].
Qed.

Context (Hk : keyed meta pk).

Lemma primary_image k vs : List.filter isPrimary (imageRow meta pk k vs) = [fieldOf meta pk pk k].
Proof. destruct Hk as (_ & Hf & _). unfold imageRow. by rewrite filter_primary, Hf. Qed.

Lemma primaryKey_image k vs : primaryKey (imageRow meta pk k vs) = Ok (fieldOf meta pk pk k).
Proof. unfold primaryKey, PrimaryKeys. by rewrite primary_image. Qed.

Lemma others_image k vs :
  length vs = length (others meta pk) ->
  NonPrimaryKeys (imageRow meta pk k vs) = zip_with (fieldOf meta pk) (others meta pk) vs.
Proof. apply filter_others. Qed.

Lemma zip_names cs vs : length vs = length cs -> Name <$> zip_with (fieldOf meta pk) cs vs = cs.
Proof.
  revert vs. induction cs as [|c cs IH]; intros [|v vs] Hl; cbn [length] in Hl; try done.
  cbn. f_equal. apply IH. lia.
Qed.

Lemma zip_values cs vs : length vs = length cs -> Value <$> zip_with (fieldOf meta pk) cs vs = vs.
Proof.
  revert vs. induction cs as [|c cs IH]; intros [|v vs] Hl; cbn [length] in Hl; try done.
  cbn. f_equal. apply IH. lia.
Qed.

Lemma undoArgs_image t k vs :
  length vs = length (others meta pk) ->
  undoArgs t (imageRow meta pk k vs) = (if bool_decide (t = SQLType_INSERT) then [] else vs) ++ [k].
Proof.
  intros Hl. unfold undoArgs. rewrite primary_image, others_image, zip_values by done. done.
Qed.

Lemma find_image k vs :
  List.find (fun f => EqualFold (Name f) pk) (imageRow meta pk k vs) = Some (fieldOf meta pk pk k).
Proof. destruct Hk as (_ & Hf & _). by apply (find_primary _ _ _ pk []). Qed.

Lemma pkFieldsOf_image (g : goValue -> goValue) (f : goValue -> list goValue) ks :
  pkFieldsOf pk ((fun k => imageRow meta pk (g k) (f k)) <$> ks) = (fun k => fieldOf meta pk pk (g k)) <$> ks.
Proof.
  unfold pkFieldsOf. induction ks as [|k ks IH]; [done|]. cbn [fmap list_fmap mbind list_bind].
  rewrite find_image. cbn [app]. f_equal. apply IH.
Qed.
End layout.

(** ** The server *)
Class ServerView (S : Type) := {
  (** what is durable, what the open transaction sees, and whether calls
      succeed *)
  committed : S -> database;
  current : S -> database;
  up : S -> Prop;
  (** the tables, per schema and name *)
  catalog : string -> string -> option TableMeta;
  (** how a stored value appears in the text ([false]) and in the binary
      protocol, and which values keep their identity there *)
  present : bool -> goValue -> goValue;
  usable : bool -> goValue -> Prop;
  (** the order in which rows of a set of keys are returned *)
  keyOrder : gset goValue -> list goValue }.

Definition set_rows (f : rowMap -> rowMap) (d : database) : database := mkDatabase (f (rows d)) (undo_log d).
Definition ownedBy (xid : bytes) (e : logEntry) : bool := bool_decide (EXid e = xid).
Definition clear_log (xid : bytes) (d : database) : database :=
  mkDatabase (rows d) (List.filter (fun e => negb (ownedBy xid e)) (undo_log d)).

Definition insertText (meta : TableMeta) (pk : string) : string :=
  InsertSql (TableName meta) (sepBy ", " (quoted <$> others meta pk ++ [pk]))
    (sepBy ", " ((fun _ => "?"%string) <$> others meta pk ++ [pk])).
Definition updateText (meta : TableMeta) (pk : string) : string :=
  UpdateSql (TableName meta) (sepBy ", " ((fun c => quoted c +:+ " = ?") <$> others meta pk)) pk.
Definition deleteText (meta : TableMeta) (pk : string) : string := DeleteSql (TableName meta) pk.

(** The cells of a row of undo_log. *)
Definition entryCells (context : goValue) (e : logEntry) : list (option goValue) :=
  [Some (GInt64 (EBranch e)); Some context; Some (GBytes (EInfo e)); Some (GInt64 (EStatus e))].

Section server.
Context {S : Type} `{ServerView S}.

Definition runs {A} (m : SM S A) (s : S) (a : A) (d : database) : Prop :=
  exists s', m s = (Ok a, s') /\ up s' /\ current s' = d /\ committed s' = committed s.

Definition fits (b : bool) (meta : TableMeta) (pk : string) (k : goValue) (vs : list goValue) : Prop :=
  length vs = length (others meta pk) /\ usable b k /\ Forall (usable b) vs.

(** The keys that have a row. *)
Definition found (tb : string) (t : rowMap) (ks : list goValue) : gset goValue :=
  list_to_set (List.filter (fun k => bool_decide (is_Some (t !! (tb, k)))) ks).

(** The values of a row as the protocol presents them. *)
Definition presented (b : bool) (meta : TableMeta) (pk : string) (t : rowMap) (k : goValue) : list goValue :=
  assemble pk (schema.Columns meta) (present b k) (present b <$> t !!! (TableName meta, k)).

Definition selected (b : bool) (meta : TableMeta) (pk : string) (t : rowMap) (ks : list goValue) (r : queryResult) : Prop :=
  FieldNames r = schema.Columns meta /\
  Forall2 (fun cells k => exists c, cells = Ok c /\ default GNil <$> c = presented b meta pk t k)
    (ResultRows r) (keyOrder (found (TableName meta) t ks)).
End server.

Class UndoServer (S : Type) `{MySQL S, ServerView S, Printer} := {
  catalog_keyed : forall sch tb meta, catalog sch tb = Some meta -> TableName meta = tb /\ exists pk, keyed meta pk;
  present_binary : forall v, present true v = v;
  present_restorable : forall b v, usable b v -> restorable (present b v);
  keyOrder_elements : forall ks, keyOrder ks ≡ₚ elements ks;
  Begin_runs : forall s, up s -> runs db_Begin s tt (committed s);
  Commit_runs : forall s, up s -> exists s', tx_Commit s = (Ok tt, s') /\ up s' /\ committed s' = current s;
  Rollback_runs : forall s, up s -> runs tx_Rollback s tt (committed s);
  GetTableMeta_runs : forall s sch tb meta, up s -> catalog sch tb = Some meta ->
    runs (GetTableMeta sch tb) s meta (current s);
  insert_runs : forall s sch tb meta pk b k vs, up s -> catalog sch tb = Some meta -> keyed meta pk ->
    fits b meta pk k vs -> rows (current s) !! (tb, k) = None ->
    exists r, runs (tx_ExecuteSql (insertText meta pk) (present b <$> vs ++ [k])) s r
                (set_rows (<[(tb, k) := vs]>) (current s));
  update_runs : forall s sch tb meta pk b k vs, up s -> catalog sch tb = Some meta -> keyed meta pk ->
    fits b meta pk k vs -> is_Some (rows (current s) !! (tb, k)) ->
    exists r, runs (tx_ExecuteSql (updateText meta pk) (present b <$> vs ++ [k])) s r
                (set_rows (<[(tb, k) := vs]>) (current s));
  delete_runs : forall s sch tb meta pk b k, up s -> catalog sch tb = Some meta -> keyed meta pk ->
    usable b k -> is_Some (rows (current s) !! (tb, k)) ->
    exists r, runs (tx_ExecuteSql (deleteText meta pk) [present b k]) s r
                (set_rows (delete (tb, k)) (current s));
  select_runs : forall s sch tb meta pk ks, up s -> catalog sch tb = Some meta -> keyed meta pk ->
    ks <> [] -> Forall (usable true) ks ->
    exists r, runs (tx_ExecuteSqlDirectly (buildCurrentRecordsForPrepareSql meta pk ks) ks) s r (current s) /\
      selected true meta pk (rows (current s)) ks r;
  query_runs : forall s sch tb meta pk ks, up s -> catalog sch tb = Some meta -> keyed meta pk ->
    ks <> [] -> Forall (usable false) ks ->
    exists r, runs (tx_QueryDirectly (buildCurrentRecordsForQuerySql meta pk (present false <$> ks))) s r (current s) /\
      selected false meta pk (rows (current s)) ks r;
  logs_run : forall s xid, up s ->
    exists r contexts, runs (tx_ExecuteSqlDirectly SelectUndoLogSql [GString xid]) s r (current s) /\
      ResultRows r = zip_with (fun c e => Ok (entryCells c e)) contexts
                       (rev (List.filter (ownedBy xid) (undo_log (current s)))) /\
      length contexts = length (List.filter (ownedBy xid) (undo_log (current s)));
  clear_runs : forall s xid, up s ->
    exists r, runs (tx_ExecuteSqlDirectly DeleteUndoLogByXIDSql [GString xid]) s r (clear_log xid (current s)) }.

(** ** The statements of the executor on a server *)
Section executor.
Context {S : Type} `{UndoServer S} `{GoCmp}.

Definition image (b : bool) (meta : TableMeta) (pk : string) (t : rowMap) (ks : list goValue) : TableRecords :=
  mkRecords meta (TableName meta)
    ((fun k => imageRow meta pk (present b k) (present b <$> t !!! (TableName meta, k))) <$> ks).

Lemma buildRows_selected b meta pk t res ks :
  keyed meta pk ->
  Forall2 (fun cells k => exists c, cells = Ok c /\ default GNil <$> c = presented b meta pk t k) res ks ->
  buildRows meta (GetPKName meta) (schema.Columns meta) res = Ok (Rows (image b meta pk t ks)).
Proof.
  intros Hk. assert (Hc : schema.Columns meta <> []).
  { intros E. destruct Hk as (_ & Hf & _). by rewrite E in Hf. }
  destruct Hk as (-> & _). induction 1 as [|cells k res ks (c & -> & Hv) Hrest IH]; [done|].
  cbn [buildRows]. destruct (schema.Columns meta) as [|c0 cs] eqn:E; [done|]. rewrite Ok_bind, buildFields_run.
  - rewrite Ok_bind, IH, Ok_bind, Hv. unfold image, imageRow, presented. cbn [Rows fmap list_fmap]. by rewrite E.
  - apply (f_equal length) in Hv. unfold presented in Hv. rewrite length_fmap, assemble_length, E in Hv. done.
Qed.

(** The current rows of a set of keys, as [queryCurrentRecords] returns them. *)
Definition currentImage (b : bool) (meta : TableMeta) (pk : string) (t : rowMap) (ks : list goValue) : option TableRecords :=
  match keyOrder (found (TableName meta) t ks) with
  | [] => None
  | l => Some (image b meta pk t l)
  end.

Lemma BuildTableRecords_selected b meta pk t ks r :
  keyed meta pk -> selected b meta pk t ks r ->
  BuildTableRecords meta r = Ok (currentImage b meta pk t ks).
Proof.
  intros Hk [Hn Hr]. unfold BuildTableRecords, currentImage. rewrite Hn.
  rewrite (buildRows_selected _ _ _ _ _ _ Hk Hr), Ok_bind. by destruct (keyOrder _).
Qed.

Lemma PKFields_image b meta pk t ks :
  keyed meta pk -> PKFields (image b meta pk t ks) = Ok ((fun k => fieldOf meta pk pk (present b k)) <$> ks).
Proof.
  intros Hk. unfold PKFields. cbn [Meta Rows image].
  destruct Hk as (Hpk & Hk'). rewrite Hpk, Ok_bind. f_equal. apply (pkFieldsOf_image meta pk (conj Hpk Hk')).
Qed.

Lemma queryCurrentRecords_runs l sch tb meta pk t ks s :
  up s -> catalog sch tb = Some meta -> keyed meta pk -> ks <> [] -> Forall (usable (IsBinary l)) ks ->
  GetUndoRows l = Some (image (IsBinary l) meta pk t ks) ->
  runs (queryCurrentRecords l) s (currentImage (IsBinary l) meta pk (rows (current s)) ks) (current s).
Proof.
  intros Hup Hcat Hk Hks Hus Hrows. unfold queryCurrentRecords. rewrite Hrows. cbn [Meta image].
  rewrite (PKFields_image _ _ _ _ _ Hk). destruct Hk as (Hpk & Hk'). rewrite Hpk. assert (Hk := conj Hpk Hk').
  unfold runs. erewrite bind_SM_run by reflexivity. erewrite bind_SM_run by reflexivity.
  destruct ks as [|k0 ks']; [done|]. cbn beta iota. set (ks := k0 :: ks') in *.
  change ((fun k => fieldOf meta pk pk (present (IsBinary l) k)) <$> ks)
    with (fieldOf meta pk pk (present (IsBinary l) k0) :: ((fun k => fieldOf meta pk pk (present (IsBinary l) k)) <$> ks')).
  cbn beta iota zeta.
  assert (Hv : Value <$> (fieldOf meta pk pk (present (IsBinary l) k0) ::
                 ((fun k => fieldOf meta pk pk (present (IsBinary l) k)) <$> ks')) = present (IsBinary l) <$> ks).
  { unfold ks. cbn. f_equal. rewrite <- list_fmap_compose. done. }
  rewrite Hv. destruct (IsBinary l) eqn:Hb.
  - replace (present true <$> ks) with ks by (rewrite <- (list_fmap_id ks) at 1; apply list_fmap_ext; intros; symmetry; apply present_binary).
    destruct (select_runs s sch tb meta pk ks Hup Hcat Hk Hks Hus) as (r & (s' & E & Hup' & Hc' & Hd') & Hsel).
    exists s'. erewrite bind_SM_run by exact E. unfold slift. by rewrite (BuildTableRecords_selected _ _ _ _ _ _ Hk Hsel).
  - destruct (query_runs s sch tb meta pk ks Hup Hcat Hk Hks Hus) as (r & (s' & E & Hup' & Hc' & Hd') & Hsel).
    exists s'. erewrite bind_SM_run by exact E. unfold slift. by rewrite (BuildTableRecords_selected _ _ _ _ _ _ Hk Hsel).
Qed.

(** *** Writing rows back *)

(** The rows of the keys [ks] set to [target]. *)
Definition rewritten (tb : string) (target : goValue -> option (list goValue)) (ks : list goValue) (t : rowMap) : rowMap :=
  foldr (fun k t => partial_alter (fun _ => target k) (tb, k) t) t ks.

Lemma lookup_rewritten tb target ks t key :
  rewritten tb target ks t !! key = if bool_decide (key.1 = tb /\ key.2 ∈ ks) then target key.2 else t !! key.
Proof.
  destruct key as [tb' k']. cbn [fst snd]. unfold rewritten. induction ks as [|k ks IH]; cbn [foldr]; cbv beta.
  - rewrite bool_decide_eq_false_2; [done|]. intros [_ Hin]. by apply not_elem_of_nil in Hin.
  - destruct (decide ((tb, k) = (tb', k'))) as [E|Hne]; [injection E as <- <-|].
    + rewrite lookup_partial_alter_eq, bool_decide_eq_true_2; [done|]. split; [done | left].
    + rewrite lookup_partial_alter_ne by done. rewrite IH.
      destruct (decide (tb' = tb /\ k' ∈ ks)) as [Hd|Hd].
      * rewrite !bool_decide_eq_true_2; [done | destruct Hd; split; [done | by right] | done].
      * rewrite !bool_decide_eq_false_2; [done | | done].
        intros [-> [Hk|Hin]%elem_of_cons]; [by subst | apply Hd; done].
Qed.

(** [executeRows] on the images of [ks], last first: every statement runs
    when the row it meets is as it expects ([meets]) and sets it to [target]. *)
Lemma executeRows_runs sql ty tb target (meets : option (list goValue) -> Prop) (img : goValue -> Row) ks s :
  up s -> NoDup ks -> (forall k, k ∈ ks -> meets (rows (current s) !! (tb, k))) ->
  (forall k s, k ∈ ks -> up s -> meets (rows (current s) !! (tb, k)) ->
     exists r, runs (tx_ExecuteSql sql (undoArgs ty (img k))) s r
                 (set_rows (partial_alter (fun _ => target k) (tb, k)) (current s))) ->
  runs (executeRows sql ty (rev (img <$> ks))) s tt (set_rows (rewritten tb target ks) (current s)).
Proof.
  intros Hup Hnd Hm Hrun. revert s Hup Hm.
  assert (Hgen : forall done todo s, ks = todo ++ done -> up s ->
    (forall k, k ∈ todo -> meets (rows (current s) !! (tb, k))) ->
    runs (executeRows sql ty (rev (img <$> todo))) s tt (set_rows (rewritten tb target todo) (current s))).
  2:{ intros s Hup Hm. apply (Hgen [] ks s); [by rewrite app_nil_r | done | done]. }
  intros done todo. revert done. induction todo as [|k todo IH] using rev_ind; intros done s Hks Hup Hm.
  - exists s. split_and!; try done. by destruct (current s).
  - rewrite fmap_app, rev_app_distr. cbn [fmap list_fmap rev app executeRows].
    destruct (Hrun k s) as (r & s1 & E & Hup1 & Hc1 & Hd1); [set_solver | done | apply Hm; set_solver|].
    assert (Hnk : k ∉ todo).
    { intros Hin. rewrite Hks in Hnd. rewrite <- app_assoc in Hnd. apply NoDup_app in Hnd as (_ & Hdis & _).
      apply (Hdis k Hin). set_solver. }
    destruct (IH (k :: done) s1) as (s2 & E2 & Hup2 & Hc2 & Hd2).
    + by rewrite Hks, <- app_assoc.
    + done.
    + intros k' Hk'. rewrite Hc1. cbn [rows set_rows]. rewrite lookup_partial_alter_ne; [apply Hm; set_solver|].
      intros [= ->]. done.
    + exists s2. erewrite bind_SM_run by exact E. split_and!; [exact E2 | done | | congruence].
      rewrite Hc2, Hc1. unfold set_rows. cbn [rows undo_log]. f_equal.
      unfold rewritten. by rewrite foldr_app.
Qed.

(** ** Logs of statements *)
Definition keysOf (tb : string) (ks : list goValue) : gset (string * goValue) := list_to_set (pair tb <$> ks).

Lemma elem_of_keysOf tb ks key : key ∈ keysOf tb ks <-> key.1 = tb /\ key.2 ∈ ks.
Proof.
  unfold keysOf. rewrite elem_of_list_to_set, list_elem_of_fmap. destruct key as [tb' k]. cbn [fst snd]. split.
  - intros (k' & [= -> ->] & Hin). done.
  - intros [-> Hin]. by exists k.
Qed.

(** Two states have the same rows for the keys of [K], or outside of it. *)
Definition agree (K : gset (string * goValue)) (t t' : rowMap) : Prop := forall key, key ∈ K -> t !! key = t' !! key.
Definition agreeOut (K : gset (string * goValue)) (t t' : rowMap) : Prop := forall key, key ∉ K -> t !! key = t' !! key.

(** The rows of [ks] exist in [t] and can be logged. *)
Definition present_rows (b : bool) (meta : TableMeta) (pk : string) (t : rowMap) (ks : list goValue) : Prop :=
  forall k, k ∈ ks -> exists vs, t !! (TableName meta, k) = Some vs /\ fits b meta pk k vs.

(** The undo log [l] of a statement that turned the rows [t] into [t'] and
    touched the keys [K]. *)
Inductive Logged (l : SqlUndoLog) (meta : TableMeta) (pk : string) (ks : list goValue) (t t' : rowMap) : Prop :=
| LoggedUpdate :
    SqlType l = SQLType_UPDATE ->
    BeforeImage l = Some (image (IsBinary l) meta pk t ks) ->
    AfterImage l = Some (image (IsBinary l) meta pk t' (keyOrder (list_to_set ks))) ->
    present_rows (IsBinary l) meta pk t ks -> present_rows (IsBinary l) meta pk t' ks ->
    (BeforeImage l = AfterImage l -> t = t') ->
    Logged l meta pk ks t t'
| LoggedInsert :
    SqlType l = SQLType_INSERT -> BeforeImage l = None ->
    AfterImage l = Some (image (IsBinary l) meta pk t' ks) -> ks = keyOrder (list_to_set ks) ->
    (forall k, k ∈ ks -> t !! (TableName meta, k) = None) -> present_rows (IsBinary l) meta pk t' ks ->
    Logged l meta pk ks t t'
| LoggedDelete :
    SqlType l = SQLType_DELETE -> AfterImage l = None ->
    BeforeImage l = Some (image (IsBinary l) meta pk t ks) ->
    present_rows (IsBinary l) meta pk t ks -> (forall k, k ∈ ks -> t' !! (TableName meta, k) = None) ->
    Logged l meta pk ks t t'.

(** Its table, its keys, and nothing else changed. *)
Definition statement (l : SqlUndoLog) (K : gset (string * goValue)) (t t' : rowMap) : Prop :=
  exists meta pk ks, catalog (LSchemaName l) (LTableName l) = Some meta /\ keyed meta pk /\
    ks <> [] /\ NoDup ks /\ K = keysOf (LTableName l) ks /\ agreeOut K t t' /\ Logged l meta pk ks t t'.

Lemma keyOrder_nodup (ks : gset goValue) : NoDup (keyOrder ks).
Proof. rewrite keyOrder_elements. apply NoDup_elements. Qed.

Lemma elem_of_keyOrder (ks : gset goValue) k : k ∈ keyOrder ks <-> k ∈ ks.
Proof. rewrite keyOrder_elements. apply elem_of_elements. Qed.

Lemma found_all tb t ks : (forall k, k ∈ ks -> is_Some (t !! (tb, k))) -> found tb t ks = list_to_set ks.
Proof.
  intros Hall. unfold found. f_equal. induction ks as [|k ks IH]; [done|]. cbn [List.filter].
  rewrite bool_decide_eq_true_2 by (apply Hall; left). f_equal. apply IH. intros k' Hk'. apply Hall. by right.
Qed.

Lemma image_ext b meta pk t t' ks :
  (forall k, k ∈ ks -> t !! (TableName meta, k) = t' !! (TableName meta, k)) -> image b meta pk t ks = image b meta pk t' ks.
Proof.
  intros Heq. unfold image. f_equal. apply list_fmap_ext. intros i k Hi. unfold lookup_total, map_lookup_total.
  rewrite Heq; [done|]. by eapply list_elem_of_lookup_2.
Qed.

Lemma currentImage_all b meta pk t t' ks :
  ks <> [] -> (forall k, k ∈ ks -> t !! (TableName meta, k) = t' !! (TableName meta, k)) ->
  present_rows b meta pk t' ks ->
  currentImage b meta pk t ks = Some (image b meta pk t' (keyOrder (list_to_set ks))).
Proof.
  intros Hne Heq Hp. unfold currentImage. rewrite found_all.
  2:{ intros k Hk. rewrite Heq by done. destruct (Hp k Hk) as (vs & -> & _). done. }
  destruct (keyOrder (list_to_set ks)) as [|k0 kr] eqn:E.
  - exfalso. destruct ks as [|k ks]; [done|].
    assert (Hin : k ∈ keyOrder (list_to_set (k :: ks))) by (apply elem_of_keyOrder; set_solver).
    rewrite E in Hin. by apply not_elem_of_nil in Hin.
  - f_equal. apply image_ext. intros k Hk. apply Heq. rewrite <- E in Hk.
    by apply elem_of_keyOrder, elem_of_list_to_set in Hk.
Qed.

Lemma restorable_image b meta pk t ks :
  present_rows b meta pk t ks -> restorableRecords (image b meta pk t ks).
Proof.
  intros Hp. unfold restorableRecords, image. cbn [Rows]. apply Forall_fmap, Forall_forall. intros k Hk.
  destruct (Hp k Hk) as (vs & E & Hl & Hu & Hus). cbn. rewrite (lookup_total_correct _ _ _ E).
  unfold restorableRow, imageRow. apply present_restorable in Hu.
  assert (Hvs : Forall restorable (present b <$> vs)).
  { apply Forall_fmap. eapply Forall_impl; [exact Hus|]. intros v. apply present_restorable. }
  generalize (schema.Columns meta) as cs. clear -Hu Hvs. revert Hvs. generalize (present b <$> vs) as ws.
  intros ws Hws cs. revert ws Hws. induction cs as [|c cs IH]; intros ws Hws; [constructor|]. cbn [assemble].
  destruct (EqualFold c pk); cbn [zip_with]; constructor; cbn [Value fieldOf]; auto.
  - destruct Hws; cbn; done.
  - apply IH. by destruct Hws.
Qed.

Lemma Equal_images r q :
  restorableRecords r -> restorableRecords q -> Equal (Some r) (Some q) = bool_decide (r = q).
Proof.
  intros Hr Hq. rewrite Equal_rules. pose proof (recordsEq_exact r q Hr Hq) as Heq.
  destruct (recordsEq (Some r) (Some q)); case_bool_decide as E; try done; [by destruct E; apply Heq | by apply Heq in E].
Qed.

(** *** The texts of the statements *)
Section texts.
Context (l : SqlUndoLog) (meta : TableMeta) (pk : string) (ks : list goValue) (t : rowMap).
Context (Hk : keyed meta pk) (Htb : TableName meta = LTableName l) (Hne : ks <> []).
Context (Hp : present_rows (IsBinary l) meta pk t ks).

Lemma image_first :
  exists k vs rest, Rows (image (IsBinary l) meta pk t ks) = imageRow meta pk k vs :: rest /\
    length vs = length (others meta pk).
Proof.
  destruct ks as [|k0 ks']; [done|]. cbn [image Rows fmap list_fmap]. do 3 eexists. split; [reflexivity|].
  destruct (Hp k0 ltac:(left)) as (vs & E & Hl & _). by rewrite (lookup_total_correct _ _ _ E), length_fmap.
Qed.

Lemma names_quoted (f : string -> string) k vs :
  length vs = length (others meta pk) ->
  (fun x => f (Name x)) <$> NonPrimaryKeys (imageRow meta pk k vs) = f <$> others meta pk.
Proof.
  intros Hl. rewrite (others_image meta pk k vs Hl).
  rewrite <- (zip_names meta pk (others meta pk) vs Hl) at 2. by rewrite <- list_fmap_compose.
Qed.

Lemma undoStatement_update :
  SqlType l = SQLType_UPDATE -> BeforeImage l = Some (image (IsBinary l) meta pk t ks) ->
  undoStatement l = Ok (updateText meta pk, Rows (image (IsBinary l) meta pk t ks)).
Proof.
  intros Ht Hb. destruct image_first as (k & vs & rest & E & Hl).
  unfold undoStatement, BuildUpdateUndoSql, rowsOf. rewrite Ht, Hb, !Ok_bind, E, (primaryKey_image meta pk Hk), !Ok_bind.
  unfold updateText. by rewrite Htb, (names_quoted (fun c => quoted c +:+ " = ?") k vs Hl).
Qed.

Lemma undoStatement_delete :
  SqlType l = SQLType_DELETE -> BeforeImage l = Some (image (IsBinary l) meta pk t ks) ->
  undoStatement l = Ok (insertText meta pk, Rows (image (IsBinary l) meta pk t ks)).
Proof.
  intros Ht Hb. destruct image_first as (k & vs & rest & E & Hl).
  unfold undoStatement, BuildDeleteUndoSql, rowsOf. rewrite Ht, Hb, !Ok_bind, E, (primaryKey_image meta pk Hk), !Ok_bind.
  unfold insertText. rewrite Htb, !fmap_app, (names_quoted quoted k vs Hl), (names_quoted (fun _ => "?"%string) k vs Hl). done.
Qed.

Lemma undoStatement_insert :
  SqlType l = SQLType_INSERT -> AfterImage l = Some (image (IsBinary l) meta pk t ks) ->
  undoStatement l = Ok (deleteText meta pk, Rows (image (IsBinary l) meta pk t ks)).
Proof.
  intros Ht Hb. destruct image_first as (k & vs & rest & E & Hl).
  unfold undoStatement, BuildInsertUndoSql, rowsOf. rewrite Ht, Hb, !Ok_bind, E, (primaryKey_image meta pk Hk), !Ok_bind.
  unfold deleteText. by rewrite Htb.
Qed.

Lemma undoArgs_logged k :
  k ∈ ks -> exists vs, t !! (TableName meta, k) = Some vs /\ fits (IsBinary l) meta pk k vs /\
    undoArgs (SqlType l) (imageRow meta pk (present (IsBinary l) k) (present (IsBinary l) <$> t !!! (TableName meta, k))) =
    if bool_decide (SqlType l = SQLType_INSERT) then [present (IsBinary l) k] else present (IsBinary l) <$> vs ++ [k].
Proof.
  intros Hin. destruct (Hp k Hin) as (vs & E & Hf). exists vs. split_and!; [done..|].
  rewrite (lookup_total_correct _ _ _ E), (undoArgs_image meta pk Hk) by (rewrite length_fmap; apply Hf).
  case_bool_decide; [done|]. by rewrite fmap_app.
Qed.
End texts.

(** *** Executing a log *)
Section execute.
Context (l : SqlUndoLog) (meta : TableMeta) (pk : string) (ks : list goValue) (s : S).
Context (Hcat : catalog (LSchemaName l) (LTableName l) = Some meta) (Hk : keyed meta pk).
Context (Hne : ks <> []) (Hnd : NoDup ks) (Hup : up s).

Let tb_name : TableName meta = LTableName l.
Proof. by destruct (catalog_keyed _ _ _ Hcat). Qed.

(** The rows of the log set back to what they were in [t]. *)
Definition back (t : rowMap) : database :=
  set_rows (rewritten (LTableName l) (fun k => t !! (LTableName l, k)) ks) (current s).

Lemma back_spec t :
  agree (keysOf (LTableName l) ks) (rows (back t)) t /\
  agreeOut (keysOf (LTableName l) ks) (rows (back t)) (rows (current s)) /\
  undo_log (back t) = undo_log (current s).
Proof.
  split_and!; [intros [tb k] Hin | intros [tb k] Hin | done]; cbn [back set_rows rows];
    rewrite lookup_rewritten; rewrite elem_of_keysOf in Hin; cbn [fst snd] in *.
  - rewrite bool_decide_eq_true_2 by done. by destruct Hin as [-> _].
  - by rewrite bool_decide_eq_false_2.
Qed.

Lemma write_update t :
  SqlType l = SQLType_UPDATE -> present_rows (IsBinary l) meta pk t ks ->
  (forall k, k ∈ ks -> is_Some (rows (current s) !! (LTableName l, k))) ->
  runs (executeRows (updateText meta pk) (SqlType l) (rev (Rows (image (IsBinary l) meta pk t ks)))) s tt (back t).
Proof.
  intros Ht Hp Hcur. apply (executeRows_runs _ _ _ _ is_Some); try done.
  intros k s' Hin Hup' Hm. destruct (undoArgs_logged l meta pk ks t Hk Hp k Hin) as (vs & E & Hf & ->).
  rewrite Ht. rewrite tb_name in E. rewrite E. by apply (update_runs s' _ _ _ _ _ _ _ Hup' Hcat).
Qed.

Lemma write_insert t :
  SqlType l = SQLType_DELETE -> present_rows (IsBinary l) meta pk t ks ->
  (forall k, k ∈ ks -> rows (current s) !! (LTableName l, k) = None) ->
  runs (executeRows (insertText meta pk) (SqlType l) (rev (Rows (image (IsBinary l) meta pk t ks)))) s tt (back t).
Proof.
  intros Ht Hp Hcur. apply (executeRows_runs _ _ _ _ (fun o => o = None)); try done.
  intros k s' Hin Hup' Hm. destruct (undoArgs_logged l meta pk ks t Hk Hp k Hin) as (vs & E & Hf & ->).
  rewrite Ht. rewrite tb_name in E. rewrite E. by apply (insert_runs s' _ _ _ _ _ _ _ Hup' Hcat).
Qed.

Lemma write_delete t t' :
  SqlType l = SQLType_INSERT -> present_rows (IsBinary l) meta pk t' ks ->
  (forall k, k ∈ ks -> t !! (LTableName l, k) = None) ->
  (forall k, k ∈ ks -> is_Some (rows (current s) !! (LTableName l, k))) ->
  runs (executeRows (deleteText meta pk) (SqlType l) (rev (Rows (image (IsBinary l) meta pk t' ks)))) s tt (back t).
Proof.
  intros Ht Hp Hnone Hcur. apply (executeRows_runs _ _ _ _ is_Some); try done.
  intros k s' Hin Hup' Hm. destruct (undoArgs_logged l meta pk ks t' Hk Hp k Hin) as (vs & E & Hf & ->).
  rewrite Ht. rewrite Hnone by done. apply (delete_runs s' _ _ _ _ _ _ Hup' Hcat Hk); [apply Hf | done].
Qed.
End execute.

(** What [dataValidationAndGoOn] and the statements come to, per kind of log. *)
Section kinds.
Context (l : SqlUndoLog) (meta : TableMeta) (pk : string) (ks : list goValue) (s : S).
Context (Hcat : catalog (LSchemaName l) (LTableName l) = Some meta) (Hk : keyed meta pk).
Context (Hne : ks <> []) (Hnd : NoDup ks) (Hup : up s).

Let name_of : TableName meta = LTableName l.
Proof. by destruct (catalog_keyed _ _ _ Hcat). Qed.

Lemma Execute_update t t' :
  SqlType l = SQLType_UPDATE -> BeforeImage l = Some (image (IsBinary l) meta pk t ks) ->
  AfterImage l = Some (image (IsBinary l) meta pk t' (keyOrder (list_to_set ks))) ->
  present_rows (IsBinary l) meta pk t ks -> present_rows (IsBinary l) meta pk t' ks ->
  (forall k, k ∈ ks -> rows (current s) !! (LTableName l, k) = t' !! (LTableName l, k)) ->
  runs (Execute l) s tt (if bool_decide (BeforeImage l = AfterImage l) then current s else back l ks s t).
Proof.
  intros Ht Hb Ha Hp Hp' Hcur. unfold Execute, dataValidationAndGoOn. rewrite Hb, Ha.
  assert (Hra : restorableRecords (image (IsBinary l) meta pk t' (keyOrder (list_to_set ks)))).
  { apply restorable_image. intros k Hin%elem_of_keyOrder%elem_of_list_to_set. by apply Hp'. }
  rewrite Equal_images by (done || by apply restorable_image).
  destruct (decide (image (IsBinary l) meta pk t ks = image (IsBinary l) meta pk t' (keyOrder (list_to_set ks)))) as [E|E].
  - rewrite !bool_decide_eq_true_2 by congruence. by exists s.
  - rewrite !bool_decide_eq_false_2 by congruence.
    destruct (queryCurrentRecords_runs l _ _ meta pk t ks s Hup Hcat Hk Hne) as (s1 & E1 & Hup1 & Hc1 & Hd1).
    { apply Forall_forall. intros k Hin. by destruct (Hp k Hin) as (vs & _ & _ & ? & _). }
    { unfold GetUndoRows. by rewrite Ht. }
    unfold runs. erewrite bind_SM_run.
    2:{ erewrite bind_SM_run by exact E1. rewrite (currentImage_all _ _ _ _ t' _ Hne) by (done || (rewrite name_of; done)).
        rewrite Equal_images, bool_decide_eq_true_2 by done. reflexivity. }
    cbn iota. erewrite bind_SM_run by (unfold slift; by rewrite (undoStatement_update l meta pk ks t)). cbn beta iota.
    change (String.eqb (updateText meta pk) "") with false. cbn iota.
    destruct (write_update l meta pk ks s1 Hcat Hk Hnd Hup1 t Ht Hp) as (s2 & E2 & Hup2 & Hc2 & Hd2).
    { intros k Hin. rewrite Hc1, Hcur by done. destruct (Hp' k Hin) as (vs & Ev & _). rewrite name_of in Ev. by rewrite Ev. }
    exists s2. split_and!; [exact E2 | done | | congruence]. rewrite Hc2. unfold back. by rewrite Hc1.
Qed.

Lemma Execute_insert t t' :
  SqlType l = SQLType_INSERT -> BeforeImage l = None ->
  AfterImage l = Some (image (IsBinary l) meta pk t' ks) -> ks = keyOrder (list_to_set ks) ->
  (forall k, k ∈ ks -> t !! (LTableName l, k) = None) -> present_rows (IsBinary l) meta pk t' ks ->
  (forall k, k ∈ ks -> rows (current s) !! (LTableName l, k) = t' !! (LTableName l, k)) ->
  runs (Execute l) s tt (back l ks s t).
Proof.
  intros Ht Hb Ha Hord Hnone Hp' Hcur. unfold Execute, dataValidationAndGoOn. rewrite Hb, Ha, Equal_rules.
  destruct (queryCurrentRecords_runs l _ _ meta pk t' ks s Hup Hcat Hk Hne) as (s1 & E1 & Hup1 & Hc1 & Hd1).
  { apply Forall_forall. intros k Hin. by destruct (Hp' k Hin) as (vs & _ & _ & ? & _). }
  { unfold GetUndoRows. by rewrite Ht. }
  unfold runs. cbn [recordsEq]. erewrite bind_SM_run.
  2:{ erewrite bind_SM_run by exact E1. rewrite (currentImage_all _ _ _ _ t' _ Hne) by (done || (rewrite name_of; done)).
      rewrite <- Hord, Equal_images, bool_decide_eq_true_2 by (done || by apply restorable_image). reflexivity. }
  cbn iota. erewrite bind_SM_run by (unfold slift; by rewrite (undoStatement_insert l meta pk ks t')). cbn beta iota.
  change (String.eqb (deleteText meta pk) "") with false. cbn iota.
  destruct (write_delete l meta pk ks s1 Hcat Hk Hnd Hup1 t t' Ht Hp' Hnone) as (s2 & E2 & Hup2 & Hc2 & Hd2).
  { intros k Hin. rewrite Hc1, Hcur by done. destruct (Hp' k Hin) as (vs & Ev & _). rewrite name_of in Ev. by rewrite Ev. }
  exists s2. split_and!; [exact E2 | done | | congruence]. rewrite Hc2. unfold back. by rewrite Hc1.
Qed.

Lemma Execute_delete t :
  SqlType l = SQLType_DELETE -> AfterImage l = None ->
  BeforeImage l = Some (image (IsBinary l) meta pk t ks) -> present_rows (IsBinary l) meta pk t ks ->
  (forall k, k ∈ ks -> rows (current s) !! (LTableName l, k) = None) ->
  runs (Execute l) s tt (back l ks s t).
Proof.
  intros Ht Ha Hb Hp Hcur. unfold Execute, dataValidationAndGoOn. rewrite Hb, Ha.
  unfold runs. erewrite bind_SM_run by reflexivity. cbn iota.
  erewrite bind_SM_run by (unfold slift; by rewrite (undoStatement_delete l meta pk ks t)). cbn beta iota.
  change (String.eqb (insertText meta pk) "") with false. cbn iota.
  by apply (write_insert l meta pk ks s Hcat Hk Hnd Hup t Ht Hp).
Qed.
End kinds.

(** Executing the log of a statement takes its rows back. *)
Lemma Execute_runs l K t t' s :
  statement l K t t' -> up s -> agree K (rows (current s)) t' ->
  exists d, runs (Execute l) s tt d /\ undo_log d = undo_log (current s) /\
    agree K (rows d) t /\ agreeOut K (rows d) (rows (current s)).
Proof.
  intros (meta & pk & ks & Hcat & Hk & Hne & Hnd & -> & Hout & Hlog) Hup Hcur.
  destruct (catalog_keyed _ _ _ Hcat) as [Htb _].
  assert (Hrow : forall k, k ∈ ks -> rows (current s) !! (LTableName l, k) = t' !! (LTableName l, k)).
  { intros k Hin. apply Hcur. by apply elem_of_keysOf. }
  destruct (back_spec l ks s t) as (B1 & B2 & B3).
  destruct Hlog as [Ht Hb Ha Hp Hp' Hsame|Ht Hb Ha Hord Hnone Hp'|Ht Ha Hb Hp Hnone].
  - eexists. split; [by eapply (Execute_update l meta pk ks s) |].
    case_bool_decide as E; [|done]. rewrite (Hsame E). split_and!; done.
  - rewrite Htb in Hnone. eexists. split; [by eapply (Execute_insert l meta pk ks s) | done].
  - rewrite Htb in Hnone. eexists. split; [eapply (Execute_delete l meta pk ks s); try done | done].
    intros k Hin. rewrite Hrow by done. by apply Hnone.
Qed.

(** ** Transactions *)
Lemma rev_reverse {A} (l : list A) : rev l = reverse l.
Proof. apply rev_alt. Qed.

Lemma filter_none {A} (p : A -> bool) l : List.filter p l = [] -> List.filter (fun x => negb (p x)) l = l.
Proof.
  induction l as [|x l IH]; [done|]. cbn. destruct (p x); [done|]. cbn [negb]. intros E. by rewrite IH.
Qed.

(** The undo logs of a transaction, the rows it touched, the rows [t0] as they
    would be without it, and the rows as they are.  Other transactions change
    rows it has not touched: row locks keep them from the others. *)
Inductive History : list SqlUndoLog -> gset (string * goValue) -> rowMap -> rowMap -> Prop :=
| HStart t : History [] ∅ t t
| HOwn logs T K l t0 t t' :
    History logs T t0 t -> statement l K t t' -> History (logs ++ [l]) (T ∪ K) t0 t'
| HForeign logs T t0 t t0' t' :
    History logs T t0 t -> agree T t t' -> agree T t0 t0' -> agreeOut T t0' t' -> History logs T t0' t'.

Lemma History_out logs T t0 t : History logs T t0 t -> agreeOut T t0 t.
Proof.
  induction 1 as [t|logs T K l t0 t t' Hh IH Hs|]; [done| |done].
  intros key Hkey. apply not_elem_of_union in Hkey as [H1' H2'].
  destruct Hs as (meta & pk & ks & _ & _ & _ & _ & _ & Hout & _). by rewrite IH, Hout.
Qed.

Lemma statement_loggable l K t t' :
  statement l K t t' -> exists meta, catalog (LSchemaName l) (LTableName l) = Some meta /\ loggable meta l.
Proof.
  intros (meta & pk & ks & Hcat & Hk & _ & _ & _ & _ & Hlog). exists meta. split; [done|].
  destruct Hlog as [Ht Hb Ha Hp Hp' _|Ht Hb Ha _ _ Hp'|Ht Ha Hb Hp _]; (split; [|by rewrite Ht]);
    intros r [E|E]; rewrite ?Hb, ?Ha in E; simplify_eq; (split; [apply restorable_image|done]); try done.
  intros k Hin%elem_of_keyOrder%elem_of_list_to_set. by apply Hp'.
Qed.

Lemma History_loggable logs T t0 t :
  History logs T t0 t ->
  Forall (fun l => exists meta, catalog (LSchemaName l) (LTableName l) = Some meta /\ loggable meta l) logs.
Proof.
  induction 1 as [t|logs T K l t0 t t' Hh IH Hs|]; [constructor| |done].
  apply Forall_app; split; [done|]. constructor; [|constructor]. by eapply statement_loggable.
Qed.

(** A log as the parser returned it. *)
Definition decodedAs (l0 l : SqlUndoLog) : Prop :=
  exists meta, catalog (LSchemaName l) (LTableName l) = Some meta /\ SetTableMeta l0 meta = l /\
    LSchemaName l0 = LSchemaName l /\ LTableName l0 = LTableName l /\ LockKey l0 = LockKey l.

Lemma undoOne_runs l0 l K t t' s :
  decodedAs l0 l -> statement l K t t' -> up s -> agree K (rows (current s)) t' ->
  exists d, runs (undoOne l0) s tt d /\ undo_log d = undo_log (current s) /\
    agree K (rows d) t /\ agreeOut K (rows d) (rows (current s)).
Proof.
  intros (meta & Hcat & Hl & E1 & E2 & _) Hs Hup Hag. unfold undoOne. rewrite E1, E2.
  destruct (GetTableMeta_runs s _ _ _ Hup Hcat) as (s1 & Em & Hup1 & Hc1 & Hd1).
  destruct (Execute_runs l K t t' s1 Hs Hup1) as (d & (s2 & E & Hup2 & Hc2 & Hd2) & Hd); [by rewrite Hc1|].
  exists d. rewrite Hc1 in Hd. split; [|done]. exists s2. erewrite bind_SM_run by exact Em. rewrite Hl.
  split_and!; try done. congruence.
Qed.

Lemma undoLogs_run logs T t0 t :
  History logs T t0 t -> forall ls0 s lockKeys k,
  Forall2 decodedAs ls0 (rev logs) -> up s -> agree T (rows (current s)) t ->
  exists s', undoLogs ls0 lockKeys k s = k (lockKeys ++ (LockKey <$> rev logs)) s' /\ up s' /\
    committed s' = committed s /\ undo_log (current s') = undo_log (current s) /\
    agree T (rows (current s')) t0 /\ agreeOut T (rows (current s')) (rows (current s)).
Proof.
  induction 1 as [t|logs T K l t0 t t' Hh IH Hs|logs T t0 t t0' t' Hh IH H1' H2' H3']; intros ls0 s lockKeys k Hdec Hup Hag.
  - inversion Hdec; subst. exists s. cbn [undoLogs rev fmap list_fmap]. rewrite app_nil_r. split_and!; done.
  - rewrite rev_app_distr in *. cbn [rev app] in *. inversion Hdec as [|l0 ? ls1 ? Hd0 Hdec' E]; subst.
    destruct (undoOne_runs l0 l K t t' s Hd0 Hs Hup) as (d & (s1 & E1 & Hup1 & Hc1 & Hd1) & Hlog & Hk1 & Ho1).
    { intros key Hkey. apply Hag. set_solver. }
    assert (Ht : agree T (rows (current s1)) t).
    { intros key Hkey. rewrite Hc1. destruct (decide (key ∈ K)) as [Hin|Hin]; [by apply Hk1|].
      rewrite Ho1, Hag by set_solver. symmetry.
      destruct Hs as (meta & pk & ks & _ & _ & _ & _ & _ & Hout & _). by apply Hout. }
    destruct (IH ls1 s1 (lockKeys ++ [LockKey l0]) k Hdec' Hup1 Ht) as (s2 & E2 & Hup2 & Hd2 & Hl2 & Hk2 & Ho2).
    exists s2. cbn [undoLogs]. rewrite E1, E2. cbn [fmap list_fmap].
    destruct Hd0 as (meta & _ & _ & _ & _ & ->). rewrite <- app_assoc. cbn [app].
    split_and!; [done | done | congruence | by rewrite Hl2, Hc1 | |].
    + intros key Hkey. destruct (decide (key ∈ T)) as [Hin|Hin]; [by apply Hk2|].
      apply elem_of_union in Hkey as [HT|HK]; [done|]. rewrite Ho2, Hc1, Hk1 by done. symmetry. by apply (History_out _ _ _ _ Hh).
    + intros key [HT HK]%not_elem_of_union. rewrite Ho2, Hc1 by done. by apply Ho1.
  - destruct (IH ls0 s lockKeys k Hdec Hup) as (s2 & E2 & Hup2 & Hd2 & Hl2 & Hk2 & Ho2).
    { intros key Hkey. by rewrite Hag, H1'. }
    exists s2. split_and!; try done. intros key Hkey. by rewrite Hk2, H2'.
Qed.

Context `{BigEndianIO, Protobuf}.

(** What undo_log holds for a log. *)
Definition stored (e : logEntry) (l : SqlUndoLog) : Prop :=
  u8 (EStatus e) = StateNormal /\ EncodeSqlUndoLog l = Ok (EInfo e).

Lemma readLogRow_stored e l c meta :
  stored e l -> catalog (LSchemaName l) (LTableName l) = Some meta -> loggable meta l ->
  exists l0, readLogRow (entryCells c e) = Ok (Log l0) /\ decodedAs l0 l.
Proof.
  intros [Hst Henc] Hcat Hl. destruct (undo_log_roundtrip meta l Hl) as (pb & _ & Hrt).
  destruct (Hrt _ Henc) as (l0 & D & Hset & E1 & E2 & E3). exists l0. cbn [readLogRow entryCells].
  rewrite Hst. change (negb (StateNormal =? StateNormal)) with false. cbn iota. rewrite D, Ok_bind.
  split; [done|]. by exists meta.
Qed.

Lemma readLogs_stored contexts es logs :
  length contexts = length es -> Forall2 stored es logs ->
  Forall (fun l => exists meta, catalog (LSchemaName l) (LTableName l) = Some meta /\ loggable meta l) logs ->
  exists ls0, readLogs (zip_with (fun c e => Ok (entryCells c e)) contexts es) = Ok (Some ls0) /\
    Forall2 decodedAs ls0 logs.
Proof.
  intros Hlen Hst Hlog. revert contexts Hlen. induction Hst as [|e l es logs Hel Hst IH]; intros [|c contexts] Hlen; try done.
  - exists []. split; [done | constructor].
  - inversion Hlog as [|? ? (meta & Hcat & Hl) Hlog']; subst. cbn [length] in Hlen.
    destruct (IH Hlog' contexts ltac:(lia)) as (ls0 & E & Hd).
    destruct (readLogRow_stored e l c meta Hel Hcat Hl) as (l0 & E0 & Hd0).
    exists (l0 :: ls0). cbn [zip_with readLogs]. rewrite E0, Ok_bind. cbn iota. rewrite E, Ok_bind. split; [done | by constructor].
Qed.

Lemma anyRow_zip contexts es :
  length contexts = length es ->
  Undo.anyRow (zip_with (fun c e => Ok (entryCells c e)) contexts es) = negb (bool_decide (es = [])).
Proof. destruct contexts, es; done. Qed.

(** C2: Undoing a transaction takes back what it did and nothing else.  On a server
    that answers, [Undo xid] succeeds for a transaction whose statements
    (updates, inserts and deletes, of the text or of the binary protocol) have
    their logs in undo_log: it commits a state in which every row is as if the
    transaction had not run, also where other transactions changed rows it had
    not touched, its logs are gone, the logs of others are kept, and it returns
    the lock keys of the statements, newest first. *)
Theorem undo_restores xid logs T t0 (s : S) :
  up s -> History logs T t0 (rows (committed s)) ->
  Forall2 stored (List.filter (ownedBy xid) (undo_log (committed s))) logs ->
  exists s', Undo xid s = (Ok (LockKey <$> rev logs, None), s') /\ up s' /\
    committed s' = mkDatabase t0 (List.filter (fun e => negb (ownedBy xid e)) (undo_log (committed s))).
Proof.
  intros Hup Hh Hst. unfold Undo. destruct (Begin_runs s Hup) as (s1 & -> & Hup1 & Hc1 & Hd1).
  destruct (logs_run s1 xid Hup1) as (r & contexts & (s2 & -> & Hup2 & Hc2 & Hd2) & Hrows & Hctx).
  rewrite Hc1 in Hrows, Hctx. set (es := List.filter (ownedBy xid) (undo_log (committed s))) in *.
  destruct (readLogs_stored contexts (rev es) (rev logs)) as (ls0 & E & Hdec).
  { by rewrite length_rev. } { rewrite !rev_reverse. by apply Forall2_reverse. }
  { rewrite rev_reverse. apply Forall_reverse. by eapply History_loggable. }
  rewrite Hrows, E, anyRow_zip by (by rewrite length_rev).
  destruct (undoLogs_run logs T t0 _ Hh ls0 s2 [] (finishUndo (negb (bool_decide (rev es = []))) xid) Hdec Hup2)
    as (s3 & -> & Hup3 & Hd3 & Hl3 & Hk3 & Ho3).
  { intros key _. by rewrite Hc2, Hc1. }
  assert (Hfin : rows (current s3) = t0).
  { apply map_eq. intros key. destruct (decide (key ∈ T)) as [Hin|Hin]; [by apply Hk3|].
    rewrite Ho3 by done. rewrite Hc2, Hc1. symmetry. by apply (History_out _ _ _ _ Hh). }
  assert (Hlog3 : undo_log (current s3) = undo_log (committed s)) by (by rewrite Hl3, Hc2, Hc1).
  cbn [app]. unfold finishUndo. destruct (bool_decide (rev es = [])) eqn:Hes; cbn [negb].
  - apply bool_decide_eq_true in Hes. unfold commitUndo.
    destruct (Commit_runs s3 Hup3) as (s4 & -> & Hup4 & Hc4). exists s4. split_and!; try done.
    rewrite Hc4. transitivity (mkDatabase (rows (current s3)) (undo_log (current s3))); [by destruct (current s3)|].
    rewrite Hfin, Hlog3. f_equal. symmetry. apply filter_none. fold es. rewrite <- (rev_involutive es), Hes. done.
  - destruct (clear_runs s3 xid Hup3) as (r3 & s4 & -> & Hup4 & Hc4 & Hd4). unfold commitUndo.
    destruct (Commit_runs s4 Hup4) as (s5 & -> & Hup5 & Hc5). exists s5. split_and!; try done.
    rewrite Hc5, Hc4. unfold clear_log. by rewrite Hfin, Hlog3.
Qed.

(** *** Dirty rows *)
Lemma undoLogs_app a b lockKeys (k : list string -> SM S (list string * option string)) s :
  undoLogs (a ++ b) lockKeys k s = undoLogs a lockKeys (fun keys => undoLogs b keys k) s.
Proof.
  revert lockKeys s. induction a as [|l a IH]; intros lockKeys s; [done|]. cbn [app undoLogs].
  destruct (undoOne l s) as [[]]; [apply IH | done..].
Qed.

(** The log [l] cannot be undone on the rows [t]: it changed its rows, and the
    rows are neither as it left nor as it found them. *)
Definition stale (l : SqlUndoLog) (t : rowMap) : Prop :=
  exists meta pk ks t1 after, catalog (LSchemaName l) (LTableName l) = Some meta /\ keyed meta pk /\ ks <> [] /\
    loggable meta l /\ Forall (usable (IsBinary l)) ks /\
    GetUndoRows l = Some (image (IsBinary l) meta pk t1 ks) /\ AfterImage l = Some after /\
    (forall k vs, k ∈ ks -> t !! (LTableName l, k) = Some vs -> fits (IsBinary l) meta pk k vs) /\
    BeforeImage l <> AfterImage l /\
    currentImage (IsBinary l) meta pk t ks <> AfterImage l /\
    currentImage (IsBinary l) meta pk t ks <> BeforeImage l.

Lemma restorable_current b meta pk t ks r :
  (forall k vs, k ∈ ks -> t !! (TableName meta, k) = Some vs -> fits b meta pk k vs) ->
  currentImage b meta pk t ks = Some r -> restorableRecords r.
Proof.
  intros Hf. unfold currentImage. destruct (keyOrder _) as [|k0 kr] eqn:E; [done|]. intros [= <-].
  apply restorable_image. intros k Hk. rewrite <- E in Hk. apply elem_of_keyOrder in Hk.
  unfold found in Hk. apply elem_of_list_to_set, list_elem_of_In, filter_In in Hk as [Hin Hsome].
  apply bool_decide_eq_true in Hsome as [vs Hvs]. exists vs. split; [done|]. apply Hf; [by apply list_elem_of_In | done].
Qed.

Lemma Equal_exact a b :
  (forall r, a = Some r -> restorableRecords r) -> (forall r, b = Some r -> restorableRecords r) ->
  Equal a b = true <-> a = b.
Proof.
  intros Ha Hb. destruct a as [r|], b as [q|]; rewrite ?Equal_rules; try done.
  rewrite <- (Equal_rules (Some r) (Some q)), Equal_images by auto. rewrite bool_decide_eq_true. split; congruence.
Qed.

Lemma Equal_differ a b :
  (forall r, a = Some r -> restorableRecords r) -> (forall r, b = Some r -> restorableRecords r) ->
  a <> b -> Equal a b = false.
Proof. intros Ha Hb Hne. destruct (Equal a b) eqn:E; [|done]. by apply Equal_exact in E. Qed.

Lemma Execute_stale l s :
  stale l (rows (current s)) -> up s ->
  exists s', Execute l s = (Err dirty, s') /\ up s' /\ committed s' = committed s.
Proof.
  intros (meta & pk & ks & t1 & after & Hcat & Hk & Hne & [Hl _] & Hu & Hrows & Ha & Hf & Hba & Hca & Hcb) Hup.
  destruct (catalog_keyed _ _ _ Hcat) as [Htb _]. rewrite <- Htb in Hf.
  assert (Hrb : forall r, BeforeImage l = Some r -> restorableRecords r) by (intros r E; apply Hl; by left).
  assert (Hra : forall r, AfterImage l = Some r -> restorableRecords r) by (intros r E; apply Hl; by right).
  pose proof (fun r => restorable_current (IsBinary l) meta pk (rows (current s)) ks r Hf) as Hrc.
  destruct (queryCurrentRecords_runs l _ _ meta pk t1 ks s Hup Hcat Hk Hne Hu Hrows) as (s1 & E1 & Hup1 & Hc1 & Hd1).
  exists s1. split_and!; [|done..]. unfold Execute, mbind, SM_bind, dataValidationAndGoOn.
  rewrite Ha in *. rewrite (Equal_differ (BeforeImage l) (Some after)) by done.
  assert (E2 : (currentRecords ← queryCurrentRecords l;
     if Equal (Some after) currentRecords then mret true
     else if Equal (BeforeImage l) currentRecords then mret false else sfail dirty) s = (Err dirty, s1)).
  { erewrite bind_SM_run by exact E1. rewrite !Equal_differ by done. done. }
  destruct (BeforeImage l); by rewrite E2.
Qed.

Lemma undo_until_stale l0 l rest logs T t1 s s2 ls0 xid ex :
  History logs T t1 (rows (committed s)) -> up s2 -> current s2 = committed s -> committed s2 = committed s ->
  Forall2 decodedAs ls0 (rev logs) -> decodedAs l0 l -> stale l t1 ->
  exists s', undoLogs (ls0 ++ l0 :: rest) [] (finishUndo ex xid) s2 = (Ok (LockKey <$> rev logs, Some dirty), s') /\
    up s' /\ committed s' = committed s.
Proof.
  intros Hh Hup2 Hc2 Hd2 Hdec (meta & Hcat & Hset & E1 & E2 & _) Hst. rewrite undoLogs_app.
  destruct (undoLogs_run logs T t1 _ Hh ls0 s2 [] (fun keys => undoLogs (l0 :: rest) keys (finishUndo ex xid)) Hdec Hup2)
    as (s3 & -> & Hup3 & Hd3 & _ & Hk3 & Ho3).
  { intros key _. by rewrite Hc2. }
  assert (Hfin : rows (current s3) = t1).
  { apply map_eq. intros key. destruct (decide (key ∈ T)) as [Hin|Hin]; [by apply Hk3|].
    rewrite Ho3 by done. rewrite Hc2. symmetry. by apply (History_out _ _ _ _ Hh). }
  destruct (GetTableMeta_runs s3 _ _ _ Hup3 Hcat) as (s4 & Em & Hup4 & Hc4 & Hd4).
  destruct (Execute_stale l s4) as (s5 & E5 & Hup5 & Hd5); [by rewrite Hc4, Hfin | done|].
  destruct (Rollback_runs s5 Hup5) as (s6 & E6 & Hup6 & Hc6 & Hd6).
  exists s6. cbn [undoLogs app]. unfold undoOne. rewrite E1, E2. erewrite bind_SM_run by exact Em. rewrite Hset, E5.
  unfold failing. rewrite E6. split_and!; [done | done | congruence].
Qed.

(** C27: Rows changed behind the transaction's back stop the undo: when the logs
    newer than [l] can be undone and the rows of [l] are then neither as the
    statement left nor as it found them, [Undo] reports dirty records, rolls
    back, and leaves the committed rows and every undo log as they were; the
    lock keys of the newer statements are returned with the error. *)
Theorem undo_refuses_dirty xid older l newer T t1 (s : S) :
  up s -> History newer T t1 (rows (committed s)) -> stale l t1 ->
  Forall (fun l => exists meta, catalog (LSchemaName l) (LTableName l) = Some meta /\ loggable meta l) older ->
  Forall2 stored (List.filter (ownedBy xid) (undo_log (committed s))) (older ++ l :: newer) ->
  exists s', Undo xid s = (Ok (LockKey <$> rev newer, Some dirty), s') /\ up s' /\ committed s' = committed s.
Proof.
  intros Hup Hh Hst Hold Hlogs. unfold Undo. destruct (Begin_runs s Hup) as (s1 & -> & Hup1 & Hc1 & Hd1).
  destruct (logs_run s1 xid Hup1) as (r & contexts & (s2 & -> & Hup2 & Hc2 & Hd2) & Hrows & Hctx).
  rewrite Hc1 in Hrows, Hctx. set (es := List.filter (ownedBy xid) (undo_log (committed s))) in *.
  destruct (readLogs_stored contexts (rev es) (rev (older ++ l :: newer))) as (ls0 & E & Hdec).
  { by rewrite length_rev. } { rewrite !rev_reverse. by apply Forall2_reverse. }
  { rewrite rev_reverse. apply Forall_reverse, Forall_app. split; [done|]. constructor; [|by eapply History_loggable].
    destruct Hst as (meta & pk & ks & t2 & after & Hcat & _ & _ & Hl & _). by exists meta. }
  rewrite Hrows, E. rewrite rev_app_distr in Hdec. cbn [rev] in Hdec. rewrite <- app_assoc in Hdec.
  apply Forall2_app_inv_r in Hdec as (lsn & lso & Hn & Ho & ->). cbn [app] in Ho.
  inversion Ho as [|l0 ? rest ? Hl0 Hrest]; subst.
  apply (undo_until_stale l0 l rest newer T t1 s s2 lsn xid); try done; congruence.
Qed.
End executor.
