(* ===== verification/UndoMem.v ===== *)
(** * A MySQL server in memory, and a transaction undone on it

    An instance of the interfaces [MySQL] and [UndoServer] with one table, and
    instances of [BigEndianIO] and [Protobuf], for the examples of
    [undo_restores] and [undo_refuses_dirty]. *)
From Stdlib Require Import ZArith Lia List.
From stdpp Require Import base gmap list strings.
From S2P Require Import Prelude GoText Encoding Packets GoTime DateTime Rows SqlText Undo UndoSpec UndoRestore.
Import schema.

Local Open Scope Z_scope.

(** ** Encodings *)
#[export] Instance big_endian : BigEndianIO.
Proof.
  refine {| WriteInt n v := rev (le n v); ReadInt n b := unle (rev b) |}.
  intros n v Hv. rewrite rev_involutive. by apply unle_le_small.
Defined.

#[export] Instance PbField_eq_dec : EqDecision PbField.
Proof. solve_decision. Defined.
#[export] Instance PbTableRecords_eq_dec : EqDecision PbTableRecords.
Proof. solve_decision. Defined.
#[export] Instance PbSqlUndoLog_eq_dec : EqDecision PbSqlUndoLog.
Proof. solve_decision. Defined.

#[export] Instance PbField_countable : Countable PbField.
Proof.
  apply (inj_countable' (fun f => (PName f, PKeyType f, PType f, PValue f))
           (fun x => let '(a, b, c, d) := x in mkPbField a b c d)). by intros [].
Defined.
#[export] Instance PbTableRecords_countable : Countable PbTableRecords.
Proof.
  apply (inj_countable' (fun r => (PTableName r, PRows r)) (fun x => let '(a, b) := x in mkPbRecords a b)). by intros [].
Defined.
#[export] Instance PbSqlUndoLog_countable : Countable PbSqlUndoLog.
Proof.
  apply (inj_countable'
    (fun m => (PIsBinary m, PSqlType m, PSchemaName m, PLTableName m, PLockKey m, PBefore m, PAfter m))
    (fun x => let '(a, b, c, d, e, f, g) := x in mkPbLog a b c d e f g)). by intros [].
Defined.

#[export] Instance bit_protobuf : Protobuf.
Proof.
  refine {| Marshal m := Ok (bits (encode m));
            Unmarshal b := match decode (unbits b) with Some m => Ok m | None => Err "proto: cannot parse" end |}.
  intros m b _ [= <-]. by rewrite unbits_bits, decode_encode.
Defined.

#[export] Instance plain_printer : Printer := {| print _ := "?"%string |}.

(** ** The server *)
Definition product : TableMeta :=
  mkMeta "shop" "product" ["id"; "stock"]
    {[ "id" := mkColumn "id" (-5); "stock" := mkColumn "stock" 4 ]} [mkIndex [mkColumn "id" (-5)] IndexTypePrimary].

Lemma product_keyed pk : keyed product pk <-> pk = "id"%string.
Proof.
  split.
  - intros (E & _). vm_compute in E. by injection E.
  - by intros ->.
Qed.

Record memory := mkMemory { durable : database; working : database }.

#[export] Instance memory_view : ServerView memory := {|
  committed := durable;
  current := working;
  up _ := True;
  catalog sch tb := if bool_decide (sch = "shop" /\ tb = "product")%string then Some product else None;
  present _ v := v;
  usable b v := b = true /\ restorable v;
  keyOrder := elements |}.

Definition noRows : queryResult := mkQueryResult [] [].
Definition work (f : database -> database) (m : memory) : memory := mkMemory (durable m) (f (working m)).

Definition memExecute (sql : string) (args : list goValue) (m : memory) : res queryResult * memory :=
  match rev args with
  | [] => (Err "no arguments", m)
  | k :: vs =>
    if String.eqb sql (insertText product "id") || String.eqb sql (updateText product "id")
    then (Ok noRows, work (set_rows (<[("product"%string, k) := rev vs]>)) m)
    else if String.eqb sql (deleteText product "id")
    then (Ok noRows, work (set_rows (delete ("product"%string, k))) m)
    else (Err "You have an error in your SQL syntax", m)
  end.

Definition memSelect (t : rowMap) (ks : list goValue) : queryResult :=
  mkQueryResult ["id"; "stock"]%string
    ((fun k => Ok (Some <$> presented true product "id" t k)) <$> elements (found "product" t ks)).

Definition memDirect (sql : string) (args : list goValue) (m : memory) : res queryResult * memory :=
  if String.eqb sql SelectUndoLogSql then
    match args with
    | [GString xid] =>
      (Ok (mkQueryResult [] ((fun e => Ok (entryCells GNil e)) <$> rev (List.filter (ownedBy xid) (undo_log (working m))))), m)
    | _ => (Err "bad arguments", m)
    end
  else if String.eqb sql DeleteUndoLogByXIDSql then
    match args with
    | [GString xid] => (Ok noRows, work (clear_log xid) m)
    | _ => (Err "bad arguments", m)
    end
  else if String.eqb sql (buildCurrentRecordsForPrepareSql product "id" args)
  then (Ok (memSelect (rows (working m)) args), m)
  else (Err "You have an error in your SQL syntax", m).

(** *** The connection of a local transaction

    It answers image queries: a list of keys, or a condition on the key. *)
Definition lastByte (s : string) : Z := default 0 (last (bytes_of s)).

Lemma bytes_of_app a b : bytes_of (a +:+ b) = bytes_of a ++ bytes_of b.
Proof.
  unfold bytes_of. induction a as [|c a IH]; [done|]. change (String c a +:+ b) with (String c (a +:+ b)).
  cbn [list_of map app]. by rewrite IH.
Qed.

Lemma bytes_app_ne a b : bytes_of b <> [] -> bytes_of (a +:+ b) <> [].
Proof. intros Hb E. rewrite bytes_of_app in E. by apply app_eq_nil in E as [_ E]. Qed.

Lemma lastByte_app a b : bytes_of b <> [] -> lastByte (a +:+ b) = lastByte b.
Proof.
  intros Hb. unfold lastByte. rewrite bytes_of_app, last_app. destruct (last (bytes_of b)) eqn:E; [done|].
  by apply last_None in E.
Qed.

Definition memMatches (tb w : string) (args : list goValue) (t : rowMap) : list goValue :=
  match args with
  | [k] => if bool_decide (is_Some (t !! (tb, k))) then [k] else []
  | _ => []
  end.

Definition memImages (sql : string) (args : list goValue) (m : memory) : res queryResult * memory :=
  if lastByte sql =? 41 then (Ok (memSelect (rows (working m)) args), m)
  else (Ok (mkQueryResult ["id"; "stock"]%string
          ((fun k => Ok (Some <$> presented true product "id" (rows (working m)) k)) <$>
           memMatches "product" "" args (rows (working m)))), m).

Definition memLog (sql : string) (args : list goValue) (m : memory) : res queryResult * memory :=
  if String.eqb sql InsertUndoLogSql then
    match args with
    | [GString xid; GInt64 branch; _; GBytes info; GInt64 status] =>
      (Ok noRows, work (fun d => mkDatabase (rows d) (undo_log d ++ [mkEntry xid branch info status])) m)
    | _ => (Err "bad arguments", m)
    end
  else (Err "You have an error in your SQL syntax", m).

#[export] Instance memory_mysql : MySQL memory := {|
  db_Begin m := (Ok tt, mkMemory (durable m) (durable m));
  db_ExecuteSqlDirectly := memDirect;
  tx_ExecuteSql := memExecute;
  tx_ExecuteSqlDirectly := memDirect;
  tx_QueryDirectly sql m := (Err "not supported", m);
  tx_Commit m := (Ok tt, mkMemory (working m) (working m));
  tx_Rollback m := (Ok tt, mkMemory (durable m) (durable m));
  conn_PrepareExecuteArgs := memLog;
  conn_PrepareQueryArgs := memImages;
  conn_Query sql m := (Ok (mkQueryResult ["id"; "stock"]%string []), m);
  GetTableMeta sch tb m :=
    (match catalog sch tb with Some meta => Ok meta | None => Err "no such table" end, m) |}.

Lemma catalog_product sch tb meta :
  catalog sch tb = Some meta -> tb = "product"%string /\ meta = product.
Proof. cbn. case_bool_decide as E; [|done]. destruct E as [_ ->]. by intros [= <-]. Qed.

Lemma memSelect_selected t ks : selected true product "id" t ks (memSelect t ks).
Proof.
  split; [done|]. cbn [ResultRows memSelect keyOrder memory_view]. apply Forall2_fmap_l, Forall_Forall2_diag, Forall_true.
  intros k. eexists; split; [reflexivity|]. rewrite <- list_fmap_compose. apply list_fmap_id.
Qed.

Lemma zip_replicate (es : list logEntry) :
  (fun e => Ok (entryCells GNil e)) <$> rev es =
  zip_with (fun c e => Ok (entryCells c e)) (replicate (length es) GNil) (rev es).
Proof.
  rewrite <- (length_rev es). induction (rev es) as [|e l IH]; [done|].
  cbn [length replicate zip_with fmap list_fmap]. f_equal. exact IH.
Qed.

#[export] Instance memory_server : UndoServer memory.
Proof.
  split.
  - intros sch tb meta [-> ->]%catalog_product. split; [done|]. exists "id"%string. by apply product_keyed.
  - done.
  - intros b v [_ Hv]. done.
  - done.
  - intros m _. eexists; split_and!; reflexivity || done.
  - intros m _. eexists; split_and!; reflexivity || done.
  - intros m _. eexists; split_and!; reflexivity || done.
  - intros m sch tb meta _ Hcat. exists m. cbn [GetTableMeta memory_mysql]. by rewrite Hcat.
  - intros m sch tb meta pk b k vs _ [-> ->]%catalog_product ->%product_keyed _ _.
    exists noRows, (work (set_rows (<[("product"%string, k) := vs]>)) m). split; [|by split]. cbn [tx_ExecuteSql memory_mysql present memory_view].
    rewrite list_fmap_id. unfold memExecute. rewrite rev_app_distr. cbn [rev app]. rewrite rev_involutive.
    by rewrite String.eqb_refl.
  - intros m sch tb meta pk b k vs _ [-> ->]%catalog_product ->%product_keyed _ _.
    exists noRows, (work (set_rows (<[("product"%string, k) := vs]>)) m). split; [|by split]. cbn [tx_ExecuteSql memory_mysql present memory_view].
    rewrite list_fmap_id. unfold memExecute. rewrite rev_app_distr. cbn [rev app]. rewrite rev_involutive.
    by rewrite String.eqb_refl, orb_true_r.
  - intros m sch tb meta pk b k _ [-> ->]%catalog_product ->%product_keyed _ _.
    exists noRows. eexists; split_and!; reflexivity || done.
  - intros m sch tb meta pk ks _ [-> ->]%catalog_product ->%product_keyed _ _.
    exists (memSelect (rows (working m)) ks). split; [|apply memSelect_selected]. exists m.
    cbn [tx_ExecuteSqlDirectly memory_mysql]. unfold memDirect.
    change (String.eqb (buildCurrentRecordsForPrepareSql product "id" ks) SelectUndoLogSql) with false.
    change (String.eqb (buildCurrentRecordsForPrepareSql product "id" ks) DeleteUndoLogByXIDSql) with false.
    cbn iota. by rewrite String.eqb_refl.
  - intros m sch tb meta pk ks _ _ _ Hne Hu. destruct ks as [|k ks]; [done|].
    inversion Hu as [|? ? [Hk _] _]. discriminate Hk.
  - intros m xid _. set (es := List.filter (ownedBy xid) (undo_log (working m))).
    exists (mkQueryResult [] ((fun e => Ok (entryCells GNil e)) <$> rev es)), (replicate (length es) GNil).
    split; [exists m; by split_and!|]. split; [apply zip_replicate | apply length_replicate].
  - intros m xid _. exists noRows. eexists; split_and!; reflexivity || done.
Qed.

(** ** A transaction and its undo

    Product 1 is updated and later deleted, product 3 is inserted; meanwhile
    another transaction sells a piece of product 2. *)
Definition row_of (n : Z) : string * goValue := ("product"%string, GInt64 n).

Definition opened : rowMap := <[row_of 1 := [GInt64 10]]> (<[row_of 2 := [GInt64 5]]> ∅).
Definition updated : rowMap := <[row_of 1 := [GInt64 7]]> opened.
Definition sold : rowMap := <[row_of 2 := [GInt64 4]]> updated.
Definition inserted : rowMap := <[row_of 3 := [GInt64 9]]> sold.
Definition deleted : rowMap := delete (row_of 1) inserted.

Definition memImage (t : rowMap) (n : Z) : option TableRecords := Some (image (S := memory) true product "id" t [GInt64 n]).
Definition updateLog := BuildUndoItem true SQLType_UPDATE "shop" "product" "product:1" (memImage opened 1) (memImage updated 1).
Definition insertLog3 := BuildUndoItem true SQLType_INSERT "shop" "product" "product:3" None (memImage inserted 3).
Definition deleteLog := BuildUndoItem true SQLType_DELETE "shop" "product" "product:1" (memImage inserted 1) None.

Definition entryOf (l : SqlUndoLog) : logEntry :=
  mkEntry (bytes_of "gs/shop/7") 1 (match EncodeSqlUndoLog l with Ok b => b | _ => [] end) 0.

Lemma entryOf_stored : Forall2 stored (entryOf <$> [updateLog; insertLog3; deleteLog]) [updateLog; insertLog3; deleteLog].
Proof. repeat constructor; by vm_compute. Qed.

Lemma product_cat : catalog (S := memory) "shop" "product" = Some product.
Proof. done. Qed.

Lemma id_keyed : keyed product "id".
Proof. by apply product_keyed. Qed.

Lemma product_row (t : rowMap) n v :
  in_i64 n -> in_i64 v -> t !! row_of n = Some [GInt64 v] -> present_rows (S := memory) true product "id" t [GInt64 n].
Proof.
  intros Hn Hv E k ->%list_elem_of_singleton. exists [GInt64 v]. split; [exact E|].
  split; [done|]. split; [done|]. by constructor.
Qed.

Lemma out_insert (n : Z) (t : rowMap) (vs : list goValue) : agreeOut (keysOf "product" [GInt64 n]) t (<[row_of n := vs]> t).
Proof.
  intros key Hk. rewrite lookup_insert_ne; [done|]. intros <-. apply Hk, elem_of_keysOf. split; [done | left].
Qed.

Lemma out_delete (n : Z) (t : rowMap) : agreeOut (keysOf "product" [GInt64 n]) t (delete (row_of n) t).
Proof.
  intros key Hk. rewrite lookup_delete_ne; [done|]. intros <-. apply Hk, elem_of_keysOf. split; [done | left].
Qed.

Lemma product_statement l (n : Z) t t' :
  LSchemaName l = "shop"%string -> LTableName l = "product"%string ->
  agreeOut (keysOf "product" [GInt64 n]) t t' -> Logged (S := memory) l product "id" [GInt64 n] t t' ->
  statement (S := memory) l (keysOf "product" [GInt64 n]) t t'.
Proof.
  intros E1 E2 Hout Hlog. exists product, "id"%string, [GInt64 n]. rewrite E1, E2.
  split; [done|]. split; [apply id_keyed|]. split; [done|]. split; [apply NoDup_singleton|]. by split_and!.
Qed.

Definition touched : gset (string * goValue) :=
  ∅ ∪ keysOf "product" [GInt64 1] ∪ keysOf "product" [GInt64 3] ∪ keysOf "product" [GInt64 1].

Lemma order_history :
  History (S := memory) [updateLog; insertLog3; deleteLog] touched (<[row_of 2 := [GInt64 4]]> opened) deleted.
Proof.
  apply (HOwn [updateLog; insertLog3] _ _ deleteLog _ inserted).
  - apply (HOwn [updateLog] _ _ insertLog3 _ sold).
    + apply (HForeign [updateLog] _ opened updated).
      * apply (HOwn [] _ _ updateLog _ opened); [apply HStart|].
        apply product_statement; [done | done | apply out_insert|]. apply LoggedUpdate; try done.
        -- by apply (product_row _ 1 10).
        -- by apply (product_row _ 1 7).
      * intros key Hk. unfold sold. rewrite lookup_insert_ne; [done|]. intros <-. vm_compute in Hk. discriminate Hk.
      * intros key Hk. rewrite lookup_insert_ne; [done|]. intros <-. vm_compute in Hk. discriminate Hk.
      * intros key Hk. unfold sold, updated. rewrite insert_insert_ne by done.
        apply (out_insert 1). intros Hin. apply Hk. set_solver.
    + apply product_statement; [done | done | apply out_insert|]. apply LoggedInsert; try done.
      * by intros k ->%list_elem_of_singleton.
      * by apply (product_row _ 3 9).
  - apply product_statement; [done | done | apply out_delete|]. apply LoggedDelete; try done.
    + by apply (product_row _ 1 7).
    + by intros k ->%list_elem_of_singleton.
Qed.

Definition server0 : memory :=
  let d := mkDatabase deleted (mkEntry (bytes_of "gs/shop/6") 1 [] 0 :: (entryOf <$> [updateLog; insertLog3; deleteLog])) in
  mkMemory d d.

Lemma undo_restores_witness :
  exists s', Undo (bytes_of "gs/shop/7") server0 = (Ok (["product:1"; "product:3"; "product:1"]%string, None), s') /\
    committed s' = mkDatabase (<[row_of 2 := [GInt64 4]]> opened) [mkEntry (bytes_of "gs/shop/6") 1 [] 0].
Proof.
  destruct (undo_restores (bytes_of "gs/shop/7") [updateLog; insertLog3; deleteLog] touched
              (<[row_of 2 := [GInt64 4]]> opened) server0) as (s' & E & _ & D).
  - exact I.
  - exact order_history.
  - exact entryOf_stored.
  - exists s'. split; [exact E | exact D].
Defined.

(** The same product, changed by someone else after the update. *)
Definition meddled : rowMap := <[row_of 1 := [GInt64 3]]> opened.

Lemma updateLog_stale : stale (S := memory) updateLog meddled.
Proof.
  exists product, "id"%string, [GInt64 1], opened. eexists.
  split; [done|]. split; [apply id_keyed|]. split; [done|]. split.
  { split; [|by intros]. intros r [[= <-]|[= <-]]; (split; [apply (restorable_image (S := memory) true)|done]);
      [by apply (product_row _ 1 10) | by apply (product_row _ 1 7)]. }
  split; [by constructor|]. split; [done|]. split; [done|]. split.
  { intros k vs ->%list_elem_of_singleton E. vm_compute in E. injection E as <-. split; [done|]. split; [done|]. by constructor. }
  split_and!; intros E; vm_compute in E; discriminate E.
Qed.

Definition server1 : memory := let d := mkDatabase meddled [entryOf updateLog] in mkMemory d d.

Lemma undo_refuses_dirty_witness :
  exists s', Undo (bytes_of "gs/shop/7") server1 = (Ok ([], Some dirty), s') /\ committed s' = committed server1.
Proof.
  destruct (undo_refuses_dirty (bytes_of "gs/shop/7") [] updateLog [] ∅ meddled server1) as (s' & E & _ & D).
  - exact I.
  - apply HStart.
  - exact updateLog_stale.
  - constructor.
  - repeat constructor; by vm_compute.
  - exists s'. split; [exact E | exact D].
Defined.
