(* ===== verification/TableMeta.v ===== *)
(** * Table metadata: [pkg/meta/table_meta_cache.go], [pkg/constant/sql_data_type.go],
    [ParseTable] of [pkg/misc/misc.go], [pkg/dt/schema/column_meta.go] and [index_meta.go]

    Columns and indexes of a table are read from INFORMATION_SCHEMA by prepared
    statements and kept in a cache with an expiry.  The database is the class
    [MySQL] of [Undo]; [toMeta] forgets what the other components do not use. *)
From Stdlib Require Import ZArith Lia List Ascii.
From stdpp Require Import base gmap list strings.
From S2P Require Import Prelude GoText Encoding Rows SqlText Undo.
Import Undo.schema.

Local Open Scope Z_scope.

(** ** Types *)
Definition SqlDataTypes : list (string * Z) :=
  [("BIT", -7); ("TINYINT", -6); ("SMALLINT", 5); ("INTEGER", 4); ("BIGINT", -5); ("FLOAT", 6); ("REAL", 7); ("DOUBLE", 8);
   ("NUMERIC", 2); ("DECIMAL", 3); ("CHAR", 1); ("VARCHAR", 12); ("LONGVARCHAR", -1); ("DATE", 91); ("TIME", 92);
   ("TIMESTAMP", 93); ("BINARY", -2); ("VARBINARY", -3); ("LONGVARBINARY", -4); ("NULL", 0); ("OTHER", 1111);
   ("JAVA_OBJECT", 2000); ("DISTINCT", 2001); ("STRUCT", 2002); ("ARRAY", 2003); ("BLOB", 2004); ("CLOB", 2005); ("REF", 2006);
   ("DATALINK", 70); ("BOOLEAN", 16); ("ROWID", -8); ("NCHAR", -15); ("NVARCHAR", -9); ("LONGNVARCHAR", -16); ("NCLOB", 2011);
   ("SQLXML", 2009); ("REF_CURSOR", 2012); ("TIME_WITH_TIMEZONE", 2013); ("TIMESTAMP_WITH_TIMEZONE", 2014)]%string.
(** A name that is not in the map yields 0. *)
Definition GetSqlDataType (dataType : string) : Z :=
  match List.find (fun e => String.eqb (fst e) (ToUpper dataType)) SqlDataTypes with Some (_, n) => n | None => 0 end.

Record columnMeta := mkColumnMeta {
  cmTableCat : string; cmTableSchemeName : string; cmTableName : string; cmColumnName : string; cmDataType : Z; cmDataTypeName : string;
  cmColumnSize : Z; cmDecimalDigits : Z; cmNumPrecRadix : Z; cmNullable : Z; cmRemarks : string; cmColumnDef : string;
  cmCharOctetLength : Z; cmOrdinalPosition : Z; cmIsNullable : string; cmIsAutoIncrement : string }.
Record indexMeta := mkIndexMeta {
  imValues : list columnMeta; imNonUnique : bool; imIndexName : string; imColumnName : string; imIndexType : IndexType;
  imAscOrDesc : string; imCardinality : Z; imOrdinalPosition : Z }.
Record tableMeta := mkTableMeta {
  tmSchemaName : string; tmTableName : string; tmColumns : list string;
  tmAllColumns : gmap string columnMeta; tmAllIndexes : gmap string indexMeta }.
#[export] Instance columnMeta_eq_dec : EqDecision columnMeta.
Proof. solve_decision. Defined.
#[export] Instance indexMeta_eq_dec : EqDecision indexMeta.
Proof. solve_decision. Defined.
#[export] Instance tableMeta_eq_dec : EqDecision tableMeta.
Proof. solve_decision. Defined.

(** The zero value of [ColumnMeta]. *)
Definition noColumn : columnMeta :=
  mkColumnMeta EmptyString EmptyString EmptyString EmptyString 0 EmptyString 0 0 0 0 EmptyString EmptyString 0 0 EmptyString EmptyString.

Definition toColumn (c : columnMeta) : ColumnMeta := mkColumn (cmColumnName c) (cmDataType c).
Definition toMeta (tm : tableMeta) : TableMeta :=
  mkMeta (tmSchemaName tm) (tmTableName tm) (tmColumns tm) (toColumn <$> tmAllColumns tm)
    ((fun e => mkIndex (toColumn <$> imValues (snd e)) (imIndexType (snd e))) <$> map_to_list (tmAllIndexes tm)).

(** ** Names *)

(** [strings.Trim(s, cutset)] *)
Fixpoint trimLeft (cutset : list ascii) (s : list ascii) : list ascii :=
  match s with
  | c :: s' => if existsb (Ascii.eqb c) cutset then trimLeft cutset s' else s
  | [] => []
  end.
Definition Trim (s : string) (cutset : list ascii) : string :=
  of_list (rev (trimLeft cutset (rev (trimLeft cutset (list_of s))))).

Definition ParseTable (tableName : string) (cutSet : list ascii) : string * string :=
  match cut_last tableName "." with
  | Some (db, tName) => (Trim db cutSet, Trim tName cutSet)
  | None => (EmptyString, Trim tableName cutSet)
  end.

(** [strings.ReplaceAll(s, "`", "")] *)
Definition noBackquotes (s : string) : string := of_list (List.filter (fun c => negb (Ascii.eqb c "`")) (list_of s)).
Definition GetCacheKey (dbName tableName : string) : string :=
  let defaultTableName :=
    match Split (noBackquotes tableName) "." with
    | _ :: t :: _ => t
    | [t] => t
    | [] => EmptyString
    end in
  dbName +:+ "." +:+ defaultTableName.

(** ** Rows of INFORMATION_SCHEMA *)

(** [fmt.Sprintf("%s", v)]: only strings and bytes have that format. *)
Definition Sprints `{Printer} (v : goValue) : string :=
  match v with
  | GString s | GBytes s => string_of s
  | GNil => "%!s(<nil>)"
  | GInt64 z => "%!s(int64=" +:+ FormatInt z +:+ ")"
  | GUint64 z => "%!s(uint64=" +:+ FormatInt z +:+ ")"
  | GBool b => "%!s(bool=" +:+ (if b then "true" else "false") +:+ ")"
  | _ => print v
  end%string.

(** [values[i]], [nil] for SQL's NULL; beyond the row it panics. *)
Definition cell (values : list (option goValue)) (i : nat) : res (option goValue) := from_option Panic (values !! i).
Definition textAt `{Printer} (values : list (option goValue)) (i : nat) : res string :=
  v ← cell values i; Ok (match v with Some v => Sprints v | None => EmptyString end).
(** [.Val.(int64)] *)
Definition intAt (values : list (option goValue)) (i : nat) : res Z :=
  v ← cell values i;
  match v with
  | None => Ok 0
  | Some (GInt64 z) => Ok z
  | Some _ => Panic
  end.

Definition readColumn `{Printer} (values : list (option goValue)) : res columnMeta :=
  cat ← textAt values 0; schema_ ← textAt values 1; table ← textAt values 2; name ← textAt values 3;
  typ ← textAt values 4; size ← intAt values 5; digits_ ← intAt values 6; radix ← intAt values 7;
  nullable ← textAt values 8; remarks ← textAt values 9; def ← textAt values 10; octets ← intAt values 11; position ← intAt values 12;
  extra ← textAt values 14;
  Ok (mkColumnMeta cat schema_ table (Trim name ["`"; " "]%char) (GetSqlDataType typ) typ size digits_ radix
        (if String.eqb (ToLower nullable) "yes" then 1 else 0) remarks def octets position nullable extra).
Definition readIndex `{Printer} (values : list (option goValue)) : res indexMeta :=
  name ← textAt values 0; column ← textAt values 1; nonUnique ← textAt values 2; position ← intAt values 4;
  order ← textAt values 5; cardinality ← intAt values 6;
  let nonUnique := String.eqb (ToLower nonUnique) "yes" || String.eqb nonUnique "1" in
  let typ := if String.eqb (ToLower name) "primary" then IndexTypePrimary
             else if negb nonUnique then IndexTypeUnique else IndexTypeNormal in
  Ok (mkIndexMeta [] nonUnique name column typ order (i32 cardinality) (i32 position)).

(** The rows up to the first that does not decode. *)
Fixpoint readRows {A} (read : list (option goValue) -> res A) (rows : list (res (list (option goValue)))) : res (list A) :=
  match rows with
  | Ok values :: rows' => x ← read values; rest ← readRows read rows'; Ok (x :: rest)
  | Panic :: _ => Panic
  | _ => Ok []
  end.

Definition columnsQuery : string :=
  "SELECT `TABLE_CATALOG`, `TABLE_SCHEMA`, `TABLE_NAME`, `COLUMN_NAME`, `DATA_TYPE`, `CHARACTER_MAXIMUM_LENGTH`, `NUMERIC_PRECISION`, `NUMERIC_SCALE`, `IS_NULLABLE`, `COLUMN_COMMENT`, `COLUMN_DEFAULT`, `CHARACTER_OCTET_LENGTH`, `ORDINAL_POSITION`, `COLUMN_KEY`, `EXTRA`  FROM `INFORMATION_SCHEMA`.`COLUMNS` WHERE `TABLE_SCHEMA` = ? AND `TABLE_NAME` = ? ORDER BY ORDINAL_POSITION ASC".
Definition indexesQuery : string :=
  "SELECT `INDEX_NAME`, `COLUMN_NAME`, `NON_UNIQUE`, `INDEX_TYPE`, `SEQ_IN_INDEX`, `COLLATION`, `CARDINALITY` FROM `INFORMATION_SCHEMA`.`STATISTICS` WHERE `TABLE_SCHEMA` = ? AND `TABLE_NAME` = ?".

Section meta.
Context {S : Type} `{MySQL S} `{Printer}.

(** The result of a pure computation. *)
Definition lift {A} (m : res A) : SM S A := fun s => (m, s).
Definition wrapError {A} (text : string) (m : SM S A) : SM S A := fun s =>
  match m s with (Err e, s') => (Err (text +:+ ": " +:+ e), s') | r => r end.

Definition tableArgs (schemaName tableName : string) : list goValue :=
  let '(dbName, table) := ParseTable tableName ["`"%char] in
  let dbName := if String.eqb dbName EmptyString then schemaName else dbName in
  [GString (bytes_of dbName); GString (bytes_of table)].
Definition GetColumns (schemaName tableName : string) : SM S (list columnMeta) :=
  r ← db_ExecuteSqlDirectly columnsQuery (tableArgs schemaName tableName);
  lift (readRows readColumn (ResultRows r)).
Definition GetIndexes (schemaName tableName : string) : SM S (list indexMeta) :=
  r ← db_ExecuteSqlDirectly indexesQuery (tableArgs schemaName tableName);
  lift (readRows readIndex (ResultRows r)).

(** The loop over the indexes: the column is appended to a copy of an index that is
    in the map already. *)
Definition addIndex (columns : gmap string columnMeta) (indexes : gmap string indexMeta) (index : indexMeta) : gmap string indexMeta :=
  let col := match columns !! imColumnName index with Some c => c | None => noColumn end in
  match indexes !! imIndexName index with
  | Some _ => indexes
  | None =>
    <[imIndexName index := mkIndexMeta (imValues index ++ [col]) (imNonUnique index) (imIndexName index) (imColumnName index)
        (imIndexType index) (imAscOrDesc index) (imCardinality index) (imOrdinalPosition index)]> indexes
  end.

Definition FetchSchema (schemaName tableName : string) : SM S tableMeta :=
  columnMetas ← wrapError ("Could not found any columns in the table: " +:+ tableName) (GetColumns schemaName tableName);
  let all := foldl (fun m c => <[cmColumnName c := c]> m) ∅ columnMetas in
  indexMetas ← wrapError ("Could not found any index in the table: " +:+ tableName) (GetIndexes schemaName tableName);
  let indexes := foldl (addIndex all) ∅ indexMetas in
  if decide (indexes = ∅) then sfail ("Could not found any index in the table: " +:+ tableName)
  else mret (mkTableMeta schemaName tableName (cmColumnName <$> columnMetas) all indexes).

(** ** The cache: [go-cache], whose items expire *)
Definition ExpireTime : Z := 900000000000.
Definition metaCache : Type := gmap string (tableMeta * Z).
Definition cacheGet (now : Z) (key : string) (c : metaCache) : option tableMeta :=
  match c !! key with Some (m, expiration) => if expiration <? now then None else Some m | None => None end.
Definition cacheSet (now : Z) (key : string) (m : tableMeta) (c : metaCache) : metaCache := <[key := (m, now + ExpireTime)]> c.

(** What a database does beside the cache. *)
Definition onDB {A} (m : SM S A) : SM (metaCache * S) A := fun st => let '(r, s') := m (snd st) in (r, (fst st, s')).
Definition setCache (now : Z) (key : string) (m : tableMeta) : SM (metaCache * S) unit :=
  fun st => (Ok tt, (cacheSet now key m (fst st), snd st)).

Definition GetTableMeta (now : Z) (schemaName tableName : string) : SM (metaCache * S) tableMeta := fun st =>
  if String.eqb schemaName EmptyString then sfail "TableMeta cannot be fetched without schemaName" st
  else if String.eqb tableName EmptyString then sfail "TableMeta cannot be fetched without tableName" st
  else
    let cacheKey := GetCacheKey schemaName tableName in
    match cacheGet now cacheKey (fst st) with
    | Some m => (Ok m, st)
    | None => (m ← onDB (FetchSchema schemaName tableName); _ ← setCache now cacheKey m; mret m) st
    end.

(** One turn of [Refresh], and the loop over the items in some order. *)
Definition refreshItem (now : Z) (item : string * tableMeta) : SM (metaCache * S) unit :=
  let '(k, m) := item in
  let key := GetCacheKey (tmSchemaName m) (tmTableName m) in
  if String.eqb k key then
    tMeta ← onDB (FetchSchema (tmSchemaName m) (tmTableName m));
    if decide (tMeta = m) then mret tt else setCache now key tMeta
  else mret tt.
Fixpoint refreshLoop (now : Z) (items : list (string * tableMeta)) : SM (metaCache * S) unit :=
  match items with
  | [] => mret tt
  | item :: items' => _ ← refreshItem now item; refreshLoop now items'
  end.
(** [Items] leaves out what has expired; [order] is the order of the map. *)
Definition Refresh (order : list (string * tableMeta) -> list (string * tableMeta)) (now : Z) : SM (metaCache * S) unit := fun st =>
  refreshLoop now (order ((fun e => (fst e, fst (snd e))) <$> List.filter (fun e => now <=? snd (snd e)) (map_to_list (fst st)))) st.

(** ** What is fetched *)

(** The index made of one row: its only column is the one of that row. *)
Definition single (columns : gmap string columnMeta) (index : indexMeta) : indexMeta :=
  mkIndexMeta (imValues index ++ [match columns !! imColumnName index with Some c => c | None => noColumn end])
    (imNonUnique index) (imIndexName index) (imColumnName index) (imIndexType index) (imAscOrDesc index)
    (imCardinality index) (imOrdinalPosition index).
Definition named (name : string) (index : indexMeta) : bool := String.eqb (imIndexName index) name.

Lemma addIndex_lookup columns indexes index name :
  addIndex columns indexes index !! name =
  match indexes !! name with
  | Some i => Some i
  | None => if named name index then Some (single columns index) else None
  end.
Proof.
  unfold addIndex, named. destruct (String.eqb_spec (imIndexName index) name) as [<-|Hne].
  - destruct (indexes !! imIndexName index) eqn:E; [done|]. by rewrite lookup_insert_eq.
  - destruct (indexes !! imIndexName index) eqn:E; [by destruct (indexes !! name)|].
    rewrite lookup_insert_ne by done. by destruct (indexes !! name).
Qed.
(** An index is what the first row with its name says. *)
Lemma indexes_first columns l indexes name :
  foldl (addIndex columns) indexes l !! name =
  match indexes !! name with
  | Some i => Some i
  | None => single columns <$> List.find (named name) l
  end.
Proof.
  revert indexes. induction l as [|i l IH]; intros indexes; cbn [foldl List.find]; [by destruct (indexes !! name)|].
  rewrite IH, addIndex_lookup. destruct (indexes !! name); [done|]. by destruct (named name i).
Qed.

Definition byName (columnMetas : list columnMeta) : gmap string columnMeta :=
  foldl (fun m c => <[cmColumnName c := c]> m) ∅ columnMetas.
Lemma byName_lookup columnMetas name c : byName columnMetas !! name = Some c -> cmColumnName c = name /\ c ∈ columnMetas.
Proof.
  unfold byName. induction columnMetas as [|d l IH] using rev_ind; [done|].
  rewrite foldl_app; cbn. destruct (decide (cmColumnName d = name)) as [<-|Hne].
  - rewrite lookup_insert_eq. intros [= <-]. split; [done|]. apply elem_of_app. right. by apply list_elem_of_singleton.
  - rewrite lookup_insert_ne by done. intros [? ?]%IH. split; [done|]. apply elem_of_app. by left.
Qed.
Lemma byName_elem columnMetas name : name ∈ cmColumnName <$> columnMetas -> is_Some (byName columnMetas !! name).
Proof.
  unfold byName. induction columnMetas as [|d l IH] using rev_ind; [by intros ?%not_elem_of_nil|].
  rewrite foldl_app, fmap_app; cbn. intros [Hl|Hd]%elem_of_app; destruct (decide (cmColumnName d = name)) as [<-|Hne];
    rewrite ?lookup_insert_eq, ?lookup_insert_ne by done; eauto.
  apply list_elem_of_singleton in Hd. congruence.
Qed.

(** The two queries and what their rows say. *)
Inductive answers (schemaName tableName : string) (s : S) (columnMetas : list columnMeta) (indexMetas : list indexMeta) (s' : S) : Prop :=
| Answers s1 r1 r2 :
    db_ExecuteSqlDirectly columnsQuery (tableArgs schemaName tableName) s = (Ok r1, s1) ->
    readRows readColumn (ResultRows r1) = Ok columnMetas ->
    db_ExecuteSqlDirectly indexesQuery (tableArgs schemaName tableName) s1 = (Ok r2, s') ->
    readRows readIndex (ResultRows r2) = Ok indexMetas ->
    answers schemaName tableName s columnMetas indexMetas s'.

Lemma FetchSchema_run schemaName tableName s columnMetas indexMetas s' :
  answers schemaName tableName s columnMetas indexMetas s' ->
  FetchSchema schemaName tableName s =
  (let indexes := foldl (addIndex (byName columnMetas)) ∅ indexMetas in
   if decide (indexes = ∅) then Err ("Could not found any index in the table: " +:+ tableName)
   else Ok (mkTableMeta schemaName tableName (cmColumnName <$> columnMetas) (byName columnMetas) indexes), s').
Proof.
  intros [s1 r1 r2 E1 R1 E2 R2].
  assert (GetColumns schemaName tableName s = (Ok columnMetas, s1)) as Ec.
  { unfold GetColumns. erewrite bind_SM_run by exact E1. unfold lift. by rewrite R1. }
  assert (GetIndexes schemaName tableName s1 = (Ok indexMetas, s')) as Ei.
  { unfold GetIndexes. erewrite bind_SM_run by exact E2. unfold lift. by rewrite R2. }
  unfold FetchSchema. erewrite bind_SM_run by (unfold wrapError; by rewrite Ec).
  erewrite bind_SM_run by (unfold wrapError; by rewrite Ei).
  fold (byName columnMetas). cbn zeta. by destruct (decide _).
Qed.

Lemma readIndex_values values index : readIndex values = Ok index -> imValues index = [].
Proof. unfold readIndex. intros Hr. repeat (destruct (textAt _ _) in Hr || destruct (intAt _ _) in Hr; try done). by injection Hr as <-. Qed.
Lemma readRows_all {A} (read : list (option goValue) -> res A) (P : A -> Prop) rows l :
  (forall values x, read values = Ok x -> P x) -> readRows read rows = Ok l -> Forall P l.
Proof.
  intros HP. revert l. induction rows as [|[values|e|] rows IH]; intros l; cbn; [by intros [= <-] | | by intros [= <-] | done].
  destruct (read values) as [x| |] eqn:Ex; cbn; [|done..]. destruct (readRows read rows) as [rest| |]; cbn; [|done..].
  intros [= <-]. constructor; eauto.
Qed.
Lemma answers_values schemaName tableName s columnMetas indexMetas s' :
  answers schemaName tableName s columnMetas indexMetas s' -> Forall (fun i => imValues i = []) indexMetas.
Proof. intros [s1 r1 r2 _ _ _ R2]. eapply readRows_all; [|exact R2]. intros values x. apply readIndex_values. Qed.

Lemma remove_dups_one {A} `{EqDecision A} (l : list A) (c : A) : l <> [] -> Forall (eq c) l -> remove_dups l = [c].
Proof.
  induction l as [|x l IH]; [done|]. intros _ [-> Hl]%Forall_cons. cbn. destruct l as [|y l]; [done|].
  destruct (decide_rel _ x (y :: l)) as [_|Hn]; [by apply IH|]. destruct Hn. inversion_clear Hl; subst. by left.
Qed.

(** The indexes as the other components see them. *)
Lemma keyed_primary tm c :
  (exists name i, tmAllIndexes tm !! name = Some i /\ imIndexType i = IndexTypePrimary) ->
  (forall name i, tmAllIndexes tm !! name = Some i -> imIndexType i = IndexTypePrimary -> exists col, imValues i = [col] /\ cmColumnName col = c) ->
  GetPKName (toMeta tm) = Ok c.
Proof.
  intros (name & i & Hi & Hp) Hall. unfold GetPKName, GetPrimaryKeyMap.
  rewrite (remove_dups_one _ c); [done| |].
  - destruct (Hall _ _ Hi Hp) as (col & Hv & Hc). apply (elem_of_not_nil c), list_elem_of_fmap.
    exists (toColumn col). split; [done|]. apply list_elem_of_bind. exists (mkIndex [toColumn col] IndexTypePrimary).
    split; [by left|]. apply list_elem_of_In, filter_In. split; [|done]. apply list_elem_of_In, list_elem_of_fmap.
    exists (name, i). cbn. rewrite Hv, Hp. split; [done|]. by apply elem_of_map_to_list.
  - apply Forall_forall. intros x Hx. apply list_elem_of_fmap in Hx as (y & -> & Hy). apply list_elem_of_bind in Hy as (j & Hj & Hf).
    apply list_elem_of_In, filter_In in Hf as [Hf Ht%bool_decide_eq_true].
    apply list_elem_of_In, list_elem_of_fmap in Hf as ([n k] & -> & Hk%elem_of_map_to_list). cbn in *.
    destruct (Hall _ _ Hk Ht) as (col & Hv & Hc). rewrite Hv in Hj. apply list_elem_of_singleton in Hj. by subst.
Qed.

Lemma find_first {A} (f : A -> bool) l1 x l2 : f x = true -> Forall (fun y => f y = false) l1 -> List.find f (l1 ++ x :: l2) = Some x.
Proof. intros Hx. induction 1 as [|y l1 Hy _ IH]; cbn; [by rewrite Hx | by rewrite Hy]. Qed.

(** What [FetchSchema] answers, index by index. *)
Lemma fetched_index schemaName tableName s columnMetas indexMetas s' name index :
  answers schemaName tableName s columnMetas indexMetas s' ->
  foldl (addIndex (byName columnMetas)) ∅ indexMetas !! name = Some index ->
  exists i, List.find (named name) indexMetas = Some i /\ i ∈ indexMetas /\ imIndexName i = name /\
    index = single (byName columnMetas) i /\ length (imValues index) = 1%nat.
Proof.
  intros Han. rewrite indexes_first, lookup_empty. destruct (List.find _ _) as [i|] eqn:E; [|done]. intros [= <-].
  pose proof (find_some _ _ E) as [Hin%list_elem_of_In Hn%String.eqb_eq]. exists i. repeat split; [done..|].
  pose proof (answers_values _ _ _ _ _ _ Han) as Hv. rewrite Forall_forall in Hv. cbn. by rewrite (Hv i Hin).
Qed.

(** C38: The guard against a composite primary key never fires on fetched metadata.
    Whatever the rows of STATISTICS list after the first row of the primary key, every
    index of the metadata that [FetchSchema] answers has exactly one column, and the key
    that the undo log, the lock keys and the image queries use is the first column alone:
    further columns are appended to a copy of the index, not to the one in the map. *)
Theorem composite_key_undetected schemaName tableName s columnMetas indexMetas s' l1 i l2 :
  answers schemaName tableName s columnMetas indexMetas s' ->
  indexMetas = l1 ++ i :: l2 -> imIndexType i = IndexTypePrimary -> imColumnName i ∈ cmColumnName <$> columnMetas ->
  Forall (fun j => imIndexName j <> imIndexName i) l1 ->
  Forall (fun j => imIndexType j = IndexTypePrimary -> imIndexName j = imIndexName i) indexMetas ->
  exists tm, FetchSchema schemaName tableName s = (Ok tm, s') /\
    (forall name index, tmAllIndexes tm !! name = Some index -> length (imValues index) = 1%nat) /\
    GetPKName (toMeta tm) = Ok (imColumnName i).
Proof.
  intros Han Hl Hp [col Hcol]%byName_elem Hl1 Hone. rewrite (FetchSchema_run _ _ _ _ _ _ Han). cbn zeta.
  assert (List.find (named (imIndexName i)) indexMetas = Some i) as Hfind.
  { rewrite Hl. apply find_first; [apply String.eqb_refl|]. eapply Forall_impl; [exact Hl1|]. intros j Hj. by apply String.eqb_neq. }
  assert (foldl (addIndex (byName columnMetas)) ∅ indexMetas !! imIndexName i = Some (single (byName columnMetas) i)) as Hi
    by by rewrite indexes_first, lookup_empty, Hfind.
  rewrite decide_False by (intros E; by rewrite E in Hi).
  eexists. split; [done|]. split.
  - intros name index Hn. cbn in Hn. by destruct (fetched_index _ _ _ _ _ _ _ _ Han Hn) as (j & _ & _ & _ & _ & ?).
  - apply keyed_primary; [by exists (imIndexName i), (single (byName columnMetas) i)|].
    intros name index Hn Ht. cbn in Hn. destruct (fetched_index _ _ _ _ _ _ _ _ Han Hn) as (j & Hj & Hin & Hname & -> & Hlen).
    rewrite Forall_forall in Hone. rewrite <- Hname, (Hone j Hin Ht), Hfind in Hj. injection Hj as <-.
    pose proof (answers_values _ _ _ _ _ _ Han) as Hv. rewrite Forall_forall in Hv.
    exists col. cbn. rewrite (Hv i Hin), Hcol. split; [done|]. by apply byName_lookup in Hcol as [? _].
Qed.

(** ** What the cache answers *)
Lemma FetchSchema_names schemaName tableName s tm s' :
  FetchSchema schemaName tableName s = (Ok tm, s') -> tmSchemaName tm = schemaName /\ tmTableName tm = tableName.
Proof.
  unfold FetchSchema, mbind, SM_bind. destruct (wrapError _ _ s) as [[cs| |] s1]; [|done..]. destruct (wrapError _ _ s1) as [[is_| |] s2]; [|done..].
  destruct (decide _); [done|]. by intros [= <- _].
Qed.

(** Every item is stored under its own key. *)
Definition wf_cache (c : metaCache) : Prop :=
  forall key m e, c !! key = Some (m, e) -> key = GetCacheKey (tmSchemaName m) (tmTableName m).

Lemma setCache_wf now key m c : wf_cache c -> key = GetCacheKey (tmSchemaName m) (tmTableName m) -> wf_cache (cacheSet now key m c).
Proof.
  unfold cacheSet, wf_cache, metaCache. intros Hwf -> k m' e. destruct (decide (k = GetCacheKey (tmSchemaName m) (tmTableName m))) as [->|Hne].
  - rewrite lookup_insert_eq. by intros [= <- _].
  - rewrite lookup_insert_ne by done. apply Hwf.
Qed.
Lemma GetTableMeta_wf now schemaName tableName c s r c' s' :
  wf_cache c -> GetTableMeta now schemaName tableName (c, s) = (r, (c', s')) -> wf_cache c'.
Proof.
  intros Hwf. unfold GetTableMeta. case_match; [by intros [= _ <- _]|]. case_match; [by intros [= _ <- _]|].
  cbn [fst]. case_match; [by intros [= _ <- _]|]. unfold mbind, SM_bind, onDB, setCache. cbn [fst snd].
  destruct (FetchSchema schemaName tableName s) as [[m|e|] s1] eqn:E; cbn; intros [= _ <- _]; [|done..].
  destruct (FetchSchema_names _ _ _ _ _ E) as [E1 E2]. apply setCache_wf; [done|]. by rewrite E1, E2.
Qed.
Lemma refreshLoop_wf now items c s r c' s' :
  wf_cache c -> refreshLoop now items (c, s) = (r, (c', s')) -> wf_cache c'.
Proof.
  revert c s. induction items as [|[k m] items IH]; intros c s Hwf; cbn; [by intros [= _ <- _]|].
  unfold mbind, SM_bind. destruct (String.eqb _ _); [|cbn; by apply IH]. unfold onDB, setCache; cbn [fst snd].
  destruct (FetchSchema (tmSchemaName m) (tmTableName m) s) as [[t|e|] s1] eqn:E; cbn; [|by intros [= _ <- _]..].
  destruct (decide (t = m)); cbn; [by apply IH|]. apply IH, setCache_wf; [done|].
  destruct (FetchSchema_names _ _ _ _ _ E) as [E1 E2]. by rewrite E1, E2.
Qed.

Lemma Refresh_wf order now c s r c' s' : wf_cache c -> Refresh order now (c, s) = (r, (c', s')) -> wf_cache c'.
Proof. intros Hwf. unfold Refresh. by apply refreshLoop_wf. Qed.

(** An answer is kept: until it expires the database is not asked again. *)
Lemma GetTableMeta_miss now schemaName tableName c s tm st' :
  cacheGet now (GetCacheKey schemaName tableName) c = None ->
  GetTableMeta now schemaName tableName (c, s) = (Ok tm, st') ->
  exists s', FetchSchema schemaName tableName s = (Ok tm, s') /\ st' = (cacheSet now (GetCacheKey schemaName tableName) tm c, s').
Proof.
  intros Hc. unfold GetTableMeta. do 2 (case_match; [done|]). cbn [fst]. rewrite Hc.
  unfold mbind, SM_bind, onDB, setCache. cbn [fst snd]. destruct (FetchSchema schemaName tableName s) as [[m|e|] s1]; [|done..].
  intros [= -> <-]. by exists s1.
Qed.
Lemma GetTableMeta_hit now later schemaName tableName key tm c s :
  schemaName <> EmptyString -> tableName <> EmptyString -> later <= now + ExpireTime -> GetCacheKey schemaName tableName = key ->
  GetTableMeta later schemaName tableName (cacheSet now key tm c, s) = (Ok tm, (cacheSet now key tm c, s)).
Proof.
  intros Hs%String.eqb_neq Ht%String.eqb_neq Hl Hk. unfold GetTableMeta. rewrite Hs, Ht, Hk. cbn [fst].
  unfold cacheGet, cacheSet, metaCache. rewrite lookup_insert_eq. by rewrite (proj2 (Z.ltb_ge _ _) Hl).
Qed.
Lemma noBackquotes_plain s : hasChar "." s = false -> hasChar "." (noBackquotes s) = false.
Proof.
  unfold noBackquotes. induction s as [|c s IH]; [done|]. rewrite hasChar_cons. intros [Hc Hs]%orb_false_iff. cbn [list_of List.filter].
  destruct (negb _); [|by apply IH]. cbn [of_list]. by rewrite hasChar_cons, Hc, IH.
Qed.
Lemma GetCacheKey_qualified dbName other table :
  hasChar "." other = false -> hasChar "." table = false ->
  GetCacheKey dbName (other +:+ "." +:+ table) = GetCacheKey dbName table.
Proof.
  intros Ho%noBackquotes_plain Ht%noBackquotes_plain. unfold GetCacheKey.
  assert (noBackquotes (other +:+ "." +:+ table) = noBackquotes other +:+ String "." (noBackquotes table)) as ->.
  { unfold noBackquotes. rewrite !list_of_append, !List.filter_app. cbn. clear Ho Ht. induction (List.filter _ (list_of other)) as [|x l IH]; [done|].
    cbn. by rewrite IH. }
  by rewrite Split_app, !Split_one.
Qed.
(** The cache confuses tables of the same name.  After the metadata of [other.table] was
    fetched (the queries ask for schema [other]), a request for the unqualified [table] of the
    current schema (whose queries would ask for that schema) is answered with the metadata of
    [other.table] and without a query, until the item expires: [GetCacheKey] drops the
    qualifier. *)
Theorem cache_confuses_schemas now later dbName other table c s tm st' :
  dbName <> EmptyString -> table <> EmptyString -> Trim other ["`"%char] <> EmptyString -> later <= now + ExpireTime ->
  hasChar "." other = false -> hasChar "." table = false ->
  cacheGet now (GetCacheKey dbName table) c = None ->
  GetTableMeta now dbName (other +:+ "." +:+ table) (c, s) = (Ok tm, st') ->
  tableArgs dbName (other +:+ "." +:+ table) = [GString (bytes_of (Trim other ["`"%char])); GString (bytes_of (Trim table ["`"%char]))] /\
  tableArgs dbName table = [GString (bytes_of dbName); GString (bytes_of (Trim table ["`"%char]))] /\
  (exists s', FetchSchema dbName (other +:+ "." +:+ table) s = (Ok tm, s')) /\
  forall s2, GetTableMeta later dbName table (fst st', s2) = (Ok tm, (fst st', s2)).
Proof.
  intros Hdb Hne Hother%String.eqb_neq Hlater Ho Ht Hmiss Hget. pose proof (GetCacheKey_qualified dbName other table Ho Ht) as Hkey.
  destruct (GetTableMeta_miss now dbName (other +:+ "." +:+ table) c s tm st') as (s' & Hf & ->); [by rewrite Hkey | done|].
  unfold tableArgs, ParseTable. change ("." +:+ table) with (String "." table). rewrite (cut_last_app "." other table), (cut_last_none "." table), Hother by done.
  repeat split; [by exists s'|]. intros s2. cbn [fst]. by apply GetTableMeta_hit.
Qed.
End meta.

(** ** A catalog with two tables *)
Section example.
Definition word (s : string) : option goValue := Some (GString (bytes_of s)).
Definition columnRow (schemaName table name typ key : string) (position : Z) : res (list (option goValue)) :=
  Ok [word "def"; word schemaName; word table; word name; word typ; None; Some (GInt64 19); Some (GInt64 0); word "NO"; word "";
      None; None; Some (GInt64 position); word key; word ""].
Definition indexRow (name column : string) (nonUnique seq : Z) : res (list (option goValue)) :=
  Ok [word name; word column; Some (GInt64 nonUnique); word "BTREE"; Some (GInt64 seq); word "A"; Some (GInt64 2)].

(** [db1.t] has the key [id] and an index that is not unique, [db2.t] the key [(a, b)]. *)
Definition catalogRows (sql : string) (args : list goValue) : list (res (list (option goValue))) :=
  if bool_decide (args = [GString (bytes_of "db1"); GString (bytes_of "t")]) then
    if String.eqb sql columnsQuery then [columnRow "db1" "t" "id" "bigint" "PRI" 1; columnRow "db1" "t" "v" "int" "MUL" 2]
    else [indexRow "PRIMARY" "id" 0 1; indexRow "by_v" "v" 1 1]
  else if bool_decide (args = [GString (bytes_of "db2"); GString (bytes_of "t")]) then
    if String.eqb sql columnsQuery then [columnRow "db2" "t" "a" "bigint" "PRI" 1; columnRow "db2" "t" "b" "bigint" "PRI" 2]
    else [indexRow "PRIMARY" "a" 0 1; indexRow "PRIMARY" "b" 0 2]
  else [].
#[local] Instance catalog : MySQL unit := {
  db_Begin s := (Ok tt, s);
  db_ExecuteSqlDirectly sql args s := (Ok (mkQueryResult [] (catalogRows sql args)), s);
  tx_ExecuteSql _ _ s := (Err "read only"%string, s);
  tx_ExecuteSqlDirectly _ _ s := (Err "read only"%string, s);
  tx_QueryDirectly _ s := (Err "read only"%string, s);
  tx_Commit s := (Ok tt, s);
  tx_Rollback s := (Ok tt, s);
  conn_PrepareExecuteArgs _ _ s := (Err "read only"%string, s);
  conn_PrepareQueryArgs _ _ s := (Err "read only"%string, s);
  conn_Query _ s := (Err "read only"%string, s);
  Undo.GetTableMeta _ _ s := (Ok zeroMeta, s) }.
#[local] Instance no_print : Printer := { print _ := "?"%string }.

Definition columnsOf (args : list goValue) : list columnMeta :=
  match readRows readColumn (catalogRows columnsQuery args) with Ok l => l | _ => [] end.
Definition indexesOf (args : list goValue) : list indexMeta :=
  match readRows readIndex (catalogRows indexesQuery args) with Ok l => l | _ => [] end.

Lemma composite_key_undetected_witness :
  exists tm, FetchSchema "db2" "t" tt = (Ok tm, tt) /\
    (forall name index, tmAllIndexes tm !! name = Some index -> length (imValues index) = 1%nat) /\ GetPKName (toMeta tm) = Ok "a"%string.
Proof.
  set (args := tableArgs "db2" "t").
  apply (composite_key_undetected "db2" "t" tt (columnsOf args) (indexesOf args) tt []
    (mkIndexMeta [] false "PRIMARY" "a" IndexTypePrimary "A" 2 1) [mkIndexMeta [] false "PRIMARY" "b" IndexTypePrimary "A" 2 2]).
  - by econstructor.
  - by vm_compute.
  - done.
  - vm_compute. left.
  - constructor.
  - vm_compute. repeat constructor.
Defined.

Definition metaOf (schemaName tableName : string) : option tableMeta :=
  match FetchSchema schemaName tableName tt with (Ok tm, _) => Some tm | _ => None end.
Lemma cache_confuses_schemas_witness :
  exists tm c, GetTableMeta 0 "db1" "db2.t" (∅, tt) = (Ok tm, (c, tt)) /\ GetPKName (toMeta tm) = Ok "a"%string /\
    GetTableMeta 1 "db1" "t" (c, tt) = (Ok tm, (c, tt)) /\
    exists tm', metaOf "db1" "t" = Some tm' /\ GetPKName (toMeta tm') = Ok "id"%string.
Proof.
  destruct (metaOf "db1" "db2.t") as [tm|] eqn:E; [|by vm_compute in E]. exists tm, (cacheSet 0 "db1.t" tm ∅).
  assert (GetTableMeta 0 "db1" "db2.t" (∅, tt) = (Ok tm, (cacheSet 0 "db1.t" tm ∅, tt))) as Hget.
  { unfold metaOf in E. vm_compute in E. injection E as <-. by vm_compute. }
  split; [done|]. split; [|split].
  - vm_compute in E. injection E as <-. by vm_compute.
  - apply (cache_confuses_schemas 0 1 "db1" "db2" "t" ∅ tt tm (cacheSet 0 "db1.t" tm ∅, tt)); done.
  - destruct (metaOf "db1" "t") as [tm'|] eqn:E'; [|by vm_compute in E']. exists tm'. split; [done|].
    vm_compute in E'. injection E' as <-. by vm_compute.
Defined.

(** The column NON_UNIQUE is a number, which the format %s does not print as one:
    every index counts as unique. *)
Example secondary_index_unique :
  exists tm index, metaOf "db1" "t" = Some tm /\ tmAllIndexes tm !! "by_v"%string = Some index /\
    imNonUnique index = false /\ imIndexType index = IndexTypeUnique.
Proof.
  destruct (metaOf "db1" "t") as [tm|] eqn:E; [|by vm_compute in E]. vm_compute in E. injection E as <-.
  eexists _, _. split; [done|]. cbn [tmAllIndexes]. split; [by vm_compute|]. done.
Qed.
(** MySQL's own names for its types are not those of JDBC. *)
Example mysql_types_unknown :
  map GetSqlDataType ["int"; "text"; "datetime"; "json"]%string = [0; 0; 0; 0] /\ map GetSqlDataType ["bigint"; "varchar"]%string = [-5; 12].
Proof. by vm_compute. Qed.
(** An integer of another width ends the fetch with a panic. *)
Example unsigned_position_panics name column :
  readIndex [word name; word column; None; None; Some (GUint64 1); None; None] = Panic.
Proof. done. Qed.
End example.
