(* ===== verification/Values.v ===== *)
(** * SQL values and operators: the dynamic values of a condition,
    [misc.Compare] and [misc.IsZero] of [pkg/misc/other.go], and the operator
    codes of [third_party/parser/opcode]

    A value is a Go [interface{}]; the constructors are the dynamic types the
    parser and the protocol produce for literals and arguments.  A [float64]
    is carried as its shortest decimal rendering, which is what the code
    observes of it.  [time.Time], byte slices and decimals are not modelled. *)
From Stdlib Require Import ZArith Lia List Ascii String.
From stdpp Require Import base strings list.
From S2P Require Import Prelude GoText.

Local Open Scope Z_scope.

(** ** Operator codes *)
Inductive Op :=
| LogicAnd | LeftShift | RightShift | LogicOr | GE | LE | EQ | NE | LT | GT
| Plus | Minus | And | Or | Mod | Xor | Div | Mul | Not | Not2 | BitNeg
| IntDiv | LogicXor | NullEQ | In_ | Like | Case | Regexp | IsNull | IsTruth | IsFalsity.

#[export] Instance Op_eq_dec : EqDecision Op.
Proof. solve_decision. Defined.

Definition Op_String (o : Op) : string :=
  match o with
  | LogicAnd => "and" | LogicOr => "or" | LogicXor => "xor"
  | LeftShift => "leftshift" | RightShift => "rightshift"
  | GE => "ge" | LE => "le" | EQ => "eq" | NE => "ne" | LT => "lt" | GT => "gt"
  | Plus => "plus" | Minus => "minus" | And => "bitand" | Or => "bitor"
  | Mod => "mod" | Xor => "bitxor" | Div => "div" | Mul => "mul"
  | Not => "not" | Not2 => "!" | BitNeg => "bitneg" | IntDiv => "intdiv"
  | NullEQ => "nulleq" | In_ => "in" | Like => "like" | Case => "case"
  | Regexp => "regexp" | IsNull => "isnull" | IsTruth => "istrue"
  | IsFalsity => "isfalse"
  end%string.

(** ** Values *)
Inductive value :=
| VNil
| VInt (z : Z)
| VInt64 (z : Z)
| VUint64 (z : Z)
| VString (s : string)
| VBool (b : bool)
| VFloat (repr : string).

#[export] Instance value_eq_dec : EqDecision value.
Proof. solve_decision. Defined.

(** [fmt.Sprintf("%v", value)]. *)
Definition Sprint (v : value) : string :=
  match v with
  | VNil => "<nil>"
  | VInt z | VInt64 z | VUint64 z => FormatInt z
  | VString s => s
  | VBool true => "true"
  | VBool false => "false"
  | VFloat r => r
  end%string.

(** [a == b] on interfaces: same dynamic type and equal values; [NaN] differs
    from itself and the two zeros are equal. *)
Definition iface_eq (a b : value) : bool :=
  match a, b with
  | VFloat r1, VFloat r2 =>
    negb (String.eqb r1 "NaN") &&
    (String.eqb r1 r2 ||
     (String.eqb r1 "0" || String.eqb r1 "-0") && (String.eqb r2 "0" || String.eqb r2 "-0"))
  | _, _ => bool_decide (a = b)
  end.

(** ** The regular expressions of [other.go]

    They are compiled in POSIX mode, where [^] and [$] match at line
    boundaries: a string matches when one of its lines does. *)
Definition digitc (c : ascii) : bool := (48 <=? chr c) && (chr c <=? 57).

Definition newline : ascii := ascii_of_N 10.

(** A zero, or digits with no leading zero, on a whole line. *)
Definition natLine (l : list ascii) : bool :=
  match l with
  | [] => false
  | c :: l' =>
    (chr c =? 48) && bool_decide (l' = []) ||
    negb (chr c =? 48) && digitc c && forallb digitc l'
  end.

(** The same followed by an optional group: any character, then digits. *)
Definition floatBody (l : list ascii) : bool :=
  natLine l ||
  existsb (fun i =>
    natLine (take i l) &&
    match drop i l with
    | _ :: (_ :: _) as ds => forallb digitc (tail ds)
    | _ => false
    end) (seq 0 (length l)).

Definition signed (f : list ascii -> bool) (s : string) : bool :=
  match list_of s with
  | c :: l' => if chr c =? 45 then f l' else f (c :: l')
  | [] => f []
  end.

Definition numReg (s : string) : bool := existsb (signed natLine) (Split s newline).
Definition floatReg (s : string) : bool := existsb (signed floatBody) (Split s newline).

Definition cmpZ (a b : Z) : Z := if b <? a then 1 else if a <? b then -1 else 0.

Definition cmpStr (a b : string) : Z :=
  if str_less b a then 1 else if str_less a b then -1 else 0.

(** ** [misc.Compare]

    In the floating-point branch both operands are parsed from the first
    string, so the comparison yields 0. *)
Definition Compare (a b : value) : Z :=
  match a, b with
  | VString s1, VString s2 => cmpStr s1 s2
  | _, _ =>
    let s1 := Sprint a in
    let s2 := Sprint b in
    if numReg s1 && numReg s2 then cmpZ (fst (ParseInt s1)) (fst (ParseInt s2))
    else if floatReg s1 && floatReg s2 then 0
    else cmpStr s1 s2
  end.

(** [misc.IsZero]: [reflect.Zero] of the nil type panics. *)
Definition IsZero (v : value) : res bool :=
  match v with
  | VNil => Panic
  | VInt z | VInt64 z | VUint64 z => Ok (z =? 0)
  | VString s => Ok (String.eqb s "")
  | VBool b => Ok (negb b)
  | VFloat r => Ok (String.eqb r "0" || String.eqb r "-0")
  end.

(** ** Integer values compare as integers *)
Definition int_of (v : value) : option Z :=
  match v with
  | VInt z | VInt64 z => if bool_decide (in_i64 z) then Some z else None
  | VUint64 z => if bool_decide (0 <= z < two63) then Some z else None
  | _ => None
  end.

Lemma digitc_digit d : 0 <= d < 10 -> digitc (digit d) = true.
Proof. intros H. unfold digitc. rewrite chr_digit by done. zcases; done || lia. Qed.

Lemma digits_natLine fuel n acc :
  0 < n -> n < 2 ^ Z.of_nat fuel -> forallb digitc (list_of acc) = true ->
  natLine (list_of (digits fuel n acc)) = true.
Proof.
  revert n acc; induction fuel as [|f IH]; intros n acc Hn Hf Ha.
  - change (2 ^ Z.of_nat 0) with 1 in Hf. lia.
  - rewrite Nat2Z.inj_succ, Z.pow_succ_r in Hf by lia.
    pose proof (Z.mod_pos_bound n 10 ltac:(lia)).
    rewrite digits_S. cbv zeta. destruct (Z.ltb_spec n 10).
    + rewrite Z.mod_small by lia. cbn [list_of natLine].
      rewrite digitc_digit, chr_digit, Ha by lia.
      destruct (Z.eqb_spec (48 + n) 48); [lia | done].
    + apply IH.
      * apply Z.div_str_pos. lia.
      * apply Z.div_lt_upper_bound; lia.
      * cbn [list_of forallb]. by rewrite digitc_digit.
Qed.

Lemma FormatUint_natLine n : 0 <= n -> natLine (list_of (FormatUint n)) = true.
Proof.
  intros H. destruct (Z.eq_dec n 0) as [->|]; [done|].
  apply digits_natLine; [lia | | done].
  rewrite Nat2Z.inj_succ, Z2Nat.id by apply Z.log2_nonneg.
  pose proof (Z.log2_spec n ltac:(lia)). lia.
Qed.

Lemma natLine_no_newline l : natLine l = true -> Forall (fun c => Ascii.eqb c newline = false) l.
Proof.
  assert (Hd : forall c, digitc c = true -> Ascii.eqb c newline = false).
  { intros c Hc. apply Ascii.eqb_neq. intros ->. by vm_compute in Hc. }
  destruct l as [|c l]; [done|]. cbn. intros [[H0 Hl]%andb_prop|[[_ Hc]%andb_prop Hl]%andb_prop]%orb_prop.
  - case_bool_decide; [|done]. subst. constructor; [|constructor].
    apply Hd. unfold digitc. zbool. rewrite H0. done.
  - constructor; [by apply Hd|]. apply List.Forall_forall. intros x Hx.
    apply Hd. by eapply forallb_forall in Hl.
Qed.

Lemma Split_single s sep :
  Forall (fun c => Ascii.eqb c sep = false) (list_of s) -> Split s sep = [s].
Proof.
  induction s as [|c s IH]; cbn; [done|]. inversion 1; subst.
  rewrite IH by done. by destruct (Ascii.eqb c sep).
Qed.

Lemma numReg_FormatInt z : numReg (FormatInt z) = true.
Proof.
  unfold numReg, FormatInt. destruct (Z.ltb_spec z 0).
  - pose proof (FormatUint_natLine (- z) ltac:(lia)) as Hn.
    rewrite Split_single.
    + cbn [existsb]. unfold signed. cbn [list_of]. change (chr "-" =? 45) with true.
      cbn iota. by rewrite Hn.
    + cbn [list_of]. constructor; [done | by apply natLine_no_newline].
  - pose proof (FormatUint_natLine z ltac:(lia)) as Hn.
    rewrite Split_single by by apply natLine_no_newline.
    cbn [existsb]. unfold signed. destruct (FormatUint_cons z) as (d & s & Hd & E).
    rewrite E in *. cbn [list_of] in *. rewrite chr_digit by lia.
    rewrite (proj2 (Z.eqb_neq (48 + d) 45)) by lia. by rewrite Hn.
Qed.

Lemma int_of_Sprint v z : int_of v = Some z -> Sprint v = FormatInt z /\ in_i64 z.
Proof.
  destruct v; cbn; try done; case_bool_decide; intros [= <-]; split; try done.
  unfold_width; lia.
Qed.

Lemma Compare_int a b x y :
  int_of a = Some x -> int_of b = Some y -> Compare a b = cmpZ x y.
Proof.
  intros Ha Hb. assert (Hna : ~ exists s, a = VString s) by (intros [s ->]; done).
  apply int_of_Sprint in Ha as [Ea Ra], Hb as [Eb Rb]. unfold Compare.
  replace (match a, b with VString s1, VString s2 => _ | _, _ => _ end) with
    (if numReg (Sprint a) && numReg (Sprint b)
     then cmpZ (fst (ParseInt (Sprint a))) (fst (ParseInt (Sprint b)))
     else if floatReg (Sprint a) && floatReg (Sprint b) then 0
     else cmpStr (Sprint a) (Sprint b))
    by (destruct a; try done; naive_solver).
  rewrite Ea, Eb, !numReg_FormatInt. cbn [andb].
  by rewrite !ParseInt_FormatInt.
Qed.

(** On integer operands of any integer type [misc.Compare] is the
    three-way comparison of the integers. *)
Theorem Compare_integers a b x y :
  int_of a = Some x -> int_of b = Some y ->
  (Compare a b = -1 <-> x < y) /\ (Compare a b = 0 <-> x = y) /\ (Compare a b = 1 <-> y < x).
Proof.
  intros Ha Hb. rewrite (Compare_int a b x y Ha Hb). unfold cmpZ. zcases; lia.
Qed.

Lemma Compare_integers_witness :
  Compare (VInt64 12) (VUint64 7) = 1.
Proof.
  apply (Compare_integers (VInt64 12) (VUint64 7) 12 7); [reflexivity | reflexivity | lia].
Defined.

(** [misc.Compare] parses both operands of its floating-point comparison
    from the first one: any two floats with a fractional part compare equal. *)
Theorem Compare_floats_equal :
  Compare (VFloat "1.5") (VFloat "2.5") = 0 /\ Compare (VFloat "2.5") (VFloat "1.5") = 0.
Proof. split; vm_compute; reflexivity. Qed.
