(* ===== verification/Condition.v ===== *)
(** * Conditions and their connectives: [pkg/cond/condition.go]

    A [*ComplexCondition] is shared and mutated: [And] on two conjunctions and
    [Or] on two disjunctions append to the receiver in place.  Complex
    conditions therefore live in a store and are referred to by location; key
    conditions are never modified after construction and are values.

    [And] and [Or] are recursive through the store, so they take fuel; the two
    connectives return no error in the source, and [Err out_of_fuel] is the
    model's own outcome.  Parsed conditions have depth at most two, and the
    theorems show that fuel 3 is enough for them. *)
From Stdlib Require Import ZArith Lia List Ascii String.
From stdpp Require Import base gmap strings list.
From S2P Require Import Prelude GoText Values.

Local Open Scope Z_scope.

Record KeyCondition := mkKey { Key : string; KOp : Op; Value : value }.

#[export] Instance KeyCondition_eq_dec : EqDecision KeyCondition.
Proof. solve_decision. Defined.

Abbreviation loc := nat.

(** A value of the interface type [Condition]; [CNil] is the nil interface. *)
Inductive Condition :=
| CKey (k : KeyCondition)
| CPtr (l : loc)
| CTrue
| CFalse
| CSlice (idxs : list Z)
| CNil.

Record ComplexCondition := mkComplex { COp : Op; Conditions : list Condition }.

Record heap := mkHeap { nodes : gmap loc ComplexCondition; fresh : loc }.

Definition out_of_fuel : string := "out of fuel".

Definition alloc (h : heap) (n : ComplexCondition) : heap * Condition :=
  (mkHeap (<[fresh h := n]> (nodes h)) (S (fresh h)), CPtr (fresh h)).

Definition store (h : heap) (l : loc) (n : ComplexCondition) : heap :=
  mkHeap (<[l := n]> (nodes h)) (fresh h).

(** A dangling location cannot occur in Go. *)
Definition load (h : heap) (l : loc) : res ComplexCondition :=
  from_option Panic (nodes h !! l).

(** ** Loops over a slice of conditions that thread the store *)
Section loops.
Context (f : heap -> Condition -> res (heap * Condition)).

(** [for _, cd := range cs { result = append(result, f(cd)) }] *)
Fixpoint mapConds (h : heap) (cs : list Condition) : res (heap * list Condition) :=
  match cs with
  | [] => Ok (h, [])
  | c :: cs' =>
    '(h1, c1) ← f h c;
    '(h2, rest) ← mapConds h1 cs';
    Ok (h2, c1 :: rest)
  end.
End loops.

(** [for _, cd := range cs { result = g(result, cd) }] *)
Fixpoint foldConds (g : heap -> Condition -> Condition -> res (heap * Condition))
    (h : heap) (r : Condition) (cs : list Condition) : res (heap * Condition) :=
  match cs with
  | [] => Ok (h, r)
  | c :: cs' => '(h1, r1) ← g h r c; foldConds g h1 r1 cs'
  end.

(** ** Table index slices ([shard.go]): intersection and union *)
Definition zmem (x : Z) (l : list Z) : bool := existsb (Z.eqb x) l.

Definition slice_And (a b : list Z) : list Z := filter (fun v => zmem v a = true) b.

Definition slice_Or (a b : list Z) : list Z :=
  a ++ filter (fun v => zmem v a = false) b.

(** [TableIndexSliceCondition.And] and [.Or] on an arbitrary operand. *)
Definition TableIndexSlice_And (a : list Z) (c2 : Condition) : Condition :=
  match c2 with
  | CTrue => CSlice a
  | CFalse => CFalse
  | CSlice b => CSlice (slice_And a b)
  | _ => CNil
  end.

Definition TableIndexSlice_Or (a : list Z) (c2 : Condition) : Condition :=
  match c2 with
  | CTrue => CTrue
  | CFalse => CSlice a
  | CSlice b => CSlice (slice_Or a b)
  | _ => CNil
  end.

(** ** The two connectives *)
Section connectives.
Context (rec_And : heap -> Condition -> Condition -> res (heap * Condition)).
Context (rec_Or : heap -> Condition -> Condition -> res (heap * Condition)).

Definition KeyCondition_And (h : heap) (cond : KeyCondition) (cond2 : Condition)
  : res (heap * Condition) :=
  match cond2 with
  | CKey _ => Ok (alloc h (mkComplex And [CKey cond; cond2]))
  | CPtr l =>
    c ← load h l;
    match COp c with
    | And => foldConds rec_And h (CKey cond) (Conditions c)
    | Or =>
      '(h', cs) ← mapConds (fun h cd => rec_And h (CKey cond) cd) h (Conditions c);
      Ok (alloc h' (mkComplex Or cs))
    | _ => Ok (h, CNil)
    end
  | _ => Ok (h, CNil)
  end.

Definition KeyCondition_Or (h : heap) (cond : KeyCondition) (cond2 : Condition)
  : res (heap * Condition) :=
  match cond2 with
  | CKey _ => Ok (alloc h (mkComplex Or [CKey cond; cond2]))
  | CPtr l =>
    c ← load h l;
    match COp c with
    | And => Ok (alloc h (mkComplex Or [CKey cond; cond2]))
    | Or => foldConds rec_Or h (CKey cond) (Conditions c)
    | _ => Ok (h, CNil)
    end
  | _ => Ok (h, CNil)
  end.

(** The nested loop over the operands of two disjunctions; the inner range
    expression [c.Conditions] is evaluated at every outer iteration. *)
Fixpoint crossConds (l2 : loc) (h : heap) (cds : list Condition)
  : res (heap * list Condition) :=
  match cds with
  | [] => Ok (h, [])
  | cd1 :: cds' =>
    c ← load h l2;
    '(h1, cs) ← mapConds (fun h cd2 => rec_And h cd1 cd2) h (Conditions c);
    '(h2, rest) ← crossConds l2 h1 cds';
    Ok (h2, cs ++ rest)
  end.

Definition ComplexCondition_And (h : heap) (l : loc) (cond2 : Condition)
  : res (heap * Condition) :=
  cond ← load h l;
  match COp cond with
  | And =>
    match cond2 with
    | CKey _ => Ok (alloc h (mkComplex And (Conditions cond ++ [cond2])))
    | CPtr l2 =>
      c ← load h l2;
      match COp c with
      | And => Ok (store h l (mkComplex And (Conditions cond ++ Conditions c)), CPtr l)
      | Or =>
        '(h', cs) ← mapConds (fun h cd => rec_And h (CPtr l) cd) h (Conditions c);
        Ok (alloc h' (mkComplex Or cs))
      | _ => Ok (h, CNil)
      end
    | _ => Ok (h, CNil)
    end
  | Or =>
    match cond2 with
    | CKey _ =>
      '(h', cs) ← mapConds (fun h cd => rec_And h cd cond2) h (Conditions cond);
      Ok (alloc h' (mkComplex Or cs))
    | CPtr l2 =>
      c ← load h l2;
      match COp c with
      | And =>
        '(h', cs) ← mapConds (fun h cd => rec_And h cd cond2) h (Conditions cond);
        Ok (alloc h' (mkComplex Or cs))
      | Or =>
        '(h', cs) ← crossConds l2 h (Conditions cond);
        Ok (alloc h' (mkComplex Or cs))
      | _ => Ok (h, CNil)
      end
    | _ => Ok (h, CNil)
    end
  | _ => Ok (h, CNil)
  end.

Definition ComplexCondition_Or (h : heap) (l : loc) (cond2 : Condition)
  : res (heap * Condition) :=
  cond ← load h l;
  match COp cond with
  | And =>
    match cond2 with
    | CKey _ => Ok (alloc h (mkComplex Or [CPtr l; cond2]))
    | CPtr l2 =>
      c ← load h l2;
      match COp c with
      | And => Ok (alloc h (mkComplex Or [CPtr l; cond2]))
      | Or => Ok (alloc h (mkComplex Or (CPtr l :: Conditions c)))
      | _ => Ok (h, CNil)
      end
    | _ => Ok (h, CNil)
    end
  | Or =>
    match cond2 with
    | CKey _ => Ok (alloc h (mkComplex Or (Conditions cond ++ [cond2])))
    | CPtr l2 =>
      c ← load h l2;
      match COp c with
      | And => Ok (alloc h (mkComplex Or (Conditions cond ++ [cond2])))
      | Or => Ok (store h l (mkComplex Or (Conditions cond ++ Conditions c)), CPtr l)
      | _ => Ok (h, CNil)
      end
    | _ => Ok (h, CNil)
    end
  | _ => Ok (h, CNil)
  end.

End connectives.

(** Dynamic dispatch of [c1.And(c2)]; a method call on the nil interface
    panics. *)
Fixpoint Cond_And (fuel : nat) (h : heap) (c1 c2 : Condition) : res (heap * Condition) :=
  match fuel with
  | O => Err out_of_fuel
  | S f =>
    match c1 with
    | CKey k => KeyCondition_And (Cond_And f) h k c2
    | CPtr l => ComplexCondition_And (Cond_And f) h l c2
    | CTrue => Ok (h, c2)
    | CFalse => Ok (h, CFalse)
    | CSlice a => Ok (h, TableIndexSlice_And a c2)
    | CNil => Panic
    end
  end.

Fixpoint Cond_Or (fuel : nat) (h : heap) (c1 c2 : Condition) : res (heap * Condition) :=
  match fuel with
  | O => Err out_of_fuel
  | S f =>
    match c1 with
    | CKey k => KeyCondition_Or (Cond_Or f) h k c2
    | CPtr l => ComplexCondition_Or h l c2
    | CTrue => Ok (h, CTrue)
    | CFalse => Ok (h, c2)
    | CSlice a => Ok (h, TableIndexSlice_Or a c2)
    | CNil => Panic
    end
  end.

Lemma Cond_And_key f h k c2 :
  Cond_And (S f) h (CKey k) c2 = KeyCondition_And (Cond_And f) h k c2.
Proof. done. Qed.

Lemma Cond_And_ptr f h l c2 :
  Cond_And (S f) h (CPtr l) c2 = ComplexCondition_And (Cond_And f) h l c2.
Proof. done. Qed.

Lemma Cond_Or_key f h k c2 :
  Cond_Or (S f) h (CKey k) c2 = KeyCondition_Or (Cond_Or f) h k c2.
Proof. done. Qed.

Lemma Cond_Or_ptr f h l c2 : Cond_Or (S f) h (CPtr l) c2 = ComplexCondition_Or h l c2.
Proof. done. Qed.

(** Unfold one connective on loaded operands. *)
Ltac conn :=
  rewrite ?Cond_And_key, ?Cond_And_ptr, ?Cond_Or_key, ?Cond_Or_ptr;
  unfold KeyCondition_And, ComplexCondition_And, KeyCondition_Or, ComplexCondition_Or, load;
  repeat (match goal with H : nodes ?h !! ?l = Some _ |- context [nodes ?h !! ?l] => rewrite H end;
          cbn [from_option mbind res_bind COp Conditions]).

(** ** Conditions in disjunctive normal form

    [term h c ks]: [c] is the conjunction of the keys [ks]; [dnf h c d]: [c]
    is the disjunction of the conjunctions [d]. *)
Inductive term (h : heap) : Condition -> list KeyCondition -> Prop :=
| term_key k : term h (CKey k) [k]
| term_conj l ks :
    nodes h !! l = Some (mkComplex And (CKey <$> ks)) -> term h (CPtr l) ks.

Inductive dnf (h : heap) : Condition -> list (list KeyCondition) -> Prop :=
| dnf_term c ks : term h c ks -> dnf h c [ks]
| dnf_disj l cs d :
    nodes h !! l = Some (mkComplex Or cs) -> Forall2 (term h) cs d -> dnf h (CPtr l) d.

(** The truth value under a valuation of the keys. *)
Definition deval (v : KeyCondition -> bool) (d : list (list KeyCondition)) : bool :=
  existsb (forallb v) d.

(** The distributed product of two disjunctions of conjunctions. *)
Definition dprod (a b : list (list KeyCondition)) : list (list KeyCondition) :=
  flat_map (fun x => map (fun y => x ++ y) b) a.

Lemma deval_app v a b : deval v (a ++ b) = deval v a || deval v b.
Proof. apply existsb_app. Qed.

Lemma deval_cons v x a : deval v (x :: a) = forallb v x || deval v a.
Proof. done. Qed.

Lemma deval_map_app v x b : deval v (map (fun y => x ++ y) b) = forallb v x && deval v b.
Proof.
  induction b as [|y b IH]; [by rewrite andb_false_r|]. cbn [map].
  rewrite !deval_cons, forallb_app, IH. by destruct (forallb v x), (forallb v y).
Qed.

Lemma deval_dprod v a b : deval v (dprod a b) = deval v a && deval v b.
Proof.
  unfold dprod. induction a as [|x a IH]; [done|]. cbn [flat_map].
  rewrite deval_app, IH, deval_cons, deval_map_app.
  by destruct (forallb v x), (deval v a), (deval v b).
Qed.

(** [h'] keeps every node of [h] except possibly those in [ls]. *)
Definition keeps (ls : list loc) (h h' : heap) : Prop :=
  (fresh h <= fresh h')%nat /\
  forall l, ~ In l ls -> (l < fresh h)%nat -> nodes h' !! l = nodes h !! l.

(** Allocated nodes are below the allocation counter. *)
Definition heap_ok (h : heap) : Prop :=
  forall l, is_Some (nodes h !! l) -> (l < fresh h)%nat.

Definition ptrs (c : Condition) : list loc := match c with CPtr l => [l] | _ => [] end.

Lemma keeps_refl ls h : keeps ls h h.
Proof. split; [lia | done]. Qed.

Lemma keeps_trans ls h1 h2 h3 : keeps ls h1 h2 -> keeps ls h2 h3 -> keeps ls h1 h3.
Proof.
  intros [? H1] [? H2]. split; [lia|]. intros l Hl Hf.
  rewrite H2, H1 by (done || lia). done.
Qed.

Lemma keeps_mono ls ls' h h' : (forall l, In l ls -> In l ls') -> keeps ls h h' -> keeps ls' h h'.
Proof. intros Hs [? H]. split; [done|]. intros l Hl. apply H. auto. Qed.

Lemma keeps_alloc h n : keeps [] h (fst (alloc h n)).
Proof.
  split; cbn; [lia|]. intros l _ Hl. rewrite lookup_insert_ne by lia. done.
Qed.

Lemma heap_ok_alloc h n : heap_ok h -> heap_ok (fst (alloc h n)).
Proof.
  intros H l. cbn. destruct (decide (fresh h = l)) as [<-|Hne]; [lia|].
  rewrite lookup_insert_ne by done. intros ?%H. lia.
Qed.

Lemma keeps_store h l n : keeps [l] h (store h l n).
Proof.
  split; cbn; [lia|]. intros l' Hl _. rewrite lookup_insert_ne by (intros ->; apply Hl; by left).
  done.
Qed.

Lemma heap_ok_store h l n : heap_ok h -> is_Some (nodes h !! l) -> heap_ok (store h l n).
Proof.
  intros H Hl l'. cbn. destruct (decide (l = l')) as [<-|Hne]; [auto|].
  rewrite lookup_insert_ne by done. apply H.
Qed.

#[export] Hint Resolve keeps_refl keeps_alloc keeps_store heap_ok_alloc heap_ok_store : dbpack.

Lemma term_fresh h c ks l : heap_ok h -> term h c ks -> In l (ptrs c) -> (l < fresh h)%nat.
Proof.
  intros Hok Ht. inversion Ht; subst; cbn; [done|]. intros [<-|[]]. apply Hok. by eexists.
Qed.

Lemma term_keeps ls h h' c ks :
  heap_ok h -> keeps ls h h' -> (forall l, In l (ptrs c) -> ~ In l ls) ->
  term h c ks -> term h' c ks.
Proof.
  intros Hok [_ Hk] Hl Ht. inversion Ht as [k|l ks' Hn]; subst; [constructor|].
  constructor. rewrite Hk; [done | apply Hl; by left | apply Hok; by eexists].
Qed.

Lemma terms_keeps ls h h' cs d :
  heap_ok h -> keeps ls h h' -> (forall l, In l (flat_map ptrs cs) -> ~ In l ls) ->
  Forall2 (term h) cs d -> Forall2 (term h') cs d.
Proof.
  intros Hok Hk Hl Ht. induction Ht as [|c ks cs d Hc Ht IH]; constructor.
  - eapply term_keeps; [done.. | | done]. intros l Hin. apply Hl. cbn. apply in_app_iff. by left.
  - apply IH. intros l Hin. apply Hl. cbn. apply in_app_iff. by right.
Qed.

Lemma alloc_term h ks :
  term (fst (alloc h (mkComplex And (CKey <$> ks)))) (CPtr (fresh h)) ks.
Proof. constructor. cbn. by rewrite lookup_insert_eq. Qed.

(** *** [And] of two conjunctions *)

(** What one step may do: only the receiver, when both operands are stored, is
    modified, and the result is the receiver or a new node. *)
Definition mutated (x y : Condition) : list loc :=
  match x, y with CPtr l, CPtr _ => [l] | _, _ => [] end.

Definition step_spec (x : Condition) (y : Condition) (ks : list KeyCondition)
    (h : heap) (r : res (heap * Condition)) : Prop :=
  exists h' c, r = Ok (h', c) /\ term h' c ks /\ heap_ok h' /\
    keeps (mutated x y) h h' /\
    (forall l, In l (ptrs c) -> In l (mutated x y) \/ (fresh h <= l)%nat).

Lemma conj_And_key f h l ks k :
  heap_ok h -> nodes h !! l = Some (mkComplex And (CKey <$> ks)) ->
  step_spec (CPtr l) (CKey k) (ks ++ [k]) h (Cond_And (S f) h (CPtr l) (CKey k)).
Proof.
  intros Hok Hl. cbn. unfold ComplexCondition_And, load. rewrite Hl. cbn.
  change [CKey k] with (CKey <$> [k]). rewrite <- fmap_app.
  do 2 eexists. split; [done|]. split; [apply alloc_term|].
  split; [by apply heap_ok_alloc|]. split; [apply keeps_alloc|].
  intros l' [<-|[]]. right. lia.
Qed.

(** Folding keys into a conjunction builds new nodes only. *)
Lemma fold_keys f h r ks ks' :
  heap_ok h -> term h r ks -> (r = CKey (hd (mkKey "" EQ VNil) ks) \/ exists l, r = CPtr l) ->
  exists h' c, foldConds (Cond_And (S f)) h r (CKey <$> ks') = Ok (h', c) /\
    term h' c (ks ++ ks') /\ heap_ok h' /\ keeps [] h h' /\
    (forall l, In l (ptrs c) -> In l (ptrs r) \/ (fresh h <= l)%nat).
Proof.
  revert h r ks; induction ks' as [|k ks' IH]; intros h r ks Hok Ht Hr.
  - exists h, r. rewrite app_nil_r. cbn. auto 10 with dbpack.
  - assert (Hstep : exists h1 l1, Cond_And (S f) h r (CKey k) = Ok (h1, CPtr l1) /\
      term h1 (CPtr l1) (ks ++ [k]) /\ heap_ok h1 /\ keeps [] h h1 /\ (fresh h <= l1)%nat).
    { inversion Ht as [k0|l ks0 Hl]; subst.
      - cbn. do 2 eexists. split; [done|].
        split; [apply (alloc_term h [k0; k])|].
        split; [by apply heap_ok_alloc|]. split; [apply keeps_alloc | lia].
      - cbn. unfold ComplexCondition_And, load. rewrite Hl. cbn.
        change [CKey k] with (CKey <$> [k]). rewrite <- fmap_app.
        do 2 eexists. split; [done|]. split; [apply alloc_term|].
        split; [by apply heap_ok_alloc|]. split; [apply keeps_alloc | lia]. }
    destruct Hstep as (h1 & l1 & E & Ht1 & Hok1 & Hk1 & Hl1).
    destruct (IH h1 (CPtr l1) _ Hok1 Ht1) as (h2 & c & E2 & Ht2 & Hok2 & Hk2 & Hp);
      [by right; eexists|].
    exists h2, c. cbn [foldConds fmap list_fmap]. rewrite E. cbn [mbind res_bind].
    rewrite E2, cons_middle, app_assoc. split; [done|]. split; [done|]. split; [done|].
    split; [by eapply keeps_trans|].
    intros l Hl. right. destruct (Hp l Hl) as [[<-|[]]|?]; [lia | destruct Hk1; lia].
Qed.

Lemma term_And f h x y ks ks' :
  heap_ok h -> term h x ks -> term h y ks' ->
  step_spec x y (ks ++ ks') h (Cond_And (S (S f)) h x y).
Proof.
  intros Hok Hx Hy.
  inversion Hy as [k'|l' ks0' Hl']; inversion Hx as [k|l ks0 Hl]; subst.
  - do 2 eexists. split; [reflexivity|]. split; [apply (alloc_term h [k; k'])|].
    split; [by apply heap_ok_alloc|]. split; [apply keeps_alloc|].
    intros l [<-|[]]. right. lia.
  - by apply conj_And_key.
  - cbn [Cond_And]. unfold KeyCondition_And, load. rewrite Hl'. cbn [from_option mbind res_bind COp Conditions].
    destruct (fold_keys f h (CKey k) [k] ks' Hok Hx) as (h2 & c & E & Ht & Hok2 & Hk & Hp);
      [by left|].
    exists h2, c. split; [exact E|]. split; [done|]. split; [done|]. split; [done|].
    intros l Hl. destruct (Hp l Hl) as [[]|?]. by right.
  - cbn [Cond_And]. unfold ComplexCondition_And, load. rewrite Hl, Hl'.
    cbn [from_option mbind res_bind COp Conditions]. rewrite <- fmap_app.
    do 2 eexists. split; [done|].
    split; [constructor; cbn; by rewrite lookup_insert_eq|].
    split; [apply heap_ok_store; [done | by eexists]|]. split; [apply keeps_store|].
    intros l2 Hin. by left.
Qed.

(** *** Loops of [And] *)
Lemma mutated_ptrs x y l : In l (mutated x y) -> In l (ptrs x).
Proof. by destruct x, y. Qed.

Lemma map_right f h x ks cs d :
  heap_ok h -> term h x ks -> Forall2 (term h) cs d ->
  (ptrs x = [] \/ flat_map ptrs (removelast cs) = []) ->
  exists h' out,
    mapConds (fun h cd => Cond_And (S (S f)) h x cd) h cs = Ok (h', out) /\
    Forall2 (term h') out (map (app ks) d) /\ heap_ok h' /\ keeps (ptrs x) h h' /\
    (forall l, In l (flat_map ptrs out) -> In l (ptrs x) \/ (fresh h <= l)%nat).
Proof.
  revert h d; induction cs as [|c cs IH]; intros h d Hok Hx Hcs Hsep.
  - inversion Hcs; subst. exists h, [].
    split_and!; [done | constructor | done | apply keeps_refl | by intros ? []].
  - inversion Hcs as [|? k ? d' Hc Hcs']; subst.
    destruct (term_And f h x c ks k Hok Hx Hc) as (h1 & c1 & E & Ht & Hok1 & Hk & Hp).
    cbn [mapConds map]. rewrite E. cbn [mbind res_bind].
    destruct cs as [|c' cs].
    + inversion Hcs'; subst. cbn. exists h1, [c1]. split; [done|].
      split; [by repeat constructor|]. split; [done|].
      split; [by eapply keeps_mono; [apply mutated_ptrs|]|].
      intros l. cbn. rewrite app_nil_r. intros [?%mutated_ptrs|?]%Hp; auto.
    + assert (Hm : mutated x c = []).
      { destruct Hsep as [Hsep|Hsep]; [by destruct x, c|].
        cbn [removelast flat_map] in Hsep. apply app_eq_nil in Hsep as [Hc' _].
        by destruct x, c. }
      rewrite Hm in *.
      destruct (IH h1 d') as (h2 & out & E2 & Hts & Hok2 & Hk2 & Hp2); [done | | | | ].
      * apply (term_keeps [] h h1); [done.. | intros ? ? [] | done].
      * apply (terms_keeps [] h h1); [done.. | intros ? ? [] | done].
      * destruct Hsep as [?|Hsep]; [by left | right].
        cbn [removelast flat_map] in Hsep. by apply app_eq_nil in Hsep as [_ ?].
      * rewrite E2. cbn. exists h2, (c1 :: out). split; [done|].
        split.
        { constructor; [|done]. eapply term_keeps; [exact Hok1 | done | | done].
          intros l Hl Hlx. destruct (Hp l Hl) as [[]|Hf].
          pose proof (term_fresh h x ks l Hok Hx Hlx). lia. }
        split; [done|]. split; [eapply keeps_trans; [|done]; apply (keeps_mono []); [intros ? [] | done]|].
        intros l. cbn. rewrite in_app_iff. intros [Hl|Hl].
        { destruct (Hp l Hl) as [[]|?]. by right. }
        { destruct (Hp2 l Hl); [by left | right]. destruct Hk; lia. }
Qed.

Lemma map_left f h y ky cs d :
  heap_ok h -> term h y ky -> Forall2 (term h) cs d ->
  NoDup (flat_map ptrs cs) -> (forall l, In l (flat_map ptrs cs) -> ~ In l (ptrs y)) ->
  exists h' out,
    mapConds (fun h cd => Cond_And (S (S f)) h cd y) h cs = Ok (h', out) /\
    Forall2 (term h') out (map (fun ks => ks ++ ky) d) /\ heap_ok h' /\
    keeps (flat_map ptrs cs) h h'.
Proof.
  intros Hok Hy Hcs Hnd Hdis.
  enough (Hgoal : exists h' out,
    mapConds (fun h cd => Cond_And (S (S f)) h cd y) h cs = Ok (h', out) /\
    Forall2 (term h') out (map (fun ks => ks ++ ky) d) /\ heap_ok h' /\
    keeps (flat_map ptrs cs) h h' /\
    (forall l, In l (flat_map ptrs out) -> In l (flat_map ptrs cs) \/ (fresh h <= l)%nat))
    by (destruct Hgoal as (h' & out & ? & ? & ? & ? & _); eauto 10).
  revert h d Hok Hy Hcs; induction cs as [|c cs IH]; intros h d Hok Hy Hcs.
  - inversion Hcs; subst. exists h, [].
    split_and!; [done | constructor | done | apply keeps_refl | by intros ? []].
  - inversion Hcs as [|? k ? d' Hc Hcs']; subst. cbn [flat_map] in Hnd, Hdis.
    apply NoDup_app in Hnd as (_ & Hsep & Hnd).
    destruct (term_And f h c y k ky Hok Hc Hy) as (h1 & c1 & E & Ht & Hok1 & Hk & Hp).
    apply (keeps_mono _ (ptrs c)) in Hk; [|apply mutated_ptrs].
    assert (Hsep' : forall l, In l (ptrs c) -> ~ In l (flat_map ptrs cs)).
    { intros l H1 H2. eapply Hsep; by apply list_elem_of_In. }
    cbn [mapConds map flat_map]. rewrite E. cbn [mbind res_bind].
    destruct (IH Hnd ltac:(intros; apply Hdis; rewrite in_app_iff; auto) h1 d')
      as (h2 & out & E2 & Hts & Hok2 & Hk2 & Hp2); [done | | | ].
    + apply (term_keeps (ptrs c) h h1); [done.. | | done]. intros l Hl Hlc.
      eapply Hdis; [|exact Hl]. apply in_app_iff. by left.
    + apply (terms_keeps (ptrs c) h h1); [done.. | | done]. intros l Hl Hlc. by eapply Hsep'.
    + rewrite E2. cbn. exists h2, (c1 :: out). split; [done|]. split.
      { constructor; [|done]. eapply term_keeps; [exact Hok1 | done | | done].
        intros l Hl Hlx. destruct (Hp l Hl) as [Hm|Hf].
        - apply mutated_ptrs in Hm. by eapply Hsep'.
        - apply in_flat_map in Hlx as (c' & Hin & Hc').
          apply list_elem_of_In, list_elem_of_lookup in Hin as [i Hi].
          destruct (Forall2_lookup_l _ _ _ _ _ Hcs' Hi) as (k' & _ & Hk').
          pose proof (term_fresh h c' k' l Hok Hk' Hc'). lia. }
      split; [done|]. split.
      { eapply keeps_trans; (eapply keeps_mono; [|done]); intros l; rewrite in_app_iff; auto. }
      intros l. cbn. rewrite !in_app_iff. intros [Hl|Hl].
      { destruct (Hp l Hl) as [?%mutated_ptrs|?]; auto. }
      { destruct (Hp2 l Hl); [auto|]. right. destruct Hk; lia. }
Qed.

Lemma terms_below h cs d l :
  heap_ok h -> Forall2 (term h) cs d -> In l (flat_map ptrs cs) -> (l < fresh h)%nat.
Proof.
  intros Hok Hcs (c & Hin & Hc)%in_flat_map.
  apply list_elem_of_In, list_elem_of_lookup in Hin as [i Hi].
  destruct (Forall2_lookup_l _ _ _ _ _ Hcs Hi) as (k & _ & Hk).
  by eapply term_fresh.
Qed.

(** A disjunction node is not one of the conjunctions it refers to. *)
Lemma disj_not_term h cs d l cs' :
  nodes h !! l = Some (mkComplex Or cs') -> Forall2 (term h) cs d ->
  ~ In l (flat_map ptrs cs).
Proof.
  intros Hl Hcs (c & Hin & Hc)%in_flat_map.
  apply list_elem_of_In, list_elem_of_lookup in Hin as [i Hi].
  destruct (Forall2_lookup_l _ _ _ _ _ Hcs Hi) as (k & _ & Hk).
  inversion Hk as [|l' ks Hn]; subst; [done|]. destruct Hc as [<-|[]]. congruence.
Qed.

Lemma cross_terms f h l2 cs1 cs2 d1 d2 :
  heap_ok h -> nodes h !! l2 = Some (mkComplex Or cs2) ->
  Forall2 (term h) cs1 d1 -> Forall2 (term h) cs2 d2 ->
  NoDup (flat_map ptrs cs1) ->
  (forall l, In l (flat_map ptrs cs1) -> ~ In l (flat_map ptrs cs2)) ->
  (flat_map ptrs cs1 = [] \/ flat_map ptrs (removelast cs2) = []) ->
  exists h' out, crossConds (Cond_And (S (S f))) l2 h cs1 = Ok (h', out) /\
    Forall2 (term h') out (dprod d1 d2) /\ heap_ok h' /\
    keeps (flat_map ptrs cs1) h h'.
Proof.
  revert h d1; induction cs1 as [|c cs1 IH]; intros h d1 Hok Hl2 H1 H2 Hnd Hdis Hsep.
  { inversion H1; subst. exists h, [].
    split_and!; [done | constructor | done | apply keeps_refl]. }
  inversion H1 as [|? k ? d1' Hc H1']; subst. cbn [flat_map] in Hnd, Hdis, Hsep.
  apply NoDup_app in Hnd as (_ & Hcc & Hnd).
  assert (Hcc' : forall l, In l (ptrs c) -> ~ In l (flat_map ptrs cs1)).
  { intros l Ha Hb. eapply Hcc; by apply list_elem_of_In. }
  destruct (map_right f h c k cs2 d2 Hok Hc H2) as (h1 & out1 & E1 & Ht1 & Hok1 & Hk1 & Hp1).
  { destruct Hsep as [[? _]%app_eq_nil|?]; auto. }
  pose proof (disj_not_term h (c :: cs1) (k :: d1') l2 cs2 Hl2 H1) as Hl2n.
  cbn [flat_map] in Hl2n. rewrite in_app_iff in Hl2n.
  destruct (IH h1 d1') as (h2 & out2 & E2 & Ht2 & Hok2 & Hk2); [done | | | | done | | | ].
  - destruct Hk1 as [_ Hk1]. rewrite Hk1; [done | tauto | apply Hok; by eexists].
  - apply (terms_keeps (ptrs c) h h1); [done.. | | done]. intros l Ha Hb. by eapply Hcc'.
  - apply (terms_keeps (ptrs c) h h1); [done.. | | done]. intros l Ha Hb.
    eapply Hdis; [|exact Ha]. apply in_app_iff. by left.
  - intros l Ha. apply Hdis. apply in_app_iff. by right.
  - destruct Hsep as [[_ ?]%app_eq_nil|?]; auto.
  - exists h2, (out1 ++ out2). cbn [crossConds]. unfold load. rewrite Hl2.
    cbn [from_option mbind res_bind Conditions]. rewrite E1. cbn [mbind res_bind].
    rewrite E2. split; [done|]. split; [|split; [done|]].
    + unfold dprod. cbn [flat_map]. apply Forall2_app; [|done].
      apply (terms_keeps (flat_map ptrs cs1) h1 h2); [done.. | | done].
      intros l Hl Hin. destruct (Hp1 l Hl) as [Hc'|Hf]; [by eapply Hcc'|].
      pose proof (terms_below h cs1 d1' l Hok H1' Hin). lia.
    + eapply keeps_trans; (eapply keeps_mono; [|done]); intros l; cbn;
        rewrite in_app_iff; auto.
Qed.

(** *** The theorem for [And] *)

(** The conjunctions of a condition, by reference. *)
Definition terms_of (h : heap) (c : Condition) : list Condition :=
  match c with
  | CPtr l =>
    match nodes h !! l with
    | Some (mkComplex Or cs) => cs
    | _ => [c]
    end
  | _ => [c]
  end.

(** When the in-place update of a stored conjunction cannot be observed:
    the stored conjunctions of the receiver are distinct and not shared with
    the argument, and if there is one, the argument has a stored conjunction in
    last position only. *)
Definition unshared (h : heap) (c1 c2 : Condition) : Prop :=
  NoDup (flat_map ptrs (terms_of h c1)) /\
  (forall l, In l (flat_map ptrs (terms_of h c1)) -> ~ In l (flat_map ptrs (terms_of h c2))) /\
  (flat_map ptrs (terms_of h c1) = [] \/ flat_map ptrs (removelast (terms_of h c2)) = []).

Lemma alloc_disj h cs d :
  heap_ok h -> Forall2 (term h) cs d ->
  dnf (fst (alloc h (mkComplex Or cs))) (CPtr (fresh h)) d /\
  heap_ok (fst (alloc h (mkComplex Or cs))).
Proof.
  intros Hok Hts. split; [|by apply heap_ok_alloc].
  apply (dnf_disj _ _ cs); [cbn; by rewrite lookup_insert_eq|].
  apply (terms_keeps [] h); [done | apply keeps_alloc | intros ? ? [] | done].
Qed.

Lemma terms_of_term h c ks : term h c ks -> terms_of h c = [c].
Proof. intros Ht. inversion Ht as [|l ks' Hl]; subst; cbn; [done|]. by rewrite Hl. Qed.

Lemma dprod_single_r d k : dprod d [k] = map (fun x => x ++ k) d.
Proof. induction d as [|x d IH]; [done|]. cbn. by f_equal. Qed.

Lemma dprod_single_l k d : dprod [k] d = map (app k) d.
Proof. unfold dprod. cbn. by rewrite app_nil_r. Qed.

Lemma And_dnf f h c1 c2 d1 d2 :
  heap_ok h -> dnf h c1 d1 -> dnf h c2 d2 -> unshared h c1 c2 ->
  exists h' c, Cond_And (S (S (S f))) h c1 c2 = Ok (h', c) /\
    dnf h' c (dprod d1 d2) /\ heap_ok h'.
Proof.
  intros Hok H1 H2 (Hnd & Hdis & Hsep).
  inversion H1 as [c ks Hx|l cs d Hl Hcs]; inversion H2 as [c' ks' Hy|l2 cs2 d' Hl2 Hcs2]; subst.
  - destruct (term_And (S f) h c1 c2 ks ks' Hok Hx Hy) as (h' & c & E & Ht & Hok' & _).
    exists h', c. rewrite dprod_single_l. split; [exact E|]. split; [by constructor | done].
  - rewrite (terms_of_term h c1 ks Hx) in Hsep. cbn [flat_map terms_of] in Hsep.
    rewrite Hl2, app_nil_r in Hsep.
    destruct (map_right f h c1 ks cs2 d2 Hok Hx Hcs2 Hsep) as (h' & out & E & Hts & Hok' & _).
    rewrite dprod_single_l. pose proof (alloc_disj h' out _ Hok' Hts) as [? ?].
    exists (fst (alloc h' (mkComplex Or out))), (CPtr (fresh h')). split; [|done].
    inversion Hx as [k|l ks0 Hl]; subst; conn; by rewrite E.
  - rewrite (terms_of_term h c2 ks' Hy) in Hdis. cbn [flat_map terms_of] in Hdis, Hnd.
    rewrite Hl in Hdis, Hnd. rewrite app_nil_r in Hdis.
    destruct (map_left f h c2 ks' cs d1 Hok Hy Hcs Hnd Hdis) as (h' & out & E & Hts & Hok' & _).
    rewrite dprod_single_r. pose proof (alloc_disj h' out _ Hok' Hts) as [? ?].
    exists (fst (alloc h' (mkComplex Or out))), (CPtr (fresh h')). split; [|done].
    inversion Hy as [k|l' ks0 Hl']; subst; conn; by rewrite E.
  - cbn [terms_of] in Hnd, Hdis, Hsep. rewrite Hl in Hnd, Hdis, Hsep. rewrite Hl2 in Hdis, Hsep.
    destruct (cross_terms f h l2 cs cs2 d1 d2 Hok Hl2 Hcs Hcs2 Hnd Hdis Hsep)
      as (h' & out & E & Hts & Hok' & _).
    pose proof (alloc_disj h' out _ Hok' Hts) as [? ?].
    exists (fst (alloc h' (mkComplex Or out))), (CPtr (fresh h')). split; [|done].
    conn. by rewrite E.
Qed.

(** *** The theorem for [Or] *)

(** A key, or a stored disjunction: what the folding loop of [Or] builds. *)
Inductive disj (h : heap) : Condition -> list (list KeyCondition) -> Prop :=
| disj_key k : disj h (CKey k) [[k]]
| disj_node l cs d :
    nodes h !! l = Some (mkComplex Or cs) -> Forall2 (term h) cs d -> disj h (CPtr l) d.

Lemma disj_dnf h c d : disj h c d -> dnf h c d.
Proof. intros [k|l cs d' Hl Hcs]; [by repeat constructor | by econstructor]. Qed.

Lemma alloc_disj_node h cs d :
  heap_ok h -> Forall2 (term h) cs d ->
  disj (fst (alloc h (mkComplex Or cs))) (CPtr (fresh h)) d.
Proof.
  intros Hok Hts. apply (disj_node _ _ cs); [cbn; by rewrite lookup_insert_eq|].
  apply (terms_keeps [] h); [done | apply keeps_alloc | intros ? ? [] | done].
Qed.

Lemma disj_Or_term f h r dr y ks :
  heap_ok h -> disj h r dr -> term h y ks ->
  exists h' c, Cond_Or (S f) h r y = Ok (h', c) /\ disj h' c (dr ++ [ks]) /\
    heap_ok h' /\ keeps [] h h'.
Proof.
  intros Hok Hr Hy.
  assert (Hts : exists cs, Forall2 (term h) cs dr /\
    Cond_Or (S f) h r y = Ok (alloc h (mkComplex Or (cs ++ [y])))).
  { inversion Hr as [k|l cs d Hl Hcs]; inversion Hy as [k'|l' ks' Hl']; subst.
    - exists [CKey k]. split; [by repeat constructor | done].
    - exists [CKey k]. split; [by repeat constructor | by conn].
    - exists cs. split; [done | by conn].
    - exists cs. split; [done | by conn]. }
  destruct Hts as (cs & Hcs & E). rewrite E.
  do 2 eexists. split; [done|].
  split; [apply alloc_disj_node; [done | apply Forall2_app; [done | by repeat constructor]]|].
  split; [by apply heap_ok_alloc | apply keeps_alloc].
Qed.

Lemma disj_Or_term_new f h r y h' c l :
  Cond_Or (S f) h r y = Ok (h', c) -> (exists dr ks, disj h r dr /\ term h y ks) ->
  In l (ptrs c) -> (fresh h <= l)%nat.
Proof.
  intros E (dr & ks & Hr & Hy). revert E.
  inversion Hr as [k|l0 cs d Hl Hcs]; inversion Hy as [k'|l' ks' Hl']; subst; conn;
    intros [= <- <-]; intros [<-|[]]; lia.
Qed.

Lemma fold_Or f h r dr cs d :
  heap_ok h -> disj h r dr -> Forall2 (term h) cs d ->
  exists h' c, foldConds (Cond_Or (S f)) h r cs = Ok (h', c) /\
    disj h' c (dr ++ d) /\ heap_ok h' /\ keeps [] h h' /\
    (forall l, In l (ptrs c) -> In l (ptrs r) \/ (fresh h <= l)%nat).
Proof.
  revert h r dr d; induction cs as [|y cs IH]; intros h r dr d Hok Hr Hcs.
  - inversion Hcs; subst. exists h, r. rewrite app_nil_r. cbn. auto 10 with dbpack.
  - inversion Hcs as [|? ks ? d' Hy Hcs']; subst.
    destruct (disj_Or_term f h r dr y ks Hok Hr Hy) as (h1 & r1 & E & Hr1 & Hok1 & Hk).
    destruct (IH h1 r1 _ d' Hok1 Hr1) as (h2 & c & E2 & Hc & Hok2 & Hk2 & Hp).
    { apply (terms_keeps [] h h1); [done.. | intros ? ? [] | done]. }
    exists h2, c. cbn [foldConds]. rewrite E. cbn [mbind res_bind].
    rewrite cons_middle, app_assoc. split; [done|]. split; [done|]. split; [done|].
    split; [by eapply keeps_trans|]. intros l Hl. right.
    destruct (Hp l Hl) as [Hr1'|?]; [|destruct Hk; lia].
    eapply disj_Or_term_new; [exact E | eauto | exact Hr1'].
Qed.

Lemma Or_dnf f h c1 c2 d1 d2 :
  heap_ok h -> dnf h c1 d1 -> dnf h c2 d2 ->
  exists h' c, Cond_Or (S (S f)) h c1 c2 = Ok (h', c) /\
    dnf h' c (d1 ++ d2) /\ heap_ok h' /\ keeps (ptrs c1) h h' /\
    (forall l, In l (ptrs c) -> In l (ptrs c1) \/ (fresh h <= l)%nat).
Proof.
  intros Hok H1 H2.
  assert (Halloc : forall cs, Forall2 (term h) cs (d1 ++ d2) ->
    Cond_Or (S (S f)) h c1 c2 = Ok (alloc h (mkComplex Or cs)) ->
    exists h' c, Cond_Or (S (S f)) h c1 c2 = Ok (h', c) /\ dnf h' c (d1 ++ d2) /\ heap_ok h' /\
      keeps (ptrs c1) h h' /\ (forall l, In l (ptrs c) -> In l (ptrs c1) \/ (fresh h <= l)%nat)).
  { intros cs Hcs ->. do 2 eexists. split; [done|].
    pose proof (alloc_disj h cs _ Hok Hcs) as [Hd Hok']. split; [exact Hd|]. split; [exact Hok'|].
    split; [eapply keeps_mono; [|apply keeps_alloc]; done|]. intros l [<-|[]]. right. lia. }
  inversion H1 as [c ks Hx|l cs d Hl Hcs]; inversion H2 as [c' ks' Hy|l2 cs2 d' Hl2 Hcs2]; subst.
  - apply (Halloc [c1; c2]); [by repeat constructor|].
    inversion Hx; inversion Hy; subst; by conn.
  - inversion Hx as [k|l ks0 Hl]; subst.
    + destruct (fold_Or f h (CKey k) [[k]] cs2 d2 Hok (disj_key _ _) Hcs2) as (h' & c & E & Hd & Hok' & Hk & Hp).
      exists h', c. split; [conn; exact E|]. split; [by apply disj_dnf|]. done.
    + apply (Halloc (CPtr l :: cs2)); [by repeat constructor | by conn].
  - apply (Halloc (cs ++ [c2])); [apply Forall2_app; [done | by repeat constructor]|].
    inversion Hy; subst; by conn.
  - exists (store h l (mkComplex Or (cs ++ cs2))), (CPtr l). split; [by conn|].
    split; [|split; [apply heap_ok_store; [done | by eexists]|split; [apply keeps_store | by left]]].
    apply (dnf_disj _ _ (cs ++ cs2)); [cbn; by rewrite lookup_insert_eq|].
    apply (terms_keeps [l] h); [done | apply keeps_store | | by apply Forall2_app].
    intros l' Hin [<-|[]]. revert Hin.
    by apply (disj_not_term h (cs ++ cs2) (d1 ++ d2) l cs), Forall2_app.
Qed.

(** ** Claims *)

(** A store with [(a and b)] at 0, [(c and d)] at 1, [(c and d) or e] and its
    reverse at 2 and 3, and a second conjunction at 4. *)
Definition key (s : string) : KeyCondition := mkKey s EQ (VInt64 1).

Definition sample_heap : heap :=
  mkHeap {[ 0%nat := mkComplex And [CKey (key "a"); CKey (key "b")];
            1%nat := mkComplex And [CKey (key "c"); CKey (key "d")];
            2%nat := mkComplex Or [CKey (key "e"); CPtr 1];
            3%nat := mkComplex Or [CPtr 1; CPtr 4];
            4%nat := mkComplex And [CKey (key "e"); CKey (key "f")] ]} 5.

Lemma sample_heap_ok : heap_ok sample_heap.
Proof.
  intros l [n Hn]. cbn [nodes fresh sample_heap] in *.
  repeat (apply lookup_insert_Some in Hn as [[<- _]|[_ Hn]]; [lia|]).
  apply lookup_singleton_Some in Hn as [<- _]. lia.
Qed.

(** [And] of two conditions in disjunctive normal form whose stored
    conjunctions are not shared terminates with a condition in disjunctive
    normal form that is true exactly when both operands are, under every
    valuation of the comparisons; it is the distributed product. *)
Theorem And_correct h c1 c2 d1 d2 :
  heap_ok h -> dnf h c1 d1 -> dnf h c2 d2 -> unshared h c1 c2 ->
  exists h' c d, Cond_And 3 h c1 c2 = Ok (h', c) /\ dnf h' c d /\ d = dprod d1 d2 /\
    forall v, deval v d = deval v d1 && deval v d2.
Proof.
  intros Hok H1 H2 Hu. destruct (And_dnf 0 h c1 c2 d1 d2 Hok H1 H2 Hu) as (h' & c & E & Hd & _).
  exists h', c, (dprod d1 d2). split_and!; [done.. | intros v; apply deval_dprod].
Qed.

Lemma And_correct_witness :
  exists h' c d, Cond_And 3 sample_heap (CPtr 0) (CPtr 2) = Ok (h', c) /\ dnf h' c d /\
    d = dprod [[key "a"; key "b"]] [[key "e"]; [key "c"; key "d"]] /\
    forall v, deval v d = deval v [[key "a"; key "b"]] &&
                          deval v [[key "e"]; [key "c"; key "d"]].
Proof.
  apply And_correct.
  - exact sample_heap_ok.
  - apply dnf_term, (term_conj _ 0 [key "a"; key "b"]). vm_compute. reflexivity.
  - eapply dnf_disj; [vm_compute; reflexivity|].
    constructor; [constructor|]. constructor; [|constructor].
    apply (term_conj _ 1 [key "c"; key "d"]). vm_compute. reflexivity.
  - split; [|split].
    + apply (bool_decide_unpack _). vm_compute. exact I.
    + intros l Hl. vm_compute in Hl |- *. intuition congruence.
    + right. vm_compute. reflexivity.
Defined.

(** [Or] of two conditions in disjunctive normal form, shared or not,
    terminates with a condition in disjunctive normal form that lists the
    alternatives of both, so it is true exactly when one of them is. *)
Theorem Or_correct h c1 c2 d1 d2 :
  heap_ok h -> dnf h c1 d1 -> dnf h c2 d2 ->
  exists h' c d, Cond_Or 2 h c1 c2 = Ok (h', c) /\ dnf h' c d /\ d = d1 ++ d2 /\
    forall v, deval v d = deval v d1 || deval v d2.
Proof.
  intros Hok H1 H2. destruct (Or_dnf 0 h c1 c2 d1 d2 Hok H1 H2) as (h' & c & E & Hd & _).
  exists h', c, (d1 ++ d2). split_and!; [done.. | intros v; apply deval_app].
Qed.

Lemma Or_correct_witness :
  exists h' c d, Cond_Or 2 sample_heap (CKey (key "x")) (CPtr 0) = Ok (h', c) /\
    dnf h' c d /\ d = [[key "x"]] ++ [[key "a"; key "b"]] /\
    forall v, deval v d = deval v [[key "x"]] || deval v [[key "a"; key "b"]].
Proof.
  apply Or_correct.
  - exact sample_heap_ok.
  - repeat constructor.
  - apply dnf_term, (term_conj _ 0 [key "a"; key "b"]). vm_compute. reflexivity.
Defined.

Lemma term_conj_inv h l ks k :
  nodes h !! l = Some (mkComplex And (CKey <$> ks)) -> term h (CPtr l) k -> k = ks.
Proof.
  intros Hl Ht. inversion Ht as [|l' ks' Hl']; subst. rewrite Hl in Hl'.
  injection Hl' as E. assert (Inj (=) (=) CKey) by (by intros ? ? [=]).
  symmetry. by apply (list_fmap_eq_inj CKey).
Qed.

Lemma dnf_or_inv h l cs d :
  nodes h !! l = Some (mkComplex Or cs) -> dnf h (CPtr l) d -> Forall2 (term h) cs d.
Proof.
  intros Hl Hd. inversion Hd as [c ks Ht|l' cs' d' Hl' Hcs]; subst.
  - inversion Ht; subst. congruence.
  - rewrite Hl in Hl'. by injection Hl' as <-.
Qed.

(** The store after [(a and b) and ((c and d) or (e and f))]. *)
Definition shared_result : heap :=
  match Cond_And 3 sample_heap (CPtr 0) (CPtr 3) with Ok (h', _) => h' | _ => sample_heap end.

(** [(a and b) and ((c and d) or (e and f))]: the in-place update makes
    both alternatives the same node, which requires all six comparisons, so a
    row satisfying [a], [b], [c] and [d] only is lost. *)
Theorem And_shared_conjunction_wrong :
  Cond_And 3 sample_heap (CPtr 0) (CPtr 3) = Ok (shared_result, CPtr 5) /\
  nodes shared_result !! 5%nat = Some (mkComplex Or [CPtr 0; CPtr 0]) /\
  exists v,
    deval v [[key "a"; key "b"]] && deval v [[key "c"; key "d"]; [key "e"; key "f"]] = true /\
    forall d, dnf shared_result (CPtr 5) d -> deval v d = false.
Proof.
  assert (H5 : nodes shared_result !! 5%nat = Some (mkComplex Or [CPtr 0; CPtr 0]))
    by (vm_compute; reflexivity).
  set (ks := [key "a"; key "b"; key "c"; key "d"; key "e"; key "f"]).
  assert (H0 : nodes shared_result !! 0%nat = Some (mkComplex And (CKey <$> ks)))
    by (vm_compute; reflexivity).
  split; [vm_compute; reflexivity|]. split; [done|].
  exists (fun k => negb (bool_decide (k = key "e"))). split; [reflexivity|].
  intros d Hd%(dnf_or_inv _ _ _ _ H5).
  inversion Hd as [|? k1 ? d1 T1 R1]; subst. inversion R1 as [|? k2 ? d2 T2 R2]; subst.
  inversion R2; subst.
  rewrite (term_conj_inv _ _ _ _ H0 T1), (term_conj_inv _ _ _ _ H0 T2). reflexivity.
Qed.

(** A comparison followed by a condition that is constantly true or false
    has no case in [KeyCondition.And]: the conjunction of the two is the nil
    condition. *)
Theorem And_key_constant_nil f h k c :
  c = CTrue \/ c = CFalse ->
  Cond_And (S f) h (CKey k) c = Ok (h, CNil) /\
  Cond_And (S f) h c (CKey k) = Ok (h, match c with CTrue => CKey k | _ => CFalse end).
Proof. by intros [->| ->]. Qed.

Lemma And_key_constant_nil_witness :
  Cond_And 1 sample_heap (CKey (key "a")) CTrue = Ok (sample_heap, CNil).
Proof. apply (And_key_constant_nil 0 sample_heap (key "a") CTrue). left. reflexivity. Defined.
