(* ===== verification/Sharding.v ===== *)
(** * Sharding algorithms: [pkg/cond/sharding_algorithm.go],
    [algo_number_mod.go] and [algo_number_range.go]

    [ShardingAlgorithm] is the Go interface as a record of operations, and
    [SoundAlgorithm] is what the condition evaluator needs of one: on the
    stated domain, the tables an operation returns include every table that
    holds a row satisfying the comparison.  [NumberMod] and [NumberRange] are
    the two implementations and discharge it, each on its domain; the last
    section shows inputs outside it on which rows are missed. *)
From Stdlib Require Import ZArith Lia List Ascii String Permutation.
From stdpp Require Import base gmap strings list.
From S2P Require Import Prelude GoText Values Topology Condition.

Local Open Scope Z_scope.

(** ** The interface *)
Record ShardingAlgorithm := mkAlgorithm {
  HasShardingKey : string -> bool;
  alg_Shard : KeyCondition -> res Condition;
  alg_ShardRange : KeyCondition -> KeyCondition -> res Condition;
  AllShards : list Z;
  AllowFullScan : bool }.

(** The integer of a condition's value: [ParseInt(Sprintf("%v", v))]. *)
Definition parseValue (v : value) : res Z := ParseInt_err (Sprint v).

(** The truth of [x op v] on integers, for the six comparisons. *)
Definition cmp_holds (op : Op) (x v : Z) : Prop :=
  match op with
  | EQ => x = v | NE => x <> v | LT => x < v | LE => x <= v | GT => x > v | GE => x >= v
  | _ => False
  end.

(** The tables a sharding result selects. *)
Definition selects (all : list Z) (c : Condition) (idx : Z) : Prop :=
  match c with
  | CTrue => In idx all
  | CSlice l => In idx l
  | _ => False
  end.

(** Results are slices of tables or constants. *)
Definition simple (c : Condition) : Prop :=
  match c with CTrue | CFalse | CSlice _ => True | _ => False end.

(** [placed x idx]: rows with sharding key [x] are stored in table [idx].
    [dom k] and [dom_range k1 k2] delimit the comparisons the algorithm is
    relied on for. *)
Class SoundAlgorithm (alg : ShardingAlgorithm) := {
  sharding_key : string;
  placed : Z -> Z -> Prop;
  dom : KeyCondition -> Prop;
  dom_range : KeyCondition -> KeyCondition -> Prop;
  has_key : forall key, HasShardingKey alg key = EqualFold sharding_key key;
  placed_all : forall x idx, placed x idx -> In idx (AllShards alg);
  other_key : forall k, EqualFold sharding_key (Key k) = false -> alg_Shard alg k = Ok CTrue;
  other_key_range : forall k1 k2, EqualFold sharding_key (Key k1) = false ->
    alg_ShardRange alg k1 k2 = Ok CTrue;
  shard_sound : forall k v, EqualFold sharding_key (Key k) = true -> dom k ->
    parseValue (Value k) = Ok v ->
    exists c, alg_Shard alg k = Ok c /\ simple c /\
      forall x idx, placed x idx -> cmp_holds (KOp k) x v -> selects (AllShards alg) c idx;
  range_sound : forall k1 k2 v1 v2, EqualFold sharding_key (Key k1) = true ->
    dom_range k1 k2 -> (KOp k1 = GT \/ KOp k1 = GE) -> (KOp k2 = LT \/ KOp k2 = LE) ->
    parseValue (Value k1) = Ok v1 -> parseValue (Value k2) = Ok v2 ->
    exists c, alg_ShardRange alg k1 k2 = Ok c /\ simple c /\
      forall x idx, placed x idx -> cmp_holds (KOp k1) x v1 -> cmp_holds (KOp k2) x v2 ->
        selects (AllShards alg) c idx }.

(** ** The case numbers computed by both [ShardRange] methods *)
Definition rangeStatus (op1 op2 : Op) : Z :=
  match op1, op2 with
  | GT, LT => 1 | GT, LE => 2 | GE, LT => 3 | GE, LE => 4 | NE, LT => 5 | NE, LE => 6
  | _, _ => 0
  end.

(** ** [NumberMod] *)
Module NumberMod.
Section NumberMod.
Context `{MapOrder}.

Record t := mk { shardingKey : string; allowFullScan : bool; topology : Topology }.

Definition Shard (shard : t) (condition : KeyCondition) : res Condition :=
  if negb (EqualFold (shardingKey shard) (Key condition)) then Ok CTrue
  else
    val ← parseValue (Value condition);
    let n := TableSliceLen (topology shard) in
    match KOp condition with
    | EQ => if n =? 0 then Panic else Ok (CSlice [Z.rem val n])
    | NE =>
      if n =? 0 then Panic
      else Ok (CSlice (filter (fun index => index <> Z.rem val n) (TableSlice (topology shard))))
    | LT => if val <? n then Ok (CSlice (downfrom (val - 1))) else Ok CTrue
    | LE => if val <? n - 1 then Ok (CSlice (downfrom val)) else Ok CTrue
    | GT => Ok CTrue
    | GE => Ok CTrue
    | _ => Ok (CSlice [])
    end.

(** [for i := lo; i < hi; i++ { result = append(result, int(i % n)) }]; the
    remainder by zero panics. *)
Definition residues (n lo hi : Z) : res (list Z) :=
  if (n =? 0) && (lo <? hi) then Panic else Ok (map (fun i => Z.rem i n) (upto lo hi)).

(** The same with [i <= hi]: with the largest [int64] as bound the loop never
    exits and appends until memory is exhausted. *)
Definition residues_le (n lo hi : Z) : res (list Z) :=
  if hi =? two63 - 1 then Panic else residues n lo (hi + 1).

(** The keys of the map filled by the loop of cases 5 and 6, in iteration
    order. *)
Definition residues_except (n val1 val2 : Z) : res (list Z) :=
  idxs ← residues n 0 val2;
  Ok (visit 1 (remove_dups (map (fun i => Z.rem i n) (filter (fun i => i <> val1) (upto 0 val2))))).

Definition ShardRange (shard : t) (cond1 cond2 : KeyCondition) : res Condition :=
  if negb (EqualFold (shardingKey shard) (Key cond1)) then Ok CTrue
  else
    val1 ← parseValue (Value cond1);
    val2 ← parseValue (Value cond2);
    let n := TableSliceLen (topology shard) in
    match rangeStatus (KOp cond1) (KOp cond2) with
    | 1 =>
      if n <=? i64 (i64 (val2 - val1) - 1) then Ok CTrue
      else r ← residues n (i64 (val1 + 1)) val2; Ok (CSlice r)
    | 2 =>
      if n <=? i64 (val2 - val1) then Ok CTrue
      else r ← residues_le n (i64 (val1 + 1)) val2; Ok (CSlice r)
    | 3 =>
      if n <=? i64 (val2 - val1) then Ok CTrue
      else r ← residues n val1 val2; Ok (CSlice r)
    | 4 =>
      if n <=? i64 (i64 (val2 - val1) + 1) then Ok CTrue
      else r ← residues_le n val1 val2; Ok (CSlice r)
    | 5 =>
      if n - 1 <=? val1 then Ok CTrue
      else if i64 (n + val1) <? val2 then Ok CTrue
      else r ← residues_except n val1 val2; Ok (CSlice r)
    | 6 =>
      if n - 1 <=? val1 then Ok CTrue
      else if i64 (n + val1) <=? val2 then Ok CTrue
      else r ← residues_except n val1 val2; Ok (CSlice r)
    | _ => Ok (CSlice [])
    end.

Definition algorithm (shard : t) : ShardingAlgorithm := {|
  HasShardingKey := EqualFold (shardingKey shard);
  alg_Shard := Shard shard;
  alg_ShardRange := ShardRange shard;
  AllShards := TableSlice (topology shard);
  AllowFullScan := allowFullScan shard |}.

End NumberMod.
End NumberMod.

(** ** [NumberRange] *)
Module NumberRange.

Record Range := mkRange { From : Z; To : Z }.

(** [strings.HasSuffix(num, "k") || strings.HasSuffix(num, "K")] and the two
    trims that follow, likewise for [m]. *)
Definition trim2 (num : string) (lower upper : ascii) : string :=
  TrimSuffix1 (TrimSuffix1 num lower) upper.

Definition parseNumber (num : string) : res Z :=
  if HasSuffix1 num "k" || HasSuffix1 num "K" then
    number ← ParseInt_err (trim2 num "k" "K");
    Ok (i64 (number * 1000))
  else if HasSuffix1 num "m" || HasSuffix1 num "M" then
    number ← ParseInt_err (trim2 num "m" "M");
    Ok (i64 (number * 10000))
  else ParseInt_err num.

Definition rangeChar (c : ascii) : bool :=
  isDigit c || Ascii.eqb c "K" || Ascii.eqb c "k" || Ascii.eqb c "M" || Ascii.eqb c "m".

(** The groups of [rangeRegexp]. *)
Definition rangeMatch (s : string) : option (string * string) :=
  match cut_first s "-" with
  | Some (a, b) =>
    if negb (String.eqb a "") && forallb rangeChar (list_of a) &&
       (negb (String.eqb b "") && forallb rangeChar (list_of b))
    then Some (a, b) else None
  | None => None
  end.

Definition parseNumberRange (rangeString : string) : res Range :=
  match rangeMatch rangeString with
  | None => Err "incorrect number range format"
  | Some (p1, p2) =>
    begin ← parseNumber p1;
    end_ ← parseNumber p2;
    if end_ <=? begin then Err "incorrect number range format"
    else Ok (mkRange begin end_)
  end.

Section NumberRange.
Context `{MapOrder}.

(** The entries of the configuration map, in iteration order; a later entry
    for the same number overwrites an earlier one. *)
Fixpoint setRange (ranges : list (Z * Range)) (i : Z) (r : Range) : list (Z * Range) :=
  match ranges with
  | [] => [(i, r)]
  | (j, r') :: rest => if i =? j then (i, r) :: rest else (j, r') :: setRange rest i r
  end.

Fixpoint parseConfigEntries (config : list (string * value)) (result : list (Z * Range))
  : res (list (Z * Range)) :=
  match config with
  | [] => Ok result
  | (key, v) :: config' =>
    match v with
    | VString rangeString =>
      dbIdx ← Atoi key;
      numberRange ← parseNumberRange rangeString;
      parseConfigEntries config' (setRange result dbIdx numberRange)
    | _ => Err "incorrect number range format"
    end
  end.

Definition parseNumberRangeConfig (config : list (string * value)) : res (list (Z * Range)) :=
  parseConfigEntries (visit 0 config) [].

Record t := mk {
  shardingKey : string; allowFullScan : bool; topology : Topology;
  ranges : list (Z * Range) }.

Definition NewNumberRange (key : string) (full : bool) (topo : Topology)
    (config : list (string * value)) : res t :=
  rs ← parseNumberRangeConfig config;
  Ok (mk key full topo rs).

(** [for idx, r := range shard.ranges { if p(r) { append(result, idx) } }] *)
Definition collect (shard : t) (p : Range -> bool) : list Z :=
  map fst (List.filter (fun e => p (snd e)) (visit 0 (ranges shard))).

Definition Shard (shard : t) (condition : KeyCondition) : res Condition :=
  if negb (EqualFold (shardingKey shard) (Key condition)) then Ok CTrue
  else
    val ← parseValue (Value condition);
    match KOp condition with
    | EQ => Ok (CSlice (collect shard (fun r => (From r <=? val) && (val <? To r))))
    | NE => Ok CTrue
    | LT => Ok (CSlice (collect shard (fun r => From r <? val)))
    | LE => Ok (CSlice (collect shard (fun r => From r <=? val)))
    | GT => Ok (CSlice (collect shard (fun r => val <? To r)))
    | GE => Ok (CSlice (collect shard (fun r => val <=? To r)))
    | _ => Ok (CSlice [])
    end.

(** The first range visited that contains [value], both ends included. *)
Definition calculate (site : nat) (shard : t) (value : Z) : Z :=
  match List.find (fun e => (From (snd e) <=? value) && (value <=? To (snd e)))
          (visit site (ranges shard)) with
  | Some (idx, _) => idx
  | None => -1
  end.

Definition calculateRange (shard : t) (begin end_ : Z) : Condition :=
  let start := calculate 2 shard begin in
  let stop := calculate 3 shard end_ in
  if (start =? -1) && (stop =? -1) then CFalse
  else if start <=? stop then CSlice (upto start (stop + 1))
  else CFalse.

Definition ShardRange (shard : t) (cond1 cond2 : KeyCondition) : res Condition :=
  if negb (EqualFold (shardingKey shard) (Key cond1)) then Ok CTrue
  else
    val1 ← parseValue (Value cond1);
    val2 ← parseValue (Value cond2);
    match rangeStatus (KOp cond1) (KOp cond2) with
    | 1 | 2 | 3 | 4 => Ok (calculateRange shard val1 val2)
    | 5 => Ok (CSlice (collect shard (fun r => From r <? val2)))
    | 6 => Ok (CSlice (collect shard (fun r => From r <=? val2)))
    | _ => Ok (CSlice [])
    end.

Definition algorithm (shard : t) : ShardingAlgorithm := {|
  HasShardingKey := EqualFold (shardingKey shard);
  alg_Shard := Shard shard;
  alg_ShardRange := ShardRange shard;
  AllShards := TableSlice (topology shard);
  AllowFullScan := allowFullScan shard |}.

End NumberRange.
End NumberRange.

(** [NewShardingAlgorithm]. *)
Definition NewShardingAlgorithm `{MapOrder} (algorithm shardingKey : string) (allowFullScan : bool)
    (topology : Topology) (config : list (string * value)) : res ShardingAlgorithm :=
  if String.eqb algorithm "NumberMod" then
    Ok (NumberMod.algorithm (NumberMod.mk shardingKey allowFullScan topology))
  else if String.eqb algorithm "NumberRange" then
    r ← NumberRange.NewNumberRange shardingKey allowFullScan topology config;
    Ok (NumberRange.algorithm r)
  else Err ("unsupported sharding algorithm: " +:+ algorithm)%string.

(** ** [NumberMod] is sound for the five comparisons other than [<>] *)
Section NumberMod_sound.
Context `{MapOrder} (shard : NumberMod.t).
Let n := TableSliceLen (NumberMod.topology shard).
Context (n_pos : 0 < n).
Context (covers : Permutation (TableSlice (NumberMod.topology shard)) (upto 0 n)).

Definition mod_placed (x idx : Z) : Prop := 0 <= x /\ in_i64 x /\ idx = x mod n.

Definition mod_dom (k : KeyCondition) : Prop :=
  KOp k = EQ \/ KOp k = LT \/ KOp k = LE \/ KOp k = GT \/ KOp k = GE.

Definition mod_dom_range (k1 k2 : KeyCondition) : Prop :=
  KOp k2 = LE -> parseValue (Value k2) <> Ok (two63 - 1).

Lemma mod_placed_all x idx :
  mod_placed x idx -> In idx (TableSlice (NumberMod.topology shard)).
Proof.
  intros (? & _ & ->). eapply Permutation_in; [symmetry; exact covers|].
  apply upto_In, Z.mod_pos_bound, n_pos.
Qed.

Lemma mod_other_key k :
  EqualFold (NumberMod.shardingKey shard) (Key k) = false -> NumberMod.Shard shard k = Ok CTrue.
Proof. intros E. unfold NumberMod.Shard. by rewrite E. Qed.

Lemma mod_other_key_range k1 k2 :
  EqualFold (NumberMod.shardingKey shard) (Key k1) = false ->
  NumberMod.ShardRange shard k1 k2 = Ok CTrue.
Proof. intros E. unfold NumberMod.ShardRange. by rewrite E. Qed.

Lemma mod_shard_sound k v :
  EqualFold (NumberMod.shardingKey shard) (Key k) = true -> mod_dom k ->
  parseValue (Value k) = Ok v ->
  exists c, NumberMod.Shard shard k = Ok c /\ simple c /\
    forall x idx, mod_placed x idx -> cmp_holds (KOp k) x v ->
      selects (TableSlice (NumberMod.topology shard)) c idx.
Proof.
  intros E Hd Hv. unfold NumberMod.Shard. rewrite E, Hv. cbn [negb mbind res_bind]. fold n.
  assert (Htrue : forall x idx, mod_placed x idx -> cmp_holds (KOp k) x v ->
    selects (TableSlice (NumberMod.topology shard)) CTrue idx)
    by (intros x idx Hp _; by apply (mod_placed_all x)).
  destruct Hd as [Ho|[Ho|[Ho|[Ho|Ho]]]]; rewrite Ho in *.
  - destruct (Z.eqb_spec n 0); [lia|]. eexists; split; [done|]. split; [done|].
    intros x idx (Hx & _ & ->) ->. left. apply Z.rem_mod_nonneg; lia.
  - destruct (Z.ltb_spec v n); eexists; (split; [done|]); (split; [done|]); [|exact Htrue].
    intros x idx (Hx & _ & ->) Hlt. cbn in *. apply downfrom_In.
    rewrite Z.mod_small by lia. lia.
  - destruct (Z.ltb_spec v (n - 1)); eexists; (split; [done|]); (split; [done|]); [|exact Htrue].
    intros x idx (Hx & _ & ->) Hlt. cbn in *. apply downfrom_In.
    rewrite Z.mod_small by lia. lia.
  - eexists; split; [done|]. split; [done | exact Htrue].
  - eexists; split; [done|]. split; [done | exact Htrue].
Qed.

Lemma residues_select lo hi x :
  0 <= x -> lo <= x < hi ->
  exists r, NumberMod.residues n lo hi = Ok r /\ In (x mod n) r.
Proof.
  intros Hx Hr. unfold NumberMod.residues. destruct (Z.eqb_spec n 0); [lia|].
  eexists; split; [done|]. apply in_map_iff. exists x.
  split; [apply Z.rem_mod_nonneg; lia | by apply upto_In].
Qed.

Lemma residues_total lo hi : exists r, NumberMod.residues n lo hi = Ok r.
Proof. unfold NumberMod.residues. destruct (Z.eqb_spec n 0); [lia|]. by eexists. Qed.

(** One case of [ShardRange]: everything, or the residues of an interval that
    contains the rows. *)
Lemma residues_case (b : bool) lo hi (P : Z -> Prop) (c : res Condition) :
  (forall x, 0 <= x -> in_i64 x -> P x -> lo <= x < hi) ->
  c = (if b then Ok CTrue else r ← NumberMod.residues n lo hi; Ok (CSlice r)) ->
  exists c', c = Ok c' /\ simple c' /\ forall x idx, mod_placed x idx -> P x ->
    selects (TableSlice (NumberMod.topology shard)) c' idx.
Proof.
  intros HP ->. destruct b.
  - eexists; split; [done|]. split; [done|]. intros x idx Hp _. by apply (mod_placed_all x).
  - destruct (residues_total lo hi) as [r E]. rewrite E. eexists; split; [done|]. split; [done|].
    intros x idx (Hx & Hx64 & ->) Hpx.
    destruct (residues_select lo hi x Hx (HP x Hx Hx64 Hpx)) as (r' & E' & Hin).
    rewrite E in E'. by injection E' as <-.
Qed.

Lemma mod_range_sound k1 k2 v1 v2 :
  EqualFold (NumberMod.shardingKey shard) (Key k1) = true -> mod_dom_range k1 k2 ->
  (KOp k1 = GT \/ KOp k1 = GE) -> (KOp k2 = LT \/ KOp k2 = LE) ->
  parseValue (Value k1) = Ok v1 -> parseValue (Value k2) = Ok v2 ->
  exists c, NumberMod.ShardRange shard k1 k2 = Ok c /\ simple c /\
    forall x idx, mod_placed x idx -> cmp_holds (KOp k1) x v1 -> cmp_holds (KOp k2) x v2 ->
      selects (TableSlice (NumberMod.topology shard)) c idx.
Proof.
  intros E Hd Ho1 Ho2 Hv1 Hv2. unfold NumberMod.ShardRange, NumberMod.residues_le.
  rewrite E, Hv1, Hv2. cbn [negb mbind res_bind]. fold n.
  pose proof (ParseInt_err_range _ _ Hv1). pose proof (ParseInt_err_range _ _ Hv2).
  assert (Hsucc : forall x, in_i64 x -> v1 < x -> i64 (v1 + 1) <= x)
    by (intros; rewrite i64_id; unfold_width; lia).
  assert (Hle : KOp k2 = LE -> (v2 =? two63 - 1) = false).
  { intros Ho. apply Z.eqb_neq. intros ->. by apply (Hd Ho). }
  set (P x := cmp_holds (KOp k1) x v1 /\ cmp_holds (KOp k2) x v2).
  enough (exists c, _ = Ok c /\ simple c /\ forall x idx, mod_placed x idx -> P x ->
    selects (TableSlice (NumberMod.topology shard)) c idx) as (c & Ec & Hsc & Hc)
    by (exists c; split; [exact Ec|]; split; [done | intros x idx Hp ? ?; by apply (Hc x)]).
  destruct Ho1 as [Ho1|Ho1], Ho2 as [Ho2|Ho2]; rewrite Ho1, Ho2 in *; cbn [rangeStatus];
    rewrite ?Hle by done; eapply residues_case; try reflexivity;
    intros x Hx Hx64 [Hc1 Hc2]; rewrite ?Ho1, ?Ho2 in *; cbn in Hc1, Hc2;
    specialize (Hsucc x Hx64); lia.
Qed.

Definition NumberMod_sound : SoundAlgorithm (NumberMod.algorithm shard) :=
  Build_SoundAlgorithm (NumberMod.algorithm shard) (NumberMod.shardingKey shard)
    mod_placed mod_dom mod_dom_range (fun key => eq_refl) mod_placed_all mod_other_key
    mod_other_key_range    mod_shard_sound mod_range_sound.

End NumberMod_sound.

(** ** [NumberRange] is sound when its ranges are ordered like their tables *)
Section NumberRange_sound.
Context `{MapOrder} (shard : NumberRange.t).
Let rs := NumberRange.ranges shard.
Context (tables_exist : forall i r, In (i, r) rs ->
  0 <= i /\ In i (TableSlice (NumberRange.topology shard))).
Context (ordered : forall i r j s, In (i, r) rs -> In (j, s) rs -> i < j ->
  NumberRange.To r <= NumberRange.From s).

Definition range_placed (x idx : Z) : Prop :=
  exists r, In (idx, r) rs /\ NumberRange.From r <= x < NumberRange.To r.

Definition range_dom (k : KeyCondition) : Prop :=
  KOp k = EQ \/ KOp k = NE \/ KOp k = LT \/ KOp k = LE \/ KOp k = GT \/ KOp k = GE.

(** Both bounds fall in a configured range, and an inclusive upper bound is
    not the end of one. *)
Definition range_dom_range (k1 k2 : KeyCondition) : Prop :=
  forall v1 v2, parseValue (Value k1) = Ok v1 -> parseValue (Value k2) = Ok v2 ->
    (exists e, In e rs /\ NumberRange.From (snd e) <= v1 <= NumberRange.To (snd e)) /\
    (exists e, In e rs /\ NumberRange.From (snd e) <= v2 <= NumberRange.To (snd e)) /\
    (KOp k2 = LE -> forall e, In e rs -> NumberRange.To (snd e) <> v2).

Lemma range_placed_all x idx :
  range_placed x idx -> In idx (TableSlice (NumberRange.topology shard)).
Proof. intros (r & Hin & _). by apply (tables_exist idx r). Qed.

Lemma range_other_key k :
  EqualFold (NumberRange.shardingKey shard) (Key k) = false ->
  NumberRange.Shard shard k = Ok CTrue.
Proof. intros E. unfold NumberRange.Shard. by rewrite E. Qed.

Lemma range_other_key_range k1 k2 :
  EqualFold (NumberRange.shardingKey shard) (Key k1) = false ->
  NumberRange.ShardRange shard k1 k2 = Ok CTrue.
Proof. intros E. unfold NumberRange.ShardRange. by rewrite E. Qed.

Lemma collect_In p idx :
  In idx (NumberRange.collect shard p) <-> exists r, In (idx, r) rs /\ p r = true.
Proof.
  unfold NumberRange.collect. rewrite in_map_iff. split.
  - intros ([i r] & <- & [Hin Hp]%filter_In). apply visit_In in Hin. eauto.
  - intros (r & Hin & Hp). exists (idx, r). split; [done|]. apply filter_In.
    split; [by apply visit_In | done].
Qed.

Lemma range_shard_sound k v :
  EqualFold (NumberRange.shardingKey shard) (Key k) = true -> range_dom k ->
  parseValue (Value k) = Ok v ->
  exists c, NumberRange.Shard shard k = Ok c /\ simple c /\
    forall x idx, range_placed x idx -> cmp_holds (KOp k) x v ->
      selects (TableSlice (NumberRange.topology shard)) c idx.
Proof.
  intros E Hd Hv. unfold NumberRange.Shard. rewrite E, Hv. cbn [negb mbind res_bind].
  destruct Hd as [Ho|[Ho|[Ho|[Ho|[Ho|Ho]]]]]; rewrite Ho; eexists; (split; [done|]); (split; [done|]);
    intros x idx Hp Hc; [| by apply (range_placed_all x) | ..];
    destruct Hp as (r & Hin & Hr); cbn in *; apply collect_In; exists r;
    (split; [done|]); zcases; cbn; done || lia.
Qed.

Lemma calculate_spec site v :
  (exists e, In e rs /\ NumberRange.From (snd e) <= v <= NumberRange.To (snd e)) ->
  exists i r, NumberRange.calculate site shard v = i /\ In (i, r) rs /\
    NumberRange.From r <= v <= NumberRange.To r.
Proof.
  intros (e & Hin & He). unfold NumberRange.calculate.
  destruct (List.find _ _) as [[i r]|] eqn:F.
  - apply find_some in F as [Hi Hr]. apply visit_In in Hi. cbn in Hr. zbool.
    exists i, r. split; [done|]. split; [done | lia].
  - pose proof (find_none _ _ F e (proj2 (visit_In site _ e) Hin)) as F'.
    exfalso. revert F'. zcases; cbn; done || lia.
Qed.

Lemma range_range_sound k1 k2 v1 v2 :
  EqualFold (NumberRange.shardingKey shard) (Key k1) = true -> range_dom_range k1 k2 ->
  (KOp k1 = GT \/ KOp k1 = GE) -> (KOp k2 = LT \/ KOp k2 = LE) ->
  parseValue (Value k1) = Ok v1 -> parseValue (Value k2) = Ok v2 ->
  exists c, NumberRange.ShardRange shard k1 k2 = Ok c /\ simple c /\
    forall x idx, range_placed x idx -> cmp_holds (KOp k1) x v1 -> cmp_holds (KOp k2) x v2 ->
      selects (TableSlice (NumberRange.topology shard)) c idx.
Proof.
  intros E Hd Ho1 Ho2 Hv1 Hv2. unfold NumberRange.ShardRange.
  rewrite E, Hv1, Hv2. cbn [negb mbind res_bind].
  assert (Hs : match rangeStatus (KOp k1) (KOp k2) with
    | 1 | 2 | 3 | 4 => Ok (NumberRange.calculateRange shard v1 v2)
    | 5 => Ok (CSlice (NumberRange.collect shard (fun r => NumberRange.From r <? v2)))
    | 6 => Ok (CSlice (NumberRange.collect shard (fun r => NumberRange.From r <=? v2)))
    | _ => Ok (CSlice []) end = Ok (NumberRange.calculateRange shard v1 v2)).
  { by destruct Ho1 as [-> | ->], Ho2 as [-> | ->]. }
  rewrite Hs. eexists; split; [done|].
  split; [unfold NumberRange.calculateRange; by repeat case_match|].
  destruct (Hd v1 v2 Hv1 Hv2) as (H1 & H2 & Hb).
  destruct (calculate_spec 2 v1 H1) as (i1 & r1 & E1 & In1 & B1).
  destruct (calculate_spec 3 v2 H2) as (i2 & r2 & E2 & In2 & B2).
  destruct (tables_exist _ _ In1) as [P1 _], (tables_exist _ _ In2) as [P2 _].
  intros x idx (r & Hin & Hr) C1 C2.
  assert (Hx1 : v1 <= x) by (destruct Ho1 as [Ho|Ho]; rewrite Ho in C1; cbn in C1; lia).
  assert (Hx2 : x < v2 \/ (x = v2 /\ NumberRange.To r2 <> v2)).
  { destruct Ho2 as [Ho|Ho]; rewrite Ho in C2; cbn in C2; [lia|].
    specialize (Hb Ho _ In2). cbn in Hb. lia. }
  assert (i1 <= idx).
  { destruct (Z.lt_ge_cases idx i1) as [Hlt|]; [|done].
    specialize (ordered _ _ _ _ Hin In1 Hlt). lia. }
  assert (idx <= i2).
  { destruct (Z.lt_ge_cases i2 idx) as [Hlt|]; [|lia].
    specialize (ordered _ _ _ _ In2 Hin Hlt). lia. }
  unfold NumberRange.calculateRange. rewrite E1, E2.
  zcases; cbn; try lia; apply upto_In; lia.
Qed.

Definition NumberRange_sound : SoundAlgorithm (NumberRange.algorithm shard) :=
  Build_SoundAlgorithm (NumberRange.algorithm shard) (NumberRange.shardingKey shard)
    range_placed range_dom range_dom_range (fun key => eq_refl) range_placed_all range_other_key
    range_other_key_range    range_shard_sound range_range_sound.

End NumberRange_sound.

(** ** Claims *)
Definition uid (op : Op) (z : Z) : KeyCondition := mkKey "uid" op (VInt64 z).

Definition five_tables : Topology :=
  match ParseTopology "school" "student" sample_config with
  | Ok t => t
  | _ => mkTopology "" "" ∅ ∅ ∅ [] 0
  end.

Definition mod5 : NumberMod.t := NumberMod.mk "uid" true five_tables.

Lemma five_tables_covers : Permutation (TableSlice five_tables) (upto 0 (TableSliceLen five_tables)).
Proof. vm_compute. reflexivity. Qed.

(** With tables numbered [0 .. n-1], [NumberMod.Shard] on [=], [<], [<=],
    [>] or [>=] of the sharding key returns a result that selects the table
    [x mod n] of every non-negative key [x] satisfying the comparison. *)
Theorem NumberMod_Shard_complete `{MapOrder} (shard : NumberMod.t) k v :
  0 < TableSliceLen (NumberMod.topology shard) ->
  Permutation (TableSlice (NumberMod.topology shard))
    (upto 0 (TableSliceLen (NumberMod.topology shard))) ->
  EqualFold (NumberMod.shardingKey shard) (Key k) = true -> mod_dom k ->
  parseValue (Value k) = Ok v ->
  exists c, NumberMod.Shard shard k = Ok c /\
    forall x, 0 <= x -> in_i64 x -> cmp_holds (KOp k) x v ->
      selects (TableSlice (NumberMod.topology shard)) c
        (x mod TableSliceLen (NumberMod.topology shard)).
Proof.
  intros Hn Hc E Hd Hv.
  destruct (mod_shard_sound shard Hn Hc k v E Hd Hv) as (c & Ec & _ & Hs).
  exists c. split; [done|]. intros x H0 H64 Hcmp. by apply (Hs x).
Qed.

Lemma NumberMod_Shard_complete_witness :
  exists c, NumberMod.Shard mod5 (uid LE 2) = Ok c /\
    forall x, 0 <= x -> in_i64 x -> cmp_holds LE x 2 -> selects (TableSlice five_tables) c (x mod 5).
Proof.
  apply (NumberMod_Shard_complete mod5 (uid LE 2) 2).
  - vm_compute; reflexivity.
  - exact five_tables_covers.
  - vm_compute; reflexivity.
  - right; right; left; reflexivity.
  - vm_compute; reflexivity.
Defined.

(** [NumberMod.ShardRange] on a lower and an upper bound returns a result
    that selects the table of every non-negative key between them, for every
    pair of 64-bit bounds except an inclusive bound [2^63-1]; wrap-around in
    the distance of the bounds included. *)
Theorem NumberMod_ShardRange_complete `{MapOrder} (shard : NumberMod.t) k1 k2 v1 v2 :
  0 < TableSliceLen (NumberMod.topology shard) ->
  Permutation (TableSlice (NumberMod.topology shard))
    (upto 0 (TableSliceLen (NumberMod.topology shard))) ->
  EqualFold (NumberMod.shardingKey shard) (Key k1) = true ->
  KOp k1 = GT \/ KOp k1 = GE -> KOp k2 = LT \/ KOp k2 = LE ->
  parseValue (Value k1) = Ok v1 -> parseValue (Value k2) = Ok v2 ->
  (KOp k2 = LE -> v2 <> two63 - 1) ->
  exists c, NumberMod.ShardRange shard k1 k2 = Ok c /\
    forall x, 0 <= x -> in_i64 x -> cmp_holds (KOp k1) x v1 -> cmp_holds (KOp k2) x v2 ->
      selects (TableSlice (NumberMod.topology shard)) c
        (x mod TableSliceLen (NumberMod.topology shard)).
Proof.
  intros Hn Hc E Ho1 Ho2 Hv1 Hv2 Hmax.
  destruct (mod_range_sound shard Hn Hc k1 k2 v1 v2 E) as (c & Ec & _ & Hs); [|done..|].
  - intros Ho. rewrite Hv2. intros [= ?]. by apply Hmax.
  - exists c. split; [done|]. intros x H0 H64 C1 C2. by apply (Hs x).
Qed.

Lemma NumberMod_ShardRange_complete_witness :
  exists c, NumberMod.ShardRange mod5 (uid GE 7) (uid LT 9) = Ok c /\
    forall x, 0 <= x -> in_i64 x -> cmp_holds GE x 7 -> cmp_holds LT x 9 ->
      selects (TableSlice five_tables) c (x mod 5).
Proof.
  apply (NumberMod_ShardRange_complete mod5 (uid GE 7) (uid LT 9) 7 9).
  - vm_compute; reflexivity.
  - exact five_tables_covers.
  - vm_compute; reflexivity.
  - right; reflexivity.
  - left; reflexivity.
  - vm_compute; reflexivity.
  - vm_compute; reflexivity.
  - discriminate.
Defined.

(** [NumberMod.Shard] on [<>] drops the table of the excluded key's
    residue: on five tables, [uid <> 3] does not select the table of key 8,
    which satisfies it. *)
Theorem NumberMod_NE_misses_rows :
  exists l, NumberMod.Shard mod5 (uid NE 3) = Ok (CSlice l) /\
    cmp_holds NE 8 3 /\ 8 mod 5 = 3 /\ ~ In 3 l.
Proof.
  eexists. split; [vm_compute; reflexivity|]. split; [done|]. split; [done|].
  cbn. intuition congruence.
Qed.

(** [ShardRange] recognises only the order (bound, bound) or ([<>], bound);
    called as the evaluator calls it for [uid < 5 and uid <> 2], with the
    upper bound first, both algorithms select no table at all. *)
Theorem ShardRange_upper_bound_first_empty `{MapOrder} k1 k2 v1 v2 (m : NumberMod.t) (r : NumberRange.t) :
  EqualFold (NumberMod.shardingKey m) (Key k1) = true ->
  EqualFold (NumberRange.shardingKey r) (Key k1) = true ->
  KOp k1 = LT \/ KOp k1 = LE -> KOp k2 = NE ->
  parseValue (Value k1) = Ok v1 -> parseValue (Value k2) = Ok v2 ->
  NumberMod.ShardRange m k1 k2 = Ok (CSlice []) /\
  NumberRange.ShardRange r k1 k2 = Ok (CSlice []).
Proof.
  intros E1 E2 Ho1 Ho2 Hv1 Hv2. unfold NumberMod.ShardRange, NumberRange.ShardRange.
  rewrite E1, E2, Hv1, Hv2, Ho2. by destruct Ho1 as [-> | ->].
Qed.

Definition two_ranges : NumberRange.t :=
  NumberRange.mk "uid" true five_tables
    [(0, NumberRange.mkRange 0 100); (1, NumberRange.mkRange 100 200)].

Lemma ShardRange_upper_bound_first_empty_witness :
  NumberMod.ShardRange mod5 (uid LT 5) (uid NE 2) = Ok (CSlice []) /\
  NumberRange.ShardRange two_ranges (uid LT 5) (uid NE 2) = Ok (CSlice []).
Proof.
  apply (ShardRange_upper_bound_first_empty _ _ 5 2);
    [vm_compute; reflexivity | vm_compute; reflexivity | left; reflexivity | reflexivity
    | vm_compute; reflexivity | vm_compute; reflexivity].
Defined.

(** Whatever order the map of ranges is visited in, [NumberRange.Shard]
    selects for each of the six comparisons the table of every range that
    holds a key satisfying it, provided every configured number is a table;
    for [=] it selects exactly those. *)
Theorem NumberRange_Shard_complete `{MapOrder} (shard : NumberRange.t) k v :
  (forall i r, In (i, r) (NumberRange.ranges shard) ->
     0 <= i /\ In i (TableSlice (NumberRange.topology shard))) ->
  EqualFold (NumberRange.shardingKey shard) (Key k) = true -> range_dom k ->
  parseValue (Value k) = Ok v ->
  exists c, NumberRange.Shard shard k = Ok c /\
    (forall x idx, range_placed shard x idx -> cmp_holds (KOp k) x v ->
       selects (TableSlice (NumberRange.topology shard)) c idx) /\
    (KOp k = EQ -> forall idx, selects (TableSlice (NumberRange.topology shard)) c idx <->
       range_placed shard v idx).
Proof.
  intros Ht E Hd Hv. destruct (range_shard_sound shard Ht k v E Hd Hv) as (c & Ec & _ & Hs).
  exists c. split; [done|]. split; [done|]. intros Ho idx.
  split; [|intros Hp; apply (Hs v); [done | by rewrite Ho]].
  unfold NumberRange.Shard in Ec. rewrite E, Hv, Ho in Ec. cbn in Ec. injection Ec as <-.
  cbn. intros (r & Hin & Hr)%collect_In. zbool. by exists r.
Qed.

Lemma NumberRange_Shard_complete_witness :
  exists c, NumberRange.Shard two_ranges (uid EQ 150) = Ok c /\
    (forall x idx, range_placed two_ranges x idx -> cmp_holds EQ x 150 ->
       selects (TableSlice five_tables) c idx) /\
    (EQ = EQ -> forall idx, selects (TableSlice five_tables) c idx <->
       range_placed two_ranges 150 idx).
Proof.
  apply (NumberRange_Shard_complete two_ranges (uid EQ 150) 150).
  - intros i r [[= <- <-]|[[= <- <-]|[]]]; vm_compute; intuition congruence.
  - vm_compute; reflexivity.
  - left; reflexivity.
  - vm_compute; reflexivity.
Defined.

(** For ranges ordered like their tables and bounds that fall in a
    configured range, [NumberRange.ShardRange] selects the table of every key
    between the bounds, whatever order the two lookups visit the map in; an
    inclusive upper bound must not be the end of a range. *)
Theorem NumberRange_ShardRange_complete `{MapOrder} (shard : NumberRange.t) k1 k2 v1 v2 :
  (forall i r, In (i, r) (NumberRange.ranges shard) ->
     0 <= i /\ In i (TableSlice (NumberRange.topology shard))) ->
  (forall i r j s, In (i, r) (NumberRange.ranges shard) -> In (j, s) (NumberRange.ranges shard) ->
     i < j -> NumberRange.To r <= NumberRange.From s) ->
  EqualFold (NumberRange.shardingKey shard) (Key k1) = true ->
  range_dom_range shard k1 k2 ->
  KOp k1 = GT \/ KOp k1 = GE -> KOp k2 = LT \/ KOp k2 = LE ->
  parseValue (Value k1) = Ok v1 -> parseValue (Value k2) = Ok v2 ->
  exists c, NumberRange.ShardRange shard k1 k2 = Ok c /\
    forall x idx, range_placed shard x idx ->
      cmp_holds (KOp k1) x v1 -> cmp_holds (KOp k2) x v2 ->
      selects (TableSlice (NumberRange.topology shard)) c idx.
Proof.
  intros Ht Ho E Hd Ho1 Ho2 Hv1 Hv2.
  destruct (range_range_sound shard Ht Ho k1 k2 v1 v2 E Hd Ho1 Ho2 Hv1 Hv2) as (c & Ec & _ & Hs).
  by exists c.
Qed.

Lemma NumberRange_ShardRange_complete_witness :
  exists c, NumberRange.ShardRange two_ranges (uid GT 50) (uid LT 150) = Ok c /\
    forall x idx, range_placed two_ranges x idx ->
      cmp_holds GT x 50 -> cmp_holds LT x 150 -> selects (TableSlice five_tables) c idx.
Proof.
  apply (NumberRange_ShardRange_complete two_ranges (uid GT 50) (uid LT 150) 50 150).
  - intros i r [[= <- <-]|[[= <- <-]|[]]]; vm_compute; intuition congruence.
  - intros i r j s [[= <- <-]|[[= <- <-]|[]]] [[= <- <-]|[[= <- <-]|[]]]; cbn; lia.
  - vm_compute; reflexivity.
  - intros v1 v2 E1 E2. vm_compute in E1, E2. injection E1 as <-. injection E2 as <-.
    split; [|split; [|discriminate]].
    + exists (0, NumberRange.mkRange 0 100). split; [left; reflexivity | cbn; lia].
    + exists (1, NumberRange.mkRange 100 200). split; [right; left; reflexivity | cbn; lia].
  - left; reflexivity.
  - left; reflexivity.
  - vm_compute; reflexivity.
  - vm_compute; reflexivity.
Defined.

(** An upper bound beyond the last range makes [NumberRange.ShardRange]
    answer "no table": with ranges [0-100] and [100-200], [uid > 150 and
    uid < 500] is constantly false although key 160 is stored in table 1. *)
Theorem NumberRange_open_end_false :
  NumberRange.ShardRange two_ranges (uid GT 150) (uid LT 500) = Ok CFalse /\
  range_placed two_ranges 160 1 /\ cmp_holds GT 160 150 /\ cmp_holds LT 160 500.
Proof.
  split; [vm_compute; reflexivity|]. split; [|done].
  exists (NumberRange.mkRange 100 200). split; [right; left; reflexivity | cbn; lia].
Qed.

(** The order that visits a map backwards. *)
#[local] Definition reverse_order : MapOrder :=
  {| visit := fun _ A l => rev l; visit_perm := fun _ A l => Permutation_sym (Permutation_rev l) |}.

(** With an inclusive upper bound at the end of a range the answer depends
    on the map iteration order: [uid > 50 and uid <= 100] selects tables 0 and
    1 in one order and table 0 only in the other, missing key 100 of table 1. *)
Theorem NumberRange_boundary_order_dependent :
  NumberRange.ShardRange (H := insertion_order) two_ranges (uid GT 50) (uid LE 100) = Ok (CSlice [0]) /\
  NumberRange.ShardRange (H := reverse_order) two_ranges (uid GT 50) (uid LE 100) = Ok (CSlice [0; 1]) /\
  range_placed two_ranges 100 1.
Proof.
  split; [vm_compute; reflexivity|]. split; [vm_compute; reflexivity|].
  exists (NumberRange.mkRange 100 200). split; [right; left; reflexivity | cbn; lia].
Qed.

(** An accepted number range is not empty. *)
Theorem parseNumberRange_nonempty s r :
  NumberRange.parseNumberRange s = Ok r ->
  NumberRange.From r < NumberRange.To r /\ in_i64 (NumberRange.From r) /\ in_i64 (NumberRange.To r).
Proof.
  assert (Hn : forall p z, NumberRange.parseNumber p = Ok z -> in_i64 z).
  { intros p z. unfold NumberRange.parseNumber.
    destruct (_ || _); [|destruct (_ || _); [|apply ParseInt_err_range]];
      intros (? & _ & [= <-])%bind_Ok; apply i64_range. }
  unfold NumberRange.parseNumberRange. destruct (NumberRange.rangeMatch s) as [[a b]|]; [|done].
  intros (x & Hx & (y & Hy & E)%bind_Ok)%bind_Ok. destruct (Z.leb_spec y x); [done|].
  injection E as <-. cbn. eauto.
Qed.

Lemma parseNumberRange_nonempty_witness :
  exists r, NumberRange.parseNumberRange "100k-2M" = Err "incorrect number range format" /\
    NumberRange.parseNumberRange "1K-2M" = Ok r /\ NumberRange.From r < NumberRange.To r.
Proof.
  eexists. split; [vm_compute; reflexivity|]. split; [vm_compute; reflexivity|].
  apply (parseNumberRange_nonempty "1K-2M"). vm_compute. reflexivity.
Defined.
