(* ===== verification/Shard.v ===== *)
(** * Sharding a condition: [pkg/cond/shard.go]

    [KeyCondition.Shard], [ComplexCondition.Shard], the pairwise [And] and
    [Or] of comparisons and [TableIndexSliceCondition.ParseTopology].  The
    algorithm is a parameter; soundness is proved against the interface
    [SoundAlgorithm].  [sort.Sort] is an arbitrary sorting function: the sort
    of the library is not stable, and the theorems hold for every order of
    comparisons that print alike.

    [ComplexCondition.Shard] recurses through the store and takes fuel; the
    depth of a parsed condition is at most two. *)
From Stdlib Require Import ZArith Lia List Ascii String Permutation Sorted.
From stdpp Require Import base gmap strings list.
From S2P Require Import Prelude GoText Values Topology Condition Sharding.

Local Open Scope Z_scope.

(** ** [ConditionSlice.Less] and the sort *)
Definition render (k : KeyCondition) : string :=
  (Key k +:+ Op_String (KOp k) +:+ Sprint (Value k))%string.

Definition Less (k1 k2 : KeyCondition) : bool := str_less (render k1) (render k2).

Class KeySort := {
  sort_keys : list KeyCondition -> list KeyCondition;
  sort_perm : forall l, Permutation (sort_keys l) l;
  sort_sorted : forall l, Sorted (fun a b => Less b a = false) (sort_keys l) }.

(** The insertion sort [sort.Sort] uses on short slices. *)
Fixpoint insert_key (k : KeyCondition) (l : list KeyCondition) : list KeyCondition :=
  match l with
  | [] => [k]
  | x :: l' => if Less k x then k :: l else x :: insert_key k l'
  end.

Definition insertionSort (l : list KeyCondition) : list KeyCondition :=
  fold_left (fun acc k => insert_key k acc) l [].

(** ** Sharding single comparisons and pairs *)
Section shard.
Context (alg : ShardingAlgorithm).

(** The conversion at the end of [KeyCondition.Shard]: a type assertion on
    anything but a slice, true or false panics. *)
Definition toSlice (c : Condition) : res (list Z) :=
  match c with
  | CSlice l => Ok l
  | CTrue => Ok (AllShards alg)
  | CFalse => Ok []
  | _ => Panic
  end.

Definition KeyCondition_Shard (cond : KeyCondition) : res (list Z) :=
  c ← alg_Shard alg cond;
  toSlice c.

(** [return k.Shard(alg)] in a function returning [(Condition, error)]. *)
Definition shardKey (k : KeyCondition) : res Condition :=
  l ← KeyCondition_Shard k; Ok (CSlice l).

(** [And]: two comparisons of the same column, one definition per operator
    of the first; [cmp] is [misc.Compare(k2.Value, k1.Value)], which every
    branch that orders the literals computes afresh. *)
Definition And_EQ (k1 k2 : KeyCondition) : res Condition :=
  let cmp := Compare (Value k2) (Value k1) in
  match KOp k2 with
  | EQ => if iface_eq (Value k1) (Value k2) then shardKey k1 else Ok CFalse
  | NE => if iface_eq (Value k1) (Value k2) then Ok CFalse else shardKey k1
  | LT => if (cmp =? -1) || (cmp =? 0) then Ok CFalse else shardKey k1
  | LE => if cmp =? -1 then Ok CFalse else shardKey k1
  | GT => if (cmp =? 1) || (cmp =? 0) then Ok CFalse else shardKey k1
  | GE => if cmp =? 1 then Ok CFalse else shardKey k1
  | _ => Ok CNil
  end.

Definition And_NE (k1 k2 : KeyCondition) : res Condition :=
  match KOp k2 with
  | EQ => if iface_eq (Value k1) (Value k2) then Ok CFalse else shardKey k2
  | _ => Ok CNil
  end.

Definition And_LT (k1 k2 : KeyCondition) : res Condition :=
  let cmp := Compare (Value k2) (Value k1) in
  match KOp k2 with
  | NE => if (cmp =? 1) || (cmp =? 0) then shardKey k1 else alg_ShardRange alg k1 k2
  | EQ => if (cmp =? 1) || (cmp =? 0) then Ok CFalse else shardKey k2
  | GT => if (cmp =? 1) || (cmp =? 0) then Ok CFalse else alg_ShardRange alg k2 k1
  | GE => if (cmp =? 1) || (cmp =? 0) then Ok CFalse else alg_ShardRange alg k2 k1
  | LT => if cmp =? -1 then shardKey k2 else shardKey k1
  | LE => if (cmp =? 1) || (cmp =? 0) then shardKey k1 else shardKey k2
  | _ => Ok CNil
  end.

Definition And_LE (k1 k2 : KeyCondition) : res Condition :=
  let cmp := Compare (Value k2) (Value k1) in
  match KOp k2 with
  | EQ => if cmp =? 1 then Ok CFalse else shardKey k2
  | NE =>
    if cmp =? 1 then shardKey k1
    else if cmp =? 0 then shardKey (mkKey (Key k1) LT (Value k1))
    else alg_ShardRange alg k1 k2
  | LT => if cmp =? 1 then shardKey k1 else shardKey k2
  | LE => if cmp =? -1 then shardKey k2 else shardKey k1
  | GT => if (cmp =? 1) || (cmp =? 0) then Ok CFalse else alg_ShardRange alg k2 k1
  | GE =>
    if cmp =? 1 then Ok CFalse
    else if cmp =? 0 then shardKey (mkKey (Key k1) EQ (Value k1))
    else alg_ShardRange alg k2 k1
  | _ => Ok CNil
  end.

Definition And_GT (k1 k2 : KeyCondition) : res Condition :=
  let cmp := Compare (Value k2) (Value k1) in
  match KOp k2 with
  | EQ => if cmp =? 1 then shardKey k2 else Ok CFalse
  | NE => Ok CTrue
  | GT => if cmp =? 1 then shardKey k2 else shardKey k1
  | GE => if cmp =? 1 then shardKey k2 else shardKey k1
  | LT => if (cmp =? -1) || (cmp =? 0) then Ok CFalse else alg_ShardRange alg k1 k2
  | LE => if (cmp =? -1) || (cmp =? 0) then Ok CFalse else alg_ShardRange alg k1 k2
  | _ => Ok CNil
  end.

Definition And_GE (k1 k2 : KeyCondition) : res Condition :=
  let cmp := Compare (Value k2) (Value k1) in
  match KOp k2 with
  | EQ => if (cmp =? 1) || (cmp =? 0) then shardKey k2 else Ok CFalse
  | NE => Ok CTrue
  | GT => if (cmp =? 1) || (cmp =? 0) then shardKey k2 else shardKey k1
  | GE => if cmp =? 1 then shardKey k2 else shardKey k1
  | LT => if (cmp =? -1) || (cmp =? 0) then Ok CFalse else alg_ShardRange alg k1 k2
  | LE =>
    if cmp =? -1 then Ok CFalse
    else if cmp =? 0 then Ok CNil
    else alg_ShardRange alg k1 k2
  | _ => Ok CNil
  end.

Definition Shard_And (k1 k2 : KeyCondition) : res Condition :=
  match KOp k1 with
  | EQ => And_EQ k1 k2
  | NE => And_NE k1 k2
  | LT => And_LT k1 k2
  | LE => And_LE k1 k2
  | GT => And_GT k1 k2
  | GE => And_GE k1 k2
  | _ => Ok CNil
  end.

(** [Or]: the second disjunct calls [Or] on a nil [*KeyCondition], whose type
    switch has no case for a table index slice. *)
Definition Shard_Or (condition1 condition2 : Condition) : res Condition :=
  match condition1, condition2 with
  | CKey k1, CKey k2 =>
    cond1 ← KeyCondition_Shard k1;
    cond2 ← KeyCondition_Shard k2;
    Ok (TableIndexSlice_Or cond1 (CSlice cond2))
  | CKey k1, _ =>
    cond1 ← KeyCondition_Shard k1;
    Ok (TableIndexSlice_Or cond1 condition2)
  | _, CKey k2 =>
    cond2 ← KeyCondition_Shard k2;
    Ok CNil
  | _, _ => Ok CNil
  end.

(** ** [ComplexCondition.Shard] *)

(** The pairing loop over the sorted comparisons of a conjunction; entered
    with at least two of them. *)
Fixpoint andLoop (keyGroup : list KeyCondition) : res (list Condition) :=
  match keyGroup with
  | [] => Ok []
  | c1 :: rest =>
    match rest with
    | [] => l ← KeyCondition_Shard c1; Ok [CSlice l]
    | c2 :: rest' =>
      if String.eqb (Key c1) (Key c2) then
        rlt ← Shard_And c1 c2;
        out ← andLoop rest';
        Ok (rlt :: out)
      else
        rlt ← KeyCondition_Shard c1;
        out ← andLoop rest;
        Ok (CSlice rlt :: out)
    end
  end.

Fixpoint orLoop (c : Condition) (keyGroup : list KeyCondition) : res Condition :=
  match keyGroup with
  | [] => Ok c
  | k :: rest => c' ← Shard_Or c (CKey k); orLoop c' rest
  end.

Definition isTrue (c : Condition) : bool := match c with CTrue => true | _ => false end.
Definition isFalse (c : Condition) : bool := match c with CFalse => true | _ => false end.

Fixpoint keysOf (cs : list Condition) : list KeyCondition :=
  match cs with
  | [] => []
  | CKey k :: cs' => k :: keysOf cs'
  | _ :: cs' => keysOf cs'
  end.

Context `{KeySort}.

(** The results of the comparison group, in the order they are appended. *)
Definition shardKeys (op : Op) (keyGroup : list KeyCondition) : res (list Condition) :=
  match sort_keys keyGroup with
  | [] => Ok []
  | [k] => l ← KeyCondition_Shard k; Ok [CSlice l]
  | (k0 :: rest) as sorted =>
    match op with
    | And => andLoop sorted
    | Or => c ← orLoop (CKey k0) rest; Ok [c]
    | _ => Ok []
    end
  end.

(** [c = c.And(result[i])] or [c = c.Or(result[i])] over the rest. *)
Definition combine (op : Op) (h : heap) (c : Condition) (rest : list Condition) : res Condition :=
  match op with
  | And => '(_, c') ← foldConds (Cond_And 3) h c rest; Ok c'
  | Or => '(_, c') ← foldConds (Cond_Or 3) h c rest; Ok c'
  | _ => Ok c
  end.

Fixpoint ComplexCondition_Shard (fuel : nat) (h : heap) (l : loc) : res (list Z) :=
  match fuel with
  | O => Err out_of_fuel
  | S f =>
    cond ← load h l;
    nested ← mapM_res (fun cd =>
      match cd with
      | CPtr l' => r ← ComplexCondition_Shard f h l'; Ok [CSlice r]
      | _ => Ok []
      end) (Conditions cond);
    if bool_decide (COp cond = And) && existsb isFalse (Conditions cond) then Ok []
    else if bool_decide (COp cond = Or) && existsb isTrue (Conditions cond) then Ok (AllShards alg)
    else
      ks ← shardKeys (COp cond) (keysOf (Conditions cond));
      match concat nested ++ ks with
      | [] => Panic
      | c :: rest => c' ← combine (COp cond) h c rest; toSlice c'
      end
  end.

(** [condition.(ConditionShard).Shard(alg)] on a parsed condition. *)
Definition Cond_Shard (fuel : nat) (h : heap) (c : Condition) : res (list Z) :=
  match c with
  | CKey k => KeyCondition_Shard k
  | CPtr l => ComplexCondition_Shard fuel h l
  | CTrue => Ok (AllShards alg)
  | CFalse => Ok []
  | _ => Panic
  end.

End shard.

(** [TableIndexSliceCondition.ParseTopology]: whether all tables are scanned,
    and the tables to query in each database. *)
Fixpoint groupTables (topology : Topology) (idxs : list Z) (result : gmap string (list string))
  : gmap string (list string) :=
  match idxs with
  | [] => result
  | index :: rest =>
    let table := default ""%string (TableIndexMap topology !! index) in
    let db := default ""%string (Tables topology !! table) in
    groupTables topology rest (<[db := default [] (result !! db) ++ [table]]> result)
  end.

Definition Slice_ParseTopology (cond : list Z) (topology : Topology)
  : bool * gmap string (list string) :=
  (Z.of_nat (length cond) =? TableSliceLen topology, groupTables topology cond ∅).

(** ** The insertion sort is a [KeySort] *)
Lemma str_less_asym a b : str_less a b = true -> str_less b a = false.
Proof.
  unfold str_less. rewrite String.compare_antisym. by destruct (String.compare b a).
Qed.

Lemma insert_key_perm k l : Permutation (insert_key k l) (k :: l).
Proof.
  induction l as [|x l IH]; cbn; [done|]. destruct (Less k x); [done|].
  rewrite IH. apply Permutation_swap.
Qed.

Lemma insert_key_sorted k l :
  Sorted (fun a b => Less b a = false) l -> Sorted (fun a b => Less b a = false) (insert_key k l).
Proof.
  induction l as [|x l IH]; cbn; intros Hs; [by repeat constructor|].
  destruct (Less k x) eqn:E.
  - constructor; [done|]. constructor. by apply str_less_asym.
  - inversion Hs as [|? ? Hs' Hd]; subst. constructor; [by apply IH|].
    destruct l as [|y l]; cbn; [by constructor|].
    destruct (Less k y); [by constructor|]. inversion Hd; subst. by constructor.
Qed.

Lemma insertionSort_spec l acc :
  Sorted (fun a b => Less b a = false) acc ->
  Permutation (fold_left (fun acc k => insert_key k acc) l acc) (l ++ acc) /\
  Sorted (fun a b => Less b a = false) (fold_left (fun acc k => insert_key k acc) l acc).
Proof.
  revert acc; induction l as [|k l IH]; intros acc Hs; cbn; [done|].
  destruct (IH (insert_key k acc)) as [Hp Hs']; [by apply insert_key_sorted|].
  split; [|done]. rewrite Hp, insert_key_perm. symmetry. apply Permutation_middle.
Qed.

#[export] Instance insertion_KeySort : KeySort | 100.
Proof.
  refine {| sort_keys := insertionSort |}; intros l;
    destruct (insertionSort_spec l [] (Sorted_nil _)) as [Hp Hs].
  - by rewrite app_nil_r in Hp.
  - done.
Defined.

(** ** Rows *)

(** A row assigns an integer to every column; a comparison with an [int64]
    literal is evaluated on it. *)
Definition row := string -> Z.

Definition cmpb (op : Op) (x v : Z) : bool :=
  match op with
  | EQ => x =? v | NE => negb (x =? v) | LT => x <? v | LE => x <=? v
  | GT => v <? x | GE => v <=? x
  | _ => false
  end.

Definition rowb (r : row) (k : KeyCondition) : bool :=
  match Value k with
  | VInt64 v => cmpb (KOp k) (r (Key k)) v
  | _ => false
  end.

Lemma cmpb_holds op x v : cmpb op x v = true -> cmp_holds op x v.
Proof. destruct op; cbn; intros; zbool; done || lia. Qed.

Definition int_key (k : KeyCondition) (v : Z) : Prop := Value k = VInt64 v /\ in_i64 v.

(** Pairs of comparisons [And] has a correct case for. *)
Definition and_ok (op1 op2 : Op) (v1 v2 : Z) : bool :=
  match op1, op2 with
  | EQ, (EQ | NE | LT | LE | GT | GE) => true
  | NE, EQ => true
  | (LT | LE), (EQ | LT | LE | GT | GE) => true
  | (LT | LE), NE => v1 <=? v2
  | GT, (EQ | NE | LT | LE | GT | GE) => true
  | GE, (EQ | NE | LT | GT | GE) => true
  | GE, LE => negb (v1 =? v2)
  | _, _ => false
  end.

Section soundness.
Context (alg : ShardingAlgorithm) `{SoundAlgorithm alg}.

(** The algorithm handles the five comparisons other than [<>]. *)
Context (dom_basic : forall k,
  KOp k = EQ \/ KOp k = LT \/ KOp k = LE \/ KOp k = GT \/ KOp k = GE -> dom k).

(** A row whose spellings of the sharding column hold one value, stored in
    table [idx]. *)
Definition stored (r : row) (idx : Z) : Prop :=
  (forall key, EqualFold sharding_key key = true -> r key = r sharding_key) /\
  placed (r sharding_key) idx.

Definition single_ok (k : KeyCondition) : Prop :=
  (exists v, int_key k v) /\ (EqualFold sharding_key (Key k) = true -> dom k).

Definition pair_ok (k1 k2 : KeyCondition) : Prop :=
  exists v1 v2, int_key k1 v1 /\ int_key k2 v2 /\ and_ok (KOp k1) (KOp k2) v1 v2 = true /\
    (EqualFold sharding_key (Key k1) = true -> dom_range k1 k2 /\ dom_range k2 k1).

Lemma stored_all r idx : stored r idx -> In idx (AllShards alg).
Proof. intros [_ Hp]. by eapply placed_all. Qed.

Lemma parseValue_int k v : int_key k v -> parseValue (Value k) = Ok v.
Proof.
  intros [-> Hv]. unfold parseValue. cbn [Sprint]. by apply ParseInt_err_FormatInt.
Qed.

Lemma rowb_holds r k v :
  int_key k v -> rowb r k = true -> cmp_holds (KOp k) (r (Key k)) v.
Proof. intros [E _]. unfold rowb. rewrite E. apply cmpb_holds. Qed.

Lemma simple_toSlice c : simple c -> exists l, toSlice alg c = Ok l.
Proof. destruct c; cbn; try done; intros _; by eexists. Qed.

Lemma selects_toSlice c l idx :
  toSlice alg c = Ok l -> selects (AllShards alg) c idx -> In idx l.
Proof. destruct c; cbn; try done; intros [= <-]; done. Qed.

Lemma KeyCondition_Shard_sound k :
  single_ok k ->
  exists l, KeyCondition_Shard alg k = Ok l /\
    forall r idx, stored r idx -> rowb r k = true -> In idx l.
Proof.
  intros [[v Hv] Hd]. unfold KeyCondition_Shard.
  destruct (EqualFold sharding_key (Key k)) eqn:E.
  - destruct (shard_sound k v E (Hd eq_refl) (parseValue_int k v Hv)) as (c & -> & Hs & Hc).
    cbn [mbind res_bind]. destruct (simple_toSlice c Hs) as [l Hl]. exists l. split; [done|].
    intros r idx [Hr Hp] Hk. eapply selects_toSlice; [done|]. eapply Hc; [exact Hp|].
    rewrite <- (Hr (Key k) E). by apply rowb_holds.
  - rewrite (other_key k E). cbn. eexists; split; [done|].
    intros r idx Hst _. by apply (stored_all r).
Qed.

(** A result that is a slice or a constant and selects the table of every
    stored row satisfying [P]. *)
Definition good (P : row -> Prop) (c : res Condition) : Prop :=
  exists c', c = Ok c' /\ simple c' /\
    forall r idx, stored r idx -> P r -> selects (AllShards alg) c' idx.

Lemma good_True P : good P (Ok CTrue).
Proof. exists CTrue. split; [done|]. split; [done|]. intros r idx Hst _. by apply (stored_all r). Qed.

Lemma good_False (P : row -> Prop) : (forall r, ~ P r) -> good P (Ok CFalse).
Proof. intros HP. exists CFalse. split; [done|]. split; [done|]. intros r idx _ Hr. by apply (HP r). Qed.

Lemma good_shardKey (P : row -> Prop) k :
  single_ok k -> (forall r, P r -> rowb r k = true) -> good P (shardKey alg k).
Proof.
  intros Hk HP. destruct (KeyCondition_Shard_sound k Hk) as (l & E & Hl).
  unfold shardKey. rewrite E. exists (CSlice l). split; [done|]. split; [done|].
  intros r idx Hst Hr. cbn. eauto.
Qed.

Lemma good_range (P : row -> Prop) k1 k2 v1 v2 :
  Key k1 = Key k2 -> int_key k1 v1 -> int_key k2 v2 ->
  KOp k1 = GT \/ KOp k1 = GE -> KOp k2 = LT \/ KOp k2 = LE ->
  (EqualFold sharding_key (Key k1) = true -> dom_range k1 k2) ->
  (forall r, P r -> rowb r k1 = true /\ rowb r k2 = true) ->
  good P (alg_ShardRange alg k1 k2).
Proof.
  intros Hkey H1 H2 Ho1 Ho2 Hd HP. destruct (EqualFold sharding_key (Key k1)) eqn:E.
  - destruct (range_sound k1 k2 v1 v2 E (Hd eq_refl) Ho1 Ho2 (parseValue_int _ _ H1)
      (parseValue_int _ _ H2)) as (c & -> & Hs & Hc).
    exists c. split; [done|]. split; [done|]. intros r idx [Hr Hp] HPr.
    destruct (HP r HPr) as [R1 R2]. apply (rowb_holds r k1 v1 H1) in R1.
    apply (rowb_holds r k2 v2 H2) in R2. rewrite <- Hkey in R2. rewrite (Hr _ E) in R1, R2.
    by eapply Hc.
  - rewrite (other_key_range k1 k2 E). apply good_True.
Qed.

(** Two comparisons of one column. *)
Lemma Shard_And_sound k1 k2 :
  Key k1 = Key k2 -> pair_ok k1 k2 ->
  good (fun r => rowb r k1 = true /\ rowb r k2 = true) (Shard_And alg k1 k2).
Proof.
  intros Hkey (v1 & v2 & H1 & H2 & Hok & Hd).
  set (P r := rowb r k1 = true /\ rowb r k2 = true).
  assert (Hc : Compare (Value k2) (Value k1) = cmpZ v2 v1).
  { destruct H1 as [E1 R1], H2 as [E2 R2]. apply Compare_int.
    - rewrite E2. cbn. by rewrite bool_decide_true.
    - rewrite E1. cbn. by rewrite bool_decide_true. }
  assert (He : iface_eq (Value k1) (Value k2) = (v1 =? v2)).
  { destruct H1 as [E1 _], H2 as [E2 _]. rewrite E1, E2. cbn.
    destruct (Z.eqb_spec v1 v2) as [-> |]; [by rewrite bool_decide_true|].
    rewrite bool_decide_false; congruence. }
  assert (HP : forall r, P r -> cmp_holds (KOp k1) (r (Key k1)) v1 /\ cmp_holds (KOp k2) (r (Key k1)) v2).
  { intros r [R1 R2]. rewrite Hkey at 2. split; by apply rowb_holds. }
  assert (S1 : KOp k1 = EQ \/ KOp k1 = LT \/ KOp k1 = LE \/ KOp k1 = GT \/ KOp k1 = GE ->
    good P (shardKey alg k1)).
  { intros Ho. apply good_shardKey; [split; [by eexists | auto] | by intros r [? ?]]. }
  assert (S2 : KOp k2 = EQ \/ KOp k2 = LT \/ KOp k2 = LE \/ KOp k2 = GT \/ KOp k2 = GE ->
    good P (shardKey alg k2)).
  { intros Ho. apply good_shardKey; [split; [by eexists | auto] | by intros r [? ?]]. }
  assert (S3 : forall op, op = EQ \/ op = LT ->
    (forall r, P r -> cmpb op (r (Key k1)) v1 = true) ->
    good P (shardKey alg (mkKey (Key k1) op (Value k1)))).
  { intros op Hop Hr. destruct H1 as [E1 R1]. apply good_shardKey.
    - split; [by exists v1; split|]. intros _. apply dom_basic. cbn. tauto.
    - intros r HPr. unfold rowb. cbn. rewrite E1. by apply Hr. }
  assert (R12 : KOp k1 = GT \/ KOp k1 = GE -> KOp k2 = LT \/ KOp k2 = LE ->
    good P (alg_ShardRange alg k1 k2)).
  { intros Ho1 Ho2. eapply good_range; eauto. intros E. by apply Hd. }
  assert (R21 : KOp k2 = GT \/ KOp k2 = GE -> KOp k1 = LT \/ KOp k1 = LE ->
    good P (alg_ShardRange alg k2 k1)).
  { intros Ho1 Ho2. eapply good_range; eauto.
    - intros E. rewrite <- Hkey in E. by apply Hd.
    - by intros r [? ?]. }
  assert (HF : (forall x, ~ (cmp_holds (KOp k1) x v1 /\ cmp_holds (KOp k2) x v2)) -> good P (Ok CFalse)).
  { intros Hx. apply good_False. intros r HPr. by apply (Hx (r (Key k1))), HP. }
  unfold Shard_And, And_EQ, And_NE, And_LT, And_LE, And_GT, And_GE. rewrite Hc, He. unfold cmpZ.
  destruct (KOp k1) eqn:O1, (KOp k2) eqn:O2; cbn in Hok; try discriminate Hok;
    zbool; zcases; cbn [orb negb Z.eqb Pos.eqb]; try lia;
    first
      [ apply good_True
      | apply S1; tauto
      | apply S2; tauto
      | apply R12; tauto
      | apply R21; tauto
      | apply HF; intros x; cbn; lia
      | apply S3; [tauto|]; intros r HPr; destruct (HP r HPr) as [C1 C2]; cbn in *; zcases; done || lia ].
Qed.

(** *** Comparison groups *)
Fixpoint pairs_ok (l : list KeyCondition) : Prop :=
  match l with
  | [] => True
  | c1 :: rest =>
    match rest with
    | [] => single_ok c1
    | c2 :: rest' =>
      if String.eqb (Key c1) (Key c2) then pair_ok c1 c2 /\ pairs_ok rest'
      else single_ok c1 /\ pairs_ok rest
    end
  end.

(** Every result of the group covers the rows satisfying all comparisons. *)
Lemma andLoop_sound l :
  pairs_ok l ->
  exists out, andLoop alg l = Ok out /\ (l <> [] -> out <> []) /\ Forall simple out /\
    forall r idx, stored r idx -> forallb (rowb r) l = true ->
      Forall (fun c => selects (AllShards alg) c idx) out.
Proof.
  induction l as [l IH] using (induction_ltof1 _ (@length _)); unfold ltof in IH.
  destruct l as [|c1 [|c2 rest]]; cbn [pairs_ok andLoop].
  - intros _. exists []. split_and!; [done | done | constructor | by constructor].
  - intros Hs. destruct (KeyCondition_Shard_sound c1 Hs) as (ls & -> & Hl). cbn [mbind res_bind].
    exists [CSlice ls]. split_and!; [done | done | by repeat constructor|].
    intros r idx Hst [Hr _]%andb_prop. constructor; [|constructor]. cbn. eauto.
  - destruct (String.eqb_spec (Key c1) (Key c2)) as [Ek|Ek].
    + intros [Hp Hrest]. destruct (Shard_And_sound c1 c2 Ek Hp) as (c & -> & Hs & Hc).
      destruct (IH rest) as (out & -> & _ & Hso & Ho); [cbn; lia | done|]. cbn [mbind res_bind].
      exists (c :: out). split_and!; [done | done | by constructor|].
      intros r idx Hst Hr. cbn [forallb] in Hr.
      apply andb_prop in Hr as [R1 [R2 R3]%andb_prop]. constructor; [by apply (Hc r) | by apply (Ho r)].
    + intros [Hs1 Hrest]. destruct (KeyCondition_Shard_sound c1 Hs1) as (ls & E1 & Hl).
      destruct (IH (c2 :: rest)) as (out & E2 & _ & Hso & Ho); [cbn; lia | done|].
      rewrite E1. cbn [mbind res_bind]. cbn [andLoop] in E2. rewrite E2.
      exists (CSlice ls :: out). split_and!; [done | done | by constructor|].
      intros r idx Hst Hr. apply andb_prop in Hr as [R1 R2].
      constructor; [cbn; eauto | by apply (Ho r)].
Qed.

(** *** Combining the results *)
Lemma simple_And h c d :
  simple c -> simple d ->
  exists c', Cond_And 3 h c d = Ok (h, c') /\ simple c' /\
    forall idx, selects (AllShards alg) c idx -> selects (AllShards alg) d idx ->
      selects (AllShards alg) c' idx.
Proof.
  intros Hc Hd. destruct c as [| | | |a|]; try done; destruct d as [| | | |b|]; try done;
    cbn; eexists; (split; [done|]); (split; [done|]); intros idx; cbn; try done.
  unfold slice_And. rewrite <- !list_elem_of_In, list_elem_of_filter.
  intros Ha Hb. split; [|done]. unfold zmem. apply existsb_exists. exists idx.
  split; [by apply list_elem_of_In | apply Z.eqb_refl].
Qed.

Lemma simple_Or h c d :
  simple c -> simple d ->
  exists c', Cond_Or 3 h c d = Ok (h, c') /\ simple c' /\
    forall idx, In idx (AllShards alg) ->
      selects (AllShards alg) c idx \/ selects (AllShards alg) d idx ->
      selects (AllShards alg) c' idx.
Proof.
  intros Hc Hd. destruct c as [| | | |a|]; try done; destruct d as [| | | |b|]; try done;
    cbn; eexists; (split; [done|]); (split; [done|]); intros idx Hin; cbn; try tauto.
  unfold slice_Or. rewrite in_app_iff. intros [?|Hb]; [by left|].
  destruct (zmem idx a) eqn:Em.
  - left. unfold zmem in Em. apply existsb_exists in Em as (y & Hy & E%Z.eqb_eq). by subst.
  - right. apply list_elem_of_In, list_elem_of_filter. split; [done | by apply list_elem_of_In].
Qed.

Lemma fold_And_simple h c rest :
  simple c -> Forall simple rest ->
  exists c', foldConds (Cond_And 3) h c rest = Ok (h, c') /\ simple c' /\
    forall idx, Forall (fun c => selects (AllShards alg) c idx) (c :: rest) ->
      selects (AllShards alg) c' idx.
Proof.
  intros Hc Hr. revert c Hc; induction Hr as [|d rest Hd Hr IH]; intros c Hc.
  - exists c. split; [done|]. split; [done|]. by inversion 1.
  - destruct (simple_And h c d Hc Hd) as (c1 & E & Hs & Hsel).
    destruct (IH c1 Hs) as (c2 & E2 & Hs2 & Hsel2). exists c2. cbn [foldConds].
    rewrite E. split; [done|]. split; [done|]. intros idx Hf.
    inversion Hf as [|? ? F1 F2]; subst. inversion F2; subst. apply Hsel2.
    constructor; [by apply Hsel | done].
Qed.

Lemma fold_Or_simple h c rest :
  simple c -> Forall simple rest ->
  exists c', foldConds (Cond_Or 3) h c rest = Ok (h, c') /\ simple c' /\
    forall idx, In idx (AllShards alg) ->
      Exists (fun c => selects (AllShards alg) c idx) (c :: rest) ->
      selects (AllShards alg) c' idx.
Proof.
  intros Hc Hr. revert c Hc; induction Hr as [|d rest Hd Hr IH]; intros c Hc.
  - exists c. split; [done|]. split; [done|]. intros idx _ He.
    by inversion He as [? ? H1|? ? H1]; subst; [|inversion H1].
  - destruct (simple_Or h c d Hc Hd) as (c1 & E & Hs & Hsel).
    destruct (IH c1 Hs) as (c2 & E2 & Hs2 & Hsel2). exists c2. cbn [foldConds].
    rewrite E. split; [done|]. split; [done|]. intros idx Hin He. apply (Hsel2 idx Hin).
    inversion He as [? ? H1|? ? H1]; subst; [left; apply Hsel; auto|].
    inversion H1; subst; [left; apply Hsel; auto | by right].
Qed.

(** *** Conjunctions and disjunctions of conjunctions *)
Context `{KeySort}.

Lemma mapM_keys_nil f h ks :
  mapM_res (fun cd =>
      match cd with
      | CPtr l' => r ← ComplexCondition_Shard alg f h l'; Ok [CSlice r]
      | _ => Ok []
      end) (CKey <$> ks) = Ok (replicate (length ks) []).
Proof. induction ks as [|k ks IH]; cbn; [done|]. by rewrite IH. Qed.

Lemma concat_replicate_nil {A} n : concat (replicate n (@nil A)) = [].
Proof. induction n; cbn; auto. Qed.

Lemma keysOf_keys ks : keysOf (CKey <$> ks) = ks.
Proof. induction ks as [|k ks IH]; cbn; [done|]. by rewrite IH. Qed.

Lemma existsb_keys (p : Condition -> bool) ks :
  (forall k, p (CKey k) = false) -> existsb p (CKey <$> ks) = false.
Proof. intros Hp. induction ks as [|k ks IH]; cbn; [done|]. by rewrite Hp, IH. Qed.

Lemma shardKeys_And ks :
  ks <> [] -> pairs_ok (sort_keys ks) ->
  exists out, shardKeys alg And ks = Ok out /\ out <> [] /\ Forall simple out /\
    forall r idx, stored r idx -> forallb (rowb r) ks = true ->
      Forall (fun c => selects (AllShards alg) c idx) out.
Proof.
  intros Hne Hp. destruct (andLoop_sound (sort_keys ks) Hp) as (out & E & Ho & Hs & Hsel).
  pose proof (sort_perm ks) as Hperm.
  assert (Hne' : sort_keys ks <> []).
  { intros En. rewrite En in Hperm. by apply Permutation_nil in Hperm. }
  exists out. split.
  - unfold shardKeys. destruct (sort_keys ks) as [|k0 [|k1 rest]]; done.
  - split; [auto|]. split; [done|]. intros r idx Hst Hr. apply (Hsel r idx Hst).
    apply forallb_forall. intros k Hk. eapply forallb_forall in Hr; [done|].
    by eapply Permutation_in.
Qed.

Lemma conj_Shard_sound f h l ks :
  nodes h !! l = Some (mkComplex And (CKey <$> ks)) -> ks <> [] -> pairs_ok (sort_keys ks) ->
  exists out, ComplexCondition_Shard alg (S f) h l = Ok out /\
    forall r idx, stored r idx -> forallb (rowb r) ks = true -> In idx out.
Proof.
  intros Hl Hne Hp. cbn [ComplexCondition_Shard]. unfold load. rewrite Hl.
  cbn [Prelude.from_option mbind res_bind Conditions COp]. rewrite mapM_keys_nil.
  cbn [mbind res_bind]. rewrite !existsb_keys, !andb_false_r by done.
  rewrite keysOf_keys, concat_replicate_nil.
  destruct (shardKeys_And ks Hne Hp) as (out & -> & Ho & Hs & Hsel). cbn [mbind res_bind app].
  destruct out as [|c rest]; [done|]. inversion Hs as [|? ? Hc Hrest]; subst.
  destruct (fold_And_simple h c rest Hc Hrest) as (c' & Ec & Hs' & Hsel').
  unfold combine. rewrite Ec. cbn [mbind res_bind].
  destruct (simple_toSlice c' Hs') as [res Er]. exists res. split; [done|].
  intros r idx Hst Hr. eapply selects_toSlice; [done|]. by apply Hsel', (Hsel r).
Qed.

(** The keys of a disjunction, at most two of them, and its conjunctions. *)
Definition term_ok (ks : list KeyCondition) : Prop := ks <> [] /\ pairs_ok (sort_keys ks).

Lemma shardKeys_Or ks :
  (length ks <= 2)%nat -> Forall single_ok ks ->
  exists out, shardKeys alg Or ks = Ok out /\ (ks <> [] -> out <> []) /\ Forall simple out /\
    forall r idx, stored r idx -> existsb (rowb r) ks = true ->
      Exists (fun c => selects (AllShards alg) c idx) out.
Proof.
  intros Hlen Hok. unfold shardKeys. pose proof (sort_perm ks) as Hperm.
  pose proof (Permutation_length Hperm) as Hl.
  assert (Hok' : Forall single_ok (sort_keys ks)) by (by rewrite Hperm).
  assert (Hex : forall r, existsb (rowb r) ks = true -> existsb (rowb r) (sort_keys ks) = true).
  { intros r (k & Hk & Hr)%existsb_exists. apply existsb_exists. exists k. split; [|done].
    eapply Permutation_in; [symmetry; exact Hperm | done]. }
  destruct (sort_keys ks) as [|k0 [|k1 [|k2 rest]]]; cbn in Hl; [| | |lia].
  - exists []. destruct ks; [|done]. split_and!; [done | done | constructor | done].
  - inversion Hok' as [|? ? Hk0 _]; subst.
    destruct (KeyCondition_Shard_sound k0 Hk0) as (l0 & -> & Hl0). cbn [mbind res_bind].
    exists [CSlice l0]. split_and!; [done | done | by repeat constructor|].
    intros r idx Hst Hr%Hex. cbn in Hr. rewrite orb_false_r in Hr. left. cbn. eauto.
  - inversion Hok' as [|? ? Hk0 Hok'']; subst. inversion Hok'' as [|? ? Hk1 _]; subst.
    destruct (KeyCondition_Shard_sound k0 Hk0) as (l0 & E0 & Hl0).
    destruct (KeyCondition_Shard_sound k1 Hk1) as (l1 & E1 & Hl1).
    cbn [orLoop Shard_Or]. rewrite E0, E1. cbn [mbind res_bind TableIndexSlice_Or Shard_Or].
    exists [CSlice (slice_Or l0 l1)]. split_and!; [done | done | by repeat constructor|].
    intros r idx Hst Hr%Hex. left. cbn in Hr. rewrite orb_false_r in Hr.
    destruct (simple_Or (mkHeap ∅ 0) (CSlice l0) (CSlice l1) I I) as (c' & [= <-] & _ & Hsel).
    apply (Hsel idx (stored_all r idx Hst)). cbn.
    apply orb_prop in Hr as [Hr|Hr]; [left | right]; eauto.
Qed.

Lemma nested_Shard_sound f h cs d :
  Forall2 (term h) cs d ->
  Forall2 (fun c ks => forall l, c = CPtr l -> term_ok ks) cs d ->
  exists nested, mapM_res (fun cd =>
      match cd with
      | CPtr l' => r ← ComplexCondition_Shard alg (S f) h l'; Ok [CSlice r]
      | _ => Ok []
      end) cs = Ok nested /\
    Forall simple (concat nested) /\
    (concat nested = [] -> exists ks, cs = CKey <$> ks) /\
    forall r idx, stored r idx -> deval (rowb r) d = true ->
      existsb (rowb r) (keysOf cs) = true \/
      Exists (fun c => selects (AllShards alg) c idx) (concat nested).
Proof.
  intros Ht Hok. induction Ht as [|c ks cs d Hc Ht IH].
  - exists []. split_and!; [done | constructor | by exists [] | done].
  - inversion Hok as [|? ? ? ? Hk Hok']; subst. destruct (IH Hok') as (ns & E & Hs & Hn & Hsel).
    inversion Hc as [k|l ks' Hl]; subst; cbn [mapM_res].
    + rewrite E. exists ([] :: ns). split; [done|]. split; [done|]. split.
      * intros [ks' ->]%Hn. by exists (k :: ks').
      * intros r idx Hst Hr. rewrite deval_cons in Hr. cbn [keysOf existsb].
        apply orb_prop in Hr as [Hr|Hr].
        { cbn in Hr. rewrite andb_true_r in Hr. left. by rewrite Hr. }
        { destruct (Hsel r idx Hst Hr) as [->|?]; [left; apply orb_true_r | by right]. }
    + destruct (Hk l eq_refl) as [Hne Hp].
      destruct (conj_Shard_sound f h l ks Hl Hne Hp) as (out & Eo & Ho).
      rewrite Eo. cbn [mbind res_bind]. rewrite E. exists ([CSlice out] :: ns).
      split; [done|]. cbn [concat app]. split; [by constructor|]. split; [done|].
      intros r idx Hst Hr. rewrite deval_cons in Hr. cbn [keysOf].
      apply orb_prop in Hr as [Hr|Hr].
      { right. left. cbn. eauto. }
      { destruct (Hsel r idx Hst Hr) as [?|?]; [by left | right; by right]. }
Qed.

Lemma terms_no_constant h cs d (p : Condition -> bool) :
  Forall2 (term h) cs d -> (forall k, p (CKey k) = false) -> (forall l, p (CPtr l) = false) ->
  existsb p cs = false.
Proof.
  intros Ht Hk Hl. induction Ht as [|c ks cs d Hc _ IH]; cbn; [done|].
  rewrite IH, orb_false_r. by inversion Hc.
Qed.

Lemma disj_Shard_sound f h l cs d :
  nodes h !! l = Some (mkComplex Or cs) -> Forall2 (term h) cs d -> cs <> [] ->
  (length (keysOf cs) <= 2)%nat -> Forall single_ok (keysOf cs) ->
  Forall2 (fun c ks => forall l, c = CPtr l -> term_ok ks) cs d ->
  exists out, ComplexCondition_Shard alg (S (S f)) h l = Ok out /\
    forall r idx, stored r idx -> deval (rowb r) d = true -> In idx out.
Proof.
  intros Hl Ht Hne H2 Hs Hok. cbn [ComplexCondition_Shard]. unfold load. rewrite Hl.
  cbn [Prelude.from_option mbind res_bind Conditions COp].
  destruct (nested_Shard_sound f h cs d Ht Hok) as (nested & En & Hsn & Hnil & Hsel).
  cbn [ComplexCondition_Shard] in En. unfold load in En. rewrite En. cbn [mbind res_bind].
  rewrite (terms_no_constant h cs d isFalse Ht), (terms_no_constant h cs d isTrue Ht) by done.
  rewrite !andb_false_r.
  destruct (shardKeys_Or (keysOf cs) H2 Hs) as (out & -> & Ho & Hso & Hsel'). cbn [mbind res_bind].
  destruct (concat nested ++ out) as [|c rest] eqn:Eapp.
  { apply app_eq_nil in Eapp as [E1 E2]. destruct (Hnil E1) as [ks ->].
    rewrite keysOf_keys in Ho. destruct ks; [done|]. by destruct Ho. }
  assert (Hall : Forall simple (c :: rest)) by (rewrite <- Eapp; by apply Forall_app).
  inversion Hall as [|? ? Hc Hr]; subst.
  destruct (fold_Or_simple h c rest Hc Hr) as (c' & Ec & Hs' & Hor).
  unfold combine. rewrite Ec. cbn [mbind res_bind].
  destruct (simple_toSlice c' Hs') as [o Eo]. exists o. split; [done|].
  intros r idx Hst Hd. eapply selects_toSlice; [done|].
  apply (Hor idx (stored_all r idx Hst)). rewrite <- Eapp. apply Exists_app.
  destruct (Hsel r idx Hst Hd) as [Hk|Hn]; [right; by apply (Hsel' r) | by left].
Qed.

(** Conditions in disjunctive normal form the evaluator handles: every pair it
    forms has a correct case and a disjunction has at most two comparisons
    standing alone. *)
Inductive shardable (h : heap) : Condition -> list (list KeyCondition) -> Prop :=
| shardable_key k : single_ok k -> shardable h (CKey k) [[k]]
| shardable_conj l ks :
    nodes h !! l = Some (mkComplex And (CKey <$> ks)) -> term_ok ks -> shardable h (CPtr l) [ks]
| shardable_disj l cs d :
    nodes h !! l = Some (mkComplex Or cs) -> Forall2 (term h) cs d -> cs <> [] ->
    (length (keysOf cs) <= 2)%nat -> Forall single_ok (keysOf cs) ->
    Forall2 (fun c ks => forall l, c = CPtr l -> term_ok ks) cs d ->
    shardable h (CPtr l) d.

Lemma Cond_Shard_sound h c d :
  shardable h c d ->
  exists out, Cond_Shard alg 2 h c = Ok out /\
    forall r idx, stored r idx -> deval (rowb r) d = true -> In idx out.
Proof.
  intros [k Hk|l ks Hl [Hne Hp]|l cs d' Hl Ht Hne H2 Hs Hok].
  - destruct (KeyCondition_Shard_sound k Hk) as (out & E & Ho). exists out.
    split; [exact E|]. intros r idx Hst Hr. cbn in Hr.
    rewrite andb_true_r, orb_false_r in Hr. eauto.
  - destruct (conj_Shard_sound 1 h l ks Hl Hne Hp) as (out & E & Ho). exists out.
    split; [exact E|]. intros r idx Hst Hr. cbn in Hr. rewrite orb_false_r in Hr. eauto.
  - apply (disj_Shard_sound 0 h l cs d' Hl Ht Hne H2 Hs Hok).
Qed.
End soundness.

(** ** The rendering of comparisons of one column orders them by operator *)
Lemma str_less_append p a b : str_less (p +:+ a) (p +:+ b) = str_less a b.
Proof.
  induction p as [|c p IH]; [done|]. unfold str_less in *.
  change ((String c p +:+ a)) with (String c (p +:+ a)).
  change ((String c p +:+ b)) with (String c (p +:+ b)). cbn [String.compare].
  assert (Hc : Ascii.compare c c = Eq) by (unfold Ascii.compare; apply N.compare_refl).
  rewrite Hc. exact IH.
Qed.

(** ** Claims *)
Definition between_heap : heap :=
  mkHeap {[ 0%nat := mkComplex And [CKey (uid GE 7); CKey (uid LT 9)];
            1%nat := mkComplex Or [CKey (uid EQ 3); CPtr 0] ]} 2.


#[local] Instance mod5_sound : SoundAlgorithm (NumberMod.algorithm mod5) :=
  NumberMod_sound mod5 eq_refl five_tables_covers.


(** [And] of two comparisons of one column with [int64] literals, in any
    of the pairs it has a correct case for, yields a table slice or a constant
    that selects the table of every stored row satisfying both. *)
Theorem Shard_And_complete (alg : ShardingAlgorithm) {S : SoundAlgorithm alg} k1 k2 :
  (forall k, KOp k = EQ \/ KOp k = LT \/ KOp k = LE \/ KOp k = GT \/ KOp k = GE -> dom k) ->
  Key k1 = Key k2 -> pair_ok alg k1 k2 ->
  exists c, Shard_And alg k1 k2 = Ok c /\ simple c /\
    forall r idx, stored alg r idx -> rowb r k1 = true -> rowb r k2 = true ->
      selects (AllShards alg) c idx.
Proof.
  intros Hd Hk Hp. destruct (Shard_And_sound alg Hd k1 k2 Hk Hp) as (c & E & Hs & Hc).
  exists c. split; [done|]. split; [done|]. intros r idx Hst R1 R2. by apply (Hc r).
Qed.

Lemma Shard_And_complete_witness :
  exists c, Shard_And (NumberMod.algorithm mod5) (uid EQ 4) (uid LE 3) = Ok c /\ simple c /\
    forall r idx, stored (NumberMod.algorithm mod5) r idx -> rowb r (uid EQ 4) = true ->
      rowb r (uid LE 3) = true -> selects (TableSlice five_tables) c idx.
Proof.
  apply Shard_And_complete; [intros k Hk; exact Hk | reflexivity|].
  exists 4, 3. split; [split; [reflexivity | unfold_width; lia]|].
  split; [split; [reflexivity | unfold_width; lia]|].
  split; [reflexivity|]. intros _. split; intros _; vm_compute; discriminate.
Defined.

(** A disjunction of three or more comparisons always panics once the
    comparisons themselves shard: from the third one on, [Or] calls the method
    of a nil [*KeyCondition] and the nil result fails the final type
    assertion.  [uid in (1, 2, 3)] is such a disjunction. *)
Theorem Or_of_three_keys_panics (alg : ShardingAlgorithm) {K : KeySort} f h l ks :
  nodes h !! l = Some (mkComplex Or (CKey <$> ks)) -> (3 <= length ks)%nat ->
  Forall (fun k => is_ok (KeyCondition_Shard alg k) = true) ks ->
  ComplexCondition_Shard alg (S f) h l = Panic.
Proof.
  intros Hl H3 Hok. cbn [ComplexCondition_Shard]. unfold load. rewrite Hl.
  cbn [Prelude.from_option mbind res_bind Conditions COp]. rewrite mapM_keys_nil.
  cbn [mbind res_bind]. rewrite !existsb_keys, !andb_false_r by done.
  rewrite keysOf_keys, concat_replicate_nil. unfold shardKeys.
  pose proof (sort_perm ks) as Hp. pose proof (Permutation_length Hp) as Hlen.
  rewrite <- Hp in Hok. destruct (sort_keys ks) as [|k0 [|k1 [|k2 rest]]]; cbn in Hlen; try lia.
  inversion Hok as [|? ? H0 Hok0]; subst. inversion Hok0 as [|? ? H1 Hok1]; subst.
  inversion Hok1 as [|? ? H2 Hok2]; subst. cbn [orLoop Shard_Or].
  destruct (KeyCondition_Shard alg k0) as [l0| |]; try done. cbn [mbind res_bind].
  destruct (KeyCondition_Shard alg k1) as [l1| |]; try done. cbn [mbind res_bind TableIndexSlice_Or Shard_Or].
  destruct (KeyCondition_Shard alg k2) as [l2| |]; try done. cbn [mbind res_bind].
  assert (Hnil : forall ks, Forall (fun k => is_ok (KeyCondition_Shard alg k) = true) ks ->
    orLoop alg CNil ks = Ok CNil).
  { clear. intros ks Hks. induction Hks as [|k ks Hk Hks IH]; cbn; [done|].
    by destruct (KeyCondition_Shard alg k). }
  rewrite (Hnil rest Hok2). done.
Qed.

Definition in_list_heap : heap :=
  mkHeap {[ 0%nat := mkComplex Or (CKey <$> [uid EQ 1; uid EQ 2; uid EQ 3]) ]} 1.

Lemma Or_of_three_keys_panics_witness :
  ComplexCondition_Shard (NumberMod.algorithm mod5) 1 in_list_heap 0 = Panic.
Proof.
  apply (Or_of_three_keys_panics _ 0 in_list_heap 0 [uid EQ 1; uid EQ 2; uid EQ 3]).
  - vm_compute. reflexivity.
  - cbn. lia.
  - constructor; [vm_compute; reflexivity|]. constructor; [vm_compute; reflexivity|].
    constructor; [vm_compute; reflexivity | constructor].
Defined.

(** [col between v and v], which the parser renders as [col >= v and
    col <= v], has no result for equal bounds and panics, whatever the
    algorithm and the order of the two comparisons. *)
Theorem Between_equal_bounds_panics (alg : ShardingAlgorithm) {K : KeySort} f h l key v :
  in_i64 v ->
  nodes h !! l = Some (mkComplex And (CKey <$> [mkKey key GE (VInt64 v); mkKey key LE (VInt64 v)])) ->
  ComplexCondition_Shard alg (S f) h l = Panic.
Proof.
  intros Hv Hl. set (k1 := mkKey key GE (VInt64 v)) in *. set (k2 := mkKey key LE (VInt64 v)) in *.
  assert (Hsort : sort_keys [k1; k2] = [k1; k2]).
  { pose proof (sort_perm [k1; k2]) as Hp. pose proof (sort_sorted [k1; k2]) as Hs.
    apply Permutation_sym, Permutation_length_2_inv in Hp as [-> | E]; [done|].
    rewrite E in Hs. inversion Hs as [|? ? _ Hd]; subst. inversion Hd as [|? ? Hless]; subst.
    unfold Less, render in Hless. cbn [Key KOp Value] in Hless.
    rewrite str_less_append in Hless. discriminate. }
  cbn [ComplexCondition_Shard]. unfold load. rewrite Hl.
  cbn [Prelude.from_option mbind res_bind Conditions COp]. rewrite mapM_keys_nil.
  cbn [mbind res_bind]. rewrite !existsb_keys, !andb_false_r by done.
  rewrite keysOf_keys, concat_replicate_nil. unfold shardKeys. rewrite Hsort.
  cbn [andLoop]. cbn [Key k1 k2]. rewrite String.eqb_refl.
  assert (Hand : Shard_And alg k1 k2 = Ok CNil).
  { unfold Shard_And, And_GE. cbn [KOp Value k1 k2].
    rewrite (Compare_int _ _ v v) by (cbn; by rewrite bool_decide_true).
    unfold cmpZ. rewrite Z.ltb_irrefl. done. }
  rewrite Hand. done.
Qed.

Definition point_heap : heap :=
  mkHeap {[ 0%nat := mkComplex And (CKey <$> [uid GE 3; uid LE 3]) ]} 1.

Lemma Between_equal_bounds_panics_witness :
  ComplexCondition_Shard (NumberMod.algorithm mod5) 1 point_heap 0 = Panic.
Proof.
  apply (Between_equal_bounds_panics _ 0 point_heap 0 "uid" 3);
    [unfold_width; lia | vm_compute; reflexivity].
Defined.

Lemma groupTables_lookup topology idxs result db t :
  In t (default [] (groupTables topology idxs result !! db)) <->
  In t (default [] (result !! db)) \/
  exists i, In i idxs /\ default ""%string (TableIndexMap topology !! i) = t /\
    default ""%string (Tables topology !! t) = db.
Proof.
  revert result; induction idxs as [|i idxs IH]; intros result; cbn [groupTables].
  - split; [by left|]. intros [?|(? & [] & _)]. done.
  - rewrite IH. set (t' := default "" (TableIndexMap topology !! i)).
    set (db' := default "" (Tables topology !! t')).
    destruct (decide (db' = db)) as [<-|Hne].
    + rewrite lookup_insert_eq. cbn. rewrite in_app_iff. cbn [In].
      split.
      * intros [[?|[<-|[]]]|(j & ? & ? & ?)]; [by left | right; exists i; by split; [left|] | right; exists j; by split; [right|]].
      * intros [?|(j & [<-|?] & <- & ?)]; [by left; left | left; right; by left | right; exists j; done].
    + rewrite lookup_insert_ne by done. split.
      * intros [?|(j & ? & ? & ?)]; [by left | right; exists j; by split; [right|]].
      * intros [?|(j & [<-|?] & <- & E)]; [by left | by destruct Hne | right; by exists j].
Qed.

(** On a topology satisfying the lookup invariant, the routing of a slice
    of its table indexes sends each selected table to the database that lists
    it, and to no other. *)
Theorem Slice_ParseTopology_routes t idxs :
  topology_ok t -> Forall (fun i => In i (TableSlice t)) idxs ->
  let '(_, m) := Slice_ParseTopology idxs t in
  forall db tbl, In tbl (default [] (m !! db)) <->
    exists i, In i idxs /\ tbl = indexed (TableName t) i /\ Tables t !! tbl = Some db.
Proof.
  intros [_ Hok] Hin. cbn. intros db tbl. rewrite groupTables_lookup, lookup_empty. cbn [option.from_option In].
  rewrite List.Forall_forall in Hin. split.
  - intros [[]|(i & Hi & Ht & Hd)]. exists i.
    destruct (Hok i (Hin i Hi)) as (_ & Hm & db' & l & Hdb & _). rewrite Hm in Ht. cbn in Ht.
    subst tbl. rewrite Hdb in Hd |- *. cbn in Hd. by subst.
  - intros (i & Hi & -> & Hd). right. exists i.
    destruct (Hok i (Hin i Hi)) as (_ & Hm & db' & l & Hdb & _). rewrite Hm, Hdb.
    rewrite Hdb in Hd. injection Hd as ->. done.
Qed.

Lemma Slice_ParseTopology_routes_witness :
  let '(_, m) := Slice_ParseTopology [0; 4] five_tables in
  forall db tbl, In tbl (default [] (m !! db)) <->
    exists i, In i [0; 4] /\ tbl = indexed "student" i /\ Tables five_tables !! tbl = Some db.
Proof.
  apply (Slice_ParseTopology_routes five_tables [0; 4]).
  - apply (ParseTopology_inv "school" "student" sample_config); vm_compute; reflexivity.
  - repeat constructor; cbn; tauto.
Defined.
