(* ===== verification/ConditionParse.v ===== *)
(** * From WHERE expressions to conditions (pkg/cond/condition.go, lines 302-597)

    [expr] is the part of the parser's expression tree the functions
    distinguish; a column carries its rendered name, and function calls, casts
    and CASE expressions an identity the evaluators see.  The evaluators of
    pkg/function and [misc.ComputeUnary] (see [Unary]) are arguments.  [&ComplexCondition]
    allocates in the condition store of [Condition]. *)
From Stdlib Require Import ZArith Lia List.
From stdpp Require Import base gmap strings list.
From S2P Require Import Prelude GoText Topology Values Condition Sharding Shard.

Local Open Scope Z_scope.

Inductive expr :=
| EColumn (name : string)
| EValue (v : value)
| EParam (order : nat)
| EUnary (op : Op) (e : expr)
| EBinary (op : Op) (l r : expr)
| ELike (e pattern : expr)
| EBetween (e left right : expr) (not : bool)
| EIn (e : expr) (items : list expr) (not : bool)
| EParen (e : expr)
| EFuncCall (id : nat)
| EFuncCast (id : nat)
| ECase (id : nat)
| EOther (id : nat).

(** The evaluators of pkg/function, on an expression and the arguments. *)
Record evaluators := mkEvaluators {
  Eval : expr -> list value -> res value;
  EvalFunction : expr -> list value -> res value;
  EvalCastFunction : expr -> list value -> res value;
  EvalCaseWhenFunction : expr -> list value -> res value;
  ComputeUnary : Op -> value -> res value }.

Definition unsupported : string := "unsupported expression".
Definition unsupportedIn : string := "unsupported expression within pattern in expr".
Definition unsupportedOp : string := "unsupported binary operation expr opcode".
Definition unsupportedVal : string := "unsupported parse val expression".
Definition onlyNested : string := "only support nest expressions within mathematical binary operation expr".

Definition isMath (op : Op) : bool :=
  match op with Plus | Minus | Mul | Div => true | _ => false end.
Definition isCompare (op : Op) : bool :=
  match op with EQ | NE | GT | LT | GE | LE => true | _ => false end.

Section parse.
Context (ev : evaluators) (args : list value).

Fixpoint getValue (e : expr) : res value :=
  match e with
  | EValue v => Ok v
  | EParam order => from_option Panic (args !! order)
  | EUnary op v => v ← getValue v; ComputeUnary ev op v
  | EBinary _ _ _ => Eval ev e args
  | EFuncCall _ => EvalFunction ev e args
  | EFuncCast _ => EvalCastFunction ev e args
  | ECase _ => EvalCaseWhenFunction ev e args
  | EParen (EBinary op _ _ as nested) => if isMath op then Eval ev nested args else Err onlyNested
  | EParen _ => Err onlyNested
  | _ => Err unsupported
  end.

(** The condition a truth value stands for. *)
Definition constant (b : bool) : Condition := if b then CTrue else CFalse.

(** The operator with its operands exchanged. *)
Definition flipOp (op : Op) : res Op :=
  match op with
  | EQ => Ok EQ | NE => Ok NE | LT => Ok GT | LE => Ok GE | GT => Ok LT | GE => Ok LE
  | _ => Panic
  end.

(** The truth of a comparison from the result of [misc.Compare]. *)
Definition compareHolds (op : Op) (cmp : Z) : res bool :=
  match op with
  | EQ => Ok (cmp =? 0)
  | NE => Ok (negb (cmp =? 0))
  | GT => Ok (cmp >? 0)
  | GE => Ok (cmp >=? 0)
  | LT => Ok (cmp <? 0)
  | LE => Ok (cmp <=? 0)
  | _ => Panic
  end.

Definition isColumn (e : expr) : option string :=
  match e with EColumn name => Some name | _ => None end.

(** With a column on neither side and an operand that cannot be evaluated the
    key stays nil and reading its name panics. *)
Definition ParseCompareExpression (op : Op) (l r : expr) : res Condition :=
  match isColumn l, isColumn r with
  | Some _, Some _ => Ok CTrue
  | lcol, rcol =>
    match getValue l, getValue r with
    | Panic, _ => Panic
    | _, Panic => Panic
    | Ok value1, Ok value2 => b ← compareHolds op (Compare value1 value2); Ok (constant b)
    | r1, r2 =>
      match lcol, rcol with
      | Some name, _ => value2 ← r2; Ok (CKey (mkKey name op value2))
      | None, Some name => value1 ← r1; op' ← flipOp op; Ok (CKey (mkKey name op' value1))
      | None, None => Panic
      end
    end
  end.

Definition ParseMathCondition (e : expr) : res Condition :=
  val ← Eval ev e args;
  z ← IsZero val;
  Ok (constant (negb z)).

(** A pattern that cannot be evaluated to a string gives the nil condition. *)
Definition ParseLikeCondition (e pattern : expr) : res Condition :=
  match isColumn e with
  | Some name =>
    match getValue pattern with
    | Ok (VString like) => Ok (CKey (mkKey name Like (VString like)))
    | Panic => Panic
    | _ => Ok CNil
    end
  | None => Ok CNil
  end.

Definition ParseBetweenCondition (h : heap) (e left right : expr) (not : bool)
  : res (heap * Condition) :=
  match isColumn e with
  | Some name =>
    lv ← getValue left;
    rv ← getValue right;
    if not
    then Ok (alloc h (mkComplex Or [CKey (mkKey name LT lv); CKey (mkKey name GT rv)]))
    else Ok (alloc h (mkComplex And [CKey (mkKey name GE lv); CKey (mkKey name LE rv)]))
  | None => Ok (h, CNil)
  end.

Definition inItem (name : string) (not : bool) (item : expr) : res Condition :=
  match item with
  | EParam _ | EValue _ =>
    v ← getValue item; Ok (CKey (mkKey name (if not then NE else EQ) v))
  | _ => Err unsupportedIn
  end.

Definition ParseInCondition (h : heap) (e : expr) (items : list expr) (not : bool)
  : res (heap * Condition) :=
  match isColumn e with
  | Some name =>
    result ← mapM_res (inItem name not) items;
    Ok (alloc h (mkComplex Or result))
  | None => Ok (h, CNil)
  end.

Definition ParseValCondition (e : expr) : res Condition :=
  match e with
  | EUnary _ _ => val ← getValue e; z ← IsZero val; Ok (constant (negb z))
  | EValue v => z ← IsZero v; Ok (constant (negb z))
  | _ => Err unsupportedVal
  end.

(** [left.Or(right)] or [left.And(right)]; the operands' nesting bounds the
    depth of the calls by 3. *)
(** The end of [ParseLogicalCondition], once both sides are parsed. *)
Definition connect (op : Op) (h : heap) (left right : Condition) : res (heap * Condition) :=
  match op with
  | LogicOr => Cond_Or 3 h left right
  | _ => Cond_And 3 h left right
  end.

Fixpoint ParseCondition (h : heap) (e : expr) : res (heap * Condition) :=
  match e with
  | EBinary op l r =>
    if isCompare op then c ← ParseCompareExpression op l r; Ok (h, c)
    else if isMath op then c ← ParseMathCondition e; Ok (h, c)
    else
      match op with
      | LogicAnd | LogicOr =>
        '(h1, lc) ← ParseCondition h l;
        '(h2, rc) ← ParseCondition h1 r;
        connect op h2 lc rc
      | _ => Err unsupportedOp
      end
  | ELike e' p => c ← ParseLikeCondition e' p; Ok (h, c)
  | EBetween e' l r n => ParseBetweenCondition h e' l r n
  | EIn e' items n => ParseInCondition h e' items n
  | EParen e' => ParseCondition h e'
  | _ => c ← ParseValCondition e; Ok (h, c)
  end.

(** ** WHERE clauses in disjunctive normal form *)

(** The operands that stand for an int64: literals, parameters of the statement, and either
    behind minus signs that the evaluator computes. *)
Inductive literal : expr -> Z -> Prop :=
| lit_value v : literal (EValue (VInt64 v)) v
| lit_param order v : args !! order = Some (VInt64 v) -> literal (EParam order) v
| lit_minus e v : literal e v -> ComputeUnary ev Minus (VInt64 v) = Ok (VInt64 (- v)) -> literal (EUnary Minus e) (- v).
(** Those of an IN list. *)
Inductive item : expr -> Z -> Prop :=
| item_value v : item (EValue (VInt64 v)) v
| item_param order v : args !! order = Some (VInt64 v) -> item (EParam order) v.

Lemma literal_value e v : literal e v -> getValue e = Ok (VInt64 v) /\ isColumn e = None.
Proof. induction 1 as [v|order v E|e v _ [IH _] E]; cbn; [done | by rewrite E | by rewrite IH]. Qed.

(** Conjunctions of comparisons of a column with such an operand, on either
    side, and BETWEEN. *)
Inductive conj_expr : expr -> list KeyCondition -> Prop :=
| conj_left name op e v : isCompare op = true -> literal e v ->
    conj_expr (EBinary op (EColumn name) e) [mkKey name op (VInt64 v)]
| conj_right name op op' e v : flipOp op = Ok op' -> literal e v ->
    conj_expr (EBinary op e (EColumn name)) [mkKey name op' (VInt64 v)]
| conj_between name e f v w : literal e v -> literal f w ->
    conj_expr (EBetween (EColumn name) e f false)
      [mkKey name GE (VInt64 v); mkKey name LE (VInt64 w)]
| conj_paren e ks : conj_expr e ks -> conj_expr (EParen e) ks
| conj_and l r ks ks' : conj_expr l ks -> conj_expr r ks' -> conj_expr (EBinary LogicAnd l r) (ks ++ ks').

(** Disjunctions of those, IN lists and NOT BETWEEN. *)
Inductive disj_expr : expr -> list (list KeyCondition) -> Prop :=
| disj_conj e ks : conj_expr e ks -> disj_expr e [ks]
| disj_in name items vs : Forall2 item items vs ->
    disj_expr (EIn (EColumn name) items false) ((fun v => [mkKey name EQ (VInt64 v)]) <$> vs)
| disj_not_between name e f v w : literal e v -> literal f w ->
    disj_expr (EBetween (EColumn name) e f true)
      [[mkKey name LT (VInt64 v)]; [mkKey name GT (VInt64 w)]]
| disj_paren e d : disj_expr e d -> disj_expr (EParen e) d
| disj_or l r d d' : disj_expr l d -> disj_expr r d' -> disj_expr (EBinary LogicOr l r) (d ++ d').

(** The result of a parse: a normal form, with the nodes that existed before
    untouched and the result's own node new. *)
Definition parsed (h : heap) (e : expr) (P : heap -> Condition -> Prop) : Prop :=
  exists h' c, ParseCondition h e = Ok (h', c) /\ P h' c /\ heap_ok h' /\ keeps [] h h' /\
    (forall l, In l (ptrs c) -> (fresh h <= l)%nat).

(** Changes confined to nodes allocated since [h] keep [h]. *)
Lemma keeps_new ls h h1 h2 :
  keeps [] h h1 -> keeps ls h1 h2 -> (forall l, In l ls -> (fresh h <= l)%nat) -> keeps [] h h2.
Proof.
  intros [F1 K1] [F2 K2] Hl. split; [lia|]. intros l _ Hf.
  rewrite K2, K1; [done | tauto | done | | lia]. intros Hin%Hl. lia.
Qed.

Lemma flipOp_compare op op' : flipOp op = Ok op' -> isCompare op = true.
Proof. by destruct op. Qed.

Lemma conj_parsed e ks : conj_expr e ks -> forall h, heap_ok h -> parsed h e (fun h' c => term h' c ks).
Proof.
  induction 1 as [name op e v Hop He|name op op' e v Hop He|name e f v w He Hf|e ks He IH|l r ks ks' Hl IHl Hr IHr]; intros h Hok.
  - exists h, (CKey (mkKey name op (VInt64 v))). apply literal_value in He as [Hv Hc]. cbn [ParseCondition].
    rewrite Hop. unfold ParseCompareExpression. rewrite Hc, Hv. split; [done|].
    split; [constructor|]. split; [done|]. split; [apply keeps_refl | done].
  - exists h, (CKey (mkKey name op' (VInt64 v))). apply literal_value in He as [Hv Hc]. cbn [ParseCondition].
    rewrite (flipOp_compare _ _ Hop). unfold ParseCompareExpression. rewrite Hc, Hv. cbn. rewrite Hop. split; [done|].
    split; [constructor|]. split; [done|]. split; [apply keeps_refl | done].
  - apply literal_value in He as [Hv _]. apply literal_value in Hf as [Hw _].
    eexists _, _. split; [cbn [ParseCondition ParseBetweenCondition isColumn]; rewrite Hv, Hw; reflexivity|].
    split; [apply (alloc_term h [mkKey name GE (VInt64 v); mkKey name LE (VInt64 w)])|].
    split; [by apply heap_ok_alloc|]. split; [apply keeps_alloc|]. intros l [<-|[]]. lia.
  - apply IH, Hok.
  - destruct (IHl h Hok) as (h1 & c1 & E1 & T1 & Ok1 & K1 & P1).
    destruct (IHr h1 Ok1) as (h2 & c2 & E2 & T2 & Ok2 & K2 & P2).
    assert (T1' : term h2 c1 ks) by (by apply (term_keeps [] h1); [done | done | intros ? ? [] |]).
    destruct (term_And 1 h2 c1 c2 ks ks' Ok2 T1' T2) as (h3 & c & E & T & Ok3 & K3 & P3).
    assert (Hm : forall l, In l (mutated c1 c2) -> (fresh h <= l)%nat) by (intros l' Hin%mutated_ptrs; auto).
    exists h3, c. split; [cbn [ParseCondition isCompare isMath]; rewrite E1; cbn [mbind res_bind]; rewrite E2; exact E|].
    split; [done|]. split; [done|]. assert (K12 := keeps_trans [] _ _ _ K1 K2).
    split; [by eapply keeps_new|]. intros l' [?|?]%P3; [auto | destruct K12; lia].
Qed.

Lemma dnf_keeps h h' c d : heap_ok h -> keeps [] h h' -> dnf h c d -> dnf h' c d.
Proof.
  intros Hok Hk [c' ks Ht|l cs d' Hl Hcs].
  - apply dnf_term. by apply (term_keeps [] h); [done | done | intros ? ? [] |].
  - apply (dnf_disj _ _ cs); [|by apply (terms_keeps [] h); [done | done | intros ? ? [] |]].
    destruct Hk as [_ Hk]. rewrite Hk; [done | tauto | apply Hok; by eexists].
Qed.

Lemma inItems name items vs : Forall2 item items vs ->
  mapM_res (inItem name false) items = Ok (CKey ∘ mkKey name EQ ∘ VInt64 <$> vs).
Proof.
  induction 1 as [|e v items vs He _ IH]; [done|]. cbn [mapM_res fmap list_fmap]. rewrite IH.
  destruct He as [v|order v E]; cbn; [done | by rewrite E].
Qed.

Lemma disj_parsed e d : disj_expr e d -> forall h, heap_ok h -> parsed h e (fun h' c => dnf h' c d).
Proof.
  induction 1 as [e ks He|name items vs Hvs|name e f v w He Hf|e d He IH|l r d d' Hl IHl Hr IHr]; intros h Hok.
  - destruct (conj_parsed e ks He h Hok) as (h' & c & E & T & R). exists h', c. split; [done|].
    split; [by apply dnf_term | done].
  - exists (fst (alloc h (mkComplex Or (CKey ∘ mkKey name EQ ∘ VInt64 <$> vs)))), (CPtr (fresh h)).
    split; [cbn [ParseCondition ParseInCondition isColumn]; by rewrite (inItems name items vs Hvs)|].
    assert (Hts : Forall2 (term h) (CKey ∘ mkKey name EQ ∘ VInt64 <$> vs) ((fun v => [mkKey name EQ (VInt64 v)]) <$> vs)).
    { clear Hvs. induction vs as [|v vs IH]; [constructor|]. constructor; [constructor | exact IH]. }
    destruct (alloc_disj h _ _ Hok Hts) as [Hd Hok']. split; [exact Hd|]. split; [exact Hok'|].
    split; [apply keeps_alloc|]. intros l [<-|[]]. lia.
  - apply literal_value in He as [Hv _]. apply literal_value in Hf as [Hw _].
    eexists _, _. split; [cbn [ParseCondition ParseBetweenCondition isColumn]; rewrite Hv, Hw; reflexivity|].
    assert (Hts : Forall2 (term h) [CKey (mkKey name LT (VInt64 v)); CKey (mkKey name GT (VInt64 w))]
      [[mkKey name LT (VInt64 v)]; [mkKey name GT (VInt64 w)]]) by (repeat constructor).
    destruct (alloc_disj h _ _ Hok Hts) as [Hd Hok']. split; [exact Hd|]. split; [exact Hok'|].
    split; [apply keeps_alloc|]. intros l [<-|[]]. lia.
  - apply IH, Hok.
  - destruct (IHl h Hok) as (h1 & c1 & E1 & D1 & Ok1 & K1 & P1).
    destruct (IHr h1 Ok1) as (h2 & c2 & E2 & D2 & Ok2 & K2 & P2).
    assert (D1' : dnf h2 c1 d) by (by apply (dnf_keeps h1)).
    destruct (Or_dnf 1 h2 c1 c2 d d' Ok2 D1' D2) as (h3 & c & E & D & Ok3 & K3 & P3).
    exists h3, c. split; [cbn [ParseCondition isCompare isMath]; rewrite E1; cbn [mbind res_bind]; rewrite E2; exact E|].
    split; [done|]. split; [done|]. assert (K12 := keeps_trans [] _ _ _ K1 K2).
    split; [by eapply keeps_new|]. intros l' [?|?]%P3; [auto | destruct K12; lia].
Qed.
End parse.

(** ** The meaning of an expression on a row *)
Section meaning.
Context (args : list value).
Fixpoint operand (r : row) (e : expr) : option Z :=
  match e with
  | EColumn name => Some (r name)
  | EValue (VInt64 v) => Some v
  | EParam order => match args !! order with Some (VInt64 v) => Some v | _ => None end
  | EUnary Minus e' => Z.opp <$> operand r e'
  | _ => None
  end.
Lemma literal_operand ev r e v : literal ev args e v -> operand r e = Some v.
Proof. induction 1 as [v|order v E|e v _ IH _]; cbn; [done | by rewrite E | by rewrite IH]. Qed.
Lemma item_operand r e v : item args e v -> operand r e = Some v.
Proof. intros [w|order w E]; cbn; [done | by rewrite E]. Qed.

Definition both (f : Z -> Z -> bool) (a b : option Z) : bool :=
  match a, b with Some x, Some y => f x y | _, _ => false end.

(** SQL truth, for integer columns, literals and parameters. *)
Fixpoint sat (r : row) (e : expr) : bool :=
  match e with
  | EBinary LogicAnd a b => sat r a && sat r b
  | EBinary LogicOr a b => sat r a || sat r b
  | EBinary op a b => both (cmpb op) (operand r a) (operand r b)
  | EBetween e' a b not =>
    xorb not (both Z.leb (operand r a) (operand r e') && both Z.leb (operand r e') (operand r b))
  | EIn e' items not =>
    xorb not (existsb (fun i => both Z.eqb (operand r e') (operand r i)) items)
  | EParen e' => sat r e'
  | _ => false
  end.

Lemma cmpb_flip op op' x v : flipOp op = Ok op' -> cmpb op v x = cmpb op' x v.
Proof. destruct op; intros [= <-]; cbn; zcases; try done; lia. Qed.

Lemma conj_sat ev r e ks : conj_expr ev args e ks -> forallb (rowb r) ks = sat r e.
Proof.
  induction 1 as [name op e v Hop He|name op op' e v Hop He|name e f v w He Hf|e ks He IH|l r' ks ks' Hl IHl Hr IHr].
  - cbn. rewrite andb_true_r, (literal_operand ev r e v He). by destruct op.
  - cbn. rewrite andb_true_r, (literal_operand ev r e v He). rewrite <- (cmpb_flip op op' (r name) v Hop). by destruct op.
  - cbn. by rewrite andb_true_r, (literal_operand ev r e v He), (literal_operand ev r f w Hf).
  - done.
  - rewrite forallb_app, IHl, IHr. done.
Qed.

Lemma disj_sat ev r e d : disj_expr ev args e d -> deval (rowb r) d = sat r e.
Proof.
  induction 1 as [e ks He|name items vs Hvs|name e f v w He Hf|e d He IH|l r' d d' Hl IHl Hr IHr].
  - cbn. rewrite orb_false_r. by apply (conj_sat ev).
  - cbn [sat]. rewrite xorb_false_l. induction Hvs as [|e v items vs He _ IH]; [done|].
    cbn [fmap list_fmap]. rewrite deval_cons, IH. cbn [existsb]. rewrite (item_operand r e v He). cbn. by rewrite andb_true_r.
  - cbn. rewrite (literal_operand ev r e v He), (literal_operand ev r f w Hf). cbn. zcases; try done; lia.
  - done.
  - rewrite deval_app, IHl, IHr. done.
Qed.

End meaning.

(** ** Claims *)

(** C16: A WHERE clause in disjunctive normal form over integer columns and
    literals or parameters, with minus signs, BETWEEN, IN and parentheses, is parsed without error or
    panic, whatever the store holds already, into a condition in disjunctive
    normal form that is true on exactly the rows the clause selects. *)
Theorem ParseCondition_correct ev args e d h :
  disj_expr ev args e d -> heap_ok h ->
  exists h' c, ParseCondition ev args h e = Ok (h', c) /\ dnf h' c d /\
    forall r, deval (rowb r) d = sat args r e.
Proof.
  intros He Hok. destruct (disj_parsed ev args e d He h Hok) as (h' & c & E & D & _).
  exists h', c. split; [done|]. split; [done|]. intros r. by apply (disj_sat args ev).
Qed.

Definition no_eval : evaluators :=
  mkEvaluators (fun _ _ => Err unsupported) (fun _ _ => Err unsupported) (fun _ _ => Err unsupported)
    (fun _ _ => Err unsupported) (fun _ _ => Err unsupported).

(** [(uid >= 3 and ? > uid) or uid in (12, 14)], executed with 9. *)
Definition sample_where : expr :=
  EBinary LogicOr
    (EParen (EBinary LogicAnd (EBinary GE (EColumn "uid") (EValue (VInt64 3)))
                              (EBinary GT (EParam 0) (EColumn "uid"))))
    (EIn (EColumn "uid") (EValue ∘ VInt64 <$> [12; 14]) false).

Definition no_nodes : heap := mkHeap ∅ 0.

Lemma ParseCondition_correct_witness :
  let d := [[mkKey "uid" GE (VInt64 3); mkKey "uid" LT (VInt64 9)];
            [mkKey "uid" EQ (VInt64 12)]; [mkKey "uid" EQ (VInt64 14)]] in
  exists h' c, ParseCondition no_eval [VInt64 9] no_nodes sample_where = Ok (h', c) /\ dnf h' c d /\
    forall r, deval (rowb r) d = sat [VInt64 9] r sample_where.
Proof.
  apply (ParseCondition_correct no_eval [VInt64 9] sample_where).
  - apply (disj_or _ _ _ _ [[mkKey "uid" GE (VInt64 3); mkKey "uid" LT (VInt64 9)]]
             [[mkKey "uid" EQ (VInt64 12)]; [mkKey "uid" EQ (VInt64 14)]]); [|apply (disj_in _ _ "uid" _ [12; 14]); repeat constructor].
    apply disj_conj, conj_paren, (conj_and _ _ _ _ [_] [_]); [by apply conj_left; [|constructor] | by apply conj_right; [|constructor]].
  - intros l [n Hn]. cbn in Hn. rewrite lookup_empty in Hn. discriminate.
Defined.

(** NOT IN is parsed like IN, as a disjunction, with the comparisons
    negated: for [uid not in (v, w)] with distinct values the condition is
    true on every row, also on those the clause excludes. *)
Theorem NotIn_always_true ev args h name v w :
  v <> w ->
  exists d, ParseCondition ev args h (EIn (EColumn name) [EValue (VInt64 v); EValue (VInt64 w)] true)
      = Ok (alloc h (mkComplex Or [CKey (mkKey name NE (VInt64 v)); CKey (mkKey name NE (VInt64 w))])) /\
    d = [[mkKey name NE (VInt64 v)]; [mkKey name NE (VInt64 w)]] /\
    (forall r, deval (rowb r) d = true) /\
    (forall r, r name = v -> sat args r (EIn (EColumn name) [EValue (VInt64 v); EValue (VInt64 w)] true) = false).
Proof.
  intros Hne. eexists. split; [reflexivity|]. split; [reflexivity|]. split.
  - intros r. cbn. zcases; try done; lia.
  - intros r Hr. cbn. rewrite Hr, Z.eqb_refl. done.
Qed.

Lemma NotIn_always_true_witness :
  exists d, ParseCondition no_eval [] no_nodes (EIn (EColumn "uid") [EValue (VInt64 1); EValue (VInt64 2)] true)
      = Ok (alloc no_nodes (mkComplex Or [CKey (mkKey "uid" NE (VInt64 1)); CKey (mkKey "uid" NE (VInt64 2))])) /\
    d = [[mkKey "uid" NE (VInt64 1)]; [mkKey "uid" NE (VInt64 2)]] /\
    (forall r, deval (rowb r) d = true) /\
    (forall r, r "uid"%string = 1 -> sat [] r (EIn (EColumn "uid") [EValue (VInt64 1); EValue (VInt64 2)] true) = false).
Proof. apply (NotIn_always_true no_eval [] no_nodes "uid" 1 2). discriminate. Defined.

(** A comparison of two expressions neither of which is a column panics
    when one of them cannot be evaluated, although the error is at hand. *)
Theorem ParseCompare_no_column_panics ev args op l r e :
  isColumn l = None -> isColumn r = None ->
  (getValue ev args l = Err e \/ getValue ev args r = Err e) ->
  ParseCompareExpression ev args op l r = Panic.
Proof.
  intros Hl Hr Hv. unfold ParseCompareExpression. rewrite Hl, Hr.
  destruct (getValue ev args l), (getValue ev args r); destruct Hv; done.
Qed.

Lemma ParseCompare_no_column_panics_witness :
  ParseCompareExpression no_eval [] EQ (EFuncCall 0) (EValue (VInt64 1)) = Panic.
Proof. apply (ParseCompare_no_column_panics _ _ _ _ _ unsupported); [reflexivity | reflexivity | left; reflexivity]. Defined.
