(* ===== verification/Unary.v ===== *)
(** * Unary operators on dynamic values: [misc.ComputeUnary] of [pkg/misc/other.go],
    and the conditions that use them

    A dynamic value keeps its Go type: integers have their width and wrap around at it.
    A float is carried as what [fmt] prints of it; parsing a text as a float and the
    conversions of floats to integers are arguments.  [int] and [uint] have 64 bits. *)
From Stdlib Require Import ZArith Lia List Ascii.
From stdpp Require Import base strings list gmap.
From S2P Require Import Prelude GoText Values Condition Shard ConditionParse.

Local Open Scope Z_scope.

(** ** Dynamic values *)
Inductive width := W8 | W16 | W32 | W64 | Word.
Definition bits_of (w : width) : Z := match w with W8 => 8 | W16 => 16 | W32 => 32 | W64 | Word => 64 end.

Inductive dyn :=
| DNil
| DString (s : string)
| DBool (b : bool)
| DFloat (single : bool) (repr : string)
| DInt (w : width) (z : Z)
| DUint (w : width) (z : Z)
| DOther.

Definition signed (w : width) (z : Z) : Z := (z + 2 ^ (bits_of w - 1)) mod 2 ^ bits_of w - 2 ^ (bits_of w - 1).
Definition wf_dyn (v : dyn) : Prop :=
  match v with
  | DInt w z => - 2 ^ (bits_of w - 1) <= z < 2 ^ (bits_of w - 1)
  | DUint w z => 0 <= z < 2 ^ bits_of w
  | _ => True
  end.

(** ** Floats *)
Definition floatZero (r : string) : bool := String.eqb r "0" || String.eqb r "-0".
Definition floatNegative (r : string) : bool := match r with String c _ => Ascii.eqb c "-" | EmptyString => false end.
Definition floatPositive (r : string) : bool := negb (String.eqb r "NaN") && negb (floatNegative r) && negb (floatZero r).
Definition floatInf (r : string) : bool := String.eqb r "+Inf" || String.eqb r "-Inf".
Definition floatNeg (r : string) : string :=
  if String.eqb r "NaN" then r
  else match r with
       | String c r' => if Ascii.eqb c "-" then (if String.eqb r' "Inf" then "+Inf" else r')
                        else if Ascii.eqb c "+" then String "-" r' else String "-" r
       | EmptyString => r
       end%string.

Section compute.
Context (ParseFloat : string -> string) (toUint64 toInt64 : string -> Z).

Definition notOf (zero : bool) : dyn := DInt Word (if zero then 1 else 0).
Definition complement (z : Z) : dyn := DUint W64 (2 ^ 64 - 1 - z).
Definition floatUnary (op : Op) (single : bool) (f : string) (input : dyn) : dyn :=
  match op with
  | Not | Not2 => notOf (floatZero f)
  | Minus => DFloat single (floatNeg f)
  | BitNeg => if floatPositive f then complement (toUint64 f) else DInt W64 (- toInt64 f - 1)
  | _ => input
  end.
Definition ComputeUnary (op : Op) (input : dyn) : dyn :=
  match input with
  | DString val => floatUnary op false (ParseFloat val) input
  | DBool val =>
    match op with
    | Not | Not2 => DBool (negb val)
    | Minus => DInt Word (if val then -1 else 0)
    | BitNeg => complement (if val then 1 else 0)
    | _ => input
    end
  | DFloat single val =>
    if negb single && (String.eqb val "NaN" || floatInf val) then input else floatUnary op single val input
  | DInt w val =>
    match op with
    | Not | Not2 => notOf (val =? 0)
    | Minus => DInt w (signed w (- val))
    | BitNeg => if 0 <? val then complement val else DInt (match w with Word => Word | _ => W64 end) (- val - 1)
    | _ => input
    end
  | DUint w val =>
    match op with
    | Not | Not2 => match w with Word => DUint Word (if val =? 0 then 1 else 0) | _ => notOf (val =? 0) end
    | Minus => DInt w (signed w (- signed w val))
    | BitNeg => DUint (match w with Word => Word | _ => W64 end) (2 ^ 64 - 1 - val)
    | _ => input
    end
  | DNil | DOther => input
  end.

(** ** What they compute *)

(** The number of an integer or a boolean, and the truth SQL gives a value. *)
Definition number (v : dyn) : option Z :=
  match v with
  | DInt _ z | DUint _ z => Some z
  | DBool b => Some (if b then 1 else 0)
  | _ => None
  end.
Definition truth (v : dyn) : option bool :=
  match v with
  | DString s => Some (negb (floatZero (ParseFloat s)))
  | DFloat _ r => Some (negb (floatZero r))
  | _ => (fun z => negb (z =? 0)) <$> number v
  end.

(** The integers whose negation the type of the result holds. *)
Definition negatable (v : dyn) : bool :=
  match v with
  | DInt w z => negb (z =? - 2 ^ (bits_of w - 1))
  | DUint w z => z <=? 2 ^ (bits_of w - 1)
  | _ => true
  end.

Lemma signed_id w z : - 2 ^ (bits_of w - 1) <= z < 2 ^ (bits_of w - 1) -> signed w z = z.
Proof. intros Hz. unfold signed. rewrite Z.mod_small; destruct w; cbn [bits_of] in *; lia. Qed.
Lemma signed_range w z : - 2 ^ (bits_of w - 1) <= signed w z < 2 ^ (bits_of w - 1).
Proof.
  unfold signed. pose proof (Z.mod_pos_bound (z + 2 ^ (bits_of w - 1)) (2 ^ bits_of w)). destruct w; cbn [bits_of] in *; lia.
Qed.
Lemma signed_over w z : 2 ^ (bits_of w - 1) <= z < 2 ^ bits_of w -> signed w z = z - 2 ^ bits_of w.
Proof.
  intros Hz. unfold signed. replace (z + 2 ^ (bits_of w - 1)) with (z + 2 ^ (bits_of w - 1) - 2 ^ bits_of w + 1 * 2 ^ bits_of w) by lia.
  rewrite Z_mod_plus_full, Z.mod_small; destruct w; cbn [bits_of] in *; lia.
Qed.

(** C35: The minus sign is exact except at the edge.  Negating an integer or a boolean of any of
    the Go types gives its negation exactly when the value is not the smallest of a signed type
    and not above half the range of an unsigned type; otherwise the result is the value itself,
    or what is missing to the modulus: a positive number. *)
Theorem minus_exact v z :
  wf_dyn v -> number v = Some z ->
  number (ComputeUnary Minus v) =
  Some (if negatable v then - z
        else match v with DUint w _ => 2 ^ bits_of w - z | _ => z end).
Proof.
  destruct v as [| |[]| |w n|w n|]; cbn [wf_dyn number negatable ComputeUnary]; intros Hwf [= <-]; try done; f_equal.
  - destruct (Z.eqb_spec n (- 2 ^ (bits_of w - 1))) as [E|E]; cbn [negb].
    + rewrite signed_over; destruct w; cbn [bits_of] in *; lia.
    + apply signed_id. lia.
  - assert (2 ^ (bits_of w - 1) + 2 ^ (bits_of w - 1) = 2 ^ bits_of w) as Hh by by destruct w.
    assert (0 < 2 ^ (bits_of w - 1)) as Hp by by destruct w.
    destruct (Z.leb_spec n (2 ^ (bits_of w - 1))) as [E|E].
    + destruct (Z.eq_dec n (2 ^ (bits_of w - 1))) as [->|Hne].
      * rewrite (signed_over w (2 ^ _)) by lia. rewrite signed_over; lia.
      * rewrite (signed_id w n) by lia. apply signed_id. lia.
    + rewrite (signed_over w n) by lia. rewrite signed_id; lia.
Qed.

(** The bitwise complement is that of a 64-bit word, whatever the width of the operand and
    also for negative ones; only the complement of a signed zero is -1 instead of 2^64 - 1. *)
Lemma complement_word v z :
  wf_dyn v -> number v = Some z ->
  number (ComputeUnary BitNeg v) =
  Some (match v with DInt _ 0 => -1 | _ => 2 ^ 64 - 1 - z mod 2 ^ 64 end).
Proof.
  destruct v as [| |b| |w n|w n|]; cbn [wf_dyn number ComputeUnary]; intros Hwf [= <-]; try done; [by destruct b| |].
  - assert (- 2 ^ 63 <= n < 2 ^ 63) as Hn by (destruct w; cbn [bits_of] in *; lia). clear Hwf.
    destruct n as [|n|n]; [done| |]; cbn [Z.ltb Z.compare]; cbn [number complement]; f_equal.
    + rewrite Z.mod_small; lia.
    + rewrite <- (Z_mod_plus_full (Z.neg n) 1), Z.mod_small; lia.
  - cbn [number]. f_equal. rewrite Z.mod_small; destruct w; cbn [bits_of] in *; lia.
Qed.

(** The negation inverts the truth of every value that has one. *)
Lemma not_inverts op v b : op = Not \/ op = Not2 -> truth v = Some b ->
  (forall r, v = DFloat false r -> String.eqb r "NaN" || floatInf r = false) ->
  (fun z => negb (z =? 0)) <$> number (ComputeUnary op v) = Some (negb b).
Proof.
  intros Hop Ht Hf. destruct v as [|s|c|single r|w n|w n|]; cbn in Ht; try done; injection Ht as <-; destruct Hop as [-> | ->]; cbn;
    try (by destruct (floatZero _)); try (by destruct c); try (by destruct (n =? 0)); try (by destruct w, (n =? 0));
    destruct single; cbn [negb andb]; rewrite ?(Hf r eq_refl); by destruct (floatZero r).
Qed.

Lemma ComputeUnary_wf op v :
  (forall r, 0 <= toUint64 r < 2 ^ 64) -> (forall r, - 2 ^ 63 <= toInt64 r < 2 ^ 63) -> wf_dyn v -> wf_dyn (ComputeUnary op v).
Proof.
  intros Hu Hi Hv. pose proof (fun w z => signed_range w z) as Hr.
  assert (Hf : forall single f, wf_dyn (floatUnary op single f v)).
  { intros single f. destruct op; cbn; try done; try (by destruct (floatZero f)).
    destruct (floatPositive f); cbn; [specialize (Hu f) | specialize (Hi f)]; lia. }
  destruct v as [|s|c|single r|w n|w n|]; cbn [ComputeUnary]; try done.
  - destruct op; cbn; try done; destruct c; cbn; lia.
  - by destruct (negb single && _).
  - destruct op; cbn [wf_dyn notOf]; try done; try (by destruct (n =? 0)); try apply Hr.
    cbn in Hv. destruct (Z.ltb_spec 0 n); cbn [complement wf_dyn]; destruct w; cbn [bits_of] in *; lia.
  - destruct op; cbn [wf_dyn notOf]; try done; try (destruct w, (n =? 0); cbn; lia); try apply Hr.
    cbn in Hv. destruct w; cbn [bits_of] in *; lia.
Qed.
End compute.

(** ** In conditions *)
Definition toDyn (v : value) : dyn :=
  match v with
  | VNil => DNil
  | VInt z => DInt Word z
  | VInt64 z => DInt W64 z
  | VUint64 z => DUint W64 z
  | VString s => DString s
  | VBool b => DBool b
  | VFloat r => DFloat false r
  end.
Definition ofDyn (v : dyn) : option value :=
  match v with
  | DNil => Some VNil
  | DInt Word z => Some (VInt z)
  | DInt W64 z => Some (VInt64 z)
  | DUint W64 z => Some (VUint64 z)
  | DString s => Some (VString s)
  | DBool b => Some (VBool b)
  | DFloat false r => Some (VFloat r)
  | _ => None
  end.

Section conditions.
Context (ParseFloat : string -> string) (toUint64 toInt64 : string -> Z).
Context (Eval EvalFunction EvalCastFunction EvalCaseWhenFunction : expr -> list value -> res value).

(** The values of conditions are closed under the operators. *)
Lemma toDyn_closed op v : is_Some (ofDyn (ComputeUnary ParseFloat toUint64 toInt64 op (toDyn v))).
Proof.
  destruct v as [|z|z|z|s|b|r]; cbn [toDyn ComputeUnary].
  1: done.
  all: destruct op; cbn; try done; try (by destruct (0 <? z)); try (by destruct (floatPositive _)); try (by destruct (_ || _));
    destruct (_ || _); try done; by destruct (floatPositive r).
Qed.
Definition computeUnary (op : Op) (v : value) : res value :=
  match ofDyn (ComputeUnary ParseFloat toUint64 toInt64 op (toDyn v)) with Some v' => Ok v' | None => Panic end.
(** The evaluators with the unary operators of the code. *)
Definition withUnary : evaluators := mkEvaluators Eval EvalFunction EvalCastFunction EvalCaseWhenFunction computeUnary.

Lemma computeUnary_minus z : in_i64 z -> z <> - 2 ^ 63 -> computeUnary Minus (VInt64 z) = Ok (VInt64 (- z)).
Proof.
  intros Hz Hne. unfold computeUnary. cbn [toDyn ComputeUnary ofDyn]. rewrite signed_id; [done|]. unfold_width. cbn [bits_of]. lia.
Qed.

(** A negative bound means what it says, as a literal or as a parameter. *)
Lemma negative_literal args e z : literal withUnary args e z -> in_i64 z -> z <> - 2 ^ 63 -> literal withUnary args (EUnary Minus e) (- z).
Proof. intros He Hz Hne. apply lit_minus; [done | by apply computeUnary_minus]. Qed.

(** A bound below the range of int64 becomes a positive one: a literal above 2^63 is a uint64,
    and its negation wraps.  [name > -u] holds for every int64 but is parsed into a condition
    that excludes zero and all negative numbers. *)
Theorem low_bound_wraps args h name u :
  2 ^ 63 < u < 2 ^ 64 ->
  ParseCondition withUnary args h (EBinary GT (EColumn name) (EUnary Minus (EValue (VUint64 u))))
    = Ok (h, CKey (mkKey name GT (VInt64 (2 ^ 64 - u)))) /\
  (forall r, in_i64 (r name) -> - u < r name) /\
  (forall r, r name <= 0 -> rowb r (mkKey name GT (VInt64 (2 ^ 64 - u))) = false).
Proof.
  intros Hu. split_and!.
  - cbn [ParseCondition isCompare]. unfold ParseCompareExpression. cbn [isColumn getValue mbind res_bind].
    unfold withUnary, computeUnary. cbn [ConditionParse.ComputeUnary toDyn ComputeUnary ofDyn].
    rewrite (signed_over W64 u) by (cbn [bits_of]; lia). rewrite signed_id by (cbn [bits_of]; lia).
    cbn. repeat f_equal. lia.
  - intros r Hr. unfold_width. lia.
  - intros r Hr. cbn. zcases; try done; lia.
Qed.
End conditions.

(** No float is parsed or converted here. *)
Definition noFloat (s : string) : string := "0"%string.
Definition noEval (e : expr) (args : list value) : res value := Err unsupported.
Definition plainUnary : evaluators := withUnary noFloat (fun _ => 0) (fun _ => 0) noEval noEval noEval noEval.

Lemma minus_exact_witness :
  number (ComputeUnary noFloat (fun _ => 0) (fun _ => 0) Minus (DUint W64 (2 ^ 64 - 1))) = Some 1.
Proof. apply (minus_exact noFloat (fun _ => 0) (fun _ => 0) (DUint W64 (2 ^ 64 - 1)) (2 ^ 64 - 1)); [cbn; lia | done]. Defined.

(** [uid between -5 and ?], executed with 7, as a condition. *)
Example between_negative :
  let e := EBetween (EColumn "uid") (EUnary Minus (EValue (VInt64 5))) (EParam 0) false in
  exists h' c, ParseCondition plainUnary [VInt64 7] no_nodes e = Ok (h', c) /\
    dnf h' c [[mkKey "uid" GE (VInt64 (-5)); mkKey "uid" LE (VInt64 7)]] /\
    forall r, sat [VInt64 7] r e = (-5 <=? r "uid"%string) && (r "uid"%string <=? 7).
Proof.
  cbn zeta. destruct (disj_parsed plainUnary [VInt64 7] (EBetween (EColumn "uid") (EUnary Minus (EValue (VInt64 5))) (EParam 0) false)
    [[mkKey "uid" GE (VInt64 (-5)); mkKey "uid" LE (VInt64 7)]]) with (h := no_nodes) as (h' & c & E & D & _).
  - apply disj_conj, conj_between; [apply (negative_literal _ _ _ _ _ _ _ _ _ 5); [constructor | unfold_width; lia | lia] | by constructor].
  - intros l [n Hn]. cbn in Hn. by rewrite lookup_empty in Hn.
  - exists h', c. split; [done|]. split; [done|]. done.
Qed.
