(* ===== verification/Merge.v ===== *)
(** * Merging the results of several databases (pkg/plan/result.go)

    A query on several databases runs once per database; [mergeResult]
    combines the row sets, with or without ORDER BY and LIMIT, and
    [aggregateResult] adds up counts.  The arrays [cells], [endResult] and
    [rowIndexes] of the code, all indexed by the result's number, are one
    record per result here; of [Rows] and [rowIndexes] it keeps the rows not
    read yet. *)
From Stdlib Require Import ZArith Lia List Permutation Sorting QArith_base Ascii.
From stdpp Require Import base strings list sorting.
From S2P Require Import Prelude GoText Encoding.

Local Open Scope Z_scope.

(** ** Column values, by their dynamic type *)
Inductive float := NaN | NegInf | Fin (q : Q) | PosInf.

Definition flt_less (a b : float) : bool :=
  match a, b with
  | NaN, _ | _, NaN | _, NegInf | PosInf, _ => false
  | NegInf, _ | _, PosInf => true
  | Fin p, Fin q => match Qcompare p q with Lt => true | _ => false end
  end.

Definition flt_eq (a b : float) : bool :=
  match a, b with
  | NegInf, NegInf | PosInf, PosInf => true
  | Fin p, Fin q => match Qcompare p q with Eq => true | _ => false end
  | _, _ => false
  end.

Inductive dvalue :=
| DNil
| DInt64 (z : Z)
| DUint64 (z : Z)
| DFloat32 (f : float)
| DFloat64 (f : float)
| DString (s : string)
| DBytes (s : string)
| DTime (ns : Z)
| DOther.

Definition three (less eq : bool) : Z := if less then -1 else if eq then 0 else 1.

(** The type assertion on the second operand panics on another type. *)
Definition compare (val1 val2 : dvalue) : res Z :=
  match val1, val2 with
  | DNil, DNil => Ok 0
  | DNil, _ => Ok (-1)
  | _, DNil => Ok 1
  | DInt64 v1, DInt64 v2 | DUint64 v1, DUint64 v2 | DTime v1, DTime v2 => Ok (three (v1 <? v2) (v1 =? v2))
  | DFloat32 v1, DFloat32 v2 | DFloat64 v1, DFloat64 v2 => Ok (three (flt_less v1 v2) (flt_eq v1 v2))
  | DString v1, DString v2 | DBytes v1, DBytes v2 => Ok (three (str_less v1 v2) (String.eqb v1 v2))
  | _, _ => Panic
  end.

(** ** Rows and results *)
Inductive rowKind := TextRow | BinaryRow | OtherRow.

(** A row is what [Decode] returns for it: pointers to values, nil for a NULL
    of the binary protocol.  A text row holds every column but dates as a byte
    slice. *)
Record Row := mkRow { kind : rowKind; decoded : res (list (option dvalue)) }.

Record ResultWithErr := mkResult {
  Database : string; Fields : list string; Rows : list Row; Warning : Z }.

(** A decoding error ends in [log.Panic] or [log.Fatal]. *)
Definition Decode (r : Row) : res (list (option dvalue)) :=
  match decoded r with Ok vs => Ok vs | _ => Panic end.

(** [warning += rlt.Warning] on uint16. *)
Definition sumWarnings (results : list ResultWithErr) : Z :=
  fold_left (fun w r => (w + Warning r) mod 65536) results 0.

(** [results[0].Result.Fields]. *)
Definition firstFields (results : list ResultWithErr) : res (list string) :=
  match results with [] => Panic | r :: _ => Ok (Fields r) end.

Definition merged : Type := (list string * list Row) * Z.

Definition out_of_fuel : string := "fuel".

(** ** Merging in turn *)
Record cursor := mkCursor { rest : list Row; endResult : bool }.

Definition cursors (results : list ResultWithErr) : list cursor :=
  (fun r => mkCursor (Rows r) false) <$> results.

(** One turn over the results. *)
Fixpoint turn (cs : list cursor) (rows : list Row) : res (list cursor * list Row) :=
  match cs with
  | [] => Ok ([], rows)
  | c :: cs' =>
    if endResult c then '(l, rows) ← turn cs' rows; Ok (c :: l, rows)
    else
      match rest c with
      | [] => '(l, rows) ← turn cs' rows; Ok (mkCursor [] true :: l, rows)
      | row :: rest' =>
        _ ← Decode row;
        '(l, rows) ← turn cs' (rows ++ [row]);
        Ok (mkCursor rest' false :: l, rows)
      end
  end.

Fixpoint turns (fuel : nat) (cs : list cursor) (rows : list Row) : res (list Row) :=
  match fuel with
  | O => Err out_of_fuel
  | S f =>
    '(cs, rows) ← turn cs rows;
    if forallb endResult cs then Ok rows else turns f cs rows
  end.

(** The turns end: each reads a row or ends a result. *)
Definition turnFuel (results : list ResultWithErr) : nat :=
  S (length results + length (concat (Rows <$> results))).

Definition mergeResultWithoutOrderByAndLimit (results : list ResultWithErr) : res merged :=
  rows ← turns (turnFuel results) (cursors results) [];
  fields ← firstFields results;
  Ok ((fields, rows), sumWarnings results).

Record Limit := mkLimit { Offset : Z; Count : Z }.

(** The same turn with LIMIT: the inner loop breaks once [Count] rows are
    taken, having skipped one more. *)
Fixpoint turnLimit (limit : Limit) (cs : list cursor) (rowCount : Z) (rows : list Row)
  : res (list cursor * Z * list Row) :=
  match cs with
  | [] => Ok ([], rowCount, rows)
  | c :: cs' =>
    if endResult c then '(l, n, rows) ← turnLimit limit cs' rowCount rows; Ok (c :: l, n, rows)
    else
      match rest c with
      | [] => '(l, n, rows) ← turnLimit limit cs' rowCount rows; Ok (mkCursor [] true :: l, n, rows)
      | row :: rest' =>
        let rowCount := rowCount + 1 in
        let next := mkCursor rest' false in
        if rowCount >? Offset limit then
          if len rows =? Count limit then Ok (next :: cs', rowCount, rows)
          else
            _ ← Decode row;
            '(l, n, rows) ← turnLimit limit cs' rowCount (rows ++ [row]);
            Ok (next :: l, n, rows)
        else '(l, n, rows) ← turnLimit limit cs' rowCount rows; Ok (next :: l, n, rows)
      end
  end.

Fixpoint turnsLimit (fuel : nat) (limit : Limit) (cs : list cursor) (rowCount : Z) (rows : list Row)
  : res (list Row) :=
  match fuel with
  | O => Err out_of_fuel
  | S f =>
    '(cs, rowCount, rows) ← turnLimit limit cs rowCount rows;
    if forallb endResult cs then Ok rows else turnsLimit f limit cs rowCount rows
  end.

Definition mergeResultWithLimit (results : list ResultWithErr) (limit : Limit) : res merged :=
  rows ← turnsLimit (turnFuel results) limit (cursors results) 0 [];
  fields ← firstFields results;
  Ok ((fields, rows), sumWarnings results).

(** ** Merging by ORDER BY *)
Record OrderField := mkOrder { asc : bool; fieldValueIndex : nat; ovalue : dvalue }.

Record OrderByCell := mkCell { orderField : list OrderField; next : bool; cellRow : Row }.

(** [OrderByCells.Less]; the second cell's fields are indexed by the first's. *)
Fixpoint Less (fs gs : list OrderField) : res bool :=
  match fs, gs with
  | [], _ => Ok false
  | f :: fs', g :: gs' =>
    res ← (if asc f then compare (ovalue g) (ovalue f) else compare (ovalue f) (ovalue g));
    if negb (res =? 0) then Ok (res >? 0) else Less fs' gs'
  | _ :: _, [] => Panic
  end.

(** [sort.Sort] on a comparison that may panic: when no pair of elements
    panics and the comparison is a strict weak order, the result is an ordered
    permutation; elements that compare equal may be swapped. *)
Class UnstableSort := {
  usort : forall {A}, (A -> A -> res bool) -> list A -> res (list A);
  usort_ok : forall A (less : A -> A -> res bool) (lt : A -> A -> bool) l,
    (forall x y, In x l -> In y l -> less x y = Ok (lt x y)) ->
    (forall x y, In x l -> In y l -> lt x y = true -> lt y x = false) ->
    (forall x y z, In x l -> In y l -> In z l -> lt y x = false -> lt z y = false -> lt z x = false) ->
    exists l', usort less l = Ok l' /\ Permutation l' l /\ StronglySorted (fun x y => lt y x = false) l' }.

Record source := mkSource { cell : option OrderByCell; ended : bool; left : list Row }.

Definition sources (results : list ResultWithErr) : list source :=
  (fun r => mkSource None false (Rows r)) <$> results.

(** [getOrderByFieldIndex]: the first field of that name, or field 0. *)
Fixpoint fieldIndexFrom (i : nat) (orderByField : string) (fields : list string) : nat :=
  match fields with
  | [] => 0
  | f :: fields' => if EqualFold orderByField f then i else fieldIndexFrom (S i) orderByField fields'
  end.
Definition getOrderByFieldIndex := fieldIndexFrom 0.

(** An ORDER BY item is the text of its expression and its direction. *)
Definition castOrderByItemsToOrderField (orderBy : list (string * bool)) (fields : list string)
  : list OrderField :=
  (fun '(text, desc) => mkOrder (negb desc) (getOrderByFieldIndex text fields) DNil) <$> orderBy.

(** [values[i].Val], out of range or through a nil pointer a panic. *)
Definition valueAt (values : list (option dvalue)) (i : nat) : res dvalue :=
  match values !! i with Some (Some v) => Ok v | _ => Panic end.

Definition fill (orderByFields : list OrderField) (values : list (option dvalue)) : res (list OrderField) :=
  mapM_res (fun f => v ← valueAt values (fieldValueIndex f);
                     Ok (mkOrder (asc f) (fieldValueIndex f) v)) orderByFields.

(** The body of the loop over the results. *)
Definition refill (orderByFields : list OrderField) (s : source) : res source :=
  let wanted := match cell s with None => true | Some c => next c end in
  if wanted && negb (ended s) then
    match left s with
    | [] => Ok (mkSource (cell s) true [])
    | row :: left' =>
      values ← Decode row;
      orderFields ← fill orderByFields values;
      Ok (mkSource (Some (mkCell orderFields false row)) false left')
    end
  else Ok s.

(** [for _, cell := range cells { if !cell.next { ... } }], with the number of
    each cell kept; a nil cell is dereferenced. *)
Fixpoint liveFrom (i : nat) (ss : list source) : res (list (nat * OrderByCell)) :=
  match ss with
  | [] => Ok []
  | s :: ss' =>
    c ← Prelude.from_option Panic (cell s);
    l ← liveFrom (S i) ss';
    Ok (if next c then l else (i, c) :: l)
  end.
Definition liveCells := liveFrom 0.

Definition countOrderByCells (ss : list source) : res nat := length <$> liveCells ss.

Definition setNext (s : source) : source :=
  mkSource ((fun c => mkCell (orderField c) true (cellRow c)) <$> cell s) (ended s) (left s).

Section orderBy.
Context `{UnstableSort}.

Definition compareOrderByCells (ss : list source) : res (list source * Row) :=
  cellSlice ← liveCells ss;
  sorted ← usort (fun a b => Less (orderField (snd a)) (orderField (snd b))) cellSlice;
  match sorted with
  | [] => Panic
  | (i, c) :: _ => Ok (alter setNext i ss, cellRow c)
  end.

Fixpoint orderLoop (fuel : nat) (orderByFields : list OrderField) (ss : list source) (rows : list Row)
  : res (list source * list Row) :=
  match fuel with
  | O => Err out_of_fuel
  | S f =>
    ss ← mapM_res (refill orderByFields) ss;
    if forallb ended ss then Ok (ss, rows)
    else
      '(ss, row) ← compareOrderByCells ss;
      orderLoop f orderByFields ss (rows ++ [row])
  end.

(** The loop over the cells left. *)
Fixpoint drain (fuel : nat) (ss : list source) (rows : list Row) : res (list Row) :=
  match fuel with
  | O => Err out_of_fuel
  | S f =>
    count ← countOrderByCells ss;
    if bool_decide (count = 0)%nat then Ok rows
    else
      '(ss, row) ← compareOrderByCells ss;
      drain f ss (rows ++ [row])
  end.

Definition orderFuel (results : list ResultWithErr) : nat := S (length (concat (Rows <$> results))).

Definition mergeResultWithOrderBy (results : list ResultWithErr) (orderBy : list (string * bool))
  : res merged :=
  fields ← firstFields results;
  let orderByFields := castOrderByItemsToOrderField orderBy fields in
  '(ss, rows) ← orderLoop (orderFuel results) orderByFields (sources results) [];
  rows ← drain (S (length results)) ss rows;
  Ok ((fields, rows), sumWarnings results).

(** The loop with LIMIT also stops once it holds [Count] rows. *)
Fixpoint orderLoopLimit (fuel : nat) (orderByFields : list OrderField) (limit : Limit)
    (ss : list source) (rowCount : Z) (rows : list Row) : res (list source * list Row) :=
  match fuel with
  | O => Err out_of_fuel
  | S f =>
    ss ← mapM_res (refill orderByFields) ss;
    if forallb ended ss then Ok (ss, rows)
    else
      '(ss, row) ← compareOrderByCells ss;
      let rowCount := rowCount + 1 in
      if rowCount >? Offset limit then
        let rows := rows ++ [row] in
        if len rows =? Count limit then Ok (ss, rows)
        else orderLoopLimit f orderByFields limit ss rowCount rows
      else orderLoopLimit f orderByFields limit ss rowCount rows
  end.

Definition mergeResultWithOrderByAndLimit (results : list ResultWithErr) (orderBy : list (string * bool))
    (limit : Limit) : res merged :=
  fields ← firstFields results;
  let orderByFields := castOrderByItemsToOrderField orderBy fields in
  '(ss, rows) ← orderLoopLimit (orderFuel results) orderByFields limit (sources results) 0 [];
  rows ← (if len rows =? Count limit then Ok rows else drain (S (length results)) ss rows);
  Ok ((fields, rows), sumWarnings results).

Definition mergeResult (results : list ResultWithErr) (orderBy : option (list (string * bool)))
    (limit : option Limit) : res merged :=
  match orderBy, limit with
  | None, None => mergeResultWithoutOrderByAndLimit results
  | Some o, Some l => mergeResultWithOrderByAndLimit results o l
  | Some o, None => mergeResultWithOrderBy results o
  | None, Some l => mergeResultWithLimit results l
  end.
End orderBy.

(** ** Aggregation *)
Inductive aggFunc := AggFuncCount | AggOther.

(** [fmt.Sprintf("%s", v)] is the bytes of a slice or string and no number for
    other values. *)
Definition castCountCellToInt64 (r : Row) : res Z :=
  values ← Decode r;
  match kind r with
  | TextRow =>
    v ← valueAt values 0;
    match v with
    | DBytes s | DString s => ParseInt_err s
    | _ => Err errSyntax
    end
  | BinaryRow =>
    v ← valueAt values 0;
    match v with
    | DInt64 z => Ok z
    | _ => Err "count column value must be of type int64"
    end
  | OtherRow => Err "unsupported row type"
  end.

(** The value of a text row is built in a nil slice. *)
Definition writeCountToRow (r : Row) (count : Z) : res Row :=
  values ← Decode r;
  match kind r with
  | TextRow =>
    '(out, _) ← WriteUint64 [] 0 (u64 count);
    _ ← valueAt values 0;
    Ok (mkRow TextRow (Ok (<[0%nat := Some (DBytes (of_list (ascii_of_Z <$> out)))]> values)))
  | BinaryRow =>
    _ ← valueAt values 0;
    Ok (mkRow BinaryRow (Ok (<[0%nat := Some (DInt64 count)]> values)))
  | OtherRow => Err "unsupported row type"
  end.

Fixpoint sumCounts (rows : list Row) (count : Z) : res Z :=
  match rows with
  | [] => Ok count
  | r :: rows' => val ← castCountCellToInt64 r; sumCounts rows' (i64 (count + val))
  end.

(** [aggregateResult] on the aggregate functions of the select list: errors
    leave the rows as they are. *)
Definition aggregateResult (funcColumnList : list aggFunc) (rows : list Row) : res (list Row) :=
  match funcColumnList with
  | AggFuncCount :: _ =>
    match sumCounts rows 0 with
    | Panic => Panic
    | Err _ => Ok rows
    | Ok count =>
      match rows with
      | [] => Panic
      | r0 :: _ =>
        match writeCountToRow r0 count with
        | Panic => Panic
        | Err _ => Ok rows
        | Ok r0' => Ok [r0']
        end
      end
    end
  | _ => Ok rows
  end.

(** ** Merging in turn: lemmas *)
Definition decodable (r : Row) : Prop := exists vs, decoded r = Ok vs.

Lemma Decode_ok r : decodable r -> exists vs, Decode r = Ok vs.
Proof. intros [vs E]. exists vs. unfold Decode. by rewrite E. Qed.

Definition step1 (c : cursor) : list Row * cursor :=
  if endResult c then ([], c)
  else match rest c with [] => ([], mkCursor [] true) | r :: l => ([r], mkCursor l false) end.

(** The rows one turn reads, and the cursors after it. *)
Definition heads (cs : list cursor) : list Row := concat (fst ∘ step1 <$> cs).
Definition tails (cs : list cursor) : list cursor := snd ∘ step1 <$> cs.

Definition remaining (cs : list cursor) : list Row := concat (rest <$> cs).
Definition cursor_ok (c : cursor) : Prop := (endResult c = true -> rest c = []) /\ Forall decodable (rest c).
Definition weight (c : cursor) : nat := length (rest c) + (if endResult c then 0 else 1).
Definition weights (cs : list cursor) : nat := sum_list (weight <$> cs).

Lemma step1_ok c : cursor_ok c -> cursor_ok (snd (step1 c)).
Proof.
  intros Hc. unfold step1. destruct (endResult c) eqn:E; [done|]. destruct Hc as [_ Hd].
  destruct (rest c) as [|r l]; split; cbn; try done. by inversion Hd.
Qed.

Lemma step1_rows c : fst (step1 c) ++ rest (snd (step1 c)) = rest c.
Proof.
  unfold step1. destruct (endResult c) eqn:E; [done|]. by destruct (rest c).
Qed.

Lemma step1_weight c :
  weight (snd (step1 c)) = (weight c - (if endResult c then 0 else 1))%nat.
Proof.
  unfold step1, weight. destruct (endResult c) eqn:E; [cbn; rewrite E; lia|].
  destruct (rest c); cbn; lia.
Qed.

Lemma tails_ok cs : Forall cursor_ok cs -> Forall cursor_ok (tails cs).
Proof. intros H. apply Forall_fmap. eapply Forall_impl; [exact H|]. intros c Hc. by apply step1_ok. Qed.

Lemma heads_tails cs : Permutation (heads cs ++ remaining (tails cs)) (remaining cs).
Proof.
  induction cs as [|c cs IH]; [done|].
  change (heads (c :: cs)) with (fst (step1 c) ++ heads cs).
  change (remaining (tails (c :: cs))) with (rest (snd (step1 c)) ++ remaining (tails cs)).
  change (remaining (c :: cs)) with (rest c ++ remaining cs).
  rewrite <- (step1_rows c), <- IH, <- !app_assoc. apply Permutation_app_head.
  rewrite !app_assoc. apply Permutation_app_tail, Permutation_app_comm.
Qed.

Lemma weights_tails cs :
  (weights (tails cs) <= weights cs)%nat /\
  (forallb endResult cs = false -> (weights (tails cs) < weights cs)%nat).
Proof.
  induction cs as [|c cs [IH1 IH2]]; [done|]. unfold weights, tails in *. cbn.
  pose proof (step1_weight c) as Hw. unfold compose in *. rewrite Hw.
  destruct (endResult c) eqn:E; cbn.
  - split; [lia|]. intros H%IH2. lia.
  - assert (1 <= weight c)%nat by (unfold weight; rewrite E; lia). split; lia.
Qed.

Lemma tails_ended cs : forallb endResult cs = true -> tails cs = cs.
Proof.
  unfold tails. induction cs as [|c cs IH]; [done|]. cbn. intros [Hc Hcs]%andb_prop.
  unfold step1 at 1. rewrite Hc. cbn. f_equal. auto.
Qed.

Lemma weights_progress cs : forallb endResult (tails cs) = false -> (weights (tails cs) < weights cs)%nat.
Proof.
  intros E. apply weights_tails. destruct (forallb endResult cs) eqn:E'; [|done].
  rewrite tails_ended in E by done. congruence.
Qed.

Lemma ended_remaining cs : Forall cursor_ok cs -> forallb endResult cs = true -> remaining cs = [].
Proof.
  unfold remaining. induction 1 as [|c cs [He _] _ IH]; [done|]. cbn. intros [Hc Hcs]%andb_prop.
  by rewrite (He Hc), IH.
Qed.

Lemma turn_spec cs rows : Forall cursor_ok cs -> turn cs rows = Ok (tails cs, rows ++ heads cs).
Proof.
  intros Hok. revert rows. induction Hok as [|c cs [He Hd] _ IH]; intros rows; [cbn; by rewrite app_nil_r|].
  cbn [turn]. unfold heads, tails, step1 in *. cbn. destruct (endResult c) eqn:E.
  - rewrite IH. done.
  - destruct (rest c) as [|r l] eqn:Er; [by rewrite IH|].
    destruct (Decode_ok r) as [vs ->]; [by inversion Hd|]. cbn. rewrite IH. cbn. by rewrite <- app_assoc.
Qed.

(** All rows in the order the turns read them. *)
Fixpoint inTurn (fuel : nat) (cs : list cursor) : list Row :=
  match fuel with
  | O => []
  | S f => heads cs ++ (if forallb endResult (tails cs) then [] else inTurn f (tails cs))
  end.

Lemma turns_spec fuel cs rows :
  Forall cursor_ok cs -> (weights cs < fuel)%nat -> turns fuel cs rows = Ok (rows ++ inTurn fuel cs).
Proof.
  revert cs rows. induction fuel as [|f IH]; intros cs rows Hok Hf; [lia|].
  cbn [turns inTurn]. rewrite turn_spec by done. cbn [mbind res_bind].
  destruct (forallb endResult (tails cs)) eqn:E; [by rewrite app_nil_r|].
  rewrite IH; [by rewrite <- app_assoc | by apply tails_ok|].
  pose proof (weights_progress cs E). lia.
Qed.

Lemma inTurn_perm fuel cs :
  Forall cursor_ok cs -> (weights cs < fuel)%nat -> Permutation (inTurn fuel cs) (remaining cs).
Proof.
  revert cs. induction fuel as [|f IH]; intros cs Hok Hf; [lia|]. cbn [inTurn].
  rewrite <- (heads_tails cs). apply Permutation_app_head.
  destruct (forallb endResult (tails cs)) eqn:E.
  - by rewrite ended_remaining by (done || by apply tails_ok).
  - apply IH; [by apply tails_ok|]. pose proof (weights_progress cs E). lia.
Qed.

Section limit.
Context (limit : Limit) (offset_nonneg : 0 <= Offset limit) (count_nonneg : 0 <= Count limit).
Let o := Z.to_nat (Offset limit).
Let n := Z.to_nat (Count limit).

(** What the limit keeps of the rows read. *)
Definition window (seen : list Row) : list Row := take n (drop o seen).

Lemma window_full seen ext : length (window seen) = n -> window (seen ++ ext) = window seen.
Proof.
  unfold window. intros Hl. rewrite length_take in Hl.
  destruct (decide (length seen <= o)%nat) as [Hs|Hs].
  - rewrite length_drop in Hl. assert (n = 0)%nat as -> by lia. by rewrite !take_0.
  - rewrite drop_app_le by lia. rewrite take_app_le; [done | lia].
Qed.

Lemma window_short seen r :
  length (window seen) <> n -> (o < length (seen ++ [r]))%nat -> window (seen ++ [r]) = window seen ++ [r].
Proof.
  unfold window. rewrite length_app, length_take, length_drop. cbn. intros Hl Ho.
  rewrite drop_app_le by lia. rewrite take_app_ge; [|rewrite length_drop; lia].
  rewrite (take_ge (drop o seen)) by (rewrite length_drop; lia). f_equal. by rewrite take_ge by (rewrite length_drop; cbn; lia).
Qed.

Lemma window_early seen r : (length (seen ++ [r]) <= o)%nat -> window (seen ++ [r]) = window seen.
Proof.
  unfold window. rewrite length_app. cbn. intros Ho. rewrite !drop_ge; [done | rewrite ?length_app; cbn; lia ..].
Qed.

(** Once the rows are complete, a turn only drops rows. *)
Lemma turnLimit_full cs rowCount rows :
  Forall cursor_ok cs -> len rows = Count limit -> Offset limit <= rowCount ->
  exists cs' rowCount', turnLimit limit cs rowCount rows = Ok (cs', rowCount', rows) /\
    Forall cursor_ok cs' /\ Offset limit <= rowCount' /\ (weights cs' <= weights cs)%nat /\
    (forallb endResult cs' = false -> (weights cs' < weights cs)%nat).
Proof.
  intros Hok Hl Ho. revert rowCount Ho. induction Hok as [|c cs Hc Hcs IH]; intros rowCount Ho.
  - exists [], rowCount. split_and!; [done | constructor | done | done | done].
  - cbn [turnLimit]. destruct (endResult c) eqn:E.
    + destruct (IH rowCount Ho) as (cs' & rc & -> & ? & ? & ? & Hlt). exists (c :: cs'), rc.
      unfold weights in *. cbn. rewrite E. split_and!; [done | by constructor | done | lia | intros H'%Hlt; lia].
    + assert (Hw : weight c = S (length (rest c))) by (unfold weight; rewrite E; lia).
      destruct Hc as [_ Hd]. destruct (rest c) as [|r l] eqn:Er.
      * destruct (IH rowCount Ho) as (cs' & rc & -> & ? & ? & ? & _). exists (mkCursor [] true :: cs'), rc.
        unfold weights in *. cbn in *. split_and!; [done | by repeat constructor | done | lia | lia].
      * destruct (Z.gtb_spec (rowCount + 1) (Offset limit)); [|lia]. rewrite Hl, Z.eqb_refl.
        exists (mkCursor l false :: cs), (rowCount + 1). unfold weights. cbn in *.
        inversion Hd; subst. split_and!; [done | constructor; [by split | done] | lia | lia | lia].
Qed.

(** The side conditions of a turn that has moved a cursor. *)
Ltac limit_close :=
  unfold weights in *; cbn in *;
  split_and!; [done | lia | repeat (constructor; [split; done|]); done | lia | lia].

Lemma turnLimit_spec cs seen :
  Forall cursor_ok cs ->
  exists cs' rowCount, turnLimit limit cs (len seen) (window seen)
      = Ok (cs', rowCount, window (seen ++ heads cs)) /\
    (cs' = tails cs /\ rowCount = len (seen ++ heads cs) \/
     len (window (seen ++ heads cs)) = Count limit /\ Offset limit <= rowCount /\
     Forall cursor_ok cs' /\ (weights cs' <= weights cs)%nat /\
     (forallb endResult cs' = false -> (weights cs' < weights cs)%nat)).
Proof.
  intros Hok. revert seen. induction Hok as [|c cs Hc Hcs IH]; intros seen.
  { exists [], (len seen). unfold heads. cbn. rewrite app_nil_r. split; [done | by left]. }
  change (heads (c :: cs)) with (fst (step1 c) ++ heads cs).
  change (tails (c :: cs)) with (snd (step1 c) :: tails cs).
  cbn [turnLimit]. unfold step1. destruct (endResult c) eqn:E.
  - destruct (IH seen) as (cs' & rc & -> & Hm). exists (c :: cs'), rc. split; [done|].
    destruct Hm as [[-> ->]|(? & ? & ? & ? & Hlt)]; [by left | right].
    unfold weights in *. cbn. rewrite E. split_and!; [done | done | by constructor | lia | intros H'%Hlt; lia].
  - assert (Hw : weight c = S (length (rest c))) by (unfold weight; rewrite E; lia).
    destruct Hc as [_ Hd]. destruct (rest c) as [|r l] eqn:Er.
    + destruct (IH seen) as (cs' & rc & -> & Hm). exists (mkCursor [] true :: cs'), rc. split; [done|].
      destruct Hm as [[-> ->]|(? & ? & ? & ? & Hlt)]; [by left | right].
      limit_close.
    + inversion Hd as [|? ? Hr Hd']; subst. cbn [fst snd].
      replace (seen ++ [r] ++ heads cs) with ((seen ++ [r]) ++ heads cs) by (by rewrite <- app_assoc).
      assert (Hn1 : len seen + 1 = len (seen ++ [r])) by (unfold len; rewrite length_app; cbn; lia).
      destruct (Z.gtb_spec (len seen + 1) (Offset limit)) as [Hgt|Hle].
      * destruct (Z.eqb_spec (len (window seen)) (Count limit)) as [Hf|Hf].
        { assert (Hfull : length (window seen) = n) by (unfold n, len in *; lia).
          exists (mkCursor l false :: cs), (len seen + 1).
          rewrite <- app_assoc, window_full by done. split; [done|]. right.
          limit_close. }
        { destruct (Decode_ok r Hr) as [vs ->]. cbn [mbind res_bind].
          rewrite <- window_short; [|unfold n, len in *; lia | unfold o, len in *; lia]. rewrite Hn1.
          destruct (IH (seen ++ [r])) as (cs' & rc & -> & Hm). exists (mkCursor l false :: cs'), rc.
          split; [done|]. destruct Hm as [[-> ->]|(? & ? & ? & ? & _)]; [by left | right].
          limit_close. }
      * rewrite <- (window_early seen r), Hn1 by (unfold o, len in *; lia).
        destruct (IH (seen ++ [r])) as (cs' & rc & -> & Hm). exists (mkCursor l false :: cs'), rc.
        split; [done|]. destruct Hm as [[-> ->]|(? & ? & ? & ? & _)]; [by left | right].
        limit_close.
Qed.

Lemma turnsLimit_full fuel cs rowCount rows :
  Forall cursor_ok cs -> (weights cs < fuel)%nat -> len rows = Count limit -> Offset limit <= rowCount ->
  turnsLimit fuel limit cs rowCount rows = Ok rows.
Proof.
  revert cs rowCount. induction fuel as [|f IH]; intros cs rowCount Hok Hf Hl Ho; [lia|].
  cbn [turnsLimit]. destruct (turnLimit_full cs rowCount rows Hok Hl Ho) as (cs' & rc & -> & Hok' & Ho' & Hle & Hlt).
  cbn [mbind res_bind]. destruct (forallb endResult cs') eqn:E'; [done|].
  apply IH; [done | specialize (Hlt eq_refl); lia | done | done].
Qed.

Lemma turnsLimit_spec fuel cs seen :
  Forall cursor_ok cs -> (weights cs < fuel)%nat ->
  turnsLimit fuel limit cs (len seen) (window seen) = Ok (window (seen ++ inTurn fuel cs)).
Proof.
  revert cs seen. induction fuel as [|f IH]; intros cs seen Hok Hf; [lia|].
  cbn [turnsLimit inTurn]. destruct (turnLimit_spec cs seen Hok) as (cs' & rc & -> & Hm).
  cbn [mbind res_bind]. rewrite app_assoc. destruct Hm as [[-> ->]|(Hl & Ho & Hok' & Hle & Hlt)].
  - destruct (forallb endResult (tails cs)) eqn:E; [by rewrite app_nil_r|].
    rewrite IH; [done | by apply tails_ok|]. pose proof (weights_progress cs E). lia.
  - rewrite (window_full (seen ++ heads cs)) by (unfold n, len in *; lia).
    destruct (forallb endResult cs') eqn:E'; [done|].
    apply turnsLimit_full; [done | specialize (Hlt eq_refl); lia | done | done].
Qed.
End limit.

(** ** The order of values of one type, NULL first *)
Inductive tag := TInt64 | TUint64 | TFloat32 | TFloat64 | TString | TBytes | TTime.

Definition has_tag (t : tag) (v : dvalue) : Prop :=
  match t, v with
  | _, DNil => True
  | TInt64, DInt64 _ | TUint64, DUint64 _ | TString, DString _ | TBytes, DBytes _ | TTime, DTime _ => True
  | TFloat32, DFloat32 f | TFloat64, DFloat64 f => f <> NaN
  | _, _ => False
  end.

(** A three-way comparison that orders its elements. *)
Record ordering {A} (P : A -> Prop) (c : A -> A -> Z) : Prop := {
  ord_anti : forall a b, P a -> P b -> c b a = - c a b;
  ord_trans : forall a b d, P a -> P b -> P d -> c a b <= 0 -> c b d <= 0 -> c a d <= 0;
  ord_sign : forall a b, P a -> P b -> -1 <= c a b <= 1 }.

Lemma ordering_Z : ordering (fun _ => True) (fun a b => three (a <? b) (a =? b)).
Proof.
  split; [intros a b | intros a b d | intros a b]; intros *; unfold three;
    [destruct (Z.ltb_spec a b), (Z.ltb_spec b a), (Z.eqb_spec a b), (Z.eqb_spec b a)
    |destruct (Z.ltb_spec a b), (Z.ltb_spec b d), (Z.ltb_spec a d), (Z.eqb_spec a b), (Z.eqb_spec b d), (Z.eqb_spec a d)
    |destruct (a <? b), (a =? b)]; lia.
Qed.

Lemma three_string a b :
  three (str_less a b) (String.eqb a b) =
  match String.compare a b with Lt => -1 | Eq => 0 | Gt => 1 end.
Proof.
  unfold three, str_less. destruct (String.eqb_spec a b) as [->|Hne].
  - assert (String.compare b b = Eq) as -> by (pose proof (String.compare_antisym b b); by destruct (String.compare b b)). done.
  - destruct (String.compare a b) eqn:E; [|done..]. by apply String.compare_eq_iff in E.
Qed.

Lemma string_le_trans a b d :
  String.compare a b <> Gt -> String.compare b d <> Gt -> String.compare a d <> Gt.
Proof.
  revert b d. induction a as [|x a IH]; intros [|y b] [|z d]; cbn; try done.
  unfold Ascii.compare.
  destruct (N.compare_spec (N_of_ascii x) (N_of_ascii y)), (N.compare_spec (N_of_ascii y) (N_of_ascii z));
    try done; intros Hab Hbd.
  - replace (N_of_ascii x) with (N_of_ascii z) by congruence. rewrite N.compare_refl. eauto.
  - replace (N_of_ascii x) with (N_of_ascii y) by congruence.
    by destruct (N.compare_spec (N_of_ascii y) (N_of_ascii z)); [lia | | lia].
  - replace (N_of_ascii z) with (N_of_ascii y) by congruence.
    by destruct (N.compare_spec (N_of_ascii x) (N_of_ascii y)); [lia | | lia].
  - by destruct (N.compare_spec (N_of_ascii x) (N_of_ascii z)); [lia | | lia].
Qed.

Lemma ordering_string : ordering (fun _ => True) (fun a b => three (str_less a b) (String.eqb a b)).
Proof.
  split; intros.
  - rewrite !three_string, (String.compare_antisym b a). by destruct (String.compare a b).
  - rewrite !three_string in *. pose proof (string_le_trans a b d).
    destruct (String.compare a b), (String.compare b d), (String.compare a d); try lia; exfalso; naive_solver.
  - rewrite three_string. destruct (String.compare a b); lia.
Qed.

Lemma Qle_compare p q : Qcompare p q <> Gt <-> Qle p q.
Proof. apply Qle_alt. Qed.

Lemma three_float a b :
  a <> NaN -> b <> NaN ->
  three (flt_less a b) (flt_eq a b) =
  match a, b with
  | NegInf, NegInf | PosInf, PosInf => 0
  | NegInf, _ | _, PosInf => -1
  | _, NegInf | PosInf, _ => 1
  | Fin p, Fin q => match Qcompare p q with Lt => -1 | Eq => 0 | Gt => 1 end
  | _, _ => 0
  end.
Proof. destruct a, b; try done. intros _ _. cbn. by destruct (Qcompare q q0). Qed.

Lemma ordering_float : ordering (fun f => f <> NaN) (fun a b => three (flt_less a b) (flt_eq a b)).
Proof.
  split; intros.
  - rewrite !three_float by done. destruct a, b; try done.
    rewrite <- (Qcompare_antisym q q0). by destruct (Qcompare q q0).
  - rewrite !three_float in * by done. destruct a, b, d; try done; try lia.
    pose proof (Qle_trans q q0 q1) as Ht. rewrite <- !Qle_compare in Ht.
    destruct (Qcompare q q0), (Qcompare q0 q1), (Qcompare q q1); try lia; exfalso; naive_solver.
  - rewrite three_float by done. destruct a, b; try done; try lia. destruct (Qcompare q q0); lia.
Qed.

Definition cmp (a b : dvalue) : Z := match compare a b with Ok z => z | _ => 0 end.

Lemma compare_cmp t a b : has_tag t a -> has_tag t b -> compare a b = Ok (cmp a b).
Proof. destruct t, a; try done; destruct b; done. Qed.

Lemma ordering_cmp t : ordering (has_tag t) cmp.
Proof.
  pose proof ordering_Z as [Za Zt Zs]. pose proof ordering_string as [Sa St Ss].
  pose proof ordering_float as [Fa Ft Fs].
  split; unfold cmp.
  - intros a b Ha Hb. destruct t, a; try done; destruct b; try done; cbn in *; auto.
  - intros a b d Ha Hb Hd.
    destruct t, a; try done; destruct b; try done; destruct d; try done; cbn in *; try lia; eauto.
  - intros a b Ha Hb. destruct t, a; try done; destruct b; try done; cbn in *; try lia; auto.
Qed.

(** ** The order of ORDER BY keys *)
Definition dcmp (d : bool) (a b : dvalue) : Z := if d then cmp a b else cmp b a.

Lemma ordering_dcmp d t : ordering (has_tag t) (dcmp d).
Proof.
  destruct (ordering_cmp t) as [Ha Ht Hs]. destruct d; [by split|]. unfold dcmp.
  split; intros; [by apply Ha | by eapply (Ht d b a) | by apply Hs].
Qed.

Fixpoint lex (fs gs : list OrderField) : Z :=
  match fs, gs with
  | f :: fs', g :: gs' =>
    let c := dcmp (asc f) (ovalue f) (ovalue g) in if c =? 0 then lex fs' gs' else c
  | _, _ => 0
  end.

(** Keys of one shape: the direction and type of each ORDER BY column. *)
Definition typed (sh : list (bool * tag)) (fs : list OrderField) : Prop :=
  Forall2 (fun dt f => asc f = fst dt /\ has_tag (snd dt) (ovalue f)) sh fs.

Lemma typed_nil fs : typed [] fs -> fs = [].
Proof. by inversion 1. Qed.

Lemma typed_cons d t sh l :
  typed ((d, t) :: sh) l -> exists f fs, l = f :: fs /\ asc f = d /\ has_tag t (ovalue f) /\ typed sh fs.
Proof. unfold typed. intros (f & fs & [? ?] & ? & ->)%Forall2_cons_inv_l. eauto 10. Qed.

Lemma Less_lex sh fs gs : typed sh fs -> typed sh gs -> Less fs gs = Ok (lex fs gs <? 0).
Proof.
  revert fs gs. induction sh as [|[d t] sh IH]; intros fs gs Hf Hg.
  { by rewrite (typed_nil fs), (typed_nil gs). }
  apply typed_cons in Hf as (f & fs' & -> & Df & Tf & Hf). apply typed_cons in Hg as (g & gs' & -> & Dg & Tg & Hg).
  cbn [Less lex]. destruct (ordering_cmp t) as [Ha _ Hs]. unfold dcmp. rewrite Df.
  destruct d; (rewrite (compare_cmp t) by done); cbn [mbind res_bind];
    [rewrite (Ha (ovalue f) (ovalue g)) by done | rewrite (Ha (ovalue g) (ovalue f)) by done];
    match goal with |- context [- ?c =? 0] => destruct (Z.eqb_spec (- c) 0), (Z.eqb_spec c 0); try lia end;
    cbn [negb]; try by apply IH.
  all: f_equal; match goal with |- context [- ?c >? 0] => destruct (Z.gtb_spec (- c) 0), (Z.ltb_spec c 0) end; lia.
Qed.

Lemma ordering_lex sh : ordering (typed sh) lex.
Proof.
  induction sh as [|[d t] sh IH].
  { split; intros; repeat match goal with H : typed [] _ |- _ => apply typed_nil in H; subst end; cbn; lia. }
  destruct IH as [Ia It Is]. destruct (ordering_dcmp d t) as [Ha Ht Hs].
  split; [intros ? ? Hf Hg | intros ? ? ? Hf Hg Hh | intros ? ? Hf Hg];
    apply typed_cons in Hf as (f & fs & -> & Df & Tf & Hfs); apply typed_cons in Hg as (g & gs & -> & Dg & Tg & Hgs);
    cbn [lex]; rewrite ?Df, ?Dg.
  - rewrite (Ha _ _ Tf Tg). specialize (Ia _ _ Hfs Hgs).
    destruct (Z.eqb_spec (- dcmp d (ovalue f) (ovalue g)) 0), (Z.eqb_spec (dcmp d (ovalue f) (ovalue g)) 0); lia.
  - apply typed_cons in Hh as (h & hs & -> & Dh & Th & Hhs). specialize (It _ _ _ Hfs Hgs Hhs).
    pose proof (Ht _ _ _ Tf Tg Th) as T1. pose proof (Ht _ _ _ Tg Th Tf) as T2. pose proof (Ht _ _ _ Th Tf Tg) as T3.
    pose proof (Ha _ _ Tf Tg). pose proof (Ha _ _ Tg Th). pose proof (Ha _ _ Tf Th).
    destruct (Z.eqb_spec (dcmp d (ovalue f) (ovalue g)) 0), (Z.eqb_spec (dcmp d (ovalue g) (ovalue h)) 0),
      (Z.eqb_spec (dcmp d (ovalue f) (ovalue h)) 0); lia.
  - specialize (Is _ _ Hfs Hgs). pose proof (Hs _ _ Tf Tg).
    destruct (Z.eqb_spec (dcmp d (ovalue f) (ovalue g)) 0); lia.
Qed.

(** ** The merge loop *)
Section merge.
Context `{UnstableSort} (ofs : list OrderField) (sh : list (bool * tag)).

(** The ORDER BY key of a row, and rows whose key has the shape. *)
Definition keyOf (r : Row) : list OrderField :=
  match (vs ← Decode r; fill ofs vs) with Ok ks => ks | _ => [] end.
Definition row_typed (r : Row) : Prop :=
  exists vs, Decode r = Ok vs /\ fill ofs vs = Ok (keyOf r) /\ typed sh (keyOf r).
Definition rle (r1 r2 : Row) : Prop := lex (keyOf r1) (keyOf r2) <= 0.

Lemma rle_trans r1 r2 r3 : row_typed r1 -> row_typed r2 -> row_typed r3 -> rle r1 r2 -> rle r2 r3 -> rle r1 r3.
Proof. intros (? & _ & _ & ?) (? & _ & _ & ?) (? & _ & _ & ?). by apply (ord_trans _ _ (ordering_lex sh)). Qed.

(** The rows a source still has to deliver. *)
Definition pending (s : source) : list Row :=
  (match cell s with Some c => if next c then [] else [cellRow c] | None => [] end) ++ left s.

Record src_ok (s : source) : Prop := {
  src_typed : Forall row_typed (pending s);
  src_sorted : StronglySorted rle (pending s);
  src_fresh : cell s = None -> ended s = false /\ left s <> [];
  src_cell : forall c, cell s = Some c -> orderField c = keyOf (cellRow c);
  src_ended : ended s = true -> left s = [] /\ exists c, cell s = Some c /\ next c = true }.

(** After the refill: a live cell, or nothing left. *)
Definition ready (s : source) : Prop :=
  exists c, cell s = Some c /\ (if ended s then next c = true /\ left s = [] else next c = false).

Lemma refill_spec s :
  src_ok s -> exists s', refill ofs s = Ok s' /\ src_ok s' /\ ready s' /\ pending s' = pending s.
Proof.
  intros Hok. pose proof Hok as [Ht Hs Hf Hc He]. unfold refill, ready.
  assert (Hread : forall r l, pending s = r :: l -> left s = r :: l -> ended s = false ->
    exists s', (values ← Decode r; orderFields ← fill ofs values;
      Ok (mkSource (Some (mkCell orderFields false r)) false l)) = Ok s' /\ src_ok s' /\ ready s' /\
      pending s' = pending s).
  { intros r l Ep El Ee. rewrite Ep in Ht, Hs |- *.
    pose proof (Forall_inv Ht) as (vs & Ev & Ek & _). rewrite Ev. cbn [mbind res_bind]. rewrite Ek. cbn [mbind res_bind]. eexists; split; [done|].
    split; [|split; [by eexists | done]]. split; cbn; [done | done | done | intros c [= <-]; done | done]. }
  destruct (cell s) as [c|] eqn:Ec; [destruct (next c) eqn:En|]; [destruct (ended s) eqn:Ee| |]; cbn [andb negb].
  - destruct (He eq_refl) as (El & _). exists s. split_and!; [done | exact Hok | | done].
    exists c. rewrite Ee. by split.
  - unfold pending in *. rewrite Ec, En in *. cbn [app] in *.
    destruct (left s) as [|r l] eqn:El; [|by apply Hread].
    eexists; split; [done|]. split; [|split; [by exists c | cbn; by rewrite En]].
    split; cbn; rewrite ?En; try done. intros _. split; [done | by exists c].
  - exists s. split_and!; [done | exact Hok | | done]. exists c. split; [done|].
    destruct (ended s) eqn:Ee; [|done]. destruct (He eq_refl) as (_ & c' & [= <-] & E). congruence.
  - destruct (Hf eq_refl) as [Ee Hne]. rewrite Ee. cbn [negb].
    unfold pending in *. rewrite Ec in *. cbn [app] in *. destruct (left s) as [|r l] eqn:El; [done|].
    by apply Hread.
Qed.

Lemma refills_spec ss :
  Forall src_ok ss -> exists ss', mapM_res (refill ofs) ss = Ok ss' /\ Forall src_ok ss' /\ Forall ready ss' /\
    pending <$> ss' = pending <$> ss.
Proof.
  induction 1 as [|s ss Hs _ (ss' & E & Hok & Hr & Hp)]; [exists []; by repeat constructor|].
  destruct (refill_spec s Hs) as (s' & Es & Hok' & Hr' & Hp'). exists (s' :: ss'). cbn. rewrite Es. cbn. rewrite E.
  split_and!; [done | by constructor | by constructor | cbn; by rewrite Hp', Hp].
Qed.

Lemma liveFrom_spec i ss :
  Forall ready ss ->
  exists l, liveFrom i ss = Ok l /\
    (forall j c, In (j, c) l -> exists k s, j = (i + k)%nat /\ ss !! k = Some s /\ cell s = Some c /\ next c = false) /\
    (forall k s, ss !! k = Some s -> ended s = false ->
       exists c, cell s = Some c /\ next c = false /\ In ((i + k)%nat, c) l).
Proof.
  intros Hr. revert i. induction Hr as [|s ss (c & Ec & Hc) _ IH]; intros i.
  { exists []. split_and!; [done | done | intros k s [=]]. }
  destruct (IH (S i)) as (l & E & Hin & Hall). cbn [liveFrom]. rewrite Ec. cbn. rewrite E. cbn.
  eexists; split; [done|]. split.
  - intros j c' Hj. assert (Hor : (j, c') = (i, c) /\ next c = false \/ In (j, c') l).
    { destruct (next c); [by right|]. destruct Hj as [?|?]; [by left | by right]. }
    destruct Hor as [[[= -> ->] En]|(k & s' & -> & Hk & ?)%Hin].
    + exists 0%nat, s. by rewrite Nat.add_0_r.
    + exists (S k), s'. split; [lia | done].
  - intros [|k] s' Hk He.
    + injection Hk as <-. rewrite He in Hc. exists c. rewrite Nat.add_0_r, Hc. cbn. auto.
    + destruct (Hall k s' Hk He) as (c' & ? & ? & ?). exists c'. replace (i + S k)%nat with (S i + k)%nat by lia.
      split_and!; [done | done|]. destruct (next c); [done | by right].
Qed.

Definition allPending (ss : list source) : list Row := concat (pending <$> ss).

Lemma allPending_alter ss k s c :
  ss !! k = Some s -> cell s = Some c -> next c = false ->
  Permutation (allPending ss) (cellRow c :: allPending (alter setNext k ss)).
Proof.
  unfold allPending. revert k. induction ss as [|s' ss IH]; intros [|k] Hk Ec En; try done.
  - injection Hk as ->. cbn. unfold setNext, pending. rewrite Ec. cbn. by rewrite En.
  - cbn. rewrite (IH k Hk Ec En). symmetry. apply Permutation_middle.
Qed.

Lemma setNext_ok s c : src_ok s -> cell s = Some c -> next c = false -> src_ok (setNext s).
Proof.
  intros [Ht Hs Hf Hc He] Ec En. unfold setNext, pending in *. rewrite Ec, En in *. cbn in *.
  split; unfold pending; cbn.
  - by inversion Ht.
  - by inversion Hs.
  - done.
  - intros c' [= <-]. exact (Hc c eq_refl).
  - intros H'. destruct (He H') as (? & c' & [= <-] & ?). congruence.
Qed.

Lemma allPending_typed ss : Forall src_ok ss -> Forall row_typed (allPending ss).
Proof.
  unfold allPending. induction 1 as [|s ss Hs _ IH]; cbn; [constructor|].
  apply Forall_app. split; [apply Hs | exact IH].
Qed.

Lemma rle_refl r : row_typed r -> rle r r.
Proof. intros (? & _ & _ & T). unfold rle. pose proof (ord_anti _ _ (ordering_lex sh) _ _ T T). lia. Qed.

(** [sort.Sort] on the live cells puts a least one first. *)
Lemma sort_cells (l : list (nat * OrderByCell)) :
  (forall a, In a l -> typed sh (orderField (snd a))) ->
  exists l', usort (fun a b => Less (orderField (snd a)) (orderField (snd b))) l = Ok l' /\ Permutation l' l /\
    forall a b, head l' = Some a -> In b l -> lex (orderField (snd a)) (orderField (snd b)) <= 0.
Proof.
  intros Hty. destruct (ordering_lex sh) as [La Lt Ls].
  set (lt := fun a b : nat * OrderByCell => lex (orderField (snd a)) (orderField (snd b)) <? 0).
  destruct (usort_ok _ (fun a b => Less (orderField (snd a)) (orderField (snd b))) lt l) as (l' & E & Hp & Hsort).
  { intros a b Ha%Hty Hb%Hty. by apply (Less_lex sh). }
  { unfold lt. intros a b Ha%Hty Hb%Hty Hl. specialize (La _ _ Ha Hb). zbool. apply Z.ltb_ge. lia. }
  { unfold lt. intros a b c Ha%Hty Hb%Hty Hc%Hty H1 H2. apply Z.ltb_ge in H1, H2. apply Z.ltb_ge.
    pose proof (La _ _ Ha Hb). pose proof (La _ _ Hb Hc). pose proof (La _ _ Ha Hc).
    pose proof (Lt _ _ _ Ha Hb Hc). lia. }
  exists l'. split_and!; [done | done|]. intros a b Ha Hb. destruct l' as [|x l']; [done|]. injection Ha as ->.
  assert (Ta : typed sh (orderField (snd a))) by (apply Hty, (Permutation_in a Hp); by left).
  pose proof (Hty b Hb) as Tb. apply (Permutation_in b (Permutation_sym Hp)) in Hb.
  pose proof (La _ _ Ta Tb). pose proof (La _ _ Ta Ta).
  destruct Hb as [->|Hb]; [lia|]. inversion Hsort as [|? ? _ Hfa]; subst. rewrite List.Forall_forall in Hfa.
  specialize (Hfa b Hb). unfold lt in Hfa. zbool. lia.
Qed.

(** Every row still to deliver is at or after the live cell of its source. *)
Lemma pending_after s r :
  src_ok s -> ready s -> In r (pending s) ->
  ended s = false /\ forall c, cell s = Some c -> next c = false -> row_typed (cellRow c) /\ rle (cellRow c) r.
Proof.
  intros [Ht Hs _ _ _] (c & Ec & Hc) Hr. unfold pending in *. rewrite Ec in *. destruct (ended s).
  { destruct Hc as [En El]. rewrite En, El in Hr. done. }
  split; [done|]. intros c' [= <-] En. rewrite En in *. cbn in *. split; [by inversion Ht|].
  destruct Hr as [<-|Hr]; [apply rle_refl; by inversion Ht|]. inversion Hs as [|? ? _ Hfa]; subst.
  rewrite List.Forall_forall in Hfa. by apply Hfa.
Qed.

(** The row taken is a least one of those still to deliver. *)
Lemma pick_spec ss :
  Forall src_ok ss -> Forall ready ss -> forallb ended ss = false ->
  exists ss' r, compareOrderByCells ss = Ok (ss', r) /\ Forall src_ok ss' /\
    Permutation (allPending ss) (r :: allPending ss') /\ Forall (rle r) (allPending ss).
Proof.
  intros Hok Hr Hne. unfold compareOrderByCells, liveCells.
  destruct (liveFrom_spec 0 ss Hr) as (l & -> & Hin & Hall). cbn [mbind res_bind].
  assert (Hty : forall a, In a l -> orderField (snd a) = keyOf (cellRow (snd a)) /\ row_typed (cellRow (snd a))).
  { intros [j c] (k & s & -> & Hk & Ec & En)%Hin. pose proof (Forall_lookup_1 _ _ _ _ Hok Hk) as [Ht _ _ Hc _].
    split; [by apply Hc|]. unfold pending in Ht. rewrite Ec, En in Ht. by apply Forall_inv in Ht. }
  destruct (sort_cells l) as (l' & -> & Hp & Hmin).
  { intros a Ha. destruct (Hty a Ha) as [-> (? & _ & _ & ?)]. done. }
  cbn [mbind res_bind]. destruct l' as [|[j c] l'].
  { exfalso. assert (Hex : existsb (negb ∘ ended) ss = true).
    { clear -Hne. induction ss as [|s ss IH]; [done|]. cbn in *. destruct (ended s); cbn in *; auto. }
    apply existsb_exists in Hex as (s & Hs & He). apply list_elem_of_In, list_elem_of_lookup in Hs as [k Hk].
    destruct (Hall k s Hk) as (c & _ & _ & Hc); [unfold compose in He; by destruct (ended s)|].
    apply Permutation_nil in Hp. by subst. }
  assert (Hjc : In (j, c) l) by (apply (Permutation_in _ Hp); by left).
  destruct (Hty _ Hjc) as [Hkc Htc]. destruct (Hin j c Hjc) as (k & s & -> & Hk & Ec & En). cbn [plus] in *.
  exists (alter setNext k ss), (cellRow c). split; [done|]. split_and!; [|by eapply allPending_alter|].
  - apply Forall_alter; [done|]. intros s' Hs' Hok'. rewrite Hk in Hs'. injection Hs' as <-. by eapply setNext_ok.
  - apply List.Forall_forall. intros r Hr'. pose proof (allPending_typed ss Hok) as Hall'.
    rewrite List.Forall_forall in Hall'. specialize (Hall' r Hr').
    apply in_concat in Hr' as (p & Hp' & Hrp). apply in_map_iff in Hp' as (s' & <- & Hs').
    apply list_elem_of_In, list_elem_of_lookup in Hs' as [k' Hk'].
    destruct (pending_after s' r) as [He Hafter];
      [by eapply Forall_lookup_1 in Hk' | by eapply Forall_lookup_1 in Hk' | done|].
    destruct (Hall k' s' Hk' He) as (c' & Ec' & En' & Hc'). destruct (Hafter c' Ec' En') as [Htc' Hle].
    apply (rle_trans _ (cellRow c')); [done | done | done | | done].
    specialize (Hmin _ _ eq_refl Hc'). destruct (Hty _ Hc') as [Hkc' _]. unfold rle. cbn in *. congruence.
Qed.

Definition drained (ss : list source) : Prop := Forall ready ss /\ forallb ended ss = true.

Lemma drained_live i ss : drained ss -> liveFrom i ss = Ok [].
Proof.
  intros [Hr He]. revert i. induction Hr as [|s ss (c & Ec & Hc) _ IH]; intros i; [done|].
  cbn in *. apply andb_prop in He as [Hs He]. rewrite Hs in Hc. destruct Hc as [En _].
  rewrite Ec. cbn. rewrite IH by done. cbn. by rewrite En.
Qed.

Lemma drain_drained f ss rows : drained ss -> drain (S f) ss rows = Ok rows.
Proof. intros Hd. cbn [drain]. unfold countOrderByCells, liveCells. by rewrite drained_live. Qed.

Lemma drained_pending ss : drained ss -> allPending ss = [].
Proof.
  unfold allPending. intros [Hr He]. induction Hr as [|s ss (c & Ec & Hc) _ IH]; [done|].
  cbn in *. apply andb_prop in He as [Hs He]. rewrite Hs in Hc. destruct Hc as [En El].
  unfold pending at 1. rewrite Ec, En, El, IH by done. done.
Qed.

(** The loop delivers all rows in order; with LIMIT it delivers the slice of
    the same rows. *)
Lemma order_spec limit fuel ss :
  0 <= Offset limit -> 0 < Count limit ->
  Forall src_ok ss -> (length (allPending ss) < fuel)%nat ->
  exists out ss1, (forall rows, orderLoop fuel ofs ss rows = Ok (ss1, rows ++ out)) /\ drained ss1 /\
    Permutation out (allPending ss) /\ StronglySorted rle out /\
    forall seen, len (window limit seen) < Count limit ->
      exists ss2, orderLoopLimit fuel ofs limit ss (len seen) (window limit seen)
          = Ok (ss2, window limit (seen ++ out)) /\
        (len (window limit (seen ++ out)) = Count limit \/ drained ss2).
Proof.
  intros Ho Hc. revert ss. induction fuel as [|f IH]; intros ss Hok Hf; [lia|].
  destruct (refills_spec ss Hok) as (ss1 & E & Hok1 & Hr1 & Hp1). cbn [orderLoop orderLoopLimit].
  rewrite E. cbn [mbind res_bind].
  assert (Hall : allPending ss1 = allPending ss) by (unfold allPending; by rewrite Hp1).
  destruct (forallb ended ss1) eqn:Ee.
  { assert (Hd : drained ss1) by done. exists [], ss1. rewrite <- Hall, drained_pending by done.
    split_and!; [intros rows; by rewrite app_nil_r | done | done | constructor|].
    intros seen _. exists ss1. rewrite app_nil_r. auto. }
  destruct (pick_spec ss1 Hok1 Hr1 Ee) as (ss2 & r & Epick & Hok2 & Hperm & Hmin). rewrite Hall in Hperm, Hmin.
  destruct (IH ss2) as (out & ss3 & El & Hd & Hpo & Hso & Hlim);
    [done | rewrite Hperm in Hf; cbn in Hf; lia|].
  exists (r :: out), ss3. rewrite Epick. cbn [mbind res_bind]. split_and!.
  - intros rows. rewrite El. by rewrite <- app_assoc.
  - done.
  - rewrite Hpo, Hperm. done.
  - constructor; [done|]. rewrite List.Forall_forall in Hmin |- *. intros x Hx. apply Hmin.
    rewrite Hperm. right. by rewrite <- Hpo.
  - intros seen Hseen. replace (seen ++ r :: out) with ((seen ++ [r]) ++ out) by (by rewrite <- app_assoc).
    assert (Hn1 : len seen + 1 = len (seen ++ [r])) by (unfold len; rewrite length_app; cbn; lia).
    destruct (Z.gtb_spec (len seen + 1) (Offset limit)) as [Hgt|Hle].
    + rewrite <- (window_short limit seen r) by (unfold len in *; lia).
      destruct (Z.eqb_spec (len (window limit (seen ++ [r]))) (Count limit)) as [Hfull|Hfull].
      * exists ss2. rewrite (window_full limit (seen ++ [r])) by (unfold len in *; lia). auto.
      * rewrite Hn1. apply Hlim. pose proof (length_take (drop (Z.to_nat (Offset limit)) (seen ++ [r])) (Z.to_nat (Count limit))).
        unfold window, len in *. lia.
    + rewrite Hn1, <- (window_early limit seen r) by (unfold len in *; lia). apply Hlim.
      rewrite window_early by (unfold len in *; lia). done.
Qed.
End merge.

(** ** An instance of the sort: insertion *)
Fixpoint insertR {A} (less : A -> A -> res bool) (x : A) (l : list A) : res (list A) :=
  match l with
  | [] => Ok [x]
  | y :: l' =>
    less x y ≫= fun b : bool =>
    if b then Ok (x :: l) else l'' ← insertR less x l'; Ok (y :: l'')
  end.

Fixpoint insertionSortR {A} (less : A -> A -> res bool) (l : list A) : res (list A) :=
  match l with
  | [] => Ok []
  | x :: l' => s ← insertionSortR less l'; insertR less x s
  end.

Lemma insertR_ok {A} (less : A -> A -> res bool) (lt : A -> A -> bool) x l :
  (forall y z, In y (x :: l) -> In z (x :: l) -> less y z = Ok (lt y z)) ->
  (forall y z, In y (x :: l) -> In z (x :: l) -> lt y z = true -> lt z y = false) ->
  (forall a b c, In a (x :: l) -> In b (x :: l) -> In c (x :: l) -> lt b a = false -> lt c b = false -> lt c a = false) ->
  StronglySorted (fun a b => lt b a = false) l ->
  exists l', insertR less x l = Ok l' /\ Permutation l' (x :: l) /\ StronglySorted (fun a b => lt b a = false) l'.
Proof.
  intros Hl Has Htr Hs. induction Hs as [|y l Hs IH Hfa]; [exists [x]; by repeat constructor|].
  cbn [insertR]. rewrite Hl by (cbn; tauto). cbn [mbind res_bind]. destruct (lt x y) eqn:E.
  - exists (x :: y :: l). split_and!; [done | done|]. constructor; [by constructor|].
    constructor; [apply Has; [by left | right; by left | done]|]. rewrite List.Forall_forall in Hfa |- *. intros z Hz.
    apply (Htr x y z); [by left | right; by left | right; by right | apply Has; [by left | right; by left | done] | by apply Hfa].
  - destruct IH as (l' & E' & Hp & Hs').
    { intros a b Ha Hb. apply Hl; cbn in *; tauto. }
    { intros a b Ha Hb. apply Has; cbn in *; tauto. }
    { intros a b c Ha Hb Hc. apply Htr; cbn in *; tauto. }
    rewrite E'. exists (y :: l'). split_and!; [done | rewrite Hp; constructor|]. constructor; [done|].
    rewrite Hp. by constructor.
Qed.

Lemma insertionSortR_ok A (less : A -> A -> res bool) (lt : A -> A -> bool) l :
  (forall x y, In x l -> In y l -> less x y = Ok (lt x y)) ->
  (forall x y, In x l -> In y l -> lt x y = true -> lt y x = false) ->
  (forall x y z, In x l -> In y l -> In z l -> lt y x = false -> lt z y = false -> lt z x = false) ->
  exists l', insertionSortR less l = Ok l' /\ Permutation l' l /\ StronglySorted (fun x y => lt y x = false) l'.
Proof.
  induction l as [|x l IH]; intros Hl Has Htr; [exists []; by repeat constructor|].
  destruct IH as (s & E & Hp & Hs).
  { intros a b Ha Hb. apply Hl; by right. }
  { intros a b Ha Hb. apply Has; by right. }
  { intros a b c Ha Hb Hc. apply Htr; by right. }
  assert (Hin : forall a, In a (x :: s) -> In a (x :: l)).
  { intros a [->|Ha]; [by left | right; by apply (Permutation_in a Hp)]. }
  cbn [insertionSortR]. rewrite E. cbn [mbind res_bind].
  destruct (insertR_ok less lt x s) as (l' & E' & Hp' & Hs'); [by eauto | by eauto | by eauto | done|].
  exists l'. split_and!; [done | by rewrite Hp', Hp | done].
Qed.

#[export] Instance insertion_UnstableSort : UnstableSort | 100 := {
  usort := @insertionSortR;
  usort_ok := insertionSortR_ok }.

(** ** Results fit to be merged *)
Section claims.
Context `{UnstableSort} (ofs : list OrderField) (sh : list (bool * tag)).

(** Rows of one shape in the order the database returned them. *)
Definition ordered (rows : list Row) : Prop :=
  rows <> [] /\ Forall (row_typed ofs sh) rows /\ StronglySorted (rle ofs) rows.

Lemma sources_ok results :
  Forall ordered (Rows <$> results) -> Forall (src_ok ofs sh) (sources results).
Proof.
  intros Hr. apply Forall_fmap. eapply Forall_impl; [exact (proj1 (Forall_fmap Rows _ results) Hr)|].
  intros r (Hne & Ht & Hs). by split.
Qed.

Lemma sources_pending results : allPending (sources results) = concat (Rows <$> results).
Proof. unfold allPending, sources. induction results as [|r l IH]; [done|]. cbn in *. by rewrite IH. Qed.

(** Both merges deliver one ordered list of all rows, the second a slice of
    it. *)
Lemma merge_both results orderBy fields limit :
  firstFields results = Ok fields -> castOrderByItemsToOrderField orderBy fields = ofs ->
  Forall ordered (Rows <$> results) -> 0 <= Offset limit -> 0 < Count limit ->
  exists rows, Permutation rows (concat (Rows <$> results)) /\ StronglySorted (rle ofs) rows /\
    mergeResultWithOrderBy results orderBy = Ok ((fields, rows), sumWarnings results) /\
    mergeResultWithOrderByAndLimit results orderBy limit =
      Ok ((fields, window limit rows), sumWarnings results).
Proof.
  intros Hf Ho Hr Hof Hc. pose proof (sources_ok results Hr) as Hok.
  destruct (order_spec ofs sh limit (orderFuel results) (sources results)) as (rows & ss & El & Hd & Hp & Hs & Hlim);
    [done | done | done | rewrite sources_pending; unfold orderFuel; lia|].
  rewrite sources_pending in Hp. exists rows. split_and!; [done | done| |].
  - unfold mergeResultWithOrderBy. rewrite Hf. cbn [mbind res_bind]. rewrite Ho, El. cbn [mbind res_bind app].
    by rewrite (drain_drained).
  - destruct (Hlim []) as (ss2 & E & Hfin); [unfold window; rewrite drop_nil, take_nil; unfold len; cbn; lia|].
    unfold mergeResultWithOrderByAndLimit. rewrite Hf. cbn [mbind res_bind]. rewrite Ho.
    change (len []) with 0 in E. replace (window limit []) with (@nil Row) in E
      by (unfold window; by rewrite drop_nil, take_nil).
    rewrite E. cbn [mbind res_bind app] in *.
    destruct (Z.eqb_spec (len (window limit rows)) (Count limit)); [done|].
    destruct Hfin as [?|Hd2]; [done|]. by rewrite drain_drained.
Qed.

Lemma sorted_exists l :
  Forall (row_typed ofs sh) l -> exists l', Permutation l' l /\ StronglySorted (rle ofs) l'.
Proof.
  intros Ht. rewrite List.Forall_forall in Ht. destruct (ordering_lex sh) as [La Lt Ls].
  assert (Hty : forall a, In a l -> typed sh (keyOf ofs a)) by (intros a (? & _ & _ & ?)%Ht; done).
  destruct (insertionSortR_ok _ (fun a b => Ok (lex (keyOf ofs a) (keyOf ofs b) <? 0))
    (fun a b => lex (keyOf ofs a) (keyOf ofs b) <? 0) l) as (l' & _ & Hp & Hs).
  { done. }
  { intros a b Ha%Hty Hb%Hty Hab. specialize (La _ _ Ha Hb). zbool. apply Z.ltb_ge. lia. }
  { intros a b c Ha%Hty Hb%Hty Hc%Hty H1 H2. apply Z.ltb_ge in H1, H2. apply Z.ltb_ge.
    pose proof (La _ _ Ha Hb). pose proof (La _ _ Hb Hc). pose proof (La _ _ Ha Hc).
    pose proof (Lt _ _ _ Ha Hb Hc). lia. }
  exists l'. split; [done|]. assert (Hin : forall a, In a l' -> typed sh (keyOf ofs a)).
  { intros a Ha. apply Hty. by apply (Permutation_in a Hp). }
  clear -Hs Hin La. induction Hs as [|a l' Hs IH Hfa]; constructor; [apply IH; intros; apply Hin; by right|].
  rewrite List.Forall_forall in Hfa |- *. intros b Hb. specialize (Hfa b Hb). cbn in Hfa. zbool.
  pose proof (La _ _ (Hin a (or_introl eq_refl)) (Hin b (or_intror Hb))). unfold rle. lia.
Qed.

Lemma rle_total r1 r2 : row_typed ofs sh r1 -> row_typed ofs sh r2 -> rle ofs r1 r2 \/ rle ofs r2 r1.
Proof.
  intros (? & _ & _ & T1) (? & _ & _ & T2). pose proof (ord_anti _ _ (ordering_lex sh) _ _ T1 T2). unfold rle. lia.
Qed.

(** The number of rows strictly before [x]. *)
Definition before (x : Row) (rows : list Row) : nat :=
  length (List.filter (fun z => 0 <? lex (keyOf ofs x) (keyOf ofs z)) rows).

Lemma before_perm x l l' : Permutation l l' -> before x l = before x l'.
Proof. unfold before. induction 1; cbn; repeat case_match; cbn; congruence. Qed.

Lemma before_app x l l' : before x (l ++ l') = (before x l + before x l')%nat.
Proof. unfold before. by rewrite List.filter_app, length_app. Qed.

Lemma before_none x l : Forall (rle ofs x) l -> before x l = 0%nat.
Proof.
  unfold before. induction 1 as [|y l Hy _ IH]; [done|]. cbn. unfold rle in Hy.
  by destruct (Z.ltb_spec 0 (lex (keyOf ofs x) (keyOf ofs y))); [lia|].
Qed.

Lemma before_all x l : (forall y, In y l -> ~ rle ofs x y) -> before x l = length l.
Proof.
  unfold before, rle. induction l as [|y l IH]; [done|]. intros Hl. cbn.
  destruct (Z.ltb_spec 0 (lex (keyOf ofs x) (keyOf ofs y))) as [|Hle].
  - cbn. f_equal. apply IH. intros; apply Hl. by right.
  - exfalso. by apply (Hl y (or_introl eq_refl)).
Qed.

(** Fewer than [k] rows come strictly before a row among the first [k] of an
    ordered list. *)
Lemma few_before rows k x :
  Forall (row_typed ofs sh) rows -> StronglySorted (rle ofs) rows -> In x (take k rows) ->
  (before x rows < k)%nat.
Proof.
  intros Ht Hs. revert k. induction Hs as [|y l Hs IH Hfa]; intros [|k] Hx; try done.
  inversion Ht as [|? ? Hty Htl]; subst. cbn [take] in Hx. destruct Hx as [->|Hx].
  - rewrite before_none; [lia|]. constructor; [by apply (rle_refl ofs sh) | done].
  - specialize (IH Htl k Hx). unfold before in *. cbn. case_match; cbn; lia.
Qed.

Lemma before_concat x l ls : In l ls -> (before x l <= before x (concat ls))%nat.
Proof.
  induction ls as [|l' ls IH]; [done|]. change (concat (l' :: ls)) with (l' ++ concat ls).
  rewrite before_app. intros [->|?%IH]; lia.
Qed.

Lemma In_take k (l : list Row) x : In x (take k l) -> In x l.
Proof. intros Hx. rewrite <- (take_drop k l). apply in_or_app. by left. Qed.

Lemma cut_typed k full rows x :
  Forall ordered full -> Permutation rows (concat (take k <$> full)) -> In x rows -> row_typed ofs sh x.
Proof.
  intros Hfull Hp Hx. apply (Permutation_in x Hp) in Hx. apply in_concat in Hx as (l' & Hl' & Hx).
  apply in_map_iff in Hl' as (l & <- & Hl). rewrite List.Forall_forall in Hfull.
  destruct (Hfull l Hl) as (_ & Ht & _). rewrite List.Forall_forall in Ht. by eapply Ht, In_take.
Qed.

(** A row cut off from one database's answer is not before any of the first
    [k] rows of the merged answers. *)
Lemma cut_after k full rows x y l :
  Forall ordered full -> In l full -> In y (drop k l) ->
  Permutation rows (concat (take k <$> full)) -> StronglySorted (rle ofs) rows ->
  In x (take k rows) -> rle ofs x y.
Proof.
  intros Hfull Hl Hy Hp Hs Hx.
  assert (Hty : Forall (row_typed ofs sh) rows) by (apply List.Forall_forall; intros; by eapply cut_typed).
  assert (Hxt : row_typed ofs sh x) by (eapply cut_typed; [done | done | by eapply In_take]).
  pose proof (few_before rows k x Hty Hs Hx) as Hfew. rewrite (before_perm _ _ _ Hp) in Hfew.
  pose proof (before_concat x (take k l) (take k <$> full)) as Hbl.
  rewrite List.Forall_forall in Hfull. destruct (Hfull l Hl) as (_ & Htl & Hsl).
  destruct (decide (lex (keyOf ofs x) (keyOf ofs y) <= 0)) as [?|Hno]; [done|]. exfalso.
  rewrite <- (take_drop k l) in Htl, Hsl. apply Forall_app in Htl as [Ht1 Ht2]. apply StronglySorted_app in Hsl as (Hz & _ & _).
  rewrite List.Forall_forall in Ht1, Ht2.
  rewrite (before_all x (take k l)) in Hbl.
  - rewrite length_take in Hbl. specialize (Hbl (in_map _ _ _ Hl)).
    assert (length (drop k l) <> 0)%nat by (destruct (drop k l); done). rewrite length_drop in *. lia.
  - intros z Hzl Hxz. apply Hno. apply (rle_trans ofs sh x z y); [done | by apply Ht1 | by apply Ht2 | done|].
    apply Hz; by apply list_elem_of_In.
Qed.

(** When the answers together are short, nothing was cut off. *)
Lemma cut_none k (full : list (list Row)) :
  (length (concat (take k <$> full)) < k)%nat -> concat (drop k <$> full) = [].
Proof.
  induction full as [|l full IH]; [done|]. cbn. rewrite length_app, length_take. intros Hk.
  rewrite drop_ge, IH by lia. done.
Qed.

(** The slice of the merged prefixes is the slice of all rows in order. *)
Lemma prefix_slice limit full rows :
  0 <= Offset limit -> 0 <= Count limit -> Forall ordered full ->
  let k := Z.to_nat (Offset limit + Count limit) in
  Permutation rows (concat (take k <$> full)) -> StronglySorted (rle ofs) rows ->
  exists all, Permutation all (concat full) /\ StronglySorted (rle ofs) all /\ window limit all = window limit rows.
Proof.
  intros Ho Hc Hfull k Hp Hs.
  assert (Hty : Forall (row_typed ofs sh) (concat full)).
  { apply List.Forall_forall. intros x (l & Hl & Hx)%in_concat. rewrite List.Forall_forall in Hfull.
    destruct (Hfull l Hl) as (_ & Ht & _). rewrite List.Forall_forall in Ht. auto. }
  assert (Hsplit : Permutation (concat full) (take k rows ++ (drop k rows ++ concat (drop k <$> full)))).
  { rewrite app_assoc, take_drop, Hp. clear. induction full as [|l full IH]; [done|]. cbn.
    rewrite <- (take_drop k l) at 1. rewrite IH, <- !app_assoc. apply Permutation_app_head.
    rewrite !app_assoc. apply Permutation_app_tail, Permutation_app_comm. }
  rewrite Hsplit in Hty. apply Forall_app in Hty as [_ Hty].
  destruct (sorted_exists _ Hty) as (rest' & Hpr & Hsr). exists (take k rows ++ rest').
  split_and!; [by rewrite Hsplit, Hpr| |].
  - apply StronglySorted_app. split_and!; [|rewrite <- (take_drop k rows) in Hs; by apply StronglySorted_app in Hs as (_ & ? & _)|done].
    intros x y Hx%list_elem_of_In Hy%list_elem_of_In. apply (Permutation_in y Hpr), in_app_or in Hy as [Hy|Hy].
    + rewrite <- (take_drop k rows) in Hs. apply StronglySorted_app in Hs as (Hxy & _ & _).
      apply Hxy; by apply list_elem_of_In.
    + apply in_concat in Hy as (l' & Hl' & Hy). apply in_map_iff in Hl' as (l & <- & Hl). by eapply cut_after.
  - unfold window. rewrite !take_drop_commute. f_equal.
    replace (Z.to_nat (Offset limit) + Z.to_nat (Count limit))%nat with k by lia.
    destruct (decide (k <= length rows)%nat) as [Hk|Hk].
    + rewrite take_app_le by (rewrite length_take; lia). by rewrite take_take, Nat.min_id.
    + assert (Hnil : rest' = []).
      { rewrite drop_ge, (cut_none k full) in Hpr by (rewrite <- ?Hp; lia). by apply Permutation_nil. }
      by rewrite Hnil, app_nil_r, take_take, Nat.min_id.
Qed.
End claims.

Lemma Decode_not_Err r e : Decode r <> Err e.
Proof. unfold Decode. by destruct (decoded r). Qed.

Lemma mapM_res_not_Err {A B} (f : A -> res B) l e : (forall x e', f x <> Err e') -> mapM_res f l <> Err e.
Proof.
  intros Hf. induction l as [|x l IH]; [done|]. cbn. destruct (f x) eqn:E; cbn; [|by apply Hf in E | done].
  destruct (mapM_res f l); [done | exact IH | done].
Qed.

Lemma refill_not_Err ofs s e : refill ofs s <> Err e.
Proof.
  unfold refill. destruct (_ && _); [|done]. destruct (left s) as [|r l]; [done|].
  destruct (Decode r) as [vs|e'|] eqn:E; cbn; [|by apply Decode_not_Err in E | done].
  destruct (fill ofs vs) as [ks|e'|] eqn:Ef; cbn; [done| |done]. exfalso. revert Ef.
  apply mapM_res_not_Err. intros f e''. unfold valueAt. by repeat case_match.
Qed.

Lemma refill_nil ofs s s' : refill ofs s = Ok s' -> cell s = None -> left s = [] -> cell s' = None /\ left s' = [].
Proof. unfold refill. intros E Hc Hl. rewrite Hc, Hl in E. cbn in E. destruct (ended s); cbn in E; by injection E as <-. Qed.

Lemma liveFrom_nil_Panic i ss : Exists (fun s => cell s = None) ss -> liveFrom i ss = Panic.
Proof.
  intros He. revert i. induction He as [s ss Hc|s ss _ IH]; intros i; cbn; [by rewrite Hc|].
  destruct (cell s); [|done]. cbn. by rewrite IH.
Qed.

(** ** Claims *)

(** ORDER BY without LIMIT over databases that all have rows delivers every
    row exactly once, in order. *)
Theorem order_by_sorted `{UnstableSort} results orderBy fields sh :
  firstFields results = Ok fields ->
  let ofs := castOrderByItemsToOrderField orderBy fields in
  Forall (ordered ofs sh) (Rows <$> results) ->
  exists rows, mergeResultWithOrderBy results orderBy = Ok ((fields, rows), sumWarnings results) /\
    Permutation rows (concat (Rows <$> results)) /\ StronglySorted (rle ofs) rows.
Proof.
  intros Hf ofs Hr. destruct (merge_both ofs sh results orderBy fields (mkLimit 0 1)) as (rows & Hp & Hs & E & _);
    [done | done | done | done | done|]. eauto.
Qed.

(** With ORDER BY a database without matching rows makes the merge
    panic, whatever the other databases return: its cell stays nil and is
    dereferenced. *)
Theorem empty_result_panics `{UnstableSort} results orderBy :
  Exists (fun r => Rows r = []) results -> mergeResultWithOrderBy results orderBy = Panic.
Proof.
  intros He. unfold mergeResultWithOrderBy. destruct results as [|r0 results']; [done|]. set (results := r0 :: results') in *.
  change (firstFields results) with (Ok (Fields r0)). cbn [mbind res_bind].
  set (ofs := castOrderByItemsToOrderField orderBy (Fields r0)).
  assert (Hn : Exists (fun s => cell s = None /\ left s = []) (sources results)).
  { apply Exists_exists in He as (r & Hr & Hnil). apply Exists_exists. exists (mkSource None false (Rows r)).
    split; [|done]. unfold sources. apply list_elem_of_fmap. by exists r. }
  unfold orderFuel. cbn [orderLoop].
  destruct (mapM_res (refill ofs) (sources results)) as [ss|e|] eqn:E; cbn [mbind res_bind];
    [|by apply mapM_res_not_Err in E; [|intros; apply refill_not_Err] | done].
  assert (Hs : Exists (fun s => cell s = None) ss).
  { apply mapM_res_Ok in E. clear -Hn E. induction E as [|s s' l l' Hs _ IH]; [by inversion Hn|].
    inversion Hn as [? ? [Hc Hl]|]; subst; [left; by eapply refill_nil | right; auto]. }
  destruct (forallb ended ss); cbn [mbind res_bind].
  - cbn [drain]. unfold countOrderByCells, liveCells. by rewrite liveFrom_nil_Panic.
  - unfold compareOrderByCells, liveCells. by rewrite liveFrom_nil_Panic.
Qed.

(** Text and binary rows of one column. *)
Definition textRow (s : string) : Row := mkRow TextRow (Ok [Some (DBytes s)]).
Definition binaryRow (z : Z) : Row := mkRow BinaryRow (Ok [Some (DInt64 z)]).
Definition shard0 : list Row := binaryRow <$> [1; 4; 6].
Definition shard1 : list Row := binaryRow <$> [2; 3; 9].
Definition db (name : string) (rows : list Row) : ResultWithErr := mkResult name ["id"%string] rows 0.

Lemma binary_ordered l :
  l <> [] -> StronglySorted (fun a b => three (a <? b) (a =? b) <= 0) l ->
  ordered [mkOrder true 0 DNil] [(true, TInt64)] (binaryRow <$> l).
Proof.
  intros Hne Hs. split_and!; [by destruct l | |].
  - apply Forall_fmap, Forall_true. intros z. exists [Some (DInt64 z)]. split_and!; [done | done|].
    constructor; [done | constructor].
  - induction Hs as [|a l Hs IH Hfa]; [constructor|]. constructor; [destruct l; [constructor | by apply IH]|].
    apply Forall_fmap. eapply Forall_impl; [exact Hfa|]. intros b Hb. unfold rle. cbn in *.
    unfold dcmp, cmp. cbn. by case_match.
Qed.

Lemma shards_ordered : Forall (ordered [mkOrder true 0 DNil] [(true, TInt64)]) [shard0; shard1].
Proof.
  constructor; [|constructor; [|constructor]]; apply binary_ordered; try done; repeat constructor; cbn; lia.
Qed.

Example merge_slice :
  mergeResultWithOrderByAndLimit [db "a" (take 3 shard0); db "b" (take 3 shard1)] [("id"%string, false)] (mkLimit 1 2)
    = Ok ((["id"%string], [binaryRow 2; binaryRow 3]), 0).
Proof. reflexivity. Qed.

Lemma order_by_sorted_witness :
  exists rows, mergeResultWithOrderBy [db "a" shard0; db "b" shard1] [("id"%string, false)]
      = Ok ((["id"%string], rows), 0) /\
    Permutation rows (concat [shard0; shard1]) /\
    StronglySorted (rle (castOrderByItemsToOrderField [("id"%string, false)] ["id"%string])) rows.
Proof.
  apply (order_by_sorted [db "a" shard0; db "b" shard1] [("id"%string, false)] ["id"%string] [(true, TInt64)]);
    [done | apply shards_ordered].
Defined.

Lemma empty_result_panics_witness :
  mergeResultWithOrderBy [db "a" shard0; db "b" []] [("id"%string, false)] = Panic.
Proof. apply empty_result_panics. right. left. reflexivity. Defined.

(** Without ORDER BY the merge takes the databases in turn and delivers
    every row once; with LIMIT it delivers exactly the slice of those rows,
    also for a count of zero. *)
Theorem limit_is_slice results limit fields :
  0 <= Offset limit -> 0 <= Count limit -> firstFields results = Ok fields ->
  Forall decodable (concat (Rows <$> results)) ->
  exists rows, Permutation rows (concat (Rows <$> results)) /\
    mergeResultWithoutOrderByAndLimit results = Ok ((fields, rows), sumWarnings results) /\
    mergeResultWithLimit results limit =
      Ok ((fields, take (Z.to_nat (Count limit)) (drop (Z.to_nat (Offset limit)) rows)), sumWarnings results).
Proof.
  intros Ho Hc Hf Hd.
  assert (Hok : Forall cursor_ok (cursors results)).
  { unfold cursors. apply Forall_fmap. apply List.Forall_forall. intros r Hr. split; [done|]. cbn.
    rewrite List.Forall_forall in Hd |- *. intros x Hx. apply Hd, in_concat. exists (Rows r). split; [|done].
    by apply in_map. }
  assert (Hw : (weights (cursors results) < turnFuel results)%nat).
  { clear. unfold turnFuel. induction results as [|r l IH]; [cbn; lia|].
    change (weights (cursors (r :: l))) with ((length (Rows r) + 1) + weights (cursors l))%nat.
    change (concat (Rows <$> r :: l)) with (Rows r ++ concat (Rows <$> l)). rewrite length_app. cbn [length]. lia. }
  exists (inTurn (turnFuel results) (cursors results)). split_and!.
  - rewrite inTurn_perm by done. unfold remaining, cursors. by rewrite <- list_fmap_compose.
  - unfold mergeResultWithoutOrderByAndLimit. rewrite turns_spec by done. cbn [mbind res_bind app]. by rewrite Hf.
  - unfold mergeResultWithLimit. pose proof (turnsLimit_spec limit Ho Hc (turnFuel results) (cursors results) [] Hok Hw) as E.
    change (len []) with 0 in E. replace (window limit []) with (@nil Row) in E by (unfold window; by rewrite drop_nil, take_nil).
    rewrite E. cbn [mbind res_bind]. by rewrite Hf.
Qed.

Lemma limit_is_slice_witness :
  exists rows, Permutation rows (concat [shard0; shard1]) /\
    mergeResultWithoutOrderByAndLimit [db "a" shard0; db "b" shard1] = Ok ((["id"%string], rows), 0) /\
    mergeResultWithLimit [db "a" shard0; db "b" shard1] (mkLimit 1 2) =
      Ok ((["id"%string], take (Z.to_nat 2) (drop (Z.to_nat 1) rows)), 0).
Proof.
  apply (limit_is_slice [db "a" shard0; db "b" shard1] (mkLimit 1 2) ["id"%string]); [done | done | reflexivity|].
  repeat constructor; eexists; reflexivity.
Defined.

(** Rows of the text protocol hold numbers as bytes and are compared as
    strings: merging two databases that return 9 and 10 for ORDER BY id yields
    10 before 9. *)
Theorem text_numbers_misordered :
  mergeResultWithOrderBy [db "a" [textRow "9"]; db "b" [textRow "10"]] [("id"%string, false)]
    = Ok ((["id"%string], [textRow "10"; textRow "9"]), 0).
Proof. reflexivity. Qed.

(** COUNT over several databases: counts of the binary protocol are added
    up, and those of the text protocol always panic, because the sum is
    written into a nil slice. *)
Theorem count_aggregated counts :
  counts <> [] -> Forall (fun z => 0 <= z) counts -> fold_right Z.add 0 counts < two63 ->
  aggregateResult [AggFuncCount] (binaryRow <$> counts) = Ok [binaryRow (fold_right Z.add 0 counts)] /\
  aggregateResult [AggFuncCount] (textRow ∘ FormatInt <$> counts) = Panic.
Proof.
  intros Hne Hpos Hsum.
  assert (Hbin : forall acc, 0 <= acc -> acc + fold_right Z.add 0 counts < two63 ->
    sumCounts (binaryRow <$> counts) acc = Ok (acc + fold_right Z.add 0 counts) /\
    sumCounts (textRow ∘ FormatInt <$> counts) acc = Ok (acc + fold_right Z.add 0 counts)).
  { clear Hne Hsum. induction Hpos as [|z l Hz Hl IH]; intros acc Hacc Hlt; [cbn; by rewrite Z.add_0_r|].
    assert (Hs : 0 <= fold_right Z.add 0 l) by (clear -Hl; induction Hl; cbn; lia).
    cbn [fold_right] in *. rewrite !fmap_cons. cbn [sumCounts].
    change (castCountCellToInt64 (binaryRow z)) with (Ok z).
    change (castCountCellToInt64 ((textRow ∘ FormatInt) z)) with (ParseInt_err (FormatInt z)).
    rewrite ParseInt_err_FormatInt by (unfold_width; lia).
    cbn [mbind res_bind]. rewrite i64_id by (unfold_width; lia). rewrite Z.add_assoc. apply IH; lia. }
  destruct (Hbin 0) as [E1 E2]; [lia | lia|]. unfold aggregateResult. rewrite E1, E2. destruct counts; done.
Qed.

Lemma count_aggregated_witness :
  aggregateResult [AggFuncCount] (binaryRow <$> [3; 4]) = Ok [binaryRow 7] /\
  aggregateResult [AggFuncCount] (textRow ∘ FormatInt <$> [3; 4]) = Panic.
Proof. apply (count_aggregated [3; 4]); [done | repeat constructor; lia | done]. Defined.
