(* ===== verification/Optimizer.v ===== *)
(** * The optimizer (pkg/optimize): from a statement to the databases and
    tables it runs on

    [optimizeSelect], [optimizeUpdate] and [optimizeDelete] parse the WHERE
    clause, evaluate it with the table's sharding algorithm and route the table
    indexes by the table's topology; [optimizeInsert] routes by the primary
    key of the first row.  The primary key's name comes from the metadata
    cache, which asks the databases, and is an argument; [None] stands for
    metadata without a primary key, on which the code panics. *)
From Stdlib Require Import ZArith Lia List Ascii Permutation.
From stdpp Require Import base gmap strings list sorting.
From S2P Require Import Prelude GoText Topology Values Condition Sharding Shard ConditionParse.

Local Open Scope Z_scope.

(** The executors are known by the name of their group. *)
Record Optimizer := mkOptimizer {
  globalTables : gmap string bool;
  executors : list string;
  dbGroupExecutors : gset string;
  algorithms : gmap string ShardingAlgorithm;
  topologies : gmap string Topology }.

Inductive Plan :=
| DirectQueryPlan (executor : string)
| QueryOnSingleDBPlan (pk : string) (database : string) (tables : list string)
| QueryOnMultiDBPlan (pk : string) (plans : list (string * list string))
| DeletePlan (database : string) (tables : list string)
| MultiDeletePlan (plans : list (string * list string))
| UpdatePlan (database : string) (tables : list string)
| MultiUpdatePlan (plans : list (string * list string))
| InsertPlan (database : string) (table : string) (columns : list string).

(** [errors.Wrap(err, msg)]. *)
Definition wrap {A} (msg : string) (r : res A) : res A :=
  match r with Err e => Err (msg +:+ ": " +:+ e)%string | _ => r end.

Definition noAlgorithm : string := "sharding algorithm should not be nil".
Definition noTopology (tableName : string) : string := "topology of " +:+ tableName +:+ " should not be nil".
Definition noGroup (k : string) : string := "db group " +:+ k +:+ " should not be nil".
Definition noFullScan : string := "full scan not allowed".

Section optimizer.
Context `{MapOrder} `{KeySort} (ev : evaluators) (args : list value) (o : Optimizer).

(** A statement without WHERE passes a nil expression, which no case of the
    parser accepts.  The parsed condition starts from an empty store. *)
Definition parseWhere (clause : option expr) : res (heap * Condition) :=
  match clause with
  | Some e => ParseCondition ev args (mkHeap ∅ 0) e
  | None => Err unsupportedVal
  end.

Definition computeShards (alg : ShardingAlgorithm) (clause : option expr) : res (list Z) :=
  '(h, condition) ← wrap "parse condition failed" (parseWhere clause);
  wrap "compute shards failed" (Cond_Shard alg 2 h condition).

Definition executorFor (k : string) : res unit :=
  if bool_decide (k ∈ dbGroupExecutors o) then Ok tt else Err (noGroup k).

(** One plan per database, in the given order. *)
Definition planEach (entries : list (string * list string)) : res (list (string * list string)) :=
  mapM_res (fun e => _ ← executorFor (fst e); Ok e) entries.

(** The part the three statements share; they differ in the plans they build
    and in the order the databases are visited. *)
Definition routeShards (alg : ShardingAlgorithm) (topology : Topology) (shards : list Z)
    (order : list (string * list string) -> list (string * list string))
    (single : string -> list string -> Plan) (multi : list (string * list string) -> Plan) : res Plan :=
  let '(fullScan, shardMap) := Slice_ParseTopology shards topology in
  if fullScan && negb (AllowFullScan alg) then Err noFullScan
  else
    match map_to_list shardMap with
    | [(k, v)] => _ ← executorFor k; Ok (single k v)
    | entries => plans ← planEach (order entries); Ok (multi plans)
    end.

(** [sort.Strings(keys)]. *)
Definition entry_le (a b : string * list string) : Prop := str_less (fst b) (fst a) = false.
#[local] Instance entry_le_dec : RelDecision entry_le.
Proof. intros a b. unfold entry_le. apply _. Defined.
Definition byName (entries : list (string * list string)) : list (string * list string) :=
  merge_sort entry_le entries.

Definition algorithmOf (tableName : string) : res ShardingAlgorithm :=
  from_option (Err noAlgorithm) (algorithms o !! tableName).
Definition topologyOf (tableName : string) : res Topology :=
  from_option (Err (noTopology tableName)) (topologies o !! tableName).

Definition optimizeSelect (pkName : option string) (tableName : string) (clause : option expr) : res Plan :=
  if default false (globalTables o !! ToLower tableName)
  then executor ← from_option Panic (head (executors o)); Ok (DirectQueryPlan executor)
  else
    alg ← algorithmOf tableName;
    topology ← topologyOf tableName;
    pk ← from_option Panic pkName;
    shards ← computeShards alg clause;
    routeShards alg topology shards byName (QueryOnSingleDBPlan pk) (QueryOnMultiDBPlan pk).

Definition optimizeDelete (tableName : string) (clause : option expr) : res Plan :=
  alg ← algorithmOf tableName;
  topology ← topologyOf tableName;
  shards ← computeShards alg clause;
  routeShards alg topology shards (visit 0) DeletePlan MultiDeletePlan.

Definition optimizeUpdate (tableName : string) (clause : option expr) : res Plan :=
  alg ← algorithmOf tableName;
  topology ← topologyOf tableName;
  shards ← computeShards alg clause;
  routeShards alg topology shards (visit 0) UpdatePlan MultiUpdatePlan.

(** ** INSERT *)
Inductive CommandType := ComQuery | ComStmtExecute.

Fixpoint indexFrom (i : nat) (pk : string) (columns : list string) : option nat :=
  match columns with
  | [] => None
  | c :: columns' => if String.eqb c pk then Some i else indexFrom (S i) pk columns'
  end.
Definition findPkIndex (columns : list string) (pk : string) : option nat := indexFrom 0 pk columns.

(** [lists] holds the restored text of every expression of the VALUES lists. *)
Definition getPkValue (commandType : CommandType) (lists : list (list string)) (pkIndex : nat) : res value :=
  match commandType with
  | ComQuery =>
    row ← from_option Panic (lists !! 0%nat);
    text ← from_option Panic (row !! pkIndex);
    Ok (VString text)
  | ComStmtExecute => from_option Panic (args !! pkIndex)
  end.

(** [nextID] is what [alg.NextID()] returns. *)
Definition optimizeInsert (pkName : option string) (commandType : CommandType) (nextID : res Z)
    (tableName : string) (columns : list string) (lists : list (list string)) : res Plan :=
  alg ← algorithmOf tableName;
  topology ← topologyOf tableName;
  pk ← from_option Panic pkName;
  pkValue ← (match findPkIndex columns pk with
             | None => id ← wrap "failed to automatically generate a primary key" nextID; Ok (VInt64 id)
             | Some index => getPkValue commandType lists index
             end);
  shards ← wrap "compute shards failed" (KeyCondition_Shard alg (mkKey pk EQ pkValue));
  let '(fullScan, shardMap) := Slice_ParseTopology shards topology in
  if fullScan && negb (AllowFullScan alg) then Err noFullScan
  else
    match map_to_list shardMap with
    | [(k, v)] =>
      _ ← executorFor k;
      table ← from_option Panic (head v);
      Ok (InsertPlan k table columns)
    | _ => Err "should never happen!"
    end.
End optimizer.

(** ** From the clause to table indexes *)
Definition singleton (ks : list KeyCondition) : bool := match ks with [_] => true | _ => false end.

Section routing.
Context `{MapOrder} `{KeySort} (ev : evaluators) (args : list value) (o : Optimizer).
Context (alg : ShardingAlgorithm) `{SoundAlgorithm alg}.
Context (dom_basic : forall k,
  KOp k = EQ \/ KOp k = LT \/ KOp k = LE \/ KOp k = GT \/ KOp k = GE -> dom k).

(** Clauses the evaluator handles: every pair of comparisons it forms has a
    correct case, and at most two comparisons stand alone in the disjunction. *)
Definition routable (d : list (list KeyCondition)) : Prop :=
  d <> [] /\ Forall (term_ok alg) d /\ (length (List.filter singleton d) <= 2)%nat.

Lemma term_ok_single k : term_ok alg [k] -> single_ok alg k.
Proof.
  intros [_ Hp]. pose proof (sort_perm [k]) as Hs. symmetry in Hs. apply Permutation_length_1_inv in Hs.
  by rewrite Hs in Hp.
Qed.

Lemma keys_of_terms h cs d :
  Forall2 (term h) cs d -> Forall (term_ok alg) d ->
  (length (keysOf cs) <= length (List.filter singleton d))%nat /\ Forall (single_ok alg) (keysOf cs) /\
  Forall2 (fun c ks => forall l, c = CPtr l -> term_ok alg ks) cs d.
Proof.
  induction 1 as [|c ks cs d Hc _ IH]; intros Hok; [by repeat constructor|].
  inversion Hok as [|? ? Hk Hok']; subst. destruct (IH Hok') as (Hlen & Hs & Hp).
  inversion Hc as [k|l ks' Hl]; subst; cbn [keysOf List.filter].
  - cbn. split_and!; [lia | constructor; [by apply term_ok_single | done] | by constructor].
  - split_and!; [destruct (singleton ks); cbn; lia | done | by constructor].
Qed.

Lemma dnf_shardable h c d : dnf h c d -> routable d -> shardable alg h c d.
Proof.
  intros Hd (Hne & Hok & Hlen). destruct Hd as [c ks Ht|l cs d Hl Hcs].
  - apply Forall_inv in Hok. destruct Ht as [k|l ks Hl]; [by apply shardable_key, term_ok_single | by apply shardable_conj].
  - destruct (keys_of_terms h cs d Hcs Hok) as (Hk & Hs & Hp).
    apply (shardable_disj _ _ _ cs); [done | done | | lia | done | done].
    intros ->. by inversion Hcs; subst.
Qed.

Lemma computeShards_complete e d :
  disj_expr ev args e d -> routable d ->
  exists out, computeShards ev args alg (Some e) = Ok out /\
    forall r idx, stored alg r idx -> sat args r e = true -> In idx out.
Proof.
  intros He Hr. unfold computeShards, parseWhere.
  destruct (disj_parsed ev args e d He (mkHeap ∅ 0)) as (h & c & E & Hd & _).
  { intros l [x Hx]. cbn in Hx. by rewrite lookup_empty in Hx. }
  rewrite E. cbn [wrap mbind res_bind].
  destruct (Cond_Shard_sound alg dom_basic h c d (dnf_shardable h c d Hd Hr)) as (out & -> & Ho).
  exists out. split; [done|]. intros r idx Hst Hsat. apply (Ho r idx Hst). by rewrite (disj_sat args ev r e d).
Qed.
End routing.

(** ** From table indexes to plans *)

(** The databases and tables of a plan over sharded tables. *)
Definition planTables (p : Plan) : list (string * list string) :=
  match p with
  | DirectQueryPlan _ => []
  | QueryOnSingleDBPlan _ db tables | DeletePlan db tables | UpdatePlan db tables => [(db, tables)]
  | QueryOnMultiDBPlan _ plans | MultiDeletePlan plans | MultiUpdatePlan plans => plans
  | InsertPlan db table _ => [(db, [table])]
  end.

Definition planned (p : Plan) (db tbl : string) : Prop :=
  exists tables, In (db, tables) (planTables p) /\ In tbl tables.

(** Where an index leads; an index without table leads to the empty name. *)
Definition tableOf (topology : Topology) (idx : Z) : string := default EmptyString (TableIndexMap topology !! idx).
Definition dbOf (topology : Topology) (idx : Z) : string := default EmptyString (Tables topology !! tableOf topology idx).

Section plans.
Context (o : Optimizer) (alg : ShardingAlgorithm) (topology : Topology) (shards : list Z).

Lemma shardMap_spec db tbl :
  (exists tables, In (db, tables) (map_to_list (groupTables topology shards ∅)) /\ In tbl tables) <->
  exists i, In i shards /\ tableOf topology i = tbl /\ dbOf topology i = db.
Proof.
  pose proof (groupTables_lookup topology shards ∅ db tbl) as Hg.
  rewrite lookup_empty in Hg. cbn [option.from_option In] in Hg.
  transitivity (In tbl (default [] (groupTables topology shards ∅ !! db))).
  - split.
    + intros (tables & Hin & Ht). apply list_elem_of_In, elem_of_map_to_list in Hin. by rewrite Hin.
    + destruct (groupTables topology shards ∅ !! db) as [tables|] eqn:E; [|done]. cbn. intros Ht.
      exists tables. split; [|done]. by apply list_elem_of_In, elem_of_map_to_list.
  - rewrite Hg. unfold tableOf, dbOf. split.
    + intros [[]|(i & ? & ? & ?)]. exists i. subst. auto.
    + intros (i & ? & ? & ?). right. exists i. subst. auto.
Qed.

(** What can come of routing: a plan over exactly the selected tables, a
    refused full scan, or a database without executor. *)
Definition routedTo (r : res Plan) : Prop :=
  match r with
  | Ok p => forall db tbl, planned p db tbl <->
      exists i, In i shards /\ tableOf topology i = tbl /\ dbOf topology i = db
  | Err msg =>
      (msg = noFullScan /\ AllowFullScan alg = false /\ Z.of_nat (length shards) = TableSliceLen topology) \/
      (exists i, In i shards /\ (dbOf topology i ∉ dbGroupExecutors o) /\ msg = noGroup (dbOf topology i))
  | Panic => False
  end.

Lemma executorFor_cases k :
  executorFor o k = Ok tt \/ (k ∉ dbGroupExecutors o) /\ executorFor o k = Err (noGroup k).
Proof. unfold executorFor. case_bool_decide; auto. Qed.

Lemma planEach_spec entries :
  match planEach o entries with
  | Ok plans => plans = entries
  | Err msg => exists k v, In (k, v) entries /\ (k ∉ dbGroupExecutors o) /\ msg = noGroup k
  | Panic => False
  end.
Proof.
  unfold planEach. induction entries as [|[k v] l IH]; [done|]. cbn [mapM_res fst].
  destruct (executorFor_cases k) as [->|[Hk ->]]; cbn [mbind res_bind].
  - destruct (mapM_res _ l); cbn; [by rewrite IH | | done]. destruct IH as (k' & v' & ? & ?).
    exists k', v'. split; [by right | done].
  - exists k, v. split; [by left | done].
Qed.

Lemma groupTables_nonempty db tables idxs m :
  (forall d, m !! d <> Some []) -> groupTables topology idxs m !! db = Some tables -> tables <> [].
Proof.
  revert m. induction idxs as [|i idxs IH]; intros m Hm; cbn [groupTables].
  - intros E ->. by apply (Hm db).
  - apply IH. intros d. destruct (decide (d = default ""%string (Tables topology !! default ""%string (TableIndexMap topology !! i)))) as [->|Hd].
    + rewrite lookup_insert_eq. intros [= E]. by destruct (default [] _).
    + by rewrite lookup_insert_ne.
Qed.

Lemma routeShards_spec order single multi :
  (forall l, Permutation (order l) l) ->
  (forall k v, planTables (single k v) = [(k, v)]) -> (forall l, planTables (multi l) = l) ->
  routedTo (routeShards o alg topology shards order single multi).
Proof.
  intros Ho Hs Hm. unfold routeShards, Slice_ParseTopology.
  destruct (_ && _) eqn:Efull.
  { left. apply andb_prop in Efull as [E1 E2]. zbool. auto. }
  clear Efull. pose proof shardMap_spec as Hspec. set (m := groupTables topology shards ∅) in *.
  assert (Hdb : forall k v, In (k, v) (map_to_list m) -> exists i, In i shards /\ dbOf topology i = k).
  { intros k v Hin. assert (Hv : v <> []).
    { apply list_elem_of_In, elem_of_map_to_list in Hin. eapply groupTables_nonempty; [|exact Hin].
      intros d. by rewrite lookup_empty. }
    destruct v as [|tbl v]; [done|]. destruct (proj1 (Hspec k tbl)) as (i & ? & _ & ?); [exists (tbl :: v); cbn; auto|].
    eauto. }
  assert (Hmulti : routedTo (plans ← planEach o (order (map_to_list m)); Ok (multi plans))).
  { pose proof (planEach_spec (order (map_to_list m))) as Hp. destruct (planEach o _) as [plans|msg|]; cbn; [|right|done].
    - intros db tbl. unfold planned. rewrite Hm, Hp, <- Hspec. by setoid_rewrite Ho.
    - destruct Hp as (k & v & Hin & Hk & ->). rewrite Ho in Hin. destruct (Hdb k v Hin) as (i & ? & <-). eauto. }
  destruct (map_to_list m) as [|[k v] [|]] eqn:E; [exact Hmulti | | exact Hmulti]. clear Hmulti.
  destruct (executorFor_cases k) as [->|[Hk ->]]; cbn.
  - intros db tbl. unfold planned. rewrite Hs, <- Hspec. done.
  - right. destruct (Hdb k v) as (i & ? & <-); [by left | eauto].
Qed.
End plans.

(** ** Claims *)
Section claims.
Context `{MapOrder} `{KeySort} (ev : evaluators) (args : list value) (o : Optimizer).

(** The outcome of a statement with the clause [e]: a plan that reads or
    writes the table of every stored row satisfying the clause; or one of two
    errors, a full scan that is not allowed and a database without executor. *)
Definition reaches (alg : ShardingAlgorithm) `{SoundAlgorithm alg} (topology : Topology) (e : expr)
    (r : res Plan) : Prop :=
  match r with
  | Ok p => forall row idx, stored alg row idx -> sat args row e = true ->
      exists db, Tables topology !! indexed (TableName topology) idx = Some db /\
        planned p db (indexed (TableName topology) idx)
  | Err msg => (msg = noFullScan /\ AllowFullScan alg = false) \/
      (exists db, (db ∉ dbGroupExecutors o) /\ msg = noGroup db)
  | Panic => False
  end.

Lemma routed_reaches (alg : ShardingAlgorithm) `{SoundAlgorithm alg} topology e shards r :
  topology_ok topology -> AllShards alg = TableSlice topology ->
  (forall row idx, stored alg row idx -> sat args row e = true -> In idx shards) ->
  routedTo o alg topology shards r -> reaches alg topology e r.
Proof.
  intros [_ Hok] Hall Hsel Hr. destruct r as [p|msg|]; cbn in *; [|destruct Hr as [?|(i & _ & ? & ->)]; [tauto | eauto] | done].
  intros row idx Hst Hsat. assert (Hidx : In idx (TableSlice topology)) by (rewrite <- Hall; by eapply stored_all).
  destruct (Hok idx Hidx) as (_ & Hm & db & l & Hdb & _). exists db. split; [done|]. apply Hr. exists idx.
  unfold dbOf, tableOf. rewrite Hm. cbn. rewrite Hdb. eauto.
Qed.

Lemma statements_reach (alg : ShardingAlgorithm) {S : SoundAlgorithm alg} topology tableName pk e d :
  algorithms o !! tableName = Some alg -> topologies o !! tableName = Some topology ->
  default false (globalTables o !! ToLower tableName) = false ->
  topology_ok topology -> AllShards alg = TableSlice topology ->
  (forall k, KOp k = EQ \/ KOp k = LT \/ KOp k = LE \/ KOp k = GT \/ KOp k = GE -> dom k) ->
  disj_expr ev args e d -> routable alg d ->
  reaches alg topology e (optimizeSelect ev args o (Some pk) tableName (Some e)) /\
  reaches alg topology e (optimizeUpdate ev args o tableName (Some e)) /\
  reaches alg topology e (optimizeDelete ev args o tableName (Some e)).
Proof.
  intros Halg Htopo Hglob Hok Hall Hdom He Hr.
  destruct (computeShards_complete ev args alg Hdom e d He Hr) as (out & E & Ho).
  unfold optimizeSelect, optimizeUpdate, optimizeDelete, algorithmOf, topologyOf.
  rewrite Hglob, Halg, Htopo. cbn [Prelude.from_option mbind res_bind]. rewrite E. cbn [mbind res_bind].
  split_and!; (eapply routed_reaches; [done | done | exact Ho|]); apply routeShards_spec; try done;
    intros l; [apply merge_sort_Permutation | apply visit_perm | apply visit_perm].
Qed.
End claims.

(** ** Clauses a NumberMod table handles, as a test *)

(** A comparison other than [<>] with a constant that fits an int64. *)
Definition plain_key (k : KeyCondition) : bool :=
  match Value k with VInt64 v => (- two63 <=? v) && (v <? two63) | _ => false end &&
  match KOp k with EQ | LT | LE | GT | GE => true | _ => false end.

(** Two comparisons of one column: not [>= v] with [<= v] for the same [v], and
    no [<= 2^63-1]. *)
Definition plain_pair (k1 k2 : KeyCondition) : bool :=
  let top k := bool_decide (KOp k = LE) && bool_decide (Value k = VInt64 (two63 - 1)) in
  let touch a b := bool_decide (KOp a = GE) && bool_decide (KOp b = LE) && bool_decide (Value a = Value b) in
  String.eqb (Key k1) (Key k2) && negb (touch k1 k2) && negb (touch k2 k1) && negb (top k1) && negb (top k2).

(** A conjunction of comparisons of different columns, or of two of one column. *)
Definition plain_term (ks : list KeyCondition) : bool :=
  negb (bool_decide (ks = [])) && forallb plain_key ks &&
  (bool_decide (NoDup (Key <$> ks)) || match ks with [k1; k2] => plain_pair k1 k2 | _ => false end).

(** A disjunction with at most two single comparisons: the evaluator panics on
    three, such as [uid in (1, 2, 3)]. *)
Definition plain_clause (d : list (list KeyCondition)) : bool :=
  negb (bool_decide (d = [])) && forallb plain_term d && (length (List.filter singleton d) <=? 2)%nat.

Section plain.
Context `{MapOrder} `{KeySort} (shard : NumberMod.t)
  (n_pos : 0 < TableSliceLen (NumberMod.topology shard))
  (covers : Permutation (TableSlice (NumberMod.topology shard)) (upto 0 (TableSliceLen (NumberMod.topology shard)))).
#[local] Instance plain_sound : SoundAlgorithm (NumberMod.algorithm shard) := NumberMod_sound shard n_pos covers.

Lemma plain_key_int k : plain_key k = true ->
  exists v, int_key k v /\ (KOp k = EQ \/ KOp k = LT \/ KOp k = LE \/ KOp k = GT \/ KOp k = GE).
Proof.
  unfold plain_key, int_key. intros [Hv Ho]%andb_prop. destruct (Value k); try done. zbool. eexists.
  split; [split; [done | unfold in_i64; lia]|]. destruct (KOp k); try done; tauto.
Qed.

Lemma plain_key_single k : plain_key k = true -> single_ok (NumberMod.algorithm shard) k.
Proof. intros (v & Hv & Ho)%plain_key_int. split; [by exists v | by intros _]. Qed.

Lemma plain_pair_ok k1 k2 : plain_key k1 = true -> plain_key k2 = true -> plain_pair k1 k2 = true ->
  pair_ok (NumberMod.algorithm shard) k1 k2.
Proof.
  intros (v1 & [E1 R1] & O1)%plain_key_int (v2 & [E2 R2] & O2)%plain_key_int. unfold plain_pair. rewrite E1, E2.
  intros Hp. repeat (apply andb_prop in Hp as [Hp ?]). exists v1, v2. split; [by split|]. split; [by split|].
  assert (Htop : forall k v, Value k = VInt64 v -> negb (bool_decide (KOp k = LE) && bool_decide (VInt64 v = VInt64 (two63 - 1))) = true ->
    in_i64 v -> KOp k = LE -> parseValue (Value k) <> Ok (two63 - 1)).
  { intros k v Ev Hn Hr Ho. rewrite (parseValue_int k v) by (by split). intros [= ->].
    by rewrite !bool_decide_true in Hn. }
  split; [|intros _; split; intros Ho; [by apply (Htop k2 v2) | by apply (Htop k1 v1)]].
  assert (Hne : KOp k1 = GE -> KOp k2 = LE -> negb (v1 =? v2) = true).
  { intros Ha Hb. apply negb_true_iff, Z.eqb_neq. intros ->. rewrite !bool_decide_true in * by done. done. }
  destruct O1 as [Ea|[Ea|[Ea|[Ea|Ea]]]], O2 as [Eb|[Eb|[Eb|[Eb|Eb]]]]; rewrite Ea, Eb; cbn; auto.
Qed.

Lemma plain_pair_sym k1 k2 : plain_pair k1 k2 = plain_pair k2 k1.
Proof.
  unfold plain_pair. rewrite String.eqb_sym.
  repeat match goal with |- context [String.eqb ?a ?b] => destruct (String.eqb a b) end; cbn [andb]; [|done].
  repeat match goal with |- context [negb ?b] => destruct b; cbn [negb andb]; try done end.
Qed.

Lemma distinct_pairs_ok l : Forall (fun k => plain_key k = true) l -> NoDup (Key <$> l) ->
  pairs_ok (NumberMod.algorithm shard) l.
Proof.
  intros Hl. induction Hl as [|k l Hk Hl IH]; [done|]. intros [Hn Hd]%NoDup_cons. specialize (IH Hd).
  cbn [pairs_ok]. destruct l as [|k2 l]; [by apply plain_key_single|].
  destruct (String.eqb_spec (Key k) (Key k2)) as [E|]; [exfalso; apply Hn; rewrite E; by left|].
  split; [by apply plain_key_single | exact IH].
Qed.

Lemma plain_term_ok ks : plain_term ks = true -> term_ok (NumberMod.algorithm shard) ks.
Proof.
  intros [[Hne Hk]%andb_prop Hor]%andb_prop. apply negb_true_iff, bool_decide_eq_false in Hne. split; [done|].
  assert (Hall : Forall (fun k => plain_key k = true) ks)
    by (apply List.Forall_forall; by apply forallb_forall).
  pose proof (sort_perm ks) as Hp. apply orb_true_iff in Hor as [Hd%bool_decide_eq_true|Hpair].
  - apply distinct_pairs_ok; [by rewrite Hp|]. eapply NoDup_Permutation_proper; [|exact Hd]. by rewrite Hp.
  - destruct ks as [|k1 [|k2 [|]]]; try done. inversion Hall as [|? ? H1 H2']; subst. apply Forall_inv in H2'.
    symmetry in Hp. apply Permutation_length_2_inv in Hp as [->| ->]; cbn [pairs_ok].
    + assert (Hs : String.eqb (Key k1) (Key k2) = true) by (unfold plain_pair in Hpair; by destruct (String.eqb _ _)).
      rewrite Hs. split; [by apply plain_pair_ok | done].
    + rewrite plain_pair_sym in Hpair.
      assert (Hs : String.eqb (Key k2) (Key k1) = true) by (unfold plain_pair in Hpair; by destruct (String.eqb _ _)).
      rewrite Hs. split; [by apply plain_pair_ok | done].
Qed.

Lemma plain_routable d : plain_clause d = true -> routable (NumberMod.algorithm shard) d.
Proof.
  intros [[Hne Ht]%andb_prop Hl]%andb_prop. apply negb_true_iff, bool_decide_eq_false in Hne.
  split; [done|]. split; [|by apply Nat.leb_le]. apply List.Forall_forall. intros ks Hin.
  apply plain_term_ok. rewrite forallb_forall in Ht. by apply Ht.
Qed.
End plain.


(** The five tables of [Sharding] as an optimizer. *)
Definition school : Optimizer :=
  mkOptimizer ∅ ["school_0"%string] {[ "school_0"%string; "school_1"%string ]}
    {[ "student"%string := NumberMod.algorithm mod5 ]} {[ "student"%string := five_tables ]}.

#[local] Instance mod5_SoundAlgorithm : SoundAlgorithm (NumberMod.algorithm mod5) :=
  NumberMod_sound mod5 eq_refl five_tables_covers.

(** [uid = 3 or (uid >= 7 and uid < 9)] *)
Definition sample_clause : expr :=
  EBinary LogicOr (EBinary EQ (EColumn "uid") (EValue (VInt64 3)))
    (EParen (EBinary LogicAnd (EBinary GE (EColumn "uid") (EValue (VInt64 7)))
                              (EBinary LT (EColumn "uid") (EValue (VInt64 9))))).
Definition sample_dnf : list (list KeyCondition) := [[uid EQ 3]; [uid GE 7; uid LT 9]].

Lemma sample_clause_dnf : disj_expr no_eval [] sample_clause sample_dnf.
Proof.
  apply (disj_or _ _ _ _ [[uid EQ 3]] [[uid GE 7; uid LT 9]]).
  - apply disj_conj, conj_left; [done | constructor].
  - apply disj_paren, disj_conj, (conj_and _ _ _ _ [uid GE 7] [uid LT 9]); apply conj_left; done || constructor.
Qed.

Lemma sample_routable : routable (NumberMod.algorithm mod5) sample_dnf.
Proof.
  assert (Hi : forall op z, in_i64 z -> int_key (uid op z) z) by (intros; split; [reflexivity | assumption]).
  split; [done|]. split; [|cbn; lia]. constructor; [|constructor; [|constructor]]; (split; [done|]); cbn.
  - split; [exists 3; apply Hi; unfold_width; lia|]. intros _. by left.
  - split; [|exact I]. exists 7, 9. split_and!; [apply Hi; unfold_width; lia | apply Hi; unfold_width; lia | reflexivity|].
    intros _. by split.
Qed.


Example sample_plan :
  optimizeSelect no_eval [] school (Some "uid"%string) "student" (Some sample_clause)
    = Ok (QueryOnMultiDBPlan "uid" [("school_0"%string, ["student_2"%string]); ("school_1"%string, ["student_3"%string])]).
Proof. vm_compute. reflexivity. Qed.

(** ** INSERT on a NumberMod table *)
Section insert.
Context `{MapOrder} `{KeySort} (args : list value) (o : Optimizer) (shard : NumberMod.t).
Let alg := NumberMod.algorithm shard.
Let t := NumberMod.topology shard.
Let n := TableSliceLen t.
Context (n_pos : 0 < n).
Context (covers : Permutation (TableSlice t) (upto 0 n)) (t_ok : topology_ok t).

Lemma residue_table v : 0 <= v ->
  exists db, TableIndexMap t !! (v mod n) = Some (indexed (TableName t) (v mod n)) /\
    Tables t !! indexed (TableName t) (v mod n) = Some db.
Proof.
  intros Hv. destruct t_ok as [_ Hok]. destruct (Hok (v mod n)) as (_ & Hm & db & l & Hdb & _); [|eauto].
  eapply Permutation_in; [symmetry; exact covers|]. apply upto_In, Z.mod_pos_bound, n_pos.
Qed.

Lemma optimizeInsert_NumberMod tableName pk columns texts rest nextID i v :
  algorithms o !! tableName = Some alg -> topologies o !! tableName = Some t ->
  NumberMod.allowFullScan shard = true \/ 1 < n ->
  (forall tbl db, Tables t !! tbl = Some db -> db ∈ dbGroupExecutors o) ->
  EqualFold (NumberMod.shardingKey shard) pk = true ->
  findPkIndex columns pk = Some i -> texts !! i = Some (FormatInt v) -> 0 <= v -> in_i64 v ->
  exists db, Tables t !! indexed (TableName t) (v mod n) = Some db /\
    optimizeInsert args o (Some pk) ComQuery nextID tableName columns (texts :: rest)
      = Ok (InsertPlan db (indexed (TableName t) (v mod n)) columns).
Proof.
  intros Halg Htopo Hfull Hexec Hkey Hpk Htext Hv Hv64. destruct (residue_table v Hv) as (db & Hm & Hdb).
  exists db. split; [done|]. unfold optimizeInsert, algorithmOf, topologyOf. rewrite Halg, Htopo.
  cbn [Prelude.from_option mbind res_bind]. rewrite Hpk. cbn [getPkValue lookup list_lookup Prelude.from_option mbind res_bind].
  change (list_lookup i texts) with (texts !! i). rewrite Htext. cbn [Prelude.from_option mbind res_bind].
  assert (Hshard : KeyCondition_Shard alg (mkKey pk EQ (VString (FormatInt v))) = Ok [v mod n]).
  { unfold KeyCondition_Shard. cbn [alg NumberMod.algorithm alg_Shard]. unfold NumberMod.Shard. cbn [Key Value KOp].
    rewrite Hkey. cbn [negb]. unfold parseValue. cbn [Sprint]. rewrite ParseInt_err_FormatInt by done.
    cbn [mbind res_bind]. fold t n. destruct (Z.eqb_spec n 0); [lia|]. cbn. by rewrite Z.rem_mod_nonneg by lia. }
  rewrite Hshard. cbn [wrap mbind res_bind Slice_ParseTopology groupTables length].
  rewrite Hm. cbn [option.from_option id]. rewrite Hdb. cbn [option.from_option id]. rewrite lookup_empty. cbn [option.from_option id app].
  destruct (_ && _) eqn:E.
  { apply andb_prop in E as [E1 E2]. zbool. cbn in E1, E2. fold n in E1. destruct Hfull; [congruence | lia]. }
  rewrite insert_empty, map_to_list_singleton. unfold executorFor. rewrite bool_decide_true by (by eapply Hexec). done.
Qed.
End insert.

(** C26: Insert, then find.  On a NumberMod table whose tables are numbered 0 to
    n-1, all in databases with an executor, which is not global and has several
    tables or allows full scans, whose primary key is the sharding key: an
    INSERT of COM_QUERY whose first row has the literal [v] for it, 0 <= v <
    2^63, goes to the table [v mod n] in the database that lists it.  A SELECT
    whose clause is a disjunction of conjunctions of comparisons of columns with
    constants, or IN or BETWEEN, that passes [plain_clause] (no [<>], at most
    two single comparisons in the disjunction, and in a conjunction either
    different columns or two comparisons of one that do not meet in [>= w] and
    [<= w]) and that the row satisfies, never panics: its plan covers that
    table, or it fails because a full scan is needed and not allowed, or because
    another database it needs has no executor. *)
Theorem insert_then_select `{MapOrder} `{KeySort} args o (shard : NumberMod.t) tableName pk columns texts
    rest nextID i v :
  let alg := NumberMod.algorithm shard in
  let t := NumberMod.topology shard in
  0 < TableSliceLen t -> Permutation (TableSlice t) (upto 0 (TableSliceLen t)) ->
  topology_ok t ->
  algorithms o !! tableName = Some alg -> topologies o !! tableName = Some t ->
  default false (globalTables o !! ToLower tableName) = false ->
  NumberMod.allowFullScan shard = true \/ 1 < TableSliceLen t ->
  (forall tbl db, Tables t !! tbl = Some db -> db ∈ dbGroupExecutors o) ->
  EqualFold (NumberMod.shardingKey shard) pk = true ->
  findPkIndex columns pk = Some i -> texts !! i = Some (FormatInt v) -> 0 <= v -> in_i64 v ->
  exists db, let table := indexed (TableName t) (v mod TableSliceLen t) in
    Tables t !! table = Some db /\
    optimizeInsert args o (Some pk) ComQuery nextID tableName columns (texts :: rest)
      = Ok (InsertPlan db table columns) /\
    forall ev args' e d row, disj_expr ev args' e d -> plain_clause d = true ->
      (forall key, EqualFold (NumberMod.shardingKey shard) key = true -> row key = v) ->
      row (NumberMod.shardingKey shard) = v -> sat args' row e = true ->
      match optimizeSelect ev args' o (Some pk) tableName (Some e) with
      | Ok p => planned p db table
      | Err msg => (msg = noFullScan /\ NumberMod.allowFullScan shard = false) \/
          (exists db', (db' ∉ dbGroupExecutors o) /\ msg = noGroup db')
      | Panic => False
      end.
Proof.
  intros alg t n_pos covers Hok Halg Htopo Hglob Hfull Hexec Hkey Hpk Htext Hv Hv64.
  pose (S := NumberMod_sound shard n_pos covers).
  destruct (optimizeInsert_NumberMod args o shard n_pos covers Hok tableName pk columns texts rest nextID i v)
    as (db & Hdb & E); [done..|]. exists db. split; [exact Hdb|]. split; [exact E|].
  intros ev args' e d row He Hr Hcol Hval Hsat. apply (plain_routable shard n_pos covers) in Hr.
  destruct (statements_reach ev args' o alg t tableName pk e d) as (Hsel & _ & _); [done..| | done | exact Hr|].
  { intros k Hk. exact Hk. }
  destruct (optimizeSelect ev args' o (Some pk) tableName (Some e)) as [p|msg|]; cbn in Hsel; [|exact Hsel | done].
  destruct (Hsel row (v mod TableSliceLen t)) as (db' & Hdb' & Hp); [|done|].
  - split; [intros key Hk; transitivity v; [by apply Hcol | by symmetry]|].
    change (mod_placed shard (row (NumberMod.shardingKey shard)) (v mod TableSliceLen t)). rewrite Hval. done.
  - fold t in Hdb. rewrite Hdb in Hdb'. by injection Hdb' as <-.
Qed.

Lemma insert_then_select_witness :
  exists db, optimizeInsert [] school (Some "uid"%string) ComQuery (Ok 0) "student" ["uid"; "name"]%string [["8"; "'x'"]%string]
    = Ok (InsertPlan db "student_3" ["uid"; "name"]%string) /\
  exists p, optimizeSelect no_eval [] school (Some "uid"%string) "student" (Some sample_clause) = Ok p /\ planned p db "student_3".
Proof.
  destruct (insert_then_select [] school mod5 "student" "uid" ["uid"; "name"]%string ["8"; "'x'"]%string []
    (Ok 0) 0 8 eq_refl five_tables_covers) as (db & _ & E & Hsel); try reflexivity.
  - apply (ParseTopology_inv "school" "student" sample_config); vm_compute; reflexivity.
  - left. reflexivity.
  - intros tbl db Hdb. assert (Hall : map_Forall (fun _ d => d ∈ dbGroupExecutors school) (Tables five_tables))
      by (apply (bool_decide_unpack _); vm_compute; reflexivity).
    exact (Hall tbl db Hdb).
  - lia.
  - unfold_width. lia.
  - exists db. split; [exact E|].
    specialize (Hsel no_eval [] sample_clause sample_dnf (fun _ => 8) sample_clause_dnf eq_refl ltac:(done) eq_refl eq_refl).
    destruct (optimizeSelect no_eval [] school (Some "uid"%string) "student" (Some sample_clause)) as [p|msg|] eqn:Ep.
    + exists p. split; [reflexivity | exact Hsel].
    + exfalso. vm_compute in Ep. discriminate.
    + destruct Hsel.
Defined.

(** INSERT is routed by its first row alone: rows after it do not change the
    plan, so [insert into student(uid) values (0), (1)] puts both rows into
    [student_0], while [uid = 1] is looked up in [student_1] only. *)
Theorem insert_routes_by_first_row :
  (forall args o pk ct nextID tableName columns r0 rows,
     optimizeInsert args o pk ct nextID tableName columns (r0 :: rows) =
     optimizeInsert args o pk ct nextID tableName columns [r0]) /\
  optimizeInsert [] school (Some "uid"%string) ComQuery (Ok 0) "student" ["uid"%string] [["0"%string]; ["1"%string]]
    = Ok (InsertPlan "school_0" "student_0" ["uid"%string]) /\
  optimizeSelect no_eval [] school (Some "uid"%string) "student"
      (Some (EBinary EQ (EColumn "uid") (EValue (VInt64 1))))
    = Ok (QueryOnSingleDBPlan "uid" "school_0" ["student_1"%string]).
Proof. split_and!; [|vm_compute; reflexivity ..]. intros. reflexivity. Qed.
