(* ===== verification/ShardingConfig.v ===== *)
(** * From a configuration to an optimizer: [NewShardingExecutor] and
    [convertShardingAlgorithmsAndTopologies] of [pkg/executor/sharding.go], the tables of
    [pkg/config/db.go]

    The groups of databases and the generators of ids are made by other components; their
    constructors are arguments. *)
From Stdlib Require Import ZArith Lia List.
From stdpp Require Import base gmap list strings.
From S2P Require Import Prelude GoText Topology Values Condition Sharding Shard ConditionParse Optimizer.

Local Open Scope Z_scope.

(** ** Words of a configuration *)
Inductive DataSourceRole := Master | Slave | Meta.
Inductive DataSourceType := DBMysql | DBPostgresSql.
Inductive ExecuteMode := SDB | RWS | SHD.
Inductive LoadBalanceAlgorithm := Random | RoundRobin | RandomWeight.

(** [UnmarshalText]: the word is lowered first; [kind] is how the error calls it, which quotes the text. *)
Definition word {A} (table : list (string * A)) (kind text : string) : res A :=
  match List.find (fun e => String.eqb (fst e) (ToLower text)) table with
  | Some (_, a) => Ok a
  | None => Err ("unrecognized " +:+ kind +:+ ": " +:+ text)
  end.
Definition DataSourceRole_UnmarshalText : string -> res DataSourceRole :=
  word [("master", Master); ("slave", Slave); ("meta", Meta)]%string "data source role".
Definition DataSourceType_UnmarshalText : string -> res DataSourceType :=
  word [("mysql", DBMysql); ("postgresql", DBPostgresSql)]%string "data srouce type".
Definition ExecuteMode_UnmarshalText : string -> res ExecuteMode := word [("sdb", SDB); ("rws", RWS); ("shd", SHD)]%string "execute mode".
Definition ExecuteMode_String (m : ExecuteMode) : string := match m with SDB => "SDB" | RWS => "RWS" | SHD => "SHD" end.
Definition LoadBalanceAlgorithm_UnmarshalText (text : string) : res LoadBalanceAlgorithm :=
  let alg := ToLower text in
  if EqualFold alg "Random" then Ok Random
  else if EqualFold alg "RoundRobin" then Ok RoundRobin
  else if EqualFold alg "RandomWeight" then Ok RandomWeight
  else Err ("unrecognized protocol type: " +:+ text).

Lemma ExecuteMode_roundtrip m : ExecuteMode_UnmarshalText (ExecuteMode_String m) = Ok m.
Proof. by destruct m. Qed.

(** ** The configuration of a sharding executor *)
Record ShardingRule := mkRule { Column : string; Algorithm : string; Config : list (string * value) }.
Record ShardingKeyGenerator := mkGenerator { GType : string; Worker : Z; DSN : string }.
(** The rule and the generator are pointers: [None] is nil. *)
Record LogicTable := mkTable {
  DBName : string; LTableName : string; AllowFullScan : bool; Rule : option ShardingRule; Generator : option ShardingKeyGenerator;
  LTopology : gmap Z string }.
Record ShardingConfig := mkConfig { DBGroups : list string; GlobalTables : list string; LogicTables : list LogicTable }.

Section convert.
Context `{MapOrder} `{MathUtil}.
(** The outcome of the constructors of [pkg/misc/uuid] and of [NewDBGroup]. *)
Context (NewSegmentWorker : string -> Z -> string -> res unit) (NewWorker : Z -> res unit) (NewDBGroup : string -> res unit).

Definition newGenerator (table : LogicTable) : res unit :=
  match Generator table with
  | None => Panic
  | Some g => if String.eqb (GType g) "segment" then NewSegmentWorker (DSN g) 1000 (LTableName table) else NewWorker (Worker g)
  end.
Definition convertTable (table : LogicTable) : res (ShardingAlgorithm * Topology) :=
  topology ← ParseTopology (DBName table) (LTableName table) (LTopology table);
  _ ← newGenerator table;
  match Rule table with
  | None => Panic
  | Some rule =>
    alg ← NewShardingAlgorithm (Algorithm rule) (Column rule) (AllowFullScan table) topology (Config rule);
    Ok (alg, topology)
  end.
Fixpoint convertTables (tables : list LogicTable) (algs : gmap string ShardingAlgorithm) (topos : gmap string Topology)
  : res (gmap string ShardingAlgorithm * gmap string Topology) :=
  match tables with
  | [] => Ok (algs, topos)
  | table :: tables' =>
    '(alg, topology) ← convertTable table;
    convertTables tables' (<[LTableName table := alg]> algs) (<[LTableName table := topology]> topos)
  end.
Definition convertShardingAlgorithmsAndTopologies (logicTables : list LogicTable) := convertTables logicTables ∅ ∅.

Definition newGroups (groups : list string) : res (list string) := mapM_res (fun g => _ ← NewDBGroup g; Ok g) groups.
Definition lowered (tables : list string) : gmap string bool := foldl (fun m t => <[ToLower t := true]> m) ∅ tables.
(** The optimizer of a new executor. *)
Definition NewShardingExecutor (conf : ShardingConfig) : res Optimizer :=
  executors ← newGroups (DBGroups conf);
  '(algs, topos) ← convertShardingAlgorithmsAndTopologies (LogicTables conf);
  Ok (mkOptimizer (lowered (GlobalTables conf)) executors (list_to_set executors) algs topos).

(** ** What is configured *)
Lemma convertTables_other tables algs topos algs' topos' name :
  convertTables tables algs topos = Ok (algs', topos') -> name ∉ LTableName <$> tables ->
  algs' !! name = algs !! name /\ topos' !! name = topos !! name.
Proof.
  revert algs topos. induction tables as [|t tables IH]; intros algs topos; cbn; [by intros [= <- <-]|].
  intros ([alg topo] & _ & Hc)%bind_Ok [Hne Hn]%not_elem_of_cons. destruct (IH _ _ Hc Hn) as [-> ->]. by rewrite !lookup_insert_ne.
Qed.
Lemma convertTables_lookup tables algs topos algs' topos' table :
  convertTables tables algs topos = Ok (algs', topos') -> NoDup (LTableName <$> tables) -> table ∈ tables ->
  exists alg topo, convertTable table = Ok (alg, topo) /\ algs' !! LTableName table = Some alg /\ topos' !! LTableName table = Some topo.
Proof.
  revert algs topos. induction tables as [|t tables IH]; intros algs topos; cbn; [by intros _ _ ?%not_elem_of_nil|].
  intros ([alg topo] & Ht & Hc)%bind_Ok [Hn Hd]%NoDup_cons [->|Hin]%elem_of_cons; [|by eapply IH].
  exists alg, topo. split; [done|]. destruct (convertTables_other _ _ _ _ _ _ Hc Hn) as [-> ->]. by rewrite !lookup_insert_eq.
Qed.
Lemma lowered_other tables name : name ∉ ToLower <$> tables -> lowered tables !! name = None.
Proof.
  unfold lowered. induction tables as [|t tables IH] using rev_ind; [done|]. rewrite foldl_app, fmap_app. cbn.
  intros [Hn Hne]%not_elem_of_app. rewrite lookup_insert_ne; [by apply IH|]. intros <-. apply Hne, list_elem_of_singleton. done.
Qed.
Lemma distinct_covers t : topology_ok t -> NoDup (TableSlice t) -> Permutation (TableSlice t) (upto 0 (TableSliceLen t)).
Proof.
  intros [Hl Ht] Hn. rewrite Hl. apply NoDup_range_perm; [done|]. intros x Hx. rewrite <- Hl. by apply Ht.
Qed.

End convert.

(** ** An example: the school of [Optimizer] from its configuration *)
Definition ready {A} (_ : A) : res unit := Ok tt.
Definition student : LogicTable :=
  mkTable "school" "student" true (Some (mkRule "uid" "NumberMod" [])) (Some (mkGenerator "snowflake" 1 "")) sample_config.
Definition schoolConfig : ShardingConfig := mkConfig ["school_0"; "school_1"]%string ["Settings"%string] [student].
Definition configuredSchool : Optimizer :=
  match NewShardingExecutor (fun _ _ _ => Ok tt) ready ready schoolConfig with Ok o => o | _ => mkOptimizer ∅ [] ∅ ∅ ∅ end.


(** The plan of the configured school is the one of [Optimizer]. *)
Example configured_plan :
  optimizeSelect no_eval [] configuredSchool (Some "uid"%string) "student" (Some sample_clause)
    = Ok (QueryOnMultiDBPlan "uid" [("school_0"%string, ["student_2"%string]); ("school_1"%string, ["student_3"%string])]).
Proof. vm_compute. reflexivity. Qed.
(** A table without a rule or a generator, both of which the configuration may leave out, ends the
    process instead of being refused. *)
Example missing_generator_panics :
  NewShardingExecutor (fun _ _ _ => Ok tt) ready ready
    (mkConfig [] [] [mkTable "school" "student" true (Some (mkRule "uid" "NumberMod" [])) None sample_config]) = Panic.
Proof. vm_compute. reflexivity. Qed.
