(* ===== verification/SchemaPlans.v ===== *)
(** * SHOW and index statements: [pkg/optimize/optimize_show_*.go],
    [optimize_index.go], [Optimize], [pkg/plan/show_tables.go]

    These plans refer to the statement they were made from.  The name of its
    table (and the pattern of SHOW TABLE STATUS) is a cell that copies of the
    statement share, so a plan is executed with the name the cell holds then. *)
From Stdlib Require Import ZArith Lia List Ascii String.
From stdpp Require Import base gmap list strings.
From S2P Require Import Prelude GoText Hints Encoding Layout Conn Packets PacketSpec GoTime DateTime Rows Stmt Collations Handshake Listener Topology Database Group Executors PlanText Plans Values Condition Sharding Shard ConditionParse Optimizer.

Local Open Scope Z_scope.

Definition cells : Type := gmap nat string.

(** Plans over a statement with the cell [stmt]; a group that does not exist is
    the nil executor, on which executing panics. *)
Inductive schemaPlan :=
| DirectPlan (executor : string) (stmt : nat)
| MultiDirectPlan (plans : list (string * nat))
| ShowTablesPlan (executor : string) (logicTables : list string).

(** [o.executors[0]] *)
Definition firstExecutor (o : Optimizer) : res string := from_option Panic (head (executors o)).
Definition cellOf (h : cells) (stmt : nat) : res string := from_option Panic (h !! stmt).

(** [topology.DBs[group][0]] *)
Definition firstTable (t : Topology) (group : string) : res string :=
  from_option Panic (tables ← DBs t !! group; head tables).

Section optimize.
Context `{MapOrder} (o : Optimizer).

(** *** CREATE INDEX and DROP INDEX *)

(** One turn of the loops: the statement is copied, but not its table. *)
Definition indexTurn (stmt : nat) (acc : cells * list (string * nat)) (visited : string * string) : cells * list (string * nat) :=
  let '(h, plans) := acc in
  let '(db, table) := visited in
  (<[stmt := table]> h, plans ++ [(db, stmt)]).

Definition tablesOf (t : Topology) : list (string * string) :=
  visit 0 (map_to_list (DBs t)) ≫= (fun '(db, tables) => pair db <$> tables).

(** [optimizeCreateIndex] and [optimizeDropIndex], which differ in the type of
    the statement. *)
Definition optimizeIndex (h : cells) (stmt : nat) : res (schemaPlan * cells) :=
  tableName ← cellOf h stmt;
  if default false (globalTables o !! ToLower tableName)
  then executor ← firstExecutor o; Ok (DirectPlan executor stmt, h)
  else
    match topologies o !! tableName with
    | None => Err (noTopology tableName)
    | Some topology =>
      let '(h', plans) := foldl (indexTurn stmt) (h, []) (tablesOf topology) in
      Ok (MultiDirectPlan plans, h')
    end.

Definition optimizeCreateIndex : cells -> nat -> res (schemaPlan * cells) := optimizeIndex.
Definition optimizeDropIndex : cells -> nat -> res (schemaPlan * cells) := optimizeIndex.

(** *** SHOW *)
Inductive showType := ShowTables | ShowTableStatus | ShowColumns | ShowIndex | ShowOther.

Definition optimizeShowTables (tp : showType) : res schemaPlan :=
  match tp with
  | ShowTables => executor ← firstExecutor o; Ok (ShowTablesPlan executor (fst <$> visit 1 (map_to_list (topologies o))))
  | _ => Err "statement must be show tables stmt"
  end.

(** The name in the statement is replaced by that of a table of the first group. *)
Definition retarget (h : cells) (stmt : nat) : res (schemaPlan * cells) :=
  executor ← firstExecutor o;
  tableName ← cellOf h stmt;
  match topologies o !! tableName with
  | Some topology => table ← firstTable topology executor; Ok (DirectPlan executor stmt, <[stmt := table]> h)
  | None => Ok (DirectPlan executor stmt, h)
  end.
Definition optimizeShowTableMeta (tp : showType) (h : cells) (stmt : nat) : res (schemaPlan * cells) :=
  match tp with
  | ShowColumns | ShowIndex => retarget h stmt
  | _ => Err "statement must be show columns stmt or show index stmt"
  end.

(** [pattern] is the cell of the LIKE pattern; a statement without one panics. *)
Definition optimizeShowTableStatus (tp : showType) (h : cells) (pattern : option nat) : res (schemaPlan * cells) :=
  match tp with
  | ShowTableStatus => stmt ← from_option Panic pattern; retarget h stmt
  | _ => Err "statement must be show table status stmt"
  end.

(** *** The dispatch *)
Inductive shardStmt :=
| SSelect (pkName : option string) (tableName : string) (clause : option expr)
| SInsert (pkName : option string) (commandType : CommandType) (nextID : res Z) (tableName : string)
    (columns : list string) (lists : list (list string))
| SDelete (tableName : string) (clause : option expr)
| SUpdate (tableName : string) (clause : option expr)
| SShow (tp : showType) (table pattern : option nat)
| SCreateIndex (stmt : nat)
| SDropIndex (stmt : nat)
| SOther.

Definition optimize `{KeySort} (ev : evaluators) (args : list value) (sqlText : string) (h : cells) (s : shardStmt) :
    res ((Plan + schemaPlan) * cells) :=
  let unsupported := Err ("unsupported statement type, sql: " +:+ sqlText)%string in
  let rows r := p ← r; Ok (inl p, h) in
  let schema r := '(p, h') ← r; Ok (inr p, h') in
  match s with
  | SSelect pk t clause => rows (optimizeSelect ev args o pk t clause)
  | SInsert pk cmd id t columns lists => rows (optimizeInsert args o pk cmd id t columns lists)
  | SDelete t clause => rows (optimizeDelete ev args o t clause)
  | SUpdate t clause => rows (optimizeUpdate ev args o t clause)
  | SShow ShowTableStatus _ pattern => schema (optimizeShowTableStatus ShowTableStatus h pattern)
  | SShow ShowTables _ _ => p ← optimizeShowTables ShowTables; Ok (inr p, h)
  | SShow ShowColumns table _ => schema (stmt ← from_option Panic table; optimizeShowTableMeta ShowColumns h stmt)
  | SShow ShowIndex table _ => schema (stmt ← from_option Panic table; optimizeShowTableMeta ShowIndex h stmt)
  | SShow ShowOther _ _ => unsupported
  | SCreateIndex stmt => schema (optimizeCreateIndex h stmt)
  | SDropIndex stmt => schema (optimizeDropIndex h stmt)
  | SOther => unsupported
  end.
End optimize.

(** ** SHOW TABLES *)
Definition isWord (c : ascii) : bool :=
  let n := chr c in
  ((48 <=? n) && (n <=? 57)) || ((65 <=? n) && (n <=? 90)) || ((97 <=? n) && (n <=? 122)) || (n =? 95).

(** [^(\w+)_(\d+)$]: digits hold no underscore, so the last one separates. *)
Definition tableNameMatch (s : string) : bool :=
  match cut_last s "_" with
  | Some (name, index) =>
    negb (String.eqb name "") && forallb isWord (list_of name) && negb (String.eqb index "") && allDigits index
  | None => false
  end.

Fixpoint filterTable (table : string) (logicTables : list string) : string * bool :=
  match logicTables with
  | [] => (table, false)
  | logicTable :: logicTables' =>
    if tableNameMatch table && Contains table logicTable then (logicTable, true) else filterTable table logicTables'
  end.

(** The name in the first column: the row must be a text row with bytes there. *)
Definition rowName (r : anyRow) : res string :=
  match r with
  | ATextRow t =>
    match Values t with
    | Some v :: _ => match Val v with GBytes b => Ok (string_of b) | _ => Panic end
    | _ => Panic
    end
  | ABinaryRow _ => Panic
  end.
Definition setName (r : anyRow) (name : string) : anyRow :=
  match r with
  | ATextRow t =>
    match Values t with
    | Some v :: vs => ATextRow (mkRow (Content t) (Columns t) (Rows.decoded t)
        (Some (mkValue (Typ v) (VFlags v) (VLen v) (GBytes (bytes_of name)) (Raw v)) :: vs))
    | _ => r
    end
  | ABinaryRow _ => r
  end.

(** The loop over the rows; [seen] is [rowMap]. *)
Fixpoint showRows (logicTables : list string) (rows : list anyRow) (seen : gset string) : res (list anyRow) :=
  match rows with
  | [] => Ok []
  | r :: rows' =>
    r ← decodeRow r;
    name ← rowName r;
    let '(table, filtered) := filterTable name logicTables in
    let r := if filtered : bool then setName r table else r in
    if bool_decide (table ∈ seen) then showRows logicTables rows' seen
    else rest ← showRows logicTables rows' ({[table]} ∪ seen); Ok (r :: rest)
  end.
Definition showResult (logicTables : list string) (r : queryResult) : res queryResult :=
  rows ← showRows logicTables (resRows r) ∅;
  Ok (mkQueryResult (resFields r) (resAffected r) (resInsertId r) rows).

Section execute.
Context {B : Type} `{Backend B} (rnd rnd' : Z).
(** What the statement restores to, given the name of its table, and the text of
    SHOW TABLES. *)
Context (restore : string -> part) (showText : part).

Definition ShowTables_Execute (executor : string) (logicTables : list string) (text : part) (ctx : dbContext) : SEM (B := B) reply :=
  sql ← inWorld (ended (asGoError text));
  match sql with
  | inr e => mret (inr e)
  | inl sql =>
    rep ← onShard executor (fun gr => Group_Query rnd rnd' gr ctx (bytes_of sql));
    match rep with
    | inr e => mret (inr e)
    | inl (None, _) => inWorld panic
    | inl (Some r, warns) =>
      shown ← inWorld (ended (asGoError (showResult logicTables r)));
      mret (match shown with inl r => inl (Some r, warns) | inr e => inr e end)
    end
  end.

(** The statements are restored when the plan is executed. *)
Definition SchemaPlan_Execute (h : cells) (p : schemaPlan) (args : list goValue) (cmd : Z) (ctx : dbContext) : SEM (B := B) reply :=
  let text stmt := name ← cellOf h stmt; restore name in
  match p with
  | DirectPlan executor stmt => DirectPlan_Execute rnd rnd' executor (text stmt) args cmd ctx
  | MultiDirectPlan plans =>
    MultiDirect_Execute rnd rnd' ((fun '(db, stmt) => (db, text stmt, args)) <$> plans) cmd ctx (inl (None, 0))
  | ShowTablesPlan executor logicTables => ShowTables_Execute executor logicTables showText ctx
  end.
End execute.

(** ** Index statements name one table *)
Section shared.
Context `{MapOrder}.

Lemma indexTurns_plans stmt visited h plans :
  (foldl (indexTurn stmt) (h, plans) visited).2 = plans ++ ((fun x => (x.1, stmt)) <$> visited).
Proof.
  revert h plans. induction visited as [|[db table] vs IH]; intros h plans; cbn; [by rewrite app_nil_r|].
  rewrite IH, <- app_assoc. done.
Qed.
Lemma indexTurns_cell stmt visited h plans :
  (foldl (indexTurn stmt) (h, plans) visited).1 !! stmt =
  match last visited with Some x => Some x.2 | None => h !! stmt end.
Proof.
  revert h plans. induction visited as [|[db table] vs IH]; intros h plans; [done|].
  cbn [foldl indexTurn]. rewrite IH. destruct vs as [|y vs]; [apply lookup_insert_eq|].
  rewrite last_cons_cons. destruct (last (y :: vs)) eqn:E; [done | by apply last_None in E].
Qed.

(** C33: An index is created on one table, over and over.  The plans of CREATE INDEX
    (and DROP INDEX) on a sharded table visit every table of its topology, but all
    of them send the statement with the name of the table visited last. *)
Theorem index_names_last_table o h stmt tableName topology db table visited :
  h !! stmt = Some tableName -> globalTables o !! ToLower tableName = None ->
  topologies o !! tableName = Some topology -> tablesOf topology = visited ++ [(db, table)] ->
  exists plans h', optimizeIndex o h stmt = Ok (MultiDirectPlan plans, h') /\
    length plans = length (tablesOf topology) /\
    Forall (fun p => cellOf h' p.2 = Ok table) plans.
Proof.
  intros Hc Hg Ht Hv. unfold optimizeIndex, cellOf. rewrite Hc. cbn. rewrite Hg, Ht. cbn.
  pose proof (indexTurns_plans stmt (tablesOf topology) h []) as HP.
  pose proof (indexTurns_cell stmt (tablesOf topology) h []) as HC.
  destruct (foldl (indexTurn stmt) (h, []) (tablesOf topology)) as [h' plans]. cbn in HP, HC. subst plans.
  eexists _, _. split; [done|]. split; [by rewrite length_fmap|].
  rewrite Hv, last_snoc in HC. apply Forall_fmap, Forall_true. intros x. cbn. by rewrite HC.
Qed.
End shared.


Definition shardedStudent : Optimizer :=
  match ParseTopology "school" "student" sample_config with
  | Ok t => mkOptimizer ∅ ["school_0"; "school_1"]%string ∅ ∅ {[ "student"%string := t ]}
  | _ => mkOptimizer ∅ [] ∅ ∅ ∅
  end.
Lemma index_names_last_table_witness :
  exists t table plans h',
    topologies shardedStudent !! "student"%string = Some t /\
    optimizeIndex shardedStudent {[ 0%nat := "student"%string ]} 0 = Ok (MultiDirectPlan plans, h') /\
    length plans = length (tablesOf t) /\ Forall (fun p => cellOf h' p.2 = Ok table) plans.
Proof.
  assert (HE : exists t db table visited, topologies shardedStudent !! "student"%string = Some t /\
    tablesOf t = visited ++ [(db, table)]).
  { eexists _, "school_0"%string, "student_2"%string,
      [("school_1", "student_3"); ("school_1", "student_4"); ("school_0", "student_0"); ("school_0", "student_1")]%string.
    split; vm_compute; reflexivity. }
  destruct HE as (t & db & table & visited & Ht & Hv).
  destruct (index_names_last_table shardedStudent {[ 0%nat := "student"%string ]} 0 "student" t db table visited)
    as (plans & h' & E & El & F); [by vm_compute | by vm_compute | exact Ht | exact Hv |].
  exact (ex_intro _ t (ex_intro _ table (ex_intro _ plans (ex_intro _ h' (conj Ht (conj E (conj El F))))))).
Defined.

(** ** SHOW TABLES lists every logical name once *)

Lemma rowName_setName r n name : rowName r = Ok n -> rowName (setName r name) = Ok name.
Proof.
  destruct r as [t|t]; [|done]. cbn. destruct (Values t) as [|[v|] vs] eqn:E; try done.
  intros _. cbn. by rewrite string_of_bytes_of.
Qed.
Lemma filterTable_unchanged table ls : (filterTable table ls).2 = false -> (filterTable table ls).1 = table.
Proof. induction ls as [|l ls IH]; cbn; [done|]. case_match; [done | apply IH]. Qed.

(** The names the rows of the database have. *)
Fixpoint physicalNames (rows : list anyRow) : res (list string) :=
  match rows with
  | [] => Ok []
  | r :: rows' => r ← decodeRow r; name ← rowName r; names ← physicalNames rows'; Ok (name :: names)
  end.

Lemma showRows_names ls rows seen out names :
  showRows ls rows seen = Ok out -> physicalNames rows = Ok names ->
  exists shown, mapM_res rowName out = Ok shown /\ NoDup shown /\
    (forall n, n ∈ shown <-> n ∈ (fun m => (filterTable m ls).1) <$> names /\ n ∉ seen).
Proof.
  revert seen out names. induction rows as [|r rows IH]; intros seen out names; cbn [showRows physicalNames].
  { intros [= <-] [= <-]. exists []. split; [done|]. split; [constructor|]. set_solver. }
  destruct (decodeRow r) as [r'| |]; cbn; try done. destruct (rowName r') as [name| |] eqn:En; cbn; try done.
  destruct (filterTable name ls) as [table filtered] eqn:Ef. destruct (physicalNames rows) as [ns| |] eqn:Ep; cbn; try done.
  intros Hs [= <-]. assert (Ht : (filterTable name ls).1 = table) by (by rewrite Ef).
  case_bool_decide as Hseen.
  - destruct (IH seen out ns Hs eq_refl) as (shown & E & Hnd & Hin). exists shown. split_and!; [done..|].
    intros n. rewrite Hin, fmap_cons, elem_of_cons, Ht. set_solver.
  - destruct (showRows ls rows ({[table]} ∪ seen)) as [rest| |] eqn:Er; cbn in Hs; try done. injection Hs as <-.
    destruct (IH _ rest ns Er eq_refl) as (shown & E & Hnd & Hin). exists (table :: shown).
    assert (Hname : rowName (if filtered then setName r' table else r') = Ok table).
    { destruct filtered; [by eapply rowName_setName|].
      pose proof (filterTable_unchanged name ls) as Hu. rewrite Ef in Hu. cbn in Hu. by rewrite (Hu eq_refl). }
    split_and!.
    + cbn [mapM_res]. rewrite Hname. cbn. by rewrite E.
    + constructor; [|done]. rewrite Hin. set_solver.
    + intros n. rewrite elem_of_cons, Hin, fmap_cons, elem_of_cons, Ht.
      destruct (decide (n = table)) as [->|]; set_solver.
Qed.

(** SHOW TABLES lists each name once: when the database names its tables
    [names], the rows returned carry, each exactly once, the names that
    [filterTable] gives those tables: logical names for physical tables. *)
Theorem show_tables_distinct ls r r' names :
  showResult ls r = Ok r' -> physicalNames (resRows r) = Ok names ->
  exists shown, mapM_res rowName (resRows r') = Ok shown /\ NoDup shown /\
    (forall n, n ∈ shown <-> n ∈ (fun m => (filterTable m ls).1) <$> names).
Proof.
  unfold showResult. destruct (showRows ls (resRows r) ∅) as [rows| |] eqn:E; cbn; try done. intros [= <-] Hn.
  destruct (showRows_names ls _ _ _ _ E Hn) as (shown & ? & ? & Hin). exists shown. split_and!; [done..|].
  intros n. rewrite Hin. set_solver.
Qed.

Definition showRow (s : string) : anyRow :=
  ATextRow (mkRow [] [] true [Some (mkValue FieldTypeVarString 0 0 (GBytes (bytes_of s)) (bytes_of s))]).
Definition shownTables : queryResult := mkQueryResult [] 0 0 [showRow "student_0"; showRow "city"; showRow "student_1"].
Lemma show_tables_distinct_witness :
  exists r' shown, showResult ["student"%string] shownTables = Ok r' /\ mapM_res rowName (resRows r') = Ok shown /\ NoDup shown /\
    (forall n, n ∈ shown <-> n ∈ (fun m => (filterTable m ["student"%string]).1) <$> ["student_0"; "city"; "student_1"]%string).
Proof.
  eexists. destruct (show_tables_distinct ["student"%string] shownTables
    (mkQueryResult [] 0 0 [setName (showRow "student_0") "student"; showRow "city"]) ["student_0"; "city"; "student_1"]%string)
    as (shown & ? & ? & ?); [vm_compute; reflexivity | vm_compute; reflexivity |].
  exists shown. split; [vm_compute; reflexivity | done].
Defined.

(** The name of a table that merely contains a logical name is lost: with a
    sharded table [student], the unrelated [old_student_archive_2] is listed as
    [student]. *)
Example filterTable_contains : filterTable "old_student_archive_2" ["student"%string] = ("student"%string, true).
Proof. reflexivity. Qed.
