(* ===== verification/Script.v ===== *)
(** * Evaluating SQL functions: [pkg/function/function.go], [js_func.go], the padding
    functions of [pkg/misc/strings.go]

    The proxy evaluates expressions without columns itself: an expression is
    written as a JavaScript expression, which becomes the body of a function of a
    runtime; functions are kept by the hash of their text.  The engine is the class
    [JsEngine]. *)
From Stdlib Require Import ZArith Lia List.
From stdpp Require Import base gmap list strings.
From S2P Require Import Prelude GoText Encoding Utf8 Literals Packets Values SqlText.

Local Open Scope Z_scope.

(** ** Expressions *)

(** [Op.Format] *)
Definition Op_literal (o : Op) : string :=
  match o with
  | LogicAnd => "AND" | LogicOr => "OR" | LogicXor => "XOR" | LeftShift => "<<" | RightShift => ">>"
  | GE => ">=" | LE => "<=" | EQ => "=" | NE => "!=" | LT => "<" | GT => ">"
  | Plus => "+" | Minus => "-" | And => "&" | Or => "|" | Mod => "%" | Xor => "^" | Div => "/" | Mul => "*"
  | Not => "not " | Not2 => "!" | BitNeg => "~" | IntDiv => "DIV" | NullEQ => "<=>" | In_ => "IN" | Like => "LIKE"
  | Case => "CASE" | Regexp => "REGEXP" | IsNull => "IS NULL" | IsTruth => "IS TRUE" | IsFalsity => "IS FALSE"
  end%string.

(** A literal: numbers that are not integers carry their text; [DOther] is a kind
    [Format] refuses. *)
Inductive datum :=
| DNull | DInt (z : Z) (boolean : bool) | DUint (z : Z) | DString (s : string) | DNumber (text : string) | DOther.

(** [types.FieldType] of a cast *)
Record castType := mkCastType { castTp : Z; castFlag : Z; castFlen : Z; castDecimal : Z; castCharset : string }.

Inductive sqlExpr :=
| SColumn
| SValue (v : datum)
| SParam (order : Z)
| SBinary (op : Op) (l r : sqlExpr)
| SUnary (op : Op) (v : sqlExpr)
| SParen (e : sqlExpr)
| SFunc (name : string) (args : list sqlExpr)
| SAggregate
| SCast (tp : castType) (e : sqlExpr)
| SCase (value : option sqlExpr) (clauses : list (sqlExpr * sqlExpr)) (else_ : option sqlExpr)
| SOther (type : string).

(** ** [strconv.Quote]; what is printable above ASCII is a table of [unicode] *)
Section quote.
Context (printable : Z -> bool).

Definition isPrint (r : Z) : bool := if r <? 128 then within 32 126 r else printable r.
Definition hexDigits (n : nat) (x : Z) : bytes :=
  map (fun i => let d := (x / 16 ^ Z.of_nat i) mod 16 in if d <? 10 then 48 + d else 87 + d) (rev (seq 0 n)).
Definition quoteRune (r : Z) : bytes :=
  if (r =? 34) || (r =? 92) then [92; r]
  else if isPrint r then encodeRune r
  else if r =? 7 then [92; 97] else if r =? 8 then [92; 98] else if r =? 12 then [92; 102] else if r =? 10 then [92; 110]
  else if r =? 13 then [92; 114] else if r =? 9 then [92; 116] else if r =? 11 then [92; 118]
  else if (r <? 32) || (r =? 127) then [92; 120] ++ hexDigits 2 r
  else if r <? 65536 then [92; 117] ++ hexDigits 4 r
  else [92; 85] ++ hexDigits 8 r.
Fixpoint quoteLoop (fuel : nat) (s : bytes) : bytes :=
  match fuel, s with
  | S fuel', b :: _ =>
    let '(r, w) := decodeRune s in
    (if (r =? RuneError) && (w =? 1)%nat then [92; 120] ++ hexDigits 2 b else quoteRune r) ++ quoteLoop fuel' (drop w s)
  | _, _ => []
  end.
Definition Quote (s : string) : string :=
  let b := bytes_of s in string_of ([34] ++ quoteLoop (length b) b ++ [34]).

(** [ValueExpr.Format] *)
Definition Format (v : datum) : res string :=
  match v with
  | DNull => Ok "NULL"
  | DInt z true => Ok (if (0 <? z)%Z then "TRUE" else "FALSE")
  | DInt z false => Ok (FormatInt z)
  | DUint z => Ok (FormatUint z)
  | DString s => Ok (Quote s)
  | DNumber text => Ok text
  | DOther => Panic
  end%string.

(** ** Scripts *)
Definition cannotEval : string := "cannot eval function with column name".
Definition funcName (name : string) : string := "$_" +:+ name.
Definition inApostrophes (s : string) : string := "'" +:+ string_of (Escape (bytes_of s) EscapeSingleQuote) +:+ "'".
Definition positive (n : Z) : string := if 0 <? n then FormatInt n else "0".

(** The text in front of the operand of a cast. *)
Definition castHead (tp : castType) : res string :=
  let isTp t := castTp tp =? t in
  if isTp FieldTypeString then Err "cast to binary is not supported yet"
  else if isTp FieldTypeVarString then
    if hasFlag (castFlag tp) BinaryFlag then Err "cast to binary is not supported yet"
    else Ok (funcName "CAST_CHAR" +:+ "(" +:+ positive (castFlen tp) +:+ ", " +:+
             (if String.eqb (castCharset tp) EmptyString then "''" else inApostrophes (castCharset tp)) +:+ ", ")
  else if isTp FieldTypeDate then Ok (funcName "CAST_DATE" +:+ "(")
  else if isTp FieldTypeYear then Err "cast to year is not supported yet"
  else if isTp FieldTypeDateTime then Ok (funcName "CAST_DATETIME" +:+ "(")
  else if isTp FieldTypeDecimal then
    Ok (funcName "CAST_DECIMAL" +:+ "(" +:+ positive (castFlen tp) +:+ ", " +:+ positive (castDecimal tp) +:+ ", ")
  else if isTp FieldTypeTime then Ok (funcName "CAST_TIME" +:+ "(")
  else if isTp FieldTypeLongLong then
    Ok (funcName (if hasFlag (castFlag tp) UnsignedFlag then "CAST_UNSIGNED" else "CAST_SIGNED") +:+ "(")
  else if isTp FieldTypeJSON then Err "cast to json is not supported yet"
  else if isTp FieldTypeDouble then Err "cast to double is not supported yet"
  else if isTp FieldTypeFloat then Err "cast to float is not supported yet"
  else Ok EmptyString.

Definition join (sep : string) (l : list string) : string :=
  match l with [] => EmptyString | s :: l' => fold_left (fun acc t => acc +:+ sep +:+ t) l' s end.

Definition closing (n : nat) : string := of_list (replicate n (ascii_of_Z 41)).

(** [argument]: written by [handleArg], otherwise by [expr2script]. *)
Fixpoint toScript (argument : bool) (node : sqlExpr) : res string :=
  match node with
  | SColumn => Err cannotEval
  | SValue v => Format v
  | SParam order =>
    if argument then Ok ("arguments[" +:+ FormatInt order +:+ "]")
    else Err "expression within *driver.ParamMarkerExpr is not supported yet"
  | SBinary op l r =>
    a ← toScript false l; b ← toScript false r;
    Ok (a +:+ " " +:+ Op_literal op +:+ b)
  | SUnary op v =>
    if argument then Ok EmptyString
    else a ← toScript false v; Ok ("$_unary('" +:+ Op_literal op +:+ "', " +:+ a +:+ ")")
  | SParen e =>
    if argument then Ok EmptyString else a ← toScript false e; Ok ("(" +:+ a +:+ ")")
  | SFunc name args =>
    if String.eqb (ToLower name) "convert" then
      match args with
      | e :: SValue (DString charset) :: _ =>
        a ← toScript false e; Ok (funcName "CAST_CHARSET(" +:+ inApostrophes charset +:+ a +:+ ", ")
      | _ => Panic
      end
    else
      l ← mapM_res (toScript true) args;
      Ok (funcName (ToUpper name) +:+ "(" +:+ join ", " l +:+ ")")
  | SAggregate => if argument then Ok EmptyString else Err "aggregate function should not appear here"
  | SCast tp e =>
    head ← castHead tp; a ← toScript false e; Ok (head +:+ a +:+ ")")
  | SCase value clauses else_ =>
    header ← (match value with Some v => toScript false v | None => Ok EmptyString end);
    branches ← mapM_res (fun '(when, then_) =>
      w ← toScript true when; t ← toScript true then_;
      Ok (funcName "IF" +:+ "(" +:+ w +:+ (if String.eqb header EmptyString then EmptyString else " == (" +:+ header +:+ ")") +:+ ", " +:+ t)) clauses;
    e ← (match else_ with Some e => toScript true e | None => Ok "null" end);
    Ok (join ", " branches +:+ ", " +:+ e +:+ closing (length clauses))
  | SOther type => if argument then Ok EmptyString else Err ("expression within " +:+ type +:+ " is not supported yet")
  end%string.
Definition expr2script : sqlExpr -> res string := toScript false.
Definition handleArg : sqlExpr -> res string := toScript true.
Definition mathOperation2script (op : Op) (l r : sqlExpr) : res string := toScript false (SBinary op l r).
Definition func2script (name : string) (args : list sqlExpr) : res string := toScript false (SFunc name args).
Definition castFunc2script (tp : castType) (e : sqlExpr) : res string := toScript false (SCast tp e).
Definition caseWhenFunc2script (value : option sqlExpr) (clauses : list (sqlExpr * sqlExpr)) (else_ : option sqlExpr) : res string :=
  toScript false (SCase value clauses else_).
End quote.

(** ** What a script says *)

(** The script as a tree; [JNothing] is an operand that was left out. *)
Inductive jsExpr :=
| JText (s : string)
| JBinary (op : string) (l r : jsExpr)
| JParen (e : jsExpr)
| JEqual (l r : jsExpr)
| JCall (name : string) (args : list jsExpr)
| JNothing.

Fixpoint render (e : jsExpr) : string :=
  match e with
  | JText s => s
  | JBinary op l r => render l +:+ " " +:+ op +:+ render r
  | JParen e => "(" +:+ render e +:+ ")"
  | JEqual l r => render l +:+ " == (" +:+ render r +:+ ")"
  | JCall name args => name +:+ "(" +:+ join ", " (render <$> args) +:+ ")"
  | JNothing => EmptyString
  end%string.

(** CASE as nested calls: the condition and the result of the first clause, then
    the rest. *)
Fixpoint nestedIf (clauses : list (jsExpr * jsExpr)) (else_ : jsExpr) : jsExpr :=
  match clauses with
  | [] => else_
  | (w, t) :: clauses' => JCall "$_IF" [w; t; nestedIf clauses' else_]
  end.
Definition orEqual (header : option jsExpr) (w : jsExpr) : jsExpr :=
  match header with Some h => JEqual w h | None => w end.

Section compile.
Context (printable : Z -> bool).

Definition castArgs (tp : castType) : list jsExpr :=
  if castTp tp =? FieldTypeVarString then
    [JText (positive (castFlen tp)); JText (if String.eqb (castCharset tp) EmptyString then "''" else inApostrophes (castCharset tp))]
  else if castTp tp =? FieldTypeDecimal then [JText (positive (castFlen tp)); JText (positive (castDecimal tp))]
  else [].
Definition castName (tp : castType) : string :=
  let isTp t := castTp tp =? t in
  if isTp FieldTypeVarString then "$_CAST_CHAR" else if isTp FieldTypeDate then "$_CAST_DATE"
  else if isTp FieldTypeDateTime then "$_CAST_DATETIME" else if isTp FieldTypeDecimal then "$_CAST_DECIMAL"
  else if isTp FieldTypeTime then "$_CAST_TIME"
  else if hasFlag (castFlag tp) UnsignedFlag then "$_CAST_UNSIGNED" else "$_CAST_SIGNED".

(** The reference: every node is a call, an operation or a text. *)
Fixpoint compile (argument : bool) (node : sqlExpr) : res jsExpr :=
  match node with
  | SColumn => Err cannotEval
  | SValue v => s ← Format printable v; Ok (JText s)
  | SParam order =>
    if argument then Ok (JText ("arguments[" +:+ FormatInt order +:+ "]"))
    else Err "expression within *driver.ParamMarkerExpr is not supported yet"
  | SBinary op l r => a ← compile false l; b ← compile false r; Ok (JBinary (Op_literal op) a b)
  | SUnary op v =>
    if argument then Ok JNothing
    else a ← compile false v; Ok (JCall "$_unary" [JText ("'" +:+ Op_literal op +:+ "'"); a])
  | SParen e => if argument then Ok JNothing else a ← compile false e; Ok (JParen a)
  | SFunc name args => l ← mapM_res (compile true) args; Ok (JCall (funcName (ToUpper name)) l)
  | SAggregate => if argument then Ok JNothing else Err "aggregate function should not appear here"
  | SCast tp e => _ ← castHead tp; a ← compile false e; Ok (JCall (castName tp) (castArgs tp ++ [a]))
  | SCase value clauses else_ =>
    header ← (match value with Some v => h ← compile false v; Ok (Some h) | None => Ok None end);
    branches ← mapM_res (fun '(when, then_) => w ← compile true when; t ← compile true then_; Ok (orEqual header w, t)) clauses;
    e ← (match else_ with Some e => compile true e | None => Ok (JText "null") end);
    Ok (nestedIf branches e)
  | SOther type => if argument then Ok JNothing else Err ("expression within " +:+ type +:+ " is not supported yet")
  end%string.
End compile.

(** ** Induction on expressions *)
Section expr_ind.
Context (P : sqlExpr -> Prop).
Hypothesis HColumn : P SColumn.
Hypothesis HValue : forall v, P (SValue v).
Hypothesis HParam : forall n, P (SParam n).
Hypothesis HBinary : forall op l r, P l -> P r -> P (SBinary op l r).
Hypothesis HUnary : forall op v, P v -> P (SUnary op v).
Hypothesis HParen : forall e, P e -> P (SParen e).
Hypothesis HFunc : forall name args, Forall P args -> P (SFunc name args).
Hypothesis HAggregate : P SAggregate.
Hypothesis HCast : forall tp e, P e -> P (SCast tp e).
Hypothesis HCase : forall value clauses else_,
  (forall v, value = Some v -> P v) -> Forall (fun c => P (fst c) /\ P (snd c)) clauses -> (forall e, else_ = Some e -> P e) ->
  P (SCase value clauses else_).
Hypothesis HOther : forall t, P (SOther t).

Fixpoint sqlExpr_nested_ind (e : sqlExpr) : P e :=
  match e with
  | SColumn => HColumn
  | SValue v => HValue v
  | SParam n => HParam n
  | SBinary op l r => HBinary op l r (sqlExpr_nested_ind l) (sqlExpr_nested_ind r)
  | SUnary op v => HUnary op v (sqlExpr_nested_ind v)
  | SParen e => HParen e (sqlExpr_nested_ind e)
  | SFunc name args =>
    HFunc name args ((fix go l : Forall P l := match l with
      | [] => Forall_nil_2 _ | x :: l' => Forall_cons_2 _ _ _ (sqlExpr_nested_ind x) (go l') end) args)
  | SAggregate => HAggregate
  | SCast tp e => HCast tp e (sqlExpr_nested_ind e)
  | SCase value clauses else_ =>
    HCase value clauses else_
      (match value with
       | Some v => fun v' H => eq_ind v P (sqlExpr_nested_ind v) v' (f_equal (default v) H)
       | None => fun v' H => match (match H in _ = o return match o with Some _ => False | None => True end with eq_refl => I end) with end
       end)
      ((fix go l : Forall (fun c => P (fst c) /\ P (snd c)) l := match l with
        | [] => Forall_nil_2 _
        | (w, t) :: l' => Forall_cons_2 _ (w, t) _ (conj (sqlExpr_nested_ind w) (sqlExpr_nested_ind t)) (go l') end) clauses)
      (match else_ with
       | Some v => fun v' H => eq_ind v P (sqlExpr_nested_ind v) v' (f_equal (default v) H)
       | None => fun v' H => match (match H in _ = o return match o with Some _ => False | None => True end with eq_refl => I end) with end
       end)
  | SOther t => HOther t
  end.
End expr_ind.

(** ** The text of a script is that of its tree *)
Lemma join_fold sep l acc : fold_left (fun acc t => acc +:+ sep +:+ t)%string l acc = match l with [] => acc | _ => acc +:+ sep +:+ join sep l end%string.
Proof.
  revert acc. induction l as [|s l IH]; intros acc; [done|]. cbn [fold_left join]. rewrite !IH. destruct l; [done|].  by rewrite !str_assoc.
Qed.
Lemma join_cons sep s l : join sep (s :: l) = match l with [] => s | _ => s +:+ sep +:+ join sep l end%string.
Proof. cbn [join]. apply join_fold. Qed.
Lemma closing_S n : closing (S n) = (closing n +:+ ")")%string.
Proof. unfold closing. induction n as [|n IH]; [done|]. exact (f_equal (String (ascii_of_Z 41)) IH). Qed.

Definition hasText (s : string) : bool := negb (String.eqb s EmptyString).
Definition castKnown (tp : castType) : bool := match castHead tp with Ok h => hasText h | _ => true end.

(** Expressions whose nodes [function.go] writes completely: CONVERT and casts to
    types it does not know are left out. *)
Fixpoint supported (e : sqlExpr) : bool :=
  match e with
  | SValue (DNumber text) => hasText text
  | SBinary _ l r => supported l && supported r
  | SUnary _ e | SParen e => supported e
  | SFunc name args => negb (String.eqb (ToLower name) "convert") && forallb supported args
  | SCast tp e => castKnown tp && supported e
  | SCase value clauses else_ =>
    match value with Some v => supported v | None => true end &&
    match clauses with [] => false | _ => forallb (fun '(w, t) => supported w && supported t) clauses end &&
    match else_ with Some e => supported e | None => true end
  | _ => true
  end.

Lemma cast_renders tp h x : castHead tp = Ok h -> hasText h = true ->
  (h +:+ render x +:+ ")" = render (JCall (castName tp) (castArgs tp ++ [x])))%string.
Proof.
  unfold castName, castArgs, castHead, funcName.
  destruct (castTp tp =? FieldTypeString); [done|].
  destruct (castTp tp =? FieldTypeVarString).
  { destruct (hasFlag (castFlag tp) BinaryFlag); [done|]. intros [= <-] _. cbn [render fmap list_fmap app join fold_left].
    rewrite !str_assoc. reflexivity. }
  destruct (castTp tp =? FieldTypeDate) eqn:E1; [|destruct (castTp tp =? FieldTypeYear); [done|]].
  { intros [= <-] _. apply Z.eqb_eq in E1. by rewrite E1. }
  destruct (castTp tp =? FieldTypeDateTime) eqn:E2.
  { intros [= <-] _. apply Z.eqb_eq in E2. by rewrite E2. }
  destruct (castTp tp =? FieldTypeDecimal).
  { intros [= <-] _. cbn [render fmap list_fmap app join fold_left]. rewrite !str_assoc. reflexivity. }
  destruct (castTp tp =? FieldTypeTime); [by intros [= <-] _|].
  destruct (castTp tp =? FieldTypeLongLong); [intros [= <-] _; by destruct (hasFlag (castFlag tp) UnsignedFlag)|].
  repeat match goal with |- context[castTp tp =? ?t] => destruct (castTp tp =? t); [done|] end. by intros [= <-].
Qed.

(** [k] applied to a result. *)
Definition after {A B} (k : A -> B) (m : res A) : res B := a ← m; Ok (k a).
Lemma mapM_after {A B C} (k : B -> C) (f : A -> res C) (g : A -> res B) l :
  Forall (fun x => f x = after k (g x)) l -> mapM_res f l = after (fmap (M := list) k) (mapM_res g l).
Proof.
  induction 1 as [|x l Hx Hl IH]; [done|]. cbn [mapM_res]. rewrite Hx, IH. destruct (g x); cbn; [|done|done]. by destruct (mapM_res g l).
Qed.

(** A condition and a result: one turn of the loop over the clauses. *)
Definition clauseText (c : jsExpr * jsExpr) : string := ("$_IF(" +:+ render (fst c) +:+ ", " +:+ render (snd c))%string.
(** The clauses written one after the other with all parentheses closed at the end
    are the nested calls. *)
Lemma case_nested (cs : list (jsExpr * jsExpr)) e : cs <> [] ->
  (join ", " (clauseText <$> cs) +:+ ", " +:+ render e +:+ closing (length cs) = render (nestedIf cs e))%string.
Proof.
  induction cs as [|[w t] cs IH]; [done|]. intros _. cbn [fmap list_fmap nestedIf length]. rewrite join_cons, closing_S.
  destruct cs as [|c2 cs].
  - cbn [fmap list_fmap nestedIf length closing replicate of_list]. unfold clauseText. cbn [fst snd render fmap list_fmap join fold_left].
    rewrite !str_assoc. reflexivity.
  - cbn [fmap list_fmap]. change (clauseText c2 :: list_fmap _ _ clauseText cs) with (clauseText <$> (c2 :: cs)).
    set (J := join ", " _) in *. set (C := closing _) in *.
    transitivity (clauseText (w, t) +:+ ", " +:+ (J +:+ ", " +:+ render e +:+ C) +:+ ")")%string; [by rewrite !str_assoc|]. rewrite IH by done.
    unfold clauseText. cbn [fst snd render fmap list_fmap join fold_left]. rewrite !str_assoc. reflexivity.
Qed.

Lemma hasText_app a b : hasText b = true -> hasText (a +:+ b)%string = true.
Proof. by destruct a. Qed.
Lemma hasText_app_l a b : hasText a = true -> hasText (a +:+ b)%string = true.
Proof. by destruct a. Qed.
Lemma FormatUint_text n : hasText (FormatUint n) = true.
Proof. destruct (FormatUint_cons n) as (d & s & _ & ->). done. Qed.
Lemma nestedIf_text cs e : cs <> [] -> hasText (render (nestedIf cs e)) = true.
Proof. destruct cs as [|[]]; done. Qed.

Section renders.
Context (printable : Z -> bool).

Lemma Format_text v s : match v with DNumber t => hasText t | _ => true end = true -> Format printable v = Ok s -> hasText s = true.
Proof.
  destruct v as [|z []|z|t|t|]; cbn [Format]; intros Hv [= <-]; try done; [by destruct (0 <? z)| |apply FormatUint_text].
  unfold FormatInt. destruct (z <? 0); [done|apply FormatUint_text].
Qed.
Lemma mapM_res_length {A B} (f : A -> res B) l ys : mapM_res f l = Ok ys -> length ys = length l.
Proof.
  revert ys. induction l as [|x l IH]; intros ys; [by intros [= <-]|]. cbn [mapM_res]. destruct (f x); cbn; try done.
  destruct (mapM_res f l); cbn; try done. intros [= <-]. cbn. by rewrite (IH _ eq_refl).
Qed.
Lemma compiled_text e c : supported e = true -> compile printable false e = Ok c -> hasText (render c) = true.
Proof.
  destruct e; cbn [compile supported]; intros Hs Hc; try done.
  - destruct (Format printable v) eqn:Ef; cbn in Hc; try done. injection Hc as <-. by eapply Format_text.
  - repeat match type of Hc with (?m ≫= _ = _) => destruct m; cbn in Hc; try done end. injection Hc as <-. cbn [render]. by apply hasText_app.
  - destruct (compile printable false e); cbn in Hc; try done. by injection Hc as <-.
  - destruct (compile printable false e); cbn in Hc; try done. by injection Hc as <-.
  - destruct (mapM_res (compile printable true) args); cbn in Hc; try done. by injection Hc as <-.
  - repeat match type of Hc with (?m ≫= _ = _) => destruct m; cbn in Hc; try done end. injection Hc as <-. cbn [render].
    apply hasText_app, hasText_app_l. done.
  - apply bind_Ok in Hc as (h & _ & Hc). apply bind_Ok in Hc as (branches & Eb & Hc). apply bind_Ok in Hc as (e & _ & Hc).
    injection Hc as <-. apply mapM_res_length in Eb. apply nestedIf_text. intros ->. destruct clauses; [|done]. by rewrite andb_false_r in Hs.
Qed.

(** The header of a CASE. *)
Definition headerText (h : option jsExpr) : string := match h with Some h => render h | None => EmptyString end.
Lemma clause_renders header (when then_ : sqlExpr) :
  (forall h, header = Some h -> hasText (render h) = true) ->
  toScript printable true when = after render (compile printable true when) ->
  toScript printable true then_ = after render (compile printable true then_) ->
  (w ← toScript printable true when; t ← toScript printable true then_;
   Ok (funcName "IF" +:+ "(" +:+ w +:+ (if String.eqb (headerText header) EmptyString then EmptyString else " == (" +:+ headerText header +:+ ")") +:+ ", " +:+ t))%string =
  after clauseText (w ← compile printable true when; t ← compile printable true then_; Ok (orEqual header w, t)).
Proof.
  intros Hh -> ->. destruct (compile printable true when) as [w| |]; [|done|done]. destruct (compile printable true then_) as [t| |]; [|done|done].
  cbn [after mbind res_bind]. f_equal. unfold clauseText. cbn [fst snd]. destruct header as [h|]; [|done].
  specialize (Hh h eq_refl). unfold hasText in Hh. apply negb_true_iff in Hh. cbn [headerText orEqual render]. rewrite Hh.
  unfold funcName. rewrite !str_assoc. reflexivity.
Qed.

(** Scripts are what they should be: for every expression that is written
    completely, the text [expr2script] and [handleArg] build piece by piece is the
    text of the tree in which functions, casts and operators on one operand are
    calls and CASE is a chain of calls of IF, and they fail exactly when there is
    no such tree, with the same error. *)
Theorem script_renders e : supported e = true -> forall argument,
  toScript printable argument e = after render (compile printable argument e).
Proof.
  induction e as [|v|n|op l r IHl IHr|op v IH|e IH|name args IH| |tp e IH|value clauses else_ IHv IHc IHe|t] using sqlExpr_nested_ind;
    cbn [supported]; intros Hs argument; cbn [toScript compile]; try (by destruct argument).
  - by destruct (Format printable v).
  - apply andb_true_iff in Hs as [Hl Hr]. rewrite IHl, IHr by done. destruct (compile printable false l); [|done|done]. by destruct (compile printable false r).
  - destruct argument; [done|]. rewrite IH by done. destruct (compile printable false v); [|done|done]. cbn.
    by rewrite !str_assoc.
  - destruct argument; [done|]. rewrite IH by done. by destruct (compile printable false e).
  - apply andb_true_iff in Hs as [Hn Ha]. apply negb_true_iff in Hn. rewrite Hn.
    rewrite (mapM_after render _ (compile printable true)).
    2:{ rewrite Forall_forall in IH |- *. intros x Hx. apply IH; [done|]. rewrite forallb_forall in Ha. apply Ha. by apply list_elem_of_In. }
    by destruct (mapM_res (compile printable true) args).
  - apply andb_true_iff in Hs as [Hk He]. unfold castKnown in Hk. destruct (castHead tp) as [h| |] eqn:Eh; cbn; [|done|done].
    rewrite IH by done. destruct (compile printable false e) as [x| |]; cbn; [|done|done]. by rewrite (cast_renders tp h x).
  - apply andb_true_iff in Hs as [Hs Hel]. apply andb_true_iff in Hs as [Hv Hc].
    set (hc := match value with Some v => _ | None => Ok None end).
    assert (Eh : match value with Some v => toScript printable false v | None => Ok EmptyString end = after headerText hc /\
                 (forall header h, hc = Ok header -> header = Some h -> hasText (render h) = true)).
    { subst hc. destruct value as [v|]; [|by split; [|intros ? ? [= <-]]]. rewrite (IHv v eq_refl Hv). split.
      - by destruct (compile printable false v).
      - intros header h Ec ->. apply bind_Ok in Ec as (h' & Ec & [= <-]). by eapply compiled_text. }
    destruct Eh as [-> Hh]. destruct hc as [header| |]; [|done|done]. cbn [after mbind res_bind]. specialize (Hh header).
    rewrite (mapM_after clauseText _ (fun '(when, then_) => w ← compile printable true when; t ← compile printable true then_; Ok (orEqual header w, t))).
    2:{ rewrite Forall_forall in IHc |- *. intros [w t] Hx. destruct (IHc _ Hx) as [IHw IHt]. cbn [fst snd] in *.
        destruct clauses as [|c clauses]; [done|]. rewrite forallb_forall in Hc. apply list_elem_of_In, Hc, andb_true_iff in Hx as [Hw Ht].
        apply clause_renders; [by intros h; apply Hh|by apply IHw|by apply IHt]. }
    destruct (mapM_res _ clauses) as [branches| |] eqn:Eb; cbn [after mbind res_bind]; [|done|done]. apply mapM_res_length in Eb.
    assert (Ee : match else_ with Some e => toScript printable true e | None => Ok "null"%string end =
                 after render (match else_ with Some e => compile printable true e | None => Ok (JText "null") end)).
    { destruct else_ as [e|]; [by apply IHe|done]. }
    rewrite Ee. destruct (match else_ with Some e => compile printable true e | None => Ok (JText "null") end) as [e| |]; cbn [after mbind res_bind]; [|done|done].
    f_equal. rewrite <- Eb. apply case_nested. intros ->. by destruct clauses.
Qed.
End renders.

(** Arguments are left out: a function applied to a negative number or to an
    expression in parentheses is called without that argument. *)
Theorem argument_dropped printable name op e : ToLower name <> "convert"%string ->
  expr2script printable (SFunc name [SUnary op e]) = Ok (funcName (ToUpper name) +:+ "()")%string /\
  expr2script printable (SFunc name [SParen e]) = Ok (funcName (ToUpper name) +:+ "()")%string.
Proof.
  intros Hn. unfold expr2script. cbn [toScript mapM_res mbind res_bind]. rewrite (proj2 (String.eqb_neq _ _) Hn). done.
Qed.
Lemma argument_dropped_witness :
  expr2script (fun _ => false) (SFunc "abs" [SUnary Minus (SValue (DInt 5 false))]) = Ok "$_ABS()"%string.
Proof. apply (argument_dropped (fun _ => false) "abs" Minus (SValue (DInt 5 false))). discriminate. Defined.

(** CONVERT is written without the comma between its arguments and without its
    closing parenthesis. *)
Example convert_not_closed : expr2script (fun _ => false) (SFunc "CONVERT" [SValue (DInt 1 false); SValue (DString "utf8")]) =
  Ok "$_CAST_CHARSET('utf8'1, "%string.
Proof. vm_compute. reflexivity. Qed.
(** The parser marks a cast to DECIMAL with type 246, which the switch does not know. *)
Example cast_decimal_unknown : expr2script (fun _ => false) (SCast (mkCastType FieldTypeNewDecimal 0 10 2 EmptyString) (SValue (DInt 1 false))) = Ok "1)"%string.
Proof. vm_compute. reflexivity. Qed.
Example case_script : expr2script (fun _ => false)
  (SCase (Some (SBinary Plus (SValue (DInt 2 false)) (SValue (DInt 1 false))))
    [(SValue (DInt 1 false), SValue (DString "A")); (SValue (DInt 3 false), SParam 0)] None) =
  Ok (string_of (bytes_of "$_IF(1 == (2 +1), " ++ [34; 65; 34] ++ bytes_of ", $_IF(3 == (2 +1), arguments[0], null))")).
Proof. vm_compute. reflexivity. Qed.

(** ** The runtime *)

(** A value of the engine, the syntax errors it reports for the text of a function,
    and calling a function by its body, with what else the engine keeps.  [hash] is
    xxhash of a text. *)
Class JsEngine := {
  jsValue : Type;
  engineState : Type;
  hash : string -> Z;
  hash_u64 : forall s, in_u64 (hash s);
  syntaxError : string -> option string;
  callBody : string -> list jsValue -> engineState -> res jsValue * engineState;
  callBuiltin : string -> list jsValue -> engineState -> res jsValue * engineState;
  ToValue : value -> jsValue;
  Export : jsValue -> value;
  notANumber : jsValue -> bool;
  NaN : value }.

(** [strconv.FormatUint(id, 16)] *)
Fixpoint hexLoop (fuel : nat) (n : Z) (acc : string) : string :=
  match fuel with
  | O => acc
  | S f =>
    let d := n mod 16 in
    let acc' := String (ascii_of_Z (if d <? 10 then 48 + d else 87 + d)) acc in
    if n <? 16 then acc' else hexLoop f (n / 16) acc'
  end.
Definition FormatHex (n : Z) : string := hexLoop (S (Z.to_nat (Z.log2 n))) n EmptyString.

Definition jsFuncName (id : Z) : string := "$_" +:+ FormatHex id.

(** The functions [NewJSRuntime] defines. *)
Definition builtins : list string :=
  ["$_unary"; "$_toString"; "$_parseTime";
   "$_LENGTH"; "$_CHAR_LENGTH"; "$_UPPER"; "$_LOWER"; "$_LEFT"; "$_RIGHT"; "$_LTRIM"; "$_RTRIM"; "$_LPAD"; "$_RPAD";
   "$_SUBSTRING"; "$_REVERSE"; "$_REPEAT"; "$_CONCAT"; "$_CONCAT_WS"; "$_SPACE"; "$_REPLACE"; "$_STRCMP";
   "$_ABS"; "$_CEIL"; "$_FLOOR"; "$_ROUND"; "$_RAND"; "$_POW"; "$_POWER"; "$_SQRT"; "$_EXP"; "$_MOD"; "$_SIGN"; "$_PI"; "$_TRUNCATE";
   "$_NOW"; "$_CURDATE"; "$_CURRENT_DATE"; "$_SYSDATE"; "$_UNIX_TIMESTAMP"; "$_CURRENT_TIMESTAMP"; "$_CURTIME"; "$_LOCALTIME"; "$_QUARTER"; "$_MONTHNAME"; "$_MONTH"; "$_DAYNAME"; "$_DAY"; "$_DAYOFWEEK"; "$_DAYOFMONTH"; "$_DAYOFYEAR"; "$_HOUR"; "$_MINUTE"; "$_SECOND"; "$_ADDDATE"; "$_SUBDATE"; "$_DATEDIFF"; "$_FROM_UNIXTIME"; "$_DATE_FORMAT";
   "$_IF"; "$_IFNULL"; "$_SHA"; "$_SHA1"; "$_MD5"; "$_CAST_UNSIGNED"; "$_CAST_SIGNED"; "$_CAST_CHARSET"; "$_CAST_NCHAR";
   "$_CAST_CHAR"; "$_CAST_DATE"; "$_CAST_DATETIME"; "$_CAST_TIME"; "$_CAST_DECIMAL"]%string.

Section runtime.
Context `{JsEngine}.

(** What a name stands for: a function of the package or a script. *)
Inductive jsFunction := Builtin | Body (script : string).
Record JsRuntime := mkRuntime { globals : gmap string jsFunction; registered : gset Z }.

Definition NewJSRuntime : JsRuntime := mkRuntime (list_to_map ((fun n => (n, Builtin)) <$> builtins)) ∅.

Definition functionText (id : Z) (script : string) : string :=
  "function " +:+ jsFuncName id +:+ "() {" +:+ string_of [10] +:+ "  return " +:+ script +:+ ";" +:+ string_of [10] +:+ "}".
Definition register (id : Z) (script : string) (js : JsRuntime) : res JsRuntime :=
  match syntaxError (functionText id script) with
  | Some e => Err e
  | None => Ok (mkRuntime (<[jsFuncName id := Body script]> (globals js)) (registered js))
  end.

(** [fn(goja.Undefined(), arguments...)] and the conversion of its result. *)
Definition callFunction (name : string) (f : jsFunction) (args : list value) (st : engineState) : res jsValue * engineState :=
  match f with
  | Body body => callBody body (ToValue <$> args) st
  | Builtin => callBuiltin name (ToValue <$> args) st
  end.
Definition exported (script : string) (args : list value) (r : res jsValue) : res value :=
  match r with
  | Ok v => Ok (if notANumber v then NaN else Export v)
  | Err e => Err ("eval the js script '" +:+ script +:+ "' failed: arguments=[" +:+ join " " (Sprint <$> args) +:+ "]: " +:+ e)%string
  | Panic => Panic
  end.

Definition Eval (script : string) (args : list value) (js : JsRuntime) (st : engineState) : res value * JsRuntime * engineState :=
  let id := hash script in
  match (if decide (id ∈ registered js) then Ok js
         else js' ← register id script js; Ok (mkRuntime (globals js') ({[id]} ∪ registered js'))) with
  | Ok js' =>
    let fnName := jsFuncName id in
    match globals js' !! fnName with
    | Some fn => let '(r, st') := callFunction fnName fn args st in (exported script args r, js', st')
    | None => (Err "must register func first", js', st)
    end
  | Err e => (Err e, js, st)
  | Panic => (Panic, js, st)
  end.

(** ** The list of free runtimes: a channel with room for 16 *)
Definition BorrowJsRuntime (free : list JsRuntime) : JsRuntime * list JsRuntime :=
  match free with js :: free' => (js, free') | [] => (NewJSRuntime, []) end.
Definition ReturnJsRuntime (js : JsRuntime) (free : list JsRuntime) : list JsRuntime :=
  if (length free <? 16)%nat then free ++ [js] else free.
Definition EvalString (script : string) (args : list value) (free : list JsRuntime) (st : engineState) :
    res value * list JsRuntime * engineState :=
  let '(js, free) := BorrowJsRuntime free in
  let '(r, js, st) := Eval script args js st in
  (r, ReturnJsRuntime js free, st).

(** The entry points of the condition parser. *)
Definition evalScript (script : res string) (args : list value) (free : list JsRuntime) (st : engineState) :
    res value * list JsRuntime * engineState :=
  match script with
  | Ok s => EvalString s args free st
  | Err e => (Err e, free, st)
  | Panic => (Panic, free, st)
  end.
Definition EvalBinary (printable : Z -> bool) (op : Op) (l r : sqlExpr) := evalScript (mathOperation2script printable op l r).
Definition EvalFunction (printable : Z -> bool) (name : string) (args : list sqlExpr) := evalScript (func2script printable name args).
Definition EvalCastFunction (printable : Z -> bool) (tp : castType) (e : sqlExpr) := evalScript (castFunc2script printable tp e).
Definition EvalCaseWhenFunction (printable : Z -> bool) (value : option sqlExpr) (clauses : list (sqlExpr * sqlExpr)) (else_ : option sqlExpr) :=
  evalScript (caseWhenFunc2script printable value clauses else_).
End runtime.

(** ** Names of scripts *)
Definition hexDigitValue (c : Z) : Z := if c <? 58 then c - 48 else c - 87.
Fixpoint hexValue (s : string) (acc : Z) : Z :=
  match s with EmptyString => acc | String c s' => hexValue s' (acc * 16 + hexDigitValue (chr c)) end.
Lemma hexDigitValue_digit d : 0 <= d < 16 -> hexDigitValue (chr (ascii_of_Z (if d <? 10 then 48 + d else 87 + d))) = d.
Proof. intros Hd. unfold hexDigitValue. destruct (Z.ltb_spec d 10); rewrite chr_ascii by lia; zcases; lia. Qed.
Lemma hexLoop_value fuel n acc : 0 <= n < 16 ^ Z.of_nat (S fuel) -> hexValue (hexLoop (S fuel) n acc) 0 = hexValue acc n.
Proof.
  revert n acc. induction fuel as [|f IH]; intros n acc Hn.
  - change (16 ^ Z.of_nat 1) with 16 in Hn. cbn [hexLoop]. rewrite (proj2 (Z.ltb_lt n 16)) by lia. cbn [hexValue].
    rewrite hexDigitValue_digit by (rewrite Z.mod_small; lia). rewrite Z.mod_small by lia. f_equal; lia.
  - rewrite Nat2Z.inj_succ, Z.pow_succ_r in Hn by lia. remember (S f) as f' eqn:Ef. cbn [hexLoop]. pose proof (Z.mod_pos_bound n 16 ltac:(lia)) as Hm.
    destruct (Z.ltb_spec n 16).
    + cbn [hexValue]. rewrite hexDigitValue_digit by lia. rewrite Z.mod_small by lia. f_equal; lia.
    + subst f'. rewrite IH by (Z.to_euclidean_division_equations; lia). cbn [hexValue]. rewrite hexDigitValue_digit by lia. f_equal.
      Z.to_euclidean_division_equations; lia.
Qed.
Lemma FormatHex_value n : in_u64 n -> hexValue (FormatHex n) 0 = n.
Proof.
  intros Hn. unfold FormatHex. rewrite hexLoop_value; [done|]. destruct (Z.eq_dec n 0) as [->|]; [cbn; lia|]. unfold_width.
  pose proof (Z.log2_spec n ltac:(lia)) as [_ Hl]. rewrite Nat2Z.inj_succ, Z2Nat.id by apply Z.log2_nonneg. split; [lia|].
  eapply Z.lt_le_trans; [exact Hl|]. apply Z.pow_le_mono_l. lia.
Qed.
Lemma jsFuncName_inj a b : in_u64 a -> in_u64 b -> jsFuncName a = jsFuncName b -> a = b.
Proof.
  intros Ha Hb E. assert (E' : FormatHex a = FormatHex b)
    by exact (f_equal (fun s => match s with String _ (String _ t) => t | _ => s end) E).
  rewrite <- (FormatHex_value a Ha), <- (FormatHex_value b Hb). by rewrite E'.
Qed.

Definition isHexChar (c : Ascii.ascii) : bool := within 48 57 (chr c) || within 97 102 (chr c).
Lemma hexLoop_head fuel n acc : exists c s, hexLoop (S fuel) n acc = String c s /\ isHexChar c = true.
Proof.
  revert n acc. induction fuel as [|f IH]; intros n acc; pose proof (Z.mod_pos_bound n 16 ltac:(lia)) as Hm.
  all: assert (Hd : isHexChar (ascii_of_Z (if n mod 16 <? 10 then 48 + n mod 16 else 87 + n mod 16)) = true)
    by (unfold isHexChar, within; destruct (Z.ltb_spec (n mod 16) 10); rewrite chr_ascii by lia; zcases; cbn; lia).
  - cbn [hexLoop]. destruct (n <? 16); eauto.
  - remember (S f) as f' eqn:Ef. cbn [hexLoop]. destruct (n <? 16); [by eauto|]. subst f'. apply IH.
Qed.
Definition thirdIsHex (name : string) : bool := match name with String _ (String _ (String c _)) => isHexChar c | _ => false end.
Lemma builtins_not_hex : forallb (fun n => negb (thirdIsHex n)) builtins = true.
Proof. vm_compute. reflexivity. Qed.
(** No script takes the name of a function of the package. *)
Lemma jsFuncName_new id : ~ In (jsFuncName id) builtins.
Proof.
  intros Hin. pose proof builtins_not_hex as Hf. rewrite forallb_forall in Hf. specialize (Hf _ Hin).
  destruct (hexLoop_head (Z.to_nat (Z.log2 id)) id EmptyString) as (c & s & E & Hc). unfold jsFuncName, FormatHex in Hf. rewrite E in Hf.
  change (negb (isHexChar c) = true) in Hf. by rewrite Hc in Hf.
Qed.

(** ** The cache *)
Section cache.
Context `{JsEngine}.

(** What the script gives when it is compiled for this one call. *)
Definition evalOnce (script : string) (args : list value) (st : engineState) : res value * engineState :=
  match syntaxError (functionText (hash script) script) with
  | Some e => (Err e, st)
  | None => let '(r, st') := callBody script (ToValue <$> args) st in (exported script args r, st')
  end.

(** The script [id] is registered for, if any, is in the globals and compiles. *)
Record sound (scripts : list string) (js : JsRuntime) : Prop := {
  sound_registered : forall id, id ∈ registered js -> exists s, In s scripts /\ hash s = id /\
    globals js !! jsFuncName id = Some (Body s) /\ syntaxError (functionText id s) = None;
  sound_builtins : forall n, In n builtins -> globals js !! n = Some Builtin }.

Lemma NewJSRuntime_sound scripts : sound scripts NewJSRuntime.
Proof.
  split; [intros id Hid; by apply elem_of_empty in Hid|]. intros n Hn. cbn [globals NewJSRuntime].
  apply elem_of_list_to_map_1'; [|apply list_elem_of_fmap; exists n; split; [done|by apply list_elem_of_In]].
  intros y Hy. apply list_elem_of_fmap in Hy as (m & [= -> ->] & _). done.
Qed.

Context (scripts : list string).
Hypothesis no_collision : forall a b, In a scripts -> In b scripts -> hash a = hash b -> a = b.

Lemma Eval_sound script args js st : In script scripts -> sound scripts js ->
  let '(r, js', st') := Eval script args js st in (r, st') = evalOnce script args st /\ sound scripts js'.
Proof.
  intros Hin [Hreg Hb]. unfold Eval, evalOnce. destruct (decide (hash script ∈ registered js)) as [Hid|Hid].
  - destruct (Hreg _ Hid) as (s & Hs & Hh & Hg & Hc). apply no_collision in Hh as ->; [|done|done]. rewrite Hg, Hc. cbn [callFunction].
    destruct (callBody script (ToValue <$> args) st) as [r st']. split; [done|by split].
  - unfold register. destruct (syntaxError (functionText (hash script) script)) as [e|] eqn:Ec; cbn [mbind res_bind]; [by split|].
    cbn [globals registered]. rewrite lookup_insert_eq. cbn [callFunction].
    destruct (callBody script (ToValue <$> args) st) as [r st']. split; [done|]. split; cbn [globals registered].
    + intros id [->%elem_of_singleton|Hi]%elem_of_union; [exists script; by rewrite lookup_insert_eq|].
      destruct (Hreg id Hi) as (s & Hs & <- & Hg & Hc). exists s. rewrite lookup_insert_ne; [done|].
      intros E. apply jsFuncName_inj in E; [congruence|apply hash_u64|apply hash_u64].
    + intros n Hn. rewrite lookup_insert_ne; [by apply Hb|]. intros <-. by apply jsFuncName_new in Hn.
Qed.

(** Caching is not seen: as long as no two of the scripts in use have the same
    hash, evaluating one of them on whatever runtime is free gives the value, the
    error and the effect on the engine it gives when it is compiled anew, and
    leaves free runtimes of which that holds again; the functions of the package
    keep their names. *)
Theorem evaluation_transparent script args free st :
  In script scripts -> Forall (sound scripts) free ->
  let '(r, free', st') := EvalString script args free st in
  (r, st') = evalOnce script args st /\ Forall (sound scripts) free' /\
  (length free' <= Nat.max 16 (length free))%nat.
Proof.
  intros Hin Hf. unfold EvalString.
  assert (HB : exists js rest, BorrowJsRuntime free = (js, rest) /\ sound scripts js /\ Forall (sound scripts) rest /\ (length rest <= length free)%nat).
  { destruct Hf as [|js rest Hj Hr]; [exists NewJSRuntime, []; split_and!; [done|apply NewJSRuntime_sound|done|done]|].
    exists js, rest. split_and!; [done|done|done|cbn; lia]. }
  destruct HB as (js & rest & -> & Hj & Hr & Hl). pose proof (Eval_sound script args js st Hin Hj) as He.
  destruct (Eval script args js st) as [[r js'] st']. destruct He as [He Hj']. split; [done|]. unfold ReturnJsRuntime.
  destruct (Nat.ltb_spec (length rest) 16); [|split; [done|lia]]. split; [apply Forall_app; split; [done|by constructor; [|constructor]]|].
  rewrite length_app. cbn. lia.
Qed.
End cache.

(** Scripts with the same hash are confused: after one has been evaluated, the
    other evaluates to what the first gives. *)
Theorem collision_confuses `{JsEngine} a b args args' js0 st r js st1 :
  hash a = hash b -> syntaxError (functionText (hash a) a) = None -> hash a ∉ registered js0 ->
  Eval a args js0 st = (r, js, st1) ->
  Eval b args' js st1 = (let '(r', st2) := callBody a (ToValue <$> args') st1 in (exported b args' r', js, st2)).
Proof.
  intros Hh Hc Hn He. unfold Eval in He. rewrite decide_False in He by done. unfold register in He.
  rewrite Hc in He. cbn [mbind res_bind globals registered] in He. rewrite lookup_insert_eq in He. cbn [callFunction] in He.
  destruct (callBody a (ToValue <$> args) st) as [r0 st0]. injection He as _ <- <-. unfold Eval. rewrite <- Hh.
  rewrite decide_True by (cbn; set_solver). cbn [globals]. rewrite lookup_insert_eq. cbn [callFunction]. by destruct (callBody a (ToValue <$> args') st0).
Qed.

(** An engine for examples: a script is its own value, its hash its length. *)
#[export] Instance echo : JsEngine | 100 := {
  jsValue := value; engineState := unit;
  hash s := u64 (Z.of_nat (String.length s)); hash_u64 s := u64_range (Z.of_nat (String.length s));
  syntaxError _ := None;
  callBody s _ st := (Ok (VString s), st); callBuiltin s _ st := (Ok (VString s), st);
  ToValue := id; Export := id; notANumber _ := false; NaN := VNil }.

Lemma evaluation_transparent_witness :
  fst (fst (EvalString (H := echo) "1 +1" [] [] tt)) = Ok (VString "1 +1").
Proof.
  pose proof (evaluation_transparent (H := echo) ["1 +1"; "2"]%string) as Ht.
  assert (Hn : forall a b, In a ["1 +1"; "2"]%string -> In b ["1 +1"; "2"]%string -> hash (JsEngine := echo) a = hash (JsEngine := echo) b -> a = b).
  { intros a b [<-|[<-|[]]] [<-|[<-|[]]]; vm_compute; congruence. }
  specialize (Ht Hn "1 +1"%string [] [] tt (or_introl eq_refl) (Forall_nil_2 _)).
  destruct (EvalString (H := echo) "1 +1" [] [] tt) as [[r free'] st'] eqn:E. destruct Ht as (Ht & _ & _).
  cbn in Ht. by injection Ht as -> ->.
Defined.
Lemma collision_confuses_witness :
  exists js, snd (fst (Eval (H := echo) "1" [] NewJSRuntime tt)) = js /\ fst (fst (Eval (H := echo) "2" [] js tt)) = Ok (VString "1").
Proof.
  destruct (Eval (H := echo) "1" [] NewJSRuntime tt) as [[r js] st1] eqn:E. exists js. split; [done|].
  rewrite (collision_confuses (H := echo) "1" "2" [] [] NewJSRuntime tt r js tt);
    [reflexivity|reflexivity|reflexivity|apply not_elem_of_empty|by destruct st1].
Defined.
Lemma script_renders_witness :
  toScript (fun _ => false) false (SFunc "if" [SParam 0; SValue (DInt 1 false); SValue DNull]) = Ok "$_IF(arguments[0], 1, NULL)"%string.
Proof. rewrite script_renders; [vm_compute; reflexivity|reflexivity]. Defined.

(** ** [misc.PadLeft] and [misc.PadRight]: LPAD and RPAD *)

(** The loop appends [pad] until the builder holds [n] bytes: [None] when the fuel
    is used up. *)
Fixpoint padLoop (fuel : nat) (sb pad : bytes) (n : nat) : option bytes :=
  match fuel with
  | O => None
  | S fuel' => if (n <=? length sb)%nat then Some (take n sb) else padLoop fuel' (sb ++ pad) pad n
  end.
(** [str[:length]] *)
Definition cutTo (str : bytes) (length_ : Z) : res bytes :=
  if length_ <? 0 then Panic else Ok (take (Z.to_nat length_) str).
Definition PadLeft (fuel : nat) (str pad : bytes) (length_ : Z) : option (res bytes) :=
  if len str =? length_ then Some (Ok str)
  else if length_ <? len str then Some (cutTo str length_)
  else match padLoop fuel [] pad (Z.to_nat (length_ - len str)) with
       | Some prefix => Some (Ok (prefix ++ str))
       | None => None
       end.
Definition PadRight (fuel : nat) (str pad : bytes) (length_ : Z) : option (res bytes) :=
  if length_ <=? len str then Some (cutTo str length_)
  else match padLoop fuel str pad (Z.to_nat length_) with
       | Some s => Some (Ok s)
       | None => None
       end.

(** [k] times [pad]. *)
Definition times (k : nat) (pad : bytes) : bytes := mjoin (replicate k pad).
Lemma padLoop_ends fuel sb pad n : pad <> [] -> (n < S fuel + length sb)%nat ->
  exists k, padLoop (S fuel) sb pad n = Some (take n (sb ++ times k pad)) /\ (n <= length (sb ++ times k pad))%nat.
Proof.
  intros Hp. assert (Hl : (1 <= length pad)%nat) by (destruct pad; [done|cbn; lia]). revert sb.
  induction fuel as [|f IH]; intros sb Hf; (destruct (Nat.leb_spec n (length sb)) as [Hn|Hn];
    [exists O; cbn [padLoop]; rewrite (proj2 (Nat.leb_le _ _) Hn); unfold times; cbn; by rewrite app_nil_r|]); [lia|].
  destruct (IH (sb ++ pad)) as (k & E & Hk); [rewrite length_app; lia|].
  exists (S k). assert (Et : sb ++ times (S k) pad = (sb ++ pad) ++ times k pad) by (by rewrite <- app_assoc). rewrite Et. split; [|done].
  rewrite <- E. remember (S f) as f' eqn:Ef. cbn [padLoop]. by rewrite (proj2 (Nat.leb_gt n (length sb)) Hn).
Qed.
Lemma padLoop_spins fuel sb n : (length sb < n)%nat -> padLoop fuel sb [] n = None.
Proof.
  revert sb. induction fuel as [|f IH]; intros sb Hn; cbn [padLoop]; [done|]. rewrite (proj2 (Nat.leb_gt n (length sb))) by done.
  rewrite app_nil_r. by apply IH.
Qed.

(** LPAD and RPAD end with a text of the wanted length: with something to pad with
    and a length that is not negative, both loops end, within as many turns as the
    length, in the text cut to the length or the text with copies of the padding
    cut to fill the rest in front of it or behind it. *)
Theorem padding_ends str pad length_ fuel : pad <> [] -> 0 <= length_ -> (Z.to_nat length_ < fuel)%nat ->
  exists l r, PadLeft fuel str pad length_ = Some (Ok l) /\ len l = length_ /\
    PadRight fuel str pad length_ = Some (Ok r) /\ len r = length_ /\
    (length_ <= len str -> l = take (Z.to_nat length_) str /\ r = l) /\
    (len str <= length_ -> exists n k, l = take n (times k pad) ++ str /\ exists k', r = take (Z.to_nat length_) (str ++ times k' pad)).
Proof.
  intros Hp H0 Hf. unfold PadLeft, PadRight, cutTo, len in *. rewrite (proj2 (Z.ltb_ge length_ 0)) by done.
  destruct (Z.leb_spec length_ (Z.of_nat (length str))) as [Hle|Hgt].
  - destruct (Z.eqb_spec (Z.of_nat (length str)) length_) as [He|Hne].
    + exists str, (take (Z.to_nat length_) str). subst length_. rewrite Nat2Z.id, firstn_all. split_and!; try done.
      intros _. exists O, O. split; [done|]. exists O. unfold times. cbn. by rewrite app_nil_r, firstn_all.
    + rewrite (proj2 (Z.ltb_lt length_ _)) by lia. exists (take (Z.to_nat length_) str), (take (Z.to_nat length_) str).
      rewrite length_take. split_and!; try done; lia.
  - rewrite (proj2 (Z.eqb_neq _ length_)), (proj2 (Z.ltb_ge length_ _)) by lia. destruct fuel as [|fuel]; [lia|].
    destruct (padLoop_ends fuel [] pad (Z.to_nat (length_ - Z.of_nat (length str))) Hp) as (k & -> & Hk); [cbn; lia|].
    destruct (padLoop_ends fuel str pad (Z.to_nat length_) Hp) as (k' & -> & Hk'); [lia|]. cbn [app] in Hk |- *.
    do 2 eexists. split_and!; [reflexivity|rewrite length_app, length_take; lia|reflexivity|rewrite length_take; lia|lia|].
    intros _. exists (Z.to_nat (length_ - Z.of_nat (length str))), k. split; [done|by exists k'].
Qed.
Lemma padding_ends_witness :
  exists l r, PadLeft 6 (bytes_of "7") (bytes_of "ab") 5 = Some (Ok l) /\ len l = 5 /\ PadRight 6 (bytes_of "7") (bytes_of "ab") 5 = Some (Ok r) /\ l = bytes_of "abab7".
Proof.
  destruct (padding_ends (bytes_of "7") (bytes_of "ab") 5 6) as (l & r & Hl & Hn & Hr & _); [discriminate|lia|vm_compute; lia|].
  exists l, r. split_and!; [exact Hl|exact Hn|exact Hr|]. vm_compute in Hl. by injection Hl as <-.
Defined.

(** With nothing to pad with, neither returns: LPAD(s, n, '') with [n] above the
    length of [s] keeps the proxy busy for ever. *)
Theorem padding_spins str length_ fuel : len str < length_ ->
  PadLeft fuel str [] length_ = None /\ PadRight fuel str [] length_ = None.
Proof.
  intros Hl. unfold PadLeft, PadRight, len in *. rewrite (proj2 (Z.eqb_neq _ length_)), (proj2 (Z.ltb_ge length_ _)) by lia.
  rewrite (proj2 (Z.leb_gt length_ _)) by lia. rewrite !padLoop_spins by (cbn; lia). done.
Qed.
Lemma padding_spins_witness : PadLeft 1000 (bytes_of "a") [] 5 = None /\ PadRight 1000 (bytes_of "a") [] 5 = None.
Proof. apply padding_spins. reflexivity. Defined.
(** A negative length panics. *)
Example padding_negative : PadLeft 9 (bytes_of "abc") (bytes_of "x") (-1) = Some Panic.
Proof. reflexivity. Qed.
