(* ===== verification/QueryPlan.v ===== *)
(** * Query plans over several databases (pkg/plan/query.go)

    [castLimit] reads LIMIT from literals or arguments, [generateSelect] asks
    every database for the first [Offset + Count] rows, and
    [QueryOnMultiDBPlan.Execute] collects the answers in any order, sorts them
    by database and merges them ([Merge]).  What a database answers to the text
    of its plan is an argument. *)
From Stdlib Require Import ZArith Lia List Permutation.
From stdpp Require Import base gmap strings list sorting.
From S2P Require Import Prelude GoText Encoding Topology Values Condition Sharding Shard ConditionParse PlanText Merge Optimizer.

Local Open Scope Z_scope.

(** ** LIMIT *)
Inductive limitExpr := NoExpr | ValueExpr (z : Z) | ParamMarkerExpr (order : nat).

(** The number and how many arguments it used; a malformed argument is fatal. *)
Definition castLimitExpr (args : list value) (e : limitExpr) : res (Z * nat) :=
  match e with
  | NoExpr => Ok (0, 0%nat)
  | ValueExpr z => Ok (z, 0%nat)
  | ParamMarkerExpr order =>
    v ← from_option Panic (args !! order);
    match ParseInt_err (Sprint v) with
    | Ok z => Ok (z, 1%nat)
    | _ => Panic
    end
  end.

(** The limit and the arguments left; [args[:len-count]] panics below zero. *)
Definition castLimit (args : list value) (offset count : limitExpr) : res (Limit * list value) :=
  '(o, n1) ← castLimitExpr args offset;
  '(c, n2) ← castLimitExpr args count;
  if bool_decide (n1 + n2 <= length args)%nat
  then Ok (mkLimit o c, take (length args - (n1 + n2)) args)
  else Panic.

(** [LIMIT] of the statement sent to each table, int64. *)
Definition limitCount (limit : Limit) : Z := i64 (Offset limit + Count limit).

(** The arguments of the generated statement: once per table, at least once. *)
Definition generateArgs (tables : list string) (args : list value) : list value :=
  match tables with
  | [] | [_] => args
  | _ => concat ((fun _ => args) <$> tables)
  end.

(** ** Execution over several databases *)
Section execute.
Context `{MapOrder} `{UnstableSort}.

Definition Execute (plans : list (string * list string)) (orderBy : option (list (string * bool)))
    (limit : option Limit) (funcColumns : list aggFunc)
    (query : string * list string -> res (list string * list Row * Z)) : res merged :=
  resultList ← mapM_res (fun p => '(fields, rows, warn) ← query p; Ok (mkResult (fst p) fields rows warn))
                 (visit 0 plans);
  sorted ← usort (fun a b => Ok (str_less (Database a) (Database b))) resultList;
  match plans with
  | [] => Panic
  | _ =>
    '(fields, rows, warning) ← mergeResult sorted orderBy limit;
    rows ← aggregateResult funcColumns rows;
    Ok ((fields, rows), warning)
  end.

Lemma sort_results (l : list ResultWithErr) :
  exists l', usort (fun a b => Ok (str_less (Database a) (Database b))) l = Ok l' /\ Permutation l' l.
Proof.
  destruct (usort_ok _ (fun a b : ResultWithErr => Ok (str_less (Database a) (Database b)))
    (fun a b => str_less (Database a) (Database b)) l) as (l' & E & Hp & _); [done | | | eauto].
  - intros a b _ _. apply str_less_asym.
  - intros a b c _ _ _ H1 H2. pose proof ordering_string as [Sa St Ss].
    pose proof (St (Database a) (Database b) (Database c) I I I) as Ht. rewrite !three_string in Ht.
    unfold str_less in *. rewrite (String.compare_antisym (Database b)) in H1.
    rewrite (String.compare_antisym (Database c)) in H2. rewrite (String.compare_antisym (Database c)).
    destruct (String.compare (Database a) (Database b)), (String.compare (Database b) (Database c)),
      (String.compare (Database a) (Database c)); try done; cbn in *; lia.
Qed.

(** What one database is asked: the text of its plan. *)
Definition askPlan (server : string -> string -> res (list string * list Row * Z)) (pk : string) (sel : selectText)
    (limit : option Limit) (p : string * list string) : res (list string * list Row * Z) :=
  sql ← QueryPlan_generate (snd p) pk sel (limitCount <$> limit) false;
  server (fst p) sql.

Lemma sumWarnings_zero results : Forall (fun r => Warning r = 0) results -> sumWarnings results = 0.
Proof.
  unfold sumWarnings. intros Hw. induction Hw as [|r l Hr _ IH]; [done|]. cbn. by rewrite Hr.
Qed.
End execute.

(** ** Claims *)

(** ** What a database answers

    A plan of one database is a SELECT per table, each with ORDER BY and LIMIT,
    united, and ordered again when there are several. *)
Section answers.
Context (ofs : list OrderField) (sh : list (bool * tag)).

(** [answer] for the tables [tables] whose rows are [rowsOf]: the first [k] rows of
    each table in some order that satisfies ORDER BY, all together in order. *)
Definition unionAnswer (k : nat) (rowsOf : string -> list Row) (tables : list string) (answer : list Row) : Prop :=
  exists lists, Forall2 (fun t l => Permutation l (rowsOf t) /\ StronglySorted (rle ofs) l) tables lists /\
    Permutation answer (concat (take k <$> lists)) /\ StronglySorted (rle ofs) answer.

Definition databaseRows (rowsOf : string -> string -> list Row) (p : string * list string) : list Row :=
  concat (rowsOf (fst p) <$> snd p).

(** Tables without rows contribute nothing. *)
Lemma concat_nonempty {A} (f : list A -> list A) (ls : list (list A)) :
  f [] = [] -> concat (f <$> filter (fun l => l <> []) ls) = concat (f <$> ls).
Proof.
  intros Hf. induction ls as [|l ls IH]; [done|]. rewrite filter_cons. destruct (decide (l <> [])) as [Hl|Hl]; cbn; [by rewrite IH|].
  apply dec_stable in Hl as ->. by rewrite Hf.
Qed.

Lemma prefix_slice_tables `{UnstableSort} limit full rows :
  0 <= Offset limit -> 0 <= Count limit ->
  Forall (fun l => Forall (row_typed ofs sh) l /\ StronglySorted (rle ofs) l) full ->
  let k := Z.to_nat (Offset limit + Count limit) in
  Permutation rows (concat (take k <$> full)) -> StronglySorted (rle ofs) rows ->
  exists all, Permutation all (concat full) /\ StronglySorted (rle ofs) all /\ window limit all = window limit rows.
Proof.
  intros Ho Hc Hfull k Hp Hs.
  destruct (prefix_slice ofs sh limit (filter (fun l => l <> []) full) rows) as (all & Ha & Hall); [done | done | | | done |].
  - apply List.Forall_forall. intros l [Hl Hin]%list_elem_of_In%list_elem_of_filter.
    rewrite List.Forall_forall in Hfull. by destruct (Hfull l ltac:(by apply list_elem_of_In)).
  - by rewrite (concat_nonempty (take k)) by apply take_nil.
  - exists all. split; [|done]. rewrite Ha. pose proof (concat_nonempty (fun l => l) full eq_refl) as E. by rewrite !list_fmap_id in E; rewrite E.
Qed.

(** The lists of a database, and that it answers with rows if it has some. *)
Lemma unionAnswer_ordered k rowsOf tables answer :
  (0 < k)%nat -> Forall (row_typed ofs sh) (concat (rowsOf <$> tables)) -> concat (rowsOf <$> tables) <> [] ->
  unionAnswer k rowsOf tables answer ->
  ordered ofs sh answer /\
  exists lists, Permutation (concat lists) (concat (rowsOf <$> tables)) /\ Permutation answer (concat (take k <$> lists)) /\
    Forall (fun l => Forall (row_typed ofs sh) l /\ StronglySorted (rle ofs) l) lists.
Proof.
  intros Hk Ht Hne (lists & Hl & Hp & Hs).
  assert (Hc : Permutation (concat lists) (concat (rowsOf <$> tables))).
  { clear -Hl. induction Hl as [|t l ts ls [Hp _] _ IH]; [done|]. cbn. by rewrite Hp, IH. }
  assert (Hty : Forall (row_typed ofs sh) (concat lists)) by (by rewrite Hc).
  assert (Hin : forall r, In r (concat (take k <$> lists)) -> In r (concat lists)).
  { intros r (l' & (l & <- & Hl')%in_map_iff & Hr)%in_concat. apply in_concat. exists l. split; [done | by apply (In_take k)]. }
  split; [split_and!|].
  - intros ->. apply Permutation_nil in Hp. apply Hne, Permutation_nil. rewrite <- Hc. clear -Hk Hp.
    assert (E : concat lists = []); [|by rewrite E]. induction lists as [|[|r l] ls IH]; cbn in *; [done | rewrite take_nil in Hp; by apply IH |].
    destruct k; [lia | done].
  - rewrite Hp. apply List.Forall_forall. intros r Hr%Hin. rewrite List.Forall_forall in Hty. auto.
  - done.
  - exists lists. split; [done|]. split; [done|]. apply List.Forall_forall. intros l Hin'. split.
    + apply List.Forall_forall. intros r Hr. rewrite List.Forall_forall in Hty. apply Hty, in_concat. eauto.
    + clear -Hl Hin'. induction Hl as [|t l0 ts ls [_ ?] _ IH]; [done|]. destruct Hin' as [<-|]; auto.
Qed.

(** The answers of the databases, in the order of their arrival. *)
Lemma collect_answers plans fields k rowsOf query :
  (0 < k)%nat ->
  Forall (fun p => Forall (row_typed ofs sh) (databaseRows rowsOf p) /\ databaseRows rowsOf p <> [] /\
    exists answer, query p = Ok (fields, answer, 0) /\ unionAnswer k (rowsOf (fst p)) (snd p) answer) plans ->
  exists results full, mapM_res (fun p => '(fields, rows, warn) ← query p; Ok (mkResult (fst p) fields rows warn)) plans = Ok results /\
    length results = length plans /\ Forall (fun r => Fields r = fields /\ Warning r = 0) results /\ Forall (ordered ofs sh) (Rows <$> results) /\
    Permutation (concat full) (concat (databaseRows rowsOf <$> plans)) /\
    Permutation (concat (Rows <$> results)) (concat (take k <$> full)) /\
    Forall (fun l => Forall (row_typed ofs sh) l /\ StronglySorted (rle ofs) l) full.
Proof.
  intros Hk. induction 1 as [|p plans (Ht & Hne & answer & Eq & Hu) _ (results & full & E & Hlen & Hf & Ho & Hp & Hc & Hfull)].
  { exists [], []. split_and!; try done; constructor. }
  destruct (unionAnswer_ordered k _ _ answer Hk Ht Hne Hu) as (Hord & lists & Hpl & Hal & Hll).
  exists (mkResult (fst p) fields answer 0 :: results), (lists ++ full). cbn. rewrite Eq. cbn. rewrite E. cbn.
  split_and!; [done | by rewrite Hlen | by constructor | by constructor | | | by apply Forall_app].
  - rewrite concat_app, Hp. by apply Permutation_app_tail.
  - rewrite fmap_app, concat_app, Hc. by apply Permutation_app_tail.
Qed.
End answers.

(** C7: A SELECT with ORDER BY and LIMIT over several databases, with one or more
    tables each.  Every database is sent the text [QueryPlan_generate] makes for
    LIMIT [Offset + Count] and answers, without warnings and in any order of
    arrival, as [unionAnswer] says: the first [Offset + Count] rows of each of its
    tables, all in order (with several tables there is no LIMIT around the
    UNION).  When every database has a matching row the client receives exactly
    the rows [Offset, Offset + Count) of all rows of all tables in order.  "In
    order" is the order the merge compares by, on decoded values of one type per
    column ([row_typed], [rle]): numbers of the text protocol are not ordered this
    way by the databases ([text_numbers_misordered]). *)
Theorem multi_query_slice `{MapOrder} `{UnstableSort} plans orderBy limit fields pk sel rowsOf sh server :
  plans <> [] -> 0 <= Offset limit -> 0 < Count limit -> Offset limit + Count limit < two63 ->
  let ofs := castOrderByItemsToOrderField orderBy fields in
  (forall p, In p plans -> Forall (row_typed ofs sh) (databaseRows rowsOf p) /\ databaseRows rowsOf p <> []) ->
  (forall p, In p plans -> exists sql answer,
     QueryPlan_generate (snd p) pk sel (Some (Offset limit + Count limit)) false = Ok sql /\
     server (fst p) sql = Ok (fields, answer, 0) /\
     unionAnswer ofs (Z.to_nat (Offset limit + Count limit)) (rowsOf (fst p)) (snd p) answer) ->
  exists all, Permutation all (concat (databaseRows rowsOf <$> plans)) /\ StronglySorted (rle ofs) all /\
    Execute plans (Some orderBy) (Some limit) [] (askPlan server pk sel (Some limit)) =
      Ok ((fields, take (Z.to_nat (Count limit)) (drop (Z.to_nat (Offset limit)) all)), 0).
Proof.
  intros Hne Ho Hc Hmax ofs Ht Hq. set (k := Z.to_nat (Offset limit + Count limit)).
  destruct (collect_answers ofs sh (visit 0 plans) fields k rowsOf (askPlan server pk sel (Some limit)))
    as (results & full & E & Hlen & Hf & Hord & Hall & Hcut & Hfull); [lia| |].
  { apply List.Forall_forall. intros p Hin%visit_In. destruct (Ht p Hin) as [Ht1 Ht2], (Hq p Hin) as (sql & answer & Eg & Es & Hu).
    split_and!; [done | done|]. exists answer. split; [|done]. unfold askPlan. cbn [fmap option_fmap option_map].
    unfold limitCount. rewrite i64_id by (unfold_width; lia). by rewrite Eg. }
  destruct (sort_results results) as (sorted & Es & Hp). rewrite (visit_perm 0 _ plans) in Hall.
  assert (Hs : Forall (fun r => Fields r = fields /\ Warning r = 0) sorted) by (by rewrite Hp).
  assert (Hff : firstFields sorted = Ok fields).
  { destruct sorted as [|r l]; [|cbn; by destruct (Forall_inv Hs) as [-> _]]. exfalso. apply Permutation_nil in Hp. subst results.
    apply Hne, Permutation_nil. rewrite <- (visit_perm 0 _ plans). by destruct (visit 0 plans). }
  destruct (merge_both ofs sh sorted orderBy fields limit) as (rows & Hpr & Hsr & _ & Em); [done | done | | done | done |].
  { by rewrite (Permutation_map Rows Hp). }
  rewrite Hp, Hcut in Hpr.
  destruct (prefix_slice_tables ofs sh limit full rows) as (all & Ha & Hsa & Hw); [lia | lia | done..|].
  exists all. split_and!; [by rewrite Ha, Hall | done|]. unfold Execute. rewrite E. cbn [mbind res_bind].
  rewrite Es. cbn [mbind res_bind]. destruct plans as [|p0 plans']; [done|]. cbn [mergeResult]. rewrite Em.
  cbn [mbind res_bind aggregateResult]. rewrite <- Hw.
  rewrite sumWarnings_zero; [done|]. eapply Forall_impl; [exact Hs|]. by intros r [_ ?].
Qed.

(** Three tables in two databases; the first answers four rows to LIMIT 2. *)
Definition threeTables (d t : string) : list Row :=
  if String.eqb t "t_0" then shard0 else if String.eqb t "t_1" then shard1 else binaryRow <$> [8; 5; 7].
Definition twoDatabases : list (string * list string) := [("a", ["t_0"; "t_2"]); ("b", ["t_1"])]%string.
Definition byId : selectText := mkSelectText "SELECT" false false (Some [Ok "*"%string]) (Ok "t"%string) false "" None None None (Some (Ok "ORDER BY `id`"%string)).
Definition answerOf (d sql : string) : res (list string * list Row * Z) :=
  Ok (["id"%string], binaryRow <$> (if String.eqb d "a" then [1; 4; 5; 7] else [2; 3]), 0).

Lemma multi_query_slice_witness :
  exists all, Permutation all (concat (databaseRows threeTables <$> twoDatabases)) /\
    StronglySorted (rle (castOrderByItemsToOrderField [("id"%string, false)] ["id"%string])) all /\
    Execute twoDatabases (Some [("id"%string, false)]) (Some (mkLimit 1 1)) [] (askPlan answerOf "id" byId (Some (mkLimit 1 1)))
      = Ok ((["id"%string], take (Z.to_nat 1) (drop (Z.to_nat 1) all)), 0).
Proof.
  assert (Hs : forall l, l <> [] -> StronglySorted (fun a b => three (a <? b) (a =? b) <= 0) l ->
    StronglySorted (rle [mkOrder true 0 DNil]) (binaryRow <$> l)) by (intros l H1 H2; apply (binary_ordered l H1 H2)).
  apply (multi_query_slice twoDatabases [("id"%string, false)] (mkLimit 1 1) ["id"%string] "id" byId threeTables [(true, TInt64)] answerOf).
  - discriminate.
  - cbn. lia.
  - cbn. lia.
  - cbn. unfold_width. lia.
  - intros p [<-|[<-|[]]]; (split; [|discriminate]);
      [change (databaseRows _ _) with (binaryRow <$> [1; 4; 6; 8; 5; 7]) | change (databaseRows _ _) with (binaryRow <$> [2; 3; 9])];
      apply Forall_fmap, Forall_true; intros z; exists [Some (DInt64 z)]; (split_and!; [done | done|]); constructor; [done | constructor | done | constructor].
  - intros p [<-|[<-|[]]]; eexists; eexists; (split; [reflexivity|]); (split; [reflexivity|]).
    + exists [shard0; binaryRow <$> [5; 7; 8]]. split; [|split; [reflexivity|]].
      * constructor; [split; [done|] | constructor; [split|constructor]].
        -- apply (Hs [1; 4; 6]); [done|]. repeat constructor; cbn; lia.
        -- apply Permutation_map. exact (Permutation_app_comm [5; 7] [8]).
        -- apply (Hs [5; 7; 8]); [done|]. repeat constructor; cbn; lia.
      * apply (Hs [1; 4; 5; 7]); [done|]. repeat constructor; cbn; lia.
    + exists [shard1]. split; [|split; [reflexivity|]].
      * constructor; [split; [done|] | constructor]. apply (Hs [2; 3; 9]); [done|]. repeat constructor; cbn; lia.
      * apply (Hs [2; 3]); [done|]. repeat constructor; cbn; lia.
Defined.

(** A SELECT on a sharded table whose clause is constantly false is
    planned over no database at all, and executing that plan panics on its
    first element instead of returning an empty result. *)
Theorem false_clause_panics `{MapOrder} `{KeySort} `{UnstableSort} ev args o alg topology tableName pk a b
    orderBy limit funcs query :
  algorithms o !! tableName = Some alg -> topologies o !! tableName = Some topology ->
  default false (globalTables o !! ToLower tableName) = false ->
  0 < TableSliceLen topology -> in_i64 a -> in_i64 b -> a <> b ->
  optimizeSelect ev args o (Some pk) tableName (Some (EBinary EQ (EValue (VInt64 a)) (EValue (VInt64 b))))
    = Ok (QueryOnMultiDBPlan pk []) /\
  Execute [] orderBy limit funcs query = Panic.
Proof.
  intros Halg Htopo Hglob Hn Ha Hb Hab. split.
  - assert (Hcmp : Compare (VInt64 a) (VInt64 b) <> 0).
    { destruct (Compare_integers (VInt64 a) (VInt64 b) a b) as (_ & Heq & _);
        [cbn; by rewrite bool_decide_true | cbn; by rewrite bool_decide_true | tauto]. }
    unfold optimizeSelect, algorithmOf, topologyOf. rewrite Hglob, Halg, Htopo.
    cbn [Prelude.from_option mbind res_bind]. unfold computeShards, parseWhere.
    assert (Hp : ParseCondition ev args (mkHeap ∅ 0) (EBinary EQ (EValue (VInt64 a)) (EValue (VInt64 b)))
      = Ok (mkHeap ∅ 0, CFalse)).
    { cbn -[Compare]. unfold ParseCompareExpression. cbn -[Compare].
      destruct (Z.eqb_spec (Compare (VInt64 a) (VInt64 b)) 0); done. }
    rewrite Hp. cbn [wrap mbind res_bind Cond_Shard]. unfold routeShards. cbn [Slice_ParseTopology groupTables length].
    destruct (Z.eqb_spec (Z.of_nat 0) (TableSliceLen topology)); [lia|]. cbn [andb].
    rewrite map_to_list_empty. done.
  - unfold Execute. assert (visit 0 (@nil (string * list string)) = []) as ->
      by (apply Permutation_nil; symmetry; apply visit_perm).
    cbn. destruct (sort_results []) as (l & -> & _). done.
Qed.

Lemma false_clause_panics_witness :
  optimizeSelect no_eval [] school (Some "uid"%string) "student" (Some (EBinary EQ (EValue (VInt64 1)) (EValue (VInt64 0))))
    = Ok (QueryOnMultiDBPlan "uid" []) /\
  Execute [] None None [] (fun _ => Panic) = Panic.
Proof.
  apply (false_clause_panics no_eval [] school (NumberMod.algorithm mod5) five_tables "student" "uid" 1 0);
    try reflexivity; try (unfold_width; lia).
Defined.
