(* ===== verification/Uuid.v ===== *)
(** * Identifier generation (pkg/misc/uuid)

    [IdWorker]: the process-wide generator of transaction and branch ids, a
    counter bumped by an atomic add and combined with the worker id.
    [Snowflake]: the per-table generator, which shares the package variables.
    Every call reads or writes the shared variables by one atomic operation,
    so a run of concurrent callers is a sequence of the calls modelled here. *)
From Stdlib Require Import ZArith Lia List Permutation.
From stdpp Require Import base gmap strings list.
From S2P Require Import Prelude.

Local Open Scope Z_scope.

(** ** Bit fields: an id is a worker number above 53 bits of counter *)
Definition epoch : Z := 1588435200000.
Definition workerIDBits : Z := 10.
Definition timestampBits : Z := 41.
Definition sequenceBits : Z := 12.
Definition maxWorkerID : Z := Z.lxor (-1) (Z.shiftl (-1) workerIDBits).
Definition timestampAndSequenceMask : Z :=
  u64 (Z.lxor (-1) (Z.shiftl (-1) (timestampBits + sequenceBits))).

(** [misc.CurrentTimeMillis] of a clock reading in nanoseconds. *)
Definition CurrentTimeMillis (unixNano : Z) : Z := u64 unixNano / 1000000.

(** The package variables [workerID] (int64) and [timestampAndSequence]
    (uint64). *)
Record vars := mkVars { workerID : Z; timestampAndSequence : Z }.

Module IdWorker.

Definition getNewestTimestamp (unixNano : Z) : Z := u64 (CurrentTimeMillis unixNano - epoch).

Definition counterAt (unixNano : Z) : Z :=
  u64 (Z.shiftl (getNewestTimestamp unixNano) sequenceBits).

(** A network interface: up, loopback, hardware address. *)
Record iface := mkIface { up : bool; loopback : bool; HardwareAddr : list Z }.

Definition errNoMac : string := "no available mac found".

Fixpoint generateWorkerIDBaseOnMac (ifaces : list iface) : res Z :=
  match ifaces with
  | [] => Err errNoMac
  | i :: rest =>
    if negb (up i) then generateWorkerIDBaseOnMac rest
    else if loopback i then generateWorkerIDBaseOnMac rest
    else
      match HardwareAddr i !! 4%nat, HardwareAddr i !! 5%nat with
      | Some b4, Some b5 => Ok (Z.lor (Z.shiftl (Z.land b4 3) 8) (Z.land b5 255))
      | _, _ => Panic
      end
  end.

(** [random] is what [rand.Int63n(maxWorkerID + 1)] returns. *)
Definition generateWorkerID (ifaces : list iface) (random : Z) : res Z :=
  match generateWorkerIDBaseOnMac ifaces with
  | Err _ => Ok random
  | r => r
  end.

(** The package initialisation. *)
Definition init (ifaces : list iface) (random unixNano : Z) : res vars :=
  id ← generateWorkerID ifaces random;
  Ok (mkVars (i64 (Z.shiftl id (timestampBits + sequenceBits))) (counterAt unixNano)).

Definition errWorkerID : string := "worker id can't be greater than 1023 or less than 0".

Definition Init (serverNode : Z) (s : vars) : res vars :=
  if (serverNode >? maxWorkerID) || (serverNode <? 0) then Err errWorkerID
  else Ok (mkVars (i64 (Z.shiftl serverNode (timestampBits + sequenceBits)))
                  (timestampAndSequence s)).

Definition NextID (s : vars) : Z * vars :=
  let next := u64 (timestampAndSequence s + 1) in
  let timestampWithSequence := Z.land next timestampAndSequenceMask in
  (i64 (Z.lor (u64 (workerID s)) timestampWithSequence), mkVars (workerID s) next).

(** A run of [n] calls, by any callers. *)
Fixpoint nextIDs (n : nat) (s : vars) : list Z * vars :=
  match n with
  | O => ([], s)
  | S n' => let '(id, s') := NextID s in let '(ids, s'') := nextIDs n' s' in (id :: ids, s'')
  end.

End IdWorker.

Module Snowflake.
Import IdWorker.

Record SnowflakeWorker := mkWorker { w_workerID : Z; w_timestampAndSequence : Z }.

(** [generated] is what [generateWorkerID] yields at the call. *)
Definition NewWorker (id : Z) (generated : res Z) (unixNano : Z) (s : vars)
  : res (SnowflakeWorker * vars) :=
  if (id <? 0) || (id >? maxWorkerID) then Err errWorkerID
  else
    wid ← (if id =? 0 then generated else Ok (workerID s));
    let s' := mkVars wid (counterAt unixNano) in
    Ok (mkWorker id (timestampAndSequence s'), s').

Definition NextID (w : SnowflakeWorker) (s : vars) : Z * SnowflakeWorker :=
  let next := u64 (w_timestampAndSequence w + 1) in
  let timestampWithSequence := Z.land next timestampAndSequenceMask in
  (i64 (Z.lor (u64 (workerID s)) timestampWithSequence), mkWorker (w_workerID w) next).

Fixpoint nextIDs (n : nat) (w : SnowflakeWorker) (s : vars) : list Z * SnowflakeWorker :=
  match n with
  | O => ([], w)
  | S n' => let '(id, w') := NextID w s in let '(ids, w'') := nextIDs n' w' s in (id :: ids, w'')
  end.

End Snowflake.

(** ** Arithmetic of the fields *)
Definition two53 : Z := 9007199254740992.

Lemma mask_val : timestampAndSequenceMask = Z.ones 53.
Proof. reflexivity. Qed.

Lemma land_mask x : Z.land x timestampAndSequenceMask = x mod two53.
Proof. rewrite mask_val. apply Z.land_ones. lia. Qed.

Lemma shift_worker n : 0 <= n <= 1023 ->
  i64 (Z.shiftl n (timestampBits + sequenceBits)) = n * two53.
Proof.
  intros H. rewrite Z.shiftl_mul_pow2 by done.
  change (2 ^ (timestampBits + sequenceBits)) with two53. apply i64_id.
  unfold_width. unfold two53. lia.
Qed.

(** The id of a worker and a counter value. *)
Definition join (node counter : Z) : Z := node * two53 + counter mod two53.

Lemma id_join node next : 0 <= node <= 1023 ->
  i64 (Z.lor (u64 (node * two53)) (Z.land next timestampAndSequenceMask)) = join node next.
Proof.
  intros H. rewrite land_mask, u64_id by (unfold_width; unfold two53; lia).
  pose proof (Z.mod_pos_bound next two53 ltac:(done)).
  change two53 with (2 ^ 53) at 1. rewrite lor_fields by (unfold two53 in *; lia).
  apply i64_id. unfold join. unfold_width. change (2 ^ 53) with two53. unfold two53 in *. lia.
Qed.

Lemma mod53_bound x : 0 <= x mod two53 < two53.
Proof. apply Z.mod_pos_bound. done. Qed.

Lemma join_node node c : join node c / two53 = node.
Proof.
  pose proof (mod53_bound c). unfold join. rewrite Z.div_add_l by done.
  rewrite Z.div_small by done. lia.
Qed.

Lemma join_counter node c : join node c mod two53 = c mod two53.
Proof.
  unfold join. rewrite Z.add_comm, Z.mod_add by done. apply Z.mod_mod. done.
Qed.

Lemma join_inj n1 c1 n2 c2 : join n1 c1 = join n2 c2 ->
  n1 = n2 /\ c1 mod two53 = c2 mod two53.
Proof.
  intros H. split.
  - rewrite <- (join_node n1 c1), <- (join_node n2 c2). by rewrite H.
  - rewrite <- (join_counter n1 c1), <- (join_counter n2 c2). by rewrite H.
Qed.

Lemma u64_mod53 x : u64 x mod two53 = x mod two53.
Proof.
  unfold u64. apply Z.mod_mod_divide. by exists 2048.
Qed.

(** [n] consecutive counter values modulo 2^53 are distinct. *)
Definition counters (c : Z) (n : nat) : list Z :=
  map (fun k => c + Z.of_nat k + 1) (seq 0 n).

Lemma counters_S c n : counters c (S n) = (c + 1) :: counters (c + 1) n.
Proof.
  unfold counters. rewrite <- cons_seq, <- seq_shift, map_cons, map_map. f_equal; [lia|].
  apply map_ext. intros k. lia.
Qed.

Lemma nextIDs_counters node n : 0 <= node <= 1023 -> forall c,
  fst (IdWorker.nextIDs n (mkVars (node * two53) c)) = map (join node) (counters c n).
Proof.
  intros Hn. induction n as [|n IH]; intros c; [done|].
  cbn [IdWorker.nextIDs IdWorker.NextID workerID timestampAndSequence].
  rewrite id_join by done. rewrite counters_S, map_cons.
  assert (Hu : forall a b, a mod two53 = b mod two53 -> join node a = join node b)
    by (intros a b E; unfold join; by rewrite E).
  specialize (IH (u64 (c + 1))). destruct (IdWorker.nextIDs n _) as [ids s'].
  cbn [fst] in *. rewrite IH. f_equal; [apply Hu, u64_mod53|].
  unfold counters. rewrite !map_map. apply map_ext. intros k. apply Hu.
  rewrite <- !Z.add_assoc. rewrite Z.add_mod, u64_mod53, <- Z.add_mod by done. f_equal. lia.
Qed.

Lemma mod53_cancel a k : 0 <= k < two53 -> (a + k) mod two53 = a mod two53 -> k = 0.
Proof.
  intros Hk H. assert (Hm : k mod two53 = 0).
  { replace k with ((a + k) - a) by lia. rewrite Zminus_mod, H, Z.sub_diag. done. }
  rewrite Z.mod_small in Hm; lia.
Qed.

Lemma join_counters_NoDup node c n : Z.of_nat n <= two53 -> NoDup (map (join node) (counters c n)).
Proof.
  revert c; induction n as [|n IH]; intros c Hn; [constructor|].
  rewrite counters_S, map_cons. constructor; [|apply IH; lia].
  rewrite list_elem_of_In, in_map_iff. intros (x & E & Hx).
  unfold counters in Hx. apply in_map_iff in Hx as (k & <- & Hk%in_seq).
  apply join_inj in E as [_ E].
  replace (c + 1 + Z.of_nat k + 1) with (c + 1 + (Z.of_nat k + 1)) in E by lia.
  apply mod53_cancel in E; lia.
Qed.

Lemma Init_Ok node s s' : IdWorker.Init node s = Ok s' ->
  0 <= node <= 1023 /\ s' = mkVars (node * two53) (timestampAndSequence s).
Proof.
  unfold IdWorker.Init. change maxWorkerID with 1023.
  destruct ((node >? 1023) || (node <? 0)) eqn:E; [done|]. intros [= <-].
  apply orb_false_iff in E as [E1 E2]. zbool. split; [lia|]. by rewrite shift_worker by lia.
Qed.

Lemma nextIDs_of node s s' n : IdWorker.Init node s = Ok s' ->
  fst (IdWorker.nextIDs n s') = map (join node) (counters (timestampAndSequence s) n).
Proof. intros [Hn ->]%Init_Ok. by apply nextIDs_counters. Qed.

Lemma Snowflake_nextIDs_number a b c s n :
  fst (Snowflake.nextIDs n (Snowflake.mkWorker a c) s) =
  fst (Snowflake.nextIDs n (Snowflake.mkWorker b c) s).
Proof.
  revert c; induction n as [|n IH]; intros c; [done|]. cbn.
  specialize (IH (u64 (c + 1))).
  destruct (Snowflake.nextIDs n (Snowflake.mkWorker a _) s), (Snowflake.nextIDs n (Snowflake.mkWorker b _) s).
  cbn in *. by rewrite IH.
Qed.

(** ** Claims *)

(** C34: Once [Init] has accepted a node number, any run of at most 2^53 calls
    of [NextID] returns pairwise distinct ids, whatever the counter (its
    wrap-around included), all non-negative int64 values carrying the node
    number in the bits above 53. *)
Theorem NextID_unique node s s' n :
  IdWorker.Init node s = Ok s' -> Z.of_nat n <= two53 ->
  let ids := fst (IdWorker.nextIDs n s') in
  length ids = n /\ NoDup ids /\
  Forall (fun id => 0 <= id < two63 /\ Z.shiftr id 53 = node) ids.
Proof.
  intros Hi Hn. rewrite (nextIDs_of node s s' n Hi). apply Init_Ok in Hi as [Hb _].
  split; [unfold counters; by rewrite !length_map, length_seq|]. split; [by apply join_counters_NoDup|].
  apply List.Forall_forall. intros id (c & <- & _)%in_map_iff. split.
  - pose proof (mod53_bound c). unfold join. unfold_width. unfold two53 in *. lia.
  - rewrite Z.shiftr_div_pow2 by lia. apply join_node.
Qed.

Lemma NextID_unique_witness :
  let ids := fst (IdWorker.nextIDs 3 (mkVars (7 * two53) 18446744073709551614)) in
  length ids = 3%nat /\ NoDup ids /\
  Forall (fun id => 0 <= id < two63 /\ Z.shiftr id 53 = 7) ids.
Proof.
  apply (NextID_unique 7 (mkVars 0 18446744073709551614)); [vm_compute; reflexivity | vm_compute; discriminate].
Defined.

(** Two processes initialised with different node numbers never hand out
    the same id, whatever their counters and however many calls they serve. *)
Theorem NextID_nodes_disjoint node1 node2 s1 s1' s2 s2' n1 n2 id :
  IdWorker.Init node1 s1 = Ok s1' -> IdWorker.Init node2 s2 = Ok s2' -> node1 <> node2 ->
  ~ (In id (fst (IdWorker.nextIDs n1 s1')) /\ In id (fst (IdWorker.nextIDs n2 s2'))).
Proof.
  intros H1 H2 Hne. rewrite (nextIDs_of _ _ _ n1 H1), (nextIDs_of _ _ _ n2 H2), !in_map_iff.
  intros [(c1 & <- & _) (c2 & E & _)]. apply join_inj in E as [? _]. congruence.
Qed.

Lemma NextID_nodes_disjoint_witness :
  ~ (In (join 1 6) (fst (IdWorker.nextIDs 2 (mkVars (1 * two53) 5))) /\
     In (join 1 6) (fst (IdWorker.nextIDs 4 (mkVars (2 * two53) 5)))).
Proof.
  apply (NextID_nodes_disjoint 1 2 (mkVars 0 5) _ (mkVars 0 5)); [vm_compute; reflexivity | vm_compute; reflexivity | discriminate].
Defined.

(** The number given to [NewWorker] has no influence on the ids: two
    Snowflake workers made with different numbers at the same instant return
    the same sequence of ids. *)
Theorem Snowflake_worker_number_ignored id1 id2 g unixNano s w1 w2 s1 s2 n :
  Snowflake.NewWorker id1 g unixNano s = Ok (w1, s1) ->
  Snowflake.NewWorker id2 g unixNano s = Ok (w2, s2) ->
  id1 <> 0 -> id2 <> 0 ->
  fst (Snowflake.nextIDs n w1 s1) = fst (Snowflake.nextIDs n w2 s2).
Proof.
  unfold Snowflake.NewWorker. intros H1 H2 N1%Z.eqb_neq N2%Z.eqb_neq. rewrite N1 in H1. rewrite N2 in H2.
  destruct (_ || _); [done|]. destruct (_ || _) in H2; [done|].
  injection H1 as <- <-. injection H2 as <- <-.
  apply Snowflake_nextIDs_number.
Qed.

Lemma Snowflake_worker_number_ignored_witness :
  exists w1 w2 v, fst (Snowflake.nextIDs 4 w1 v) = fst (Snowflake.nextIDs 4 w2 v) /\
    Snowflake.w_workerID w1 = 3 /\ Snowflake.w_workerID w2 = 9.
Proof.
  do 3 eexists. split; [|split].
  - eapply (Snowflake_worker_number_ignored 3 9 (Ok 0) 1700000000000000000 (mkVars 0 0));
      [reflexivity | reflexivity | discriminate | discriminate].
  - reflexivity.
  - reflexivity.
Defined.

(** With number 0 the worker number is stored unshifted and overlaps the
    sequence bits: two consecutive ids of the same worker are equal. *)
Theorem Snowflake_zero_repeats_id :
  exists w s ids w', Snowflake.NewWorker 0 (Ok 5) 1700000000000000000 (mkVars 0 0) = Ok (w, s) /\
    Snowflake.nextIDs 5 w s = (ids, w') /\ ~ NoDup ids.
Proof.
  do 4 eexists. split; [vm_compute; reflexivity|]. split; [vm_compute; reflexivity|].
  intros H. apply (NoDup_lookup _ 0 4 456969420800005) in H; [discriminate | |]; reflexivity.
Qed.
