(* ===== verification/Segment.v ===== *)
(** * Segments of ids reserved in a database row (pkg/misc/uuid/segment.go)

    A worker reserves a block of ids by a transaction on the row of its
    business: BEGIN, SELECT ... FOR UPDATE, UPDATE, COMMIT.  Several workers,
    in one process or in many, share the row, and their calls interleave one
    by one; any call can fail, and a call can take effect although its answer
    is lost.  The worker is a state machine: [ask] is the call it makes next,
    [answered] what it does with the answer.  MySQL is a parameter, of which
    the class [Database] states what the code relies on. *)
From Stdlib Require Import ZArith Lia List Permutation.
From stdpp Require Import base gmap strings list relations.
From S2P Require Import Prelude.

Local Open Scope Z_scope.

(** ** The calls of the worker and what the database promises *)

(** Transactions are numbered in the order in which they begin. *)
Inductive call :=
| Begin
| QueryMaxID (tx : nat) (biz : string) (forUpdate : bool)
| ExecUpdate (tx : nat) (maxID : Z) (biz : string)
| Commit (tx : nat)
| Rollback (tx : nat).

Inductive reply := RBegun (tx : nat) | RRow (maxID : option Z) | RDone | RFailed.

(** The committed rows of the table, the transaction that holds the lock of a
    row, and the uncommitted writes of the open transactions. *)
Record view := mkView {
  rows : gmap string Z; locks : gmap string nat; writes : gmap nat (gmap string Z); next : nat }.

Definition maxInt : Z := 2147483647.

(** The lock of the row is free or the transaction's own. *)
Definition lockable (v : view) (t : nat) (biz : string) : Prop :=
  locks v !! biz = None \/ locks v !! biz = Some t.

Definition lockRow (t : nat) (biz : string) (v : view) : view :=
  mkView (rows v) (<[biz := t]> (locks v)) (writes v) (next v).
Definition writeRow (t : nat) (ws : gmap string Z) (v : view) : view :=
  mkView (rows v) (locks v) (<[t := ws]> (writes v)) (next v).
(** The end of a transaction: [ws] are the writes that stay. *)
Definition endTx (t : nat) (ws : gmap string Z) (v : view) : view :=
  mkView (ws ∪ rows v) (filter (fun p => snd p <> t) (locks v)) (delete t (writes v)) (next v).

(** What a call may do and answer:
    - transactions get fresh numbers, and calls on one that is no longer open
      do not succeed;
    - [SELECT ... FOR UPDATE] and [UPDATE] of a row that exists wait for its
      lock, keep it to the end of the transaction and see the latest
      committed value and the transaction's own write; a SELECT without
      [FOR UPDATE] locks nothing and may return any earlier value;
    - an [UPDATE] of a row that does not exist changes nothing, and a value
      outside the range of the column is refused;
    - a call that fails has had no effect, or all of it with the answer
      lost. *)
Inductive effect (v : view) : call -> reply -> view -> Prop :=
| eff_begin :
    effect v Begin (RBegun (next v)) (mkView (rows v) (locks v) (<[next v := ∅]> (writes v)) (S (next v)))
| eff_select t biz ws m :
    writes v !! t = Some ws -> rows v !! biz = Some m -> lockable v t biz ->
    effect v (QueryMaxID t biz true) (RRow (Some (default m (ws !! biz)))) (lockRow t biz v)
| eff_select_none t biz ws :
    writes v !! t = Some ws -> rows v !! biz = None -> effect v (QueryMaxID t biz true) (RRow None) v
| eff_snapshot t biz ws o :
    writes v !! t = Some ws -> effect v (QueryMaxID t biz false) (RRow o) v
| eff_update t biz ws m x :
    writes v !! t = Some ws -> rows v !! biz = Some m -> lockable v t biz -> - maxInt - 1 <= x <= maxInt ->
    effect v (ExecUpdate t x biz) RDone (writeRow t (<[biz := x]> ws) (lockRow t biz v))
| eff_update_none t biz ws x :
    writes v !! t = Some ws -> rows v !! biz = None -> effect v (ExecUpdate t x biz) RDone v
| eff_commit t ws : writes v !! t = Some ws -> effect v (Commit t) RDone (endTx t ws v)
| eff_rollback t : effect v (Rollback t) RDone (endTx t ∅ v)
| eff_failed c : effect v c RFailed v
| eff_lost c r v' : effect v c r v' -> effect v c RFailed v'.

(** A database, seen through [look]: [serve] answers a call, [abort] rolls
    back a transaction of the server's own accord (a deadlock, a time-out, a
    lost connection), and [late] commits one whose COMMIT was sent but not
    answered. *)
Class Database := {
  dbstate : Type;
  look : dbstate -> view;
  serve : dbstate -> call -> reply -> dbstate -> Prop;
  abort : dbstate -> nat -> dbstate -> Prop;
  late : dbstate -> nat -> dbstate -> Prop;
  serve_effect : forall d c r d', serve d c r d' -> effect (look d) c r (look d');
  abort_effect : forall d t d', abort d t d' -> look d' = endTx t ∅ (look d);
  late_effect : forall d t d', late d t d' ->
    exists ws, writes (look d) !! t = Some ws /\ look d' = endTx t ws (look d) }.

(** ** The worker *)

(** Where [fetchSegmentFromDB] is. *)
Inductive fetchAt :=
| ABegin | ASelect (tx : nat) | AUpdate (tx : nat) (maxID : Z) | ACommit (tx : nat) (maxID : Z) | ARollback (tx : nat).

(** Where [ProduceID] is: at the head of its loop, before it increments and
    sends, or in [reload], called before the loop or in it. *)
Inductive point := Loop | Send | Reload (initial : bool) (at_ : fetchAt).

Record SegmentWorker := mkWorker {
  buffer : list Z; min : Z; max : Z; bizID : string; step : Z; pc : point }.

Definition set_pc (p : point) (w : SegmentWorker) : SegmentWorker :=
  mkWorker (buffer w) (min w) (max w) (bizID w) (step w) p.

(** The goroutine started by [NewSegmentWorker] begins with [reload]. *)
Definition NewSegmentWorker (len : Z) (biz : string) : SegmentWorker :=
  mkWorker [] 0 0 biz len (Reload true ABegin).

(** The next call of [fetchSegmentFromDB]. *)
Definition ask (w : SegmentWorker) : option call :=
  match pc w with
  | Reload _ ABegin => Some Begin
  | Reload _ (ASelect t) => Some (QueryMaxID t (bizID w) true)
  | Reload _ (AUpdate t maxID) => Some (ExecUpdate t (i64 (maxID + step w)) (bizID w))
  | Reload _ (ACommit t _) => Some (Commit t)
  | Reload _ (ARollback t) => Some (Rollback t)
  | Loop | Send => None
  end.

(** What follows the answer: [sql.ErrNoRows] leaves [maxID] zero; an error
    returns after the deferred rollback, and [reload] begins again; the fields
    are set after the commit. *)
Definition answered (w : SegmentWorker) (r : reply) : SegmentWorker :=
  match pc w with
  | Reload b ABegin => match r with RBegun t => set_pc (Reload b (ASelect t)) w | _ => w end
  | Reload b (ASelect t) =>
    match r with
    | RRow o => set_pc (Reload b (AUpdate t (default 0 o))) w
    | _ => set_pc (Reload b (ARollback t)) w
    end
  | Reload b (AUpdate t maxID) =>
    match r with RDone => set_pc (Reload b (ACommit t maxID)) w | _ => set_pc (Reload b (ARollback t)) w end
  | Reload b (ACommit t maxID) =>
    match r with
    | RDone => mkWorker (buffer w) maxID (i64 (maxID + step w)) (bizID w) (step w) (if b then Loop else Send)
    | _ => set_pc (Reload b (ARollback t)) w
    end
  | Reload b (ARollback t) => set_pc (Reload b ABegin) w
  | Loop | Send => w
  end.

(** The loop of [ProduceID] between the calls: the test, and the increment
    with the send, which waits while the buffer is full.  After [reload] the
    test is not made again. *)
Definition produce (w : SegmentWorker) : option SegmentWorker :=
  match pc w with
  | Loop => Some (set_pc (if min w >=? max w then Reload false ABegin else Send) w)
  | Send =>
    if Z.of_nat (length (buffer w)) <? step w then
      let m := i64 (min w + 1) in
      Some (mkWorker (buffer w ++ [m]) m (max w) (bizID w) (step w) Loop)
    else None
  | Reload _ _ => None
  end.

(** [NextID] takes the first id of the buffer; with none for a second it
    returns an error and changes nothing. *)
Definition NextID (w : SegmentWorker) : option (Z * SegmentWorker) :=
  match buffer w with
  | [] => None
  | id :: rest => Some (id, mkWorker rest (min w) (max w) (bizID w) (step w) (pc w))
  end.

(** A buffer of no capacity ([len = 0]): the send waits for a caller of
    [NextID] and hands the id over. *)
Definition handOff (w : SegmentWorker) : option (Z * SegmentWorker) :=
  match pc w with
  | Send =>
    if step w =? 0 then
      let m := i64 (min w + 1) in Some (m, mkWorker (buffer w) m (max w) (bizID w) (step w) Loop)
    else None
  | _ => None
  end.

(** The transaction [fetchSegmentFromDB] is in. *)
Definition current (w : SegmentWorker) : option nat :=
  match pc w with
  | Reload _ (ASelect t) | Reload _ (AUpdate t _) | Reload _ (ACommit t _) => Some t
  | _ => None
  end.

(** ** Several workers over one database *)
Section system.
Context {D : Database}.

Record system := mkSystem { db : dbstate; workers : list SegmentWorker; received : list Z }.

Inductive sys_step (s : system) : system -> Prop :=
| sys_call i w c r d' :
    workers s !! i = Some w -> ask w = Some c -> serve (db s) c r d' ->
    sys_step s (mkSystem d' (<[i := answered w r]> (workers s)) (received s))
| sys_produce i w w' :
    workers s !! i = Some w -> produce w = Some w' ->
    sys_step s (mkSystem (db s) (<[i := w']> (workers s)) (received s))
| sys_NextID i w id w' :
    workers s !! i = Some w -> NextID w = Some (id, w') ->
    sys_step s (mkSystem (db s) (<[i := w']> (workers s)) (received s ++ [id]))
| sys_handOff i w id w' :
    workers s !! i = Some w -> handOff w = Some (id, w') ->
    sys_step s (mkSystem (db s) (<[i := w']> (workers s)) (received s ++ [id]))
| sys_abort t d' : abort (db s) t d' -> sys_step s (mkSystem d' (workers s) (received s))
| sys_late t d' :
    (forall i w, workers s !! i = Some w -> current w <> Some t) -> late (db s) t d' ->
    sys_step s (mkSystem d' (workers s) (received s)).

(** The ids issued: handed to callers or waiting in a buffer. *)
Definition issued (s : system) : list Z := received s ++ concat (buffer <$> workers s).
End system.

(** ** What the calls do to the row of a business *)
Section row.
Context (biz : string).

(** The uncommitted writes of the row: by the holder of its lock, and not
    below the committed value. *)
Record view_inv (v : view) (m : Z) : Prop := {
  vi_row : rows v !! biz = Some m;
  vi_range : 0 <= m <= maxInt;
  vi_writes : forall t ws x, writes v !! t = Some ws -> ws !! biz = Some x ->
    locks v !! biz = Some t /\ m <= x <= maxInt;
  vi_next : forall t ws, writes v !! t = Some ws -> (t < next v)%nat }.

(** A worker's transaction, as long as it is open: nothing written before the
    update; from the read to the end the lock is its own and the row has the
    value it read. *)
Definition at_ok (v : view) (step : Z) (a : fetchAt) : Prop :=
  match a with
  | ASelect t => (t < next v)%nat /\ forall ws, writes v !! t = Some ws -> ws !! biz = None
  | AUpdate t x => (t < next v)%nat /\ forall ws, writes v !! t = Some ws ->
      ws !! biz = None /\ locks v !! biz = Some t /\ rows v !! biz = Some x
  | ACommit t x => (t < next v)%nat /\ forall ws, writes v !! t = Some ws ->
      ws !! biz = Some (x + step) /\ locks v !! biz = Some t /\ rows v !! biz = Some x
  | ABegin | ARollback _ => True
  end.

(** What a transaction [t] can do to the view. *)
Inductive change (v : view) (t : nat) : view -> Prop :=
| ch_same : change v t v
| ch_begin : t = next v -> change v t (mkView (rows v) (locks v) (<[t := ∅]> (writes v)) (S (next v)))
| ch_select ws : writes v !! t = Some ws -> lockable v t biz -> change v t (lockRow t biz v)
| ch_update ws m x : writes v !! t = Some ws -> lockable v t biz -> rows v !! biz = Some m -> m <= x <= maxInt ->
    change v t (writeRow t (<[biz := x]> ws) (lockRow t biz v))
| ch_end ws : ws = ∅ \/ writes v !! t = Some ws -> change v t (endTx t ws v).

Lemma endTx_lock v t ws u : u <> t -> locks v !! biz = Some u -> locks (endTx t ws v) !! biz = Some u.
Proof. intros Hne Hl. cbn. by apply map_lookup_filter_Some. Qed.

(** Only the holder of the lock has written the row. *)
Lemma written_lockable v m t u ws x :
  view_inv v m -> lockable v t biz -> writes v !! u = Some ws -> ws !! biz = Some x -> u = t.
Proof. intros Hv [Hl|Hl] Hw Hx; destruct (vi_writes _ _ Hv u ws x Hw Hx) as [Hu _]; congruence. Qed.

Lemma view_inv_end v m t ws :
  view_inv v m -> ws = ∅ \/ writes v !! t = Some ws -> exists m', m <= m' /\ view_inv (endTx t ws v) m'.
Proof.
  intros Hv Hws. pose proof (vi_range _ _ Hv).
  assert (Hbiz : ws !! biz = None \/ exists x, ws !! biz = Some x /\ writes v !! t = Some ws).
  { destruct (ws !! biz) as [x|] eqn:E; [|by left]. right. exists x. split; [done|].
    destruct Hws as [->|]; [by rewrite lookup_empty in E | done]. }
  destruct Hbiz as [Hn|(x & Hx & Hw)].
  - exists m. split; [lia|]. constructor; cbn; [| done | |].
    + rewrite lookup_union_r by done. apply Hv.
    + intros u wu x [Hne Hu]%lookup_delete_Some Hx. destruct (vi_writes _ _ Hv u wu x Hu Hx) as [Hl Hr].
      split; [by apply (endTx_lock v t ws) | done].
    + intros u wu [_ Hu]%lookup_delete_Some. by apply (vi_next _ _ Hv u wu).
  - destruct (vi_writes _ _ Hv t ws x Hw Hx) as [Hl Hr]. exists x. split; [lia|]. constructor; cbn; [| lia | |].
    + rewrite (lookup_union_Some_l _ _ _ x); done.
    + intros u wu y [Hne Hu]%lookup_delete_Some Hy. destruct (vi_writes _ _ Hv u wu y Hu Hy). congruence.
    + intros u wu [_ Hu]%lookup_delete_Some. by apply (vi_next _ _ Hv u wu).
Qed.

Lemma view_inv_change v m t v' :
  view_inv v m -> change v t v' -> exists m', m <= m' /\ view_inv v' m'.
Proof.
  intros Hv Hc. pose proof (vi_range _ _ Hv).
  destruct Hc as [| -> |ws Hw Hl|ws m0 x Hw Hl Hm Hx|ws Hws]; [by exists m | | | |by apply view_inv_end];
    exists m; (split; [lia|]); constructor; cbn; try solve [apply Hv].
  - intros u ws x [(<- & <-)|(Hne & Hu)]%lookup_insert_Some Hx; [by rewrite lookup_empty in Hx|].
    by apply (vi_writes _ _ Hv u ws).
  - intros u ws [(<- & <-)|(Hne & Hu)]%lookup_insert_Some; [lia|]. apply (vi_next _ _ Hv) in Hu. lia.
  - intros u wu y Hu Hy. rewrite lookup_insert_eq. rewrite (written_lockable v m t u wu y Hv Hl Hu Hy).
    split; [done|]. by apply (vi_writes _ _ Hv u wu).
  - rewrite (vi_row _ _ Hv) in Hm. injection Hm as <-.
    intros u wu y [(<- & <-)|(Hne & Hu)]%lookup_insert_Some Hy; rewrite lookup_insert_eq.
    + rewrite lookup_insert_eq in Hy. injection Hy as <-. done.
    + by rewrite (written_lockable v m t u wu y Hv Hl Hu Hy) in Hne.
  - intros u wu [(<- & <-)|(Hne & Hu)]%lookup_insert_Some; by eapply (vi_next _ _ Hv).
Qed.

Definition txOf (a : fetchAt) : option nat :=
  match a with ASelect t | AUpdate t _ | ACommit t _ => Some t | ABegin | ARollback _ => None end.

(** A change by another transaction leaves a worker's transaction alone. *)
Lemma at_ok_change v m t v' stp a :
  view_inv v m -> change v t v' -> at_ok v stp a -> txOf a <> Some t -> at_ok v' stp a.
Proof.
  intros Hv Hc Ha Hne.
  assert (Hkeep : forall u, u <> t -> (u < next v)%nat ->
    (u < next v')%nat /\ forall ws, writes v' !! u = Some ws -> writes v !! u = Some ws).
  { intros u Hu Hlt. destruct Hc; cbn; (split; [lia|]); intros ws'; try done.
    - by rewrite lookup_insert_ne.
    - by rewrite lookup_insert_ne.
    - by intros [_ ?]%lookup_delete_Some. }
  assert (Hlock : forall u, u <> t -> locks v !! biz = Some u ->
    locks v' !! biz = Some u /\ rows v' !! biz = rows v !! biz).
  { intros u Hu Hl. destruct Hc as [| -> |ws Hw [Hl'|Hl']|ws m0 x Hw [Hl'|Hl'] Hm Hx|ws Hws]; cbn; try done; try congruence.
    split; [by apply (endTx_lock v t ws)|]. destruct (ws !! biz) as [x|] eqn:E; [|by rewrite lookup_union_r].
    destruct Hws as [->|Hws]; [by rewrite lookup_empty in E|]. destruct (vi_writes _ _ Hv t ws x Hws E). congruence. }
  destruct a as [|u|u x|u x|u]; cbn in *; try done; destruct Ha as [Hlt Ha];
    (destruct (Hkeep u ltac:(congruence) Hlt) as [Hlt' Hw]); (split; [done|]); intros ws Hws%Hw;
    [by apply Ha | destruct (Ha ws Hws) as (Hb & Hl & Hr) | destruct (Ha ws Hws) as (Hb & Hl & Hr)];
    destruct (Hlock u ltac:(congruence) Hl) as [-> ->]; done.
Qed.

(** Nor does a roll-back of the worker's own transaction make it wrong. *)
Lemma at_ok_rollback v m t stp a :
  view_inv v m -> at_ok v stp a -> at_ok (endTx t ∅ v) stp a.
Proof.
  intros Hv Ha. destruct (decide (txOf a = Some t)) as [E|Hne].
  - destruct a; cbn in *; try done; injection E as ->; destruct Ha as [Hlt _]; (split; [done|]);
      intros ws; by rewrite lookup_delete_eq.
  - eapply at_ok_change; [exact Hv | apply (ch_end v t ∅); by left | done | done].
Qed.
End row.

(** ** Reservations *)

(** The ids a worker may still send without a reload. *)
Definition reserved (w : SegmentWorker) (id : Z) : Prop := min w < id <= max w.

(** The ids of the system: everything reserved or issued is at most [m],
    reservations are disjoint and unissued, and no id is issued twice. *)
Record ids_inv (ws : list SegmentWorker) (iss : list Z) (m : Z) : Prop := {
  ii_max : forall i w, ws !! i = Some w -> max w <= m;
  ii_issued : forall id, id ∈ iss -> id <= m;
  ii_disjoint : forall i j w w' id, ws !! i = Some w -> ws !! j = Some w' -> i <> j ->
    reserved w id -> ~ reserved w' id;
  ii_unissued : forall i w id, ws !! i = Some w -> reserved w id -> id ∉ iss;
  ii_nodup : NoDup iss }.

Lemma ids_inv_raise ws iss m m' : ids_inv ws iss m -> m <= m' -> ids_inv ws iss m'.
Proof.
  intros [Hm Hi Hd Hu Hn] Hle. constructor; try done.
  - intros i w Hw. specialize (Hm i w Hw). lia.
  - intros id Hin. specialize (Hi id Hin). lia.
Qed.

Lemma ids_inv_perm ws iss iss' m : ids_inv ws iss m -> iss ≡ₚ iss' -> ids_inv ws iss' m.
Proof. intros [Hm Hi Hd Hu Hn] E. constructor; try done; setoid_rewrite <- E; done. Qed.

(** A worker keeps a part of its reservation or gets a fresh one. *)
Lemma ids_inv_reserve ws iss m m' i w w' :
  ids_inv ws iss m -> ws !! i = Some w -> m <= m' -> max w' <= m' ->
  (forall x, reserved w' x -> reserved w x \/ m < x) -> ids_inv (<[i := w']> ws) iss m'.
Proof.
  intros [Hm Hi Hd Hu Hn] Hw Hle Hmax Hres.
  assert (Hout : forall j wj x, ws !! j = Some wj -> j <> i -> reserved wj x -> ~ reserved w' x).
  { intros j wj x Hj Hne Rj [Rw|Hlt]%Hres; [by apply (Hd j i wj w x)|]. specialize (Hm j wj Hj).
    unfold reserved in Rj. lia. }
  constructor; [| | | |done].
  - intros j wj [(<- & <- & _)|(_ & Hj)]%list_lookup_insert_Some; [done|]. specialize (Hm j wj Hj). lia.
  - intros id Hin. specialize (Hi id Hin). lia.
  - intros j k wj wk x [(<- & <- & _)|(Hji & Hj)]%list_lookup_insert_Some
      [(Hik & <- & _)|(Hki & Hk)]%list_lookup_insert_Some Hne Rj Rk; [done | | |].
    + by apply (Hout k wk x).
    + by apply (Hout j wj x).
    + by apply (Hd j k wj wk x).
  - intros j wj x [(<- & <- & _)|(Hji & Hj)]%list_lookup_insert_Some Rj; [|by apply (Hu j wj x)].
    destruct (Hres x Rj) as [Rw|Hlt]; [by apply (Hu i w x)|]. intros Hin. specialize (Hi x Hin). lia.
Qed.

(** A worker sends the first id of its reservation. *)
Lemma ids_inv_send ws iss m i w w' id :
  ids_inv ws iss m -> ws !! i = Some w -> reserved w id -> max w' = max w -> min w' = id ->
  ids_inv (<[i := w']> ws) (id :: iss) m.
Proof.
  intros Hii Hw Hid Hmax Hmin. pose proof (ii_max _ _ _ Hii i w Hw) as Hwm.
  assert (H' : ids_inv (<[i := w']> ws) iss m).
  { eapply ids_inv_reserve; [exact Hii | exact Hw | lia | lia|]. unfold reserved in *. intros x Hx. left. lia. }
  destruct H' as [Hm Hi Hd Hu Hn]. constructor; [done | | done | |].
  - intros x [->|Hin]%elem_of_cons; [unfold reserved in Hid; lia | by apply Hi].
  - intros j wj x Hj Rj [->|Hin]%elem_of_cons; [|by apply (Hu j wj x)].
    apply list_lookup_insert_Some in Hj as [(<- & <- & _)|(Hne & Hj)]; [unfold reserved in *; lia|].
    by apply (ii_disjoint _ _ _ Hii j i wj w id).
  - apply NoDup_cons. split; [by apply (ii_unissued _ _ _ Hii i w) | done].
Qed.

Lemma buffers_insert ws i w w' : ws !! i = Some w ->
  concat (buffer <$> <[i := w']> ws) ++ buffer w ≡ₚ concat (buffer <$> ws) ++ buffer w'.
Proof.
  revert i. induction ws as [|w0 ws IH]; intros [|i] Hi; try done; cbn.
  - injection Hi as ->. rewrite (Permutation_app_comm (buffer w' ++ _)), (Permutation_app_comm (buffer w ++ _)).
    rewrite !app_assoc. apply Permutation_app_tail, Permutation_app_comm.
  - rewrite <- !app_assoc. apply Permutation_app_head. by apply IH.
Qed.

(** ** The invariant of the system *)
Section segments.
Context {D : Database} (biz : string).

Definition worker_ok (v : view) (w : SegmentWorker) : Prop :=
  bizID w = biz /\ 1 <= step w <= maxInt /\ 0 <= min w /\ (pc w = Send -> min w < max w) /\
  match pc w with Reload _ a => at_ok biz v (step w) a | _ => True end.

(** No two workers are in the same transaction. *)
Definition apart (ws : list SegmentWorker) : Prop :=
  forall i j w w' t, ws !! i = Some w -> ws !! j = Some w' -> i <> j ->
    current w = Some t -> current w' <> Some t.

Definition sys_inv (s : system) : Prop :=
  exists m, view_inv biz (look (db s)) m /\ Forall (worker_ok (look (db s))) (workers s) /\
    apart (workers s) /\ ids_inv (workers s) (issued s) m.

Lemma current_txOf w : current w = match pc w with Reload _ a => txOf a | _ => None end.
Proof. unfold current. by destruct (pc w) as [| |b []]. Qed.

Lemma worker_ok_view v v' w :
  worker_ok v w -> (forall b a, pc w = Reload b a -> at_ok biz v (step w) a -> at_ok biz v' (step w) a) ->
  worker_ok v' w.
Proof.
  intros (Hb & Hs & Hm & Hsend & Ha) Hv. do 4 (split; [done|]).
  destruct (pc w) as [| |b a] eqn:E; [done | done | by eapply Hv].
Qed.

Lemma current_next v w t : worker_ok v w -> current w = Some t -> (t < next v)%nat.
Proof.
  intros (_ & _ & _ & _ & Ha). rewrite current_txOf. destruct (pc w) as [| |b a]; try done.
  destruct a; cbn in *; try done; intros [= ->]; by destruct Ha.
Qed.

Definition callTx (v : view) (c : call) : nat :=
  match c with Begin => next v | QueryMaxID t _ _ | ExecUpdate t _ _ | Commit t | Rollback t => t end.

(** The calls of a worker change the view as its transaction may. *)
Lemma call_change v m w c r v' :
  view_inv biz v m -> worker_ok v w -> ask w = Some c -> effect v c r v' -> change biz v (callTx v c) v'.
Proof.
  intros Hv (Hb & Hs & _ & _ & Ha) Hask He.
  assert (Hq : forall t b u, c = QueryMaxID t b u -> b = biz) 
    by (intros t b u ->; unfold ask in Hask; destruct (pc w) as [| |? []]; congruence).
  assert (Hx : forall t x b, c = ExecUpdate t x b -> b = biz /\ forall ws, writes v !! t = Some ws -> m <= x).
  { intros t x b ->. unfold ask in Hask. destruct (pc w) as [| |? []]; try done. injection Hask as <- <- <-. split; [done|].
    intros ws Hws. cbn in Ha. destruct (proj2 Ha ws Hws) as (_ & _ & Hr). rewrite (vi_row _ _ _ Hv) in Hr.
    injection Hr as <-. pose proof (vi_range _ _ _ Hv). unfold maxInt in *. rewrite i64_id by (unfold_width; lia). lia. }
  induction He as [|t b ws m0 Hw Hm Hl|t b ws Hw Hm|t b ws o Hw|t b ws m0 x Hw Hm Hl Hr|t b ws x Hw Hm|t ws Hw|t|c|c r v' He IH];
    cbn [callTx]; try apply ch_same.
  - by apply ch_begin.
  - destruct (Hq _ _ _ eq_refl) as []. by eapply ch_select.
  - destruct (Hx _ _ _ eq_refl) as [-> Hle]. eapply ch_update; [done | done | exact Hm|].
    rewrite (vi_row _ _ _ Hv) in Hm. injection Hm as <-. specialize (Hle ws Hw). lia.
  - apply ch_end. by right.
  - apply ch_end. by left.
  - by apply IH.
Qed.

Lemma rollback_cases v t r v' : effect v (Rollback t) r v' -> v' = v \/ v' = endTx t ∅ v.
Proof. remember (Rollback t) as c eqn:E. induction 1; try discriminate; [|by left|auto]. injection E as ->. by right. Qed.

(** The call of one worker leaves the others as they should be. *)
Lemma others_ok v m w c r v' wj :
  view_inv biz v m -> worker_ok v w -> ask w = Some c -> effect v c r v' -> worker_ok v wj ->
  (forall t, current w = Some t -> current wj <> Some t) -> worker_ok v' wj.
Proof.
  intros Hv Hw Hask He Hj Hne. apply (worker_ok_view _ _ _ Hj). intros b a Epc Ha.
  pose proof (call_change v m w c r v' Hv Hw Hask He) as Hc.
  assert (Hcur : current wj = txOf a) by (by rewrite current_txOf, Epc).
  assert (Hor : (exists t, c = Rollback t) \/ txOf a <> Some (callTx v c)).
  { unfold ask in Hask. destruct (pc w) as [| |b' [|t|t x|t x|t]] eqn:Ew; try done; injection Hask as <-; cbn;
      try (right; rewrite <- Hcur; apply Hne; by rewrite current_txOf, Ew); [|left; by eauto].
    right. rewrite <- Hcur. intros E. pose proof (current_next _ _ _ Hj E). lia. }
  destruct Hor as [(t & ->)|Hne']; [|by eapply at_ok_change].
  destruct (rollback_cases _ _ _ _ He) as [->| ->]; [done | by eapply at_ok_rollback].
Qed.

(** The worker itself after the answer. *)
Lemma answered_ok v m w c r v' :
  view_inv biz v m -> worker_ok v w -> ask w = Some c -> effect v c r v' -> worker_ok v' (answered w r).
Proof.
  intros Hv (Hb & Hs & Hm & _ & Ha) Hask He. unfold worker_ok, answered, ask in *. pose proof (vi_range _ _ _ Hv).
  destruct (pc w) as [| |b [|t|t x|t x|t]] eqn:Ew; try done; injection Hask as <-; cbn in Ha.
  - inversion He; subst; cbn; rewrite ?Ew; split_and!; try done; try lia.
    intros ws. rewrite lookup_insert_eq. intros [= <-]. apply lookup_empty.
  - destruct Ha as [Hlt Ha].
    inversion He as [|t' b' ws m0 Hw Hr Hl| | | | | | | |]; subst; cbn; split_and!; try done; try lia.
    + intros ws' Hw'. rewrite Hw in Hw'. injection Hw' as <-. rewrite (Ha ws Hw), lookup_insert_eq. done.
    + intros ws' _. pose proof (vi_row _ _ _ Hv). congruence.
  - destruct Ha as [Hlt Ha].
    inversion He as [| | | |t' b' ws m0 x' Hw Hr Hl Hx|t' b' ws x' Hw Hr| | | |]; subst; cbn; split_and!; try done; try lia.
    + rewrite lookup_insert_eq. intros ws' [= <-]. destruct (Ha ws Hw) as (_ & _ & Hr').
      rewrite !lookup_insert_eq. assert (Hxm : x = m) by (rewrite (vi_row _ _ _ Hv) in Hr'; congruence). subst x.
      unfold maxInt in *. rewrite i64_id by (unfold_width; lia). done.
    + pose proof (vi_row _ _ _ Hv). congruence.
  - destruct Ha as [Hlt Ha].
    inversion He as [| | | | | |t' ws Hw| | |]; subst; cbn; [|split_and!; try done; lia..].
    destruct (Ha ws Hw) as (Hbz & _ & Hr). assert (Hxm : x = m) by (rewrite (vi_row _ _ _ Hv) in Hr; congruence). subst x.
    destruct (vi_writes _ _ _ Hv t ws _ Hw Hbz) as [_ Hle]. unfold maxInt in *. rewrite i64_id by (unfold_width; lia).
    split_and!; try done; try lia. by destruct b.
Qed.

(** Only an answered commit changes the reservation, to ids above all. *)
Lemma answered_ids v m w c r v' m' :
  view_inv biz v m -> worker_ok v w -> ask w = Some c -> effect v c r v' ->
  view_inv biz v' m' -> m <= m' -> max w <= m ->
  max (answered w r) <= m' /\ forall x, reserved (answered w r) x -> reserved w x \/ m < x.
Proof.
  intros Hv (Hb & Hs & Hm & _ & Ha) Hask He Hv' Hle Hmax. pose proof (vi_range _ _ _ Hv).
  assert (Hsame : max w <= m' /\ forall x, reserved w x -> reserved w x \/ m < x) by (split; [lia | by left]).
  unfold answered, ask in *. destruct (pc w) as [| |b [|t|t x|t x|t]] eqn:Ew; try done; injection Hask as <-; cbn in Ha;
    try (destruct r; exact Hsame).
  destruct r; try exact Hsame. inversion He as [| | | | | |t' ws Hw| | |]; subst.
  destruct Ha as [_ Ha]. destruct (Ha ws Hw) as (Hbz & _ & Hr).
  assert (Hxm : x = m) by (rewrite (vi_row _ _ _ Hv) in Hr; congruence). subst x.
  destruct (vi_writes _ _ _ Hv t ws _ Hw Hbz) as [_ Hx].
  assert (Hm' : m' = m + step w).
  { pose proof (vi_row _ _ _ Hv') as Hr'. cbn in Hr'. rewrite (lookup_union_Some_l _ _ _ (m + step w)) in Hr' by done.
    congruence. }
  unfold reserved, maxInt in *. cbn. rewrite i64_id by (unfold_width; lia). split; [lia|]. intros y Hy. right. lia.
Qed.

Lemma answered_current v w c r v' t :
  ask w = Some c -> effect v c r v' -> current (answered w r) = Some t ->
  current w = Some t \/ t = next v.
Proof.
  intros Hask He. rewrite !current_txOf. unfold answered, ask in *.
  destruct (pc w) as [| |b [|u|u x|u x|u]] eqn:Ew; try done; injection Hask as <-;
    destruct r; cbn; rewrite ?Ew; cbn; try done; try (by left).
  - intros [= <-]. inversion He; subst. by right.
  - by destruct b.
Qed.

Lemma apart_insert ws i w w' n :
  apart ws -> ws !! i = Some w -> (forall j wj t, ws !! j = Some wj -> current wj = Some t -> (t < n)%nat) ->
  (forall t, current w' = Some t -> current w = Some t \/ t = n) -> apart (<[i := w']> ws).
Proof.
  intros Ha Hi Hn Hc j k wj wk t Hj Hk Hne Ej Ek.
  assert (Hout : forall j wj t, ws !! j = Some wj -> j <> i -> current wj = Some t -> current w' <> Some t).
  { intros j' wj' t' Hj' Hne' E' [Ew|Ew]%Hc; [by apply (Ha j' i wj' w t')|]. pose proof (Hn _ _ _ Hj' E'). lia. }
  apply list_lookup_insert_Some in Hj as [(<- & <- & _)|(Hji & Hj)];
    apply list_lookup_insert_Some in Hk as [(Hik & <- & _)|(Hki & Hk)]; [done | | |].
  - by apply (Hout k wk t).
  - by apply (Hout j wj t).
  - by apply (Ha j k wj wk t).
Qed.

Lemma produce_inv w w' : produce w = Some w' ->
  (pc w = Loop /\ w' = set_pc (if min w >=? max w then Reload false ABegin else Send) w) \/
  (pc w = Send /\ w' = mkWorker (buffer w ++ [i64 (min w + 1)]) (i64 (min w + 1)) (max w) (bizID w) (step w) Loop).
Proof.
  unfold produce. destruct (pc w); [|destruct (_ <? _)|]; intros [= <-]; [by left | by right].
Qed.

(** A turn of the loop: the view stays; an id is sent out of the reservation. *)
Lemma produce_step v m ws rcv i w w' :
  view_inv biz v m -> Forall (worker_ok v) ws -> apart ws -> ids_inv ws (rcv ++ concat (buffer <$> ws)) m ->
  ws !! i = Some w -> produce w = Some w' ->
  Forall (worker_ok v) (<[i := w']> ws) /\ apart (<[i := w']> ws) /\
  ids_inv (<[i := w']> ws) (rcv ++ concat (buffer <$> <[i := w']> ws)) m.
Proof.
  intros Hv Hws Hap Hii Hi Hp. pose proof (Forall_lookup_1 _ _ _ _ Hws Hi) as (Hb & Hs & Hm & Hsend & Ha).
  pose proof (ii_max _ _ _ Hii i w Hi) as Hmax. pose proof (vi_range _ _ _ Hv) as Hr.
  assert (Hap' : current w' = None -> apart (<[i := w']> ws)).
  { intros Hc. eapply (apart_insert _ _ _ _ (next v)); [done | exact Hi | | by rewrite Hc].
    intros j wj t Hj. apply current_next. by eapply Forall_lookup_1. }
  pose proof (buffers_insert ws i w w' Hi) as Hperm.
  destruct (produce_inv _ _ Hp) as [[Epc ->]|[Epc ->]].
  - split; [|split; [apply Hap'; rewrite current_txOf; cbn; by destruct (_ >=? _)|]].
    + apply Forall_insert; [done|]. unfold worker_ok. cbn. split_and!; try done; try lia; destruct (min w >=? max w) eqn:E; try done.
      intros _. zbool. lia.
    + eapply ids_inv_perm; [eapply ids_inv_reserve; [exact Hii | exact Hi | lia | done | by left]|].
      apply Permutation_app_head. apply Permutation_app_inv_r in Hperm. done.
  - specialize (Hsend Epc). rewrite i64_id in * by (unfold maxInt in *; unfold_width; lia).
    split; [|split; [by apply Hap'|]].
    + apply Forall_insert; [done|]. unfold worker_ok. cbn. split_and!; try done; lia.
    + eapply ids_inv_perm; [eapply (ids_inv_send _ _ _ _ _ _ (min w + 1)); [exact Hii | exact Hi | unfold reserved; lia | done | done]|].
      cbn [buffer] in Hperm. rewrite app_assoc in Hperm.
      assert (Hp' : concat (buffer <$> <[i:=mkWorker (buffer w ++ [min w + 1]) (min w + 1) (max w) (bizID w) (step w) Loop]> ws)
        ≡ₚ (min w + 1) :: concat (buffer <$> ws)).
      { apply (Permutation_app_inv_r (buffer w)). rewrite Hperm. rewrite <- Permutation_cons_append. done. }
      rewrite Hp'. by rewrite Permutation_middle.
Qed.

(** A call to the database and its answer. *)
Lemma call_step s i w c r d' :
  sys_inv s -> workers s !! i = Some w -> ask w = Some c -> serve (db s) c r d' ->
  sys_inv (mkSystem d' (<[i := answered w r]> (workers s)) (received s)).
Proof.
  intros (m & Hv & Hws & Hap & Hii) Hi Hask Hsv%serve_effect. pose proof (Forall_lookup_1 _ _ _ _ Hws Hi) as Hw.
  destruct (view_inv_change biz _ m _ _ Hv (call_change _ _ _ _ _ _ Hv Hw Hask Hsv)) as (m' & Hle & Hv').
  exists m'. split; [done|]. cbn [db workers]. split; [|split].
  - apply Forall_lookup. intros j wj [(<- & <- & _)|(Hne & Hj)]%list_lookup_insert_Some.
    + apply (answered_ok _ m _ _ _ _ Hv Hw Hask Hsv).
    + eapply others_ok; [exact Hv | exact Hw | exact Hask | exact Hsv | by eapply Forall_lookup_1|].
      intros t. by apply (Hap i j w wj t).
  - eapply (apart_insert _ _ _ _ (next (look (db s)))); [done | exact Hi | | intros t; by eapply answered_current].
    intros j wj t Hj. apply current_next. by eapply Forall_lookup_1.
  - pose proof (answered_ids _ _ _ _ _ _ m' Hv Hw Hask Hsv Hv' Hle (ii_max _ _ _ Hii i w Hi)) as [Hmax Hres].
    eapply ids_inv_perm; [eapply ids_inv_reserve; [exact Hii | exact Hi | done | done | done]|].
    unfold issued. cbn. apply Permutation_app_head. pose proof (buffers_insert _ _ _ (answered w r) Hi) as Hperm.
    assert (Hbuf : buffer (answered w r) = buffer w)
      by (unfold answered; destruct (pc w) as [| |? []]; destruct r; done).
    rewrite Hbuf in Hperm. symmetry. by apply Permutation_app_inv_r in Hperm.
Qed.

(** [NextID] moves an id from the buffer to its caller. *)
Lemma next_step s i w id w' :
  sys_inv s -> workers s !! i = Some w -> NextID w = Some (id, w') ->
  sys_inv (mkSystem (db s) (<[i := w']> (workers s)) (received s ++ [id])).
Proof.
  intros (m & Hv & Hws & Hap & Hii) Hi Hn. exists m. cbn [db workers]. split; [done|].
  assert (Hw' : buffer w = id :: buffer w' /\ min w' = min w /\ max w' = max w /\ bizID w' = bizID w /\
    step w' = step w /\ pc w' = pc w).
  { unfold NextID in Hn. destruct (buffer w) as [|x l]; [done|]. by injection Hn as <- <-. }
  destruct Hw' as (Eb & E1 & E2 & E3 & E4 & E5). pose proof (Forall_lookup_1 _ _ _ _ Hws Hi) as Hw. split; [|split].
  - apply Forall_insert; [done|]. unfold worker_ok in *. by rewrite E1, E2, E3, E4, E5.
  - eapply (apart_insert _ _ _ _ (next (look (db s)))); [done | exact Hi | |].
    + intros j wj t Hj. apply current_next. by eapply Forall_lookup_1.
    + intros t. rewrite !current_txOf, E5. by left.
  - eapply ids_inv_perm; [eapply ids_inv_reserve; [exact Hii | exact Hi | lia | | ]|].
    + rewrite E2. by apply (ii_max _ _ _ Hii i).
    + unfold reserved. rewrite E1, E2. by left.
    + unfold issued. cbn. pose proof (buffers_insert _ _ _ w' Hi) as Hperm. rewrite Eb in Hperm.
      apply (Permutation_app_inv_r (buffer w')). rewrite <- !app_assoc. apply Permutation_app_head.
      cbn. rewrite <- Hperm. by rewrite Permutation_middle.
Qed.

(** The server ends a transaction that is no worker's, or rolls back any. *)
Lemma server_step s d' t ws :
  sys_inv s -> look d' = endTx t ws (look (db s)) ->
  ws = ∅ \/ (writes (look (db s)) !! t = Some ws /\ forall i w, workers s !! i = Some w -> current w <> Some t) ->
  sys_inv (mkSystem d' (workers s) (received s)).
Proof.
  intros (m & Hv & Hws & Hap & Hii) Ed Hor.
  destruct (view_inv_end biz _ m t ws Hv ltac:(tauto)) as (m' & Hle & Hv').
  exists m'. cbn [db workers]. rewrite Ed. split; [done|]. split; [|split; [done | by eapply ids_inv_raise]].
  apply Forall_lookup. intros i w Hi. apply (worker_ok_view (look (db s))); [by eapply Forall_lookup_1|].
  intros b a Epc Ha. destruct Hor as [->|[Hw Hc]]; [by eapply at_ok_rollback|].
  eapply at_ok_change; [exact Hv | apply ch_end; by right | done|].
  specialize (Hc i w Hi). by rewrite current_txOf, Epc in Hc.
Qed.

Lemma sys_inv_step s s' : sys_inv s -> sys_step s s' -> sys_inv s'.
Proof.
  intros Hs Hstep. destruct Hstep as [i w c r d' Hi Hask Hsv|i w w' Hi Hp|i w id w' Hi Hn|i w id w' Hi Hh|t d' Hab|t d' Hcur Hlate].
  - by eapply call_step.
  - destruct Hs as (m & Hv & Hws & Hap & Hii). exists m. cbn [db workers]. split; [done|]. by apply (produce_step _ m _ _ i w).
  - by eapply next_step.
  - exfalso. destruct Hs as (m & _ & Hws & _). destruct (Forall_lookup_1 _ _ _ _ Hws Hi) as (_ & Hst & _).
    unfold handOff in Hh. destruct (pc w); try done. destruct (Z.eqb_spec (step w) 0); [lia | done].
  - eapply server_step; [exact Hs | by apply abort_effect | by left].
  - destruct (late_effect _ _ _ Hlate) as (ws & Hw & Ed). eapply server_step; [exact Hs | exact Ed | by right].
Qed.

(** The workers right after [NewSegmentWorker]. *)
Definition started (d : dbstate) (steps : list Z) : system :=
  mkSystem d (map (fun n => NewSegmentWorker n biz) steps) [].

Lemma started_buffers steps : concat (buffer <$> map (fun n => NewSegmentWorker n biz) steps) = [].
Proof. by induction steps. Qed.

Lemma sys_inv_started d steps m :
  rows (look d) !! biz = Some m -> 0 <= m <= maxInt -> writes (look d) = ∅ ->
  Forall (fun n => 1 <= n <= maxInt) steps -> sys_inv (started d steps).
Proof.
  intros Hm Hb He Hs. rewrite List.Forall_forall in Hs.
  assert (Hnew : forall i w, map (fun n => NewSegmentWorker n biz) steps !! i = Some w ->
    exists n, In n steps /\ w = NewSegmentWorker n biz).
  { intros i w (n & -> & Hn%list_elem_of_lookup_2%list_elem_of_In)%list_lookup_fmap_Some_1. eauto. }
  exists m. unfold issued, started. cbn [db workers received]. rewrite started_buffers. split; [|split; [|split]].
  - constructor; try done; intros t ws; by rewrite He, lookup_empty.
  - apply Forall_lookup. intros i w (n & Hn & ->)%Hnew. specialize (Hs n Hn). unfold worker_ok. cbn. split_and!; try done; lia.
  - intros i j w w' t (n & _ & ->)%Hnew. done.
  - constructor; cbn.
    + intros i w (n & _ & ->)%Hnew. cbn. lia.
    + intros id Hid. by apply not_elem_of_nil in Hid.
    + intros i j w w' id (n & _ & ->)%Hnew _ _ [H1 H2]. cbn in *. lia.
    + intros i w id (n & _ & ->)%Hnew [H1 H2]. cbn in *. lia.
    + constructor.
Qed.

(** C36: Segment workers never issue an id twice.  Any number of workers share
    the row of a business, which exists with a value in the range of its
    column and is written by nobody else; every step is from 1 to 2^31-1
    (with step 0 a worker repeats ids, see [step_zero_repeats]; without the row
    two workers do, see [missing_row_repeats]).  BEGIN, SELECT ... FOR UPDATE,
    UPDATE, COMMIT and ROLLBACK of all workers, the loop turns that send ids to
    the buffers and the calls of [NextID] interleave in any way; any call can
    fail, before or after it took effect; the server can roll back a
    transaction at any time and commit late one whose COMMIT was not answered.
    What is assumed of the database is what [effect] lists: row locks held to
    the end of the transaction, current reads under [FOR UPDATE], atomic
    commits and no success on a transaction that has ended.  Then all ids
    received from [NextID] or waiting in a buffer are distinct. *)
Theorem Segment_ids_unique d steps m s :
  rows (look d) !! biz = Some m -> 0 <= m <= maxInt -> writes (look d) = ∅ ->
  Forall (fun n => 1 <= n <= maxInt) steps ->
  rtc sys_step (started d steps) s -> NoDup (issued s).
Proof.
  intros Hm Hb He Hs Hr. assert (Hi := sys_inv_started d steps m Hm Hb He Hs).
  assert (Hi' : sys_inv s).
  { revert Hi. induction Hr as [|s1 s2 s3 Hstep _ IH]; [done|]. intros Hi. apply IH. by eapply sys_inv_step. }
  destruct Hi' as (m' & _ & _ & _ & Hii). apply (ii_nodup _ _ _ Hii).
Qed.
End segments.

(** ** A database in memory, and schedules to run *)

(** The answer to a call, or none while it waits for a lock. *)
Definition answer (v : view) (c : call) : option (reply * view) :=
  let free t biz := bool_decide (locks v !! biz = None) || bool_decide (locks v !! biz = Some t) in
  match c with
  | Begin => Some (RBegun (next v), mkView (rows v) (locks v) (<[next v := ∅]> (writes v)) (S (next v)))
  | QueryMaxID t biz forUpdate =>
    match writes v !! t with
    | None => Some (RFailed, v)
    | Some ws =>
      if negb forUpdate then Some (RRow (rows v !! biz), v)
      else match rows v !! biz with
           | None => Some (RRow None, v)
           | Some m => if free t biz then Some (RRow (Some (default m (ws !! biz))), lockRow t biz v) else None
           end
    end
  | ExecUpdate t x biz =>
    match writes v !! t with
    | None => Some (RFailed, v)
    | Some ws =>
      match rows v !! biz with
      | None => Some (RDone, v)
      | Some m =>
        if free t biz then
          if bool_decide (- maxInt - 1 <= x <= maxInt)
          then Some (RDone, writeRow t (<[biz := x]> ws) (lockRow t biz v)) else Some (RFailed, v)
        else None
      end
    end
  | Commit t => match writes v !! t with Some ws => Some (RDone, endTx t ws v) | None => Some (RFailed, v) end
  | Rollback t => Some (RDone, endTx t ∅ v)
  end.

Lemma answer_effect v c r v' : answer v c = Some (r, v') -> effect v c r v'.
Proof.
  destruct c as [|t biz u|t x biz|t|t]; cbn -[maxInt].
  - intros [= <- <-]. constructor.
  - destruct (writes v !! t) as [ws|] eqn:Ew; [|intros [= <- <-]; constructor].
    destruct u; cbn; [|intros [= <- <-]; by econstructor].
    destruct (rows v !! biz) as [m|] eqn:Er; [|intros [= <- <-]; by econstructor].
    destruct (_ || _) eqn:E; intros [= <- <-]. apply orb_true_iff in E as [E%bool_decide_eq_true|E%bool_decide_eq_true];
      econstructor; try done; [by left | by right].
  - destruct (writes v !! t) as [ws|] eqn:Ew; [|intros [= <- <-]; constructor].
    destruct (rows v !! biz) as [m|] eqn:Er; [|intros [= <- <-]; by econstructor].
    destruct (_ || _) eqn:E; [|done]. destruct (bool_decide (- maxInt - 1 <= x <= maxInt)) eqn:Ex; intros [= <- <-]; [|constructor].
    apply bool_decide_eq_true in Ex.
    apply orb_true_iff in E as [E%bool_decide_eq_true|E%bool_decide_eq_true]; econstructor; try done; [by left | by right].
  - destruct (writes v !! t) as [ws|] eqn:Ew; intros [= <- <-]; by constructor.
  - intros [= <- <-]. constructor.
Qed.

(** An answer arrives, or is lost, or the call has failed. *)
Inductive delivered (v : view) (c : call) : reply -> view -> Prop :=
| del_ok r v' : answer v c = Some (r, v') -> delivered v c r v'
| del_lost r v' : answer v c = Some (r, v') -> delivered v c RFailed v'
| del_failed : delivered v c RFailed v.

Definition killed (v : view) (t : nat) (v' : view) : Prop := v' = endTx t ∅ v.
Definition lateCommit (v : view) (t : nat) (v' : view) : Prop :=
  exists ws, writes v !! t = Some ws /\ v' = endTx t ws v.

Lemma delivered_effect v c r v' : delivered v c r v' -> effect v c r v'.
Proof.
  intros [r0 v0 H|r0 v0 H|]; [by apply answer_effect | eapply eff_lost; by apply answer_effect | apply eff_failed].
Qed.

#[export] Instance mem : Database := {
  dbstate := view; look := fun v => v; serve := delivered; abort := killed; late := lateCommit;
  serve_effect := delivered_effect; abort_effect := fun _ _ _ H => H; late_effect := fun _ _ _ H => H }.

Inductive act := Call (i : nat) | Lose (i : nat) | Breaks (i : nat) | Turn (i : nat) | Take (i : nat) | Hand (i : nat) | Kill (tx : nat) | Late (tx : nat).

Definition runAct (a : act) (s : @system mem) : option (@system mem) :=
  let onWorker i (k : SegmentWorker -> option (@system mem)) := workers s !! i ≫= k in
  let put i d w rcv := Some (@mkSystem mem d (<[i := w]> (workers s)) rcv) in
  match a with
  | Call i => onWorker i (fun w => c ← ask w; '(r, d) ← answer (db s) c; put i d (answered w r) (received s))
  | Lose i => onWorker i (fun w => c ← ask w; '(r, d) ← answer (db s) c; put i d (answered w RFailed) (received s))
  | Breaks i => onWorker i (fun w => c ← ask w; put i (db s) (answered w RFailed) (received s))
  | Turn i => onWorker i (fun w => w' ← produce w; put i (db s) w' (received s))
  | Take i => onWorker i (fun w => '(id, w') ← NextID w; put i (db s) w' (received s ++ [id]))
  | Hand i => onWorker i (fun w => '(id, w') ← handOff w; put i (db s) w' (received s ++ [id]))
  | Kill t => Some (@mkSystem mem (endTx t ∅ (db s)) (workers s) (received s))
  | Late t =>
    if forallb (fun w => negb (bool_decide (current w = Some t))) (workers s) then
      ws ← writes (db s) !! t; Some (@mkSystem mem (endTx t ws (db s)) (workers s) (received s))
    else None
  end.

Definition runActs (l : list act) (s : @system mem) : option (@system mem) :=
  foldl (fun o a => o ≫= runAct a) (Some s) l.

Lemma runAct_step a s s' : runAct a s = Some s' -> sys_step s s'.
Proof.
  destruct a as [i|i|i|i|i|i|t|t]; cbn [runAct];
    try (destruct (workers s !! i) as [w|] eqn:Ew; [|done]; cbn [mbind option_bind]).
  - destruct (ask w) as [c|] eqn:Ea; [|done]. cbn. destruct (answer (db s) c) as [[r d]|] eqn:E; [|done]. intros [= <-].
    eapply sys_call; [done | done | by apply del_ok].
  - destruct (ask w) as [c|] eqn:Ea; [|done]. cbn. destruct (answer (db s) c) as [[r d]|] eqn:E; [|done]. intros [= <-].
    eapply sys_call; [done | done | by eapply del_lost].
  - destruct (ask w) as [c|] eqn:Ea; [|done]. intros [= <-]. eapply sys_call; [done | done | by apply del_failed].
  - destruct (produce w) as [w'|] eqn:E; [|done]. intros [= <-]. by eapply sys_produce.
  - destruct (NextID w) as [[id w']|] eqn:E; [|done]. intros [= <-]. by eapply sys_NextID.
  - destruct (handOff w) as [[id w']|] eqn:E; [|done]. intros [= <-]. by eapply sys_handOff.
  - intros [= <-]. by eapply (sys_abort s t).
  - destruct (forallb _ _) eqn:E; [|done]. destruct (writes (db s) !! t) as [ws|] eqn:Ew; [|done]. intros [= <-].
    eapply (sys_late s t); [|by exists ws].
    intros i w Hi Hc. rewrite forallb_forall in E. specialize (E w (proj1 (list_elem_of_In _ _) (list_elem_of_lookup_2 _ _ _ Hi))).
    by rewrite bool_decide_eq_true_2 in E.
Qed.

Lemma runActs_rtc l s s' : runActs l s = Some s' -> rtc sys_step s s'.
Proof.
  unfold runActs. revert s. induction l as [|a l IH]; intros s; cbn; [intros [= <-]; apply rtc_refl|].
  destruct (runAct a s) as [s1|] eqn:E; [|intros H; exfalso; revert H; clear; by induction l].
  intros H. eapply rtc_l; [by apply (runAct_step a)|]. by apply IH.
Qed.

(** One row, of value 0, and no open transactions. *)
Definition oneRow (biz : string) (m : Z) : view := mkView {[ biz := m ]} ∅ ∅ 0.

(** A fetch run through. *)
Definition fetches (i : nat) : list act := [Call i; Call i; Call i; Call i].
Definition sends (i : nat) : list act := [Turn i; Turn i; Take i].

Lemma runActs_received l s ids : received <$> runActs l s = Some ids ->
  exists s', rtc sys_step s s' /\ received s' = ids.
Proof.
  destruct (runActs l s) as [s'|] eqn:E; [|done]. intros [= <-]. exists s'. split; [by apply (runActs_rtc l) | done].
Qed.

(** Two workers: the second begins while the first holds the lock, the first
    loses the answer to its commit and fetches again. *)
Definition contended : list act :=
  [Call 0; Call 1; Call 0; Call 0; Lose 0; Call 0] ++ [Call 1; Call 1; Call 1] ++
  fetches 0 ++ sends 1 ++ sends 0 ++ sends 1.

Lemma Segment_ids_unique_witness :
  exists s : @system mem, received s = [1001; 2001; 1002] /\ NoDup (issued s).
Proof.
  destruct (runActs_received contended (started (D := mem) "order" (oneRow "order" 0) [1000; 1000]) [1001; 2001; 1002])
    as (s & Hr & Hs); [vm_compute; reflexivity|]. exists s. split; [exact Hs|].
  apply (Segment_ids_unique (D := mem) "order" (oneRow "order" 0) [1000; 1000] 0 s);
    [reflexivity | unfold maxInt; lia | reflexivity | repeat constructor; unfold maxInt; lia | exact Hr].
Defined.

(** The second worker waits for the row the first has read. *)
Example fetch_waits :
  received <$> runActs [Call 0; Call 1; Call 0; Call 1] (started "order" (oneRow "order" 0) [1000; 1000]) = None.
Proof. vm_compute. reflexivity. Qed.

(** When the row does not exist yet the update changes nothing: the first
    segment is never recorded, and two workers both hand out id 1. *)
Theorem missing_row_repeats :
  exists s, rtc sys_step (started (D := mem) "order" (mkView ∅ ∅ ∅ 0) [1000; 500]) s /\ received s = [1; 1].
Proof. apply (runActs_received (fetches 0 ++ sends 0 ++ fetches 1 ++ sends 1)). vm_compute. reflexivity. Qed.

(** With step 0 a segment is empty, but after a reload the loop does not test
    again whether ids are left: it hands out the same id every time. *)
Theorem step_zero_repeats :
  exists s, rtc sys_step (started (D := mem) "order" (oneRow "order" 7) [0]) s /\ received s = [8; 8].
Proof.
  apply (runActs_received (fetches 0 ++ [Turn 0] ++ fetches 0 ++ [Hand 0; Turn 0] ++ fetches 0 ++ [Hand 0])).
  vm_compute. reflexivity.
Qed.
