(* ===== verification/Breaker.v ===== *)
(** * The circuit breaker filter (pkg/filter/breaker/breaker.go)

    [_filter] with [PreHandle], [PostHandle], [openBreaker], [closeBreaker],
    [timer] and [changeState].  Time is in nanoseconds.  [go f.timer()] adds a
    wake-up time to the pending timers of the system; the step relation
    interleaves calls of [PostHandle] with timers that wake up, each holding
    the lock; the unlocked load at the start of [PostHandle] may be stale. *)
From Stdlib Require Import ZArith Lia List.
From stdpp Require Import base strings list relations.
From S2P Require Import Prelude.

Local Open Scope Z_scope.

Inductive state := closed | open | halfOpen.

#[export] Instance state_eq_dec : EqDecision state.
Proof. solve_decision. Defined.

Record config := mkConfig { errorThreshold : Z; successThreshold : Z; timeout : Z }.

(** [NewFilter] with the numbers of the parsed configuration; the timeout is
    given in seconds. *)
Definition NewFilter_config (errors successes seconds : Z) : config :=
  mkConfig errors successes (i64 (seconds * 1000000000)).

Record _filter := mkFilter { fstate : state; errors : Z; successes : Z; lastError : Z }.

(** The filter and the wake-up times of the timers not yet finished. *)
Record system := mkSystem { filter : _filter; timers : list Z }.

Definition fresh : system := mkSystem (mkFilter closed 0 0 0) [].

Definition ErrBreakerOpen : string := "circuit breaker is open".

Definition changeState (f : _filter) (newState : state) : _filter :=
  mkFilter newState 0 0 (lastError f).

Section breaker.
Context (cfg : config).

Definition PreHandle (f : _filter) : option string :=
  if decide (fstate f = open) then Some ErrBreakerOpen else None.

Definition openBreaker (now : Z) (s : system) : system :=
  mkSystem (changeState (filter s) open) (timers s ++ [now + timeout cfg]).

Definition closeBreaker (s : system) : system :=
  mkSystem (changeState (filter s) closed) (timers s).

(** The end of [timer], once the sleep is over. *)
Definition timer (f : _filter) : _filter := changeState f halfOpen.

Definition setErrors (n : Z) (f : _filter) : _filter :=
  mkFilter (fstate f) n (successes f) (lastError f).
Definition setSuccesses (n : Z) (f : _filter) : _filter :=
  mkFilter (fstate f) (errors f) n (lastError f).
Definition setLastError (t : Z) (f : _filter) : _filter :=
  mkFilter (fstate f) (errors f) (successes f) t.

(** The failing half of [PostHandle], under the lock; [now] is the time of
    the two clock readings of one call. *)
Definition onError (now : Z) (s : system) : system :=
  let f := filter s in
  let f := if (errors f >? 0) && (now >? lastError f + timeout cfg) then setErrors 0 f else f in
  match fstate f with
  | closed =>
    let f := setErrors (i64 (errors f + 1)) f in
    if errors f =? errorThreshold cfg then openBreaker now (mkSystem f (timers s))
    else mkSystem (setLastError now f) (timers s)
  | halfOpen => openBreaker now (mkSystem f (timers s))
  | open => mkSystem f (timers s)
  end.

Definition onSuccess (s : system) : system :=
  match fstate (filter s) with
  | halfOpen =>
    let f := setSuccesses (i64 (successes (filter s) + 1)) (filter s) in
    if successes f =? successThreshold cfg then closeBreaker (mkSystem f (timers s))
    else mkSystem f (timers s)
  | _ => s
  end.

(** [loaded] is the state read before the lock is taken. *)
Definition PostHandle (loaded : state) (err : option string) (now : Z) (s : system)
  : option string * system :=
  match err with
  | None => if decide (loaded = closed) then (None, s) else (None, onSuccess s)
  | Some _ => (err, onError now s)
  end.

(** One atomic step at time [now]: a call reporting its outcome, or a timer
    that is due. *)
Inductive step : Z -> system -> system -> Prop :=
| step_post now loaded err s : step now s (snd (PostHandle loaded err now s))
| step_timer now l1 w l2 f :
    w <= now -> step now (mkSystem f (l1 ++ w :: l2)) (mkSystem (timer f) (l1 ++ l2)).

(** Runs over a clock that does not go back. *)
Inductive run : Z -> system -> Z -> system -> Prop :=
| run_refl t s : run t s t s
| run_step t s t' s' t'' s'' :
    t <= t' -> step t' s s' -> run t' s' t'' s'' -> run t s t'' s''.

(** Failing calls at the given times. *)
Definition failures (times : list Z) (s : system) : system :=
  fold_left (fun s now => snd (PostHandle closed (Some "error"%string) now s)) times s.

(** ** Invariant *)

(** The timers a state has under way. *)
Definition pending (st : state) : nat := match st with open => 1 | _ => 0 end.

Record inv (s : system) : Prop := {
  inv_timers : length (timers s) = pending (fstate (filter s));
  inv_errors : 0 <= errors (filter s) < errorThreshold cfg;
  inv_errors0 : fstate (filter s) <> closed -> errors (filter s) = 0;
  inv_successes : 0 <= successes (filter s) < successThreshold cfg;
  inv_successes0 : fstate (filter s) <> halfOpen -> successes (filter s) = 0 }.

Context (Herr : 1 <= errorThreshold cfg < two63) (Hsucc : 1 <= successThreshold cfg < two63).

Lemma inv_fresh : inv fresh.
Proof. constructor; cbn; try done; lia. Qed.

Lemma onError_inv now s : inv s -> inv (onError now s).
Proof.
  intros [Ht He He0 Hs Hs0]. destruct s as [[st e su le] ts]. unfold onError. cbn in *.
  assert (Hle : length (ts ++ [now + timeout cfg]) = S (length ts)) by (rewrite length_app; cbn; lia).
  destruct ((e >? 0) && (now >? le + timeout cfg)); cbn; destruct st; cbn in *;
    try (rewrite i64_id by (unfold_width; lia)); zcases;
    constructor; cbn; try done; try lia; intros; try first [by apply Hs0 | by apply He0 | done].
Qed.

Lemma onSuccess_inv s : inv s -> inv (onSuccess s).
Proof.
  intros [Ht He He0 Hs Hs0]. destruct s as [[st e su le] ts]. unfold onSuccess. cbn in *.
  destruct st; cbn in *; try (by constructor).
  rewrite i64_id by (unfold_width; lia). zcases;
    constructor; cbn; try done; try lia; intros; try first [by apply Hs0 | by apply He0 | done].
Qed.

Lemma step_inv now s s' : inv s -> step now s s' -> inv s'.
Proof.
  intros Hi Hst. revert Hi. destruct Hst as [n loaded err s0 | n l1 w l2 f Hw]; intros Hi.
  - unfold PostHandle. destruct err as [e|]; cbn; [by apply onError_inv|].
    destruct (decide _); cbn; [done | by apply onSuccess_inv].
  - destruct Hi as [Ht He He0 Hs Hs0]. cbn in *. rewrite length_app in Ht. cbn in Ht.
    assert (fstate f = open) by (destruct (fstate f); cbn in Ht; [lia | done | lia]).
    assert (length l1 + length l2 = 0)%nat by (destruct (fstate f); cbn in Ht; lia).
    constructor; cbn; try done; try lia. rewrite length_app. lia.
Qed.

Lemma run_inv t s t' s' : inv s -> run t s t' s' -> inv s'.
Proof. intros Hi Hr. induction Hr; eauto using step_inv. Qed.

(** While open, only the timer changes the state. *)
Lemma PostHandle_open loaded err now s :
  inv s -> fstate (filter s) = open ->
  snd (PostHandle loaded err now s) = s.
Proof.
  intros [Ht He He0 Hs Hs0] Ho. destruct s as [[st e su le] ts]. cbn in *. subst st.
  rewrite He0 by done. unfold PostHandle. destruct err; cbn; [done|]. by destruct (decide _).
Qed.

Lemma run_open t s t' s' w :
  inv s -> fstate (filter s) = open -> timers s = [w] ->
  run t s t' s' -> t' < w -> s' = s.
Proof.
  intros Hi Ho Hw Hr. revert Hi Ho Hw.
  assert (Hmono : forall t s t' s', run t s t' s' -> t <= t')
    by (clear; induction 1; lia).
  induction Hr as [|t s t1 s1 t2 s2 Ht Hs Hr IH]; intros Hi Ho Hw Hlt; [done|].
  specialize (Hmono _ _ _ _ Hr). destruct Hs as [n loaded err s0 | n l1 w' l2 f Hd].
  - rewrite PostHandle_open in IH by done. by apply IH.
  - cbn in Hw. destruct l1 as [|a [|]]; cbn in Hw; [|discriminate|discriminate].
    injection Hw as -> _. lia.
Qed.

(** ** Counting failures *)
Lemma onError_count now f ts :
  fstate f = closed -> 0 <= errors f -> errors f + 1 < errorThreshold cfg ->
  (errors f = 0 \/ now <= lastError f + timeout cfg) ->
  onError now (mkSystem f ts) = mkSystem (mkFilter closed (errors f + 1) (successes f) now) ts.
Proof.
  intros Hc H0 H1 Hn. destruct f as [st e su le]. cbn in *. subst st. unfold onError. cbn.
  replace ((e >? 0) && (now >? le + timeout cfg)) with false.
  - cbn. rewrite i64_id by (unfold_width; lia). zcases; [lia | done].
  - symmetry. rewrite Z.gtb_ltb, Z.gtb_ltb. zcases; try done. lia.
Qed.

Lemma onError_trips now f ts :
  fstate f = closed -> 0 <= errors f -> errors f + 1 = errorThreshold cfg ->
  (errors f = 0 \/ now <= lastError f + timeout cfg) ->
  onError now (mkSystem f ts) = mkSystem (mkFilter open 0 0 (lastError f)) (ts ++ [now + timeout cfg]).
Proof.
  intros Hc H0 H1 Hn. destruct f as [st e su le]. cbn in *. subst st. unfold onError. cbn.
  replace ((e >? 0) && (now >? le + timeout cfg)) with false.
  - cbn. rewrite i64_id by (unfold_width; lia). by rewrite H1, Z.eqb_refl.
  - symmetry. rewrite Z.gtb_ltb, Z.gtb_ltb. zcases; try done. lia.
Qed.

(** Each failure comes within [timeout] of the previous one. *)
Fixpoint close_together (prev : Z) (times : list Z) : Prop :=
  match times with
  | [] => True
  | t :: rest => t <= prev + timeout cfg /\ close_together t rest
  end.

Lemma failures_open times : forall f ts,
  fstate f = closed -> 0 <= errors f ->
  errors f + Z.of_nat (length times) = errorThreshold cfg -> times <> [] ->
  (errors f = 0 /\ close_together (List.hd 0 times) times \/ close_together (lastError f) times) ->
  0 <= timeout cfg ->
  exists le, failures times (mkSystem f ts) =
    mkSystem (mkFilter open 0 0 le) (ts ++ [List.last times 0 + timeout cfg]).
Proof.
  induction times as [|t rest IH]; intros f ts Hc H0 Hlen Hne Hcl Hto; [done|].
  assert (Hn : errors f = 0 \/ t <= lastError f + timeout cfg) by (cbn in Hcl; lia).
  unfold failures. cbn [fold_left PostHandle snd]. destruct rest as [|t' rest].
  - cbn in Hlen |- *. rewrite onError_trips by (done || lia). by eexists.
  - rewrite onError_count by (done || (cbn in *; lia)).
    destruct (IH (mkFilter closed (errors f + 1) (successes f) t) ts) as [le E];
      cbn [fstate errors lastError]; try done; try (cbn in *; lia).
    + right. cbn in Hcl. cbn. tauto.
    + exists le. exact E.
Qed.
End breaker.

(** ** Claims *)

(** C37: In every state reachable from a fresh breaker with positive
    thresholds, under any interleaving of calls and timers and any stale
    loads, the breaker is open exactly when one timer is pending, and otherwise
    none is; the error and success counters stay below their thresholds, and
    each counts only in its own state. *)
Theorem breaker_invariant cfg t t' s :
  1 <= errorThreshold cfg < two63 -> 1 <= successThreshold cfg < two63 ->
  run cfg t fresh t' s ->
  length (timers s) = pending (fstate (filter s)) /\
  0 <= errors (filter s) < errorThreshold cfg /\
  0 <= successes (filter s) < successThreshold cfg /\
  (fstate (filter s) <> closed -> errors (filter s) = 0) /\
  (fstate (filter s) <> halfOpen -> successes (filter s) = 0).
Proof.
  intros He Hs Hr. destruct (run_inv cfg He Hs _ _ _ _ (inv_fresh cfg He Hs) Hr). done.
Qed.

Definition sample_cfg : config := NewFilter_config 2 1 5.

Definition tripped : system := failures sample_cfg [0; 3] fresh.

Lemma tripped_run : run sample_cfg 0 fresh 3 tripped.
Proof.
  eapply run_step; [|apply (step_post sample_cfg 0 closed (Some "error"%string))|]; [lia|].
  eapply run_step; [|apply (step_post sample_cfg 3 closed (Some "error"%string))|]; [lia|].
  apply run_refl.
Defined.

Lemma breaker_invariant_witness :
  length (timers tripped) = pending (fstate (filter tripped)) /\
  0 <= errors (filter tripped) < 2 /\ 0 <= successes (filter tripped) < 1 /\
  (fstate (filter tripped) <> closed -> errors (filter tripped) = 0) /\
  (fstate (filter tripped) <> halfOpen -> successes (filter tripped) = 0).
Proof.
  apply (breaker_invariant sample_cfg 0 3 tripped); [vm_compute; split; [discriminate | reflexivity] | vm_compute; split; [discriminate | reflexivity] | exact tripped_run].
Defined.

(** [errorThreshold] failures, each within [timeout] of the previous one,
    open a fresh breaker; until [timeout] has passed since the last of them no
    sequence of outcomes and timers changes it, and [PreHandle] rejects every
    request. *)
Theorem breaker_opens_and_rejects cfg times t s :
  1 <= errorThreshold cfg < two63 -> 1 <= successThreshold cfg < two63 -> 0 <= timeout cfg ->
  Z.of_nat (length times) = errorThreshold cfg ->
  close_together cfg (List.hd 0 times) times ->
  run cfg (List.last times 0) (failures cfg times fresh) t s ->
  t < List.last times 0 + timeout cfg ->
  s = failures cfg times fresh /\ PreHandle (filter s) = Some ErrBreakerOpen.
Proof.
  intros He Hs Hto Hlen Hcl Hr Ht.
  destruct (failures_open cfg He Hs times (filter fresh) []) as [le E]; try done; try lia.
  - destruct times; [cbn in Hlen; lia | done].
  - by left.
  - assert (Hi : inv cfg (failures cfg times fresh)).
    { unfold fresh in *. cbn in E. rewrite E. constructor; cbn; try done; lia. }
    unfold fresh in *. cbn in E. rewrite E in *.
    assert (Hst := run_open cfg _ _ _ _ _ Hi eq_refl eq_refl Hr Ht). by rewrite Hst.
Qed.

Lemma breaker_opens_and_rejects_witness :
  tripped = tripped /\ PreHandle (filter tripped) = Some ErrBreakerOpen.
Proof.
  apply (breaker_opens_and_rejects sample_cfg [0; 3] 3 tripped);
    [vm_compute; split; [discriminate | reflexivity] | vm_compute; split; [discriminate | reflexivity]
    | vm_compute; discriminate | reflexivity | vm_compute; split; [discriminate | split; [discriminate | exact I]]
    | apply run_refl | vm_compute; reflexivity].
Defined.

(** A half-open breaker closes after exactly [successThreshold] successes
    in a row and re-opens at the first failure. *)
Theorem breaker_half_open cfg n now le ts :
  1 <= successThreshold cfg < two63 -> (Z.of_nat n <= successThreshold cfg) ->
  let s := mkSystem (mkFilter halfOpen 0 0 le) ts in
  Nat.iter n (fun s => snd (PostHandle cfg halfOpen None now s)) s =
    (if decide (Z.of_nat n = successThreshold cfg) then mkSystem (mkFilter closed 0 0 le) ts
     else mkSystem (mkFilter halfOpen 0 (Z.of_nat n) le) ts) /\
  (Z.of_nat n < successThreshold cfg ->
   snd (PostHandle cfg halfOpen (Some "error"%string) now
     (mkSystem (mkFilter halfOpen 0 (Z.of_nat n) le) ts)) =
   mkSystem (mkFilter open 0 0 le) (ts ++ [now + timeout cfg])).
Proof.
  intros Hs Hn s. split; [|done]. induction n as [|n IH].
  - cbn. destruct (decide _); [lia | done].
  - rewrite Nat.iter_succ, IH by lia. destruct (decide _) as [E|_]; [lia|]. cbn -[Z.of_nat].
    destruct (decide (halfOpen = closed)); [done|]. unfold onSuccess. cbn -[Z.of_nat]. rewrite i64_id by (unfold_width; lia).
    destruct (decide _); zcases; try lia; unfold closeBreaker, changeState, setSuccesses;
      cbn -[Z.of_nat]; repeat f_equal; lia.
Qed.

Lemma breaker_half_open_witness :
  let s := mkSystem (mkFilter halfOpen 0 0 0) [] in
  Nat.iter 1 (fun s => snd (PostHandle sample_cfg halfOpen None 9 s)) s =
    (if decide (Z.of_nat 1 = successThreshold sample_cfg) then mkSystem (mkFilter closed 0 0 0) []
     else mkSystem (mkFilter halfOpen 0 (Z.of_nat 1) 0) []) /\
  (Z.of_nat 1 < successThreshold sample_cfg ->
   snd (PostHandle sample_cfg halfOpen (Some "error"%string) 9
     (mkSystem (mkFilter halfOpen 0 (Z.of_nat 1) 0) [])) =
   mkSystem (mkFilter open 0 0 0) ([] ++ [9 + timeout sample_cfg])).
Proof.
  apply (breaker_half_open sample_cfg 1 9 0 []); vm_compute; first [split; [discriminate | reflexivity] | discriminate].
Defined.
