(* ===== verification/Session.v ===== *)
(** * Transaction sessions and their protobuf encoding (pkg/dt/api/api.pb.go)

    The records [GlobalSession] and [BranchSession] with the generated
    [Size], [Marshal] and [Unmarshal].  [MarshalToSizedBuffer] fills its
    buffer from the end: [out] is the part already written, and writing below
    index 0 panics.  [Unmarshal] consumes the data from the front: [rest] is
    [dAtA[iNdEx:]] and [l] the length of [dAtA].  Enumerations are int32
    values, as in Go. *)
From Stdlib Require Import ZArith Lia List.
From stdpp Require Import base strings list.
From S2P Require Import Prelude GoText Encoding.

Local Open Scope Z_scope.

(** ** Statuses and branch types *)
Definition Begin : Z := 0.
Definition Committing : Z := 1.
Definition Rollbacking : Z := 2.
Definition Finished : Z := 3.

Definition AT : Z := 0.
Definition TCC : Z := 1.

Definition Registered : Z := 0.
Definition PhaseOneFailed : Z := 1.
Definition PhaseTwoCommitting : Z := 2.
Definition PhaseTwoRollbacking : Z := 3.
Definition Complete : Z := 4.

(** ** Encoding primitives *)
Definition ErrInvalidLengthApi : string := "proto: negative length found during unmarshaling".
Definition ErrIntOverflowApi : string := "proto: integer overflow".
Definition ErrUnexpectedEndOfGroupApi : string := "proto: unexpected end of group".
Definition ErrUnexpectedEOF : string := "unexpected EOF".

(** [bits.Len64]. *)
Definition Len64 (x : Z) : Z := if x =? 0 then 0 else Z.log2 x + 1.

Definition sovApi (x : Z) : Z := (Len64 (Z.lor x 1) + 6) / 7.

(** The bytes stored by the loop of [encodeVarintApi]; a uint64 takes at most
    ten. *)
Fixpoint varintLoop (fuel : nat) (v : Z) : bytes :=
  match fuel with
  | O => []
  | S f => if v >=? 128 then u8 (Z.lor (Z.land v 127) 128) :: varintLoop f (Z.shiftr v 7) else [u8 v]
  end.
Definition varint (v : Z) : bytes := varintLoop 10 v.

(** [i -= len(s); copy(dAtA[i:], s)], or [i--; dAtA[i] = b]. *)
Definition prepend (size : Z) (bs out : bytes) : res bytes :=
  if len bs + len out <=? size then Ok (bs ++ out) else Panic.

Definition encodeVarintApi (size v : Z) (out : bytes) : res bytes :=
  let n := sovApi v in
  if n + len out <=? size then
    let gap := replicate (Z.to_nat n) 0 ++ out in
    if bool_decide (length (varint v) <= length gap)%nat
    then Ok (varint v ++ drop (length (varint v)) gap)
    else Panic
  else Panic.

(** One field of [MarshalToSizedBuffer]: a number, omitted when zero, or a
    string, omitted when empty. *)
Definition putVarint (size tag v : Z) (out : bytes) : res bytes :=
  if v =? 0 then Ok out
  else out ← encodeVarintApi size (u64 v) out; prepend size [tag] out.

Definition putBytes (size tag : Z) (s out : bytes) : res bytes :=
  if len s >? 0 then
    out ← prepend size s out;
    out ← encodeVarintApi size (u64 (len s)) out;
    prepend size [tag] out
  else Ok out.

(** The same field in [Size]. *)
Definition sizeVarint (v : Z) : Z := if v =? 0 then 0 else 1 + sovApi (u64 v).
Definition sizeBytes (s : bytes) : Z :=
  if len s >? 0 then 1 + len s + sovApi (u64 (len s)) else 0.

(** ** Decoding primitives *)

(** The varint loop: [x |= T(b&0x7F) << shift] at the width [w] of [T]. *)
Fixpoint varintAt (w : Z -> Z) (rest : bytes) (shift acc : Z) : res (Z * bytes) :=
  if shift >=? 64 then Err ErrIntOverflowApi
  else
    match rest with
    | [] => Err ErrUnexpectedEOF
    | b :: rest' =>
      let acc' := Z.lor acc (w (Z.shiftl (Z.land b 127) shift)) in
      if b <? 128 then Ok (acc', rest') else varintAt w rest' (shift + 7) acc'
    end.

Definition getVarint (w : Z -> Z) (rest : bytes) : res (Z * bytes) := varintAt w rest 0 0.

(** The part after the length of a length-delimited field.  [rest] is
    [dAtA[iNdEx:]], so [dAtA[iNdEx:postIndex]] is its slice up to
    [postIndex - iNdEx]: it panics when [postIndex] is before [iNdEx] or after
    the end of the data (whose capacity is its length). *)
Definition sliceField (l n : Z) (rest : bytes) : res (bytes * bytes) :=
  if n <? 0 then Err ErrInvalidLengthApi
  else
    let iNdEx := l - len rest in
    let postIndex := i64 (iNdEx + n) in
    if postIndex <? 0 then Err ErrInvalidLengthApi
    else if postIndex >? l then Err ErrUnexpectedEOF
    else
      s ← slice rest 0 (postIndex - iNdEx);
      Ok (s, drop (Z.to_nat (postIndex - iNdEx)) rest).

(** [stringLen] is a uint64 converted to int, [byteLen] an int. *)
Definition getString (l : Z) (rest : bytes) : res (bytes * bytes) :=
  '(stringLen, rest) ← getVarint u64 rest; sliceField l (i64 stringLen) rest.
Definition getBytes (l : Z) (rest : bytes) : res (bytes * bytes) :=
  '(byteLen, rest) ← getVarint i64 rest; sliceField l byteLen rest.

(** The tag of a field: number, wire type and what follows. *)
Definition getTag (name : string) (rest : bytes) : res (Z * Z * bytes) :=
  '(wire, rest) ← getVarint u64 rest;
  let fieldNum := i32 (Z.shiftr wire 3) in
  let wireType := Z.land wire 7 in
  if wireType =? 4 then Err ("proto: " +:+ name +:+ ": wiretype end group for non-group")
  else if fieldNum <=? 0 then
    Err ("proto: " +:+ name +:+ ": illegal tag " +:+ FormatInt fieldNum +:+ " (wire type "
         +:+ FormatUint wire +:+ ")")
  else Ok (fieldNum, wireType, rest).

Definition wrongWireType (wireType : Z) (field : string) : string :=
  "proto: wrong wireType = " +:+ FormatInt wireType +:+ " for field " +:+ field.

(** [if wireType != want { return ... }] before the value of a field is read. *)
Definition expect {A} (want wireType : Z) (field : string) (k : res A) : res A :=
  if wireType =? want then k else Err (wrongWireType wireType field).

(** Bytes of a varint skipped without a value. *)
Fixpoint skipVarint (rest : bytes) (shift : Z) : res bytes :=
  if shift >=? 64 then Err ErrIntOverflowApi
  else
    match rest with
    | [] => Err ErrUnexpectedEOF
    | b :: rest' => if b <? 128 then Ok rest' else skipVarint rest' (shift + 7)
    end.

Definition out_of_fuel : string := "out of fuel".

(** One turn of [skipApi]: the index after the field and the nesting. *)
Definition skipTurn (dAtA : bytes) (iNdEx depth : Z) : res (Z * Z) :=
  '(wire, rest) ← getVarint u64 (drop (Z.to_nat iNdEx) dAtA);
  let at_ r := len dAtA - len r in
  let wireType := Z.land wire 7 in
  match wireType with
  | 0 => r ← skipVarint rest 0; Ok (at_ r, depth)
  | 1 => Ok (at_ rest + 8, depth)
  | 2 =>
    '(length, r) ← getVarint i64 rest;
    if length <? 0 then Err ErrInvalidLengthApi else Ok (i64 (at_ r + length), depth)
  | 3 => Ok (at_ rest, depth + 1)
  | 4 => if depth =? 0 then Err ErrUnexpectedEndOfGroupApi else Ok (at_ rest, depth - 1)
  | 5 => Ok (at_ rest + 4, depth)
  | _ => Err ("proto: illegal wireType " +:+ FormatInt wireType)
  end.

(** [skipApi]: the index after the field, with groups nested to [depth]; each
    turn reads at least the byte of a tag, so the length of the data is enough
    fuel.  [out_of_fuel] is no error of the code. *)
Fixpoint skipLoop (fuel : nat) (dAtA : bytes) (iNdEx depth : Z) : res Z :=
  if iNdEx <? len dAtA then
    match fuel with
    | O => Err out_of_fuel
    | S f =>
      '(iNdEx, depth) ← skipTurn dAtA iNdEx depth;
      if iNdEx <? 0 then Err ErrInvalidLengthApi
      else if depth =? 0 then Ok iNdEx
      else skipLoop f dAtA iNdEx depth
    end
  else Err ErrUnexpectedEOF.
Definition skipApi (dAtA : bytes) : res Z := skipLoop (length dAtA) dAtA 0 0.

(** The default case: skip the whole field starting at its tag. *)
Definition skipField (l : Z) (pre : bytes) : res bytes :=
  skippy ← skipApi pre;
  let iNdEx := l - len pre in
  if (skippy <? 0) || (i64 (iNdEx + skippy) <? 0) then Err ErrInvalidLengthApi
  else if i64 (iNdEx + skippy) >? l then Err ErrUnexpectedEOF
  else Ok (drop (Z.to_nat skippy) pre).

(** [for iNdEx < l]: [field] decodes one field. *)
Fixpoint fieldLoop {M} (field : M -> bytes -> res (M * bytes)) (fuel : nat) (m : M) (rest : bytes)
  : res M :=
  match rest with
  | [] => Ok m
  | _ =>
    match fuel with
    | O => Err out_of_fuel
    | S f => '(m, rest) ← field m rest; fieldLoop field f m rest
    end
  end.

Module GlobalSession.

Record t := mk {
  XID : string; ApplicationID : string; TransactionID : Z; TransactionName : string;
  Timeout : Z; BeginTime : Z; Status : Z }.

#[export] Instance eq_dec : EqDecision t.
Proof. solve_decision. Defined.

Definition zero : t := mk EmptyString EmptyString 0 EmptyString 0 0 0.

Definition Size (m : t) : Z :=
  sizeBytes (bytes_of (XID m)) + sizeBytes (bytes_of (ApplicationID m)) +
  sizeVarint (TransactionID m) + sizeBytes (bytes_of (TransactionName m)) +
  sizeVarint (Timeout m) + sizeVarint (BeginTime m) + sizeVarint (Status m).

Definition MarshalToSizedBuffer (size : Z) (m : t) : res bytes :=
  out ← putVarint size 56 (Status m) [];
  out ← putVarint size 48 (BeginTime m) out;
  out ← putVarint size 40 (Timeout m) out;
  out ← putBytes size 34 (bytes_of (TransactionName m)) out;
  out ← putVarint size 24 (TransactionID m) out;
  out ← putBytes size 18 (bytes_of (ApplicationID m)) out;
  putBytes size 10 (bytes_of (XID m)) out.

(** [dAtA[:n]]: the buffer is read from its start, so the bytes written at its
    end are the whole result only when they fill it. *)
Definition Marshal (m : t) : res bytes :=
  out ← MarshalToSizedBuffer (Size m) m;
  Ok (take (length out) (replicate (Z.to_nat (Size m) - length out) 0 ++ out)).

Definition set_XID s m := mk s (ApplicationID m) (TransactionID m) (TransactionName m) (Timeout m) (BeginTime m) (Status m).
Definition set_ApplicationID s m := mk (XID m) s (TransactionID m) (TransactionName m) (Timeout m) (BeginTime m) (Status m).
Definition set_TransactionID z m := mk (XID m) (ApplicationID m) z (TransactionName m) (Timeout m) (BeginTime m) (Status m).
Definition set_TransactionName s m := mk (XID m) (ApplicationID m) (TransactionID m) s (Timeout m) (BeginTime m) (Status m).
Definition set_Timeout z m := mk (XID m) (ApplicationID m) (TransactionID m) (TransactionName m) z (BeginTime m) (Status m).
Definition set_BeginTime z m := mk (XID m) (ApplicationID m) (TransactionID m) (TransactionName m) (Timeout m) z (Status m).
Definition set_Status z m := mk (XID m) (ApplicationID m) (TransactionID m) (TransactionName m) (Timeout m) (BeginTime m) z.

Definition field (l : Z) (m : t) (pre : bytes) : res (t * bytes) :=
  '(fieldNum, wireType, rest) ← getTag "GlobalSession" pre;
  match fieldNum with
  | 1 => expect 2 wireType "XID" ('(s, r) ← getString l rest; Ok (set_XID (string_of s) m, r))
  | 2 => expect 2 wireType "ApplicationID" ('(s, r) ← getString l rest; Ok (set_ApplicationID (string_of s) m, r))
  | 3 => expect 0 wireType "TransactionID" ('(z, r) ← getVarint i64 rest; Ok (set_TransactionID z m, r))
  | 4 => expect 2 wireType "TransactionName" ('(s, r) ← getString l rest; Ok (set_TransactionName (string_of s) m, r))
  | 5 => expect 0 wireType "Timeout" ('(z, r) ← getVarint i32 rest; Ok (set_Timeout z m, r))
  | 6 => expect 0 wireType "BeginTime" ('(z, r) ← getVarint i64 rest; Ok (set_BeginTime z m, r))
  | 7 => expect 0 wireType "Status" ('(z, r) ← getVarint i32 rest; Ok (set_Status z m, r))
  | _ => r ← skipField l pre; Ok (m, r)
  end.

(** Each turn of the loop consumes a byte, so the length of the data is enough
    fuel. *)
Definition Unmarshal (dAtA : bytes) (m : t) : res t :=
  fieldLoop (field (len dAtA)) (length dAtA) m dAtA.

(** The fields fit their Go types. *)
Definition wf (m : t) : Prop :=
  in_i64 (TransactionID m) /\ in_i32 (Timeout m) /\ in_i64 (BeginTime m) /\ in_i32 (Status m).

End GlobalSession.

Module BranchSession.

Record t := mk {
  BranchID : string; ApplicationID : string; BranchSessionID : Z; XID : string;
  TransactionID : Z; ResourceID : string; LockKey : string; Type_ : Z; Status : Z;
  ApplicationData : bytes; BeginTime : Z }.

#[export] Instance eq_dec : EqDecision t.
Proof. solve_decision. Defined.

Definition zero : t :=
  mk EmptyString EmptyString 0 EmptyString 0 EmptyString EmptyString 0 0 [] 0.

Definition Size (m : t) : Z :=
  sizeBytes (bytes_of (BranchID m)) + sizeBytes (bytes_of (ApplicationID m)) +
  sizeVarint (BranchSessionID m) + sizeBytes (bytes_of (XID m)) + sizeVarint (TransactionID m) +
  sizeBytes (bytes_of (ResourceID m)) + sizeBytes (bytes_of (LockKey m)) +
  sizeVarint (Type_ m) + sizeVarint (Status m) + sizeBytes (ApplicationData m) +
  sizeVarint (BeginTime m).

Definition MarshalToSizedBuffer (size : Z) (m : t) : res bytes :=
  out ← putVarint size 88 (BeginTime m) [];
  out ← putBytes size 82 (ApplicationData m) out;
  out ← putVarint size 72 (Status m) out;
  out ← putVarint size 64 (Type_ m) out;
  out ← putBytes size 58 (bytes_of (LockKey m)) out;
  out ← putBytes size 50 (bytes_of (ResourceID m)) out;
  out ← putVarint size 40 (TransactionID m) out;
  out ← putBytes size 34 (bytes_of (XID m)) out;
  out ← putVarint size 24 (BranchSessionID m) out;
  out ← putBytes size 18 (bytes_of (ApplicationID m)) out;
  putBytes size 10 (bytes_of (BranchID m)) out.

Definition Marshal (m : t) : res bytes :=
  out ← MarshalToSizedBuffer (Size m) m;
  Ok (take (length out) (replicate (Z.to_nat (Size m) - length out) 0 ++ out)).

Definition set_BranchID s '(mk _ b c d e f g h i j k) := mk s b c d e f g h i j k.
Definition set_ApplicationID s '(mk a _ c d e f g h i j k) := mk a s c d e f g h i j k.
Definition set_BranchSessionID z '(mk a b _ d e f g h i j k) := mk a b z d e f g h i j k.
Definition set_XID s '(mk a b c _ e f g h i j k) := mk a b c s e f g h i j k.
Definition set_TransactionID z '(mk a b c d _ f g h i j k) := mk a b c d z f g h i j k.
Definition set_ResourceID s '(mk a b c d e _ g h i j k) := mk a b c d e s g h i j k.
Definition set_LockKey s '(mk a b c d e f _ h i j k) := mk a b c d e f s h i j k.
Definition set_Type z '(mk a b c d e f g _ i j k) := mk a b c d e f g z i j k.
Definition set_Status z '(mk a b c d e f g h _ j k) := mk a b c d e f g h z j k.
Definition set_ApplicationData s '(mk a b c d e f g h i _ k) := mk a b c d e f g h i s k.
Definition set_BeginTime z '(mk a b c d e f g h i j _) := mk a b c d e f g h i j z.

(** The cases of the fields 6 to 11 and the default. *)
Definition field_rest (l : Z) (m : t) (pre : bytes) (fieldNum wireType : Z) (rest : bytes)
  : res (t * bytes) :=
  match fieldNum with
  | 6 => expect 2 wireType "ResourceID" ('(s, r) ← getString l rest; Ok (set_ResourceID (string_of s) m, r))
  | 7 => expect 2 wireType "LockKey" ('(s, r) ← getString l rest; Ok (set_LockKey (string_of s) m, r))
  | 8 => expect 0 wireType "Type" ('(z, r) ← getVarint i32 rest; Ok (set_Type z m, r))
  | 9 => expect 0 wireType "Status" ('(z, r) ← getVarint i32 rest; Ok (set_Status z m, r))
  | 10 => expect 2 wireType "ApplicationData" ('(s, r) ← getBytes l rest; Ok (set_ApplicationData s m, r))
  | 11 => expect 0 wireType "BeginTime" ('(z, r) ← getVarint i64 rest; Ok (set_BeginTime z m, r))
  | _ => r ← skipField l pre; Ok (m, r)
  end.

Definition field (l : Z) (m : t) (pre : bytes) : res (t * bytes) :=
  '(fieldNum, wireType, rest) ← getTag "BranchSession" pre;
  match fieldNum with
  | 1 => expect 2 wireType "BranchID" ('(s, r) ← getString l rest; Ok (set_BranchID (string_of s) m, r))
  | 2 => expect 2 wireType "ApplicationID" ('(s, r) ← getString l rest; Ok (set_ApplicationID (string_of s) m, r))
  | 3 => expect 0 wireType "BranchSessionID" ('(z, r) ← getVarint i64 rest; Ok (set_BranchSessionID z m, r))
  | 4 => expect 2 wireType "XID" ('(s, r) ← getString l rest; Ok (set_XID (string_of s) m, r))
  | 5 => expect 0 wireType "TransactionID" ('(z, r) ← getVarint i64 rest; Ok (set_TransactionID z m, r))
  | _ => field_rest l m pre fieldNum wireType rest
  end.

Definition Unmarshal (dAtA : bytes) (m : t) : res t :=
  fieldLoop (field (len dAtA)) (length dAtA) m dAtA.

Definition wf (m : t) : Prop :=
  in_i64 (BranchSessionID m) /\ in_i64 (TransactionID m) /\ in_i32 (Type_ m) /\
  in_i32 (Status m) /\ in_i64 (BeginTime m) /\ Forall is_byte (ApplicationData m).

End BranchSession.

Definition sample_gs : GlobalSession.t :=
  GlobalSession.mk "gs/aggregation/8777" "aggregation" 8777 "create order" 60000 1661000000000 Committing.

Example sample_roundtrip :
  GlobalSession.Marshal sample_gs ≫= (fun b => GlobalSession.Unmarshal b GlobalSession.zero) = Ok sample_gs.
Proof. vm_compute. reflexivity. Qed.

(** ** Two's complement narrowing distributes over [|] *)
Lemma mod_lor a b n : 0 <= n -> Z.lor a b mod 2 ^ n = Z.lor (a mod 2 ^ n) (b mod 2 ^ n).
Proof. intros Hn. rewrite <- !Z.land_ones by done. by rewrite Z.land_lor_distr_l. Qed.

Definition sext (k z : Z) : Z := (z + 2 ^ k) mod 2 ^ (k + 1) - 2 ^ k.

Section sext.
Context (k : Z) (Hk : 0 <= k).

Lemma pow_double : 2 ^ (k + 1) = 2 * 2 ^ k.
Proof. rewrite Z.pow_add_r by lia. lia. Qed.

Lemma sext_range z : - 2 ^ k <= sext k z < 2 ^ k.
Proof.
  unfold sext. pose proof pow_double. assert (0 < 2 ^ k) by (apply Z.pow_pos_nonneg; lia).
  pose proof (Z.mod_pos_bound (z + 2 ^ k) (2 ^ (k + 1)) ltac:(lia)). lia.
Qed.

Lemma sext_mod z : sext k z mod 2 ^ (k + 1) = z mod 2 ^ (k + 1).
Proof.
  unfold sext. rewrite Zminus_mod_idemp_l. f_equal. lia.
Qed.

Lemma sext_unique a z :
  - 2 ^ k <= a < 2 ^ k -> a mod 2 ^ (k + 1) = z mod 2 ^ (k + 1) -> sext k z = a.
Proof.
  intros Ha E. unfold sext. pose proof pow_double.
  rewrite <- Zplus_mod_idemp_l, <- E, Zplus_mod_idemp_l, Z.mod_small by lia. lia.
Qed.

Lemma range_shiftr a : - 2 ^ k <= a < 2 ^ k <-> Z.shiftr a k = 0 \/ Z.shiftr a k = -1.
Proof.
  rewrite Z.shiftr_div_pow2 by done. assert (0 < 2 ^ k) by (apply Z.pow_pos_nonneg; lia).
  pose proof (Z.div_mod a (2 ^ k) ltac:(lia)). pose proof (Z.mod_pos_bound a (2 ^ k) ltac:(lia)).
  split; [intros Ha | intros [E|E]; nia].
  destruct (Z.ltb_spec a 0); [right | left].
  - symmetry. apply (Z.div_unique a (2 ^ k) (-1) (a + 2 ^ k)); lia.
  - apply Z.div_small. lia.
Qed.

Lemma sext_lor a b : sext k (Z.lor a b) = Z.lor (sext k a) (sext k b).
Proof.
  apply sext_unique.
  - apply range_shiftr. rewrite Z.shiftr_lor.
    pose proof (proj1 (range_shiftr _) (sext_range a)). pose proof (proj1 (range_shiftr _) (sext_range b)).
    destruct H as [-> | ->], H0 as [-> | ->]; auto.
  - rewrite !mod_lor by lia. by rewrite !sext_mod.
Qed.
End sext.

(** A conversion to an integer type that the decoder accumulates in. *)
Class Width (w : Z -> Z) := {
  width_0 : w 0 = 0;
  width_lor : forall a b, w (Z.lor a b) = Z.lor (w a) (w b) }.

#[export] Instance u64_Width : Width u64.
Proof.
  split; [done|]. intros a b. unfold u64. change two64 with (2 ^ 64). by apply mod_lor.
Qed.

#[export] Instance i64_Width : Width i64.
Proof. split; [done|]. intros a b. apply (sext_lor 63). lia. Qed.

#[export] Instance i32_Width : Width i32.
Proof. split; [done|]. intros a b. apply (sext_lor 31). lia. Qed.

Lemma i32_u64 z : in_i32 z -> i32 (u64 z) = z.
Proof.
  intros H. apply (sext_unique 31); [lia | exact H|]. symmetry.
  unfold u64. apply Z.mod_mod_divide. by exists 4294967296.
Qed.

(** ** Varints *)
Lemma split7 v : Z.lor (v mod 128) (Z.shiftl (Z.shiftr v 7) 7) = v.
Proof.
  rewrite Z.shiftr_div_pow2, Z.shiftl_mul_pow2 by lia. rewrite Z.lor_comm, lor_fields;
    [|lia|apply Z.mod_pos_bound; lia].
  change (2 ^ 7) with 128. pose proof (Z.div_mod v 128). lia.
Qed.

Lemma low_byte v : 0 <= v ->
  Z.land (u8 (Z.lor (Z.land v 127) 128)) 127 = v mod 128 /\ u8 (Z.lor (Z.land v 127) 128) >= 128 /\
  is_byte (u8 (Z.lor (Z.land v 127) 128)).
Proof.
  intros Hv. assert (E : Z.land v 127 = v mod 128) by (apply (Z.land_ones v 7); lia).
  rewrite E. pose proof (Z.mod_pos_bound v 128 ltac:(lia)) as Hb.
  assert (Hl : Z.lor (v mod 128) 128 = 128 + v mod 128).
  { rewrite Z.lor_comm. apply (lor_fields 1 (v mod 128) 7); lia. }
  rewrite Hl. unfold u8, two8, is_byte. rewrite Z.mod_small by lia.
  split; [|lia]. change 127 with (Z.ones 7). rewrite Z.land_ones by lia.
  change (2 ^ 7) with 128. replace (128 + v mod 128) with (v mod 128 + 1 * 128) by lia.
  rewrite Z.mod_add, Z.mod_mod by lia. done.
Qed.

Lemma shiftr7_lt v n : 0 <= n -> 0 <= v < 2 ^ (n + 7) -> 0 <= Z.shiftr v 7 < 2 ^ n.
Proof.
  intros Hn [H0 H1]. rewrite Z.shiftr_div_pow2 by lia. rewrite Z.pow_add_r in H1 by lia.
  split; [apply Z.div_pos; lia|]. apply Z.div_lt_upper_bound; lia.
Qed.

Lemma varintLoop_decode `{Width w} fuel : forall v shift acc rest,
  (0 < fuel)%nat -> 0 <= v < 2 ^ (7 * Z.of_nat fuel) -> 0 <= shift -> v < 2 ^ (64 - shift) -> shift < 64 ->
  varintAt w (varintLoop fuel v ++ rest) shift acc = Ok (Z.lor acc (w (Z.shiftl v shift)), rest).
Proof.
  induction fuel as [|f IH]; intros v shift acc rest Hf Hv Hs Hs' Hs''; [lia|].
  cbn [varintLoop]. destruct (v >=? 128) eqn:E; zbool.
  - destruct (low_byte v ltac:(lia)) as (Hland & Hge & _).
    cbn [app varintAt]. rewrite Hland. destruct (Z.geb_spec shift 64); [lia|].
    destruct (Z.ltb_spec (u8 (Z.lor (Z.land v 127) 128)) 128); [lia|].
    assert (Hsh : shift + 7 < 64).
    { destruct (Z.ltb_spec (shift + 7) 64); [done|].
      pose proof (Z.pow_le_mono_r 2 (64 - shift) 7). lia. }
    destruct f as [|f']; [change (2 ^ (7 * Z.of_nat 1)) with 128 in Hv; lia|].
    rewrite IH; [| lia | apply shiftr7_lt; [lia|]; replace (7 * Z.of_nat (S f') + 7) with (7 * Z.of_nat (S (S f'))) by lia; done
      | lia | apply shiftr7_lt; [lia|]; replace (64 - (shift + 7) + 7) with (64 - shift) by lia; lia | lia].
    f_equal. f_equal. rewrite <- Z.lor_assoc, <- width_lor. f_equal. f_equal.
    replace (shift + 7) with (7 + shift) by lia. rewrite <- Z.shiftl_shiftl by lia.
    rewrite <- Z.shiftl_lor. by rewrite split7.
  - cbn [app varintAt]. destruct (Z.geb_spec shift 64); [lia|].
    assert (Hu : u8 v = v) by (unfold u8, two8; apply Z.mod_small; lia).
    rewrite Hu. destruct (Z.ltb_spec v 128); [|lia].
    change 127 with (Z.ones 7). rewrite Z.land_ones, Z.mod_small by (change (2 ^ 7) with 128; lia). done.
Qed.

Lemma getVarint_varint `{Width w} v rest : in_u64 v -> getVarint w (varint v ++ rest) = Ok (w v, rest).
Proof.
  intros Hv. unfold getVarint, varint. rewrite varintLoop_decode; try lia.
  - by rewrite Z.shiftl_0_r, Z.lor_0_l.
  - unfold_width. change (2 ^ (7 * Z.of_nat 10)) with 1180591620717411303424. lia.
  - unfold_width. change (2 ^ (64 - 0)) with 18446744073709551616. lia.
Qed.

Lemma varintLoop_length fuel : forall v, (0 < fuel)%nat -> 0 <= v < 2 ^ (7 * Z.of_nat fuel) ->
  Z.of_nat (length (varintLoop fuel v)) = (Z.log2 (Z.lor v 1) + 7) / 7.
Proof.
  induction fuel as [|f IH]; intros v Hf Hv; [lia|]. cbn [varintLoop].
  rewrite Z.log2_lor by lia. change (Z.log2 1) with 0.
  pose proof (Z.log2_nonneg v). rewrite Z.max_l by lia.
  destruct (v >=? 128) eqn:E; zbool.
  - destruct f as [|f']; [change (2 ^ (7 * Z.of_nat 1)) with 128 in Hv; lia|].
    cbn [length]. rewrite Nat2Z.inj_succ, IH; [|lia|].
    + rewrite Z.log2_lor by (try lia; apply Z.shiftr_nonneg; lia). change (Z.log2 1) with 0.
      rewrite Z.log2_shiftr by lia. assert (7 <= Z.log2 v) by (apply Z.log2_le_pow2; lia).
      rewrite Z.max_l, Z.max_r by lia.
      replace (Z.log2 v + 7) with ((Z.log2 v - 7 + 7) + 1 * 7) by lia. rewrite Z.div_add by lia. lia.
    + apply shiftr7_lt; [lia|]. replace (7 * Z.of_nat (S f') + 7) with (7 * Z.of_nat (S (S f'))) by lia. done.
  - cbn. assert (Z.log2 v < 7) by (destruct (Z.eq_dec v 0) as [->|]; [done | apply Z.log2_lt_pow2; lia]).
    apply (Z.div_unique _ 7 1 (Z.log2 v)); lia.
Qed.

Lemma varint_length v : in_u64 v -> len (varint v) = sovApi v.
Proof.
  intros Hv. unfold len, varint, sovApi, Len64. rewrite varintLoop_length;
    [|lia|unfold_width; change (2 ^ (7 * Z.of_nat 10)) with 1180591620717411303424; lia].
  destruct (Z.eqb_spec (Z.lor v 1) 0) as [E|]; [apply Z.lor_eq_0_iff in E; lia|]. f_equal. lia.
Qed.

Lemma varint_bytes v : in_u64 v -> Forall is_byte (varint v).
Proof.
  intros Hv. unfold varint.
  enough (H : forall f v, 0 <= v -> Forall is_byte (varintLoop f v)) by (apply H; unfold_width; lia).
  clear. induction f as [|f IH]; intros v Hv; cbn; [constructor|].
  destruct (v >=? 128) eqn:E; zbool; constructor.
  - by apply low_byte.
  - by apply IH, Z.shiftr_nonneg.
  - unfold is_byte, u8, two8. apply Z.mod_pos_bound. lia.
  - constructor.
Qed.

(** ** Fields *)
Arguments varint : simpl never.
Arguments len : simpl never.

(** The bytes of a field with a one-byte tag. *)
Definition varintField (tag v : Z) : bytes := if v =? 0 then [] else tag :: varint (u64 v).
Definition bytesField (tag : Z) (s : bytes) : bytes :=
  if len s >? 0 then tag :: varint (u64 (len s)) ++ s else [].

Lemma len_replicate {A} n (x : A) : len (replicate n x) = Z.of_nat n.
Proof. unfold len. by rewrite length_replicate. Qed.

Lemma sov_pos v : in_u64 v -> 0 <= sovApi v.
Proof. intros H. rewrite <- varint_length by done. apply len_nonneg. Qed.

Lemma encodeVarintApi_app size v out :
  in_u64 v -> sovApi v + len out <= size -> encodeVarintApi size v out = Ok (varint v ++ out).
Proof.
  intros Hv Hs. unfold encodeVarintApi. destruct (Z.leb_spec (sovApi v + len out) size); [|lia].
  pose proof (varint_length v Hv) as Hl.
  assert (Hn : length (varint v) = Z.to_nat (sovApi v)) by (rewrite <- Hl; unfold len; lia).
  rewrite bool_decide_true by (rewrite length_app, length_replicate; lia).
  rewrite drop_app_length'; [done|]. by rewrite length_replicate.
Qed.

Lemma putVarint_app size tag v out :
  sizeVarint v + len out <= size -> putVarint size tag v out = Ok (varintField tag v ++ out).
Proof.
  unfold sizeVarint, putVarint, varintField. destruct (v =? 0); [done|]. intros H.
  rewrite encodeVarintApi_app by (auto with dbpack; lia). cbn. unfold prepend.
  rewrite len_app, varint_length by auto with dbpack.
  change (len [tag]) with 1. destruct (Z.leb_spec (1 + (sovApi (u64 v) + len out)) size); [done | lia].
Qed.

Lemma putBytes_app size tag s out :
  sizeBytes s + len out <= size -> putBytes size tag s out = Ok (bytesField tag s ++ out).
Proof.
  unfold sizeBytes, putBytes, bytesField. destruct (len s >? 0); [|done]. intros H.
  pose proof (sov_pos (u64 (len s)) (u64_range _)). unfold prepend.
  destruct (Z.leb_spec (len s + len out) size); [|lia]. cbn.
  rewrite encodeVarintApi_app by (try rewrite len_app; auto with dbpack; lia). cbn.
  rewrite !len_app, varint_length by auto with dbpack. change (len [tag]) with 1.
  destruct (Z.leb_spec (1 + (sovApi (u64 (len s)) + (len s + len out))) size); [|lia].
  cbn. by rewrite <- app_assoc.
Qed.

Lemma varintField_len tag v : len (varintField tag v) = sizeVarint v.
Proof.
  unfold varintField, sizeVarint. destruct (v =? 0); [done|].
  rewrite <- varint_length by auto with dbpack. unfold len. cbn. lia.
Qed.

Lemma bytesField_len tag s : len (bytesField tag s) = sizeBytes s.
Proof.
  unfold bytesField, sizeBytes. destruct (len s >? 0); [|done].
  rewrite <- varint_length by auto with dbpack. unfold len. cbn. rewrite length_app. lia.
Qed.

Lemma Marshal_take size out : len out = size ->
  take (length out) (replicate (Z.to_nat size - length out) 0 ++ out) = out.
Proof.
  intros <-. unfold len. replace (Z.to_nat (Z.of_nat (length out)) - length out)%nat with 0%nat by lia.
  cbn. by apply take_ge.
Qed.

(** ** Reading fields back *)
Lemma getTag_byte name tag rest num wt :
  tag < 128 -> 0 <= tag -> Z.shiftr tag 3 = num -> Z.land tag 7 = wt -> 0 < num -> wt <> 4 ->
  getTag name (tag :: rest) = Ok (num, wt, rest).
Proof.
  intros H1 H0 <- <- Hn Hw. unfold getTag, getVarint. cbn [varintAt].
  destruct (Z.geb_spec 0 64); [lia|]. destruct (Z.ltb_spec tag 128); [|lia].
  assert (Ht : Z.land tag 127 = tag)
    by (change 127 with (Z.ones 7); rewrite Z.land_ones, Z.mod_small by (change (2 ^ 7) with 128; lia); done).
  rewrite Ht, Z.shiftl_0_r, Z.lor_0_l, u64_id by (unfold_width; lia). cbn [mbind res_bind].
  assert (Hi : i32 (Z.shiftr tag 3) = Z.shiftr tag 3).
  { rewrite Z.shiftr_div_pow2 in * by lia. unfold i32. change (2 ^ 3) with 8 in *.
    assert (tag / 8 <= tag) by (apply Z.div_le_upper_bound; lia). rewrite Z.mod_small by lia. lia. }
  rewrite Hi. destruct (Z.eqb_spec (Z.land tag 7) 4); [lia|].
  destruct (Z.leb_spec (Z.shiftr tag 3) 0); [lia | done].
Qed.

Lemma sliceField_app l s rest :
  len (s ++ rest) <= l -> l < two63 -> sliceField l (len s) (s ++ rest) = Ok (s, rest).
Proof.
  intros Hl H63. unfold sliceField. rewrite len_app in *. pose proof (len_nonneg s). pose proof (len_nonneg rest).
  destruct (Z.ltb_spec (len s) 0); [lia|]. rewrite i64_id by (unfold_width; lia).
  destruct (Z.ltb_spec (l - (len s + len rest) + len s) 0); [lia|].
  rewrite Z.gtb_ltb. destruct (Z.ltb_spec l (l - (len s + len rest) + len s)); [lia|].
  replace (l - (len s + len rest) + len s - (l - (len s + len rest))) with (len s) by lia.
  unfold slice. rewrite len_app, (proj2 (Z.leb_le 0 (len s))), (proj2 (Z.leb_le (len s) _)) by lia.
  assert (Hn : Z.to_nat (len s) = length s) by (unfold len; lia). cbn [mbind res_bind andb Z.leb Z.compare].
  rewrite Z.sub_0_r, Hn. change (Z.to_nat 0) with 0%nat. rewrite drop_0, take_app_length. cbn.
  by rewrite drop_app_length.
Qed.

Lemma getString_field l s rest :
  len (varint (u64 (len s)) ++ s ++ rest) <= l -> l < two63 ->
  getString l (varint (u64 (len s)) ++ s ++ rest) = Ok (s, rest).
Proof.
  intros Hl H63. rewrite len_app in Hl. pose proof (len_nonneg (varint (u64 (len s)))).
  pose proof (len_nonneg s). rewrite len_app in Hl. pose proof (len_nonneg rest).
  unfold getString. rewrite getVarint_varint by auto with dbpack. cbn [mbind res_bind].
  assert (Hid : u64 (len s) = len s) by (apply u64_id; unfold_width; lia).
  rewrite !Hid, i64_id by (unfold_width; lia). apply sliceField_app; rewrite ?len_app; lia.
Qed.

Lemma getBytes_field l s rest :
  len (varint (u64 (len s)) ++ s ++ rest) <= l -> l < two63 ->
  getBytes l (varint (u64 (len s)) ++ s ++ rest) = Ok (s, rest).
Proof.
  intros Hl H63. rewrite len_app in Hl. pose proof (len_nonneg (varint (u64 (len s)))).
  pose proof (len_nonneg s). rewrite len_app in Hl. pose proof (len_nonneg rest).
  unfold getBytes. rewrite getVarint_varint by auto with dbpack. cbn [mbind res_bind].
  assert (Hid : u64 (len s) = len s) by (apply u64_id; unfold_width; lia).
  rewrite !Hid, i64_id by (unfold_width; lia). apply sliceField_app; rewrite ?len_app; lia.
Qed.

Lemma bytes_of_string_of b : Forall is_byte b -> bytes_of (string_of b) = b.
Proof.
  induction 1 as [|x b Hx _ IH]; [done|]. unfold bytes_of, string_of in *. cbn.
  rewrite IH, chr_ascii; done.
Qed.

Lemma bytes_of_bytes s : Forall is_byte (bytes_of s).
Proof. apply List.Forall_forall. intros x (c & <- & _)%in_map_iff. apply chr_range. Qed.

Lemma len_0_string s : len (bytes_of s) = 0 -> s = EmptyString.
Proof. destruct s; [done|]. cbn. unfold len. cbn. lia. Qed.

(** ** The decoding loop as a relation *)
Section loop.
Context {M : Type} (field : M -> bytes -> res (M * bytes)).

Inductive decodes : M -> bytes -> M -> Prop :=
| decodes_nil m : decodes m [] m
| decodes_field m rest m1 rest1 m' :
    rest <> [] -> field m rest = Ok (m1, rest1) -> (length rest1 < length rest)%nat ->
    decodes m1 rest1 m' -> decodes m rest m'.

Lemma decodes_loop m rest m' : decodes m rest m' ->
  forall fuel, (length rest <= fuel)%nat -> fieldLoop field fuel m rest = Ok m'.
Proof.
  induction 1 as [m | m rest m1 rest1 m' Hne Hf Hlt _ IH]; intros fuel Hfuel; [by destruct fuel|].
  destruct rest as [|b rest]; [done|]. destruct fuel as [|fuel]; [cbn in Hfuel; lia|].
  cbn [fieldLoop]. rewrite Hf. cbn [mbind res_bind]. apply IH. cbn in *. lia.
Qed.
End loop.

Lemma decodes_varintField {M} (field : M -> bytes -> res (M * bytes)) (w : Z -> Z)
    (put : Z -> M -> M) m tag v rest m' :
  (forall r, field m (tag :: varint (u64 v) ++ r) = Ok (put (w (u64 v)) m, r)) ->
  w (u64 v) = v -> (v = 0 -> put 0 m = m) ->
  decodes field (put v m) rest m' -> decodes field m (varintField tag v ++ rest) m'.
Proof.
  intros Hf Hw H0 Hd. unfold varintField. destruct (Z.eqb_spec v 0) as [->|Hv].
  - by rewrite H0 in Hd.
  - eapply decodes_field; [done | apply Hf | | by rewrite Hw]. cbn. rewrite length_app. lia.
Qed.

Lemma decodes_bytesField {M} (field : M -> bytes -> res (M * bytes))
    (put : bytes -> M -> M) l m tag s rest m' :
  len (bytesField tag s ++ rest) <= l ->
  (len (varint (u64 (len s)) ++ s ++ rest) <= l ->
   field m (tag :: varint (u64 (len s)) ++ s ++ rest) = Ok (put s m, rest)) ->
  (s = [] -> put [] m = m) ->
  decodes field (put s m) rest m' -> decodes field m (bytesField tag s ++ rest) m'.
Proof.
  intros Hl Hf H0 Hd. unfold bytesField in *. destruct (Z.gtb_spec (len s) 0) as [Hs|Hs].
  - cbn in Hl. rewrite <- app_assoc in Hl.
    eapply decodes_field; [done | cbn; rewrite <- app_assoc; apply Hf | | done].
    + unfold len in *. cbn in Hl. lia.
    + cbn. rewrite !length_app. lia.
  - destruct s as [|x s]; [|cbn in Hs; unfold len in Hs; cbn in Hs; lia]. cbn. by rewrite H0 in Hd.
Qed.

Lemma sizeVarint_nonneg v : 0 <= sizeVarint v.
Proof. rewrite <- (varintField_len 0). apply len_nonneg. Qed.
Lemma sizeBytes_nonneg s : 0 <= sizeBytes s.
Proof. rewrite <- (bytesField_len 0). apply len_nonneg. Qed.

(** Goals that bound the part of a buffer already written by its size. *)
Ltac field_sizes :=
  rewrite ?len_app, ?varintField_len, ?bytesField_len; change (len (@nil Z)) with 0;
  repeat match goal with
  | _ : context [sizeVarint ?v] |- _ =>
    lazymatch goal with H : 0 <= sizeVarint v |- _ => fail | _ => pose proof (sizeVarint_nonneg v) end
  | _ : context [sizeBytes ?s] |- _ =>
    lazymatch goal with H : 0 <= sizeBytes s |- _ => fail | _ => pose proof (sizeBytes_nonneg s) end
  end; lia.

(** One field of [Unmarshal] on the bytes its [Marshal] wrote. *)
Ltac decode_tag num wt :=
  cbn [app]; rewrite (getTag_byte _ _ _ num wt) by (reflexivity || lia);
  cbn [mbind res_bind]; unfold expect; cbn [Z.eqb Pos.eqb].
Ltac decode_varint num :=
  intros r; decode_tag num 0; rewrite getVarint_varint by auto with dbpack; reflexivity.
Ltac decode_string num :=
  intros Hr; decode_tag num 2; rewrite getString_field by done; reflexivity.
Ltac decode_bytes num :=
  intros Hr; decode_tag num 2; rewrite getBytes_field by done; reflexivity.

Module GlobalSessionCodec.
Import GlobalSession.

Definition encoding (m : t) : bytes :=
  bytesField 10 (bytes_of (XID m)) ++ bytesField 18 (bytes_of (ApplicationID m)) ++
  varintField 24 (TransactionID m) ++ bytesField 34 (bytes_of (TransactionName m)) ++
  varintField 40 (Timeout m) ++ varintField 48 (BeginTime m) ++ varintField 56 (Status m) ++ [].

Lemma gs_encoding_len m : len (encoding m) = Size m.
Proof. unfold encoding, Size. field_sizes. Qed.

Lemma gs_Marshal_encoding m : Marshal m = Ok (encoding m).
Proof.
  unfold Marshal, MarshalToSizedBuffer.
  assert (Hs : Size m = Size m) by done. unfold Size in Hs at 2.
  rewrite putVarint_app by field_sizes. cbn [mbind res_bind].
  rewrite putVarint_app by field_sizes. cbn [mbind res_bind].
  rewrite putVarint_app by field_sizes. cbn [mbind res_bind].
  rewrite putBytes_app by field_sizes. cbn [mbind res_bind].
  rewrite putVarint_app by field_sizes. cbn [mbind res_bind].
  rewrite putBytes_app by field_sizes. cbn [mbind res_bind].
  rewrite putBytes_app by field_sizes. cbn [mbind res_bind].
  f_equal. apply (Marshal_take _ (encoding m)), gs_encoding_len.
Qed.

Lemma gs_Unmarshal_encoding m : wf m -> Size m < two63 -> Unmarshal (encoding m) zero = Ok m.
Proof.
  intros (Hti & Hto & Hbt & Hst) H63. unfold Unmarshal. eapply decodes_loop; [|lia].
  set (l := len (encoding m)).
  assert (Hl : len (encoding m) <= l) by lia. assert (Hl63 : l < two63) by (unfold l; rewrite gs_encoding_len; lia).
  clearbody l. destruct m as [xid app ti tn to bt st]. unfold encoding in *.
  cbn [XID ApplicationID TransactionID TransactionName Timeout BeginTime Status] in *.
  rewrite !len_app, !varintField_len, !bytesField_len in Hl. change (len (@nil Z)) with 0 in Hl.
  apply (decodes_bytesField _ (fun s => set_XID (string_of s)) l); [field_sizes | unfold field; decode_string 1 | done|].
  apply (decodes_bytesField _ (fun s => set_ApplicationID (string_of s)) l); [field_sizes | unfold field; decode_string 2 | done|].
  apply (decodes_varintField _ i64 set_TransactionID); [unfold field; decode_varint 3 | by apply i64_u64 | done|].
  apply (decodes_bytesField _ (fun s => set_TransactionName (string_of s)) l); [field_sizes | unfold field; decode_string 4 | done|].
  apply (decodes_varintField _ i32 set_Timeout); [unfold field; decode_varint 5 | by apply i32_u64 | done|].
  apply (decodes_varintField _ i64 set_BeginTime); [unfold field; decode_varint 6 | by apply i64_u64 | done|].
  apply (decodes_varintField _ i32 set_Status); [unfold field; decode_varint 7 | by apply i32_u64 | done|].
  cbn. rewrite !string_of_bytes_of. constructor.
Qed.
End GlobalSessionCodec.

Module BranchSessionCodec.
Import BranchSession.

Definition encoding (m : t) : bytes :=
  bytesField 10 (bytes_of (BranchID m)) ++ bytesField 18 (bytes_of (ApplicationID m)) ++
  varintField 24 (BranchSessionID m) ++ bytesField 34 (bytes_of (XID m)) ++
  varintField 40 (TransactionID m) ++ bytesField 50 (bytes_of (ResourceID m)) ++
  bytesField 58 (bytes_of (LockKey m)) ++ varintField 64 (Type_ m) ++ varintField 72 (Status m) ++
  bytesField 82 (ApplicationData m) ++ varintField 88 (BeginTime m) ++ [].

Lemma bs_encoding_len m : len (encoding m) = Size m.
Proof. unfold encoding, Size. field_sizes. Qed.

Lemma bs_MarshalToSizedBuffer_encoding m : MarshalToSizedBuffer (Size m) m = Ok (encoding m).
Proof.
  unfold MarshalToSizedBuffer, encoding.
  assert (Hs : Size m = Size m) by done. unfold Size in Hs at 2.
  generalize dependent (Size m). intros size Hs.
  do 11 (first [rewrite putVarint_app by field_sizes | rewrite putBytes_app by field_sizes];
    rewrite ?Ok_bind).
  reflexivity.
Qed.

Lemma bs_Marshal_encoding m : Marshal m = Ok (encoding m).
Proof.
  unfold Marshal. rewrite bs_MarshalToSizedBuffer_encoding, Ok_bind.
  by rewrite Marshal_take by apply bs_encoding_len.
Qed.

Lemma bs_Unmarshal_encoding m : wf m -> Size m < two63 -> Unmarshal (encoding m) zero = Ok m.
Proof.
  intros (Hbi & Hti & Hty & Hst & Hbt & _) H63. unfold Unmarshal. eapply decodes_loop; [|lia].
  set (l := len (encoding m)).
  assert (Hl : len (encoding m) <= l) by lia. assert (Hl63 : l < two63) by (unfold l; rewrite bs_encoding_len; lia).
  clearbody l. destruct m as [bid app bsi xid ti rid lk ty st ad bt]. unfold encoding in *.
  cbn [BranchID ApplicationID BranchSessionID XID TransactionID ResourceID LockKey Type_ Status ApplicationData BeginTime] in *.
  rewrite !len_app, !varintField_len, !bytesField_len in Hl. change (len (@nil Z)) with 0 in Hl.
  apply (decodes_bytesField _ (fun s => set_BranchID (string_of s)) l); [field_sizes | unfold field; decode_string 1 | done|].
  apply (decodes_bytesField _ (fun s => set_ApplicationID (string_of s)) l); [field_sizes | unfold field; decode_string 2 | done|].
  apply (decodes_varintField _ i64 set_BranchSessionID); [unfold field; decode_varint 3 | by apply i64_u64 | done|].
  apply (decodes_bytesField _ (fun s => set_XID (string_of s)) l); [field_sizes | unfold field; decode_string 4 | done|].
  apply (decodes_varintField _ i64 set_TransactionID); [unfold field; decode_varint 5 | by apply i64_u64 | done|].
  apply (decodes_bytesField _ (fun s => set_ResourceID (string_of s)) l); [field_sizes | unfold field, field_rest; decode_string 6 | done|].
  apply (decodes_bytesField _ (fun s => set_LockKey (string_of s)) l); [field_sizes | unfold field, field_rest; decode_string 7 | done|].
  apply (decodes_varintField _ i32 set_Type); [unfold field, field_rest; decode_varint 8 | by apply i32_u64 | done|].
  apply (decodes_varintField _ i32 set_Status); [unfold field, field_rest; decode_varint 9 | by apply i32_u64 | done|].
  apply (decodes_bytesField _ set_ApplicationData l); [field_sizes | unfold field, field_rest; decode_bytes 10 | done|].
  apply (decodes_varintField _ i64 set_BeginTime); [unfold field, field_rest; decode_varint 11 | by apply i64_u64 | done|].
  cbn. rewrite !string_of_bytes_of. constructor.
Qed.
End BranchSessionCodec.

(** ** The encoded bytes are bytes, so they survive as an etcd value *)
Lemma varintField_bytes tag v : is_byte tag -> Forall is_byte (varintField tag v).
Proof.
  intros Ht. unfold varintField. destruct (v =? 0); constructor; [done|].
  apply varint_bytes. auto with dbpack.
Qed.

Lemma bytesField_bytes tag s : is_byte tag -> Forall is_byte s -> Forall is_byte (bytesField tag s).
Proof.
  intros Ht Hs. unfold bytesField. destruct (len s >? 0); constructor; [done|].
  apply Forall_app. split; [apply varint_bytes; auto with dbpack | done].
Qed.

Ltac byte_fields :=
  repeat match goal with
  | |- Forall is_byte (_ ++ _) => apply Forall_app; split
  | |- Forall is_byte (varintField _ _) => apply varintField_bytes
  | |- Forall is_byte (bytesField _ _) => apply bytesField_bytes
  | |- Forall is_byte (bytes_of _) => apply bytes_of_bytes
  | |- Forall is_byte [] => constructor
  | |- is_byte _ => unfold is_byte; lia
  end.

Lemma GlobalSession_encoding_bytes m : Forall is_byte (GlobalSessionCodec.encoding m).
Proof. unfold GlobalSessionCodec.encoding. byte_fields. Qed.

Lemma BranchSession_encoding_bytes m :
  BranchSession.wf m -> Forall is_byte (BranchSessionCodec.encoding m).
Proof. intros (_ & _ & _ & _ & _ & Ha). unfold BranchSessionCodec.encoding. byte_fields. done. Qed.

(** ** Progress: every field consumes at least one byte *)
Lemma varintAt_shorter w rest : forall shift acc v r,
  varintAt w rest shift acc = Ok (v, r) -> (length r < length rest)%nat.
Proof.
  induction rest as [|b rest IH]; intros shift acc v r; cbn; destruct (shift >=? 64); try done.
  destruct (b <? 128); [by intros [= _ <-]; lia|]. intros H%IH. lia.
Qed.

Lemma sliceField_shorter l n rest s r : sliceField l n rest = Ok (s, r) -> (length r <= length rest)%nat.
Proof.
  unfold sliceField. repeat (destruct (_ <? _); [done|]). destruct (_ >? _); [done|].
  destruct (slice _ _ _); [|done|done]. intros [= _ <-]. rewrite length_drop. lia.
Qed.

Lemma getString_shorter l rest s r : getString l rest = Ok (s, r) -> (length r < length rest)%nat.
Proof.
  unfold getString, getVarint. destruct (varintAt u64 rest 0 0) as [[n r1]| |] eqn:E; cbn; try done.
  intros H%sliceField_shorter. apply varintAt_shorter in E. lia.
Qed.

Lemma getBytes_shorter l rest s r : getBytes l rest = Ok (s, r) -> (length r < length rest)%nat.
Proof.
  unfold getBytes, getVarint. destruct (varintAt i64 rest 0 0) as [[n r1]| |] eqn:E; cbn; try done.
  intros H%sliceField_shorter. apply varintAt_shorter in E. lia.
Qed.

Lemma getTag_shorter name pre n wt r : getTag name pre = Ok (n, wt, r) -> (length r < length pre)%nat.
Proof.
  unfold getTag, getVarint. destruct (varintAt u64 pre 0 0) as [[w r1]| |] eqn:E; cbn; try done.
  destruct (_ =? 4); [done|]. destruct (_ <=? 0); [done|]. intros [= _ _ <-].
  by apply varintAt_shorter in E.
Qed.

Lemma skipVarint_shorter rest : forall shift r, skipVarint rest shift = Ok r -> (length r < length rest)%nat.
Proof.
  induction rest as [|b rest IH]; intros shift r; cbn; destruct (shift >=? 64); try done.
  destruct (b <? 128); [by intros [= <-]; lia|]. intros H%IH. lia.
Qed.

Lemma varintAt_i64_range rest : forall shift acc v r, in_i64 acc ->
  varintAt i64 rest shift acc = Ok (v, r) -> in_i64 v.
Proof.
  assert (Hlor : forall a b, in_i64 a -> in_i64 b -> in_i64 (Z.lor a b)).
  { intros a b Ha Hb. rewrite <- (i64_id a), <- (i64_id b), <- width_lor by done. apply i64_range. }
  induction rest as [|b rest IH]; intros shift acc v r Ha; cbn; destruct (shift >=? 64); try done.
  destruct (b <? 128); [intros [= <- _]; auto using i64_range|]. apply IH. auto using i64_range.
Qed.

Lemma getVarint_i64_range rest v r : getVarint i64 rest = Ok (v, r) -> in_i64 v.
Proof. apply varintAt_i64_range. unfold_width. lia. Qed.

(** A turn goes forward, unless its index has wrapped around. *)
Lemma skipTurn_forward d i depth i' d' :
  len d < two63 -> 0 <= i < len d -> skipTurn d i depth = Ok (i', d') -> 0 <= i' -> i < i'.
Proof.
  intros Hd Hi. unfold skipTurn.
  destruct (getVarint u64 (drop (Z.to_nat i) d)) as [[wire rest]| |] eqn:E; [|done|done]. cbn [mbind res_bind].
  apply varintAt_shorter in E. rewrite length_drop in E.
  assert (Hr : i < len d - len rest) by (unfold len in *; lia).
  destruct (Z.land wire 7) as [|[[p|p|]|[p|p|]|]|]; try done; try (intros [= <- <-] _; lia).
  - destruct (skipVarint rest 0) as [r| |] eqn:Es; cbn; try done. intros [= <- <-] _.
    apply skipVarint_shorter in Es. unfold len in *. lia.
  - destruct p; try done. intros [= <- <-] _. lia.
  - destruct p; try done. destruct (depth =? 0); [done|]. intros [= <- <-] _. lia.
  - destruct (getVarint i64 rest) as [[n' r]| |] eqn:En; cbn; try done.
    pose proof (getVarint_i64_range _ _ _ En) as Hn.
    apply varintAt_shorter in En. destruct (Z.ltb_spec n' 0); [done|]. intros [= <- <-] Hpos.
    unfold len in *. unfold_width. Z.to_euclidean_division_equations. lia.
Qed.

Lemma skipLoop_forward fuel d : len d < two63 -> forall i depth n,
  0 <= i -> skipLoop fuel d i depth = Ok n -> i < n.
Proof.
  intros Hd. induction fuel as [|f IH]; intros i depth n Hi; cbn [skipLoop];
    (destruct (Z.ltb_spec i (len d)) as [Hlt|]; [|done]); [done|].
  destruct (skipTurn d i depth) as [[i' d']| |] eqn:E; [|done|done]. cbn [mbind res_bind].
  destruct (Z.ltb_spec i' 0) as [|Hi']; [done|]. apply skipTurn_forward in E; [|done|lia|lia].
  destruct (d' =? 0); [by intros [= <-]|]. intros H%IH; lia.
Qed.

Lemma skipField_shorter l pre r : len pre < two63 -> pre <> [] ->
  skipField l pre = Ok r -> (length r < length pre)%nat.
Proof.
  intros H63 Hne. unfold skipField, skipApi.
  destruct (skipLoop _ pre 0 0) as [n| |] eqn:E; cbn; try done.
  apply skipLoop_forward in E; [|done|lia]. destruct (_ || _); [done|]. destruct (_ >? _); [done|].
  intros [= <-]. rewrite length_drop. destruct pre; [done|]. cbn. lia.
Qed.

(** ** Results other than a panic or exhausted fuel *)
Definition clean {A} (r : res A) : Prop :=
  match r with Ok _ => True | Err e => e <> out_of_fuel | Panic => False end.

Lemma clean_bind {A B} (m : res A) (f : A -> res B) :
  clean m -> (forall a, m = Ok a -> clean (f a)) -> clean (m ≫= f).
Proof. destruct m; cbn; eauto. Qed.

Lemma clean_total {A} (r : res A) : clean r -> r <> Panic /\ r <> Err out_of_fuel.
Proof. destruct r as [a|e|]; intros Hc; split; try done. intros [= ->]. by apply Hc. Qed.

Lemma varintAt_clean w rest : forall shift acc, clean (varintAt w rest shift acc).
Proof.
  induction rest as [|b rest IH]; intros shift acc; cbn; destruct (shift >=? 64); try done.
  destruct (b <? 128); [done | apply IH].
Qed.

Lemma skipVarint_clean rest : forall shift, clean (skipVarint rest shift).
Proof.
  induction rest as [|b rest IH]; intros shift; cbn; destruct (shift >=? 64); try done.
  destruct (b <? 128); [done | apply IH].
Qed.

(** The checks on the length keep the slice within the data. *)
Lemma sliceField_clean l n rest :
  len rest <= l -> l < two63 -> n < two63 -> clean (sliceField l n rest).
Proof.
  intros Hl H63 Hn. unfold sliceField. pose proof (len_nonneg rest).
  destruct (Z.ltb_spec n 0); [done|]. destruct (Z.ltb_spec (i64 (l - len rest + n)) 0) as [|Hp]; [done|].
  rewrite Z.gtb_ltb. destruct (Z.ltb_spec l (i64 (l - len rest + n))) as [|Hq]; [done|].
  assert (Hi : i64 (l - len rest + n) = l - len rest + n).
  { unfold_width. Z.to_euclidean_division_equations. lia. }
  rewrite Hi in *. unfold slice.
  rewrite Z.leb_refl, (proj2 (Z.leb_le 0 (l - len rest + n - (l - len rest)))),
    (proj2 (Z.leb_le (l - len rest + n - (l - len rest)) (len rest))) by lia.
  done.
Qed.

Lemma getVarint_clean w rest : clean (getVarint w rest).
Proof. apply varintAt_clean. Qed.

Lemma getVarint_shorter w rest v r : getVarint w rest = Ok (v, r) -> (length r < length rest)%nat.
Proof. apply varintAt_shorter. Qed.

Lemma getString_clean l rest : len rest <= l -> l < two63 -> clean (getString l rest).
Proof.
  intros Hl H63. unfold getString. apply clean_bind; [apply varintAt_clean|]. intros [n r] E%getVarint_shorter.
  apply sliceField_clean; [unfold len in *; lia | done | pose proof (i64_range n); unfold_width; lia].
Qed.

Lemma getBytes_clean l rest : len rest <= l -> l < two63 -> clean (getBytes l rest).
Proof.
  intros Hl H63. unfold getBytes. apply clean_bind; [apply varintAt_clean|]. intros [n r] E.
  pose proof (getVarint_i64_range _ _ _ E). apply getVarint_shorter in E.
  apply sliceField_clean; [unfold len in *; lia | done | unfold_width; lia].
Qed.

Lemma getTag_clean name pre : clean (getTag name pre).
Proof.
  apply clean_bind; [apply varintAt_clean|]. intros [wire rest] _. cbv beta iota zeta.
  destruct (_ =? 4); [done|]. by destruct (_ <=? 0).
Qed.

Lemma skipTurn_clean d i depth : clean (skipTurn d i depth).
Proof.
  apply clean_bind; [apply varintAt_clean|]. intros [wire rest] _. cbv beta iota zeta.
  destruct (Z.land wire 7) as [|[[p|p|]|[p|p|]|]|]; try done.
  - apply clean_bind; [apply skipVarint_clean | done].
  - by destruct p.
  - destruct p; try done. by destruct (depth =? 0).
  - apply clean_bind; [apply varintAt_clean|]. intros [n r] _. by destruct (n <? 0).
Qed.

Lemma skipLoop_clean fuel d : len d < two63 -> forall i depth,
  0 <= i -> len d - i <= Z.of_nat fuel -> clean (skipLoop fuel d i depth).
Proof.
  intros Hd. induction fuel as [|f IH]; intros i depth Hi Hf; cbn [skipLoop];
    (destruct (Z.ltb_spec i (len d)) as [Hlt|]; [|done]); [lia|].
  apply clean_bind; [apply skipTurn_clean|]. intros [i' d'] E.
  destruct (Z.ltb_spec i' 0); [done|]. apply skipTurn_forward in E; [|done|lia|lia].
  destruct (d' =? 0); [done|]. apply IH; lia.
Qed.

Lemma skipField_clean l pre : len pre < two63 -> clean (skipField l pre).
Proof.
  intros Hd. apply clean_bind; [apply skipLoop_clean; [done | lia | unfold len; lia]|]. intros n _. cbv beta zeta.
  destruct (_ || _); [done|]. by destruct (_ >? _).
Qed.

(** One field: clean, and shorter data on success. *)
Definition good_result {M} (pre : bytes) (f : res (M * bytes)) : Prop :=
  clean f /\ forall m' r, f = Ok (m', r) -> (length r < length pre)%nat.

Definition good_field {M} (bound : Z) (field : M -> bytes -> res (M * bytes)) : Prop :=
  forall m pre, pre <> [] -> len pre <= bound -> good_result pre (field m pre).

Lemma fieldLoop_clean {M} bound (field : M -> bytes -> res (M * bytes)) :
  good_field bound field -> forall fuel m rest, (length rest <= fuel)%nat -> len rest <= bound ->
  clean (fieldLoop field fuel m rest).
Proof.
  intros Hg. induction fuel as [|f IH]; intros m rest Hf Hb;
    [destruct rest; [done | cbn in Hf; lia]|].
  destruct rest as [|b rest]; [done|]. cbn [fieldLoop].
  destruct (Hg m (b :: rest) ltac:(done) Hb) as [Hc Hs]. apply clean_bind; [done|].
  intros [m' r] E. specialize (Hs _ _ E). apply IH; [lia|]. unfold len in *. lia.
Qed.

(** A value read by a clean reader that shortens the data, then stored. *)
Lemma store_good {A M} (rd : res (A * bytes)) (k : A * bytes -> res (M * bytes)) want wt name (pre rest : bytes) :
  clean rd -> (forall v r, rd = Ok (v, r) -> (length r < length rest)%nat) -> (length rest < length pre)%nat ->
  (forall v r, exists m, k (v, r) = Ok (m, r)) ->
  good_result pre (expect want wt name (rd ≫= k)).
Proof.
  intros Hc Hs Hl Hk. unfold good_result, expect. destruct (wt =? want); [|done].
  destruct rd as [[v r]| |]; cbn; try done. destruct (Hk v r) as [m ->]. split; [done|].
  intros m' r' [= _ <-]. specialize (Hs v r eq_refl). lia.
Qed.

Lemma skip_good {M} (m : M) l pre : pre <> [] -> len pre < two63 ->
  good_result pre (r ← skipField l pre; Ok (m, r)).
Proof.
  intros Hne H63. split; [apply clean_bind; [by apply skipField_clean | done]|].
  destruct (skipField l pre) as [r| |] eqn:E; cbn; try done. intros m' r' [= _ <-].
  by apply skipField_shorter in E.
Qed.

Ltac store_field :=
  first
  [ eapply store_good;
    [ first [apply getVarint_clean | apply getString_clean; unfold len in *; lia | apply getBytes_clean; unfold len in *; lia]
    | first [apply getVarint_shorter | apply getString_shorter | apply getBytes_shorter]
    | assumption | intros; eexists; reflexivity]
  | apply skip_good; [assumption | lia] ].

Lemma GlobalSession_good l : l < two63 -> good_field l (GlobalSession.field l).
Proof.
  intros H63 m pre Hne Hb. unfold GlobalSession.field.
  pose proof (getTag_clean "GlobalSession" pre) as Hc.
  destruct (getTag "GlobalSession" pre) as [[[n wt] rest]| |] eqn:E; cbn [mbind res_bind]; [|done|done].
  apply getTag_shorter in E.
  destruct n as [|[[[p|p|]|[p|p|]|]|[[p|p|]|[p|p|]|]|]|]; store_field.
Qed.

Lemma BranchSession_good l : l < two63 -> good_field l (BranchSession.field l).
Proof.
  intros H63 m pre Hne Hb. unfold BranchSession.field, BranchSession.field_rest.
  pose proof (getTag_clean "BranchSession" pre) as Hc.
  destruct (getTag "BranchSession" pre) as [[[n wt] rest]| |] eqn:E; cbn [mbind res_bind]; [|done|done].
  apply getTag_shorter in E.
  destruct n as [|[[[[p|p|]|[p|p|]|]|[[p|p|]|[p|p|]|]|]|[[[p|p|]|[p|p|]|]|[[p|p|]|[p|p|]|]|]|]|]; store_field.
Qed.

(** ** The interface the session store relies on

    Sessions are stored as etcd values: [Marshal] yields a string from which
    [Unmarshal] recovers the session. *)
Class Codec (M : Type) := {
  codec_wf : M -> Prop;
  marshal : M -> res string;
  unmarshal : string -> res M;
  codec_roundtrip : forall m, codec_wf m -> exists s, marshal m = Ok s /\ unmarshal s = Ok m }.

Definition GlobalSession_marshal (m : GlobalSession.t) : res string :=
  b ← GlobalSession.Marshal m; Ok (string_of b).
Definition GlobalSession_unmarshal (s : string) : res GlobalSession.t :=
  GlobalSession.Unmarshal (bytes_of s) GlobalSession.zero.

Definition BranchSession_marshal (m : BranchSession.t) : res string :=
  b ← BranchSession.Marshal m; Ok (string_of b).
Definition BranchSession_unmarshal (s : string) : res BranchSession.t :=
  BranchSession.Unmarshal (bytes_of s) BranchSession.zero.

Lemma GlobalSession_codec m : GlobalSession.wf m /\ GlobalSession.Size m < two63 ->
  exists s, GlobalSession_marshal m = Ok s /\ GlobalSession_unmarshal s = Ok m.
Proof.
  intros [Hwf Hs]. unfold GlobalSession_marshal, GlobalSession_unmarshal.
  rewrite GlobalSessionCodec.gs_Marshal_encoding. eexists. split; [reflexivity|].
  rewrite bytes_of_string_of by apply GlobalSession_encoding_bytes.
  by apply GlobalSessionCodec.gs_Unmarshal_encoding.
Qed.

Lemma BranchSession_codec m : BranchSession.wf m /\ BranchSession.Size m < two63 ->
  exists s, BranchSession_marshal m = Ok s /\ BranchSession_unmarshal s = Ok m.
Proof.
  intros [Hwf Hs]. unfold BranchSession_marshal, BranchSession_unmarshal.
  rewrite BranchSessionCodec.bs_Marshal_encoding. eexists. split; [reflexivity|].
  rewrite bytes_of_string_of by by apply BranchSession_encoding_bytes.
  by apply BranchSessionCodec.bs_Unmarshal_encoding.
Qed.

#[export] Instance GlobalSession_Codec : Codec GlobalSession.t := {
  codec_wf m := GlobalSession.wf m /\ GlobalSession.Size m < two63;
  marshal := GlobalSession_marshal;
  unmarshal := GlobalSession_unmarshal;
  codec_roundtrip := GlobalSession_codec }.

#[export] Instance BranchSession_Codec : Codec BranchSession.t := {
  codec_wf m := BranchSession.wf m /\ BranchSession.Size m < two63;
  marshal := BranchSession_marshal;
  unmarshal := BranchSession_unmarshal;
  codec_roundtrip := BranchSession_codec }.

(** ** Claims *)

(** [Unmarshal] of what [Marshal] wrote restores every global session whose
    fields fit their Go types and whose encoding fits an int, and [Marshal]
    fills its buffer of [Size] bytes exactly. *)
Theorem GlobalSession_roundtrip m :
  GlobalSession.wf m -> GlobalSession.Size m < two63 ->
  exists b, GlobalSession.Marshal m = Ok b /\ len b = GlobalSession.Size m /\
    GlobalSession.Unmarshal b GlobalSession.zero = Ok m.
Proof.
  intros Hwf Hs. exists (GlobalSessionCodec.encoding m).
  split; [apply GlobalSessionCodec.gs_Marshal_encoding|].
  split; [apply GlobalSessionCodec.gs_encoding_len | by apply GlobalSessionCodec.gs_Unmarshal_encoding].
Qed.

Lemma GlobalSession_roundtrip_witness :
  exists b, GlobalSession.Marshal sample_gs = Ok b /\ len b = GlobalSession.Size sample_gs /\
    GlobalSession.Unmarshal b GlobalSession.zero = Ok sample_gs.
Proof.
  apply (GlobalSession_roundtrip sample_gs); [|vm_compute; reflexivity].
  repeat split; vm_compute; first [reflexivity | discriminate].
Defined.

Definition sample_bs : BranchSession.t :=
  BranchSession.mk "bs/aggregation/91" "aggregation" 91 "gs/aggregation/8777" 8777 "employees"
    "so_master:1,2;so_item:7" AT Registered [1; 200] (-5).

(** [Unmarshal] of what [Marshal] wrote restores every branch session whose
    fields fit their Go types and whose encoding fits an int, and [Marshal]
    fills its buffer of [Size] bytes exactly. *)
Theorem BranchSession_roundtrip m :
  BranchSession.wf m -> BranchSession.Size m < two63 ->
  exists b, BranchSession.Marshal m = Ok b /\ len b = BranchSession.Size m /\
    BranchSession.Unmarshal b BranchSession.zero = Ok m.
Proof.
  intros Hwf Hs. exists (BranchSessionCodec.encoding m).
  split; [apply BranchSessionCodec.bs_Marshal_encoding|].
  split; [apply BranchSessionCodec.bs_encoding_len | by apply BranchSessionCodec.bs_Unmarshal_encoding].
Qed.

Lemma BranchSession_roundtrip_witness :
  exists b, BranchSession.Marshal sample_bs = Ok b /\ len b = BranchSession.Size sample_bs /\
    BranchSession.Unmarshal b BranchSession.zero = Ok sample_bs.
Proof.
  apply (BranchSession_roundtrip sample_bs); [|vm_compute; reflexivity].
  repeat split; try (vm_compute; first [reflexivity | discriminate]).
  repeat constructor; vm_compute; discriminate.
Defined.

(** The checks of the decoder are what keeps its slice in range: without
    [postIndex > l] the slice of a length beyond the data panics. *)
Example slice_beyond_panics : slice [1; 2] 0 5 = Panic /\ sliceField 2 5 [1; 2] = Err ErrUnexpectedEOF.
Proof. split; reflexivity. Qed.

(** C30: On every input shorter than 2^63 bytes, [Unmarshal] of both sessions
    ends with a session or one of the errors of the decoder.  It never panics:
    the slice [dAtA[iNdEx:postIndex]] of a string or bytes field panics out of
    range, and the checks before it, a length that wraps around included, keep
    it in range.  It never runs out of turns: the loop over the fields and the
    loop of [skipApi] over nested groups both end within as many turns as
    there are bytes ([out_of_fuel] is the result of neither). *)
Theorem Unmarshal_total (dAtA : bytes) gs bs :
  len dAtA < two63 ->
  (GlobalSession.Unmarshal dAtA gs <> Panic /\ GlobalSession.Unmarshal dAtA gs <> Err out_of_fuel) /\
  (BranchSession.Unmarshal dAtA bs <> Panic /\ BranchSession.Unmarshal dAtA bs <> Err out_of_fuel).
Proof.
  intros H63. split; apply clean_total; (eapply fieldLoop_clean; [first [by apply GlobalSession_good | by apply BranchSession_good] | lia | lia]).
Qed.

Lemma Unmarshal_total_witness :
  (GlobalSession.Unmarshal [10; 255; 255] sample_gs <> Panic /\
   GlobalSession.Unmarshal [10; 255; 255] sample_gs <> Err out_of_fuel) /\
  (BranchSession.Unmarshal [10; 255; 255] sample_bs <> Panic /\
   BranchSession.Unmarshal [10; 255; 255] sample_bs <> Err out_of_fuel).
Proof. apply (Unmarshal_total [10; 255; 255]). vm_compute. reflexivity. Defined.
