(* ===== verification/Etcd.v ===== *)
(** * The etcd client interface and programs over it

    etcd is not part of the repository.  [request] and [response] are the
    client calls the session store makes, [exec] the documented effect of one
    call on a revision of the key space, and [EtcdServer] the promise of a
    server: a call takes effect once on the newest revision, or fails (with
    its effect applied or not); a serializable read may be answered from an
    older revision.  A store operation is a [prog], a tree of calls with their
    continuations; [run] executes it alone and [interleaved] with arbitrary
    calls of other clients between its own. *)
From Stdlib Require Import ZArith Lia List.
From stdpp Require Import base gmap strings list sorting.
From S2P Require Import Prelude GoText.

Local Open Scope Z_scope.

Record KV := mkKV { Value : string; ModRevision : Z }.

(** The key space at one revision. *)
Record snapshot := mkSnap { kvs : gmap string KV; Revision : Z }.

Inductive cmp := ModRevisionIs (key : string) (rev : Z).

Inductive op :=
| OpPut (key value : string)
| OpDelete (key : string).

(** Reads carry [WithSerializable], deletes [WithPrevKV]. *)
Inductive request :=
| Get (key : string)
| GetPrefix (prefix : string)
| Put (key value : string)
| Delete (key : string)
| DeletePrefix (prefix : string)
| Txn (comparisons : list cmp) (ops : list op).

Inductive response :=
| RKvs (pairs : list (string * KV)) (rev : Z)
| RDone
| RTxn (succeeded : bool)
| RErr (msg : string).

(** ** Effect of a call *)
Definition key_le (a b : string * KV) : Prop := str_less (fst b) (fst a) = false.
#[export] Instance key_le_dec : RelDecision key_le.
Proof. intros a b. unfold key_le. apply _. Defined.

(** The pairs under a prefix, in key order. *)
Definition rangeOf (s : snapshot) (p : string) : list (string * KV) :=
  merge_sort key_le (filter (fun kv => HasPrefix (fst kv) p = true) (map_to_list (kvs s))).

Definition pairOf (s : snapshot) (k : string) : list (string * KV) :=
  match kvs s !! k with Some kv => [(k, kv)] | None => [] end.

Definition modOf (s : snapshot) (k : string) : Z :=
  match kvs s !! k with Some kv => ModRevision kv | None => 0 end.

Definition cmp_ok (s : snapshot) (c : cmp) : bool :=
  match c with ModRevisionIs k rev => modOf s k =? rev end.

Definition apply_op (rev : Z) (m : gmap string KV) (o : op) : gmap string KV :=
  match o with
  | OpPut k v => <[k := mkKV v rev]> m
  | OpDelete k => delete k m
  end.

(** A write makes a new revision when it changes something. *)
Definition writes (s : snapshot) (o : op) : bool :=
  match o with OpPut _ _ => true | OpDelete k => bool_decide (is_Some (kvs s !! k)) end.

Definition apply_ops (s : snapshot) (ops : list op) : snapshot :=
  if existsb (writes s) ops
  then mkSnap (fold_left (apply_op (Revision s + 1)) ops (kvs s)) (Revision s + 1)
  else s.

Definition puts (ops : list op) : list string :=
  omap (fun o => match o with OpPut k _ => Some k | _ => None end) ops.
Definition deletes (ops : list op) : list string :=
  omap (fun o => match o with OpDelete k => Some k | _ => None end) ops.

(** etcd refuses a transaction that writes a key twice. *)
Definition txn_ok (ops : list op) : bool :=
  bool_decide (NoDup (puts ops)) &&
  forallb (fun k => bool_decide (k ∉ deletes ops)) (puts ops).

Definition ErrDuplicateKey : string := "etcdserver: duplicate key given in txn request".

Definition exec (r : request) (s : snapshot) : response * snapshot :=
  match r with
  | Get k => (RKvs (pairOf s k) (Revision s), s)
  | GetPrefix p => (RKvs (rangeOf s p) (Revision s), s)
  | Put k v => (RDone, apply_ops s [OpPut k v])
  | Delete k => (RKvs (pairOf s k) (Revision s), apply_ops s [OpDelete k])
  | DeletePrefix p =>
    (RKvs (rangeOf s p) (Revision s), apply_ops s (OpDelete ∘ fst <$> rangeOf s p))
  | Txn cs ops =>
    if negb (txn_ok ops) then (RErr ErrDuplicateKey, s)
    else if forallb (cmp_ok s) cs then (RTxn true, apply_ops s ops)
    else (RTxn false, s)
  end.

Definition isRead (r : request) : bool :=
  match r with Get _ | GetPrefix _ => true | _ => false end.

(** ** A server: its history, newest revision first *)
Inductive documented (h : list snapshot) : request -> response -> list snapshot -> Prop :=
| doc_read r s : isRead r = true -> In s h -> documented h r (fst (exec r s)) h
| doc_write r s rest :
    isRead r = false -> h = s :: rest -> documented h r (fst (exec r s)) (snd (exec r s) :: h)
| doc_fail r msg : documented h r (RErr msg) h
| doc_fail_applied r msg s rest :
    isRead r = false -> h = s :: rest -> documented h r (RErr msg) (snd (exec r s) :: h).

Class EtcdServer := {
  server : Type;
  history : server -> list snapshot;
  serve : request -> server -> response * server;
  serve_documented : forall r s, documented (history s) r (fst (serve r s)) (history (snd (serve r s))) }.

(** ** Programs *)
Inductive prog (A : Type) : Type :=
| Return (a : A)
| Call (r : request) (k : response -> prog A).
Arguments Return {A} a.
Arguments Call {A} r k.

Fixpoint prog_bind_def {A B} (f : A -> prog B) (p : prog A) : prog B :=
  match p with
  | Return a => f a
  | Call r k => Call r (fun x => prog_bind_def f (k x))
  end.
#[export] Instance prog_ret : MRet prog := @Return.
#[export] Instance prog_bind : MBind prog := fun A B => prog_bind_def.

(** A Go function that makes calls and returns [(A, error)], or panics. *)
Definition go (A : Type) : Type := prog (res A).

Definition go_bind {A B} (f : A -> go B) (p : go A) : go B :=
  prog_bind_def (fun r => match r with
    | Ok a => f a
    | Err e => Return (Err e)
    | Panic => Return Panic
    end) p.
Notation "'let!' x := p 'in' k" := (go_bind (fun x => k) p)
  (at level 10, x pattern, p at level 100, k at level 200).

Definition ok {A} (a : A) : go A := Return (Ok a).
Definition fail {A} (e : string) : go A := Return (Err e).
Definition lift {A} (r : res A) : go A := Return r.

(** One call whose error is returned to the caller. *)
Definition call (r : request) : go response :=
  Call r (fun x => match x with RErr e => Return (Err e) | _ => Return (Ok x) end).

(** A step whose error is handled by the caller. *)
Definition attempt {A B} (p : go A) (onErr : string -> go B) (onOk : A -> go B) : go B :=
  prog_bind_def (fun r => match r with
    | Ok a => onOk a
    | Err e => onErr e
    | Panic => Return Panic
    end) p.

(** Left-to-right loops over a slice with early return. *)
Fixpoint forEach {A B} (f : B -> A -> go B) (acc : B) (l : list A) : go B :=
  match l with
  | [] => ok acc
  | x :: l' => let! acc' := f acc x in forEach f acc' l'
  end.

(** ** Executions *)

(** Alone, on a key space whose calls take effect one after another. *)
Fixpoint runOn {A} (p : prog A) (s : snapshot) : A * snapshot :=
  match p with
  | Return a => (a, s)
  | Call r k => let '(x, s') := exec r s in runOn (k x) s'
  end.

Section server.
Context `{EtcdServer}.

(** With calls of other clients, at any point and of any kind, in between. *)
Inductive interleaved {A} : server -> prog A -> server -> A -> Prop :=
| il_return s a : interleaved s (Return a) s a
| il_other s r p s' a : interleaved (snd (serve r s)) p s' a -> interleaved s p s' a
| il_call s r k s' a :
    interleaved (snd (serve r s)) (k (fst (serve r s))) s' a -> interleaved s (Call r k) s' a.
End server.

(** Two programs under a schedule: [true] moves the first. *)
Fixpoint race {A B} (schedule : list bool) (p : prog A) (q : prog B) (s : snapshot)
  : (prog A * prog B) * snapshot :=
  match schedule with
  | [] => ((p, q), s)
  | true :: rest =>
    match p with
    | Call r k => let '(x, s') := exec r s in race rest (k x) q s'
    | Return _ => race rest p q s
    end
  | false :: rest =>
    match q with
    | Call r k => let '(x, s') := exec r s in race rest p (k x) s'
    | Return _ => race rest p q s
    end
  end.

(** ** A server in memory, as an instance of the interface *)
Inductive outcome := Normal | FailBefore | FailAfter.

Record mem := mkMem { versions : list snapshot; script : list outcome }.

Definition ErrUnavailable : string := "etcdserver: request timed out".

(** Answers from the newest revision, failing as the script says. *)
Definition mem_serve (r : request) (m : mem) : response * mem :=
  match versions m with
  | [] => (RErr ErrUnavailable, m)
  | s :: rest =>
    let '(o, script') := match script m with [] => (Normal, []) | o :: l => (o, l) end in
    let h' := if isRead r then s :: rest else snd (exec r s) :: s :: rest in
    match o with
    | Normal => (fst (exec r s), mkMem h' script')
    | FailBefore => (RErr ErrUnavailable, mkMem (s :: rest) script')
    | FailAfter => (RErr ErrUnavailable, mkMem h' script')
    end
  end.

Lemma mem_documented r m :
  documented (versions m) r (fst (mem_serve r m)) (versions (snd (mem_serve r m))).
Proof.
  unfold mem_serve. destruct m as [[|s rest] scr]; cbn; [constructor|].
  destruct scr as [|[] scr]; cbn; destruct (isRead r) eqn:E; try constructor; try done; try (by left);
    try (by eapply doc_write); by eapply doc_fail_applied.
Qed.

#[export] Instance mem_server : EtcdServer | 100 := {
  server := mem;
  history := versions;
  serve := mem_serve;
  serve_documented := mem_documented }.

(** ** Lemmas on transactions *)
Lemma fold_put_notin rev ops m k :
  k ∉ puts ops -> k ∉ deletes ops -> fold_left (apply_op rev) ops m !! k = m !! k.
Proof.
  revert m; induction ops as [|[k' v|k'] ops IH]; intros m Hp Hd; [done| |]; cbn in *.
  - apply not_elem_of_cons in Hp as [? Hp]. rewrite IH by done. by rewrite lookup_insert_ne.
  - apply not_elem_of_cons in Hd as [? Hd]. rewrite IH by done. by rewrite lookup_delete_ne.
Qed.

Lemma puts_In k v ops : In (OpPut k v) ops -> k ∈ puts ops.
Proof. intros H. unfold puts. apply list_elem_of_omap. exists (OpPut k v). by rewrite list_elem_of_In. Qed.

Lemma deletes_In k ops : In (OpDelete k) ops -> k ∈ deletes ops.
Proof. intros H. unfold deletes. apply list_elem_of_omap. exists (OpDelete k). by rewrite list_elem_of_In. Qed.

Lemma fold_put rev ops m k v :
  NoDup (puts ops) -> k ∉ deletes ops -> In (OpPut k v) ops ->
  fold_left (apply_op rev) ops m !! k = Some (mkKV v rev).
Proof.
  revert m; induction ops as [|o ops IH]; intros m Hn Hd Hin; [done|].
  destruct o as [k' v'|k']; cbn in *.
  - apply NoDup_cons in Hn as [Hk Hn]. destruct Hin as [[= -> ->]|Hin]; [|by apply IH].
    rewrite fold_put_notin by done. by rewrite lookup_insert_eq.
  - apply not_elem_of_cons in Hd as [_ Hd]. destruct Hin as [?|Hin]; [done | by apply IH].
Qed.

Lemma fold_delete rev ops m k :
  k ∉ puts ops -> In (OpDelete k) ops -> fold_left (apply_op rev) ops m !! k = None.
Proof.
  revert m; induction ops as [|o ops IH]; intros m Hp Hin; [done|].
  assert (Hkeep : forall m, k ∉ puts ops -> m !! k = None -> fold_left (apply_op rev) ops m !! k = None).
  { clear. induction ops as [|[k' v'|k'] ops IH]; intros m Hp Hm; cbn in *; [done| |].
    - apply not_elem_of_cons in Hp as [? Hp]. apply IH; [done|]. by rewrite lookup_insert_ne.
    - apply IH; [done|]. destruct (decide (k = k')) as [->|]; [apply lookup_delete_eq | by rewrite lookup_delete_ne]. }
  destruct o as [k' v'|k']; cbn in *.
  - apply not_elem_of_cons in Hp as [_ Hp]. destruct Hin as [?|Hin]; [done | by apply IH].
  - destruct Hin as [[= ->]|Hin]; [|by apply IH]. apply Hkeep; [done|]. apply lookup_delete_eq.
Qed.

Lemma txn_ok_spec ops : txn_ok ops = true -> NoDup (puts ops) /\ forall k, k ∈ puts ops -> k ∉ deletes ops.
Proof.
  unfold txn_ok. rewrite andb_true_iff, forallb_forall. intros [Hn Hd].
  apply bool_decide_eq_true in Hn. split; [done|]. intros k Hk%list_elem_of_In%Hd.
  by apply bool_decide_eq_true in Hk.
Qed.

Lemma apply_ops_put s ops k v :
  txn_ok ops = true -> In (OpPut k v) ops ->
  kvs (apply_ops s ops) !! k = Some (mkKV v (Revision s + 1)).
Proof.
  intros [Hn Hd]%txn_ok_spec Hin. unfold apply_ops.
  replace (existsb (writes s) ops) with true.
  - cbn. apply fold_put; [done | apply Hd; by eapply puts_In | done].
  - symmetry. apply existsb_exists. by exists (OpPut k v).
Qed.

Lemma apply_ops_notin s ops k :
  k ∉ puts ops -> k ∉ deletes ops -> kvs (apply_ops s ops) !! k = kvs s !! k.
Proof. intros Hp Hd. unfold apply_ops. destruct (existsb _ _); [|done]. by apply fold_put_notin. Qed.

Lemma apply_ops_delete s ops k :
  k ∉ puts ops -> In (OpDelete k) ops -> kvs (apply_ops s ops) !! k = None.
Proof.
  intros Hp Hin. unfold apply_ops. destruct (existsb (writes s) ops) eqn:E; [by apply fold_delete|].
  destruct (kvs s !! k) eqn:Ek; [|done]. exfalso.
  assert (existsb (writes s) ops = true); [|congruence].
  apply existsb_exists. exists (OpDelete k). split; [done|]. cbn. rewrite Ek. by rewrite bool_decide_true by eauto.
Qed.

(** ** Histories *)

(** Revisions only grow, and a modification revision identifies a value. *)
Record hist_ok (h : list snapshot) : Prop := {
  hist_mod : forall s k kv, In s h -> kvs s !! k = Some kv -> 0 < ModRevision kv <= Revision s;
  hist_newest : forall s rest s', h = s :: rest -> In s' h -> 0 <= Revision s' <= Revision s;
  hist_value : forall s1 s2 k a b, In s1 h -> In s2 h -> kvs s1 !! k = Some a -> kvs s2 !! k = Some b ->
    ModRevision a = ModRevision b -> a = b }.

(** A key of the next revision is unchanged or was written by it. *)
Lemma fold_kv rev ops m k kv :
  fold_left (apply_op rev) ops m !! k = Some kv -> m !! k = Some kv \/ ModRevision kv = rev.
Proof.
  revert m; induction ops as [|o ops IH]; intros m; cbn; [by left|]. intros [H|H]%IH; [|by right].
  destruct o as [k' v|k']; cbn in H.
  - destruct (decide (k = k')) as [->|].
    + rewrite lookup_insert_eq in H. injection H as <-. by right.
    + rewrite lookup_insert_ne in H by done. by left.
  - destruct (decide (k = k')) as [->|]; [by rewrite lookup_delete_eq in H|].
    rewrite lookup_delete_ne in H by done. by left.
Qed.

Lemma hist_ok_push s rest s' :
  hist_ok (s :: rest) ->
  Revision s <= Revision s' ->
  (forall k kv, kvs s' !! k = Some kv ->
    kvs s !! k = Some kv \/ Revision s' = Revision s + 1 /\ ModRevision kv = Revision s + 1) ->
  hist_ok (s' :: s :: rest).
Proof.
  intros [Hm Hn Hv] Hr Hk. constructor.
  - intros s0 k kv [<-|Hin] E; [|by eapply Hm].
    destruct (Hk k kv E) as [E'|[E' ->]].
    + specialize (Hm s k kv (or_introl eq_refl) E'). lia.
    + pose proof (Hn s rest s eq_refl (or_introl eq_refl)). lia.
  - intros s0 rest0 s1 [= <- <-] [<-|Hin].
    + pose proof (Hn s rest s eq_refl (or_introl eq_refl)). lia.
    + pose proof (Hn s rest s1 eq_refl Hin). lia.
  - assert (Hnew : forall s2 k a b, In s2 (s :: rest) -> kvs s' !! k = Some a -> kvs s2 !! k = Some b ->
      ModRevision a = ModRevision b -> a = b).
    { intros s2 k a b Hin Ea Eb E. destruct (Hk k a Ea) as [Ea'|[_ Ea']].
      - exact (Hv s s2 k a b (or_introl eq_refl) Hin Ea' Eb E).
      - specialize (Hm s2 k b Hin Eb). specialize (Hn s rest s2 eq_refl Hin). lia. }
    intros s1 s2 k a b [<-|H1] [<-|H2] Ea Eb E; [congruence | eauto | symmetry; eauto | eauto].
Qed.

Lemma apply_ops_push s rest ops : hist_ok (s :: rest) -> hist_ok (apply_ops s ops :: s :: rest).
Proof.
  intros Hok. apply hist_ok_push; [done| |]; unfold apply_ops; destruct (existsb _ _); cbn; try lia.
  - intros k kv [?|?]%fold_kv; [by left | by right].
  - by left.
Qed.

Lemma exec_push r s rest : hist_ok (s :: rest) -> hist_ok (snd (exec r s) :: s :: rest).
Proof.
  intros Hok. assert (Hsame : hist_ok (s :: s :: rest))
    by (apply hist_ok_push; [done | lia | by left]).
  destruct r as [| | | | |cs ops]; cbn [exec snd]; try done; try by apply apply_ops_push.
  destruct (negb (txn_ok ops)); [done|]. destruct (forallb (cmp_ok s) cs); [by apply apply_ops_push | done].
Qed.

Lemma documented_ok h r x h' : documented h r x h' -> hist_ok h -> hist_ok h'.
Proof. intros [| ? ? ? ? -> | | ? ? ? ? ? ->] Hok; try done; by apply exec_push. Qed.

Lemma documented_extends h r x h' : documented h r x h' -> exists l, h' = l ++ h.
Proof.
  intros []; [by exists [] | | by exists [] |]; eexists [_]; reflexivity.
Qed.

Section interleaving.
Context `{EtcdServer}.

(** Calls of other clients only. *)
Definition others (s s' : server) : Prop := rtc (fun a b => exists r, b = snd (serve r a)) s s'.

Definition grows (s s' : server) : Prop :=
  (hist_ok (history s) -> hist_ok (history s')) /\ exists l, history s' = l ++ history s.

Lemma grows_refl s : grows s s.
Proof. split; [done | by exists []]. Qed.

Lemma grows_trans s1 s2 s3 : grows s1 s2 -> grows s2 s3 -> grows s1 s3.
Proof.
  intros [H1 [l1 E1]] [H2 [l2 E2]]. split; [auto|]. exists (l2 ++ l1). by rewrite E2, E1, app_assoc.
Qed.

Lemma grows_serve r s : grows s (snd (serve r s)).
Proof.
  pose proof (serve_documented r s) as Hd. split; [by eapply documented_ok | by eapply documented_extends].
Qed.

Lemma grows_others s s' : others s s' -> grows s s'.
Proof.
  induction 1 as [|s1 s2 s3 [r ->] _ IH]; [apply grows_refl|].
  eapply grows_trans; [apply grows_serve | done].
Qed.

Lemma grows_In s s' x : grows s s' -> In x (history s) -> In x (history s').
Proof. intros [_ [l ->]] Hin. apply in_or_app. by right. Qed.

Lemma interleaved_return {A} s (a : A) s' b : interleaved s (Return a) s' b -> a = b /\ grows s s'.
Proof.
  intros Hi. remember (Return a) as p eqn:E. induction Hi as [|s r p s' b Hi IH|]; [|specialize (IH E)|done].
  - injection E as ->. split; [done | apply grows_refl].
  - destruct IH as [-> Hg]. split; [done|]. eapply grows_trans; [apply grows_serve | done].
Qed.

(** A call is served in a state other clients have led to. *)
Lemma interleaved_call {A} s r (k : response -> prog A) s' a :
  interleaved s (Call r k) s' a ->
  exists s1, others s s1 /\ interleaved (snd (serve r s1)) (k (fst (serve r s1))) s' a.
Proof.
  intros Hi. remember (Call r k) as p eqn:E. induction Hi as [|s r' p s' b Hi IH|s r' k' s' b Hi IH]; [done| |].
  - destruct (IH E) as (s1 & Ho & Hrest). exists s1. split; [|done]. eapply rtc_l; [by exists r' | done].
  - injection E as -> ->. exists s. split; [apply rtc_refl | done].
Qed.

Lemma interleaved_bind {A B} (f : A -> prog B) p s s' b :
  interleaved s (prog_bind_def f p) s' b ->
  exists s1 a, interleaved s p s1 a /\ interleaved s1 (f a) s' b.
Proof.
  revert s; induction p as [a|r k IH]; intros s Hi; cbn in Hi.
  - exists s, a. split; [constructor | done].
  - apply interleaved_call in Hi as (s1 & Ho & Hi). apply IH in Hi as (s2 & a & Hk & Hf).
    exists s2, a. split; [|done].
    clear - Ho Hk. induction Ho as [|x y z [r' ->] _ IH]; [by constructor|].
    econstructor. by apply IH.
Qed.

Lemma interleaved_grows {A} (p : prog A) s s' a : interleaved s p s' a -> grows s s'.
Proof.
  induction 1 as [|s r p s' a Hi IH|s r k s' a Hi IH]; [apply grows_refl| |];
    (eapply grows_trans; [apply grows_serve | done]).
Qed.

(** A step that succeeded, and its rest. *)
Lemma interleaved_go {A B} (f : A -> go B) (p : go A) s s' b :
  interleaved s (go_bind f p) s' (Ok b) ->
  exists s1 a, interleaved s p s1 (Ok a) /\ interleaved s1 (f a) s' (Ok b).
Proof.
  intros (s1 & [a|e|] & Hp & Hf)%interleaved_bind; [eauto | |];
    by apply interleaved_return in Hf as [[=] _].
Qed.

(** What a call that returned without error was answered from. *)
Lemma interleaved_called r s s' x :
  interleaved s (call r) s' (Ok x) ->
  exists s1 s0 rest, others s s1 /\ grows (snd (serve r s1)) s' /\ fst (exec r s0) = x /\
    (isRead r = true /\ In s0 (history s1) \/
     isRead r = false /\ history s1 = s0 :: rest /\ history (snd (serve r s1)) = snd (exec r s0) :: s0 :: rest).
Proof.
  intros (s1 & Ho & Hi)%interleaved_call. pose proof (serve_documented r s1) as Hd.
  remember (history (snd (serve r s1))) as h' eqn:Eh.
  destruct Hd as [r s0 Hr Hin | r s0 rest Hr E | r msg | r msg s0 rest Hr E].
  - exists s1, s0, []. destruct (fst (exec r s0)) eqn:Ex; apply interleaved_return in Hi as [[= <-] Hg]; eauto 10.
  - exists s1, s0, rest. rewrite E in Eh |- *.
    destruct (fst (exec r s0)) eqn:Ex; apply interleaved_return in Hi as [[= <-] Hg]; eauto 10.
  - by apply interleaved_return in Hi as [[=] _].
  - by apply interleaved_return in Hi as [[=] _].
Qed.
End interleaving.

(** ** Running alone *)
Section alone.
Context `{EtcdServer}.

Fixpoint runServer {A} (p : prog A) (s : server) : A * server :=
  match p with
  | Return a => (a, s)
  | Call r k => let '(x, s') := serve r s in runServer (k x) s'
  end.

Lemma alone {A} (p : prog A) s : interleaved s p (snd (runServer p s)) (fst (runServer p s)).
Proof.
  revert s; induction p as [a|r k IH]; intros s; cbn; [constructor|].
  constructor. destruct (serve r s) as [x s'] eqn:E. apply IH.
Qed.
End alone.

Lemma runOn_bind {A B} (f : A -> prog B) p s :
  runOn (prog_bind_def f p) s = runOn (f (fst (runOn p s))) (snd (runOn p s)).
Proof.
  revert s; induction p as [a|r k IH]; intros s; cbn; [done|]. destruct (exec r s) as [x s']. apply IH.
Qed.

Lemma runOn_go {A B} (f : A -> go B) (p : go A) s a s' :
  runOn p s = (Ok a, s') -> runOn (go_bind f p) s = runOn (f a) s'.
Proof. intros E. unfold go_bind. by rewrite runOn_bind, E. Qed.

Lemma runOn_attempt {A B} (p : go A) (g : string -> go B) (f : A -> go B) s a s' :
  runOn p s = (Ok a, s') -> runOn (attempt p g f) s = runOn (f a) s'.
Proof. intros E. unfold attempt. by rewrite runOn_bind, E. Qed.

Lemma runOn_attempt_err {A B} (p : go A) (g : string -> go B) (f : A -> go B) s e s' :
  runOn p s = (Err e, s') -> runOn (attempt p g f) s = runOn (g e) s'.
Proof. intros E. unfold attempt. by rewrite runOn_bind, E. Qed.

Lemma runOn_call r s :
  match fst (exec r s) with
  | RErr e => runOn (call r) s = (Err e, snd (exec r s))
  | x => runOn (call r) s = (Ok x, snd (exec r s))
  end.
Proof. unfold call. cbn. by destruct (exec r s) as [[] s']. Qed.

Lemma runOn_Get k s : runOn (call (Get k)) s = (Ok (RKvs (pairOf s k) (Revision s)), s).
Proof. done. Qed.

Lemma runOn_GetPrefix p s : runOn (call (GetPrefix p)) s = (Ok (RKvs (rangeOf s p) (Revision s)), s).
Proof. done. Qed.

Lemma runOn_Txn cs ops s : txn_ok ops = true ->
  runOn (call (Txn cs ops)) s =
  (Ok (RTxn (forallb (cmp_ok s) cs)), if forallb (cmp_ok s) cs then apply_ops s ops else s).
Proof.
  intros Ht. pose proof (runOn_call (Txn cs ops) s) as Hc. cbn -[runOn call] in Hc. rewrite Ht in Hc. cbn -[runOn call] in Hc.
  by destruct (forallb (cmp_ok s) cs).
Qed.

(** ** Ranges *)
Lemma rangeOf_In s p k kv :
  In (k, kv) (rangeOf s p) <-> kvs s !! k = Some kv /\ HasPrefix k p = true.
Proof.
  unfold rangeOf. rewrite <- list_elem_of_In, merge_sort_Permutation, list_elem_of_filter, elem_of_map_to_list.
  cbn. tauto.
Qed.

Lemma rangeOf_NoDup s p : NoDup (rangeOf s p).*1.
Proof.
  unfold rangeOf. rewrite merge_sort_Permutation.
  pose proof (NoDup_fst_map_to_list (kvs s)) as Hn.
  induction (map_to_list (kvs s)) as [|[k kv] l IH]; [constructor|]. cbn in Hn.
  apply NoDup_cons in Hn as [Hk Hn]. rewrite filter_cons. destruct (decide _); [|by apply IH].
  cbn. apply NoDup_cons. split; [|by apply IH]. intros Hin. apply Hk.
  apply list_elem_of_fmap in Hin as ([k' kv'] & E & Hin). apply list_elem_of_filter in Hin as [_ Hin].
  apply list_elem_of_fmap. by exists (k', kv').
Qed.

Lemma puts_app a b : puts (a ++ b) = puts a ++ puts b.
Proof. unfold puts. apply omap_app. Qed.
Lemma deletes_app a b : deletes (a ++ b) = deletes a ++ deletes b.
Proof. unfold deletes. apply omap_app. Qed.

Lemma puts_deletes_only (f : string * KV -> string) l : puts ((fun p => OpDelete (f p)) <$> l) = [].
Proof. by induction l. Qed.

Lemma txn_ok_deletes (f : string * KV -> string) l : txn_ok ((fun p => OpDelete (f p)) <$> l) = true.
Proof. unfold txn_ok. rewrite puts_deletes_only. by rewrite bool_decide_true by constructor. Qed.

(** A transaction of deletes removes exactly the keys it names. *)
Lemma apply_deletes s (f : string * KV -> string) l k :
  kvs (apply_ops s ((fun p => OpDelete (f p)) <$> l)) !! k =
    if decide (k ∈ f <$> l) then None else kvs s !! k.
Proof.
  destruct (decide (k ∈ f <$> l)) as [Hin|Hout].
  - apply apply_ops_delete; [rewrite puts_deletes_only; apply not_elem_of_nil|].
    apply list_elem_of_fmap in Hin as (p & -> & Hp). apply list_elem_of_In, list_elem_of_fmap. by exists p.
  - apply apply_ops_notin; [rewrite puts_deletes_only; apply not_elem_of_nil|].
    intros Hd. apply Hout. unfold deletes in Hd. apply list_elem_of_omap in Hd as (o & Ho & E).
    apply list_elem_of_fmap in Ho as (p & -> & Hp). injection E as <-. apply list_elem_of_fmap. by exists p.
Qed.
