(* ===== verification/Store.v ===== *)
(** * The session store (pkg/dt/storage/etcd/etcd.go, event.go) and row keys
    (pkg/misc/misc.go, pkg/misc/xid.go)

    Every method of [store] that talks to etcd is a program over the client
    interface of [Etcd]; the encoding of sessions is the interface [Codec] of
    [Session].  A method that dereferences a missing response panics. *)
From Stdlib Require Import ZArith Lia List Ascii.
From stdpp Require Import base gmap strings list.
From S2P Require Import Prelude GoText Encoding Session Etcd.

Local Open Scope Z_scope.

(** ** Transaction ids and row keys *)

(** [misc.GetTransactionID]: the number after the last slash; a parse error
    leaves what [ParseInt] returned. *)
Definition GetTransactionID (xid : string) : Z :=
  if String.eqb xid EmptyString then -1
  else
    let tail := match cut_last xid "/"%char with Some (_, t) => t | None => xid end in
    if String.eqb tail EmptyString then -1 else fst (ParseInt tail).

Definition GetRowKey (resourceID tableName pk : string) : string :=
  resourceID +:+ "^^^" +:+ tableName +:+ "^^^" +:+ pk.

(** The row keys of one table group, [None] where the source returns nil. *)
Definition groupRowKeys (resourceID group : string) : option (list string) :=
  match cut_first group ":"%char with
  | None => None
  | Some (tableName, mergedPKs) =>
    if String.eqb mergedPKs EmptyString then None
    else
      let pks := Split mergedPKs ","%char in
      Some (GetRowKey resourceID tableName <$> filter (fun pk => pk <> EmptyString) pks)
  end.

Fixpoint collectGroups (resourceID : string) (groups : list string) (locks : list string)
  : list string :=
  match groups with
  | [] => locks
  | group :: rest =>
    if String.eqb group EmptyString then collectGroups resourceID rest locks
    else
      match groupRowKeys resourceID group with
      | None => []
      | Some ks => collectGroups resourceID rest (locks ++ ks)
      end
  end.

Definition CollectRowKeys (lockKey resourceID : string) : list string :=
  collectGroups resourceID (Split lockKey ";"%char) [].

(** ** Errors *)
Definition GlobalTransactionFinished : string := "global session finished".
Definition CouldNotFoundGlobalTransaction : string := "could not found global transaction".
Definition CouldNotFoundBranchTransaction : string := "could not found branch transaction".

(** ** Keys *)
Definition LockKeyFormat (xid rowKey : string) : string := "lk/" +:+ xid +:+ "/" +:+ rowKey.
Definition BranchKeyFormat (xid : string) (id : Z) : string := "bs/" +:+ xid +:+ "/" +:+ FormatInt id.
Definition DeadBranchKeyFormat (branchID : string) : string := "dead/" +:+ branchID.
Definition DeadBranchKeyPrefix (applicationID : string) : string := "dead/bs/" +:+ applicationID.

(** The revisions remembered for the watchers. *)
Record store := mkStore { initGlobalSessionRevision : Z; initBranchSessionRevision : Z }.

Section store.
Context {GC : Codec GlobalSession.t} {BC : Codec BranchSession.t}.

(** A response of another call's kind is impossible; reading it would
    dereference a nil field. *)
Definition impossible {A} : go A := Return Panic.

Definition kvsOf (x : response) : go (list (string * KV)) :=
  match x with RKvs l _ => ok l | _ => impossible end.

Definition AddGlobalSession (gs : GlobalSession.t) : go unit :=
  let! data := lift (marshal gs) in
  let! _ := call (Put (GlobalSession.XID gs) data) in
  ok tt.

Definition getGlobalSession (xid : string) : go (GlobalSession.t * Z) :=
  let! resp := call (Get xid) in
  let! pairs := kvsOf resp in
  match pairs with
  | [] => fail CouldNotFoundGlobalTransaction
  | (_, kv) :: _ =>
    let! gs := lift (unmarshal (Value kv)) in
    ok (gs, ModRevision kv)
  end.

Definition GetGlobalSession (xid : string) : go GlobalSession.t :=
  let! (gs, _) := getGlobalSession xid in ok gs.

Definition notFound (key : string) : cmp := ModRevisionIs key 0.

(** The body of the loop of [getRowKeyValues]. *)
Definition readRow (result : gmap string string) (rowKey : string) : go (gmap string string) :=
  let! resp := call (Get rowKey) in
  let! pairs := kvsOf resp in
  match pairs with
  | [] => ok result
  | (_, kv) :: _ => ok (<[rowKey := Value kv]> result)
  end.

Definition getRowKeyValues (rowKeys : list string) : go (gmap string string) :=
  forEach readRow ∅ rowKeys.

Definition filterRowKeys (rowKeys : list string) (xid : string) : go (list string) :=
  let! rowKeyValues := getRowKeyValues rowKeys in
  ok (List.filter (fun rowKey =>
    match rowKeyValues !! rowKey with
    | Some value => negb (Contains value xid)
    | None => true
    end) rowKeys).

Definition lockOps (xid rowKey : string) : list op :=
  [OpPut (LockKeyFormat xid rowKey) rowKey; OpPut rowKey (LockKeyFormat xid rowKey)].

Definition registerFailed (bs : BranchSession.t) : string :=
  "register branch session failed, xid: " +:+ BranchSession.XID bs +:+ ", resource id: "
  +:+ BranchSession.ResourceID bs.

(** Whether the branch takes row locks. *)
Definition takesLocks (bs : BranchSession.t) : bool :=
  (BranchSession.Type_ bs =? AT) && negb (String.eqb (BranchSession.LockKey bs) EmptyString).

Definition AddBranchSession (bs : BranchSession.t) : go unit :=
  let! data := lift (marshal bs) in
  let xid := BranchSession.XID bs in
  attempt (getGlobalSession xid)
    (fun e => if String.eqb e CouldNotFoundGlobalTransaction then fail GlobalTransactionFinished
              else fail e)
    (fun '(gs, modRevision) =>
      if GlobalSession.Status gs >? Begin then fail GlobalTransactionFinished
      else
        let branchKey := BranchKeyFormat xid (BranchSession.BranchSessionID bs) in
        let! rowKeys :=
          (if takesLocks bs
           then filterRowKeys (CollectRowKeys (BranchSession.LockKey bs) (BranchSession.ResourceID bs)) xid
           else ok []) in
        let comparisons := ModRevisionIs xid modRevision :: (notFound <$> rowKeys) in
        let ops := OpPut (BranchSession.BranchID bs) data :: OpPut branchKey (BranchSession.BranchID bs)
                   :: concat (lockOps xid <$> rowKeys) in
        let! resp := call (Txn comparisons ops) in
        match resp with
        | RTxn true => ok tt
        | RTxn false => fail (registerFailed bs)
        | _ => impossible
        end).

Definition GetBranchSession (branchID : string) : go BranchSession.t :=
  let! resp := call (Get branchID) in
  let! pairs := kvsOf resp in
  match pairs with
  | [] => fail CouldNotFoundBranchTransaction
  | (_, kv) :: _ => lift (unmarshal (Value kv))
  end.

Definition GetBranchSessionKeys (xid : string) : go (list string) :=
  let! resp := call (GetPrefix ("bs/" +:+ xid)) in
  let! pairs := kvsOf resp in
  ok (rev (Value ∘ snd <$> pairs)).

Definition releaseGlobalLocks (xid : string) : go bool :=
  let! resp := call (DeletePrefix ("lk/" +:+ xid)) in
  let! pairs := kvsOf resp in
  let ops := (fun kv => OpDelete (Value (snd kv))) <$> pairs in
  match ops with
  | [] => ok true
  | _ =>
    let! resp := call (Txn [] ops) in
    match resp with RTxn b => ok b | _ => impossible end
  end.

(** [commitBranchSessions] and [rollbackBranchSessions], which differ in the
    status they set. *)
Definition phaseTwo (status : Z) (keys : list string) (ops : list op) : go (list op) :=
  forEach (fun ops key =>
    let! bs := GetBranchSession key in
    if BranchSession.Status bs =? Registered then
      let! data := lift (marshal (BranchSession.set_Status status bs)) in
      ok (ops ++ [OpPut key data])
    else ok ops) ops keys.

Definition commitBranchSessions := phaseTwo PhaseTwoCommitting.
Definition rollbackBranchSessions := phaseTwo PhaseTwoRollbacking.

(** The results of [GlobalCommit] and [GlobalRollback]: a status and the
    error, nil as [None]. *)
Definition finish (status : Z) (err : option string) : go (Z * option string) := ok (status, err).

(** From the reading of the session on, both methods run the same steps
    towards their [target]. *)
Definition endGlobal (target : Z) (branches : list string -> list op -> go (list op))
    (failed : string) (xid : string) : go (Z * option string) :=
  attempt (GetGlobalSession xid)
    (fun e => if String.eqb e CouldNotFoundGlobalTransaction
              then finish Finished (Some GlobalTransactionFinished)
              else finish Begin (Some e))
    (fun gs =>
      if GlobalSession.Status gs >? Begin then
        if GlobalSession.Status gs =? target then finish (GlobalSession.Status gs) None
        else finish (GlobalSession.Status gs) (Some GlobalTransactionFinished)
      else
        attempt (lift (marshal (GlobalSession.set_Status target gs)))
          (fun e => finish target (Some e)) (fun data =>
        attempt (GetBranchSessionKeys xid) (fun e => finish target (Some e)) (fun branchKeys =>
        attempt (branches branchKeys [OpPut xid data]) (fun e => finish target (Some e)) (fun ops =>
        attempt (call (Txn [] ops)) (fun e => finish target (Some e)) (fun resp =>
        match resp with
        | RTxn true => finish target None
        | RTxn false => finish target (Some failed)
        | _ => impossible
        end))))).

Definition GlobalCommit (xid : string) : go (Z * option string) :=
  attempt (releaseGlobalLocks xid) (fun e => finish Begin (Some e)) (fun released =>
  if released
  then endGlobal Committing commitBranchSessions ("update status to committing failed, xid " +:+ xid) xid
  else finish Begin (Some "release global lock failed"%string)).

Definition GlobalRollback (xid : string) : go (Z * option string) :=
  endGlobal Rollbacking rollbackBranchSessions ("update status to rollbacking failed, xid " +:+ xid) xid.

Definition ListGlobalSession (applicationID : string) (s : store) : go (list GlobalSession.t * store) :=
  let! resp := call (GetPrefix ("gs/" +:+ applicationID)) in
  match resp with
  | RKvs pairs rev =>
    let! l := lift (mapM_res (fun p => unmarshal (Value (snd p))) pairs) in
    ok (l, mkStore rev (initBranchSessionRevision s))
  | _ => impossible
  end.

Definition DeleteGlobalSession (xid : string) : go unit :=
  let! _ := call (Delete xid) in ok tt.

(** The sessions under a prefix, last key first. *)
Definition listBranches (prefix : string) (s : store) : go (list BranchSession.t * store) :=
  let! resp := call (GetPrefix prefix) in
  match resp with
  | RKvs pairs revision =>
    let! l := lift (mapM_res (fun p => unmarshal (Value (snd p))) (rev pairs)) in
    ok (l, mkStore (initGlobalSessionRevision s) revision)
  | _ => impossible
  end.

Definition ListBranchSession (applicationID : string) := listBranches ("bs/" +:+ applicationID).
Definition ListDeadBranchSession (applicationID : string) :=
  listBranches (DeadBranchKeyPrefix applicationID).

(** The response of a failed delete is nil and its [PrevKvs] are read before
    the error is looked at. *)
Definition DeleteBranchSession (branchID : string) : go unit :=
  attempt (call (Delete branchID)) (fun _ => Return Panic) (fun resp =>
  let! pairs := kvsOf resp in
  forEach (fun _ p =>
    let! bs := lift (unmarshal (Value (snd p))) in
    let! _ := call (Delete (BranchKeyFormat (BranchSession.XID bs) (BranchSession.BranchSessionID bs))) in
    ok tt) tt pairs).

Definition BranchReport (branchID : string) (status : Z) : go unit :=
  let! bs := GetBranchSession branchID in
  let! bs :=
    (if BranchSession.Status bs =? Registered then
      let bs := BranchSession.set_Status status bs in
      let! data := lift (marshal bs) in
      let! _ := call (Put branchID data) in
      ok bs
    else ok bs) in
  if BranchSession.Status bs =? PhaseOneFailed then DeleteBranchSession branchID else ok tt.

(** Whether all row keys pass a test of their stored value. *)
Fixpoint checkRows (free : option string -> bool) (rowKeys : list string) : go bool :=
  match rowKeys with
  | [] => ok true
  | rowKey :: rest =>
    let! resp := call (Get rowKey) in
    let! pairs := kvsOf resp in
    if free (match pairs with [] => None | (_, kv) :: _ => Some (Value kv) end)
    then checkRows free rest else ok false
  end.

Definition IsLockable (resourceID lockKey : string) : go bool :=
  checkRows (fun v => match v with None => true | Some _ => false end)
    (CollectRowKeys lockKey resourceID).

Definition IsLockableWithXID (resourceID lockKey xid : string) : go bool :=
  checkRows (fun v => match v with None => true | Some value => Contains value xid end)
    (CollectRowKeys lockKey resourceID).

Definition ReleaseLockKeys (resourceID : string) (lockKeys : list string) : go bool :=
  let! ops := forEach (fun ops rowKey =>
      let! resp := call (Delete rowKey) in
      let! pairs := kvsOf resp in
      ok (ops ++ ((fun p => OpDelete (Value (snd p))) <$> pairs))) []
    (concat ((fun lockKey => CollectRowKeys lockKey resourceID) <$> lockKeys)) in
  match ops with
  | [] => ok true
  | _ => let! _ := call (Txn [] ops) in ok true
  end.

Definition SetBranchSessionDead (bs : BranchSession.t) : go unit :=
  let! data := lift (marshal bs) in
  let ops := [OpPut (DeadBranchKeyFormat (BranchSession.BranchID bs)) data;
              OpDelete (BranchSession.BranchID bs)] in
  let! resp := call (Txn [] ops) in
  match resp with
  | RTxn true => ok tt
  | RTxn false => fail "failed to set branch session dead"
  | _ => impossible
  end.

End store.

(** ** Reads under interference *)
Section interference.
Context {GC : Codec GlobalSession.t} {BC : Codec BranchSession.t} `{EtcdServer}.

(** Some revision of the history stores [v] under [k]. *)
Definition seen (s : server) (k : string) (kv : KV) : Prop :=
  exists snap, In snap (history s) /\ kvs snap !! k = Some kv.

Lemma seen_grows s s' k kv : grows s s' -> seen s k kv -> seen s' k kv.
Proof. intros Hg (snap & Hin & E). exists snap. split; [by eapply grows_In | done]. Qed.

Lemma interleaved_get s k s' x :
  interleaved s (call (Get k)) s' (Ok x) ->
  exists snap, In snap (history s') /\ x = RKvs (pairOf snap k) (Revision snap).
Proof.
  intros (s1 & s0 & rest & Ho & Hg & Ex & [[_ Hin]|[Hr _]])%interleaved_called; [|done].
  exists s0. split; [|by rewrite <- Ex]. eapply grows_In; [|exact Hin].
  eapply grows_trans; [apply grows_serve | done].
Qed.

Lemma getGlobalSession_seen s xid s' gs rev :
  interleaved s (getGlobalSession xid) s' (Ok (gs, rev)) ->
  exists kv, seen s' xid kv /\ unmarshal (Value kv) = Ok gs /\ ModRevision kv = rev.
Proof.
  intros (s1 & x & (snap & Hin & ->)%interleaved_get & Hk)%interleaved_go.
  apply interleaved_go in Hk as (s2 & pairs & Hp & Hk). cbn in Hp.
  apply interleaved_return in Hp as [[= <-] Hg2]. unfold pairOf in Hk.
  destruct (kvs snap !! xid) as [kv|] eqn:E; [|by apply interleaved_return in Hk as [[=] _]].
  apply interleaved_go in Hk as (s3 & gs' & Hu & Hk). apply interleaved_return in Hu as [Hu Hg3].
  apply interleaved_return in Hk as [[= <- <-] Hg4]. exists kv. split; [|done].
  exists snap. split; [|done]. eapply grows_In; [|exact Hin].
  eapply grows_trans; [exact Hg2|]. by eapply grows_trans.
Qed.

(** The values collected by the reading loop were stored at some revision. *)
Lemma getRowKeyValues_seen rowKeys : forall s (m : gmap string string) s' m',
  (forall k v, m !! k = Some v -> exists kv, seen s k kv /\ Value kv = v) ->
  interleaved s (forEach readRow m rowKeys) s' (Ok m') ->
  forall k v, m' !! k = Some v -> exists kv, seen s' k kv /\ Value kv = v.
Proof.
  induction rowKeys as [|rk rowKeys IH]; intros s m s' m' Hm Hi; cbn [forEach] in Hi.
  - apply interleaved_return in Hi as [[= <-] Hg]. intros k v (kv & Hs & Hv)%Hm. eauto using seen_grows.
  - apply interleaved_go in Hi as (s1 & m1 & Hb & Hrest). revert Hrest. apply IH.
    apply interleaved_go in Hb as (s2 & x & Hget & Hb).
    assert (Hg0 := interleaved_grows _ _ _ _ Hget).
    apply interleaved_get in Hget as (snap & Hin & ->).
    apply interleaved_go in Hb as (s3 & pairs & Hp & Hb). cbn in Hp.
    apply interleaved_return in Hp as [[= <-] Hg2]. unfold pairOf in Hb.
    destruct (kvs snap !! rk) as [kv|] eqn:E; apply interleaved_return in Hb as [[= <-] Hg3];
      assert (Hg : grows s2 s1) by (by eapply grows_trans);
      assert (Hg' : grows s s1) by (by eapply grows_trans).
    + intros k v. destruct (decide (k = rk)) as [->|].
      * rewrite lookup_insert_eq. intros [= <-]. exists kv. split; [|done].
        exists snap. split; [exact (grows_In _ _ _ Hg Hin) | done].
      * rewrite lookup_insert_ne by done. intros (kv' & Hs & Hv)%Hm. eauto using seen_grows.
    + intros k v (kv' & Hs & Hv)%Hm. eauto using seen_grows.
Qed.

Lemma filterRowKeys_seen s rowKeys xid s' ks :
  interleaved s (filterRowKeys rowKeys xid) s' (Ok ks) ->
  forall rk, In rk rowKeys -> In rk ks \/ exists kv, seen s' rk kv /\ Contains (Value kv) xid = true.
Proof.
  intros (s1 & m & Hm & Hk)%interleaved_go rk Hrk.
  apply interleaved_return in Hk as [[= <-] Hg].
  assert (Hseen := getRowKeyValues_seen rowKeys s ∅ s1 m ltac:(intros k v; by rewrite lookup_empty) Hm).
  rewrite filter_In. destruct (m !! rk) as [v|] eqn:E; [|by left].
  destruct (Contains v xid) eqn:Ec; [|by left]. right.
  destruct (Hseen rk v E) as (kv & Hs & <-). eauto using seen_grows.
Qed.

(** The transaction at the end of [AddBranchSession]. *)
Definition branchTxn (bs : BranchSession.t) (data : string) (rev : Z) (rowKeys : list string) : request :=
  Txn (ModRevisionIs (BranchSession.XID bs) rev :: (notFound <$> rowKeys))
    (OpPut (BranchSession.BranchID bs) data
     :: OpPut (BranchKeyFormat (BranchSession.XID bs) (BranchSession.BranchSessionID bs)) (BranchSession.BranchID bs)
     :: concat (lockOps (BranchSession.XID bs) <$> rowKeys)).

Lemma AddBranchSession_inv s bs s' :
  interleaved s (AddBranchSession bs) s' (Ok tt) ->
  exists s0 s1 s2 gs rev data rowKeys, marshal bs = Ok data /\ grows s s0 /\
    interleaved s0 (getGlobalSession (BranchSession.XID bs)) s1 (Ok (gs, rev)) /\
    GlobalSession.Status gs <= Begin /\
    (takesLocks bs = true -> forall rk,
      In rk (CollectRowKeys (BranchSession.LockKey bs) (BranchSession.ResourceID bs)) ->
      In rk rowKeys \/ exists kv, seen s2 rk kv /\ Contains (Value kv) (BranchSession.XID bs) = true) /\
    grows s1 s2 /\
    exists s3, interleaved s2 (call (branchTxn bs data rev rowKeys)) s3 (Ok (RTxn true)) /\ grows s3 s'.
Proof.
  unfold AddBranchSession. intros (s0 & data & Hm & Hi)%interleaved_go.
  apply interleaved_return in Hm as [Hm Hg1]. unfold attempt in Hi.
  apply interleaved_bind in Hi as (s1 & [[gs rev]|e|] & Hget & Hi);
    [|destruct (String.eqb e _); by apply interleaved_return in Hi as [[=] _] | by apply interleaved_return in Hi as [[=] _]].
  destruct (GlobalSession.Status gs >? Begin) eqn:Est; [by apply interleaved_return in Hi as [[=] _]|].
  apply interleaved_go in Hi as (s2 & rowKeys & Hrk & Hi). assert (Hg3 := interleaved_grows _ _ _ _ Hrk).
  apply interleaved_go in Hi as (s3 & resp & Htxn & Hi).
  destruct resp as [| |[]|]; try (by apply interleaved_return in Hi as [[=] _]).
  apply interleaved_return in Hi as [_ Hg4].
  exists s0, s1, s2, gs, rev, data, rowKeys. zbool. split; [done|]. split; [done|]. split; [done|]. split; [lia|].
  split; [|eauto]. intros Ht. rewrite Ht in Hrk. exact (filterRowKeys_seen _ _ _ _ _ Hrk).
Qed.
Lemma exec_Txn_true cs ops s0 :
  fst (exec (Txn cs ops) s0) = RTxn true ->
  txn_ok ops = true /\ forallb (cmp_ok s0) cs = true /\ snd (exec (Txn cs ops) s0) = apply_ops s0 ops.
Proof. cbn. destruct (txn_ok ops), (forallb (cmp_ok s0) cs); cbn; done. Qed.

(** A value read at some revision is still there when its key has the same
    modification revision. *)
Lemma seen_unchanged s k kv s0 rest :
  hist_ok (history s) -> history s = s0 :: rest -> seen s k kv ->
  modOf s0 k = ModRevision kv -> kvs s0 !! k = Some kv.
Proof.
  intros Hok Eh (snap & Hin & E) Hmod. unfold modOf in Hmod.
  pose proof (hist_mod _ Hok snap k kv Hin E). destruct (kvs s0 !! k) as [kv0|] eqn:E0; [|lia].
  f_equal. apply (hist_value _ Hok s0 snap k); try done. rewrite Eh. by left.
Qed.

Lemma AddBranchSession_txn s bs s' :
  hist_ok (history s) -> interleaved s (AddBranchSession bs) s' (Ok tt) ->
  exists before l1 l2 kv gs data rowKeys ops, history s' = l1 ++ apply_ops before ops :: before :: l2 /\
    kvs before !! BranchSession.XID bs = Some kv /\ unmarshal (Value kv) = Ok gs /\
    GlobalSession.Status gs <= Begin /\ marshal bs = Ok data /\ txn_ok ops = true /\
    In (OpPut (BranchSession.BranchID bs) data) ops /\
    In (OpPut (BranchKeyFormat (BranchSession.XID bs) (BranchSession.BranchSessionID bs)) (BranchSession.BranchID bs)) ops /\
    (forall rk, In rk rowKeys -> kvs before !! rk = None /\ In (OpPut rk (LockKeyFormat (BranchSession.XID bs) rk)) ops) /\
    (takesLocks bs = true -> forall rk,
      In rk (CollectRowKeys (BranchSession.LockKey bs) (BranchSession.ResourceID bs)) ->
      In rk rowKeys \/ exists kv, seen s' rk kv /\ Contains (Value kv) (BranchSession.XID bs) = true).
Proof.
  intros Hok (s0 & s1 & s2 & gs & rev & data & rowKeys & Hm & Hg0 & Hget & Hst & Hrows & Hg2 & s3 & Htxn & Hg3)%AddBranchSession_inv.
  assert (Hg1 := interleaved_grows _ _ _ _ Hget).
  apply getGlobalSession_seen in Hget as (kv & Hseen & Hu & Hrev).
  apply interleaved_called in Htxn as (s4 & before & rest & Ho & Hg4 & Ex & [[[=] _]|(_ & Eh & Eh')]).
  assert (Hg : grows s2 s4) by (by apply grows_others).
  assert (H4 : hist_ok (history s4)).
  { apply Hg, Hg2, Hg1, Hg0, Hok. }
  unfold branchTxn in *. apply exec_Txn_true in Ex as (Htx & Hcmp & Es). rewrite Es in Eh'.
  destruct (grows_trans _ _ _ Hg4 Hg3) as [_ [l1 El]]. rewrite Eh' in El.
  cbn in Hcmp. apply andb_prop in Hcmp as [Hx Hrk]. apply Z.eqb_eq in Hx. rewrite forallb_forall in Hrk.
  assert (Hkv : kvs before !! BranchSession.XID bs = Some kv).
  { eapply (seen_unchanged s4); [done | exact Eh | | by rewrite Hrev].
    eapply seen_grows; [|exact Hseen]. by eapply grows_trans. }
  do 8 eexists. split; [exact El|]. split; [exact Hkv|]. split; [exact Hu|]. split; [exact Hst|].
  split; [exact Hm|]. split; [exact Htx|]. split; [by left|]. split; [by right; left|]. split.
  - intros rk Hin. split.
    + assert (Hz : cmp_ok before (notFound rk) = true)
        by (apply Hrk, list_elem_of_In, list_elem_of_fmap; exists rk; by rewrite list_elem_of_In).
      apply Z.eqb_eq in Hz. unfold modOf in Hz. destruct (kvs before !! rk) as [kv'|] eqn:E; [|done].
      pose proof (hist_mod _ H4 before rk kv' ltac:(rewrite Eh; by left) E). lia.
    + right; right. apply in_concat. exists (lockOps (BranchSession.XID bs) rk).
      split; [|right; by left]. apply list_elem_of_In, list_elem_of_fmap. exists rk. by rewrite list_elem_of_In.
  - intros Ht rk Hin. destruct (Hrows Ht rk Hin) as [?|(kv' & Hs & Hc)]; [by left|]. right.
    exists kv'. split; [|done]. eapply seen_grows; [|exact Hs].
    eapply grows_trans; [exact Hg|]. eapply grows_trans; [apply grows_serve|]. by eapply grows_trans.
Qed.
End interference.

(** ** Claims *)

(** C1: Whatever the other clients of etcd do while it runs, and although its
    reads may be stale and its calls may fail, a registration that reports
    success took effect at one revision at which its global session was still
    in status [Begin]; that revision stores the branch, links it to the
    transaction, and takes every row lock the branch asks for that was free,
    a row not taken having been seen with a lock value mentioning the
    transaction's own xid. *)
Theorem AddBranchSession_atomic {GC : Codec GlobalSession.t} {BC : Codec BranchSession.t}
    {E : EtcdServer} s bs s' :
  hist_ok (history s) ->
  interleaved s (AddBranchSession bs) s' (Ok tt) ->
  exists before after l1 l2, history s' = l1 ++ after :: before :: l2 /\
    (exists kv gs, kvs before !! BranchSession.XID bs = Some kv /\ unmarshal (Value kv) = Ok gs /\
       GlobalSession.Status gs <= Begin) /\
    (exists data, marshal bs = Ok data /\ Value <$> kvs after !! BranchSession.BranchID bs = Some data) /\
    Value <$> kvs after !! BranchKeyFormat (BranchSession.XID bs) (BranchSession.BranchSessionID bs)
      = Some (BranchSession.BranchID bs) /\
    (takesLocks bs = true -> forall rk,
      In rk (CollectRowKeys (BranchSession.LockKey bs) (BranchSession.ResourceID bs)) ->
      kvs before !! rk = None /\ Value <$> kvs after !! rk = Some (LockKeyFormat (BranchSession.XID bs) rk) \/
      exists kv, seen s' rk kv /\ Contains (Value kv) (BranchSession.XID bs) = true).
Proof.
  intros Hok Hi. destruct (AddBranchSession_txn s bs s' Hok Hi)
    as (before & l1 & l2 & kv & gs & data & rowKeys & ops & El & Hkv & Hu & Hst & Hm & Htx & Hb & Hk & Hrows & Hlocks).
  exists before, (apply_ops before ops), l1, l2. split; [done|]. split; [eauto|].
  split; [exists data; split; [done | by erewrite apply_ops_put by done]|].
  split; [by erewrite apply_ops_put by done|].
  intros Ht rk Hin. destruct (Hlocks Ht rk Hin) as [Hrk|?]; [left | by right].
  destruct (Hrows rk Hrk) as [? Hput]. split; [done|]. by erewrite apply_ops_put by done.
Qed.
