(* ===== verification/StoreSpec.v ===== *)
(** * What the session store's operations do

    The operations of [Store] run alone: effects of committing, rolling back,
    registering, releasing and reporting, then interleavings and key layouts
    under which the store does not keep its promises.  The client of the
    session encoding is proved against the interface [Codec]; the witnesses
    use the protobuf encoding of [Session]. *)
From Stdlib Require Import ZArith Lia List Ascii.
From stdpp Require Import base gmap strings list.
From S2P Require Import Prelude GoText Encoding Session Etcd Store.

Local Open Scope Z_scope.

Section effects.
Context {GC : Codec GlobalSession.t} {BC : Codec BranchSession.t}.

(** The session stored under a key. *)
Definition globalAt (s : snapshot) (xid : string) (gs : GlobalSession.t) : Prop :=
  exists kv, kvs s !! xid = Some kv /\ unmarshal (Value kv) = Ok gs.
Definition branchAt (s : snapshot) (bid : string) (bs : BranchSession.t) : Prop :=
  exists kv, kvs s !! bid = Some kv /\ unmarshal (Value kv) = Ok bs.

Lemma run_getGlobalSession s xid kv gs :
  kvs s !! xid = Some kv -> unmarshal (Value kv) = Ok gs ->
  runOn (getGlobalSession xid) s = (Ok (gs, ModRevision kv), s).
Proof.
  intros Ek Eu. unfold getGlobalSession. erewrite runOn_go by apply runOn_Get. cbn [kvsOf].
  unfold pairOf. rewrite Ek. cbn. by rewrite Eu.
Qed.

Lemma run_GetGlobalSession s xid gs : globalAt s xid gs -> runOn (GetGlobalSession xid) s = (Ok gs, s).
Proof.
  intros (kv & Ek & Eu). unfold GetGlobalSession. by erewrite runOn_go by (by apply run_getGlobalSession).
Qed.

Lemma run_GetBranchSession s bid bs : branchAt s bid bs -> runOn (GetBranchSession bid) s = (Ok bs, s).
Proof.
  intros (kv & Ek & Eu). unfold GetBranchSession. erewrite runOn_go by apply runOn_Get. cbn [kvsOf].
  unfold pairOf. rewrite Ek. cbn. by rewrite Eu.
Qed.

Lemma run_GetGlobalSession_missing s xid :
  kvs s !! xid = None -> runOn (GetGlobalSession xid) s = (Err CouldNotFoundGlobalTransaction, s).
Proof. intros E. cbn. unfold pairOf. by rewrite E. Qed.

Lemma run_GetBranchSessionKeys s xid :
  runOn (GetBranchSessionKeys xid) s = (Ok (rev (Value ∘ snd <$> rangeOf s ("bs/" +:+ xid))), s).
Proof. done. Qed.

(** ** The second phase *)

(** A branch as the second phase leaves it. *)
Definition advance (status : Z) (bs : BranchSession.t) : BranchSession.t :=
  if BranchSession.Status bs =? Registered then BranchSession.set_Status status bs else bs.

(** The writes of one branch. *)
Definition advances (s : snapshot) (status : Z) (key : string) (ops : list op) : Prop :=
  exists bs, branchAt s key bs /\
    (BranchSession.Status bs = Registered /\
       (exists data, ops = [OpPut key data] /\ marshal (BranchSession.set_Status status bs) = Ok data /\
          unmarshal data = Ok (BranchSession.set_Status status bs)) \/
     BranchSession.Status bs <> Registered /\ ops = []).

Lemma run_phaseTwo status s keys : forall ops,
  Forall (fun k => exists bs, branchAt s k bs /\ codec_wf (BranchSession.set_Status status bs)) keys ->
  exists opss, runOn (phaseTwo status keys ops) s = (Ok (ops ++ concat opss), s) /\
    Forall2 (advances s status) keys opss.
Proof.
  induction keys as [|k keys IH]; intros ops Hk; unfold phaseTwo in *; cbn [forEach].
  - exists []. cbn. by rewrite app_nil_r.
  - inversion Hk as [|? ? (bs & Hbs & Hwf) Hks]; subst.
    destruct (Z.eq_dec (BranchSession.Status bs) Registered) as [Er|Er].
    + destruct (codec_roundtrip _ Hwf) as (data & Em & Eu).
      destruct (IH (ops ++ [OpPut k data]) Hks) as (opss & Hrun & Hall). exists ([OpPut k data] :: opss).
      split.
      * erewrite runOn_go; [rewrite Hrun; cbn; by rewrite <- app_assoc|].
        erewrite runOn_go by (by apply run_GetBranchSession). apply Z.eqb_eq in Er. rewrite Er, Em. done.
      * constructor; [|done]. exists bs. split; [done|]. left. split; [done|]. by exists data.
    + destruct (IH ops Hks) as (opss & Hrun & Hall). exists ([] :: opss). split.
      * erewrite runOn_go; [exact Hrun|].
        erewrite runOn_go by (by apply run_GetBranchSession). apply Z.eqb_neq in Er. by rewrite Er.
      * constructor; [|done]. exists bs. split; [done|]. by right.
Qed.

Lemma advances_puts s status key ops : advances s status key ops -> puts ops = [key] \/ puts ops = [].
Proof. intros (bs & _ & [(_ & data & -> & _)|[_ ->]]); [by left | by right]. Qed.

Lemma advances_deletes s status keys opss :
  Forall2 (advances s status) keys opss -> deletes (concat opss) = [].
Proof.
  induction 1 as [|k o keys opss (bs & _ & [(_ & data & -> & _)|[_ ->]]) _ IH]; cbn; by rewrite ?IH.
Qed.

Lemma advances_all_puts s status keys opss :
  Forall2 (advances s status) keys opss -> sublist (puts (concat opss)) keys.
Proof.
  induction 1 as [|k o keys opss Ho _ IH]; [constructor|]. cbn. rewrite puts_app.
  destruct (advances_puts _ _ _ _ Ho) as [-> | ->]; cbn; by constructor.
Qed.

Lemma puts_of_txn s status xid data keys opss :
  Forall2 (advances s status) keys opss -> NoDup keys -> xid ∉ keys ->
  txn_ok (OpPut xid data :: concat opss) = true.
Proof.
  intros Hall Hn Hx. assert (Hsub := advances_all_puts _ _ _ _ Hall).
  unfold txn_ok. apply andb_true_iff. split.
  - apply bool_decide_eq_true. cbn. apply NoDup_cons. split; [|by eapply sublist_NoDup].
    intros Hin. apply Hx. by eapply sublist_subseteq.
  - apply forallb_forall. intros k _. apply bool_decide_eq_true. cbn.
    fold (deletes (concat opss)). rewrite (advances_deletes _ _ _ _ Hall). apply not_elem_of_nil.
Qed.

(** [bid] is registered under the transaction. *)
Definition link (s : snapshot) (xid bid : string) : Prop :=
  exists k kv, kvs s !! k = Some kv /\ HasPrefix k ("bs/" +:+ xid) = true /\ Value kv = bid.

(** The branches of a transaction can be read and written back with [status],
    and each is registered once. *)
Record linked (s : snapshot) (xid : string) (status : Z) : Prop := {
  linked_branch : forall bid, link s xid bid ->
    exists bs, branchAt s bid bs /\ codec_wf (BranchSession.set_Status status bs);
  linked_once : forall k1 k2 kv1 kv2, kvs s !! k1 = Some kv1 -> kvs s !! k2 = Some kv2 ->
    HasPrefix k1 ("bs/" +:+ xid) = true -> HasPrefix k2 ("bs/" +:+ xid) = true ->
    Value kv1 = Value kv2 -> k1 = k2;
  linked_xid : ~ link s xid xid }.

Lemma link_keys s xid bid :
  bid ∈ rev (Value ∘ snd <$> rangeOf s ("bs/" +:+ xid)) <-> link s xid bid.
Proof.
  rewrite list_elem_of_In, <- in_rev, <- list_elem_of_In, list_elem_of_fmap. split.
  - intros ([k kv] & -> & [E Hp]%list_elem_of_In%rangeOf_In). exists k, kv. done.
  - intros (k & kv & E & Hp & <-). exists (k, kv). split; [done|]. by apply list_elem_of_In, rangeOf_In.
Qed.

Lemma link_keys_NoDup s xid status :
  linked s xid status -> NoDup (rev (Value ∘ snd <$> rangeOf s ("bs/" +:+ xid))).
Proof.
  intros [_ Ho _]. rewrite <- Permutation_rev. apply (NoDup_fmap_2_strong _).
  - intros [k1 kv1] [k2 kv2] [E1 P1]%list_elem_of_In%rangeOf_In [E2 P2]%list_elem_of_In%rangeOf_In E. cbn in E.
    assert (k1 = k2) as -> by (by eapply Ho). congruence.
  - eapply NoDup_fmap_1, rangeOf_NoDup.
Qed.

Lemma Forall2_In_l {A B} (R : A -> B -> Prop) l k x : Forall2 R l k -> In x l -> exists y, In y k /\ R x y.
Proof.
  induction 1 as [|a b l k Hab _ IH]; [done|]. intros [<-|Hin]; [exists b; split; [by left | done]|].
  destruct (IH Hin) as (y & ? & ?). exists y. split; [by right | done].
Qed.

(** A branch after the transaction that ends its global session. *)
Lemma branch_after s status xid data keys opss bid bs :
  Forall2 (advances s status) keys opss -> NoDup keys -> xid ∉ keys -> In bid keys -> branchAt s bid bs ->
  branchAt (apply_ops s (OpPut xid data :: concat opss)) bid (advance status bs).
Proof.
  intros Hall Hn Hx Hin Hbs. assert (Htx := puts_of_txn s status xid data keys opss Hall Hn Hx).
  destruct (Forall2_In_l _ _ _ _ Hall Hin) as (o & Ho & bs' & Hbs' & Hadv).
  assert (Hsame : forall b, branchAt s bid b -> b = bs)
    by (intros b (? & ? & ?); destruct Hbs as (? & ? & ?); congruence).
  rewrite (Hsame bs' Hbs') in *. unfold advance. destruct Hadv as [(Er & d & -> & Ed & Eud)|[Er ->]].
  - apply Z.eqb_eq in Er. rewrite Er. exists (mkKV d (Revision s + 1)). split; [|exact Eud].
    apply apply_ops_put; [done|]. right. apply in_concat. eexists. split; [exact Ho | by left].
  - assert (Er' := Er). apply Z.eqb_neq in Er. rewrite Er. destruct Hbs as (kv & Ek & Eb). exists kv. split; [|done].
    rewrite apply_ops_notin; [done | |].
    + cbn. rewrite not_elem_of_cons. split; [intros ->; by apply Hx, list_elem_of_In|].
      intros Hp. fold (puts (concat opss)) in Hp. unfold puts in Hp. apply list_elem_of_omap in Hp as (p & Hp & E).
      apply list_elem_of_In, in_concat in Hp as (o' & Ho' & Hp).
      destruct (Forall2_In_l _ _ _ _ (proj2 (Forall2_flip _ _ _) Hall) Ho')
        as (k' & Hk' & bs'' & Hbs'' & [(Er'' & d & -> & _)|[_ ->]]); [|done].
      destruct Hp as [<-|[]]. injection E as ->. apply Er'. rewrite <- Er''. f_equal. symmetry. by apply Hsame.
    + cbn. fold (deletes (concat opss)). rewrite (advances_deletes _ _ _ _ Hall). apply not_elem_of_nil.
Qed.

(** ** Ending a global transaction *)
Lemma endGlobal_effect target status failed s xid gs :
  globalAt s xid gs -> GlobalSession.Status gs <= Begin ->
  codec_wf (GlobalSession.set_Status target gs) -> linked s xid status ->
  exists s', runOn (endGlobal target (phaseTwo status) failed xid) s = (Ok (target, None), s') /\
    globalAt s' xid (GlobalSession.set_Status target gs) /\
    (forall bid bs, link s xid bid -> branchAt s bid bs -> branchAt s' bid (advance status bs)) /\
    (forall k, k <> xid -> ~ link s xid k -> kvs s' !! k = kvs s !! k).
Proof.
  intros Hgs Hst Hwf Hl. destruct (codec_roundtrip _ Hwf) as (data & Em & Eu).
  set (keys := rev (Value ∘ snd <$> rangeOf s ("bs/" +:+ xid))).
  assert (Hkeys : Forall (fun k => exists bs, branchAt s k bs /\ codec_wf (BranchSession.set_Status status bs)) keys).
  { apply List.Forall_forall. intros k Hk%list_elem_of_In%link_keys. by apply Hl. }
  destruct (run_phaseTwo status s keys [OpPut xid data] Hkeys) as (opss & Hrun & Hall).
  assert (Hx : xid ∉ keys) by (intros Hin%link_keys; by apply (linked_xid _ _ _ Hl)).
  assert (Htx := puts_of_txn s status xid data keys opss Hall (link_keys_NoDup _ _ _ Hl) Hx).
  exists (apply_ops s (OpPut xid data :: concat opss)). split.
  - unfold endGlobal. erewrite runOn_attempt by (by apply run_GetGlobalSession).
    rewrite Z.gtb_ltb. destruct (Z.ltb_spec Begin (GlobalSession.Status gs)); [lia|].
    erewrite runOn_attempt by (cbn; by rewrite Em). erewrite runOn_attempt by apply run_GetBranchSessionKeys.
    erewrite runOn_attempt by exact Hrun. erewrite runOn_attempt by (by apply runOn_Txn). done.
  - split; [|split].
    + eexists. split; [apply apply_ops_put; [done | by left] | done].
    + intros bid bs Hlink%link_keys%list_elem_of_In Hbs. eapply branch_after; [exact Hall | by eapply link_keys_NoDup | done | done | done].
    + intros k Hk Hnl. apply apply_ops_notin.
      * cbn. rewrite not_elem_of_cons. split; [done|]. intros Hp. apply Hnl, link_keys.
        eapply sublist_subseteq; [by eapply advances_all_puts | exact Hp].
      * cbn. fold (deletes (concat opss)). rewrite (advances_deletes _ _ _ _ Hall). apply not_elem_of_nil.
Qed.

(** Once the session has left [Begin], ending it changes nothing. *)
Lemma endGlobal_decided target branches failed s xid gs :
  globalAt s xid gs -> Begin < GlobalSession.Status gs ->
  runOn (endGlobal target branches failed xid) s =
    (Ok (GlobalSession.Status gs,
         if GlobalSession.Status gs =? target then None else Some GlobalTransactionFinished), s).
Proof.
  intros Hgs Hst. unfold endGlobal. erewrite runOn_attempt by (by apply run_GetGlobalSession).
  rewrite Z.gtb_ltb. destruct (Z.ltb_spec Begin (GlobalSession.Status gs)); [|lia].
  by destruct (GlobalSession.Status gs =? target).
Qed.

(** ** Releasing locks *)

(** [rk] is a row locked by a lock entry under the transaction's prefix. *)
Definition held (s : snapshot) (xid rk : string) : Prop :=
  exists e kv, kvs s !! e = Some kv /\ HasPrefix e ("lk/" +:+ xid) = true /\ Value kv = rk.

Lemma releaseGlobalLocks_effect s xid :
  exists s', runOn (releaseGlobalLocks xid) s = (Ok true, s') /\
    (forall k, HasPrefix k ("lk/" +:+ xid) = true \/ held s xid k -> kvs s' !! k = None) /\
    (forall k, HasPrefix k ("lk/" +:+ xid) = false -> ~ held s xid k -> kvs s' !! k = kvs s !! k).
Proof.
  set (l := rangeOf s ("lk/" +:+ xid)).
  set (s1 := apply_ops s (OpDelete ∘ fst <$> l)).
  assert (H1 : forall k, kvs s1 !! k = if decide (k ∈ fst <$> l) then None else kvs s !! k)
    by (intros k; apply (apply_deletes s fst)).
  assert (Hentry : forall k, k ∈ fst <$> l <-> is_Some (kvs s !! k) /\ HasPrefix k ("lk/" +:+ xid) = true).
  { intros k. rewrite list_elem_of_fmap. split.
    - intros ([k' kv] & -> & [E Hp]%list_elem_of_In%rangeOf_In). cbn. rewrite E. eauto.
    - intros [[kv E] Hp]. exists (k, kv). split; [done|]. by apply list_elem_of_In, rangeOf_In. }
  assert (Hheld : forall k, k ∈ (fun p => Value (snd p)) <$> l <-> held s xid k).
  { intros k. rewrite list_elem_of_fmap. split.
    - intros ([k' kv] & -> & [E Hp]%list_elem_of_In%rangeOf_In). by exists k', kv.
    - intros (e & kv & E & Hp & <-). exists (e, kv). split; [done|]. by apply list_elem_of_In, rangeOf_In. }
  set (ops := (fun p : string * KV => OpDelete (Value (snd p))) <$> l).
  set (s2 := apply_ops s1 ops).
  assert (Hrun : runOn (releaseGlobalLocks xid) s = (Ok true, s2)).
  { unfold releaseGlobalLocks. erewrite runOn_go by reflexivity. cbn [kvsOf].
    erewrite runOn_go by reflexivity. fold l ops s1. destruct ops as [|o ops'] eqn:E; [done|].
    erewrite runOn_go by (apply runOn_Txn; rewrite <- E; apply txn_ok_deletes). done. }
  assert (H2 : forall k, kvs s2 !! k = if decide (k ∈ (fun p => Value (snd p)) <$> l) then None else kvs s1 !! k)
    by (intros k; apply (apply_deletes s1)).
  exists s2. split; [done|]. split.
  - intros k Hk. rewrite H2. destruct (decide _) as [|Hn]; [done|]. rewrite H1.
    destruct (decide _) as [|Hn']; [done|]. destruct Hk as [Hp|Hh%Hheld]; [|done].
    destruct (kvs s !! k) eqn:E; [|done]. exfalso. apply Hn', Hentry. rewrite E. eauto.
  - intros k Hp Hh. rewrite H2, decide_False by (by rewrite Hheld).
    rewrite H1, decide_False; [done|]. rewrite Hentry. intros [_ ?]. congruence.
Qed.

(** The lock entries of a transaction name neither its session nor its
    branches. *)
Record locks_apart (s : snapshot) (xid : string) : Prop := {
  apart_xid : HasPrefix xid ("lk/" +:+ xid) = false /\ ~ held s xid xid;
  apart_links : forall k, HasPrefix k ("bs/" +:+ xid) = true -> ~ held s xid k;
  apart_branches : forall bid, link s xid bid -> HasPrefix bid ("lk/" +:+ xid) = false /\ ~ held s xid bid }.

Lemma prefix_bs_lk k xid : HasPrefix k ("bs/" +:+ xid) = true -> HasPrefix k ("lk/" +:+ xid) = false.
Proof.
  destruct k as [|c k]; [done|]. cbn. intros [Hc _]%andb_prop. apply Ascii.eqb_eq in Hc as <-. done.
Qed.

Lemma link_release s s' xid bid :
  locks_apart s xid ->
  (forall k, HasPrefix k ("lk/" +:+ xid) = false -> ~ held s xid k -> kvs s' !! k = kvs s !! k) ->
  (forall k, HasPrefix k ("lk/" +:+ xid) = true \/ held s xid k -> kvs s' !! k = None) ->
  link s' xid bid <-> link s xid bid.
Proof.
  intros Ha Hsame Hgone. split; intros (k & kv & E & Hp & <-); exists k, kv; split; try done.
  - rewrite <- Hsame; [done | by apply prefix_bs_lk | by eapply apart_links].
  - rewrite Hsame; [done | by apply prefix_bs_lk | by eapply apart_links].
Qed.

(** ** Row locks *)
Lemma run_checkRows free s rowKeys :
  runOn (checkRows free rowKeys) s =
    (Ok (forallb (fun rk => free (Value <$> kvs s !! rk)) rowKeys), s).
Proof.
  induction rowKeys as [|rk rowKeys IH]; [done|]. cbn [checkRows forallb].
  erewrite runOn_go by apply runOn_Get. unfold pairOf.
  destruct (kvs s !! rk) as [kv|]; cbn [kvsOf]; erewrite runOn_go by reflexivity; cbn;
    destruct (free _); cbn; done.
Qed.

Lemma run_readRows s rowKeys : forall m : gmap string string, exists m',
  runOn (forEach readRow m rowKeys) s = (Ok m', s) /\
  forall k, m' !! k = if decide (k ∈ rowKeys) then
    match kvs s !! k with Some kv => Some (Value kv) | None => m !! k end else m !! k.
Proof.
  induction rowKeys as [|rk rowKeys IH]; intros m; cbn [forEach].
  - exists m. split; [done|]. intros k. by rewrite decide_False by apply not_elem_of_nil.
  - set (m1 := match kvs s !! rk with Some kv => <[rk := Value kv]> m | None => m end).
    destruct (IH m1) as (m' & Hrun & Hm'). exists m'. split.
    + erewrite runOn_go; [exact Hrun|]. unfold readRow. erewrite runOn_go by apply runOn_Get.
      unfold pairOf, m1. by destruct (kvs s !! rk) as [kv|].
    + intros k. rewrite Hm'. unfold m1. destruct (decide (k = rk)) as [->|Hne].
      * rewrite (decide_True (P := rk ∈ rk :: rowKeys)) by by left.
        destruct (kvs s !! rk) as [kv|] eqn:E; [|by destruct (decide _)].
        destruct (decide _); [done | by rewrite lookup_insert_eq].
      * assert (Hl : match kvs s !! rk with Some kv => <[rk := Value kv]> m | None => m end !! k = m !! k)
          by (destruct (kvs s !! rk); [by rewrite lookup_insert_ne | done]).
        rewrite Hl. destruct (decide (k ∈ rowKeys)) as [Hin|Hout].
        -- by rewrite decide_True by by right.
        -- rewrite decide_False; [done|]. rewrite not_elem_of_cons. done.
Qed.

(** The rows a registration has to take: those not already its own. *)
Definition toTake (s : snapshot) (xid : string) (rowKeys : list string) : list string :=
  List.filter (fun rk => match kvs s !! rk with
                         | Some kv => negb (Contains (Value kv) xid)
                         | None => true
                         end) rowKeys.

Lemma run_filterRowKeys s rowKeys xid :
  runOn (filterRowKeys rowKeys xid) s = (Ok (toTake s xid rowKeys), s).
Proof.
  unfold filterRowKeys. destruct (run_readRows s rowKeys ∅) as (m & Hrun & Hm).
  erewrite runOn_go by exact Hrun. cbn. do 2 f_equal. unfold toTake. apply filter_ext_in.
  intros rk Hin%list_elem_of_In. rewrite Hm, decide_True by done. rewrite lookup_empty.
  by destruct (kvs s !! rk).
Qed.

End effects.

(** ** Claims *)
Section claims.
Context {GC : Codec GlobalSession.t} {BC : Codec BranchSession.t}.

(** Rolling back a global transaction in status [Begin], run alone: its
    session moves to [Rollbacking], each branch found under the prefix
    ["bs/" ++ xid] moves to [PhaseTwoRollbacking] if it was [Registered], in
    one revision, and no other key changes.  The prefix has no slash at its
    end, so it also finds the branches of a transaction whose id extends
    [xid] ([commit_moves_longer_xid]). *)
Theorem GlobalRollback_effect s xid gs :
  globalAt s xid gs -> GlobalSession.Status gs <= Begin ->
  codec_wf (GlobalSession.set_Status Rollbacking gs) -> linked s xid PhaseTwoRollbacking ->
  exists s', runOn (GlobalRollback xid) s = (Ok (Rollbacking, None), s') /\
    globalAt s' xid (GlobalSession.set_Status Rollbacking gs) /\
    (forall bid bs, link s xid bid -> branchAt s bid bs -> branchAt s' bid (advance PhaseTwoRollbacking bs)) /\
    (forall k, k <> xid -> ~ link s xid k -> kvs s' !! k = kvs s !! k).
Proof. apply endGlobal_effect. Qed.

(** The commit in terms of what the two prefixes find. *)
Lemma commit_by_prefix s xid gs :
  globalAt s xid gs -> GlobalSession.Status gs <= Begin ->
  codec_wf (GlobalSession.set_Status Committing gs) -> linked s xid PhaseTwoCommitting -> locks_apart s xid ->
  exists s', runOn (GlobalCommit xid) s = (Ok (Committing, None), s') /\
    globalAt s' xid (GlobalSession.set_Status Committing gs) /\
    (forall bid bs, link s xid bid -> branchAt s bid bs -> branchAt s' bid (advance PhaseTwoCommitting bs)) /\
    (forall k, k <> xid -> ~ link s xid k ->
       (HasPrefix k ("lk/" +:+ xid) = true \/ held s xid k -> kvs s' !! k = None) /\
       (HasPrefix k ("lk/" +:+ xid) = false -> ~ held s xid k -> kvs s' !! k = kvs s !! k)).
Proof.
  intros Hgs Hst Hwf Hl Ha. destruct (releaseGlobalLocks_effect s xid) as (s1 & Hrel & Hgone & Hsame).
  assert (Hlink : forall bid, link s1 xid bid <-> link s xid bid) by (intros bid; by apply link_release).
  assert (Hbr : forall bid bs, link s xid bid -> branchAt s bid bs -> branchAt s1 bid bs).
  { intros bid bs Hb (kv & Ek & Eu). exists kv. split; [|done].
    destruct (apart_branches _ _ Ha bid Hb). by rewrite Hsame. }
  assert (Hgs1 : globalAt s1 xid gs).
  { destruct Hgs as (kv & Ek & Eu). exists kv. split; [|done]. destruct (apart_xid _ _ Ha). by rewrite Hsame. }
  assert (Hl1 : linked s1 xid PhaseTwoCommitting).
  { constructor.
    - intros bid Hb%Hlink. destruct (linked_branch _ _ _ Hl bid Hb) as (bs & Hbs & Hw). exists bs. eauto.
    - intros k1 k2 kv1 kv2 E1 E2 P1 P2. rewrite Hsame in E1, E2 by (by apply prefix_bs_lk || by eapply apart_links).
      by eapply (linked_once _ _ _ Hl).
    - rewrite Hlink. apply (linked_xid _ _ _ Hl). }
  destruct (endGlobal_effect Committing PhaseTwoCommitting ("update status to committing failed, xid " +:+ xid)
              s1 xid gs Hgs1 Hst Hwf Hl1) as (s' & Hrun & Hg' & Hb' & Hk').
  exists s'. split; [|split; [done|split]].
  - unfold GlobalCommit. erewrite runOn_attempt by exact Hrel. exact Hrun.
  - intros bid bs Hb Hbs. apply Hb'; [by apply Hlink | by apply Hbr].
  - intros k Hne Hnl. rewrite Hk' by (done || by rewrite Hlink). split; [apply Hgone | apply Hsame].
Qed.

(** What belongs to a transaction and to no other: the branches linked under
    ["bs/" ++ xid ++ "/"], the lock entries under ["lk/" ++ xid ++ "/"] and the
    rows those entries name. *)
Definition branchOf (s : snapshot) (xid bid : string) : Prop :=
  exists k kv, kvs s !! k = Some kv /\ HasPrefix k ("bs/" +:+ xid +:+ "/") = true /\ Value kv = bid.

Definition lockEntry (s : snapshot) (xid e : string) : Prop :=
  is_Some (kvs s !! e) /\ HasPrefix e ("lk/" +:+ xid +:+ "/") = true.

Definition locks (s : snapshot) (xid rk : string) : Prop :=
  exists e kv, kvs s !! e = Some kv /\ HasPrefix e ("lk/" +:+ xid +:+ "/") = true /\ Value kv = rk.

(** No transaction with an entry in the store has an id that extends [xid]:
    what the prefixes of the code find is followed by the slash. *)
Definition unextended (s : snapshot) (xid : string) : Prop :=
  forall k, is_Some (kvs s !! k) ->
    HasPrefix k ("bs/" +:+ xid) = HasPrefix k ("bs/" +:+ xid +:+ "/") /\
    HasPrefix k ("lk/" +:+ xid) = HasPrefix k ("lk/" +:+ xid +:+ "/").

Lemma link_branchOf s xid bid : unextended s xid -> link s xid bid <-> branchOf s xid bid.
Proof.
  intros Hu. split; intros (k & kv & E & Hp & Hv); exists k, kv; (split; [done|]);
    destruct (Hu k ltac:(eauto)) as [Hb _]; split; congruence.
Qed.

Lemma held_locks s xid rk : unextended s xid -> held s xid rk <-> locks s xid rk.
Proof.
  intros Hu. split; intros (k & kv & E & Hp & Hv); exists k, kv; (split; [done|]);
    destruct (Hu k ltac:(eauto)) as [_ Hb]; split; congruence.
Qed.

(** C3: Committing a global transaction in status [Begin].  The commit runs
    alone, on an etcd that answers every request, reads the latest revision
    and has no limit on the operations of a transaction; the branches of the
    transaction are each linked once and can be decoded and encoded
    ([linked]), its lock entries name neither sessions nor links
    ([locks_apart]), and no other transaction with entries in the store has an
    id that extends this one ([unextended]: the code looks for
    ["bs/" ++ xid] and ["lk/" ++ xid] without a slash, and without this
    condition [commit_moves_longer_xid] is what happens).  Then the commit
    succeeds: the session moves to [Committing]; every branch of the
    transaction that was [Registered] moves to [PhaseTwoCommitting] and the
    others keep their status; its lock entries and the rows they lock are
    gone; and every other key, the branches and locks of all other
    transactions among them, is unchanged. *)
Theorem GlobalCommit_effect s xid gs :
  globalAt s xid gs -> GlobalSession.Status gs <= Begin ->
  codec_wf (GlobalSession.set_Status Committing gs) -> linked s xid PhaseTwoCommitting -> locks_apart s xid ->
  unextended s xid ->
  exists s', runOn (GlobalCommit xid) s = (Ok (Committing, None), s') /\
    globalAt s' xid (GlobalSession.set_Status Committing gs) /\
    (forall bid bs, branchOf s xid bid -> branchAt s bid bs -> branchAt s' bid (advance PhaseTwoCommitting bs)) /\
    (forall k, lockEntry s xid k \/ locks s xid k -> kvs s' !! k = None) /\
    (forall k, k <> xid -> ~ branchOf s xid k -> ~ lockEntry s xid k -> ~ locks s xid k ->
       kvs s' !! k = kvs s !! k).
Proof.
  intros Hgs Hst Hwf Hl Ha Hu. destruct (commit_by_prefix s xid gs Hgs Hst Hwf Hl Ha) as (s' & Hrun & Hg & Hb & Hk).
  exists s'. split; [exact Hrun|]. split; [exact Hg|]. split; [|split].
  - intros bid bs Hof%link_branchOf; [by apply Hb | done].
  - intros k Hor. assert (Hor' : HasPrefix k ("lk/" +:+ xid) = true \/ held s xid k).
    { destruct Hor as [[Hs Hp]|Hh]; [left; by rewrite (proj2 (Hu k Hs)) | right; by apply held_locks]. }
    apply Hk; [| |exact Hor'].
    + intros ->. destruct (apart_xid _ _ Ha) as [Hx Hnh]. destruct Hor'; [congruence | done].
    + intros Hlk. destruct (apart_branches _ _ Ha k Hlk) as [Hx Hnh]. destruct Hor'; [congruence | done].
  - intros k Hne Hnb Hnl Hnr. rewrite <- link_branchOf in Hnb by done. rewrite <- held_locks in Hnr by done.
    destruct (Hk k Hne Hnb) as [Hgone Hsame]. destruct (HasPrefix k ("lk/" +:+ xid)) eqn:Hp.
    + rewrite Hgone by (by left). destruct (kvs s !! k) eqn:E; [|done]. exfalso. apply Hnl.
      split; [by rewrite E|]. rewrite <- (proj2 (Hu k ltac:(rewrite E; eauto))). exact Hp.
    + by apply Hsame.
Qed.

(** C23: A global transaction is decided once, for a request that runs alone
    on an etcd that answers every request and reads the latest revision (two
    requests in parallel can decide twice, see [commit_rollback_race]), and
    whose lock entries name neither sessions nor links ([locks_apart]).  When
    the session has left [Begin], rolling it back changes nothing in the store
    and answers with the decided status, without error only when that is
    [Rollbacking]; committing it answers likewise, without error only when it
    is [Committing], and leaves the session, every branch found for it and
    every key that is not a lock as it was, but frees the locks also of a
    transaction that is rolling back. *)
Theorem decided_once s xid gs :
  globalAt s xid gs -> Begin < GlobalSession.Status gs -> locks_apart s xid ->
  runOn (GlobalRollback xid) s =
    (Ok (GlobalSession.Status gs,
         if GlobalSession.Status gs =? Rollbacking then None else Some GlobalTransactionFinished), s) /\
  exists s', runOn (GlobalCommit xid) s =
    (Ok (GlobalSession.Status gs,
         if GlobalSession.Status gs =? Committing then None else Some GlobalTransactionFinished), s') /\
    globalAt s' xid gs /\
    (forall bid bs, link s xid bid -> branchAt s bid bs -> branchAt s' bid bs) /\
    (forall rk, held s xid rk -> kvs s' !! rk = None) /\
    (forall k, HasPrefix k ("lk/" +:+ xid) = false -> ~ held s xid k -> kvs s' !! k = kvs s !! k).
Proof.
  intros Hgs Hst Ha. split; [by apply endGlobal_decided|].
  destruct (releaseGlobalLocks_effect s xid) as (s1 & Hrel & Hgone & Hsame).
  assert (Hgs1 : globalAt s1 xid gs).
  { destruct Hgs as (kv & Ek & Eu). exists kv. split; [|done]. destruct (apart_xid _ _ Ha). by rewrite Hsame. }
  exists s1. split; [|split; [done|split; [|split; [|exact Hsame]]]].
  - unfold GlobalCommit. erewrite runOn_attempt by exact Hrel. by apply endGlobal_decided.
  - intros bid bs Hb (kv & Ek & Eu). exists kv. split; [|done].
    destruct (apart_branches _ _ Ha bid Hb). by rewrite Hsame.
  - intros rk Hh. apply Hgone. by right.
Qed.

(** A registration run alone on an open transaction. *)
Lemma run_AddBranchSession s bs gs data :
  hist_ok [s] ->
  marshal bs = Ok data -> globalAt s (BranchSession.XID bs) gs -> GlobalSession.Status gs <= Begin ->
  takesLocks bs = true ->
  let xid := BranchSession.XID bs in
  let rows := CollectRowKeys (BranchSession.LockKey bs) (BranchSession.ResourceID bs) in
  txn_ok (OpPut (BranchSession.BranchID bs) data
          :: OpPut (BranchKeyFormat xid (BranchSession.BranchSessionID bs)) (BranchSession.BranchID bs)
          :: concat (lockOps xid <$> toTake s xid rows)) = true ->
  runOn (AddBranchSession bs) s =
    if forallb (fun rk => match Value <$> kvs s !! rk with None => true | Some v => Contains v xid end) rows
    then (Ok tt, apply_ops s (OpPut (BranchSession.BranchID bs) data
          :: OpPut (BranchKeyFormat xid (BranchSession.BranchSessionID bs)) (BranchSession.BranchID bs)
          :: concat (lockOps xid <$> toTake s xid rows)))
    else (Err (registerFailed bs), s).
Proof.
  intros Hok Em (kv & Ek & Eu) Hst Ht xid rows Htx.
  unfold AddBranchSession. erewrite runOn_go by (cbn; by rewrite Em). fold xid.
  erewrite runOn_attempt by (by apply run_getGlobalSession). cbv beta iota.
  rewrite Z.gtb_ltb. destruct (Z.ltb_spec Begin (GlobalSession.Status gs)); [lia|].
  rewrite Ht. erewrite runOn_go by apply run_filterRowKeys. fold rows.
  erewrite runOn_go by (by apply runOn_Txn).
  assert (Hc : forallb (cmp_ok s) (ModRevisionIs xid (ModRevision kv) :: (notFound <$> toTake s xid rows)) =
    forallb (fun rk => match Value <$> kvs s !! rk with None => true | Some v => Contains v xid end) rows).
  { cbn [forallb]. unfold cmp_ok at 1, modOf. unfold xid at 1. rewrite Ek, Z.eqb_refl. cbn [andb]. clear Htx.
    induction rows as [|rk rs IH]; [done|]. cbn. destruct (kvs s !! rk) as [kv'|] eqn:E; cbn.
    - destruct (Contains (Value kv') xid) eqn:Ec; cbn; [exact IH|].
      unfold modOf. rewrite E. pose proof (hist_mod _ Hok s rk kv' (or_introl eq_refl) E).
      destruct (Z.eqb_spec (ModRevision kv') 0); [lia | done].
    - unfold modOf. by rewrite E. }
  rewrite Hc. by destruct (forallb _ rows).
Qed.

(** C25: Run alone on an open transaction, a registration that writes no key
    twice succeeds exactly when [IsLockableWithXID] says its rows can be
    locked; when it does not, nothing is written. *)
Theorem AddBranchSession_iff_lockable s bs gs data :
  hist_ok [s] ->
  marshal bs = Ok data -> globalAt s (BranchSession.XID bs) gs -> GlobalSession.Status gs <= Begin ->
  takesLocks bs = true ->
  let xid := BranchSession.XID bs in
  let rows := CollectRowKeys (BranchSession.LockKey bs) (BranchSession.ResourceID bs) in
  txn_ok (OpPut (BranchSession.BranchID bs) data
          :: OpPut (BranchKeyFormat xid (BranchSession.BranchSessionID bs)) (BranchSession.BranchID bs)
          :: concat (lockOps xid <$> toTake s xid rows)) = true ->
  (fst (runOn (AddBranchSession bs) s) = Ok tt <->
   fst (runOn (IsLockableWithXID (BranchSession.ResourceID bs) (BranchSession.LockKey bs) xid) s) = Ok true) /\
  (fst (runOn (AddBranchSession bs) s) <> Ok tt -> snd (runOn (AddBranchSession bs) s) = s).
Proof.
  intros Hok Em Hg Hst Ht xid rows Htx. pose proof (run_AddBranchSession s bs gs data Hok Em Hg Hst Ht Htx) as Hrun.
  cbn zeta in Hrun. fold xid rows in Hrun.
  unfold IsLockableWithXID. fold rows. rewrite run_checkRows, Hrun. cbn [fst].
  set (b := forallb (fun rk => match Value <$> kvs s !! rk with None => true | Some v => Contains v xid end) rows).
  destruct b; cbn; split; done.
Qed.
End claims.

(** ** A concrete store: one open transaction with one AT branch *)
Definition empty : snapshot := mkSnap ∅ 1.

Definition gs1 : GlobalSession.t :=
  GlobalSession.mk "gs/app/1" "app" 1 "order" 60000 1661000000000 Begin.
Definition bs1 : BranchSession.t :=
  BranchSession.mk "bs/app/7" "app" 7 "gs/app/1" 1 "db" "t:5" AT Registered [] 1661000000001.

Definition str (r : res string) : string := match r with Ok s => s | _ => EmptyString end.

Definition entries : list (string * KV) :=
  [("gs/app/1", mkKV (str (marshal gs1)) 2);
   ("bs/app/7", mkKV (str (marshal bs1)) 3);
   ("bs/gs/app/1/7", mkKV "bs/app/7" 3);
   ("lk/gs/app/1/db^^^t^^^5", mkKV "db^^^t^^^5" 3);
   ("db^^^t^^^5", mkKV "lk/gs/app/1/db^^^t^^^5" 3)]%string.

Definition sample : snapshot := mkSnap (list_to_map entries) 3.

Example sample_reached :
  runOn (let! _ := AddGlobalSession gs1 in AddBranchSession bs1) empty = (Ok tt, sample).
Proof. vm_compute. reflexivity. Qed.

Lemma sample_lookup k kv : kvs sample !! k = Some kv -> In (k, kv) entries.
Proof. intros H. apply list_elem_of_In, elem_of_list_to_map_2, H. Qed.

Ltac sample_cases H :=
  apply sample_lookup in H; cbn [In entries] in H;
  repeat destruct H as [H|H]; [apply pair_equal_spec in H as [<- <-] .. | destruct H].

Lemma sample_link bid : link sample "gs/app/1" bid -> bid = "bs/app/7"%string.
Proof.
  intros (k & kv & H & Hp & <-). sample_cases H; try (vm_compute in Hp; discriminate). reflexivity.
Qed.

Lemma sample_held rk : held sample "gs/app/1" rk -> rk = "db^^^t^^^5"%string.
Proof.
  intros (k & kv & H & Hp & <-). sample_cases H; try (vm_compute in Hp; discriminate). reflexivity.
Qed.

Lemma sample_branch : branchAt sample "bs/app/7" bs1.
Proof. exists (mkKV (str (marshal bs1)) 3). split; vm_compute; reflexivity. Qed.

Lemma sample_global : globalAt sample "gs/app/1" gs1.
Proof. exists (mkKV (str (marshal gs1)) 2). split; vm_compute; reflexivity. Qed.

Lemma sample_linked status :
  codec_wf (BranchSession.set_Status status bs1) -> linked sample "gs/app/1" status.
Proof.
  intros Hs. constructor.
  - intros bid ->%sample_link. exists bs1. split; [apply sample_branch | exact Hs].
  - intros k1 k2 kv1 kv2 H1 H2 P1 P2 _.
    sample_cases H1; try (vm_compute in P1; discriminate);
    sample_cases H2; try (vm_compute in P2; discriminate); reflexivity.
  - intros H%sample_link. discriminate.
Qed.

(** The fields of a concrete session fit their types. *)
Ltac concrete_wf :=
  split; [repeat split; first [vm_compute; first [reflexivity | discriminate] | constructor]
         | vm_compute; reflexivity].

Lemma sample_apart : locks_apart sample "gs/app/1".
Proof.
  constructor.
  - split; [reflexivity|]. intros H%sample_held. discriminate.
  - intros k Hp Hh%sample_held. subst k. discriminate.
  - intros bid ->%sample_link. split; [reflexivity|]. intros H%sample_held. discriminate.
Qed.

Lemma sample_unextended : unextended sample "gs/app/1".
Proof. intros k [kv H]. sample_cases H; split; vm_compute; reflexivity. Qed.

Lemma GlobalRollback_effect_witness :
  exists s', runOn (GlobalRollback "gs/app/1") sample = (Ok (Rollbacking, None), s') /\
    globalAt s' "gs/app/1" (GlobalSession.set_Status Rollbacking gs1) /\
    (forall bid bs, link sample "gs/app/1" bid -> branchAt sample bid bs -> branchAt s' bid (advance PhaseTwoRollbacking bs)) /\
    (forall k, k <> "gs/app/1"%string -> ~ link sample "gs/app/1" k -> kvs s' !! k = kvs sample !! k).
Proof.
  apply (GlobalRollback_effect sample "gs/app/1" gs1);
    [apply sample_global | vm_compute; discriminate | concrete_wf | apply sample_linked; concrete_wf].
Defined.

Lemma GlobalCommit_effect_witness :
  exists s', runOn (GlobalCommit "gs/app/1") sample = (Ok (Committing, None), s') /\
    globalAt s' "gs/app/1" (GlobalSession.set_Status Committing gs1) /\
    (forall bid bs, branchOf sample "gs/app/1" bid -> branchAt sample bid bs ->
       branchAt s' bid (advance PhaseTwoCommitting bs)) /\
    (forall k, lockEntry sample "gs/app/1" k \/ locks sample "gs/app/1" k -> kvs s' !! k = None) /\
    (forall k, k <> "gs/app/1"%string -> ~ branchOf sample "gs/app/1" k -> ~ lockEntry sample "gs/app/1" k ->
       ~ locks sample "gs/app/1" k -> kvs s' !! k = kvs sample !! k).
Proof.
  apply (GlobalCommit_effect sample "gs/app/1" gs1);
    [apply sample_global | vm_compute; discriminate | concrete_wf | apply sample_linked; concrete_wf
    | apply sample_apart | apply sample_unextended].
Defined.

(** The same store after the decision to roll back. *)
Definition rolling : snapshot := snd (runOn (GlobalRollback "gs/app/1") sample).

Definition gs1' : GlobalSession.t := GlobalSession.set_Status Rollbacking gs1.

Definition rolling_entries : list (string * KV) :=
  [("gs/app/1", mkKV (str (marshal gs1')) 4);
   ("bs/app/7", mkKV (str (marshal (BranchSession.set_Status PhaseTwoRollbacking bs1))) 4);
   ("bs/gs/app/1/7", mkKV "bs/app/7" 3);
   ("lk/gs/app/1/db^^^t^^^5", mkKV "db^^^t^^^5" 3);
   ("db^^^t^^^5", mkKV "lk/gs/app/1/db^^^t^^^5" 3)]%string.

Lemma rolling_eq : rolling = mkSnap (list_to_map rolling_entries) 4.
Proof. vm_compute. reflexivity. Qed.

Lemma rolling_lookup k kv : kvs rolling !! k = Some kv -> In (k, kv) rolling_entries.
Proof. rewrite rolling_eq. intros H. apply list_elem_of_In, elem_of_list_to_map_2, H. Qed.

Ltac rolling_cases H :=
  apply rolling_lookup in H; cbn [In rolling_entries] in H;
  repeat destruct H as [H|H]; [apply pair_equal_spec in H as [<- <-] .. | destruct H].

Lemma rolling_link bid : link rolling "gs/app/1" bid -> bid = "bs/app/7"%string.
Proof.
  intros (k & kv & H & Hp & <-). rolling_cases H; try (vm_compute in Hp; discriminate). reflexivity.
Qed.

Lemma rolling_held rk : held rolling "gs/app/1" rk -> rk = "db^^^t^^^5"%string.
Proof.
  intros (k & kv & H & Hp & <-). rolling_cases H; try (vm_compute in Hp; discriminate). reflexivity.
Qed.

Lemma decided_once_witness :
  runOn (GlobalRollback "gs/app/1") rolling = (Ok (2, None), rolling) /\
  exists s', runOn (GlobalCommit "gs/app/1") rolling = (Ok (2, Some GlobalTransactionFinished), s') /\
    globalAt s' "gs/app/1" gs1' /\
    (forall bid bs, link rolling "gs/app/1" bid -> branchAt rolling bid bs -> branchAt s' bid bs) /\
    (forall rk, held rolling "gs/app/1" rk -> kvs s' !! rk = None) /\
    (forall k, HasPrefix k "lk/gs/app/1" = false -> ~ held rolling "gs/app/1" k -> kvs s' !! k = kvs rolling !! k).
Proof.
  apply (decided_once rolling "gs/app/1" gs1').
  - exists (mkKV (str (marshal gs1')) 4). split; vm_compute; reflexivity.
  - vm_compute. reflexivity.
  - constructor.
    + split; [reflexivity|]. intros H%rolling_held. discriminate.
    + intros k Hp Hh%rolling_held. subst k. discriminate.
    + intros bid ->%rolling_link. split; [reflexivity|]. intros H%rolling_held. discriminate.
Defined.

(** A second branch of the same transaction, and one of another, on the row
    the first has locked. *)
Definition bs2 : BranchSession.t :=
  BranchSession.mk "bs/app/8" "app" 8 "gs/app/1" 1 "db" "t:5,6" AT Registered [] 1661000000002.

Lemma hist_ok_single s :
  (forall k kv, kvs s !! k = Some kv -> 0 < ModRevision kv <= Revision s) -> 0 <= Revision s -> hist_ok [s].
Proof.
  intros Hm Hr. constructor.
  - intros s' k kv [<-|[]] E. by apply (Hm k).
  - intros s' rest s'' [= <- <-] [<-|[]]. lia.
  - intros s1 s2 k a b [<-|[]] [<-|[]] E1 E2 _. congruence.
Qed.

Lemma sample_hist : hist_ok [sample].
Proof. apply hist_ok_single; [intros k kv H; sample_cases H; cbn; lia | cbn; lia]. Qed.

Lemma AddBranchSession_iff_lockable_witness :
  (fst (runOn (AddBranchSession bs2) sample) = Ok tt <->
   fst (runOn (IsLockableWithXID "db" "t:5,6" "gs/app/1") sample) = Ok true) /\
  (fst (runOn (AddBranchSession bs2) sample) <> Ok tt -> snd (runOn (AddBranchSession bs2) sample) = sample).
Proof.
  apply (AddBranchSession_iff_lockable sample bs2 gs1 (str (marshal bs2)));
    [apply sample_hist | vm_compute; reflexivity | apply sample_global | vm_compute; discriminate
    | reflexivity | vm_compute; reflexivity].
Defined.

(** The sample as a server that has other clients: another transaction begins
    while the branch registers. *)
Definition gs12 : GlobalSession.t :=
  GlobalSession.mk "gs/app/12" "app" 12 "payment" 60000 1661000000003 Begin.

Definition sample_server : @server mem_server := mkMem [sample] [FailAfter].

Lemma AddBranchSession_atomic_witness :
  exists s', interleaved sample_server (AddBranchSession bs2) s' (Ok tt) /\
  exists before after l1 l2, history s' = l1 ++ after :: before :: l2 /\
    (exists kv gs, kvs before !! "gs/app/1"%string = Some kv /\ unmarshal (Value kv) = Ok gs /\
       GlobalSession.Status gs <= Begin) /\
    (exists data, marshal bs2 = Ok data /\ Value <$> kvs after !! "bs/app/8"%string = Some data) /\
    Value <$> kvs after !! "bs/gs/app/1/8"%string = Some "bs/app/8"%string /\
    (takesLocks bs2 = true -> forall rk,
      In rk (CollectRowKeys "t:5,6" "db") ->
      kvs before !! rk = None /\ Value <$> kvs after !! rk = Some (LockKeyFormat "gs/app/1" rk) \/
      exists kv, seen s' rk kv /\ Contains (Value kv) "gs/app/1" = true).
Proof.
  set (s1 := snd (serve (Put "gs/app/12" (str (marshal gs12))) sample_server)).
  assert (Hi : interleaved sample_server (AddBranchSession bs2) (snd (runServer (AddBranchSession bs2) s1)) (Ok tt)).
  { eapply (il_other _ (Put "gs/app/12" (str (marshal gs12)))). fold s1.
    replace (Ok tt) with (fst (runServer (AddBranchSession bs2) s1)); [apply alone | vm_compute; reflexivity]. }
  eexists. split; [exact Hi|].
  apply (AddBranchSession_atomic sample_server bs2); [apply sample_hist | exact Hi].
Defined.

(** ** Where the store does not keep its promises *)
Lemma HasPrefix_app a b p : HasPrefix b p = true -> HasPrefix (a +:+ b) (a +:+ p) = true.
Proof.
  intros H. induction a as [|c a IH]; [done|].
  change (Ascii.eqb c c && HasPrefix (a +:+ b) (a +:+ p) = true). by rewrite Ascii.eqb_refl.
Qed.

Lemma HasPrefix_trans a b c : HasPrefix a b = true -> HasPrefix b c = true -> HasPrefix a c = true.
Proof.
  revert b c; induction a as [|x a IH]; intros [|y b] [|z c]; cbn [HasPrefix]; try done.
  intros [<-%Ascii.eqb_eq Hab]%andb_prop [<-%Ascii.eqb_eq Hbc]%andb_prop.
  rewrite Ascii.eqb_refl. by eapply IH.
Qed.

(** The locks of a transaction are found by prefix, so committing a
    transaction also frees every row locked by a transaction whose xid merely
    extends its own ([gs/app/1] and [gs/app/12]). *)
Theorem commit_frees_longer_xid s xid1 xid2 rk :
  HasPrefix xid2 xid1 = true -> held s xid2 rk ->
  exists s', runOn (releaseGlobalLocks xid1) s = (Ok true, s') /\ kvs s' !! rk = None.
Proof.
  intros Hp (e & kv & E & He & Hv). destruct (releaseGlobalLocks_effect s xid1) as (s' & Hrun & Hgone & _).
  exists s'. split; [done|]. apply Hgone. right. exists e, kv. split; [done|]. split; [|done].
  eapply HasPrefix_trans; [exact He|]. by apply HasPrefix_app.
Qed.

Definition bs12 : BranchSession.t :=
  BranchSession.mk "bs/app/9" "app" 9 "gs/app/12" 12 "db" "t:6" AT Registered [] 1661000000004.

(** Both transactions open, the longer one holding row 6. *)
Definition two_open : snapshot :=
  snd (runOn (let! _ := AddGlobalSession gs12 in AddBranchSession bs12) sample).

Lemma commit_frees_longer_xid_witness :
  exists s', runOn (releaseGlobalLocks "gs/app/1") two_open = (Ok true, s') /\
    kvs s' !! "db^^^t^^^6"%string = None.
Proof.
  apply (commit_frees_longer_xid two_open "gs/app/1" "gs/app/12"); [reflexivity|].
  exists "lk/gs/app/12/db^^^t^^^6"%string, (mkKV "db^^^t^^^6" 5). repeat split; vm_compute; reflexivity.
Defined.

(** The branches are found by prefix too: committing [gs/app/1] moves the
    branch of [gs/app/12] to [PhaseTwoCommitting] and frees its row, while
    [gs/app/12] itself is still open. *)
Theorem commit_moves_longer_xid :
  exists s', runOn (GlobalCommit "gs/app/1") two_open = (Ok (Committing, None), s') /\
    runOn (GetGlobalSession "gs/app/12") s' = (Ok gs12, s') /\
    GlobalSession.Status gs12 = Begin /\
    runOn (GetBranchSession "bs/app/9") s' = (Ok (BranchSession.set_Status PhaseTwoCommitting bs12), s') /\
    kvs s' !! "db^^^t^^^6"%string = None.
Proof. eexists. split; [vm_compute; reflexivity|]. repeat split; vm_compute; reflexivity. Qed.

(** Row ownership is tested by substring: a branch of [gs/app/1] registers
    successfully on a row locked by the open transaction [gs/app/12], and the
    lock still belongs to the latter. *)
Theorem substring_xid_shares_row :
  let bs := BranchSession.mk "bs/app/10" "app" 10 "gs/app/1" 1 "db" "t:6" AT Registered [] 1661000000005 in
  Value <$> kvs two_open !! "db^^^t^^^6"%string = Some "lk/gs/app/12/db^^^t^^^6"%string /\
  fst (runOn (AddBranchSession bs) two_open) = Ok tt /\
  Value <$> kvs (snd (runOn (AddBranchSession bs) two_open)) !! "db^^^t^^^6"%string
    = Some "lk/gs/app/12/db^^^t^^^6"%string.
Proof. repeat split; vm_compute; reflexivity. Qed.

(** Commit and rollback do not compare the revision they read: a rollback
    that read the session before a commit was decided still succeeds after it.
    Both report success; the session ends [Rollbacking] with its branch
    [PhaseTwoCommitting]. *)
Theorem commit_rollback_race :
  exists s, race (false :: repeat true 8 ++ repeat false 8)
      (GlobalCommit "gs/app/1") (GlobalRollback "gs/app/1") sample
    = ((Return (Ok (Committing, None)), Return (Ok (Rollbacking, None))), s) /\
    runOn (GetGlobalSession "gs/app/1") s = (Ok (GlobalSession.set_Status Rollbacking gs1), s) /\
    runOn (GetBranchSession "bs/app/7") s = (Ok (BranchSession.set_Status PhaseTwoCommitting bs1), s).
Proof. eexists. split; [vm_compute; reflexivity|]. split; vm_compute; reflexivity. Qed.

(** Commit frees the locks before it decides: a branch registered in
    between is committed and its row stays locked. *)
Theorem commit_leaks_late_lock :
  exists s, race ([true; true] ++ repeat false 8 ++ repeat true 8)
      (GlobalCommit "gs/app/1") (AddBranchSession bs2) sample
    = ((Return (Ok (Committing, None)), Return (Ok tt)), s) /\
    runOn (GetBranchSession "bs/app/8") s = (Ok (BranchSession.set_Status PhaseTwoCommitting bs2), s) /\
    Value <$> kvs s !! "db^^^t^^^6"%string = Some "lk/gs/app/1/db^^^t^^^6"%string.
Proof. eexists. split; [vm_compute; reflexivity|]. split; vm_compute; reflexivity. Qed.

(** When etcd does not answer the delete, [DeleteBranchSession] reads the
    fields of the missing response and panics instead of returning the
    error. *)
Theorem DeleteBranchSession_error_panics {GC : Codec GlobalSession.t} {BC : Codec BranchSession.t}
    {E : EtcdServer} s branchID e :
  fst (serve (Delete branchID) s) = RErr e ->
  fst (runServer (DeleteBranchSession branchID) s) = Panic.
Proof. intros H. cbn. destruct (serve (Delete branchID) s) as [x s']. cbn in H. by rewrite H. Qed.

Lemma DeleteBranchSession_error_panics_witness :
  fst (runServer (DeleteBranchSession "bs/app/7") (mkMem [sample] [FailBefore] : @server mem_server)) = Panic.
Proof.
  apply (DeleteBranchSession_error_panics (mkMem [sample] [FailBefore] : @server mem_server) "bs/app/7" ErrUnavailable).
  vm_compute. reflexivity.
Defined.

(** ** The end of a branch *)
Section branches.
Context {GC : Codec GlobalSession.t} {BC : Codec BranchSession.t}.

Lemma run_DeleteBranchSession s bid bs :
  branchAt s bid bs ->
  let link := BranchKeyFormat (BranchSession.XID bs) (BranchSession.BranchSessionID bs) in
  exists s', runOn (DeleteBranchSession bid) s = (Ok tt, s') /\
    forall k, kvs s' !! k = if decide (k = bid \/ k = link) then None else kvs s !! k.
Proof.
  intros (kv & Ek & Eu) lk. set (s1 := apply_ops s [OpDelete bid]). set (s2 := apply_ops s1 [OpDelete lk]).
  assert (Hdel : forall t d k, kvs (apply_ops t [OpDelete d]) !! k = if decide (k = d) then None else kvs t !! k).
  { intros t d k. pose proof (apply_deletes t fst [(d, kv)] k) as Hd. cbn in Hd. rewrite Hd.
    destruct (decide (k ∈ [d])) as [->%list_elem_of_singleton|Hn]; [by rewrite decide_True|].
    rewrite decide_False; [done|]. intros ->. by apply Hn, list_elem_of_singleton. }
  exists s2. split.
  - unfold DeleteBranchSession. erewrite runOn_attempt; [|cbn; reflexivity].
    unfold pairOf. rewrite Ek. erewrite runOn_go by reflexivity. cbn [forEach].
    erewrite runOn_go; [reflexivity|]. erewrite runOn_go by (cbn; by rewrite Eu). done.
  - intros k. unfold s2. rewrite Hdel. unfold s1. rewrite Hdel.
    repeat destruct (decide _); try done; tauto.
Qed.

(** Reporting a failed first phase for a registered branch removes the
    branch and its link to the transaction and touches nothing else; the
    status reported for a branch past [Registered] is ignored. *)
Theorem BranchReport_effect s bid bs status :
  branchAt s bid bs -> codec_wf (BranchSession.set_Status PhaseOneFailed bs) ->
  (BranchSession.Status bs = Registered ->
   exists s', runOn (BranchReport bid PhaseOneFailed) s = (Ok tt, s') /\
     forall k, kvs s' !! k =
       if decide (k = bid \/ k = BranchKeyFormat (BranchSession.XID bs) (BranchSession.BranchSessionID bs))
       then None else kvs s !! k) /\
  (BranchSession.Status bs <> Registered -> BranchSession.Status bs <> PhaseOneFailed ->
   runOn (BranchReport bid status) s = (Ok tt, s)).
Proof.
  intros Hbs Hwf. split.
  - intros Er. destruct (codec_roundtrip _ Hwf) as (data & Em & Eu).
    set (s1 := apply_ops s [OpPut bid data]).
    assert (Hput : kvs s1 !! bid = Some (mkKV data (Revision s + 1)))
      by (apply apply_ops_put; [vm_compute; reflexivity | by left]).
    assert (Hbs1 : branchAt s1 bid (BranchSession.set_Status PhaseOneFailed bs)) by (eexists; split; [exact Hput | exact Eu]).
    destruct (run_DeleteBranchSession s1 bid _ Hbs1) as (s2 & Hrun & Hk). exists s2. split.
    + unfold BranchReport. erewrite runOn_go by (by apply run_GetBranchSession).
      apply Z.eqb_eq in Er. rewrite Er. erewrite runOn_go by (cbn; by rewrite Em).
      replace (BranchSession.Status (BranchSession.set_Status PhaseOneFailed bs)) with PhaseOneFailed by (by destruct bs).
      exact Hrun.
    + intros k. rewrite Hk.
      replace (BranchSession.XID (BranchSession.set_Status PhaseOneFailed bs)) with (BranchSession.XID bs) by (by destruct bs).
      replace (BranchSession.BranchSessionID (BranchSession.set_Status PhaseOneFailed bs)) with (BranchSession.BranchSessionID bs) by (by destruct bs).
      destruct (decide _) as [|Hn]; [done|]. apply apply_ops_notin; cbn; [|apply not_elem_of_nil].
      intros ->%list_elem_of_singleton. tauto.
  - intros Hr Hf. unfold BranchReport. erewrite runOn_go by (by apply run_GetBranchSession).
    apply Z.eqb_neq in Hr, Hf. rewrite Hr. erewrite runOn_go by reflexivity. by rewrite Hf.
Qed.

(** A branch set aside as dead leaves its key and can be read back under
    its dead key. *)
Theorem SetBranchSessionDead_effect s bs :
  codec_wf bs ->
  exists s', runOn (SetBranchSessionDead bs) s = (Ok tt, s') /\
    kvs s' !! BranchSession.BranchID bs = None /\
    branchAt s' (DeadBranchKeyFormat (BranchSession.BranchID bs)) bs /\
    (forall k, k <> BranchSession.BranchID bs -> k <> DeadBranchKeyFormat (BranchSession.BranchID bs) ->
       kvs s' !! k = kvs s !! k).
Proof.
  intros Hwf. destruct (codec_roundtrip _ Hwf) as (data & Em & Eu).
  set (bid := BranchSession.BranchID bs).
  set (ops := [OpPut (DeadBranchKeyFormat bid) data; OpDelete bid]).
  assert (Hne : DeadBranchKeyFormat bid <> bid).
  { clear. intros E. apply (f_equal String.length) in E.
    change (S (S (S (S (S (String.length bid))))) = String.length bid) in E. lia. }
  assert (Htx : txn_ok ops = true).
  { unfold txn_ok. cbn -[bool_decide]. rewrite bool_decide_true by apply NoDup_singleton.
    rewrite bool_decide_true by (by rewrite list_elem_of_singleton). done. }
  exists (apply_ops s ops). split.
  - unfold SetBranchSessionDead. erewrite runOn_go by (cbn; by rewrite Em). fold bid ops.
    erewrite runOn_go by (by apply runOn_Txn). done.
  - split; [|split].
    + apply apply_ops_delete; [|right; by left]. cbn. intros E%list_elem_of_singleton. symmetry in E. by apply Hne.
    + exists (mkKV data (Revision s + 1)). split; [|done]. apply apply_ops_put; [done | by left].
    + intros k H1 H2. apply apply_ops_notin; cbn; by rewrite list_elem_of_singleton.
Qed.
End branches.

Lemma BranchReport_effect_witness :
  (BranchSession.Status bs1 = Registered ->
   exists s', runOn (BranchReport "bs/app/7" PhaseOneFailed) sample = (Ok tt, s') /\
     forall k, kvs s' !! k =
       if decide (k = "bs/app/7"%string \/ k = BranchKeyFormat (BranchSession.XID bs1) (BranchSession.BranchSessionID bs1))
       then None else kvs sample !! k) /\
  (BranchSession.Status bs1 <> Registered -> BranchSession.Status bs1 <> PhaseOneFailed ->
   runOn (BranchReport "bs/app/7" Complete) sample = (Ok tt, sample)).
Proof. apply (BranchReport_effect sample "bs/app/7" bs1 Complete); [apply sample_branch | concrete_wf]. Defined.

Lemma SetBranchSessionDead_effect_witness :
  exists s', runOn (SetBranchSessionDead bs1) sample = (Ok tt, s') /\
    kvs s' !! "bs/app/7"%string = None /\
    branchAt s' "dead/bs/app/7" bs1 /\
    (forall k, k <> "bs/app/7"%string -> k <> "dead/bs/app/7"%string -> kvs s' !! k = kvs sample !! k).
Proof. apply (SetBranchSessionDead_effect sample bs1). concrete_wf. Defined.
