(* ===== verification/Watch.v ===== *)
(** * Watching sessions: the watch channels of [pkg/dt/storage/etcd/etcd.go] and [event.go], and
    [watchBranchSession] of [pkg/dt/transaction_manger.go]

    Three goroutines share two buffered channels: [startWatching] reads the responses of the
    etcd client and sends parsed events, [processEvent] decodes events and sends sessions, and
    [run] waits for the end of either, cancels the context and closes the channel of results.
    A reader, the transaction manager, receives the results.  The goroutines are a step
    relation; a [select] with several ready cases takes any of them. *)
From Stdlib Require Import ZArith Lia List.
From stdpp Require Import base gmap strings list relations.
From S2P Require Import Prelude GoText Session Etcd Store StoreSpec.

Local Open Scope Z_scope.

(** ** Events *)
Inductive EventType := PUT | DELETE.
Record KeyValue := mkKeyValue { kvKey : string; kvValue : string; kvCreateRevision : Z; kvModRevision : Z }.
Record Event := mkEvent { eType : EventType; eKv : KeyValue; ePrevKv : option KeyValue }.
#[export] Instance EventType_eq_dec : EqDecision EventType.
Proof. solve_decision. Defined.

(** [Event.IsCreate] of the etcd client. *)
Definition IsCreate (e : Event) : bool :=
  bool_decide (eType e = PUT) && (kvCreateRevision (eKv e) =? kvModRevision (eKv e)).

Record event := mkevent {
  key : string; value : string; prevValue : string; rev : Z; isDeleted : bool; isCreated : bool; isProgressNotify : bool }.

Definition parseKV (kv : KeyValue) : event :=
  mkevent (kvKey kv) (kvValue kv) EmptyString (kvModRevision kv) false true false.
(** The error, which is logged, names the key, the revision and the type. *)
Definition parseEvent (e : Event) : res event :=
  match ePrevKv e with
  | None => if IsCreate e
            then Ok (mkevent (kvKey (eKv e)) (kvValue (eKv e)) EmptyString (kvModRevision (eKv e)) (bool_decide (eType e = DELETE)) true false)
            else Err ("etcd event received with PrevKv=nil (key=" +:+ kvKey (eKv e) +:+ ")")
  | Some prev => Ok (mkevent (kvKey (eKv e)) (kvValue (eKv e)) (kvValue prev) (kvModRevision (eKv e))
                       (bool_decide (eType e = DELETE)) (IsCreate e) false)
  end.
Definition progressNotifyEvent (r : Z) : event := mkevent EmptyString EmptyString EmptyString r false false true.

(** What the client's channel delivers: events, or an error before it is closed. *)
Inductive watchResponse := WatchErr (msg : string) | Events (es : list Event).

Definition incomingBufSize : nat := 100.
Definition outgoingBufSize : nat := 100.

Section watch.
(** [partial] is what [Unmarshal] leaves in the fresh session when it fails. *)
Context {M : Type} `{Codec M} (partial : string -> M).

Definition decoded (v : string) : M := match unmarshal v with Ok m => m | _ => partial v end.
(** Only changes of a stored session are of interest; a session that cannot be decoded is logged
    and handed on. *)
Definition transform (e : event) : option M :=
  if isDeleted e then None else if isCreated e then None else Some (decoded (value e)).

(** ** The goroutines *)
Inductive watcherAt := WReceive | WSend (e : event) | WExited.
Inductive processorAt := PReceive | PSend (m : M) | PExited.
Inductive runnerAt := RSelect | RWait | RExited.

Record watchChan := mkWatch {
  stream : list watchResponse; batch : list Event; watcher : watcherAt; incomingEventChan : list event;
  processor : processorAt; resultChan : list M; received : list M; runner : runnerAt; ctxDone : bool; watchClosed : bool }.

Definition setWatcher (w : watcherAt) (c : watchChan) : watchChan :=
  mkWatch (stream c) (batch c) w (incomingEventChan c) (processor c) (resultChan c) (received c) (runner c) (ctxDone c) (watchClosed c).
Definition setStream (s : list watchResponse) (b : list Event) (c : watchChan) : watchChan :=
  mkWatch s b (watcher c) (incomingEventChan c) (processor c) (resultChan c) (received c) (runner c) (ctxDone c) (watchClosed c).
Definition setIncoming (i : list event) (c : watchChan) : watchChan :=
  mkWatch (stream c) (batch c) (watcher c) i (processor c) (resultChan c) (received c) (runner c) (ctxDone c) (watchClosed c).
Definition setProcessor (p : processorAt) (c : watchChan) : watchChan :=
  mkWatch (stream c) (batch c) (watcher c) (incomingEventChan c) p (resultChan c) (received c) (runner c) (ctxDone c) (watchClosed c).
Definition setResults (r d : list M) (c : watchChan) : watchChan :=
  mkWatch (stream c) (batch c) (watcher c) (incomingEventChan c) (processor c) r d (runner c) (ctxDone c) (watchClosed c).
Definition setRunner (r : runnerAt) (c : watchChan) : watchChan :=
  mkWatch (stream c) (batch c) (watcher c) (incomingEventChan c) (processor c) (resultChan c) (received c) r (ctxDone c) (watchClosed c).
Definition cancel (c : watchChan) : watchChan :=
  mkWatch (stream c) (batch c) (watcher c) (incomingEventChan c) (processor c) (resultChan c) (received c) (runner c) true (watchClosed c).
Definition closeWatch (c : watchChan) : watchChan :=
  mkWatch (stream c) (batch c) (watcher c) (incomingEventChan c) (processor c) (resultChan c) (received c) (runner c) (ctxDone c) true.

(** [createWatchChan] and [run], which starts the goroutines. *)
Definition createWatchChan (responses : list watchResponse) : watchChan :=
  mkWatch responses [] WReceive [] PReceive [] [] RSelect false false.

Section steps.
(** Whether the client closes its channel after the last response. *)
Context (ends : bool).

(** [startWatching] *)
Inductive stepWatcher (c : watchChan) : watchChan -> Prop :=
| w_response es s : watcher c = WReceive -> batch c = [] -> stream c = Events es :: s ->
    stepWatcher c (setStream s es c)
| w_error msg s : watcher c = WReceive -> batch c = [] -> stream c = WatchErr msg :: s ->
    stepWatcher c (setWatcher WExited (setStream s [] c))
| w_parse e b ev : watcher c = WReceive -> batch c = e :: b -> parseEvent e = Ok ev ->
    stepWatcher c (setWatcher (WSend ev) (setStream (stream c) b c))
| w_parse_error e b msg : watcher c = WReceive -> batch c = e :: b -> parseEvent e = Err msg ->
    stepWatcher c (setWatcher WExited (setStream (stream c) b c))
| w_send ev : watcher c = WSend ev -> (length (incomingEventChan c) < incomingBufSize)%nat ->
    stepWatcher c (setWatcher WReceive (setIncoming (incomingEventChan c ++ [ev]) c))
| w_drop ev : watcher c = WSend ev -> ctxDone c = true ->
    stepWatcher c (setWatcher WReceive c)
| w_end : watcher c = WReceive -> batch c = [] -> (stream c = [] /\ ends = true \/ ctxDone c = true) ->
    stepWatcher c (closeWatch (setWatcher WExited c)).

(** [processEvent] *)
Inductive stepProcessor (c : watchChan) : watchChan -> Prop :=
| p_skip e i : processor c = PReceive -> incomingEventChan c = e :: i -> transform e = None ->
    stepProcessor c (setIncoming i c)
| p_take e i m : processor c = PReceive -> incomingEventChan c = e :: i -> transform e = Some m ->
    stepProcessor c (setProcessor (PSend m) (setIncoming i c))
| p_send m : processor c = PSend m -> (length (resultChan c) < outgoingBufSize)%nat ->
    stepProcessor c (setProcessor PReceive (setResults (resultChan c ++ [m]) (received c) c))
| p_exit : processor c <> PExited -> ctxDone c = true ->
    stepProcessor c (setProcessor PExited c).

(** The rest of [run]. *)
Inductive stepRunner (c : watchChan) : watchChan -> Prop :=
| r_cancel : runner c = RSelect -> (watchClosed c = true \/ ctxDone c = true) ->
    stepRunner c (setRunner RWait (cancel c))
| r_close : runner c = RWait -> processor c = PExited ->
    stepRunner c (setRunner RExited c).

(** The receiver takes a result. *)
Inductive stepReceiver (c : watchChan) : watchChan -> Prop :=
| u_receive m r : resultChan c = m :: r -> stepReceiver c (setResults r (received c ++ [m]) c).

Inductive step (c c' : watchChan) : Prop :=
| by_watcher : stepWatcher c c' -> step c c'
| by_processor : stepProcessor c c' -> step c c'
| by_runner : stepRunner c c' -> step c c'
| by_receiver : stepReceiver c c' -> step c c'.

(** [Stop], or the end of the context the watch was made in. *)
Inductive stepOrStop (c c' : watchChan) : Prop :=
| no_stop : step c c' -> stepOrStop c c'
| stop : c' = cancel c -> stepOrStop c c'.

Definition reachable (responses : list watchResponse) (c : watchChan) : Prop := rtc stepOrStop (createWatchChan responses) c.
Definition reachableRunning (responses : list watchResponse) (c : watchChan) : Prop := rtc step (createWatchChan responses) c.
End steps.

(** ** What is delivered *)

(** The events of the responses up to the first error. *)
Fixpoint parsedOf (es : list Event) (rest : list event) : list event :=
  match es with
  | [] => rest
  | e :: es' => match parseEvent e with Ok ev => ev :: parsedOf es' rest | _ => [] end
  end.
Fixpoint eventsOf (rs : list watchResponse) : list event :=
  match rs with Events es :: rs' => parsedOf es (eventsOf rs') | _ => [] end.
Definition sessionsOf (rs : list watchResponse) : list M := omap transform (eventsOf rs).

(** The events the watcher has still to send, and the session the processor holds. *)
Definition pending (c : watchChan) : list event :=
  match watcher c with
  | WReceive => parsedOf (batch c) (eventsOf (stream c))
  | WSend ev => ev :: parsedOf (batch c) (eventsOf (stream c))
  | WExited => []
  end.
Definition held (c : watchChan) : list M := match processor c with PSend m => [m] | _ => [] end.
(** Everything on its way, in order. *)
Definition flow (c : watchChan) : list M :=
  received c ++ resultChan c ++ held c ++ omap transform (incomingEventChan c ++ pending c).

Record watch_inv (rs : list watchResponse) (c : watchChan) : Prop := {
  inv_order : flow c `sublist_of` sessionsOf rs;
  inv_running : ctxDone c = false -> flow c = sessionsOf rs;
  inv_incoming : (length (incomingEventChan c) <= incomingBufSize)%nat;
  inv_outgoing : (length (resultChan c) <= outgoingBufSize)%nat;
  inv_runner : runner c <> RSelect -> ctxDone c = true;
  inv_processor : processor c = PExited -> ctxDone c = true;
  inv_closed : runner c = RExited -> processor c = PExited;
  inv_watchClosed : watchClosed c = true -> watcher c = WExited }.

Lemma sublist_skips {A} (k l l' : list A) : l' `sublist_of` l -> k ++ l' `sublist_of` k ++ l.
Proof. intros Hl. by apply sublist_app. Qed.

(** A step keeps what is on its way, or drops some of it once the context is done. *)
Definition keepsOrDrops {A} (c : watchChan) (l l' : list A) : Prop := l' = l \/ ctxDone c = true /\ l' `sublist_of` l.
Lemma omap_sublist (l l' : list event) : l' `sublist_of` l -> omap transform l' `sublist_of` omap transform l.
Proof.
  induction 1 as [|x l' l _ IH|x l' l _ IH]; [done| |]; cbn; destruct (transform x); [by apply sublist_skip | done | by apply sublist_cons | done].
Qed.
Lemma keepsOrDrops_app {A} c (k l l' : list A) : keepsOrDrops c l l' -> keepsOrDrops c (k ++ l) (k ++ l').
Proof. intros [-> | [Hd Hl]]; [by left | right]. split; [done|]. by apply sublist_skips. Qed.
Lemma keepsOrDrops_omap c l l' : keepsOrDrops c l l' -> keepsOrDrops c (omap transform l) (omap transform l').
Proof. intros [-> | [Hd Hl]]; [by left | right]. split; [done|]. by apply omap_sublist. Qed.

Lemma watcher_events ends c c' : stepWatcher ends c c' ->
  keepsOrDrops c (incomingEventChan c ++ pending c) (incomingEventChan c' ++ pending c').
Proof.
  intros [es s Hw Hb Hst|msg s Hw Hb Hst|e b ev Hw Hb Hp|e b msg Hw Hb Hp|ev Hw Hl|ev Hw Hd|Hw Hb Hor];
    unfold pending; cbn; rewrite Hw; try rewrite Hb; try rewrite Hst; cbn; try (rewrite Hp); try (by left).
  - left. by rewrite <- app_assoc.
  - right. split; [done|]. by apply sublist_skips, sublist_cons.
  - destruct Hor as [[-> _]|Hd]; [by left | right]. split; [done|]. apply sublist_skips, sublist_nil_l.
Qed.
Lemma flow_step ends c c' : step ends c c' -> keepsOrDrops c (flow c) (flow c').
Proof.
  intros [Hw|Hp|Hr|[m r Hr]].
  - pose proof (watcher_events ends c c' Hw) as Hev. unfold flow.
    assert (received c' = received c /\ resultChan c' = resultChan c /\ held c' = held c) as (-> & -> & ->) by by destruct Hw.
    by apply keepsOrDrops_app, keepsOrDrops_app, keepsOrDrops_app, keepsOrDrops_omap.
  - destruct Hp as [e i Hp Hi Ht|e i m Hp Hi Ht|m Hp Hl|Hp Hd]; unfold flow, held, pending; cbn.
    + left. by rewrite Hp, Hi; cbn; rewrite Ht.
    + left. by rewrite Hp, Hi; cbn; rewrite Ht.
    + left. by rewrite Hp, <- (app_assoc (resultChan c)).
    + right. split; [done|]. apply sublist_skips, sublist_skips. by apply sublist_inserts_l.
  - left. by destruct Hr.
  - left. unfold flow, held, pending. cbn. rewrite Hr. by rewrite <- app_assoc.
Qed.

Lemma ctxDone_step ends c c' : stepOrStop ends c c' -> ctxDone c = true -> ctxDone c' = true.
Proof. intros [[Hs|Hs|Hs|Hs]| -> ] Hd; [by destruct Hs..|done]. Qed.
Lemma flow_stepOrStop ends c c' : stepOrStop ends c c' -> keepsOrDrops c (flow c) (flow c').
Proof. intros [Hs| -> ]; [by eapply flow_step | by left]. Qed.

Ltac step_cases Hs := destruct Hs as [[Hs|Hs|Hs|Hs]|Hs]; [destruct Hs..|subst].

(** C10: What a watch delivers, under any interleaving of its goroutines, its receiver and [Stop].
    Until the context is done nothing is lost, doubled or reordered: what was received, what is
    buffered, what is being processed and what the client has still to deliver are, in order, the
    changed sessions of all responses up to the first error.  Afterwards the received sessions are
    still some of those in their order.  The buffers never exceed their sizes, and the channel of
    results is closed only after the goroutine that sends on it has ended. *)
Theorem watch_ordered ends rs c : reachable ends rs c -> watch_inv rs c.
Proof.
  revert c. apply rtc_ind_r; [by constructor; cbn; try lia|]. intros c c' _ Hs IH.
  - destruct IH as [I1 I2 I3 I4 I5 I6 I7 I8]. pose proof (flow_stepOrStop ends c c' Hs) as Hf. constructor.
    + destruct Hf as [->|[_ Hf]]; [done|]. by etrans.
    + intros Hd. destruct Hf as [->|[Hd' _]]; [apply I2 | by rewrite (ctxDone_step ends c c' Hs Hd') in Hd].
      destruct (ctxDone c) eqn:E; [|done]. by rewrite (ctxDone_step ends c c' Hs E) in Hd.
    + step_cases Hs; cbn; try done; rewrite ?length_app; cbn; try lia.
      all: match goal with H : incomingEventChan _ = _ :: _ |- _ => rewrite H in I3; cbn in I3; lia end.
    + step_cases Hs; cbn; try done; rewrite ?length_app; cbn; try lia.
      match goal with H : resultChan _ = _ :: _ |- _ => rewrite H in I4; cbn in I4; lia end.
    + step_cases Hs; cbn; try done. all: intros Hne; apply I5; congruence.
    + step_cases Hs; cbn; try done.
    + step_cases Hs; cbn; try done; intros E; specialize (I7 E); congruence.
    + step_cases Hs; cbn; try done; intros E; specialize (I8 E); congruence.
Qed.

(** ** Every run ends *)
Definition responseWeight (r : watchResponse) : nat := match r with Events es => 1 + 5 * length es | WatchErr _ => 1 end.
Definition watcherWeight (w : watcherAt) : nat := match w with WReceive => 1 | WSend _ => 5 | WExited => 0 end.
Definition processorWeight (p : processorAt) : nat := match p with PReceive => 1 | PSend _ => 3 | PExited => 0 end.
Definition runnerWeight (r : runnerAt) : nat := match r with RSelect => 2 | RWait => 1 | RExited => 0 end.
Definition weight (c : watchChan) : nat :=
  sum_list (responseWeight <$> stream c) + 5 * length (batch c) + watcherWeight (watcher c) + 3 * length (incomingEventChan c) +
  processorWeight (processor c) + length (resultChan c) + runnerWeight (runner c).

Lemma step_weight ends c c' : step ends c c' -> (weight c' < weight c)%nat.
Proof.
  intros Hs. unfold weight. destruct Hs as [Hs|Hs|Hs|Hs]; destruct Hs; cbn;
    repeat match goal with H : _ c = _ |- _ => rewrite H; clear H end; cbn; rewrite ?length_app; cbn; try lia.
  destruct (processor c); cbn; [lia | lia | done].
Qed.
Lemma step_terminates ends c : sn (step ends) c.
Proof.
  remember (weight c) as n eqn:E. revert c E. induction (lt_wf n) as [n _ IH]. intros c ->.
  constructor. intros c' Hs. by eapply IH; [apply (step_weight ends c c' Hs)|].
Qed.

(** ** Where runs end *)
Lemma parseEvent_total e : parseEvent e <> Panic.
Proof. unfold parseEvent. by destruct (ePrevKv e), (IsCreate e). Qed.
Lemma nf_no_step ends c c' : nf (step ends) c -> step ends c c' -> False.
Proof. intros Hn Hs. apply Hn. by exists c'. Qed.

Lemma nf_receiver ends c : nf (step ends) c -> resultChan c = [].
Proof. intros Hn. destruct (resultChan c) as [|m r] eqn:E; [done|]. exfalso. eapply nf_no_step; [done|]. by eapply by_receiver, u_receive. Qed.
Lemma nf_watcher ends c : nf (step ends) c -> (length (incomingEventChan c) < incomingBufSize)%nat ->
  watcher c = WExited \/ watcher c = WReceive /\ batch c = [] /\ stream c = [] /\ ends = false /\ ctxDone c = false.
Proof.
  intros Hn Hi. destruct (watcher c) as [|ev|] eqn:Ew; [|exfalso; eapply nf_no_step; [done|by eapply by_watcher, w_send]|by left].
  destruct (batch c) as [|e b] eqn:Eb.
  - destruct (stream c) as [|[msg|es] s] eqn:Es; [|exfalso; eapply nf_no_step; [done|]..].
    + destruct (ctxDone c) eqn:Ed; [exfalso; eapply nf_no_step; [done|]; eapply by_watcher, w_end; auto|].
      destruct ends eqn:Ee; [exfalso; eapply nf_no_step; [done|]; eapply by_watcher, w_end; auto | by right].
    + by eapply by_watcher, w_error.
    + by eapply by_watcher, w_response.
  - exfalso. pose proof (parseEvent_total e) as Hp. destruct (parseEvent e) as [ev|msg|] eqn:E; [|..|done]; (eapply nf_no_step; [done|]).
    + by eapply by_watcher, w_parse.
    + by eapply by_watcher, w_parse_error.
Qed.
Lemma nf_processor ends c : nf (step ends) c -> processor c = PExited /\ ctxDone c = true \/
  processor c <> PExited /\ ctxDone c = false /\ processor c = PReceive /\ incomingEventChan c = [] \/ processor c = PExited /\ ctxDone c = false.
Proof.
  intros Hn. pose proof (nf_receiver ends c Hn) as Hr. destruct (processor c) as [|m|] eqn:Ep.
  - destruct (ctxDone c) eqn:Ed; [exfalso; eapply nf_no_step; [done|]; eapply by_processor, p_exit; congruence|].
    destruct (incomingEventChan c) as [|e i] eqn:Ei; [by right; left|]. exfalso.
    destruct (transform e) as [m|] eqn:Et; (eapply nf_no_step; [done|]); [by eapply by_processor, p_take | by eapply by_processor, p_skip].
  - exfalso. eapply nf_no_step; [done|]. eapply by_processor, p_send; [done|]. rewrite Hr. cbn. unfold outgoingBufSize. lia.
  - destruct (ctxDone c); auto.
Qed.

Lemma running_reachable ends rs c : reachableRunning ends rs c -> reachable ends rs c.
Proof. apply rtc_subrel. by left. Qed.
(** Without [Stop] and without the end of the client's channel the context lives. *)
Lemma running_alive rs c : reachableRunning false rs c -> ctxDone c = false /\ watchClosed c = false.
Proof.
  revert c. apply rtc_ind_r; [done|]. intros c c' _ Hs [Hd Hw].
  destruct Hs as [Hs|Hs|Hs|Hs]; destruct Hs; cbn; try done; try congruence; [naive_solver | naive_solver].
Qed.

(** C9: A watch delivers.  As long as the receiver keeps receiving, the watch is not stopped and the
    client does not end it, every run of the goroutines, in whatever order they are scheduled,
    comes to rest after finitely many steps, and then every changed session of all responses (up
    to the first error) has been received, in order: no goroutine waits for another for ever,
    although both channels are bounded. *)
Theorem watch_delivers rs c :
  reachableRunning false rs c ->
  sn (step false) c /\ forall c', rtc (step false) c c' -> nf (step false) c' -> received c' = sessionsOf rs.
Proof.
  intros Hr. split; [apply step_terminates|]. intros c' Hc Hn. assert (reachableRunning false rs c') as Hr' by (unfold reachableRunning in *; by etrans).
  destruct (running_alive rs c' Hr') as [Hd _]. pose proof (watch_ordered false rs c' (running_reachable _ _ _ Hr')) as [_ Hf _ _ _ Hp _ _].
  rewrite <- (Hf Hd). destruct (nf_processor false c' Hn) as [[_ E]|[(_ & _ & Ep & Ei)|[E _]]]; [congruence | | specialize (Hp E); congruence].
  unfold flow, held. rewrite (nf_receiver false c' Hn), Ep, Ei. cbn [app].
  assert (pending c' = []) as ->; [|by rewrite app_nil_r].
  unfold pending. destruct (nf_watcher false c' Hn) as [->|(-> & -> & -> & _)]; [|done..]. rewrite Ei. cbn. unfold incomingBufSize. lia.
Qed.

(** ** Shutting down *)
Lemma nf_done ends rs c : reachable ends rs c -> nf (step ends) c -> ctxDone c = true ->
  watcher c = WExited /\ processor c = PExited /\ runner c = RExited /\ resultChan c = [].
Proof.
  intros Hr Hn Hd. destruct (nf_processor ends c Hn) as [[Ep _]|[(_ & E & _)|[_ E]]]; [|congruence..].
  split_and!; [| done | | by eapply nf_receiver].
  - destruct (watcher c) as [|ev|] eqn:Ew; [| |done]; exfalso.
    + destruct (batch c) as [|e b] eqn:Eb; [eapply nf_no_step; [done|]; eapply by_watcher, w_end; auto|].
      pose proof (parseEvent_total e) as Hp. destruct (parseEvent e) as [ev|msg|] eqn:E; [|..|done]; (eapply nf_no_step; [done|]);
        [by eapply by_watcher, w_parse | by eapply by_watcher, w_parse_error].
    + eapply nf_no_step; [done|]. by eapply by_watcher, w_drop.
  - destruct (runner c) eqn:Er; [| |done]; exfalso; (eapply nf_no_step; [done|]);
      [eapply by_runner, r_cancel; auto | by eapply by_runner, r_close].
Qed.
(** After [Stop] every run ends with all goroutines gone and the channel closed and empty. *)
Lemma stop_shuts_down ends rs c c' : reachable ends rs c -> rtc (step ends) (cancel c) c' -> nf (step ends) c' ->
  watcher c' = WExited /\ processor c' = PExited /\ runner c' = RExited /\ resultChan c' = [].
Proof.
  intros Hr Hc Hn. assert (reachable ends rs c') as Hr'.
  { unfold reachable in *. etrans; [exact Hr|]. eapply rtc_l; [by apply stop|]. eapply rtc_subrel; [|exact Hc]. by left. }
  apply (nf_done ends rs c' Hr' Hn). assert (forall x y, rtc (step ends) x y -> ctxDone x = true -> ctxDone y = true) as Hk.
  { induction 1 as [|x y z Hs _ IH]; [done|]. intros Hx. apply IH. eapply ctxDone_step; [by left | done]. }
  by eapply Hk.
Qed.

(** ** Errors *)
Definition unparsable (e : Event) : bool := match parseEvent e with Ok _ => false | _ => true end.
Definition failing (r : watchResponse) : bool := match r with WatchErr _ => true | Events es => existsb unparsable es end.

(** The watch runs, and its watcher has met an error or will. *)
Record doomed (c : watchChan) : Prop := {
  doomed_runner : runner c = RSelect; doomed_ctx : ctxDone c = false; doomed_open : watchClosed c = false;
  doomed_ahead : watcher c = WExited \/ existsb unparsable (batch c) || existsb failing (stream c) = true }.

Lemma doomed_step ends c c' : doomed c -> step ends c c' -> doomed c'.
Proof.
  intros [Hr Hd Ho Ha] [Hs|Hs|Hs|Hs].
  - destruct Hs as [es s Hw Hb Hst|msg s Hw Hb Hst|e b ev Hw Hb Hp|e b msg Hw Hb Hp|ev Hw Hl|ev Hw Hdone|Hw Hb Hor];
      destruct Ha as [Ha|Ha]; try congruence.
    + constructor; cbn; [done..|right]. by rewrite Hb, Hst in Ha.
    + constructor; cbn; [done..|by left].
    + constructor; cbn; [done..|right]. rewrite Hb in Ha. cbn in Ha. unfold unparsable at 1 in Ha. by rewrite Hp in Ha.
    + constructor; cbn; [done..|by left].
    + constructor; cbn; [done..|by right].
    + exfalso. destruct Hor as [[Hst _]|?]; [by rewrite Hb, Hst in Ha | congruence].
  - by destruct Hs; try congruence; constructor.
  - destruct Hs as [Hs Hor|Hs Hp]; [destruct Hor; congruence | congruence].
  - by destruct Hs; constructor.
Qed.

(** C32: A watch that meets an error hangs.  When the server reports an error, or an event arrives
    without the value it replaces, the goroutine that reads the responses ends without a word:
    whatever the client does afterwards and however the goroutines are scheduled, the context is
    never cancelled and the channel of results never closed, and where the run comes to rest only
    the sessions before the error have been received. *)
Theorem error_hangs ends rs c :
  existsb failing rs = true -> reachableRunning ends rs c ->
  runner c = RSelect /\ ctxDone c = false /\ watchClosed c = false /\
  (nf (step ends) c -> watcher c = WExited /\ received c = sessionsOf rs).
Proof.
  intros Hf Hr. assert (doomed c) as [Hrun Hd Ho Ha].
  { revert c Hr. apply rtc_ind_r; [by constructor; auto|]. intros c c' _ Hs Hc. by eapply doomed_step. }
  split_and!; [done..|]. intros Hn. pose proof (watch_ordered ends rs c (running_reachable _ _ _ Hr)) as [_ Hflow _ _ _ Hp _ _].
  destruct (nf_processor ends c Hn) as [[_ E]|[(_ & _ & Ep & Ei)|[E _]]]; [congruence | | specialize (Hp E); congruence].
  assert (watcher c = WExited) as Hw.
  { destruct (nf_watcher ends c Hn) as [Hw|(Hw & Hb & Hst & _)]; [rewrite Ei; cbn; unfold incomingBufSize; lia | done |].
    destruct Ha as [Ha|Ha]; [done|]. by rewrite Hb, Hst in Ha. }
  split; [done|]. rewrite <- (Hflow Hd). unfold flow, held, pending. rewrite (nf_receiver ends c Hn), Ep, Ei, Hw. cbn. by rewrite app_nil_r.
Qed.

(** ** The transaction manager *)

(** A receive on the channel of results: a session, or nil once it is closed and empty;
    [None] when it waits. *)
Definition receive (c : watchChan) : option (option M) :=
  match resultChan c, runner c with
  | m :: _, _ => Some (Some m)
  | [], RExited => Some None
  | [], _ => None
  end.
(** The assertion of the handler of the queue that its item is a branch session. *)
Definition queueItem (obj : option M) : res M := match obj with Some bs => Ok bs | None => Panic end.
(** A turn of [watchBranchSession] and the handler that takes what it queued. *)
Definition watchTurn (c : watchChan) : option (res M) := queueItem <$> receive c.

(** Without errors the watcher ends only by closing its channel. *)
Lemma healthy_watcher ends rs c : existsb failing rs = false -> reachable ends rs c ->
  (watcher c = WExited -> watchClosed c = true) /\ existsb unparsable (batch c) = false /\ existsb failing (stream c) = false.
Proof.
  intros Hf. revert c. apply rtc_ind_r; [done|]. intros c c' _ [[Hs|Hs|Hs|Hs]|Hs] (Hw' & Hb' & Hst').
  - destruct Hs as [es s Hw Hb Hst|msg s Hw Hb Hst|e b ev Hw Hb Hp|e b msg Hw Hb Hp|ev Hw Hl|ev Hw Hd|Hw Hb Hor]; cbn.
    + rewrite Hst in Hst'. cbn in Hst'. apply orb_false_iff in Hst' as [? ?]. by rewrite Hw.
    + by rewrite Hst in Hst'.
    + rewrite Hb in Hb'. cbn in Hb'. by apply orb_false_iff in Hb' as [? ?].
    + rewrite Hb in Hb'. cbn in Hb'. unfold unparsable at 1 in Hb'. by rewrite Hp in Hb'.
    + done.
    + done.
    + done.
  - by destruct Hs.
  - by destruct Hs.
  - by destruct Hs.
  - by subst.
Qed.

(** A watch that ends takes the process with it.  When the client ends a watch that met no
    error, every run comes to rest with all goroutines gone and the channel closed; the next turn
    of [watchBranchSession] receives nil from the closed channel and queues it, and the handler of
    the queue panics on its type. *)
Theorem ended_watch_panics rs c :
  existsb failing rs = false -> reachableRunning true rs c ->
  sn (step true) c /\
  forall c', rtc (step true) c c' -> nf (step true) c' -> runner c' = RExited /\ watchTurn c' = Some Panic.
Proof.
  intros Hf Hr0. split; [apply step_terminates|]. intros c' Hc Hn.
  assert (reachableRunning true rs c') as Hr by (unfold reachableRunning in *; by etrans). clear c Hr0 Hc. rename c' into c.
  pose proof (running_reachable _ _ _ Hr) as Hr'.
  assert (ctxDone c = true) as Hd.
  { destruct (ctxDone c) eqn:Hd; [done|]. pose proof (watch_ordered true rs c Hr') as [_ _ _ _ Hrun Hp _ _].
    destruct (nf_processor true c Hn) as [[_ E]|[(_ & _ & Ep & Ei)|[E _]]]; [congruence | | specialize (Hp E); congruence].
    assert (runner c = RSelect) as Er by (destruct (runner c); [done | |]; by rewrite Hrun in Hd).
    assert (watcher c = WExited) as Ew.
    { destruct (nf_watcher true c Hn) as [Hw|(_ & _ & _ & ? & _)]; [rewrite Ei; cbn; unfold incomingBufSize; lia | done | done]. }
    exfalso. eapply nf_no_step; [done|]. apply by_runner, r_cancel; [done|left]. by apply (healthy_watcher true rs c Hf Hr'). }
  destruct (nf_done true rs c Hr' Hn Hd) as (_ & _ & E & Er). split; [done|]. unfold watchTurn, receive. by rewrite E, Er.
Qed.
End watch.

(** ** The events of a transaction

    etcd reports every key a transaction wrote, with the value it had before; [created] are the
    revisions at which the stored keys were made. *)
Section store.
Context {BC : Codec BranchSession.t} (partial : string -> BranchSession.t) (created : string -> Z).

Definition prevOf (s : snapshot) (k : string) : option KeyValue :=
  (fun kv => mkKeyValue k (Value kv) (created k) (ModRevision kv)) <$> kvs s !! k.
Definition opEvent (prefix : string) (s : snapshot) (o : op) : option Event :=
  match o with
  | OpPut k v =>
    if HasPrefix k prefix then
      let r := Revision s + 1 in
      Some (mkEvent PUT (mkKeyValue k v (match kvs s !! k with Some _ => created k | None => r end) r) (prevOf s k))
    else None
  | OpDelete k =>
    if HasPrefix k prefix then
      match prevOf s k with
      | Some prev => Some (mkEvent DELETE (mkKeyValue k EmptyString 0 (Revision s + 1)) (Some prev))
      | None => None
      end
    else None
  end.
Definition watchEvents (prefix : string) (s : snapshot) (ops : list op) : list Event := omap (opEvent prefix s) ops.

Definition changeOf (e : Event) : list BranchSession.t := match parseEvent e with Ok ev => option_list (transform partial ev) | _ => [] end.
Lemma sessionsOf_events es : Forall (fun e => unparsable e = false) es -> sessionsOf partial [Events es] = es ≫= changeOf.
Proof.
  unfold sessionsOf. cbn. induction 1 as [|e es He _ IH]; [done|]. cbn. unfold changeOf at 1. unfold unparsable in He.
  destruct (parseEvent e) as [ev| |]; [|done..]. cbn. rewrite IH. by destruct (transform partial ev).
Qed.
Lemma opEvent_parses prefix s o e : opEvent prefix s o = Some e -> unparsable e = false.
Proof.
  unfold opEvent, unparsable, parseEvent, prevOf. destruct o as [k v|k]; destruct (HasPrefix k prefix); [|done| |done];
    destruct (kvs s !! k) as [kv|]; cbn; intros [= <-]; cbn; try done. unfold IsCreate. cbn. by rewrite Z.eqb_refl.
Qed.
Lemma watchEvents_parse prefix s ops : Forall (fun e => unparsable e = false) (watchEvents prefix s ops).
Proof. apply Forall_forall. intros e (o & _ & Ho)%list_elem_of_omap. by eapply opEvent_parses. Qed.

Lemma advances_change prefix s status key bs ops :
  HasPrefix key prefix = true -> created key <= Revision s -> branchAt s key bs -> advances s status key ops ->
  watchEvents prefix s ops ≫= changeOf =
  if BranchSession.Status bs =? Registered then [BranchSession.set_Status status bs] else [].
Proof.
  intros Hp Hc (kv & Ek & Eu) (bs' & (kv' & Ek' & Eu') & Hor). assert (bs' = bs) as -> by congruence.
  destruct Hor as [(Hr & data & -> & _ & Hd)|[Hr ->]].
  - rewrite (proj2 (Z.eqb_eq _ _) Hr). cbn. rewrite Hp. unfold prevOf. rewrite Ek. cbn. unfold changeOf, parseEvent, transform, IsCreate, decoded. cbn.
    rewrite (proj2 (Z.eqb_neq (created key) (Revision s + 1))) by lia. cbn. by rewrite Hd.
  - by rewrite (proj2 (Z.eqb_neq _ _) Hr).
Qed.

(** C8: The second phase reaches the queue.  The writes of [phaseTwo] for the branches of a
    transaction, applied in one revision together with the writes before them, make etcd report
    events from which every run of the watch on the branches of the application that comes to
    rest has received exactly the registered branches, each with its new status, in order. *)
Theorem second_phase_delivered appID status s keys bss ops0 :
  Forall2 (fun k bs => branchAt s k bs /\ codec_wf (BranchSession.set_Status status bs)) keys bss ->
  Forall (fun k => HasPrefix k ("bs/" +:+ appID) = true /\ created k <= Revision s) keys ->
  watchEvents ("bs/" +:+ appID) s ops0 = [] ->
  exists ops, runOn (phaseTwo status keys ops0) s = (Ok (ops0 ++ ops), s) /\
    forall c, reachableRunning partial false [Events (watchEvents ("bs/" +:+ appID) s (ops0 ++ ops))] c ->
      nf (step partial false) c ->
      received c = BranchSession.set_Status status <$> List.filter (fun bs => BranchSession.Status bs =? Registered) bss.
Proof.
  intros Hb Hk H0. destruct (run_phaseTwo status s keys ops0) as (opss & Hrun & Hall).
  { clear -Hb. induction Hb as [|k bs keys bss Hkb _ IH]; constructor; [by exists bs | done]. }
  exists (concat opss). split; [done|]. intros c Hr Hn.
  destruct (watch_delivers partial _ c Hr) as [_ Hd]. rewrite (Hd c (rtc_refl _ _) Hn), sessionsOf_events by apply watchEvents_parse.
  unfold watchEvents at 1. rewrite omap_app. fold (watchEvents ("bs/" +:+ appID) s ops0). rewrite H0. cbn [app].
  clear -Hb Hk Hall. revert opss Hall. induction Hb as [|k bs keys bss [Hkb _] _ IH]; intros opss Hall; inversion Hall as [|? ops ? opss' Ha Hall']; subst; [done|].
  apply Forall_cons in Hk as [[Hp Hc] Hk]. cbn [concat]. rewrite omap_app, bind_app.
  change (omap (opEvent ("bs/" +:+ appID) s) ops) with (watchEvents ("bs/" +:+ appID) s ops).
  rewrite (advances_change _ s status k bs ops), (IH Hk) by done. cbn [List.filter]. by destruct (_ =? _).
Qed.
End store.

(** ** Examples *)
Definition nothingDecoded (v : string) : BranchSession.t := BranchSession.zero.
Definition firstRevision (k : string) : Z := 1.
Definition committing : BranchSession.t := BranchSession.set_Status PhaseTwoCommitting bs1.
(** The store of [StoreSpec] when its transaction is committed, as the watch sees it. *)
Definition commitEvents : list watchResponse :=
  [Events (watchEvents firstRevision "bs/app" sample [OpPut "bs/app/7" (str (marshal committing))])].

Lemma watch_delivers_witness :
  sn (step nothingDecoded false) (createWatchChan commitEvents) /\
  forall c', rtc (step nothingDecoded false) (createWatchChan commitEvents) c' -> nf (step nothingDecoded false) c' -> received c' = [committing].
Proof.
  destruct (watch_delivers nothingDecoded commitEvents (createWatchChan commitEvents) (rtc_refl _ _)) as [Hsn Hd]. split; [exact Hsn|].
  intros c' Hc Hn. rewrite (Hd c' Hc Hn). vm_compute. reflexivity.
Defined.

Lemma watch_ordered_witness : watch_inv nothingDecoded commitEvents (cancel (createWatchChan commitEvents)).
Proof. apply (watch_ordered nothingDecoded true commitEvents), rtc_once, stop. reflexivity. Defined.

Lemma error_hangs_witness :
  let rs := [WatchErr "mvcc: required revision has been compacted"] in
  let c := setWatcher WExited (createWatchChan (M := BranchSession.t) []) in
  runner c = RSelect /\ ctxDone c = false /\ watchClosed c = false /\
  (nf (step nothingDecoded true) c -> watcher c = WExited /\ received c = []).
Proof.
  apply (error_hangs nothingDecoded true [WatchErr "mvcc: required revision has been compacted"]); [reflexivity|].
  eapply rtc_once, by_watcher, (w_error _ (createWatchChan _)); reflexivity.
Defined.

Lemma ended_watch_panics_witness :
  sn (step nothingDecoded true) (createWatchChan commitEvents) /\
  forall c', rtc (step nothingDecoded true) (createWatchChan commitEvents) c' -> nf (step nothingDecoded true) c' ->
    runner c' = RExited /\ watchTurn c' = Some Panic.
Proof. apply (ended_watch_panics nothingDecoded commitEvents); [vm_compute; reflexivity | apply rtc_refl]. Defined.

Lemma second_phase_delivered_witness :
  exists ops, runOn (phaseTwo PhaseTwoCommitting ["bs/app/7"%string] []) sample = (Ok ops, sample) /\
    forall c, reachableRunning nothingDecoded false [Events (watchEvents firstRevision "bs/app" sample ops)] c ->
      nf (step nothingDecoded false) c -> received c = [committing].
Proof.
  destruct (second_phase_delivered nothingDecoded firstRevision "app" PhaseTwoCommitting sample ["bs/app/7"%string] [bs1] []) as (ops & Hrun & Hd).
  - constructor; [split; [apply sample_branch | concrete_wf] | constructor].
  - constructor; [split; [reflexivity | vm_compute; discriminate] | constructor].
  - reflexivity.
  - exists ops. split; [exact Hrun | exact Hd].
Defined.

(** A run of that watch: the session is received, then the client ends the watch. *)
Lemma single_run partial e ev (m : BranchSession.t) : parseEvent e = Ok ev -> transform partial ev = Some m ->
  exists c, rtc (step partial true) (createWatchChan [Events [e]]) c /\
    received c = [m] /\ runner c = RExited /\ watchTurn c = Some Panic.
Proof.
  intros Hp Ht. eexists. split.
  - eapply rtc_l; [by eapply by_watcher, w_response|]. eapply rtc_l; [by eapply by_watcher, w_parse|].
    eapply rtc_l; [eapply by_watcher, w_send; [done | cbn; unfold incomingBufSize; lia]|].
    eapply rtc_l; [by eapply by_processor, p_take|].
    eapply rtc_l; [eapply by_processor, p_send; [done | cbn; unfold outgoingBufSize; lia]|].
    eapply rtc_l; [by eapply by_receiver, u_receive|].
    eapply rtc_l; [eapply by_watcher, w_end; [done | done | by left]|].
    eapply rtc_l; [eapply by_runner, r_cancel; [done | by left]|].
    eapply rtc_l; [by eapply by_processor, p_exit|].
    eapply rtc_l; [by eapply by_runner, r_close|]. apply rtc_refl.
  - done.
Qed.

(** The prefix of an application is not closed by a slash: the watch of [app] also delivers the
    branches of [app2], whose second phase its manager then runs. *)
Example foreign_branch_delivered :
  sessionsOf nothingDecoded [Events [mkEvent PUT (mkKeyValue "bs/app2/9" (str (marshal committing)) 3 5) (Some (mkKeyValue "bs/app2/9" EmptyString 3 3))]]
    = [committing] /\
  HasPrefix "bs/app2/9" "bs/app" = true.
Proof. split; vm_compute; reflexivity. Qed.
(** What cannot be decoded is delivered all the same. *)
Example broken_session_delivered partial :
  sessionsOf partial [Events [mkEvent PUT (mkKeyValue "bs/app/9" "x" 3 5) (Some (mkKeyValue "bs/app/9" EmptyString 3 3))]] = [partial "x"%string].
Proof. vm_compute. reflexivity. Qed.
