(* ===== verification/RequestContext.v ===== *)
(** * The request context of a TCC branch (pkg/dt/context.go)

    [Encode] writes three blocks, each a big-endian 32-bit length and that many
    bytes: the action context and the headers as JSON, and the body.  The JSON
    encoder and decoder are the interface [Json]: encoding/json restores a map
    of valid UTF-8 strings (other bytes are replaced by U+FFFD), and decoding
    into a map keeps the entries the map already has. *)
From Stdlib Require Import ZArith Lia List.
From stdpp Require Import base gmap strings list countable.
From S2P Require Import Prelude GoText Encoding.

Local Open Scope Z_scope.

Abbreviation stringMap := (gmap string string).

(** [utf8.ValidString]: shortest encodings of code points up to U+10FFFF that
    are not surrogates. *)
Definition between (lo hi b : Z) : bool := (lo <=? b) && (b <=? hi).
Definition isCont : Z -> bool := between 128 191.
Fixpoint validUtf8 (b : bytes) : bool :=
  match b with
  | [] => true
  | c :: b1 =>
      if between 0 127 c then validUtf8 b1 else
      match b1 with
      | [] => false
      | c1 :: b2 =>
          if between 194 223 c then isCont c1 && validUtf8 b2 else
          match b2 with
          | [] => false
          | c2 :: b3 =>
              if between 224 239 c then
                between (if c =? 224 then 160 else 128) (if c =? 237 then 159 else 191) c1 &&
                isCont c2 && validUtf8 b3
              else
              match b3 with
              | [] => false
              | c3 :: b4 =>
                  between 240 244 c &&
                  between (if c =? 240 then 144 else 128) (if c =? 244 then 143 else 191) c1 &&
                  isCont c2 && isCont c3 && validUtf8 b4
              end
          end
      end
  end.
Definition ValidString (s : string) : bool := validUtf8 (map chr (list_of s)).
Definition validMap (m : stringMap) : Prop :=
  map_Forall (fun k v => ValidString k = true /\ ValidString v = true) m.

Class Json := {
  json_Marshal : stringMap -> bytes;
  json_Unmarshal : bytes -> stringMap -> stringMap * option string;
  json_nonempty : forall m, json_Marshal m <> [];
  json_roundtrip : forall m old, validMap m -> json_Unmarshal (json_Marshal m) old = (m ∪ old, None) }.

Record RequestContext := mkContext {
  ActionContext : stringMap; Headers : stringMap; Body : bytes }.

(** [w.WriteUint32(n)] and [r.ReadUint32()], big-endian. *)
Definition WriteUint32BE (n : Z) : bytes := rev (le 4 n).
Definition EOF : string := "EOF".
Definition ReadUint32BE (r : bytes) : res (Z * bytes) :=
  if bool_decide (4 <= length r)%nat then Ok (unle (rev (take 4 r)), drop 4 r) else Err EOF.

(** [make([]byte, n)] filled by one [Read], whose count is not looked at: what
    the reader lacks stays zero. *)
Definition readBlock (n : Z) (r : bytes) : bytes * bytes :=
  let got := take (Z.to_nat n) r in
  (got ++ replicate (Z.to_nat n - length got) 0, drop (Z.to_nat n) r).

Section context.
Context `{Json}.

Definition encodeMap (m : stringMap) : bytes :=
  if decide (m = ∅) then WriteUint32BE 0
  else let data := json_Marshal m in WriteUint32BE (len data) ++ data.

Definition Encode (ctx : RequestContext) : bytes :=
  encodeMap (ActionContext ctx) ++ encodeMap (Headers ctx) ++
  WriteUint32BE (len (Body ctx)) ++ Body ctx.

(** A length and, when it is positive, the block. *)
Definition readLengthBlock (r : bytes) : res (option bytes * bytes) :=
  '(n, r) ← ReadUint32BE r;
  if 0 <? n then let '(data, r) := readBlock n r in Ok (Some data, r) else Ok (None, r).

(** An error of the JSON decoder is only logged. *)
Definition decodeMap (data : option bytes) (m : stringMap) : stringMap :=
  match data with None => m | Some d => fst (json_Unmarshal d m) end.

Definition Decode (b : bytes) (ctx : RequestContext) : res RequestContext :=
  '(actionContextData, r) ← readLengthBlock b;
  '(headersData, r) ← readLengthBlock r;
  '(bodyData, r) ← readLengthBlock r;
  Ok (mkContext (decodeMap actionContextData (ActionContext ctx)) (decodeMap headersData (Headers ctx))
        (default [] bodyData)).

(** What the caller decodes into. *)
Definition emptyContext : RequestContext := mkContext ∅ ∅ [].

(** ** Lemmas *)
Lemma ReadUint32BE_Write n rest :
  0 <= n < 4294967296 -> ReadUint32BE (WriteUint32BE n ++ rest) = Ok (n, rest).
Proof.
  intros Hn. unfold ReadUint32BE, WriteUint32BE.
  assert (Hl : length (rev (le 4 n)) = 4%nat) by (rewrite length_rev; apply length_le_from).
  rewrite bool_decide_true by (rewrite length_app; lia).
  rewrite take_app_length', drop_app_length' by done. rewrite rev_involutive, unle_le.
  change (2 ^ (8 * Z.of_nat 4)) with 4294967296. by rewrite Z.mod_small.
Qed.

Lemma readBlock_app data rest : readBlock (len data) (data ++ rest) = (data, rest).
Proof.
  unfold readBlock, len. rewrite Nat2Z.id, take_app_length, drop_app_length, Nat.sub_diag. cbn.
  by rewrite app_nil_r.
Qed.

Lemma readLengthBlock_app data rest :
  len data < 4294967296 ->
  readLengthBlock (WriteUint32BE (len data) ++ data ++ rest) =
    Ok (if 0 <? len data then Some data else None, rest).
Proof.
  intros Hl. pose proof (len_nonneg data). unfold readLengthBlock.
  rewrite ReadUint32BE_Write by lia. cbn [mbind res_bind].
  destruct (Z.ltb_spec 0 (len data)) as [Hp|Hz]; [by rewrite readBlock_app|].
  destruct data; [done|]. unfold len in Hz. cbn in Hz. lia.
Qed.

Lemma readLengthBlock_map m rest :
  validMap m -> len (json_Marshal m) < 4294967296 ->
  exists d, readLengthBlock (encodeMap m ++ rest) = Ok (d, rest) /\ decodeMap d ∅ = m.
Proof.
  intros Hv Hl. unfold encodeMap. destruct (decide (m = ∅)) as [->|Hm].
  - exists None. split; [|done]. apply (readLengthBlock_app []). done.
  - exists (Some (json_Marshal m)). rewrite <- app_assoc, readLengthBlock_app by done. split.
    + destruct (Z.ltb_spec 0 (len (json_Marshal m))) as [|Hz]; [done|].
      pose proof (json_nonempty m). destruct (json_Marshal m); [done|]. unfold len in Hz. cbn in Hz. lia.
    + cbn. rewrite json_roundtrip by done. cbn. apply (right_id_L ∅ (∪)).
Qed.
End context.

(** ** Round trip *)

(** A request context of valid UTF-8 strings whose blocks are shorter than 4 GB is restored by
    [Decode] from what [Encode] wrote. *)
Theorem RequestContext_roundtrip {J : Json} ctx :
  validMap (ActionContext ctx) -> validMap (Headers ctx) ->
  len (json_Marshal (ActionContext ctx)) < 4294967296 ->
  len (json_Marshal (Headers ctx)) < 4294967296 -> len (Body ctx) < 4294967296 ->
  Decode (Encode ctx) emptyContext = Ok ctx.
Proof.
  intros Hva Hvh Ha Hh Hb. unfold Decode, Encode.
  destruct (readLengthBlock_map (ActionContext ctx)
    (encodeMap (Headers ctx) ++ WriteUint32BE (len (Body ctx)) ++ Body ctx) Hva Ha) as (da & -> & Ea).
  cbn [mbind res_bind].
  destruct (readLengthBlock_map (Headers ctx) (WriteUint32BE (len (Body ctx)) ++ Body ctx) Hvh Hh) as (dh & -> & Eh).
  cbn [mbind res_bind]. rewrite <- (app_nil_r (Body ctx)) at 2. rewrite readLengthBlock_app by done.
  cbn [mbind res_bind ActionContext Headers emptyContext]. rewrite Ea, Eh. destruct ctx as [a h b]. cbn.
  destruct (Z.ltb_spec 0 (len b)) as [|Hz]; [done|]. destruct b; [done|]. unfold len in Hz. cbn in Hz. lia.
Qed.

(** A decoder for the bits of the maps' numbering, as an instance. *)
Definition bits_Unmarshal (b : bytes) (old : stringMap) : stringMap * option string :=
  match decode (unbits b) with
  | Some m => (m ∪ old, None)
  | None => (old, Some "invalid character"%string)
  end.

Lemma bits_nonempty (m : stringMap) : bits (encode m) <> [].
Proof. by destruct (encode m). Qed.
Lemma bits_roundtrip (m old : stringMap) : validMap m -> bits_Unmarshal (bits (encode m)) old = (m ∪ old, None).
Proof. intros _. unfold bits_Unmarshal. by rewrite unbits_bits, decode_encode. Qed.

#[export] Instance bits_Json : Json | 100 := {
  json_Marshal m := bits (encode m);
  json_Unmarshal := bits_Unmarshal;
  json_nonempty := bits_nonempty;
  json_roundtrip := bits_roundtrip }.

Definition sample_context : RequestContext :=
  mkContext {[ "host"%string := "svc:80"%string ]} ∅ [1; 2; 3].

Lemma RequestContext_roundtrip_sample : Decode (Encode sample_context) emptyContext = Ok sample_context.
Proof. vm_compute. reflexivity. Qed.
