(* ===== verification/TxManager.v ===== *)
(** * The distributed transaction manager (pkg/dt/transaction_manger.go)

    The manager drives the session store: it begins and ends transactions,
    registers branches, and its two work queues carry out the second phase and
    the time-outs.  A handler is a program over etcd that also returns the
    items it adds to the queues.  What the manager asks of databases (the undo
    log), of HTTP services and of the clock are arguments. *)
From Stdlib Require Import ZArith Lia List Ascii.
From stdpp Require Import base gmap strings list.
From S2P Require Import Prelude GoText Encoding Session Etcd Store StoreSpec RequestContext.

Local Open Scope Z_scope.

Record manager := mkManager {
  applicationID : string;
  retryDeadThreshold : Z;
  rollbackRetryTimeoutUnlockEnable : bool }.

Definition DefaultRetryDeadThreshold : Z := 130 * 1000.

(** The fields [RegisterTransactionManager] takes from the configuration. *)
Definition newManager (appID : string) (threshold : Z) (unlock : bool) : manager :=
  mkManager appID (if threshold =? 0 then DefaultRetryDeadThreshold else threshold) unlock.

(** Additions to the queues; delays in nanoseconds. *)
Inductive enqueue :=
| GlobalAddAfter (gs : GlobalSession.t) (delay : Z)
| GlobalAdd (gs : GlobalSession.t)
| BranchAdd (bs : BranchSession.t).

Definition millisecond : Z := 1000000.

(** The POST request [resty] sends: the fields of the [url.URL], the headers
    and the body. *)
Record HttpRequest := mkHttp {
  Scheme : string; Host : string; Path : string; RawQuery : string;
  HttpHeaders : stringMap; HttpBody : bytes }.

(** Services outside the manager: the databases known to the resource manager,
    the undo log of a database ([Undo] returns the lock keys it restored, also
    with an error), and the HTTP client, which yields a status code. *)
Record services := mkServices {
  hasDB : string -> bool;
  deleteUndoLogByXID : string -> string -> option string;
  undo : string -> string -> list string * option string;
  post : HttpRequest -> res Z }.

(** What [api.BranchRegisterRequest] carries. *)
Record BranchRegisterRequest := mkRequest {
  r_XID : string; r_ResourceID : string; r_LockKey : string; r_BranchType : Z;
  r_ApplicationData : bytes }.

Section manager.
Context {GC : Codec GlobalSession.t} {BC : Codec BranchSession.t} {J : Json}.
Context (m : manager) (svc : services).

(** [id] is what [uuid.NextID] returns and [now] what
    [misc.CurrentTimeMillis] returns. *)
Definition newGlobalSession (transactionName : string) (timeout id now : Z) : GlobalSession.t :=
  GlobalSession.mk ("gs/" +:+ applicationID m +:+ "/" +:+ FormatInt id) (applicationID m) id
    transactionName timeout (i64 now) Begin.

Definition BeginTx (transactionName : string) (timeout id now : Z) : go (string * list enqueue) :=
  let gt := newGlobalSession transactionName timeout id now in
  let! _ := AddGlobalSession gt in
  ok (GlobalSession.XID gt, [GlobalAddAfter gt (i64 (timeout * millisecond))]).

Definition Commit := GlobalCommit.
Definition Rollback := GlobalRollback.

Definition newBranchSession (r : BranchRegisterRequest) (id now : Z) : BranchSession.t :=
  BranchSession.mk ("bs/" +:+ applicationID m +:+ "/" +:+ FormatInt id) (applicationID m) id
    (r_XID r) (GetTransactionID (r_XID r)) (r_ResourceID r) (r_LockKey r) (r_BranchType r)
    Registered (r_ApplicationData r) (i64 now).

Definition BranchRegister (r : BranchRegisterRequest) (id now : Z) : go (string * Z) :=
  let bs := newBranchSession r id now in
  let! _ := AddBranchSession bs in
  ok (BranchSession.BranchID bs, id).

(** ** Second phase of a branch *)

(** A missing entry of the action context is the empty string. *)
Definition doHttpRequest (requestContext : RequestContext) (commit : bool) : res Z :=
  let entry name := default EmptyString (ActionContext requestContext !! name) in
  post svc (mkHttp "http" (entry "host"%string)
    (entry (if commit then "tcc_commit_request_path" else "tcc_rollback_request_path")%string)
    (entry "queryString"%string) (Headers requestContext) (Body requestContext)).

(** [tccBranchCommit] and [tccBranchRollback] differ in the status they keep
    on failure, in their messages and in the path they post to. *)
Definition tccBranch (commit : bool) (bs : BranchSession.t) : res (Z * option string) :=
  let status := if commit then PhaseTwoCommitting else PhaseTwoRollbacking in
  let name := (if commit then "tccBranchCommit" else "tccBranchRollback")%string in
  match Decode (BranchSession.ApplicationData bs) emptyContext with
  | Err e => Ok (status, Some ("error decoding bs.ApplicationData: " +:+ e)%string)
  | Panic => Panic
  | Ok requestContext =>
    match doHttpRequest requestContext commit with
    | Err e => Ok (status, Some ("error doHttpRequest for " +:+ name +:+ ": " +:+ e)%string)
    | Panic => Panic
    | Ok code =>
      if code =? 200 then Ok (Complete, None)
      else Ok (status, Some ("error " +:+ name +:+ " response code " +:+ FormatInt code)%string)
    end
  end.
Definition tccBranchCommit := tccBranch true.
Definition tccBranchRollback := tccBranch false.

Definition noDB (bs : BranchSession.t) : string :=
  "DB resource is not exist, db name: " +:+ BranchSession.ResourceID bs.

Definition atBranchCommit (bs : BranchSession.t) : Z * option string :=
  if negb (hasDB svc (BranchSession.ResourceID bs)) then (0, Some (noDB bs))
  else
    match deleteUndoLogByXID svc (BranchSession.ResourceID bs) (BranchSession.XID bs) with
    | Some e => (PhaseTwoCommitting, Some e)
    | None => (Complete, None)
    end.

Definition neverHappen : string := "should never happen!".

(** An error of the store that is only logged. *)
Definition logged {A} (p : go A) : go unit := attempt p (fun _ => ok tt) (fun _ => ok tt).

(** A completed branch is removed; the removal's error is only logged. *)
Definition removeIfComplete (status : Z) (bs : BranchSession.t) : go unit :=
  if status =? Complete then logged (DeleteBranchSession (BranchSession.BranchID bs)) else ok tt.

Definition branchCommit (bs : BranchSession.t) : go (Z * option string) :=
  if BranchSession.Type_ bs =? TCC then
    let! (status, err) := lift (tccBranchCommit bs) in
    let! _ := removeIfComplete status bs in ok (status, err)
  else if BranchSession.Type_ bs =? AT then
    let '(status, err) := atBranchCommit bs in
    let! _ := removeIfComplete status bs in ok (status, err)
  else ok (BranchSession.Status bs, Some neverHappen).

Definition atBranchRollback (bs : BranchSession.t) : go (Z * list string * option string) :=
  if negb (hasDB svc (BranchSession.ResourceID bs)) then ok (0, [], Some (noDB bs))
  else
    match undo svc (BranchSession.ResourceID bs) (BranchSession.XID bs) with
    | (lockKeys, Some e) => ok (BranchSession.Status bs, lockKeys, Some e)
    | ([], None) =>
      attempt (ReleaseLockKeys (BranchSession.ResourceID bs) [BranchSession.LockKey bs])
        (fun e => ok (BranchSession.Status bs, [], Some e))
        (fun _ => ok (Complete, [], None))
    | (lockKeys, None) => ok (Complete, lockKeys, None)
    end.

Definition branchRollback (bs : BranchSession.t) : go (Z * option string) :=
  let finishBranch '(status, lockKeys, err) :=
    let! _ := (match lockKeys with
      | [] => ok tt
      | _ => logged (ReleaseLockKeys (BranchSession.ResourceID bs) lockKeys)
      end) in
    let! _ := removeIfComplete status bs in
    ok (status, err) in
  if BranchSession.Type_ bs =? TCC then
    let! (status, err) := lift (tccBranchRollback bs) in finishBranch (status, [], err)
  else if BranchSession.Type_ bs =? AT then
    let! r := atBranchRollback bs in finishBranch r
  else ok (BranchSession.Status bs, Some neverHappen).

(** ** Time-outs, on uint64 *)
Definition isGlobalSessionTimeout (gs : GlobalSession.t) (now : Z) : bool :=
  u64 (now - u64 (GlobalSession.BeginTime gs)) >? u64 (GlobalSession.Timeout gs).

Definition IsRollingBackDead (bs : BranchSession.t) (now : Z) : bool :=
  u64 (now - u64 (BranchSession.BeginTime bs)) >? u64 (retryDeadThreshold m).

(** ** The queues *)

(** Items added by [branchSessionQueue.Add] for an outcome of a branch. *)
Definition requeue (bs : BranchSession.t) (status : Z) (err : option string) : list enqueue :=
  (match err with Some _ => [BranchAdd bs] | None => [] end) ++
  (if status =? Complete then [] else [BranchAdd bs]).

(** A branch whose rollback is given up. *)
Definition setAside (bs : BranchSession.t) : go unit :=
  let! _ := (if rollbackRetryTimeoutUnlockEnable m
             then logged (ReleaseLockKeys (BranchSession.ResourceID bs) [BranchSession.LockKey bs])
             else ok tt) in
  logged (SetBranchSessionDead bs).

Definition processNextBranchSession (bs : BranchSession.t) (now : Z) : go (list enqueue) :=
  if BranchSession.Status bs =? PhaseTwoCommitting then
    let! (status, err) := branchCommit bs in ok (requeue bs status err)
  else if BranchSession.Status bs =? PhaseTwoRollbacking then
    if IsRollingBackDead bs now then let! _ := setAside bs in ok []
    else let! (status, err) := branchRollback bs in ok (requeue bs status err)
  else ok [].

(** The keys of the branches still registered; an error is logged and leaves
    the slice nil. *)
Definition branchKeysOrNil (xid : string) : go (list string) :=
  attempt (GetBranchSessionKeys xid) (fun _ => ok []) (fun ks => ok ks).

Definition processNextGlobalSession (gs : GlobalSession.t) : go (list enqueue) :=
  attempt (GetGlobalSession (GlobalSession.XID gs)) (fun _ => ok []) (fun new =>
  let! added :=
    (if GlobalSession.Status new =? Begin then
      let! _ := logged (Rollback (GlobalSession.XID new)) in
      ok [GlobalAddAfter gs (i64 (GlobalSession.Timeout gs * millisecond))]
    else ok []) in
  let! _ :=
    (if (GlobalSession.Status new =? Committing) || (GlobalSession.Status new =? Rollbacking) then
      let! bsKeys := branchKeysOrNil (GlobalSession.XID new) in
      match bsKeys with
      | [] => logged (DeleteGlobalSession (GlobalSession.XID new))
      | _ => ok tt
      end
    else ok tt) in
  ok added).

(** ** Start of the master *)

(** [Rollback]'s status is dropped and its error returned. *)
Definition rollbackOrFail (xid : string) : go unit :=
  let! (_, err) := Rollback xid in
  match err with None => ok tt | Some e => fail e end.

(** [AddAfter(gs, time.Duration(delayAt))]: the difference of milliseconds is
    taken as a duration, which counts nanoseconds. *)
Definition schedule (gs : GlobalSession.t) (now : Z) : enqueue :=
  let delayAt := u64 (u64 (GlobalSession.Timeout gs) - u64 (now - u64 (GlobalSession.BeginTime gs))) in
  if delayAt >? 0 then GlobalAddAfter gs (i64 delayAt) else GlobalAdd gs.

Definition startGlobal (now : Z) (added : list enqueue) (gs : GlobalSession.t) : go (list enqueue) :=
  let! added :=
    (if GlobalSession.Status gs =? Begin then
      let! _ := (if isGlobalSessionTimeout gs now then rollbackOrFail (GlobalSession.XID gs) else ok tt) in
      ok (added ++ [schedule gs now])
    else ok added) in
  if (GlobalSession.Status gs =? Committing) || (GlobalSession.Status gs =? Rollbacking) then
    let! bsKeys := GetBranchSessionKeys (GlobalSession.XID gs) in
    match bsKeys with
    | [] => let! _ := DeleteGlobalSession (GlobalSession.XID gs) in ok added
    | _ => ok added
    end
  else ok added.

Definition processGlobalSessions (now : Z) (st : store) : go (list enqueue * store) :=
  let! (globalSessions, st') := ListGlobalSession (applicationID m) st in
  let! added := forEach (startGlobal now) [] globalSessions in
  ok (added, st').

Definition startBranch (now : Z) (added : list enqueue) (bs : BranchSession.t) : go (list enqueue) :=
  if BranchSession.Status bs =? PhaseOneFailed then
    let! _ := DeleteBranchSession (BranchSession.BranchID bs) in ok added
  else if BranchSession.Status bs =? PhaseTwoCommitting then ok (added ++ [BranchAdd bs])
  else if BranchSession.Status bs =? PhaseTwoRollbacking then
    if IsRollingBackDead bs now then
      let! _ := (if rollbackRetryTimeoutUnlockEnable m
                 then let! _ := ReleaseLockKeys (BranchSession.ResourceID bs) [BranchSession.LockKey bs] in ok tt
                 else ok tt) in
      let! _ := SetBranchSessionDead bs in
      ok added
    else ok (added ++ [BranchAdd bs])
  else ok added.

Definition processBranchSessions (now : Z) (st : store) : go (list enqueue * store) :=
  let! (branchSessions, st') := ListBranchSession (applicationID m) st in
  let! added := forEach (startBranch now) [] branchSessions in
  ok (added, st').

End manager.

(** ** Lemmas *)
Lemma run_logged {A} (p : go A) s r s' :
  runOn p s = (r, s') -> r <> Panic -> runOn (logged p) s = (Ok tt, s').
Proof.
  intros E Hr. unfold logged, attempt. rewrite runOn_bind, E. by destruct r.
Qed.

Section lemmas.
Context {GC : Codec GlobalSession.t} {BC : Codec BranchSession.t}.

Lemma no_links s xid : (forall bid, ~ link s xid bid) -> rangeOf s ("bs/" +:+ xid) = [].
Proof.
  intros Hn. destruct (rangeOf s ("bs/" +:+ xid)) as [|[k kv] l] eqn:E; [done|].
  assert (Hin : In (k, kv) (rangeOf s ("bs/" +:+ xid))) by (rewrite E; by left).
  apply rangeOf_In in Hin as [Ek Hp]. exfalso. apply (Hn (Value kv)). by exists k, kv.
Qed.

Lemma some_link s xid bid : link s xid bid -> rangeOf s ("bs/" +:+ xid) <> [].
Proof.
  intros (k & kv & E & Hp & <-) Hnil.
  assert (Hin : In (k, kv) (rangeOf s ("bs/" +:+ xid))) by (by apply rangeOf_In). by rewrite Hnil in Hin.
Qed.

Lemma run_branchKeysOrNil s xid :
  runOn (branchKeysOrNil xid) s = (Ok (rev (Value ∘ snd <$> rangeOf s ("bs/" +:+ xid))), s).
Proof. unfold branchKeysOrNil. by erewrite runOn_attempt by apply run_GetBranchSessionKeys. Qed.

Lemma run_DeleteGlobalSession s xid :
  exists s', runOn (DeleteGlobalSession xid) s = (Ok tt, s') /\
    forall k, kvs s' !! k = if decide (k = xid) then None else kvs s !! k.
Proof.
  exists (apply_ops s [OpDelete xid]). split; [done|]. intros k.
  pose proof (apply_deletes s fst [(xid, mkKV EmptyString 0)] k) as Hd. cbn in Hd. rewrite Hd.
  destruct (decide (k ∈ [xid])) as [->%list_elem_of_singleton|Hn]; [by rewrite decide_True|].
  rewrite decide_False; [done|]. intros ->. by apply Hn, list_elem_of_singleton.
Qed.

(** The part of [processNextGlobalSession] after the session was read. *)
Lemma run_processNext s gs new :
  globalAt s (GlobalSession.XID gs) new ->
  runOn (processNextGlobalSession gs) s =
  runOn (let! added :=
    (if GlobalSession.Status new =? Begin then
      let! _ := logged (Rollback (GlobalSession.XID new)) in
      ok [GlobalAddAfter gs (i64 (GlobalSession.Timeout gs * millisecond))]
    else ok []) in
  let! _ :=
    (if (GlobalSession.Status new =? Committing) || (GlobalSession.Status new =? Rollbacking) then
      let! bsKeys := branchKeysOrNil (GlobalSession.XID new) in
      match bsKeys with
      | [] => logged (DeleteGlobalSession (GlobalSession.XID new))
      | _ => ok tt
      end
    else ok tt) in
  ok added) s.
Proof.
  intros Hg. unfold processNextGlobalSession. by erewrite runOn_attempt by (by apply run_GetGlobalSession).
Qed.

Lemma processNext_ended s gs new :
  globalAt s (GlobalSession.XID gs) new -> GlobalSession.XID new = GlobalSession.XID gs ->
  GlobalSession.Status new = Committing \/ GlobalSession.Status new = Rollbacking ->
  ((forall bid, ~ link s (GlobalSession.XID gs) bid) ->
    exists s', runOn (processNextGlobalSession gs) s = (Ok [], s') /\
      forall k, kvs s' !! k = if decide (k = GlobalSession.XID gs) then None else kvs s !! k) /\
  (forall bid, link s (GlobalSession.XID gs) bid -> runOn (processNextGlobalSession gs) s = (Ok [], s)).
Proof.
  intros Hg Hx Hst. rewrite (run_processNext _ _ _ Hg).
  assert (Hb : (GlobalSession.Status new =? Begin) = false) by (destruct Hst as [-> | ->]; done).
  assert (Hcr : (GlobalSession.Status new =? Committing) || (GlobalSession.Status new =? Rollbacking) = true)
    by (destruct Hst as [-> | ->]; done).
  rewrite Hb, Hcr. erewrite runOn_go by reflexivity. rewrite Hx. split.
  - intros Hn. destruct (run_DeleteGlobalSession s (GlobalSession.XID gs)) as (s' & Hrun & Hk).
    exists s'. split; [|exact Hk]. erewrite runOn_go; [reflexivity|].
    erewrite runOn_go by apply run_branchKeysOrNil. rewrite no_links by done. cbn [fmap list_fmap rev].
    by eapply run_logged.
  - intros bid Hl. erewrite runOn_go; [reflexivity|]. erewrite runOn_go by apply run_branchKeysOrNil.
    destruct (rev _) as [|k ks] eqn:E; [|done]. exfalso. apply (some_link _ _ _ Hl).
    apply (f_equal (@length string)) in E. rewrite length_rev, length_fmap in E.
    by destruct (rangeOf s _).
Qed.
End lemmas.

(** ** Claims *)
Section claims.
Context {GC : Codec GlobalSession.t} {BC : Codec BranchSession.t}.

(** The queue handler on a session that is stored: an open transaction is
    rolled back and scheduled again; a decided one with no branch left is
    deleted and nothing else changes; a decided one with branches left is kept
    as it is. *)
Theorem processNextGlobalSession_effect s gs new :
  globalAt s (GlobalSession.XID gs) new -> GlobalSession.XID new = GlobalSession.XID gs ->
  (GlobalSession.Status new = Begin -> codec_wf (GlobalSession.set_Status Rollbacking new) ->
   linked s (GlobalSession.XID gs) PhaseTwoRollbacking ->
   exists s', runOn (processNextGlobalSession gs) s =
       (Ok [GlobalAddAfter gs (i64 (GlobalSession.Timeout gs * millisecond))], s') /\
     globalAt s' (GlobalSession.XID gs) (GlobalSession.set_Status Rollbacking new) /\
     forall bid bs, link s (GlobalSession.XID gs) bid -> branchAt s bid bs ->
       branchAt s' bid (advance PhaseTwoRollbacking bs)) /\
  (GlobalSession.Status new = Committing \/ GlobalSession.Status new = Rollbacking ->
   ((forall bid, ~ link s (GlobalSession.XID gs) bid) ->
    exists s', runOn (processNextGlobalSession gs) s = (Ok [], s') /\
      forall k, kvs s' !! k = if decide (k = GlobalSession.XID gs) then None else kvs s !! k) /\
   (forall bid, link s (GlobalSession.XID gs) bid -> runOn (processNextGlobalSession gs) s = (Ok [], s))).
Proof.
  intros Hg Hx. split; [|intros Hst; by apply (processNext_ended s gs new)].
  intros Hb Hwf Hl.
  destruct (endGlobal_effect Rollbacking PhaseTwoRollbacking
    ("update status to rollbacking failed, xid " +:+ GlobalSession.XID gs) s (GlobalSession.XID gs) new)
    as (s' & Hrun & Hg' & Hb' & _); [done | by rewrite Hb | done | done|].
  exists s'. split; [|split; [done | exact Hb']]. rewrite (run_processNext _ _ _ Hg), Hx, Hb.
  change (Begin =? Begin) with true. cbv iota.
  erewrite runOn_go by (by erewrite runOn_go by (by eapply run_logged)). done.
Qed.

(** A branch set aside as dead keeps its link to the transaction, so the
    global session of its rolling-back transaction is never deleted: the
    handler finds a branch left and does nothing. *)
Theorem dead_branch_keeps_session s gs new bs kv :
  globalAt s (GlobalSession.XID gs) new -> GlobalSession.XID new = GlobalSession.XID gs ->
  GlobalSession.Status new = Rollbacking -> codec_wf bs ->
  let linkKey := BranchKeyFormat (GlobalSession.XID gs) (BranchSession.BranchSessionID bs) in
  kvs s !! linkKey = Some kv ->
  (forall k, k = linkKey \/ k = GlobalSession.XID gs ->
     k <> BranchSession.BranchID bs /\ k <> DeadBranchKeyFormat (BranchSession.BranchID bs)) ->
  exists s', runOn (SetBranchSessionDead bs) s = (Ok tt, s') /\
    runOn (processNextGlobalSession gs) s' = (Ok [], s').
Proof.
  intros (kv0 & Ek0 & Eu0) Hx Hst Hwf linkKey Ek Hne. destruct (codec_roundtrip _ Hwf) as (data & Em & Eu).
  set (ops := [OpPut (DeadBranchKeyFormat (BranchSession.BranchID bs)) data; OpDelete (BranchSession.BranchID bs)]).
  assert (Htx : txn_ok ops = true).
  { unfold txn_ok. cbn -[bool_decide]. rewrite bool_decide_true by apply NoDup_singleton.
    rewrite bool_decide_true; [done|]. rewrite list_elem_of_singleton. intros E.
    apply (f_equal String.length) in E. cbn in E.
    change (String.length (DeadBranchKeyFormat (BranchSession.BranchID bs)))
      with (S (S (S (S (S (String.length (BranchSession.BranchID bs))))))) in E. lia. }
  assert (Hkeep : forall k, k = linkKey \/ k = GlobalSession.XID gs -> kvs (apply_ops s ops) !! k = kvs s !! k).
  { intros k [H1 H2]%Hne. apply apply_ops_notin; cbn; by rewrite list_elem_of_singleton. }
  exists (apply_ops s ops). split.
  - unfold SetBranchSessionDead. erewrite runOn_go by (cbn; by rewrite Em). fold ops.
    by erewrite runOn_go by (by apply runOn_Txn).
  - eapply (processNext_ended _ gs new); [|done|by right|].
    + exists kv0. split; [|done]. rewrite Hkeep by (by right). exact Ek0.
    + exists linkKey, kv. rewrite Hkeep by (by left). split; [done|]. split; [|reflexivity].
      apply HasPrefix_app. clear. unfold HasPrefix. induction (GlobalSession.XID gs) as [|c x IH]; [done|].
      change (Ascii.eqb c c && HasPrefix (x +:+ "/" +:+ FormatInt (BranchSession.BranchSessionID bs)) x = true).
      rewrite Ascii.eqb_refl. exact IH.
Qed.
End claims.

(** With a clock and a start time below 2^63 milliseconds, a transaction
    is timed out exactly when more than its timeout has passed, or when its
    start time lies in the future: the unsigned difference then wraps. *)
Theorem isGlobalSessionTimeout_iff gs now :
  0 <= now < two63 -> 0 <= GlobalSession.BeginTime gs < two63 ->
  0 <= GlobalSession.Timeout gs < 2147483648 ->
  isGlobalSessionTimeout gs now = true <->
    GlobalSession.Timeout gs < now - GlobalSession.BeginTime gs \/ now < GlobalSession.BeginTime gs.
Proof.
  intros Hn Hb Ht. unfold isGlobalSessionTimeout. rewrite Z.gtb_ltb, Z.ltb_lt.
  rewrite (u64_id (GlobalSession.BeginTime gs)), (u64_id (GlobalSession.Timeout gs)) by (unfold_width; lia).
  destruct (Z.le_gt_cases (GlobalSession.BeginTime gs) now).
  - rewrite u64_id by (unfold_width; lia). lia.
  - unfold u64. replace (now - GlobalSession.BeginTime gs)
      with (now - GlobalSession.BeginTime gs + two64 + (-1) * two64) by lia.
    rewrite Z.mod_add, Z.mod_small by (unfold_width; lia). unfold_width. lia.
Qed.

Lemma isGlobalSessionTimeout_iff_witness :
  isGlobalSessionTimeout gs1 1661000060001 = true <->
    60000 < 1661000060001 - 1661000000000 \/ 1661000060001 < 1661000000000.
Proof. apply (isGlobalSessionTimeout_iff gs1 1661000060001); vm_compute; split; first [reflexivity | discriminate]. Defined.

Lemma processNextGlobalSession_effect_witness :
  (GlobalSession.Status gs1 = Begin -> codec_wf (GlobalSession.set_Status Rollbacking gs1) ->
   linked sample "gs/app/1" PhaseTwoRollbacking ->
   exists s', runOn (processNextGlobalSession gs1) sample =
       (Ok [GlobalAddAfter gs1 (i64 (60000 * millisecond))], s') /\
     globalAt s' "gs/app/1" (GlobalSession.set_Status Rollbacking gs1) /\
     forall bid bs, link sample "gs/app/1" bid -> branchAt sample bid bs ->
       branchAt s' bid (advance PhaseTwoRollbacking bs)) /\
  (GlobalSession.Status gs1 = Committing \/ GlobalSession.Status gs1 = Rollbacking ->
   ((forall bid, ~ link sample "gs/app/1" bid) ->
    exists s', runOn (processNextGlobalSession gs1) sample = (Ok [], s') /\
      forall k, kvs s' !! k = if decide (k = "gs/app/1"%string) then None else kvs sample !! k) /\
   (forall bid, link sample "gs/app/1" bid -> runOn (processNextGlobalSession gs1) sample = (Ok [], sample))).
Proof. apply (processNextGlobalSession_effect sample gs1 gs1); [apply sample_global | reflexivity]. Defined.

Definition bs1' : BranchSession.t := BranchSession.set_Status PhaseTwoRollbacking bs1.

Lemma dead_branch_keeps_session_witness :
  exists s', runOn (SetBranchSessionDead bs1') rolling = (Ok tt, s') /\
    runOn (processNextGlobalSession gs1) s' = (Ok [], s').
Proof.
  apply (dead_branch_keeps_session rolling gs1 gs1' bs1' (mkKV "bs/app/7" 3)).
  - exists (mkKV (str (marshal gs1')) 4). split; vm_compute; reflexivity.
  - reflexivity.
  - reflexivity.
  - concrete_wf.
  - vm_compute. reflexivity.
  - intros k [-> | ->]; split; discriminate.
Defined.

(** When listing the branches of a decided transaction fails, the handler
    takes the empty slice for "no branch left" and deletes the global session
    although a branch is still registered. *)
Theorem list_failure_deletes_session :
  let r := runServer (processNextGlobalSession gs1)
             (mkMem [rolling] [Normal; FailBefore; Normal] : @server mem_server) in
  exists s rest, fst r = Ok [] /\ versions (snd r) = s :: rest /\
    kvs s !! "gs/app/1"%string = None /\ link s "gs/app/1" "bs/app/7".
Proof.
  do 2 eexists. split; [vm_compute; reflexivity|]. split; [vm_compute; reflexivity|].
  split; [vm_compute; reflexivity|].
  exists "bs/gs/app/1/7"%string, (mkKV "bs/app/7" 3). split; [vm_compute; reflexivity|].
  split; reflexivity.
Qed.

Lemma run_complete {GC : Codec GlobalSession.t} {BC : Codec BranchSession.t} s s' bs :
  runOn (DeleteBranchSession (BranchSession.BranchID bs)) s = (Ok tt, s') ->
  runOn (let! _ := removeIfComplete Complete bs in ok (Complete, None)) s = (Ok (Complete, @None string), s').
Proof.
  intros Hrun. assert (Hrm : runOn (removeIfComplete Complete bs) s = (Ok tt, s')) by (by eapply run_logged).
  by rewrite (runOn_go _ _ s tt s' Hrm).
Qed.

(** The queue handler on a committing AT branch whose database is known:
    when the undo log is deleted, the branch and its link to the transaction
    are removed and nothing is queued; when that fails, the branch is queued
    again and the store is untouched. *)
Theorem commit_branch_effect {GC : Codec GlobalSession.t} {BC : Codec BranchSession.t} {J : Json}
    m svc s bs now :
  branchAt s (BranchSession.BranchID bs) bs ->
  BranchSession.Status bs = PhaseTwoCommitting -> BranchSession.Type_ bs = AT ->
  hasDB svc (BranchSession.ResourceID bs) = true ->
  (deleteUndoLogByXID svc (BranchSession.ResourceID bs) (BranchSession.XID bs) = None ->
   exists s', runOn (processNextBranchSession m svc bs now) s = (Ok [], s') /\
     forall k, kvs s' !! k =
       if decide (k = BranchSession.BranchID bs \/
                  k = BranchKeyFormat (BranchSession.XID bs) (BranchSession.BranchSessionID bs))
       then None else kvs s !! k) /\
  (forall e, deleteUndoLogByXID svc (BranchSession.ResourceID bs) (BranchSession.XID bs) = Some e ->
   runOn (processNextBranchSession m svc bs now) s = (Ok [BranchAdd bs; BranchAdd bs], s)).
Proof.
  intros Hbs Hst Hty Hdb. unfold processNextBranchSession, branchCommit, atBranchCommit.
  rewrite Hst, Hty, Hdb. change (PhaseTwoCommitting =? PhaseTwoCommitting) with true.
  change (AT =? TCC) with false. change (AT =? AT) with true. cbv iota. cbn [negb]. split.
  - intros Hu. rewrite Hu. destruct (run_DeleteBranchSession s _ _ Hbs) as (s' & Hrun & Hk).
    exists s'. split; [|exact Hk].
    exact (runOn_go (fun '(status, err) => ok (requeue bs status err)) _ s (Complete, None) s'
             (run_complete s s' bs Hrun)).
  - intros e Hu. rewrite Hu. done.
Qed.

Definition sample_services : services :=
  mkServices (fun _ => true) (fun _ _ => None) (fun _ _ => ([], None)) (fun _ => Ok 200).

Definition sample_manager : manager := newManager "app" 0 false.

(** The sample store after the commit of its transaction, with its branch. *)
Definition committing : snapshot := snd (runOn (GlobalCommit "gs/app/1") sample).
Definition bs1c : BranchSession.t := BranchSession.set_Status PhaseTwoCommitting bs1.

Lemma commit_branch_effect_witness :
  (deleteUndoLogByXID sample_services "db" "gs/app/1" = None ->
   exists s', runOn (processNextBranchSession sample_manager sample_services bs1c 0) committing = (Ok [], s') /\
     forall k, kvs s' !! k =
       if decide (k = BranchSession.BranchID bs1c \/
                  k = BranchKeyFormat (BranchSession.XID bs1c) (BranchSession.BranchSessionID bs1c))
       then None else kvs committing !! k) /\
  (forall e, deleteUndoLogByXID sample_services "db" "gs/app/1" = Some e ->
   runOn (processNextBranchSession sample_manager sample_services bs1c 0) committing
     = (Ok [BranchAdd bs1c; BranchAdd bs1c], committing)).
Proof.
  apply (commit_branch_effect sample_manager sample_services committing bs1c 0); [|reflexivity|reflexivity|reflexivity].
  exists (mkKV (str (marshal bs1c)) 6). split; vm_compute; reflexivity.
Defined.

(** The request the second phase of a TCC branch posts. *)
Definition tccRequest (ctx : RequestContext) (commit : bool) : HttpRequest :=
  let entry name := default EmptyString (ActionContext ctx !! name) in
  mkHttp "http" (entry "host"%string)
    (entry (if commit then "tcc_commit_request_path" else "tcc_rollback_request_path")%string)
    (entry "queryString"%string) (Headers ctx) (Body ctx).

(** A context that [Encode] writes and [Decode] reads back. *)
Definition context_ok {J : Json} (ctx : RequestContext) : Prop :=
  validMap (ActionContext ctx) /\ validMap (Headers ctx) /\
  len (json_Marshal (ActionContext ctx)) < 4294967296 /\
  len (json_Marshal (Headers ctx)) < 4294967296 /\ len (Body ctx) < 4294967296.

Lemma tccBranch_Encode {J : Json} svc commit bs ctx :
  BranchSession.ApplicationData bs = Encode ctx -> context_ok ctx ->
  (post svc (tccRequest ctx commit) = Ok 200 -> tccBranch svc commit bs = Ok (Complete, None)) /\
  ((exists e, post svc (tccRequest ctx commit) = Err e) \/
   (exists code, post svc (tccRequest ctx commit) = Ok code /\ code <> 200) ->
   exists e, tccBranch svc commit bs = Ok (if commit then PhaseTwoCommitting else PhaseTwoRollbacking, Some e)).
Proof.
  intros Hd (Hva & Hvh & Ha & Hh & Hb).
  assert (E : tccBranch svc commit bs =
    match post svc (tccRequest ctx commit) with
    | Err e => Ok (if commit then PhaseTwoCommitting else PhaseTwoRollbacking,
        Some ("error doHttpRequest for " +:+ (if commit then "tccBranchCommit" else "tccBranchRollback") +:+ ": " +:+ e)%string)
    | Panic => Panic
    | Ok code => if code =? 200 then Ok (Complete, None) else
        Ok (if commit then PhaseTwoCommitting else PhaseTwoRollbacking,
            Some ("error " +:+ (if commit then "tccBranchCommit" else "tccBranchRollback")
                  +:+ " response code " +:+ FormatInt code)%string)
    end) by (unfold tccBranch; rewrite Hd, RequestContext_roundtrip by done; reflexivity).
  rewrite E. split; [intros ->; reflexivity|].
  intros [[e ->]|(code & -> & Hc)]; [eauto|]. destruct (Z.eqb_spec code 200); [done|eauto].
Qed.

(** The second phase of a TCC branch registered with an encoded request
    context: the queue handler posts the context's headers and body to its
    host, query and the path of the decision; on status 200 the branch and its
    link to the transaction are removed and nothing is queued; on a failed
    request or any other status the store is untouched and the branch is
    queued again. *)
Theorem tcc_branch_effect {GC : Codec GlobalSession.t} {BC : Codec BranchSession.t} {J : Json}
    m svc s bs now ctx (commit : bool) :
  branchAt s (BranchSession.BranchID bs) bs -> BranchSession.Type_ bs = TCC ->
  BranchSession.Status bs = (if commit then PhaseTwoCommitting else PhaseTwoRollbacking) ->
  (commit = false -> IsRollingBackDead m bs now = false) ->
  BranchSession.ApplicationData bs = Encode ctx -> context_ok ctx ->
  (post svc (tccRequest ctx commit) = Ok 200 ->
   exists s', runOn (processNextBranchSession m svc bs now) s = (Ok [], s') /\
     forall k, kvs s' !! k =
       if decide (k = BranchSession.BranchID bs \/
                  k = BranchKeyFormat (BranchSession.XID bs) (BranchSession.BranchSessionID bs))
       then None else kvs s !! k) /\
  ((exists e, post svc (tccRequest ctx commit) = Err e) \/
   (exists code, post svc (tccRequest ctx commit) = Ok code /\ code <> 200) ->
   runOn (processNextBranchSession m svc bs now) s = (Ok [BranchAdd bs; BranchAdd bs], s)).
Proof.
  intros Hbs Hty Hst Hdead Hd Hctx.
  destruct (tccBranch_Encode svc commit bs ctx Hd Hctx) as [Hok Herr].
  unfold processNextBranchSession, branchCommit, branchRollback, tccBranchCommit, tccBranchRollback.
  rewrite Hst, Hty. change (TCC =? TCC) with true. split.
  - intros Hp. specialize (Hok Hp). destruct (run_DeleteBranchSession s _ _ Hbs) as (s' & Hrun & Hk).
    exists s'. split; [|exact Hk].
    destruct commit; [|rewrite Hdead by done]; rewrite Hok;
      exact (runOn_go (fun '(status, err) => ok (requeue bs status err)) _ s (Complete, None) s'
               (run_complete s s' bs Hrun)).
  - intros Hp. destruct (Herr Hp) as [e He].
    destruct commit; cbn; [|rewrite Hdead by done]; rewrite He; done.
Qed.

(** A committed transaction with a TCC branch. *)
Definition tcc_store : snapshot :=
  snd (runOn (let! (xid, _) := BeginTx sample_manager "order" 60000 1 1661000000000 in
              let! _ := BranchRegister sample_manager
                          (mkRequest xid "svc" EmptyString TCC (Encode sample_context)) 7 1661000000001 in
              Commit xid) empty).
Definition tcc_bs : BranchSession.t :=
  BranchSession.mk "bs/app/7" "app" 7 "gs/app/1" 1 "svc" EmptyString TCC PhaseTwoCommitting
    (Encode sample_context) 1661000000001.

Lemma tcc_branch_effect_witness :
  (exists s', runOn (processNextBranchSession sample_manager sample_services tcc_bs 0) tcc_store = (Ok [], s') /\
     forall k, kvs s' !! k =
       if decide (k = "bs/app/7"%string \/ k = BranchKeyFormat "gs/app/1" 7)
       then None else kvs tcc_store !! k).
Proof.
  apply (tcc_branch_effect sample_manager sample_services tcc_store tcc_bs 0 sample_context true).
  - exists (mkKV (str (marshal tcc_bs)) 4). split; vm_compute; reflexivity.
  - reflexivity.
  - reflexivity.
  - discriminate.
  - reflexivity.
  - split; [apply map_Forall_singleton; vm_compute; done|].
    split; [apply map_Forall_empty|]. split; [|split]; vm_compute; reflexivity.
  - reflexivity.
Defined.

(** A whole transaction: begin, register an AT branch, commit, second phase of
    the branch, removal of the session. *)
Definition transaction : go (list enqueue) :=
  let! (xid, _) := BeginTx sample_manager "order" 60000 1 1661000000000 in
  let! (bid, _) := BranchRegister sample_manager (mkRequest xid "db" "t:5;u:7,8" AT []) 7 1661000000001 in
  let! _ := Commit xid in
  let! bs := GetBranchSession bid in
  let! a := processNextBranchSession sample_manager sample_services bs 1661000000002 in
  let! gs := GetGlobalSession xid in
  let! b := processNextGlobalSession gs in
  ok (a ++ b).

(** A committed transaction with one AT branch locking three rows leaves
    nothing behind: after its two queue items are handled the store is empty,
    and nothing is queued again. *)
Theorem commit_lifecycle :
  fst (runOn transaction empty) = Ok [] /\ kvs (snd (runOn transaction empty)) = ∅.
Proof. split; vm_compute; reflexivity. Qed.
