(* ===== verification/DtFilter.v ===== *)
(** * The filter of AT branches: images, row locks and undo logs
    ([pkg/filter/dt/filter_mysql*.go], [pkg/filter/dt/exec/*.go])

    Before an UPDATE or DELETE of a distributed transaction runs, [PreHandle]
    reads the rows it will change; after it, [PostHandle] reads what became of
    them, registers the branch with the keys of the rows as its lock key and
    writes the undo log, all on the connection of the local transaction.

    The parser's nodes appear as what the filter takes from them: the restored
    texts of tables, conditions and values, the columns and the hints.  Calls
    to the transaction manager and to the passing of time are the class
    [Coordinator]. *)
From Stdlib Require Import ZArith Lia List.
From stdpp Require Import base gmap list strings.
From S2P Require Import Prelude GoText Hints Encoding Packets GoTime DateTime Rows SqlText Undo UndoSpec UndoRestore.
Import schema.

Local Open Scope Z_scope.

(** ** Statements *)

(** UPDATE and DELETE: the restored table and condition; the condition is nil
    when there is none. *)
Record dmlStmt := mkDml { TableText : string; WhereText : option string; DHints : list hint }.
Record insertStmt := mkInsert {
  ITable : string; IColumns : list string; ILists : list (list string); IHints : list hint }.
Record selectStmt := mkSelect { STable : string; ForUpdate : bool; SHints : list hint }.

Inductive stmtNode :=
| DeleteStmt (s : dmlStmt)
| UpdateStmt (s : dmlStmt)
| InsertStmt (s : insertStmt)
| SelectStmt (s : selectStmt)
| OtherStmt.

(** [executor.stmt.Where.Restore] panics on a nil condition. *)
Definition GetWhereCondition (stmt : dmlStmt) : res string :=
  match WhereText stmt with Some w => Ok w | None => Panic end.

(** ** Texts of the image queries *)
Definition selectFrom (meta : TableMeta) (table : string) : string :=
  "SELECT " +:+ columnList (schema.Columns meta) +:+ "FROM " +:+ table.

Definition buildBeforeImageSql (stmt : dmlStmt) (meta : TableMeta) : res string :=
  w ← GetWhereCondition stmt;
  Ok (selectFrom meta (TableText stmt) +:+ " WHERE " +:+ w +:+ " FOR UPDATE").

(** The query of the lock executors takes no local lock. *)
Definition buildLockImageSql (stmt : dmlStmt) (meta : TableMeta) : res string :=
  w ← GetWhereCondition stmt;
  Ok (selectFrom meta (TableText stmt) +:+ " WHERE " +:+ w).

Definition selectKeys (meta : TableMeta) (table list : string) : res string :=
  pk ← GetPKName meta; Ok (selectFrom meta table +:+ " WHERE `" +:+ pk +:+ "` IN " +:+ list).

Definition prepareUpdate_buildAfterImageSql (table : string) (meta : TableMeta) (beforeImage : TableRecords) : res string :=
  fields ← PKFields beforeImage;
  selectKeys meta table (MysqlAppendInParam (length fields)).

Definition prepareInsert_buildAfterImageSql (table : string) (meta : TableMeta) (pkValues : list goValue) : res string :=
  selectKeys meta table (MysqlAppendInParam (length pkValues)).

Definition queryInsert_buildAfterImageSql `{Printer} (table : string) (meta : TableMeta) (pkValues : list goValue) : res string :=
  selectKeys meta table (MysqlAppendInParamWithValue pkValues).

(** Strings and bytes are quoted as they are, other values print. *)
Definition keyLiteral `{Printer} (v : goValue) : string :=
  match v with
  | GString s | GBytes s => "'" +:+ string_of s +:+ "'"
  | _ => Sprintv v
  end.

Definition queryUpdate_buildAfterImageSql `{Printer} (table : string) (meta : TableMeta) (beforeImage : TableRecords) : res string :=
  fields ← PKFields beforeImage;
  selectKeys meta table ("(" +:+ sepBy "," ((fun f => keyLiteral (Value f)) <$> fields) +:+ ")").

(** ** Arguments of prepared statements *)
Fixpoint questionMarks (s : string) : Z :=
  match s with
  | EmptyString => 0
  | String c s' => (if chr c =? 63 then 1 else 0) + questionMarks s'
  end.

(** The parameters of the condition are the last ones; [executor.args[id]] is
    nil for an unknown id. *)
Definition whereArgs (sql : string) (args : gmap string goValue) : list goValue :=
  let n := Z.of_nat (size args) in
  let begin := n - questionMarks sql in
  (fun i => default GNil (args !! ("v" +:+ FormatInt (i + 1)))) <$> seqZ begin (n - begin).

(** ** The transaction manager *)
Class Coordinator (S : Type) := {
  (** [BranchRegister] of an AT branch: xid, resource and lock key *)
  tm_BranchRegister : string -> string -> string -> S -> res Z * S;
  tm_IsLockable : string -> string -> S -> res bool * S;
  tm_IsLockableWithXID : string -> string -> string -> S -> res bool * S;
  (** [time.Sleep(lockRetryInterval)]: others go on *)
  Sleep : S -> S }.

Definition BranchLockAcquireFailed : string := "branch lock acquire failed".

Section executors.
Context {S : Type} `{MySQL S} `{Coordinator S} `{Printer} `{MapOrder}.
(** The schema of the request, the data source of the connection and the
    configured number of attempts. *)
Variables (schemaName dataSource : string) (lockRetryTimes : Z).

Definition recordsOf (meta : TableMeta) (result : queryResult) : SM S (option TableRecords) :=
  slift (BuildTableRecords meta result).

Definition prepareUpdate_BeforeImage (stmt : dmlStmt) (args : gmap string goValue) : SM S (option TableRecords) :=
  meta ← GetTableMeta schemaName (TableText stmt);
  sql ← slift (buildBeforeImageSql stmt meta);
  result ← conn_PrepareQueryArgs sql (whereArgs sql args);
  recordsOf meta result.

(** The same code for DELETE. *)
Definition prepareDelete_BeforeImage := prepareUpdate_BeforeImage.

Definition prepareUpdate_AfterImage (stmt : dmlStmt) (beforeImage : option TableRecords) : SM S (option TableRecords) :=
  match beforeImage with
  | None => mret None
  | Some bi =>
    match Rows bi with
    | [] => mret None
    | _ =>
      meta ← GetTableMeta schemaName (TableText stmt);
      sql ← slift (prepareUpdate_buildAfterImageSql (TableText stmt) meta bi);
      fields ← slift (PKFields bi);
      result ← conn_PrepareQueryArgs sql (Value <$> fields);
      recordsOf meta result
    end
  end.

Definition queryUpdate_BeforeImage (stmt : dmlStmt) : SM S (option TableRecords) :=
  meta ← GetTableMeta schemaName (TableText stmt);
  sql ← slift (buildBeforeImageSql stmt meta);
  result ← conn_Query sql;
  recordsOf meta result.

Definition queryDelete_BeforeImage := queryUpdate_BeforeImage.

Definition queryUpdate_AfterImage (stmt : dmlStmt) (beforeImage : option TableRecords) : SM S (option TableRecords) :=
  match beforeImage with
  | None => mret None
  | Some bi =>
    match Rows bi with
    | [] => mret None
    | _ =>
      meta ← GetTableMeta schemaName (TableText stmt);
      sql ← slift (queryUpdate_buildAfterImageSql (TableText stmt) meta bi);
      result ← conn_Query sql;
      recordsOf meta result
    end
  end.

(** *** INSERT *)

(** [tableMeta, _ := executor.GetTableMeta(ctx)] *)
Definition metaOrZero (table : string) : SM S TableMeta := fun s =>
  match GetTableMeta schemaName table s with
  | (Err _, s') => (Ok zeroMeta, s')
  | r => r
  end.

Fixpoint indexOf (p : string -> bool) (cols : list string) (i : Z) : option Z :=
  match cols with
  | [] => None
  | c :: cols' => if p c then Some i else indexOf p cols' (i + 1)
  end.

(** The name of the key is taken per column. *)
Definition findColumn (meta : TableMeta) (cols : list string) : res (option Z) :=
  match cols with
  | [] => Ok None
  | _ => pk ← GetPKName meta; Ok (indexOf (EqualFold pk) cols 0)
  end.

Definition getPKIndex (stmt : insertStmt) : SM S Z :=
  meta ← metaOrZero (ITable stmt);
  o ← slift (findColumn meta (IColumns stmt));
  match o with
  | Some i => mret i
  | None => o' ← slift (findColumn meta (schema.Columns meta)); mret (default (-1) o')
  end.

(** [GetInsertColumns] never returns nil. *)
Definition getColumnLen (stmt : insertStmt) : Z := Z.of_nat (length (IColumns stmt)).

(** The loop over the arguments, in the order of the map. *)
Fixpoint pkArgs (columnLen pkIndex : Z) (args : list (string * goValue)) : res (list goValue) :=
  match args with
  | [] => Ok []
  | (EmptyString, _) :: _ => Panic
  | (String _ rest, value) :: args' =>
    i ← Atoi rest;
    if columnLen =? 0 then Panic
    else
      vs ← pkArgs columnLen pkIndex args';
      Ok (if Z.rem i columnLen =? pkIndex + 1 then value :: vs else vs)
  end.

Definition prepareInsert_getPKValuesByColumn (stmt : insertStmt) (args : gmap string goValue) : SM S (list goValue) :=
  pkIndex ← getPKIndex stmt;
  slift (pkArgs (getColumnLen stmt) pkIndex (visit 0 (map_to_list args))).

Definition prepareInsert_buildTableRecords (stmt : insertStmt) (pkValues : list goValue) : SM S (option TableRecords) :=
  meta ← GetTableMeta schemaName (ITable stmt);
  sql ← slift (prepareInsert_buildAfterImageSql (ITable stmt) meta pkValues);
  result ← conn_PrepareQueryArgs sql pkValues;
  recordsOf meta result.

Definition prepareInsert_AfterImage (stmt : insertStmt) (args : gmap string goValue) (lastInsertId : Z) : SM S (option TableRecords) :=
  pkValues ← prepareInsert_getPKValuesByColumn stmt args;
  pkIndex ← getPKIndex stmt;
  if 0 <=? pkIndex then prepareInsert_buildTableRecords stmt pkValues
  else prepareInsert_buildTableRecords stmt [GUint64 lastInsertId].

(** The restored key value of every VALUES list. *)
Definition queryInsert_getPKValuesByColumn (stmt : insertStmt) : SM S (list goValue) :=
  pkIndex ← getPKIndex stmt;
  mret (ILists stmt ≫= (fun values =>
    if pkIndex <? 0 then []
    else match values !! Z.to_nat pkIndex with Some v => [GString (bytes_of v)] | None => [] end)).

Definition queryInsert_buildTableRecords (stmt : insertStmt) (pkValues : list goValue) : SM S (option TableRecords) :=
  meta ← GetTableMeta schemaName (ITable stmt);
  sql ← slift (queryInsert_buildAfterImageSql (ITable stmt) meta pkValues);
  result ← conn_Query sql;
  recordsOf meta result.

Definition queryInsert_AfterImage (stmt : insertStmt) (lastInsertId : Z) : SM S (option TableRecords) :=
  pkValues ← queryInsert_getPKValuesByColumn stmt;
  pkIndex ← getPKIndex stmt;
  if 0 <=? pkIndex then queryInsert_buildTableRecords stmt pkValues
  else queryInsert_buildTableRecords stmt [GUint64 lastInsertId].

(** *** SELECT ... FOR UPDATE *)

(** The attempts to find the rows lockable: the error of the last one.  Whether
    they were lockable is not looked at afterwards. *)
Fixpoint lockableLoop (n : nat) (lockKeys xid : string) (err : option string) : SM S (option string) :=
  match n with
  | O => mret err
  | Datatypes.S n' => fun s =>
    match tm_IsLockableWithXID dataSource lockKeys xid s with
    | (Ok true, s') => (Ok None, s')
    | (Ok false, s') => lockableLoop n' lockKeys xid None (Sleep s')
    | (Err e, s') => lockableLoop n' lockKeys xid (Some e) (Sleep s')
    | (Panic, s') => (Panic, s')
    end
  end.

Definition selectForUpdate_Executable (stmt : selectStmt) (result : queryResult) (xid : string) : SM S bool :=
  meta ← GetTableMeta schemaName (STable stmt);
  selectPKRows ← recordsOf meta result;
  lockKeys ← slift (BuildLockKey selectPKRows);
  if String.eqb lockKeys "" then mret true
  else
    err ← lockableLoop (Z.to_nat lockRetryTimes) lockKeys xid None;
    match err with Some e => sfail e | None => mret true end.

Definition prepareSelectForUpdate_Executable := selectForUpdate_Executable.
Definition querySelectForUpdate_Executable := selectForUpdate_Executable.

(** *** UPDATE and DELETE outside of a transaction, under a global lock *)
Fixpoint globalLockLoop (n : nat) (lockKeys : string) (err : option string) : SM S bool :=
  match n with
  | O => match err with Some e => sfail e | None => mret false end
  | Datatypes.S n' => fun s =>
    match tm_IsLockable dataSource lockKeys s with
    | (Ok true, s') => (Ok true, s')
    | (Ok false, s') => globalLockLoop n' lockKeys None s'
    | (Err e, s') => globalLockLoop n' lockKeys (Some e) (Sleep s')
    | (Panic, s') => (Panic, s')
    end
  end.

Definition globalLocked (beforeImage : option TableRecords) : SM S bool :=
  lockKeys ← slift (BuildLockKey beforeImage);
  if String.eqb lockKeys "" then mret true
  else globalLockLoop (Z.to_nat lockRetryTimes) lockKeys None.

Definition prepareGlobalLock_BeforeImage (stmt : dmlStmt) (args : gmap string goValue) : SM S (option TableRecords) :=
  meta ← GetTableMeta schemaName (TableText stmt);
  sql ← slift (buildLockImageSql stmt meta);
  result ← conn_PrepareQueryArgs sql (whereArgs sql args);
  recordsOf meta result.

Definition prepareGlobalLock_Executable (stmt : dmlStmt) (args : gmap string goValue) : SM S bool :=
  beforeImage ← prepareGlobalLock_BeforeImage stmt args; globalLocked beforeImage.

Definition queryGlobalLock_BeforeImage (stmt : dmlStmt) : SM S (option TableRecords) :=
  meta ← GetTableMeta schemaName (TableText stmt);
  sql ← slift (buildLockImageSql stmt meta);
  result ← conn_Query sql;
  recordsOf meta result.

Definition queryGlobalLock_Executable (stmt : dmlStmt) : SM S bool :=
  beforeImage ← queryGlobalLock_BeforeImage stmt; globalLocked beforeImage.

(** *** Registration of the branch *)
Fixpoint registerLoop (n : nat) (xid lockKey : string) (last : res Z) : SM S Z :=
  match n with
  | O => slift last
  | Datatypes.S n' => fun s =>
    match tm_BranchRegister xid dataSource lockKey s with
    | (Err e, s') =>
      if String.eqb e BranchLockAcquireFailed then registerLoop n' xid lockKey (Err e) (Sleep s')
      else (Err e, s')
    | r => r
    end
  end.

Definition registerBranchTransaction (xid lockKey : string) : SM S Z :=
  registerLoop (Z.to_nat lockRetryTimes) xid lockKey (Ok 0).

(** ** The filter *)

(** What the filter takes from the context of a request.  [Variables] is the
    map of variables, if the context has one; the only variable is the image
    that [PreHandle] leaves for [PostHandle]. *)
Record request := mkRequest {
  CommandType : Z; QueryStmt : option stmtNode; PrepareStmt : option (stmtNode * gmap string goValue) }.
Abbreviation variables := (option (option (option TableRecords))).

Definition ComQuery : Z := 3.
Definition ComStmtExecute : Z := 23.

Definition lockedMsg : string := "resource locked by distributed transaction global lock!".

Definition checkGlobalLock (m : SM S bool) : SM S unit :=
  result ← m; if (result : bool) then mret tt else sfail lockedMsg.

(** [proto.WithVariable(ctx, beforeImage, bi)] *)
Definition keepImage (vars : variables) (bi : option TableRecords) : SM S variables :=
  match vars with
  | Some _ => mret (Some (Some bi))
  | None => sfail "set before image failed"
  end.

(** UPDATE and DELETE: the lock of a statement outside of a transaction, or
    the image of a statement of one. *)
Definition processBefore (hints : list hint) (locked : SM S bool) (image : SM S (option TableRecords)) (vars : variables) :
    SM S variables :=
  if HasGlobalLockHint hints then _ ← checkGlobalLock locked; mret vars
  else
    xid ← slift (HasXIDHint hints);
    match xid with
    | None => mret vars
    | Some _ => bi ← image; keepImage vars bi
    end.

Definition processBeforePrepareDelete (stmt : dmlStmt) (args : gmap string goValue) : variables -> SM S variables :=
  processBefore (DHints stmt) (prepareGlobalLock_Executable stmt args) (prepareDelete_BeforeImage stmt args).
Definition processBeforePrepareUpdate (stmt : dmlStmt) (args : gmap string goValue) : variables -> SM S variables :=
  processBefore (DHints stmt) (prepareGlobalLock_Executable stmt args) (prepareUpdate_BeforeImage stmt args).
Definition processBeforeQueryDelete (stmt : dmlStmt) : variables -> SM S variables :=
  processBefore (DHints stmt) (queryGlobalLock_Executable stmt) (queryDelete_BeforeImage stmt).
Definition processBeforeQueryUpdate (stmt : dmlStmt) : variables -> SM S variables :=
  processBefore (DHints stmt) (queryGlobalLock_Executable stmt) (queryUpdate_BeforeImage stmt).

Definition PreHandle (r : request) (vars : variables) : SM S variables :=
  if CommandType r =? ComQuery then
    match QueryStmt r with
    | None => sfail "query stmt should not be nil"
    | Some (DeleteStmt d) => processBeforeQueryDelete d vars
    | Some (UpdateStmt u) => processBeforeQueryUpdate u vars
    | Some _ => mret vars
    end
  else if CommandType r =? ComStmtExecute then
    match PrepareStmt r with
    | None => sfail "prepare stmt should not be nil"
    | Some (DeleteStmt d, args) => processBeforePrepareDelete d args vars
    | Some (UpdateStmt u, args) => processBeforePrepareUpdate u args vars
    | Some _ => mret vars
    end
  else mret vars.

Context `{BigEndianIO, Protobuf}.

(** [proto.Variable(ctx, beforeImage)] is nil when it was not set; an image
    that is a nil pointer is not a nil interface. *)
Definition theImage (vars : variables) : SM S (option TableRecords) :=
  match vars with
  | Some (Some bi) => mret bi
  | _ => sfail "before image should not be nil"
  end.

Definition needSchema : SM S unit :=
  if String.eqb schemaName "" then sfail "schema name should not be nil" else mret tt.

(** Lock key, registration and undo log, for the rows that are locked. *)
Definition logBranch (isBinary : bool) (sqlType : SQLType) (table xid : string)
    (beforeImage afterImage lockRecords : option TableRecords) : SM S unit :=
  lockKeys ← slift (BuildLockKey lockRecords);
  branchID ← registerBranchTransaction xid lockKeys;
  InsertUndoLogWithNormal (bytes_of xid) branchID
    (BuildUndoItem isBinary sqlType schemaName table lockKeys beforeImage afterImage).

Definition withXID (hints : list hint) (k : string -> SM S unit) : SM S unit :=
  xid ← slift (HasXIDHint hints); match xid with None => mret tt | Some x => k x end.

Definition processAfterDelete (isBinary : bool) (stmt : dmlStmt) (vars : variables) : SM S unit :=
  withXID (DHints stmt) (fun xid =>
    bi ← theImage vars; _ ← needSchema;
    logBranch isBinary SQLType_DELETE (TableText stmt) xid bi None bi).

Definition processAfterUpdate (isBinary : bool) (stmt : dmlStmt) (vars : variables) : SM S unit :=
  withXID (DHints stmt) (fun xid =>
    bi ← theImage vars;
    afterImage ← (if isBinary then prepareUpdate_AfterImage stmt bi else queryUpdate_AfterImage stmt bi);
    _ ← needSchema;
    logBranch isBinary SQLType_UPDATE (TableText stmt) xid bi afterImage afterImage).

Definition processAfterInsert (isBinary : bool) (stmt : insertStmt) (args : gmap string goValue) (lastInsertId : Z) : SM S unit :=
  withXID (IHints stmt) (fun xid =>
    afterImage ← (if isBinary then prepareInsert_AfterImage stmt args lastInsertId
                  else queryInsert_AfterImage stmt lastInsertId);
    _ ← needSchema;
    logBranch isBinary SQLType_INSERT (ITable stmt) xid None afterImage afterImage).

Definition processAfterPrepareDelete := processAfterDelete true.
Definition processAfterQueryDelete := processAfterDelete false.
Definition processAfterPrepareUpdate := processAfterUpdate true.
Definition processAfterQueryUpdate := processAfterUpdate false.
Definition processAfterPrepareInsert := processAfterInsert true.
Definition processAfterQueryInsert (stmt : insertStmt) := processAfterInsert false stmt ∅.

Definition processSelectForUpdate (stmt : selectStmt) (result : queryResult) : SM S unit :=
  withXID (SHints stmt) (fun xid => _ ← selectForUpdate_Executable stmt result xid; mret tt).
Definition processPrepareSelectForUpdate := processSelectForUpdate.
Definition processQuerySelectForUpdate := processSelectForUpdate.

(** The result of the statement: its rows and the id it generated. *)
Definition PostHandle (r : request) (result : queryResult) (lastInsertId : Z) (vars : variables) : SM S unit :=
  if CommandType r =? ComQuery then
    match QueryStmt r with
    | None => sfail "query stmt should not be nil"
    | Some (DeleteStmt d) => processAfterQueryDelete d vars
    | Some (InsertStmt i) => processAfterQueryInsert i lastInsertId
    | Some (UpdateStmt u) => processAfterQueryUpdate u vars
    | Some (SelectStmt q) => if ForUpdate q then processQuerySelectForUpdate q result else mret tt
    | Some OtherStmt => mret tt
    end
  else if CommandType r =? ComStmtExecute then
    match PrepareStmt r with
    | None => sfail "prepare stmt should not be nil"
    | Some (DeleteStmt d, _) => processAfterPrepareDelete d vars
    | Some (InsertStmt i, args) => processAfterPrepareInsert i args lastInsertId
    | Some (UpdateStmt u, _) => processAfterPrepareUpdate u vars
    | Some (SelectStmt q, _) => if ForUpdate q then processPrepareSelectForUpdate q result else mret tt
    | Some (OtherStmt, _) => mret tt
    end
  else mret tt.
End executors.
