(* ===== verification/DtSpec.v ===== *)
(** * What the filter of AT branches guarantees

    [BranchServer] states how the connection of a local transaction answers the
    image queries and takes undo logs; [Apart] that the transaction manager does
    not touch it.  [dml_handled] says what the filter does around an UPDATE or
    DELETE for every answer to the image query and every outcome of the
    registration: if the branch was registered it leaves an undo log that is
    [stored] and describes the statement in the sense of [statement], which is
    what undoing it relies on ([UndoRestore.History]); [insert_handled] the same
    for a prepared INSERT.  DtStore puts the manager and the store in. *)
From Stdlib Require Import ZArith Lia List.
From stdpp Require Import base gmap list strings.
From S2P Require Import Prelude GoText Hints Encoding Packets GoTime DateTime Rows SqlText Undo UndoSpec UndoRestore DtFilter.
Import schema.

Local Open Scope Z_scope.

(** The list of keys in the text of an image query. *)
Definition inList {S : Type} `{ServerView S} `{Printer} (b : bool) (ks : list goValue) : string :=
  if b then MysqlAppendInParam (length ks)
  else "(" +:+ sepBy "," (keyLiteral <$> (present false <$> ks)) +:+ ")".

Definition readRows {S} `{MySQL S} (b : bool) (sql : string) (args : list goValue) : SM S queryResult :=
  if b then conn_PrepareQueryArgs sql args else conn_Query sql.

Definition append_log (e : logEntry) (d : database) : database := mkDatabase (rows d) (undo_log d ++ [e]).

(** The rows of [ks], in this order. *)
Definition returned {S : Type} `{ServerView S} (b : bool) (meta : TableMeta) (pk : string) (t : rowMap) (ks : list goValue) (r : queryResult) : Prop :=
  FieldNames r = schema.Columns meta /\
  Forall2 (fun cells k => exists c, cells = Ok c /\ default GNil <$> c = presented b meta pk t k) (ResultRows r) ks.

Class BranchServer (S : Type) `{UndoServer S} := {
  (** the keys of the rows of a table that satisfy a condition with arguments *)
  matches : string -> string -> list goValue -> rowMap -> list goValue;
  matches_nodup : forall tb w args t, NoDup (matches tb w args t);
  (** the query may fail; an answer it gives is right *)
  before_answers : forall s sch tb meta pk b w args r s', up s -> catalog sch tb = Some meta -> keyed meta pk ->
    readRows b (selectFrom meta tb +:+ " WHERE " +:+ w +:+ " FOR UPDATE") args s = (r, s') ->
    up s' /\ current s' = current s /\
    forall q, r = Ok q -> returned b meta pk (rows (current s)) (matches tb w (if b then args else []) (rows (current s))) q;
  keys_run : forall s sch tb meta pk b ks, up s -> catalog sch tb = Some meta -> keyed meta pk ->
    ks <> [] -> Forall (usable b) ks ->
    exists r, runs (readRows b (selectFrom meta tb +:+ " WHERE `" +:+ pk +:+ "` IN " +:+ inList b ks) (present b <$> ks)) s r (current s) /\
      selected b meta pk (rows (current s)) ks r;
  log_runs : forall s xid branch context info status, up s ->
    exists r, runs (conn_PrepareExecuteArgs InsertUndoLogSql
                      [GString xid; GInt64 branch; context; GBytes info; GInt64 status]) s r
                (append_log (mkEntry xid branch info status) (current s)) }.

(** The transaction manager does not touch the connection of the local
    transaction, and what this connection sees stays the same during a pause. *)
Class Apart (S : Type) `{ServerView S, Coordinator S} := {
  register_apart : forall s xid resource lockKey, up s ->
    let s' := (tm_BranchRegister xid resource lockKey s).2 in up s' /\ current s' = current s;
  sleep_apart : forall s, up s -> up (Sleep s) /\ current (Sleep s) = current s }.

(** From [s] to [s'] only the database was asked: for the metadata of a table, for
    rows, or to store a log. *)
Inductive asks {S : Type} `{MySQL S} : S -> S -> Prop :=
| asks_nothing s : asks s s
| asks_meta sch tb s s' : asks (GetTableMeta sch tb s).2 s' -> asks s s'
| asks_rows b sql args s s' : asks (readRows b sql args s).2 s' -> asks s s'
| asks_log sql args s s' : asks (conn_PrepareExecuteArgs sql args s).2 s' -> asks s s'.

Section spec.
Context {S : Type} `{BranchServer S} `{!Coordinator S} `{!Apart S} `{MapOrder} `{BigEndianIO, Protobuf}.
Variables (schemaName dataSource : string) (lockRetryTimes : Z).
Context (Hschema : String.eqb schemaName "" = false).

Definition imageOrNil (b : bool) (meta : TableMeta) (pk : string) (t : rowMap) (ks : list goValue) : option TableRecords :=
  match ks with [] => None | _ => Some (image b meta pk t ks) end.

Lemma BuildTableRecords_returned b meta pk t ks r :
  keyed meta pk -> returned b meta pk t ks r -> BuildTableRecords meta r = Ok (imageOrNil b meta pk t ks).
Proof.
  intros Hk [Hn Hr]. unfold BuildTableRecords. rewrite Hn, (buildRows_selected _ _ _ _ _ _ Hk Hr), Ok_bind. by destruct ks.
Qed.

Section table.
Context (table : string) (meta : TableMeta) (pk : string).
Context (Hcat : catalog schemaName table = Some meta) (Hk : keyed meta pk).

(** The before image of either protocol. *)
Definition beforeImage (b : bool) (stmt : dmlStmt) (args : gmap string goValue) : SM S (option TableRecords) :=
  if b then prepareUpdate_BeforeImage schemaName stmt args else queryUpdate_BeforeImage schemaName stmt.

(** The text of the query and the arguments of its condition. *)
Definition beforeText (w : string) : string := selectFrom meta table +:+ " WHERE " +:+ w +:+ " FOR UPDATE".
Definition condArgs (b : bool) (w : string) (args : gmap string goValue) : list goValue :=
  if b then whereArgs (beforeText w) args else [].

(** The image is what the query answers; if it fails, so does the image. *)
Lemma beforeImage_outcome b stmt args w s :
  up s -> TableText stmt = table -> WhereText stmt = Some w ->
  exists s1 r s2, GetTableMeta schemaName table s = (Ok meta, s1) /\
    readRows b (beforeText w) (condArgs true w args) s1 = (r, s2) /\ up s2 /\ current s2 = current s /\
    beforeImage b stmt args s =
      (match r with
       | Ok _ => Ok (imageOrNil b meta pk (rows (current s)) (matches table w (condArgs b w args) (rows (current s))))
       | Err e => Err e
       | Panic => Panic
       end, s2).
Proof.
  intros Hup Ht Hw. unfold beforeImage, prepareUpdate_BeforeImage, queryUpdate_BeforeImage. rewrite Ht.
  destruct (GetTableMeta_runs s _ _ _ Hup Hcat) as (s1 & Em & Hup1 & Hc1 & Hd1).
  destruct (readRows b (beforeText w) (condArgs true w args) s1) as [r s2] eqn:Er.
  destruct (before_answers s1 _ _ _ _ b w (condArgs true w args) r s2 Hup1 Hcat Hk Er) as (Hup2 & Hc2 & Hret).
  exists s1, r, s2. split_and!; [done..|congruence|].
  rewrite Hc1 in Hret. replace (if b then condArgs true w args else []) with (condArgs b w args) in Hret by (by destruct b).
  unfold readRows in Er.
  destruct b; (erewrite bind_SM_run by exact Em); unfold buildBeforeImageSql, GetWhereCondition; rewrite Hw, Ok_bind, Ht;
    (erewrite bind_SM_run by reflexivity); unfold mbind, SM_bind; unfold condArgs, beforeText in *; rewrite Er; destruct r as [q| |]; try done;
    unfold recordsOf, slift; by rewrite (BuildTableRecords_returned _ _ _ _ _ _ Hk (Hret q eq_refl)).
Qed.

Definition afterImage (b : bool) (stmt : dmlStmt) (bi : option TableRecords) : SM S (option TableRecords) :=
  if b then prepareUpdate_AfterImage schemaName stmt bi else queryUpdate_AfterImage schemaName stmt bi.

Lemma BuildTableRecords_current b t ks r :
  selected b meta pk t ks r -> BuildTableRecords meta r = Ok (currentImage b meta pk t ks).
Proof. by apply BuildTableRecords_selected. Qed.

Lemma afterImage_runs b stmt t ks s :
  up s -> TableText stmt = table -> ks <> [] -> Forall (usable b) ks ->
  exists s', afterImage b stmt (Some (image b meta pk t ks)) s = (Ok (currentImage b meta pk (rows (current s)) ks), s') /\
    asks s s' /\ up s' /\ current s' = current s.
Proof.
  intros Hup Ht Hne Hu. unfold afterImage, prepareUpdate_AfterImage, queryUpdate_AfterImage. rewrite Ht.
  destruct (GetTableMeta_runs s _ _ _ Hup Hcat) as (s1 & Em & Hup1 & Hc1 & Hd1).
  destruct (keys_run s1 _ _ _ _ b ks Hup1 Hcat Hk Hne Hu) as (r & (s2 & Er & Hup2 & Hc2 & Hd2) & Hsel).
  rewrite Hc1 in Hsel. apply BuildTableRecords_current in Hsel.
  exists s2. split_and!; [| |done|congruence].
  2: { apply (asks_meta schemaName table). rewrite Em.
    apply (asks_rows b (selectFrom meta table +:+ " WHERE `" +:+ pk +:+ "` IN " +:+ inList b ks) (present b <$> ks)).
    cbn [snd]. rewrite Er. apply asks_nothing. }
  assert (Hf := PKFields_image b meta pk t ks Hk). assert (Hpk : GetPKName meta = Ok pk) by apply Hk.
  assert (Hv : Value <$> ((fun k => fieldOf meta pk pk (present b k)) <$> ks) = present b <$> ks)
    by (by rewrite <- list_fmap_compose).
  unfold prepareUpdate_buildAfterImageSql, queryUpdate_buildAfterImageSql, selectKeys, readRows, inList in *.
  destruct (Rows (image b meta pk t ks)) eqn:Er0; [by destruct ks|].
  destruct b; (erewrite bind_SM_run by exact Em); rewrite Hf, Ok_bind, Hpk, Ok_bind;
    (erewrite bind_SM_run by reflexivity).
  - erewrite bind_SM_run by reflexivity. rewrite Hv, length_fmap. erewrite bind_SM_run by exact Er.
    unfold recordsOf, slift. by rewrite Hsel.
  - replace ((fun f => keyLiteral (Value f)) <$> ((fun k => fieldOf meta pk pk (present false k)) <$> ks))
      with (keyLiteral <$> (present false <$> ks)) by (by rewrite <- Hv, <- !list_fmap_compose).
    erewrite bind_SM_run by exact Er. unfold recordsOf, slift. by rewrite Hsel.
Qed.

(** *** Lock key, registration and log *)
Definition lockKeyOf (r : option TableRecords) : string := match BuildLockKey r with Ok k => k | _ => "" end.

Lemma BuildLockKey_image b t ks : BuildLockKey (Some (image b meta pk t ks)) = Ok (lockKeyOf (Some (image b meta pk t ks))).
Proof.
  unfold lockKeyOf, BuildLockKey. destruct (Rows (image b meta pk t ks)); [done|].
  by rewrite (PKFields_image b meta pk t ks Hk), Ok_bind.
Qed.

Lemma registration_apart xid lockKey s :
  up s -> let s' := (registerBranchTransaction dataSource lockRetryTimes xid lockKey s).2 in up s' /\ current s' = current s.
Proof.
  unfold registerBranchTransaction. generalize (Z.to_nat lockRetryTimes) as n. intros n. generalize (Ok 0 : res Z) as last.
  revert s. induction n as [|n IH]; intros s last Hup; cbn [registerLoop]; [done|].
  destruct (register_apart s xid dataSource lockKey Hup) as [Hup1 Hc1].
  destruct (tm_BranchRegister xid dataSource lockKey s) as [[?|e|] s1]; cbn [snd] in *; [done| |done].
  case_match; [|done]. destruct (sleep_apart s1 Hup1) as [Hup2 Hc2]. destruct (IH (Sleep s1) (Err e) Hup2) as [Hup3 Hc3].
  split; [done|congruence].
Qed.

(** The log is written if the branch was registered, under its id; otherwise the
    error of the registration is returned. *)
Lemma logBranch_outcome b ty xid bi ai lockRecords info s reg s1 :
  up s -> BuildLockKey lockRecords = Ok (lockKeyOf lockRecords) ->
  EncodeSqlUndoLog (BuildUndoItem b ty schemaName table (lockKeyOf lockRecords) bi ai) = Ok info ->
  registerBranchTransaction dataSource lockRetryTimes xid (lockKeyOf lockRecords) s = (reg, s1) ->
  up s1 /\ current s1 = current s /\
  match reg with
  | Ok branch => exists s2, logBranch schemaName dataSource lockRetryTimes b ty table xid bi ai lockRecords s = (Ok tt, s2) /\
      asks s1 s2 /\ up s2 /\ current s2 = append_log (mkEntry (bytes_of xid) branch info StateNormal) (current s)
  | Err e => logBranch schemaName dataSource lockRetryTimes b ty table xid bi ai lockRecords s = (Err e, s1)
  | Panic => logBranch schemaName dataSource lockRetryTimes b ty table xid bi ai lockRecords s = (Panic, s1)
  end.
Proof.
  intros Hup Hlk Henc E1. destruct (registration_apart xid (lockKeyOf lockRecords) s Hup) as [Hup1 Hc1].
  rewrite E1 in Hup1, Hc1. split; [done|]. split; [done|]. unfold logBranch. rewrite Hlk.
  destruct reg as [id|e|]; [|by unfold mbind, SM_bind; cbn [slift]; rewrite E1..].
  destruct (log_runs s1 (bytes_of xid) id (GString (bytes_of (buildContext "protobuf"))) info StateNormal Hup1)
    as (r & s2 & E2 & Hup2 & Hc2 & Hd2).
  exists s2. rewrite <- Hc1. split_and!; [|by eapply asks_log; rewrite E2; apply asks_nothing|done..].
  erewrite bind_SM_run by reflexivity. erewrite bind_SM_run by exact E1.
  unfold InsertUndoLogWithNormal, insertLog. rewrite Henc. erewrite bind_SM_run by reflexivity.
  unfold insertUndoLog. by erewrite bind_SM_run by exact E2.
Qed.
End table.

(** ** UPDATE and DELETE *)
Inductive dmlKind := KUpdate | KDelete.

Definition dmlNode (k : dmlKind) (stmt : dmlStmt) : stmtNode :=
  match k with KUpdate => UpdateStmt stmt | KDelete => DeleteStmt stmt end.
Definition dmlType (k : dmlKind) : SQLType := match k with KUpdate => SQLType_UPDATE | KDelete => SQLType_DELETE end.

(** The request for a statement, prepared or as text. *)
Definition requestFor (b : bool) (node : stmtNode) (args : gmap string goValue) : request :=
  if b then mkRequest ComStmtExecute None (Some (node, args)) else mkRequest ComQuery (Some node) None.

(** What the statement may do to the rows of [ks]. *)
Definition effect (k : dmlKind) (b : bool) (meta : TableMeta) (pk : string) (ks : list goValue) (t' : rowMap) : Prop :=
  match k with
  | KUpdate => present_rows b meta pk t' ks
  | KDelete => forall key, key ∈ ks -> t' !! (TableName meta, key) = None
  end.

Definition afterOf (k : dmlKind) (b : bool) (meta : TableMeta) (pk : string) (ks : list goValue) (t' : rowMap) : option TableRecords :=
  match k with
  | KUpdate => Some (image b meta pk t' (keyOrder (list_to_set ks)))
  | KDelete => None
  end.

(** The log of the statement. *)
Definition dmlLog (k : dmlKind) (b : bool) (meta : TableMeta) (pk : string) (ks : list goValue) (t t' : rowMap) : SqlUndoLog :=
  let before := Some (image b meta pk t ks) in
  let after := afterOf k b meta pk ks t' in
  BuildUndoItem b (dmlType k) schemaName (TableName meta)
    (lockKeyOf (match k with KUpdate => after | KDelete => before end)) before after.

Lemma PreHandle_dml k b stmt args vars :
  PreHandle schemaName dataSource lockRetryTimes (requestFor b (dmlNode k stmt) args) vars =
  processBefore (DHints stmt)
    (if b then prepareGlobalLock_Executable schemaName dataSource lockRetryTimes stmt args
     else queryGlobalLock_Executable schemaName dataSource lockRetryTimes stmt)
    (beforeImage b stmt args) vars.
Proof. by destruct k, b. Qed.

Lemma PostHandle_dml k b stmt args result id vars :
  PostHandle schemaName dataSource lockRetryTimes (requestFor b (dmlNode k stmt) args) result id vars =
  match k with
  | KUpdate => processAfterUpdate schemaName dataSource lockRetryTimes b stmt vars
  | KDelete => processAfterDelete schemaName dataSource lockRetryTimes b stmt vars
  end.
Proof. by destruct k, b. Qed.

(** In the binary protocol an image determines the rows. *)
Lemma imageRow_inj meta pk k vs k' vs' :
  keyed meta pk -> length vs = length (others meta pk) -> length vs' = length (others meta pk) ->
  imageRow meta pk k vs = imageRow meta pk k' vs' -> k = k' /\ vs = vs'.
Proof.
  intros Hk Hl Hl' E. split.
  - apply (f_equal (List.filter isPrimary)) in E. rewrite !(primary_image meta pk Hk) in E. by injection E.
  - apply (f_equal NonPrimaryKeys) in E. rewrite !(others_image meta pk) in E by done.
    apply (f_equal (fmap Value)) in E. by rewrite !zip_values in E.
Qed.

Lemma image_inj meta pk t t' ks ks' :
  keyed meta pk -> present_rows true meta pk t ks -> present_rows true meta pk t' ks' ->
  image true meta pk t ks = image true meta pk t' ks' ->
  ks = ks' /\ forall k, k ∈ ks -> t !! (TableName meta, k) = t' !! (TableName meta, k).
Proof.
  intros Hk Hp Hp' [= E]. revert ks' Hp' E.
  induction ks as [|k ks IH]; intros [|k' ks'] Hp' E; cbn [fmap list_fmap] in E; try done.
  - split; [done|]. intros k Hin. by apply not_elem_of_nil in Hin.
  - injection E as E1 E2. destruct (Hp k ltac:(left)) as (vs & Ev & Hl & _), (Hp' k' ltac:(left)) as (vs' & Ev' & Hl' & _).
    rewrite (lookup_total_correct _ _ _ Ev), (lookup_total_correct _ _ _ Ev'), !present_binary in E1.
    assert (Hid : forall l : list goValue, present true <$> l = l).
    { intros l. rewrite <- (list_fmap_id l) at 2. apply list_fmap_ext. intros ? ? _. apply present_binary. }
    rewrite !Hid in E1. apply (imageRow_inj meta pk) in E1 as [-> ->]; try done.
    destruct (IH ltac:(intros x Hx; apply Hp; by right) ks' ltac:(intros x Hx; apply Hp'; by right) E2) as [-> Hrest].
    split; [done|]. intros x [->|Hx]%elem_of_cons; [by rewrite Ev, Ev' | by apply Hrest].
Qed.

Lemma unchanged_images meta pk t t' ks :
  keyed meta pk -> present_rows true meta pk t ks -> present_rows true meta pk t' ks ->
  agreeOut (keysOf (TableName meta) ks) t t' ->
  image true meta pk t ks = image true meta pk t' (keyOrder (list_to_set ks)) -> t = t'.
Proof.
  intros Hk Hp Hp' Hout E. apply (image_inj meta pk) in E as [_ Hsame]; try done.
  - apply map_eq. intros [tb k]. destruct (decide ((tb, k) ∈ keysOf (TableName meta) ks)) as [Hin|Hin]; [|by apply Hout].
    apply elem_of_keysOf in Hin as [E Hin]. cbn in E, Hin. subst tb. by apply Hsame.
  - intros k Hin%elem_of_keyOrder%elem_of_list_to_set. by apply Hp'.
Qed.

(** The log [dmlLog] describes the statement. *)
Lemma dmlLog_statement k b meta pk ks t t' :
  catalog schemaName (TableName meta) = Some meta -> keyed meta pk -> ks <> [] -> NoDup ks ->
  present_rows b meta pk t ks -> effect k b meta pk ks t' -> agreeOut (keysOf (TableName meta) ks) t t' ->
  (b = false -> Some (image b meta pk t ks) = afterOf k b meta pk ks t' -> t = t') ->
  statement (dmlLog k b meta pk ks t t') (keysOf (TableName meta) ks) t t'.
Proof.
  intros Hcat Hk Hne Hnd Hp He Hout Hdist. exists meta, pk, ks. unfold dmlLog, BuildUndoItem. cbn [LSchemaName LTableName].
  split; [done|]. split; [done|]. split; [done|]. split; [done|]. split; [done|]. split; [done|].
  destruct k; cbn [dmlType afterOf effect] in *.
  - apply LoggedUpdate; try done. cbn [BeforeImage AfterImage]. intros E. destruct b; [|by apply Hdist].
    injection E as E. apply (unchanged_images meta pk t t' ks); try done. unfold image. by rewrite E.
  - by apply LoggedDelete.
Qed.

(** What happens after the statement, for the outcome [reg] of the registration
    that was tried in [s3]: the log is appended under the id of the branch, or
    the error is returned and nothing is logged. *)
Definition loggedIf (run : res unit * S) (log : SqlUndoLog) (xid : string) (info : bytes) (s2 s3 : S) : Prop :=
  asks s2 s3 /\ up s3 /\ current s3 = current s2 /\
  let '(reg, s4) := registerBranchTransaction dataSource lockRetryTimes xid (LockKey log) s3 in
  up s4 /\ current s4 = current s2 /\
  match reg with
  | Ok branch => exists s5, run = (Ok tt, s5) /\ asks s4 s5 /\ up s5 /\
      let e := mkEntry (bytes_of xid) branch info StateNormal in
      current s5 = append_log e (current s2) /\ stored e log
  | Err e => run = (Err e, s4)
  | Panic => run = (Panic, s4)
  end.

Lemma loggedIf_logBranch run b ty table xid bi ai lockRecords info s2 s3 :
  asks s2 s3 -> up s3 -> current s3 = current s2 -> BuildLockKey lockRecords = Ok (lockKeyOf lockRecords) ->
  EncodeSqlUndoLog (BuildUndoItem b ty schemaName table (lockKeyOf lockRecords) bi ai) = Ok info ->
  run = logBranch schemaName dataSource lockRetryTimes b ty table xid bi ai lockRecords s3 ->
  loggedIf run (BuildUndoItem b ty schemaName table (lockKeyOf lockRecords) bi ai) xid info s2 s3.
Proof.
  intros Ha Hup3 Hc3 Hlk Henc ->. split; [done|]. split; [done|]. split; [done|]. cbn [LockKey BuildUndoItem].
  destruct (registerBranchTransaction dataSource lockRetryTimes xid (lockKeyOf lockRecords) s3) as [reg s4] eqn:Er.
  destruct (logBranch_outcome table b ty xid bi ai lockRecords info s3 reg s4 Hup3 Hlk Henc Er) as (Hup4 & Hc4 & Hreg).
  rewrite <- Hc3. split; [done|]. split; [done|]. destruct reg as [branch|e|]; [|done..].
  destruct Hreg as (s5 & E5 & Ha5 & Hup5 & Hc5). exists s5. by split_and!.
Qed.

(** *** Before the statement *)
Lemma PreHandle_outcome k b stmt args w xid meta pk ks s :
  up s -> catalog schemaName (TableText stmt) = Some meta -> keyed meta pk ->
  HasGlobalLockHint (DHints stmt) = false -> HasXIDHint (DHints stmt) = Ok (Some xid) -> WhereText stmt = Some w ->
  ks = matches (TableText stmt) w (condArgs (TableText stmt) meta b w args) (rows (current s)) -> ks <> [] ->
  exists s0 r s1, GetTableMeta schemaName (TableText stmt) s = (Ok meta, s0) /\
    readRows b (beforeText (TableText stmt) meta w) (condArgs (TableText stmt) meta true w args) s0 = (r, s1) /\
    up s1 /\ current s1 = current s /\
    PreHandle schemaName dataSource lockRetryTimes (requestFor b (dmlNode k stmt) args) (Some None) s =
      (match r with Ok _ => Ok (Some (Some (Some (image b meta pk (rows (current s)) ks)))) | Err e => Err e | Panic => Panic end, s1).
Proof.
  intros Hup Hcat Hk Hg Hx Hw Hks Hne.
  destruct (beforeImage_outcome (TableText stmt) meta pk Hcat Hk b stmt args w s Hup eq_refl Hw)
    as (s0 & r & s1 & Em & Er & Hup1 & Hc1 & E1).
  rewrite <- Hks in E1. exists s0, r, s1. split_and!; [done..|].
  rewrite PreHandle_dml. unfold processBefore. rewrite Hg, Hx. erewrite bind_SM_run by reflexivity. cbn beta iota.
  unfold mbind, SM_bind. rewrite E1. destruct r; [|done..]. unfold imageOrNil. by destruct ks.
Qed.

(** *** After the statement *)
Lemma PostHandle_outcome k b stmt args xid meta pk ks t s2 result id info :
  catalog schemaName (TableText stmt) = Some meta -> keyed meta pk -> HasXIDHint (DHints stmt) = Ok (Some xid) ->
  ks <> [] -> present_rows b meta pk t ks ->
  let t' := rows (current s2) in
  up s2 -> effect k b meta pk ks t' ->
  EncodeSqlUndoLog (dmlLog k b meta pk ks t t') = Ok info ->
  exists s3, loggedIf (PostHandle schemaName dataSource lockRetryTimes (requestFor b (dmlNode k stmt) args) result id
                         (Some (Some (Some (image b meta pk t ks)))) s2)
               (dmlLog k b meta pk ks t t') xid info s2 s3.
Proof.
  intros Hcat Hk Hx Hne Hp t' Hup2 He Henc. destruct (catalog_keyed _ _ _ Hcat) as [Htb _]. rewrite PostHandle_dml.
  unfold dmlLog in *. rewrite Htb in *. destruct k; cbn [dmlType afterOf effect] in *.
  - destruct (afterImage_runs (TableText stmt) meta pk Hcat Hk b stmt t ks s2 Hup2 eq_refl Hne) as (s3 & E3 & Ha3 & Hup3 & Hc3).
    { apply Forall_forall. intros x Hin. by destruct (Hp x Hin) as (vs & _ & _ & ? & _). }
    change (rows (current s2)) with t' in E3. rewrite (currentImage_all b meta pk t' t' ks Hne ltac:(done) He) in E3.
    exists s3. apply loggedIf_logBranch; try done; [by apply BuildLockKey_image|].
    unfold processAfterUpdate, withXID. rewrite Hx. erewrite bind_SM_run by reflexivity. cbn beta iota.
    cbn [theImage]. erewrite bind_SM_run by reflexivity. unfold afterImage in E3.
    erewrite bind_SM_run by (destruct b; exact E3). unfold needSchema. rewrite Hschema.
    by erewrite bind_SM_run by reflexivity.
  - exists s2. apply loggedIf_logBranch; try done; [apply asks_nothing | by apply BuildLockKey_image |].
    unfold processAfterDelete, withXID. rewrite Hx. erewrite bind_SM_run by reflexivity. cbn beta iota.
    cbn [theImage]. erewrite bind_SM_run by reflexivity. unfold needSchema. rewrite Hschema.
    by erewrite bind_SM_run by reflexivity.
Qed.

(** ** Prepared INSERT *)
Lemma getPKIndex_runs stmt meta i s :
  up s -> catalog schemaName (ITable stmt) = Some meta -> findColumn meta (IColumns stmt) = Ok (Some i) ->
  exists s', getPKIndex schemaName stmt s = (Ok i, s') /\ s' = (GetTableMeta schemaName (ITable stmt) s).2 /\ up s' /\ current s' = current s.
Proof.
  intros Hup Hcat Hi. destruct (GetTableMeta_runs s _ _ _ Hup Hcat) as (s1 & Em & Hs & Hc & _). exists s1.
  split_and!; [|by rewrite Em|done..]. unfold getPKIndex. erewrite bind_SM_run by (unfold metaOrZero; by rewrite Em).
  by erewrite bind_SM_run by (unfold slift; by rewrite Hi).
Qed.

Lemma present_binary_list (l : list goValue) : present true <$> l = l.
Proof. rewrite <- (list_fmap_id l) at 2. apply list_fmap_ext. intros ? ? _. apply present_binary. Qed.

Lemma insertAfterImage_runs stmt meta pk args i id ks s :
  up s -> catalog schemaName (ITable stmt) = Some meta -> keyed meta pk ->
  findColumn meta (IColumns stmt) = Ok (Some i) -> 0 <= i ->
  pkArgs (getColumnLen stmt) i (visit 0 (map_to_list args)) = Ok ks -> ks <> [] -> Forall (usable true) ks ->
  exists s', prepareInsert_AfterImage schemaName stmt args id s = (Ok (currentImage true meta pk (rows (current s)) ks), s') /\
    asks s s' /\ up s' /\ current s' = current s.
Proof.
  intros Hup Hcat Hk Hi Hi0 Hargs Hne Hu.
  destruct (getPKIndex_runs stmt meta i s Hup Hcat Hi) as (s1 & E1 & Hs1 & Hup1 & Hc1).
  destruct (getPKIndex_runs stmt meta i s1 Hup1 Hcat Hi) as (s2 & E2 & Hs2 & Hup2 & Hc2).
  destruct (GetTableMeta_runs s2 _ _ _ Hup2 Hcat) as (s3 & E3 & Hup3 & Hc3 & Hd3).
  destruct (keys_run s3 _ _ _ _ true ks Hup3 Hcat Hk Hne Hu) as (r & (s4 & E4 & Hup4 & Hc4 & Hd4) & Hsel).
  rewrite present_binary_list in E4. apply (BuildTableRecords_selected _ _ _ _ _ _ Hk) in Hsel.
  rewrite Hc3, Hc2, Hc1 in Hsel.
  exists s4. split_and!; [| |done|congruence].
  2: { apply (asks_meta schemaName (ITable stmt)). rewrite <- Hs1. apply (asks_meta schemaName (ITable stmt)). rewrite <- Hs2.
    apply (asks_meta schemaName (ITable stmt)). rewrite E3.
    apply (asks_rows true (selectFrom meta (ITable stmt) +:+ " WHERE `" +:+ pk +:+ "` IN " +:+ inList true ks) ks).
    cbn [snd]. rewrite E4. apply asks_nothing. }
  unfold prepareInsert_AfterImage.
  erewrite bind_SM_run.
  2:{ unfold prepareInsert_getPKValuesByColumn. erewrite bind_SM_run by exact E1. unfold slift. by rewrite Hargs. }
  erewrite bind_SM_run by exact E2. destruct (Z.leb_spec 0 i); [|lia].
  unfold prepareInsert_buildTableRecords. erewrite bind_SM_run by exact E3.
  unfold prepareInsert_buildAfterImageSql, selectKeys. destruct Hk as (Hpk & Hk'). rewrite Hpk, Ok_bind.
  erewrite bind_SM_run by reflexivity. erewrite bind_SM_run by exact E4. unfold recordsOf, slift. by rewrite Hsel.
Qed.

Definition insertLog (meta : TableMeta) (pk : string) (ks : list goValue) (t' : rowMap) : SqlUndoLog :=
  let after := Some (image true meta pk t' (keyOrder (list_to_set ks))) in
  BuildUndoItem true SQLType_INSERT schemaName (TableName meta) (lockKeyOf after) None after.

Lemma keysOf_order tb ks : keysOf tb (keyOrder (list_to_set ks)) = keysOf tb ks.
Proof.
  apply set_eq. intros key. rewrite !elem_of_keysOf, elem_of_keyOrder, elem_of_list_to_set. done.
Qed.

Lemma keyOrder_idem (ks : list goValue) :
  keyOrder (list_to_set ks) = keyOrder (list_to_set (keyOrder (list_to_set (C := gset goValue) ks))).
Proof. f_equal. apply set_eq. intros k. by rewrite !elem_of_list_to_set, elem_of_keyOrder, elem_of_list_to_set. Qed.

Lemma insertLog_statement meta pk ks t t' :
  catalog schemaName (TableName meta) = Some meta -> keyed meta pk -> ks <> [] ->
  (forall k, k ∈ ks -> t !! (TableName meta, k) = None) -> present_rows true meta pk t' ks ->
  agreeOut (keysOf (TableName meta) ks) t t' ->
  statement (insertLog meta pk ks t') (keysOf (TableName meta) ks) t t'.
Proof.
  intros Hcat Hk Hne Hnone Hp' Hout. exists meta, pk, (keyOrder (list_to_set ks)).
  unfold insertLog, BuildUndoItem. cbn [LSchemaName LTableName]. rewrite keysOf_order.
  split; [done|]. split; [done|]. split.
  { destruct ks as [|k0 ks0]; [done|]. intros E.
    assert (Hin : k0 ∈ keyOrder (list_to_set (k0 :: ks0))) by (apply elem_of_keyOrder; set_solver).
    rewrite E in Hin. by apply not_elem_of_nil in Hin. }
  split; [apply keyOrder_nodup|]. split; [done|]. split; [done|].
  apply LoggedInsert; try done.
  - apply keyOrder_idem.
  - intros k Hin%elem_of_keyOrder%elem_of_list_to_set. by apply Hnone.
  - intros k Hin%elem_of_keyOrder%elem_of_list_to_set. by apply Hp'.
Qed.

(** A prepared INSERT that lists its key column (not as the last one, see
    [insert_key_last_unseen]) is logged: [PostHandle] reads the inserted rows by
    the keys it finds among the arguments, registers the branch and, if that
    succeeds, appends one undo log that describes the insertion. *)
Theorem insert_handled stmt args xid meta pk i ks id result vars t s info :
  up s -> catalog schemaName (ITable stmt) = Some meta -> keyed meta pk -> HasXIDHint (IHints stmt) = Ok (Some xid) ->
  findColumn meta (IColumns stmt) = Ok (Some i) -> 0 <= i ->
  pkArgs (getColumnLen stmt) i (visit 0 (map_to_list args)) = Ok ks -> ks <> [] ->
  (forall k, k ∈ ks -> t !! (ITable stmt, k) = None) -> present_rows true meta pk (rows (current s)) ks ->
  agreeOut (keysOf (ITable stmt) ks) t (rows (current s)) ->
  EncodeSqlUndoLog (insertLog meta pk ks (rows (current s))) = Ok info ->
  (exists s3, loggedIf (PostHandle schemaName dataSource lockRetryTimes (requestFor true (InsertStmt stmt) args) result id vars s)
                (insertLog meta pk ks (rows (current s))) xid info s s3) /\
  statement (insertLog meta pk ks (rows (current s))) (keysOf (ITable stmt) ks) t (rows (current s)).
Proof.
  intros Hup Hcat Hk Hx Hi Hi0 Hargs Hne Hnone Hp Hout Henc. destruct (catalog_keyed _ _ _ Hcat) as [Htb _]. split.
  2: { rewrite <- Htb in *. by apply insertLog_statement. }
  unfold insertLog in *. rewrite Htb in *.
  destruct (insertAfterImage_runs stmt meta pk args i id ks s Hup Hcat Hk Hi Hi0 Hargs Hne) as (s1 & E1 & Ha1 & Hup1 & Hc1).
  { apply Forall_forall. intros x Hin. by destruct (Hp x Hin) as (vs & _ & _ & ? & _). }
  rewrite (currentImage_all true meta pk _ (rows (current s)) ks Hne ltac:(done) Hp) in E1.
  exists s1. apply loggedIf_logBranch; try done; [by apply BuildLockKey_image|].
  change (PostHandle schemaName dataSource lockRetryTimes (requestFor true (InsertStmt stmt) args) result id vars s)
    with (processAfterInsert schemaName dataSource lockRetryTimes true stmt args id s).
  unfold processAfterInsert, withXID. rewrite Hx. erewrite bind_SM_run by reflexivity. cbn beta iota.
  erewrite bind_SM_run by exact E1. unfold needSchema. rewrite Hschema. by erewrite bind_SM_run by reflexivity.
Qed.
End spec.

(** ** Registration *)
Section registration.
Context {S : Type} `{Coordinator S}.
Variables (dataSource : string) (lockRetryTimes : Z) (xid lockKey : string).

(** [n] attempts in a row that met a lock, each followed by a pause. *)
Inductive Blocked : nat -> S -> S -> Prop :=
| BlockedNone s : Blocked 0 s s
| BlockedOnce n s s1 s2 :
    tm_BranchRegister xid dataSource lockKey s = (Err BranchLockAcquireFailed, s1) ->
    Blocked n (Sleep s1) s2 -> Blocked (Datatypes.S n) s s2.

Lemma registerLoop_blocked k n s s' last :
  Blocked n s s' ->
  registerLoop dataSource (n + k) xid lockKey last s =
  registerLoop dataSource k xid lockKey (match n with O => last | _ => Err BranchLockAcquireFailed end) s'.
Proof.
  intros Hb. revert last. induction Hb as [s|n s s1 s2 E Hb IH]; intros last; [done|].
  cbn [Nat.add registerLoop]. rewrite E, String.eqb_refl, IH. by destruct n.
Qed.

(** The registration is tried again as long as it meets a lock: it succeeds
    when the lock is gone within [lockRetryTimes] attempts, fails with the lock
    error when it is not, and stops at the first other error. *)
Theorem registration_retries n s s' :
  Blocked n s s' ->
  (forall r s'', Z.of_nat n < lockRetryTimes -> tm_BranchRegister xid dataSource lockKey s' = (r, s'') ->
     r <> Err BranchLockAcquireFailed ->
     registerBranchTransaction dataSource lockRetryTimes xid lockKey s = (r, s'')) /\
  (0 < lockRetryTimes -> Z.of_nat n = lockRetryTimes ->
     registerBranchTransaction dataSource lockRetryTimes xid lockKey s = (Err BranchLockAcquireFailed, s')).
Proof.
  intros Hb. unfold registerBranchTransaction. split.
  - intros r s'' Hn E Hr. replace (Z.to_nat lockRetryTimes) with (n + Datatypes.S (Z.to_nat lockRetryTimes - n - 1))%nat by lia.
    rewrite (registerLoop_blocked _ _ _ _ _ Hb). cbn [registerLoop]. rewrite E. destruct r as [|e|]; [done| |done].
    destruct (String.eqb_spec e BranchLockAcquireFailed) as [->|_]; [done|done].
  - intros H0 Hn. replace (Z.to_nat lockRetryTimes) with (n + 0)%nat by lia.
    rewrite (registerLoop_blocked _ _ _ _ _ Hb). by destruct n; [lia|].
Qed.

(** With no attempts configured nothing is registered and no error reported. *)
Theorem no_attempt_no_error s :
  lockRetryTimes <= 0 -> registerBranchTransaction dataSource lockRetryTimes xid lockKey s = (Ok 0, s).
Proof. intros Hn. unfold registerBranchTransaction. by replace (Z.to_nat lockRetryTimes) with O by lia. Qed.
End registration.

(** ** What the filter misses *)

(** Parameter names as the protocol layer makes them. *)
Definition numbered (args : list (string * goValue)) : Prop :=
  Forall (fun kv => exists i, kv.1 = ("v" +:+ FormatInt i)%string /\ in_i64 i) args.

Lemma pkArgs_last columnLen pkIndex args :
  0 < columnLen -> pkIndex + 1 = columnLen -> numbered args -> pkArgs columnLen pkIndex args = Ok [].
Proof.
  intros Hlen Hlast. induction 1 as [|[key v] args (i & E & Hi) Hrest IH]; [done|]. cbn [fst] in E. subst key.
  change ("v" +:+ FormatInt i)%string with (String (Ascii.ascii_of_nat 118) (FormatInt i)). cbn [pkArgs]. unfold Atoi. rewrite ParseInt_err_FormatInt, Ok_bind by done.
  destruct (Z.eqb_spec columnLen 0); [lia|]. rewrite IH, Ok_bind.
  destruct (Z.eqb_spec (Z.rem i columnLen) (pkIndex + 1)) as [E|]; [|done]. exfalso.
  pose proof (Z.rem_bound_abs i columnLen ltac:(lia)). lia.
Qed.

(** A prepared INSERT whose key column is the last one listed: the filter finds
    none of its keys, whatever the arguments, and asks for the rows of an empty
    list of keys. *)
Theorem insert_key_last_unseen {S : Type} `{UndoServer S} `{MapOrder} schemaName stmt meta i args (s : S) :
  up s -> catalog schemaName (ITable stmt) = Some meta -> findColumn meta (IColumns stmt) = Ok (Some i) ->
  i + 1 = getColumnLen stmt -> numbered (visit 0 (map_to_list args)) ->
  runs (prepareInsert_getPKValuesByColumn schemaName stmt args) s [] (current s).
Proof.
  intros Hup Hcat Hi Hlast Hnum. destruct (GetTableMeta_runs s _ _ _ Hup Hcat) as (s1 & Em & Hs). exists s1. split; [|done].
  assert (Hlen : 0 < getColumnLen stmt).
  { unfold getColumnLen in *. destruct (IColumns stmt); [done|]. cbn [length]. lia. }
  unfold prepareInsert_getPKValuesByColumn. erewrite bind_SM_run.
  2:{ unfold getPKIndex. erewrite bind_SM_run by (unfold metaOrZero; by rewrite Em).
      by erewrite bind_SM_run by (unfold slift; by rewrite Hi). }
  unfold slift. by rewrite pkArgs_last.
Qed.

(** SELECT ... FOR UPDATE lets rows pass that another transaction holds: when no
    attempt finds them lockable the statement succeeds all the same. *)
Theorem select_for_update_ignores_lock {S : Type} `{MySQL S, Coordinator S, Printer}
    schemaName dataSource lockRetryTimes stmt result xid meta records lockKeys (s s1 : S) :
  GetTableMeta schemaName (STable stmt) s = (Ok meta, s1) -> BuildTableRecords meta result = Ok records ->
  BuildLockKey records = Ok lockKeys ->
  (forall s, (tm_IsLockableWithXID dataSource lockKeys xid s).1 = Ok false) ->
  exists s', selectForUpdate_Executable schemaName dataSource lockRetryTimes stmt result xid s = (Ok true, s').
Proof.
  intros Em Er Ek Hno. unfold selectForUpdate_Executable. erewrite bind_SM_run by exact Em.
  unfold recordsOf, slift. rewrite Er. erewrite bind_SM_run by reflexivity. rewrite Ek.
  erewrite bind_SM_run by reflexivity. destruct (String.eqb lockKeys ""); [by exists s1|].
  assert (Hl : forall n s, exists s', lockableLoop dataSource n lockKeys xid None s = (Ok None, s')).
  { induction n as [|n IH]; intros s0; [by exists s0|]. cbn [lockableLoop]. specialize (Hno s0).
    destruct (tm_IsLockableWithXID dataSource lockKeys xid s0) as [r s2]. cbn in Hno. subst r. apply IH. }
  destruct (Hl (Z.to_nat lockRetryTimes) s1) as [s' E]. exists s'. by erewrite bind_SM_run by exact E.
Qed.
