(* ===== verification/DtMem.v ===== *)
(** * A branch on the server in memory

    The instance of [BranchServer], the UPDATE of the example of
    [DtStore.dml_logged], and a registration that is tried again. *)
From Stdlib Require Import ZArith Lia List.
From stdpp Require Import base gmap list strings.
From S2P Require Import Prelude GoText Hints Encoding Packets GoTime DateTime Rows SqlText Undo UndoSpec UndoRestore UndoMem.
From S2P Require Import DtFilter DtSpec.
Import schema.

Local Open Scope Z_scope.

Lemma memMatches_returned t tb w args :
  tb = "product"%string -> Forall2 (fun cells k => exists c, cells = Ok c /\ default GNil <$> c = presented true product "id" t k)
    ((fun k => Ok (Some <$> presented true product "id" t k)) <$> memMatches "product" "" args t) (memMatches tb w args t).
Proof.
  intros ->. change (memMatches "product" w args t) with (memMatches "product" "" args t).
  apply Forall2_fmap_l, Forall_Forall2_diag, Forall_true. intros k. eexists; split; [reflexivity|].
  rewrite <- list_fmap_compose. apply list_fmap_id.
Qed.

#[export] Instance memory_branch : BranchServer memory.
Proof.
  refine {| matches := memMatches |}.
  - intros tb w args t. unfold memMatches. destruct args as [|k [|]]; try constructor.
    case_bool_decide; [apply NoDup_singleton | constructor].
  - intros m sch tb meta pk b w args r m' _ [-> ->]%catalog_product ->%product_keyed E. destruct b.
    + cbn [readRows conn_PrepareQueryArgs memory_mysql] in E. unfold memImages in E.
      rewrite !lastByte_app in E by (repeat apply bytes_app_ne; done). change (lastByte " FOR UPDATE" =? 41) with false in E.
      injection E as <- <-. split_and!; [done..|]. intros q [= <-]. split; [done|]. by apply memMatches_returned.
    + injection E as <- <-. split_and!; [done..|]. intros q [= <-]. split; [done|]. constructor.
  - intros m sch tb meta pk b ks _ [-> ->]%catalog_product ->%product_keyed Hne Hu. destruct b.
    + exists (memSelect (rows (working m)) ks). split; [|apply memSelect_selected]. exists m. split; [|by split_and!].
      cbn [readRows conn_PrepareQueryArgs memory_mysql present memory_view]. rewrite list_fmap_id. unfold memImages, inList, MysqlAppendInParam.
      rewrite !lastByte_app by (repeat apply bytes_app_ne; done).
      done.
    + destruct ks as [|k ks]; [done|]. inversion Hu as [|? ? [Hk _] _]. discriminate Hk.
  - intros m xid branch context info status _. exists noRows. eexists. split_and!; reflexivity || done.
Defined.

(** ** An UPDATE of product 1 *)
Definition orderHints : list hint := [NewXIDHint "gs/shop/7"].
Definition setStock : dmlStmt := mkDml "product" (Some "id=?"%string) orderHints.
Definition setStockArgs : gmap string goValue := {[ "v1" := GInt64 7; "v2" := GInt64 1 ]}%string.
Definition shop0 : memory := let d := mkDatabase opened [] in mkMemory d d.
Definition shop1 : memory := let d := mkDatabase updated [] in mkMemory (durable shop0) d.

Definition encoded (l : SqlUndoLog) : bytes := match EncodeSqlUndoLog l with Ok b => b | _ => [] end.

Definition stockLog : SqlUndoLog := dmlLog (S := memory) "shop" KUpdate true product "id" [GInt64 1] opened updated.

Lemma setStock_matches :
  [GInt64 1] = matches (S := memory) "product" "id=?" (condArgs "product" product true "id=?" setStockArgs) opened.
Proof. by vm_compute. Qed.

Lemma stockLog_encodes : EncodeSqlUndoLog stockLog = Ok (encoded stockLog).
Proof. by vm_compute. Qed.

Lemma updated_rows : present_rows (S := memory) true product "id" updated [GInt64 1].
Proof. by apply (product_row _ 1 7). Qed.

(** ** Registration against a row that is locked for a while *)
#[local] Instance busy : Coordinator nat := {|
  tm_BranchRegister _ _ _ n := (match n with O => Ok 7 | _ => Err BranchLockAcquireFailed end, n);
  tm_IsLockable _ _ n := (Ok (Nat.eqb n 0), n);
  tm_IsLockableWithXID _ _ _ n := (Ok (Nat.eqb n 0), n);
  Sleep := pred |}.

Lemma registration_retries_witness :
  registerBranchTransaction (S := nat) "ds" 5 "gs/shop/7" "product:1" 2%nat = (Ok 7, 0%nat) /\
  registerBranchTransaction (S := nat) "ds" 2 "gs/shop/7" "product:1" 2%nat = (Err BranchLockAcquireFailed, 0%nat).
Proof.
  assert (Hb : Blocked (S := nat) "ds" "gs/shop/7" "product:1" 2 2%nat 0%nat)
    by (eapply BlockedOnce; [reflexivity|]; eapply BlockedOnce; [reflexivity|]; apply BlockedNone).
  split.
  - apply (proj1 (registration_retries (S := nat) "ds" 5 "gs/shop/7" "product:1" 2 2%nat 0%nat Hb)); [lia | reflexivity | discriminate].
  - apply (proj2 (registration_retries (S := nat) "ds" 2 "gs/shop/7" "product:1" 2 2%nat 0%nat Hb)); lia.
Defined.

