(* ===== verification/DtStore.v ===== *)
(** * Branches of distributed transactions against the store

    The filter of AT branches composed with the transaction manager and the etcd
    store: [registerBranchTransaction] calls [BranchRegister], which runs
    [AddBranchSession].  The state is the database of the branch beside the key
    space of the store.  [dml_logged] is the outcome of an UPDATE or DELETE: the
    undo log and the branch with its row locks, or neither when a row is locked.
    The filter repeats a registration on the error BranchLockAcquireFailed;
    [conflict_not_retried] shows that the store never answers a conflict with
    it. *)
From Stdlib Require Import ZArith Lia List.
From stdpp Require Import base gmap list strings.
From S2P Require Import Prelude GoText Hints Encoding Packets GoTime DateTime Rows SqlText Undo UndoSpec UndoRestore UndoMem DtFilter DtSpec DtMem.
From S2P Require Import Session Etcd Store StoreSpec RequestContext TxManager.

Local Open Scope Z_scope.

(** The transaction manager as the filter sees it, on a key space nobody else
    uses while a call runs; [others] is what happens during a pause. *)
Definition storeCoordinator {GC : Codec GlobalSession.t} {BC : Codec BranchSession.t}
    (m : manager) (id now : Z) (others : snapshot -> snapshot) : Coordinator snapshot := {|
  tm_BranchRegister xid resource lockKey s :=
    let '(r, s') := runOn (BranchRegister m (TxManager.mkRequest xid resource lockKey AT []) id now) s in
    (match r with Ok (_, branch) => Ok branch | Err e => Err e | Panic => Panic end, s');
  tm_IsLockable resource lockKey s := runOn (IsLockable resource lockKey) s;
  tm_IsLockableWithXID resource lockKey xid s := runOn (IsLockableWithXID resource lockKey xid) s;
  Sleep := others |}.

(** ** A database beside something else *)
Section paired.
Context {M X : Type}.

Definition onFst {A} (m : SM M A) : SM (M * X) A := fun s => let '(r, s') := m s.1 in (r, (s', s.2)).

#[export] Instance paired_mysql `{MySQL M} : MySQL (M * X) := {|
  db_Begin := onFst db_Begin;
  db_ExecuteSqlDirectly sql args := onFst (db_ExecuteSqlDirectly sql args);
  tx_ExecuteSql sql args := onFst (tx_ExecuteSql sql args);
  tx_ExecuteSqlDirectly sql args := onFst (tx_ExecuteSqlDirectly sql args);
  tx_QueryDirectly sql := onFst (tx_QueryDirectly sql);
  tx_Commit := onFst tx_Commit;
  tx_Rollback := onFst tx_Rollback;
  conn_PrepareExecuteArgs sql args := onFst (conn_PrepareExecuteArgs sql args);
  conn_PrepareQueryArgs sql args := onFst (conn_PrepareQueryArgs sql args);
  conn_Query sql := onFst (conn_Query sql);
  GetTableMeta sch tb := onFst (GetTableMeta sch tb) |}.

#[export] Instance paired_view `{ServerView M} : ServerView (M * X) := {|
  committed s := committed s.1; current s := current s.1; up s := up s.1;
  catalog := catalog (S := M); present := present (S := M); usable := usable (S := M); keyOrder := keyOrder (S := M) |}.

Lemma runs_onFst `{ServerView M} {A} (m : SM M A) s a d : runs m s.1 a d -> runs (onFst m) s a d.
Proof. intros (s' & E & Hs). exists (s', s.2). split; [|exact Hs]. unfold onFst. by rewrite E. Qed.
Lemma onFst_run {A} (m : SM M A) s x r s' : onFst m (s, x) = (r, s') -> m s = (r, s'.1) /\ s'.2 = x.
Proof. unfold onFst. cbn. destruct (m s) as [r0 s0]. by intros [= <- <-]. Qed.

#[export] Instance paired_undo `{UndoServer M} : UndoServer (M * X).
Proof.
  split; cbn [committed current up catalog present usable keyOrder paired_view].
  - apply catalog_keyed.
  - apply present_binary.
  - apply present_restorable.
  - apply keyOrder_elements.
  - intros s Hup. by apply (runs_onFst db_Begin s), Begin_runs.
  - intros s Hup. destruct (Commit_runs s.1 Hup) as (s' & E & Hs). exists (s', s.2). split; [|exact Hs].
    cbn [tx_Commit paired_mysql]. unfold onFst. by rewrite E.
  - intros s Hup. by apply (runs_onFst tx_Rollback s), Rollback_runs.
  - intros s sch tb meta Hup Hc. by apply (runs_onFst (GetTableMeta sch tb) s), GetTableMeta_runs.
  - intros s sch tb meta pk b k vs Hup Hc Hk Hf Hn. destruct (insert_runs s.1 sch tb meta pk b k vs) as [r Hr]; [done..|].
    exists r. by apply (runs_onFst (tx_ExecuteSql _ _) s).
  - intros s sch tb meta pk b k vs Hup Hc Hk Hf Hn. destruct (update_runs s.1 sch tb meta pk b k vs) as [r Hr]; [done..|].
    exists r. by apply (runs_onFst (tx_ExecuteSql _ _) s).
  - intros s sch tb meta pk b k Hup Hc Hk Hf Hn. destruct (delete_runs s.1 sch tb meta pk b k) as [r Hr]; [done..|].
    exists r. by apply (runs_onFst (tx_ExecuteSql _ _) s).
  - intros s sch tb meta pk ks Hup Hc Hk Hn Hu. destruct (select_runs s.1 sch tb meta pk ks) as (r & Hr & Hs); [done..|].
    exists r. split; [by apply (runs_onFst (tx_ExecuteSqlDirectly _ _) s) | exact Hs].
  - intros s sch tb meta pk ks Hup Hc Hk Hn Hu. destruct (query_runs s.1 sch tb meta pk ks) as (r & Hr & Hs); [done..|].
    exists r. split; [by apply (runs_onFst (tx_QueryDirectly _) s) | exact Hs].
  - intros s xid Hup. destruct (logs_run s.1 xid Hup) as (r & cs & Hr & Hs). exists r, cs.
    split; [by apply (runs_onFst (tx_ExecuteSqlDirectly _ _) s) | exact Hs].
  - intros s xid Hup. destruct (clear_runs s.1 xid Hup) as (r & Hr). exists r. by apply (runs_onFst (tx_ExecuteSqlDirectly _ _) s).
Qed.

Lemma readRows_onFst `{MySQL M} b sql args (s : M * X) : readRows b sql args s = onFst (readRows b sql args) s.
Proof. by destruct b. Qed.

#[export] Instance paired_branch `{BranchServer M} : BranchServer (M * X).
Proof.
  refine {| matches := matches (S := M) |}; cbn [committed current up catalog present usable keyOrder paired_view].
  - apply matches_nodup.
  - intros [s x] sch tb meta pk b w args r s' Hup Hc Hk E. rewrite readRows_onFst in E. apply onFst_run in E as [E _].
    exact (before_answers s sch tb meta pk b w args r s'.1 Hup Hc Hk E).
  - intros s sch tb meta pk b ks Hup Hc Hk Hn Hu. destruct (keys_run s.1 sch tb meta pk b ks) as (r & Hr & Hs); [done..|].
    exists r. split; [|exact Hs]. destruct b; [exact (runs_onFst (conn_PrepareQueryArgs _ _) s _ _ Hr) | exact (runs_onFst (conn_Query _) s _ _ Hr)].
  - intros s xid branch context info status Hup. destruct (log_runs s.1 xid branch context info status Hup) as (r & Hr).
    exists r. by apply (runs_onFst (conn_PrepareExecuteArgs _ _) s).
Defined.

(** Asking the database leaves the rest alone. *)
Lemma asks_snd `{MySQL M} (s s' : M * X) : asks s s' -> s'.2 = s.2.
Proof.
  induction 1 as [s|sch tb s s' _ ->|b sql args s s' _ ->|sql args s s' _ ->]; [done|..]; rewrite ?readRows_onFst; cbn; unfold onFst; by case_match.
Qed.
End paired.

(** The manager and the store beside the database. *)
Definition storeBeside {M} {GC : Codec GlobalSession.t} {BC : Codec BranchSession.t}
    (m : manager) (id now : Z) (others : snapshot -> snapshot) : Coordinator (M * snapshot) :=
  let c := storeCoordinator m id now others in {|
  tm_BranchRegister xid resource lockKey s := let '(r, s') := tm_BranchRegister xid resource lockKey s.2 in (r, (s.1, s'));
  tm_IsLockable resource lockKey s := let '(r, s') := tm_IsLockable resource lockKey s.2 in (r, (s.1, s'));
  tm_IsLockableWithXID resource lockKey xid s := let '(r, s') := tm_IsLockableWithXID resource lockKey xid s.2 in (r, (s.1, s'));
  Sleep s := (s.1, Sleep s.2) |}.

Lemma storeBeside_apart {M} `{ServerView M} {GC : Codec GlobalSession.t} {BC : Codec BranchSession.t} m id now others :
  Apart (M * snapshot) (H0 := storeBeside m id now others).
Proof.
  split.
  - intros s xid resource lockKey Hup. cbn. by repeat case_match; simplify_eq.
  - done.
Qed.

(** ** A statement of a branch, with the manager and the store *)

(** No other transaction has the row. *)
Definition freeFor (st : snapshot) (xid rowKey : string) : bool :=
  match Value <$> kvs st !! rowKey with None => true | Some v => Contains v xid end.

Section branch.
Context {M : Type} `{BranchServer M} `{MapOrder} `{BigEndianIO, Protobuf}.
Context {GC : Codec GlobalSession.t} {BC : Codec BranchSession.t}.
(** The manager, the id and the time it gives to the branch, and what others do
    to the store while the filter pauses. *)
Context (m : manager) (branchID now : Z) (others : snapshot -> snapshot).
Variables (schemaName dataSource : string) (attempts : Z).
Context (Hschema : String.eqb schemaName "" = false) (Hattempts : 0 < attempts).

#[local] Instance besideStore : Coordinator (M * snapshot) := storeBeside m branchID now others.
#[local] Existing Instance storeBeside_apart.

(** The branch of a statement that changed the rows of a lock key. *)
Definition atBranch (xid lockKey : string) : BranchSession.t :=
  newBranchSession m (TxManager.mkRequest xid dataSource lockKey AT []) branchID now.

(** What its registration writes. *)
Definition branchOps (st : snapshot) (xid lockKey data : string) : list op :=
  let bs := atBranch xid lockKey in
  OpPut (BranchSession.BranchID bs) data
  :: OpPut (BranchKeyFormat xid (BranchSession.BranchSessionID bs)) (BranchSession.BranchID bs)
  :: concat (lockOps xid <$> toTake st xid (CollectRowKeys lockKey dataSource)).

(** The transaction is open, and the branch can be written. *)
Record registrable (st : snapshot) (xid lockKey data : string) : Prop := {
  re_hist : hist_ok [st];
  re_open : exists gs, globalAt st xid gs /\ GlobalSession.Status gs <= Begin;
  re_data : marshal (atBranch xid lockKey) = Ok data;
  re_txn : txn_ok (branchOps st xid lockKey data) = true }.

Lemma register_run xid lockKey data (s : M) st :
  registrable st xid lockKey data -> lockKey <> ""%string ->
  registerBranchTransaction dataSource attempts xid lockKey (s, st) =
    if forallb (freeFor st xid) (CollectRowKeys lockKey dataSource)
    then (Ok branchID, (s, apply_ops st (branchOps st xid lockKey data)))
    else (Err (registerFailed (atBranch xid lockKey)), (s, st)).
Proof.
  intros [Hh (gs & Hg & Hst) Hd Htx] Hlk.
  assert (Ht : takesLocks (atBranch xid lockKey) = true) by (unfold takesLocks; cbn; by destruct (String.eqb_spec lockKey "")).
  pose proof (run_AddBranchSession st (atBranch xid lockKey) gs data Hh Hd Hg Hst Ht Htx) as Hrun. cbn zeta in Hrun.
  change (BranchSession.LockKey (atBranch xid lockKey)) with lockKey in Hrun.
  change (BranchSession.ResourceID (atBranch xid lockKey)) with dataSource in Hrun.
  change (BranchSession.XID (atBranch xid lockKey)) with xid in Hrun.
  fold (freeFor st xid) in Hrun. fold (branchOps st xid lockKey data) in Hrun.
  unfold registerBranchTransaction. destruct (Z.to_nat attempts) as [|n] eqn:En; [lia|].
  cbn [registerLoop tm_BranchRegister storeCoordinator besideStore storeBeside snd fst]. unfold BranchRegister. fold (atBranch xid lockKey).
  unfold go_bind. rewrite runOn_bind, Hrun. by destruct (forallb _ _).
Qed.

Lemma lockKey_given k b meta pk ks t t' :
  keyed meta pk -> ks <> [] -> LockKey (dmlLog (S := M) schemaName k b meta pk ks t t') <> ""%string.
Proof.
  intros Hk Hne. assert (Hlk : forall t ks, ks <> [] -> lockKeyOf (Some (image (S := M) b meta pk t ks)) <> ""%string).
  { intros t0 l Hl. unfold lockKeyOf, BuildLockKey. destruct (schema.Rows (image b meta pk t0 l)) eqn:E; [by destruct l|].
    rewrite (PKFields_image b meta pk t0 l Hk), Ok_bind. by destruct (schema.RTableName (image b meta pk t0 l)). }
  unfold dmlLog, BuildUndoItem. cbn [LockKey]. destruct k; cbn [afterOf]; apply Hlk; [|done].
  destruct ks as [|k0 ks0]; [done|]. intros E.
  assert (Hin : k0 ∈ keyOrder (S := M) (list_to_set (k0 :: ks0))) by (apply elem_of_keyOrder; set_solver).
  rewrite E in Hin. by apply not_elem_of_nil in Hin.
Qed.

(** The branch and the rows it took. *)
Lemma registered_branch xid lockKey data st :
  registrable st xid lockKey data ->
  let st' := apply_ops st (branchOps st xid lockKey data) in
  Value <$> kvs st' !! BranchSession.BranchID (atBranch xid lockKey) = Some data /\
  forall rk, rk ∈ CollectRowKeys lockKey dataSource -> kvs st !! rk = None -> Value <$> kvs st' !! rk = Some (LockKeyFormat xid rk).
Proof.
  intros [_ _ _ Htx] st'. split; [by unfold st'; erewrite apply_ops_put by (done || by left)|].
  intros rk Hin Hno. unfold st'. erewrite apply_ops_put; [done | done |].
  right; right. apply in_concat. exists (lockOps xid rk). split; [|by right; left].
  apply in_map, filter_In. rewrite Hno. split; [by apply list_elem_of_In | done].
Qed.

End branch.

(** ** The UPDATE of product 1 as a branch of gs/shop/7 *)
Definition shopGs : GlobalSession.t := GlobalSession.mk "gs/shop/7" "shop" 7 "order" 60000 1661000000000 Begin.
Definition shopManager : manager := newManager "shop" 0 false.
Definition shopStore : snapshot := mkSnap {[ "gs/shop/7"%string := mkKV (str (marshal shopGs)) 2 ]} 2.
(** Product 1 is locked by gs/shop/3. *)
Definition soldStore : snapshot :=
  mkSnap (<["ds^^^product^^^1"%string := mkKV "lk/gs/shop/3/ds^^^product^^^1" 1]> (kvs shopStore)) 2.
Definition shopBranch : BranchSession.t := atBranch shopManager 8 1661000000001 "ds" "gs/shop/7" "product:1".

Lemma shop_registrable st :
  st = shopStore \/ st = soldStore ->
  registrable shopManager 8 1661000000001 "ds" st "gs/shop/7" (LockKey stockLog) (str (marshal shopBranch)).
Proof.
  intros Hst. split.
  - destruct Hst as [-> | ->]; (apply hist_ok_single; [|cbn; lia]); apply map_Forall_to_list; vm_compute; repeat constructor; discriminate.
  - exists shopGs. split; [|done]. exists (mkKV (str (marshal shopGs)) 2).
    destruct Hst as [-> | ->]; split; vm_compute; reflexivity.
  - vm_compute; reflexivity.
  - destruct Hst as [-> | ->]; vm_compute; reflexivity.
Qed.


(** ** Conflicts *)
Section conflict.
Context {GC : Codec GlobalSession.t} {BC : Codec BranchSession.t}.
Context (m : manager) (id now : Z) (others : snapshot -> snapshot).

(** The first conflict ends the registration: when a row of the statement is
    locked by another transaction, the filter gives up after one attempt with
    the store's error, however many attempts are configured and even if the
    other transaction would have released the row during the pause. *)
Theorem conflict_not_retried attempts resource xid lockKey gs data rk v s :
  let bs := newBranchSession m (TxManager.mkRequest xid resource lockKey AT []) id now in
  0 < attempts -> hist_ok [s] -> marshal bs = Ok data -> globalAt s xid gs -> GlobalSession.Status gs <= Begin ->
  lockKey <> ""%string -> rk ∈ CollectRowKeys lockKey resource -> Value <$> kvs s !! rk = Some v -> Contains v xid = false ->
  txn_ok (OpPut (BranchSession.BranchID bs) data
          :: OpPut (BranchKeyFormat xid (BranchSession.BranchSessionID bs)) (BranchSession.BranchID bs)
          :: concat (lockOps xid <$> toTake s xid (CollectRowKeys lockKey resource))) = true ->
  registerBranchTransaction (S := snapshot) (H0 := storeCoordinator m id now others) resource attempts xid lockKey s =
    (Err (registerFailed bs), s).
Proof.
  intros bs Hn Hok Em Hgs Hst Hlk Hrk Hv Hc Htx.
  assert (Ht : takesLocks bs = true) by (unfold takesLocks, bs; cbn; by destruct (String.eqb_spec lockKey "")).
  pose proof (run_AddBranchSession s bs gs data Hok Em Hgs Hst Ht Htx) as Hrun. cbn zeta in Hrun.
  assert (Hall : forallb (fun rk => match Value <$> kvs s !! rk with None => true | Some v => Contains v xid end)
                   (CollectRowKeys lockKey resource) = false).
  { apply not_true_is_false. intros Hall. rewrite forallb_forall in Hall.
    apply list_elem_of_In in Hrk. specialize (Hall rk Hrk). rewrite Hv in Hall. congruence. }
  change (BranchSession.LockKey bs) with lockKey in Hrun. change (BranchSession.ResourceID bs) with resource in Hrun.
  change (BranchSession.XID bs) with xid in Hrun. rewrite Hall in Hrun.
  unfold registerBranchTransaction. destruct (Z.to_nat attempts) as [|n] eqn:En; [lia|].
  cbn [registerLoop tm_BranchRegister storeCoordinator]. unfold BranchRegister. fold bs.
  unfold go_bind. rewrite runOn_bind, Hrun. done.
Qed.
End conflict.

(** Product 5 of the sample store is locked by gs/app/1; gs/app/2 wants it. *)
Definition gs2 : GlobalSession.t := GlobalSession.mk "gs/app/2" "app" 2 "payment" 60000 1661000000003 Begin.
Definition contended : snapshot :=
  mkSnap (<["gs/app/2"%string := mkKV (str (marshal gs2)) 4]> (kvs sample)) 4.

Definition manager0 : manager := newManager "app" 0 false.
Definition bs9 : BranchSession.t := newBranchSession manager0 (TxManager.mkRequest "gs/app/2" "db" "t:5" AT []) 9 1661000000004.

Lemma contended_hist : hist_ok [contended].
Proof.
  apply hist_ok_single; [|cbn; lia]. intros k kv H. unfold contended in H. cbn [kvs] in H.
  apply lookup_insert_Some in H as [(<- & <-)|(_ & E)]; [cbn; lia|].
  pose proof (hist_mod _ sample_hist sample k kv (or_introl eq_refl) E). cbn in *. lia.
Qed.

Lemma conflict_not_retried_witness :
  registerBranchTransaction (S := snapshot) (H0 := storeCoordinator manager0 9 1661000000004 (fun _ => sample))
    "db" 10 "gs/app/2" "t:5" contended = (Err (registerFailed bs9), contended).
Proof.
  apply (conflict_not_retried manager0 9 1661000000004 (fun _ => sample) 10 "db" "gs/app/2" "t:5" gs2
           (str (marshal bs9)) "db^^^t^^^5" "lk/gs/app/1/db^^^t^^^5" contended).
  - lia.
  - exact contended_hist.
  - vm_compute; reflexivity.
  - exists (mkKV (str (marshal gs2)) 4). split; vm_compute; reflexivity.
  - vm_compute; discriminate.
  - discriminate.
  - vm_compute. left.
  - vm_compute; reflexivity.
  - vm_compute; reflexivity.
  - vm_compute; reflexivity.
Defined.
