(* ===== verification/HttpFilter.v ===== *)
(** * The HTTP proxy and its transaction filter: [pkg/filter/dt/filter_http.go],
    [filter_http_transaction.go], [pkg/listener/http.go]

    The listener runs the filters around forwarding a request to the backend.
    The transaction filter begins a global transaction for configured paths and
    ends it by the status of the response; for the prepare path of a TCC resource
    it registers a branch that carries the request.  fasthttp is the class
    [FastHttp], the transaction manager the class [HttpManager].  An error a
    function returns is [Err]; [strings.ToLower] is that of ASCII. *)
From Stdlib Require Import ZArith Lia List.
From stdpp Require Import base gmap list strings.
From S2P Require Import Prelude GoText Encoding Session RequestContext TxManager Undo.

Local Open Scope Z_scope.

(** ** What the filter uses *)

(** Headers and regular expressions. *)
Class FastHttp := {
  header : Type;
  hdrAdd : string -> string -> header -> header;
  hdrPeek : string -> header -> string;
  (** [VisitAll] *)
  hdrAll : header -> list (string * string);
  hdrPeek_add : forall k v h, hdrPeek k h = EmptyString -> hdrPeek k (hdrAdd k v h) = v;
  (** [regexp.Match] *)
  regexpMatch : string -> string -> res bool }.

Class HttpManager (S : Type) := {
  tm_Begin : string -> Z -> S -> res string * S;
  tm_Commit : string -> S -> res Z * S;
  tm_Rollback : string -> S -> res Z * S;
  tm_Register : BranchRegisterRequest -> S -> res string * S;
  tm_Report : string -> Z -> S -> res unit * S }.

Definition XID : string := "x-dbpack-xid".
Definition BranchID : string := "x-dbpack-branch-id".
Definition VarHost : string := "host".
Definition VarQueryString : string := "queryString".
Definition CommitRequestPath : string := "tcc_commit_request_path".
Definition RollbackRequestPath : string := "tcc_rollback_request_path".
Definition StatusOK : Z := 200.
Definition StatusInternalServerError : Z := 500.
Definition StatusServiceUnavailable : Z := 503.

(** ** Configuration *)
Inductive MatchType := Exact | Prefix | Regex.

(** [s] between double quotes, as [%q] prints a text without characters to escape. *)
Definition inQuotes (s : string) : string := (String (Ascii.ascii_of_nat 34) EmptyString +:+ s +:+ String (Ascii.ascii_of_nat 34) EmptyString).
Definition unmarshalMatchType (text : string) : res MatchType :=
  let t := ToLower text in
  if String.eqb t "exact" then Ok Exact
  else if String.eqb t "prefix" then Ok Prefix
  else if String.eqb t "regex" then Ok Regex
  else Err ("unsupported match type: " +:+ inQuotes text)%string.

Record TransactionInfo := mkTransactionInfo { RequestPath : string; Timeout : Z; matchType : MatchType }.
Record TccResourceInfo := mkTccResourceInfo {
  PrepareRequestPath : string; commitPath : string; rollbackPath : string }.

Record httpFilter := mkHttpFilter {
  transactionInfoMap : gmap string TransactionInfo;
  transactionInfos : list TransactionInfo;
  tccResourceInfoMap : gmap string TccResourceInfo }.

Definition addTransactionInfo (f : httpFilter) (ti : TransactionInfo) : httpFilter :=
  match matchType ti with
  | Exact => mkHttpFilter (<[ToLower (RequestPath ti) := ti]> (transactionInfoMap f)) (transactionInfos f) (tccResourceInfoMap f)
  | Prefix | Regex => mkHttpFilter (transactionInfoMap f) (transactionInfos f ++ [ti]) (tccResourceInfoMap f)
  end.
Definition addTccResource (f : httpFilter) (r : TccResourceInfo) : httpFilter :=
  mkHttpFilter (transactionInfoMap f) (transactionInfos f) (<[ToLower (PrepareRequestPath r) := r]> (tccResourceInfoMap f)).
Definition NewFilter (infos : list TransactionInfo) (resources : list TccResourceInfo) : httpFilter :=
  foldl addTccResource (foldl addTransactionInfo (mkHttpFilter ∅ [] ∅) infos) resources.

(** The JSON object of a failure. *)
Definition failure (err : string) : string :=
  ("{" +:+ inQuotes "success" +:+ ":false," +:+ inQuotes "error" +:+ ":" +:+ inQuotes err +:+ "}")%string.

(** ** Requests *)
Section filter.
Context `{FastHttp} `{Json} {S : Type} `{HttpManager S}.

Record httpRequest := mkHttpRequest {
  Method : string; RequestURI : string; QueryString : string; requestHeader : header; PostBody : bytes }.
Record httpResponse := mkHttpResponse { StatusCode : Z; responseBody : string }.

(** [*fasthttp.RequestCtx] *)
Record httpCtx := mkHttpCtx { Request : httpRequest; Response : httpResponse; userValues : gmap string string }.

Definition HM : Type -> Type := SM (httpCtx * S).

Definition getCtx : HM httpCtx := fun '(c, s) => (Ok c, (c, s)).
Definition modifyCtx (f : httpCtx -> httpCtx) : HM unit := fun '(c, s) => (Ok tt, (f c, s)).
Definition onManager {A} (m : S -> res A * S) : HM A := fun '(c, s) => let '(r, s') := m s in (r, (c, s')).
(** An error that is only logged. *)
Definition logError (m : HM unit) : HM unit := fun x =>
  match m x with (Err _, x') => (Ok tt, x') | r => r end.
(** [_.(string)] of a user value: nil panics. *)
Definition UserValue (name : string) : HM string :=
  c ← getCtx; match userValues c !! name with Some v => mret v | None => spanic end.
Definition SetUserValue (name value : string) : HM unit :=
  modifyCtx (fun c => mkHttpCtx (Request c) (Response c) (<[name := value]> (userValues c))).
(** [Response.Reset], [SetStatusCode] and [SetBodyString] *)
Definition respond (code : Z) (body : string) : HM unit :=
  modifyCtx (fun c => mkHttpCtx (Request c) (mkHttpResponse code body) (userValues c)).
(** The response and the error of a handler that fails. *)
Definition refuse {A} (body err : string) : HM A :=
  _ ← respond StatusInternalServerError body; sfail err.

Definition matchInfo (path : string) (ti : TransactionInfo) : bool :=
  match matchType ti with
  | Exact => false
  | Prefix => HasPrefix path (ToLower (RequestPath ti))
  | Regex => match regexpMatch (ToLower (RequestPath ti)) path with Ok b => b | _ => false end
  end.
Definition matchTransactionInfo (f : httpFilter) (requestPath : string) : option TransactionInfo :=
  let path := ToLower requestPath in
  match transactionInfoMap f !! path with
  | Some ti => Some ti
  | None => List.find (matchInfo path) (transactionInfos f)
  end.

(** ** Global transactions: the text of the error, which is only logged, leaves out
    the printed [transactionInfo] *)
Definition handleHttp1GlobalBegin (transactionInfo : TransactionInfo) : HM unit := fun x =>
  let name := RequestURI (Request (fst x)) in
  match onManager (tm_Begin name (Timeout transactionInfo)) x with
  | (Ok xid, x') =>
    (_ ← SetUserValue XID xid;
     modifyCtx (fun c =>
       let r := Request c in
       mkHttpCtx (mkHttpRequest (Method r) (RequestURI r) (QueryString r) (hdrAdd XID xid (requestHeader r)) (PostBody r))
         (Response c) (userValues c))) x'
  | (Err e, x') =>
    refuse (failure ("failed to begin global transaction, " +:+ e))
      ("failed to begin global transaction, err: " +:+ e)%string x'
  | (Panic, x') => (Panic, x')
  end.

Definition globalCommit (xid : string) : HM unit := _ ← onManager (tm_Commit xid); mret tt.
Definition globalRollback (xid : string) : HM unit := _ ← onManager (tm_Rollback xid); mret tt.

Definition handleHttp1GlobalEnd : HM unit :=
  xid ← UserValue XID;
  c ← getCtx;
  if StatusCode (Response c) =? StatusOK then globalCommit xid else globalRollback xid.

(** ** TCC branches *)
Definition requestContextOf (r : httpRequest) (host : string) (tcc : TccResourceInfo) : RequestContext :=
  let action := <[RollbackRequestPath := rollbackPath tcc]> (<[CommitRequestPath := commitPath tcc]> {[ VarHost := host ]}) in
  mkContext (if String.eqb (QueryString r) EmptyString then action else <[VarQueryString := QueryString r]> action)
    (foldl (fun m '(k, v) => <[k := v]> m) ∅ (hdrAll (requestHeader r))) (PostBody r).

Definition handleHttp1BranchRegister (tcc : TccResourceInfo) : HM unit :=
  c ← getCtx;
  let r := Request c in
  let xid := hdrPeek XID (requestHeader r) in
  if String.eqb xid EmptyString then
    refuse (failure "failed to get XID from request header") "failed to get XID from request header"
  else
    host ← (UserValue VarHost : HM string);
    let data := Encode (requestContextOf r host tcc) in
    (fun x =>
       match onManager (tm_Register (mkRequest xid (RequestURI r) EmptyString TCC data)) x with
       | (Ok branchID, x') => (_ ← SetUserValue XID xid; SetUserValue BranchID branchID) x'
       | (Err e, x') =>
         refuse (failure ("branch transaction register failed, " +:+ e))
           ("branch transaction register failed, XID: " +:+ xid +:+ ", err: " +:+ e)%string x'
       | (Panic, x') => (Panic, x')
       end) : HM unit.

Definition handleHttp1BranchEnd : HM unit :=
  branchID ← UserValue BranchID;
  c ← getCtx;
  if StatusCode (Response c) =? StatusOK then mret tt
  else onManager (tm_Report branchID PhaseOneFailed).

(** ** The filter *)

(** A handler that fails is followed by the end of what it did not begin. *)
Definition orEnd (begin end_ : HM unit) : HM unit := fun x =>
  match begin x with
  | (Err e, x') => (_ ← logError end_; sfail e) x'
  | r => r
  end.

Definition PreHandle (f : httpFilter) : HM unit :=
  c ← getCtx;
  let path := RequestURI (Request c) in
  if negb (EqualFold (Method (Request c)) "POST") then mret tt
  else
    match matchTransactionInfo f path with
    | Some transactionInfo => orEnd (handleHttp1GlobalBegin transactionInfo) handleHttp1GlobalEnd
    | None =>
      match tccResourceInfoMap f !! ToLower path with
      | Some tccResource => orEnd (handleHttp1BranchRegister tccResource) handleHttp1BranchEnd
      | None => mret tt
      end
    end.

Definition PostHandle (f : httpFilter) : HM unit :=
  c ← getCtx;
  let path := RequestURI (Request c) in
  if negb (EqualFold (Method (Request c)) "POST") then mret tt
  else
    _ ← (match matchTransactionInfo f path with Some _ => handleHttp1GlobalEnd | None => mret tt end);
    match tccResourceInfoMap f !! ToLower path with Some _ => handleHttp1BranchEnd | None => mret tt end.

(** ** The listener *)

(** [fasthttp.Do]: the response as it is afterwards, and an error. *)
Context (backendHost : string) (forward : httpRequest -> httpResponse -> S -> option string * httpResponse * S).

Fixpoint doFilters (fs : list (HM unit)) : HM unit :=
  match fs with
  | [] => mret tt
  | f :: fs' => _ ← f; doFilters fs'
  end.

Definition callBackend : HM unit := fun '(c, s) =>
  let '(err, resp, s') := forward (Request c) (Response c) s in
  let resp := match err with Some _ => mkHttpResponse StatusServiceUnavailable (responseBody resp) | None => resp end in
  (Ok tt, (mkHttpCtx (Request c) resp (userValues c), s')).

Definition handler (preFilters postFilters : list (HM unit)) : HM unit := fun x =>
  let x := (mkHttpCtx (Request (fst x)) (Response (fst x)) (<[VarHost := backendHost]> (userValues (fst x))), snd x) in
  match doFilters preFilters x with
  | (Ok _, x1) =>
    match (_ ← callBackend; doFilters postFilters) x1 with
    | (Err e, x2) => respond StatusInternalServerError (failure e) x2
    | r => r
    end
  | (Err _, x1) => (Ok tt, x1)
  | (Panic, x1) => (Panic, x1)
  end.

(** A new request: no user values, a response with status 200. *)
Definition newCtx (r : httpRequest) : httpCtx := mkHttpCtx r (mkHttpResponse StatusOK EmptyString) ∅.
End filter.
