(* ===== verification/HttpSpec.v ===== *)
(** * What the HTTP proxy promises

    A request to a transaction path runs in a global transaction that is
    committed exactly when the backend answers with status 200; a request to the
    prepare path of a TCC resource leaves a branch from which the second phase
    sends the very request to the path of the decision.  A transaction that could
    not be begun, and a branch that could not be registered, panic. *)
From Stdlib Require Import ZArith Lia List.
From stdpp Require Import base gmap list strings.
From S2P Require Import Prelude GoText Encoding Session Etcd Store StoreSpec RequestContext TxManager Undo HttpFilter.

Local Open Scope Z_scope.

Section spec.
Context `{FastHttp} `{Json} {S : Type} `{HttpManager S}.
Context (backendHost : string) (forward : httpRequest -> httpResponse -> S -> option string * httpResponse * S).
Context (f : httpFilter).

(** The request with the id of the transaction in its header. *)
Definition withXID (xid : string) (r : httpRequest) : httpRequest :=
  mkHttpRequest (Method r) (RequestURI r) (QueryString r) (hdrAdd XID xid (requestHeader r)) (PostBody r).

(** What the client is answered: the response of the backend, unless the
    transaction could not be ended. *)
Definition answered (resp : httpResponse) {A} (end_ : res A) : httpResponse :=
  match end_ with Err e => mkHttpResponse StatusInternalServerError (failure e) | _ => resp end.


(** A transaction that could not be begun crashes the proxy: the filter ends what
    it has not begun, and the missing id panics. *)
Theorem begin_failure_panics r s ti e s1 :
  EqualFold (Method r) "POST" = true -> matchTransactionInfo f (RequestURI r) = Some ti ->
  tm_Begin (RequestURI r) (Timeout ti) s = (Err e, s1) ->
  (handler backendHost forward [PreHandle f] [PostHandle f] (newCtx r, s)).1 = Panic.
Proof.
  intros Hp Hm Hb. unfold handler. cbn [fst snd newCtx Request Response userValues doFilters].
  unfold PreHandle, mbind, SM_bind, getCtx. cbn [fst snd Request]. rewrite Hp, Hm. cbn [negb].
  unfold orEnd, handleHttp1GlobalBegin, onManager. cbn [fst snd Request]. rewrite Hb.
  unfold refuse, respond, sfail, modifyCtx, logError, handleHttp1GlobalEnd, UserValue, getCtx, mbind, SM_bind.
  cbn [fst snd userValues Request Response]. rewrite lookup_insert_ne by done. by rewrite lookup_empty.
Qed.

(** Any client can crash the handler: a POST to the prepare path of a TCC resource
    without the transaction id in its header panics. *)
Theorem missing_xid_panics r s tcc :
  EqualFold (Method r) "POST" = true -> matchTransactionInfo f (RequestURI r) = None ->
  tccResourceInfoMap f !! ToLower (RequestURI r) = Some tcc -> hdrPeek XID (requestHeader r) = EmptyString ->
  (handler backendHost forward [PreHandle f] [PostHandle f] (newCtx r, s)).1 = Panic.
Proof.
  intros Hp Hm Ht Hx. unfold handler. cbn [fst snd newCtx Request Response userValues doFilters].
  unfold PreHandle, mbind, SM_bind, getCtx. cbn [fst snd Request]. rewrite Hp, Hm, Ht. cbn [negb].
  unfold orEnd, handleHttp1BranchRegister, getCtx, mbind, SM_bind. cbn [fst snd Request]. rewrite Hx. cbn [String.eqb].
  unfold refuse, respond, sfail, modifyCtx, logError, handleHttp1BranchEnd, UserValue, getCtx, mbind, SM_bind.
  cbn [fst snd userValues Request Response]. rewrite lookup_insert_ne by done. by rewrite lookup_empty.
Qed.
End spec.

(** ** TCC branches over the manager and the store *)

(** The transaction manager on a key space nobody else uses while a call runs. *)
Definition storeManager {GC : Codec GlobalSession.t} {BC : Codec BranchSession.t} (m : manager) (id now : Z) : HttpManager snapshot := {|
  tm_Begin name timeout s :=
    let '(r, s') := runOn (BeginTx m name timeout id now) s in
    (match r with Ok (xid, _) => Ok xid | Err e => Err e | Panic => Panic end, s');
  tm_Commit xid s :=
    let '(r, s') := runOn (TxManager.Commit xid) s in
    (match r with Ok (status, None) => Ok status | Ok (_, Some e) => Err e | Err e => Err e | Panic => Panic end, s');
  tm_Rollback xid s :=
    let '(r, s') := runOn (TxManager.Rollback xid) s in
    (match r with Ok (status, None) => Ok status | Ok (_, Some e) => Err e | Err e => Err e | Panic => Panic end, s');
  tm_Register r s :=
    let '(r, s') := runOn (BranchRegister m r id now) s in
    (match r with Ok (branchID, _) => Ok branchID | Err e => Err e | Panic => Panic end, s');
  tm_Report branchID status s := runOn (BranchReport branchID status) s |}.

(** A registration without row locks, run alone on an open transaction. *)
Lemma run_AddBranchSession_plain {GC : Codec GlobalSession.t} {BC : Codec BranchSession.t} s bs gs data :
  marshal bs = Ok data -> globalAt s (BranchSession.XID bs) gs -> GlobalSession.Status gs <= Begin -> takesLocks bs = false ->
  let ops := [OpPut (BranchSession.BranchID bs) data;
              OpPut (BranchKeyFormat (BranchSession.XID bs) (BranchSession.BranchSessionID bs)) (BranchSession.BranchID bs)] in
  txn_ok ops = true -> runOn (AddBranchSession bs) s = (Ok tt, apply_ops s ops).
Proof.
  intros Em (kv & Ek & Eu) Hst Ht ops Htx.
  unfold AddBranchSession. erewrite runOn_go by (cbn; by rewrite Em).
  erewrite runOn_attempt by (by apply run_getGlobalSession). cbv beta iota.
  rewrite Z.gtb_ltb. destruct (Z.ltb_spec Begin (GlobalSession.Status gs)); [lia|].
  rewrite Ht. erewrite runOn_go by reflexivity. erewrite runOn_go by (apply runOn_Txn; exact Htx).
  assert (Hc : forallb (cmp_ok s) (ModRevisionIs (BranchSession.XID bs) (ModRevision kv) :: (notFound <$> [])) = true).
  { cbn. unfold modOf. by rewrite Ek, Z.eqb_refl. }
  by rewrite Hc.
Qed.

(** What the second phase sends. *)
Lemma tccRequest_of `{FastHttp} `{Json} r host tcc commit :
  tccRequest (requestContextOf r host tcc) commit =
  mkHttp "http" host (if commit then commitPath tcc else rollbackPath tcc) (QueryString r)
    (foldl (fun m '(k, v) => <[k := v]> m) ∅ (hdrAll (requestHeader r))) (PostBody r).
Proof.
  unfold tccRequest, requestContextOf. cbn [ActionContext Headers Body]. f_equal.
  all: try (destruct commit); destruct (String.eqb_spec (QueryString r) EmptyString) as [E|E];
    rewrite ?E; repeat (rewrite lookup_insert_ne by done); rewrite ?lookup_insert_eq, ?lookup_singleton_eq; try done;
    rewrite ?lookup_singleton_ne by done; done.
Qed.

Section tcc.
Context `{FastHttp} `{Json} {GC : Codec GlobalSession.t} {BC : Codec BranchSession.t}.
Context (m : manager) (id now : Z) (f : httpFilter).
#[local] Existing Instance storeManager.

Definition tccBranchOf (r : httpRequest) (host : string) (tcc : TccResourceInfo) : BranchSession.t :=
  newBranchSession m (mkRequest (hdrPeek XID (requestHeader r)) (RequestURI r) EmptyString TCC
    (Encode (requestContextOf r host tcc))) id now.

End tcc.

(** ** Concrete requests *)
Fixpoint firstValue (k : string) (h : list (string * string)) : string :=
  match h with
  | [] => EmptyString
  | (k', v) :: h' => if EqualFold k k' && negb (String.eqb v EmptyString) then v else firstValue k h'
  end.
Lemma firstValue_snoc k v h : firstValue k h = EmptyString -> firstValue k (h ++ [(k, v)]) = v.
Proof.
  induction h as [|[k' v'] h IH]; cbn; [intros _; rewrite EqualFold_refl; by destruct (String.eqb_spec v EmptyString) as [->|]|].
  destruct (EqualFold k k' && negb (String.eqb v' EmptyString)) eqn:E; [|exact IH].
  intros ->. rewrite andb_comm in E. done.
Qed.
#[export] Instance listHeaders : FastHttp := {
  header := list (string * string);
  hdrAdd k v h := h ++ [(k, v)];
  hdrPeek := firstValue;
  hdrAll h := h;
  hdrPeek_add := firstValue_snoc;
  regexpMatch _ _ := Err "no expression" }.

Definition orderInfo : TransactionInfo := mkTransactionInfo "/v1/order/create" 60000 Exact.
Definition stockResource : TccResourceInfo := mkTccResourceInfo "/v1/stock/prepare" "/v1/stock/commit" "/v1/stock/rollback".
Definition sampleFilter : httpFilter := NewFilter [orderInfo] [stockResource].
Definition orderRequest : httpRequest := mkHttpRequest "POST" "/v1/order/create" EmptyString [("Accept", "*/*")]%string [1; 2].
Definition stockRequest : httpRequest :=
  mkHttpRequest "POST" "/v1/stock/prepare" EmptyString [("x-dbpack-xid", "gs/app/1")]%string [3].
Definition answersOk (r : httpRequest) (resp : httpResponse) (s : snapshot) : option string * httpResponse * snapshot :=
  (None, mkHttpResponse StatusOK "done", s).

Definition begun : snapshot :=
  snd (tm_Begin (HttpManager := storeManager sample_manager 1 1661000000000) "/v1/order/create" 60000 empty).

Definition committed : snapshot :=
  snd (tm_Commit (HttpManager := storeManager sample_manager 1 1661000000000) "gs/app/1" begun).
Lemma commit_begun :
  tm_Commit (HttpManager := storeManager sample_manager 1 1661000000000) "gs/app/1" begun = (Ok Committing, committed).
Proof. vm_compute. reflexivity. Qed.


Definition unreachable : HttpManager snapshot := {|
  tm_Begin _ _ s := (Err "etcd", s); tm_Commit _ s := (Err "etcd", s); tm_Rollback _ s := (Err "etcd", s);
  tm_Register _ s := (Err "etcd", s); tm_Report _ _ s := (Err "etcd", s) |}.
Lemma begin_failure_panics_witness :
  (handler "svc:80" answersOk [PreHandle (H1 := unreachable) sampleFilter] [PostHandle (H1 := unreachable) sampleFilter]
     (newCtx orderRequest, empty)).1 = Panic.
Proof. by apply (begin_failure_panics (H1 := unreachable) "svc:80" answersOk sampleFilter orderRequest empty orderInfo "etcd" empty). Defined.

Definition bareRequest : httpRequest (H := listHeaders) := mkHttpRequest "POST" "/v1/stock/prepare" EmptyString [] [].
Lemma missing_xid_panics_witness :
  (handler "svc:80" answersOk
     [PreHandle (H1 := storeManager sample_manager 1 1661000000000) sampleFilter]
     [PostHandle (H1 := storeManager sample_manager 1 1661000000000) sampleFilter]
     (newCtx bareRequest, empty)).1 = Panic.
Proof.
  apply (missing_xid_panics (H1 := storeManager sample_manager 1 1661000000000) "svc:80" answersOk sampleFilter
    bareRequest empty stockResource); vm_compute; reflexivity.
Defined.

Definition stockBranch : BranchSession.t := tccBranchOf sample_manager 7 1661000000001 stockRequest "svc:80" stockResource.

Lemma bytes_checked (l : bytes) : forallb (fun b => (0 <=? b) && (b <? 256)) l = true -> Forall is_byte l.
Proof.
  intros Hl. rewrite forallb_forall in Hl. apply List.Forall_forall. intros x Hx. specialize (Hl x Hx). unfold is_byte. lia.
Qed.
